(* ===== verification/_CoqProject ===== *)
-Q . S2P
Prelude.v
Accel.v
Bind.v
Tile.v
F16.v
Sha256.v
H15Lib.v
M2Walk.v
M2Tags.v
M2Build.v
M2Dev.v
Ane.v
Dart.v
Pool.v
ProgTab.v
T6021.v
T6021Inv.v
T6021Sys.v
Link.v
M1Map.v
M1Tm.v
M1Drv.v
Clocks.v
Stats.v
FwValidate.v
FwLoad.v
Boot.v
Chman.v
Adt.v
H16.v
