(* ===== verification/Prelude.v ===== *)
(** * omarchy-ane: a verification of the Apple Neural Engine stack

    The repository drives the Apple Neural Engine under Linux. A user-space
    library ([src/libane]) loads compiled programs, builds the firmware image
    of a program, moves tensors in and out of buffer objects and submits work
    through a DRM accel node; kernel drivers ([src/ane]) own the buffers, the
    IOMMU mappings and the engine: one for the M1 family ([src/ane/src]), one
    for the T6021 ([src/ane/t6021]), which talks to firmware over message
    rings. This development translates that code into Rocq functions, file by
    file, and proves what makes it correct.

    ** Parts of the program and files of the development

    - This file: machine integers with explicit wrap-around, the [res] monad
      ([Ret] a return, [Fail] an error return, [Fault] an access outside an
      object, a division by zero or exhausted fuel), byte buffers, the
      weakest-precondition predicates [wp] (no fault) and [twp] (returns, no
      fault, no error), sums over lists and maps, hint databases and tactics.
    - [Accel]: the UAPI records of [ane_accel.h] and the class [AneKernel]
      with [AneKernelLaws]: what the library may assume of the driver behind a
      file descriptor. A concrete driver instance shows the laws can hold.
    - [Bind] ([libane/ane_bind.h]): the walk of the H13 task stream, the map
      from roles to channels, the overrun check.
    - [Tile] ([ane_tile], [ane_untile] of [libane/ane.c]).
    - [F16] ([libane/ane_f16.h]): the conversions between half and single
      precision over IEEE 754 arithmetic on bit patterns.
    - [Sha256] ([libane/ane_sha256.c]): the portable and the NEON block, the
      incremental interface, and FIPS 180-4 as the specification.
    - [H15Lib] ([libane/ane_h15.c], [ane_h15_firmware.c],
      [ane_h18_firmware.c], the pins and layouts of [ane/h15] and [ane/h18]):
      the load command of an H15 program, and staging a pinned firmware.
    - [M2Walk], [M2Build], [M2Dev] ([libane/ane_m2.c]): splitting and walking
      an H14 program, the two builders of its six sections, the digest, and
      the device path from open to close. [M2Tags] defines the bindings of a
      program from the list of its BAR references, without the tables and
      passes of the code, and shows that the two agree.
    - [Ane] ([libane/ane.c]): discovery, the direct and staged loads,
      submission, the state loop, transfers, the entry points.
    - [Dart] ([ane/common/dart_t8110.h]): page tables.
    - [Pool] ([ane_t6021_pool.h]), [ProgTab] ([ane_t6021_progtab.h]): the
      section pool and the program table of the T6021 driver.
    - [T6021] ([ane_t6021_rtclient_main.c]): buffer objects, mappings, program
      load, lookup, process creation, execution and close, as functions on one
      driver state; [T6021Inv] its invariant, [T6021Sys] the system of all
      these calls as events.
    - [Link]: libane against the T6021 driver.
    - [M1Map] (the mapping layer of [ane/src/ane_drv.c], the scratch pages of
      [ane/src/ane_dart.c]), [M1Tm] ([ane/src/ane_tm.c] and the error latch of
      [ane_dart.c]) and [M1Drv] (objects, ioctls, suspend, removal of
      [ane_drv.c]): the M1 driver. The IOMMU core, [drm_mm] and the registers
      are classes; every register access is logged, and triples relate a
      function to a monitor of the log and to the device.
    - [Clocks] ([ane/src/ane_dvfs.c], [ane_dvfs_req.h], [ane_boost.c]): the
      clock level of the engine and the frequency held on the CPU clusters.
    - [Stats] ([ane/include/ane_stats.h], [ane/ane_stats_show.c]): the busy-time
      counters and the submission ring of both drivers, one atomic access per
      step, any number of threads.
    - [FwValidate] ([ane_fw_validate.h]): the Mach-O check of the pinned
      firmware images and the boot patches. [FwLoad] ([ane_t6021_fwload.c]):
      staging, patching and aliasing an image, and the teardown. [Boot]
      ([ane_t6021_boot.h], [ane_t6021_boot.c]): the register sequence that
      releases the coprocessor, the allocations and the init structure it gets,
      and the part of the probe that runs it. [Chman]: the channel table, the
      allocation ring and the command exchange with the running firmware
      ([ane_t6021_boot.h], [ane_t6021_legtab.h], [ane_t6021_mring.h],
      [ane_t6021_rtclient_main.c]). The device, the firmware, the coherent
      allocator and the IOMMU are parameters.
    - [Adt]: the flattened device tree the boot loader leaves behind, as an
      inductive type with its encoding, and the two walkers over it: the
      iterative one of [ane/h16/ane_h16_main.c] and the recursive one of
      [ane/h15/ane_h15_adt.h].
    - [H16] ([ane/h16/ane_h16_main.c], [ane_h16.h], [ane_h16_soc.c]): the
      bring-up module of the M4 family, from the opt-in key to the RTKit
      handshake and removal, as functions on a log of register accesses. It
      uses [Adt] for the segments, and the IOMMU and coherent-allocator
      classes of [M1Map] and [FwLoad].

    ** What the theorems show

    Library: the channel map of a program is exactly what its task stream
    names ([bind_init_derived]) and the overrun check is exact on streams that
    can be walked, the only ones it reports on ([bind_overrun_exact]); tiling and
    untiling are inverse and stay inside the planes; the conversion to half
    precision is correctly rounded and the one from it exact
    ([f32_to_f16_rounds], [f16_rows_exact]); the hash computes FIPS 180-4 on
    both paths; an H15 load is built exactly when its sections obey the rules,
    and its command is byte-exact ([h15_load_exact]), and a firmware is staged
    exactly when its digest is the pinned one ([firmware_stage_exact]); the
    splitter of an H14 program is sound, its derived io table is the header's
    and its derived bindings are those of the reference definition
    ([program_build_sound]), and the emitted sections decode to the model they
    came from, for both builders; sessions never leave a mapping and give every
    handle back exactly once, failed opens included; the direct and the staged
    load of an M1 program are equivalent; the state loop computes the n-th
    iterate. A few theorems exhibit inputs on which the code does not do what
    its comments say.

    Drivers: the T6021 pool keeps its budget under every interleaving of its
    atomic operations, and its retry loop terminates; in every reachable state
    of the T6021 driver the reference counts are exact, nothing freed is used,
    whatever a program or an in-flight load names stays allocated, and every
    call completes; page-table construction refines an abstract page map.
    On the M1 the engine is not accessed once a read has shown a DART fault,
    until the fault was read clear or the power was switched, and a
    completed task has its evidence ([tm_execute_monitored]); the IOMMU maps
    exactly the pages of live or preserved buffers, and a task that may still
    run keeps its memory until the engine was power-cycled
    ([m1_mappings_owned], [m1_failed_task_keeps_memory]). Its clock code writes
    only whole sequences of the PMP protocol and writes a request word back
    with only its own bit changed; the CPU boost registers every request once and drops it after the
    idle time ([dvfs_protocol], [boost_requests_exact], [boost_drops]).
    Bring-up of the T6021: the validator never leaves a blob and accepts
    exactly the pinned ones, the patches change exactly their fields; a failed
    load restores every translation, a successful one holds the pinned image
    with its boot fields and is aliased exactly when the entry is latched
    ([fw_validate_exact], [fwload_probe_exact]); every boot follows the register protocol
    and reports the phase it reached; a probe that fails has not released the
    CPU and holds nothing, one that succeeds keeps all memory the CPU may use.
    Whatever the firmware then writes into shared memory, commands stay inside
    their rings and buffers and the buffer table stays exact; an exchange
    succeeds exactly on the answer to its command, and does succeed when the
    firmware answers. The busy time of a quiescent device is the length of the
    union of the submission windows.
    Bring-up of the M4 family: on any bytes the walkers stay inside the region
    and end; on the encoding of a tree they find exactly the engine and the
    segments that tree has, and they agree with each other where the recursive
    one accepts. The H16 module touches the engine only behind a pass in which
    every power word is on, gives everything back when it refuses (but for
    mappings of others at the pages of its segments), starts the
    CPU only on an image that is the preloaded one and differs from the pinned
    file only where the code accepts that, and the words with which it answers
    each management message are given exactly ([h16_probe_gated], [h16_probe_owns], [h16_boot_started],
    [h16_rtkit_exact]).
    Composition: the library's digest is the one the T6021 driver computes, so
    a lookup finds what a load stored ([Link.m2_lookup_finds_load]).

    ** Modelling choices and bounds

    C integers are [Z] with the wrap of their width written out; memory is a
    list of bytes per object, and an access outside it is a [Fault] that no
    theorem ignores. Loops are structural where the source counts, and use
    [loop] with fuel otherwise; the fuel is the size of the object walked plus
    one, and the [twp] or [wp] theorems show it is never exhausted. Code
    outside [src/] (kernel allocators, the DRM and IOMMU cores, the ARM SHA
    instructions, the firmware's answers) is a parameter or a class with laws,
    and every theorem that uses one has a witness with a concrete instance.
    A kernel call is one step of its system, except where it releases a lock:
    the T6021 exchanges are split at the doorbell, the pool's park at its
    atomic operations, and an M1 ioctl at every critical section, lookup and
    reference drop. The M1 theorems assume buffers below 4 GiB ([M1Drv.small]):
    [m1_large_object_unmaps_others] shows what happens beyond. [T6021Sys.bounded]
    limits a run to 7281 loads and fewer than 2^32 - 1 opens, because the
    section counter of a buffer has 16 bits (a load takes at most 9) and a
    program's user count 32; [Pool] allows 2048 parks in flight, below which
    the 64-bit byte counter cannot overflow for a 32-bit budget. [Stats] assumes
    sequentially consistent memory and fewer than 2^32 - 1 submissions in
    flight ([Stats.LIVE_MAX]). In [Boot] a device is a function of the accesses
    so far; in [Chman] the firmware acts before every load of the host, the
    polls before a deadline are a parameter, and a settle makes at most 65
    rounds of them. [FwValidate.thread_fuel] exceeds the number of thread
    states that fit in the load commands. The walks of [Adt] get as many rounds
    as the region has bytes; the H16 walker follows 33 levels, and a blob of
    the H15 walker stays below 2^31 - 64 bytes ([Adt.h15_blob]), so that its
    32-bit offsets do not wrap. [H16.h16_world] asks for segments of whole
    16 KiB pages, the data segment below 4 GiB, for the laws of the
    mapping calls, and for a firmware that posts finitely many messages: a
    mailbox that never empties is polled for ever. [alias_refusal_unmaps] shows
    what happens to a segment that another user has mapped. [FwLoad.pin_ok]
    asks that a blob with the pinned hash has at most two segment commands,
    since the validator stores them before it counts them
    ([segs_out_overflow]). The monitor of [M1Tm] starts with no error register
    read ([mon0]); it does not assume that the latches are clear. In [F16] the
    pattern of a NaN that an operation returns is a parameter. [Boost.runs]
    ends before 2^62 jiffies and [boost_drops] asks for an idle time of at most
    2^61 and one that does not change: [boost_idle_raised_stuck] shows why.

    ** Not modelled

    Timing and logging; the depth of the kernel stack under the recursion of
    [Adt.h15_subtree_end]; a failing seek in [Ane.ane_pread]; firmware stores
    between the loads of one check of the channel table
    ([Chman.ane_t6021_chman_ch], which the firmware precedes with one step);
    in the exchanges of [T6021] the answer is an outcome of
    the call ([Chman] models the rings behind it); the RTKit mailbox, the TD
    trace and the power gate of the T6021 driver; device-tree parsing and
    power-domain attachment of the M1 driver, the attributes of its CPU
    mappings, and where its clock code is called from; the H15 and H18
    bring-up modules beside the device-tree walk, the pins and the layouts,
    which have the shape of the H16 one, the H13 probes, which are
    register sequences, and the device-tree overlay that registers the H16
    driver; command-line tools, simulators, tests and bindings. *)

From Stdlib Require Export Sorted ZifyBool.
From stdpp Require Export base gmap list numbers list_numbers.
From stdpp Require Export ssreflect.

#[global] Open Scope Z_scope.

(** ** Machine integers

    A C unsigned integer of [w] bits is a [Z] in [[0, 2^w)]; every operation
    that can leave the range is wrapped explicitly. *)

Definition wrap (w z : Z) : Z := z mod 2 ^ w.

Abbreviation u8 := (wrap 8).
Abbreviation u16 := (wrap 16).
Abbreviation u32 := (wrap 32).
Abbreviation u64 := (wrap 64).

Definition U32_MAX : Z := 2 ^ 32 - 1.
Definition U64_MAX : Z := 2 ^ 64 - 1.

Definition in_range (w z : Z) : Prop := 0 <= z < 2 ^ w.

#[global] Instance in_range_dec w z : Decision (in_range w z).
Proof. unfold in_range. apply _. Defined.

(** ** Results

    A C function that returns an error code is a computation in [res]:
    [Ret] is a normal return, [Fail] the error return, [Fault] an access
    outside an object, a division by zero, or a loop that used up its fuel.
    No theorem of the development ignores [Fault]: [wp] below excludes it. *)

Inductive errno :=
  | EPERM | EIO | EAGAIN | ENOMEM | EBUSY | EEXIST | ENODEV | EINVAL
  | ENOSPC | ERANGE | EOPNOTSUPP | ETIMEDOUT | ECANCELED | EBADMSG
  | ENOENT | EFAULT | EPROTO | ENOTTY | ENXIO | ESRCH | EALREADY | E2BIG | EPROBE_DEFER
  | ENODATA | EOVERFLOW | EFBIG | EACCES.

Inductive fault := OutOfBounds | DivByZero | OutOfFuel.

Inductive res (A : Type) :=
  | Ret (a : A)
  | Fail (e : errno)
  | Fault (w : fault).
Arguments Ret {A} _.
Arguments Fail {A} _.
Arguments Fault {A} _.

#[global] Instance errno_eq_dec : EqDecision errno.
Proof. solve_decision. Defined.

#[global] Instance fault_eq_dec : EqDecision fault.
Proof. solve_decision. Defined.

#[global] Instance res_eq_dec `{EqDecision A} : EqDecision (res A).
Proof. solve_decision. Defined.

#[global] Instance res_ret : MRet res := @Ret.

#[global] Instance res_bind : MBind res := fun A B f m =>
  match m with
  | Ret a => f a
  | Fail e => Fail e
  | Fault w => Fault w
  end.

(** [guard_fail b e] is [if (b) return -e;]. *)
Definition guard_fail (b : bool) (e : errno) : res unit :=
  if b then Fail e else Ret tt.

(** A monadic left fold: a [for] loop over the elements of a list. *)
Fixpoint foldM {A S : Type} (f : S -> A -> res S) (s : S) (l : list A) : res S :=
  match l with
  | [] => Ret s
  | x :: l' => f s x ≫= (fun s' => foldM f s' l')
  end.

(** A [while] loop: the body continues with a new state ([inl]) or leaves
    the loop ([inr]). *)
Fixpoint loop {S A : Type} (fuel : nat) (body : S -> res (S + A)) (s : S) : res A :=
  match fuel with
  | O => Fault OutOfFuel
  | S fuel' =>
      body s ≫= (fun r =>
        match r with
        | inl s' => loop fuel' body s'
        | inr a => Ret a
        end)
  end.

(** *** Weakest preconditions

    [wp m Q]: [m] does not fault, and if it returns normally the result
    satisfies [Q]. [twp m Q] also excludes the error return. *)

Definition wp {A} (m : res A) (Q : A -> Prop) : Prop :=
  match m with
  | Ret a => Q a
  | Fail _ => True
  | Fault _ => False
  end.

Definition twp {A} (m : res A) (Q : A -> Prop) : Prop :=
  match m with
  | Ret a => Q a
  | _ => False
  end.

Section wp.
Context {A B : Type}.
Implicit Types (m : res A) (Q : A -> Prop).

Lemma wp_ret a Q : Q a -> wp (Ret a) Q.
Proof. done. Qed.

Lemma wp_fail e Q : wp (Fail e) Q.
Proof. done. Qed.

Lemma wp_bind m (f : A -> res B) (Q : B -> Prop) :
  wp m (fun a => wp (f a) Q) -> wp (m ≫= f) Q.
Proof. by destruct m. Qed.

Lemma wp_mono m Q Q' : wp m Q -> (forall a, Q a -> Q' a) -> wp m Q'.
Proof. destruct m; simpl; auto. Qed.

Lemma wp_mono_bind m (f : A -> res B) Q (Q' : B -> Prop) :
  wp m Q -> (forall a, Q a -> wp (f a) Q') -> wp (m ≫= f) Q'.
Proof. intros Hm Hf. apply wp_bind. by eapply wp_mono. Qed.

Lemma wp_conj m Q Q' : wp m Q -> wp m Q' -> wp m (fun a => Q a /\ Q' a).
Proof. destruct m; simpl; auto. Qed.

Lemma wp_inv m Q a : wp m Q -> m = Ret a -> Q a.
Proof. by intros H ->. Qed.

(** What [wp] gives when nothing is said of the result: no fault. *)
Lemma wp_no_fault m Q w : wp m Q -> m <> Fault w.
Proof. by intros H ->. Qed.

Lemma wp_iff m Q : (forall w, m <> Fault w) -> (forall a, m = Ret a -> Q a) -> wp m Q.
Proof. destruct m; simpl; naive_solver. Qed.

Lemma wp_true m Q : wp m Q -> wp m (fun _ => True).
Proof. by destruct m. Qed.

Lemma twp_wp m Q : twp m Q -> wp m Q.
Proof. by destruct m. Qed.

Lemma twp_bind m (f : A -> res B) (Q : B -> Prop) :
  twp m (fun a => twp (f a) Q) -> twp (m ≫= f) Q.
Proof. by destruct m. Qed.

Lemma twp_mono m Q Q' : twp m Q -> (forall a, Q a -> Q' a) -> twp m Q'.
Proof. destruct m; simpl; auto. Qed.

Lemma twp_ex m Q : twp m Q -> exists a, m = Ret a /\ Q a.
Proof. destruct m; simpl; naive_solver. Qed.

Lemma bind_Ret_inv m (f : A -> res B) b :
  m ≫= f = Ret b -> exists a, m = Ret a /\ f a = Ret b.
Proof. destruct m; simpl; naive_solver. Qed.
End wp.

Lemma wp_guard_fail b e Q : (b = false -> Q tt) -> wp (guard_fail b e) Q.
Proof. destruct b; simpl; auto. Qed.

Lemma guard_fail_Ret b e u : guard_fail b e = Ret u <-> b = false.
Proof. destruct b, u; simpl; naive_solver. Qed.

(** Invariant rule for [foldM]: [I] holds of the elements consumed so far
    and the accumulator. *)
Lemma wp_foldM {A S} (f : S -> A -> res S) (I : list A -> S -> Prop) (l : list A) (s : S) :
  I [] s ->
  (forall pre x s', x ∈ l -> I pre s' -> wp (f s' x) (I (pre ++ [x]))) ->
  wp (foldM f s l) (I l).
Proof.
  intros H0 Hstep.
  enough (forall pre suf s', l = pre ++ suf -> I pre s' -> wp (foldM f s' suf) (I l)) as H.
  { by eapply (H []). }
  intros pre suf. revert pre.
  induction suf as [|x suf IH]; intros pre s' Hl HI; simpl.
  { by rewrite app_nil_r in Hl; subst. }
  apply wp_bind. eapply wp_mono.
  { apply Hstep; [set_solver | done]. }
  intros s'' HI'. apply (IH (pre ++ [x])); [by rewrite -assoc | done].
Qed.

Lemma wp_foldM_simple {A S} (f : S -> A -> res S) (I : S -> Prop) (l : list A) (s : S) :
  I s ->
  (forall x s', x ∈ l -> I s' -> wp (f s' x) I) ->
  wp (foldM f s l) I.
Proof. intros H0 Hs. apply (wp_foldM f (fun _ => I)); auto. Qed.

Lemma foldM_app {A S} (f : S -> A -> res S) s (l1 l2 : list A) :
  foldM f s (l1 ++ l2) = foldM f s l1 ≫= (fun s' => foldM f s' l2).
Proof.
  revert s; induction l1 as [|x l1 IH]; intros s; simpl; [done|].
  destruct (f s x); simpl; auto.
Qed.

(** Total-correctness rule for [loop]: an invariant and a measure that every
    continuing iteration decreases. *)
Lemma loop_S {S A} fuel (body : S -> res (S + A)) s :
  loop (Datatypes.S fuel) body s =
  body s ≫= (fun r => match r with inl s' => loop fuel body s' | inr a => Ret a end).
Proof. done. Qed.

Lemma wp_loop {S A} (body : S -> res (S + A)) (I : S -> Prop) (mu : S -> nat)
    (Q : A -> Prop) (fuel : nat) (s : S) :
  (forall s', I s' ->
    wp (body s') (fun r => match r with inl s'' => I s'' /\ (mu s'' < mu s')%nat
                                    | inr a => Q a end)) ->
  I s -> (mu s < fuel)%nat -> wp (loop fuel body s) Q.
Proof.
  intros Hb. revert s. induction fuel as [|fuel IH]; intros s HI Hmu; [lia|].
  simpl. apply wp_bind. eapply wp_mono; [by apply Hb|].
  intros [s''|a]; simpl; [|done]. intros [HI' Hlt]. apply IH; [done|lia].
Qed.

(** What holds of the result of a loop that returned. *)
Lemma twp_loop {S A} (body : S -> res (S + A)) (I : S -> Prop) (mu : S -> nat)
    (Q : A -> Prop) (fuel : nat) (s : S) :
  (forall s', I s' ->
    twp (body s') (fun r => match r with inl s'' => I s'' /\ (mu s'' < mu s')%nat
                                     | inr a => Q a end)) ->
  I s -> (mu s < fuel)%nat -> twp (loop fuel body s) Q.
Proof.
  intros Hb. revert s. induction fuel as [|fuel IH]; intros s HI Hmu; [lia|].
  simpl. apply twp_bind. eapply twp_mono; [by apply Hb|].
  intros [s''|a]; [|done]. intros [HI' Hlt]. apply IH; [done|lia].
Qed.

Lemma loop_inv {S A} (body : S -> res (S + A)) (I : S -> Prop) (Q : A -> Prop) fuel s a :
  (forall s', I s' -> match body s' with
                      | Ret (inl s'') => I s''
                      | Ret (inr a) => Q a
                      | _ => True
                      end) ->
  I s -> loop fuel body s = Ret a -> Q a.
Proof.
  intros Hb. revert s. induction fuel as [|fuel IH]; intros s HI Hl; [done|].
  rewrite loop_S in Hl. specialize (Hb s HI). destruct (body s) as [[s''|a']| |]; try done.
  - by apply (IH s'').
  - cbn in Hl. by injection Hl as <-.
Qed.

(** A loop that appends one loaded value per element. *)
Lemma foldM_collect {A B} (f : A -> res B) (g : A -> B) (l : list A) acc :
  (forall x, x ∈ l -> f x = Ret (g x)) ->
  foldM (fun acc x => v ← f x; Ret (acc ++ [v])) acc l = Ret (acc ++ map g l).
Proof.
  revert acc. induction l as [|x l IH]; intros acc Hf; [by rewrite app_nil_r|].
  cbn [foldM map]. rewrite Hf; [|left]. cbn [mbind res_bind].
  rewrite IH; [|by intros y Hy; apply Hf; right]. by rewrite -app_assoc.
Qed.

(** ** Bytes and buffers

    A memory object is a list of bytes; a pointer into it is a byte offset.
    Every access is checked: outside the object it is [Fault OutOfBounds]. *)

Abbreviation bytes := (list Z).

Definition byte_ok (b : Z) : Prop := 0 <= b < 256.
Abbreviation bytes_ok := (Forall byte_ok).

Definition zlen {A} (l : list A) : Z := Z.of_nat (length l).

Definition rd8 (m : bytes) (off : Z) : res Z :=
  if bool_decide (0 <= off) then
    match m !! Z.to_nat off with
    | Some b => Ret b
    | None => Fault OutOfBounds
    end
  else Fault OutOfBounds.

Definition wr8 (m : bytes) (off v : Z) : res bytes :=
  if bool_decide (0 <= off < zlen m) then Ret (<[Z.to_nat off := u8 v]> m)
  else Fault OutOfBounds.

(** [patch m off bs] is [m] with the bytes [bs] stored at [off]. *)
Definition patch (m : bytes) (off : Z) (bs : bytes) : bytes :=
  take (Z.to_nat off) m ++ bs ++ drop (Z.to_nat (off + zlen bs)) m.

(** [slice m off n]: the [n] bytes at [off]. *)
Definition slice (m : bytes) (off n : Z) : bytes :=
  take (Z.to_nat n) (drop (Z.to_nat off) m).

(** [!strncmp(m + off, s, n)]; [s] ends in a zero byte. *)
Fixpoint strncmp_eq (m : bytes) (off : Z) (s : bytes) (n : nat) : res bool :=
  match n, s with
  | O, _ => Ret true
  | S n', b :: s' =>
      a ← rd8 m off;
      if negb (a =? b) then Ret false
      else if a =? 0 then Ret true
      else strncmp_eq m (off + 1) s' n'
  | S _, [] => Fault OutOfBounds
  end.

(** [memcpy(dst + doff, src + soff, n)]. *)
Definition memcpy (dst : bytes) (doff : Z) (src : bytes) (soff n : Z) : res bytes :=
  if bool_decide (0 <= n /\ 0 <= doff /\ doff + n <= zlen dst /\
                  0 <= soff /\ soff + n <= zlen src) then
    Ret (patch dst doff (slice src soff n))
  else Fault OutOfBounds.

(** [memset(dst + doff, v, n)]. *)
Definition memset (dst : bytes) (doff v n : Z) : res bytes :=
  if bool_decide (0 <= n /\ 0 <= doff /\ doff + n <= zlen dst) then
    Ret (patch dst doff (replicate (Z.to_nat n) (u8 v)))
  else Fault OutOfBounds.

(** Little-endian loads and stores, written with the shifts and ors of the
    C helpers ([le16], [le32], [le64], [ane_bind_word], [put_le32],
    [put_le64]). *)

Definition lor4 (b0 b1 b2 b3 : Z) : Z :=
  Z.lor (Z.lor (Z.lor b0 (Z.shiftl b1 8)) (Z.shiftl b2 16)) (Z.shiftl b3 24).

Definition le16 (m : bytes) (p : Z) : res Z :=
  b0 ← rd8 m p;
  b1 ← rd8 m (p + 1);
  Ret (u16 (Z.lor b0 (Z.shiftl b1 8))).

Definition le32 (m : bytes) (p : Z) : res Z :=
  b0 ← rd8 m p;
  b1 ← rd8 m (p + 1);
  b2 ← rd8 m (p + 2);
  b3 ← rd8 m (p + 3);
  Ret (lor4 b0 b1 b2 b3).

Definition le64 (m : bytes) (p : Z) : res Z :=
  lo ← le32 m p;
  hi ← le32 m (p + 4);
  Ret (Z.lor lo (Z.shiftl hi 32)).

Definition put_le32 (m : bytes) (p v : Z) : res bytes :=
  m ← wr8 m p v;
  m ← wr8 m (p + 1) (Z.shiftr v 8);
  m ← wr8 m (p + 2) (Z.shiftr v 16);
  wr8 m (p + 3) (Z.shiftr v 24).

Definition put_le64 (m : bytes) (p v : Z) : res bytes :=
  m ← put_le32 m p (u32 v);
  put_le32 m (p + 4) (u32 (Z.shiftr v 32)).

(** ** Computations on a prefix of a buffer

    [le_fault r r']: [r] is [r'], or it faulted. A computation that only loads
    from a buffer is [le_fault] the same computation on a longer one, so where
    the first does not fault the bytes past the prefix do not matter. *)

Definition le_fault {A} (r r' : res A) : Prop := r = r' \/ exists w, r = Fault w.

Lemma le_fault_refl {A} (r : res A) : le_fault r r.
Proof. by left. Qed.

Lemma le_fault_eq {A} (r r' : res A) : le_fault r r' -> (forall w, r <> Fault w) -> r = r'.
Proof. intros [->|[w ->]] Hn; [done|]. by destruct (Hn w). Qed.

Lemma le_fault_bind {A B} (r r' : res A) (f f' : A -> res B) :
  le_fault r r' -> (forall a, le_fault (f a) (f' a)) -> le_fault (r ≫= f) (r' ≫= f').
Proof. intros [->|[w ->]] Hf; [|right; by exists w]. destruct r'; [apply Hf|by left|by left]. Qed.

Lemma le_fault_foldM {A B} (f f' : B -> A -> res B) l b :
  (forall b a, le_fault (f b a) (f' b a)) -> le_fault (foldM f b l) (foldM f' b l).
Proof.
  intros Hf. revert b. induction l as [|a l IH]; intros b; [by left|]. cbn [foldM].
  apply le_fault_bind; [apply Hf|apply IH].
Qed.

Lemma le_fault_loop {A B} (f f' : A -> res (A + B)) fuel a :
  (forall a, le_fault (f a) (f' a)) -> le_fault (loop fuel f a) (loop fuel f' a).
Proof.
  intros Hf. revert a. induction fuel as [|fuel IH]; intros a; [by left|]. cbn [loop].
  apply le_fault_bind; [apply Hf|]. intros [a'|b]; [apply IH|by left].
Qed.

Lemma le_fault_rd8 m m' off : m `prefix_of` m' -> le_fault (rd8 m off) (rd8 m' off).
Proof.
  intros [rest ->]. unfold rd8. case_bool_decide; [|by left].
  destruct (m !! Z.to_nat off) as [b|] eqn:E; [|right; by exists OutOfBounds].
  left. by rewrite (lookup_app_l_Some _ _ _ _ E).
Qed.

(** ** Integer and bit lemmas *)

Create HintDb bits.
Create HintDb wp.
Create Rewrite HintDb zlen.

Lemma wrap_range w z : 0 <= w -> 0 <= wrap w z < 2 ^ w.
Proof. intros. apply Z.mod_pos_bound. lia. Qed.

Lemma wrap_small w z : 0 <= z < 2 ^ w -> wrap w z = z.
Proof. apply Z.mod_small. Qed.

Lemma wrap_wrap w z : 0 <= w -> wrap w (wrap w z) = wrap w z.
Proof. intros. apply Z.mod_mod. lia. Qed.

Lemma wrap_idem_le w w' z : 0 <= w <= w' -> wrap w (wrap w' z) = wrap w z.
Proof.
  intros. unfold wrap. apply Z.mod_mod_divide.
  exists (2 ^ (w' - w)). rewrite -Z.pow_add_r; [f_equal; lia | lia | lia].
Qed.

Lemma testbit_wrap w z i : 0 <= w -> Z.testbit (wrap w z) i = bool_decide (i < w) && Z.testbit z i.
Proof.
  intros Hw. unfold wrap. rewrite Z.testbit_mod_pow2; [|done].
  f_equal. by case_bool_decide; lia.
Qed.

Lemma in_range_testbit w z i : in_range w z -> 0 <= w -> w <= i -> Z.testbit z i = false.
Proof.
  intros Hz Hw Hi. rewrite -(Z.mod_small z (2 ^ w)); [|done].
  by apply Z.mod_pow2_bits_high.
Qed.

Lemma in_range_lor w a b : 0 <= w -> in_range w a -> in_range w b -> in_range w (Z.lor a b).
Proof.
  unfold in_range. intros Hw Ha Hb.
  assert (0 <= Z.lor a b) by (apply Z.lor_nonneg; lia).
  split; [done|]. destruct (Z.eq_dec (Z.lor a b) 0) as [->|Hne]; [lia|].
  apply Z.log2_lt_pow2; [lia|]. rewrite Z.log2_lor; [|lia..].
  destruct (Z.eq_dec w 0) as [->|].
  { assert (a = 0) by lia. assert (b = 0) by lia. by subst. }
  assert (forall x, 0 <= x < 2 ^ w -> Z.log2 x < w) as Hl.
  { intros x Hx. destruct (Z.eq_dec x 0) as [->|]; [simpl; lia|]. apply Z.log2_lt_pow2; lia. }
  pose proof (Hl a Ha). pose proof (Hl b Hb). lia.
Qed.

Lemma in_range_shiftl w n a :
  0 <= n -> 0 <= a < 2 ^ (w - n) -> n <= w -> in_range w (Z.shiftl a n).
Proof.
  intros Hn Ha Hw. unfold in_range. rewrite Z.shiftl_mul_pow2; [|done].
  replace w with ((w - n) + n) by lia. rewrite Z.pow_add_r; [|lia..].
  assert (0 < 2 ^ n) by lia. nia.
Qed.

Lemma in_range_le w w' a : in_range w a -> 0 <= w <= w' -> in_range w' a.
Proof.
  unfold in_range. intros Ha Hw. pose proof (Z.pow_le_mono_r 2 w w'). lia.
Qed.

(** Bitwise [or] of disjoint fields is their sum. *)
Lemma land_shiftl_disjoint a b n : 0 <= n -> 0 <= a < 2 ^ n -> Z.land a (Z.shiftl b n) = 0.
Proof.
  intros Hn Ha. apply Z.bits_inj'; intros i Hi. rewrite Z.land_spec Z.testbit_0_l.
  destruct (Z.lt_ge_cases i n).
  - by rewrite (Z.shiftl_spec_low b n i) ?andb_false_r.
  - by rewrite (in_range_testbit n a i).
Qed.

Lemma lor_shiftl_add a b n : 0 <= n -> 0 <= a < 2 ^ n -> Z.lor a (Z.shiftl b n) = a + b * 2 ^ n.
Proof.
  intros Hn Ha. rewrite -Z.shiftl_mul_pow2; [|done].
  rewrite -Z.lxor_lor; [symmetry; apply Z.add_nocarry_lxor|]; by apply land_shiftl_disjoint.
Qed.

Lemma lor4_sum b0 b1 b2 b3 :
  byte_ok b0 -> byte_ok b1 -> byte_ok b2 -> byte_ok b3 ->
  lor4 b0 b1 b2 b3 = b0 + b1 * 256 + b2 * 65536 + b3 * 16777216.
Proof.
  unfold lor4, byte_ok. intros.
  rewrite (lor_shiftl_add b0 b1 8); [|lia..].
  rewrite (lor_shiftl_add _ b2 16); [|lia..].
  rewrite (lor_shiftl_add _ b3 24); lia.
Qed.

Lemma land_mask_mod z n : 0 <= n -> Z.land z (2 ^ n - 1) = z mod 2 ^ n.
Proof.
  intros. replace (2 ^ n - 1) with (Z.ones n).
  - by apply Z.land_ones.
  - rewrite Z.ones_equiv. lia.
Qed.

(** A field of [w] bits from bit [n] on. *)
Lemma land_field x n w : 0 <= n -> 0 <= w -> Z.land x (Z.shiftl (2 ^ w - 1) n) = x / 2 ^ n mod 2 ^ w * 2 ^ n.
Proof.
  intros Hn Hw. rewrite -land_mask_mod; [|done]. rewrite -Z.shiftr_div_pow2; [|done]. rewrite -Z.shiftl_mul_pow2; [|done].
  apply Z.bits_inj'. intros i Hi. rewrite Z.land_spec. destruct (decide (i < n)) as [Hlt|Hge].
  - rewrite !Z.shiftl_spec_low //. by rewrite andb_false_r.
  - rewrite !Z.shiftl_spec_high; [|lia..]. rewrite Z.land_spec Z.shiftr_spec; [|lia]. by replace (i - n + n) with i by lia.
Qed.

Lemma land_ldiff_split z m : m = Z.land z m + Z.ldiff m z.
Proof.
  rewrite Z.add_nocarry_lxor; apply Z.bits_inj'; intros i Hi.
  - rewrite Z.lxor_spec Z.land_spec Z.ldiff_spec.
    by destruct (Z.testbit m i), (Z.testbit z i).
  - rewrite !Z.land_spec Z.ldiff_spec Z.testbit_0_l.
    by destruct (Z.testbit m i), (Z.testbit z i).
Qed.

Lemma land_le_r z m : 0 <= m -> 0 <= Z.land z m <= m.
Proof.
  intros Hm. split; [apply Z.land_nonneg; lia|].
  pose proof (land_ldiff_split z m). assert (0 <= Z.ldiff m z) by (apply Z.ldiff_nonneg; lia).
  lia.
Qed.

(** ** Buffer lemmas *)

Lemma zlen_nonneg {A} (l : list A) : 0 <= zlen l.
Proof. unfold zlen. lia. Qed.

Lemma zlen_app {A} (l1 l2 : list A) : zlen (l1 ++ l2) = zlen l1 + zlen l2.
Proof. unfold zlen. rewrite length_app. lia. Qed.

Lemma zlen_replicate {A} n (x : A) : zlen (replicate n x) = Z.of_nat n.
Proof. unfold zlen. by rewrite length_replicate. Qed.

Lemma zlen_insert {A} i (x : A) l : zlen (<[i:=x]> l) = zlen l.
Proof. unfold zlen. by rewrite length_insert. Qed.

#[export] Hint Rewrite @zlen_app @zlen_replicate @zlen_insert : zlen.

Lemma lookup_in_bounds {A} (l : list A) i :
  0 <= i < zlen l -> exists x, l !! Z.to_nat i = Some x.
Proof.
  unfold zlen. intros Hi. apply lookup_lt_is_Some_2. lia.
Qed.

(** The byte at an offset, [0] outside the buffer. *)
Definition byte_at (m : bytes) (off : Z) : Z := default 0 (m !! Z.to_nat off).

Lemma rd8_eq m off : 0 <= off < zlen m -> rd8 m off = Ret (byte_at m off).
Proof.
  intros Hoff. unfold rd8, byte_at. rewrite bool_decide_eq_true_2; [|lia].
  by destruct (lookup_in_bounds m off) as [x ->].
Qed.

Lemma byte_at_ok m off : bytes_ok m -> byte_ok (byte_at m off).
Proof.
  intros Hm. unfold byte_at. destruct (m !! Z.to_nat off) as [b|] eqn:E; simpl.
  - by eapply Forall_lookup_1.
  - unfold byte_ok; lia.
Qed.

Lemma wp_rd8 m off : bytes_ok m -> 0 <= off < zlen m -> twp (rd8 m off) byte_ok.
Proof. intros. rewrite rd8_eq //. by apply byte_at_ok. Qed.

(** Little-endian words at an offset as arithmetic on [byte_at]. *)
Definition word32_at (m : bytes) (p : Z) : Z :=
  lor4 (byte_at m p) (byte_at m (p + 1)) (byte_at m (p + 2)) (byte_at m (p + 3)).

Lemma le32_eq m p : 0 <= p -> p + 4 <= zlen m -> le32 m p = Ret (word32_at m p).
Proof. intros. unfold le32. rewrite !rd8_eq //; lia. Qed.

Lemma word32_at_range m p : bytes_ok m -> in_range 32 (word32_at m p).
Proof.
  intros Hm. unfold word32_at.
  pose proof (byte_at_ok m p Hm). pose proof (byte_at_ok m (p + 1) Hm).
  pose proof (byte_at_ok m (p + 2) Hm). pose proof (byte_at_ok m (p + 3) Hm).
  rewrite lor4_sum //. unfold byte_ok, in_range in *. lia.
Qed.

Definition word16_at (m : bytes) (p : Z) : Z :=
  u16 (Z.lor (byte_at m p) (Z.shiftl (byte_at m (p + 1)) 8)).

Lemma le16_eq m p : 0 <= p -> p + 2 <= zlen m -> le16 m p = Ret (word16_at m p).
Proof. intros. unfold le16. rewrite !rd8_eq //; lia. Qed.

Definition word64_at (m : bytes) (p : Z) : Z :=
  Z.lor (word32_at m p) (Z.shiftl (word32_at m (p + 4)) 32).

Lemma le64_eq m p : 0 <= p -> p + 8 <= zlen m -> le64 m p = Ret (word64_at m p).
Proof. intros. unfold le64. rewrite !le32_eq //; lia. Qed.

Lemma word64_at_range m p : bytes_ok m -> in_range 64 (word64_at m p).
Proof.
  intros Hm. unfold word64_at.
  pose proof (word32_at_range m p Hm). pose proof (word32_at_range m (p + 4) Hm).
  unfold in_range in *. rewrite lor_shiftl_add; lia.
Qed.

Lemma wp_le16 m p :
  bytes_ok m -> 0 <= p -> p + 2 <= zlen m -> twp (le16 m p) (in_range 16).
Proof. intros. rewrite le16_eq //=. apply wrap_range. lia. Qed.

Lemma wp_le32 m p :
  bytes_ok m -> 0 <= p -> p + 4 <= zlen m -> twp (le32 m p) (in_range 32).
Proof. intros. rewrite le32_eq //=. by apply word32_at_range. Qed.

Lemma wp_le64 m p :
  bytes_ok m -> 0 <= p -> p + 8 <= zlen m -> twp (le64 m p) (in_range 64).
Proof. intros. rewrite le64_eq //=. by apply word64_at_range. Qed.

(** Stores. *)
Lemma wr8_eq m off v :
  0 <= off < zlen m -> wr8 m off v = Ret (<[Z.to_nat off := u8 v]> m).
Proof. intros. unfold wr8. by rewrite bool_decide_eq_true_2. Qed.

Lemma byte_ok_u8 v : byte_ok (u8 v).
Proof. apply (wrap_range 8). lia. Qed.

Lemma bytes_ok_insert m i b : bytes_ok m -> byte_ok b -> bytes_ok (<[i:=b]> m).
Proof. intros. by apply Forall_insert. Qed.

Lemma byte_at_insert m i j b :
  0 <= i < zlen m -> 0 <= j ->
  byte_at (<[Z.to_nat i := b]> m) j = if bool_decide (i = j) then b else byte_at m j.
Proof.
  unfold byte_at, zlen. intros Hi Hj. case_bool_decide as Hij.
  - subst j. by rewrite list_lookup_insert_eq; [|lia].
  - rewrite list_lookup_insert_ne //. lia.
Qed.

(** Two buffers of the same length with the same bytes are equal. *)
Lemma bytes_ext (m m' : bytes) :
  zlen m = zlen m' -> (forall i, 0 <= i < zlen m -> byte_at m i = byte_at m' i) -> m = m'.
Proof.
  unfold zlen, byte_at. intros Hl H. apply list_eq_same_length with (length m); [lia..|].
  intros i x y Hi Hx Hy. specialize (H (Z.of_nat i)).
  rewrite Nat2Z.id Hx Hy in H. apply H. lia.
Qed.

Section patch.
Implicit Types (m bs : bytes) (off i n v : Z).

Lemma zlen_patch m off bs :
  0 <= off -> off + zlen bs <= zlen m -> zlen (patch m off bs) = zlen m.
Proof.
  unfold patch, zlen. intros. rewrite !length_app length_take length_drop. lia.
Qed.

Lemma zlen_slice m off n :
  0 <= off -> 0 <= n -> off + n <= zlen m -> zlen (slice m off n) = n.
Proof. unfold slice, zlen. intros. rewrite length_take length_drop. lia. Qed.

Lemma byte_at_slice m off n i :
  0 <= off -> 0 <= i < n -> byte_at (slice m off n) i = byte_at m (off + i).
Proof.
  intros. unfold byte_at, slice. rewrite lookup_take_lt; [|lia].
  rewrite lookup_drop. do 2 f_equal. lia.
Qed.

Lemma byte_at_patch m off bs i :
  0 <= off -> off + zlen bs <= zlen m -> 0 <= i ->
  byte_at (patch m off bs) i =
  if bool_decide (off <= i < off + zlen bs) then byte_at bs (i - off) else byte_at m i.
Proof.
  unfold zlen. intros Hoff Hlen Hi. unfold byte_at, patch, zlen.
  case_bool_decide as Hin.
  - rewrite lookup_app_r; rewrite length_take; [|lia].
    rewrite lookup_app_l; [|lia]. do 2 f_equal. lia.
  - destruct (Z.lt_ge_cases i off).
    + rewrite lookup_app_l; rewrite ?length_take; [|lia]. by rewrite lookup_take_lt; [|lia].
    + rewrite lookup_app_r; rewrite length_take; [|lia].
      rewrite lookup_app_r; [|lia]. rewrite lookup_drop. do 2 f_equal. lia.
Qed.

Lemma bytes_ok_patch m off bs : bytes_ok m -> bytes_ok bs -> bytes_ok (patch m off bs).
Proof.
  intros. unfold patch.
  repeat apply Forall_app_2; auto using Forall_take, Forall_drop.
Qed.

Lemma bytes_ok_slice m off n : bytes_ok m -> bytes_ok (slice m off n).
Proof. intros. unfold slice. auto using Forall_take, Forall_drop. Qed.

Lemma memcpy_eq dst doff src soff n :
  0 <= n -> 0 <= doff -> doff + n <= zlen dst -> 0 <= soff -> soff + n <= zlen src ->
  memcpy dst doff src soff n = Ret (patch dst doff (slice src soff n)).
Proof. intros. unfold memcpy. rewrite bool_decide_eq_true_2 //. Qed.

Lemma memset_eq dst doff v n :
  0 <= n -> 0 <= doff -> doff + n <= zlen dst ->
  memset dst doff v n = Ret (patch dst doff (replicate (Z.to_nat n) (u8 v))).
Proof. intros. unfold memset. rewrite bool_decide_eq_true_2 //. Qed.

(** The whole of a buffer replaced. *)
Lemma patch_all m bs : zlen bs = zlen m -> patch m 0 bs = bs.
Proof.
  unfold zlen, patch. intros Hl. simpl. rewrite drop_ge; [by rewrite app_nil_r|].
  unfold zlen. lia.
Qed.

Lemma slice_all m : slice m 0 (zlen m) = m.
Proof. unfold slice, zlen. rewrite drop_0 take_ge //. lia. Qed.
End patch.

(** A prefix just stored reads back. *)
Lemma slice_patch_same m bs : zlen bs <= zlen m -> slice (patch m 0 bs) 0 (zlen bs) = bs.
Proof.
  intros Hl. pose proof (zlen_nonneg bs). unfold slice, patch. change (Z.to_nat 0) with 0%nat.
  rewrite drop_0 take_0 app_nil_l. apply take_app_length'. unfold zlen. lia.
Qed.

Lemma patch_nil m q : patch m q [] = m.
Proof.
  unfold patch. change (zlen (A:=Z) []) with 0. by rewrite Z.add_0_r app_nil_l take_drop.
Qed.

(** Solves length side conditions of nested stores. *)
Ltac zl :=
  repeat (rewrite zlen_patch; [|zl|zl]);
  repeat (rewrite zlen_slice; [|zl..]);
  rewrite ?zlen_app ?zlen_insert ?zlen_replicate; lia.

(** ** Little-endian encodings *)

Fixpoint le_bytes (n : nat) (v : Z) : bytes :=
  match n with
  | O => []
  | S n' => u8 v :: le_bytes n' (Z.shiftr v 8)
  end.

Lemma zlen_le_bytes n v : zlen (le_bytes n v) = Z.of_nat n.
Proof.
  unfold zlen. f_equal. revert v. induction n; intros; simpl; [done|]. by f_equal.
Qed.

Lemma bytes_ok_le_bytes n v : bytes_ok (le_bytes n v).
Proof. revert v; induction n; intros; simpl; constructor; auto using byte_ok_u8. Qed.

#[global] Arguments le_bytes : simpl never.

Lemma patch_insert m p b bs :
  0 <= p -> p + 1 + zlen bs <= zlen m ->
  patch (<[Z.to_nat p := b]> m) (p + 1) bs = patch m p (b :: bs).
Proof.
  intros Hp Hl. assert (zlen (b :: bs) = 1 + zlen bs) as Hc.
  { unfold zlen. simpl length. lia. }
  apply bytes_ext.
  { rewrite !zlen_patch ?zlen_insert; lia. }
  intros i Hi. rewrite zlen_patch ?zlen_insert in Hi; [|lia..].
  pose proof (zlen_nonneg bs).
  rewrite !byte_at_patch ?zlen_insert; [|lia..].
  rewrite byte_at_insert; [|lia..]. rewrite Hc.
  repeat case_bool_decide; try lia.
  - unfold byte_at. replace (Z.to_nat (i - p)) with (S (Z.to_nat (i - (p + 1)))) by lia. done.
  - subst. by rewrite Z.sub_diag.
Qed.

Lemma wr8_patch m p v bs :
  0 <= p -> p + 1 + zlen bs <= zlen m ->
  (m' ← wr8 m p v; Ret (patch m' (p + 1) bs)) = Ret (patch m p (u8 v :: bs)).
Proof.
  intros. pose proof (zlen_nonneg bs). rewrite wr8_eq /=; [|lia]. by rewrite patch_insert.
Qed.

Lemma put_le32_eq m p v :
  0 <= p -> p + 4 <= zlen m -> put_le32 m p v = Ret (patch m p (le_bytes 4 v)).
Proof.
  intros Hp Hl. unfold put_le32.
  do 4 (rewrite wr8_eq ?zlen_insert /=; [|lia]). f_equal.
  rewrite -[LHS](patch_nil _ (p + 3 + 1)).
  rewrite (patch_insert _ (p + 3)) ?zlen_insert; [|lia|change (zlen (A:=Z) []) with 0; lia].
  replace (p + 3) with (p + 2 + 1) by lia.
  rewrite (patch_insert _ (p + 2)) ?zlen_insert; [|lia|unfold zlen in *; simpl length; lia].
  replace (p + 2) with (p + 1 + 1) by lia.
  rewrite (patch_insert _ (p + 1)) ?zlen_insert; [|lia|unfold zlen in *; simpl length; lia].
  rewrite (patch_insert _ p); [|lia|unfold zlen in *; simpl length; lia].
  cbv [le_bytes]. by rewrite !Z.shiftr_shiftr.
Qed.

(** Consecutive stores merge. *)
Lemma patch_patch_app m p bs bs' :
  0 <= p -> p + zlen bs + zlen bs' <= zlen m ->
  patch (patch m p bs) (p + zlen bs) bs' = patch m p (bs ++ bs').
Proof.
  intros Hp Hl. pose proof (zlen_nonneg bs). pose proof (zlen_nonneg bs').
  apply bytes_ext.
  { zl. }
  intros i Hi. rewrite zlen_patch in Hi; [|zl..].
  rewrite zlen_patch in Hi; [|zl..].
  rewrite !byte_at_patch; [|zl..]. rewrite zlen_app.
  repeat case_bool_decide; try lia; try done;
    unfold byte_at, zlen in *; [rewrite lookup_app_r|rewrite lookup_app_l]; try lia; try done.
  do 2 f_equal. lia.
Qed.

Lemma le_bytes_app n k v :
  le_bytes (n + k) v = le_bytes n v ++ le_bytes k (Z.shiftr v (8 * Z.of_nat n)).
Proof.
  revert v. induction n as [|n IH]; intros v; [by rewrite /= Z.shiftr_0_r|].
  cbn [Nat.add]. unfold le_bytes; fold le_bytes. rewrite -app_comm_cons. f_equal. rewrite IH Z.shiftr_shiftr; [|lia]. do 3 f_equal. lia.
Qed.

Lemma le_bytes_wrap n w v : 8 * Z.of_nat n <= w -> le_bytes n (wrap w v) = le_bytes n v.
Proof.
  revert w v. induction n as [|n IH]; intros w v Hw; [done|].
  unfold le_bytes; fold le_bytes. f_equal; [apply wrap_idem_le; lia|].
  rewrite -(IH (w - 8) (Z.shiftr v 8)); [|lia]. f_equal. unfold wrap.
  rewrite !Z.shiftr_div_pow2; [|lia..].
  replace w with ((w - 8) + 8) at 1 by lia. rewrite Z.pow_add_r; [|lia..].
  rewrite (Z.mul_comm (2 ^ (w - 8))) Z.rem_mul_r; [|lia..].
  rewrite Z.mul_comm Z.div_add; [|lia]. rewrite Z.div_small; [lia|].
  apply Z.mod_pos_bound. lia.
Qed.

Lemma put_le64_eq m p v :
  0 <= p -> p + 8 <= zlen m -> put_le64 m p v = Ret (patch m p (le_bytes 8 v)).
Proof.
  intros Hp Hl. unfold put_le64. rewrite put_le32_eq /=; [|lia..].
  pose proof (zlen_le_bytes 4 (u32 v)) as H4. pose proof (zlen_le_bytes 4 (u32 (Z.shiftr v 32))) as H4'.
  rewrite put_le32_eq; [|lia|rewrite zlen_patch; lia].
  replace (p + 4) with (p + zlen (le_bytes 4 (u32 v))) by lia.
  rewrite patch_patch_app; [|lia..].
  rewrite (le_bytes_app 4 4). by rewrite !le_bytes_wrap.
Qed.

(** Loads after stores. *)
Lemma word32_at_le_bytes v : word32_at (le_bytes 4 v) 0 = u32 v.
Proof.
  unfold word32_at, byte_at, le_bytes. simpl. rewrite lor4_sum; [|apply byte_ok_u8..].
  rewrite !Z.shiftr_shiftr; [|lia..]. unfold wrap. simpl Z.add.
  rewrite !Z.shiftr_div_pow2; [|lia..].
  change (2 ^ 32) with (256 * (256 * (256 * 256))).
  rewrite (Z.rem_mul_r v 256); [|lia..]. rewrite (Z.rem_mul_r (v / 256) 256); [|lia..].
  rewrite (Z.rem_mul_r (v / 256 / 256) 256); [|lia..]. rewrite !Z.div_div; [|lia..].
  change (2 ^ 8) with 256. change (2 ^ (8 + 8)) with (256 * 256).
  change (2 ^ (8 + 8 + 8)) with (256 * 256 * 256).
  lia.
Qed.

Lemma word32_at_ext m m' p p' :
  (forall i, 0 <= i < 4 -> byte_at m (p + i) = byte_at m' (p' + i)) -> word32_at m p = word32_at m' p'.
Proof.
  intros H. unfold word32_at.
  pose proof (H 0) as H0. rewrite !Z.add_0_r in H0.
  by rewrite H0 ?(H 1) ?(H 2) ?(H 3).
Qed.

Lemma word32_at_patch_same m p v :
  0 <= p -> p + 4 <= zlen m -> word32_at (patch m p (le_bytes 4 v)) p = u32 v.
Proof.
  intros. rewrite -word32_at_le_bytes. apply word32_at_ext. intros i Hi.
  rewrite byte_at_patch ?zlen_le_bytes; [|lia..].
  rewrite bool_decide_eq_true_2; [|lia]. f_equal. lia.
Qed.

Lemma word32_at_patch_other m p q bs :
  0 <= p -> p + zlen bs <= zlen m -> 0 <= q -> q + 4 <= p \/ p + zlen bs <= q ->
  word32_at (patch m p bs) q = word32_at m q.
Proof.
  intros. apply word32_at_ext. intros i Hi. rewrite byte_at_patch; [|lia..].
  rewrite bool_decide_eq_false_2; [done|lia].
Qed.

Create HintDb prefix.
#[export] Hint Resolve le_fault_refl le_fault_rd8 le_fault_bind le_fault_foldM le_fault_loop : prefix.

(** ** Automation for [wp] goals *)

#[export] Hint Resolve twp_wp wp_le16 wp_le32 wp_le64 wp_rd8 : wp.
#[export] Hint Extern 5 (_ <= _) => lia : wp.
#[export] Hint Extern 5 (_ < _) => lia : wp.
#[export] Hint Extern 5 (_ <= _ < _) => lia : wp.
#[export] Hint Extern 5 (_ /\ _) => split : wp.

(** One step of a [wp] proof: binds, returns, conditionals; a primitive is
    discharged by the [wp] hints. *)
Ltac wp_step :=
  lazymatch goal with
  | |- wp (Ret _) _ => apply wp_ret
  | |- wp (Fail _) _ => exact I
  | |- wp (guard_fail _ _) _ => apply wp_guard_fail; intro
  | |- wp (mbind _ _) _ => apply wp_bind
  | |- wp (if ?b then _ else _) _ => destruct b eqn:?
  | |- wp (match ?x with _ => _ end) _ => destruct x eqn:?
  | |- wp _ (fun _ => _) => eapply wp_mono; [solve [eauto 4 with wp] | intros ? ?]
  end; cbv beta zeta.

Ltac wps := repeat wp_step.

(** [lia] with division and modulo by constants. *)
Ltac dlia := Z.to_euclidean_division_equations; lia.

(** Destructs the binds of a hypothesis [m = Ret a]. *)
Ltac inv_ret H :=
  repeat match type of H with
  | mbind _ _ = Ret _ => let E := fresh "E" in apply bind_Ret_inv in H as (? & E & H)
  end.

(** Lists of a known length, updated by index. *)
Lemma lookup_insert_default {A} (d : A) (l : list A) i j x :
  (i < length l)%nat ->
  default d (<[i:=x]> l !! j) = if bool_decide (i = j) then x else default d (l !! j).
Proof.
  intros Hi. case_bool_decide as E.
  - subst. by rewrite list_lookup_insert_eq.
  - by rewrite list_lookup_insert_ne.
Qed.

Lemma lookup_replicate_default {A} (d : A) n i : default d (replicate n d !! i) = d.
Proof. destruct (replicate n d !! i) eqn:E; [by apply lookup_replicate in E as [-> _]|done]. Qed.

(** Rounding with a mask. *)
Lemma land_align n y :
  0 <= n <= 64 -> 0 <= y < 2 ^ 64 -> Z.land y (u64 (- 2 ^ n)) = 2 ^ n * (y / 2 ^ n).
Proof.
  intros Hn Hy. assert (u64 (- 2 ^ n) = Z.ldiff (Z.ones 64) (Z.ones n)) as ->.
  { rewrite Z.ldiff_ones_r; [|lia]. rewrite Z.shiftl_mul_pow2; [|lia]. rewrite Z.shiftr_div_pow2; [|lia].
    rewrite Z.ones_equiv. unfold wrap. assert (2 ^ 64 = 2 ^ (64 - n) * 2 ^ n) as E
      by (rewrite -Z.pow_add_r; [f_equal; lia|lia|lia]).
    assert (0 < 2 ^ n) by lia. assert (0 < 2 ^ (64 - n)) by lia.
    replace (Z.pred (2 ^ 64)) with ((2 ^ (64 - n) - 1) * 2 ^ n + (2 ^ n - 1)) by (rewrite E; lia).
    rewrite Z.div_add_l; [|lia]. rewrite Z.div_small; [|lia].
    symmetry. apply (Z.mod_unique_pos _ _ (-1)); [|rewrite E; lia].
    rewrite E. nia. }
  rewrite Z.ldiff_land Z.land_assoc Z.land_ones; [|lia]. rewrite (Z.mod_small y); [|done].
  rewrite -Z.ldiff_land Z.ldiff_ones_r; [|lia]. rewrite Z.shiftl_mul_pow2; [|lia].
  rewrite Z.shiftr_div_pow2; lia.
Qed.

(** [ALIGN(x, 2^n)] of the kernel on a 64-bit size. *)
Definition align_up (n x : Z) : Z := Z.land (u64 (x + (2 ^ n - 1))) (u64 (Z.lnot (2 ^ n - 1))).

Lemma align_up_eq n x :
  0 <= n <= 64 -> 0 <= x -> x + 2 ^ n <= 2 ^ 64 ->
  align_up n x = 2 ^ n * ((x + (2 ^ n - 1)) / 2 ^ n).
Proof.
  intros Hn Hx Hb. assert (0 < 2 ^ n) by lia. unfold align_up.
  replace (Z.lnot (2 ^ n - 1)) with (- 2 ^ n) by (unfold Z.lnot; lia).
  rewrite (wrap_small 64 (x + _)); [|lia]. apply land_align; lia.
Qed.

Lemma align_up_range n x : 0 <= align_up n x < 2 ^ 64.
Proof.
  unfold align_up. rewrite Z.land_comm.
  pose proof (land_le_r (u64 (Z.lnot (2 ^ n - 1))) (u64 (x + (2 ^ n - 1)))).
  pose proof (wrap_range 64 (x + (2 ^ n - 1))). lia.
Qed.

Lemma align_up_bounds n x :
  0 <= n <= 64 -> 0 <= x -> x + 2 ^ n <= 2 ^ 64 -> x <= align_up n x < x + 2 ^ n.
Proof.
  intros Hn Hx Hb. rewrite align_up_eq; [|done..]. assert (0 < 2 ^ n) by lia.
  pose proof (Z.div_mod (x + (2 ^ n - 1)) (2 ^ n)). pose proof (Z.mod_pos_bound (x + (2 ^ n - 1)) (2 ^ n)).
  lia.
Qed.

(** *** Sums over a list *)

Definition sumz {A} (f : A -> Z) (l : list A) : Z := foldr (fun x a => f x + a) 0 l.

Section sumz.
Context {A : Type}.
Implicit Types (f g : A -> Z) (l : list A).

Lemma sumz_cons f x l : sumz f (x :: l) = f x + sumz f l.
Proof. done. Qed.

Lemma sumz_app f l1 l2 : sumz f (l1 ++ l2) = sumz f l1 + sumz f l2.
Proof. induction l1 as [|x l1 IH]; [done|]. cbn [app]. rewrite !sumz_cons IH. lia. Qed.

Lemma sumz_insert f l i x y :
  l !! i = Some y -> sumz f (<[i:=x]> l) = sumz f l - f y + f x.
Proof.
  revert i. induction l as [|z l IH]; intros [|i] Hi; try done.
  - injection Hi as ->. cbn. lia.
  - cbn [list_insert]. change (<[S i:=x]> (z :: l)) with (z :: <[i:=x]> l).
    rewrite !sumz_cons (IH i Hi). lia.
Qed.

Lemma sumz_bounds f l b :
  (forall x, x ∈ l -> 0 <= f x <= b) -> 0 <= sumz f l <= zlen l * b.
Proof.
  induction l as [|x l IH]; intros Hf; [done|]. rewrite sumz_cons.
  specialize (Hf x) as Hx. specialize (IH (fun y Hy => Hf y (list_elem_of_further _ _ _ Hy))).
  specialize (Hx (list_elem_of_here _ _)). unfold zlen in *. cbn [length]. lia.
Qed.

Lemma sumz_le f g l : (forall x, x ∈ l -> f x <= g x) -> sumz f l <= sumz g l.
Proof.
  induction l as [|x l IH]; intros Hf; [done|]. rewrite !sumz_cons.
  assert (f x <= g x) by (apply Hf; left). assert (sumz f l <= sumz g l) by (apply IH; intros; apply Hf; by right).
  lia.
Qed.

Lemma sumz_elem f l x : (forall y, y ∈ l -> 0 <= f y) -> x ∈ l -> f x <= sumz f l.
Proof.
  induction l as [|z l IH]; intros Hf Hx; [by apply elem_of_nil in Hx|]. rewrite sumz_cons.
  assert (0 <= f z) by (apply Hf; left).
  assert (0 <= sumz f l).
  { clear IH Hx. induction l as [|w l IH]; [done|]. rewrite sumz_cons.
    assert (0 <= f w) by (apply Hf; right; left).
    assert (0 <= sumz f l); [|lia]. apply IH. intros y Hy. apply Hf.
    apply elem_of_cons in Hy as [->|Hy]; [left|by right; right]. }
  apply elem_of_cons in Hx as [->|Hx]; [lia|].
  specialize (IH (fun y Hy => Hf y (list_elem_of_further _ _ _ Hy)) Hx). lia.
Qed.
End sumz.

(** *** Sums over a finite map *)

Definition msum {A} (f : A -> Z) (m : gmap Z A) : Z := map_fold (fun _ x acc => f x + acc) 0 m.

Arguments msum : simpl never.

Section msum.
Context {A : Type}.
Implicit Types (f : A -> Z) (m : gmap Z A).

Lemma msum_empty f : msum f ∅ = 0.
Proof. done. Qed.

Lemma msum_insert f m k x : m !! k = None -> msum f (<[k:=x]> m) = f x + msum f m.
Proof. intros Hk. unfold msum. rewrite map_fold_insert_L; [done| |done]. intros; lia. Qed.

Lemma msum_delete f m k x : m !! k = Some x -> msum f (delete k m) = msum f m - f x.
Proof.
  intros Hk. rewrite -{2}(insert_delete_id m k x Hk) msum_insert; [lia|apply lookup_delete_eq].
Qed.

Lemma msum_update f m k x y : m !! k = Some x -> msum f (<[k:=y]> m) = msum f m - f x + f y.
Proof.
  intros Hk. rewrite -insert_delete_eq msum_insert; [|apply lookup_delete_eq].
  rewrite (msum_delete f m k x Hk). lia.
Qed.

Lemma msum_bounds f m b : (forall k x, m !! k = Some x -> 0 <= f x <= b) -> 0 <= msum f m <= Z.of_nat (size m) * b.
Proof.
  induction m as [|k x m Hk IH] using map_ind; intros Hf; [done|].
  rewrite msum_insert; [|done]. rewrite map_size_insert_None; [|done].
  assert (0 <= f x <= b) by (apply (Hf k); apply lookup_insert_eq).
  assert (0 <= msum f m <= Z.of_nat (size m) * b); [|lia].
  apply IH. intros k' x' Hk'. apply (Hf k'). rewrite lookup_insert_ne; [done|]. congruence.
Qed.
End msum.

(** Decides a closed, decidable side condition by evaluation. *)
Ltac vm_decide := apply (bool_decide_unpack _); vm_compute; exact I.
