(* ===== verification/Accel.v ===== *)
(** * The accel node as libane sees it

    The UAPI records of [ane/src/uapi/drm/ane_accel.h], [struct ane_bo], and
    the interface [AneKernel] between the library and the driver behind the
    file descriptor: buffer objects, mappings, submit and the T6021 program
    calls. [AneKernelLaws] is what the library relies on; [bump_kernel] is a
    concrete driver that satisfies it. [owns] is the ownership predicate the
    clients use for leak and double-free freedom. *)

From S2P Require Import Prelude.

(** ** UAPI records *)

Definition ANE_TILE_COUNT : Z := 0x20.
Definition ANE_FIFO_NID : Z := 0x40.
Definition ANE_ABI_MAJOR : Z := 1.
Definition ANE_ABI_M2_MAJOR : Z := 2.

Record drm_ane_submit := Submit {
  a_tsk_size : Z;
  a_td_count : Z;
  a_td_size : Z;
  a_handles : list Z;
  a_btsp_handle : Z;
}.

Record drm_ane_section := Section_arg {
  sa_id : Z;
  sa_bo_handle : Z;
  sa_size : Z;
  sa_offset : Z;
}.

Record drm_ane_generic_bind := Generic_bind {
  gb_buffer_id : Z;
  gb_bo_handle : Z;
  gb_type : Z;
  gb_size : Z;
}.

Record drm_ane_exec_io := Exec_io {
  ei_buffer_id : Z;
  ei_bo_handle : Z;
  ei_type : Z;
  ei_flags : Z;
  ei_dma : Z;
  ei_size : Z;
}.

Record drm_ane_exec := Exec {
  e_prog_id : Z;
  e_proc_id : Z;
  e_priority : Z;
  e_timeout_ms : Z;
  e_io : list drm_ane_exec_io;
}.

(** [struct ane_bo]; [b_map] is the memory behind the mapping, [None] a NULL
    pointer. *)
Record ane_bo := Bo {
  b_map : option bytes;
  b_size : Z;
  b_handle : Z;
  b_offset : Z;
}.

Definition bo0 : ane_bo := Bo None 0 0 0.

(** What a device run may change of a buffer object: the bytes behind its
    mapping. *)
Definition same_bo (b b' : ane_bo) : Prop :=
  b_size b' = b_size b /\ b_handle b' = b_handle b /\ b_offset b' = b_offset b /\
  match b_map b, b_map b' with
  | Some m, Some m' => zlen m' = zlen m /\ (bytes_ok m -> bytes_ok m')
  | None, None => True
  | _, _ => False
  end.

(** ** The driver behind the descriptor *)

Class AneKernel := {
  kst : Type;
  (** The GEM handles the descriptor holds. *)
  live : kst -> gset Z;
  (** [DRM_IOCTL_ANE_BO_INIT]: handle and fake offset. *)
  ioctl_bo_init : Z -> kst -> option (Z * Z) * kst;
  ioctl_bo_free : Z -> kst -> kst;
  (** [mmap(0, size, ..., fd, offset)]: the bytes mapped, or [MAP_FAILED]. *)
  mmap : Z -> Z -> kst -> option bytes * kst;
  (** [DRM_IOCTL_ANE_SUBMIT] over the buffer objects shared with the device:
      the return value and the objects as the run leaves them. *)
  ioctl_submit : drm_ane_submit -> list ane_bo -> kst -> Z * list ane_bo * kst;
  (** [DRM_IOCTL_ANE_PROG_LOOKUP]: found flag and program id. *)
  ioctl_prog_lookup : bytes -> kst -> option (Z * Z) * kst;
  (** [DRM_IOCTL_ANE_PROG_LOAD]: each section with the bytes of its BO. *)
  ioctl_prog_load : list (drm_ane_section * bytes) -> list drm_ane_generic_bind -> kst ->
    res Z * kst;
  ioctl_proc_create : Z -> kst -> res Z * kst;
  ioctl_exec : drm_ane_exec -> list ane_bo -> kst -> Z * list ane_bo * kst;
}.

Class AneKernelLaws `{AneKernel} : Prop := {
  bo_init_live k size h off k' :
    ioctl_bo_init size k = (Some (h, off), k') ->
    h <> 0 /\ h ∉ live k /\ live k' = live k ∪ {[h]};
  bo_init_fail k size k' : ioctl_bo_init size k = (None, k') -> live k' = live k;
  bo_free_live k h : live (ioctl_bo_free h k) = live k ∖ {[h]};
  mmap_live k size off : live (mmap size off k).2 = live k;
  mmap_len k size off m k' :
    mmap size off k = (Some m, k') -> 0 <= size -> zlen m = size /\ bytes_ok m;
  submit_live k a bos : live (ioctl_submit a bos k).2 = live k;
  submit_bos k a bos : Forall2 same_bo bos (ioctl_submit a bos k).1.2;
  lookup_live k d : live (ioctl_prog_lookup d k).2 = live k;
  load_live k ss bs : live (ioctl_prog_load ss bs k).2 = live k;
  load_no_fault k ss bs w : (ioctl_prog_load ss bs k).1 <> Fault w;
  create_live k p : live (ioctl_proc_create p k).2 = live k;
  create_no_fault k p w : (ioctl_proc_create p k).1 <> Fault w;
  exec_live k a bos : live (ioctl_exec a bos k).2 = live k;
  exec_bos k a bos : Forall2 same_bo bos (ioctl_exec a bos k).1.2;
}.

(** The descriptor's state with a ghost flag that records a [BO_FREE] of a
    handle the descriptor does not hold. *)
Record sys `{AneKernel} := Sys { kern : kst; bad_free : bool }.
Arguments Sys {_} _ _.

Definition sys_free `{AneKernel} (h : Z) (s : sys) : sys :=
  Sys (ioctl_bo_free h (kern s)) (bad_free s || negb (bool_decide (h ∈ live (kern s)))).

Definition with_kern `{AneKernel} (s : sys) (k : kst) : sys := Sys k (bad_free s).

(** ** Ownership *)

(** The handles a list of buffer objects holds. *)
Definition held (bos : list ane_bo) : list Z := filter (fun h => h <> 0) (b_handle <$> bos).

(** The objects hold distinct live handles, the descriptor holds these and
    [base] and nothing else, and nothing was freed that was not held. *)
Record owns `{AneKernel} (bos : list ane_bo) (base : gset Z) (s : sys) : Prop := {
  owns_good : bad_free s = false;
  owns_nodup : NoDup (held bos);
  owns_fresh : forall h, h ∈ held bos -> h ∉ base;
  owns_live : live (kern s) = base ∪ list_to_set (held bos);
}.

Lemma held_cons b bos :
  held (b :: bos) = if bool_decide (b_handle b = 0) then held bos else b_handle b :: held bos.
Proof.
  unfold held. cbn [fmap list_fmap]. rewrite filter_cons. case_decide; case_bool_decide; done.
Qed.

Lemma held_empty bos : Forall (fun b => b_handle b = 0) bos -> held bos = [].
Proof.
  intros Hz. induction Hz as [|b bos Hb _ IH]; [done|]. by rewrite held_cons bool_decide_eq_true_2.
Qed.

Lemma elem_of_held bos h : h ∈ held bos <-> h <> 0 /\ exists i b, bos !! i = Some b /\ b_handle b = h.
Proof.
  unfold held. rewrite list_elem_of_filter list_elem_of_fmap. split.
  - intros [Hn (b & -> & Hin)]. apply list_elem_of_lookup in Hin as [i Hi]. split; [done|]. by exists i, b.
  - intros [Hn (i & b & Hi & <-)]. split; [done|]. exists b. split; [done|].
    by apply list_elem_of_lookup_2 in Hi.
Qed.

(** A held handle names one object. *)
Lemma held_unique bos i j b c :
  NoDup (held bos) -> bos !! i = Some b -> bos !! j = Some c ->
  b_handle b = b_handle c -> b_handle b <> 0 -> i = j.
Proof.
  revert i j. induction bos as [|x bos IH]; intros i j Hnd Hi Hj Heq Hnz; [done|].
  assert (NoDup (held bos)) as Hnd'.
  { rewrite held_cons in Hnd. destruct (bool_decide _); [done|]. by apply NoDup_cons in Hnd as [_ ?]. }
  assert (forall n y, bos !! n = Some y -> b_handle x = b_handle y -> b_handle x <> 0 -> False) as Hx.
  { intros n y Hn He Hz. rewrite held_cons bool_decide_eq_false_2 // in Hnd.
    apply NoDup_cons in Hnd as [Hni _]. apply Hni, elem_of_held. split; [done|]. by exists n, y. }
  destruct i as [|i], j as [|j]; simplify_eq/=; [done| | |f_equal; by eapply IH].
  - exfalso. by eapply Hx.
  - exfalso. eapply (Hx i b); [done|done|congruence].
Qed.

#[global] Instance held_proper : Proper ((≡ₚ) ==> (≡ₚ)) held.
Proof. intros l l' Hl. unfold held. by rewrite Hl. Qed.

Lemma insert_Permutation {A} (l : list A) i x y :
  l !! i = Some x -> exists l', l ≡ₚ x :: l' /\ <[i := y]> l ≡ₚ y :: l'.
Proof.
  intros Hi. exists (take i l ++ drop (S i) l).
  pose proof (lookup_lt_Some _ _ _ Hi). split.
  - rewrite -{1}(take_drop_middle l i x Hi). by rewrite Permutation_middle.
  - rewrite insert_take_drop //. by rewrite Permutation_middle.
Qed.

Section ownership.
Context `{AneKernelLaws}.
Implicit Types (s : sys) (bos : list ane_bo) (base : gset Z).

#[global] Instance owns_proper : Proper ((≡ₚ) ==> (=) ==> (=) ==> iff) owns.
Proof.
  assert (forall l l' base s, l ≡ₚ l' -> owns l base s -> owns l' base s) as Hx.
  { intros l l' base s Hl [? ? Hf Hv]. split; [done|by rewrite -Hl| |].
    - intros h. rewrite -Hl. apply Hf.
    - by rewrite Hv Hl. }
  intros l l' Hl ? ? <- ? ? <-. split; apply Hx; [done|by symmetry].
Qed.

(** Objects with the same handles are owned alike. *)
Lemma owns_handles bos bos' base s :
  b_handle <$> bos' = b_handle <$> bos -> owns bos base s -> owns bos' base s.
Proof. intros He [? ? ? ?]. split; unfold held in *; by rewrite ?He. Qed.

Lemma owns_live_eq bos base s k' :
  live k' = live (kern s) -> owns bos base s -> owns bos base (with_kern s k').
Proof. intros Hl [? ? ? ?]. split; try done. by rewrite /= Hl. Qed.

Lemma owns_none bos base s :
  Forall (fun b => b_handle b = 0) bos -> bad_free s = false -> live (kern s) = base ->
  owns bos base s.
Proof.
  intros Hz%held_empty Hb Hl. rename Hz into Hn.
  split; rewrite ?Hn; [done|constructor|set_solver|set_solver].
Qed.

(** A handle the driver just gave goes into a slot that holds none. *)
Lemma owns_alloc bos base s i b b' size off k' :
  owns bos base s -> bos !! i = Some b -> b_handle b = 0 ->
  ioctl_bo_init size (kern s) = (Some (b_handle b', off), k') ->
  owns (<[i := b']> bos) base (with_kern s k').
Proof.
  intros Ho Hi Hb Hk. apply bo_init_live in Hk as (Hnz & Hfr & Hl).
  destruct (insert_Permutation bos i b b' Hi) as (l' & Hp & Hp').
  rewrite Hp in Ho. rewrite Hp'. destruct Ho as [Hg Hn Hf Hv].
  rewrite held_cons bool_decide_eq_true_2 // in Hn.
  rewrite held_cons bool_decide_eq_true_2 // in Hf.
  rewrite held_cons bool_decide_eq_true_2 // in Hv.
  split; rewrite ?held_cons ?bool_decide_eq_false_2 //.
  - constructor; [|done]. intros Hin. apply Hfr. rewrite Hv. set_solver.
  - set_solver.
  - simpl. rewrite Hl Hv. set_solver.
Qed.

(** Freeing the handle of a slot and clearing the slot. *)
Lemma owns_free bos base s i b b' :
  owns bos base s -> bos !! i = Some b -> b_handle b <> 0 -> b_handle b' = 0 ->
  owns (<[i := b']> bos) base (sys_free (b_handle b) s).
Proof.
  intros Ho Hi Hb Hb'.
  destruct (insert_Permutation bos i b b' Hi) as (l' & Hp & Hp').
  rewrite Hp in Ho. rewrite Hp'. destruct Ho as [Hg Hn Hf Hv].
  rewrite held_cons bool_decide_eq_false_2 // in Hn.
  rewrite held_cons bool_decide_eq_false_2 // in Hf.
  rewrite held_cons bool_decide_eq_false_2 // in Hv.
  apply NoDup_cons in Hn as [Hni Hn].
  split; rewrite ?held_cons ?bool_decide_eq_true_2 //.
  - simpl. rewrite Hg Hv /=. rewrite bool_decide_eq_true_2; [done|set_solver].
  - set_solver.
  - simpl. rewrite bo_free_live Hv. apply set_eq. intros h.
    specialize (Hf (b_handle b)). set_solver.
Qed.

(** Replacing a slot that holds nothing by one that holds nothing, or
    changing a slot but not its handle. *)
Lemma owns_keep bos base s i b b' :
  owns bos base s -> bos !! i = Some b -> b_handle b' = b_handle b ->
  owns (<[i := b']> bos) base s.
Proof.
  intros Ho Hi Hb. eapply owns_handles; [|done].
  rewrite list_fmap_insert. rewrite list_insert_id //. rewrite list_lookup_fmap Hi /=. by f_equal.
Qed.

Lemma same_bo_handles bos bos' :
  Forall2 same_bo bos bos' -> b_handle <$> bos' = b_handle <$> bos.
Proof.
  intros Hs. induction Hs as [|b b' l l' (_ & Hh & _) _ IH]; [done|].
  cbn [fmap list_fmap]. by rewrite Hh IH.
Qed.
End ownership.

(** ** A concrete driver

    Hands out fresh handles while its budget lasts, maps zero pages,
    and runs programs by a given function on the shared objects. *)

Record bump := Bump { bk_live : gset Z; bk_budget : nat }.

Definition bump_kernel (run : list Z -> list ane_bo -> list ane_bo) : AneKernel := {|
  kst := bump;
  live := bk_live;
  ioctl_bo_init size k :=
    match bk_budget k with
    | O => (None, k)
    | S n =>
        let h := fresh (bk_live k ∪ {[0]}) in
        (Some (h, h * 0x10000), Bump (bk_live k ∪ {[h]}) n)
    end;
  ioctl_bo_free h k := Bump (bk_live k ∖ {[h]}) (bk_budget k);
  mmap size off k := (Some (replicate (Z.to_nat size) 0), k);
  ioctl_submit a bos k := (0, run (a_handles a) bos, k);
  ioctl_prog_lookup d k := (Some (0, 0), k);
  ioctl_prog_load ss bs k := (Ret 7, k);
  ioctl_proc_create p k := (Ret (p + 1), k);
  ioctl_exec a bos k := (0, run (ei_bo_handle <$> e_io a) bos, k);
|}.

Lemma bump_kernel_laws run :
  (forall hs bos, Forall2 same_bo bos (run hs bos)) -> @AneKernelLaws (bump_kernel run).
Proof.
  intros Hrun. split; simpl; try done; try (intros; done).
  - intros k size h off k'. destruct (bk_budget k); [done|]. intros [= <- <- <-].
    pose proof (is_fresh (bk_live k ∪ {[0]})). simpl. set_solver.
  - intros k size k'. destruct (bk_budget k); [|done]. by intros [= <-].
  - intros k size off m k' [= <- <-] Hs. rewrite zlen_replicate. split; [lia|].
    apply Forall_replicate. unfold byte_ok. lia.
Qed.
