(* ===== verification/Bind.v ===== *)
(** * libane/ane_bind.h: role-to-channel binding

    The walk of the H13 task stream, the derivation of the channel of each
    input and output role, the check of programmed transfer sizes against
    the channel allocations, and the span of a tiled surface. *)

From S2P Require Import Prelude.

(** ** [struct anec] (libane/ane.h) *)

Definition TILE_COUNT : Z := 32.

Record anec := Anec {
  size : Z;
  td_size : Z;
  td_count : Z;
  tsk_size : Z;
  krn_size : Z;
  src_count : Z;
  dst_count : Z;
  tiles : list Z;
  nchw : list (list Z);
}.

(** The packed header as [ane_fread] leaves it in memory. *)
Definition anec_decode (h : bytes) : res anec :=
  size ← le64 h 0;
  td_size ← le32 h 8;
  td_count ← le32 h 12;
  tsk_size ← le64 h 16;
  krn_size ← le64 h 24;
  src_count ← le32 h 32;
  dst_count ← le32 h 36;
  tiles ← foldM (fun acc i => t ← le32 h (40 + 4 * i); Ret (acc ++ [t])) [] (seqZ 0 32);
  nchw ← foldM (fun acc c =>
      row ← foldM (fun r i => v ← le64 h (168 + 48 * c + 8 * i); Ret (r ++ [v])) [] (seqZ 0 6);
      Ret (acc ++ [row])) [] (seqZ 0 32);
  Ret (Anec size td_size td_count tsk_size krn_size src_count dst_count tiles nchw).

Definition tile_of (a : anec) (ch : Z) : Z := default 0 (tiles a !! Z.to_nat ch).

Record anec_ok (a : anec) : Prop := {
  ok_size : in_range 64 (size a);
  ok_td_size : in_range 32 (td_size a);
  ok_td_count : in_range 32 (td_count a);
  ok_tsk_size : in_range 64 (tsk_size a);
  ok_src_count : in_range 32 (src_count a);
  ok_dst_count : in_range 32 (dst_count a);
  ok_tiles : length (tiles a) = 32%nat;
  ok_tiles_range : Forall (in_range 32) (tiles a);
}.

(** Any 1704 bytes are a header. *)
Lemma anec_decode_ok h :
  bytes_ok h -> zlen h = 1704 ->
  exists a, anec_decode h = Ret a /\ anec_ok a /\
    length (nchw a) = 32%nat /\ Forall (fun row => length row = 6%nat) (nchw a).
Proof.
  intros Hok Hl. unfold anec_decode. rewrite !le64_eq; [|lia..]. rewrite !le32_eq; [|lia..].
  cbn [mbind res_bind].
  rewrite (foldM_collect (fun i => le32 h (40 + 4 * i)) (fun i => word32_at h (40 + 4 * i))).
  2:{ intros i Hi%elem_of_seqZ. apply le32_eq; lia. }
  cbn [mbind res_bind].
  rewrite (foldM_collect (fun c => foldM (fun r i => v ← le64 h (168 + 48 * c + 8 * i); Ret (r ++ [v]))
    [] (seqZ 0 6)) (fun c => map (fun i => word64_at h (168 + 48 * c + 8 * i)) (seqZ 0 6))).
  2:{ intros c Hc%elem_of_seqZ. apply (foldM_collect (fun i => le64 h (168 + 48 * c + 8 * i))
        (fun i => word64_at h (168 + 48 * c + 8 * i)) (seqZ 0 6) []).
      intros i Hi%elem_of_seqZ. apply le64_eq; lia. }
  cbn [mbind res_bind]. eexists. split; [done|].
  pose proof (fun p => word32_at_range h p Hok). pose proof (fun p => word64_at_range h p Hok).
  split; [split; cbn [size td_size td_count tsk_size src_count dst_count tiles];
    rewrite ?app_nil_l; auto; apply Forall_fmap, Forall_true; auto|].
  cbn [nchw]. rewrite app_nil_l. split; [by rewrite length_map length_seqZ|].
  apply Forall_fmap, Forall_true. done.
Qed.

(** ** Constants and the selector table *)

Definition ANE_BIND_FIRST_SURFACE : Z := 4.
Definition ANE_BIND_DMA_DISABLED : Z := 0x8880.
Definition ANE_BIND_DST_REGISTER : Z := 0x17800.
Definition ANE_BIND_SELECTOR_MASK : Z := 0x1f.
Definition ANE_BIND_MIN_TASK_BYTES : Z := 40.

(** DMA configuration register, selector shift in word 8, two size registers. *)
Record selector := Selector { sel_cfg : Z; sel_shift : Z; sel_size1 : Z; sel_size2 : Z }.

Definition ane_bind_selectors : list selector :=
  [ Selector 0x13800 0 0x13814 0x13818;
    Selector 0x13804 6 0 0;
    Selector ANE_BIND_DST_REGISTER 12 0x17810 0x17814 ].

(** [ane_bind_word(stream + off, index)]. *)
Definition ane_bind_word (stream : bytes) (off index : Z) : res Z :=
  b0 ← rd8 stream (off + index * 4);
  b1 ← rd8 stream (off + (index * 4 + 1));
  b2 ← rd8 stream (off + (index * 4 + 2));
  b3 ← rd8 stream (off + (index * 4 + 3));
  Ret (lor4 b0 b1 b2 b3).

(** ** [ane_bind_task_dma] *)

(** The slot loop of one register write: [dma] and [extent] hold the three
    slots. *)
Definition dma_slot (reg value : Z) (st : list Z * list Z) (slot : nat) : list Z * list Z :=
  let '(dma, extent) := st in
  match ane_bind_selectors !! slot with
  | None => st
  | Some s =>
      if reg =? sel_cfg s then (<[slot := value]> dma, extent)
      else if negb (sel_size1 s =? 0) && ((reg =? sel_size1 s) || (reg =? sel_size2 s)) &&
              (value >? default 0 (extent !! slot))
      then (dma, <[slot := value]> extent)
      else st
  end.

(** One register record: [count] payload words written from [base] on. *)
Definition dma_record (stream : bytes) (off index count base : Z)
    (st : list Z * list Z) : res (list Z * list Z) :=
  foldM (fun st offset =>
      let reg := u32 (base + u32 (offset * 4)) in
      value ← ane_bind_word stream off (index + 1 + offset);
      Ret (fold_left (dma_slot reg value) [0%nat; 1%nat; 2%nat] st))
    st (seqZ 0 count).

(** The [while (index < words)] loop. [-1] is [Fail EPERM]. *)
Definition dma_body (stream : bytes) (off words : Z) (st : Z * (list Z * list Z))
    : res ((Z * (list Z * list Z)) + (list Z * list Z)) :=
  let '(index, acc) := st in
  if index <? words then
    header ← ane_bind_word stream off index;
    let count := Z.shiftr header 26 + 1 in
    let base := Z.land header 0x03ffffff in
    guard_fail (index + count >=? words) EPERM;;
    acc ← dma_record stream off index count base acc;
    Ret (inl (index + (1 + count), acc))
  else Ret (inr acc).

Definition ane_bind_task_dma (stream : bytes) (off nbytes : Z) : res (list Z * list Z) :=
  let words := nbytes / 4 in
  let dma := replicate 3 ANE_BIND_DMA_DISABLED in
  let extent := replicate 3 0 in
  guard_fail ((nbytes <? ANE_BIND_MIN_TASK_BYTES) || negb (nbytes mod 4 =? 0)) EPERM;;
  w9 ← ane_bind_word stream off 9;
  let index := 10 + (if Z.land w9 3 =? 3 then 1 else 0) in
  loop (S (Z.to_nat words)) (dma_body stream off words) (index, (dma, extent)).

(** ** [ane_bind_walk] *)

(** The three output arrays; [w_extent] is [None] when the caller passes
    [NULL]. *)
Record walk_st := WalkSt {
  w_src : list bool;
  w_dst : list bool;
  w_extent : option (list Z);
}.

(** The slot loop of one task. *)
Definition walk_slot (a : anec) (selectors : Z) (dma sizes : list Z) (st : walk_st)
    (slot : nat) : walk_st :=
  match ane_bind_selectors !! slot, dma !! slot, sizes !! slot with
  | Some s, Some d, Some sz =>
      let channel := Z.land (Z.shiftr selectors (sel_shift s)) ANE_BIND_SELECTOR_MASK in
      if d =? ANE_BIND_DMA_DISABLED then st
      else if (channel <? ANE_BIND_FIRST_SURFACE) || (channel >=? TILE_COUNT) then st
      else
        let st := WalkSt (w_src st) (w_dst st)
          (match w_extent st with
           | None => None
           | Some e => Some (if sz >? default 0 (e !! Z.to_nat channel)
                             then <[Z.to_nat channel := sz]> e else e)
           end) in
        if tile_of a channel =? 0 then st
        else if sel_cfg s =? ANE_BIND_DST_REGISTER then
          WalkSt (w_src st) (<[Z.to_nat channel := true]> (w_dst st)) (w_extent st)
        else
          WalkSt (<[Z.to_nat channel := true]> (w_src st)) (w_dst st) (w_extent st)
  | _, _, _ => st
  end.

(** [n] descriptors are left, the current one is the [nbytes] bytes at
    [offset]. *)
Fixpoint walk_tasks (a : anec) (stream : bytes) (stream_size : Z) (n : nat)
    (offset nbytes : Z) (st : walk_st) : res walk_st :=
  match n with
  | O => Ret st
  | S n' =>
      guard_fail ((nbytes <? ANE_BIND_MIN_TASK_BYTES) || (offset >? stream_size) ||
                  (nbytes >? stream_size - offset)) EPERM;;
      '(dma, sizes) ← ane_bind_task_dma stream offset nbytes;
      selectors ← ane_bind_word stream offset 8;
      let st := fold_left (walk_slot a selectors dma sizes) [0%nat; 1%nat; 2%nat] st in
      if (n' =? 0)%nat then Ret st
      else
        next ← ane_bind_word stream offset 7;
        w1 ← ane_bind_word stream offset 1;
        let nbytes := (Z.land (Z.shiftr w1 16) 0x1ff + 1) * 4 in
        guard_fail (negb (next mod 4 =? 0) || (next >? stream_size)) EPERM;;
        walk_tasks a stream stream_size n' next nbytes st
  end.

Definition ane_bind_walk (a : anec) (stream : bytes) (stream_size : Z) (st : walk_st)
    : res walk_st :=
  guard_fail (td_count a =? 0) EPERM;;
  walk_tasks a stream stream_size (Z.to_nat (td_count a)) 0 (td_size a) st.

(** ** [ane_bind_positional], [ane_bind_init] *)

Record ane_bind := AneBind { b_src : list Z; b_dst : list Z }.

Definition ane_bind_positional (a : anec) : ane_bind :=
  AneBind (map (fun idx => u8 (u32 (ANE_BIND_FIRST_SURFACE + dst_count a + idx))) (seqZ 0 TILE_COUNT))
          (map (fun idx => u8 (ANE_BIND_FIRST_SURFACE + idx)) (seqZ 0 TILE_COUNT)).

Definition flag (l : list bool) (ch : Z) : bool := default false (l !! Z.to_nat ch).

(** The surface channels [4..31] in the order of the [for] loops. *)
Definition surface_channels : list Z := seqZ ANE_BIND_FIRST_SURFACE (TILE_COUNT - ANE_BIND_FIRST_SURFACE).

(** First loop: the surfaces the stream names, as (sources, destinations);
    [None] is the early [return 0] of a full array. *)
Definition bind_named (is_src is_dst : list bool) : option (list Z * list Z) :=
  fold_left (fun acc ch =>
      '(srcs, dsts) ← acc;
      if flag is_dst ch then
        if zlen dsts =? TILE_COUNT then None else Some (srcs, dsts ++ [u8 ch])
      else if flag is_src ch then
        if zlen srcs =? TILE_COUNT then None else Some (srcs ++ [u8 ch], dsts)
      else Some (srcs, dsts))
    surface_channels (Some ([], [])).

(** Second loop: unnamed allocated channels, destinations first. The loop
    condition [dsts < dst_count || srcs < src_count] is tested per channel. *)
Definition bind_unnamed (a : anec) (is_src is_dst : list bool) (acc : list Z * list Z)
    : list Z * list Z :=
  fold_left (fun '(srcs, dsts) ch =>
      if (zlen dsts <? dst_count a) || (zlen srcs <? src_count a) then
        if flag is_dst ch || flag is_src ch || (tile_of a ch =? 0) then (srcs, dsts)
        else if zlen dsts <? dst_count a then (srcs, dsts ++ [u8 ch])
        else (srcs ++ [u8 ch], dsts)
      else (srcs, dsts))
    surface_channels acc.

(** [memcpy(bind->src, derived.src, srcs)] over a [TILE_COUNT] array. *)
Definition overlay (front base : list Z) : list Z := front ++ drop (length front) base.

(** Returns [(1, map)] when the map was derived, [(0, positional map)] when it
    was assumed. *)
Definition ane_bind_init (a : anec) (stream : bytes) (stream_size : Z)
    : res (Z * ane_bind) :=
  let bind := ane_bind_positional a in
  if (src_count a >? TILE_COUNT) || (dst_count a >? TILE_COUNT) then Ret (0, bind)
  else
    match ane_bind_walk a stream stream_size
            (WalkSt (replicate 32 false) (replicate 32 false) None) with
    | Fault w => Fault w
    | Fail _ => Ret (0, bind)
    | Ret st =>
        match bind_named (w_src st) (w_dst st) with
        | None => Ret (0, bind)
        | Some named =>
            let '(srcs, dsts) := bind_unnamed a (w_src st) (w_dst st) named in
            if negb (zlen srcs =? src_count a) || negb (zlen dsts =? dst_count a)
            then Ret (0, bind)
            else Ret (1, AneBind (overlay srcs (b_src bind)) (overlay dsts (b_dst bind)))
        end
    end.

(** ** [ane_bind_tile_span], [ane_bind_overrun] *)

Definition ane_bind_tile_span (n c h w plane row : Z) : res Z :=
  if (n =? 0) || (c =? 0) || (h =? 0) || (w =? 0) then Ret 0
  else if row <? u64 (w * 2) then Ret U64_MAX
  else if row =? 0 then Fault DivByZero
  else
    let rows := plane / row in
    let cols := row / 2 in
    let last := u64 (u64 (u64 (u64 (u64 (u64 (u64 ((n - 1) * c) + (c - 1)) * rows) * cols)
                          + u64 ((h - 1) * cols)) + w) * 2) in
    let dense := u64 (u64 (n * c) * plane) in
    Ret (if last >? dense then last else dense).

(** [None]: 0; [Some (channel, need, have)]: 1. *)
Definition ane_bind_overrun (a : anec) (stream : bytes) (stream_size tile_shift : Z)
    : res (option (Z * Z * Z)) :=
  match ane_bind_walk a stream stream_size
          (WalkSt (replicate 32 false) (replicate 32 false) (Some (replicate 32 0))) with
  | Fault w => Fault w
  | Fail _ => Ret None
  | Ret st =>
      let ext ch := default 0 (default [] (w_extent st) !! Z.to_nat ch) in
      let alloc ch := u64 (Z.shiftl (tile_of a ch) tile_shift) in
      Ret (match list_find (fun ch => ext ch >? alloc ch) surface_channels with
           | Some (_, ch) => Some (ch, ext ch, alloc ch)
           | None => None
           end)
  end.

(** ** Memory safety of the walk *)

Section safety.
Context (stream : bytes) (Hok : bytes_ok stream).

Lemma wp_bind_word off index :
  0 <= off -> 0 <= index -> off + index * 4 + 4 <= zlen stream ->
  twp (ane_bind_word stream off index) (in_range 32).
Proof.
  intros. unfold ane_bind_word. rewrite !rd8_eq; [|lia..]. simpl.
  rewrite Z.add_assoc. replace (off + (index * 4 + 2)) with (off + index * 4 + 2) by lia.
  replace (off + (index * 4 + 3)) with (off + index * 4 + 3) by lia.
  by apply (word32_at_range stream (off + index * 4)).
Qed.

Definition three (st : list Z * list Z) : Prop :=
  length st.1 = 3%nat /\ length st.2 = 3%nat /\
  Forall (in_range 32) st.1 /\ Forall (in_range 32) st.2.

Lemma three_dma_slot reg value st slot :
  in_range 32 value -> three st -> three (dma_slot reg value st slot).
Proof.
  intros Hv (H1 & H2 & H3 & H4). destruct st as [dma extent]. unfold dma_slot.
  destruct (ane_bind_selectors !! slot); [|done].
  repeat case_match; unfold three; simpl in *; rewrite ?length_insert; auto using Forall_insert.
Qed.

Lemma wp_dma_record off index count base st :
  0 <= off -> 0 <= index -> 0 <= count -> off + (index + 1 + count) * 4 <= zlen stream ->
  three st -> wp (dma_record stream off index count base st) three.
Proof.
  intros. unfold dma_record. apply wp_foldM_simple; [done|].
  intros x st' Hx Hst. apply elem_of_seqZ in Hx. apply wp_bind.
  eapply wp_mono; [apply twp_wp, wp_bind_word; lia|].
  intros v Hv. simpl. auto using three_dma_slot.
Qed.

Lemma wp_task_dma off nbytes :
  0 <= off -> off + nbytes <= zlen stream ->
  wp (ane_bind_task_dma stream off nbytes) three.
Proof.
  intros Hoff Hlen. unfold ane_bind_task_dma. wp_step. wp_step.
  unfold ANE_BIND_MIN_TASK_BYTES in *.
  assert (40 <= nbytes /\ nbytes = 4 * (nbytes / 4)) as [Hb Hq] by dlia.
  apply wp_bind. eapply wp_mono; [apply twp_wp, wp_bind_word; lia|].
  intros w9 Hw9. cbv beta.
  apply wp_loop with (I := fun st => 10 <= st.1 /\ three st.2)
    (mu := fun st => Z.to_nat (nbytes / 4 - st.1)).
  - intros [index acc] [Hidx Hacc]. unfold dma_body. simpl in Hidx.
    destruct (index <? nbytes / 4) eqn:Hlt; [|done].
    apply wp_bind. eapply wp_mono; [apply twp_wp, wp_bind_word; lia|].
    intros header [Hh _]. cbv beta.
    assert (0 <= Z.shiftr header 26) by (by apply Z.shiftr_nonneg).
    wp_step. wp_step. apply wp_bind.
    eapply wp_mono; [apply wp_dma_record; [lia..|done]|].
    intros acc' Hacc'. simpl. split; [split; [lia|done]|]. lia.
  - simpl. split; [destruct (Z.land w9 3 =? 3); lia|].
    unfold three; simpl; repeat split; repeat constructor; done.
  - simpl. destruct (Z.land w9 3 =? 3); lia.
Qed.

(** The arrays of the walk keep their [TILE_COUNT] entries. *)
Definition arrays_ok (st : walk_st) : Prop :=
  length (w_src st) = 32%nat /\ length (w_dst st) = 32%nat /\
  match w_extent st with
  | None => True
  | Some e => length e = 32%nat /\ Forall (in_range 32) e
  end.

Lemma arrays_ok_walk_slot a sel dma sizes st slot :
  Forall (in_range 32) sizes -> arrays_ok st -> arrays_ok (walk_slot a sel dma sizes st slot).
Proof.
  intros Hs Hst. unfold walk_slot.
  destruct (ane_bind_selectors !! slot), (dma !! slot), (sizes !! slot) as [sz|] eqn:Esz; try done.
  assert (in_range 32 sz) by (by eapply Forall_lookup_1).
  destruct st as [src dst [e|]]; destruct Hst as (H1 & H2 & H3); simpl in *;
    repeat case_match; unfold arrays_ok; simpl; rewrite ?length_insert;
    destruct_and?; auto using Forall_insert.
Qed.

Lemma wp_walk_tasks a ssz n offset nbytes st :
  ssz <= zlen stream -> 0 <= offset -> arrays_ok st ->
  wp (walk_tasks a stream ssz n offset nbytes st) arrays_ok.
Proof.
  intros Hss. revert offset nbytes st.
  induction n as [|n IH]; intros offset nbytes st Hoff Hst; [done|].
  simpl. wp_step. wp_step. unfold ANE_BIND_MIN_TASK_BYTES in *.
  apply wp_bind. eapply wp_mono; [apply wp_task_dma; lia|].
  intros [dma sizes] (_ & _ & _ & Hsz). simpl in Hsz.
  apply wp_bind. eapply wp_mono; [apply twp_wp, wp_bind_word; lia|].
  intros sel Hsel. cbv beta.
  assert (arrays_ok (walk_slot a sel dma sizes
    (walk_slot a sel dma sizes (walk_slot a sel dma sizes st 0) 1) 2)) as Hst'
    by auto using arrays_ok_walk_slot.
  destruct (n =? 0)%nat; [done|].
  apply wp_bind. eapply wp_mono; [apply twp_wp, wp_bind_word; lia|]. intros next [Hn _].
  apply wp_bind. eapply wp_mono; [apply twp_wp, wp_bind_word; lia|]. intros w1 _.
  wp_step. wp_step. by apply IH.
Qed.
End safety.


Lemma wp_bind_walk a stream ssz st :
  bytes_ok stream -> ssz <= zlen stream -> arrays_ok st ->
  wp (ane_bind_walk a stream ssz st) arrays_ok.
Proof.
  intros. unfold ane_bind_walk. wp_step. wp_step. by apply wp_walk_tasks.
Qed.

(** ** What the stream names: a declarative reading

    [task_from n off len o l]: following the links of at most [n] descriptors
    from the one at [off], the walk reaches the [l] bytes at [o]. *)

Inductive task_from (stream : bytes) : nat -> Z -> Z -> Z -> Z -> Prop :=
  | from_here n off len : task_from stream (S n) off len off len
  | from_next n off len next w1 o l :
      ane_bind_word stream off 7 = Ret next ->
      ane_bind_word stream off 1 = Ret w1 ->
      task_from stream n next ((Z.land (Z.shiftr w1 16) 0x1ff + 1) * 4) o l ->
      task_from stream (S n) off len o l.

(** A live transfer of the task at [off]: DMA slot, surface channel, bytes. *)
Definition task_transfer (stream : bytes) (off len : Z) (slot : nat) (ch sz : Z) : Prop :=
  exists dma sizes sel s d,
    ane_bind_task_dma stream off len = Ret (dma, sizes) /\
    ane_bind_word stream off 8 = Ret sel /\
    ane_bind_selectors !! slot = Some s /\ dma !! slot = Some d /\
    sizes !! slot = Some sz /\ d <> ANE_BIND_DMA_DISABLED /\
    ch = Z.land (Z.shiftr sel (sel_shift s)) ANE_BIND_SELECTOR_MASK /\
    ANE_BIND_FIRST_SURFACE <= ch < TILE_COUNT.

(** A live transfer of the program. *)
Definition prog_transfer (a : anec) (stream : bytes) (slot : nat) (ch sz : Z) : Prop :=
  exists off len,
    task_from stream (Z.to_nat (td_count a)) 0 (td_size a) off len /\
    task_transfer stream off len slot ch sz.

Definition ext_at (st : walk_st) (ch : Z) : Z :=
  default 0 (default [] (w_extent st) !! Z.to_nat ch).

(** [st'] is [st] updated by the transfers in [T]: each extent is the maximum
    of its old value and the sizes moved, each flag is set exactly by a
    transfer of its direction on an allocated channel. *)
Definition after (a : anec) (T : nat -> Z -> Z -> Prop) (st st' : walk_st) : Prop :=
  forall ch, ANE_BIND_FIRST_SURFACE <= ch < TILE_COUNT ->
    (is_Some (w_extent st) ->
       is_Some (w_extent st') /\ ext_at st ch <= ext_at st' ch /\
       (forall slot sz, T slot ch sz -> sz <= ext_at st' ch) /\
       (ext_at st' ch = ext_at st ch \/ exists slot sz, T slot ch sz /\ ext_at st' ch = sz)) /\
    (flag (w_dst st') ch = true <->
       flag (w_dst st) ch = true \/ tile_of a ch <> 0 /\ exists sz, T 2%nat ch sz) /\
    (flag (w_src st') ch = true <->
       flag (w_src st) ch = true \/
       tile_of a ch <> 0 /\ exists slot sz, slot <> 2%nat /\ T slot ch sz).

Section after.
Context (a : anec).
Implicit Types (T : nat -> Z -> Z -> Prop) (st : walk_st).

Lemma after_trans T1 T2 st st1 st2 :
  after a T1 st st1 -> after a T2 st1 st2 ->
  after a (fun slot ch sz => T1 slot ch sz \/ T2 slot ch sz) st st2.
Proof.
  intros H1 H2 ch Hch. specialize (H1 ch Hch) as (E1 & D1 & S1).
  specialize (H2 ch Hch) as (E2 & D2 & S2). split; [|split].
  - intros Hs. destruct (E1 Hs) as (Hs1 & L1 & U1 & A1).
    destruct (E2 Hs1) as (Hs2 & L2 & U2 & A2). clear D1 S1 D2 S2 E1 E2.
    repeat split; [done|lia| |].
    + intros slot sz [HT|HT]; [specialize (U1 _ _ HT); lia|eauto].
    + destruct A2 as [->|(slot & sz & HT & ->)]; [|right; exists slot, sz; tauto].
      destruct A1 as [->|(slot & sz & HT & ->)]; [by left|right; exists slot, sz; tauto].
  - rewrite D2 D1. clear. firstorder.
  - rewrite S2 S1. clear. firstorder.
Qed.

Lemma after_iff T T' st st' :
  (forall slot ch sz, T slot ch sz <-> T' slot ch sz) -> after a T st st' -> after a T' st st'.
Proof.
  intros HT H ch Hch. specialize (H ch Hch) as (E & D & S). split; [|split].
  - intros Hs. destruct (E Hs) as (? & ? & U & A). repeat split; [done..| |].
    + intros slot sz Ht. apply (U slot sz). by apply HT.
    + destruct A as [?|(slot & sz & Ht & ->)]; [by left|right].
      exists slot, sz. split; [by apply HT|done].
  - rewrite D. split; (intros [?|[? (sz & Ht)]]; [by left|right; split; [done|exists sz; by apply HT]]).
  - rewrite S. split; (intros [?|[? (slot & sz & ? & Ht)]];
      [by left|right; split; [done|exists slot, sz; split; [done|by apply HT]]]).
Qed.

(** The transfers of one slot of a decoded task. *)
Definition slot_transfer (sel : Z) (dma sizes : list Z) (k : nat) (slot : nat) (ch sz : Z) : Prop :=
  slot = k /\ exists s d,
    ane_bind_selectors !! slot = Some s /\ dma !! slot = Some d /\
    sizes !! slot = Some sz /\ d <> ANE_BIND_DMA_DISABLED /\
    ch = Z.land (Z.shiftr sel (sel_shift s)) ANE_BIND_SELECTOR_MASK /\
    ANE_BIND_FIRST_SURFACE <= ch < TILE_COUNT.

Lemma after_none T st : (forall slot ch sz, ~ T slot ch sz) -> after a T st st.
Proof.
  intros HT ch Hch. split; [|split].
  - intros Hs. repeat split; [done|lia|intros ?? []%HT|by left].
  - split; [by left|intros [?|[_ (sz & []%HT)]]; done].
  - split; [by left|intros [?|[_ (slot & sz & _ & []%HT)]]; done].
Qed.

Lemma flag_insert l (ch ch' : Z) :
  length l = 32%nat -> 0 <= ch < 32 -> 0 <= ch' ->
  flag (<[Z.to_nat ch := true]> l) ch' = bool_decide (ch = ch') || flag l ch'.
Proof.
  intros Hl Hch Hch'. unfold flag. rewrite lookup_insert_default; [|lia].
  repeat case_bool_decide; try lia; done.
Qed.

(** One live transfer of [sz] bytes of slot [k] on channel [c]. *)
Lemma after_one k c sz src dst ext s :
  ane_bind_selectors !! k = Some s ->
  ANE_BIND_FIRST_SURFACE <= c < TILE_COUNT -> arrays_ok (WalkSt src dst ext) ->
  after a (fun slot ch sz' => slot = k /\ ch = c /\ sz' = sz) (WalkSt src dst ext)
    (WalkSt (if (tile_of a c =? 0) || (sel_cfg s =? ANE_BIND_DST_REGISTER) then src
             else <[Z.to_nat c := true]> src)
            (if (tile_of a c =? 0) || negb (sel_cfg s =? ANE_BIND_DST_REGISTER) then dst
             else <[Z.to_nat c := true]> dst)
            ((fun e => if sz >? default 0 (e !! Z.to_nat c)
                       then <[Z.to_nat c := sz]> e else e) <$> ext)).
Proof.
  unfold ANE_BIND_FIRST_SURFACE, TILE_COUNT. intros Hk Hc (Hs & Hd & He) ch Hch.
  simpl in *. unfold ANE_BIND_FIRST_SURFACE, TILE_COUNT in Hch.
  assert ((sel_cfg s =? ANE_BIND_DST_REGISTER) = bool_decide (k = 2%nat)) as ->.
  { by destruct k as [|[|[|k]]]; simplify_eq/=. }
  split; [|split].
  - intros [e Hext]. simpl in Hext. subst ext. destruct He as [He _].
    unfold ext_at. simpl. split; [by eexists|].
    destruct (sz >? default 0 (e !! Z.to_nat c)) eqn:Hgt; simpl.
    + rewrite lookup_insert_default; [|lia]. case_bool_decide as E.
      * assert (ch = c) as -> by lia. repeat split; [lia|intros; lia|right; by exists k, sz].
      * repeat split; [lia| |by left]. intros slot sz' (_ & -> & _). lia.
    + repeat split; [lia| |by left]. intros slot sz' (_ & -> & ->). lia.
  - destruct (tile_of a c =? 0) eqn:Ht; simpl.
    { split; [by left|]. intros [?|[Hn (sz' & _ & -> & _)]]; [done|lia]. }
    case_bool_decide as E2; simpl.
    + rewrite flag_insert; [|lia..]. rewrite orb_true_iff bool_decide_eq_true.
      split; [intros [->|?]; [right; split; [lia|by exists sz]|by left]|].
      intros [?|[_ (sz' & _ & -> & _)]]; auto.
    + split; [by left|]. intros [?|[_ (sz' & <- & _)]]; done.
  - destruct (tile_of a c =? 0) eqn:Ht; simpl.
    { split; [by left|]. intros [?|[Hn (slot & sz' & _ & _ & -> & _)]]; [done|lia]. }
    case_bool_decide as E2; simpl.
    + split; [by left|]. intros [?|[_ (slot & sz' & Hne & -> & _)]]; done.
    + rewrite flag_insert; [|lia..]. rewrite orb_true_iff bool_decide_eq_true.
      split; [intros [->|?]; [right; split; [lia|by exists k, sz]|by left]|].
      intros [?|[_ (slot & sz' & _ & _ & -> & _)]]; auto.
Qed.

Lemma after_walk_slot sel dma sizes st k :
  arrays_ok st -> after a (slot_transfer sel dma sizes k) st (walk_slot a sel dma sizes st k).
Proof.
  intros Hst. unfold walk_slot, slot_transfer.
  destruct (ane_bind_selectors !! k) as [s|] eqn:Es; [|apply after_none; naive_solver].
  destruct (dma !! k) as [d|] eqn:Ed; [|apply after_none; naive_solver].
  destruct (sizes !! k) as [sz|] eqn:Ez; [|apply after_none; naive_solver].
  set (c := Z.land _ _).
  destruct (d =? ANE_BIND_DMA_DISABLED) eqn:Hd; [apply after_none; naive_solver lia|].
  destruct ((c <? ANE_BIND_FIRST_SURFACE) || (c >=? TILE_COUNT)) eqn:Hc.
  { apply after_none. intros slot ch sz' (-> & s' & d' & ? & ? & ? & ? & -> & ?).
    simplify_eq. fold c in H3. lia. }
  destruct st as [src dst ext].
  eapply after_iff; last first.
  - pose proof (after_one k c sz src dst ext s Es ltac:(lia) Hst) as H.
    by destruct (tile_of a c =? 0), (sel_cfg s =? ANE_BIND_DST_REGISTER), ext.
  - intros slot ch sz'. split.
    + intros (-> & -> & ->). split; [done|]. exists s, d. repeat split; try done; lia.
    + intros (-> & s' & d' & ? & ? & ? & ? & -> & ?). by simplify_eq.
Qed.
End after.

Lemma task_transfer_slots stream off len dma sizes sel slot ch sz :
  ane_bind_task_dma stream off len = Ret (dma, sizes) ->
  ane_bind_word stream off 8 = Ret sel ->
  task_transfer stream off len slot ch sz <->
  (slot_transfer sel dma sizes 0 slot ch sz \/ slot_transfer sel dma sizes 1 slot ch sz) \/
  slot_transfer sel dma sizes 2 slot ch sz.
Proof.
  intros Hd Hs. unfold task_transfer, slot_transfer. rewrite Hd Hs. split.
  - intros (dma' & sizes' & sel' & s & d & ? & ? & Hsel & ?). simplify_eq.
    destruct slot as [|[|[|slot]]]; [..|done]; [left; left|left; right|right]; eauto 10.
  - intros [[H|H]|H]; destruct H as (-> & s & d & ?); exists dma, sizes, sel, s, d; tauto.
Qed.

Lemma after_walk_tasks a stream ssz n offset nbytes st st' :
  bytes_ok stream -> ssz <= zlen stream -> 0 <= offset -> arrays_ok st ->
  walk_tasks a stream ssz n offset nbytes st = Ret st' ->
  after a (fun slot ch sz => exists o l, task_from stream n offset nbytes o l /\
                                         task_transfer stream o l slot ch sz) st st'.
Proof.
  intros Hok Hss. revert offset nbytes st.
  induction n as [|n IH]; intros offset nbytes st Hoff Hst Hw; simpl in Hw.
  { simplify_eq. apply after_none. intros ??? (o & l & H & _). inversion H. }
  inv_ret Hw. apply guard_fail_Ret in E. destruct x0 as [dma sizes]. inv_ret Hw.
  unfold ANE_BIND_MIN_TASK_BYTES in *.
  pose proof (wp_inv _ _ _ (wp_task_dma stream Hok offset nbytes ltac:(lia) ltac:(lia)) E0)
    as (_ & _ & _ & Hsz). simpl in Hsz.
  rename x0 into sel. set (st3 := walk_slot a sel dma sizes _ 2) in Hw.
  assert (arrays_ok st3) by (unfold st3; auto using arrays_ok_walk_slot).
  assert (after a (task_transfer stream offset nbytes) st st3) as Hafter.
  { eapply after_iff; last first.
    - eapply after_trans; [eapply after_trans|]; apply after_walk_slot;
        auto using arrays_ok_walk_slot.
    - intros slot ch sz. symmetry. by apply task_transfer_slots. }
  destruct n as [|n];
    [change ((0 =? 0)%nat) with true in Hw|change ((S n =? 0)%nat) with false in Hw];
    cbv beta iota in Hw.
  { simplify_eq. eapply after_iff; [|exact Hafter]. intros slot ch sz. split.
    - intros ?. exists offset, nbytes. split; [constructor|done].
    - intros (o & l & Ht & ?). inversion Ht; subst; [done|].
      match goal with H : task_from _ O _ _ _ _ |- _ => inversion H end. }
  inv_ret Hw. rename x0 into next, x1 into w1.
  apply guard_fail_Ret in E4.
  pose proof (wp_inv _ _ _ (twp_wp _ _ (wp_bind_word stream Hok offset 7 ltac:(lia) ltac:(lia) ltac:(lia))) E2)
    as [Hn _].
  apply IH in Hw; [|done..].
  eapply after_iff; [|eapply after_trans; [exact Hafter|exact Hw]].
  intros slot ch sz. split.
  - intros [Ht|(o & l & Ht & ?)]; [exists offset, nbytes|exists o, l]; (split; [|done]).
    + constructor.
    + by eapply from_next.
  - intros (o & l & Ht & ?). inversion Ht as [|? ? ? next' w1' ? ? Hn' Hw' Hf]; subst; [by left|right].
    rewrite E2 in Hn'. rewrite E3 in Hw'. simplify_eq. by exists o, l.
Qed.

Lemma arrays_ok_clear ext :
  ext = None \/ ext = Some (replicate 32 0) ->
  arrays_ok (WalkSt (replicate 32 false) (replicate 32 false) ext).
Proof. intros [->| ->]; repeat split; auto. by apply Forall_replicate. Qed.

(** The state a successful walk leaves, from cleared arrays. *)
Lemma walk_from_clear a stream ssz ext st :
  bytes_ok stream -> ssz <= zlen stream -> ext = None \/ ext = Some (replicate 32 0) ->
  ane_bind_walk a stream ssz (WalkSt (replicate 32 false) (replicate 32 false) ext) = Ret st ->
  arrays_ok st /\
  after a (prog_transfer a stream) (WalkSt (replicate 32 false) (replicate 32 false) ext) st.
Proof.
  intros Hok Hss Hext Hw.
  pose proof (arrays_ok_clear ext Hext) as Hst. split; [by eapply wp_inv; [apply wp_bind_walk|]|].
  unfold ane_bind_walk in Hw. inv_ret Hw. by eapply after_walk_tasks.
Qed.

Lemma flag_replicate_false ch : flag (replicate 32 false) ch = false.
Proof. apply lookup_replicate_default. Qed.

(** ** The derived map *)

Definition is_dst_ch (is_dst : list bool) (ch : Z) : Prop := flag is_dst ch = true.
Definition is_src_ch (is_src is_dst : list bool) (ch : Z) : Prop :=
  flag is_dst ch = false /\ flag is_src ch = true.
Definition unnamed_ch (a : anec) (is_src is_dst : list bool) (ch : Z) : Prop :=
  flag is_dst ch = false /\ flag is_src ch = false /\ tile_of a ch <> 0.

#[global] Instance is_dst_ch_dec l ch : Decision (is_dst_ch l ch).
Proof. unfold is_dst_ch. apply _. Defined.
#[global] Instance is_src_ch_dec l l' ch : Decision (is_src_ch l l' ch).
Proof. unfold is_src_ch. apply _. Defined.
#[global] Instance unnamed_ch_dec a l l' ch : Decision (unnamed_ch a l l' ch).
Proof. unfold unnamed_ch. apply _. Defined.

Section derived.
Context (a : anec) (is_src is_dst : list bool).
Notation named_dst := (filter (is_dst_ch is_dst)).
Notation named_src := (filter (is_src_ch is_src is_dst)).
Notation unnamed := (filter (unnamed_ch a is_src is_dst)).

Lemma elem_surface ch :
  ch ∈ surface_channels <-> ANE_BIND_FIRST_SURFACE <= ch < TILE_COUNT.
Proof.
  unfold surface_channels, ANE_BIND_FIRST_SURFACE, TILE_COUNT. rewrite elem_of_seqZ. lia.
Qed.

Lemma surface_u8 : Forall (fun ch => u8 ch = ch) surface_channels.
Proof. apply Forall_forall. intros ch Hch%elem_surface. apply wrap_small.
  unfold ANE_BIND_FIRST_SURFACE, TILE_COUNT in Hch. unfold in_range. lia. Qed.

Lemma bind_named_fold L srcs dsts :
  Forall (fun ch => u8 ch = ch) L ->
  zlen srcs + zlen L < TILE_COUNT -> zlen dsts + zlen L < TILE_COUNT ->
  fold_left (fun acc ch =>
    '(srcs, dsts) ← acc;
    if flag is_dst ch then
      if zlen dsts =? TILE_COUNT then None else Some (srcs, dsts ++ [u8 ch])
    else if flag is_src ch then
      if zlen srcs =? TILE_COUNT then None else Some (srcs ++ [u8 ch], dsts)
    else Some (srcs, dsts)) L (Some (srcs, dsts))
  = Some (srcs ++ named_src L, dsts ++ named_dst L).
Proof.
  revert srcs dsts. induction L as [|ch L IH]; intros srcs dsts HL Hs Hd; simpl.
  { by rewrite !app_nil_r. }
  apply Forall_cons in HL as [Hch HL]. rewrite !filter_cons. rewrite Hch.
  unfold zlen in *. simpl in Hs, Hd.
  destruct (flag is_dst ch) eqn:Ed; simpl.
  - rewrite (decide_False (P := is_src_ch _ _ _)); [|intros []; congruence].
    rewrite decide_True; [|done].
    destruct (Z.of_nat (length dsts) =? TILE_COUNT) eqn:E; [lia|].
    rewrite IH; [|done|lia|rewrite length_app /=; lia]. by rewrite -app_assoc.
  - rewrite (decide_False (P := is_dst_ch _ _)); [|unfold is_dst_ch; congruence].
    destruct (flag is_src ch) eqn:Es.
    + rewrite decide_True; [|done].
      destruct (Z.of_nat (length srcs) =? TILE_COUNT) eqn:E; [lia|].
      rewrite IH; [|done|rewrite length_app /=; lia|lia]. by rewrite -app_assoc.
    + rewrite decide_False; [|intros []; congruence]. apply IH; [done|lia..].
Qed.

Lemma bind_named_eq :
  bind_named is_src is_dst = Some (named_src surface_channels, named_dst surface_channels).
Proof. unfold bind_named. by rewrite bind_named_fold; [|apply surface_u8|done..]. Qed.

Lemma bind_unnamed_fold L srcs dsts :
  0 <= src_count a -> 0 <= dst_count a -> Forall (fun ch => u8 ch = ch) L ->
  let k := Z.to_nat (dst_count a - zlen dsts) in
  let m := Z.to_nat (src_count a - zlen srcs) in
  fold_left (fun '(srcs, dsts) ch =>
    if (zlen dsts <? dst_count a) || (zlen srcs <? src_count a) then
      if flag is_dst ch || flag is_src ch || (tile_of a ch =? 0) then (srcs, dsts)
      else if zlen dsts <? dst_count a then (srcs, dsts ++ [u8 ch])
      else (srcs ++ [u8 ch], dsts)
    else (srcs, dsts)) L (srcs, dsts)
  = (srcs ++ take m (drop k (unnamed L)), dsts ++ take k (unnamed L)).
Proof.
  intros Hsc Hdc. revert srcs dsts. induction L as [|ch L IH]; intros srcs dsts HL k m; simpl.
  { by rewrite drop_nil !take_nil !app_nil_r. }
  apply Forall_cons in HL as [Hch HL]. rewrite filter_cons Hch.
  destruct ((zlen dsts <? dst_count a) || (zlen srcs <? src_count a)) eqn:Hc.
  - destruct (flag is_dst ch) eqn:Ed; simpl.
    { rewrite decide_False; [|intros []; congruence]. by apply IH. }
    destruct (flag is_src ch) eqn:Es; simpl.
    { rewrite decide_False; [|intros (_ & ? & _); congruence]. by apply IH. }
    destruct (tile_of a ch =? 0) eqn:Et; simpl.
    { rewrite decide_False; [|intros (_ & _ & ?); lia]. by apply IH. }
    rewrite decide_True; [|repeat split; (done || lia)].
    destruct (zlen dsts <? dst_count a) eqn:Hd; rewrite IH //.
    + unfold k, m, zlen in *. rewrite length_app /=.
      replace (Z.to_nat (dst_count a - Z.of_nat (length dsts)))
        with (S (Z.to_nat (dst_count a - Z.of_nat (length dsts + 1)))) by lia.
      by rewrite /= -app_assoc.
    + unfold k, m, zlen in *. rewrite length_app /=.
      replace (Z.to_nat (dst_count a - Z.of_nat (length dsts))) with 0%nat by lia.
      replace (Z.to_nat (src_count a - Z.of_nat (length srcs)))
        with (S (Z.to_nat (src_count a - Z.of_nat (length srcs + 1)))) by lia.
      by rewrite /= -app_assoc.
  - rewrite IH //. unfold k, m. unfold zlen in *.
    replace (Z.to_nat (dst_count a - Z.of_nat (length dsts))) with 0%nat by lia.
    by replace (Z.to_nat (src_count a - Z.of_nat (length srcs))) with 0%nat by lia.
Qed.
End derived.

(** Sortedness of a filtered channel list. *)
Lemma surface_sorted : StronglySorted Z.lt surface_channels.
Proof. unfold surface_channels. cbv -[Z.lt]. repeat constructor. Qed.

Lemma StronglySorted_sublist {A} (R : relation A) l1 l2 :
  l1 `sublist_of` l2 -> StronglySorted R l2 -> StronglySorted R l1.
Proof.
  induction 1 as [|x l1 l2 Hsub IH|x l1 l2 Hsub IH]; intros Hs; [done|..];
    apply StronglySorted_inv in Hs as [Hs Hx]; [|by apply IH].
  constructor; [by apply IH|]. apply Forall_forall. intros y Hy. rewrite Forall_forall in Hx.
  apply Hx. by eapply elem_of_sublist.
Qed.

Lemma filter_surface_sorted (P : Z -> Prop) `{!forall x, Decision (P x)} :
  StronglySorted Z.lt (filter P surface_channels).
Proof. eapply StronglySorted_sublist; [apply sublist_filter|apply surface_sorted]. Qed.

Lemma length_overlay front base :
  (length front <= length base)%nat -> length (overlay front base) = length base.
Proof. intros. unfold overlay. rewrite length_app length_drop. lia. Qed.

Lemma take_overlay front base n : n = length front -> take n (overlay front base) = front.
Proof. intros ->. by rewrite /overlay take_app_length. Qed.

(** What a derived map satisfies: the named destination and source channels
    ascending, then the unnamed allocated channels ascending, destinations
    first. *)
Definition derived_map (a : anec) (stream : bytes) (b : ane_bind) : Prop :=
  exists nd ns ed es,
    take (Z.to_nat (dst_count a)) (b_dst b) = nd ++ ed /\
    take (Z.to_nat (src_count a)) (b_src b) = ns ++ es /\
    zlen (nd ++ ed) = dst_count a /\ zlen (ns ++ es) = src_count a /\
    StronglySorted Z.lt nd /\ StronglySorted Z.lt ns /\ StronglySorted Z.lt (ed ++ es) /\
    (forall ch, ch ∈ nd <-> ANE_BIND_FIRST_SURFACE <= ch < TILE_COUNT /\ tile_of a ch <> 0 /\
                            exists sz, prog_transfer a stream 2 ch sz) /\
    (forall ch, ch ∈ ns <-> ANE_BIND_FIRST_SURFACE <= ch < TILE_COUNT /\ tile_of a ch <> 0 /\
                            ch ∉ nd /\
                            exists slot sz, slot <> 2%nat /\ prog_transfer a stream slot ch sz) /\
    (forall ch, ch ∈ ed ++ es -> ANE_BIND_FIRST_SURFACE <= ch < TILE_COUNT /\ tile_of a ch <> 0 /\
                            ch ∉ nd /\ ch ∉ ns).

Lemma derived_of_walk a stream ssz st :
  bytes_ok stream -> ssz <= zlen stream ->
  ane_bind_walk a stream ssz (WalkSt (replicate 32 false) (replicate 32 false) None) = Ret st ->
  (forall ch, ch ∈ filter (is_dst_ch (w_dst st)) surface_channels <->
     ANE_BIND_FIRST_SURFACE <= ch < TILE_COUNT /\ tile_of a ch <> 0 /\
     exists sz, prog_transfer a stream 2 ch sz) /\
  (forall ch, ch ∈ filter (is_src_ch (w_src st) (w_dst st)) surface_channels <->
     ANE_BIND_FIRST_SURFACE <= ch < TILE_COUNT /\ tile_of a ch <> 0 /\
     ch ∉ filter (is_dst_ch (w_dst st)) surface_channels /\
     exists slot sz, slot <> 2%nat /\ prog_transfer a stream slot ch sz).
Proof.
  intros Hok Hss Hw. apply walk_from_clear in Hw as [_ Haft]; [|auto..].
  split; intros ch; rewrite !list_elem_of_filter elem_surface;
    [|assert (forall b : bool, b = false <-> b <> true) as Hb by (by intros [])];
    unfold is_dst_ch, is_src_ch; (split; [intros [Hf Hch]|intros (Hch & Ht)]);
    destruct (Haft ch Hch) as (_ & HD & HS); simpl in HD, HS;
    rewrite flag_replicate_false in HD; rewrite flag_replicate_false in HS.
  - apply HD in Hf as [?|[? ?]]; done.
  - split; [|done]. apply HD. by right.
  - destruct Hf as [Hd Hs]. apply HS in Hs as [?|[? ?]]; [done|].
    split_and!; [lia..|done| |done]. intros [? _]. congruence.
  - destruct Ht as (? & Hn & ?). split; [|done]. split; [|apply HS; by right].
    apply Hb. intros ?. by apply Hn.
Qed.

(** ** Only the stream's prefix matters *)

Section prefix.
Context (a : anec) (m m' : bytes) (Hp : m `prefix_of` m').

Lemma le_fault_bind_word off index : le_fault (ane_bind_word m off index) (ane_bind_word m' off index).
Proof. unfold ane_bind_word. auto 10 with prefix. Qed.
#[local] Hint Resolve le_fault_bind_word : prefix.

Lemma le_fault_task_dma off nbytes :
  le_fault (ane_bind_task_dma m off nbytes) (ane_bind_task_dma m' off nbytes).
Proof.
  unfold ane_bind_task_dma. apply le_fault_bind; [auto with prefix|]. intros _.
  apply le_fault_bind; [auto with prefix|]. intros w9. apply le_fault_loop. intros [index acc].
  unfold dma_body. destruct (index <? _); [|auto with prefix].
  apply le_fault_bind; [auto with prefix|]. intros hd. apply le_fault_bind; [auto with prefix|]. intros _.
  apply le_fault_bind; [|auto with prefix]. apply le_fault_foldM. auto with prefix.
Qed.

Lemma le_fault_bind_walk ssz st :
  le_fault (ane_bind_walk a m ssz st) (ane_bind_walk a m' ssz st).
Proof.
  unfold ane_bind_walk. apply le_fault_bind; [auto with prefix|]. intros _.
  generalize (Z.to_nat (td_count a)) 0 (td_size a) st.
  intros n. induction n as [|n IH]; intros off nb st'; [auto with prefix|]. cbn [walk_tasks].
  apply le_fault_bind; [auto with prefix|]. intros _.
  apply le_fault_bind; [apply le_fault_task_dma|]. intros [dma sizes].
  apply le_fault_bind; [auto with prefix|]. intros sel. destruct (n =? 0)%nat; [auto with prefix|].
  auto 10 with prefix.
Qed.
End prefix.

(** The binding and the overrun check read only the first [ssz] bytes. *)
Lemma bind_walk_prefix a m m' ssz st :
  bytes_ok m -> ssz <= zlen m -> arrays_ok st -> m `prefix_of` m' ->
  ane_bind_walk a m ssz st = ane_bind_walk a m' ssz st.
Proof.
  intros Hok Hl Ha Hp. apply le_fault_eq; [by apply le_fault_bind_walk|].
  intros w. eapply wp_no_fault. by apply wp_bind_walk.
Qed.

Lemma bind_init_prefix a m m' ssz :
  bytes_ok m -> ssz <= zlen m -> m `prefix_of` m' -> ane_bind_init a m ssz = ane_bind_init a m' ssz.
Proof. intros. unfold ane_bind_init. by rewrite (bind_walk_prefix a m m'). Qed.

Lemma bind_overrun_prefix a m m' ssz sh :
  bytes_ok m -> ssz <= zlen m -> m `prefix_of` m' ->
  ane_bind_overrun a m ssz sh = ane_bind_overrun a m' ssz sh.
Proof.
  intros. unfold ane_bind_overrun. rewrite (bind_walk_prefix a m m'); auto using arrays_ok_clear.
Qed.

(** Neither faults on a stream as long as its size says. *)
Lemma bind_init_no_fault a m ssz :
  bytes_ok m -> ssz <= zlen m -> forall w, ane_bind_init a m ssz <> Fault w.
Proof.
  intros Hok Hl w. unfold ane_bind_init. destruct (_ || _); [done|].
  pose proof (wp_bind_walk a m ssz (WalkSt (replicate 32 false) (replicate 32 false) None) Hok Hl
    ltac:(done)) as Hw.
  destruct (ane_bind_walk _ _ _ _); [|done|done]. destruct (bind_named _ _); [|done].
  destruct (bind_unnamed _ _ _ _). by destruct (_ || _).
Qed.

Lemma bind_overrun_no_fault a m ssz sh :
  bytes_ok m -> ssz <= zlen m -> forall w, ane_bind_overrun a m ssz sh <> Fault w.
Proof.
  intros Hok Hl w. unfold ane_bind_overrun.
  pose proof (wp_bind_walk a m ssz _ Hok Hl (arrays_ok_clear _ (or_intror eq_refl))) as Hw.
  by destruct (ane_bind_walk _ _ _ _).
Qed.

(** C1: [ane_bind_init] never reads outside the stream it is given, and its
    result is one of two: the positional layout with return value 0, or, with
    return value 1, a map whose first [dst_count]/[src_count] entries are the
    surface channels the task stream writes and reads, ascending, followed by
    the allocated channels it does not name, destinations first. *)
Theorem bind_init_derived a stream ssz :
  anec_ok a -> bytes_ok stream -> ssz <= zlen stream ->
  twp (ane_bind_init a stream ssz) (fun '(r, b) =>
    (r = 0 /\ b = ane_bind_positional a) \/
    (r = 1 /\ length (b_src b) = 32%nat /\ length (b_dst b) = 32%nat /\
     derived_map a stream b)).
Proof.
  intros Ha Hok Hss. unfold ane_bind_init.
  destruct ((src_count a >? TILE_COUNT) || (dst_count a >? TILE_COUNT)) eqn:Hcnt; [by left|].
  pose proof (wp_bind_walk a stream ssz (WalkSt (replicate 32 false) (replicate 32 false) None)
    Hok Hss ltac:(done)) as Hwp.
  destruct (ane_bind_walk _ _ _ _) as [st|e|w] eqn:Hw; [|by left|done]. clear Hwp.
  rewrite bind_named_eq. unfold bind_unnamed.
  destruct Ha as [_ _ _ _ [Hs0 _] [Hd0 _] _ _].
  rewrite bind_unnamed_fold; [|done|done|apply surface_u8].
  destruct (derived_of_walk a stream ssz st Hok Hss Hw) as [HD HS].
  set (nd := filter (is_dst_ch _) _) in *. set (ns := filter (is_src_ch _ _) _) in *.
  set (un := filter (unnamed_ch _ _ _) _). set (k := Z.to_nat (dst_count a - _)).
  set (m := Z.to_nat (src_count a - _)).
  destruct (negb _ || negb _) eqn:Hlen; [by left|]. right.
  unfold TILE_COUNT, zlen in *. split_and!; [done|apply length_overlay; simpl; lia..|].
  exists nd, ns, (take k un), (take m (drop k un)). simpl.
  assert (StronglySorted Z.lt un) as Hun by apply filter_surface_sorted.
  assert (take k un ++ take m (drop k un) `sublist_of` un) as Hsub.
  { rewrite -{3}(take_drop k un). apply sublist_app; [done|apply sublist_take]. }
  split_and!; [apply take_overlay; lia|apply take_overlay; lia|unfold zlen; lia|unfold zlen; lia
    |apply filter_surface_sorted|apply filter_surface_sorted
    |by eapply StronglySorted_sublist|done|done|].
  intros ch Hch. eapply elem_of_sublist in Hch; [|exact Hsub].
  apply list_elem_of_filter in Hch as [(Hfd & Hfs & Ht) Hch%elem_surface].
  split; [done|]. split; [done|]. unfold nd, ns, is_dst_ch, is_src_ch.
  rewrite !list_elem_of_filter. split; intros [? _]; [|destruct_and!]; congruence.
Qed.

(** ** The overrun check *)

Lemma tile_of_range a ch : anec_ok a -> in_range 32 (tile_of a ch).
Proof.
  intros Ha. unfold tile_of. destruct (tiles a !! Z.to_nat ch) eqn:E; [|done].
  by eapply Forall_lookup_1; [apply ok_tiles_range|].
Qed.

Lemma alloc_eq a ch sh :
  anec_ok a -> 0 <= sh <= 32 -> u64 (Z.shiftl (tile_of a ch) sh) = tile_of a ch * 2 ^ sh.
Proof.
  intros Ha Hsh. rewrite Z.shiftl_mul_pow2; [|lia]. apply wrap_small.
  destruct (tile_of_range a ch Ha) as [H0 H1]. unfold in_range.
  assert (0 < 2 ^ sh <= 2 ^ 32) as [? ?].
  { split; [lia|]. apply Z.pow_le_mono_r; lia. }
  split; [nia|]. replace (2 ^ 64) with (2 ^ 32 * 2 ^ 32) by done. nia.
Qed.

Lemma list_find_surface_None (P : Z -> Prop) `{!forall x, Decision (P x)} ch :
  list_find P surface_channels = None -> ANE_BIND_FIRST_SURFACE <= ch < TILE_COUNT -> ~ P ch.
Proof.
  intros Hf Hch. apply list_find_None in Hf. rewrite Forall_forall in Hf.
  apply Hf. by apply elem_surface.
Qed.

Lemma surface_before i ch ch' :
  surface_channels !! i = Some ch -> ANE_BIND_FIRST_SURFACE <= ch' -> ch' < ch ->
  exists j, surface_channels !! j = Some ch' /\ (j < i)%nat.
Proof.
  unfold surface_channels. rewrite lookup_seqZ. intros [-> Hi] Hl Hlt.
  exists (Z.to_nat (ch' - ANE_BIND_FIRST_SURFACE)). rewrite lookup_seqZ. lia.
Qed.

Lemma guard_passes b e : b = false -> guard_fail b e = Ret tt.
Proof. by intros ->. Qed.

(** A stream whose tasks can be measured: [n] descriptors from the one at
    [off], each inside the first [ssz] bytes with records that fill it, each
    but the last linked to an aligned next one. *)
Definition task_fits (stream : bytes) (ssz off len : Z) : Prop :=
  ANE_BIND_MIN_TASK_BYTES <= len /\ off + len <= ssz /\
  exists d, ane_bind_task_dma stream off len = Ret d.

Inductive task_chain (stream : bytes) (ssz : Z) : nat -> Z -> Z -> Prop :=
  | chain_last off len : task_fits stream ssz off len -> task_chain stream ssz 1 off len
  | chain_link n off len next w1 :
      task_fits stream ssz off len ->
      ane_bind_word stream off 7 = Ret next -> ane_bind_word stream off 1 = Ret w1 ->
      next mod 4 = 0 -> next <= ssz ->
      task_chain stream ssz (S n) next ((Z.land (Z.shiftr w1 16) 0x1ff + 1) * 4) ->
      task_chain stream ssz (S (S n)) off len.

Definition walkable (a : anec) (stream : bytes) (ssz : Z) : Prop :=
  task_chain stream ssz (Z.to_nat (td_count a)) 0 (td_size a).

(** The walk completes exactly on such a stream. *)
Lemma walk_tasks_chain a stream ssz n off len st :
  bytes_ok stream -> ssz <= zlen stream -> 0 <= off ->
  (exists st', walk_tasks a stream ssz (S n) off len st = Ret st') <-> task_chain stream ssz (S n) off len.
Proof.
  intros Hok Hss. revert off len st. induction n as [|n IH]; intros off len st Hoff.
  - split.
    + intros [st' Hw]. cbn [walk_tasks] in Hw. inv_ret Hw. apply guard_fail_Ret in E.
      constructor. split_and!; [lia|lia|by eexists].
    + intros H. inversion H as [? ? (H1 & H2 & [d Hd])|]; subst. cbn [walk_tasks].
      unfold ANE_BIND_MIN_TASK_BYTES in *.
      rewrite guard_passes; [|lia]. rewrite Hd. destruct d as [dma sizes]. cbn [mbind res_bind].
      destruct (twp_ex _ _ (wp_bind_word stream Hok off 8 ltac:(lia) ltac:(lia) ltac:(lia))) as (sel & -> & _). by eexists.
  - split.
    + intros [st' Hw]. remember (S n) as m eqn:Em. cbn [walk_tasks] in Hw. inv_ret Hw. apply guard_fail_Ret in E.
      destruct x0 as [dma sizes]. inv_ret Hw. subst m. change ((S n =? 0)%nat) with false in Hw. cbv beta iota in Hw.
      inv_ret Hw. apply guard_fail_Ret in E4. unfold ANE_BIND_MIN_TASK_BYTES in *.
      pose proof (wp_inv _ _ _ (twp_wp _ _ (wp_bind_word stream Hok off 7 ltac:(lia) ltac:(lia) ltac:(lia))) E2) as [Hn _].
      eapply chain_link; [unfold task_fits, ANE_BIND_MIN_TASK_BYTES; split_and!; [lia|lia|by eexists]|exact E2|exact E3|lia|lia|].
      eapply IH; [done|]. by eexists.
    + intros H. inversion H as [|? ? ? next w1 (H1 & H2 & [d Hd]) E7 E1 Hal Hle Hc]; subst.
      remember (S n) as m eqn:Em. cbn [walk_tasks]. unfold ANE_BIND_MIN_TASK_BYTES in *.
      rewrite guard_passes; [|lia]. rewrite Hd. destruct d as [dma sizes]. cbn [mbind res_bind].
      destruct (twp_ex _ _ (wp_bind_word stream Hok off 8 ltac:(lia) ltac:(lia) ltac:(lia))) as (sel & -> & _).
      cbn [mbind res_bind]. rewrite E7 E1. cbn [mbind res_bind]. subst m. change ((S n =? 0)%nat) with false. cbv iota.
      rewrite guard_passes; [|rewrite Hal; lia]. cbn [mbind res_bind]. apply IH; [|done].
      pose proof (wp_inv _ _ _ (twp_wp _ _ (wp_bind_word stream Hok off 7 ltac:(lia) ltac:(lia) ltac:(lia))) E7) as [Hn _]. lia.
Qed.

Lemma walk_walkable a stream ssz st :
  bytes_ok stream -> ssz <= zlen stream -> 0 <= td_count a ->
  (exists st', ane_bind_walk a stream ssz st = Ret st') <-> walkable a stream ssz.
Proof.
  intros Hok Hss Htd. unfold ane_bind_walk, walkable. destruct (Z.eqb_spec (td_count a) 0) as [E|E]; cbn.
  - rewrite E. split; [by intros []|]. intros H. inversion H.
  - destruct (Z.to_nat (td_count a)) as [|n] eqn:En; [lia|]. by apply walk_tasks_chain.
Qed.

(** C2: with a tile shift of at most 32, [ane_bind_overrun] stays inside the
    stream and is exact: it reports something if and only if the whole stream
    can be walked ([walkable]) and some live source-1 or destination transfer
    of it moves more bytes than its channel has. The report is then the lowest
    such channel, the largest transfer on it and the bytes allocated. A stream
    that cannot be walked to its end is never reported, whatever its readable
    tasks move, and the sizes of source 2, which are not decoded, count as
    zero; both are what the function's comment says. *)
Theorem bind_overrun_exact a stream ssz sh :
  anec_ok a -> bytes_ok stream -> ssz <= zlen stream -> 0 <= sh <= 32 ->
  twp (ane_bind_overrun a stream ssz sh) (fun r =>
    (r <> None <-> walkable a stream ssz /\
       exists slot ch sz, prog_transfer a stream slot ch sz /\ tile_of a ch * 2 ^ sh < sz) /\
    (forall ch need have, r = Some (ch, need, have) ->
       have = tile_of a ch * 2 ^ sh /\ have < need /\ (exists slot, prog_transfer a stream slot ch need) /\
       (forall slot sz, prog_transfer a stream slot ch sz -> sz <= need) /\
       (forall slot ch' sz, prog_transfer a stream slot ch' sz -> ch' < ch -> sz <= tile_of a ch' * 2 ^ sh))).
Proof.
  intros Ha Hok Hss Hsh. unfold ane_bind_overrun. set (st0 := WalkSt _ _ _).
  assert (arrays_ok st0) as Hst0 by (apply arrays_ok_clear; auto).
  pose proof (wp_bind_walk a stream ssz st0 Hok Hss Hst0) as Hwp.
  pose proof (walk_walkable a stream ssz st0 Hok Hss (proj1 (ok_td_count a Ha))) as Hwk.
  destruct (ane_bind_walk a stream ssz st0) as [st|e|w] eqn:Hw; [| |done].
  2: { cbn [twp]. split; [|done]. split; [done|]. intros [H _]. apply Hwk in H as [? H]. done. }
  assert (walkable a stream ssz) as Hwalk by (apply Hwk; by eexists).
  apply walk_from_clear in Hw as [_ Haft]; [|auto..]. fold st0 in Haft.
  assert (forall ch, ext_at st0 ch = 0) as Hz.
  { intros ch. exact (lookup_replicate_default 0 32 (Z.to_nat ch)). }
  assert (forall slot ch sz, prog_transfer a stream slot ch sz ->
    ANE_BIND_FIRST_SURFACE <= ch < TILE_COUNT /\ sz <= ext_at st ch) as Hub.
  { intros slot ch sz HT. assert (ANE_BIND_FIRST_SURFACE <= ch < TILE_COUNT) as Hch.
    { destruct HT as (off & len & _ & dma & sizes & sel & s & d & HT). by destruct_and!. }
    split; [done|]. destruct (Haft ch Hch) as [Hext _]. destruct Hext as (_ & _ & Hub & _); [by eexists|]. by eapply Hub. }
  cbv zeta. fold (ext_at st). cbn [twp].
  match goal with |- context [list_find ?P surface_channels] =>
    destruct (list_find P surface_channels) as [[i ch]|] eqn:Hf end; cbv beta iota.
  - apply list_find_Some in Hf as (Hi & Hgt & Hlow).
    assert (ch ∈ surface_channels) as Hch%elem_surface by (by eapply list_elem_of_lookup_2).
    fold (ext_at st ch) in Hgt |- *. rewrite alloc_eq in Hgt |- *; [|done..].
    destruct (Haft ch Hch) as [Hext _]. destruct Hext as (_ & _ & _ & Hattain); [by eexists|].
    assert (0 <= tile_of a ch * 2 ^ sh) as H0.
    { destruct (tile_of_range a ch Ha). apply Z.mul_nonneg_nonneg; lia. }
    apply Is_true_true in Hgt.
    destruct Hattain as [Heq|(slot & sz & HT & Heq)]; [rewrite Hz in Heq; lia|].
    split; [split; [|done]; intros _; split; [done|]; exists slot, ch, sz; split; [done|lia]|].
    intros ch1 need have [= <- <- <-]. split_and!; [done|lia|exists slot; by rewrite Heq| |].
    + intros slot' sz' HT'. by apply Hub in HT' as [_ ?].
    + intros slot' ch' sz' HT' Hlt. destruct (Hub _ _ _ HT') as [Hch' Hle].
      destruct (surface_before i ch ch' Hi ltac:(lia) Hlt) as (j & Hj & Hji).
      specialize (Hlow j ch' Hj Hji). cbv beta in Hlow. fold (ext_at st ch') in Hlow.
      rewrite alloc_eq in Hlow; [|done..]. rewrite Is_true_true in Hlow. lia.
  - split; [|done]. split; [done|]. intros (_ & slot & ch & sz & HT & Hlt). exfalso.
    destruct (Hub _ _ _ HT) as [Hch Hle].
    apply (list_find_surface_None _ ch) in Hf; [|done].
    cbv beta in Hf. fold (ext_at st ch) in Hf. rewrite alloc_eq in Hf; [|done..].
    rewrite Is_true_true in Hf. lia.
Qed.

(** ** A concrete program

    One task of 18 words that reads 256 bytes of channel 5 and writes 512
    bytes of channel 4; both channels hold one 0x4000-byte tile. *)

Definition demo_stream : bytes :=
  flat_map (le_bytes 4)
    [0; 0; 0; 0; 0; 0; 0; 0; 5 + 4 * 2 ^ 12; 0;
     0x13800; 1; 0x13814; 256; 0x17800; 0xc1; 0x17810; 512].

Definition demo_anec : anec :=
  Anec 72 72 1 72 0 1 1 ([1; 0; 0; 0; 1; 1] ++ replicate 26 0) (replicate 32 (replicate 6 0)).

Lemma demo_anec_ok : anec_ok demo_anec.
Proof. constructor; vm_decide. Qed.

Lemma demo_stream_ok : bytes_ok demo_stream.
Proof. vm_decide. Qed.

Lemma bind_init_derived_witness :
  exists b, ane_bind_init demo_anec demo_stream 72 = Ret (1, b) /\
            derived_map demo_anec demo_stream b /\
            take 1 (b_src b) = [5] /\ take 1 (b_dst b) = [4].
Proof.
  pose proof (bind_init_derived demo_anec demo_stream 72
    demo_anec_ok demo_stream_ok ltac:(vm_decide)) as H.
  destruct (ane_bind_init demo_anec demo_stream 72) as [[r b]| |] eqn:E; [|destruct H..].
  destruct H as [[-> ->]|(-> & _ & _ & H)]; [vm_compute in E; congruence|].
  exists b. split; [done|]. split; [done|]. vm_compute in E. by inversion E.
Defined.

Lemma bind_overrun_exact_witness :
  ane_bind_overrun demo_anec demo_stream 72 14 = Ret None /\
  ane_bind_overrun demo_anec demo_stream 72 8 = Ret (Some (4, 512, 256)) /\
  exists slot, prog_transfer demo_anec demo_stream slot 4 512.
Proof.
  assert (ane_bind_overrun demo_anec demo_stream 72 8 = Ret (Some (4, 512, 256))) as E
    by (by vm_compute).
  split; [by vm_compute|]. split; [exact E|].
  pose proof (bind_overrun_exact demo_anec demo_stream 72 8
    demo_anec_ok demo_stream_ok ltac:(vm_decide) ltac:(lia)) as H.
  rewrite E in H. destruct H as [_ H]. destruct (H 4 512 256 eq_refl) as (_ & _ & Ht & _). exact Ht.
Defined.
