(* ===== verification/Tile.v ===== *)
(** * libane/ane.c: tiling of fp16 surfaces

    [ane_tile] spreads a dense N x C x H x W array of 16-bit elements over
    planes of [P] bytes and rows of [R] bytes, [ane_untile] collects it. *)

From S2P Require Import Prelude Bind.

(** ** The two copies *)

(** The derived strides of both functions, every product a [uint64_t]. *)
Record geometry := Geometry {
  new_H : Z; new_W : Z; stride : Z; gC0 : Z; gC1 : Z; gH0 : Z; gH1 : Z;
}.

Definition tile_geometry (C H W P R : Z) : res geometry :=
  if R =? 0 then Fault DivByZero
  else
    let new_H := P / R in
    let new_W := R / 2 in
    Ret (Geometry new_H new_W (u64 (W * 2)) (u64 (u64 (C * H) * W))
           (u64 (u64 (C * new_H) * new_W)) (u64 (H * W)) (u64 (new_H * new_W))).

Definition dense_off (g : geometry) (W n c h : Z) : Z :=
  u64 (u64 (u64 (u64 (n * gC0 g) + u64 (c * gH0 g)) + u64 (h * W)) * 2).

Definition tile_off (g : geometry) (n c h : Z) : Z :=
  u64 (u64 (u64 (u64 (n * gC1 g) + u64 (c * gH1 g)) + u64 (h * new_W g)) * 2).

(** The three nested [for] loops: the row [(n, c, h)] copied by [copy]. *)
Definition for_rows (N C H : Z) (copy : bytes -> Z -> Z -> Z -> res bytes) (m : bytes)
    : res bytes :=
  foldM (fun m n => foldM (fun m c => foldM (fun m h => copy m n c h) m (seqZ 0 H))
    m (seqZ 0 C)) m (seqZ 0 N).

(** [ane_tile(data, tile, ...)] returns the tile buffer it leaves. *)
Definition ane_tile (data tile : bytes) (N C H W P R : Z) : res bytes :=
  g ← tile_geometry C H W P R;
  if (new_H g =? H) && (new_W g =? W) then
    memcpy tile 0 data 0 (u64 (u64 (N * C) * P))
  else
    tile ← memset tile 0 0 (u64 (u64 (N * C) * P));
    for_rows N C H (fun tile n c h =>
      memcpy tile (tile_off g n c h) data (dense_off g W n c h) (stride g)) tile.

(** [ane_untile(data, tile, ...)] returns the data buffer it leaves. *)
Definition ane_untile (data tile : bytes) (N C H W P R : Z) : res bytes :=
  g ← tile_geometry C H W P R;
  if (new_H g =? H) && (new_W g =? W) then
    memcpy data 0 tile 0 (u64 (u64 (u64 (u64 (N * C) * H) * W) * 2))
  else
    data ← memset data 0 0 (u64 (u64 (u64 (u64 (N * C) * H) * W) * 2));
    for_rows N C H (fun data n c h =>
      memcpy data (dense_off g W n c h) tile (tile_off g n c h) (stride g)) data.

(** ** Copies of disjoint rows *)

Section rows.
Context {A : Type} (doff soff : A -> Z) (len : Z) (src : bytes).
Context (Hlen : 0 <= len).

Definition row_in (x : A) (j : Z) : Prop := doff x <= j < doff x + len.

(** [t] is [t0] with the rows of [L] copied in. *)
Definition rows_copied (t0 : bytes) (L : list A) (t : bytes) : Prop :=
  zlen t = zlen t0 /\
  (forall x i, x ∈ L -> 0 <= i < len -> byte_at t (doff x + i) = byte_at src (soff x + i)) /\
  (forall j, 0 <= j -> (forall x, x ∈ L -> ~ row_in x j) -> byte_at t j = byte_at t0 j).

(** Rows that cover the same byte are the same row. *)
Definition rows_disjoint (L : list A) : Prop :=
  forall x y j, x ∈ L -> y ∈ L -> row_in x j -> row_in y j -> x = y.

Lemma wp_copy_rows t0 L :
  rows_disjoint L ->
  (forall x, x ∈ L -> 0 <= doff x /\ doff x + len <= zlen t0 /\
                      0 <= soff x /\ soff x + len <= zlen src) ->
  twp (foldM (fun t x => memcpy t (doff x) src (soff x) len) t0 L) (rows_copied t0 L).
Proof.
  intros Hdis Hb.
  enough (forall pre suf t, L = pre ++ suf -> rows_copied t0 pre t ->
    twp (foldM (fun t x => memcpy t (doff x) src (soff x) len) t suf) (rows_copied t0 L)) as H.
  { apply (H []); [done|]. split; [done|]. split; [|done]. by intros x i ?%elem_of_nil. }
  intros pre suf. revert pre. induction suf as [|x suf IH]; intros pre t HL (Hz & Hin & Hout).
  { by rewrite app_nil_r in HL; subst. }
  destruct (Hb x) as (Hd0 & Hd1 & Hs0 & Hs1); [subst; set_solver|].
  simpl. rewrite memcpy_eq; [|lia..]. simpl.
  apply (IH (pre ++ [x])); [by rewrite -app_assoc|].
  assert (zlen (slice src (soff x) len) = len) as Hsl by (apply zlen_slice; lia).
  split; [rewrite zlen_patch; lia|]. split.
  - intros y i Hy Hi. rewrite byte_at_patch; [|lia|lia|].
    2:{ destruct (Hb y); [subst; set_solver|lia]. }
    rewrite Hsl. case_bool_decide as Hov.
    + assert (y = x) as ->.
      { apply (Hdis y x (doff y + i)); [subst; set_solver..|unfold row_in; lia|done]. }
      rewrite byte_at_slice; [|lia..]. f_equal. lia.
    + apply elem_of_app in Hy as [Hy| ->%list_elem_of_singleton]; [by apply Hin|lia].
  - intros j Hj Hno. rewrite byte_at_patch; [|lia..]. rewrite Hsl.
    case_bool_decide as Hov.
    + destruct (Hno x); [set_solver|done].
    + apply Hout; [done|]. set_solver.
Qed.
End rows.

(** The nested loops are one loop over the rows in order. *)
Definition rows (N C H : Z) : list (Z * Z * Z) :=
  n ← seqZ 0 N; c ← seqZ 0 C; h ← seqZ 0 H; [(n, c, h)].

Lemma foldM_bind {A B S} (f : S -> B -> res S) (g : A -> list B) s (l : list A) :
  foldM f s (l ≫= g) = foldM (fun s x => foldM f s (g x)) s l.
Proof.
  revert s; induction l as [|x l IH]; intros s; simpl; [done|].
  rewrite foldM_app. destruct (foldM f s (g x)); simpl; auto.
Qed.

Lemma foldM_ext {A S} (f g : S -> A -> res S) s l :
  (forall s x, f s x = g s x) -> foldM f s l = foldM g s l.
Proof.
  intros Hfg. revert s; induction l as [|x l IH]; intros s; simpl; [done|].
  rewrite Hfg. destruct (g s x); simpl; auto.
Qed.

Lemma for_rows_eq N C H copy m :
  for_rows N C H copy m = foldM (fun m '(n, c, h) => copy m n c h) m (rows N C H).
Proof.
  unfold for_rows, rows. rewrite foldM_bind. apply foldM_ext. intros m1 n.
  rewrite foldM_bind. apply foldM_ext. intros m2 c.
  rewrite foldM_bind. apply foldM_ext. intros m3 h. simpl. by destruct (copy m3 n c h).
Qed.

Lemma elem_of_rows N C H n c h :
  (n, c, h) ∈ rows N C H <-> 0 <= n < N /\ 0 <= c < C /\ 0 <= h < H.
Proof.
  unfold rows. rewrite list_elem_of_bind. setoid_rewrite list_elem_of_bind.
  setoid_rewrite list_elem_of_bind. setoid_rewrite elem_of_seqZ.
  setoid_rewrite list_elem_of_singleton. split.
  - intros (n' & (c' & (h' & ? & ?) & ?) & ?). simplify_eq. lia.
  - intros. exists n. split; [|lia]. exists c. split; [|lia]. exists h. split; [done|lia].
Qed.

(** ** Offsets without wrap-around *)

(** A geometry [ane_bind_tile_span] accepts and whose byte counts fit 64
    bits. *)
Record tile_dims (N C H W P R : Z) : Prop := {
  dims_pos : 0 < N /\ 0 < C /\ 0 < H /\ 0 < W /\ 0 <= P;
  dims_row : W * 2 <= R < 2 ^ 64;
  dims_dense : N * C * H * W * 2 < 2 ^ 64;
  dims_plane : N * C * P < 2 ^ 64;
  dims_last : (((N - 1) * C + (C - 1)) * (P / R) * (R / 2) + (H - 1) * (R / 2) + W) * 2 < 2 ^ 64;
}.

Definition row_index (C n c : Z) : Z := n * C + c.

Lemma row_index_bound N C n c :
  0 <= n < N -> 0 <= c < C -> 0 <= row_index C n c /\ row_index C n c + 1 <= N * C.
Proof. unfold row_index. intros. split; nia. Qed.

Lemma row_index_inj C n c n' c' :
  0 <= c < C -> 0 <= c' < C -> row_index C n c = row_index C n' c' -> n = n' /\ c = c'.
Proof. unfold row_index. intros. assert (n = n') by nia. lia. Qed.

Section geometry.
Context (N C H W P R : Z) (Hd : tile_dims N C H W P R).
Notation nH := (P / R).
Notation nW := (R / 2).

Lemma geometry_facts :
  0 < N /\ 0 < C /\ 0 < H /\ 0 < W /\ 0 <= nH /\ 0 < nW /\ W <= nW /\ nH * nW * 2 <= P /\ 0 < R.
Proof.
  destruct Hd as [(HN & HC & HH & HW & HP) [HR _] _ _ _].
  assert (0 < R) as HR0 by lia.
  assert (W <= nW) by (apply Z.div_le_lower_bound; lia).
  assert (0 <= nH) by (apply Z.div_pos; lia).
  pose proof (Z.mul_div_le R 2). pose proof (Z.mul_div_le P R HR0).
  repeat split; try lia. nia.
Qed.

Lemma prod_le_mono a b x y : 0 <= a <= x -> 0 <= b <= y -> 0 <= a * b <= x * y.
Proof. nia. Qed.

Definition the_geometry : geometry :=
  Geometry nH nW (W * 2) (C * H * W) (C * nH * nW) (H * W) (nH * nW).

(** [x <= y] by removing factors of at least 1 from [y]. *)
Lemma le_mul_pos x y k : 0 <= x -> 1 <= k -> x <= y -> x <= k * y.
Proof. nia. Qed.

Lemma products_small :
  C * H * W <= N * C * H * W /\ H * W <= N * C * H * W /\ C * H <= N * C * H * W /\
  C * nH * nW * 2 <= N * C * P /\ nH * nW * 2 <= N * C * P /\
  C * nH <= C * nH * nW /\ W <= H * W.
Proof.
  destruct geometry_facts as (? & ? & ? & ? & ? & ? & ? & HP & ?).
  assert (0 <= H * W) by nia. assert (0 <= C * (H * W)) by nia.
  assert (0 <= nH * nW) by nia. assert (0 <= C * (nH * nW)) by nia.
  assert (C * nH * nW * 2 <= C * P) by nia. assert (0 <= C * P) by nia.
  split_and!.
  - replace (N * C * H * W) with (N * (C * H * W)) by ring. apply le_mul_pos; nia.
  - replace (N * C * H * W) with (N * (C * (H * W))) by ring.
    apply le_mul_pos; [nia|lia|]. apply le_mul_pos; lia.
  - replace (N * C * H * W) with (N * (W * (C * H))) by ring.
    apply le_mul_pos; [nia|lia|]. apply le_mul_pos; nia.
  - replace (N * C * P) with (N * (C * P)) by ring. apply le_mul_pos; nia.
  - replace (N * C * P) with (N * (C * P)) by ring.
    apply le_mul_pos; [nia|lia|]. apply le_mul_pos; nia.
  - replace (C * nH * nW) with (nW * (C * nH)) by ring. apply le_mul_pos; nia.
  - apply le_mul_pos; lia.
Qed.

Lemma tile_geometry_eq : tile_geometry C H W P R = Ret the_geometry.
Proof.
  destruct geometry_facts as (? & ? & ? & ? & ? & ? & ? & HP & ?).
  destruct Hd as [_ _ Hdense Hplane _]. unfold tile_geometry.
  destruct (R =? 0) eqn:E; [lia|]. unfold the_geometry.
  destruct products_small as (? & ? & ? & ? & ? & ? & ?).
  rewrite (wrap_small 64 (W * 2)); [|lia]. rewrite (wrap_small 64 (C * H)); [|nia].
  rewrite (wrap_small 64 (C * H * W)); [|nia]. rewrite (wrap_small 64 (C * nH)); [|nia].
  rewrite (wrap_small 64 (C * nH * nW)); [|nia]. rewrite (wrap_small 64 (H * W)); [|nia].
  rewrite (wrap_small 64 (nH * nW)); [|nia]. done.
Qed.

(** A row of the dense array: where it starts, and that it ends inside. *)
Lemma dense_off_eq n c h :
  0 <= n < N -> 0 <= c < C -> 0 <= h < H ->
  dense_off the_geometry W n c h = (row_index C n c * H + h) * (W * 2) /\
  (row_index C n c * H + h + 1) * (W * 2) <= N * C * H * W * 2 /\
  0 <= (row_index C n c * H + h) * (W * 2).
Proof.
  intros Hn Hc Hh. destruct geometry_facts as (? & ? & ? & ? & _).
  destruct Hd as [_ _ Hdense _ _]. destruct (row_index_bound N C n c Hn Hc) as [Hk0 Hk1].
  set (k := row_index C n c) in *.
  assert ((k + 1) * H <= N * C * H) by (apply Z.mul_le_mono_nonneg_r; lia).
  assert (k * H + h + 1 <= N * C * H) by lia.
  assert (0 <= k * H) by nia.
  assert ((k * H + h + 1) * (W * 2) <= N * C * H * (W * 2)) by (apply Z.mul_le_mono_nonneg_r; lia).
  assert (0 <= (k * H + h) * (W * 2)) by nia.
  split; [|split; lia]. unfold dense_off. cbn [gC0 gH0 the_geometry].
  assert (n * (C * H * W) + c * (H * W) + h * W = (k * H + h) * W) as Hsum
    by (unfold k, row_index; ring).
  assert (0 <= n * (C * H * W)) by (assert (0 <= C * H * W) by nia; nia).
  assert (0 <= c * (H * W)) by nia. assert (0 <= h * W) by nia.
  rewrite (wrap_small 64 (n * _)); [|lia]. rewrite (wrap_small 64 (c * _)); [|lia].
  rewrite (wrap_small 64 (h * W)); [|lia]. rewrite (wrap_small 64 (_ + c * _)); [|lia].
  rewrite (wrap_small 64 (_ + h * W)); [|lia]. rewrite Hsum. rewrite wrap_small; lia.
Qed.

Lemma tile_off_eq n c h :
  0 <= n < N -> 0 <= c < C -> 0 <= h < H ->
  tile_off the_geometry n c h = (row_index C n c * nH + h) * (nW * 2) /\
  (row_index C n c * nH + h) * (nW * 2) + W * 2 <=
    (((N - 1) * C + (C - 1)) * nH * nW + (H - 1) * nW + W) * 2 /\
  0 <= (row_index C n c * nH + h) * (nW * 2).
Proof.
  intros Hn Hc Hh. destruct geometry_facts as (? & ? & ? & ? & ? & ? & ? & HP & ?).
  destruct Hd as [_ _ _ _ Hlast]. destruct (row_index_bound N C n c Hn Hc) as [Hk0 Hk1].
  set (k := row_index C n c) in *.
  assert (((N - 1) * C + (C - 1)) = N * C - 1) as Hnc by ring. rewrite Hnc in Hlast |- *.
  assert (k * nH <= (N * C - 1) * nH) by (apply Z.mul_le_mono_nonneg_r; lia).
  assert (0 <= k * nH) by nia.
  assert ((k * nH + h) * nW <= ((N * C - 1) * nH + (H - 1)) * nW)
    by (apply Z.mul_le_mono_nonneg_r; lia).
  assert (0 <= (k * nH + h) * nW) by nia.
  split; [|split; lia]. unfold tile_off. cbn [gC1 gH1 new_W the_geometry].
  assert (n * (C * nH * nW) + c * (nH * nW) + h * nW = (k * nH + h) * nW) as Hsum
    by (unfold k, row_index; ring).
  assert (0 <= n * (C * nH * nW)) by (assert (0 <= C * nH * nW) by nia; nia).
  assert (0 <= c * (nH * nW)) by nia. assert (0 <= h * nW) by nia.
  rewrite (wrap_small 64 (n * _)); [|lia]. rewrite (wrap_small 64 (c * _)); [|lia].
  rewrite (wrap_small 64 (h * nW)); [|lia]. rewrite (wrap_small 64 (_ + c * _)); [|lia].
  rewrite (wrap_small 64 (_ + h * nW)); [|lia]. rewrite Hsum. rewrite wrap_small; lia.
Qed.
Lemma size_wraps :
  u64 (u64 (N * C) * P) = N * C * P /\
  u64 (u64 (u64 (u64 (N * C) * H) * W) * 2) = N * C * H * W * 2.
Proof.
  destruct geometry_facts as (? & ? & ? & ? & ? & ? & ? & HP & ?).
  destruct Hd as [(_ & _ & _ & _ & HP0) _ Hdense Hplane _].
  assert (0 < N * C) by nia. assert (0 < N * C * H) by nia. assert (0 < N * C * H * W) by nia.
  assert (N * C * H <= N * C * H * W) by nia. assert (N * C <= N * C * H) by nia.
  rewrite (wrap_small 64 (N * C)); [|lia].
  rewrite (wrap_small 64 (N * C * P)); [|nia].
  rewrite (wrap_small 64 (N * C * H)); [|lia].
  rewrite (wrap_small 64 (N * C * H * W)); [|lia].
  rewrite (wrap_small 64); [|lia]. done.
Qed.
End geometry.

(** ** The contents of a tiled surface *)

(** Planes hold whole rows of whole elements, and at least [H] of them. *)
Record surface_ok (N C H W P R : Z) : Prop := {
  surf_dims : tile_dims N C H W P R;
  surf_even : R = R / 2 * 2;
  surf_whole : P = P / R * R;
  surf_rows : H <= P / R;
}.

(** Byte [x] of row [y] of plane [k]: the data where the surface has one,
    zero padding elsewhere. *)
Definition tiled_byte (data : bytes) (H W k y x : Z) : Z :=
  if (y <? H) && (x <? W * 2) then byte_at data ((k * H + y) * (W * 2) + x) else 0.

Section contents.
Context (N C H W P R : Z) (Hs : surface_ok N C H W P R).
Notation nH := (P / R).

Let Hd : tile_dims N C H W P R := surf_dims _ _ _ _ _ _ Hs.

(** Division of an offset into plane, row and column is unique. *)
Lemma row_unique B k y x k' y' x' :
  0 < B -> 0 <= y < B -> 0 <= y' < B -> 0 <= x < R -> 0 <= x' < R ->
  (k * B + y) * R + x = (k' * B + y') * R + x' -> k = k' /\ y = y' /\ x = x'.
Proof.
  intros. assert (k * B + y = k' * B + y') by nia.
  assert (k = k') by nia. lia.
Qed.

Lemma tile_rows_disjoint :
  rows_disjoint (fun '(n, c, h) => tile_off (the_geometry C H W P R) n c h) (W * 2) (rows N C H).
Proof.
  destruct (geometry_facts _ _ _ _ _ _ Hd) as (? & ? & ? & ? & ? & ? & ? & ? & ?).
  pose proof Hs as [_ Heven _ Hrows].
  intros [[n c] h] [[n' c'] h'] j (Hn & Hc & Hh)%elem_of_rows (Hn' & Hc' & Hh')%elem_of_rows.
  unfold row_in.
  destruct (tile_off_eq _ _ _ _ _ _ Hd n c h Hn Hc Hh) as [-> _].
  destruct (tile_off_eq _ _ _ _ _ _ Hd n' c' h' Hn' Hc' Hh') as [-> _].
  rewrite -Heven. intros Hj Hj'.
  destruct (row_unique nH (row_index C n c) h (j - (row_index C n c * nH + h) * R)
    (row_index C n' c') h' (j - (row_index C n' c' * nH + h') * R)) as (Hk & -> & _); [lia..|].
  apply row_index_inj in Hk as [-> ->]; done.
Qed.

Lemma dense_rows_disjoint :
  rows_disjoint (fun '(n, c, h) => dense_off (the_geometry C H W P R) W n c h) (W * 2)
    (rows N C H).
Proof.
  destruct (geometry_facts _ _ _ _ _ _ Hd) as (? & ? & ? & ? & ? & ? & ? & ? & ?).
  intros [[n c] h] [[n' c'] h'] j (Hn & Hc & Hh)%elem_of_rows (Hn' & Hc' & Hh')%elem_of_rows.
  unfold row_in.
  destruct (dense_off_eq _ _ _ _ _ _ Hd n c h Hn Hc Hh) as [-> _].
  destruct (dense_off_eq _ _ _ _ _ _ Hd n' c' h' Hn' Hc' Hh') as [-> _].
  intros Hj Hj'.
  assert (row_index C n c * H + h = row_index C n' c' * H + h') as He by nia.
  assert (row_index C n c = row_index C n' c') as Hk by nia.
  assert (h = h') as -> by nia.
  apply row_index_inj in Hk as [-> ->]; done.
Qed.

(** The span of the last row is inside the planes. *)
Lemma last_in_planes :
  (((N - 1) * C + (C - 1)) * nH * (R / 2) + (H - 1) * (R / 2) + W) * 2 <= N * C * P.
Proof.
  destruct (geometry_facts _ _ _ _ _ _ Hd) as (? & ? & ? & ? & ? & ? & ? & ? & ?).
  pose proof Hs as [_ Heven Hwhole Hrows].
  assert (((N - 1) * C + (C - 1)) = N * C - 1) as -> by ring.
  assert (N * C * P = N * C * nH * (R / 2) * 2) as -> by (rewrite {1}Hwhole {2}Heven; ring).
  assert ((H - 1) * (R / 2) + W <= nH * (R / 2)) by nia. nia.
Qed.

Lemma dense_path_eq : nH = H -> R / 2 = W -> P = H * (W * 2) /\ N * C * P = N * C * H * W * 2.
Proof.
  pose proof Hs as [_ Heven Hwhole _]. intros HH HW.
  assert (P = H * (W * 2)) as HP by (rewrite Hwhole HH {1}Heven HW; ring).
  split; [done|]. rewrite HP. ring.
Qed.

Lemma plane_pos k y x :
  0 <= k < N * C -> 0 <= y < nH -> 0 <= x < R ->
  0 <= (k * nH + y) * R + x < N * C * P.
Proof.
  destruct (geometry_facts _ _ _ _ _ _ Hd) as (? & ? & ? & ? & ? & ? & ? & ? & ?).
  pose proof Hs as [_ _ Hwhole _]. intros.
  assert (0 <= k * nH) by nia. split; [nia|].
  assert (k * nH + y + 1 <= N * C * nH) by nia.
  assert (N * C * P = N * C * nH * R) by (rewrite {1}Hwhole; ring).
  assert ((k * nH + y + 1) * R <= N * C * nH * R) by (apply Z.mul_le_mono_nonneg_r; lia). lia.
Qed.

(** The copy of [ane_tile], as a loop over rows. *)
Lemma tile_copy_rows data t0 :
  N * C * H * W * 2 <= zlen data -> N * C * P <= zlen t0 ->
  twp (for_rows N C H (fun tile n c h =>
         memcpy tile (tile_off (the_geometry C H W P R) n c h) data
           (dense_off (the_geometry C H W P R) W n c h) (W * 2)) t0)
      (rows_copied (fun '(n, c, h) => tile_off (the_geometry C H W P R) n c h)
         (fun '(n, c, h) => dense_off (the_geometry C H W P R) W n c h) (W * 2) data t0
         (rows N C H)).
Proof.
  intros Hdata Ht0. destruct (geometry_facts _ _ _ _ _ _ Hd) as (? & ? & ? & ? & _).
  rewrite for_rows_eq. erewrite foldM_ext; [apply wp_copy_rows|].
  - lia.
  - exact tile_rows_disjoint.
  - intros [[n c] h] (Hn & Hc & Hh)%elem_of_rows.
    destruct (tile_off_eq _ _ _ _ _ _ Hd n c h Hn Hc Hh) as (-> & Hb & ?).
    destruct (dense_off_eq _ _ _ _ _ _ Hd n c h Hn Hc Hh) as (-> & Hb' & ?).
    pose proof last_in_planes. lia.
  - by intros t [[n c] h].
Qed.

(** The copy of [ane_untile]. *)
Lemma untile_copy_rows tile d0 :
  N * C * H * W * 2 <= zlen d0 -> N * C * P <= zlen tile ->
  twp (for_rows N C H (fun data n c h =>
         memcpy data (dense_off (the_geometry C H W P R) W n c h) tile
           (tile_off (the_geometry C H W P R) n c h) (W * 2)) d0)
      (rows_copied (fun '(n, c, h) => dense_off (the_geometry C H W P R) W n c h)
         (fun '(n, c, h) => tile_off (the_geometry C H W P R) n c h) (W * 2) tile d0
         (rows N C H)).
Proof.
  intros Hdata Ht0. destruct (geometry_facts _ _ _ _ _ _ Hd) as (? & ? & ? & ? & _).
  rewrite for_rows_eq. erewrite foldM_ext; [apply wp_copy_rows|].
  - lia.
  - exact dense_rows_disjoint.
  - intros [[n c] h] (Hn & Hc & Hh)%elem_of_rows.
    destruct (tile_off_eq _ _ _ _ _ _ Hd n c h Hn Hc Hh) as (-> & Hb & ?).
    destruct (dense_off_eq _ _ _ _ _ _ Hd n c h Hn Hc Hh) as (-> & Hb' & ?).
    pose proof last_in_planes. lia.
  - by intros t [[n c] h].
Qed.

(** A byte of the planes after the row copies onto zeroed planes. *)
Lemma padded_byte data t t0 tile n c y x :
  rows_copied (fun '(n, c, h) => tile_off (the_geometry C H W P R) n c h)
    (fun '(n, c, h) => dense_off (the_geometry C H W P R) W n c h) (W * 2) data t0
    (rows N C H) t ->
  (forall j, 0 <= j -> byte_at t0 j = if j <? N * C * P then 0 else byte_at tile j) ->
  0 <= n < N -> 0 <= c < C -> 0 <= y < nH -> 0 <= x < R ->
  byte_at t ((row_index C n c * nH + y) * R + x) = tiled_byte data H W (row_index C n c) y x.
Proof.
  intros (_ & Hin & Hout) Hzero Hn Hc Hy Hx.
  destruct (geometry_facts _ _ _ _ _ _ Hd) as (? & ? & ? & ? & ? & ? & ? & ? & ?).
  pose proof Hs as [_ Heven _ Hrows].
  destruct (row_index_bound N C n c Hn Hc).
  pose proof (plane_pos (row_index C n c) y x ltac:(lia) Hy Hx).
  unfold tiled_byte. destruct ((y <? H) && (x <? W * 2)) eqn:E.
  - assert ((n, c, y) ∈ rows N C H) as Hmem by (apply elem_of_rows; lia).
    specialize (Hin (n, c, y) x Hmem ltac:(lia)).
    destruct (tile_off_eq _ _ _ _ _ _ Hd n c y) as (Ht & _); [lia..|].
    destruct (dense_off_eq _ _ _ _ _ _ Hd n c y) as (Hde & _); [lia..|].
    rewrite Ht Hde in Hin. by rewrite -Heven in Hin.
  - rewrite Hout; [rewrite Hzero; [|lia]; destruct (_ <? N * C * P) eqn:E'; lia|lia|].
    intros [[n' c'] h'] (Hn' & Hc' & Hh')%elem_of_rows. unfold row_in.
    destruct (tile_off_eq _ _ _ _ _ _ Hd n' c' h' Hn' Hc' Hh') as (-> & _).
    rewrite -Heven. intros Hj.
    destruct (row_unique nH (row_index C n c) y x (row_index C n' c') h'
      ((row_index C n c * nH + y) * R + x - (row_index C n' c' * nH + h') * R))
      as (_ & ? & ?); lia.
Qed.

(** Every byte of the planes is its tiled byte, and nothing past the planes
    changes. *)
Definition tiled (data tile t : bytes) : Prop :=
  zlen t = zlen tile /\
  (forall n c y x, 0 <= n < N -> 0 <= c < C -> 0 <= y < nH -> 0 <= x < R ->
     byte_at t ((row_index C n c * nH + y) * R + x) =
     tiled_byte data H W (row_index C n c) y x) /\
  (forall j, N * C * P <= j -> byte_at t j = byte_at tile j).

Lemma tile_contents data tile :
  N * C * H * W * 2 <= zlen data -> N * C * P <= zlen tile ->
  twp (ane_tile data tile N C H W P R) (tiled data tile).
Proof.
  intros Hdata Htile. unfold ane_tile. rewrite (tile_geometry_eq _ _ _ _ _ _ Hd).
  destruct (size_wraps _ _ _ _ _ _ Hd) as [-> _].
  destruct (geometry_facts _ _ _ _ _ _ Hd) as (? & ? & ? & ? & ? & ? & ? & ? & ?).
  assert (0 <= N * C * P) by (assert (0 < N * C) by nia; nia).
  cbn [mbind res_bind new_H new_W stride the_geometry].
  destruct ((nH =? H) && (R / 2 =? W)) eqn:Hdense.
  - destruct dense_path_eq as [HP HNCP]; [lia..|].
    rewrite memcpy_eq; [|lia..]. cbn [twp].
    assert (zlen (slice data 0 (N * C * P)) = N * C * P) as Hsl by (apply zlen_slice; lia).
    split; [rewrite zlen_patch; lia|]. split.
    + intros n c y x Hn Hc Hy Hx.
      destruct (row_index_bound N C n c Hn Hc).
      pose proof (plane_pos (row_index C n c) y x ltac:(lia) Hy Hx).
      rewrite byte_at_patch; [|lia..]. rewrite bool_decide_eq_true_2; [|lia].
      rewrite byte_at_slice; [|lia..]. pose proof Hs as [_ Heven _ _].
      unfold tiled_byte. destruct ((y <? H) && (x <? W * 2)) eqn:E; [|lia].
      f_equal. rewrite {1}(_ : nH = H); [|lia]. rewrite (_ : R = W * 2); lia.
    + intros j Hj. rewrite byte_at_patch; [|lia..]. rewrite bool_decide_eq_false_2; lia.
  - rewrite memset_eq; [|lia..]. cbn [mbind res_bind].
    set (t0 := patch _ _ _).
    assert (zlen (replicate (Z.to_nat (N * C * P)) (u8 0)) = N * C * P) as Hrep
      by (rewrite zlen_replicate; lia).
    assert (zlen t0 = zlen tile) as Ht0 by (apply zlen_patch; lia).
    eapply twp_mono; [apply tile_copy_rows; lia|]. intros t (Hz & Hin & Hout).
    assert (forall j, 0 <= j -> byte_at t0 j = if j <? N * C * P then 0 else byte_at tile j)
      as Hzero.
    { intros j Hj. unfold t0. rewrite byte_at_patch; [|lia..]. rewrite Hrep.
      case_bool_decide; destruct (j <? N * C * P) eqn:E; try lia.
      unfold byte_at. rewrite lookup_replicate_2; [done|lia]. }
    split; [lia|]. split.
    + intros n c y x Hn Hc Hy Hx. by apply (padded_byte data t t0 tile).
    + intros j Hj. rewrite Hout; [rewrite Hzero; [|lia]; destruct (j <? N * C * P) eqn:E; lia
        |lia|].
      intros [[n c] h] (Hn & Hc & Hh)%elem_of_rows. unfold row_in.
      destruct (tile_off_eq _ _ _ _ _ _ Hd n c h Hn Hc Hh) as (-> & Hb & ?).
      pose proof last_in_planes. lia.
Qed.

(** Every offset of the dense array is in one row. *)
Lemma dense_pos j :
  0 <= j < N * C * H * W * 2 ->
  exists n c h i, 0 <= n < N /\ 0 <= c < C /\ 0 <= h < H /\ 0 <= i < W * 2 /\
                  j = (row_index C n c * H + h) * (W * 2) + i.
Proof.
  intros Hj. destruct (geometry_facts _ _ _ _ _ _ Hd) as (? & ? & ? & ? & _).
  set (r := j / (W * 2)). set (k := r / H).
  pose proof (Z.div_mod j (W * 2) ltac:(lia)). pose proof (Z.mod_pos_bound j (W * 2) ltac:(lia)).
  pose proof (Z.div_mod r H ltac:(lia)). pose proof (Z.mod_pos_bound r H ltac:(lia)).
  pose proof (Z.div_mod k C ltac:(lia)). pose proof (Z.mod_pos_bound k C ltac:(lia)).
  assert (0 <= r) by (apply Z.div_pos; lia). assert (0 <= k) by (apply Z.div_pos; lia).
  assert (0 <= k / C) by (apply Z.div_pos; lia).
  assert (r < N * C * H) by (apply Z.div_lt_upper_bound; lia).
  assert (k < N * C) by (apply Z.div_lt_upper_bound; lia).
  assert (k / C < N) by (apply Z.div_lt_upper_bound; lia).
  exists (k / C), (k mod C), (r mod H), (j mod (W * 2)). split_and!; try lia.
  unfold row_index. rewrite (_ : k / C * C + k mod C = k); [|lia].
  rewrite (_ : k * H + r mod H = r); lia.
Qed.

Lemma untile_tiled data tile t d0 :
  zlen data = N * C * H * W * 2 -> zlen d0 = zlen data -> N * C * P <= zlen tile ->
  tiled data tile t -> ane_untile d0 t N C H W P R = Ret data.
Proof.
  intros Hdata Hd0 Htile (Hz & Hb & _). unfold ane_untile.
  rewrite (tile_geometry_eq _ _ _ _ _ _ Hd). destruct (size_wraps _ _ _ _ _ _ Hd) as [_ ->].
  destruct (geometry_facts _ _ _ _ _ _ Hd) as (? & ? & ? & ? & ? & ? & ? & ? & ?).
  pose proof Hs as [_ Heven _ Hrows]. pose proof (zlen_nonneg data).
  cbn [mbind res_bind new_H new_W stride the_geometry].
  assert (forall n c h i, 0 <= n < N -> 0 <= c < C -> 0 <= h < H -> 0 <= i < W * 2 ->
    byte_at t ((row_index C n c * nH + h) * R + i) =
    byte_at data ((row_index C n c * H + h) * (W * 2) + i)) as Hbyte.
  { intros n c h i Hn Hc Hh Hi. rewrite Hb; [|lia..]. unfold tiled_byte.
    by destruct ((h <? H) && (i <? W * 2)) eqn:E; [|lia]. }
  destruct ((nH =? H) && (R / 2 =? W)) eqn:Hdense.
  - destruct dense_path_eq as [HP HNCP]; [lia..|].
    rewrite memcpy_eq; [|lia..]. f_equal.
    assert (zlen (slice t 0 (N * C * H * W * 2)) = N * C * H * W * 2) as Hsl
      by (apply zlen_slice; lia).
    rewrite patch_all; [|lia]. apply bytes_ext; [lia|]. intros j Hj.
    rewrite byte_at_slice; [|lia..].
    destruct (dense_pos j) as (n & c & h & i & Hn & Hc & Hh & Hi & ->); [lia|].
    rewrite -Hbyte; [|done..]. f_equal.
    rewrite (_ : nH = H); [|lia]. rewrite (_ : R = W * 2); lia.
  - rewrite memset_eq; [|lia..]. cbn [mbind res_bind].
    assert (zlen (replicate (Z.to_nat (N * C * H * W * 2)) (u8 0)) = zlen d0) as Hrep
      by (rewrite zlen_replicate; lia).
    rewrite patch_all; [|lia].
    destruct (twp_ex _ _ (untile_copy_rows t (replicate (Z.to_nat (N * C * H * W * 2)) (u8 0))
      ltac:(lia) ltac:(lia))) as (d & -> & Hdz & Hin & _).
    f_equal. apply bytes_ext; [lia|]. intros j Hj.
    destruct (dense_pos j) as (n & c & h & i & Hn & Hc & Hh & Hi & ->); [lia|].
    rewrite -Hbyte; [|done..].
    specialize (Hin (n, c, h) i (proj2 (elem_of_rows _ _ _ _ _ _) (conj Hn (conj Hc Hh))) Hi).
    simpl in Hin. destruct (tile_off_eq _ _ _ _ _ _ Hd n c h Hn Hc Hh) as (Ht & _).
    destruct (dense_off_eq _ _ _ _ _ _ Hd n c h Hn Hc Hh) as (Hde & _).
    by rewrite Ht Hde -Heven in Hin.
Qed.
End contents.

(** C40: for every surface whose planes hold whole rows of whole elements and
    whose byte counts fit 64 bits, [ane_tile] stays inside both buffers,
    writes exactly the data in the first [H] rows and [W] columns of each
    plane with zeros in the padding and nothing past the planes, and
    [ane_untile] of the result into any buffer of the data's size gives the
    data back. *)
Theorem tile_untile_roundtrip N C H W P R data tile d0 :
  surface_ok N C H W P R ->
  zlen data = N * C * H * W * 2 -> N * C * P <= zlen tile -> zlen d0 = zlen data ->
  exists t, ane_tile data tile N C H W P R = Ret t /\ tiled N C H W P R data tile t /\
            ane_untile d0 t N C H W P R = Ret data.
Proof.
  intros Hs Hdata Htile Hd0.
  destruct (twp_ex _ _ (tile_contents N C H W P R Hs data tile ltac:(lia) Htile))
    as (t & Ht & Hc).
  exists t. split; [done|]. split; [done|]. by eapply untile_tiled.
Qed.

Lemma tile_untile_roundtrip_witness :
  exists t, ane_tile (seqZ 1 12) (replicate 40 7) 1 1 2 3 16 8 = Ret t /\
            t = [1;2;3;4;5;6;0;0;7;8;9;10;11;12;0;0] ++ replicate 24 7 /\
            ane_untile (replicate 12 0) t 1 1 2 3 16 8 = Ret (seqZ 1 12).
Proof.
  destruct (tile_untile_roundtrip 1 1 2 3 16 8 (seqZ 1 12) (replicate 40 7) (replicate 12 0))
    as (t & Ht & _ & Hu).
  - constructor; [constructor|..]; vm_compute; repeat split; congruence.
  - done.
  - vm_compute; congruence.
  - done.
  - exists t. split; [exact Ht|]. split; [|exact Hu]. injection Ht as <-. by vm_compute.
Defined.

(** ** The span check protects the copies *)

Lemma tile_span_eq N C H W P R :
  tile_dims N C H W P R ->
  ane_bind_tile_span N C H W P R =
  Ret (Z.max ((((N - 1) * C + (C - 1)) * (P / R) * (R / 2) + (H - 1) * (R / 2) + W) * 2)
             (N * C * P)).
Proof.
  intros Hd. destruct (geometry_facts _ _ _ _ _ _ Hd) as (? & ? & ? & ? & ? & ? & ? & ? & ?).
  destruct (size_wraps _ _ _ _ _ _ Hd) as [HNCP _].
  pose proof Hd as [_ HR Hdense Hplane Hlast]. unfold ane_bind_tile_span.
  destruct ((N =? 0) || (C =? 0) || (H =? 0) || (W =? 0)) eqn:E; [lia|].
  rewrite (wrap_small 64 (W * 2)); [|lia]. destruct (R <? W * 2) eqn:E1; [lia|].
  destruct (R =? 0) eqn:E2; [lia|]. rewrite HNCP.
  assert (0 <= (N - 1) * C) by nia.
  set (k := (N - 1) * C + (C - 1)) in *. assert (0 <= k) by lia.
  assert (0 <= k * (P / R)) by nia. assert (k * (P / R) <= k * (P / R) * (R / 2)) by nia.
  assert (0 <= (H - 1) * (R / 2)) by nia.
  assert (k + 1 = N * C) by (unfold k; ring).
  assert (N * C <= N * C * H * W * 2).
  { assert (0 < N * C) by nia. assert (1 <= H * W) by nia.
    replace (N * C * H * W * 2) with (N * C * (H * W) * 2) by ring. nia. }
  rewrite (wrap_small 64 ((N - 1) * C)); [|lia].
  rewrite (wrap_small 64 (_ + (C - 1))); [|lia]. fold k.
  rewrite (wrap_small 64 (k * (P / R))); [|lia].
  rewrite (wrap_small 64 (k * (P / R) * (R / 2))); [|lia].
  rewrite (wrap_small 64 ((H - 1) * _)); [|lia].
  rewrite (wrap_small 64 (_ + (H - 1) * _)); [|lia].
  rewrite (wrap_small 64 (_ + W)); [|lia]. rewrite (wrap_small 64 (_ * 2)); [|lia].
  f_equal. destruct (_ >? _) eqn:E3; lia.
Qed.

(** Row copies that stay in bounds, whether or not the rows overlap. *)
Lemma wp_rows_safe N C H copy m :
  (forall m' n c h, zlen m' = zlen m -> 0 <= n < N -> 0 <= c < C -> 0 <= h < H ->
     twp (copy m' n c h) (fun r => zlen r = zlen m)) ->
  twp (for_rows N C H copy m) (fun r => zlen r = zlen m).
Proof.
  intros Hc. rewrite for_rows_eq.
  assert (forall L m', (forall x, x ∈ L -> x ∈ rows N C H) -> zlen m' = zlen m ->
    twp (foldM (fun m '(n, c, h) => copy m n c h) m' L) (fun r => zlen r = zlen m)) as Hall.
  { induction L as [|[[n c] h] L IH]; intros m' HL Hz; [done|]. simpl.
    destruct (proj1 (elem_of_rows N C H n c h)) as (? & ? & ?); [apply HL; set_solver|].
    apply twp_bind. eapply twp_mono; [by apply Hc|]. intros r Hr. apply IH; [set_solver|done]. }
  by apply Hall.
Qed.

Lemma twp_memcpy_len dst doff src soff n :
  0 <= n -> 0 <= doff -> doff + n <= zlen dst -> 0 <= soff -> soff + n <= zlen src ->
  twp (memcpy dst doff src soff n) (fun r => zlen r = zlen dst).
Proof. intros. rewrite memcpy_eq; [|done..]. simpl. rewrite zlen_patch ?zlen_slice; lia. Qed.

(** [ane_bind_tile_span] is a sound guard of the copies: for every
    geometry it accepts whose byte counts fit 64 bits (rows may overlap or
    planes be ragged), a channel at least that long is never left by
    [ane_tile] or [ane_untile], which then succeed given a data buffer that
    covers the dense array (and, for the dense fast path, the planes). *)
Theorem tile_span_protects N C H W P R span data tile :
  tile_dims N C H W P R ->
  ane_bind_tile_span N C H W P R = Ret span -> span <= zlen tile ->
  N * C * H * W * 2 <= zlen data ->
  (P / R = H -> R / 2 = W -> N * C * P <= zlen data) ->
  twp (ane_tile data tile N C H W P R) (fun t => zlen t = zlen tile) /\
  twp (ane_untile data tile N C H W P R) (fun d => zlen d = zlen data).
Proof.
  intros Hd Hspan Hle Hdata Hfast. rewrite (tile_span_eq _ _ _ _ _ _ Hd) in Hspan.
  injection Hspan as Hspan.
  destruct (geometry_facts _ _ _ _ _ _ Hd) as (? & ? & ? & ? & ? & ? & ? & ? & ?).
  destruct (size_wraps _ _ _ _ _ _ Hd) as [HNCP HD].
  assert (0 <= N * C * P) by (pose proof (dims_pos _ _ _ _ _ _ Hd); assert (0 < N * C) by nia; nia).
  assert (0 <= N * C * H * W * 2) by (assert (0 < N * C) by nia; assert (0 < H * W) by nia; nia).
  unfold ane_tile, ane_untile. rewrite (tile_geometry_eq _ _ _ _ _ _ Hd) HNCP HD.
  cbn [mbind res_bind new_H new_W stride the_geometry].
  assert (forall n c h, 0 <= n < N -> 0 <= c < C -> 0 <= h < H ->
    0 <= tile_off (the_geometry C H W P R) n c h /\
    tile_off (the_geometry C H W P R) n c h + W * 2 <= zlen tile /\
    0 <= dense_off (the_geometry C H W P R) W n c h /\
    dense_off (the_geometry C H W P R) W n c h + W * 2 <= zlen data) as Hoff.
  { intros n c h Hn Hc Hh.
    destruct (tile_off_eq _ _ _ _ _ _ Hd n c h Hn Hc Hh) as (-> & Hb & ?).
    destruct (dense_off_eq _ _ _ _ _ _ Hd n c h Hn Hc Hh) as (-> & Hb' & ?). lia. }
  destruct ((P / R =? H) && (R / 2 =? W)) eqn:E.
  - assert (R = W * 2 \/ R = W * 2 + 1) as HR by dlia.
    assert (H * (W * 2) <= P) by nia.
    assert (N * C * H * W * 2 <= N * C * P).
    { replace (N * C * H * W * 2) with (N * C * (H * (W * 2))) by ring. nia. }
    split; apply twp_memcpy_len; lia.
  - split; (rewrite memset_eq; [|lia..]); cbn [mbind res_bind];
      (eapply twp_mono; [apply wp_rows_safe|intros r; rewrite zlen_patch ?zlen_replicate; lia]);
      intros m' n c h Hz Hn Hc Hh; destruct (Hoff n c h Hn Hc Hh) as (? & ? & ? & ?);
      (rewrite zlen_patch ?zlen_replicate in Hz; [|lia..]);
      (rewrite zlen_patch ?zlen_replicate; [|lia..]); rewrite -Hz;
      apply twp_memcpy_len; lia.
Qed.

Lemma tile_span_protects_witness :
  ane_bind_tile_span 1 1 2 3 16 8 = Ret 16 /\
  twp (ane_tile (seqZ 1 12) (replicate 16 7) 1 1 2 3 16 8)
    (fun t => zlen t = zlen (replicate 16 7)).
Proof.
  assert (ane_bind_tile_span 1 1 2 3 16 8 = Ret 16) as E by (by vm_compute).
  split; [exact E|].
  assert (tile_dims 1 1 2 3 16 8) as Hd by (constructor; vm_compute; repeat split; congruence).
  refine (proj1 (tile_span_protects 1 1 2 3 16 8 16 (seqZ 1 12) (replicate 16 7) Hd E _ _ _)).
  - vm_decide.
  - vm_decide.
  - intros _ Hw. vm_compute in Hw. discriminate Hw.
Defined.
