(* ===== verification/F16.v ===== *)
(** * Half precision

    [src/libane/ane_f16.h]: the conversions between 16-bit and 32-bit floats,
    which are done with 32-bit float arithmetic on bit patterns, and the row
    loops around them. A float is its bit pattern; the arithmetic of the
    language is IEEE 754: the exact result rounded to nearest, ties to even.
    The pattern of a NaN that an operation returns is left to the machine. *)

From S2P Require Import Prelude.

#[local] Open Scope Z_scope.

(** ** IEEE 754 arithmetic *)

(** [n / d] to nearest, ties to even. *)
Definition rne (n d : Z) : Z :=
  let q := n / d in
  let r := n mod d in
  if 2 * r <? d then q else if d <? 2 * r then q + 1 else if Z.even q then q else q + 1.

(** A format: [p] bits of precision, and the exponent of its smallest number.
    The pattern of [m * 2^e] rounded, with an unbounded exponent: the last
    place is [u], and the significand carries into the exponent. *)
Definition round_to (p emin m e : Z) : Z :=
  if m =? 0 then 0
  else
    let u := Z.max (Z.log2 m + e - (p - 1)) emin in
    (u - emin) * 2 ^ (p - 1) + (if u <=? e then m * 2 ^ (e - u) else rne m (2 ^ (u - e))).

(** The number a pattern stands for, as a multiple of the smallest one. *)
Definition value (p b : Z) : Z :=
  let E := b / 2 ^ (p - 1) in
  let M := b mod 2 ^ (p - 1) in
  if E =? 0 then M else (2 ^ (p - 1) + M) * 2 ^ (E - 1).

Definition F32_INF : Z := 0x7f800000.
Definition F32_SIGN : Z := 0x80000000.
Definition F16_INF : Z := 0x7c00.

(** A 32-bit float: its sign and its magnitude. *)
Definition neg32 (b : Z) : bool := F32_SIGN <=? b.
Definition mag32 (b : Z) : Z := b mod F32_SIGN.
Definition is_nan32 (b : Z) : bool := F32_INF <? mag32 b.
Definition with_sign (s : bool) (b : Z) : Z := (if s then F32_SIGN else 0) + b.

(** The nearest 32-bit float to a magnitude; numbers that are too large become
    infinite. *)
Definition round32 (m e : Z) : Z := Z.min (round_to 24 (-149) m e) F32_INF.

(** What an operation with a NaN operand, or without a result, returns. *)
Class NanResult := {
  nan_result : Z -> Z -> Z;
  nan_result_nan a b : in_range 32 (nan_result a b) /\ is_nan32 (nan_result a b) = true;
}.

Section arith.
Context `{NanResult}.

Definition f32_mul (a b : Z) : Z :=
  let s := xorb (neg32 a) (neg32 b) in
  if is_nan32 a || is_nan32 b then nan_result a b
  else if (mag32 a =? F32_INF) || (mag32 b =? F32_INF) then
    if (mag32 a =? 0) || (mag32 b =? 0) then nan_result a b else with_sign s F32_INF
  else with_sign s (round32 (value 24 (mag32 a) * value 24 (mag32 b)) (-298)).

Definition signed (b : Z) : Z := if neg32 b then - value 24 (mag32 b) else value 24 (mag32 b).

Definition f32_add (a b : Z) : Z :=
  if is_nan32 a || is_nan32 b then nan_result a b
  else if mag32 a =? F32_INF then
    if (mag32 b =? F32_INF) && negb (eqb (neg32 a) (neg32 b)) then nan_result a b else a
  else if mag32 b =? F32_INF then b
  else
    let v := signed a + signed b in
    if v =? 0 then with_sign (neg32 a && neg32 b) 0 else with_sign (v <? 0) (round32 (Z.abs v) (-149)).

Definition f32_neg (b : Z) : Z := Z.lxor b F32_SIGN.
Definition f32_sub (a b : Z) : Z := f32_add a (f32_neg b).
Definition fabsf (b : Z) : Z := mag32 b.

(** ** The conversions *)

(** The literals of the source. *)
Definition exp_scale : Z := 0x07800000.       (* 0x1.0p-112f *)
Definition magic_bias : Z := 0x3f000000.      (* 0.5f *)
Definition scale_to_inf : Z := 0x77800000.    (* 0x1.0p+112f *)
Definition scale_to_zero : Z := 0x08800000.   (* 0x1.0p-110f *)

Definition ane_compute_f16_to_f32 (h : Z) : Z :=
  let w := u32 (Z.shiftl h 16) in
  let sign := Z.land w 0x80000000 in
  let two_w := u32 (w + w) in
  let exp_offset := u32 (Z.shiftl 0xE0 23) in
  let normalized_value := f32_mul (u32 (Z.shiftr two_w 4 + exp_offset)) exp_scale in
  let magic_mask := u32 (Z.shiftl 126 23) in
  let denormalized_value := f32_sub (Z.lor (Z.shiftr two_w 17) magic_mask) magic_bias in
  let denormalized_cutoff := u32 (Z.shiftl 1 27) in
  Z.lor sign (if two_w <? denormalized_cutoff then denormalized_value else normalized_value).

Definition ane_compute_f32_to_f16 (f : Z) : Z :=
  let base := f32_mul (f32_mul (fabsf f) scale_to_inf) scale_to_zero in
  let w := f in
  let shl1_w := u32 (w + w) in
  let sign := Z.land w 0x80000000 in
  let bias := Z.land shl1_w 0xFF000000 in
  let bias := if bias <? 0x71000000 then 0x71000000 else bias in
  let base := f32_add (u32 (Z.shiftr bias 1 + 0x07800000)) base in
  let bits := base in
  let exp_bits := Z.land (Z.shiftr bits 13) 0x00007C00 in
  let mantissa_bits := Z.land bits 0x00000FFF in
  let nonsign := u32 (exp_bits + mantissa_bits) in
  u16 (Z.lor (Z.shiftr sign 16) (if shl1_w >? 0xFF000000 then 0x7E00 else nonsign)).

(** The loops over a row: [k] elements from [i] on. *)
Fixpoint row_from (conv : Z -> Z) (x : list Z) (k i : nat) (y : list Z) : res (list Z) :=
  match k with
  | O => Ret y
  | S k' =>
      match x !! i, y !! i with
      | Some v, Some _ => row_from conv x k' (S i) (<[i := conv v]> y)
      | _, _ => Fault OutOfBounds
      end
  end.

Definition ane_f16_to_f32_row (x y : list Z) (n : Z) : res (list Z) := row_from ane_compute_f16_to_f32 x (Z.to_nat n) 0 y.
Definition ane_f32_to_f16_row (x y : list Z) (n : Z) : res (list Z) := row_from ane_compute_f32_to_f16 x (Z.to_nat n) 0 y.
End arith.

(** ** Rounding *)

Lemma pow2_pos n : 0 <= n -> 0 < 2 ^ n.
Proof. intros. apply Z.pow_pos_nonneg; lia. Qed.

Lemma pow2_split a b : 0 <= b <= a -> 2 ^ a = 2 ^ (a - b) * 2 ^ b.
Proof. intros. rewrite -Z.pow_add_r; [f_equal|..]; lia. Qed.

(** The quotient, or the next one, whichever is closer. *)
Lemma rne_spec n d :
  0 < d ->
  (rne n d = n / d /\ 2 * (n mod d) <= d /\ (2 * (n mod d) = d -> Z.even (rne n d) = true)) \/
  (rne n d = n / d + 1 /\ d <= 2 * (n mod d) /\ (2 * (n mod d) = d -> Z.even (rne n d) = true)).
Proof.
  intros Hd. unfold rne. destruct (Z.ltb_spec (2 * (n mod d)) d); [left; lia|].
  destruct (Z.ltb_spec d (2 * (n mod d))); [right; lia|]. destruct (Z.even (n / d)) eqn:E; [left; auto with lia|right].
  split; [done|]. split; [lia|]. intros _. by rewrite Z.even_add E.
Qed.

Lemma rne_exact n d : 0 < d -> rne (n * d) d = n.
Proof.
  intros Hd. unfold rne. rewrite Z.div_mul; [|lia]. rewrite Z.mod_mul; [|lia].
  by rewrite (proj2 (Z.ltb_lt (2 * 0) d)); [|lia].
Qed.

Lemma rne_scale n d k : 0 < d -> 0 < k -> rne (n * k) (d * k) = rne n d.
Proof.
  intros Hd Hk. unfold rne. rewrite Z.div_mul_cancel_r; [|lia..]. rewrite Z.mul_mod_distr_r; [|lia..].
  replace (2 * (n mod d * k) <? d * k) with (2 * (n mod d) <? d) by (apply eq_bool_prop_intro; rewrite !Is_true_true; nia).
  replace (d * k <? 2 * (n mod d * k)) with (d <? 2 * (n mod d)) by (apply eq_bool_prop_intro; rewrite !Is_true_true; nia).
  done.
Qed.

Lemma rne_shift n d k : 0 < d -> Z.even k = true -> rne (k * d + n) d = k + rne n d.
Proof.
  intros Hd Hk. unfold rne. rewrite Z.add_comm. rewrite Z.div_add; [|lia]. rewrite Z.mod_add; [|lia]. rewrite Z.even_add Hk.
  destruct (_ <? d); [lia|]. destruct (d <? _); [lia|]. destruct (Z.even (n / d)); cbn; lia.
Qed.

Lemma rne_bounds n d a b : 0 < d -> a * d <= n <= b * d -> a <= rne n d <= b.
Proof.
  intros Hd H. pose proof (Z.div_mod n d ltac:(lia)). pose proof (Z.mod_pos_bound n d Hd).
  destruct (rne_spec n d Hd) as [(-> & H9 & _)|(-> & H9 & _)]; nia.
Qed.

Lemma round_to_0 p emin e : round_to p emin 0 e = 0.
Proof. done. Qed.

(** Rounding depends on the number alone. *)
Lemma round_to_scale p emin m k e : 0 <= m -> 0 <= k -> round_to p emin (m * 2 ^ k) e = round_to p emin m (e + k).
Proof.
  intros Hm Hk. pose proof (pow2_pos k Hk). unfold round_to. destruct (Z.eqb_spec m 0) as [->|Hm0]; [done|].
  destruct (Z.eqb_spec (m * 2 ^ k) 0) as [|_]; [nia|]. rewrite Z.log2_mul_pow2; [|lia|done].
  replace (k + Z.log2 m + e - (p - 1)) with (Z.log2 m + (e + k) - (p - 1)) by lia.
  cbv zeta. set (u := Z.max (Z.log2 m + (e + k) - (p - 1)) emin). f_equal.
  destruct (Z.leb_spec u e) as [He|He]; destruct (Z.leb_spec u (e + k)) as [He'|He']; try lia.
  - rewrite -Z.mul_assoc -Z.pow_add_r; [|lia..]. do 2 f_equal. lia.
  - rewrite (pow2_split k (u - e)); [|lia]. rewrite Z.mul_assoc rne_exact; [|apply pow2_pos; lia]. do 2 f_equal. lia.
  - rewrite (pow2_split (u - e) k); [|lia]. rewrite rne_scale; [|apply pow2_pos; lia|done]. do 2 f_equal. lia.
Qed.

Section format.
Context (p : Z) (Hp : 2 <= p).

Abbreviation half := (2 ^ (p - 1)).

Lemma half_pos : 0 < half.
Proof using Hp. apply pow2_pos. lia. Qed.

Lemma half_two : 2 ^ p = 2 * half.
Proof using Hp. rewrite -Z.pow_succ_r; [f_equal|]; lia. Qed.

(** The pattern with last place [k] and significand [n]. *)
Lemma value_place k n : 0 <= k -> 0 <= n <= 2 ^ p -> (0 < k -> half <= n) -> value p (k * half + n) = n * 2 ^ k.
Proof using Hp.
  intros Hk Hn Hkn. pose proof half_pos as Hh. rewrite half_two in Hn. unfold value. set (h := half) in *. clearbody h.
  destruct (Z.lt_ge_cases n h) as [Hlt|Hge].
  - assert (k = 0) as -> by lia. rewrite Z.mul_0_l Z.add_0_l Z.div_small; [|lia]. rewrite Z.mod_small; [|lia]. cbn [Z.eqb]. lia.
  - rewrite Z.add_comm Z.div_add; [|lia]. rewrite Z.mod_add; [|lia].
    destruct (Z.eq_dec n (2 * h)) as [->|Hne].
    + rewrite Z.div_mul; [|lia]. rewrite Z.mod_mul; [|lia]. destruct (Z.eqb_spec (2 + k) 0); [lia|].
      replace (2 + k - 1) with (k + 1) by lia. rewrite Z.pow_add_r; lia.
    + assert (n / h = 1) as -> by (symmetry; apply (Z.div_unique _ _ _ (n - h)); lia).
      assert (n mod h = n - h) as -> by (symmetry; apply (Z.mod_unique _ _ 1); lia).
      destruct (Z.eqb_spec (1 + k) 0); [lia|]. replace (1 + k - 1) with k by lia. f_equal. lia.
Qed.

(** Every pattern has that form. *)
Lemma value_form b :
  0 <= b -> exists k n, b = k * half + n /\ 0 <= k /\ 0 <= n < 2 ^ p /\ (0 < k -> half <= n) /\ value p b = n * 2 ^ k /\
    k = Z.max 0 (b / half - 1).
Proof using Hp.
  intros Hb. pose proof half_pos as Hh. pose proof (Z.div_mod b half ltac:(lia)) as Hd. pose proof (Z.mod_pos_bound b half Hh) as Hm.
  assert (0 <= b / half) by (apply Z.div_pos; lia). rewrite half_two.
  destruct (Z.eq_dec (b / half) 0) as [E|E].
  - exists 0, (b mod half). split; [nia|]. split; [lia|]. split; [lia|]. split; [lia|].
    split; [|lia]. unfold value. rewrite E. cbn [Z.eqb]. lia.
  - exists (b / half - 1), (half + b mod half). split; [nia|]. split; [lia|]. split; [lia|]. split; [lia|].
    split; [|lia]. unfold value. by destruct (Z.eqb_spec (b / half) 0).
Qed.

Lemma value_nonneg b : 0 <= b -> 0 <= value p b.
Proof using Hp. intros Hb. destruct (value_form b Hb) as (k & n & _ & Hk & Hn & _ & -> & _). pose proof (pow2_pos k Hk). nia. Qed.

Lemma value_lt b b' : 0 <= b < b' -> value p b < value p b'.
Proof using Hp.
  intros Hb. destruct (value_form b ltac:(lia)) as (k & n & Eb & Hk & Hn & Hkn & -> & Ek).
  destruct (value_form b' ltac:(lia)) as (k' & n' & Eb' & Hk' & Hn' & Hkn' & -> & Ek').
  pose proof half_pos as Hh. rewrite half_two in Hn, Hn'. pose proof (pow2_pos k Hk).
  assert (k <= k') as Hle.
  { subst k k'. pose proof (Z.div_le_mono b b' half ltac:(lia) ltac:(lia)). lia. }
  rewrite (pow2_split k' k); [|lia].
  destruct (Z.eq_dec k k') as [E|E]; [rewrite E Z.sub_diag Z.pow_0_r; subst; nia|].
  pose proof (Hkn' ltac:(lia)). assert (2 <= 2 ^ (k' - k)) by (rewrite -{1}(Z.pow_1_r 2); apply Z.pow_le_mono_r; lia).
  assert (n < n' * 2 ^ (k' - k)) by nia. nia.
Qed.

Lemma value_inj b b' : 0 <= b -> 0 <= b' -> value p b = value p b' -> b = b'.
Proof using Hp.
  intros Hb Hb' E. destruct (Z.lt_trichotomy b b') as [Hlt|[|Hlt]]; [|done|].
  - pose proof (value_lt b b'). lia.
  - pose proof (value_lt b' b). lia.
Qed.

Lemma value_le_iff b b' : 0 <= b -> 0 <= b' -> value p b <= value p b' <-> b <= b'.
Proof using Hp.
  intros Hb Hb'. split.
  - intros Hv. destruct (Z.lt_ge_cases b' b) as [Hlt|]; [|done]. pose proof (value_lt b' b). lia.
  - intros Hle. destruct (Z.eq_dec b b') as [->|]; [done|]. pose proof (value_lt b b' ltac:(lia)). lia.
Qed.

Lemma value_0 : value p 0 = 0.
Proof using Hp. pose proof half_pos. unfold value. rewrite Z.div_0_l; [|lia]. by rewrite Z.mod_0_l; [|lia]. Qed.

(** Numbers of at most [p] significant bits have a pattern. *)
Lemma representable s k : 0 <= s < 2 ^ p -> 0 <= k -> exists b, 0 <= b /\ value p b = s * 2 ^ k.
Proof using Hp.
  intros Hs Hk. destruct (Z.eq_dec s 0) as [->|Hs0].
  { exists 0. by rewrite value_0. }
  pose proof (Z.log2_spec s ltac:(lia)) as Hl. assert (Z.log2 s < p) as Hlp by (apply Z.log2_lt_pow2; lia).
  pose proof (Z.log2_nonneg s). set (j := Z.min k (p - 1 - Z.log2 s)). exists ((k - j) * half + s * 2 ^ j).
  pose proof (pow2_pos j ltac:(lia)). pose proof half_pos.
  assert (s * 2 ^ j < 2 ^ p) as Hub.
  { apply Z.lt_le_trans with (2 ^ (Z.log2 s + 1 + j)); [|apply Z.pow_le_mono_r; lia].
    rewrite Z.pow_add_r; [|lia..]. rewrite Z.add_1_r. nia. }
  split; [nia|]. rewrite value_place; [|lia|lia|].
  - rewrite -Z.mul_assoc -Z.pow_add_r; [|lia..]. do 2 f_equal. lia.
  - intros Hkj. replace (p - 1) with (Z.log2 s + j) by lia. rewrite Z.pow_add_r; [|lia..]. nia.
Qed.

(** The last place [k] of a number, and its rounding there. *)
Lemma round_place emin m e :
  0 < m -> e <= emin ->
  exists k, 0 <= k /\ let U := 2 ^ (k + emin - e) in
    round_to p emin m e = k * half + rne m U /\ value p (round_to p emin m e) = rne m U * 2 ^ k /\
    (0 < k -> half * U <= m) /\ k = Z.max (Z.log2 m + e - (p - 1) - emin) 0.
Proof using Hp.
  intros Hm He. pose proof (Z.log2_spec m Hm) as Hl. pose proof (Z.log2_nonneg m). pose proof half_pos.
  set (k := Z.max (Z.log2 m + e - (p - 1) - emin) 0). exists k. split; [lia|]. cbv zeta.
  set (U := 2 ^ (k + emin - e)). assert (0 < U) as HU by (apply pow2_pos; lia).
  assert (round_to p emin m e = k * half + rne m U) as Er.
  { unfold round_to. destruct (Z.eqb_spec m 0); [lia|]. cbv zeta.
    replace (Z.max (Z.log2 m + e - (p - 1)) emin) with (k + emin) by lia. f_equal; [f_equal; lia|].
    destruct (Z.leb_spec (k + emin) e); [|done]. replace (e - (k + emin)) with 0 by lia.
    subst U. replace (k + emin - e) with 0 by lia. rewrite Z.pow_0_r Z.mul_1_r. symmetry. rewrite -{1}(Z.mul_1_r m).
    by rewrite rne_exact. }
  assert (0 < k -> half * U <= m) as Hlow.
  { intros Hk. subst U. rewrite -Z.pow_add_r; [|lia..]. replace (p - 1 + (k + emin - e)) with (Z.log2 m) by lia. lia. }
  assert (m <= 2 ^ p * U) as Hup.
  { subst U. rewrite -Z.pow_add_r; [|lia..]. apply Z.le_trans with (2 ^ Z.succ (Z.log2 m)); [lia|]. apply Z.pow_le_mono_r; lia. }
  split; [done|]. split; [|done]. rewrite Er. apply value_place; [lia| |].
  - apply rne_bounds; [done|]. lia.
  - intros Hk. specialize (Hlow Hk). apply (rne_bounds m U half (2 ^ p)); [done|]. lia.
Qed.

(** Between two neighbours at that place there is no other number. *)
Lemma value_gap k q h :
  0 <= k -> 0 <= h -> (0 < k -> half <= q) -> 0 <= q -> value p h <= q * 2 ^ k \/ (q + 1) * 2 ^ k <= value p h.
Proof using Hp.
  intros Hk Hh Hq Hq0. destruct (value_form h Hh) as (kh & n & _ & Hkh & Hn & Hkn & -> & _). pose proof half_pos.
  rewrite half_two in Hn. pose proof (pow2_pos kh Hkh). pose proof (pow2_pos k Hk).
  destruct (Z.lt_ge_cases kh k) as [Hlt|Hge].
  - left. specialize (Hq ltac:(lia)). rewrite (pow2_split k kh); [|lia].
    assert (2 <= 2 ^ (k - kh)) by (rewrite -{1}(Z.pow_1_r 2); apply Z.pow_le_mono_r; lia).
    assert (n <= q * 2 ^ (k - kh)) by nia. rewrite Z.mul_assoc. apply Z.mul_le_mono_nonneg_r; lia.
  - rewrite (pow2_split kh k); [|lia]. pose proof (pow2_pos (kh - k) ltac:(lia)).
    rewrite Z.mul_assoc. destruct (Z.le_gt_cases (n * 2 ^ (kh - k)) q); [left|right]; apply Z.mul_le_mono_nonneg_r; lia.
Qed.

(** Rounding gives a nearest pattern, and an even one of two nearest. *)
Lemma round_nearest emin v e h :
  0 <= v -> e <= emin -> 0 <= h ->
  let D := 2 ^ (emin - e) in
  let b := round_to p emin v e in
  0 <= b /\ Z.abs (value p b * D - v) <= Z.abs (value p h * D - v) /\
  (Z.abs (value p b * D - v) = Z.abs (value p h * D - v) -> h = b \/ Z.even b = true).
Proof using Hp.
  intros Hv He Hh D b. pose proof half_pos as Hhp. assert (0 < D) as HD by (apply pow2_pos; lia).
  pose proof (value_nonneg h Hh) as Hvh.
  destruct (Z.eq_dec v 0) as [->|Hv0].
  { subst b. rewrite round_to_0. rewrite value_0.
    split; [done|]. split; [lia|]. auto. }
  destruct (round_place emin v e ltac:(lia) He) as (k & Hk & Hr). cbv zeta in Hr. fold b in Hr. set (U := 2 ^ (k + emin - e)) in Hr.
  destruct Hr as (Eb & Evb & Hlow & _).
  assert (U = 2 ^ k * D) as EU by (subst U D; rewrite -Z.pow_add_r; [f_equal|..]; lia).
  pose proof (pow2_pos k Hk) as Hpk. assert (0 < U) as HU by nia.
  pose proof (Z.div_mod v U ltac:(lia)) as Hdm. pose proof (Z.mod_pos_bound v U HU) as Hmod.
  assert (0 <= v / U) as Hq0 by (apply Z.div_pos; lia).
  assert (0 < k -> half <= v / U) as Hq by (intros Hk0; apply Z.div_le_lower_bound; [lia|]; rewrite Z.mul_comm; auto).
  assert (0 <= b) as Hb0 by (rewrite Eb; pose proof (rne_bounds v U (v / U) (v / U + 1) HU ltac:(nia)); nia).
  assert (value p h * D <= v / U * U \/ (v / U + 1) * U <= value p h * D) as Hgap.
  { destruct (value_gap k (v / U) h Hk Hh Hq Hq0) as [Hg|Hg]; [left|right];
      apply (Z.mul_le_mono_nonneg_r _ _ D) in Hg; [|lia| |lia]; rewrite -Z.mul_assoc -EU in Hg; exact Hg. }
  assert (value p b * D = rne v U * U) as EvD by (rewrite Evb EU; lia).
  assert (Z.even (rne v U) = true -> Z.even b = true) as Hev.
  { intros Hn. rewrite Eb Z.even_add Hn Z.even_mul. rewrite (Z.even_pow 2); [|lia]. by rewrite orb_true_r. }
  split; [done|]. rewrite EvD. assert (value p h * D = rne v U * U -> h = b) as Hsame.
  { intros E. apply value_inj; [done|done|]. apply (Z.mul_cancel_r _ _ D); [lia|]. by rewrite E EvD. }
  destruct (rne_spec v U HU) as [(En & H1 & H2)|(En & H1 & H2)]; rewrite En in H2 Hev Hsame |- *.
  - split; [lia|]. intros E. destruct Hgap as [Hg|Hg]; [left; apply Hsame; lia|].
    right. apply Hev, H2. lia.
  - split; [lia|]. intros E. destruct Hgap as [Hg|Hg]; [|left; apply Hsame; lia].
    right. apply Hev, H2. lia.
Qed.

(** Numbers of the format are kept. *)
Lemma round_exact emin b : 0 <= b -> round_to p emin (value p b) emin = b.
Proof using Hp.
  intros Hb. destruct (round_nearest emin (value p b) emin b) as (H0 & H1 & _); [by apply value_nonneg|lia|done|].
  rewrite Z.sub_diag Z.pow_0_r !Z.mul_1_r in H1. apply value_inj; [done|done|lia].
Qed.

Lemma round_representable emin s k e :
  0 <= s < 2 ^ p -> 0 <= k -> e + k >= emin ->
  exists b, 0 <= b /\ round_to p emin (s * 2 ^ k) e = b /\ value p b = s * 2 ^ (e + k - emin).
Proof using Hp.
  intros Hs Hk He. destruct (representable s (e + k - emin) Hs ltac:(lia)) as (b & Hb & Ev). exists b. split; [done|].
  split; [|done]. rewrite round_to_scale; [|lia|lia].
  replace (e + k) with (emin + (e + k - emin)) by lia. rewrite -round_to_scale; [|lia|lia].
  replace (emin + (e + k - emin)) with (e + k) in Ev by lia. rewrite -Ev. by apply round_exact.
Qed.
End format.

(** ** The operations on small patterns *)

Section ops.
Context `{NanResult}.

Lemma small_mag a : 0 <= a < F32_SIGN -> mag32 a = a /\ neg32 a = false.
Proof using Type. intros Ha. unfold mag32, neg32. split; [by apply Z.mod_small|]. apply Z.leb_gt. lia. Qed.

Lemma finite_mag a : 0 <= a < F32_INF -> mag32 a = a /\ neg32 a = false /\ is_nan32 a = false /\ (mag32 a =? F32_INF) = false.
Proof using Type.
  intros Ha. assert (0 <= a < F32_SIGN) as Hs by (unfold F32_INF, F32_SIGN in *; lia). destruct (small_mag a Hs) as [E ->].
  unfold is_nan32. rewrite E. split; [done|]. split; [done|]. split; [apply Z.ltb_ge|apply Z.eqb_neq]; lia.
Qed.

Lemma inf_mag : mag32 F32_INF = F32_INF /\ neg32 F32_INF = false /\ is_nan32 F32_INF = false.
Proof using Type. done. Qed.

(** A product with a power of two is exact. *)
Lemma mul_pow2 a c j s k :
  0 <= a < F32_INF -> 0 <= c < F32_INF -> value 24 a = s * 2 ^ k -> 0 <= s < 2 ^ 24 -> 0 <= k ->
  value 24 c = 2 ^ j -> 0 <= j -> 149 <= k + j ->
  exists b, 0 <= b /\ value 24 b = s * 2 ^ (k + j - 149) /\ f32_mul a c = Z.min b F32_INF.
Proof using Type.
  intros Ha Hc Ea Hs Hk Ec Hj Hkj. destruct (finite_mag a Ha) as (E1 & E2 & E3 & E4). destruct (finite_mag c Hc) as (F1 & F2 & F3 & F4).
  destruct (round_representable 24 ltac:(lia) (-149) s (k + j) (-298) Hs ltac:(lia) ltac:(lia)) as (b & Hb & Er & Ev).
  exists b. split; [done|]. split; [rewrite Ev; do 2 f_equal; lia|].
  unfold f32_mul. rewrite E3 F3 E4 F4 E2 F2 E1 F1 Ea Ec. cbn [orb xorb]. unfold with_sign, round32.
  rewrite -Z.mul_assoc -Z.pow_add_r; [|done..]. by rewrite Er.
Qed.

Lemma mul_inf c : 0 < c < F32_INF -> f32_mul F32_INF c = F32_INF.
Proof using Type.
  intros Hc. destruct (finite_mag c ltac:(lia)) as (F1 & F2 & F3 & F4). unfold f32_mul. rewrite F3 F2 F4.
  change (is_nan32 F32_INF) with false. change (mag32 F32_INF =? F32_INF) with true. change (mag32 F32_INF =? 0) with false. cbn [orb].
  rewrite F1 (proj2 (Z.eqb_neq c 0)); [done|lia].
Qed.

Lemma add_pos a b :
  0 <= a < F32_INF -> 0 <= b < F32_INF -> 0 < value 24 a + value 24 b ->
  f32_add a b = round32 (value 24 a + value 24 b) (-149).
Proof using Type.
  intros Ha Hb Hv. destruct (finite_mag a Ha) as (E1 & E2 & E3 & E4). destruct (finite_mag b Hb) as (F1 & F2 & F3 & F4).
  unfold f32_add, signed. rewrite E3 F3 E4 F4 E2 F2 E1 F1. cbn [orb andb]. cbv zeta.
  destruct (Z.eqb_spec (value 24 a + value 24 b) 0); [lia|]. destruct (Z.ltb_spec (value 24 a + value 24 b) 0); [lia|].
  rewrite Z.abs_eq; [done|lia].
Qed.

Lemma add_inf a : is_nan32 a = false -> (mag32 a = F32_INF -> a = F32_INF) -> f32_add a F32_INF = F32_INF.
Proof using Type.
  intros Hn Hi. unfold f32_add. rewrite Hn. change (is_nan32 F32_INF) with false. cbn [orb].
  destruct (Z.eqb_spec (mag32 a) F32_INF) as [E|E]; [|done]. by rewrite (Hi E).
Qed.

(** ** To half precision *)

Definition neg16 (h : Z) : bool := 0x8000 <=? h.
Definition mag16 (h : Z) : Z := h mod 0x8000.

(** The reference: the sign of the number and its magnitude rounded. *)
Definition to_half (f : Z) : Z :=
  (if neg32 f then 0x8000 else 0) +
  (if is_nan32 f then 0x7e00
   else if mag32 f =? F32_INF then F16_INF
   else Z.min (round_to 11 (-24) (value 24 (mag32 f)) (-149)) F16_INF).

(** Splitting a word into sign and magnitude. *)
Lemma sign_bit w : in_range 32 w -> Z.land w 0x80000000 = if neg32 w then 2 ^ 31 else 0.
Proof using Type.
  intros Hw. change 0x80000000 with (Z.shiftl (2 ^ 1 - 1) 31). rewrite land_field; [|done..].
  unfold neg32, F32_SIGN. unfold in_range in Hw. destruct (Z.leb_spec 0x80000000 w); dlia.
Qed.

Lemma twice_mag w : in_range 32 w -> u32 (w + w) = 2 * mag32 w.
Proof using Type. intros Hw. unfold wrap, mag32, F32_SIGN, in_range in *. dlia. Qed.

Lemma mag_range w : 0 <= mag32 w < 2 ^ 31.
Proof using Type. unfold mag32, F32_SIGN. apply Z.mod_pos_bound. lia. Qed.

(** The exponent field and the number behind it. *)
Lemma exponent_value a :
  0 <= a < F32_INF -> let E := a / 2 ^ 23 in
  0 <= E <= 254 /\ 0 <= value 24 a < 2 ^ (Z.max E 1 + 23) /\ (1 <= E -> 2 ^ (E + 22) <= value 24 a).
Proof using Type.
  intros Ha E. unfold F32_INF in Ha. assert (0 <= E <= 254) as HE by (subst E; dlia). split; [done|].
  pose proof (Z.mod_pos_bound a (2 ^ 23) ltac:(lia)) as HM. unfold value. change (24 - 1) with 23. fold E.
  destruct (Z.eqb_spec E 0) as [E0|E0].
  - rewrite E0. split; [|lia]. change (2 ^ (Z.max 0 1 + 23)) with (2 * 2 ^ 23). lia.
  - rewrite Z.max_l; [|lia]. pose proof (pow2_pos (E - 1) ltac:(lia)).
    replace (E + 23) with (E - 1 + 24) by lia. replace (E + 22) with (E - 1 + 23) by lia.
    rewrite (Z.pow_add_r 2 (E - 1) 24) ?(Z.pow_add_r 2 (E - 1) 23); [|lia..].
    change (2 ^ 24) with (2 * 2 ^ 23). rewrite (Z.mul_comm (2 ^ (E - 1))) (Z.mul_comm (2 ^ (E - 1))).
    split; [split; [nia|apply Z.mul_lt_mono_pos_r; lia]|intros _; apply Z.mul_le_mono_nonneg_r; lia].
Qed.

(** The scaled magnitude: four times the number, or infinity from 2^16 on. *)
Lemma scaled_small a :
  0 <= a < 0x47800000 ->
  exists b, 0 <= b < F32_INF /\ value 24 b = 4 * value 24 a /\ f32_mul (f32_mul a scale_to_inf) scale_to_zero = b.
Proof using Type.
  intros Ha. assert (0 <= a < F32_INF) as Hf by (unfold F32_INF; lia).
  destruct (value_form 24 ltac:(lia) a ltac:(lia)) as (k & n & _ & Hk & Hn & _ & Ev & _).
  pose proof (value_lt 24 ltac:(lia) a 0x47800000 ltac:(lia)) as Hlt. change (value 24 0x47800000) with (2 ^ 165) in Hlt.
  destruct (mul_pow2 a scale_to_inf 261 n k Hf ltac:(done) Ev Hn Hk eq_refl ltac:(lia) ltac:(lia)) as (b1 & Hb1 & E1 & ->).
  assert (b1 < F32_INF) as Hlt1.
  { apply Z.lt_nge. rewrite -(value_le_iff 24); [|lia|done|lia]. change (value 24 F32_INF) with (2 ^ 277). rewrite E1.
    replace (k + 261 - 149) with (k + 112) by lia. rewrite Z.pow_add_r; [|lia..]. rewrite Z.mul_assoc -Ev. lia. }
  rewrite Z.min_l; [|lia].
  destruct (mul_pow2 b1 scale_to_zero 39 n (k + 112) ltac:(lia) ltac:(done) ltac:(rewrite E1; do 2 f_equal; lia) Hn ltac:(lia) eq_refl
    ltac:(lia) ltac:(lia)) as (b & Hb & E2 & ->).
  assert (value 24 b = 4 * value 24 a) as E4.
  { rewrite E2 Ev. replace (k + 112 + 39 - 149) with (k + 2) by lia. rewrite Z.pow_add_r; lia. }
  assert (b < F32_INF) as Hlt2.
  { apply Z.lt_nge. rewrite -(value_le_iff 24); [|lia|done|lia]. change (value 24 F32_INF) with (2 ^ 277). lia. }
  exists b. split; [lia|]. split; [done|]. lia.
Qed.

Lemma scaled_large a : 0x47800000 <= a <= F32_INF -> f32_mul (f32_mul a scale_to_inf) scale_to_zero = F32_INF.
Proof using Type.
  intros Ha. assert (f32_mul a scale_to_inf = F32_INF) as ->; [|by apply mul_inf].
  destruct (Z.eq_dec a F32_INF) as [->|Hne]; [by apply mul_inf|].
  destruct (value_form 24 ltac:(lia) a ltac:(lia)) as (k & n & _ & Hk & Hn & _ & Ev & _).
  pose proof (proj2 (value_le_iff 24 ltac:(lia) 0x47800000 a ltac:(lia) ltac:(lia)) ltac:(lia)) as Hle.
  change (value 24 0x47800000) with (2 ^ 165) in Hle.
  destruct (mul_pow2 a scale_to_inf 261 n k ltac:(lia) ltac:(done) Ev Hn Hk eq_refl ltac:(lia) ltac:(lia)) as (b1 & Hb1 & E1 & ->).
  apply Z.min_r. apply (value_le_iff 24); [lia|done|done|]. change (value 24 F32_INF) with (2 ^ 277). rewrite E1.
  replace (k + 261 - 149) with (k + 112) by lia. rewrite Z.pow_add_r; [|lia..]. rewrite Z.mul_assoc -Ev. lia.
Qed.

(** The magic number: a power of two 13 places above the scaled number. *)
Lemma magic_eq f :
  in_range 32 f ->
  let E := Z.max (mag32 f / 2 ^ 23) 113 in
  (let bias := Z.land (u32 (f + f)) 0xFF000000 in
   u32 (Z.shiftr (if bias <? 0x71000000 then 0x71000000 else bias) 1 + 0x07800000)) = (E + 15) * 2 ^ 23.
Proof using Type.
  intros Hf. pose proof (mag_range f) as Hm. rewrite twice_mag; [|done]. change 0xFF000000 with (Z.shiftl (2 ^ 8 - 1) 24).
  rewrite land_field; [|done..]. set (e := mag32 f / 2 ^ 23). cbv zeta.
  assert (2 * mag32 f / 2 ^ 24 mod 2 ^ 8 = e /\ 0 <= e <= 255) as [-> He] by (subst e; dlia).
  assert ((if e * 2 ^ 24 <? 0x71000000 then 0x71000000 else e * 2 ^ 24) = Z.max e 113 * 2 ^ 24) as ->
    by (destruct (Z.ltb_spec (e * 2 ^ 24) 0x71000000); lia).
  rewrite Z.shiftr_div_pow2; [|done]. unfold wrap. dlia.
Qed.

(** Adding the magic number rounds at the last place of the half. *)
Lemma magic_rounds a b :
  0 <= a < 0x47800000 -> 0 <= b < F32_INF -> value 24 b = 4 * value 24 a ->
  let E := Z.max (a / 2 ^ 23) 113 in
  let q := rne (value 24 a) (2 ^ (E + 12)) in
  0 <= q <= 2 ^ 11 /\ f32_add ((E + 15) * 2 ^ 23) b = (E + 15) * 2 ^ 23 + q.
Proof using Type.
  intros Ha Hb Eb E q. assert (0 <= a < F32_INF) as Hf by (unfold F32_INF; lia).
  destruct (exponent_value a Hf) as (_ & Hv & _). assert (113 <= E <= 142) as HE by (subst E; dlia).
  set (v := value 24 a) in *. set (X := 2 ^ (E + 12)) in *. assert (0 < X) as HX by (apply pow2_pos; lia).
  assert (v <= 2 ^ 11 * X) as Hvx.
  { assert (2 ^ (Z.max (a / 2 ^ 23) 1 + 23) <= 2 ^ 11 * X); [|lia]. subst X. rewrite -Z.pow_add_r; [|lia..]. apply Z.pow_le_mono_r; lia. }
  assert (0 <= q <= 2 ^ 11) as Hq by (apply rne_bounds; lia). split; [done|].
  assert (value 24 ((E + 15) * 2 ^ 23) = 2 ^ 25 * X) as Em.
  { unfold value. change (24 - 1) with 23. rewrite Z.div_mul; [|done]. rewrite Z.mod_mul; [|done].
    destruct (Z.eqb_spec (E + 15) 0); [lia|]. subst X. rewrite Z.add_0_r -!Z.pow_add_r; [|lia..]. f_equal. lia. }
  rewrite add_pos; [|unfold F32_INF; lia|done|lia]. rewrite Em Eb. unfold round32.
  assert (Z.log2 (2 ^ 25 * X + 4 * v) = E + 37) as Hlog.
  { apply Z.log2_unique; [lia|]. subst X. rewrite -Z.pow_add_r; [|lia..]. replace (25 + (E + 12)) with (E + 37) by lia.
    rewrite Z.pow_succ_r; [|lia]. replace (E + 37) with (E + 12 + 25) by lia. rewrite Z.pow_add_r; lia. }
  assert (round_to 24 (-149) (2 ^ 25 * X + 4 * v) (-149) = (E + 15) * 2 ^ 23 + q) as ->; [|unfold F32_INF; lia].
  unfold round_to. destruct (Z.eqb_spec (2 ^ 25 * X + 4 * v) 0); [lia|]. rewrite Hlog. cbv zeta.
  replace (Z.max (E + 37 + -149 - (24 - 1)) (-149)) with (E - 135) by lia.
  destruct (Z.leb_spec (E - 135) (-149)); [lia|]. replace (E - 135 - -149) with (E + 12 + 2) by lia.
  rewrite (Z.pow_add_r 2 (E + 12) 2); [|lia..]. fold X.
  replace (2 ^ 25 * X + 4 * v) with ((2 ^ 23 * X + v) * 2 ^ 2) by lia.
  rewrite rne_scale; [|done|done]. rewrite rne_shift; [|done|done]. fold q. lia.
Qed.

(** The fields of the sum are the half. *)
Lemma half_fields E q :
  113 <= E <= 142 -> 0 <= q <= 2 ^ 11 ->
  let bits := (E + 15) * 2 ^ 23 + q in
  u32 (Z.land (Z.shiftr bits 13) 0x00007C00 + Z.land bits 0x00000FFF) = (E - 113) * 2 ^ 10 + q.
Proof using Type.
  intros HE Hq bits. change 0x7C00 with (Z.shiftl (2 ^ 5 - 1) 10). rewrite land_field; [|done..].
  change 0xFFF with (2 ^ 12 - 1). rewrite land_mask_mod; [|done]. rewrite Z.shiftr_div_pow2; [|done]. unfold wrap. subst bits. dlia.
Qed.

(** The reference at the same place. *)
Lemma round_half a :
  0 <= a < F32_INF ->
  let E := Z.max (a / 2 ^ 23) 113 in
  round_to 11 (-24) (value 24 a) (-149) = (E - 113) * 2 ^ 10 + rne (value 24 a) (2 ^ (E + 12)).
Proof using Type.
  intros Ha E. destruct (exponent_value a Ha) as (He & Hv & Hlow). set (e := a / 2 ^ 23) in *. set (v := value 24 a) in *.
  destruct (Z.eq_dec v 0) as [->|Hv0].
  { destruct (Z.le_gt_cases 1 e) as [H1|H1]; [pose proof (pow2_pos (e + 22)); lia|]. replace E with 113 by lia. done. }
  unfold round_to. destruct (Z.eqb_spec v 0); [lia|]. cbv zeta.
  assert (Z.max (Z.log2 v + -149 - (11 - 1)) (-24) = E - 137) as ->.
  { destruct (Z.le_gt_cases 1 e) as [H1|H1].
    - assert (Z.log2 v = e + 22) as ->; [|lia]. apply Z.log2_unique; [lia|]. replace (Z.succ (e + 22)) with (Z.max e 1 + 23) by lia. lia.
    - assert (Z.log2 v < 24); [|lia]. apply Z.log2_lt_pow2; [lia|]. replace (Z.max e 1 + 23) with 24 in Hv by lia. lia. }
  destruct (Z.leb_spec (E - 137) (-149)); [lia|]. replace (E - 137 - -149) with (E + 12) by lia. lia.
Qed.

(** The conversion is the correctly rounded one. *)
Lemma to_half_eq f : in_range 32 f -> ane_compute_f32_to_f16 f = to_half f.
Proof using Type.
  intros Hf. pose proof (mag_range f) as Hm. unfold ane_compute_f32_to_f16. cbv zeta.
  pose proof (magic_eq f Hf) as Hmag. cbv zeta in Hmag. rewrite Hmag. clear Hmag.
  rewrite twice_mag; [|done]. rewrite sign_bit; [|done]. change (fabsf f) with (mag32 f). unfold to_half.
  assert (forall x, 0 <= x < 2 ^ 15 ->
    u16 (Z.lor (Z.shiftr (if neg32 f then 2 ^ 31 else 0) 16) x) = (if neg32 f then 0x8000 else 0) + x) as Hsign.
  { intros x Hx. destruct (neg32 f).
    - change (Z.shiftr (2 ^ 31) 16) with (Z.shiftl 1 15). rewrite Z.lor_comm lor_shiftl_add; [|done|done]. rewrite wrap_small; lia.
    - rewrite Z.shiftr_0_l Z.lor_0_l. rewrite wrap_small; lia. }
  set (a := mag32 f) in *. unfold is_nan32. fold a. rewrite Z.gtb_ltb.
  replace (0xFF000000 <? 2 * a) with (F32_INF <? a) by (unfold F32_INF; lia).
  destruct (Z.ltb_spec F32_INF a) as [Hn|Hn]; [by apply Hsign|].
  destruct (Z.lt_ge_cases a 0x47800000) as [Hs|Hl].
  - destruct (scaled_small a ltac:(lia)) as (b & Hb & Evb & ->).
    destruct (magic_rounds a b ltac:(lia) Hb Evb) as [Hq ->].
    assert (a < F32_INF) as Hfin by (unfold F32_INF; lia). destruct (Z.eqb_spec a F32_INF); [lia|].
    rewrite round_half; [|lia]. set (E := Z.max (a / 2 ^ 23) 113) in *. assert (113 <= E <= 142) as HE by (subst E; dlia).
    rewrite half_fields; [|done|done]. rewrite Hsign; [|lia]. unfold F16_INF. lia.
  - rewrite scaled_large; [|lia]. set (E := Z.max (a / 2 ^ 23) 113). assert (143 <= E <= 255) as HE by (subst E; unfold F32_INF in *; dlia).
    rewrite add_inf.
    + change (u32 (Z.land (Z.shiftr F32_INF 13) 0x7C00 + Z.land F32_INF 0xFFF)) with F16_INF. rewrite Hsign; [|done].
      destruct (Z.eqb_spec a F32_INF) as [|Hne]; [done|]. f_equal. symmetry. apply Z.min_r.
      rewrite round_half; [|lia]. fold E. destruct (exponent_value a ltac:(lia)) as (_ & _ & Hlow).
      assert (E = a / 2 ^ 23) as EE by (subst E; unfold F32_INF in *; dlia). rewrite -EE in Hlow.
      assert (2 ^ 10 <= rne (value 24 a) (2 ^ (E + 12))) as Hr.
      { pose proof (pow2_pos (E + 12) ltac:(lia)) as HX. destruct (exponent_value a ltac:(lia)) as (_ & Hv & _). rewrite -EE in Hv.
        apply (rne_bounds _ _ (2 ^ 10) (2 ^ 11)); [done|]. rewrite -!Z.pow_add_r; [|lia..].
        replace (10 + (E + 12)) with (E + 22) by lia. replace (11 + (E + 12)) with (Z.max E 1 + 23) by lia. split; [apply Hlow; lia|lia]. }
      unfold F16_INF. lia.
    + unfold is_nan32, mag32, F32_INF, F32_SIGN. apply Z.ltb_ge. dlia.
    + unfold mag32, F32_INF, F32_SIGN. intros. dlia.
Qed.

Lemma to_half_split f :
  in_range 32 f -> in_range 16 (to_half f) /\ neg16 (to_half f) = neg32 f /\
  mag16 (to_half f) = if is_nan32 f then 0x7e00 else if mag32 f =? F32_INF then F16_INF
                      else Z.min (round_to 11 (-24) (value 24 (mag32 f)) (-149)) F16_INF.
Proof using Type.
  intros Hf. unfold to_half. set (x := if is_nan32 f then _ else _).
  assert (0 <= x < 2 ^ 15) as Hx.
  { subst x. destruct (is_nan32 f); [lia|]. destruct (_ =? _); [done|].
    destruct (round_nearest 11 ltac:(lia) (-24) (value 24 (mag32 f)) (-149) 0) as (H0 & _); [|lia|lia|].
    - apply value_nonneg; [lia|]. apply mag_range.
    - unfold F16_INF. lia. }
  unfold in_range, neg16, mag16. destruct (neg32 f); (split; [lia|]; split; [|dlia]); [apply Z.leb_le|apply Z.leb_gt]; lia.
Qed.

(** ** To single precision *)

Definition is_nan16 (h : Z) : bool := F16_INF <? mag16 h.

Lemma mag16_range h : 0 <= mag16 h < 2 ^ 15.
Proof using Type. apply Z.mod_pos_bound. lia. Qed.

(** Below the cutoff: the magic number, less one half. *)
Lemma denormal_exact m : 0 <= m < 2 ^ 10 ->
  exists b, 0 <= b < F32_INF /\ value 24 b = m * 2 ^ 125 /\ f32_sub (Z.lor m 0x3f000000) magic_bias = b.
Proof using Type.
  intros Hm. change 0x3f000000 with (Z.shiftl 126 23). rewrite lor_shiftl_add; [|done|lia].
  set (x := m + 126 * 2 ^ 23). assert (0 <= x < F32_INF) as Hx by (subst x; unfold F32_INF; lia).
  assert (value 24 x = (2 ^ 23 + m) * 2 ^ 125) as Ex.
  { unfold value. change (24 - 1) with 23. assert (x / 2 ^ 23 = 126 /\ x mod 2 ^ 23 = m) as [-> ->] by (subst x; dlia). done. }
  destruct (finite_mag x Hx) as (E1 & E2 & E3 & E4).
  destruct (round_representable 24 ltac:(lia) (-149) m 125 (-149) ltac:(lia) ltac:(lia) ltac:(lia)) as (b & Hb & Er & Ev).
  change (2 ^ (-149 + 125 - -149)) with (2 ^ 125) in Ev.
  assert (b < F32_INF) as Hlt.
  { apply Z.lt_nge. rewrite -(value_le_iff 24); [|lia|done|lia]. change (value 24 F32_INF) with (2 ^ 277). lia. }
  exists b. split; [lia|]. split; [done|]. unfold f32_sub, f32_add, signed. rewrite E3 E4 E2 E1 Ex.
  change (f32_neg magic_bias) with 0xbf000000. change (is_nan32 0xbf000000) with false.
  change (mag32 0xbf000000 =? F32_INF) with false. change (neg32 0xbf000000) with true.
  change (value 24 (mag32 0xbf000000)) with (2 ^ 23 * 2 ^ 125). cbn [orb andb]. cbv zeta.
  replace ((2 ^ 23 + m) * 2 ^ 125 + - (2 ^ 23 * 2 ^ 125)) with (m * 2 ^ 125) by lia.
  destruct (Z.eqb_spec (m * 2 ^ 125) 0) as [E0|E0].
  - unfold with_sign. assert (m = 0) as -> by lia. rewrite Z.mul_0_l round_to_0 in Er. lia.
  - destruct (Z.ltb_spec (m * 2 ^ 125) 0); [lia|]. rewrite Z.abs_eq; [|lia]. unfold round32, with_sign. rewrite Er. lia.
Qed.

(** From the cutoff on: the exponent moved by 224, and back by 112. *)
Lemma normal_exact m : 2 ^ 10 <= m < F16_INF ->
  exists b, 0 <= b < F32_INF /\ value 24 b = value 11 m * 2 ^ 125 /\ f32_mul (m * 2 ^ 13 + 0x70000000) exp_scale = b.
Proof using Type.
  intros Hm. unfold F16_INF in Hm. set (x := m * 2 ^ 13 + 0x70000000). set (e := m / 2 ^ 10). set (t := m mod 2 ^ 10).
  assert (1 <= e <= 30 /\ 0 <= t < 2 ^ 10) as [He Ht] by (subst e t; dlia).
  assert (value 11 m = (2 ^ 10 + t) * 2 ^ (e - 1)) as E11.
  { unfold value. change (11 - 1) with 10. fold e t. by destruct (Z.eqb_spec e 0); [lia|]. }
  assert (value 24 x = (2 ^ 10 + t) * 2 ^ (e + 236)) as E24.
  { unfold value. change (24 - 1) with 23. assert (x / 2 ^ 23 = e + 224 /\ x mod 2 ^ 23 = t * 2 ^ 13) as [-> ->] by (subst x e t; dlia).
    destruct (Z.eqb_spec (e + 224) 0); [lia|]. replace (e + 236) with (13 + (e + 224 - 1)) by lia.
    rewrite (Z.pow_add_r 2 13); [|lia..]. rewrite Z.mul_assoc. f_equal. lia. }
  destruct (mul_pow2 x exp_scale 37 (2 ^ 10 + t) (e + 236)) as (b & Hb & Ev & Er);
    [subst x; unfold F32_INF; lia|done|done|lia|lia|done|lia|lia|].
  assert (value 24 b = value 11 m * 2 ^ 125) as Evb.
  { rewrite Ev E11 -Z.mul_assoc -Z.pow_add_r; [|lia..]. do 2 f_equal. lia. }
  assert (value 11 m < 2 ^ 41) as Hlt11.
  { pose proof (value_lt 11 ltac:(lia) m 0x8000 ltac:(lia)) as Hl. change (value 11 0x8000) with (2 ^ 41) in Hl. done. }
  assert (b < F32_INF) as Hlt.
  { apply Z.lt_nge. rewrite -(value_le_iff 24); [|lia|done|lia]. change (value 24 F32_INF) with (2 ^ 277). lia. }
  exists b. split; [lia|]. split; [done|]. rewrite Er. lia.
Qed.

(** The words of the conversion. *)
Lemma widened h : in_range 16 h ->
  Z.land (u32 (Z.shiftl h 16)) 0x80000000 = (if neg16 h then 2 ^ 31 else 0) /\
  u32 (u32 (Z.shiftl h 16) + u32 (Z.shiftl h 16)) = mag16 h * 2 ^ 17.
Proof using Type.
  intros Hh. unfold in_range in Hh. rewrite Z.shiftl_mul_pow2; [|done].
  assert (u32 (h * 2 ^ 16) = h * 2 ^ 16) as -> by (apply wrap_small; lia). split.
  - rewrite sign_bit; [|unfold in_range; lia]. unfold neg16, neg32, F32_SIGN.
    destruct (Z.leb_spec 0x8000 h), (Z.leb_spec 0x80000000 (h * 2 ^ 16)); (done || lia).
  - unfold mag16, wrap. dlia.
Qed.

Lemma lor_sign (b : bool) r :
  in_range 32 r -> let x := Z.lor (if b then 2 ^ 31 else 0) r in
  in_range 32 x /\ mag32 x = mag32 r /\ (r < 2 ^ 31 -> neg32 x = b).
Proof using Type.
  intros Hr. unfold in_range in *. destruct b; cbv zeta.
  - assert (Z.lor (2 ^ 31) r = mag32 r + 1 * 2 ^ 31) as ->.
    { pose proof (mag_range r). rewrite -lor_shiftl_add; [|done|done]. change (2 ^ 31) with (Z.shiftl 1 31).
      destruct (Z.lt_ge_cases r (2 ^ 31)) as [Hlt|Hge].
      - rewrite Z.lor_comm. f_equal. symmetry. apply Z.mod_small. unfold F32_SIGN. lia.
      - assert (r = Z.lor (mag32 r) (Z.shiftl 1 31)) as Er by (rewrite lor_shiftl_add //; unfold mag32, F32_SIGN; dlia).
        transitivity (Z.lor (Z.shiftl 1 31) (Z.lor (mag32 r) (Z.shiftl 1 31))); [by rewrite -Er|].
        by rewrite (Z.lor_comm (mag32 r)) Z.lor_assoc Z.lor_diag. }
    pose proof (mag_range r). unfold mag32, neg32, F32_SIGN in *. split; [lia|]. split; [dlia|]. intros _. apply Z.leb_le. lia.
  - rewrite Z.lor_0_l. split; [done|]. split; [done|]. intros Hlt. apply Z.leb_gt. unfold F32_SIGN. lia.
Qed.

(** A half is converted to the same number. *)
Lemma widen_spec h :
  in_range 16 h -> let r := ane_compute_f16_to_f32 h in
  in_range 32 r /\ is_nan32 r = is_nan16 h /\
  (is_nan16 h = false -> neg32 r = neg16 h /\ (mag16 h = F16_INF <-> mag32 r = F32_INF) /\
     (mag16 h < F16_INF -> value 24 (mag32 r) = value 11 (mag16 h) * 2 ^ 125)).
Proof using Type.
  intros Hh r. destruct (widened h Hh) as [Es Et]. pose proof (mag16_range h) as Hm. subst r.
  unfold ane_compute_f16_to_f32. cbv zeta. rewrite Es Et. change (u32 (Z.shiftl 1 27)) with (2 ^ 27).
  change (u32 (Z.shiftl 0xE0 23)) with 0x70000000. change (u32 (Z.shiftl 126 23)) with 0x3f000000. set (m := mag16 h) in *.
  rewrite !Z.shiftr_div_pow2; [|done..]. replace (m * 2 ^ 17 / 2 ^ 17) with m by dlia.
  replace (u32 (m * 2 ^ 17 / 2 ^ 4 + 0x70000000)) with (m * 2 ^ 13 + 0x70000000) by (unfold wrap; dlia).
  assert (forall b, 0 <= b < F32_INF -> value 24 b = value 11 m * 2 ^ 125 -> m < F16_INF ->
    let r := Z.lor (if neg16 h then 2 ^ 31 else 0) b in
    in_range 32 r /\ is_nan32 r = is_nan16 h /\
    (is_nan16 h = false -> neg32 r = neg16 h /\ (m = F16_INF <-> mag32 r = F32_INF) /\
       (m < F16_INF -> value 24 (mag32 r) = value 11 m * 2 ^ 125))) as Hfin.
  { intros b Hb Ev Hlt r. destruct (lor_sign (neg16 h) b) as (H1 & H2 & H3); [unfold in_range, F32_INF in *; lia|].
    fold r in H1, H2, H3. destruct (finite_mag b Hb) as (E1 & _). rewrite E1 in H2. split; [done|].
    assert (is_nan16 h = false) as -> by (apply Z.ltb_ge; fold m; lia).
    split; [unfold is_nan32; rewrite H2; apply Z.ltb_ge; lia|]. intros _. rewrite H2.
    split; [apply H3; unfold F32_INF in *; lia|]. split; [lia|done]. }
  destruct (Z.ltb_spec (m * 2 ^ 17) (2 ^ 27)) as [Hlt|Hge].
  { destruct (denormal_exact m ltac:(lia)) as (b & Hb & Ev & ->). apply Hfin; [done| |unfold F16_INF; lia].
    rewrite Ev. f_equal. unfold value. change (11 - 1) with 10. rewrite Z.div_small; [|lia]. cbn [Z.eqb]. symmetry. apply Z.mod_small. lia. }
  destruct (Z.lt_trichotomy m F16_INF) as [Hc|[Hc|Hc]].
  - destruct (normal_exact m ltac:(lia)) as (b & Hb & Ev & ->). by apply Hfin.
  - rewrite Hc. change (F16_INF * 2 ^ 13 + 0x70000000) with F32_INF. rewrite mul_inf; [|done].
    destruct (lor_sign (neg16 h) F32_INF) as (H1 & H2 & H3); [done|]. split; [done|].
    assert (is_nan16 h = false) as -> by (apply Z.ltb_ge; fold m; lia). unfold is_nan32. rewrite H2. split; [done|]. intros _.
    split; [by apply H3|]. split; [done|lia].
  - set (x := m * 2 ^ 13 + 0x70000000). assert (F32_INF < x < 2 ^ 31) as Hx by (subst x; unfold F16_INF, F32_INF in *; lia).
    destruct (small_mag x) as [Ex _]; [unfold F32_SIGN, F32_INF in *; lia|].
    assert (is_nan32 x = true) as Hn by (unfold is_nan32; rewrite Ex; apply Z.ltb_lt; lia).
    unfold f32_mul. rewrite Hn. cbn [orb]. destruct (nan_result_nan x exp_scale) as [N1 N2].
    destruct (lor_sign (neg16 h) _ N1) as (H1 & H2 & _). split; [done|].
    assert (is_nan16 h = true) as -> by (apply Z.ltb_lt; fold m; lia). split; [|done]. unfold is_nan32 in *. by rewrite H2.
Qed.
End ops.

(** ** The theorems *)

Section theorems.
Context `{NanResult}.

(** C28. The conversion to half precision is correctly rounded: the sign is
    kept, a NaN becomes the quiet NaN, a number whose magnitude is below 65520
    becomes a half nearest to it among all halves, the even one of two
    nearest, and from 65520 on it becomes infinite. *)
Theorem f32_to_f16_rounds f :
  in_range 32 f ->
  let r := ane_compute_f32_to_f16 f in
  let v := value 24 (mag32 f) in
  in_range 16 r /\ neg16 r = neg32 f /\
  (is_nan32 f = true -> mag16 r = 0x7e00) /\
  (is_nan32 f = false -> v < 65520 * 2 ^ 149 -> mag16 r < F16_INF /\ forall h, 0 <= h ->
     Z.abs (value 11 (mag16 r) * 2 ^ 125 - v) <= Z.abs (value 11 h * 2 ^ 125 - v) /\
     (Z.abs (value 11 (mag16 r) * 2 ^ 125 - v) = Z.abs (value 11 h * 2 ^ 125 - v) -> h = mag16 r \/ Z.even (mag16 r) = true)) /\
  (is_nan32 f = false -> 65520 * 2 ^ 149 <= v -> mag16 r = F16_INF).
Proof.
  intros Hf r v. subst r. rewrite to_half_eq; [|done]. destruct (to_half_split f Hf) as (H1 & H2 & H3). fold v in H3.
  split; [done|]. split; [done|]. rewrite H3. split; [by intros ->|].
  pose proof (mag_range f) as Hm. assert (0 <= v) as Hv by (apply value_nonneg; lia).
  assert (is_nan32 f = false -> (mag32 f =? F32_INF) = true -> v = 2 ^ 277) as Hinf by (intros _ E%Z.eqb_eq; subst v; by rewrite E).
  set (b := round_to 11 (-24) v (-149)).
  assert (forall h, 0 <= h -> 0 <= b /\ Z.abs (value 11 b * 2 ^ 125 - v) <= Z.abs (value 11 h * 2 ^ 125 - v) /\
    (Z.abs (value 11 b * 2 ^ 125 - v) = Z.abs (value 11 h * 2 ^ 125 - v) -> h = b \/ Z.even b = true)) as Hnear
    by (intros h Hh; apply (round_nearest 11 ltac:(lia) (-24) v (-149) h); lia).
  destruct (Hnear F16_INF ltac:(done)) as (Hb & Hi & Hie). destruct (Hnear 0x7bff ltac:(done)) as (_ & Ht & _).
  change (value 11 F16_INF) with (65536 * 2 ^ 24) in *. change (value 11 0x7bff) with (65504 * 2 ^ 24) in *.
  split; intros Hn; rewrite Hn; specialize (Hinf Hn); intros Hlim; destruct (mag32 f =? F32_INF); try (specialize (Hinf eq_refl); lia).
  - assert (b < F16_INF) as Hlt.
    { apply Z.lt_nge. intros Hge. pose proof (proj2 (value_le_iff 11 ltac:(lia) F16_INF b ltac:(done) Hb) Hge) as Hvb.
      change (value 11 F16_INF) with (65536 * 2 ^ 24) in Hvb. lia. }
    fold b. rewrite Z.min_l; [|lia]. split; [done|]. intros h Hh. apply (Hnear h Hh).
  - fold b. apply Z.min_r. apply Z.nlt_ge. intros Hlt.
    pose proof (proj2 (value_le_iff 11 ltac:(lia) b 0x7bff Hb ltac:(done)) ltac:(unfold F16_INF in *; lia)) as Hvb.
    change (value 11 0x7bff) with (65504 * 2 ^ 24) in Hvb.
    assert (value 11 b = 65504 * 2 ^ 24) as Evb by lia. assert (b = 0x7bff) as Eb by (apply (value_inj 11); [lia|done|done|done]).
    destruct Hie as [He|He]; [lia|unfold F16_INF in *; lia|by rewrite Eb in He].
Qed.

Lemma half_sum h : in_range 16 h -> h = (if neg16 h then 0x8000 else 0) + mag16 h.
Proof. intros Hh. unfold in_range, neg16, mag16 in *. destruct (Z.leb_spec 0x8000 h); dlia. Qed.

Lemma widen_narrow h : in_range 16 h -> is_nan16 h = false -> ane_compute_f32_to_f16 (ane_compute_f16_to_f32 h) = h.
Proof.
  intros Hh Hn. destruct (widen_spec h Hh) as (H1 & H2 & H3). destruct (H3 Hn) as (Hs & Hi & Hv). rewrite Hn in H2.
  rewrite to_half_eq; [|done]. unfold to_half. rewrite H2 Hs.
  transitivity ((if neg16 h then 0x8000 else 0) + mag16 h); [|symmetry; by apply half_sum]. f_equal.
  apply Z.ltb_ge in Hn. destruct (Z.eqb_spec (mag32 (ane_compute_f16_to_f32 h)) F32_INF) as [E|E]; [symmetry; by apply Hi|].
  assert (mag16 h <> F16_INF) as Hne by (intros E'; by apply E, Hi). rewrite Hv; [|lia].
  rewrite round_to_scale; [|apply value_nonneg; [lia|apply mag16_range]|done]. change (-149 + 125) with (-24).
  rewrite round_exact; [|lia|apply mag16_range]. lia.
Qed.

Lemma row_from_eq conv x k i y :
  (i + k <= length x)%nat -> (i + k <= length y)%nat ->
  row_from conv x k i y = Ret (take i y ++ map conv (take k (drop i x)) ++ drop (i + k) y).
Proof.
  revert i y. induction k as [|k IH]; intros i y Hx Hy; cbn [row_from].
  { rewrite take_0 Nat.add_0_r. cbn [map app]. by rewrite take_drop. }
  destruct (lookup_lt_is_Some_2 x i ltac:(lia)) as [v Hv]. destruct (lookup_lt_is_Some_2 y i ltac:(lia)) as [w Hw].
  rewrite Hv Hw IH; [|lia|rewrite length_insert; lia]. rewrite (drop_S x v i Hv). cbn [take map].
  rewrite (take_S_r _ i (conv v)); [|apply list_lookup_insert_eq; lia]. rewrite take_insert_ge; [|lia].
  rewrite drop_insert_lt; [|lia]. rewrite -app_assoc. by replace (i + S k)%nat with (S i + k)%nat by lia.
Qed.

(** C29. The loops stay inside rows that are long enough, the conversion to
    single precision keeps every number, its sign and its kind, and converting
    a row of halves without NaNs there and back gives the same row, behind
    which nothing is written. *)
Theorem f16_rows_exact x y z n :
  Forall (fun h => in_range 16 h /\ is_nan16 h = false) x -> 0 <= n <= zlen x -> n <= zlen y -> n <= zlen z ->
  exists y', ane_f16_to_f32_row x y n = Ret y' /\ zlen y' = zlen y /\ drop (Z.to_nat n) y' = drop (Z.to_nat n) y /\
    (forall i h, x !! i = Some h -> Z.of_nat i < n -> exists f, y' !! i = Some f /\ in_range 32 f /\ neg32 f = neg16 h /\
       is_nan32 f = false /\ (mag16 h = F16_INF <-> mag32 f = F32_INF) /\
       (mag16 h < F16_INF -> value 24 (mag32 f) = value 11 (mag16 h) * 2 ^ 125)) /\
    ane_f32_to_f16_row y' z n = Ret (take (Z.to_nat n) x ++ drop (Z.to_nat n) z).
Proof.
  intros Hx Hnx Hny Hnz. unfold zlen in *. set (k := Z.to_nat n) in *.
  assert (k <= length x /\ k <= length y /\ k <= length z)%nat as (Kx & Ky & Kz) by (subst k; lia).
  unfold ane_f16_to_f32_row, ane_f32_to_f16_row. fold k. rewrite row_from_eq; [|done|done]. cbn [take app drop Nat.add].
  set (m := map ane_compute_f16_to_f32 (take k x)).
  assert (length m = k) as Hm by (unfold m; rewrite length_map length_take; lia).
  exists (m ++ drop k y). split; [done|]. split; [rewrite length_app length_drop Hm; lia|].
  split; [rewrite drop_app_length'; [done|lia]|]. split.
  - intros i h Hi Hin. rewrite Forall_forall in Hx. destruct (Hx h (list_elem_of_lookup_2 _ _ _ Hi)) as [Hr Hnan].
    destruct (widen_spec h Hr) as (H1 & H2 & H3). destruct (H3 Hnan) as (Hs & Hinf & Hv). exists (ane_compute_f16_to_f32 h).
    split; [|rewrite H2 Hnan; by split_and!]. rewrite lookup_app_l; [|lia]. unfold m.
    rewrite list_lookup_fmap lookup_take_lt; [|lia]. by rewrite Hi.
  - rewrite row_from_eq; [|rewrite length_app length_drop Hm; lia|lia]. cbn [take app drop Nat.add].
    rewrite take_app_length'; [|lia]. assert (map ane_compute_f32_to_f16 m = take k x) as ->; [|done].
    unfold m. rewrite List.map_map. transitivity (map id (take k x)); [|apply List.map_id].
    apply List.map_ext_in. intros h Hh%list_elem_of_In. rewrite Forall_forall in Hx.
    destruct (Hx h) as [Hr Hnan]; [|by apply widen_narrow]. apply elem_of_take in Hh as (i & Hi & _). by eapply list_elem_of_lookup_2.
Qed.
End theorems.

(** ** Witnesses, with the default NaN *)

#[local] Instance default_nan : NanResult.
Proof. refine {| nan_result := fun _ _ => 0x7fc00000 |}. by intros _ _. Defined.

Lemma f32_to_f16_rounds_witness :
  ane_compute_f32_to_f16 0xc77fefff = 0xfbff /\
  Z.abs (value 11 0x7bff * 2 ^ 125 - value 24 0x477fefff) <= Z.abs (value 11 0x7bfe * 2 ^ 125 - value 24 0x477fefff).
Proof.
  destruct (f32_to_f16_rounds 0xc77fefff ltac:(unfold in_range; lia)) as (_ & _ & _ & Hn & _). split; [vm_compute; reflexivity|].
  destruct (Hn ltac:(vm_compute; reflexivity) ltac:(vm_compute; reflexivity)) as [_ Hh].
  destruct (Hh 0x7bfe ltac:(lia)) as [Hle _]. exact Hle.
Defined.

Lemma f16_rows_exact_witness :
  exists y', ane_f16_to_f32_row [0x3c00; 0x8001; 0xfc00] [0; 0; 0; 5] 2 = Ret y' /\
    ane_f32_to_f16_row y' [7; 7; 7] 2 = Ret [0x3c00; 0x8001; 7].
Proof.
  destruct (f16_rows_exact [0x3c00; 0x8001; 0xfc00] [0; 0; 0; 5] [7; 7; 7] 2) as (y' & H1 & _ & _ & _ & H2).
  - repeat constructor; vm_compute; (reflexivity || discriminate).
  - split; vm_compute; discriminate.
  - vm_compute. discriminate.
  - vm_compute. discriminate.
  - exists y'. split; [exact H1|exact H2].
Defined.
