(* ===== verification/Sha256.v ===== *)
(** * libane/ane_sha256.c: the program digest

    Both compression paths, the incremental interface and their relation to
    FIPS 180-4: any sequence of updates followed by [ane_sha256_final] gives
    the standard's digest of the concatenated data, whichever path runs. *)

From Stdlib Require Import ZifyNat.
From S2P Require Import Prelude.

(** [lia] with division on [nat] and [Z]. *)
Ltac ndlia := zify; Z.to_euclidean_division_equations; lia.

(** ** Words *)

Definition rotr (x n : Z) : Z := Z.lor (Z.shiftr x n) (u32 (Z.shiftl x (32 - n))).

(** [l[i]] of a fixed table or schedule. *)
Definition get (l : list Z) (i : nat) : Z := default 0 (l !! i).

(** The constant table, by the rows of the source. *)
Definition K : list Z :=
  concat [ [ 0x428a2f98; 0x71374491; 0xb5c0fbcf; 0xe9b5dba5; 0x3956c25b ];
           [ 0x59f111f1; 0x923f82a4; 0xab1c5ed5; 0xd807aa98; 0x12835b01 ];
           [ 0x243185be; 0x550c7dc3; 0x72be5d74; 0x80deb1fe; 0x9bdc06a7 ];
           [ 0xc19bf174; 0xe49b69c1; 0xefbe4786; 0x0fc19dc6; 0x240ca1cc ];
           [ 0x2de92c6f; 0x4a7484aa; 0x5cb0a9dc; 0x76f988da; 0x983e5152 ];
           [ 0xa831c66d; 0xb00327c8; 0xbf597fc7; 0xc6e00bf3; 0xd5a79147 ];
           [ 0x06ca6351; 0x14292967; 0x27b70a85; 0x2e1b2138; 0x4d2c6dfc ];
           [ 0x53380d13; 0x650a7354; 0x766a0abb; 0x81c2c92e; 0x92722c85 ];
           [ 0xa2bfe8a1; 0xa81a664b; 0xc24b8b70; 0xc76c51a3; 0xd192e819 ];
           [ 0xd6990624; 0xf40e3585; 0x106aa070; 0x19a4c116; 0x1e376c08 ];
           [ 0x2748774c; 0x34b0bcb5; 0x391c0cb3; 0x4ed8aa4a; 0x5b9cca4f ];
           [ 0x682e6ff3; 0x748f82ee; 0x78a5636f; 0x84c87814; 0x8cc70208 ];
           [ 0x90befffa; 0xa4506ceb; 0xbef9a3f7; 0xc67178f2 ] ].

(** [uint32_t st[8]], and the working variables [a..h]. *)
Record words8 := W8 { wa : Z; wb : Z; wc : Z; wd : Z; we : Z; wf : Z; wg : Z; wh : Z }.

(** ** [sha256_block_portable] *)

(** [w[i]], big endian from the block. *)
Definition load_word (p : bytes) (i : Z) : res Z :=
  b0 ← rd8 p (i * 4); b1 ← rd8 p (i * 4 + 1); b2 ← rd8 p (i * 4 + 2); b3 ← rd8 p (i * 4 + 3);
  Ret (Z.lor (Z.lor (Z.lor (Z.shiftl b0 24) (Z.shiftl b1 16)) (Z.shiftl b2 8)) b3).

Definition sched_s0 (x : Z) : Z := Z.lxor (Z.lxor (rotr x 7) (rotr x 18)) (Z.shiftr x 3).
Definition sched_s1 (x : Z) : Z := Z.lxor (Z.lxor (rotr x 17) (rotr x 19)) (Z.shiftr x 10).

(** One step of the schedule loop; [w] holds the words written so far. *)
Definition sched_step (w : list Z) (i : nat) : list Z :=
  w ++ [u32 (get w (i - 16) + sched_s0 (get w (i - 15)) + get w (i - 7) + sched_s1 (get w (i - 2)))].

Definition schedule (w16 : list Z) : list Z := fold_left sched_step (seq 16 48) w16.

(** One round, with [k = K[i]] and [w = w[i]]. *)
Definition round (s : words8) (k w : Z) : words8 :=
  let '(W8 a b c d e f g h) := s in
  let S1 := Z.lxor (Z.lxor (rotr e 6) (rotr e 11)) (rotr e 25) in
  let ch := Z.lxor (Z.land e f) (Z.land (u32 (Z.lnot e)) g) in
  let t1 := u32 (h + S1 + ch + k + w) in
  let S0 := Z.lxor (Z.lxor (rotr a 2) (rotr a 13)) (rotr a 22) in
  let maj := Z.lxor (Z.lxor (Z.land a b) (Z.land a c)) (Z.land b c) in
  let t2 := u32 (S0 + maj) in
  W8 (u32 (t1 + t2)) a b c (u32 (d + t1)) e f g.

Definition add8 (s t : words8) : words8 :=
  W8 (u32 (wa s + wa t)) (u32 (wb s + wb t)) (u32 (wc s + wc t)) (u32 (wd s + wd t))
     (u32 (we s + we t)) (u32 (wf s + wf t)) (u32 (wg s + wg t)) (u32 (wh s + wh t)).

Definition sha256_block_portable (st : words8) (p : bytes) : res words8 :=
  w16 ← foldM (fun w i => x ← load_word p i; Ret (w ++ [x])) [] (seqZ 0 16);
  let w := schedule w16 in
  let s := fold_left (fun s i => round s (get K i) (get w i)) (seq 0 64) st in
  Ret (add8 st s).

(** ** The ARMv8 instructions

    [uint32x4_t], lane 0 first. The four SHA-256 instructions are the
    processor's: the class states what the architecture manual specifies of
    them (pseudocode [SHA256hash], [SHAchoose], [SHAmajority]). *)

Record v4 := V4 { l0 : Z; l1 : Z; l2 : Z; l3 : Z }.

Definition vaddq_u32 (x y : v4) : v4 :=
  V4 (u32 (l0 x + l0 y)) (u32 (l1 x + l1 y)) (u32 (l2 x + l2 y)) (u32 (l3 x + l3 y)).

Definition SHAchoose (x y z : Z) : Z := Z.lxor (Z.land (Z.lxor y z) x) z.
Definition SHAmajority (x y z : Z) : Z := Z.lor (Z.land x y) (Z.land (Z.lor x y) z).
Definition SHAhashSIGMA0 (x : Z) : Z := Z.lxor (Z.lxor (rotr x 2) (rotr x 13)) (rotr x 22).
Definition SHAhashSIGMA1 (x : Z) : Z := Z.lxor (Z.lxor (rotr x 6) (rotr x 11)) (rotr x 25).

(** One iteration of [SHA256hash]: [X] and [Y] hold four words each, and the
    256-bit value [Y:X] is rotated left by one word at the end. *)
Definition SHA256hash_step (xy : v4 * v4) (w : Z) : v4 * v4 :=
  let '(V4 x0 x1 x2 x3, V4 y0 y1 y2 y3) := xy in
  let chs := SHAchoose y0 y1 y2 in
  let maj := SHAmajority x0 x1 x2 in
  let t := u32 (y3 + SHAhashSIGMA1 y0 + chs + w) in
  let x3' := u32 (t + x3) in
  let y3' := u32 (t + SHAhashSIGMA0 x0 + maj) in
  (V4 y3' x0 x1 x2, V4 x3' y0 y1 y2).

Definition SHA256hash (X Y W : v4) : v4 * v4 :=
  fold_left SHA256hash_step [l0 W; l1 W; l2 W; l3 W] (X, Y).

(** SHA256SU0 and SHA256SU1. *)
Definition arm_su0 (x y : v4) : v4 :=
  V4 (u32 (sched_s0 (l1 x) + l0 x)) (u32 (sched_s0 (l2 x) + l1 x))
     (u32 (sched_s0 (l3 x) + l2 x)) (u32 (sched_s0 (l0 y) + l3 x)).

Definition arm_su1 (x y z : v4) : v4 :=
  let r0 := u32 (sched_s1 (l2 z) + l0 x + l1 y) in
  let r1 := u32 (sched_s1 (l3 z) + l1 x + l2 y) in
  V4 r0 r1 (u32 (sched_s1 r0 + l2 x + l3 y)) (u32 (sched_s1 r1 + l3 x + l0 z)).

Class ArmSha2 := {
  vsha256hq_u32 : v4 -> v4 -> v4 -> v4;
  vsha256h2q_u32 : v4 -> v4 -> v4 -> v4;
  vsha256su0q_u32 : v4 -> v4 -> v4;
  vsha256su1q_u32 : v4 -> v4 -> v4 -> v4;
  arm_hq : forall abcd efgh wk, vsha256hq_u32 abcd efgh wk = (SHA256hash abcd efgh wk).1;
  arm_h2q : forall efgh abcd wk, vsha256h2q_u32 efgh abcd wk = (SHA256hash abcd efgh wk).2;
  arm_su0q : forall x y, vsha256su0q_u32 x y = arm_su0 x y;
  arm_su1q : forall x y z, vsha256su1q_u32 x y z = arm_su1 x y z;
}.

(** The pseudocode itself is an implementation (not declared as an instance:
    the theorems are about every processor that satisfies the class). *)
Definition arm_pseudocode : ArmSha2 := {|
  vsha256hq_u32 abcd efgh wk := (SHA256hash abcd efgh wk).1;
  vsha256h2q_u32 efgh abcd wk := (SHA256hash abcd efgh wk).2;
  vsha256su0q_u32 := arm_su0;
  vsha256su1q_u32 := arm_su1;
  arm_hq _ _ _ := eq_refl;
  arm_h2q _ _ _ := eq_refl;
  arm_su0q _ _ := eq_refl;
  arm_su1q _ _ _ := eq_refl;
|}.

(** ** [sha256_block_neon] *)

(** [vld1q_u32((const uint32_t * )(data + off))] on a little-endian machine. *)
Definition vld1q_u32 (data : bytes) (off : Z) : res v4 :=
  a ← le32 data off; b ← le32 data (off + 4); c ← le32 data (off + 8); d ← le32 data (off + 12);
  Ret (V4 a b c d).

(** One lane of [vrev32q_u8]: the four bytes reversed. *)
Definition rev32 (x : Z) : Z :=
  lor4 (Z.land (Z.shiftr x 24) 0xff) (Z.land (Z.shiftr x 16) 0xff)
       (Z.land (Z.shiftr x 8) 0xff) (Z.land x 0xff).

Definition vrev32q (x : v4) : v4 := V4 (rev32 (l0 x)) (rev32 (l1 x)) (rev32 (l2 x)) (rev32 (l3 x)).

(** [vld1q_u32(&K[i])]. *)
Definition vec (w : list Z) (i : nat) : v4 :=
  V4 (get w i) (get w (i + 1)) (get w (i + 2)) (get w (i + 3)).

Section neon.
Context `{ArmSha2}.

(** The six statements of each of the groups "Rounds 0-3" to "Rounds 44-47":
    returns the new [MSGx], [STATE0], [STATE1] and the other [TMP]. *)
Definition rounds_sched (Ma Mb Mc Md STATE0 STATE1 TMP : v4) (k : nat) : v4 * v4 * v4 * v4 :=
  let Ma := vsha256su0q_u32 Ma Mb in
  let TMP2 := STATE0 in
  let TMP' := vaddq_u32 Mb (vec K k) in
  let STATE0 := vsha256hq_u32 STATE0 STATE1 TMP in
  let STATE1 := vsha256h2q_u32 STATE1 TMP2 TMP in
  let Ma := vsha256su1q_u32 Ma Mc Md in
  (Ma, STATE0, STATE1, TMP').

(** The groups "Rounds 48-51" to "Rounds 56-59". *)
Definition rounds_plain (Mb STATE0 STATE1 TMP : v4) (k : nat) : v4 * v4 * v4 :=
  let TMP2 := STATE0 in
  let TMP' := vaddq_u32 Mb (vec K k) in
  let STATE0 := vsha256hq_u32 STATE0 STATE1 TMP in
  let STATE1 := vsha256h2q_u32 STATE1 TMP2 TMP in
  (STATE0, STATE1, TMP').

Definition sha256_block_neon (st : words8) (data : bytes) : res words8 :=
  let STATE0 := V4 (wa st) (wb st) (wc st) (wd st) in
  let STATE1 := V4 (we st) (wf st) (wg st) (wh st) in
  let ABEF_SAVE := STATE0 in
  let CDGH_SAVE := STATE1 in
  MSG0 ← vld1q_u32 data 0;
  MSG1 ← vld1q_u32 data 16;
  MSG2 ← vld1q_u32 data 32;
  MSG3 ← vld1q_u32 data 48;
  let MSG0 := vrev32q MSG0 in
  let MSG1 := vrev32q MSG1 in
  let MSG2 := vrev32q MSG2 in
  let MSG3 := vrev32q MSG3 in
  let TMP0 := vaddq_u32 MSG0 (vec K 0x00) in
  let '(MSG0, STATE0, STATE1, TMP1) := rounds_sched MSG0 MSG1 MSG2 MSG3 STATE0 STATE1 TMP0 0x04 in
  let '(MSG1, STATE0, STATE1, TMP0) := rounds_sched MSG1 MSG2 MSG3 MSG0 STATE0 STATE1 TMP1 0x08 in
  let '(MSG2, STATE0, STATE1, TMP1) := rounds_sched MSG2 MSG3 MSG0 MSG1 STATE0 STATE1 TMP0 0x0c in
  let '(MSG3, STATE0, STATE1, TMP0) := rounds_sched MSG3 MSG0 MSG1 MSG2 STATE0 STATE1 TMP1 0x10 in
  let '(MSG0, STATE0, STATE1, TMP1) := rounds_sched MSG0 MSG1 MSG2 MSG3 STATE0 STATE1 TMP0 0x14 in
  let '(MSG1, STATE0, STATE1, TMP0) := rounds_sched MSG1 MSG2 MSG3 MSG0 STATE0 STATE1 TMP1 0x18 in
  let '(MSG2, STATE0, STATE1, TMP1) := rounds_sched MSG2 MSG3 MSG0 MSG1 STATE0 STATE1 TMP0 0x1c in
  let '(MSG3, STATE0, STATE1, TMP0) := rounds_sched MSG3 MSG0 MSG1 MSG2 STATE0 STATE1 TMP1 0x20 in
  let '(MSG0, STATE0, STATE1, TMP1) := rounds_sched MSG0 MSG1 MSG2 MSG3 STATE0 STATE1 TMP0 0x24 in
  let '(MSG1, STATE0, STATE1, TMP0) := rounds_sched MSG1 MSG2 MSG3 MSG0 STATE0 STATE1 TMP1 0x28 in
  let '(MSG2, STATE0, STATE1, TMP1) := rounds_sched MSG2 MSG3 MSG0 MSG1 STATE0 STATE1 TMP0 0x2c in
  let '(MSG3, STATE0, STATE1, TMP0) := rounds_sched MSG3 MSG0 MSG1 MSG2 STATE0 STATE1 TMP1 0x30 in
  let '(STATE0, STATE1, TMP1) := rounds_plain MSG1 STATE0 STATE1 TMP0 0x34 in
  let '(STATE0, STATE1, TMP0) := rounds_plain MSG2 STATE0 STATE1 TMP1 0x38 in
  let '(STATE0, STATE1, TMP1) := rounds_plain MSG3 STATE0 STATE1 TMP0 0x3c in
  let TMP2 := STATE0 in
  let STATE0 := vsha256hq_u32 STATE0 STATE1 TMP1 in
  let STATE1 := vsha256h2q_u32 STATE1 TMP2 TMP1 in
  let STATE0 := vaddq_u32 STATE0 ABEF_SAVE in
  let STATE1 := vaddq_u32 STATE1 CDGH_SAVE in
  Ret (W8 (l0 STATE0) (l1 STATE0) (l2 STATE0) (l3 STATE0)
          (l0 STATE1) (l1 STATE1) (l2 STATE1) (l3 STATE1)).

End neon.

(** ** The incremental interface *)

Record ane_sha256_ctx := Ctx {
  st : words8;
  buf : bytes;
  buflen : Z;
  total : Z;
  neon : bool;
  portable_forced : bool;
}.

Definition sha256_iv : words8 :=
  W8 0x6a09e667 0xbb67ae85 0x3c6ef372 0xa54ff53a 0x510e527f 0x9b05688c 0x1f83d9ab 0x5be0cd19.

(** [hw] is [ane_sha256_hw_supported()], the auxiliary vector's answer;
    [buf0] the uninitialised buffer. *)
Definition ane_sha256_init (hw : bool) (buf0 : bytes) : ane_sha256_ctx :=
  Ctx sha256_iv buf0 0 0 hw false.

Definition ane_sha256_ctx_force_portable (c : ane_sha256_ctx) (force : bool) : ane_sha256_ctx :=
  Ctx (st c) (buf c) (buflen c) (total c) (neon c) force.

Section interface.
Context `{ArmSha2}.

(** The 64 bytes at [p + off]. *)
Definition sha256_block (c : ane_sha256_ctx) (p : bytes) (off : Z) : res ane_sha256_ctx :=
  let blk := slice p off 64 in
  if bool_decide (0 <= off /\ off + 64 <= zlen p) then
    s ← (if neon c && negb (portable_forced c) then sha256_block_neon (st c) blk
         else sha256_block_portable (st c) blk);
    Ret (Ctx s (buf c) (buflen c) (total c) (neon c) (portable_forced c))
  else Fault OutOfBounds.

Definition set_buf (c : ane_sha256_ctx) (b : bytes) (n : Z) : ane_sha256_ctx :=
  Ctx (st c) b n (total c) (neon c) (portable_forced c).

(** The [while (len >= 64)] loop. *)
Definition update_body (data : bytes) (s : ane_sha256_ctx * Z * Z)
    : res ((ane_sha256_ctx * Z * Z) + (ane_sha256_ctx * Z * Z)) :=
  let '(c, p, len) := s in
  if len >=? 64 then
    c ← sha256_block c data p;
    Ret (inl (c, p + 64, len - 64))
  else Ret (inr (c, p, len)).

(** After the leading partial block: whole blocks from [p], then the rest. *)
Definition update_blocks (c : ane_sha256_ctx) (data : bytes) (p len : Z) : res ane_sha256_ctx :=
  '(c, p, len) ← loop (S (Z.to_nat (len / 64))) (update_body data) (c, p, len);
  b ← memcpy (buf c) 0 data p len;
  Ret (set_buf c b (u32 len)).

Definition ane_sha256_update (c : ane_sha256_ctx) (data : bytes) (len : Z)
    : res ane_sha256_ctx :=
  let c := Ctx (st c) (buf c) (buflen c) (u64 (total c + len)) (neon c) (portable_forced c) in
  if negb (buflen c =? 0) then
    let take := u64 (64 - buflen c) in
    if take >? len then
      b ← memcpy (buf c) (buflen c) data 0 len;
      Ret (set_buf c b (u32 (buflen c + u32 len)))
    else
      b ← memcpy (buf c) (buflen c) data 0 take;
      let c := set_buf c b (buflen c) in
      c ← sha256_block c (buf c) 0;
      update_blocks (set_buf c (buf c) 0) data take (len - take)
  else update_blocks c data 0 len.

(** The big-endian bytes of one state word. *)
Definition be_word (x : Z) : bytes :=
  [u8 (Z.shiftr x 24); u8 (Z.shiftr x 16); u8 (Z.shiftr x 8); u8 x].

Definition digest_bytes (s : words8) : bytes :=
  be_word (wa s) ++ be_word (wb s) ++ be_word (wc s) ++ be_word (wd s) ++
  be_word (we s) ++ be_word (wf s) ++ be_word (wg s) ++ be_word (wh s).

(** Returns the context it leaves and [out]. *)
Definition ane_sha256_final (c : ane_sha256_ctx) : res (ane_sha256_ctx * bytes) :=
  let tail := replicate 64 0 in
  let bits := u64 (Z.shiftl (total c) 3) in
  let rem := buflen c in
  tail ← memcpy tail 0 (buf c) 0 rem;
  tail ← wr8 tail rem 0x80;
  '(c, tail) ← (if rem >=? 56 then
                  c ← sha256_block c tail 0;
                  tail ← memset tail 0 0 64;
                  Ret (c, tail)
                else Ret (c, tail));
  tail ← foldM (fun tail i => wr8 tail (63 - i) (u8 (Z.shiftr bits (8 * i)))) tail (seqZ 0 8);
  c ← sha256_block c tail 0;
  Ret (c, digest_bytes (st c)).

Definition ane_sha256 (hw : bool) (buf0 data : bytes) (len : Z) : res bytes :=
  let c := ane_sha256_init hw buf0 in
  c ← ane_sha256_update c data len;
  '(_, out) ← ane_sha256_final c;
  Ret out.

End interface.

(** ** The two compression paths agree *)

Record words8_ok (s : words8) : Prop := {
  ok_a : in_range 32 (wa s); ok_b : in_range 32 (wb s);
  ok_c : in_range 32 (wc s); ok_d : in_range 32 (wd s);
  ok_e : in_range 32 (we s); ok_f : in_range 32 (wf s);
  ok_g : in_range 32 (wg s); ok_h : in_range 32 (wh s);
}.

Lemma u32_range z : in_range 32 (u32 z).
Proof. by apply wrap_range. Qed.

Lemma u32_add_l a b : u32 (u32 a + b) = u32 (a + b).
Proof. unfold wrap. by rewrite Z.add_mod_idemp_l. Qed.

Lemma u32_add_r a b : u32 (a + u32 b) = u32 (a + b).
Proof. unfold wrap. by rewrite Z.add_mod_idemp_r. Qed.

Lemma choose_eq e f g :
  in_range 32 g ->
  SHAchoose e f g = Z.lxor (Z.land e f) (Z.land (u32 (Z.lnot e)) g).
Proof.
  intros Hg. apply Z.bits_inj'. intros i Hi. unfold SHAchoose.
  rewrite !Z.lxor_spec !Z.land_spec !Z.lxor_spec testbit_wrap; [|done].
  rewrite Z.lnot_spec; [|done]. case_bool_decide as Hlt.
  - by destruct (Z.testbit e i), (Z.testbit f i), (Z.testbit g i).
  - rewrite (in_range_testbit 32 g i Hg); [|lia..].
    by destruct (Z.testbit e i), (Z.testbit f i).
Qed.

Lemma majority_eq a b c :
  SHAmajority a b c = Z.lxor (Z.lxor (Z.land a b) (Z.land a c)) (Z.land b c).
Proof.
  apply Z.bits_inj'. intros i Hi. unfold SHAmajority.
  rewrite !Z.lxor_spec !Z.lor_spec !Z.land_spec !Z.lor_spec.
  by destruct (Z.testbit a i), (Z.testbit b i), (Z.testbit c i).
Qed.

Definition split8 (s : words8) : v4 * v4 :=
  (V4 (wa s) (wb s) (wc s) (wd s), V4 (we s) (wf s) (wg s) (wh s)).

Lemma hash_step_round s k w :
  words8_ok s -> SHA256hash_step (split8 s) (u32 (w + k)) = split8 (round s k w).
Proof.
  intros Hs. destruct s as [a b c d e f g h]. unfold SHA256hash_step, split8, round. simpl.
  rewrite choose_eq; [|apply (ok_g _ Hs)]. rewrite majority_eq.
  fold (SHAhashSIGMA1 e). fold (SHAhashSIGMA0 a).
  set (S1 := SHAhashSIGMA1 e). set (S0 := SHAhashSIGMA0 a). set (ch := Z.lxor (Z.land e f) _).
  set (maj := Z.lxor _ (Z.land b c)).
  assert (u32 (h + S1 + ch + u32 (w + k)) = u32 (h + S1 + ch + k + w)) as ->
    by (rewrite u32_add_r; f_equal; ring).
  set (t := u32 (h + S1 + ch + k + w)). rewrite u32_add_r Z.add_assoc.
  by rewrite (Z.add_comm t d).
Qed.

Lemma words8_ok_round s k w : words8_ok s -> words8_ok (round s k w).
Proof. destruct s. intros []. constructor; simpl in *; auto using u32_range. Qed.

(** The state after the first [n] rounds. *)
Definition rounds_upto (w : list Z) (s : words8) (n : nat) : words8 :=
  fold_left (fun s i => round s (get K i) (get w i)) (seq 0 n) s.

Lemma rounds_upto_S w s n :
  rounds_upto w s (S n) = round (rounds_upto w s n) (get K n) (get w n).
Proof. unfold rounds_upto. by rewrite seq_S fold_left_app. Qed.

Lemma words8_ok_rounds w s n : words8_ok s -> words8_ok (rounds_upto w s n).
Proof.
  intros Hs. induction n as [|n IH]; [done|]. rewrite rounds_upto_S. by apply words8_ok_round.
Qed.

(** [SHA256H]/[SHA256H2] do four rounds. *)
Lemma hash4_rounds w s n :
  words8_ok s ->
  SHA256hash (split8 (rounds_upto w s n)).1 (split8 (rounds_upto w s n)).2
    (vaddq_u32 (vec w n) (vec K n)) = split8 (rounds_upto w s (n + 4)).
Proof.
  intros Hs. unfold SHA256hash. cbn [fold_left vaddq_u32 vec l0 l1 l2 l3].
  replace (n + 4)%nat with (S (n + 3)) by lia. rewrite rounds_upto_S.
  replace (n + 3)%nat with (S (n + 2)) by lia. rewrite rounds_upto_S.
  replace (n + 2)%nat with (S (n + 1)) by lia. rewrite rounds_upto_S.
  replace (n + 1)%nat with (S n) by lia. rewrite rounds_upto_S.
  rewrite -surjective_pairing. rewrite hash_step_round; [|by apply words8_ok_rounds].
  rewrite hash_step_round; [|by repeat apply words8_ok_round; apply words8_ok_rounds].
  rewrite hash_step_round; [|by repeat apply words8_ok_round; apply words8_ok_rounds].
  rewrite hash_step_round; [|by repeat apply words8_ok_round; apply words8_ok_rounds]. done.
Qed.

(** The schedule recurrence, for an index of the finished schedule. *)
Definition sched_rec (w : list Z) (n : nat) : Prop :=
  forall i, (16 <= i < n)%nat ->
    get w i = u32 (get w (i - 16) + sched_s0 (get w (i - 15)) + get w (i - 7) +
                   sched_s1 (get w (i - 2))).

Lemma get_app_l (w w' : list Z) i : (i < length w)%nat -> get (w ++ w') i = get w i.
Proof. intros. unfold get. by rewrite lookup_app_l. Qed.

Lemma schedule_prefix w16 n :
  length w16 = 16%nat ->
  let w := fold_left sched_step (seq 16 n) w16 in
  length w = (16 + n)%nat /\ (forall i, (i < 16)%nat -> get w i = get w16 i) /\
  sched_rec w (16 + n).
Proof.
  intros H16. induction n as [|n IH]; [simpl; repeat split; [done|intros ??; lia]|].
  cbv zeta in *. rewrite seq_S fold_left_app. cbn [fold_left].
  set (w := fold_left sched_step (seq 16 n) w16) in *. destruct IH as (Hl & Hpre & Hrec).
  unfold sched_step. split; [rewrite length_app /=; lia|]. split.
  - intros i Hi. rewrite get_app_l; [auto|lia].
  - intros i Hi. rewrite !(get_app_l w _ (i - _)); [|lia..].
    destruct (decide (i < 16 + n)%nat) as [Hlt|Hge].
    + rewrite get_app_l; [|lia]. apply Hrec. lia.
    + assert (i = 16 + n)%nat as -> by lia. unfold get at 1.
      rewrite list_lookup_middle; [done|lia].
Qed.

Lemma schedule_spec w16 :
  length w16 = 16%nat ->
  (forall i, (i < 16)%nat -> get (schedule w16) i = get w16 i) /\ sched_rec (schedule w16) 64.
Proof. intros H. by destruct (schedule_prefix w16 48 H) as (_ & ? & ?). Qed.

(** The recurrence in the association of the two instructions. *)
Lemma sched_at w n i j j1 j9 j14 :
  sched_rec w n -> (j + 16 < n)%nat ->
  i = (j + 16)%nat -> j1 = (j + 1)%nat -> j9 = (j + 9)%nat -> j14 = (j + 14)%nat ->
  u32 (sched_s1 (get w j14) + u32 (sched_s0 (get w j1) + get w j) + get w j9) = get w i.
Proof.
  intros Hrec Hn -> -> -> ->. rewrite (Hrec (j + 16)%nat); [|lia].
  replace (j + 16 - 16)%nat with j by lia.
  replace (j + 16 - 15)%nat with (j + 1)%nat by lia.
  replace (j + 16 - 7)%nat with (j + 9)%nat by lia.
  replace (j + 16 - 2)%nat with (j + 14)%nat by lia.
  rewrite -Z.add_assoc Z.add_comm -Z.add_assoc u32_add_l. f_equal. ring.
Qed.

(** The two schedule instructions produce the next four words. *)
Lemma su_schedule w n i :
  sched_rec w n -> (i + 20 <= n)%nat ->
  arm_su1 (arm_su0 (vec w i) (vec w (i + 4))) (vec w (i + 8)) (vec w (i + 12)) = vec w (i + 16).
Proof.
  intros Hrec Hi. unfold arm_su1, arm_su0, vec. cbn [l0 l1 l2 l3]. cbv zeta.
  rewrite (sched_at w n (i + 16) i); [|done|lia..].
  rewrite (sched_at w n (i + 16 + 1) (i + 1)); [|done|lia..].
  rewrite (sched_at w n (i + 16 + 2) (i + 2)); [|done|lia..].
  by rewrite (sched_at w n (i + 16 + 3) (i + 3)); [|done|lia..].
Qed.

Section neon_portable.
Context `{ArmSha2}.
Context (w : list Z) (s : words8) (Hs : words8_ok s) (Hrec : sched_rec w 64).

Notation state i := (split8 (rounds_upto w s i)).
Notation wk i := (vaddq_u32 (vec w i) (vec K i)).

Lemma rounds_sched_eq i i4 i8 i12 :
  i4 = (i + 4)%nat -> i8 = (i + 8)%nat -> i12 = (i + 12)%nat -> (i + 20 <= 64)%nat ->
  rounds_sched (vec w i) (vec w i4) (vec w i8) (vec w i12) (state i).1 (state i).2 (wk i) i4 =
  (vec w (i + 16), (state (i + 4)).1, (state (i + 4)).2, wk (i + 4)).
Proof using Hs Hrec.
  intros -> -> -> Hi. unfold rounds_sched. rewrite arm_su0q arm_su1q arm_hq arm_h2q.
  rewrite (su_schedule w 64 i Hrec Hi). by rewrite hash4_rounds.
Qed.

Lemma rounds_plain_eq i i4 :
  i4 = (i + 4)%nat ->
  rounds_plain (vec w i4) (state i).1 (state i).2 (wk i) i4 =
  ((state (i + 4)).1, (state (i + 4)).2, wk (i + 4)).
Proof using Hs.
  intros ->. unfold rounds_plain. rewrite arm_hq arm_h2q. by rewrite hash4_rounds.
Qed.
End neon_portable.

(** Big-endian word [i] of a block. *)
Definition be_at (p : bytes) (i : Z) : Z :=
  lor4 (byte_at p (i * 4 + 3)) (byte_at p (i * 4 + 2)) (byte_at p (i * 4 + 1)) (byte_at p (i * 4)).

Lemma load_word_eq p i : 0 <= i -> i * 4 + 4 <= zlen p -> load_word p i = Ret (be_at p i).
Proof.
  intros. unfold load_word, be_at, lor4. rewrite !rd8_eq; [|lia..]. simpl. f_equal.
  set (a := Z.shiftl _ 24). set (b := Z.shiftl _ 16). set (c := Z.shiftl _ 8).
  set (d := byte_at p (i * 4 + 3)).
  apply Z.bits_inj'. intros j Hj. rewrite !Z.lor_spec.
  by destruct (Z.testbit a j), (Z.testbit b j), (Z.testbit c j), (Z.testbit d j).
Qed.

Lemma load_words_eq p acc L :
  (forall i, i ∈ L -> 0 <= i /\ i * 4 + 4 <= zlen p) ->
  foldM (fun w i => x ← load_word p i; Ret (w ++ [x])) acc L = Ret (acc ++ (be_at p <$> L)).
Proof.
  revert acc. induction L as [|i L IH]; intros acc HL; simpl; [by rewrite app_nil_r|].
  destruct (HL i); [set_solver|]. rewrite load_word_eq; [|done..]. simpl.
  rewrite IH; [by rewrite -app_assoc|]. intros j Hj. apply HL. set_solver.
Qed.

Definition block_words (p : bytes) : list Z := be_at p <$> seqZ 0 16.

(** What the portable path computes. *)
Definition compress (s : words8) (p : bytes) : words8 :=
  add8 s (rounds_upto (schedule (block_words p)) s 64).

Lemma portable_eq s p : 64 <= zlen p -> sha256_block_portable s p = Ret (compress s p).
Proof.
  intros Hp. unfold sha256_block_portable. rewrite load_words_eq; [done|].
  intros i ?%elem_of_seqZ. lia.
Qed.

Lemma rev32_lor4 b0 b1 b2 b3 :
  byte_ok b0 -> byte_ok b1 -> byte_ok b2 -> byte_ok b3 ->
  rev32 (lor4 b0 b1 b2 b3) = lor4 b3 b2 b1 b0.
Proof.
  unfold byte_ok, rev32. intros. rewrite (lor4_sum b0 b1 b2 b3) //.
  set (x := b0 + b1 * 256 + b2 * 65536 + b3 * 16777216).
  rewrite !Z.shiftr_div_pow2 //. change 0xff with (2 ^ 8 - 1). rewrite !land_mask_mod //.
  assert ((x / 2 ^ 24) mod 2 ^ 8 = b3 /\ (x / 2 ^ 16) mod 2 ^ 8 = b2 /\
          (x / 2 ^ 8) mod 2 ^ 8 = b1 /\ x mod 2 ^ 8 = b0) as (-> & -> & -> & ->); [|done].
  unfold x. change (2 ^ 24) with 16777216. change (2 ^ 16) with 65536. change (2 ^ 8) with 256.
  split_and!; dlia.
Qed.

Lemma rev32_word p q i : bytes_ok p -> q = i * 4 -> rev32 (word32_at p q) = be_at p i.
Proof. intros Hp ->. unfold word32_at. by rewrite rev32_lor4; [|by apply byte_at_ok..]. Qed.

Lemma get_block_words p i : (i < 16)%nat -> get (block_words p) i = be_at p (Z.of_nat i).
Proof.
  intros Hi. unfold get, block_words. rewrite list_lookup_fmap lookup_seqZ_lt; [done|lia].
Qed.

Lemma vld_rev p q i :
  bytes_ok p -> 64 <= zlen p -> q = 4 * Z.of_nat i -> (i + 4 <= 16)%nat ->
  exists v, vld1q_u32 p q = Ret v /\ vrev32q v = vec (schedule (block_words p)) i.
Proof.
  intros Hok Hp -> Hi. unfold vld1q_u32. rewrite !le32_eq; [|lia..]. simpl.
  eexists. split; [done|]. unfold vrev32q, vec. simpl.
  destruct (schedule_spec (block_words p)) as [Hpre _]; [done|].
  rewrite !Hpre; [|lia..]. rewrite !get_block_words; [|lia..].
  f_equal; apply rev32_word; (done || lia).
Qed.

Section blocks.
Context `{ArmSha2}.

Lemma neon_eq s p :
  words8_ok s -> bytes_ok p -> 64 <= zlen p -> sha256_block_neon s p = Ret (compress s p).
Proof.
  intros Hs Hok Hp. unfold sha256_block_neon.
  destruct (vld_rev p 0 0 Hok Hp) as (m0 & -> & H0); [lia..|].
  destruct (vld_rev p 16 4 Hok Hp) as (m1 & -> & H1); [lia..|].
  destruct (vld_rev p 32 8 Hok Hp) as (m2 & -> & H2); [lia..|].
  destruct (vld_rev p 48 12 Hok Hp) as (m3 & -> & H3); [lia..|].
  cbn [mbind res_bind]. rewrite H0 H1 H2 H3. unfold compress.
  destruct (schedule_spec (block_words p)) as [_ Hrec]; [done|].
  set (w := schedule (block_words p)) in *. clearbody w.
  change (V4 (wa s) (wb s) (wc s) (wd s)) with (split8 (rounds_upto w s 0)).1.
  change (V4 (we s) (wf s) (wg s) (wh s)) with (split8 (rounds_upto w s 0)).2.
  cbv zeta.
  do 12 (rewrite (rounds_sched_eq w s Hs Hrec); [|reflexivity..|lia]; cbn [Nat.add]).
  do 3 (rewrite (rounds_plain_eq w s Hs); [|reflexivity]; cbn [Nat.add]).
  rewrite arm_hq arm_h2q hash4_rounds //. change (60 + 4)%nat with 64%nat.
  change (rounds_upto w s 0) with s. generalize (rounds_upto w s 64). intros t.
  unfold add8. cbn [split8 fst snd vaddq_u32 l0 l1 l2 l3]. f_equal.
  f_equal; by rewrite Z.add_comm.
Qed.

(** Both paths of [sha256_block] compress the block at [off]. *)
Lemma sha256_block_eq c p off :
  words8_ok (st c) -> bytes_ok p -> 0 <= off -> off + 64 <= zlen p ->
  sha256_block c p off =
  Ret (Ctx (compress (st c) (slice p off 64)) (buf c) (buflen c) (total c) (neon c)
           (portable_forced c)).
Proof.
  intros Hs Hok H0 H1. unfold sha256_block. rewrite bool_decide_eq_true_2; [|lia].
  assert (zlen (slice p off 64) = 64) by (apply zlen_slice; lia).
  destruct (neon c && negb (portable_forced c)).
  - rewrite neon_eq; [done|done|by apply bytes_ok_slice|lia].
  - rewrite portable_eq; [done|lia].
Qed.

(** ** Runs of blocks *)

(** The first [n] blocks of [l]. *)
Fixpoint hash_blocks (n : nat) (s : words8) (l : bytes) : words8 :=
  match n with
  | O => s
  | S n' => hash_blocks n' (compress s (take 64 l)) (drop 64 l)
  end.

Lemma words8_ok_add8 s t : words8_ok (add8 s t).
Proof. constructor; apply u32_range. Qed.

Lemma words8_ok_blocks n s l : words8_ok s -> words8_ok (hash_blocks n s l).
Proof.
  revert s l; induction n as [|n IH]; intros s l Hs; [done|]. apply IH, words8_ok_add8.
Qed.

Lemma hash_blocks_add n k s l :
  hash_blocks (n + k) s l = hash_blocks k (hash_blocks n s l) (drop (64 * n) l).
Proof.
  revert s l; induction n as [|n IH]; intros s l; [done|]. cbn [Nat.add hash_blocks].
  rewrite IH drop_drop. do 2 f_equal. lia.
Qed.

Lemma hash_blocks_app n s l l' :
  (64 * n <= length l)%nat -> hash_blocks n s (l ++ l') = hash_blocks n s l.
Proof.
  revert s l; induction n as [|n IH]; intros s l Hl; [done|]. cbn [hash_blocks].
  rewrite take_app_le; [|lia]. rewrite drop_app_le; [|lia]. apply IH. rewrite length_drop. lia.
Qed.

Definition with_st (c : ane_sha256_ctx) (s : words8) : ane_sha256_ctx :=
  Ctx s (buf c) (buflen c) (total c) (neon c) (portable_forced c).

Lemma slice_0 p n : slice p 0 n = take (Z.to_nat n) p.
Proof. done. Qed.

Lemma update_loop data n c p len :
  words8_ok (st c) -> bytes_ok data -> 0 <= p -> p + len <= zlen data -> 0 <= len ->
  n = Z.to_nat (len / 64) ->
  loop (S n) (update_body data) (c, p, len) =
  Ret (with_st c (hash_blocks n (st c) (drop (Z.to_nat p) data)),
       p + 64 * Z.of_nat n, len - 64 * Z.of_nat n).
Proof.
  intros Hs Hok. revert c p len Hs. induction n as [|n IH]; intros c p len Hs Hp Hlen H0 Hn.
  - cbn [loop update_body]. destruct (len >=? 64) eqn:E; [dlia|]. cbn [mbind res_bind].
    destruct c. do 3 f_equal; lia.
  - rewrite loop_S. unfold update_body at 2. destruct (len >=? 64) eqn:E; [|dlia].
    rewrite sha256_block_eq; [|done..|lia]. cbn [mbind res_bind].
    change (Ctx (compress (st c) (slice data p 64)) _ _ _ _ _)
      with (with_st c (compress (st c) (slice data p 64))).
    rewrite IH; [|apply words8_ok_add8|lia|lia|lia|dlia].
    cbn [st with_st hash_blocks]. rewrite drop_drop.
    replace (Z.to_nat (p + 64)) with (Z.to_nat p + 64)%nat by lia.
    replace (p + 64 + 64 * Z.of_nat n) with (p + 64 * Z.of_nat (S n)) by lia.
    by replace (len - 64 - 64 * Z.of_nat n) with (len - 64 * Z.of_nat (S n)) by lia.
Qed.

(** ** What a context has absorbed *)

Record absorbed (c : ane_sha256_ctx) (m : bytes) : Prop := {
  ab_st : st c = hash_blocks (length m / 64) sha256_iv m;
  ab_buf : zlen (buf c) = 64;
  ab_bytes : bytes_ok (buf c);
  ab_len : buflen c = Z.of_nat (length m mod 64);
  ab_rest : take (length m mod 64) (buf c) = drop (64 * (length m / 64)) m;
  ab_total : total c = u64 (zlen m);
}.

Lemma iv_ok : words8_ok sha256_iv.
Proof. by constructor. Qed.

Lemma absorbed_st_ok c m : absorbed c m -> words8_ok (st c).
Proof. intros H'. rewrite (ab_st _ _ H'). apply words8_ok_blocks, iv_ok. Qed.

Lemma absorbed_init hw buf0 :
  zlen buf0 = 64 -> bytes_ok buf0 -> absorbed (ane_sha256_init hw buf0) [].
Proof. by constructor. Qed.

Lemma take_patch_0 (b bs : bytes) n :
  n = length bs -> take n (patch b 0 bs) = bs.
Proof. intros ->. unfold patch. change (take (Z.to_nat 0) b) with (@nil Z). by rewrite take_app_length. Qed.

(** Whole blocks and the remainder, from a block boundary. *)
Lemma hash_blocks_boundary m d n :
  (length m mod 64 = 0)%nat -> n = (length d / 64)%nat ->
  hash_blocks (length (m ++ d) / 64) sha256_iv (m ++ d) =
  hash_blocks n (hash_blocks (length m / 64) sha256_iv m) d.
Proof.
  intros Hm ->. rewrite length_app.
  replace ((length m + length d) / 64)%nat with (length m / 64 + length d / 64)%nat by ndlia.
  rewrite hash_blocks_add hash_blocks_app; [|ndlia].
  replace (64 * (length m / 64))%nat with (length m) by ndlia. by rewrite drop_app_length.
Qed.

Lemma update_blocks_absorbed c m data p len :
  (length m mod 64 = 0)%nat -> st c = hash_blocks (length m / 64) sha256_iv m ->
  zlen (buf c) = 64 -> bytes_ok (buf c) -> total c = u64 (zlen m + len) ->
  bytes_ok data -> 0 <= p -> 0 <= len -> p + len <= zlen data ->
  twp (update_blocks c data p len) (fun c' => absorbed c' (m ++ slice data p len)).
Proof.
  intros Hm Hst Hbuf Hbok Htot Hok Hp Hlen Hb. unfold update_blocks.
  set (n := Z.to_nat (len / 64)).
  rewrite (update_loop data n c p len); [|rewrite Hst; apply words8_ok_blocks, iv_ok|done..].
  cbn [mbind res_bind].
  assert (zlen (slice data p len) = len) as Hd by (apply zlen_slice; lia).
  rewrite memcpy_eq; [|simpl; ndlia..]. cbn [mbind res_bind twp].
  set (d := slice data p len) in *.
  assert (length d = Z.to_nat len) as Hdl by (unfold zlen in Hd; lia).
  set (rest := slice data (p + 64 * Z.of_nat n) (len - 64 * Z.of_nat n)).
  assert (zlen rest = len - 64 * Z.of_nat n) as Hrest by (apply zlen_slice; ndlia).
  assert ((length (m ++ d) mod 64)%nat = length rest) as Hmod.
  { unfold zlen in Hrest. rewrite length_app. ndlia. }
  assert (data = take (Z.to_nat p) data ++ d ++ drop (Z.to_nat (p + len)) data) as Hsplit.
  { unfold d, slice. rewrite -{1}(take_drop (Z.to_nat p) data). f_equal.
    rewrite -{1}(take_drop (Z.to_nat len) (drop (Z.to_nat p) data)) drop_drop. do 3 f_equal. lia. }
  assert (drop (Z.to_nat p) data = d ++ drop (Z.to_nat (p + len)) data) as Hdrop.
  { unfold d, slice. rewrite -{1}(take_drop (Z.to_nat len) (drop (Z.to_nat p) data)) drop_drop.
    do 2 f_equal. lia. }
  constructor; cbn [st buf buflen total set_buf with_st].
  - rewrite (hash_blocks_boundary m d n); [|done|ndlia].
    rewrite Hdrop Hst hash_blocks_app; [done|ndlia].
  - rewrite zlen_patch; [lia..|]. rewrite Hrest. ndlia.
  - apply bytes_ok_patch; [done|]. by apply bytes_ok_slice.
  - rewrite wrap_small; [|ndlia]. unfold zlen in Hrest. lia.
  - rewrite take_patch_0; [|done]. unfold rest, slice.
    rewrite length_app. replace (64 * ((length m + length d) / 64))%nat
      with (length m + 64 * n)%nat by ndlia.
    rewrite drop_app_add. unfold d, slice. rewrite skipn_firstn_comm drop_drop.
    f_equal; [lia|]. f_equal. lia.
  - rewrite Htot zlen_app Hd. done.
Qed.

Lemma bytes_ok_app (a b : bytes) : bytes_ok a -> bytes_ok b -> bytes_ok (a ++ b).
Proof. intros. by apply Forall_app_2. Qed.

(** The bytes buffered after the next [k] arrive. *)
Lemma take_patch_mid (b bs : bytes) r :
  (r + length bs <= length b)%nat ->
  take (r + length bs) (patch b (Z.of_nat r) bs) = take r b ++ bs.
Proof.
  intros Hl. unfold patch, zlen. rewrite Nat2Z.id (app_assoc (take r b)).
  rewrite take_app_le; [|rewrite length_app length_take; lia].
  rewrite take_ge; [done|rewrite length_app length_take; lia].
Qed.

Lemma absorb_partial (m d : bytes) r :
  r = (length m mod 64)%nat -> (r + length d <= 64)%nat ->
  drop (64 * (length m / 64)) (m ++ d) = drop (64 * (length m / 64)) m ++ d.
Proof. intros -> Hd. rewrite drop_app_le; [done|ndlia]. Qed.

Lemma update_absorbed c m data len :
  absorbed c m -> bytes_ok data -> 0 <= len <= zlen data -> len < 2 ^ 64 ->
  twp (ane_sha256_update c data len) (fun c' => absorbed c' (m ++ slice data 0 len)).
Proof.
  intros Hab Hok Hlen H64. pose proof (absorbed_st_ok c m Hab) as Hst.
  destruct Hab as [Hs Hbuf Hbok Hbl Hrest Htot]. unfold ane_sha256_update.
  cbn [buflen st buf total neon portable_forced].
  assert (u64 (total c + len) = u64 (zlen m + len)) as ->
    by (rewrite Htot; unfold wrap; by rewrite Z.add_mod_idemp_l).
  set (r := (length m mod 64)%nat) in *.
  assert (r < 64)%nat as Hr by (unfold r; ndlia).
  destruct (buflen c =? 0) eqn:E0; cbn [negb].
  { apply update_blocks_absorbed; try done; [unfold r in Hbl; lia|lia|lia]. }
  assert (zlen (slice data 0 len) = len) as Hd by (apply zlen_slice; lia).
  rewrite (wrap_small 64 (64 - buflen c)); [|lia].
  destruct (64 - buflen c >? len) eqn:E1.
  - rewrite memcpy_eq; [|lia..]. cbn [mbind res_bind twp]. set (d := slice data 0 len) in *.
    assert (length d = Z.to_nat len) as Hdl by (unfold zlen in Hd; lia).
    assert (length (m ++ d) / 64 = length m / 64)%nat as Hq by (rewrite length_app; unfold r in *; ndlia).
    assert (length (m ++ d) mod 64 = r + length d)%nat as Hm by (rewrite length_app; unfold r in *; ndlia).
    constructor; cbn [st buf buflen total set_buf].
    + rewrite Hq Hs hash_blocks_app; [done|ndlia].
    + rewrite zlen_patch; lia.
    + apply bytes_ok_patch; [done|by apply bytes_ok_slice].
    + rewrite Hm. rewrite u32_add_r wrap_small; lia.
    + rewrite Hm Hq (absorb_partial m d r) -?Hrest; [|done|lia]. rewrite Hbl.
      apply take_patch_mid. unfold zlen in Hbuf. lia.
    + by rewrite zlen_app Hd.
  - set (k := 64 - buflen c) in *. rewrite memcpy_eq; [|lia..]. cbn [mbind res_bind].
    set (d1 := slice data 0 k). assert (zlen d1 = k) as Hk by (apply zlen_slice; lia).
    set (b := patch (buf c) (buflen c) d1).
    assert (length d1 = (64 - r)%nat) as Hd1 by (unfold zlen in Hk; lia).
    assert (zlen b = 64) as Hbz by (unfold b; rewrite zlen_patch; lia).
    assert (bytes_ok b) as Hbb by (apply bytes_ok_patch; [done|by apply bytes_ok_slice]).
    assert (b = drop (64 * (length m / 64)) (m ++ d1)) as Hbeq.
    { rewrite (absorb_partial m d1 r) -?Hrest; [|done|lia].
      rewrite -(take_patch_mid (buf c) d1 r); [|unfold zlen in Hbuf; lia].
      rewrite -Hbl. fold b. rewrite take_ge; [done|]. unfold zlen in Hbz. lia. }
    rewrite sha256_block_eq; cbn [st buf set_buf]; [|done|done|lia|lia].
    cbn [mbind res_bind buf buflen set_buf].
    assert (m ++ slice data 0 len = (m ++ d1) ++ slice data k (len - k)) as ->.
    { rewrite -app_assoc. f_equal. unfold d1, slice. change (Z.to_nat 0) with 0%nat.
      rewrite !drop_0. rewrite -(take_drop (Z.to_nat k) (take (Z.to_nat len) data)).
      rewrite take_take skipn_firstn_comm. f_equal; f_equal; lia. }
    apply update_blocks_absorbed; cbn [st buf total set_buf]; try done.
    + rewrite length_app. unfold r in *. ndlia.
    + rewrite length_app Hd1.
      replace ((length m + (64 - r)) / 64)%nat with (length m / 64 + 1)%nat by (unfold r in *; ndlia).
      rewrite hash_blocks_add hash_blocks_app; [|ndlia]. rewrite -Hs. cbn [hash_blocks].
      f_equal. rewrite -Hbeq. unfold slice. cbn [drop Z.to_nat]. done.
    + rewrite zlen_app. f_equal. lia.
    + lia.
    + lia.
    + lia.
Qed.

(** ** FIPS 180-4 *)

(** The 64-bit big-endian length. *)
Definition be64 (v : Z) : bytes :=
  [u8 (Z.shiftr v 56); u8 (Z.shiftr v 48); u8 (Z.shiftr v 40); u8 (Z.shiftr v 32);
   u8 (Z.shiftr v 24); u8 (Z.shiftr v 16); u8 (Z.shiftr v 8); u8 v].

(** Section 5.1.1: a one bit, the fewest zero bits, the length in bits. *)
Definition fips_zeros (n : nat) : nat := (119 - n mod 64) mod 64.

Definition fips_pad (m : bytes) : bytes :=
  m ++ [0x80] ++ replicate (fips_zeros (length m)) 0 ++ be64 (8 * zlen m).

(** Section 6.2.2: the hash of the padded message, block by block. *)
Definition fips_sha256 (m : bytes) : bytes :=
  digest_bytes (hash_blocks (length (fips_pad m) / 64) sha256_iv (fips_pad m)).

Lemma put_bits_eq (A B : bytes) bits :
  length A = 56%nat -> length B = 8%nat ->
  foldM (fun tail i => wr8 tail (63 - i) (u8 (Z.shiftr bits (8 * i)))) (A ++ B) (seqZ 0 8) =
  Ret (A ++ be64 bits).
Proof.
  intros HA HB. destruct B as [|b0 [|b1 [|b2 [|b3 [|b4 [|b5 [|b6 [|b7 [|]]]]]]]]]; try done.
  change (seqZ 0 8) with [0; 1; 2; 3; 4; 5; 6; 7]. cbn [foldM].
  assert (forall (B : bytes) i v, length B = 8%nat -> 56 <= i < 64 ->
    wr8 (A ++ B) i v = Ret (A ++ <[(Z.to_nat i - 56)%nat := u8 v]> B)) as Hw.
  { intros B i v HB' Hi. rewrite wr8_eq; [|unfold zlen; rewrite length_app; lia].
    rewrite insert_app_r_alt; [|lia]. by rewrite HA. }
  do 8 (rewrite Hw; [cbn [mbind res_bind]|by rewrite ?length_insert|lia]).
  rewrite !wrap_wrap //.
Qed.

(** The padded tail of a message with [r] buffered bytes. *)
Lemma final_tail rest r :
  length rest = r -> (r < 64)%nat ->
  (tail ← memcpy (replicate 64 0) 0 rest 0 (Z.of_nat r); wr8 tail (Z.of_nat r) 0x80) =
  Ret (rest ++ [0x80] ++ replicate (63 - r) 0).
Proof.
  intros Hl Hr. rewrite memcpy_eq; [|unfold zlen; simpl; lia..]. cbn [mbind res_bind].
  rewrite wr8_eq.
  2:{ rewrite zlen_patch; [unfold zlen; simpl; lia|lia|rewrite zlen_slice; unfold zlen; simpl; lia]. }
  f_equal. unfold patch, slice. change (Z.to_nat 0) with 0%nat. rewrite drop_0 take_0.
  rewrite (take_ge rest); [|lia]. unfold zlen.
  replace (Z.to_nat (0 + Z.of_nat (length rest))) with r by lia. rewrite drop_replicate.
  cbn [app]. rewrite insert_app_r_alt; [|lia]. rewrite Nat2Z.id Hl Nat.sub_diag.
  f_equal. replace (64 - r)%nat with (S (63 - r)) by lia. done.
Qed.

Lemma fips_zeros_small n : (n mod 64 < 56)%nat -> fips_zeros n = (55 - n mod 64)%nat.
Proof. intros. unfold fips_zeros. ndlia. Qed.

Lemma fips_zeros_large n : (56 <= n mod 64)%nat -> fips_zeros n = (119 - n mod 64)%nat.
Proof. intros. unfold fips_zeros. ndlia. Qed.

(** The last blocks of the padded message. *)
Lemma hash_pad m rest k :
  rest = drop (64 * (length m / 64)) m ->
  (length (fips_pad m) = 64 * (length m / 64) + 64 * k)%nat ->
  fips_sha256 m = digest_bytes (hash_blocks k (hash_blocks (length m / 64) sha256_iv m)
    (rest ++ [0x80] ++ replicate (fips_zeros (length m)) 0 ++ be64 (8 * zlen m))).
Proof.
  intros -> Hl. unfold fips_sha256. rewrite Hl.
  replace ((64 * (length m / 64) + 64 * k) / 64)%nat with (length m / 64 + k)%nat by ndlia.
  rewrite hash_blocks_add. unfold fips_pad. rewrite hash_blocks_app; [|ndlia].
  rewrite drop_app_le; [done|ndlia].
Qed.

Lemma replicate_bytes_ok n : bytes_ok (replicate n 0).
Proof. by apply Forall_replicate. Qed.

Lemma be64_ok v : bytes_ok (be64 v).
Proof. unfold be64. repeat constructor; apply byte_ok_u8. Qed.

Lemma length_fips_pad m :
  length (fips_pad m) = (length m + 1 + fips_zeros (length m) + 8)%nat.
Proof. unfold fips_pad. rewrite !length_app length_replicate. simpl. lia. Qed.

Lemma take_64 (b : bytes) : length b = 64%nat -> slice b 0 64 = b.
Proof. intros Hl. unfold slice. change (Z.to_nat 0) with 0%nat. rewrite drop_0 take_ge //. lia. Qed.

(** One or two blocks appended to the absorbed ones. *)
Lemma hash_two s0 (t1 t2 : bytes) :
  length t1 = 64%nat -> length t2 = 64%nat ->
  hash_blocks 2 s0 (t1 ++ t2) = compress (compress s0 t1) t2.
Proof.
  intros H1 H2. cbn [hash_blocks]. rewrite take_app_length' // drop_app_length' //.
  by rewrite take_ge; [|lia].
Qed.

Lemma hash_one s0 (t : bytes) : length t = 64%nat -> hash_blocks 1 s0 t = compress s0 t.
Proof. intros Ht. cbn [hash_blocks]. by rewrite take_ge; [|lia]. Qed.

(** The copy and the terminating byte, from the buffer of a context. *)
Lemma context_tail c m X (k : bytes -> res X) :
  absorbed c m ->
  let r := (length m mod 64)%nat in
  (tail ← memcpy (replicate 64 0) 0 (buf c) 0 (Z.of_nat r);
   tail ← wr8 tail (Z.of_nat r) 0x80; k tail) =
  k (drop (64 * (length m / 64)) m ++ [0x80] ++ replicate (63 - r) 0).
Proof.
  intros [_ Hbuf _ _ Hrest _] r.
  assert (r < 64)%nat as Hr by (unfold r; ndlia).
  assert (length (drop (64 * (length m / 64)) m) = r) as Hrl
    by (rewrite length_drop; unfold r; ndlia).
  revert Hrl Hrest. generalize (drop (64 * (length m / 64)) m). intros rest Hrl Hrest.
  assert (zlen rest = Z.of_nat r) by (unfold zlen; lia).
  assert (zlen (replicate 64 0) = 64) by done.
  pose proof (final_tail rest r Hrl Hr) as Ht.
  rewrite memcpy_eq in Ht; [|lia..]. cbn [mbind res_bind] in Ht.
  rewrite memcpy_eq; [|lia..]. cbn [mbind res_bind].
  assert (slice (buf c) 0 (Z.of_nat r) = slice rest 0 (Z.of_nat r)) as ->.
  { unfold slice. change (Z.to_nat 0) with 0%nat.
    rewrite !drop_0 Nat2Z.id. unfold r. rewrite Hrest take_ge //. fold r. lia. }
  by rewrite Ht.
Qed.

Lemma final_absorbed c m :
  absorbed c m -> bytes_ok m -> 8 * zlen m < 2 ^ 64 ->
  exists c', ane_sha256_final c = Ret (c', fips_sha256 m).
Proof.
  intros Hab Hm H64. pose proof (absorbed_st_ok c m Hab) as Hst. pose proof (zlen_nonneg m).
  assert (u64 (Z.shiftl (total c) 3) = 8 * zlen m) as Hbits.
  { rewrite (ab_total _ _ Hab) (wrap_small 64 (zlen m)); [|lia].
    rewrite Z.shiftl_mul_pow2 // wrap_small; lia. }
  unfold ane_sha256_final. rewrite Hbits (ab_len _ _ Hab). rewrite (context_tail c m _ _ Hab).
  set (r := (length m mod 64)%nat) in *.
  assert (r < 64)%nat as Hr by (unfold r; ndlia).
  set (rest := drop (64 * (length m / 64)) m).
  assert (length rest = r) as Hrl by (unfold rest; rewrite length_drop; unfold r; ndlia).
  assert (bytes_ok rest) as Hrok by (by apply Forall_drop).
  set (L := be64 (8 * zlen m)). assert (length L = 8%nat) as HL by done.
  destruct (Z.of_nat r >=? 56) eqn:E.
  - set (t1 := rest ++ [0x80] ++ replicate (63 - r) 0).
    assert (length t1 = 64%nat) as Ht1
      by (unfold t1; rewrite !length_app length_replicate /=; lia).
    assert (bytes_ok t1)
      by (repeat apply bytes_ok_app; [done|by repeat constructor|apply replicate_bytes_ok]).
    assert (zlen t1 = 64) as Hz1 by (unfold zlen; lia).
    rewrite sha256_block_eq; [|done..|lia]. cbn [mbind res_bind].
    rewrite memset_eq; [|lia..]. cbn [mbind res_bind]. rewrite patch_all //.
    change (replicate (Z.to_nat 64) (u8 0)) with (replicate 56 0 ++ replicate 8 0).
    rewrite put_bits_eq //. cbn [mbind res_bind]. fold L. set (t2 := replicate 56 0 ++ L).
    rewrite sha256_block_eq; cbn [st];
      [|apply words8_ok_add8|apply bytes_ok_app; [apply replicate_bytes_ok|apply be64_ok]|lia|done].
    rewrite !take_64 //. eexists. cbn [mbind res_bind st]. f_equal. f_equal.
    rewrite (hash_pad m rest 2); [|done|].
    2:{ rewrite length_fips_pad fips_zeros_large; fold r; unfold r in *; ndlia. }
    rewrite fips_zeros_large; [|fold r; lia]. fold r. fold L. rewrite -(ab_st _ _ Hab).
    replace (119 - r)%nat with (63 - r + 56)%nat by lia. rewrite replicate_add.
    rewrite -(hash_two (st c) t1 t2) //. unfold t1, t2. by rewrite -!app_assoc.
  - cbn [mbind res_bind].
    replace (63 - r)%nat with (55 - r + 8)%nat by lia. rewrite replicate_add !app_assoc.
    rewrite put_bits_eq; [|rewrite !length_app length_replicate /=; lia|done]. fold L.
    cbn [mbind res_bind]. set (t := _ ++ L).
    assert (length t = 64%nat) as Ht
      by (unfold t; rewrite !length_app length_replicate HL /=; lia).
    rewrite sha256_block_eq; [|done| |lia|unfold zlen; lia].
    2:{ repeat apply bytes_ok_app; [done|by repeat constructor|apply replicate_bytes_ok|apply be64_ok]. }
    rewrite take_64 //. eexists. cbn [mbind res_bind st]. f_equal. f_equal.
    rewrite (hash_pad m rest 1); [|done|].
    2:{ rewrite length_fips_pad fips_zeros_small; fold r; unfold r in *; ndlia. }
    rewrite fips_zeros_small; [|fold r; lia]. fold r. fold L. rewrite -(ab_st _ _ Hab).
    rewrite -(hash_one (st c) t) //. unfold t. by rewrite -!app_assoc.
Qed.

End blocks.

(** ** Whole digests *)

(** What a client does between [ane_sha256_init] and [ane_sha256_final]. *)
Inductive sha_op := Update (data : bytes) | ForcePortable (force : bool).

Definition op_data (o : sha_op) : bytes :=
  match o with Update d => d | ForcePortable _ => [] end.

Section digest.
Context `{ArmSha2}.

Definition run_op (c : ane_sha256_ctx) (o : sha_op) : res ane_sha256_ctx :=
  match o with
  | Update d => ane_sha256_update c d (zlen d)
  | ForcePortable b => Ret (ane_sha256_ctx_force_portable c b)
  end.

Lemma run_ops_absorbed ops c m :
  absorbed c m -> Forall bytes_ok (op_data <$> ops) ->
  zlen m + zlen (concat (op_data <$> ops)) < 2 ^ 64 ->
  twp (foldM run_op c ops) (fun c' => absorbed c' (m ++ concat (op_data <$> ops))).
Proof.
  revert c m. induction ops as [|o ops IH]; intros c m Hab Hok Hlen.
  { by rewrite app_nil_r. }
  rewrite !fmap_cons in Hok, Hlen |- *. cbn [concat foldM] in *.
  apply Forall_cons in Hok as [Ho Hok]. rewrite zlen_app in Hlen.
  pose proof (zlen_nonneg m). pose proof (zlen_nonneg (concat (op_data <$> ops))).
  rewrite app_assoc. apply twp_bind. destruct o as [d|b]; cbn [op_data run_op] in *.
  - pose proof (zlen_nonneg d).
    eapply twp_mono; [apply (update_absorbed c m d (zlen d)); (done || lia)|].
    intros c' Hc'. rewrite slice_all in Hc'. apply IH; [done..|]. rewrite zlen_app. lia.
  - rewrite app_nil_r. apply IH; [by destruct Hab|done|]. pose proof (zlen_nonneg (@nil Z)). lia.
Qed.

End digest.

(** C35: the digest is FIPS 180-4's. Whatever the processor's SHA-2
    instructions do within their specification, whichever compression path
    the context starts with or is forced to at any point, and however the
    data is cut into updates (empty ones included), the sequence init,
    updates, final never leaves a buffer and returns the standard digest of
    the concatenation, for every message below 2^61 bytes. *)
Theorem sha256_incremental `{ArmSha2} hw buf0 ops :
  zlen buf0 = 64 -> bytes_ok buf0 -> Forall bytes_ok (op_data <$> ops) ->
  8 * zlen (concat (op_data <$> ops)) < 2 ^ 64 ->
  exists c', (c ← foldM run_op (ane_sha256_init hw buf0) ops; ane_sha256_final c) =
             Ret (c', fips_sha256 (concat (op_data <$> ops))).
Proof.
  intros Hb Hbok Hok Hlen. pose proof (zlen_nonneg (concat (op_data <$> ops))).
  destruct (twp_ex _ _ (run_ops_absorbed ops (ane_sha256_init hw buf0) []
    (absorbed_init hw buf0 Hb Hbok) Hok ltac:(change (zlen (@nil Z)) with 0; lia)))
    as (c & -> & Hab).
  rewrite app_nil_l in Hab. cbn [mbind res_bind].
  apply (final_absorbed c _ Hab); [|done]. by apply Forall_concat.
Qed.

(** The digest of "abc" (FIPS 180-4, example B.1), computed by a context that
    starts on the hardware path and is switched to the portable one. *)
Lemma sha256_incremental_witness :
  exists c', (c ← foldM (@run_op arm_pseudocode) (ane_sha256_init true (replicate 64 0))
                [Update [97; 98]; ForcePortable true; Update [99]];
              @ane_sha256_final arm_pseudocode c) =
    Ret (c', [0xba; 0x78; 0x16; 0xbf; 0x8f; 0x01; 0xcf; 0xea; 0x41; 0x41; 0x40; 0xde;
              0x5d; 0xae; 0x22; 0x23; 0xb0; 0x03; 0x61; 0xa3; 0x96; 0x17; 0x7a; 0x9c;
              0xb4; 0x10; 0xff; 0x61; 0xf2; 0x00; 0x15; 0xad]).
Proof.
  destruct (@sha256_incremental arm_pseudocode true (replicate 64 0)
    [Update [97; 98]; ForcePortable true; Update [99]]
    ltac:(reflexivity) ltac:(vm_decide) ltac:(vm_decide) ltac:(reflexivity)) as (c' & Hc').
  exists c'. rewrite Hc'. by vm_compute.
Defined.

(** The digests of the empty message and of the 56-byte message whose padding
    spills into a second block (FIPS 180-4, example B.2). *)
Example fips_empty :
  fips_sha256 [] =
  [0xe3; 0xb0; 0xc4; 0x42; 0x98; 0xfc; 0x1c; 0x14; 0x9a; 0xfb; 0xf4; 0xc8; 0x99; 0x6f; 0xb9; 0x24;
   0x27; 0xae; 0x41; 0xe4; 0x64; 0x9b; 0x93; 0x4c; 0xa4; 0x95; 0x99; 0x1b; 0x78; 0x52; 0xb8; 0x55].
Proof. by vm_compute. Qed.

Example fips_two_blocks :
  fips_sha256 (flat_map (fun i => [97 + i; 98 + i; 99 + i; 100 + i]) (seqZ 0 14)) =
  [0x24; 0x8d; 0x6a; 0x61; 0xd2; 0x06; 0x38; 0xb8; 0xe5; 0xc0; 0x26; 0x93; 0x0c; 0x3e; 0x60; 0x39;
   0xa3; 0x3c; 0xe4; 0x59; 0x64; 0xff; 0x21; 0x67; 0xf6; 0xec; 0xed; 0xd4; 0x19; 0xdb; 0x06; 0xc1].
Proof. by vm_compute. Qed.

(** The ARMv8 compression path, with its lane order, its interleaved
    schedule updates and its byte reversal, computes exactly what the
    portable path computes, on every state and every block. *)
Theorem neon_portable_agree `{ArmSha2} s p :
  words8_ok s -> bytes_ok p -> zlen p = 64 ->
  sha256_block_neon s p = sha256_block_portable s p.
Proof. intros. rewrite neon_eq //; [|lia]. rewrite portable_eq //. lia. Qed.

Lemma neon_portable_agree_witness :
  @sha256_block_neon arm_pseudocode sha256_iv (seqZ 0 64) =
  sha256_block_portable sha256_iv (seqZ 0 64).
Proof.
  apply (@neon_portable_agree arm_pseudocode sha256_iv (seqZ 0 64)).
  - by constructor.
  - vm_decide.
  - reflexivity.
Defined.
