(* ===== verification/H15Lib.v ===== *)
(** * The H15 and H18 helpers of libane

    [src/libane/ane_h15.c]: the load command of a program and the copies of
    its six sections. [src/libane/ane_h15_firmware.c] and
    [ane_h18_firmware.c], with the pins and layouts of [src/ane/h15] and
    [src/ane/h18]: checking a firmware payload and laying it out. The hash is
    [Sha256]. A NULL pointer is [None]; whether [calloc] succeeds is an
    argument. *)

From Stdlib Require Import String.
From S2P Require Import Prelude Sha256.

#[local] Open Scope Z_scope.

(** ** The load command *)

Definition ANE_H15_LOAD_SECTIONS : Z := 6.
Definition ANE_H15_LOAD_COMMAND_BYTES : Z := 0x1c0.

Record ane_h15_payload := H15Payload { pl_data : option bytes; pl_size : Z }.
Record ane_h15_relocation := H15Reloc { rl_iova : Z; rl_capacity : Z }.

(** A section points into the storage. *)
Record ane_h15_load := H15Load {
  l_storage : option bytes;
  l_section : list (option Z);
  l_command : bytes;
}.

Definition payload_sizes : list Z := [664; 16384; 284; 1040; 56; 40].
Definition record_offsets : list Z := [0x8; 0x38; 0x68; 0x98; 0xc8; 0x128].
Definition ids : list Z := [1002; 4; 3; 1003; 1004; 1005].
Definition types : list Z := [4; 3; 4; 4; 4; 4].

Definition elt {A} (l : list A) (i : Z) : res A :=
  match l !! Z.to_nat i with Some x => Ret x | None => Fault OutOfBounds end.

Definition put32 (m : bytes) (p value : Z) : res bytes :=
  foldM (fun m i => wr8 m (p + i) (u8 (Z.shiftr value (8 * i)))) m (seqZ 0 4).

Definition put64 (m : bytes) (p value : Z) : res bytes :=
  m ← put32 m p (u32 value);
  put32 m (p + 4) (u32 (Z.shiftr value 32)).

(** The inner loop of [validate]: whether range [i] meets range [j]. *)
Definition sections_meet (a b : ane_h15_relocation) : bool :=
  (rl_iova a <? u64 (rl_iova b + rl_capacity b)) && (rl_iova b <? u64 (rl_iova a + rl_capacity a)).

Definition section_bad (p : ane_h15_payload) (size : Z) (r : ane_h15_relocation) : bool :=
  bool_decide (pl_data p = None) || negb (pl_size p =? size) || (rl_iova r =? 0) ||
  negb (Z.land (rl_iova r) 0x3fff =? 0) || negb (Z.land (rl_capacity r) 0x3fff =? 0) ||
  (rl_capacity r <? pl_size p) || (rl_iova r >? U64_MAX - rl_capacity r).

(** [true] goes on; [false] is [-EINVAL]. *)
Definition validate (payload : list ane_h15_payload) (reloc : list ane_h15_relocation) : res bool :=
  foldM (fun ok i =>
    if negb ok then Ret false
    else
      p ← elt payload i; size ← elt payload_sizes i; r ← elt reloc i;
      if section_bad p size r then Ret false
      else
        met ← foldM (fun met j => if met : bool then Ret true else rj ← elt reloc j; Ret (sections_meet r rj)) false (seqZ 0 i);
        Ret (negb met)) true (seqZ 0 ANE_H15_LOAD_SECTIONS).

Definition align8 (n : Z) : Z := Z.land (u64 (n + 7)) (u64 (Z.lnot 7)).

(** One section: its pointer, its copy and its record. *)
Definition load_section (payload : list ane_h15_payload) (reloc : list ane_h15_relocation)
    (x : bytes * list (option Z) * bytes * Z) (i : Z) : res (bytes * list (option Z) * bytes * Z) :=
  let '(storage, section, command, offset) := x in
  p ← elt payload i; r ← elt reloc i; at_ ← elt record_offsets i; id ← elt ids i; type ← elt types i;
  match pl_data p with
  | None => Fault OutOfBounds
  | Some data =>
      storage ← memcpy storage offset data 0 (pl_size p);
      let section := (section ++ [Some offset])%list in
      let offset := u64 (offset + align8 (pl_size p)) in
      command ← put32 command at_ 1;
      command ← put32 command (at_ + 4) id;
      command ← put32 command (at_ + 8) type;
      command ← put32 command (at_ + 16) 1;
      command ← put64 command (at_ + 24) (rl_iova r);
      command ← put64 command (at_ + 32) (pl_size p);
      Ret (storage, section, command, offset)
  end.

Definition zero_bytes (n : Z) : bytes := replicate (Z.to_nat n) 0.

Definition storage_size : res Z :=
  foldM (fun size i => n ← elt payload_sizes i; Ret (u64 (size + align8 n))) 0 (seqZ 0 ANE_H15_LOAD_SECTIONS).

Definition ane_h15_load_build (calloc : bool) (payload : option (list ane_h15_payload))
    (reloc : option (list ane_h15_relocation)) (out : option ane_h15_load) : res (option ane_h15_load * option errno) :=
  match payload, reloc, out with
  | Some payload, Some reloc, Some o =>
      if negb (bool_decide (l_storage o = None)) then Ret (out, Some EBUSY)
      else
        ok ← validate payload reloc;
        if negb ok then Ret (out, Some EINVAL)
        else
          size ← storage_size;
          if negb calloc then Ret (out, Some ENOMEM)
          else
            command ← put32 (zero_bytes ANE_H15_LOAD_COMMAND_BYTES) 4 0x200;
            '(storage, section, command, _) ←
              foldM (load_section payload reloc) (zero_bytes size, [], command, 0) (seqZ 0 ANE_H15_LOAD_SECTIONS);
            Ret (Some (H15Load (Some storage) section command), None)
  | _, _, _ => Ret (out, Some EINVAL)
  end.

(** [memset(load, 0, sizeof(load[0]))]. *)
Definition load0 : ane_h15_load := H15Load None (replicate 6 None) (zero_bytes ANE_H15_LOAD_COMMAND_BYTES).

Definition ane_h15_load_free (load : option ane_h15_load) : option ane_h15_load :=
  match load with None => None | Some _ => Some load0 end.

(** ** Firmware *)

(** The pins of the two families. *)
Record ane_h15_fw := H15Fw {
  h15_name : string;
  h15_sha256 : bytes;
  h15_size : Z;
  h15_manifest_size : Z;
  h15_wrad_vm : Z;
}.

Record ane_h18_fw := H18Fw {
  h18_name : string;
  h18_sha256 : bytes;
  h18_size : Z;
  h18_manifest_size : Z;
  h18_image_sha256 : bytes;
}.

Definition ane_fw_t8122 : ane_h15_fw :=
  H15Fw "h15_ane_fw_themis_j51y"
    [0x19; 0xb6; 0xa4; 0x99; 0x97; 0xec; 0xf3; 0xeb; 0x4e; 0xc1; 0x59; 0x60; 0xf4; 0x2a; 0xb6; 0xa7;
     0x9f; 0xec; 0xd3; 0x4c; 0x8e; 0x14; 0x48; 0xd2; 0xe5; 0xc1; 0x03; 0x4e; 0x2e; 0xc4; 0x78; 0x08]
    1605632 1605657 0xd2a4c.
Definition ane_fw_t6030 : ane_h15_fw :=
  H15Fw "t603x_ane0_fw_erebus_ls5x"
    [0x43; 0xda; 0x9d; 0x56; 0x6a; 0x88; 0x0b; 0xab; 0x1b; 0xd8; 0xef; 0x9c; 0xd3; 0xdd; 0x3e; 0xa4;
     0xa5; 0x5a; 0xe6; 0xc0; 0x16; 0xd2; 0xec; 0x7f; 0x4f; 0x97; 0xf4; 0xfd; 0xa9; 0x98; 0x67; 0xa0]
    1605632 1605657 0xd27ec.
Definition ane_fw_t6031 : ane_h15_fw :=
  H15Fw "t603x_ane0_fw_erebus_pc5x"
    [0xdd; 0xac; 0x37; 0xc7; 0x0b; 0xdc; 0xae; 0xdc; 0x62; 0x39; 0xd5; 0xcc; 0x85; 0xd8; 0x48; 0xe6;
     0x06; 0xcd; 0x66; 0xdf; 0x45; 0x4e; 0x8a; 0x43; 0x2c; 0x24; 0xfd; 0x77; 0x30; 0xa1; 0xf9; 0x77]
    1605632 1605657 0xd27ec.
Definition ane_fw_t6032_ane1 : ane_h15_fw :=
  H15Fw "t603x_ane1_fw_erebus_pc5x"
    [0x0e; 0x0a; 0x01; 0xec; 0x3b; 0x4e; 0xf0; 0x80; 0x50; 0xca; 0xe2; 0xdf; 0x75; 0xd1; 0x9c; 0x53;
     0x12; 0x54; 0xf7; 0xe1; 0xec; 0x10; 0x9f; 0xf6; 0xbb; 0x05; 0xff; 0x57; 0x5c; 0x7c; 0x13; 0xd4]
    1605632 1605657 0xd27ec.
Definition ane_fw_t8152_ane0 : ane_h18_fw :=
  H18Fw "h18_ane0_fw_kirkland_j8xx"
    [0x83; 0x05; 0x05; 0xbc; 0x95; 0x78; 0x6d; 0xa1; 0xbf; 0x49; 0x9b; 0xa9; 0x5b; 0x6d; 0x3c; 0xf1;
     0xd0; 0x0a; 0x5f; 0x4e; 0x8e; 0xfe; 0x8f; 0xe7; 0xda; 0xb4; 0x82; 0x10; 0x14; 0xb2; 0x3d; 0x72]
    1572864 1572889
    [0x3a; 0x1b; 0xb2; 0x64; 0x39; 0xc2; 0x8a; 0x14; 0x65; 0x46; 0x81; 0x0d; 0xe8; 0x09; 0x67; 0x17;
     0xad; 0xa8; 0xb8; 0xeb; 0x80; 0x52; 0x15; 0x63; 0x30; 0xc5; 0xb1; 0x6d; 0x02; 0x12; 0x93; 0xb8].

Definition ane_h15_fw_for_engine (soc engine : Z) : option ane_h15_fw :=
  if soc =? 0x6032 then
    if engine =? 0 then Some ane_fw_t6031 else if engine =? 1 then Some ane_fw_t6032_ane1 else None
  else if negb (engine =? 0) then None
  else if soc =? 0x8122 then Some ane_fw_t8122
  else if soc =? 0x6030 then Some ane_fw_t6030
  else if (soc =? 0x6031) || (soc =? 0x6034) then Some ane_fw_t6031
  else None.

(** Where the text and the data are in the file, and the size of the image. *)
Record fw_layout := FwLayout { text_file : Z; text_size : Z; data_file : Z; data_file_size : Z; image_size : Z }.

Definition ane_h15_layout : fw_layout := FwLayout 0x4000 0xcc000 0xd0000 0xb8000 0x36c000.
Definition ane_h18_layout : fw_layout := FwLayout 0x4000 0xc4000 0xc8000 0xb8000 0x370000.

(** [ane_h15_fw_copy] and [ane_h18_fw_copy]. *)
Definition fw_copy (y : fw_layout) (storage payload : bytes) : res bytes :=
  storage ← memcpy storage 0 payload (text_file y) (text_size y);
  memcpy storage (text_size y) payload (data_file y) (data_file_size y).

Record ane_fw_owner := FwOwner { fi_storage : option bytes; fi_size : Z; fi_entry : Z }.

Section stage.
Context `{ArmSha2} (hw : bool) (buf0 : bytes).

(** The common body of the two stagers, from the digest and the size of the
    pin on. *)
Definition fw_stage (y : fw_layout) (calloc : bool) (pin : option (bytes * Z)) (payload : option bytes) (size : Z)
    (out : option ane_fw_owner) : res (option ane_fw_owner * option errno) :=
  match pin with
  | None => Ret (out, Some ENODEV)
  | Some (sha256, pin_size) =>
      match payload, out with
      | Some payload, Some o =>
          if negb (size =? pin_size) then Ret (out, Some EINVAL)
          else if negb (bool_decide (fi_storage o = None)) then Ret (out, Some EBUSY)
          else
            digest ← ane_sha256 hw buf0 payload size;
            if negb (bool_decide (digest = sha256)) then Ret (out, Some EBADMSG)
            else if negb calloc then Ret (out, Some ENOMEM)
            else
              storage ← fw_copy y (zero_bytes (image_size y)) payload;
              Ret (Some (FwOwner (Some storage) (image_size y) 0), None)
      | _, _ => Ret (out, Some EINVAL)
      end
  end.

Definition ane_h15_firmware_stage (calloc : bool) (soc engine : Z) (payload : option bytes) (size : Z)
    (out : option ane_fw_owner) : res (option ane_fw_owner * option errno) :=
  fw_stage ane_h15_layout calloc ((fun pin => (h15_sha256 pin, h15_size pin)) <$> ane_h15_fw_for_engine soc engine) payload size out.

Definition ane_h18_firmware_stage (calloc : bool) (soc engine : Z) (payload : option bytes) (size : Z)
    (out : option ane_fw_owner) : res (option ane_fw_owner * option errno) :=
  fw_stage ane_h18_layout calloc
    (if negb (soc =? 0x8152) || negb (engine =? 0) then None
     else Some (h18_sha256 ane_fw_t8152_ane0, h18_size ane_fw_t8152_ane0)) payload size out.
End stage.

(** [ane_h15_firmware_free] and [ane_h18_firmware_free]. *)
Definition fw_free (image : option ane_fw_owner) : option ane_fw_owner :=
  match image with None => None | Some _ => Some (FwOwner None 0 0) end.

(** ** Stores into zeroed memory

    The command and the storage start out zeroed and are filled from the
    front: [C ++ zero_bytes m] is memory whose first [zlen C] bytes are final. *)

Lemma zlen_zero_bytes n : zlen (zero_bytes n) = Z.max 0 n.
Proof. unfold zero_bytes. rewrite zlen_replicate. lia. Qed.

Ltac lens := rewrite ?zlen_app ?zlen_le_bytes ?zlen_zero_bytes; try lia.

Lemma patch_zero_bytes (C bs : bytes) m k :
  0 <= k -> k + zlen bs <= m ->
  patch (C ++ zero_bytes m) (zlen C + k) bs = C ++ zero_bytes k ++ bs ++ zero_bytes (m - k - zlen bs).
Proof.
  intros Hk Hm. pose proof (zlen_nonneg C). pose proof (zlen_nonneg bs). unfold patch, zero_bytes.
  rewrite take_app drop_app take_ge; [|unfold zlen in *; lia].
  rewrite drop_ge; [|unfold zlen in *; lia]. rewrite take_replicate drop_replicate app_nil_l -app_assoc.
  repeat f_equal; unfold zlen in *; lia.
Qed.

Lemma u8_idem v : u8 (u8 v) = u8 v.
Proof. apply wrap_idem_le. lia. Qed.

Lemma wr8_u8 m p v : wr8 m p (u8 v) = wr8 m p v.
Proof. unfold wr8. by rewrite u8_idem. Qed.

Lemma put32_le m p v : put32 m p v = put_le32 m p v.
Proof.
  unfold put32, put_le32. change (seqZ 0 4) with [0; 1; 2; 3]. cbn [foldM].
  rewrite Z.add_0_r wr8_u8 Z.shiftr_0_r. destruct (wr8 m p v) as [m1| |]; [|done..]. cbn [mbind res_bind].
  rewrite wr8_u8. destruct (wr8 m1 _ _) as [m2| |]; [|done..]. cbn [mbind res_bind].
  rewrite wr8_u8. destruct (wr8 m2 _ _) as [m3| |]; [|done..]. cbn [mbind res_bind].
  rewrite wr8_u8. by destruct (wr8 m3 _ _).
Qed.

Lemma put32_zero n (C : bytes) m p v :
  zlen C = n -> n <= p -> p + 4 <= n + m ->
  put32 (C ++ zero_bytes m) p v =
    Ret ((C ++ zero_bytes (p - n) ++ le_bytes 4 v) ++ zero_bytes (n + m - p - 4)).
Proof.
  intros <- Hp Hm. pose proof (zlen_nonneg C). rewrite put32_le put_le32_eq; [|lia|lens].
  replace p with (zlen C + (p - zlen C)) at 1 by lia.
  rewrite patch_zero_bytes ?zlen_le_bytes; [|lia..]. rewrite -!app_assoc. do 5 f_equal. lia.
Qed.

Lemma put64_zero n (C : bytes) m p v :
  zlen C = n -> n <= p -> p + 8 <= n + m ->
  put64 (C ++ zero_bytes m) p v =
    Ret ((C ++ zero_bytes (p - n) ++ le_bytes 8 v) ++ zero_bytes (n + m - p - 8)).
Proof.
  intros <- Hp Hm. pose proof (zlen_nonneg C).
  assert (put64 (C ++ zero_bytes m) p v = put_le64 (C ++ zero_bytes m) p v) as ->.
  { unfold put64, put_le64. rewrite put32_le. destruct (put_le32 _ _ _); [|done..]. apply put32_le. }
  rewrite put_le64_eq; [|lia|lens]. replace p with (zlen C + (p - zlen C)) at 1 by lia.
  rewrite patch_zero_bytes ?zlen_le_bytes; [|lia..]. rewrite -!app_assoc. do 5 f_equal. lia.
Qed.

Lemma memcpy_zero (C data : bytes) m n :
  0 <= n <= m -> n <= zlen data ->
  memcpy (C ++ zero_bytes m) (zlen C) data 0 n = Ret (C ++ take (Z.to_nat n) data ++ zero_bytes (m - n)).
Proof.
  intros Hn Hd. pose proof (zlen_nonneg C).
  pose proof (patch_zero_bytes C (slice data 0 n) m 0) as Hp. rewrite zlen_slice in Hp; [|lia..].
  rewrite memcpy_eq; [|try lia; try lens..].
  rewrite -(Z.add_0_r (zlen C)) Hp; [|lia..]. unfold slice. by rewrite drop_0 Z.sub_0_r.
Qed.

(** *** One record and one section *)

(** The record of a section: one entry of the given id and type, resident at
    [iova]. *)
Definition load_record (id type iova size : Z) : bytes :=
  le_bytes 4 1 ++ le_bytes 4 id ++ le_bytes 4 type ++ zero_bytes 4 ++
  le_bytes 4 1 ++ zero_bytes 4 ++ le_bytes 8 iova ++ le_bytes 8 size.

Lemma zlen_load_record id type iova size : zlen (load_record id type iova size) = 40.
Proof. unfold load_record. by lens. Qed.

Lemma record_writes (C : bytes) m p id type iova size :
  zlen C <= p -> p + 40 <= zlen C + m ->
  (command ← put32 (C ++ zero_bytes m) p 1;
   command ← put32 command (p + 4) id;
   command ← put32 command (p + 8) type;
   command ← put32 command (p + 16) 1;
   command ← put64 command (p + 24) iova;
   put64 command (p + 32) size)
  = Ret ((C ++ zero_bytes (p - zlen C) ++ load_record id type iova size) ++ zero_bytes (zlen C + m - p - 40)).
Proof.
  intros Hk Hm.
  rewrite (put32_zero (zlen C)); [|done|lia..]. cbn [mbind res_bind].
  rewrite (put32_zero (p + 4)); [|lens..]. cbn [mbind res_bind].
  rewrite (put32_zero (p + 8)); [|lens..]. cbn [mbind res_bind].
  rewrite (put32_zero (p + 12)); [|lens..]. cbn [mbind res_bind].
  rewrite (put64_zero (p + 20)); [|lens..]. cbn [mbind res_bind].
  rewrite (put64_zero (p + 32)); [|lens..]. f_equal. unfold load_record.
  replace (p + 4 - (p + 4)) with 0 by lia. replace (p + 8 - (p + 8)) with 0 by lia.
  replace (p + 32 - (p + 32)) with 0 by lia. replace (p + 16 - (p + 12)) with 4 by lia.
  replace (p + 24 - (p + 20)) with 4 by lia. change (zero_bytes 0) with (@nil Z).
  rewrite ?app_nil_l -!app_assoc ?app_nil_l. do 11 f_equal. lia.
Qed.

(** ** What [validate] accepts *)

(** A loop that stops at the first [false]. *)
Lemma foldM_forallb {A} (f : A -> res bool) (g : A -> bool) (l : list A) b :
  (forall x, x ∈ l -> f x = Ret (g x)) ->
  foldM (fun ok x => if negb ok then Ret false else f x) b l = Ret (b && forallb g l).
Proof.
  revert b. induction l as [|x l IH]; intros b Hf; [by rewrite andb_true_r|].
  cbn [foldM forallb]. destruct b; cbn [negb andb].
  - rewrite Hf; [|left]. cbn [mbind res_bind]. rewrite IH; [done|]. intros y Hy. apply Hf. by right.
  - cbn [mbind res_bind]. rewrite IH; [done|]. intros y Hy. apply Hf. by right.
Qed.

(** A loop that stops at the first [true]. *)
Lemma foldM_existsb {A} (f : A -> res bool) (g : A -> bool) (l : list A) b :
  (forall x, x ∈ l -> f x = Ret (g x)) ->
  foldM (fun met x => if met : bool then Ret true else f x) b l = Ret (b || existsb g l).
Proof.
  revert b. induction l as [|x l IH]; intros b Hf; [by rewrite orb_false_r|].
  cbn [foldM existsb]. destruct b; cbn [orb].
  - cbn [mbind res_bind]. rewrite IH; [done|]. intros y Hy. apply Hf. by right.
  - rewrite Hf; [|left]. cbn [mbind res_bind]. rewrite IH; [done|]. intros y Hy. apply Hf. by right.
Qed.

Lemma elt_eq {A} (l : list A) i x : l !! Z.to_nat i = Some x -> elt l i = Ret x.
Proof. unfold elt. by intros ->. Qed.

(** The fields are 64-bit, and a payload points at as many bytes as it says. *)
Definition payload_typed (p : ane_h15_payload) : Prop :=
  0 <= pl_size p < 2 ^ 64 /\ forall d, pl_data p = Some d -> pl_size p <= zlen d.
Definition reloc_typed (r : ane_h15_relocation) : Prop := 0 <= rl_iova r < 2 ^ 64 /\ 0 <= rl_capacity r < 2 ^ 64.

(** What a section promises: its payload is there and has the size of its
    slot, and it is resident in whole 16 KiB pages that hold the payload and
    do not wrap. *)
Record section_ok (p : ane_h15_payload) (size : Z) (r : ane_h15_relocation) : Prop := {
  so_data : pl_data p <> None;
  so_size : pl_size p = size;
  so_iova : 0 < rl_iova r;
  so_aligned : (0x4000 | rl_iova r) /\ (0x4000 | rl_capacity r);
  so_room : size <= rl_capacity r;
  so_nowrap : rl_iova r + rl_capacity r < 2 ^ 64;
}.

Definition apart (a b : ane_h15_relocation) : Prop :=
  rl_iova a + rl_capacity a <= rl_iova b \/ rl_iova b + rl_capacity b <= rl_iova a.

Record load_valid (payload : list ane_h15_payload) (reloc : list ane_h15_relocation) : Prop := {
  lv_sections : forall i p size r,
    payload !! i = Some p -> payload_sizes !! i = Some size -> reloc !! i = Some r -> section_ok p size r;
  lv_apart : forall i j a b, i <> j -> reloc !! i = Some a -> reloc !! j = Some b -> apart a b;
}.

Lemma page_mask v : Z.land v 0x3fff = 0 <-> (0x4000 | v).
Proof.
  change 0x3fff with (Z.ones 14). rewrite Z.land_ones; [|lia]. change (2 ^ 14) with 0x4000.
  apply Z.mod_divide. lia.
Qed.

Lemma section_bad_ok p size r :
  reloc_typed r -> section_bad p size r = false <-> section_ok p size r.
Proof.
  intros [[Hi Hi'] [Hc Hc']]. unfold section_bad, U64_MAX. rewrite !orb_false_iff !negb_false_iff.
  rewrite bool_decide_eq_false !Z.eqb_eq Z.eqb_neq Z.ltb_ge Z.gtb_ltb Z.ltb_ge !page_mask. split.
  - intros ((((((Hd & Hs) & H0) & Ha) & Ha') & Hr) & Hw). split; try done; lia.
  - intros [Hd Hs H0 [Ha Ha'] Hr Hw]. repeat split; try done; lia.
Qed.

Lemma sections_meet_apart a b :
  reloc_typed a -> reloc_typed b ->
  rl_iova a + rl_capacity a < 2 ^ 64 -> rl_iova b + rl_capacity b < 2 ^ 64 ->
  sections_meet a b = false <-> apart a b.
Proof.
  intros [[] []] [[] []] Ha Hb. unfold sections_meet, apart. rewrite !(wrap_small 64); [|lia..].
  rewrite andb_false_iff !Z.ltb_ge. lia.
Qed.

Section load.
Context (payload : list ane_h15_payload) (reloc : list ane_h15_relocation).
Hypothesis Hpl : length payload = 6%nat.
Hypothesis Hrl : length reloc = 6%nat.
Hypothesis Hpt : Forall payload_typed payload.
Hypothesis Hrt : Forall reloc_typed reloc.

(** The checks of round [i] of the loop. *)
Definition round_ok (i : Z) : bool :=
  match payload !! Z.to_nat i, payload_sizes !! Z.to_nat i, reloc !! Z.to_nat i with
  | Some p, Some size, Some r =>
      negb (section_bad p size r) &&
      negb (existsb (fun j => from_option (sections_meet r) false (reloc !! Z.to_nat j)) (seqZ 0 i))
  | _, _, _ => false
  end.

Lemma section_lookups i :
  0 <= i < 6 -> exists p size r, payload !! Z.to_nat i = Some p /\ payload_sizes !! Z.to_nat i = Some size /\
    reloc !! Z.to_nat i = Some r.
Proof.
  intros Hi.
  destruct (lookup_lt_is_Some_2 payload (Z.to_nat i)) as [p Hp]; [lia|].
  destruct (lookup_lt_is_Some_2 payload_sizes (Z.to_nat i)) as [n Hn]; [simpl; lia|].
  destruct (lookup_lt_is_Some_2 reloc (Z.to_nat i)) as [r Hr]; [lia|]. by exists p, n, r.
Qed.

Lemma validate_rounds : validate payload reloc = Ret (forallb round_ok (seqZ 0 6)).
Proof.
  unfold validate, ANE_H15_LOAD_SECTIONS. rewrite (foldM_forallb _ round_ok); [done|].
  intros i Hi%elem_of_seqZ. destruct (section_lookups i) as (p & n & r & Hp & Hn & Hr); [lia|].
  rewrite (elt_eq _ _ _ Hp) (elt_eq _ _ _ Hn) (elt_eq _ _ _ Hr). cbn [mbind res_bind].
  unfold round_ok. rewrite Hp Hn Hr. destruct (section_bad p n r); [done|]. cbn [negb andb].
  rewrite (foldM_existsb _ (fun j => from_option (sections_meet r) false (reloc !! Z.to_nat j))); [done|].
  intros j Hj%elem_of_seqZ. destruct (section_lookups j) as (? & ? & rj & _ & _ & Hrj); [lia|].
  by rewrite (elt_eq _ _ _ Hrj) Hrj.
Qed.

Lemma rounds_valid : forallb round_ok (seqZ 0 6) = true <-> load_valid payload reloc.
Proof.
  rewrite forallb_forall. split.
  - intros Hall.
    assert (forall i p n r, payload !! i = Some p -> payload_sizes !! i = Some n -> reloc !! i = Some r ->
      section_ok p n r /\ forall j rj, (j < i)%nat -> reloc !! j = Some rj -> sections_meet r rj = false) as Hi.
    { intros i p n r Hp Hn Hr. pose proof (lookup_lt_Some _ _ _ Hr).
      specialize (Hall (Z.of_nat i)). unfold round_ok in Hall. rewrite Nat2Z.id Hp Hn Hr in Hall.
      apply andb_true_iff in Hall as [Hb Hm]; [|apply list_elem_of_In, elem_of_seqZ; lia].
      apply negb_true_iff in Hb, Hm. split.
      - apply section_bad_ok; [|done]. by eapply Forall_lookup_1.
      - intros j rj Hj Hrj. rewrite -not_true_iff_false in Hm. apply not_true_iff_false. intros He. apply Hm.
        apply existsb_exists. exists (Z.of_nat j). split; [apply list_elem_of_In, elem_of_seqZ; lia|].
        by rewrite Nat2Z.id Hrj. }
    assert (forall i j a b, (j < i)%nat -> reloc !! i = Some a -> reloc !! j = Some b -> apart a b) as Hap.
    { intros i j a b Hji Ha Hb. pose proof (lookup_lt_Some _ _ _ Ha).
      destruct (section_lookups (Z.of_nat i)) as (p & n & ? & Hp & Hn & _); [lia|].
      destruct (section_lookups (Z.of_nat j)) as (q & k & ? & Hq & Hk & _); [lia|].
      rewrite Nat2Z.id in Hp Hn. rewrite Nat2Z.id in Hq Hk.
      destruct (Hi i p n a Hp Hn Ha) as [Hsa Hm]. destruct (Hi j q k b Hq Hk Hb) as [Hsb _].
      apply sections_meet_apart; [by eapply Forall_lookup_1..|apply Hsa|apply Hsb|by eapply Hm]. }
    split; [intros; by eapply Hi|]. intros i j a b Hij Ha Hb.
    destruct (decide (j < i)%nat) as [Hlt|Hge]; [exact (Hap i j a b Hlt Ha Hb)|].
    assert (apart b a) as [?|?] by (apply (Hap j i b a); [lia|done..]); [by right|by left].
  - intros [Hs Hap] i Hi%list_elem_of_In%elem_of_seqZ.
    destruct (section_lookups i) as (p & n & r & Hp & Hn & Hr); [lia|].
    unfold round_ok. rewrite Hp Hn Hr. apply andb_true_iff. split; apply negb_true_iff.
    + apply section_bad_ok; [by eapply Forall_lookup_1|by eapply Hs].
    + apply not_true_iff_false. intros (j & Hj%list_elem_of_In%elem_of_seqZ & Hm)%existsb_exists.
      destruct (section_lookups j) as (q & k & rj & Hq & Hk & Hrj); [lia|]. rewrite Hrj in Hm. cbn in Hm.
      enough (sections_meet r rj = false) by congruence.
      apply sections_meet_apart; [by eapply Forall_lookup_1..| | |].
      * exact (so_nowrap _ _ _ (Hs _ _ _ _ Hp Hn Hr)).
      * exact (so_nowrap _ _ _ (Hs _ _ _ _ Hq Hk Hrj)).
      * eapply (Hap (Z.to_nat i) (Z.to_nat j)); [lia|done..].
Qed.

(** ** What a successful load holds *)

(** A payload in the storage, padded to eight bytes. *)
Definition stored_payload (p : ane_h15_payload) : bytes :=
  take (Z.to_nat (pl_size p)) (default [] (pl_data p)) ++ zero_bytes (align8 (pl_size p) - pl_size p).

Definition load_sections : list (option Z) := [Some 0; Some 664; Some 17048; Some 17336; Some 18376; Some 18432].

(** The word at 4, the six records with the gaps between them, and the tail. *)
Definition load_command_bytes : bytes :=
  match payload, reloc with
  | [p0; p1; p2; p3; p4; p5], [r0; r1; r2; r3; r4; r5] =>
      zero_bytes 4 ++ le_bytes 4 0x200 ++
      load_record 1002 4 (rl_iova r0) 664 ++ zero_bytes 8 ++
      load_record 4 3 (rl_iova r1) 16384 ++ zero_bytes 8 ++
      load_record 3 4 (rl_iova r2) 284 ++ zero_bytes 8 ++
      load_record 1003 4 (rl_iova r3) 1040 ++ zero_bytes 8 ++
      load_record 1004 4 (rl_iova r4) 56 ++ zero_bytes 56 ++
      load_record 1005 4 (rl_iova r5) 40 ++ zero_bytes 112
  | _, _ => []
  end.

End load.

Lemma zlen_stored p data n a :
  payload_typed p -> pl_data p = Some data -> pl_size p = n -> align8 n = a -> 0 <= n <= a -> zlen (stored_payload p) = a.
Proof.
  intros [_ Ht] Hd Hn Ha Hna. specialize (Ht data Hd). unfold stored_payload. rewrite Hd Hn Ha zlen_app zlen_zero_bytes.
  change (default [] (Some data)) with data. unfold zlen in *. rewrite length_take. lia.
Qed.

Lemma load_section_eq payload reloc (A C : bytes) nA nC section i p r data at_ id type n a k k' m m' :
  Forall payload_typed payload -> payload !! Z.to_nat i = Some p -> reloc !! Z.to_nat i = Some r ->
  record_offsets !! Z.to_nat i = Some at_ -> ids !! Z.to_nat i = Some id -> types !! Z.to_nat i = Some type ->
  pl_data p = Some data -> pl_size p = n -> align8 n = a -> 0 <= n <= a -> nA + a < 2 ^ 64 ->
  zlen A = nA -> zlen C = nC -> k = a + k' -> nC + m = at_ + 40 + m' -> nC <= at_ -> 0 <= k' -> 0 <= m' ->
  let A' := A ++ stored_payload p in
  let C' := C ++ zero_bytes (at_ - nC) ++ load_record id type (rl_iova r) n in
  load_section payload reloc (A ++ zero_bytes k, section, C ++ zero_bytes m, nA) i =
    Ret (A' ++ zero_bytes k', section ++ [Some nA], C' ++ zero_bytes m', nA + a) /\
  zlen A' = nA + a /\ zlen C' = at_ + 40.
Proof.
  intros Hpt Hp Hr Ho Hid Hty Hd Hn Ha Hna H64 HA HC Hk Hm Hat Hk' Hm' A' C'. pose proof (zlen_nonneg A).
  pose proof (Forall_lookup_1 _ _ _ _ Hpt Hp) as Ht. pose proof (zlen_stored p data n a Ht Hd Hn Ha Hna) as Hst.
  assert (n <= zlen data) as Hdl by (rewrite -Hn; by apply Ht).
  split; [|split; unfold A', C'; [rewrite zlen_app Hst; lia|]; rewrite (zlen_app C) (zlen_app (zero_bytes _)) zlen_load_record zlen_zero_bytes; lia].
  unfold load_section. rewrite (elt_eq _ _ _ Hp) (elt_eq _ _ _ Hr) (elt_eq _ _ _ Ho) (elt_eq _ _ _ Hid) (elt_eq _ _ _ Hty).
  cbn [mbind res_bind]. rewrite Hd Hn -HA memcpy_zero; [|lia..]. cbn [mbind res_bind].
  pose proof (record_writes C m at_ id type (rl_iova r) n ltac:(lia) ltac:(lia)) as Hrec.
  destruct (put32 (C ++ zero_bytes m) at_ 1) as [c1| |]; [|done..]. cbn [mbind res_bind] in *.
  destruct (put32 c1 (at_ + 4) id) as [c2| |]; [|done..]. cbn [mbind res_bind] in *.
  destruct (put32 c2 (at_ + 8) type) as [c3| |]; [|done..]. cbn [mbind res_bind] in *.
  destruct (put32 c3 (at_ + 16) 1) as [c4| |]; [|done..]. cbn [mbind res_bind] in *.
  destruct (put64 c4 (at_ + 24) (rl_iova r)) as [c5| |]; [|done..]. cbn [mbind res_bind] in *.
  rewrite Hrec. cbn [mbind res_bind]. rewrite Ha (wrap_small 64); [|lia]. rewrite HC.
  replace (nC + m - at_ - 40) with m' by lia.
  assert (A ++ take (Z.to_nat n) data ++ zero_bytes (k - n) = A' ++ zero_bytes k') as ->; [|done].
  unfold A', stored_payload. rewrite Hd Hn Ha. change (default [] (Some data)) with data. rewrite -!app_assoc. do 2 f_equal.
  unfold zero_bytes. rewrite -replicate_add. f_equal. lia.
Qed.

(** One round of the loop, from the state the previous one left. *)
Ltac next_section Hpt i p r d nC at_ id type n a k' m' :=
  match goal with
  | |- context [load_section ?pl ?rl (?A ++ zero_bytes ?k, ?s, ?C ++ zero_bytes ?m, ?nA) i] =>
      let HS := fresh "HS" in
      destruct (load_section_eq pl rl A C nA nC s i p r d at_ id type n a k k' m m' Hpt) as (HS & ? & ?);
        [reflexivity|reflexivity|reflexivity|reflexivity|reflexivity|assumption|assumption|reflexivity|lia|lia|
         assumption|assumption|reflexivity|reflexivity|lia|lia|lia|];
      rewrite HS; clear HS
  end.

Lemma load_fold payload reloc :
  length payload = 6%nat -> length reloc = 6%nat -> Forall payload_typed payload -> load_valid payload reloc ->
  foldM (load_section payload reloc) (zero_bytes 18472, [], zero_bytes 4 ++ le_bytes 4 0x200 ++ zero_bytes 440, 0) (seqZ 0 6)
  = Ret (flat_map stored_payload payload, load_sections, load_command_bytes payload reloc, 18472).
Proof.
  intros Hpl Hrl Hpt [Hs _].
  destruct payload as [|p0 [|p1 [|p2 [|p3 [|p4 [|p5 [|]]]]]]]; try done.
  destruct reloc as [|r0 [|r1 [|r2 [|r3 [|r4 [|r5 [|]]]]]]]; try done.
  assert (forall i p n r, [p0; p1; p2; p3; p4; p5] !! i = Some p -> payload_sizes !! i = Some n ->
    [r0; r1; r2; r3; r4; r5] !! i = Some r -> exists d, pl_data p = Some d /\ pl_size p = n) as Hd.
  { intros i p n r Hp Hn Hr. destruct (Hs i p n r Hp Hn Hr) as [Hd Hz _ _ _ _].
    destruct (pl_data p) as [d|]; [by exists d|done]. }
  destruct (Hd 0%nat _ _ _ eq_refl eq_refl eq_refl) as (d0 & ? & ?), (Hd 1%nat _ _ _ eq_refl eq_refl eq_refl) as (d1 & ? & ?),
    (Hd 2%nat _ _ _ eq_refl eq_refl eq_refl) as (d2 & ? & ?), (Hd 3%nat _ _ _ eq_refl eq_refl eq_refl) as (d3 & ? & ?),
    (Hd 4%nat _ _ _ eq_refl eq_refl eq_refl) as (d4 & ? & ?), (Hd 5%nat _ _ _ eq_refl eq_refl eq_refl) as (d5 & ? & ?).
  clear Hd Hs Hpl Hrl. change (seqZ 0 6) with [0; 1; 2; 3; 4; 5]. cbn [foldM].
  rewrite (app_assoc (zero_bytes 4)). change (zero_bytes 18472) with (@nil Z ++ zero_bytes 18472).
  assert (zlen (@nil Z) = 0) as HA by done. assert (zlen (zero_bytes 4 ++ le_bytes 4 0x200) = 8) as HC by done.
  next_section Hpt 0 p0 r0 d0 8 8 1002 4 664 664 17808 400. cbn [mbind res_bind].
  next_section Hpt 1 p1 r1 d1 48 56 4 3 16384 16384 1424 352. cbn [mbind res_bind].
  next_section Hpt 2 p2 r2 d2 96 104 3 4 284 288 1136 304. cbn [mbind res_bind].
  next_section Hpt 3 p3 r3 d3 144 152 1003 4 1040 1040 96 256. cbn [mbind res_bind].
  next_section Hpt 4 p4 r4 d4 192 200 1004 4 56 56 40 208. cbn [mbind res_bind].
  next_section Hpt 5 p5 r5 d5 240 296 1005 4 40 40 0 112. cbn [mbind res_bind].
  unfold load_command_bytes, load_sections. cbn [flat_map app]. change (zero_bytes 0) with (@nil Z).
  change (zero_bytes (8 - 8)) with (@nil Z). change (56 - 48) with 8. change (104 - 96) with 8. change (152 - 144) with 8.
  change (200 - 192) with 8. change (296 - 240) with 56. rewrite -!app_assoc ?app_nil_r ?app_nil_l. reflexivity.
Qed.

(** C32. [ane_h15_load_build] answers exactly as its comment promises, for any
    six payloads and relocations and any owner, and never leaves a buffer. An
    owner that already holds a load is busy. Otherwise the call is invalid
    exactly when some payload is missing or not of its slot's size, some range
    is null, not of whole 16 KiB pages, too small or past the address space, or
    two ranges overlap (the test in wrapping arithmetic is the one on integers).
    An error leaves the owner as it was. A success owns one copy of each
    payload, padded to eight bytes, each section pointing at its copy, and the
    command is, byte for byte, the load opcode and the six records with the
    ids, types, addresses and sizes of their sections, and zero elsewhere. *)
Theorem h15_load_exact calloc payload reloc o :
  length payload = 6%nat -> length reloc = 6%nat -> Forall payload_typed payload -> Forall reloc_typed reloc ->
  let call := ane_h15_load_build calloc (Some payload) (Some reloc) (Some o) in
  (l_storage o <> None -> call = Ret (Some o, Some EBUSY)) /\
  (l_storage o = None -> ~ load_valid payload reloc -> call = Ret (Some o, Some EINVAL)) /\
  (l_storage o = None -> load_valid payload reloc ->
   call = if calloc then
            Ret (Some (H15Load (Some (flat_map stored_payload payload)) load_sections (load_command_bytes payload reloc)), None)
          else Ret (Some o, Some ENOMEM)).
Proof.
  intros Hpl Hrl Hpt Hrt call. unfold call, ane_h15_load_build.
  pose proof (rounds_valid payload reloc Hpl Hrl Hrt) as Hv. rewrite (validate_rounds payload reloc Hpl Hrl).
  split_and!; intros Ho; [by rewrite bool_decide_eq_false_2|rewrite bool_decide_eq_true_2; [|done]; intros Hval..].
  - cbn [negb mbind res_bind]. destruct (forallb _ _); [|done]. by destruct Hval; apply Hv.
  - cbn [negb mbind res_bind]. rewrite (proj2 Hv Hval). change storage_size with (Ret 18472).
    cbn [negb mbind res_bind]. destruct calloc; [|done]. cbn [negb]. unfold ANE_H15_LOAD_COMMAND_BYTES.
    change (zero_bytes 0x1c0) with (@nil Z ++ zero_bytes 0x1c0). rewrite (put32_zero 0); [|done|lia..].
    cbn [mbind res_bind]. pose proof (load_fold payload reloc Hpl Hrl Hpt Hval) as Hf.
    unfold ANE_H15_LOAD_SECTIONS. rewrite app_nil_l -app_assoc. by rewrite Hf.
Qed.

(** A load whose six sections lie in six consecutive pages. *)
Definition sample_payload : list ane_h15_payload := map (fun n => H15Payload (Some (zero_bytes n)) n) payload_sizes.
Definition sample_reloc : list ane_h15_relocation := map (fun i => H15Reloc (0x4000 * i) 0x4000) [1; 2; 3; 4; 5; 6].

Lemma h15_load_exact_witness :
  ane_h15_load_build true (Some sample_payload) (Some sample_reloc) (Some load0) =
  Ret (Some (H15Load (Some (flat_map stored_payload sample_payload)) load_sections (load_command_bytes sample_payload sample_reloc)), None).
Proof.
  assert (Forall payload_typed sample_payload) as Hpt.
  { repeat constructor; cbn [pl_size pl_data]; try lia; intros d [= <-]; rewrite zlen_zero_bytes; lia. }
  assert (Forall reloc_typed sample_reloc) as Hrt by (repeat constructor; cbn; lia).
  apply (h15_load_exact true sample_payload sample_reloc load0 eq_refl eq_refl Hpt Hrt); [reflexivity|].
  apply (rounds_valid sample_payload sample_reloc eq_refl eq_refl Hrt). reflexivity.
Defined.

(** Two overlapping ranges are refused: the second starts in the first's
    second page. *)
Lemma sample_overlap :
  ane_h15_load_build true (Some sample_payload)
    (Some (H15Reloc 0x4000 0x8000 :: H15Reloc 0x8000 0x4000 :: drop 2 sample_reloc)) (Some load0) = Ret (Some load0, Some EINVAL).
Proof. reflexivity. Qed.

(** ** Staging a firmware *)

Section firmware.
Context `{ArmSha2} (hw : bool) (buf0 : bytes).
Hypothesis Hbuf : zlen buf0 = 64.
Hypothesis Hbok : bytes_ok buf0.

Lemma ane_sha256_fips payload :
  bytes_ok payload -> 8 * zlen payload < 2 ^ 64 ->
  ane_sha256 hw buf0 payload (zlen payload) = Ret (fips_sha256 payload).
Proof.
  intros Hok H64. pose proof (zlen_nonneg payload). unfold ane_sha256.
  destruct (twp_ex _ _ (update_absorbed (ane_sha256_init hw buf0) [] payload (zlen payload)
    (absorbed_init hw buf0 Hbuf Hbok) Hok ltac:(lia) ltac:(lia))) as (c & -> & Hab).
  cbn [mbind res_bind]. rewrite app_nil_l in Hab.
  assert (slice payload 0 (zlen payload) = payload) as Hs.
  { unfold slice, zlen. rewrite drop_0 Nat2Z.id. by apply take_ge. }
  rewrite Hs in Hab. destruct (final_absorbed c payload Hab Hok H64) as [c' ->]. done.
Qed.

(** The two segments of the file, one after the other, and the zero fill. *)
Definition fw_image (y : fw_layout) (payload : bytes) : bytes :=
  slice payload (text_file y) (text_size y) ++ slice payload (data_file y) (data_file_size y) ++
  zero_bytes (image_size y - text_size y - data_file_size y).

Record layout_fits (y : fw_layout) (size : Z) : Prop := {
  lf_text : 0 <= text_file y /\ 0 <= text_size y /\ text_file y + text_size y <= size;
  lf_data : 0 <= data_file y /\ 0 <= data_file_size y /\ data_file y + data_file_size y <= size;
  lf_image : text_size y + data_file_size y <= image_size y;
}.

Lemma fw_copy_image y payload :
  layout_fits y (zlen payload) -> fw_copy y (zero_bytes (image_size y)) payload = Ret (fw_image y payload).
Proof.
  intros [Ht Hd Hi]. unfold fw_copy. rewrite memcpy_eq; [|try lia; lens..]. cbn [mbind res_bind].
  pose proof (patch_zero_bytes [] (slice payload (text_file y) (text_size y)) (image_size y) 0) as Hp.
  rewrite zlen_slice in Hp; [|lia..]. change (zlen (@nil Z) + 0) with 0 in Hp. rewrite !app_nil_l in Hp.
  rewrite Hp; [|lia..]. change (zero_bytes 0) with (@nil Z). rewrite ?app_nil_l Z.sub_0_r.
  pose proof (patch_zero_bytes (slice payload (text_file y) (text_size y))
    (slice payload (data_file y) (data_file_size y)) (image_size y - text_size y) 0) as Hq.
  rewrite !zlen_slice in Hq; [|lia..]. rewrite Z.add_0_r in Hq.
  rewrite memcpy_eq; [|try lia; rewrite zlen_app zlen_slice ?zlen_zero_bytes; lia..].
  rewrite Hq; [|lia..]. change (zero_bytes 0) with (@nil Z). by rewrite ?app_nil_l Z.sub_0_r.
Qed.

(** What staging answers. *)
Definition stage_answer (y : fw_layout) (calloc : bool) (pin : option (bytes * Z)) (payload : bytes) (o : ane_fw_owner)
    : option ane_fw_owner * option errno :=
  match pin with
  | None => (Some o, Some ENODEV)
  | Some (sha256, size) =>
      if negb (zlen payload =? size) then (Some o, Some EINVAL)
      else if decide (fi_storage o <> None) then (Some o, Some EBUSY)
      else if decide (fips_sha256 payload <> sha256) then (Some o, Some EBADMSG)
      else if calloc then (Some (FwOwner (Some (fw_image y payload)) (image_size y) 0), None)
      else (Some o, Some ENOMEM)
  end.

Lemma fw_stage_answer y calloc pin payload o :
  (forall sha256 size, pin = Some (sha256, size) -> layout_fits y size) -> bytes_ok payload -> 8 * zlen payload < 2 ^ 64 ->
  fw_stage hw buf0 y calloc pin (Some payload) (zlen payload) (Some o) = Ret (stage_answer y calloc pin payload o).
Proof.
  intros Hfit Hok H64. unfold fw_stage, stage_answer. destruct pin as [[sha256 size]|]; [|done].
  destruct (Z.eqb_spec (zlen payload) size) as [Hz|]; [|done]. cbn [negb].
  destruct (decide (fi_storage o <> None)) as [Ho|Ho]; [by rewrite bool_decide_eq_false_2|].
  rewrite bool_decide_eq_true_2; [|by apply dec_stable]. cbn [negb]. rewrite (ane_sha256_fips payload Hok H64).
  cbn [mbind res_bind]. destruct (decide (fips_sha256 payload <> sha256)) as [Hd|Hd]; [by rewrite bool_decide_eq_false_2|].
  rewrite bool_decide_eq_true_2; [|by apply dec_stable]. cbn [negb]. destruct calloc; [|done]. cbn [negb].
  rewrite fw_copy_image; [done|]. rewrite Hz. by apply (Hfit sha256).
Qed.

Lemma h15_pins_fit soc engine p : ane_h15_fw_for_engine soc engine = Some p -> layout_fits ane_h15_layout (h15_size p).
Proof.
  unfold ane_h15_fw_for_engine. intros Hp. enough (h15_size p = 1605632) as -> by (split; cbn; lia).
  repeat case_match; simplify_eq/=; done.
Qed.

(** Staging a firmware, of the H15 and of the H18 family: for every SoC,
    engine and payload the call never leaves the payload or the image, and
    answers in the order of the checks. No pin for the engine is no device; a
    size other than the pin's is invalid; an owner that holds an image is
    busy; a payload whose standard digest is not the pinned one is a bad
    message; and an error leaves the owner as it was. A success owns the image
    of the family: the text segment of the file at the start, the data segment
    right after it, and zeros up to the size of the image. *)
Theorem firmware_stage_exact calloc soc engine payload o :
  bytes_ok payload -> 8 * zlen payload < 2 ^ 64 ->
  ane_h15_firmware_stage hw buf0 calloc soc engine (Some payload) (zlen payload) (Some o) =
    Ret (stage_answer ane_h15_layout calloc ((fun pin => (h15_sha256 pin, h15_size pin)) <$> ane_h15_fw_for_engine soc engine) payload o) /\
  ane_h18_firmware_stage hw buf0 calloc soc engine (Some payload) (zlen payload) (Some o) =
    Ret (stage_answer ane_h18_layout calloc
      (if decide (soc = 0x8152 /\ engine = 0) then Some (h18_sha256 ane_fw_t8152_ane0, h18_size ane_fw_t8152_ane0)
       else None) payload o).
Proof.
  intros Hok H64. split.
  { apply fw_stage_answer; [|done..]. intros sha size (p & Hp & [= -> ->])%fmap_Some. exact (h15_pins_fit soc engine p Hp). }
  unfold ane_h18_firmware_stage.
  set (pin := (h18_sha256 ane_fw_t8152_ane0, h18_size ane_fw_t8152_ane0)).
  assert ((if negb (soc =? 0x8152) || negb (engine =? 0) then None else Some pin) =
    (if decide (soc = 0x8152 /\ engine = 0) then Some pin else None)) as ->.
  { destruct (decide _) as [[-> ->]|Hn]; [done|].
    destruct (Z.eqb_spec soc 0x8152), (Z.eqb_spec engine 0); cbn [negb orb]; tauto. }
  apply fw_stage_answer; [|done..]. intros sha size. destruct (decide _); [|done]. intros [= _ <-]. split; cbn; lia.
Qed.

End firmware.

(** The two engines of the T6032 have different pins, and no other SoC has a
    second engine. *)
Lemma second_engine soc p : ane_h15_fw_for_engine soc 1 = Some p -> soc = 0x6032 /\ p = ane_fw_t6032_ane1.
Proof.
  unfold ane_h15_fw_for_engine. destruct (Z.eqb_spec soc 0x6032); cbn; [|done]. by intros [= <-].
Qed.

(** A payload of the wrong size, on each family's engine. *)
Lemma firmware_stage_exact_witness :
  @ane_h15_firmware_stage arm_pseudocode true (replicate 64 0) true 0x6032 1 (Some [1; 2]) 2 (Some (FwOwner None 0 0)) =
    Ret (Some (FwOwner None 0 0), Some EINVAL) /\
  @ane_h18_firmware_stage arm_pseudocode true (replicate 64 0) true 0x8152 0 (Some [1; 2]) 2 (Some (FwOwner None 0 0)) =
    Ret (Some (FwOwner None 0 0), Some EINVAL).
Proof.
  pose proof (fun soc engine => @firmware_stage_exact arm_pseudocode true (replicate 64 0) eq_refl ltac:(vm_decide) true
    soc engine [1; 2] (FwOwner None 0 0) ltac:(vm_decide) ltac:(done)) as Hs.
  split; [apply (Hs 0x6032 1)|apply (Hs 0x8152 0)].
Defined.
