(* ===== verification/M2Walk.v ===== *)
(** * libane/ane_m2.c: the H14 task stream

    Splitting of the task stream into tasks, the walk of a task's records,
    the rules that give each BAR slot its buffer, and the derivation of the
    operation refs of a whole program. *)

From S2P Require Import Prelude.

(** ** Constants *)

Definition FRAME_BYTES : Z := 16.
Definition ANE_M2_MAX_BINDS : Z := 64.
Definition ANE_M2_MAX_CALLS : Z := 128.
Definition ANE_M2_MAX_TASKS : Z := ANE_M2_MAX_CALLS.
Definition TD_KDMA_LO : Z := 0x1900.
Definition TD_KDMA_HI : Z := 0x1a40.
Definition TD_DST : Z := 0x1508.
Definition TD_SRC_A : Z := 0x1110.
Definition TD_SRC_B : Z := 0x1128.
Definition ANE_M2_SCRATCH_BUFID : Z := 0x40.

(** Every [fail(...)] returns [-EINVAL]. *)
Abbreviation fail := (Fail EINVAL).

(** ** [split_h14_tasks] *)

Record ane_task := Task { off : Z; words : Z }.

(** [for (i = lo; i < hi; i++) if (stream[i]) return fail(..)]. *)
Definition check_zero (stream : bytes) (lo hi : Z) : res unit :=
  foldM (fun _ i => b ← rd8 stream i; guard_fail (negb (b =? 0)) EINVAL) tt (seqZ lo (hi - lo)).

Definition split_body (stream : bytes) (nbytes cap : Z) (s : Z * list ane_task)
    : res ((Z * list ane_task) + list ane_task) :=
  let '(off, tasks) := s in
  if off <? nbytes then
    if nbytes - off <? 4 then
      check_zero stream off nbytes;; Ret (inr tasks)
    else
      w ← le16 stream (off + 2);
      let words := Z.land w 0x7ff in
      if words =? 0 then
        let off := off + FRAME_BYTES in
        Ret (inl (if off >? nbytes then nbytes else off, tasks))
      else
        guard_fail (words <? 8) EINVAL;;
        let task_bytes := words * 4 in
        guard_fail (task_bytes >? nbytes - off) EINVAL;;
        let end_ := Z.land (off + task_bytes + 15) (Z.lnot 15) in
        let end_ := if end_ >? nbytes then nbytes else end_ in
        check_zero stream (off + task_bytes) end_;;
        guard_fail (zlen tasks =? cap) EINVAL;;
        Ret (inl (end_, tasks ++ [Task off words]))
  else Ret (inr tasks).

(** Each iteration advances by at least one byte. *)
Definition split_h14_tasks (stream : bytes) (nbytes cap : Z) : res (list ane_task) :=
  loop (S (Z.to_nat nbytes)) (split_body stream nbytes cap) (0, []).

(** ** The records of a task *)

(** [__builtin_popcount] of a 32-bit value. *)
Definition popcount (x : Z) : Z :=
  foldr Z.add 0 ((fun i => Z.b2z (Z.testbit x i)) <$> seqZ 0 32).

(** Payload words of the record headed by [h]. *)
Definition rec_count (h : Z) : Z :=
  if negb (Z.land h 0x80000000 =? 0)
  then 1 + popcount (Z.land (Z.shiftr h 15) 0xffff)
  else Z.land (Z.shiftr h 15) 0x3f + 1.

(** A dense record with bit 29 set: a BAR reference. *)
Definition is_bar_ref (h : Z) : bool :=
  (Z.land h 0x80000000 =? 0) && negb (Z.land h 0x20000000 =? 0).

Definition bar_slot (h : Z) : Z := Z.land (Z.shiftr h 23) 0x3f.
Definition bar_addr (h : Z) : Z := Z.land h 0x7fff * 4.

(** The record loop that [refs_of_task], [derive_refs], [scratch_size_bytes]
    and [check_bound_slots] share: [f s h idx n] handles the record of header
    [h] at word [idx] with [n] payload words. *)
Definition walk_body {S} (stream : bytes) (t : ane_task)
    (f : S -> Z -> Z -> Z -> res S) (s : Z * S) : res ((Z * S) + S) :=
  let '(idx, s) := s in
  if idx <? words t then
    h ← le32 stream (off t + idx * 4);
    let n := rec_count h in
    guard_fail (idx + 1 + n >? words t) EINVAL;;
    s ← f s h idx n;
    Ret (inl (idx + (1 + n), s))
  else Ret (inr s).

(** The first record: word 8, or 9 when the low bits of word 7 are set. *)
Definition first_record (w7 : Z) : Z := if Z.land w7 3 =? 3 then 9 else 8.

Definition walk_task {S} (stream : bytes) (t : ane_task)
    (f : S -> Z -> Z -> Z -> res S) (s : S) : res S :=
  w7 ← le32 stream (off t + 28);
  loop (Datatypes.S (Z.to_nat (words t))) (walk_body stream t f) (first_record w7, s).

(** First payload word of the record at [idx]. *)
Definition payload0 (stream : bytes) (t : ane_task) (idx : Z) : res Z :=
  le32 stream (off t + (idx + 1) * 4).

(** ** The io table and the two tag rules *)

Record ane_m2_io := Io { buffer_id : Z; dir : Z; io_size : Z }.
Record ane_m2_ref := Ref { r_slot : Z; r_tag : Z; r_addr : Z; r_payload0 : Z }.

Definition pick_smallest_fit_channel (io : list ane_m2_io) (d reach : Z) : option Z :=
  let '(best, _) :=
    fold_left (fun '(best, best_size) e =>
        let s := io_size e in
        if negb (dir e =? d) then (best, best_size)
        else if s <? reach then (best, best_size)
        else if (s <? best_size) || ((s =? best_size) && (buffer_id e <? best))
        then (buffer_id e, s)
        else (best, best_size))
      io (U32_MAX, U64_MAX) in
  if best =? U32_MAX then None else Some best.

(** The smallest output of a single-ref destination slot. *)
Definition smallest_output (io : list ane_m2_io) : option Z :=
  let '(_, best_bufid) :=
    fold_left (fun '(best, best_bufid) e =>
        if negb (dir e =? 1) then (best, best_bufid)
        else if io_size e <? best then (io_size e, buffer_id e)
        else (best, best_bufid))
      io (U64_MAX, U32_MAX) in
  if best_bufid =? U32_MAX then None else Some best_bufid.

Definition or_fail (o : option Z) : res Z :=
  match o with Some t => Ret t | None => fail end.

Definition is_src (addr : Z) : bool := (addr =? TD_SRC_A) || (addr =? TD_SRC_B).
Definition is_kdma (addr : Z) : bool := (addr >=? TD_KDMA_LO) && (addr <? TD_KDMA_HI).

Definition bar_ref_tag_extents (addr slot max_offset_dst max_offset_src slot_chunk_dst
    slot_chunk_src slot_max_in_alloc_src : Z) (is_matmul : bool) (scratch_bufid : Z)
    (io : list ane_m2_io) : res Z :=
  if is_kdma addr then Ret 2
  else if addr =? TD_DST then
    let reach := u64 (max_offset_dst + slot_chunk_dst) in
    if slot_chunk_dst =? 0 then or_fail (smallest_output io)
    else
      match pick_smallest_fit_channel io 1 reach with
      | Some t => Ret t
      | None =>
          match pick_smallest_fit_channel io 1 max_offset_dst with
          | Some t => Ret t
          | None => if negb (scratch_bufid =? 0) then Ret scratch_bufid else fail
          end
      end
  else if is_src addr then
    if slot <=? 1 then Ret 2
    else if is_matmul then Ret slot
    else
      let reach := if slot_chunk_src =? 0
                   then u64 (max_offset_src + slot_max_in_alloc_src)
                   else u64 (max_offset_src + slot_chunk_src) in
      or_fail (pick_smallest_fit_channel io 0 reach)
  else fail.

Definition bar_ref_tag_legacy (addr slot : Z) : res Z :=
  if is_kdma addr then Ret 2
  else if addr =? TD_DST then Ret 4
  else if is_src addr then
    if slot <=? 1 then Ret 2
    else if slot <=? 3 then fail
    else Ret (if addr =? TD_SRC_A then 5 else 6)
  else fail.

(** ** [refs_of_task] *)

(** [a[slot]] of a 64-entry table. *)
Definition at64 {A} (d : A) (l : list A) (slot : Z) : A := default d (l !! Z.to_nat slot).

(** The offsets seen at one slot through one register class. *)
Record track := Track {
  tk_max : Z;    (* slot_max_offset_x *)
  tk_chunk : Z;  (* slot_chunk_x *)
  tk_a : Z;      (* slot_off_x_a *)
  tk_b : Z;      (* slot_off_x_b *)
  tk_n : Z;      (* slot_off_x_n *)
}.

Definition track0 : track := Track 0 0 0 0 0.

(** What pass 1 leaves for pass 2. *)
Record slot_info := SlotInfo {
  si_dst : list track;
  si_src : list track;
  si_rank_srcA : list Z;
  si_rank_blend : list Z;
  si_max_in_alloc : Z;
  si_blend_mode : bool;
  si_matmul : bool;
}.

(** The tag of the BAR ref of register [addr] at [slot]. *)
Definition ref_tag (legacy : bool) (io : list ane_m2_io) (si : slot_info) (scratch_bufid : Z)
    (slot addr : Z) : res Z :=
  let blend := negb legacy && si_blend_mode si && is_src addr && (slot >? 1) in
  if blend && negb (at64 U32_MAX (si_rank_blend si) slot =? U32_MAX) then
    Ret (at64 U32_MAX (si_rank_blend si) slot)
  else if blend then
    guard_fail (scratch_bufid =? 0) EINVAL;; Ret scratch_bufid
  else if negb legacy && (si_matmul si || si_blend_mode si) then
    bar_ref_tag_extents addr slot (tk_max (at64 track0 (si_dst si) slot))
      (tk_max (at64 track0 (si_src si) slot)) (tk_chunk (at64 track0 (si_dst si) slot))
      (tk_chunk (at64 track0 (si_src si) slot)) (si_max_in_alloc si) (si_matmul si)
      scratch_bufid io
  else bar_ref_tag_legacy addr slot.

(** One record of the walk: the refs of the task so far, deduplicated by
    slot. *)
Definition ref_record (stream : bytes) (t : ane_task) (legacy : bool) (io : list ane_m2_io)
    (si : slot_info) (scratch_bufid : Z) (out : list ane_m2_ref) (h idx n : Z)
    : res (list ane_m2_ref) :=
  if is_bar_ref h then
    guard_fail (negb (Z.land h 0x10000000 =? 0)) EINVAL;;
    let slot := bar_slot h in
    let addr := bar_addr h in
    p0 ← payload0 stream t idx;
    guard_fail ((addr =? TD_SRC_A) && (at64 U32_MAX (si_rank_srcA si) slot =? U32_MAX)) EINVAL;;
    tag ← ref_tag legacy io si scratch_bufid slot addr;
    if existsb (fun r => r_slot r =? slot) out then Ret out
    else
      guard_fail (zlen out =? ANE_M2_MAX_BINDS) EINVAL;;
      Ret (out ++ [Ref slot tag addr p0])
  else Ret out.

Definition refs_of_task (stream : bytes) (legacy : bool) (io : list ane_m2_io) (si : slot_info)
    (scratch_bufid : Z) (t : ane_task) : res (list ane_m2_ref) :=
  walk_task stream t (ref_record stream t legacy io si scratch_bufid) [].

Definition scratch_eligible_addr (addr : Z) : bool :=
  (addr =? TD_DST) || is_kdma addr || is_src addr.

(** ** [derive_refs]: pass 1 *)

(** The offset bookkeeping of one ref, the same code for the destination and
    the two source registers. *)
Definition track_offset (k : track) (p0 : Z) : track :=
  let mx := if p0 >? tk_max k then p0 else tk_max k in
  if tk_n k =? 0 then Track mx (tk_chunk k) p0 (tk_b k) 1
  else if tk_n k =? 1 then
    let diff := if p0 >? tk_a k then p0 - tk_a k else tk_a k - p0 in
    Track mx diff (tk_a k) p0 2
  else
    let diff := if p0 >? tk_b k then p0 - tk_b k else tk_b k - p0 in
    Track mx (if diff <? tk_chunk k then diff else tk_chunk k) (tk_a k) p0 (tk_n k).

Record pass1 := Pass1 {
  p_dst : list track;
  p_src : list track;
  p_has_dst : list bool;
  p_rank_srcA : list Z;
  p_rank_srcB : list Z;
  srcA_slots : list Z;
  srcB_slots : list Z;
}.

Definition upd64 {A} (l : list A) (slot : Z) (x : A) : list A := <[Z.to_nat slot := x]> l.

Definition pass1_dst (s : pass1) (slot p0 : Z) : pass1 :=
  Pass1 (upd64 (p_dst s) slot (track_offset (at64 track0 (p_dst s) slot) p0)) (p_src s)
    (upd64 (p_has_dst s) slot true) (p_rank_srcA s) (p_rank_srcB s) (srcA_slots s) (srcB_slots s).

Definition pass1_srcA (s : pass1) (slot p0 : Z) : res pass1 :=
  let src := upd64 (p_src s) slot (track_offset (at64 track0 (p_src s) slot) p0) in
  if at64 U32_MAX (p_rank_srcA s) slot =? U32_MAX then
    slots ← (if (slot >? 1) && negb (at64 false (p_has_dst s) slot) then
               guard_fail (zlen (srcA_slots s) =? 0x40) EINVAL;;
               Ret (srcA_slots s ++ [slot])
             else Ret (srcA_slots s));
    Ret (Pass1 (p_dst s) src (p_has_dst s) (upd64 (p_rank_srcA s) slot 0) (p_rank_srcB s)
           slots (srcB_slots s))
  else
    Ret (Pass1 (p_dst s) src (p_has_dst s) (p_rank_srcA s) (p_rank_srcB s) (srcA_slots s)
           (srcB_slots s)).

(** The srcB slots are not marked as seen. *)
Definition pass1_srcB (s : pass1) (slot p0 : Z) : res pass1 :=
  let src := upd64 (p_src s) slot (track_offset (at64 track0 (p_src s) slot) p0) in
  slots ← (if (at64 U32_MAX (p_rank_srcB s) slot =? U32_MAX) && (slot >? 1) &&
              negb (at64 false (p_has_dst s) slot) then
             guard_fail (zlen (srcB_slots s) =? 0x40) EINVAL;;
             Ret (srcB_slots s ++ [slot])
           else Ret (srcB_slots s));
  Ret (Pass1 (p_dst s) src (p_has_dst s) (p_rank_srcA s) (p_rank_srcB s) (srcA_slots s) slots).

Definition pass1_record (stream : bytes) (t : ane_task) (s : pass1) (h idx n : Z) : res pass1 :=
  if is_bar_ref h then
    guard_fail (negb (Z.land h 0x10000000 =? 0)) EINVAL;;
    let slot := bar_slot h in
    let addr := bar_addr h in
    p0 ← payload0 stream t idx;
    if addr =? TD_DST then Ret (pass1_dst s slot p0)
    else if addr =? TD_SRC_A then pass1_srcA s slot p0
    else if addr =? TD_SRC_B then pass1_srcB s slot p0
    else Ret s
  else Ret s.

Definition pass1_init : pass1 :=
  Pass1 (replicate 64 track0) (replicate 64 track0) (replicate 64 false)
    (replicate 64 U32_MAX) (replicate 64 U32_MAX) [] [].

Definition run_pass1 (stream : bytes) (tasks : list ane_task) : res pass1 :=
  foldM (fun s t => walk_task stream t (pass1_record stream t) s) pass1_init tasks.

(** ** [derive_refs]: ranks, blend and matmul detection *)

(** The insertion sorts: element [x] moves left past every larger element of
    the prefix before it. [rl] is that prefix, last element first. *)
Fixpoint insert_rev {A} (key : A -> Z) (x : A) (rl : list A) : list A :=
  match rl with
  | [] => [x]
  | y :: r => if key y >? key x then y :: insert_rev key x r else x :: rl
  end.

Definition insertion_sort {A} (key : A -> Z) (l : list A) : list A :=
  reverse (fold_left (fun rl x => insert_rev key x rl) l []).

(** [for (i = 0; i < count; i++) rank[slots[i]] = i]. *)
Definition assign_ranks (rank : list Z) (slots : list Z) : list Z :=
  fold_left (fun r '(i, s) => upd64 r s i) (zip (seqZ 0 (zlen slots)) slots) rank.

(** The channels [5, 6, ...] in the order of [slots]. *)
Definition blend_assign (st : list Z * Z) (s : Z) : list Z * Z :=
  (upd64 st.1 s (5 + st.2), st.2 + 1).

(** [srcA] and [srcB] are the sorted slot lists. *)
Definition blend_rank (srcA srcB : list Z) : bool * list Z :=
  let srcB_lo := fold_left (fun lo s => if (s >? 1) && (s <? lo) then s else lo) srcB U32_MAX in
  let srcA_hi := fold_left (fun hi s => if s >? hi then s else hi) srcA 0 in
  let rank := replicate 64 U32_MAX in
  if negb (srcB_lo =? U32_MAX) && negb (srcA_hi =? 0) && (srcB_lo <? srcA_hi) then
    let st := fold_left (fun st s => if s >? 1 then blend_assign st s else st)
                (reverse srcB) (rank, 0) in
    (true, (fold_left blend_assign srcA st).1)
  else (false, rank).

Definition max_in_alloc (io : list ane_m2_io) : Z :=
  fold_left (fun mx e => let s := u32 (io_size e) in
                         if dir e =? 0 then (if s >? mx then s else mx) else mx) io 0.

Definition pass1_info (io : list ane_m2_io) (s : pass1) : slot_info :=
  let srcA := insertion_sort id (srcA_slots s) in
  let srcB := insertion_sort id (srcB_slots s) in
  let rankA := assign_ranks (p_rank_srcA s) srcA in
  let '(blend_mode, rank_blend) := blend_rank srcA srcB in
  SlotInfo (p_dst s) (p_src s) rankA rank_blend (max_in_alloc io) blend_mode (zlen srcA >=? 2).

(** ** [derive_refs]: pass 2 and the union *)

Record union_st := Union {
  u_tag : list Z;
  u_addr : list Z;
  u_slots : list Z;
  u_scratch : bool;
}.

Definition union_ref (scratch_bufid : Z) (u : union_st) (r : ane_m2_ref) : res union_st :=
  let s := r_slot r in
  let tag := at64 U32_MAX (u_tag u) s in
  if tag =? U32_MAX then
    (if zlen (u_slots u) >=? 64 then Fault OutOfBounds else Ret tt);;
    Ret (Union (upd64 (u_tag u) s (r_tag r)) (upd64 (u_addr u) s (r_addr r)) (u_slots u ++ [s])
           (u_scratch u))
  else if tag =? r_tag r then Ret u
  else if negb (scratch_bufid =? 0) then
    guard_fail (negb (scratch_eligible_addr (at64 0 (u_addr u) s)) ||
                negb (scratch_eligible_addr (r_addr r))) EINVAL;;
    Ret (Union (upd64 (u_tag u) s scratch_bufid) (u_addr u) (u_slots u) true)
  else fail.

Definition union_init : union_st := Union (replicate 64 U32_MAX) (replicate 64 0) [] false.

Definition run_pass2 (stream : bytes) (legacy : bool) (io : list ane_m2_io) (si : slot_info)
    (scratch_bufid : Z) (tasks : list ane_task) : res union_st :=
  foldM (fun u t =>
      refs ← refs_of_task stream legacy io si scratch_bufid t;
      foldM (union_ref scratch_bufid) u refs)
    union_init tasks.

(** A [{slot, tag}] pair of the operation section. *)
Abbreviation pair := (Z * Z)%type.

(** The union in ascending slot order. *)
Definition encode_union (u : union_st) : res (list pair) :=
  refs ← foldM (fun acc s =>
      guard_fail (zlen acc =? ANE_M2_MAX_BINDS) EINVAL;;
      Ret (acc ++ [(s, at64 U32_MAX (u_tag u) s)])) [] (u_slots u);
  Ret (insertion_sort fst refs).

Definition known_tag (io : list ane_m2_io) (scratch_bufid tag : Z) : bool :=
  (tag =? 2) || (negb (scratch_bufid =? 0) && (tag =? scratch_bufid)) ||
  existsb (fun e => buffer_id e =? tag) io.

(** Returns the ref set of the single call and [*scratch_used_out]. *)
Definition derive_refs (stream : bytes) (tasks : list ane_task) (io : list ane_m2_io)
    (legacy : bool) (scratch_bufid : Z) : res (list pair * bool) :=
  s ← run_pass1 stream tasks;
  u ← run_pass2 stream legacy io (pass1_info io s) scratch_bufid tasks;
  refs ← encode_union u;
  guard_fail (negb (forallb (fun r => known_tag io scratch_bufid r.2) refs)) EINVAL;;
  guard_fail (bool_decide (refs = [])) EINVAL;;
  Ret (refs, u_scratch u).

(** ** Splitting: soundness *)

Lemma wp_check_zero stream lo hi :
  bytes_ok stream -> 0 <= lo -> hi <= zlen stream ->
  wp (check_zero stream lo hi) (fun _ => forall i, lo <= i < hi -> byte_at stream i = 0).
Proof.
  intros Hok Hlo Hhi. unfold check_zero.
  eapply wp_mono; [apply (wp_foldM _ (fun pre _ => forall i, i ∈ pre -> byte_at stream i = 0))|].
  - by intros i ?%elem_of_nil.
  - intros pre i [] Hi Hpre. apply elem_of_seqZ in Hi. rewrite rd8_eq; [|lia]. cbn [mbind res_bind].
    apply wp_guard_fail. intros Hz j Hj.
    apply elem_of_app in Hj as [Hj| ->%list_elem_of_singleton]; [auto|lia].
  - intros [] Hall i Hi. apply Hall. apply elem_of_seqZ. lia.
Qed.

(** The word count the frame at [o] declares. *)
Definition declared (stream : bytes) (o : Z) : Z := Z.land (word16_at stream (o + 2)) 0x7ff.

Definition align16 (x : Z) : Z := (x + 15) / 16 * 16.

Lemma align16_land x : Z.land (x + 15) (Z.lnot 15) = align16 x.
Proof.
  unfold align16. rewrite -Z.ldiff_land. change 15 with (Z.ones 4) at 2.
  rewrite Z.ldiff_ones_r; [|lia]. rewrite Z.shiftr_div_pow2; [|lia].
  by rewrite Z.shiftl_mul_pow2.
Qed.

Lemma align16_bounds x : x <= align16 x < x + 16 /\ align16 x mod 16 = 0.
Proof. unfold align16. dlia. Qed.

(** Where a task ends: its words, and then the zero filler up to [task_end]. *)
Definition task_end (nbytes : Z) (t : ane_task) : Z := Z.min (align16 (off t + words t * 4)) nbytes.

(** A task that the stream declares at a frame boundary, with its filler. *)
Record task_ok (stream : bytes) (nbytes : Z) (t : ane_task) : Prop := {
  tk_off : 0 <= off t;
  tk_frame : off t mod 16 = 0;
  tk_words : 8 <= words t <= 0x7ff;
  tk_fits : off t + words t * 4 <= nbytes;
  tk_declared : declared stream (off t) = words t;
  tk_filler : forall i, off t + words t * 4 <= i < task_end nbytes t -> byte_at stream i = 0;
}.

Definition before (nbytes : Z) (t t' : ane_task) : Prop := task_end nbytes t <= off t'.

(** Every frame below [lim] that declares words is a task or inside one. *)
Definition covered (stream : bytes) (nbytes lim : Z) (tasks : list ane_task) : Prop :=
  forall o, 0 <= o -> o mod 16 = 0 -> o + 4 <= nbytes -> o < lim -> declared stream o <> 0 ->
    exists t, t ∈ tasks /\ off t <= o < task_end nbytes t.

Record split_inv (stream : bytes) (nbytes cap lim : Z) (tasks : list ane_task) : Prop := {
  sp_lim : 0 <= lim <= nbytes;
  sp_frame : lim mod 16 = 0 \/ lim = nbytes;
  sp_cap : zlen tasks <= cap;
  sp_tasks : Forall (task_ok stream nbytes) tasks;
  sp_below : Forall (fun t => task_end nbytes t <= lim) tasks;
  sp_sorted : StronglySorted (before nbytes) tasks;
  sp_covered : covered stream nbytes lim tasks;
}.

Lemma StronglySorted_snoc {A} (R : relation A) l x :
  StronglySorted R l -> Forall (fun y => R y x) l -> StronglySorted R (l ++ [x]).
Proof.
  induction 1 as [|y l Hl IH Hy]; intros Hx; simpl; [repeat constructor|].
  apply Forall_cons in Hx as [Hyx Hx]. constructor; [by apply IH|].
  apply Forall_app_2; [done|]. by apply Forall_singleton.
Qed.

Lemma split_inv_task stream nbytes cap lim tasks w :
  split_inv stream nbytes cap lim tasks ->
  lim + 4 <= nbytes -> declared stream lim = w -> 8 <= w <= 0x7ff -> lim + w * 4 <= nbytes ->
  (forall i, lim + w * 4 <= i < task_end nbytes (Task lim w) -> byte_at stream i = 0) ->
  zlen tasks < cap ->
  split_inv stream nbytes cap (task_end nbytes (Task lim w)) (tasks ++ [Task lim w]).
Proof.
  intros [Hlim Hfr Hcap Hts Hbel Hsort Hcov] H4 Hw Hw8 Hfit Hz Hlt.
  assert (lim mod 16 = 0) as Hm by (destruct Hfr; [done|lia]).
  set (t := Task lim w) in *.
  destruct (align16_bounds (off t + words t * 4)) as [Ha1 Ha2].
  assert (lim < task_end nbytes t) by (unfold task_end in *; simpl in *; lia).
  constructor.
  - unfold task_end in *; simpl in *; lia.
  - unfold task_end. destruct (Z.min_spec (align16 (off t + words t * 4)) nbytes) as [[_ ->]|[_ ->]]; auto.
  - rewrite zlen_app. change (zlen [t]) with 1. lia.
  - apply Forall_app_2; [done|]. apply Forall_singleton. constructor; simpl; (lia || done).
  - apply Forall_app_2; [|by apply Forall_singleton].
    eapply Forall_impl; [exact Hbel|]. simpl. intros; lia.
  - apply StronglySorted_snoc; [done|exact Hbel].
  - intros o Ho Hom Ho4 Holt Hd. destruct (decide (o < lim)) as [Hol|Hge].
    + destruct (Hcov o Ho Hom Ho4 Hol Hd) as (t' & Ht' & ?). exists t'. set_solver.
    + exists t. split; [set_solver|]. simpl. lia.
Qed.

Lemma split_inv_filler stream nbytes cap lim tasks :
  split_inv stream nbytes cap lim tasks -> lim + 4 <= nbytes -> declared stream lim = 0 ->
  split_inv stream nbytes cap (Z.min (lim + FRAME_BYTES) nbytes) tasks.
Proof.
  intros [Hlim Hfr Hcap Hts Hbel Hsort Hcov] H4 Hd0. unfold FRAME_BYTES.
  assert (lim mod 16 = 0) as Hm by (destruct Hfr; [done|lia]).
  constructor; try done; [lia| | |].
  - destruct (Z.min_spec (lim + 16) nbytes) as [[_ ->]|[_ ->]]; [left; dlia|by right].
  - eapply Forall_impl; [exact Hbel|]. simpl. intros; lia.
  - intros o Ho Hom Ho4 Holt Hd. destruct (decide (o < lim)) as [Hol|Hge].
    + by apply Hcov.
    + assert (o = lim) as -> by dlia. done.
Qed.

Lemma split_inv_end stream nbytes cap lim tasks :
  split_inv stream nbytes cap lim tasks -> nbytes < lim + 4 ->
  split_inv stream nbytes cap nbytes tasks.
Proof.
  intros [Hlim Hfr Hcap Hts Hbel Hsort Hcov] H4. constructor; try done; [lia|by right| |].
  - eapply Forall_impl; [exact Hbel|]. simpl. intros; lia.
  - intros o Ho Hom Ho4 _ Hd. apply Hcov; try done. lia.
Qed.

Lemma split_inv_init stream nbytes cap :
  0 <= nbytes -> 0 <= cap -> split_inv stream nbytes cap 0 [].
Proof.
  intros. constructor; [lia|by left|done|by constructor|by constructor|constructor|].
  intros o ? ? ? ? _. lia.
Qed.

Lemma if_min a b : (if a >? b then b else a) = Z.min a b.
Proof. destruct (Z.gtb_spec a b); lia. Qed.

Lemma land_7ff z : 0 <= Z.land z 0x7ff <= 0x7ff.
Proof. by apply land_le_r. Qed.

Lemma wp_split stream nbytes cap :
  bytes_ok stream -> 0 <= nbytes <= zlen stream -> 0 <= cap ->
  wp (split_h14_tasks stream nbytes cap) (fun tasks => split_inv stream nbytes cap nbytes tasks).
Proof.
  intros Hok Hn Hcap. unfold split_h14_tasks.
  apply wp_loop with (I := fun s => split_inv stream nbytes cap s.1 s.2)
    (mu := fun s => Z.to_nat (nbytes - s.1)).
  - intros [lim tasks] Hinv. simpl in Hinv. unfold split_body. pose proof (sp_lim _ _ _ _ _ Hinv).
    destruct (lim <? nbytes) eqn:E1; [|simpl; eapply split_inv_end; [done|lia]].
    destruct (nbytes - lim <? 4) eqn:E2.
    { apply wp_bind. eapply wp_mono; [apply wp_check_zero; (done || lia)|]. intros _ _. simpl.
      eapply split_inv_end; [done|lia]. }
    rewrite le16_eq; [|lia..]. cbn [mbind res_bind]. fold (declared stream lim).
    destruct (declared stream lim =? 0) eqn:E3.
    { cbn [wp]. rewrite if_min. cbn [fst snd]. split; [apply split_inv_filler; (done || lia)|]. unfold FRAME_BYTES. lia. }
    wp_step. wp_step. wp_step. wp_step. rewrite align16_land.
    pose proof (land_7ff (word16_at stream (lim + 2))) as Hd7. fold (declared stream lim) in Hd7.
    set (w := declared stream lim) in *.
    rewrite if_min. change (Z.min (align16 (lim + w * 4)) nbytes) with (task_end nbytes (Task lim w)).
    destruct (align16_bounds (lim + w * 4)) as [Ha1 Ha2].
    assert (lim < task_end nbytes (Task lim w) <= nbytes) by (unfold task_end; cbn [off words]; lia).
    apply wp_bind. eapply wp_mono; [apply wp_check_zero; (done || lia)|]. intros [] Hz. cbv beta.
    wp_step. wp_step. simpl. pose proof (sp_cap _ _ _ _ _ Hinv).
    split; [|lia]. apply split_inv_task; try done; lia.
  - cbn [fst snd]. apply split_inv_init; done || lia.
  - simpl. lia.
Qed.

(** ** Walking the records of a task *)

Definition task_in (stream : bytes) (t : ane_task) : Prop :=
  0 <= off t /\ 8 <= words t /\ off t + words t * 4 <= zlen stream.

Lemma task_ok_in stream nbytes t :
  task_ok stream nbytes t -> nbytes <= zlen stream -> task_in stream t.
Proof. intros [] ?. unfold task_in. lia. Qed.

Lemma popcount_nonneg x : 0 <= popcount x.
Proof.
  unfold popcount. induction (seqZ 0 32) as [|i l IH]; [done|].
  rewrite fmap_cons. cbn [foldr]. unfold Z.b2z at 1. destruct (Z.testbit x i); lia.
Qed.

Lemma rec_count_pos h : 1 <= rec_count h.
Proof.
  unfold rec_count. pose proof (popcount_nonneg (Z.land (Z.shiftr h 15) 0xffff)).
  pose proof (land_le_r (Z.shiftr h 15) 0x3f ltac:(lia)). destruct (negb _); lia.
Qed.

(** [rec_from stream t i idx h]: following record lengths from word [i], the
    walk reaches a record of header [h] at word [idx]. *)
Inductive rec_from (stream : bytes) (t : ane_task) : Z -> Z -> Z -> Prop :=
  | rec_here idx h :
      idx < words t -> le32 stream (off t + idx * 4) = Ret h -> rec_from stream t idx idx h
  | rec_skip i idx h h' :
      i < words t -> le32 stream (off t + i * 4) = Ret h' ->
      rec_from stream t (i + (1 + rec_count h')) idx h -> rec_from stream t i idx h.

(** The records of a task. *)
Definition task_record (stream : bytes) (t : ane_task) (idx h : Z) : Prop :=
  exists w7, le32 stream (off t + 28) = Ret w7 /\ rec_from stream t (first_record w7) idx h.

Lemma first_record_range w : 8 <= first_record w <= 9.
Proof. unfold first_record. destruct (_ =? _); lia. Qed.

Section walk.
Context (stream : bytes) (Hok : bytes_ok stream) (t : ane_task) (Ht : task_in stream t).
Context {S : Type} (f : S -> Z -> Z -> Z -> res S).

(** The walk never leaves the task; [I] is an invariant of the handler. *)
Lemma wp_walk_task (I : S -> Prop) s :
  I s ->
  (forall s h idx n, I s -> in_range 32 h -> 8 <= idx -> 1 <= n -> n = rec_count h ->
     idx + 1 + n <= words t -> task_record stream t idx h -> wp (f s h idx n) I) ->
  wp (walk_task stream t f s) I.
Proof using Hok Ht.
  destruct Ht as (H0 & H8 & Hl). intros HI Hf. unfold walk_task.
  rewrite le32_eq; [|lia..]. cbn [mbind res_bind]. set (w7 := word32_at stream (off t + 28)).
  pose proof (first_record_range w7).
  apply wp_loop with
    (I := fun s => I s.2 /\ 8 <= s.1 /\
       forall idx h, rec_from stream t s.1 idx h -> task_record stream t idx h)
    (mu := fun s => Z.to_nat (words t - s.1)).
  - intros [idx s'] (HI' & Hidx & Hrec). cbn [fst snd] in *. unfold walk_body.
    destruct (idx <? words t) eqn:E; [|done].
    rewrite le32_eq; [|lia..]. cbn [mbind res_bind]. set (h := word32_at stream (off t + idx * 4)).
    pose proof (rec_count_pos h). wp_step. wp_step. apply wp_bind.
    assert (le32 stream (off t + idx * 4) = Ret h) as Hh by (apply le32_eq; lia).
    eapply wp_mono; [apply Hf; try done; [by apply word32_at_range|lia|]|].
    + apply Hrec. constructor; [lia|done].
    + intros s'' HI''. cbn [wp fst snd]. split; [|lia]. split; [done|]. split; [lia|].
      intros idx' h' Hr. apply Hrec. by eapply rec_skip; [lia| |].
  - cbn [fst snd]. split; [done|]. split; [lia|]. intros idx h Hr. exists w7.
    split; [apply le32_eq; lia|done].
  - cbn [fst snd]. lia.
Qed.

(** On success the handler succeeded on every record of the task. *)
Lemma walk_task_all s s' :
  walk_task stream t f s = Ret s' ->
  forall idx h, task_record stream t idx h ->
    idx + 1 + rec_count h <= words t /\ exists s1 s2, f s1 h idx (rec_count h) = Ret s2.
Proof using.
  intros Hw idx h (w7 & Hw7 & Hr). unfold walk_task in Hw. rewrite Hw7 in Hw.
  cbn [mbind res_bind] in Hw. revert s Hw.
  generalize (Datatypes.S (Z.to_nat (words t))) as fuel.
  induction Hr as [idx h Hlt Hh|i idx h h' Hlt Hh Hr IH]; intros fuel s Hw;
    (destruct fuel as [|fuel]; [done|]); rewrite loop_S in Hw;
    apply bind_Ret_inv in Hw as (r & Hb & Hw); unfold walk_body in Hb;
    (destruct (_ <? words t) eqn:E in Hb; [|lia]); rewrite Hh in Hb;
    cbn [mbind res_bind] in Hb;
    apply bind_Ret_inv in Hb as ([] & Hg & Hb); apply guard_fail_Ret in Hg;
    apply bind_Ret_inv in Hb as (s2 & Hs & Hb).
  - split; [lia|]. by exists s, s2.
  - injection Hb as <-. by eapply IH.
Qed.

(** What the handler establishes of a record and keeps afterwards holds of
    every record at the end. *)
Lemma walk_keeps (Q : S -> Prop) fuel i s s' :
  (forall s h idx n s2, f s h idx n = Ret s2 -> Q s -> Q s2) ->
  loop fuel (walk_body stream t f) (i, s) = Ret s' -> Q s -> Q s'.
Proof using.
  intros Hk. revert i s. induction fuel as [|fuel IH]; intros i s Hw HQ; [done|].
  rewrite loop_S in Hw. apply bind_Ret_inv in Hw as (r & Hb & Hw). unfold walk_body in Hb.
  destruct (i <? words t).
  - apply bind_Ret_inv in Hb as (h & _ & Hb). apply bind_Ret_inv in Hb as ([] & _ & Hb).
    apply bind_Ret_inv in Hb as (s2 & Hs & Hb). injection Hb as <-. eauto.
  - injection Hb as <-. by injection Hw as <-.
Qed.

Lemma walk_task_post (P : Z -> Z -> S -> Prop) s s' :
  (forall s h idx n s2, f s h idx n = Ret s2 -> P idx h s2) ->
  (forall s h idx n s2 i h0, f s h idx n = Ret s2 -> P i h0 s -> P i h0 s2) ->
  walk_task stream t f s = Ret s' ->
  forall idx h, task_record stream t idx h -> P idx h s'.
Proof using.
  intros Hest Hk Hw idx h (w7 & Hw7 & Hr). unfold walk_task in Hw. rewrite Hw7 in Hw.
  cbn [mbind res_bind] in Hw. revert s Hw.
  generalize (Datatypes.S (Z.to_nat (words t))) as fuel.
  induction Hr as [idx h Hlt Hh|i idx h h' Hlt Hh Hr IH]; intros fuel s Hw;
    (destruct fuel as [|fuel]; [done|]); rewrite loop_S in Hw;
    apply bind_Ret_inv in Hw as (r & Hb & Hw); unfold walk_body in Hb;
    (destruct (_ <? words t) eqn:E in Hb; [|lia]); rewrite Hh in Hb;
    cbn [mbind res_bind] in Hb;
    apply bind_Ret_inv in Hb as ([] & Hg & Hb); apply guard_fail_Ret in Hg;
    apply bind_Ret_inv in Hb as (s2 & Hs & Hb); injection Hb as <-; [|by eapply IH].
  eapply (walk_keeps (P idx h)); [|exact Hw|by eapply Hest]. intros. by eapply Hk.
Qed.
End walk.

(** ** Tags *)

Lemma pick_fit io d reach tag :
  pick_smallest_fit_channel io d reach = Some tag ->
  exists e, e ∈ io /\ buffer_id e = tag /\ dir e = d /\ reach <= io_size e.
Proof.
  unfold pick_smallest_fit_channel.
  set (step := fun '(best, best_size) e => _).
  assert (forall l best bs,
    let '(best', bs') := fold_left step l (best, bs) in
    best' = best \/ exists e, e ∈ l /\ buffer_id e = best' /\ dir e = d /\ reach <= io_size e) as H.
  { induction l as [|e l IH]; intros best bs; cbn [fold_left]; [by left|].
    assert (exists b s, step (best, bs) e = (b, s) /\
      (b = best \/ buffer_id e = b /\ dir e = d /\ reach <= io_size e)) as (b & s & Hst & Hb).
    { unfold step. destruct (negb (dir e =? d)) eqn:E1; [do 2 eexists; split; [done|by left]|].
      destruct (io_size e <? reach) eqn:E2; [do 2 eexists; split; [done|by left]|].
      destruct (_ || _); do 2 eexists; (split; [done|]); [right; lia|by left]. }
    rewrite Hst. specialize (IH b s). destruct (fold_left step l (b, s)) as [b' s'].
    destruct IH as [->|(e' & He' & ?)]; [|right; exists e'; set_solver].
    destruct Hb as [->|?]; [by left|right; exists e; set_solver]. }
  specialize (H io U32_MAX U64_MAX).
  destruct (fold_left step io (U32_MAX, U64_MAX)) as [best bs].
  destruct (best =? U32_MAX) eqn:E; [done|]. intros [= ->]. destruct H as [->|?]; [lia|done].
Qed.

(** ** The insertion sort *)

Section sort.
Context {A : Type} (key : A -> Z).

Definition desc (x y : A) : Prop := key y <= key x.
Definition asc (x y : A) : Prop := key x <= key y.

Lemma insert_rev_perm x rl : insert_rev key x rl ≡ₚ x :: rl.
Proof.
  induction rl as [|y r IH]; simpl; [done|]. destruct (_ >? _); [|done].
  rewrite IH. constructor.
Qed.

Lemma insert_rev_sorted x rl :
  StronglySorted desc rl -> StronglySorted desc (insert_rev key x rl).
Proof.
  induction 1 as [|y r Hr IH Hy]; simpl; [repeat constructor|].
  destruct (key y >? key x) eqn:E.
  - constructor; [done|]. rewrite insert_rev_perm. constructor; [unfold desc; lia|done].
  - constructor; [by constructor|]. constructor; [unfold desc; lia|].
    eapply Forall_impl; [exact Hy|]. unfold desc. intros z ?. lia.
Qed.

Lemma StronglySorted_reverse (R : relation A) l :
  StronglySorted R l -> StronglySorted (flip R) (reverse l).
Proof.
  induction 1 as [|x l Hl IH Hx]; [constructor|]. rewrite reverse_cons.
  apply StronglySorted_snoc; [done|]. by rewrite reverse_Permutation.
Qed.

Lemma insertion_sort_spec l :
  insertion_sort key l ≡ₚ l /\ StronglySorted asc (insertion_sort key l).
Proof.
  unfold insertion_sort.
  assert (forall l rl, StronglySorted desc rl ->
    fold_left (fun rl x => insert_rev key x rl) l rl ≡ₚ l ++ rl /\
    StronglySorted desc (fold_left (fun rl x => insert_rev key x rl) l rl)) as H.
  { clear l. induction l as [|x l IH]; intros rl Hrl; simpl; [done|].
    destruct (IH (insert_rev key x rl)) as [Hp Hs]; [by apply insert_rev_sorted|].
    split; [|done]. rewrite Hp insert_rev_perm. by rewrite Permutation_middle. }
  destruct (H l []) as [Hp Hs]; [constructor|]. rewrite app_nil_r in Hp. split.
  - by rewrite reverse_Permutation.
  - by apply StronglySorted_reverse in Hs.
Qed.

(** Distinct keys come out strictly increasing. *)
Lemma insertion_sort_strict l :
  NoDup (key <$> l) -> StronglySorted (fun x y => key x < key y) (insertion_sort key l).
Proof.
  destruct (insertion_sort_spec l) as [Hp Hs]. intros Hnd. rewrite -Hp in Hnd. clear Hp.
  induction Hs as [|x r Hr IH Hx]; [constructor|]. rewrite fmap_cons in Hnd.
  apply NoDup_cons in Hnd as [Hx' Hnd]. constructor; [by apply IH|].
  rewrite Forall_forall in Hx. apply Forall_forall. intros y Hy.
  specialize (Hx y Hy). unfold asc in Hx.
  assert (key x <> key y); [|lia]. intros He. apply Hx'. rewrite He. by apply list_elem_of_fmap_2.
Qed.
End sort.

(** ** The union of the refs of all tasks *)

Definition slot_ok (s : Z) : Prop := 0 <= s < 64.

Lemma at64_upd64 {A} (d : A) l s s' x :
  length l = 64%nat -> slot_ok s -> slot_ok s' ->
  at64 d (upd64 l s x) s' = if bool_decide (s = s') then x else at64 d l s'.
Proof.
  unfold slot_ok, at64, upd64. intros Hl Hs Hs'. rewrite lookup_insert_default; [|lia].
  repeat case_bool_decide; done || lia.
Qed.

Lemma slots_bounded (l : list Z) :
  NoDup l -> Forall slot_ok l -> (length l <= 64)%nat.
Proof.
  intros Hnd Hok. change 64%nat with (length (seqZ 0 64)). apply submseteq_length.
  apply NoDup_submseteq; [done|]. intros s Hs. rewrite Forall_forall in Hok.
  apply elem_of_seqZ. specialize (Hok s Hs). unfold slot_ok in Hok. lia.
Qed.

(** A ref the union has seen is bound to its own tag or to the scratch. *)
Definition resolved (scratch_bufid tag : Z) (r : ane_m2_ref) : Prop :=
  tag = r_tag r \/ (tag = scratch_bufid /\ scratch_bufid <> 0).

Record union_inv (scratch_bufid : Z) (seen : list ane_m2_ref) (u : union_st) : Prop := {
  ui_tag : length (u_tag u) = 64%nat;
  ui_addr : length (u_addr u) = 64%nat;
  ui_nodup : NoDup (u_slots u);
  ui_slots : Forall slot_ok (u_slots u);
  ui_dom : forall s, slot_ok s -> at64 U32_MAX (u_tag u) s <> U32_MAX <-> s ∈ u_slots u;
  ui_seen : forall r, r ∈ seen -> r_slot r ∈ u_slots u /\
              resolved scratch_bufid (at64 U32_MAX (u_tag u) (r_slot r)) r;
}.

Definition ref_ok (r : ane_m2_ref) : Prop := slot_ok (r_slot r) /\ r_tag r <> U32_MAX.

Lemma union_inv_init sb : union_inv sb [] union_init.
Proof.
  constructor; cbn [u_slots union_init];
    [done|done|apply NoDup_nil_2|constructor| |by intros r ?%elem_of_nil].
  intros s Hs. unfold at64, union_init. cbn [u_tag u_slots].
  rewrite lookup_replicate_default. set_solver.
Qed.

Lemma wp_union_ref sb seen u r :
  sb <> U32_MAX -> ref_ok r -> union_inv sb seen u ->
  wp (union_ref sb u r) (union_inv sb (seen ++ [r])).
Proof.
  intros Hsb [Hs Ht] [Htag Haddr Hnd Hsl Hdom Hseen]. unfold union_ref.
  set (s := r_slot r) in *. set (tag := at64 U32_MAX (u_tag u) s).
  destruct (tag =? U32_MAX) eqn:E1; [|destruct (tag =? r_tag r) eqn:E2;
    [|destruct (negb (sb =? 0)) eqn:E3; [|done]]].
  - assert (s ∉ u_slots u) as Hnew by (intros Hin%Hdom; [unfold tag in *; lia|done]).
    assert (NoDup (s :: u_slots u)) as Hnd' by (by constructor).
    pose proof (slots_bounded (s :: u_slots u) Hnd' ltac:(by constructor)) as Hb.
    simpl in Hb. destruct (zlen (u_slots u) >=? 64) eqn:E; [unfold zlen in E; lia|].
    cbn [mbind res_bind wp]. constructor; cbn [u_tag u_addr u_slots].
    + unfold upd64. by rewrite length_insert.
    + unfold upd64. by rewrite length_insert.
    + rewrite Permutation_app_comm. done.
    + apply Forall_app_2; [done|by apply Forall_singleton].
    + intros s' Hs'. rewrite at64_upd64 //. case_bool_decide as Es.
      * subst s'. split; [set_solver|done].
      * rewrite Hdom //. set_solver.
    + intros r' Hr'. apply elem_of_app in Hr' as [Hr'| ->%list_elem_of_singleton].
      * destruct (Hseen r' Hr') as [Hin Hres]. split; [set_solver|].
        rewrite at64_upd64 //; [|by rewrite Forall_forall in Hsl; apply Hsl].
        rewrite bool_decide_eq_false_2 //. intros He. apply Hnew. by rewrite He.
      * split; [set_solver|]. rewrite at64_upd64 // bool_decide_eq_true_2 //. by left.
  - constructor; try done. intros r' Hr'.
    apply elem_of_app in Hr' as [Hr'| ->%list_elem_of_singleton]; [by apply Hseen|].
    split; [apply Hdom; [done|]; fold s tag; lia|]. left. fold s tag. lia.
  - wp_step. wp_step. cbn [wp]. constructor; cbn [u_tag u_addr u_slots]; try done.
    + unfold upd64. by rewrite length_insert.
    + intros s' Hs'. rewrite at64_upd64 //. case_bool_decide as Es; [|by apply Hdom].
      subst s'. split; [|done]. intros _. apply Hdom; [done|]. fold s tag. lia.
    + intros r' Hr'. apply elem_of_app in Hr' as [Hr'| ->%list_elem_of_singleton].
      * destruct (Hseen r' Hr') as [Hin Hres]. split; [done|].
        rewrite at64_upd64 //; [|by rewrite Forall_forall in Hsl; apply Hsl].
        case_bool_decide; [right; split; [done|lia]|done].
      * split; [apply Hdom; [done|]; fold s tag; lia|].
        rewrite at64_upd64 // bool_decide_eq_true_2 //. right. split; [done|lia].
Qed.

(** ** Refs of one task *)

Lemma bar_slot_ok h : slot_ok (bar_slot h).
Proof. unfold bar_slot, slot_ok. pose proof (land_le_r (Z.shiftr h 23) 0x3f ltac:(lia)). lia. Qed.

Lemma pick_not_max io d reach tag : pick_smallest_fit_channel io d reach = Some tag -> tag <> U32_MAX.
Proof.
  unfold pick_smallest_fit_channel. destruct (fold_left _ _ _) as [best bs].
  destruct (best =? U32_MAX) eqn:E; [done|]. intros [= ->]. lia.
Qed.

Lemma smallest_not_max io tag : smallest_output io = Some tag -> tag <> U32_MAX.
Proof.
  unfold smallest_output. destruct (fold_left _ _ _) as [best bs].
  destruct (bs =? U32_MAX) eqn:E; [done|]. intros [= ->]. lia.
Qed.

Lemma wp_or_fail o : (forall t, o = Some t -> t <> U32_MAX) -> wp (or_fail o) (fun t => t <> U32_MAX).
Proof. destruct o; simpl; auto. Qed.

Lemma wp_extents addr slot md ms cd cs mi mm sb io :
  slot_ok slot -> sb <> U32_MAX ->
  wp (bar_ref_tag_extents addr slot md ms cd cs mi mm sb io) (fun t => t <> U32_MAX).
Proof.
  unfold slot_ok. intros Hs Hsb. unfold bar_ref_tag_extents.
  repeat case_match; simpl; try done; try (apply wp_or_fail; eauto using pick_not_max, smallest_not_max);
    eauto using pick_not_max. unfold U32_MAX. lia.
Qed.

Lemma wp_legacy addr slot : wp (bar_ref_tag_legacy addr slot) (fun t => t <> U32_MAX).
Proof. unfold bar_ref_tag_legacy. repeat case_match; done. Qed.

Lemma wp_ref_tag legacy io si sb slot addr :
  slot_ok slot -> sb <> U32_MAX ->
  wp (ref_tag legacy io si sb slot addr) (fun t => t <> U32_MAX).
Proof.
  intros Hs Hsb. unfold ref_tag. cbv zeta.
  destruct (_ && negb (_ =? U32_MAX)) eqn:E1; [simpl; lia|].
  destruct (_ && (slot >? 1)); [wp_step; by wp_step|].
  destruct (_ && (_ || _)); [by apply wp_extents|apply wp_legacy].
Qed.

Lemma ref_record_grows stream t legacy io si sb out h idx n out' :
  ref_record stream t legacy io si sb out h idx n = Ret out' ->
  (forall s, s ∈ r_slot <$> out -> s ∈ r_slot <$> out') /\
  (is_bar_ref h = true -> bar_slot h ∈ r_slot <$> out').
Proof.
  unfold ref_record. destruct (is_bar_ref h); [|by intros [= <-]].
  intros H. apply bind_Ret_inv in H as ([] & _ & H). apply bind_Ret_inv in H as (p0 & _ & H).
  apply bind_Ret_inv in H as ([] & _ & H). apply bind_Ret_inv in H as (tag & _ & H).
  destruct (existsb _ out) eqn:E.
  - injection H as <-. split; [done|]. intros _.
    apply existsb_exists in E as (r & Hr%list_elem_of_In & He).
    apply list_elem_of_fmap. exists r. split; [lia|done].
  - apply bind_Ret_inv in H as ([] & _ & H). injection H as <-. rewrite fmap_app.
    split; set_solver.
Qed.

(** The refs of a task: slots in range, tags usable, and every BAR record of
    the task has its slot among them. *)
Definition task_refs_ok (stream : bytes) (t : ane_task) (refs : list ane_m2_ref) : Prop :=
  Forall ref_ok refs /\
  (forall idx h, task_record stream t idx h -> is_bar_ref h = true ->
     bar_slot h ∈ r_slot <$> refs).

Lemma wp_refs_of_task stream legacy io si sb t :
  bytes_ok stream -> task_in stream t -> sb <> U32_MAX ->
  wp (refs_of_task stream legacy io si sb t) (task_refs_ok stream t).
Proof.
  intros Hok Ht Hsb.
  assert (wp (refs_of_task stream legacy io si sb t) (Forall ref_ok)) as Hwp.
  { eapply (wp_walk_task _ Hok _ Ht _ (Forall ref_ok)); [constructor|].
    intros out h idx n Hout Hh Hidx Hn _ Hfit _. unfold ref_record.
    destruct (is_bar_ref h); [|done]. wp_step. wp_step. unfold payload0.
    destruct Ht as (H0 & H8 & Hl).
    rewrite le32_eq; [|lia..]. cbn [mbind res_bind]. wp_step. wp_step. apply wp_bind.
    eapply wp_mono; [apply wp_ref_tag; [apply bar_slot_ok|done]|]. intros tag Htag. cbv beta.
    destruct (existsb _ _); [done|]. wp_step. wp_step. simpl.
    apply Forall_app_2; [done|]. apply Forall_singleton. split; [apply bar_slot_ok|done]. }
  apply wp_iff; [intros w; by eapply wp_no_fault|]. intros refs Hrefs.
  split; [by eapply wp_inv|].
  eapply (walk_task_post _ _ _ (fun idx h out => is_bar_ref h = true -> bar_slot h ∈ r_slot <$> out));
    [| |exact Hrefs].
  - intros s h idx n s2 Hs. apply (ref_record_grows _ _ _ _ _ _ _ _ _ _ _ Hs).
  - intros s h idx n s2 i h0 Hs HP Hb. apply (ref_record_grows _ _ _ _ _ _ _ _ _ _ _ Hs). auto.
Qed.

(** ** The whole derivation *)

Lemma wp_union_refs sb refs seen u :
  sb <> U32_MAX -> Forall ref_ok refs -> union_inv sb seen u ->
  wp (foldM (union_ref sb) u refs) (union_inv sb (seen ++ refs)).
Proof.
  intros Hsb Hok Hu. eapply wp_mono; [apply (wp_foldM _ (fun pre u => union_inv sb (seen ++ pre) u))|].
  - by rewrite app_nil_r.
  - intros pre r u' Hr Hu'. rewrite app_assoc. apply wp_union_ref; [done| |done].
    rewrite Forall_forall in Hok. by apply Hok.
  - done.
Qed.

(** Every BAR record of every task resolves through the union. *)
Definition bar_resolved (stream : bytes) (legacy : bool) (io : list ane_m2_io) (si : slot_info)
    (sb : Z) (tasks : list ane_task) (lookup : Z -> Z -> Prop) : Prop :=
  forall t idx h, t ∈ tasks -> task_record stream t idx h -> is_bar_ref h = true ->
    exists refs r, refs_of_task stream legacy io si sb t = Ret refs /\ r ∈ refs /\
      r_slot r = bar_slot h /\
      exists tag, lookup (bar_slot h) tag /\ resolved sb tag r.

Lemma wp_run_pass2 stream legacy io si sb tasks :
  bytes_ok stream -> Forall (task_in stream) tasks -> sb <> U32_MAX ->
  wp (run_pass2 stream legacy io si sb tasks) (fun u =>
    (exists seen, union_inv sb seen u) /\
    bar_resolved stream legacy io si sb tasks
      (fun s tag => s ∈ u_slots u /\ at64 U32_MAX (u_tag u) s = tag)).
Proof.
  intros Hok Hts Hsb. unfold run_pass2.
  eapply wp_mono; [apply (wp_foldM _ (fun pre u => exists seen, union_inv sb seen u /\
    forall t, t ∈ pre -> exists refs, refs_of_task stream legacy io si sb t = Ret refs /\
      task_refs_ok stream t refs /\ forall r, r ∈ refs -> r ∈ seen))|].
  - exists []. split; [apply union_inv_init|]. by intros t ?%elem_of_nil.
  - intros pre t u Ht (seen & Hu & Hpre).
    pose proof (wp_refs_of_task stream legacy io si sb t Hok) as Hwp.
    rewrite Forall_forall in Hts. specialize (Hwp (Hts t Ht) Hsb).
    destruct (refs_of_task stream legacy io si sb t) as [refs| |] eqn:E; [|done..].
    cbn [mbind res_bind wp] in *. eapply wp_mono; [apply wp_union_refs; [done|apply Hwp|exact Hu]|].
    intros u' Hu'. exists (seen ++ refs). split; [done|]. intros t' Ht'.
    apply elem_of_app in Ht' as [Ht'| ->%list_elem_of_singleton].
    + destruct (Hpre t' Ht') as (refs' & ? & ? & ?). exists refs'. set_solver.
    + exists refs. set_solver.
  - intros u (seen & Hu & Hall). split; [by exists seen|]. intros t idx h Ht Hrec Hbar.
    destruct (Hall t Ht) as (refs & Hrefs & [_ Hin] & Hseen).
    specialize (Hin idx h Hrec Hbar). apply list_elem_of_fmap in Hin as (r & Hs & Hr).
    exists refs, r. split; [done|]. split; [done|]. split; [done|].
    destruct (ui_seen _ _ _ Hu r (Hseen r Hr)) as [Hslot Hres].
    exists (at64 U32_MAX (u_tag u) (r_slot r)). split; [by rewrite Hs|done].
Qed.

Lemma wp_run_pass1 stream tasks :
  bytes_ok stream -> Forall (task_in stream) tasks -> wp (run_pass1 stream tasks) (fun _ => True).
Proof.
  intros Hok Hts. unfold run_pass1. apply (wp_foldM_simple _ (fun _ => True)); [done|].
  intros t s Ht _. rewrite Forall_forall in Hts. pose proof (Hts t Ht) as Hin.
  apply (wp_walk_task _ Hok _ Hin _ (fun _ => True)); [done|].
  intros s' h idx n _ Hh Hidx Hn _ Hfit _. unfold pass1_record.
  destruct (is_bar_ref h); [|done]. wp_step. wp_step. unfold payload0.
  destruct Hin as (H0 & H8 & Hl). rewrite le32_eq; [|lia..]. cbn [mbind res_bind].
  destruct (_ =? TD_DST); [done|].
  destruct (_ =? TD_SRC_A); [unfold pass1_srcA; cbv zeta; by wps|].
  destruct (_ =? TD_SRC_B); [unfold pass1_srcB; cbv zeta; by wps|done].
Qed.

Lemma encode_union_eq u :
  NoDup (u_slots u) -> Forall slot_ok (u_slots u) ->
  encode_union u = Ret (insertion_sort fst ((fun s => (s, at64 U32_MAX (u_tag u) s)) <$> u_slots u)).
Proof.
  intros Hnd Hok. pose proof (slots_bounded _ Hnd Hok) as Hlen. unfold encode_union.
  set (g := fun s => (s, at64 U32_MAX (u_tag u) s)).
  assert (forall l acc, (length acc + length l <= 64)%nat ->
    foldM (fun acc s => guard_fail (zlen acc =? ANE_M2_MAX_BINDS) EINVAL;; Ret (acc ++ [g s])) acc l
    = Ret (acc ++ (g <$> l))) as H.
  { induction l as [|s l IH]; intros acc Hl; cbn [foldM]; [by rewrite app_nil_r|]. simpl in Hl.
    rewrite (_ : (zlen acc =? ANE_M2_MAX_BINDS) = false); [|unfold zlen, ANE_M2_MAX_BINDS; lia].
    change (guard_fail false EINVAL) with (Ret tt). cbn [mbind res_bind].
    rewrite IH; [|rewrite length_app /=; lia]. by rewrite -app_assoc. }
  rewrite H; [done|]. simpl. lia.
Qed.

Lemma wp_derive_refs stream tasks io legacy sb :
  bytes_ok stream -> Forall (task_in stream) tasks -> sb <> U32_MAX ->
  wp (derive_refs stream tasks io legacy sb) (fun '(refs, _) =>
    refs <> [] /\ StronglySorted (fun x y => x.1 < y.1) refs /\
    Forall (fun r => slot_ok r.1 /\ known_tag io sb r.2 = true) refs /\
    exists s, run_pass1 stream tasks = Ret s /\
      bar_resolved stream legacy io (pass1_info io s) sb tasks (fun s tag => (s, tag) ∈ refs)).
Proof.
  intros Hok Hts Hsb. unfold derive_refs. pose proof (wp_run_pass1 stream tasks Hok Hts) as Hp1.
  destruct (run_pass1 stream tasks) as [s| |]; [|done..]. cbn [mbind res_bind].
  apply wp_bind. eapply wp_mono; [by apply wp_run_pass2|]. intros u [[seen Hu] Hres].
  rewrite encode_union_eq; [|apply Hu..]. cbn [mbind res_bind].
  set (g := fun s => (s, at64 U32_MAX (u_tag u) s)). set (refs := insertion_sort fst _).
  destruct (insertion_sort_spec fst (g <$> u_slots u)) as [Hperm _]. fold refs in Hperm.
  assert (fst <$> (g <$> u_slots u) = u_slots u) as Hfst.
  { rewrite -list_fmap_compose. by apply list_fmap_id. }
  apply wp_bind, wp_guard_fail. intros Hk. apply wp_bind, wp_guard_fail. intros Hne. cbn [wp]. split.
  { by apply bool_decide_eq_false_1 in Hne. }
  split; [apply insertion_sort_strict; rewrite Hfst; apply Hu|]. split.
  - apply Forall_forall. intros [sl tag] Hr. split.
    + assert (sl ∈ u_slots u) as Hin.
      { rewrite Hperm in Hr. apply list_elem_of_fmap in Hr as (s' & [= -> _] & ?). done. }
      pose proof (ui_slots _ _ _ Hu) as Hsl. rewrite Forall_forall in Hsl. by apply Hsl.
    + apply negb_false_iff in Hk. rewrite forallb_forall in Hk.
      apply (Hk (sl, tag)). by apply list_elem_of_In.
  - exists s. split; [done|]. intros t idx h Ht Hrec Hbar.
    destruct (Hres t idx h Ht Hrec Hbar) as (rs & r & Hrs & Hr & Hslot & tag & [Hin Htag] & Hrv).
    exists rs, r. split; [done|]. split; [done|]. split; [done|]. exists tag. split; [|done].
    rewrite Hperm. apply list_elem_of_fmap. exists (bar_slot h). split; [|done]. unfold g. by rewrite Htag.
Qed.

(** ** A concrete stream *)

(** One record of a BAR reference: slot, register, first payload word. *)
Definition bar_rec (slot addr p0 : Z) : list Z := [0x20000000 + slot * 2 ^ 23 + addr / 4; p0].

(** A task of the given records: the eight header words, then the records. *)
Definition task_image (recs : list (list Z)) : list Z :=
  let body := concat recs in
  let n := 8 + zlen body in
  (n * 2 ^ 16 :: replicate 7 0) ++ body ++ replicate (Z.to_nat ((- n) mod 4)) 0.

Definition image (tasks : list (list Z)) : bytes :=
  flat_map (le_bytes 4) (replicate 4 0 ++ concat tasks).

(** The shape of the proven add program: sources on slots 4 and 6, the
    destination on slot 5. *)
Definition demo_add : bytes :=
  image [task_image [bar_rec 4 TD_SRC_A 0; bar_rec 6 TD_SRC_B 0; bar_rec 5 TD_DST 0]].

Definition demo_io : list ane_m2_io :=
  [Io 5 0 0x8000; Io 6 0 0x8000; Io 7 0 0x8000; Io 4 1 0x8000].

(** [split_h14_tasks] terminates and stays inside the stream for every
    byte string. When it accepts, it returns at most [cap] tasks, each of at
    least eight words at a 16-byte frame boundary, entirely inside the
    stream, of exactly the length its header declares and followed by zero
    filler; the tasks are in order and disjoint; and every frame that
    declares words is one of them or lies inside one. *)
Theorem split_tasks_sound stream nbytes cap :
  bytes_ok stream -> 0 <= nbytes <= zlen stream -> 0 <= cap ->
  wp (split_h14_tasks stream nbytes cap) (fun tasks =>
    zlen tasks <= cap /\ Forall (task_ok stream nbytes) tasks /\
    StronglySorted (before nbytes) tasks /\ covered stream nbytes nbytes tasks).
Proof.
  intros Hok Hn Hcap. eapply wp_mono; [by apply wp_split|]. by intros tasks [].
Qed.

Lemma split_tasks_sound_witness :
  split_h14_tasks demo_add (zlen demo_add) 128 = Ret [Task 16 14] /\
  Forall (task_ok demo_add (zlen demo_add)) [Task 16 14].
Proof.
  assert (split_h14_tasks demo_add (zlen demo_add) 128 = Ret [Task 16 14]) as E by (by vm_compute).
  split; [exact E|].
  pose proof (split_tasks_sound demo_add (zlen demo_add) 128
    ltac:(vm_decide) ltac:(vm_decide) ltac:(vm_decide)) as H.
  rewrite E in H. exact (proj1 (proj2 H)).
Defined.

(** A filler frame is skipped on its word count alone. There is a stream
    that [split_h14_tasks] accepts with a nonzero byte outside every task. *)
Theorem split_filler_unchecked :
  exists stream, bytes_ok stream /\ byte_at stream 0 <> 0 /\
    split_h14_tasks stream (zlen stream) 128 = Ret [].
Proof.
  exists (1 :: replicate 15 0). split; [vm_decide|]. by split; [|vm_compute].
Qed.

(** Splitting a stream and deriving its operation refs never reads
    outside the stream nor writes outside the 64-entry tables, for every
    byte string. When it succeeds the refs are nonempty, strictly ascending
    by BAR slot (so every slot is bound once), each names the kernel section,
    the scratch buffer or an io buffer, and every BAR record of every task
    is bound: its slot is in the set, under the tag the rules give it in its
    task or, after a conflict between tasks, under the scratch buffer. *)
Theorem derive_refs_sound stream nbytes io sb :
  bytes_ok stream -> 0 <= nbytes <= zlen stream -> sb <> U32_MAX ->
  wp (tasks ← split_h14_tasks stream nbytes ANE_M2_MAX_TASKS;
      r ← derive_refs stream tasks io false sb;
      Ret (tasks, r.1)) (fun '(tasks, refs) =>
    refs <> [] /\ StronglySorted (fun x y => x.1 < y.1) refs /\
    Forall (fun r => slot_ok r.1 /\ known_tag io sb r.2 = true) refs /\
    exists s, run_pass1 stream tasks = Ret s /\
      bar_resolved stream false io (pass1_info io s) sb tasks (fun s tag => (s, tag) ∈ refs)).
Proof.
  intros Hok Hn Hsb. apply wp_bind. eapply wp_mono; [by apply wp_split|]. intros tasks Hs.
  apply wp_bind. eapply wp_mono; [apply wp_derive_refs; [done| |done]|by intros [refs u]].
  eapply Forall_impl; [apply Hs|]. intros t Ht. eapply task_ok_in; [exact Ht|lia].
Qed.

Lemma derive_refs_sound_witness :
  derive_refs demo_add [Task 16 14] demo_io false ANE_M2_SCRATCH_BUFID =
    Ret ([(4, 5); (5, 4); (6, 6)], false) /\
  Forall (fun r => slot_ok r.1 /\ known_tag demo_io ANE_M2_SCRATCH_BUFID r.2 = true)
    [(4, 5); (5, 4); (6, 6)].
Proof.
  split; [by vm_compute|].
  pose proof (derive_refs_sound demo_add (zlen demo_add) demo_io ANE_M2_SCRATCH_BUFID
    ltac:(vm_decide) ltac:(vm_decide) ltac:(discriminate)) as H.
  assert ((tasks ← split_h14_tasks demo_add (zlen demo_add) ANE_M2_MAX_TASKS;
    r ← derive_refs demo_add tasks demo_io false ANE_M2_SCRATCH_BUFID; Ret (tasks, r.1)) =
    Ret ([Task 16 14], [(4, 5); (5, 4); (6, 6)])) as E by (by vm_compute).
  rewrite E in H. exact (proj1 (proj2 (proj2 H))).
Defined.

(** The source-B slots are collected without marking them as seen, so a
    blend program that reads one operand slot twice gets other channels than
    the program that reads it once: the same three BAR slots bind to
    channels 5, 6, 4 in one case and 6, 7, 4 in the other. *)
Theorem blend_duplicate_shifts_channels :
  let once := image [task_image [bar_rec 4 TD_SRC_B 0; bar_rec 5 TD_SRC_A 0; bar_rec 8 TD_DST 0]] in
  let twice := image [task_image [bar_rec 4 TD_SRC_B 0; bar_rec 4 TD_SRC_B 0;
                                  bar_rec 5 TD_SRC_A 0; bar_rec 8 TD_DST 0]] in
  derive_refs once [Task 16 14] demo_io false ANE_M2_SCRATCH_BUFID =
    Ret ([(4, 5); (5, 6); (8, 4)], false) /\
  derive_refs twice [Task 16 16] demo_io false ANE_M2_SCRATCH_BUFID =
    Ret ([(4, 6); (5, 7); (8, 4)], false).
Proof. by vm_compute. Qed.
