(* ===== verification/M2Tags.v ===== *)
(** * libane/ane_m2.c: a reference definition of the derived bindings

    [derive_refs] of [M2Walk] walks the task stream twice, keeps nine tables of
    64 slots and two sorted lists. Here the same bindings are defined from the
    list of BAR references alone, and the two are shown equal. *)

From stdpp Require Import sorting.
From S2P Require Import Prelude M2Walk.

#[local] Open Scope Z_scope.

(** ** The BAR references of a task *)

(** BAR slot, register, first payload word (the byte offset). *)
Record bar_ev := BarEv { b_slot : Z; b_addr : Z; b_off : Z }.

Definition collect (stream : bytes) (t : ane_task) (acc : list bar_ev) (h idx n : Z) : res (list bar_ev) :=
  if is_bar_ref h then p0 ← payload0 stream t idx; Ret (acc ++ [BarEv (bar_slot h) (bar_addr h) p0])
  else Ret acc.

(** In the order of the records. *)
Definition bar_refs (stream : bytes) (t : ane_task) : res (list bar_ev) :=
  walk_task stream t (collect stream t) [].

(** ** The reference definition *)

Definition hits (slot addr : Z) (ev : bar_ev) : bool := (b_slot ev =? slot) && (b_addr ev =? addr).

(** The slots that enter the list of source register [reg]: slots above 1 that
    no earlier reference writes. With [once], a slot enters with its first
    reference or not at all; without, with every reference. *)
Fixpoint src_inputs (reg : Z) (once : bool) (pre evs : list bar_ev) : list Z :=
  match evs with
  | [] => []
  | ev :: evs' =>
      (if (b_addr ev =? reg) && (1 <? b_slot ev) && negb (existsb (hits (b_slot ev) TD_DST) pre) &&
          negb (once && existsb (hits (b_slot ev) reg) pre)
       then [b_slot ev] else []) ++ src_inputs reg once (pre ++ [ev]) evs'
  end.

Definition inputs_A (evs : list bar_ev) : list Z := src_inputs TD_SRC_A true [] evs.

(** A slot referenced twice through source B is in it twice. *)
Definition inputs_B (evs : list bar_ev) : list Z := src_inputs TD_SRC_B false [] evs.

Definition count (p : Z -> bool) (l : list Z) : Z := zlen (List.filter p l).

(** Two or more source-A inputs; a source-B input below a source-A input. *)
Definition matmul (evs : list bar_ev) : bool := 2 <=? zlen (inputs_A evs).

Definition blend (evs : list bar_ev) : bool :=
  existsb (fun b => existsb (fun a => b <? a) (inputs_A evs)) (inputs_B evs).

(** The channel of an input of a blend: source-B entries take 5, 6, ... from
    the highest slot down, source-A slots go on ascending. *)
Definition blend_channel (evs : list bar_ev) (slot : Z) : option Z :=
  if bool_decide (slot ∈ inputs_A evs) then
    Some (5 + zlen (inputs_B evs) + count (fun a => a <? slot) (inputs_A evs))
  else if bool_decide (slot ∈ inputs_B evs) then Some (4 + count (fun b => slot <=? b) (inputs_B evs))
  else None.

(** The offsets written through a slot, and the smallest step between two in a
    row, zero with fewer than two. *)
Definition dst_offsets (evs : list bar_ev) (slot : Z) : list Z := b_off <$> List.filter (hits slot TD_DST) evs.

Fixpoint steps (offs : list Z) : list Z :=
  match offs with
  | a :: (b :: _) as offs' => Z.abs (b - a) :: steps offs'
  | _ => []
  end.

Definition chunk (offs : list Z) : Z := match steps offs with [] => 0 | d :: ds => foldl Z.min d ds end.

Definition furthest (offs : list Z) : Z := foldl Z.max 0 offs.

(** The scratch buffer, when it is enabled. *)
Definition scratch (sb : Z) : option Z := if sb =? 0 then None else Some sb.

(** The buffer the reference of register [addr] at [slot] binds, in a program
    with references [evs] whose output has [out] bytes. *)
Definition tag_rule (evs : list bar_ev) (sb out slot addr : Z) : option Z :=
  if is_kdma addr then Some 2
  else if addr =? TD_DST then
    let offs := dst_offsets evs slot in
    if negb (matmul evs || blend evs) || (chunk offs =? 0) || (furthest offs <=? out) then Some 4 else scratch sb
  else if is_src addr then
    if slot <=? 1 then Some 2
    else if blend evs then
      match blend_channel evs slot with Some ch => Some ch | None => scratch sb end
    else if matmul evs then Some slot
    else if slot <=? 3 then None else Some (if addr =? TD_SRC_A then 5 else 6)
  else None.

Definition at_slot (slot : Z) (ev : bar_ev) : bool := b_slot ev =? slot.

(** The buffers the tasks give [slot]: in each task its first reference
    counts. *)
Definition slot_tags (evss : list (list bar_ev)) (sb out slot : Z) : list Z :=
  omap (fun evs => ev ← head (List.filter (at_slot slot) evs);
                   tag_rule (concat evss) sb out slot (b_addr ev)) evss.

(** One buffer when they agree, else the scratch buffer. *)
Definition merge (sb : Z) (tags : list Z) : option Z :=
  match tags with [] => None | t :: ts => Some (if forallb (Z.eqb t) ts then t else sb) end.

Definition binding (evss : list (list bar_ev)) (sb out slot : Z) : option Z := merge sb (slot_tags evss sb out slot).

Definition bindings (evss : list (list bar_ev)) (sb out : Z) : list pair :=
  omap (fun slot => (fun t => (slot, t)) <$> binding evss sb out slot) (seqZ 0 64).

(** The furthest offset any reference of [slot] names, through any register. *)
Definition slot_reach (evss : list (list bar_ev)) (slot : Z) : Z :=
  furthest (b_off <$> List.filter (at_slot slot) (concat evss)).

(** ** Walks as folds over the references *)

Lemma payload0_reads stream t idx :
  bytes_ok stream -> task_in stream t -> 0 <= idx -> idx + 2 <= words t -> exists p0, payload0 stream t idx = Ret p0.
Proof.
  intros Hok (H0 & H8 & Hl) Hi Hw. unfold payload0. eexists. apply le32_eq; lia.
Qed.

Section fold.
Context (stream : bytes) (t : ane_task) (Hok : bytes_ok stream) (Ht : task_in stream t).
Context {S : Type} (f : S -> Z -> Z -> Z -> res S) (step : S -> bar_ev -> res S).
Context (Hf : forall s h idx p0 s2, payload0 stream t idx = Ret p0 -> f s h idx (rec_count h) = Ret s2 ->
  if is_bar_ref h then step s (BarEv (bar_slot h) (bar_addr h) p0) = Ret s2 else s2 = s).

Lemma walk_fold s s' :
  walk_task stream t f s = Ret s' ->
  exists evs, bar_refs stream t = Ret evs /\ foldM step s evs = Ret s'.
Proof using Hok Ht Hf.
  unfold bar_refs, walk_task. intros H. apply bind_Ret_inv in H as (w7 & -> & H). cbn [mbind res_bind].
  pose proof (first_record_range w7) as Hi. revert Hi H.
  generalize (Datatypes.S (Z.to_nat (words t))) (first_record w7). intros fuel i [Hi _] H.
  assert (forall acc, exists evs, loop fuel (walk_body stream t (collect stream t)) (i, acc) = Ret (acc ++ evs) /\
    foldM step s evs = Ret s') as Hgo; [|exact (Hgo [])].
  revert i s Hi H. induction fuel as [|fuel IH]; intros i s Hi H acc; [done|]. rewrite loop_S in H.
  apply bind_Ret_inv in H as (r & Hb & H). unfold walk_body in Hb.
  assert (forall r', walk_body stream t (collect stream t) (i, acc) = Ret r' ->
    loop (Datatypes.S fuel) (walk_body stream t (collect stream t)) (i, acc) =
    match r' with inl s' => loop fuel (walk_body stream t (collect stream t)) s' | inr a => Ret a end) as E.
  { intros r' Hr. by rewrite loop_S Hr. }
  unfold walk_body at 1 in E. destruct (i <? words t).
  2: { injection Hb as <-. injection H as <-. exists []. rewrite app_nil_r. split; [exact (E _ eq_refl)|done]. }
  apply bind_Ret_inv in Hb as (h & Eh & Hb). rewrite Eh in E. cbn [mbind res_bind] in E.
  apply bind_Ret_inv in Hb as ([] & Eg & Hb). rewrite Eg in E. cbn [mbind res_bind] in E.
  apply bind_Ret_inv in Hb as (s2 & Hs & Hb). injection Hb as <-. pose proof (rec_count_pos h) as Hn.
  assert (i + 1 + rec_count h <= words t) as Hfit by (unfold guard_fail in Eg; case_match; [done|lia]).
  destruct (payload0_reads stream t i Hok Ht ltac:(lia) ltac:(lia)) as [p0 Ep]. apply (Hf _ _ _ _ _ Ep) in Hs.
  unfold collect at 1 in E. destruct (is_bar_ref h).
  - rewrite Ep in E. cbn [mbind res_bind] in E.
    destruct (IH (i + (1 + rec_count h)) s2 ltac:(lia) H (acc ++ [BarEv (bar_slot h) (bar_addr h) p0])) as (evs & He & Hr).
    exists (BarEv (bar_slot h) (bar_addr h) p0 :: evs). rewrite (E _ eq_refl) He -app_assoc. cbn [app foldM]. by rewrite Hs.
  - subst s2. cbn [mbind res_bind] in E. destruct (IH (i + (1 + rec_count h)) s ltac:(lia) H acc) as (evs & He & Hr).
    exists evs. by rewrite (E _ eq_refl) He.
Qed.
End fold.


(** ** Pass 1 *)

Definition ev_ok (ev : bar_ev) : Prop := slot_ok (b_slot ev) /\ in_range 32 (b_off ev).

Lemma bar_refs_ok stream t evs :
  bytes_ok stream -> task_in stream t -> bar_refs stream t = Ret evs -> Forall ev_ok evs.
Proof.
  intros Hok Ht H. unfold bar_refs in H. eapply (wp_inv _ (Forall ev_ok)); [|exact H].
  eapply (wp_walk_task _ Hok _ Ht _ (Forall ev_ok)); [constructor|].
  intros acc h idx n Hacc Hh Hidx Hn _ Hfit _. unfold collect, payload0. destruct Ht as (H0 & H8 & Hl).
  destruct (is_bar_ref h); [|done]. rewrite le32_eq; [|lia..]. cbn.
  apply Forall_app_2; [done|]. apply Forall_singleton. split; [apply bar_slot_ok|by apply word32_at_range].
Qed.

Definition p1_step (s : pass1) (ev : bar_ev) : res pass1 :=
  if b_addr ev =? TD_DST then Ret (pass1_dst s (b_slot ev) (b_off ev))
  else if b_addr ev =? TD_SRC_A then pass1_srcA s (b_slot ev) (b_off ev)
  else if b_addr ev =? TD_SRC_B then pass1_srcB s (b_slot ev) (b_off ev)
  else Ret s.

Lemma pass1_record_step stream t s h idx p0 s2 :
  payload0 stream t idx = Ret p0 -> pass1_record stream t s h idx (rec_count h) = Ret s2 ->
  if is_bar_ref h then p1_step s (BarEv (bar_slot h) (bar_addr h) p0) = Ret s2 else s2 = s.
Proof.
  unfold pass1_record. intros ->. destruct (is_bar_ref h); [|by intros [= <-]].
  intros H. by apply bind_Ret_inv in H as ([] & _ & H).
Qed.

(** The references of all tasks. *)
Definition task_refs (stream : bytes) (tasks : list ane_task) (evss : list (list bar_ev)) : Prop :=
  Forall2 (fun t evs => bar_refs stream t = Ret evs) tasks evss.

Lemma pass1_fold stream tasks s :
  bytes_ok stream -> Forall (task_in stream) tasks -> run_pass1 stream tasks = Ret s ->
  exists evss, task_refs stream tasks evss /\ foldM p1_step pass1_init (concat evss) = Ret s.
Proof.
  intros Hok Hts. unfold run_pass1. generalize pass1_init. induction Hts as [|t tasks Ht _ IH]; intros s0 H; cbn [foldM] in H.
  { exists []. split; [constructor|done]. }
  apply bind_Ret_inv in H as (s1 & H1 & H).
  destruct (walk_fold stream t Hok Ht _ p1_step (pass1_record_step stream t) s0 s1 H1) as (evs & He & Hs).
  destruct (IH s1 H) as (evss & Hr & Hc). exists (evs :: evss). split; [by constructor|].
  cbn [concat]. rewrite foldM_app Hs. exact Hc.
Qed.

Lemma src_inputs_snoc reg once pre evs ev :
  src_inputs reg once pre (evs ++ [ev]) = src_inputs reg once pre evs ++
    (if (b_addr ev =? reg) && (1 <? b_slot ev) && negb (existsb (hits (b_slot ev) TD_DST) (pre ++ evs)) &&
        negb (once && existsb (hits (b_slot ev) reg) (pre ++ evs))
     then [b_slot ev] else []).
Proof.
  revert pre. induction evs as [|x evs IH]; intros pre; cbn [app src_inputs].
  - by rewrite !app_nil_r.
  - rewrite IH -!app_assoc. done.
Qed.

Lemma hits_snoc slot addr evs ev : existsb (hits slot addr) (evs ++ [ev]) = existsb (hits slot addr) evs || hits slot addr ev.
Proof. rewrite existsb_app. cbn [existsb]. by rewrite orb_false_r. Qed.

Lemma dst_offsets_snoc evs ev slot :
  dst_offsets (evs ++ [ev]) slot = dst_offsets evs slot ++ (if hits slot TD_DST ev then [b_off ev] else []).
Proof. unfold dst_offsets. rewrite List.filter_app fmap_app. cbn [List.filter]. by destruct (hits slot TD_DST ev). Qed.

Record p1_inv (evs : list bar_ev) (s : pass1) : Prop := {
  pi_dst_len : length (p_dst s) = 64%nat;
  pi_has_len : length (p_has_dst s) = 64%nat;
  pi_rank_len : length (p_rank_srcA s) = 64%nat;
  pi_dst slot : slot_ok slot -> at64 track0 (p_dst s) slot = foldl track_offset track0 (dst_offsets evs slot);
  pi_has slot : slot_ok slot -> at64 false (p_has_dst s) slot = existsb (hits slot TD_DST) evs;
  pi_rank slot : slot_ok slot -> at64 U32_MAX (p_rank_srcA s) slot = if existsb (hits slot TD_SRC_A) evs then 0 else U32_MAX;
  pi_rankB : p_rank_srcB s = replicate 64 U32_MAX;
  pi_A : srcA_slots s = inputs_A evs;
  pi_B : srcB_slots s = inputs_B evs;
}.

Lemma p1_inv_init : p1_inv [] pass1_init.
Proof. split; try done; intros slot Hs; exact (lookup_replicate_default _ 64 (Z.to_nat slot)). Qed.

(** A reference of a register that is not the destination. *)
Lemma not_dst ev : b_addr ev <> TD_DST -> forall slot, hits slot TD_DST ev = false.
Proof. intros H slot. unfold hits. rewrite (proj2 (Z.eqb_neq _ _) H). by rewrite andb_false_r. Qed.

Lemma not_srcA ev : b_addr ev <> TD_SRC_A -> forall slot, hits slot TD_SRC_A ev = false.
Proof. intros H slot. unfold hits. rewrite (proj2 (Z.eqb_neq _ _) H). by rewrite andb_false_r. Qed.

Lemma hits_self ev addr slot : b_addr ev = addr -> hits slot addr ev = bool_decide (b_slot ev = slot).
Proof. intros H. unfold hits. rewrite H Z.eqb_refl andb_true_r. by case_bool_decide; [apply Z.eqb_eq|apply Z.eqb_neq]. Qed.

Lemma p1_inv_step evs s ev s' : ev_ok ev -> p1_inv evs s -> p1_step s ev = Ret s' -> p1_inv (evs ++ [ev]) s'.
Proof.
  intros [Hs _] [L1 L2 L3 H1 H2 H3 HB HSA HSB]. unfold p1_step.
  destruct (Z.eqb_spec (b_addr ev) TD_DST) as [Ea|Ea].
  - intros [= <-]. split; cbn [pass1_dst p_dst p_has_dst p_rank_srcA p_rank_srcB srcA_slots srcB_slots]; try done.
    + unfold upd64. by rewrite length_insert.
    + unfold upd64. by rewrite length_insert.
    + intros slot Hsl. rewrite at64_upd64 // dst_offsets_snoc foldl_app (hits_self _ TD_DST) //.
      case_bool_decide as E; [|by rewrite H1]. rewrite -E H1 //.
    + intros slot Hsl. rewrite at64_upd64 // hits_snoc (hits_self _ TD_DST) //.
      case_bool_decide; [by rewrite orb_true_r|]. by rewrite H2 // orb_false_r.
    + intros slot Hsl. rewrite H3 // hits_snoc not_srcA ?Ea // orb_false_r //.
    + unfold inputs_A. rewrite src_inputs_snoc Ea. cbn [andb]. rewrite app_nil_r. exact HSA.
    + unfold inputs_B. rewrite src_inputs_snoc Ea. cbn [andb]. rewrite app_nil_r. exact HSB.
  - assert (forall slot, dst_offsets (evs ++ [ev]) slot = dst_offsets evs slot) as Hd.
    { intros slot. by rewrite dst_offsets_snoc not_dst // app_nil_r. }
    assert (forall slot, existsb (hits slot TD_DST) (evs ++ [ev]) = existsb (hits slot TD_DST) evs) as Hh.
    { intros slot. by rewrite hits_snoc not_dst // orb_false_r. }
    destruct (Z.eqb_spec (b_addr ev) TD_SRC_A) as [EA|EA].
    + unfold pass1_srcA. cbv zeta. rewrite H3 // H2 //. 
      assert (inputs_B (evs ++ [ev]) = inputs_B evs) as EB.
      { unfold inputs_B. rewrite src_inputs_snoc EA. cbn [andb]. by rewrite app_nil_r. }
      assert (forall slot, slot_ok slot -> (if bool_decide (b_slot ev = slot) then 0
        else if existsb (hits slot TD_SRC_A) evs then 0 else U32_MAX) =
        if existsb (hits slot TD_SRC_A) (evs ++ [ev]) then 0 else U32_MAX) as Hr.
      { intros slot _. rewrite hits_snoc (hits_self _ TD_SRC_A) //. case_bool_decide; [by rewrite orb_true_r|by rewrite orb_false_r]. }
      pose proof (src_inputs_snoc TD_SRC_A true [] evs ev) as EAA. rewrite EA Z.eqb_refl in EAA. cbn [andb app] in EAA.
      destruct (existsb (hits (b_slot ev) TD_SRC_A) evs) eqn:Eseen.
      * intros [= <-]. rewrite andb_false_r app_nil_r in EAA.
        split; cbn [p_dst p_has_dst p_rank_srcA p_rank_srcB srcA_slots srcB_slots]; try done.
        -- intros slot Hsl. rewrite Hd. by apply H1.
        -- intros slot Hsl. rewrite Hh. by apply H2.
        -- intros slot Hsl. rewrite H3 // -Hr //. case_bool_decide as E; [|done]. by rewrite -E Eseen.
        -- unfold inputs_A. by rewrite EAA.
        -- by rewrite EB.
      * intros H. apply bind_Ret_inv in H as (slots & Hsl' & H). injection H as <-.
        cbn [negb] in EAA. rewrite andb_true_r in EAA.
        split; cbn [p_dst p_has_dst p_rank_srcA p_rank_srcB srcA_slots srcB_slots]; try done.
        -- unfold upd64. by rewrite length_insert.
        -- intros slot Hsl. rewrite Hd. by apply H1.
        -- intros slot Hsl. rewrite Hh. by apply H2.
        -- intros slot Hsl. rewrite at64_upd64 // H3 // Hr //.
        -- unfold inputs_A. rewrite EAA. rewrite Z.gtb_ltb in Hsl'. destruct (_ && _) in Hsl' |- *.
           ++ apply bind_Ret_inv in Hsl' as ([] & _ & [= <-]). by rewrite HSA.
           ++ injection Hsl' as <-. by rewrite app_nil_r.
        -- by rewrite EB.
    + assert (forall slot, existsb (hits slot TD_SRC_A) (evs ++ [ev]) = existsb (hits slot TD_SRC_A) evs) as Hha.
      { intros slot. by rewrite hits_snoc not_srcA // orb_false_r. }
      assert (inputs_A (evs ++ [ev]) = inputs_A evs) as EAA.
      { unfold inputs_A. rewrite src_inputs_snoc (proj2 (Z.eqb_neq _ _) EA). cbn [andb]. by rewrite app_nil_r. }
      pose proof (src_inputs_snoc TD_SRC_B false [] evs ev) as EB. cbn [app andb negb] in EB. rewrite andb_true_r in EB.
      destruct (Z.eqb_spec (b_addr ev) TD_SRC_B) as [EBB|EBB]; cbn [andb] in EB.
      * unfold pass1_srcB. cbv zeta. intros H. apply bind_Ret_inv in H as (slots & Hsl' & H). injection H as <-.
        split; cbn [p_dst p_has_dst p_rank_srcA p_rank_srcB srcA_slots srcB_slots]; try done.
        -- intros slot Hsl. rewrite Hd. by apply H1.
        -- intros slot Hsl. rewrite Hh. by apply H2.
        -- intros slot Hsl. rewrite Hha. by apply H3.
        -- by rewrite EAA.
        -- unfold inputs_B. rewrite EB. rewrite HB in Hsl'. unfold at64 at 1 in Hsl'. rewrite lookup_replicate_default in Hsl'.
           rewrite Z.eqb_refl Z.gtb_ltb H2 // in Hsl'. cbn [andb] in Hsl'. destruct (_ && _) in Hsl' |- *.
           ++ apply bind_Ret_inv in Hsl' as ([] & _ & [= <-]). by rewrite HSB.
           ++ injection Hsl' as <-. by rewrite app_nil_r.
      * intros [= <-]. rewrite app_nil_r in EB. split; try done.
        -- intros slot Hsl. rewrite Hd. by apply H1.
        -- intros slot Hsl. rewrite Hh. by apply H2.
        -- intros slot Hsl. rewrite Hha. by apply H3.
        -- by rewrite EAA.
        -- unfold inputs_B. by rewrite EB.
Qed.

Lemma p1_inv_run evs s : Forall ev_ok evs -> foldM p1_step pass1_init evs = Ret s -> p1_inv evs s.
Proof.
  revert s. induction evs as [|ev evs IH] using rev_ind; intros s Hok H.
  { injection H as <-. apply p1_inv_init. }
  apply Forall_app in Hok as [Hok Hev]. apply Forall_cons in Hev as [Hev _]. rewrite foldM_app in H.
  apply bind_Ret_inv in H as (s1 & H1 & H). cbn [foldM] in H. apply bind_Ret_inv in H as (s2 & H2 & [= <-]).
  exact (p1_inv_step evs s1 ev s2 Hev (IH s1 Hok H1) H2).
Qed.

(** ** The offsets of a slot *)

Lemma steps_snoc l a p : steps ((l ++ [a]) ++ [p]) = steps (l ++ [a]) ++ [Z.abs (p - a)].
Proof.
  induction l as [|x l IH]; [done|]. destruct l as [|y l]; [done|]. cbn [app] in IH |- *. cbn [steps] in IH |- *.
  by rewrite IH.
Qed.

Lemma chunk_snoc l a p :
  chunk ((l ++ [a]) ++ [p]) = if bool_decide (l = []) then Z.abs (p - a) else Z.min (chunk (l ++ [a])) (Z.abs (p - a)).
Proof.
  unfold chunk. rewrite steps_snoc. case_bool_decide as E; [by subst l|].
  destruct (steps (l ++ [a])) as [|d ds] eqn:Es.
  - destruct l as [|x [|y l]]; done.
  - cbn [app]. by rewrite foldl_app.
Qed.

(** The bookkeeping of one slot. *)
Lemma track_run offs :
  let k := foldl track_offset track0 offs in
  tk_max k = furthest offs /\ tk_chunk k = chunk offs /\
  tk_n k = (match offs with [] => 0 | [_] => 1 | _ => 2 end) /\
  match reverse offs with [] => True | [a] => tk_a k = a | b :: _ => tk_b k = b end.
Proof.
  cbv zeta. induction offs as [|p offs IH] using rev_ind; [done|]. rewrite foldl_app. cbn [foldl].
  destruct IH as (Hm & Hc & Hn & Hr). set (k := foldl track_offset track0 offs) in *. clearbody k.
  assert (forall mx, mx = tk_max k -> (if p >? mx then p else mx) = furthest (offs ++ [p])) as Hmx.
  { intros mx ->. unfold furthest. rewrite foldl_app. cbn [foldl]. fold (furthest offs). rewrite -Hm.
    destruct (Z.gtb_spec p (tk_max k)); lia. }
  unfold track_offset. cbv zeta. rewrite (Hmx _ eq_refl).
  destruct offs as [|a offs] using rev_ind; [rewrite Hn; cbn; by rewrite Hc|]. try clear IHoffs.
  rewrite reverse_snoc in Hr. rewrite reverse_snoc (reverse_snoc offs a). rewrite chunk_snoc.
  destruct offs as [|x offs].
  - cbn in Hn, Hr |- *. rewrite Hn Hr. cbn. split_and!; try done. destruct (Z.gtb_spec p a); lia.
  - assert (tk_n k = 2) as Hn2 by (rewrite Hn; by destruct offs).
    assert (tk_b k = a) as Hb.
    { destruct (reverse (x :: offs)) eqn:E; [|exact Hr]. apply (f_equal length) in E. by rewrite length_reverse in E. }
    rewrite Hn2 Hb. cbn [Z.eqb]. cbn. rewrite Hc. split_and!; try done.
    + change (x :: offs ++ [a]) with ((x :: offs) ++ [a]). generalize (chunk ((x :: offs) ++ [a])). intros c.
      clear. destruct (Z.gtb_spec p a); case_match; lia.
    + by destruct offs.
Qed.

Lemma chunk_range offs : Forall (in_range 32) offs -> 0 <= chunk offs < 2 ^ 32.
Proof.
  intros Hok. assert (Forall (fun d => 0 <= d < 2 ^ 32) (steps offs)) as Hs.
  { induction Hok as [|a offs Ha Hok IH]; [constructor|]. destruct Hok as [|b offs Hb Hok]; [constructor|].
    cbn [steps]. constructor; [|exact IH]. unfold in_range in *. lia. }
  unfold chunk. destruct Hs as [|d ds Hd Hs]; [lia|]. revert d Hd. induction Hs as [|x ds Hx _ IH]; intros d Hd; [done|].
  cbn [foldl]. apply IH. lia.
Qed.

Lemma furthest_range offs : Forall (in_range 32) offs -> 0 <= furthest offs < 2 ^ 32.
Proof.
  intros Hok. assert (forall m, 0 <= m < 2 ^ 32 -> 0 <= foldl Z.max m offs < 2 ^ 32) as H; [|by apply H].
  induction Hok as [|x offs Hx _ IH]; intros m Hm; [done|]. cbn [foldl]. apply IH. unfold in_range in Hx. lia.
Qed.

Lemma dst_offsets_range evs slot : Forall ev_ok evs -> Forall (in_range 32) (dst_offsets evs slot).
Proof.
  intros Hok. unfold dst_offsets. apply Forall_fmap. rewrite Forall_forall in Hok. apply Forall_forall.
  intros ev Hev. rewrite list_elem_of_In List.filter_In -list_elem_of_In in Hev. exact (proj2 (Hok ev (proj1 Hev))).
Qed.

(** ** The inputs *)

Lemma src_inputs_in reg once pre evs s :
  s ∈ src_inputs reg once pre evs -> 1 < s /\ exists ev, ev ∈ evs /\ b_slot ev = s /\ b_addr ev = reg.
Proof.
  revert pre. induction evs as [|ev evs IH]; intros pre; cbn [src_inputs]; [by intros ?%elem_of_nil|].
  intros [H|H]%elem_of_app.
  - destruct (_ && _) eqn:E in H; [|by apply elem_of_nil in H]. apply list_elem_of_singleton in H as ->.
    repeat (apply andb_true_iff in E as [E ?]). split; [lia|]. exists ev. split; [left|]. split; [done|lia].
  - destruct (IH _ H) as (? & ev' & ? & ?). split; [done|]. exists ev'. split; [by right|done].
Qed.

Definition input_slot (s : Z) : Prop := 1 < s < 64.

Lemma src_inputs_ok reg once evs : Forall ev_ok evs -> Forall input_slot (src_inputs reg once [] evs).
Proof.
  intros Hok. apply Forall_forall. intros s (H1 & ev & Hev & <- & _)%src_inputs_in. rewrite Forall_forall in Hok.
  destruct (Hok ev Hev) as [Hs _]. unfold slot_ok, input_slot in *. lia.
Qed.

Lemma inputs_A_nodup evs : NoDup (inputs_A evs).
Proof.
  induction evs as [|ev evs IH] using rev_ind; [apply NoDup_nil_2|]. unfold inputs_A in *. rewrite src_inputs_snoc.
  cbn [app]. destruct (_ && _) eqn:E; [|by rewrite app_nil_r]. apply NoDup_app. split; [done|].
  split; [|apply NoDup_singleton]. intros s Hs ->%list_elem_of_singleton.
  repeat (apply andb_true_iff in E as [E ?]).
  apply src_inputs_in in Hs as (_ & ev' & Hev & Hsl & Ha).
  assert (existsb (hits (b_slot ev) TD_SRC_A) evs = true) as Hh; [|by rewrite Hh in H].
  apply existsb_exists. exists ev'. split; [by apply list_elem_of_In|]. unfold hits. lia.
Qed.

(** ** The blend ranks *)

Lemma count_perm p l l' : l ≡ₚ l' -> count p l = count p l'.
Proof.
  intros Hp. unfold count. induction Hp; cbn [List.filter]; try (repeat case_match; unfold zlen in *; cbn in *; lia).
Qed.

Lemma count_app p l l' : count p (l ++ l') = count p l + count p l'.
Proof. unfold count. by rewrite List.filter_app zlen_app. Qed.

Lemma count_all p l : Forall (fun x => p x = true) l -> count p l = zlen l.
Proof. unfold count. induction 1 as [|x l Hx _ IH]; [done|]. cbn. rewrite Hx. unfold zlen in *. cbn. lia. Qed.

Lemma sorted_snoc (R : relation Z) l x : StronglySorted R (l ++ [x]) -> StronglySorted R l /\ Forall (fun y => R y x) l.
Proof.
  induction l as [|y l IH]; [repeat constructor|]. cbn [app]. intros H. inversion H as [|? ? H1 H2]; subst.
  destruct (IH H1) as [I1 I2]. apply Forall_app in H2 as [H2 H3]. apply Forall_cons in H3 as [H3 _].
  split; [by constructor|]. constructor; [done|]. done.
Qed.

Section ranks.
Context (r : list Z) (k : Z) (Hr : length r = 64%nat).

Lemma assign_state l : Forall slot_ok l ->
  length (foldl blend_assign (r, k) l).1 = 64%nat /\ (foldl blend_assign (r, k) l).2 = k + zlen l.
Proof using Hr.
  intros Hl. induction l as [|x l IH] using rev_ind; [split; [done|]; unfold zlen; cbn; lia|].
  apply Forall_app in Hl as [Hl _]. destruct (IH Hl) as [I1 I2]. rewrite foldl_app. cbn. unfold upd64. rewrite length_insert I2.
  split; [done|]. rewrite zlen_app. unfold zlen. cbn. lia.
Qed.

(** Down a descending list a slot gets the number of entries not below it. *)
Lemma assign_desc l s :
  Forall slot_ok l -> slot_ok s -> StronglySorted (fun x y => y <= x) l ->
  at64 U32_MAX (foldl blend_assign (r, k) l).1 s =
    if bool_decide (s ∈ l) then 4 + k + count (fun b => s <=? b) l else at64 U32_MAX r s.
Proof using Hr.
  intros Hl Hs. induction l as [|x l IH] using rev_ind; intros Hso; [done|].
  apply Forall_app in Hl as [Hl Hx]. apply Forall_cons in Hx as [Hx _]. destruct (sorted_snoc _ _ _ Hso) as [Hso' Hle].
  specialize (IH Hl Hso'). destruct (assign_state l Hl) as [I1 I2]. rewrite foldl_app. cbn [foldl blend_assign fst].
  rewrite at64_upd64 // I2 IH count_app.
  assert (count (fun b => s <=? b) [x] = if s <=? x then 1 else 0) as -> by (unfold count; cbn; by destruct (s <=? x)).
  destruct (decide (x = s)) as [->|Hne].
  - rewrite bool_decide_eq_true_2 // (bool_decide_eq_true_2 (s ∈ l ++ [s])); [|set_solver].
    rewrite Z.leb_refl count_all; [lia|]. eapply Forall_impl; [exact Hle|]. cbn. intros y Hy. lia.
  - rewrite (bool_decide_eq_false_2 (x = s)) //. case_bool_decide as E.
    + rewrite bool_decide_eq_true_2; [|set_solver]. rewrite Forall_forall in Hle. specialize (Hle s E).
      destruct (Z.leb_spec s x); lia.
    + rewrite bool_decide_eq_false_2; [done|]. set_solver.
Qed.

(** Up a strictly ascending list it gets the number of entries below it. *)
Lemma assign_asc l s :
  Forall slot_ok l -> slot_ok s -> StronglySorted Z.lt l ->
  at64 U32_MAX (foldl blend_assign (r, k) l).1 s =
    if bool_decide (s ∈ l) then 5 + k + count (fun a => a <? s) l else at64 U32_MAX r s.
Proof using Hr.
  intros Hl Hs. induction l as [|x l IH] using rev_ind; intros Hso; [done|].
  apply Forall_app in Hl as [Hl Hx]. apply Forall_cons in Hx as [Hx _]. destruct (sorted_snoc _ _ _ Hso) as [Hso' Hle].
  specialize (IH Hl Hso'). destruct (assign_state l Hl) as [I1 I2]. rewrite foldl_app. cbn [foldl blend_assign fst].
  rewrite at64_upd64 // I2 IH count_app.
  assert (count (fun a => a <? s) [x] = if x <? s then 1 else 0) as -> by (unfold count; cbn; by destruct (x <? s)).
  destruct (decide (x = s)) as [->|Hne].
  - rewrite bool_decide_eq_true_2 // (bool_decide_eq_true_2 (s ∈ l ++ [s])); [|set_solver].
    rewrite Z.ltb_irrefl count_all; [lia|]. eapply Forall_impl; [exact Hle|]. cbn. intros y Hy. lia.
  - rewrite (bool_decide_eq_false_2 (x = s)) //. case_bool_decide as E.
    + rewrite bool_decide_eq_true_2; [|set_solver]. rewrite Forall_forall in Hle. specialize (Hle s E).
      destruct (Z.ltb_spec x s); lia.
    + rewrite bool_decide_eq_false_2; [done|]. set_solver.
Qed.
End ranks.

(** Where no slot is read twice, source B lists each slot with its first
    reference, as source A does: the ranks are those of the comment above the
    blend detection. *)
Lemma inputs_B_distinct evs : NoDup (inputs_B evs) -> inputs_B evs = src_inputs TD_SRC_B true [] evs.
Proof.
  unfold inputs_B. induction evs as [|ev evs IH] using rev_ind; [done|]. rewrite !src_inputs_snoc. intros Hnd.
  apply NoDup_app in Hnd as (Hnd & Hdis & _). rewrite -IH //. f_equal. cbn [app andb negb] in Hdis |- *. rewrite andb_true_r in Hdis |- *.
  destruct ((b_addr ev =? TD_SRC_B) && (1 <? b_slot ev) && negb (existsb (hits (b_slot ev) TD_DST) evs)) eqn:E; [|done].
  cbn [andb]. destruct (existsb (hits (b_slot ev) TD_SRC_B) evs) eqn:Eh; [exfalso|done].
  assert (b_slot ev ∈ src_inputs TD_SRC_B false [] evs) as Hin; [|by apply (Hdis _ Hin); left].
  repeat (apply andb_true_iff in E as [E ?]). clear Hnd Hdis IH.
  induction evs as [|e evs IH] using rev_ind; [done|]. rewrite src_inputs_snoc. cbn [app].
  rewrite hits_snoc in Eh. rewrite existsb_app in H. apply negb_true_iff, orb_false_iff in H as [Hd _].
  apply elem_of_app. destruct (existsb (hits (b_slot ev) TD_SRC_B) evs); [left; apply IH; by rewrite ?Hd|right].
  cbn [orb] in Eh. unfold hits in Eh. assert (b_slot e = b_slot ev /\ b_addr e = TD_SRC_B) as [Es ->] by lia.
  rewrite Es Hd H0 Z.eqb_refl. by apply list_elem_of_singleton.
Qed.

(** The lowest source-B slot and the highest source-A slot. *)
Lemma lo_fold l m :
  Forall input_slot l ->
  let lo := fold_left (fun lo s => if (s >? 1) && (s <? lo) then s else lo) l m in
  (lo = m \/ lo ∈ l) /\ lo <= m /\ Forall (fun b => lo <= b) l.
Proof.
  cbv zeta. revert m. induction l as [|x l IH]; intros m Hl; cbn [fold_left]; [by split; [left|]|].
  apply Forall_cons in Hl as [Hx Hl]. unfold input_slot in Hx. replace (x >? 1) with true by lia. cbn [andb].
  destruct (IH (if x <? m then x else m) Hl) as (H1 & H2 & H3).
  split; [destruct H1 as [->|H1]; [|set_solver]; destruct (x <? m); set_solver|].
  split; [destruct (Z.ltb_spec x m); lia|]. constructor; [destruct (Z.ltb_spec x m); lia|done].
Qed.

Lemma hi_fold l m :
  let hi := fold_left (fun hi s => if s >? hi then s else hi) l m in
  (hi = m \/ hi ∈ l) /\ m <= hi /\ Forall (fun a => a <= hi) l.
Proof.
  cbv zeta. revert m. induction l as [|x l IH]; intros m; cbn [fold_left]; [by split; [left|]|].
  destruct (IH (if x >? m then x else m)) as (H1 & H2 & H3).
  split; [destruct H1 as [->|H1]; [|set_solver]; destruct (x >? m); set_solver|].
  split; [destruct (Z.gtb_spec x m); lia|]. constructor; [destruct (Z.gtb_spec x m); lia|done].
Qed.

Lemma blend_detect A B :
  Forall input_slot A -> Forall input_slot B ->
  let lo := fold_left (fun lo s => if (s >? 1) && (s <? lo) then s else lo) B U32_MAX in
  let hi := fold_left (fun hi s => if s >? hi then s else hi) A 0 in
  negb (lo =? U32_MAX) && negb (hi =? 0) && (lo <? hi) = existsb (fun b => existsb (fun a => b <? a) A) B.
Proof.
  intros HA HB. cbv zeta. destruct (lo_fold B U32_MAX HB) as (Hl1 & Hl2 & Hl3).
  destruct (hi_fold A 0) as (Hh1 & Hh2 & Hh3). set (lo := fold_left _ B U32_MAX) in *. set (hi := fold_left _ A 0) in *.
  clearbody lo hi. rewrite Forall_forall in Hl3. rewrite Forall_forall in Hh3. rewrite Forall_forall in HA.
  rewrite Forall_forall in HB. apply eq_true_iff_eq. rewrite existsb_exists. split.
  - intros H. exists lo. destruct Hl1 as [->|Hl1]; [lia|]. split; [by apply list_elem_of_In|]. apply existsb_exists.
    exists hi. destruct Hh1 as [->|Hh1]; [lia|]. split; [by apply list_elem_of_In|lia].
  - intros (b & Hb%list_elem_of_In & (a & Ha%list_elem_of_In & Hlt)%existsb_exists).
    specialize (Hl3 b Hb). specialize (Hh3 a Ha). specialize (HA a Ha). specialize (HB b Hb).
    unfold input_slot, U32_MAX in *. lia.
Qed.

Lemma existsb_perm {A} (p : A -> bool) l l' : l ≡ₚ l' -> existsb p l = existsb p l'.
Proof. induction 1; cbn; try congruence; by destruct (p _), (p _). Qed.

(** Under [s > 1] the guarded loop is the plain one. *)
Lemma assign_guarded l st :
  Forall input_slot l -> fold_left (fun st s => if s >? 1 then blend_assign st s else st) l st = foldl blend_assign st l.
Proof.
  intros Hl. revert st. induction Hl as [|x l Hx _ IH]; intros st; [done|]. cbn [fold_left foldl].
  replace (x >? 1) with true by (unfold input_slot in Hx; lia). apply IH.
Qed.

Lemma fold_left_foldl {A B} (f : A -> B -> A) l a : fold_left f l a = foldl f a l.
Proof. revert a. induction l as [|x l IH]; intros a; [done|]. apply IH. Qed.

Lemma input_slots_ok l : Forall input_slot l -> Forall slot_ok l.
Proof. intros H. eapply Forall_impl; [exact H|]. unfold input_slot, slot_ok. lia. Qed.

(** The blend flag and the rank table of pass 1. *)
Lemma blend_rank_spec evs :
  Forall ev_ok evs ->
  let br := blend_rank (insertion_sort id (inputs_A evs)) (insertion_sort id (inputs_B evs)) in
  br.1 = blend evs /\
  (blend evs = true -> forall slot, slot_ok slot -> at64 U32_MAX br.2 slot = default U32_MAX (blend_channel evs slot)).
Proof.
  intros Hok. pose proof (src_inputs_ok TD_SRC_A true evs Hok : Forall input_slot (inputs_A evs)) as HA.
  pose proof (src_inputs_ok TD_SRC_B false evs Hok : Forall input_slot (inputs_B evs)) as HB.
  pose proof (inputs_A_nodup evs) as Hnd. unfold blend, blend_channel.
  set (A := inputs_A evs) in *. set (B := inputs_B evs) in *. clearbody A B.
  destruct (insertion_sort_spec id A) as [PA _]. destruct (insertion_sort_spec id B) as [PB SB].
  assert (StronglySorted (fun x y => id x < id y) (insertion_sort id A)) as SA.
  { apply insertion_sort_strict. by rewrite list_fmap_id. }
  set (A' := insertion_sort id A) in *. set (B' := insertion_sort id B) in *. clearbody A' B'. cbv zeta.
  assert (Forall input_slot A') as HA' by (by rewrite PA). assert (Forall input_slot B') as HB' by (by rewrite PB).
  unfold blend_rank. cbv zeta. rewrite (blend_detect A' B' HA' HB').
  assert (existsb (fun b => existsb (fun a => b <? a) A') B' = existsb (fun b => existsb (fun a => b <? a) A) B) as ->.
  { rewrite (existsb_perm _ B' B PB). clear -PA. induction B as [|b B IH]; cbn [existsb]; [done|].
    by rewrite IH (existsb_perm _ A' A PA). }
  destruct (existsb _ B); [|done]. cbn [fst snd]. split; [done|]. intros _ slot Hs.
  rewrite fold_left_foldl assign_guarded; [|by rewrite reverse_Permutation].
  assert (Forall slot_ok (reverse B')) as HB2 by (rewrite reverse_Permutation; by apply input_slots_ok).
  destruct (assign_state (replicate 64 U32_MAX) 0 eq_refl (reverse B') HB2) as [L1 L2].
  pose proof (assign_desc (replicate 64 U32_MAX) 0 eq_refl (reverse B') slot HB2 Hs) as HD.
  destruct (foldl blend_assign (replicate 64 U32_MAX, 0) (reverse B')) as [r k]. cbn [fst snd] in *.
  rewrite (assign_asc r k L1 A' slot (input_slots_ok _ HA') Hs SA) HD; [|exact (StronglySorted_reverse _ _ SB)].
  rewrite (count_perm _ _ _ PA). rewrite (count_perm _ (reverse B') B); [|by rewrite reverse_Permutation].
  rewrite (bool_decide_ext (slot ∈ A') (slot ∈ A)); [|by rewrite PA].
  rewrite (bool_decide_ext (slot ∈ reverse B') (slot ∈ B)); [|by rewrite reverse_Permutation PB].
  assert (zlen (reverse B') = zlen B) as EB by (unfold zlen; by rewrite length_reverse (Permutation_length PB)).
  clear HD. case_bool_decide; cbn [default from_option]; [unfold id; lia|].
  case_bool_decide; cbn [default from_option]; [unfold id; lia|]. unfold at64. by rewrite lookup_replicate_default.
Qed.

Lemma matmul_spec evs : (zlen (insertion_sort id (inputs_A evs)) >=? 2) = matmul evs.
Proof.
  unfold matmul. destruct (insertion_sort_spec id (inputs_A evs)) as [P _]. unfold zlen. rewrite (Permutation_length P). lia.
Qed.

(** ** The tag of a reference *)

(** The io table of a derived build: the inputs, then the output. *)
Definition derived_io (io : list ane_m2_io) (out : Z) : Prop :=
  exists ins, io = ins ++ [Io 4 1 out] /\ Forall (fun e => dir e = 0) ins /\ 0 <= out < U64_MAX.

Lemma pick_output io out reach :
  derived_io io out -> pick_smallest_fit_channel io 1 reach = if reach <=? out then Some 4 else None.
Proof.
  intros (ins & -> & Hins & Hout). unfold pick_smallest_fit_channel. rewrite fold_left_app.
  assert (forall p, fold_left (fun '(best, best_size) e => let s := io_size e in
    if negb (dir e =? 1) then (best, best_size) else if s <? reach then (best, best_size)
    else if (s <? best_size) || ((s =? best_size) && (buffer_id e <? best)) then (buffer_id e, s)
    else (best, best_size)) ins p = p) as ->.
  { induction Hins as [|e ins He _ IH]; intros [b bs]; [done|]. cbn [fold_left]. rewrite He. exact (IH (b, bs)). }
  cbn [fold_left dir io_size buffer_id]. change (negb (1 =? 1)) with false. cbv zeta iota.
  replace (out <? U64_MAX) with true by lia. cbn [orb].
  destruct (Z.ltb_spec out reach), (Z.leb_spec reach out); done || lia.
Qed.

Lemma smallest_output_4 io out : derived_io io out -> smallest_output io = Some 4.
Proof.
  intros (ins & -> & Hins & Hout). unfold smallest_output. rewrite fold_left_app.
  assert (forall p, fold_left (fun '(best, best_bufid) e => if negb (dir e =? 1) then (best, best_bufid)
    else if io_size e <? best then (io_size e, buffer_id e) else (best, best_bufid)) ins p = p) as ->.
  { induction Hins as [|e ins He _ IH]; intros [b bs]; [done|]. cbn [fold_left]. rewrite He. exact (IH (b, bs)). }
  cbn [fold_left dir io_size buffer_id]. change (negb (1 =? 1)) with false. cbv iota.
  replace (out <? U64_MAX) with true by lia. done.
Qed.

(** The source lists never outgrow their 64 entries. *)
Definition src_bounded (s : pass1) : Prop := zlen (srcA_slots s) <= 64 /\ zlen (srcB_slots s) <= 64.

Lemma src_bounded_step s ev s' : src_bounded s -> p1_step s ev = Ret s' -> src_bounded s'.
Proof.
  intros [HA HB]. unfold p1_step, pass1_srcA, pass1_srcB. cbv zeta.
  destruct (b_addr ev =? TD_DST); [by intros [= <-]|].
  destruct (b_addr ev =? TD_SRC_A); [|destruct (b_addr ev =? TD_SRC_B); [|by intros [= <-]]].
  - destruct (_ =? U32_MAX); [|by intros [= <-]]. intros H. apply bind_Ret_inv in H as (sl & H1 & [= <-]).
    split; cbn [srcA_slots srcB_slots]; [|done]. destruct (_ && _); [|by injection H1 as <-].
    apply bind_Ret_inv in H1 as ([] & Hg & [= <-]). unfold guard_fail in Hg. case_match; [done|].
    rewrite zlen_app. change (zlen [b_slot ev]) with 1. lia.
  - intros H. apply bind_Ret_inv in H as (sl & H1 & [= <-]).
    split; cbn [srcA_slots srcB_slots]; [done|]. destruct (_ && _); [|by injection H1 as <-].
    apply bind_Ret_inv in H1 as ([] & Hg & [= <-]). unfold guard_fail in Hg. case_match; [done|].
    rewrite zlen_app. change (zlen [b_slot ev]) with 1. lia.
Qed.

Lemma src_bounded_run evs s s' : src_bounded s -> foldM p1_step s evs = Ret s' -> src_bounded s'.
Proof.
  revert s. induction evs as [|ev evs IH]; intros s Hs H; cbn [foldM] in H; [by injection H as <-|].
  apply bind_Ret_inv in H as (s1 & H1 & H). eapply IH; [|exact H]. by eapply src_bounded_step.
Qed.

Lemma count_le p l : count p l <= zlen l.
Proof. unfold count. induction l as [|x l IH]; [done|]. cbn [List.filter]. unfold zlen in *. destruct (p x); cbn; lia. Qed.

Lemma blend_channel_small evs slot ch :
  zlen (inputs_A evs) <= 64 -> zlen (inputs_B evs) <= 64 -> blend_channel evs slot = Some ch -> ch < 256.
Proof.
  intros HA HB. unfold blend_channel. repeat case_bool_decide; intros [= <-].
  - pose proof (count_le (fun a => a <? slot) (inputs_A evs)). lia.
  - pose proof (count_le (fun b => slot <=? b) (inputs_B evs)). lia.
Qed.

Section tag.
Context (evs : list bar_ev) (s : pass1) (io : list ane_m2_io) (out sb slot addr : Z).
Context (Hok : Forall ev_ok evs) (Hinv : p1_inv evs s) (Hlen : src_bounded s) (Hio : derived_io io out) (Hs : slot_ok slot).

(** The destination rule of the extents path. *)
Lemma extents_dst so ca ma mm :
  bar_ref_tag_extents TD_DST slot (furthest (dst_offsets evs slot)) so (chunk (dst_offsets evs slot)) ca ma mm sb io =
  if (chunk (dst_offsets evs slot) =? 0) || (furthest (dst_offsets evs slot) <=? out) then Ret 4
  else if sb =? 0 then fail else Ret sb.
Proof using Hok Hio.
  unfold bar_ref_tag_extents. change (is_kdma TD_DST) with false. change (TD_DST =? TD_DST) with true. cbv iota zeta.
  pose proof (chunk_range _ (dst_offsets_range evs slot Hok)) as Hc.
  pose proof (furthest_range _ (dst_offsets_range evs slot Hok)) as Hf.
  set (c := chunk _) in *. set (f := furthest _) in *. clearbody c f.
  rewrite (smallest_output_4 io out Hio). destruct (Z.eqb_spec c 0); [done|]. cbn [orb].
  rewrite !(pick_output io out _ Hio). rewrite (wrap_small 64 (f + c)); [|lia].
  destruct (Z.leb_spec (f + c) out), (Z.leb_spec f out); try (done || lia). by destruct (sb =? 0).
Qed.

Lemma is_src_cases : is_src addr = true -> addr = TD_SRC_A \/ addr = TD_SRC_B.
Proof. unfold is_src. lia. Qed.

Lemma ref_tag_rule :
  ref_tag false io (pass1_info io s) sb slot addr =
    match tag_rule evs sb out slot addr with Some t => Ret t | None => fail end.
Proof using Hok Hinv Hlen Hio Hs.
  destruct Hinv as [_ _ _ H1 _ _ _ EA EB]. destruct Hlen as [LA LB]. rewrite EA in LA. rewrite EB in LB.
  destruct (blend_rank_spec evs Hok) as [Hbm Hrank].
  unfold ref_tag, pass1_info. rewrite EA EB. destruct (blend_rank _ _) as [bm rank]. cbn [fst snd] in Hbm, Hrank. subst bm.
  cbv zeta. cbn [si_blend_mode si_rank_blend si_matmul si_dst si_src si_max_in_alloc negb andb].
  rewrite matmul_spec. destruct (track_run (dst_offsets evs slot)) as (Hm & Hc & _). rewrite H1 // Hm Hc. clear Hm Hc H1.
  unfold tag_rule, scratch. destruct (is_src addr) eqn:Esrc.
  - rewrite Z.gtb_ltb (Z.ltb_antisym slot 1). 
    assert (is_kdma addr = false /\ (addr =? TD_DST) = false) as [Ek Ed] by (by destruct (is_src_cases Esrc) as [->| ->]).
    unfold bar_ref_tag_extents, bar_ref_tag_legacy. rewrite Ek Ed Esrc.
    destruct (slot <=? 1); cbn [negb andb]; [rewrite andb_false_r; cbn [andb]; by destruct (_ || _)|].
    rewrite !andb_true_r. destruct (blend evs); cbn [andb].
    + rewrite Hrank //. destruct (blend_channel evs slot) as [ch|] eqn:Ech; cbn [default from_option].
      * pose proof (blend_channel_small evs slot ch LA LB Ech). change (id ch) with ch.
        rewrite (proj2 (Z.eqb_neq ch U32_MAX)); [done|unfold U32_MAX; lia].
      * rewrite Z.eqb_refl. cbn [negb]. by destruct (sb =? 0).
    + rewrite orb_false_r. destruct (matmul evs); [done|]. by destruct (slot <=? 3).
  - rewrite andb_false_r. cbn [andb].
    destruct (is_kdma addr) eqn:Ek; [unfold bar_ref_tag_extents, bar_ref_tag_legacy; rewrite Ek; by destruct (_ || _)|].
    destruct (Z.eqb_spec addr TD_DST) as [->|Ed].
    + rewrite extents_dst. destruct (matmul evs || blend evs); cbn [negb orb]; [|done].
      destruct (_ || _); [done|]. by destruct (sb =? 0).
    + unfold bar_ref_tag_extents, bar_ref_tag_legacy. rewrite Ek Esrc (proj2 (Z.eqb_neq _ _) Ed). by destruct (_ || _).
Qed.
End tag.

(** ** Pass 2 *)

Section pass2.
Context (io : list ane_m2_io) (si : slot_info) (sb : Z).

Definition ref_step (out : list ane_m2_ref) (ev : bar_ev) : res (list ane_m2_ref) :=
  tag ← ref_tag false io si sb (b_slot ev) (b_addr ev);
  if existsb (fun r => r_slot r =? b_slot ev) out then Ret out
  else guard_fail (zlen out =? ANE_M2_MAX_BINDS) EINVAL;; Ret (out ++ [Ref (b_slot ev) tag (b_addr ev) (b_off ev)]).

Lemma ref_record_step stream t out h idx p0 out' :
  payload0 stream t idx = Ret p0 -> ref_record stream t false io si sb out h idx (rec_count h) = Ret out' ->
  if is_bar_ref h then ref_step out (BarEv (bar_slot h) (bar_addr h) p0) = Ret out' else out' = out.
Proof.
  unfold ref_record. intros ->. destruct (is_bar_ref h); [|by intros [= <-]].
  intros H. apply bind_Ret_inv in H as ([] & _ & H). cbn [mbind res_bind] in H.
  by apply bind_Ret_inv in H as ([] & _ & H).
Qed.

Context (rule : Z -> Z -> option Z).
Context (Hrule : forall slot addr, slot_ok slot ->
  ref_tag false io si sb slot addr = match rule slot addr with Some t => Ret t | None => fail end).

(** What the first reference of a slot in a task binds. *)
Definition first_tag (evs : list bar_ev) (slot : Z) : option Z :=
  ev ← head (List.filter (at_slot slot) evs); rule slot (b_addr ev).

Definition tags_at (slot : Z) (refs : list ane_m2_ref) : list Z := r_tag <$> List.filter (fun r => r_slot r =? slot) refs.

Lemma tags_at_app slot l l' : tags_at slot (l ++ l') = tags_at slot l ++ tags_at slot l'.
Proof. unfold tags_at. by rewrite List.filter_app fmap_app. Qed.

Lemma tags_at_absent slot refs : existsb (fun r => r_slot r =? slot) refs = false -> tags_at slot refs = [].
Proof.
  unfold tags_at. induction refs as [|r refs IH]; [done|]. cbn [existsb List.filter]. destruct (r_slot r =? slot); [done|]. exact IH.
Qed.

Lemma tags_at_present slot refs : existsb (fun r => r_slot r =? slot) refs = true -> tags_at slot refs <> [].
Proof.
  unfold tags_at. induction refs as [|r refs IH]; [done|]. cbn [existsb List.filter]. destruct (r_slot r =? slot); [done|]. exact IH.
Qed.

Lemma task_tags evs refs :
  Forall ev_ok evs -> foldM ref_step [] evs = Ret refs ->
  Forall (fun ev => is_Some (rule (b_slot ev) (b_addr ev))) evs /\
  forall slot, tags_at slot refs = option_list (first_tag evs slot).
Proof using Hrule.
  revert refs. induction evs as [|ev evs IH] using rev_ind; intros refs Hok H; [by injection H as <-|].
  apply Forall_app in Hok as [Hok [[Hs _] _]%Forall_cons]. rewrite foldM_app in H.
  apply bind_Ret_inv in H as (out & H1 & H). cbn [foldM] in H. apply bind_Ret_inv in H as (r' & H2 & [= ->]).
  destruct (IH out Hok H1) as [HA HT]. clear IH H1. unfold ref_step in H2. rewrite Hrule // in H2.
  destruct (rule (b_slot ev) (b_addr ev)) as [tag|] eqn:Er; [|done]. cbn [mbind res_bind] in H2.
  split; [apply Forall_app_2; [done|]; apply Forall_singleton; by rewrite Er|]. intros slot.
  assert (b_slot ev <> slot -> first_tag (evs ++ [ev]) slot = first_tag evs slot) as Hne.
  { intros Hne. unfold first_tag. rewrite List.filter_app. cbn [List.filter]. unfold at_slot at 2.
    rewrite (proj2 (Z.eqb_neq _ _) Hne). by rewrite app_nil_r. }
  destruct (existsb _ out) eqn:Ex.
  - injection H2 as <-. rewrite HT. destruct (decide (b_slot ev = slot)) as [<-|Hn]; [|by rewrite Hne].
    pose proof (tags_at_present _ _ Ex) as Hp. rewrite HT in Hp. unfold first_tag in Hp |- *. rewrite List.filter_app.
    destruct (List.filter (at_slot (b_slot ev)) evs) as [|e l]; done.
  - apply bind_Ret_inv in H2 as ([] & _ & [= <-]). rewrite tags_at_app HT.
    destruct (decide (b_slot ev = slot)) as [<-|Hn].
    + pose proof (tags_at_absent _ _ Ex) as Hp. rewrite HT in Hp.
      assert (List.filter (at_slot (b_slot ev)) evs = []) as Hf.
      { destruct (List.filter (at_slot (b_slot ev)) evs) as [|e l] eqn:Ef; [done|exfalso].
        assert (e ∈ evs /\ b_slot e = b_slot ev) as [Hin He].
        { assert (List.In e (List.filter (at_slot (b_slot ev)) evs)) as Hi by (rewrite Ef; by left).
          apply List.filter_In in Hi as [Hi He]. split; [by apply list_elem_of_In|]. unfold at_slot in He. lia. }
        rewrite Forall_forall in HA. destruct (HA e Hin) as [t Ht]. rewrite He in Ht.
        unfold first_tag in Hp. rewrite Ef /= Ht in Hp. done. }
      unfold first_tag. rewrite List.filter_app Hf. cbn [List.filter app]. unfold at_slot. rewrite Z.eqb_refl.
      cbn. rewrite Er. unfold tags_at. cbn. by rewrite Z.eqb_refl.
    + rewrite Hne //. unfold tags_at at 1. cbn [List.filter r_slot]. rewrite (proj2 (Z.eqb_neq _ _) Hn). by rewrite app_nil_r.
Qed.
End pass2.

(** ** The union *)

Lemma merge_snoc sb ts t :
  merge sb (ts ++ [t]) = Some (match merge sb ts with None => t | Some u => if u =? t then u else sb end).
Proof.
  destruct ts as [|t0 ts]; [done|]. cbn [app merge]. f_equal. rewrite forallb_app. cbn [forallb]. rewrite andb_true_r.
  destruct (forallb (Z.eqb t0) ts); cbn [andb]; [done|]. by destruct (sb =? t).
Qed.

Definition merged (sb : Z) (seen : list ane_m2_ref) (u : union_st) : Prop :=
  forall slot, slot_ok slot -> at64 U32_MAX (u_tag u) slot = default U32_MAX (merge sb (tags_at slot seen)).

Lemma merge_not_max sb ts : sb <> U32_MAX -> Forall (fun t => t <> U32_MAX) ts -> merge sb ts <> Some U32_MAX.
Proof. intros Hsb [|t l Ht Hl]; [done|]. cbn. destruct (forallb _ _); congruence. Qed.

Lemma tags_at_ok slot refs : Forall ref_ok refs -> Forall (fun t => t <> U32_MAX) (tags_at slot refs).
Proof.
  intros H. unfold tags_at. apply Forall_fmap. induction H as [|r refs Hr _ IH]; [constructor|]. cbn [List.filter].
  destruct (r_slot r =? slot); [|done]. constructor; [apply Hr|done].
Qed.

Lemma merged_step sb seen u r u' :
  sb <> U32_MAX -> Forall ref_ok seen -> ref_ok r -> length (u_tag u) = 64%nat -> merged sb seen u ->
  union_ref sb u r = Ret u' -> merged sb (seen ++ [r]) u' /\ length (u_tag u') = 64%nat.
Proof.
  intros Hsb Hseen [Hs Ht] Hl Hm. unfold union_ref. cbv zeta. rewrite Hm //.
  assert (forall slot, tags_at slot (seen ++ [r]) = tags_at slot seen ++ (if bool_decide (r_slot r = slot) then [r_tag r] else [])) as Hta.
  { intros slot. rewrite tags_at_app. f_equal. unfold tags_at. cbn [List.filter].
    case_bool_decide as E; [by rewrite (proj2 (Z.eqb_eq _ _) E)|by rewrite (proj2 (Z.eqb_neq _ _) E)]. }
  pose proof (merge_not_max sb (tags_at (r_slot r) seen) Hsb (tags_at_ok _ _ Hseen)) as Hnm.
  assert (forall tg, tg = (match merge sb (tags_at (r_slot r) seen) with None => r_tag r
      | Some v => if v =? r_tag r then v else sb end) -> forall ad sl sc,
    merged sb (seen ++ [r]) (Union (upd64 (u_tag u) (r_slot r) tg) ad sl sc) /\ length (upd64 (u_tag u) (r_slot r) tg) = 64%nat) as Hset.
  { intros tg Htg ad sl sc. split; [|unfold upd64; by rewrite length_insert]. intros slot Hsl. cbn [u_tag].
    rewrite at64_upd64 // Hta. case_bool_decide as E; [subst slot; by rewrite merge_snoc Htg|]. rewrite app_nil_r. by apply Hm. }
  destruct (merge sb (tags_at (r_slot r) seen)) as [v|] eqn:Ev; cbn [default from_option].
  - assert (v <> U32_MAX) as Hv by congruence. unfold id. rewrite (proj2 (Z.eqb_neq v U32_MAX) Hv).
    destruct (Z.eqb_spec v (r_tag r)) as [Evr|Evr].
    + intros [= <-]. split; [|done]. intros slot Hsl. rewrite Hta. case_bool_decide as E.
      * subst slot. rewrite merge_snoc Ev Hm // Ev. by rewrite (proj2 (Z.eqb_eq _ _) Evr).
      * rewrite app_nil_r. by apply Hm.
    + destruct (negb (sb =? 0)); [|done]. intros H. apply bind_Ret_inv in H as ([] & _ & [= <-]). by apply Hset.
  - rewrite Z.eqb_refl. intros H. apply bind_Ret_inv in H as ([] & _ & [= <-]). by apply Hset.
Qed.

Lemma merged_run sb refs u :
  sb <> U32_MAX -> Forall ref_ok refs -> foldM (union_ref sb) union_init refs = Ret u ->
  merged sb refs u /\ length (u_tag u) = 64%nat.
Proof.
  intros Hsb. revert u. induction refs as [|r refs IH] using rev_ind; intros u Hok H.
  { injection H as <-. split; [|done]. intros slot Hs. unfold at64. cbn [u_tag union_init]. by rewrite lookup_replicate_default. }
  apply Forall_app in Hok as [Hok [Hr _]%Forall_cons]. rewrite foldM_app in H. apply bind_Ret_inv in H as (u1 & H1 & H).
  cbn [foldM] in H. apply bind_Ret_inv in H as (u2 & H2 & [= <-]). destruct (IH u1 Hok H1) as [Hm Hl].
  exact (merged_step sb refs u1 r u2 Hsb Hok Hr Hl Hm H2).
Qed.

Lemma pass2_fold stream io si sb tasks u :
  run_pass2 stream false io si sb tasks = Ret u ->
  exists refss, Forall2 (fun t refs => refs_of_task stream false io si sb t = Ret refs) tasks refss /\
    foldM (union_ref sb) union_init (concat refss) = Ret u.
Proof.
  unfold run_pass2. generalize union_init. induction tasks as [|t tasks IH]; intros u0 H; cbn [foldM] in H.
  { exists []. split; [constructor|done]. }
  apply bind_Ret_inv in H as (u1 & H1 & H). apply bind_Ret_inv in H1 as (refs & Hr & H1).
  destruct (IH u1 H) as (refss & Hrs & Hc). exists (refs :: refss). split; [by constructor|].
  cbn [concat]. rewrite foldM_app H1. exact Hc.
Qed.

(** ** The derivation *)

Section strict.
Context {A : Type}.

Definition by_slot (x y : Z * A) : Prop := x.1 < y.1.

Lemma by_slot_nodup l : StronglySorted by_slot l -> NoDup l.
Proof.
  induction 1 as [|x l _ IH Hx]; [apply NoDup_nil_2|]. apply NoDup_cons. split; [|done]. intros Hin.
  rewrite Forall_forall in Hx. specialize (Hx x Hin). unfold by_slot in Hx. lia.
Qed.

#[local] Instance by_slot_antisymm : AntiSymm (=) by_slot.
Proof. intros x y Hx Hy. unfold by_slot in *. lia. Qed.

Lemma by_slot_unique l l' :
  StronglySorted by_slot l -> StronglySorted by_slot l' -> (forall x, x ∈ l <-> x ∈ l') -> l = l'.
Proof.
  intros Hl Hl' Hiff. apply (StronglySorted_unique by_slot); [done|done|].
  apply NoDup_Permutation; [by apply by_slot_nodup..|exact Hiff].
Qed.

Lemma by_slot_omap (f : Z -> option A) l :
  StronglySorted Z.lt l -> StronglySorted by_slot (omap (fun s => (fun t => (s, t)) <$> f s) l).
Proof.
  induction 1 as [|s l _ IH Hs]; [constructor|]. cbn. destruct (f s) as [t|]; cbn; [|done]. constructor; [done|].
  apply Forall_forall. intros x (s' & Hs' & Hx)%list_elem_of_omap. destruct (f s') as [t'|]; [|done]. injection Hx as <-.
  rewrite Forall_forall in Hs. exact (Hs s' Hs').
Qed.
End strict.

Lemma slots_sorted : StronglySorted Z.lt (seqZ 0 64).
Proof.
  assert (insertion_sort id (seqZ 0 64) = seqZ 0 64) as <- by (by vm_compute).
  apply (insertion_sort_strict id). rewrite list_fmap_id. apply NoDup_seqZ.
Qed.

Lemma bindings_elem evss sb out slot t :
  (slot, t) ∈ bindings evss sb out <-> slot_ok slot /\ binding evss sb out slot = Some t.
Proof.
  unfold bindings. rewrite list_elem_of_omap. unfold slot_ok. split.
  - intros (s & Hs%elem_of_seqZ & H). destruct (binding evss sb out s) as [t'|] eqn:E; [|done]. injection H as <- <-. split; [lia|done].
  - intros [Hs E]. exists slot. split; [apply elem_of_seqZ; lia|]. by rewrite E.
Qed.

Section derive.
Context (stream : bytes) (tasks : list ane_task) (io : list ane_m2_io) (sb out : Z).
Context (Hok : bytes_ok stream) (Hts : Forall (task_in stream) tasks) (Hsb : sb <> U32_MAX) (Hio : derived_io io out).

Lemma all_refs_ok evss : task_refs stream tasks evss -> Forall (Forall ev_ok) evss.
Proof using Hok Hts.
  clear Hio. intros H. induction H as [|t evs ts evss' He _ IH]; [constructor|]. apply Forall_cons in Hts as [Ht Hts'].
  constructor; [exact (bar_refs_ok stream t evs Hok Ht He)|by apply IH].
Qed.

Lemma concat_tags si rule evss refss slot :
  (forall slot addr, slot_ok slot ->
     ref_tag false io si sb slot addr = match rule slot addr with Some t => Ret t | None => fail end) ->
  task_refs stream tasks evss -> Forall2 (fun t refs => refs_of_task stream false io si sb t = Ret refs) tasks refss ->
  tags_at slot (concat refss) = omap (fun evs => first_tag rule evs slot) evss.
Proof using Hok Hts.
  intros Hrule He Hr. pose proof (all_refs_ok evss He) as Hev. clear Hio. revert refss Hr Hev Hts.
  induction He as [|t evs ts evss He _ IH]; intros refss Hr Hev Hts'; inversion Hr as [|? refs ? refss' Hr1 Hr2]; subst; [done|].
  apply Forall_cons in Hev as [Hev1 Hev2]. apply Forall_cons in Hts' as [Ht Hts2]. cbn [concat]. rewrite tags_at_app (IH refss' Hr2 Hev2 Hts2).
  destruct (walk_fold stream t Hok Ht _ (ref_step io si sb) (ref_record_step io si sb stream t) _ _ Hr1) as (evs' & He' & Hf).
  rewrite He in He'. injection He' as <-. destruct (task_tags io si sb rule Hrule evs refs Hev1 Hf) as [_ Htt].
  rewrite Htt. cbn. by destruct (first_tag rule evs slot).
Qed.

(** The refs are the bindings of the reference definition. *)
Lemma derive_refs_bindings refs b :
  derive_refs stream tasks io false sb = Ret (refs, b) ->
  exists evss, task_refs stream tasks evss /\ refs = bindings evss sb out.
Proof using Hok Hts Hsb Hio.
  unfold derive_refs. intros H. apply bind_Ret_inv in H as (s & H1 & H). apply bind_Ret_inv in H as (u & H2 & H).
  apply bind_Ret_inv in H as (rs & H3 & H). apply bind_Ret_inv in H as ([] & _ & H). apply bind_Ret_inv in H as ([] & _ & H).
  injection H as <- _. destruct (pass1_fold stream tasks s Hok Hts H1) as (evss & He & Hf). exists evss. split; [done|].
  assert (Forall ev_ok (concat evss)) as Hev.
  { apply Forall_concat. exact (all_refs_ok evss He). }
  pose proof (p1_inv_run _ _ Hev Hf) as Hinv.
  assert (src_bounded s) as Hlen by (eapply src_bounded_run; [|exact Hf]; done).
  destruct (pass2_fold _ _ _ _ _ _ H2) as (refss & Hr & Hu).
  assert (Forall ref_ok (concat refss)) as Hro.
  { apply Forall_concat. clear -Hok Hts Hsb Hr. revert Hts. induction Hr as [|t rs ts rss Hr _ IH]; [constructor|].
    intros [Ht Hts]%Forall_cons. constructor; [|by apply IH].
    exact (proj1 (wp_inv _ _ _ (wp_refs_of_task stream false io (pass1_info io s) sb t Hok Ht Hsb) Hr)). }
  destruct (merged_run sb _ u Hsb Hro Hu) as [Hm _].
  pose proof (wp_inv _ _ _ (wp_union_refs sb (concat refss) [] union_init Hsb Hro (union_inv_init sb)) Hu) as Hui.
  rewrite encode_union_eq in H3; [|apply Hui..]. injection H3 as <-.
  assert (forall slot, merge sb (tags_at slot (concat refss)) = binding evss sb out slot) as Hb.
  { intros slot. unfold binding. f_equal. apply (concat_tags (pass1_info io s) (tag_rule (concat evss) sb out) evss refss slot); [|done|done].
    intros sl addr Hsl. exact (ref_tag_rule (concat evss) s io out sb sl addr Hev Hinv Hlen Hio Hsl). }
  apply by_slot_unique.
  - apply insertion_sort_strict. rewrite -list_fmap_compose. rewrite list_fmap_id. apply Hui.
  - apply by_slot_omap, slots_sorted.
  - intros [slot t]. destruct (insertion_sort_spec fst ((fun s => (s, at64 U32_MAX (u_tag u) s)) <$> u_slots u)) as [HP _].
    rewrite (elem_of_Permutation_proper (slot, t) _ _ HP). rewrite bindings_elem list_elem_of_fmap. split.
    + intros (s' & [= -> ->] & Hin). pose proof (ui_slots _ _ _ Hui) as Hsl. rewrite Forall_forall in Hsl.
      specialize (Hsl s' Hin). split; [done|]. apply (ui_dom _ _ _ Hui s' Hsl) in Hin. rewrite Hm // Hb in Hin |- *.
      by destruct (binding evss sb out s').
    + intros [Hs Hbi]. exists slot. rewrite -Hb in Hbi.
      assert (at64 U32_MAX (u_tag u) slot = t) as Ht by (by rewrite Hm // Hbi). split; [by rewrite Ht|].
      apply (ui_dom _ _ _ Hui slot Hs). rewrite Ht. intros ->.
      exact (merge_not_max sb _ Hsb (tags_at_ok slot _ Hro) Hbi).
Qed.
End derive.
