(* ===== verification/M2Build.v ===== *)
(** * libane/ane_m2.c: building the LOAD_PROGRAM sections

    The environment overrides, the descriptor checks, the emission of the six
    sections, and the two builders on top of [M2Walk]. *)

From S2P Require Import Prelude M2Walk M2Tags.

(** ** [strtoul] with base 0, as the source uses it

    Strings are byte lists without the terminating zero. *)

Definition is_space (c : Z) : bool := (c =? 32) || ((c >=? 9) && (c <=? 13)).

Definition digit (c : Z) : option Z :=
  if (c >=? 48) && (c <=? 57) then Some (c - 48)
  else if (c >=? 97) && (c <=? 122) then Some (c - 87)
  else if (c >=? 65) && (c <=? 90) then Some (c - 55)
  else None.

Definition digit_in (base c : Z) : option Z :=
  match digit c with
  | Some d => if d <? base then Some d else None
  | None => None
  end.

Fixpoint digits (base acc : Z) (s : list Z) : Z * list Z :=
  match s with
  | [] => (acc, [])
  | c :: s' =>
      match digit_in base c with
      | Some d => digits base (acc * base + d) s'
      | None => (acc, s)
      end
  end.

Fixpoint skip_space (s : list Z) : list Z :=
  match s with
  | c :: s' => if is_space c then skip_space s' else s
  | [] => []
  end.

(** The digits after the sign: base 16 after "0x" and a hexadecimal digit,
    8 after "0", else 10. [None]: no digits. *)
Definition magnitude (s : list Z) : option (Z * list Z) :=
  match s with
  | 48 :: x :: c :: s' =>
      if ((x =? 120) || (x =? 88)) && bool_decide (is_Some (digit_in 16 c))
      then Some (digits 16 0 (c :: s'))
      else Some (digits 8 0 s)
  | 48 :: _ => Some (digits 8 0 s)
  | c :: _ => if bool_decide (is_Some (digit_in 10 c)) then Some (digits 10 0 s) else None
  | [] => None
  end.

(** The value and the rest of the string; the whole string when there is no
    number. *)
Definition strtoul (s : list Z) : Z * list Z :=
  let t := skip_space s in
  let '(neg, t) :=
    match t with
    | 45 :: t' => (true, t')
    | 43 :: t' => (false, t')
    | _ => (false, t)
    end in
  match magnitude t with
  | None => (0, s)
  | Some (v, rest) =>
      (if v >? U64_MAX then U64_MAX else if neg : bool then u64 (- v) else v, rest)
  end.

(** [s[0]], zero at the end of the string. *)
Definition char0 (s : list Z) : Z := default 0 (head s).

(** ** Scratch size and environment *)

(** [env] is [getenv("ANE_M2_SCRATCH")]. *)
Definition scratch_bufid_from_env (env : option (list Z)) : Z :=
  match env with
  | None => ANE_M2_SCRATCH_BUFID
  | Some e =>
      if (char0 e =? 45) || (char0 e =? 43) then ANE_M2_SCRATCH_BUFID
      else if (strtoul e).1 =? 0 then 0
      else ANE_M2_SCRATCH_BUFID
  end.

Definition scratch_record (stream : bytes) (t : ane_task) (scratch_slot max_payload : Z)
    (h idx n : Z) : res Z :=
  if is_bar_ref h then
    if (bar_slot h =? scratch_slot) && (n >=? 1) then
      p0 ← payload0 stream t idx;
      Ret (if p0 >? max_payload then p0 else max_payload)
    else Ret max_payload
  else Ret max_payload.

Definition scratch_size_bytes (stream : bytes) (tasks : list ane_task)
    (scratch_slot output_size : Z) : res Z :=
  max_payload ← foldM (fun mp t => walk_task stream t (scratch_record stream t scratch_slot) mp)
                  0 tasks;
  let extent := u64 (max_payload + output_size) in
  Ret (Z.land (u64 (extent + 0x3fff)) (u64 (Z.lnot 0x3fff))).

(** ** [oprefs_apply] *)

Definition oprefs_body (s : list Z * list pair) : res ((list Z * list pair) + list pair) :=
  let '(p, refs) := s in
  if bool_decide (p = []) || (zlen refs >=? ANE_M2_MAX_BINDS) then Ret (inr refs)
  else
    let '(slot, end_) := strtoul p in
    guard_fail (negb (char0 end_ =? 58)) EINVAL;;
    let p := drop 1 end_ in
    let '(tag, end_) := strtoul p in
    guard_fail (bool_decide (end_ = p)) EINVAL;;
    guard_fail (slot >? 0x3c) EINVAL;;
    guard_fail ((tag >? 0x3c) && negb (u32 tag =? 0x40)) EINVAL;;
    Ret (inl (if char0 end_ =? 44 then drop 1 end_ else end_, refs ++ [(u32 slot, u32 tag)])).

(** [env] is [getenv("ANE_M2_OPREFS")]; the derived refs stay when it is
    absent or empty. *)
Definition oprefs_apply (env : option (list Z)) (refs : list pair) : res (list pair) :=
  match env with
  | None | Some [] => Ret refs
  | Some prefs =>
      new ← loop (S (length prefs)) oprefs_body (prefs, []);
      guard_fail (zlen new =? 0) EINVAL;;
      Ret (insertion_sort fst new)
  end.

(** ** [tdprop_block_count] *)

Definition tdprop_body (desc : bytes) (size : Z) (s : Z * Z * Z)
    : res ((Z * Z * Z) + (Z * Z)) :=
  let '(cur, last, walked) := s in
  if cur <? size then
    guard_fail (size - cur <? 4) EINVAL;;
    w ← le16 desc (cur + 2);
    let blk := Z.land w 0x7ff in
    guard_fail (blk =? 0) EINVAL;;
    Ret (inl (cur + Z.land (u32 (Z.shiftl blk 2) + 0xf) 0x3ff0, cur, walked + 1))
  else Ret (inr (last, walked)).

Definition tdprop_block_count (desc : bytes) (size : Z) : res Z :=
  guard_fail (size <? 4) EINVAL;;
  w0 ← le32 desc 0;
  let stride := if negb (Z.land w0 4 =? 0) then 0x30 else 0x10 in
  '(last, walked) ← loop (S (Z.to_nat size)) (tdprop_body desc size) (stride, 0, 0);
  (if negb (Z.land w0 1 =? 0) && (size >? stride) then
     guard_fail (size - last <? 0x1c) EINVAL;;
     w ← le32 desc (last + 0x18);
     guard_fail (negb (w =? 0)) EINVAL
   else Ret tt);;
  Ret walked.

(** ** [emit_io_sections] *)

(** The model: the io table, the index of the scratch entry, and one ref set
    per call. *)
Record ane_m2_model := Model {
  m_io : list ane_m2_io;
  scratch_io_index : Z;
  call_refs : list (list pair);
}.

Record ane_m2_sections := Sections {
  s_generic : bytes;
  s_kernel : bytes;
  s_descriptor : bytes;
  s_operation : bytes;
  s_procedure : bytes;
  s_tdprop : bytes;
}.

(** A run of [put_le32] calls; [put_le64] is two of them. *)
Definition put_words (m : bytes) (ws : list (Z * Z)) : res bytes :=
  foldM (fun m '(o, v) => put_le32 m o v) m ws.

Definition w64 (o v : Z) : list (Z * Z) := [(o, u32 v); (o + 4, u32 (Z.shiftr v 32))].

(** The stores of the generic entry [k]. *)
Definition generic_entry (k : Z) (io : ane_m2_io) : list (Z * Z) :=
  let e := 0x208 + 0x30 * k in
  let type_field := if dir io =? 2 then 0 else dir io in
  let dir_field := if dir io =? 2 then 1 else if negb (dir io =? 0) then 2 else 1 in
  [(e + 0x00, 1); (e + 0x04, buffer_id io); (e + 0x08, type_field); (e + 0x10, dir_field)] ++
  w64 (e + 0x20) (io_size io) ++ [(e + 0x28, 0xffff)].

Definition generic_words (io : list ane_m2_io) : list (Z * Z) :=
  [(0x00, 1); (0x04, 0x10); (0x204, zlen io)] ++
  concat (zip_with generic_entry (seqZ 0 (zlen io)) io).

(** The stores of ref [j] of the operation record at [rec]. *)
Definition op_pair (rec j : Z) (r : pair) : list (Z * Z) :=
  [(rec + 0x0c + 8 * j, r.1); (rec + 0x0c + 8 * j + 4, r.2)].

Definition op_record (k : Z) (refs : list pair) : list (Z * Z) :=
  let rec := 4 + 0x40c * k in
  (rec + 0x08, zlen refs) :: concat (zip_with (op_pair rec) (seqZ 0 (zlen refs)) refs).

Definition operation_words (calls : list (list pair)) : list (Z * Z) :=
  (0, zlen calls) :: concat (zip_with op_record (seqZ 0 (zlen calls)) calls).

Definition procedure_words : list (Z * Z) :=
  [(0, 1)] ++ w64 0x08 0x18 ++ w64 0x10 0x20 ++
  [(0x18, 1); (0x1c, 3); (0x20, 0); (0x24, 0); (0x28, 1); (0x2c, 0); (0x30, 0xffffffff); (0x34, 4)].

Definition tdprop_words (blocks tsk_size : Z) : list (Z * Z) :=
  [(0, 1); (0x08, 0); (0x0c, u32 blocks)] ++ w64 0x10 0 ++ w64 0x18 0 ++ w64 0x20 tsk_size.

Section build.
(** Whether [calloc] of a given size succeeds. *)
Context (mem : Z -> bool).

Definition sec_alloc (size : Z) : res bytes :=
  guard_fail (negb (mem size)) ENOMEM;; Ret (replicate (Z.to_nat size) 0).

(** Fills the generic, operation, procedure and tdprop sections. *)
Definition emit_io_sections (model : ane_m2_model) (desc kern : bytes) (tsk_size : Z)
    : res ane_m2_sections :=
  gen ← sec_alloc (0x208 + 0x30 * zlen (m_io model));
  gen ← put_words gen (generic_words (m_io model));
  oper ← sec_alloc (4 + 0x40c * zlen (call_refs model));
  oper ← put_words oper (operation_words (call_refs model));
  proc ← sec_alloc (0x18 + 0x20);
  proc ← put_words proc procedure_words;
  blocks ← tdprop_block_count desc tsk_size;
  guard_fail (blocks =? 0) EINVAL;;
  tdp ← sec_alloc 40;
  tdp ← put_words tdp (tdprop_words blocks tsk_size);
  Ret (Sections gen kern desc oper proc tdp).

(** ** [check_bound_slots] *)

(** The size the last ref of [slot] gives, [None] when no ref names it. *)
Definition bound_size (refs : list pair) (io : list ane_m2_io) (krn_size slot : Z) : option Z :=
  fold_left (fun acc r =>
      if negb (r.1 =? slot) then acc
      else Some (fold_left (fun size e => if buffer_id e =? r.2 then io_size e else size) io
                   (if r.2 =? 2 then krn_size else 0)))
    refs None.

(** The byte offset of a BAR ref: its first payload word, and the second as
    the high half. *)
Definition bar_offset (stream : bytes) (t : ane_task) (idx n : Z) : res Z :=
  lo ← payload0 stream t idx;
  if n >? 1 then
    hi ← le32 stream (off t + (idx + 2) * 4);
    Ret (Z.lor lo (Z.shiftl hi 32))
  else Ret lo.

Definition bound_record (stream : bytes) (t : ane_task) (refs : list pair) (io : list ane_m2_io)
    (krn_size : Z) (_ : unit) (h idx n : Z) : res unit :=
  if negb (is_bar_ref h) then Ret tt
  else
    o ← bar_offset stream t idx n;
    match bound_size refs io krn_size (bar_slot h) with
    | None => fail
    | Some size => guard_fail (o >=? size) EINVAL
    end.

(** [refs] is [call_refs[0]]. *)
Definition check_bound_slots (desc : bytes) (tasks : list ane_task) (refs : list pair)
    (io : list ane_m2_io) (krn_size : Z) : res unit :=
  foldM (fun u t => walk_task desc t (bound_record desc t refs io krn_size) u) tt tasks.

(** ** [ane_m2_program_build_ports] *)

Definition ANEC_M2_HEADER_SIZE : Z := 0x1000.
Definition ANE_M2_TILE_COUNT : Z := 0x20.

(** The header fields both builders read. *)
Record m2_header := Header {
  payload : Z; first_task : Z; task_count : Z; h_tsk_size : Z; h_krn_size : Z;
  input_count : Z; version : Z;
}.

Definition read_header (d : bytes) : res m2_header :=
  guard_fail (zlen d <? ANEC_M2_HEADER_SIZE) EINVAL;;
  payload ← le64 d 0;
  first_task ← le32 d 0x08;
  task_count ← le32 d 0x0c;
  tsk_size ← le64 d 0x10;
  krn_size ← le64 d 0x18;
  input_count ← le32 d 0x20;
  version ← le32 d 0x24;
  guard_fail (negb (payload =? zlen d - ANEC_M2_HEADER_SIZE)) EINVAL;;
  guard_fail (negb (version =? 1)) EINVAL;;
  Ret (Header payload first_task task_count tsk_size krn_size input_count version).

(** The constant region: 64-byte aligned, past the task stream. *)
Definition const_off (hd : m2_header) : res Z :=
  guard_fail (h_krn_size hd >? payload hd) EINVAL;;
  let off := payload hd - h_krn_size hd in
  guard_fail (negb (Z.land off 0x3f =? 0)) EINVAL;;
  guard_fail (h_tsk_size hd >? off) EINVAL;;
  Ret off.

Record ane_m2_port_spec := Port { p_dir : Z; p_buffer_id : Z; p_bar_slot : Z; p_tile_bytes : Z }.

(** One port against the ports before it. *)
Definition check_port (prev : list ane_m2_port_spec) (p : ane_m2_port_spec) : res unit :=
  guard_fail ((p_tile_bytes p =? 0) || negb (Z.land (p_tile_bytes p) 0x3fff =? 0)) EINVAL;;
  guard_fail (p_dir p >? 2) EINVAL;;
  guard_fail (if p_dir p =? 2 then negb (p_buffer_id p =? ANE_M2_SCRATCH_BUFID)
              else (p_buffer_id p >=? ANE_M2_TILE_COUNT) || (p_buffer_id p =? 2) ||
                   (p_buffer_id p =? 3)) EINVAL;;
  guard_fail ((p_bar_slot p <? 2) || (p_bar_slot p >? 0x3c)) EINVAL;;
  guard_fail (existsb (fun q => (p_buffer_id q =? p_buffer_id p) || (p_bar_slot q =? p_bar_slot p))
                prev) EINVAL.

Definition check_ports (ports : list ane_m2_port_spec) : res (list ane_m2_port_spec) :=
  foldM (fun prev p => check_port prev p;; Ret (prev ++ [p])) [] ports.

Definition count_dir (ports : list ane_m2_port_spec) (d : Z) : Z :=
  zlen (filter (fun p => p_dir p = d) ports).

Definition port_io (p : ane_m2_port_spec) : ane_m2_io := Io (p_buffer_id p) (p_dir p) (p_tile_bytes p).

(** Inputs, then outputs, then the scratch, each in caller order. *)
Definition ports_io (ports : list ane_m2_port_spec) : list ane_m2_io :=
  port_io <$> (filter (fun p => p_dir p = 0) ports ++ filter (fun p => p_dir p = 1) ports ++
               filter (fun p => p_dir p = 2) ports).

Definition ports_scratch_index (ports : list ane_m2_port_spec) : Z :=
  if count_dir ports 2 =? 0 then U32_MAX
  else count_dir ports 0 + count_dir ports 1 + count_dir ports 2 - 1.

(** The kernel pair and one pair per port, up to [ANE_M2_MAX_BINDS]. *)
Definition ports_refs (ports : list ane_m2_port_spec) : list pair :=
  insertion_sort fst (take 64 ((1, 2) :: ((fun p => (p_bar_slot p, p_buffer_id p)) <$> ports))).

(** The descriptor section: the task stream behind a zero frame. *)
Definition load_descriptor (d : bytes) (tsk_size : Z) : res bytes :=
  guard_fail (tsk_size <? FRAME_BYTES) EINVAL;;
  desc ← sec_alloc tsk_size;
  desc ← memcpy desc 0 d ANEC_M2_HEADER_SIZE tsk_size;
  check_zero desc 0 FRAME_BYTES;;
  Ret desc.

(** The walked tasks must agree with the header. *)
Definition check_tasks (hd : m2_header) (tasks : list ane_task) : res unit :=
  guard_fail (zlen tasks =? 0) EINVAL;;
  guard_fail (negb (zlen tasks =? task_count hd)) EINVAL;;
  guard_fail (negb (first_task hd =? u32 (words (default (Task 0 0) (head tasks)) * 4))) EINVAL.

Definition load_kernel (d : bytes) (hd : m2_header) (coff : Z) : res bytes :=
  kern ← sec_alloc (h_krn_size hd);
  memcpy kern 0 d (ANEC_M2_HEADER_SIZE + coff) (h_krn_size hd).

Definition ane_m2_program_build_ports_inner (d : bytes) (ports : list ane_m2_port_spec)
    : res (ane_m2_model * ane_m2_sections) :=
  hd ← read_header d;
  coff ← const_off hd;
  check_ports ports;;
  guard_fail (negb (count_dir ports 0 =? input_count hd) || (count_dir ports 1 =? 0) ||
              (count_dir ports 2 >? 1)) EINVAL;;
  let refs := ports_refs ports in
  let model := Model (ports_io ports) (ports_scratch_index ports) [refs] in
  desc ← load_descriptor d (h_tsk_size hd);
  guard_fail (task_count hd >? h_tsk_size hd / 32) EINVAL;;
  guard_fail (negb (mem ((if task_count hd =? 0 then 1 else task_count hd) * 16))) ENOMEM;;
  tasks ← split_h14_tasks desc (h_tsk_size hd) (task_count hd);
  check_tasks hd tasks;;
  check_bound_slots desc tasks refs (m_io model) (h_krn_size hd);;
  kern ← load_kernel d hd coff;
  secs ← emit_io_sections model desc kern (h_tsk_size hd);
  Ret (model, secs).

(** [ports] is [None] for a null pointer. *)
Definition ane_m2_program_build_ports (d : bytes) (ports : option (list ane_m2_port_spec))
    : res (ane_m2_model * ane_m2_sections) :=
  match ports with
  | None => fail
  | Some ports =>
      guard_fail (zlen ports =? 0) EINVAL;;
      guard_fail (zlen ports >=? ANE_M2_MAX_BINDS) EINVAL;;
      ane_m2_program_build_ports_inner d ports
  end.

(** ** [ane_m2_program_build] *)

(** One io entry: input [k] on channel [5 + k], the output on channel 4. *)
Definition build_io_entry (d : bytes) (input_count k : Z) : res ane_m2_io :=
  let b := if k <? input_count then 5 + k else 4 in
  let dr := if k <? input_count then 0 else 1 in
  guard_fail ((b >=? ANE_M2_TILE_COUNT) || (b =? 2) || (b =? 3)) EINVAL;;
  tiles ← le32 d (0x28 + b * 4);
  guard_fail ((tiles =? 0) || (tiles >? 2 ^ 20)) EINVAL;;
  Ret (Io b dr (u64 (Z.shiftl tiles 14))).

Definition build_io (d : bytes) (input_count : Z) : res (list ane_m2_io) :=
  foldM (fun io k => e ← build_io_entry d input_count k; Ret (io ++ [e])) []
    (seqZ 0 (input_count + 1)).

Definition has_scratch (refs : list pair) : bool :=
  existsb (fun r => r.2 =? ANE_M2_SCRATCH_BUFID) refs.

(** The scratch entry, when the refs or the merge need one. *)
Definition scratch_entry (env : option (list Z)) (desc : bytes) (tasks : list ane_task)
    (input_count : Z) (io : list ane_m2_io) (refs : list pair) (merged : bool)
    : res (list ane_m2_io * Z) :=
  if negb (merged || has_scratch refs) then Ret (io, U32_MAX)
  else
    match list_find (fun r => r.2 = ANE_M2_SCRATCH_BUFID) refs with
    | None => fail
    | Some (_, r) =>
        out ← (match io !! Z.to_nat input_count with
               | Some e => Ret (io_size e) | None => Fault OutOfBounds end);
        sz ← scratch_size_bytes desc tasks r.1 out;
        let env_bytes := match env with
                         | Some e => if negb (char0 e =? 48) && negb (char0 e =? 45)
                                     then (strtoul e).1 else 0
                         | None => 0
                         end in
        let sz := if env_bytes >? sz then env_bytes else sz in
        guard_fail (zlen io >=? ANE_M2_MAX_BINDS) EINVAL;;
        Ret (io ++ [Io ANE_M2_SCRATCH_BUFID 2 (u64 (sz + 0x4000))], zlen io)
    end.

(** [env_scratch] and [env_oprefs] are the two environment variables. *)
Definition ane_m2_program_build (env_scratch env_oprefs : option (list Z)) (d : bytes)
    : res (ane_m2_model * ane_m2_sections) :=
  hd ← read_header d;
  guard_fail ((input_count hd <? 1) || (input_count hd >? 3)) EINVAL;;
  coff ← const_off hd;
  io ← build_io d (input_count hd);
  desc ← load_descriptor d (h_tsk_size hd);
  tasks ← split_h14_tasks desc (h_tsk_size hd) ANE_M2_MAX_TASKS;
  check_tasks hd tasks;;
  '(refs, merged) ← derive_refs desc tasks io false (scratch_bufid_from_env env_scratch);
  refs ← oprefs_apply env_oprefs refs;
  '(io, scratch_index) ← scratch_entry env_scratch desc tasks (input_count hd) io refs merged;
  kern ← load_kernel d hd coff;
  let model := Model io scratch_index [refs] in
  secs ← emit_io_sections model desc kern (h_tsk_size hd);
  Ret (model, secs).
End build.

(** ** Runs of word stores *)

(** The cases of membership of a store in an explicit list. *)
Ltac mem_cases H :=
  rewrite ?elem_of_cons elem_of_nil in H;
  repeat match type of H with _ \/ _ => destruct H as [H|H] end;
  [.. | destruct H]; apply pair_equal_spec in H as [? ?]; subst.

Definition words_fit (n : Z) (ws : list (Z * Z)) : Prop :=
  Forall (fun w => 0 <= w.1 /\ w.1 mod 4 = 0 /\ w.1 + 4 <= n) ws.

(** [m'] holds the stores [ws] over [m]: a word stored once has its value, an
    aligned word never stored is unchanged. *)
Record stored (m : bytes) (ws : list (Z * Z)) (m' : bytes) : Prop := {
  st_len : zlen m' = zlen m;
  st_ok : bytes_ok m -> bytes_ok m';
  st_in : forall o v, (o, v) ∈ ws -> (forall v', (o, v') ∈ ws -> v' = v) ->
            word32_at m' o = u32 v;
  st_out : forall o, 0 <= o -> o mod 4 = 0 -> o + 4 <= zlen m -> o ∉ ws.*1 ->
             word32_at m' o = word32_at m o;
}.

Lemma put_words_stored m ws :
  words_fit (zlen m) ws -> exists m', put_words m ws = Ret m' /\ stored m ws m'.
Proof.
  unfold put_words. revert m. induction ws as [|[o v] ws IH]; intros m Hfit.
  { exists m. split; [done|]. constructor; try done. by intros o v ?%elem_of_nil. }
  apply Forall_cons in Hfit as [(Ho & Ho4 & Hol) Hfit]. cbn [fst] in *. cbn [foldM].
  rewrite put_le32_eq; [|done..]. cbn [mbind res_bind].
  set (m1 := patch m o (le_bytes 4 v)).
  assert (zlen m1 = zlen m) as Hz by (apply zlen_patch; rewrite ?zlen_le_bytes; lia).
  destruct (IH m1) as (m' & Hm' & [Hlen Hok Hin Hout]); [by rewrite Hz|].
  exists m'. split; [done|]. constructor.
  - lia.
  - intros Hm. apply Hok. apply bytes_ok_patch; [done|apply bytes_ok_le_bytes].
  - intros o' v' Hmem Huniq. destruct (decide (o' ∈ ws.*1)) as [Hd|Hd].
    + apply list_elem_of_fmap in Hd as ([o2 v2] & -> & Hd). simpl in *.
      assert (v2 = v') as -> by (apply Huniq; set_solver).
      apply Hin; [done|]. intros v3 ?. apply Huniq. set_solver.
    + apply elem_of_cons in Hmem as [Hmem|Hmem];
        [|destruct Hd; apply list_elem_of_fmap; by exists (o', v')].
      injection Hmem as -> ->. rewrite Hout; [|lia..|done].
      apply word32_at_patch_same; lia.
  - intros o' Ho' Ho4' Hl Hnin. rewrite fmap_cons in Hnin.
    apply not_elem_of_cons in Hnin as [Hne Hnin]. simpl in Hne.
    rewrite Hout; [|lia|done|lia|done]. apply word32_at_patch_other; rewrite ?zlen_le_bytes; dlia.
Qed.

Lemma elem_concat_zip {A B} (f : Z -> A -> list B) (l : list A) x :
  x ∈ concat (zip_with f (seqZ 0 (zlen l)) l) <->
  exists k e, l !! k = Some e /\ x ∈ f (Z.of_nat k) e.
Proof.
  rewrite list_elem_of_In in_concat. setoid_rewrite <- list_elem_of_In. split.
  - intros (ys & Hys & Hx). apply list_elem_of_lookup in Hys as (k & Hk).
    apply lookup_zip_with_Some in Hk as (i & e & -> & Hi & He).
    apply lookup_seqZ in Hi as [-> _]. exists k, e. by rewrite Z.add_0_l in Hx.
  - intros (k & e & Hk & Hx). exists (f (Z.of_nat k) e). split; [|done].
    apply list_elem_of_lookup. exists k. apply lookup_zip_with_Some.
    exists (Z.of_nat k), e. split; [done|]. split; [|done].
    apply lookup_seqZ. apply lookup_lt_Some in Hk. unfold zlen. lia.
Qed.

(** *** The generic section *)

Definition io_dir_field (io : ane_m2_io) : Z :=
  if dir io =? 2 then 1 else if negb (dir io =? 0) then 2 else 1.

Lemma generic_words_cases io o v :
  (o, v) ∈ generic_words io <->
  (o, v) ∈ [(0x00, 1); (0x04, 0x10); (0x204, zlen io)] \/
  exists k e, io !! k = Some e /\ (o, v) ∈ generic_entry (Z.of_nat k) e.
Proof. unfold generic_words. by rewrite elem_of_app elem_concat_zip. Qed.

(** Every store of an entry is inside its 0x30 bytes and word aligned. *)
Lemma generic_entry_range k io o v :
  (o, v) ∈ generic_entry k io ->
  0x208 + 0x30 * k <= o /\ o + 4 <= 0x208 + 0x30 * (k + 1) /\ (o - 0x208) mod 4 = 0.
Proof.
  unfold generic_entry, w64. set (e := 0x208 + 0x30 * k). cbn [app].
  intros H. mem_cases H; unfold e; dlia.
Qed.

Lemma generic_words_fit io :
  words_fit (0x208 + 0x30 * zlen io) (generic_words io).
Proof.
  apply Forall_forall. intros [o v] H. cbn [fst]. pose proof (zlen_nonneg io).
  apply generic_words_cases in H as [H|(k & e & Hk & H)].
  - mem_cases H; dlia.
  - apply generic_entry_range in H. apply lookup_lt_Some in Hk. unfold zlen. dlia.
Qed.

(** A store determines the word it writes. *)
Lemma generic_entry_functional k io o v v' :
  (o, v) ∈ generic_entry k io -> (o, v') ∈ generic_entry k io -> v' = v.
Proof.
  unfold generic_entry, w64. set (e := 0x208 + 0x30 * k). cbn [app].
  intros H H'. mem_cases H; mem_cases H'; done || lia.
Qed.

Lemma generic_words_functional io o v v' :
  (o, v) ∈ generic_words io -> (o, v') ∈ generic_words io -> v' = v.
Proof.
  intros H H'. apply generic_words_cases in H as [H|(k & e & Hk & H)];
    apply generic_words_cases in H' as [H'|(k' & e' & Hk' & H')].
  - mem_cases H; mem_cases H'; done.
  - apply generic_entry_range in H'.
    mem_cases H; lia.
  - apply generic_entry_range in H. mem_cases H'; lia.
  - pose proof (generic_entry_range _ _ _ _ H). pose proof (generic_entry_range _ _ _ _ H').
    assert (k = k') as <- by lia. assert (e' = e) as -> by congruence.
    by eapply generic_entry_functional.
Qed.

(** What the firmware reads back of the generic section. *)
Definition decode_generic (g : bytes) : list (Z * Z * Z) :=
  (fun k => (word32_at g (0x208 + 0x30 * k + 4), word32_at g (0x208 + 0x30 * k + 0x10),
             word64_at g (0x208 + 0x30 * k + 0x20))) <$> seqZ 0 (word32_at g 0x204).

Definition io_ok (e : ane_m2_io) : Prop := in_range 32 (buffer_id e) /\ in_range 64 (io_size e).

Lemma u32_halves v : in_range 64 v -> Z.lor (u32 (u32 v)) (Z.shiftl (u32 (u32 (Z.shiftr v 32))) 32) = v.
Proof.
  intros Hv. rewrite !wrap_wrap //. rewrite lor_shiftl_add //; [|by apply wrap_range].
  unfold wrap. rewrite Z.shiftr_div_pow2 //. unfold in_range in Hv.
  change (2 ^ 64) with (2 ^ 32 * 2 ^ 32) in Hv.
  rewrite (Z.mod_small (v / 2 ^ 32)); [|dlia]. dlia.
Qed.

Lemma generic_decodes m io g :
  Forall io_ok io -> zlen io < 2 ^ 32 -> stored m (generic_words io) g ->
  decode_generic g = (fun e => (buffer_id e, io_dir_field e, io_size e)) <$> io.
Proof.
  intros Hio Hn Hst. unfold decode_generic. pose proof (zlen_nonneg io).
  assert (forall o v, (o, v) ∈ generic_words io -> word32_at g o = u32 v) as Hrd.
  { intros o v Ho. apply (st_in _ _ _ Hst); [done|]. intros v' Hv'.
    by eapply generic_words_functional. }
  rewrite (Hrd 0x204 (zlen io)); [|apply generic_words_cases; left; set_solver].
  rewrite wrap_small; [|lia]. apply list_eq. intros k.
  rewrite (list_lookup_fmap _ (seqZ _ _)) (list_lookup_fmap _ io).
  destruct (io !! k) as [e|] eqn:Hk.
  - pose proof (lookup_lt_Some _ _ _ Hk) as Hlt. rewrite lookup_seqZ_lt; [|unfold zlen; lia].
    simpl. rewrite Z.add_0_l. set (a := 0x208 + 0x30 * Z.of_nat k).
    assert (forall o v, (o, v) ∈ generic_entry (Z.of_nat k) e -> word32_at g o = u32 v) as Hrd'.
    { intros o v Ho. apply Hrd. apply generic_words_cases. right. by exists k, e. }
    rewrite Forall_forall in Hio. destruct (Hio e) as [Hb Hs];
      [by eapply list_elem_of_lookup_2|].
    rewrite (Hrd' (a + 4) (buffer_id e)); [|unfold generic_entry; fold a; set_solver].
    rewrite (Hrd' (a + 0x10) (io_dir_field e)); [|unfold generic_entry; fold a; set_solver].
    unfold word64_at. rewrite (Hrd' (a + 0x20) (u32 (io_size e)));
      [|unfold generic_entry, w64; fold a; set_solver].
    rewrite (Hrd' (a + 0x20 + 4) (u32 (Z.shiftr (io_size e) 32)));
      [|unfold generic_entry, w64; fold a; set_solver].
    rewrite u32_halves //. rewrite (wrap_small 32 (buffer_id e)) //.
    rewrite (wrap_small 32 (io_dir_field e)) //. unfold io_dir_field.
    repeat case_match; lia.
  - rewrite lookup_seqZ_ge; [done|]. apply lookup_ge_None in Hk. unfold zlen. lia.
Qed.

(** *** The operation section *)

(** The pairs of a record fit its 0x40c bytes. *)
Definition refs_fit (refs : list pair) : Prop :=
  zlen refs <= 128 /\ Forall (fun r => in_range 32 r.1 /\ in_range 32 r.2) refs.

Lemma op_record_cases k refs o v :
  (o, v) ∈ op_record k refs <->
  (o = 4 + 0x40c * k + 8 /\ v = zlen refs) \/
  exists j r, refs !! j = Some r /\ (o, v) ∈ op_pair (4 + 0x40c * k) (Z.of_nat j) r.
Proof. unfold op_record. rewrite elem_of_cons elem_concat_zip pair_equal_spec. done. Qed.

Lemma op_pair_range rec j r o v :
  (o, v) ∈ op_pair rec j r ->
  rec + 0x0c + 8 * j <= o /\ o + 4 <= rec + 0x0c + 8 * (j + 1) /\ (o - rec) mod 4 = 0.
Proof. unfold op_pair. intros H. mem_cases H; dlia. Qed.

Lemma op_record_range k refs o v :
  refs_fit refs -> (o, v) ∈ op_record k refs ->
  4 + 0x40c * k <= o /\ o + 4 <= 4 + 0x40c * (k + 1) /\ (o - 4) mod 4 = 0.
Proof.
  intros [Hfit _] H. apply op_record_cases in H as [[-> _]|(j & r & Hj & H)]; [dlia|].
  apply op_pair_range in H. apply lookup_lt_Some in Hj. unfold zlen in Hfit. dlia.
Qed.

Lemma op_record_functional k refs o v v' :
  (o, v) ∈ op_record k refs -> (o, v') ∈ op_record k refs -> v' = v.
Proof.
  intros H H'. apply op_record_cases in H as [[-> ->]|(j & r & Hj & H)];
    apply op_record_cases in H' as [[Ho ->]|(j' & r' & Hj' & H')]; [done|..].
  - apply op_pair_range in H'. lia.
  - apply op_pair_range in H. lia.
  - pose proof (op_pair_range _ _ _ _ _ H). pose proof (op_pair_range _ _ _ _ _ H').
    assert (j = j') as <- by lia. assert (r' = r) as -> by congruence.
    unfold op_pair in H, H'. mem_cases H; mem_cases H'; done || lia.
Qed.

Lemma operation_words_cases calls o v :
  (o, v) ∈ operation_words calls <->
  (o = 0 /\ v = zlen calls) \/
  exists k refs, calls !! k = Some refs /\ (o, v) ∈ op_record (Z.of_nat k) refs.
Proof. unfold operation_words. rewrite elem_of_cons elem_concat_zip pair_equal_spec. done. Qed.

Lemma operation_words_fit calls :
  Forall refs_fit calls -> words_fit (4 + 0x40c * zlen calls) (operation_words calls).
Proof.
  intros Hok. apply Forall_forall. intros [o v] H. cbn [fst]. pose proof (zlen_nonneg calls).
  apply operation_words_cases in H as [[-> _]|(k & refs & Hk & H)]; [dlia|].
  apply op_record_range in H; [|by eapply Forall_lookup_1].
  apply lookup_lt_Some in Hk. unfold zlen. dlia.
Qed.

Lemma operation_words_functional calls o v v' :
  Forall refs_fit calls ->
  (o, v) ∈ operation_words calls -> (o, v') ∈ operation_words calls -> v' = v.
Proof.
  intros Hok H H'. apply operation_words_cases in H as [[-> ->]|(k & refs & Hk & H)];
    apply operation_words_cases in H' as [[Ho ->]|(k' & refs' & Hk' & H')]; [done|..].
  - apply op_record_range in H'; [lia|by eapply Forall_lookup_1].
  - apply op_record_range in H; [lia|by eapply Forall_lookup_1].
  - pose proof (op_record_range _ _ _ _ (Forall_lookup_1 _ _ _ _ Hok Hk) H).
    pose proof (op_record_range _ _ _ _ (Forall_lookup_1 _ _ _ _ Hok Hk') H').
    assert (k = k') as <- by lia. assert (refs' = refs) as -> by congruence.
    by eapply op_record_functional.
Qed.

(** What the firmware reads back of the operation section. *)
Definition decode_record (g : bytes) (k : Z) : list pair :=
  let rec := 4 + 0x40c * k in
  (fun j => (word32_at g (rec + 0x0c + 8 * j), word32_at g (rec + 0x0c + 8 * j + 4)))
    <$> seqZ 0 (word32_at g (rec + 8)).

Definition decode_operation (g : bytes) : list (list pair) :=
  decode_record g <$> seqZ 0 (word32_at g 0).

(** Reading a list back index by index. *)
Lemma fmap_seqZ_list {A} (f : Z -> A) (l : list A) :
  (forall k x, l !! k = Some x -> f (Z.of_nat k) = x) -> f <$> seqZ 0 (zlen l) = l.
Proof.
  intros Hf. apply list_eq. intros k. rewrite (list_lookup_fmap _ (seqZ _ _)).
  destruct (l !! k) as [x|] eqn:Hk.
  - rewrite lookup_seqZ_lt; [|apply lookup_lt_Some in Hk; unfold zlen; lia].
    simpl. by rewrite (Hf k x).
  - rewrite lookup_seqZ_ge; [done|]. apply lookup_ge_None in Hk. unfold zlen. lia.
Qed.

Lemma operation_decodes m calls g :
  Forall refs_fit calls -> zlen calls < 2 ^ 32 -> stored m (operation_words calls) g ->
  decode_operation g = calls.
Proof.
  intros Hok Hn Hst. unfold decode_operation. pose proof (zlen_nonneg calls).
  assert (forall o v, (o, v) ∈ operation_words calls -> word32_at g o = u32 v) as Hrd.
  { intros o v Ho. apply (st_in _ _ _ Hst); [done|]. intros v' Hv'.
    by eapply operation_words_functional. }
  rewrite (Hrd 0 (zlen calls)); [|apply operation_words_cases; by left].
  rewrite wrap_small; [|lia]. apply fmap_seqZ_list. intros k refs Hk.
  assert (forall o v, (o, v) ∈ op_record (Z.of_nat k) refs -> word32_at g o = u32 v) as Hrd'.
  { intros o v Ho. apply Hrd. apply operation_words_cases. right. by exists k, refs. }
  destruct (Forall_lookup_1 _ _ _ _ Hok Hk) as [Hfit Hr]. pose proof (zlen_nonneg refs).
  unfold decode_record. set (rec := 4 + 0x40c * Z.of_nat k).
  rewrite (Hrd' (rec + 8) (zlen refs)); [|apply op_record_cases; by left].
  rewrite wrap_small; [|lia]. apply fmap_seqZ_list. intros j [s t] Hj.
  destruct (Forall_lookup_1 _ _ _ _ Hr Hj) as [H1 H2]. cbn [fst snd] in H1, H2.
  rewrite (Hrd' (rec + 0x0c + 8 * Z.of_nat j) s).
  2:{ apply op_record_cases. right. exists j, (s, t). split; [done|]. unfold op_pair. set_solver. }
  rewrite (Hrd' (rec + 0x0c + 8 * Z.of_nat j + 4) t).
  2:{ apply op_record_cases. right. exists j, (s, t). split; [done|]. unfold op_pair. set_solver. }
  by rewrite !wrap_small.
Qed.

(** ** The descriptor walk *)

Lemma land_3ff0 x : Z.land x 0x3ff0 = (x / 16) mod 1024 * 16.
Proof. exact (land_field x 4 10 ltac:(done) ltac:(done)). Qed.

(** The step of the block walk makes progress. *)
Lemma block_step blk : 0 < blk <= 0x7ff -> 16 <= Z.land (u32 (Z.shiftl blk 2) + 0xf) 0x3ff0.
Proof.
  intros Hb. rewrite Z.shiftl_mul_pow2; [|lia]. change (2 ^ 2) with 4.
  rewrite wrap_small; [|lia]. rewrite land_3ff0. dlia.
Qed.

Lemma wp_tdprop desc size :
  bytes_ok desc -> 0 <= size <= zlen desc ->
  wp (tdprop_block_count desc size) (fun n => 0 <= n).
Proof.
  intros Hok Hs. unfold tdprop_block_count. wp_step. wp_step.
  rewrite le32_eq; [|lia..]. cbn [mbind res_bind]. set (w0 := word32_at desc 0).
  set (stride := if negb _ then 0x30 else 0x10).
  assert (16 <= stride) by (unfold stride; destruct (negb _); lia).
  apply wp_bind. apply wp_loop with
    (I := fun s => 16 <= s.1.1 /\ 0 <= s.1.2 /\ 0 <= s.2)
    (mu := fun s => Z.to_nat (size - s.1.1)).
  - intros [[cur last] walked] (Hc & Hl & Hw). cbn [fst snd] in *. unfold tdprop_body.
    destruct (cur <? size) eqn:E.
    + wp_step. wp_step. rewrite le16_eq; [|lia..]. cbn [mbind res_bind]. wp_step. wp_step.
      pose proof (land_7ff (word16_at desc (cur + 2))).
      pose proof (block_step (Z.land (word16_at desc (cur + 2)) 0x7ff) ltac:(lia)).
      cbn [wp fst snd]. lia.
    + cbn [wp]. destruct (negb (Z.land w0 1 =? 0) && (size >? stride)).
      * wp_step. wp_step. wp_step. wp_step. rewrite le32_eq; [|lia..]. cbn [mbind res_bind].
        wp_step. wp_step. exact Hw.
      * exact Hw.
  - cbn [fst snd]. lia.
  - cbn [fst snd]. lia.
Qed.

Lemma wp_sec_alloc mem size Q :
  0 <= size -> (forall m, zlen m = size -> bytes_ok m -> Q m) -> wp (sec_alloc mem size) Q.
Proof.
  intros Hs HQ. unfold sec_alloc. wp_step. wp_step. simpl. apply HQ.
  - rewrite zlen_replicate. lia.
  - by apply Forall_replicate.
Qed.

Lemma wp_put_words m ws Q :
  words_fit (zlen m) ws -> (forall m', stored m ws m' -> Q m') -> wp (put_words m ws) Q.
Proof.
  intros Hfit HQ. destruct (put_words_stored m ws Hfit) as (m' & -> & Hst). simpl. by apply HQ.
Qed.

Lemma words_fit_closed n ws :
  forallb (fun w => (0 <=? w.1) && (w.1 mod 4 =? 0) && (w.1 + 4 <=? n)) ws = true ->
  words_fit n ws.
Proof.
  intros H. rewrite forallb_forall in H. apply Forall_forall. intros w Hw%list_elem_of_In.
  specialize (H w Hw). lia.
Qed.

(** What a built section set holds. *)
Record sections_of (model : ane_m2_model) (desc kern : bytes) (tsk_size : Z)
    (secs : ane_m2_sections) : Prop := {
  so_generic : decode_generic (s_generic secs) =
    (fun e => (buffer_id e, io_dir_field e, io_size e)) <$> m_io model;
  so_generic_len : zlen (s_generic secs) = 0x208 + 0x30 * zlen (m_io model);
  so_operation : decode_operation (s_operation secs) = call_refs model;
  so_operation_len : zlen (s_operation secs) = 4 + 0x40c * zlen (call_refs model);
  so_kernel : s_kernel secs = kern;
  so_descriptor : s_descriptor secs = desc;
  so_procedure : zlen (s_procedure secs) = 0x38;
  so_tdprop : exists n, tdprop_block_count desc tsk_size = Ret n /\ 0 < n /\
    word32_at (s_tdprop secs) 0x0c = u32 n /\ word64_at (s_tdprop secs) 0x20 = tsk_size;
  so_tdprop_len : zlen (s_tdprop secs) = 40;
}.

Record model_ok (model : ane_m2_model) : Prop := {
  mo_io : Forall io_ok (m_io model);
  mo_io_len : zlen (m_io model) < 2 ^ 32;
  mo_refs : Forall refs_fit (call_refs model);
  mo_calls : zlen (call_refs model) < 2 ^ 32;
}.

Lemma wp_emit mem model desc kern tsk_size :
  model_ok model -> bytes_ok desc -> 0 <= tsk_size <= zlen desc -> in_range 64 tsk_size ->
  wp (emit_io_sections mem model desc kern tsk_size) (sections_of model desc kern tsk_size).
Proof.
  intros [Hio Hion Hrefs Hcalls] Hok Hts H64. unfold emit_io_sections.
  pose proof (zlen_nonneg (m_io model)). pose proof (zlen_nonneg (call_refs model)).
  wp_step. apply wp_sec_alloc; [lia|]. intros g Hg _.
  wp_step. apply wp_put_words; [rewrite Hg; apply generic_words_fit|]. intros g' Hg'.
  wp_step. apply wp_sec_alloc; [lia|]. intros op Hop _.
  wp_step. apply wp_put_words; [rewrite Hop; by apply operation_words_fit|]. intros op' Hop'.
  wp_step. apply wp_sec_alloc; [lia|]. intros pr Hpr _.
  wp_step. apply wp_put_words; [rewrite Hpr; by apply words_fit_closed|]. intros pr' Hpr'.
  pose proof (wp_tdprop desc tsk_size Hok Hts) as Htd.
  destruct (tdprop_block_count desc tsk_size) as [n| |] eqn:Hn; [|done..].
  cbn [mbind res_bind wp] in *. apply wp_bind, wp_guard_fail. intros Hn0.
  wp_step. apply wp_sec_alloc; [lia|]. intros td Htdl _.
  wp_step. apply wp_put_words; [rewrite Htdl; by apply words_fit_closed|]. intros td' Htd'.
  constructor; cbn [s_generic s_kernel s_descriptor s_operation s_procedure s_tdprop]; try done.
  - by eapply generic_decodes.
  - by rewrite (st_len _ _ _ Hg').
  - by eapply operation_decodes.
  - by rewrite (st_len _ _ _ Hop').
  - by rewrite (st_len _ _ _ Hpr').
  - exists n. split; [done|]. split; [lia|].
    assert (forall o v, (o, v) ∈ tdprop_words n tsk_size -> word32_at td' o = u32 v) as Hrd.
    { intros o v Ho. apply (st_in _ _ _ Htd'); [done|]. unfold tdprop_words, w64 in *.
      intros v' Ho'. cbn [app] in *. mem_cases Ho; mem_cases Ho'; done || lia. }
    split; [rewrite (Hrd _ (u32 n)); [by rewrite wrap_wrap|unfold tdprop_words, w64; set_solver]|].
    unfold word64_at. rewrite (Hrd _ (u32 tsk_size)); [|unfold tdprop_words, w64; set_solver].
    rewrite (Hrd _ (u32 (Z.shiftr tsk_size 32))); [|unfold tdprop_words, w64; set_solver].
    by apply u32_halves.
  - by rewrite (st_len _ _ _ Htd').
Qed.

(** ** Bound slots *)

(** The BAR record at [idx] names a bound slot at an offset inside the bound
    buffer. *)
Definition bar_bound (desc : bytes) (refs : list pair) (io : list ane_m2_io) (krn_size : Z)
    (t : ane_task) (idx h : Z) : Prop :=
  exists o size, bar_offset desc t idx (rec_count h) = Ret o /\
    bound_size refs io krn_size (bar_slot h) = Some size /\ o < size.

Lemma wp_bar_offset desc t idx n :
  bytes_ok desc -> task_in desc t -> 8 <= idx -> 1 <= n -> idx + 1 + n <= words t ->
  twp (bar_offset desc t idx n) (fun _ => True).
Proof.
  intros Hok (H0 & H8 & Hl) Hi Hn Hf. unfold bar_offset, payload0.
  rewrite (le32_eq desc (off t + (idx + 1) * 4)); [|lia..]. cbn [mbind res_bind]. destruct (n >? 1) eqn:E; [|done].
  by rewrite le32_eq; [|lia..].
Qed.

Lemma wp_check_bound desc tasks refs io krn :
  bytes_ok desc -> Forall (task_in desc) tasks ->
  wp (check_bound_slots desc tasks refs io krn) (fun _ =>
    forall t idx h, t ∈ tasks -> task_record desc t idx h -> is_bar_ref h = true ->
      bar_bound desc refs io krn t idx h).
Proof.
  intros Hok Hts. unfold check_bound_slots.
  eapply wp_mono; [apply (wp_foldM _ (fun pre _ => forall t idx h, t ∈ pre ->
    task_record desc t idx h -> is_bar_ref h = true -> bar_bound desc refs io krn t idx h))|done].
  - by intros t idx h ?%elem_of_nil.
  - intros pre t [] Ht Hpre. rewrite Forall_forall in Hts. pose proof (Hts t Ht) as Hin.
    apply wp_iff.
    + intros w. eapply wp_no_fault. apply (wp_walk_task _ Hok _ Hin _ (fun _ => True)); [done|].
      intros [] h idx n _ Hh Hidx Hn _ Hfit _. unfold bound_record.
      destruct (negb (is_bar_ref h)); [done|]. apply wp_bind.
      eapply wp_mono; [by apply twp_wp, wp_bar_offset|]. intros o _. cbv beta.
      destruct (bound_size _ _ _ _); [by wp_step|done].
    + intros [] Hw t' idx h Ht' Hrec Hbar.
      apply elem_of_app in Ht' as [Ht'| ->%list_elem_of_singleton]; [by apply Hpre|].
      destruct (walk_task_all _ _ _ _ _ Hw idx h Hrec) as (_ & s1 & s2 & Hs).
      unfold bound_record in Hs. rewrite Hbar in Hs. cbn [negb] in Hs.
      apply bind_Ret_inv in Hs as (o & Ho & Hs).
      destruct (bound_size refs io krn (bar_slot h)) as [size|] eqn:Eb; [|done].
      apply guard_fail_Ret in Hs. exists o, size. split; [done|]. split; [done|lia].
Qed.

(** With one ref per slot and one io entry per id, the bound size is that
    entry's. *)
Lemma size_lookup io tag e k :
  NoDup (buffer_id <$> io) -> e ∈ io -> buffer_id e = tag ->
  fold_left (fun size e => if buffer_id e =? tag then io_size e else size) io k = io_size e.
Proof.
  revert k. induction io as [|e' io IH]; intros k Hnd He Htag; [by apply elem_of_nil in He|].
  rewrite fmap_cons in Hnd. apply NoDup_cons in Hnd as [Hni Hnd]. cbn [fold_left].
  apply elem_of_cons in He as [->|He]; [|by apply IH].
  rewrite Htag Z.eqb_refl. clear IH Hnd. revert Hni.
  induction io as [|e2 io IH]; intros Hni; [done|]. cbn [fold_left].
  rewrite fmap_cons in Hni. apply not_elem_of_cons in Hni as [Hne Hni].
  destruct (buffer_id e2 =? tag) eqn:E; [lia|]. by apply IH.
Qed.

Lemma size_default io tag k :
  tag ∉ buffer_id <$> io ->
  fold_left (fun size e => if buffer_id e =? tag then io_size e else size) io k = k.
Proof.
  revert k. induction io as [|e io IH]; intros k Hni; [done|]. cbn [fold_left].
  rewrite fmap_cons in Hni. apply not_elem_of_cons in Hni as [Hne Hni].
  destruct (buffer_id e =? tag) eqn:E; [lia|]. by apply IH.
Qed.

Definition tag_size (io : list ane_m2_io) (krn_size tag : Z) : Z :=
  fold_left (fun size e => if buffer_id e =? tag then io_size e else size) io
    (if tag =? 2 then krn_size else 0).

(** The size found is that of some ref of the slot. *)
Lemma bound_size_in refs io krn slot size :
  bound_size refs io krn slot = Some size ->
  exists tag, (slot, tag) ∈ refs /\ size = tag_size io krn tag.
Proof.
  unfold bound_size.
  assert (forall acc, fold_left (fun acc r =>
      if negb (r.1 =? slot) then acc
      else Some (fold_left (fun size e => if buffer_id e =? r.2 then io_size e else size) io
                   (if r.2 =? 2 then krn else 0))) refs acc = Some size ->
    acc = Some size \/ exists tag, (slot, tag) ∈ refs /\ size = tag_size io krn tag) as H.
  { induction refs as [|[s t] refs IH]; intros acc Hf; [by left|]. cbn [fold_left fst snd] in Hf.
    destruct (negb (s =? slot)) eqn:E.
    - destruct (IH acc Hf) as [?|(tag & ? & ?)]; [by left|]. right. exists tag. set_solver.
    - destruct (IH _ Hf) as [[= <-]|(tag & ? & ?)].
      + right. exists t. assert (s = slot) as -> by lia. split; [set_solver|done].
      + right. exists tag. set_solver. }
  intros Hf. by destruct (H None Hf).
Qed.

(** ** The port table *)

Record port_valid (p : ane_m2_port_spec) : Prop := {
  pv_size : 0 < p_tile_bytes p;
  pv_unit : Z.land (p_tile_bytes p) 0x3fff = 0;
  pv_dir : p_dir p <= 2;
  pv_id : if p_dir p =? 2 then p_buffer_id p = ANE_M2_SCRATCH_BUFID
          else p_buffer_id p < ANE_M2_TILE_COUNT /\ p_buffer_id p <> 2 /\ p_buffer_id p <> 3;
  pv_slot : 2 <= p_bar_slot p <= 0x3c;
}.

(** The C types of a port. *)
Definition port_typed (p : ane_m2_port_spec) : Prop :=
  in_range 32 (p_dir p) /\ in_range 32 (p_buffer_id p) /\ in_range 32 (p_bar_slot p) /\
  in_range 64 (p_tile_bytes p).

Record ports_valid (ports : list ane_m2_port_spec) : Prop := {
  ps_valid : Forall port_valid ports;
  ps_ids : NoDup (p_buffer_id <$> ports);
  ps_slots : NoDup (p_bar_slot <$> ports);
}.

Lemma NoDup_snoc {A} (l : list A) x : NoDup l -> x ∉ l -> NoDup (l ++ [x]).
Proof. intros Hl Hx. rewrite Permutation_app_comm. by constructor. Qed.

Lemma wp_check_port prev p :
  port_typed p -> ports_valid prev -> wp (check_port prev p) (fun _ => ports_valid (prev ++ [p])).
Proof.
  intros (Hd & Hid & Hsl & Hsz) [Hv Hids Hslots]. unfold check_port.
  apply wp_bind, wp_guard_fail. intros G1. apply wp_bind, wp_guard_fail. intros G2.
  apply wp_bind, wp_guard_fail. intros G3. apply wp_bind, wp_guard_fail. intros G4.
  apply wp_guard_fail. intros G5. unfold in_range in *.
  assert (forall q, q ∈ prev -> p_buffer_id q <> p_buffer_id p /\ p_bar_slot q <> p_bar_slot p) as Hne.
  { intros q Hq. destruct (existsb_exists (fun q => (p_buffer_id q =? p_buffer_id p) ||
      (p_bar_slot q =? p_bar_slot p)) prev) as [_ He].
    split; intros E; rewrite He // in G5; exists q; (split; [by apply list_elem_of_In|lia]). }
  constructor.
  - apply Forall_app_2; [done|]. apply Forall_singleton. constructor; try lia.
    destruct (p_dir p =? 2) eqn:E; lia.
  - rewrite fmap_app. apply NoDup_snoc; [done|]. intros (q & He & Hq)%list_elem_of_fmap.
    by destruct (Hne q Hq).
  - rewrite fmap_app. apply NoDup_snoc; [done|]. intros (q & He & Hq)%list_elem_of_fmap.
    by destruct (Hne q Hq).
Qed.

Lemma wp_check_ports ports :
  Forall port_typed ports -> wp (check_ports ports) (fun _ => ports_valid ports).
Proof.
  intros Ht. unfold check_ports.
  eapply wp_mono; [apply (wp_foldM _ (fun pre s => s = pre /\ ports_valid pre))|by intros ? [_ ?]].
  - split; [done|]. constructor; [constructor|apply NoDup_nil_2|apply NoDup_nil_2].
  - intros pre p s Hp [-> Hv]. rewrite Forall_forall in Ht. apply wp_bind.
    eapply wp_mono; [apply wp_check_port; auto|]. by intros [] ?.
Qed.

(** The pairs before sorting. *)
Definition port_pairs (ports : list ane_m2_port_spec) : list pair :=
  (1, 2) :: ((fun p => (p_bar_slot p, p_buffer_id p)) <$> ports).

Lemma ports_refs_spec ports :
  ports_valid ports -> zlen ports < 64 ->
  ports_refs ports ≡ₚ port_pairs ports /\
  StronglySorted (fun x y => x.1 < y.1) (ports_refs ports).
Proof.
  intros [Hv _ Hs] Hn. unfold ports_refs. fold (port_pairs ports).
  rewrite take_ge; [|unfold port_pairs; simpl; rewrite length_fmap; unfold zlen in Hn; lia].
  split; [apply insertion_sort_spec|]. apply insertion_sort_strict. unfold port_pairs.
  rewrite fmap_cons -list_fmap_compose. constructor; [|done].
  intros (p & He & Hp)%list_elem_of_fmap. simpl in He. rewrite Forall_forall in Hv.
  destruct (pv_slot _ (Hv p Hp)). lia.
Qed.

Lemma ports_io_perm ports :
  Forall port_typed ports -> Forall port_valid ports -> ports_io ports ≡ₚ port_io <$> ports.
Proof.
  intros Ht Hv. unfold ports_io. apply fmap_Permutation.
  induction ports as [|p ports IH]; [done|]. apply Forall_cons in Hv as [Hp Hv].
  apply Forall_cons in Ht as [(Hd & _) Ht]. specialize (IH Ht Hv). rewrite !filter_cons.
  pose proof (pv_dir _ Hp). unfold in_range in Hd.
  assert (p_dir p = 0 \/ p_dir p = 1 \/ p_dir p = 2) as [E|[E|E]] by lia; rewrite E /=.
  - by rewrite IH.
  - rewrite -Permutation_middle. by rewrite IH.
  - rewrite app_assoc -Permutation_middle -app_assoc. by rewrite IH.
Qed.

Lemma ports_io_ids ports :
  Forall port_typed ports -> ports_valid ports -> NoDup (buffer_id <$> ports_io ports).
Proof.
  intros Ht Hv. rewrite (ports_io_perm ports Ht (ps_valid _ Hv)).
  rewrite -list_fmap_compose. exact (ps_ids _ Hv).
Qed.

(** Where a BAR record of a port build points: the kernel constants through
    slot 1, or the buffer of the port that owns the slot. *)
Definition bar_in_port (desc : bytes) (ports : list ane_m2_port_spec) (krn_size : Z)
    (t : ane_task) (idx h : Z) : Prop :=
  exists o, bar_offset desc t idx (rec_count h) = Ret o /\
    ((bar_slot h = 1 /\ o < krn_size) \/
     exists p, p ∈ ports /\ p_bar_slot p = bar_slot h /\ o < p_tile_bytes p).

Lemma bar_bound_port desc ports krn t idx h :
  Forall port_typed ports -> ports_valid ports -> zlen ports < 64 ->
  bar_bound desc (ports_refs ports) (ports_io ports) krn t idx h ->
  bar_in_port desc ports krn t idx h.
Proof.
  intros Ht Hv Hn (o & size & Ho & Hb & Hlt). exists o. split; [done|].
  apply bound_size_in in Hb as (tag & Hin & ->).
  destruct (ports_refs_spec ports Hv Hn) as [Hperm _]. rewrite Hperm in Hin.
  pose proof (ports_io_perm ports Ht (ps_valid _ Hv)) as Hio.
  unfold port_pairs in Hin. apply elem_of_cons in Hin as [[= <- ->]|Hin].
  - left. split; [done|]. unfold tag_size in Hlt. rewrite size_default in Hlt; [done|].
    rewrite Hio -list_fmap_compose. intros (p & He & Hp)%list_elem_of_fmap. simpl in He.
    pose proof (ps_valid _ Hv) as Hpv. rewrite Forall_forall in Hpv.
    pose proof (pv_id _ (Hpv p Hp)). destruct (p_dir p =? 2); [unfold ANE_M2_SCRATCH_BUFID in *; lia|lia].
  - apply list_elem_of_fmap in Hin as (p & [= -> ->] & Hp). right. exists p.
    split; [done|]. split; [done|]. unfold tag_size in Hlt.
    rewrite (size_lookup _ _ (port_io p)) in Hlt; [done|by apply ports_io_ids| |done].
    rewrite Hio. by apply list_elem_of_fmap_2.
Qed.

(** ** The builders *)

Definition header_of (d : bytes) : m2_header :=
  Header (word64_at d 0) (word32_at d 0x08) (word32_at d 0x0c) (word64_at d 0x10) (word64_at d 0x18)
    (word32_at d 0x20) (word32_at d 0x24).

Definition header_ok (d : bytes) (hd : m2_header) : Prop :=
  payload hd = zlen d - ANEC_M2_HEADER_SIZE /\ 0 <= payload hd /\
  in_range 32 (task_count hd) /\ in_range 64 (h_tsk_size hd) /\ in_range 64 (h_krn_size hd) /\
  in_range 32 (input_count hd) /\ hd = header_of d /\ version hd = 1.

Lemma wp_read_header d : bytes_ok d -> wp (read_header d) (header_ok d).
Proof.
  intros Hok. unfold read_header, ANEC_M2_HEADER_SIZE. apply wp_bind, wp_guard_fail. intros Hl.
  rewrite (le64_eq d 0); [|lia..]. rewrite (le32_eq d 0x08); [|lia..].
  rewrite (le32_eq d 0x0c); [|lia..]. rewrite (le64_eq d 0x10); [|lia..].
  rewrite (le64_eq d 0x18); [|lia..]. rewrite (le32_eq d 0x20); [|lia..].
  rewrite (le32_eq d 0x24); [|lia..]. cbn [mbind res_bind].
  apply wp_bind, wp_guard_fail. intros Hp. apply wp_bind, wp_guard_fail. intros Hv.
  unfold header_ok, ANEC_M2_HEADER_SIZE. cbn [wp payload task_count h_tsk_size h_krn_size input_count].
  split; [lia|]. split; [lia|]. cbn [version]. assert (word32_at d 0x24 = 1) by lia.
  auto 10 using word32_at_range, word64_at_range.
Qed.

Lemma land_3f x : Z.land x 0x3f = x mod 64.
Proof. change 0x3f with (Z.ones 6). by rewrite Z.land_ones. Qed.

Lemma wp_const_off d hd :
  header_ok d hd ->
  wp (const_off hd) (fun coff => 0 <= coff /\ h_tsk_size hd <= coff /\
                                 ANEC_M2_HEADER_SIZE + coff + h_krn_size hd = zlen d /\ coff mod 64 = 0).
Proof.
  intros (Hp & Hp0 & _ & Ht & Hk & _). unfold const_off, in_range in *. rewrite land_3f.
  apply wp_bind, wp_guard_fail. intros G1. apply wp_bind, wp_guard_fail. intros G2.
  apply wp_bind, wp_guard_fail. intros G3. simpl. lia.
Qed.

(** The task stream and the constant region of the file. *)
Definition stream_of (d : bytes) (tsk_size : Z) : bytes := slice d ANEC_M2_HEADER_SIZE tsk_size.

Lemma wp_load_descriptor mem d n Q :
  bytes_ok d -> 0 <= n -> ANEC_M2_HEADER_SIZE + n <= zlen d ->
  (16 <= n -> zlen (stream_of d n) = n -> bytes_ok (stream_of d n) ->
   (forall i, 0 <= i < 16 -> byte_at (stream_of d n) i = 0) -> Q (stream_of d n)) ->
  wp (load_descriptor mem d n) Q.
Proof.
  intros Hok Hn Hl HQ. unfold load_descriptor, FRAME_BYTES, ANEC_M2_HEADER_SIZE in *.
  apply wp_bind, wp_guard_fail. intros G. wp_step. apply wp_sec_alloc; [lia|].
  intros m Hm _. rewrite memcpy_eq; [|lia..]. cbn [mbind res_bind].
  assert (zlen (slice d 0x1000 n) = n) as Hs by (apply zlen_slice; lia).
  rewrite patch_all; [|lia]. fold (stream_of d n) in *.
  assert (bytes_ok (stream_of d n)) as Hso by (by apply bytes_ok_slice).
  apply wp_bind. eapply wp_mono; [apply wp_check_zero; [done|lia|unfold stream_of; lia]|].
  intros [] Hz. simpl. apply HQ; (done || lia).
Qed.

Lemma wp_load_kernel mem d hd coff :
  0 <= h_krn_size hd -> 0 <= coff -> ANEC_M2_HEADER_SIZE + coff + h_krn_size hd = zlen d ->
  wp (load_kernel mem d hd coff) (fun k =>
    k = slice d (ANEC_M2_HEADER_SIZE + coff) (h_krn_size hd)).
Proof.
  intros Hk Hc Hl. unfold load_kernel, ANEC_M2_HEADER_SIZE in *. wp_step. apply wp_sec_alloc; [lia|].
  intros m Hm _. rewrite memcpy_eq; [|lia..]. simpl. apply patch_all. rewrite zlen_slice; lia.
Qed.

Lemma wp_check_tasks hd tasks :
  wp (check_tasks hd tasks) (fun _ => tasks <> [] /\ zlen tasks = task_count hd /\
    first_task hd = u32 (words (default (Task 0 0) (head tasks)) * 4)).
Proof.
  unfold check_tasks. apply wp_bind, wp_guard_fail. intros G1. apply wp_bind, wp_guard_fail. intros G2.
  apply wp_guard_fail. intros G3. split; [by intros ->|]. split; lia.
Qed.

Lemma split_tasks_in stream nbytes cap tasks :
  split_inv stream nbytes cap nbytes tasks -> nbytes <= zlen stream -> Forall (task_in stream) tasks.
Proof.
  intros Hs Hn. eapply Forall_impl; [apply Hs|]. intros t Ht. by eapply task_ok_in.
Qed.

(** What a successful port build guarantees. *)
Record ports_built (d : bytes) (ports : list ane_m2_port_spec) (model : ane_m2_model)
    (secs : ane_m2_sections) : Prop := {
  pb_ports : ports_valid ports;
  pb_io : m_io model = ports_io ports;
  pb_refs : exists refs, call_refs model = [refs] /\ refs ≡ₚ port_pairs ports /\
              StronglySorted (fun x y => x.1 < y.1) refs;
  pb_bound : exists tasks krn_size tsk_size coff,
    split_h14_tasks (stream_of d tsk_size) tsk_size (zlen tasks) = Ret tasks /\ tasks <> [] /\
    ANEC_M2_HEADER_SIZE + coff + krn_size = zlen d /\ 0 <= tsk_size <= coff /\
    sections_of model (stream_of d tsk_size) (slice d (ANEC_M2_HEADER_SIZE + coff) krn_size)
      tsk_size secs /\
    forall t idx h, t ∈ tasks -> task_record (stream_of d tsk_size) t idx h ->
      is_bar_ref h = true -> bar_in_port (stream_of d tsk_size) ports krn_size t idx h;
}.

Lemma ports_model_ok ports :
  Forall port_typed ports -> ports_valid ports -> zlen ports < 64 ->
  model_ok (Model (ports_io ports) (ports_scratch_index ports) [ports_refs ports]).
Proof.
  intros Ht Hv Hn. pose proof (ports_io_perm ports Ht (ps_valid _ Hv)) as Hio.
  destruct (ports_refs_spec ports Hv Hn) as [Hperm _].
  constructor; cbn [m_io call_refs]; [| | |done].
  - rewrite Hio. apply Forall_fmap. eapply Forall_impl; [exact Ht|].
    intros p (_ & ? & _ & ?). by split.
  - unfold zlen. rewrite Hio length_fmap. unfold zlen in Hn. lia.
  - apply Forall_singleton. split.
    + unfold zlen. rewrite Hperm /port_pairs /= length_fmap. unfold zlen in Hn. lia.
    + rewrite Hperm /port_pairs. constructor; [done|]. apply Forall_fmap.
      eapply Forall_impl; [exact Ht|]. by intros p (_ & ? & ? & _).
Qed.

Lemma wp_build_ports_inner mem d ports :
  bytes_ok d -> Forall port_typed ports -> zlen ports < 64 ->
  wp (ane_m2_program_build_ports_inner mem d ports)
     (fun '(model, secs) => ports_built d ports model secs).
Proof.
  intros Hok Ht Hn. unfold ane_m2_program_build_ports_inner.
  apply wp_bind. eapply wp_mono; [by apply wp_read_header|]. intros hd Hhd.
  pose proof Hhd as (Hp & Hp0 & [Htc _] & Hts & [Hk0 _] & _).
  apply wp_bind. eapply wp_mono; [by eapply wp_const_off|]. intros coff (Hc0 & Htc' & Hcl & _).
  apply wp_bind. eapply wp_mono; [by apply wp_check_ports|]. intros prev Hv. cbv beta zeta.
  apply wp_bind, wp_guard_fail. intros _. apply wp_bind.
  apply wp_load_descriptor; [done|apply Hts|unfold ANEC_M2_HEADER_SIZE in *; lia|].
  intros H16 Hdl Hdo Hdz. apply wp_bind, wp_guard_fail. intros _.
  apply wp_bind, wp_guard_fail. intros _.
  set (desc := stream_of d (h_tsk_size hd)) in *.
  pose proof (wp_split desc (h_tsk_size hd) (task_count hd) Hdo ltac:(lia) Htc) as Hsplit.
  destruct (split_h14_tasks desc (h_tsk_size hd) (task_count hd)) as [tasks| |] eqn:Es; [|done..].
  cbn [mbind res_bind wp] in *. apply wp_bind. eapply wp_mono; [apply wp_check_tasks|].
  intros [] (Hne & Hcnt & _). apply wp_bind.
  eapply wp_mono; [apply wp_check_bound; [done|eapply split_tasks_in; [done|lia]]|].
  intros [] Hbound. apply wp_bind. eapply wp_mono; [apply wp_load_kernel; done|]. intros kern ->.
  apply wp_bind. eapply wp_mono; [apply wp_emit; [by apply ports_model_ok|done|lia|done]|].
  intros secs Hsecs. cbn [wp]. constructor; [done|done| |].
  - eexists. split; [done|]. by apply ports_refs_spec.
  - exists tasks, (h_krn_size hd), (h_tsk_size hd), coff. fold desc. rewrite Hcnt.
    split; [done|]. split; [done|]. split; [done|]. split; [lia|]. split; [done|].
    intros t idx h Hin Hrec Hbar. apply bar_bound_port; [done..|]. by apply Hbound.
Qed.

(** *** The environment overrides *)

Lemma digits_length base acc s : (length (digits base acc s).2 <= length s)%nat.
Proof.
  revert acc. induction s as [|c s IH]; intros acc; simpl; [done|].
  destruct (digit_in base c); [|done]. specialize (IH (acc * base + z)). lia.
Qed.

Lemma skip_space_length s : (length (skip_space s) <= length s)%nat.
Proof. induction s as [|c s IH]; simpl; [done|]. destruct (is_space c); simpl; lia. Qed.

Lemma magnitude_length s v r : magnitude s = Some (v, r) -> (length r <= length s)%nat.
Proof.
  unfold magnitude. intros H.
  assert (forall b s' , (length s' <= length s)%nat -> Some (digits b 0 s') = Some (v, r) ->
    (length r <= length s)%nat) as Hd.
  { intros b s' Hl [= He]. pose proof (digits_length b 0 s'). rewrite He in H0. simpl in H0. lia. }
  repeat case_match; try done; (eapply Hd; [|exact H]); simpl; lia.
Qed.

Lemma strtoul_length s : (length (strtoul s).2 <= length s)%nat.
Proof.
  unfold strtoul. pose proof (skip_space_length s) as Hs. set (t := skip_space s) in *.
  set (st := match t with 45 :: t' => (true, t') | 43 :: t' => (false, t') | _ => (false, t) end).
  assert (length st.2 <= length s)%nat as Ht.
  { unfold st. destruct t as [|c t']; simpl in *; [lia|]. repeat case_match; simpl; lia. }
  destruct st as [neg t']. simpl in Ht. destruct (magnitude t') as [[v r]|] eqn:E; [|done].
  apply magnitude_length in E. simpl. lia.
Qed.

Lemma u32_pair_range a b : in_range 32 (u32 a) /\ in_range 32 (u32 b).
Proof. split; by apply wrap_range. Qed.

Lemma wp_oprefs env refs :
  refs_fit refs -> wp (oprefs_apply env refs) refs_fit.
Proof.
  intros Hfit. unfold oprefs_apply. destruct env as [[|c prefs]|]; [done| |done].
  set (s := c :: prefs). apply wp_bind.
  apply wp_loop with
    (I := fun st => refs_fit st.2 /\ zlen st.2 <= 64) (mu := fun st => length st.1).
  - intros [p acc] [[_ Hr] Hl]. cbn [fst snd] in *. unfold oprefs_body.
    destruct (bool_decide (p = []) || (zlen acc >=? ANE_M2_MAX_BINDS)) eqn:E.
    { cbn [wp]. apply wp_bind, wp_guard_fail. intros _. cbn [wp].
      destruct (insertion_sort_spec fst acc) as [Hp _]. split; [|by rewrite Hp].
      unfold zlen in *. rewrite Hp. lia. }
    unfold ANE_M2_MAX_BINDS in E.
    pose proof (strtoul_length p) as Hs1. destruct (strtoul p) as [slot e1]. cbn [snd] in Hs1.
    apply wp_bind, wp_guard_fail. intros G1.
    assert (0 < length e1)%nat by (destruct e1; [done|simpl; lia]).
    pose proof (strtoul_length (drop 1 e1)) as Hs2.
    destruct (strtoul (drop 1 e1)) as [tag e2]. cbn [snd] in Hs2. rewrite length_drop in Hs2.
    apply wp_bind, wp_guard_fail. intros _. apply wp_bind, wp_guard_fail. intros _.
    apply wp_bind, wp_guard_fail. intros _. cbn [wp fst snd].
    assert (zlen (acc ++ [(u32 slot, u32 tag)]) = zlen acc + 1) as Hz by (by rewrite zlen_app).
    split; [split; [split|]|].
    + lia.
    + apply Forall_app_2; [done|]. apply Forall_singleton, u32_pair_range.
    + lia.
    + destruct (char0 e2 =? 44); rewrite ?length_drop; lia.
  - cbn [fst snd]. split; [split; [done|constructor]|done].
  - cbn [fst]. unfold s. simpl. lia.
Qed.

(** *** The scratch entry *)

Lemma wp_scratch_size stream tasks slot out :
  bytes_ok stream -> Forall (task_in stream) tasks ->
  wp (scratch_size_bytes stream tasks slot out) (fun _ => True).
Proof.
  intros Hok Hts. unfold scratch_size_bytes. apply wp_bind.
  eapply wp_mono; [apply (wp_foldM_simple _ (fun _ => True)); [done|]|done].
  intros t mp Ht _. rewrite Forall_forall in Hts. pose proof (Hts t Ht) as Hin.
  apply (wp_walk_task _ Hok _ Hin _ (fun _ => True)); [done|].
  intros s h idx n _ Hh Hidx Hn _ Hfit _. unfold scratch_record, payload0.
  destruct (is_bar_ref h); [|done]. destruct (_ && _); [|done].
  destruct Hin as (H0 & H8 & Hl). by rewrite le32_eq; [|lia..].
Qed.

Lemma round_tiles x : 0 <= x < 2 ^ 63 -> (x + 0x3fff) / 0x4000 * 0x4000 = Z.land (x + 0x3fff) (u64 (Z.lnot 0x3fff)).
Proof.
  intros Hx. change (u64 (Z.lnot 0x3fff)) with (Z.land (Z.lnot (Z.ones 14)) (Z.ones 64)).
  rewrite Z.land_assoc -Z.ldiff_land Z.land_ones; [|lia]. rewrite Z.ldiff_ones_r; [|lia].
  rewrite Z.shiftr_div_pow2; [|lia]. rewrite Z.shiftl_mul_pow2; [|lia]. change (2 ^ 14) with 0x4000.
  symmetry. apply Z.mod_small. dlia.
Qed.

Definition reach_step (slot mp : Z) (ev : bar_ev) : res Z :=
  Ret (if at_slot slot ev then Z.max mp (b_off ev) else mp).

Lemma scratch_record_step stream t slot mp h idx p0 mp' :
  payload0 stream t idx = Ret p0 -> scratch_record stream t slot mp h idx (rec_count h) = Ret mp' ->
  if is_bar_ref h then reach_step slot mp (BarEv (bar_slot h) (bar_addr h) p0) = Ret mp' else mp' = mp.
Proof.
  unfold scratch_record, reach_step, at_slot. intros ->. pose proof (rec_count_pos h) as Hn.
  replace (rec_count h >=? 1) with true by lia. rewrite andb_true_r. destruct (is_bar_ref h); [|by intros [= <-]].
  cbn [b_slot b_off]. destruct (bar_slot h =? slot); [|done]. intros H. injection H as <-. f_equal.
  destruct (Z.gtb_spec p0 mp); lia.
Qed.

Lemma reach_run slot mp evs :
  foldM (reach_step slot) mp evs = Ret (foldl Z.max mp (b_off <$> List.filter (at_slot slot) evs)).
Proof.
  revert mp. induction evs as [|ev evs IH]; intros mp; [done|]. cbn [foldM List.filter].
  change (reach_step slot mp ev) with (Ret (if at_slot slot ev then Z.max mp (b_off ev) else mp)).
  cbn [mbind res_bind]. rewrite IH. by destruct (at_slot slot ev).
Qed.

(** The scratch buffer holds the furthest offset of its slot and an output,
    in whole 16 KiB tiles. *)
Lemma scratch_size_exact stream tasks evss slot out sz :
  bytes_ok stream -> Forall (task_in stream) tasks -> task_refs stream tasks evss -> 0 <= out < 2 ^ 62 ->
  scratch_size_bytes stream tasks slot out = Ret sz ->
  sz = (slot_reach evss slot + out + 0x3fff) / 0x4000 * 0x4000.
Proof.
  intros Hok Hts He Hout H. unfold scratch_size_bytes in H. apply bind_Ret_inv in H as (mp & Hmp & H).
  assert (mp = slot_reach evss slot) as ->.
  { clear H. unfold slot_reach, furthest. revert Hmp. generalize 0. revert He Hts. clear -Hok. intros He.
    induction He as [|t evs tasks evss He _ IH]; intros Hts m Hmp; cbn [foldM] in Hmp; [by injection Hmp as <-|].
    apply Forall_cons in Hts as [Ht Hts]. apply bind_Ret_inv in Hmp as (m1 & H1 & Hmp).
    destruct (walk_fold stream t Hok Ht _ (reach_step slot) (scratch_record_step stream t slot) m m1 H1) as (evs' & He' & Hf).
    rewrite He in He'. injection He' as <-. rewrite reach_run in Hf. injection Hf as <-.
    rewrite (IH Hts _ Hmp). cbn [concat]. by rewrite List.filter_app fmap_app foldl_app. }
  assert (0 <= slot_reach evss slot < 2 ^ 32) as Hr.
  { apply furthest_range, Forall_fmap. pose proof (all_refs_ok stream tasks Hok Hts evss He) as Hev.
    apply Forall_concat in Hev. rewrite Forall_forall in Hev. apply Forall_forall. intros ev Hin.
    rewrite list_elem_of_In List.filter_In -list_elem_of_In in Hin. exact (proj2 (Hev ev (proj1 Hin))). }
  injection H as <-. rewrite (wrap_small 64 (slot_reach evss slot + out)); [|lia].
  rewrite (wrap_small 64 (_ + 0x3fff)); [|lia]. rewrite -round_tiles; [done|lia].
Qed.

(** *** The io table *)

(** The tile count the header gives buffer [b]. *)
Definition file_tiles (d : bytes) (b : Z) : Z := word32_at d (0x28 + b * 4).

Definition tile_ok (d : bytes) (b : Z) : Prop := 1 <= file_tiles d b <= 2 ^ 20.

(** Inputs on channels 5, 6, ..., the output on channel 4. *)
Definition file_io (d : bytes) (n : Z) : list ane_m2_io :=
  ((fun k => Io (5 + k) 0 (file_tiles d (5 + k) * 0x4000)) <$> seqZ 0 n) ++ [Io 4 1 (file_tiles d 4 * 0x4000)].

Definition io_bytes_ok (d : bytes) (n : Z) : Prop := tile_ok d 4 /\ forall k, 0 <= k < n -> tile_ok d (5 + k).

Lemma wp_build_io_entry d n k :
  bytes_ok d -> 0x1000 <= zlen d -> 0 <= k <= n -> n <= 3 ->
  wp (build_io_entry d n k) (fun e =>
    let b := if k <? n then 5 + k else 4 in
    tile_ok d b /\ e = Io b (if k <? n then 0 else 1) (file_tiles d b * 0x4000)).
Proof.
  intros Hok Hl Hk Hn. unfold build_io_entry. set (b := if k <? n then 5 + k else 4).
  assert (4 <= b <= 8) as Hb by (unfold b; destruct (k <? n) eqn:?; lia).
  apply wp_bind, wp_guard_fail. intros _. rewrite le32_eq; [|lia..]. cbn [mbind res_bind].
  apply wp_bind, wp_guard_fail. intros Ht. cbn [wp]. pose proof (word32_at_range d (0x28 + b * 4) Hok) as Hr.
  fold (file_tiles d b) in *. unfold in_range in Hr. split; [unfold tile_ok; lia|]. f_equal.
  rewrite Z.shiftl_mul_pow2; [|lia]. apply wrap_small. lia.
Qed.

Lemma wp_build_io d n :
  bytes_ok d -> 0x1000 <= zlen d -> 1 <= n <= 3 ->
  wp (build_io d n) (fun io => io = file_io d n /\ io_bytes_ok d n).
Proof.
  intros Hok Hl Hn. unfold build_io. set (b := fun k => if k <? n then 5 + k else 4).
  eapply wp_mono; [apply (wp_foldM _ (fun pre io =>
    io = (fun k => Io (b k) (if k <? n then 0 else 1) (file_tiles d (b k) * 0x4000)) <$> pre /\ Forall (fun k => tile_ok d (b k)) pre))|].
  - done.
  - intros pre k io Hk [-> Hio]. apply elem_of_seqZ in Hk. apply wp_bind.
    eapply wp_mono; [apply wp_build_io_entry; (done || lia)|]. intros e [He ->]. cbn [wp].
    rewrite fmap_app. split; [done|]. apply Forall_app_2; [done|by apply Forall_singleton].
  - intros io [-> Ht]. split.
    + unfold file_io. assert (n = 1 \/ n = 2 \/ n = 3) as [->|[->| ->]] by lia; reflexivity.
    + rewrite Forall_forall in Ht. split.
      * specialize (Ht n). unfold b in Ht. rewrite Z.ltb_irrefl in Ht. apply Ht, elem_of_seqZ. lia.
      * intros k Hk. specialize (Ht k). unfold b in Ht. replace (k <? n) with true in Ht by lia. apply Ht, elem_of_seqZ. lia.
Qed.

Lemma file_io_ok d n :
  1 <= n <= 3 -> io_bytes_ok d n ->
  zlen (file_io d n) = n + 1 /\ Forall io_ok (file_io d n) /\ derived_io (file_io d n) (file_tiles d 4 * 0x4000) /\
  file_io d n !! Z.to_nat n = Some (Io 4 1 (file_tiles d 4 * 0x4000)).
Proof.
  intros Hn [H4 Hk]. unfold tile_ok in *.
  assert (length ((fun k => Io (5 + k) 0 (file_tiles d (5 + k) * 0x4000)) <$> seqZ 0 n) = Z.to_nat n) as Hlen
    by (by rewrite length_fmap length_seqZ).
  split; [unfold file_io; rewrite zlen_app; unfold zlen; rewrite Hlen; cbn; lia|]. split; [|split].
  - unfold file_io. apply Forall_app_2.
    + apply Forall_fmap, Forall_forall. intros k Hin%elem_of_seqZ. specialize (Hk k ltac:(lia)).
      split; cbn [buffer_id io_size compose]; unfold in_range; lia.
    + apply Forall_singleton. split; cbn [buffer_id io_size]; unfold in_range; lia.
  - exists ((fun k => Io (5 + k) 0 (file_tiles d (5 + k) * 0x4000)) <$> seqZ 0 n). split; [done|]. split; [|unfold U64_MAX; lia].
    apply Forall_fmap, Forall_forall. done.
  - unfold file_io. rewrite lookup_app_r; [|lia]. by rewrite Hlen Nat.sub_diag.
Qed.

(** The bytes [ANE_M2_SCRATCH] asks for. *)
Definition scratch_request (env : option (list Z)) : Z :=
  match env with
  | Some e => if negb (char0 e =? 48) && negb (char0 e =? 45) then (strtoul e).1 else 0
  | None => 0
  end.

(** One more entry when a ref names the scratch buffer, sized by the slot of
    the first that does. *)
Definition scratch_table (env : option (list Z)) (evss : list (list bar_ev)) (out : Z) (refs : list pair) : list ane_m2_io :=
  match List.filter (fun r => r.2 =? ANE_M2_SCRATCH_BUFID) refs with
  | [] => []
  | r :: _ => [Io ANE_M2_SCRATCH_BUFID 2
      (u64 (Z.max ((slot_reach evss r.1 + out + 0x3fff) / 0x4000 * 0x4000) (scratch_request env) + 0x4000))]
  end.

Lemma first_scratch (refs : list pair) :
  match list_find (fun r => r.2 = ANE_M2_SCRATCH_BUFID) refs with
  | None => List.filter (fun r => r.2 =? ANE_M2_SCRATCH_BUFID) refs = []
  | Some (_, r) => exists l, List.filter (fun r => r.2 =? ANE_M2_SCRATCH_BUFID) refs = r :: l
  end.
Proof.
  induction refs as [|r refs IH]; [done|]. cbn [List.filter list_find].
  destruct (decide (r.2 = ANE_M2_SCRATCH_BUFID)) as [E|E].
  - rewrite (proj2 (Z.eqb_eq _ _) E). by eexists.
  - rewrite (proj2 (Z.eqb_neq _ _) E). by destruct (list_find _ refs) as [[i r']|].
Qed.

Lemma has_scratch_filter refs :
  has_scratch refs = negb (bool_decide (List.filter (fun r => r.2 =? ANE_M2_SCRATCH_BUFID) refs = [])).
Proof.
  unfold has_scratch. induction refs as [|r refs IH]; [done|]. cbn [existsb List.filter].
  destruct (r.2 =? ANE_M2_SCRATCH_BUFID); [done|exact IH].
Qed.

(** The io table after the scratch step. *)
Lemma wp_scratch_entry env desc tasks evss n io refs merged e :
  bytes_ok desc -> Forall (task_in desc) tasks -> task_refs desc tasks evss -> 1 <= n <= 3 -> zlen io = n + 1 ->
  io !! Z.to_nat n = Some e -> 0 <= io_size e < 2 ^ 62 ->
  wp (scratch_entry env desc tasks n io refs merged) (fun '(io', idx) =>
    io' = io ++ scratch_table env evss (io_size e) refs /\ idx = if has_scratch refs then n + 1 else U32_MAX).
Proof.
  intros Hok Hts He Hn Hlen Hl Hout. unfold scratch_entry, scratch_table. pose proof (first_scratch refs) as Hf.
  pose proof (has_scratch_filter refs) as Hh. destruct (negb (merged || has_scratch refs)) eqn:E.
  { assert (has_scratch refs = false) as Hno by (by destruct (has_scratch refs); [rewrite orb_true_r in E|]).
    rewrite Hno in Hh |- *. symmetry in Hh. apply negb_false_iff, bool_decide_eq_true_1 in Hh. rewrite Hh app_nil_r. done. }
  destruct (list_find _ refs) as [[i r]|]; [|done]. destruct Hf as [l Hf]. rewrite Hf in Hh |- *. rewrite Hh Hl.
  cbn [mbind res_bind]. pose proof (wp_scratch_size desc tasks r.1 (io_size e) Hok Hts) as Hsz.
  destruct (scratch_size_bytes desc tasks r.1 (io_size e)) as [sz| |] eqn:Esz; [|done..]. cbn [mbind res_bind].
  apply (scratch_size_exact _ _ evss) in Esz; [|done..]. subst sz.
  apply wp_bind, wp_guard_fail. intros _. cbn [wp]. split; [|by rewrite Hlen].
  do 4 f_equal. fold (scratch_request env). destruct (Z.gtb_spec (scratch_request env)
    ((slot_reach evss r.1 + io_size e + 0x3fff) / 0x4000 * 0x4000)); lia.
Qed.

Lemma scratch_bufid_cases env :
  scratch_bufid_from_env env = 0 \/ scratch_bufid_from_env env = ANE_M2_SCRATCH_BUFID.
Proof. unfold scratch_bufid_from_env. repeat case_match; auto. Qed.

(** The refs of a derived build, when they are not overridden. *)
Definition derived_refs_ok (desc : bytes) (tasks : list ane_task) (io : list ane_m2_io)
    (refs : list pair) : Prop :=
  StronglySorted (fun x y => x.1 < y.1) refs /\
  Forall (fun r => r.2 = 2 \/ exists e, e ∈ io /\ buffer_id e = r.2) refs /\
  (forall t idx h, t ∈ tasks -> task_record desc t idx h -> is_bar_ref h = true ->
     exists tag, (bar_slot h, tag) ∈ refs).

Definition no_override (env : option (list Z)) : Prop := env = None \/ env = Some [].

(** Where the constant region starts in the payload. *)
Definition const_start (d : bytes) : Z := word64_at d 0 - word64_at d 0x18.

Definition file_stream (d : bytes) : bytes := stream_of d (word64_at d 0x10).

(** A file the derived build accepts: the header agrees with the file's size
    and with the tasks of its stream. *)
Record file_ok (d : bytes) (tasks : list ane_task) : Prop := {
  fo_payload : word64_at d 0 = zlen d - ANEC_M2_HEADER_SIZE;
  fo_version : word32_at d 0x24 = 1;
  fo_inputs : 1 <= word32_at d 0x20 <= 3;
  fo_tiles : io_bytes_ok d (word32_at d 0x20);
  fo_const : const_start d mod 64 = 0;
  fo_stream : 16 <= word64_at d 0x10 <= const_start d;
  fo_frame : forall i, 0 <= i < 16 -> byte_at (file_stream d) i = 0;
  fo_split : split_h14_tasks (file_stream d) (word64_at d 0x10) ANE_M2_MAX_TASKS = Ret tasks;
  fo_count : zlen tasks = word32_at d 0x0c;
  fo_first : exists t ts, tasks = t :: ts /\ word32_at d 0x08 = words t * 4;
}.

(** What the derived build makes of it: [refs] are the refs, [out] the bytes
    of the output, [sb] the scratch buffer, zero when it is disabled. *)
Record prog_built (env_scratch env_oprefs : option (list Z)) (d : bytes) (model : ane_m2_model)
    (secs : ane_m2_sections) (tasks : list ane_task) (evss : list (list bar_ev)) (refs : list pair) : Prop := {
  pg_refs : task_refs (file_stream d) tasks evss;
  pg_calls : call_refs model = [refs];
  pg_derived : no_override env_oprefs ->
    refs = bindings evss (scratch_bufid_from_env env_scratch) (file_tiles d 4 * 0x4000) /\
    derived_refs_ok (file_stream d) tasks (m_io model) refs;
  pg_ranks : NoDup (inputs_B (concat evss)) -> inputs_B (concat evss) = src_inputs TD_SRC_B true [] (concat evss);
  pg_io : m_io model = file_io d (word32_at d 0x20) ++ scratch_table env_scratch evss (file_tiles d 4 * 0x4000) refs;
  pg_index : scratch_io_index model = if has_scratch refs then word32_at d 0x20 + 1 else U32_MAX;
  pg_sections : sections_of model (file_stream d) (slice d (ANEC_M2_HEADER_SIZE + const_start d) (word64_at d 0x18))
    (word64_at d 0x10) secs;
}.

Lemma scratch_table_entry env evss out refs :
  has_scratch refs = true -> exists e, e ∈ scratch_table env evss out refs /\ buffer_id e = ANE_M2_SCRATCH_BUFID.
Proof.
  intros H. rewrite has_scratch_filter in H. unfold scratch_table. destruct (List.filter _ refs) as [|r l]; [done|].
  eexists. split; [by apply list_elem_of_singleton|done].
Qed.

Lemma scratch_table_ok env evss out refs :
  Forall io_ok (scratch_table env evss out refs) /\ zlen (scratch_table env evss out refs) <= 1.
Proof.
  unfold scratch_table. destruct (List.filter _ refs) as [|r l]; [done|]. split; [|done].
  apply Forall_singleton. split; [done|]. by apply wrap_range.
Qed.

(** The first task's length, which its header keeps in eleven bits. *)
Lemma first_words stream n cap tasks w :
  split_inv stream n cap n tasks -> tasks <> [] -> w = u32 (words (default (Task 0 0) (head tasks)) * 4) ->
  exists t ts, tasks = t :: ts /\ w = words t * 4.
Proof.
  intros Hs Hne ->. destruct tasks as [|t ts]; [done|]. exists t, ts. split; [done|]. cbn [head default from_option].
  pose proof (sp_tasks _ _ _ _ _ Hs) as Ht. apply Forall_cons in Ht as [Ht _]. pose proof (tk_words _ _ _ Ht).
  apply wrap_small. unfold id. lia.
Qed.

Lemma known_tag_io (io io' : list ane_m2_io) env refs tag :
  known_tag io (scratch_bufid_from_env env) tag = true ->
  (forall e, e ∈ io -> e ∈ io') ->
  (has_scratch refs = true -> exists e, e ∈ io' /\ buffer_id e = ANE_M2_SCRATCH_BUFID) ->
  tag ∈ refs.*2 -> tag = 2 \/ exists e, e ∈ io' /\ buffer_id e = tag.
Proof.
  unfold known_tag. intros Hk Hio Hsc Hin.
  destruct (tag =? 2) eqn:E2; [left; lia|]. right.
  destruct (negb _ && (tag =? _)) eqn:Es.
  - destruct (scratch_bufid_cases env) as [E|E]; [lia|].
    destruct Hsc as (e & He & Hid).
    { apply existsb_exists. apply list_elem_of_fmap in Hin as (r & -> & Hr).
      exists r. split; [by apply list_elem_of_In|lia]. }
    exists e. split; [done|lia].
  - apply existsb_exists in Hk as (e & He%list_elem_of_In & Hid).
    exists e. split; [auto|lia].
Qed.

Lemma oprefs_no_override env refs : no_override env -> oprefs_apply env refs = Ret refs.
Proof. by intros [->| ->]. Qed.

Lemma derived_refs_fit io sb refs :
  Forall (fun r => slot_ok r.1 /\ known_tag io sb r.2 = true) refs ->
  StronglySorted (fun x y : pair => x.1 < y.1) refs -> Forall io_ok io -> in_range 32 sb ->
  refs_fit refs.
Proof.
  intros Hr Hs Hio Hsb. split.
  - assert (NoDup refs.*1) as Hnd.
    { clear Hr. induction Hs as [|x l Hl IH Hx]; [apply NoDup_nil_2|]. rewrite fmap_cons.
      constructor; [|done]. intros (y & He & Hy)%list_elem_of_fmap.
      rewrite Forall_forall in Hx. specialize (Hx y Hy). lia. }
    assert (Forall slot_ok refs.*1) as Hsl
      by (apply Forall_fmap; eapply Forall_impl; [exact Hr|]; by intros r [? _]).
    pose proof (slots_bounded refs.*1 Hnd Hsl) as Hb. rewrite length_fmap in Hb. unfold zlen. lia.
  - eapply Forall_impl; [exact Hr|]. intros r [Hsl Hk]. split.
    { unfold slot_ok, in_range in *. lia. }
    unfold known_tag in Hk. destruct (r.2 =? 2) eqn:E; [unfold in_range; lia|].
    destruct (negb _ && (r.2 =? sb)) eqn:E'; [assert (r.2 = sb) as -> by lia; done|].
    apply existsb_exists in Hk as (e & He%list_elem_of_In & Hid).
    rewrite Forall_forall in Hio. destruct (Hio e He) as [Hid' _].
    by assert (r.2 = buffer_id e) as -> by lia.
Qed.

(** The refs the derivation and the override leave. *)
Lemma wp_refs env_oprefs d desc tasks n sb :
  bytes_ok desc -> Forall (task_in desc) tasks -> 1 <= n <= 3 -> io_bytes_ok d n ->
  in_range 32 sb -> sb <> U32_MAX ->
  wp ('(refs, m) ← derive_refs desc tasks (file_io d n) false sb; refs ← oprefs_apply env_oprefs refs; Ret (refs, m))
     (fun '(refs, _) => refs_fit refs /\ exists evss, task_refs desc tasks evss /\
       (no_override env_oprefs -> refs = bindings evss sb (file_tiles d 4 * 0x4000) /\
         StronglySorted (fun x y => x.1 < y.1) refs /\ Forall (fun r => known_tag (file_io d n) sb r.2 = true) refs /\
         (forall t idx h, t ∈ tasks -> task_record desc t idx h -> is_bar_ref h = true ->
            exists tag, (bar_slot h, tag) ∈ refs))).
Proof.
  intros Hok Hts Hn Ht Hsb Hsbm. destruct (file_io_ok d n Hn Ht) as (_ & Hio & Hd & _).
  pose proof (wp_derive_refs desc tasks (file_io d n) false sb Hok Hts Hsbm) as Hwp.
  destruct (derive_refs desc tasks (file_io d n) false sb) as [[refs0 m]| |] eqn:Ed; [|done..].
  destruct Hwp as (_ & Hsort & Htags & s & _ & Hres). cbn [mbind res_bind].
  destruct (derive_refs_bindings desc tasks (file_io d n) sb _ Hok Hts Hsbm Hd refs0 m Ed) as (evss & He & Hb).
  pose proof (derived_refs_fit (file_io d n) sb refs0 Htags Hsort Hio Hsb) as Hfit.
  pose proof (wp_oprefs env_oprefs refs0 Hfit) as Hop. destruct (oprefs_apply env_oprefs refs0) as [refs| |] eqn:Eop; [|done..].
  cbn [mbind res_bind wp] in *. split; [exact Hop|]. exists evss. split; [done|]. intros Hno.
  rewrite oprefs_no_override // in Eop. injection Eop as <-. split; [done|]. split; [done|]. split.
  - eapply Forall_impl; [exact Htags|]. by intros r [_ Hk].
  - intros t idx h Hin Hrec Hbar. destruct (Hres t idx h Hin Hrec Hbar) as (_ & _ & _ & _ & _ & tag & Htag & _). by exists tag.
Qed.

Lemma wp_program_build mem env_scratch env_oprefs d :
  bytes_ok d ->
  wp (ane_m2_program_build mem env_scratch env_oprefs d)
     (fun '(model, secs) => exists tasks evss refs, file_ok d tasks /\
        prog_built env_scratch env_oprefs d model secs tasks evss refs).
Proof.
  intros Hok. unfold ane_m2_program_build.
  apply wp_bind. eapply wp_mono; [by apply wp_read_header|]. intros hd Hhd.
  pose proof Hhd as (Hp & Hp0 & [Htc _] & Hts & [Hk0 _] & _ & -> & Hv).
  apply wp_bind, wp_guard_fail. intros Hic.
  apply wp_bind. eapply wp_mono; [by eapply wp_const_off|]. intros coff (Hc0 & Htc' & Hcl & H64).
  unfold ANEC_M2_HEADER_SIZE in Hp, Hcl. cbn [header_of payload task_count h_tsk_size h_krn_size input_count version first_task] in *.
  assert (coff = const_start d) as -> by (unfold const_start; lia).
  apply wp_bind. eapply wp_mono; [apply wp_build_io; [done|lia|lia]|]. intros io [-> Htl].
  assert (1 <= word32_at d 0x20 <= 3) as Hn by lia.
  destruct (file_io_ok d _ Hn Htl) as (Hlen & Hio & Hd & Hout).
  apply wp_bind. apply wp_load_descriptor; [done|apply Hts|unfold ANEC_M2_HEADER_SIZE; lia|].
  intros H16 Hdl Hdo Hdz. change (stream_of d (word64_at d 0x10)) with (file_stream d) in *.
  pose proof (wp_split (file_stream d) (word64_at d 0x10) ANE_M2_MAX_TASKS Hdo ltac:(lia) ltac:(done)) as Hsplit.
  destruct (split_h14_tasks (file_stream d) (word64_at d 0x10) ANE_M2_MAX_TASKS) as [tasks| |] eqn:Es; [|done..].
  cbn [mbind res_bind wp] in *. apply wp_bind. eapply wp_mono; [apply wp_check_tasks|].
  intros [] (Hne & Hcnt & Hfirst). cbn [header_of task_count first_task] in Hcnt, Hfirst.
  assert (Forall (task_in (file_stream d)) tasks) as Hin by (eapply split_tasks_in; [done|lia]).
  assert (in_range 32 (scratch_bufid_from_env env_scratch) /\ scratch_bufid_from_env env_scratch <> U32_MAX) as [Hsb Hsbm]
    by (by destruct (scratch_bufid_cases env_scratch) as [->| ->]).
  pose proof (wp_refs env_oprefs d (file_stream d) tasks _ _ Hdo Hin Hn Htl Hsb Hsbm) as Hrefs.
  destruct (derive_refs _ _ _ _ _) as [[refs0 m]| |]; [|done..]. cbn [mbind res_bind] in *.
  destruct (oprefs_apply env_oprefs refs0) as [refs| |]; [|done..]. cbn [mbind res_bind wp] in *.
  destruct Hrefs as (Hfit & evss & He & Hder). apply wp_bind.
  eapply wp_mono; [eapply (wp_scratch_entry _ _ _ evss); [done..|exact Hout|]|].
  { destruct Hd as (_ & _ & _ & Hd). destruct Htl as [H4 _]. unfold tile_ok in H4. cbn [io_size]. lia. }
  intros [io' idx'] [-> ->]. cbn [io_size]. destruct (scratch_table_ok env_scratch evss (file_tiles d 4 * 0x4000) refs) as [Hs1 Hs2].
  apply wp_bind. eapply wp_mono; [apply wp_load_kernel; done|]. intros kern ->.
  apply wp_bind. eapply wp_mono; [apply wp_emit; [|done|lia|done]|].
  { constructor; cbn [m_io call_refs]; [by apply Forall_app_2| |by apply Forall_singleton|done]. rewrite zlen_app. lia. }
  intros secs Hsecs. cbn [wp]. exists tasks, evss, refs. split.
  { split; try done. by eapply first_words. }
  split; try done; [|apply inputs_B_distinct]. intros Hno. destruct (Hder Hno) as (Hb & Hsort & Htags & Hbound). split; [done|]. split; [done|]. split; [|done].
  rewrite Forall_forall in Htags. apply Forall_forall. intros r Hr. cbn [m_io].
  eapply known_tag_io; [exact (Htags r Hr)|set_solver| |by apply list_elem_of_fmap_2].
  intros Hsc. destruct (scratch_table_entry env_scratch evss (file_tiles d 4 * 0x4000) refs Hsc) as (e & Hin' & Hid). exists e. set_solver.
Qed.


(** ** A concrete file

    The add program: inputs on channels 5 and 6, the output on channel 4, two
    tiles each, a 64-byte constant region. *)

Definition demo_file : bytes :=
  let stream := demo_add in
  let tsk := zlen stream in
  let pad := replicate (Z.to_nat (128 - tsk)) 0 in
  let body := stream ++ pad ++ replicate 64 7 in
  let hd := le_bytes 8 (zlen body) ++ le_bytes 4 56 ++ le_bytes 4 1 ++ le_bytes 8 tsk ++
            le_bytes 8 64 ++ le_bytes 4 2 ++ le_bytes 4 1 ++
            flat_map (le_bytes 4) (replicate 4 0 ++ [2; 2; 2]) in
  hd ++ replicate (Z.to_nat (0x1000 - zlen hd)) 0 ++ body.

Definition demo_ports : list ane_m2_port_spec :=
  [Port 0 5 4 0x8000; Port 0 6 6 0x8000; Port 1 4 5 0x8000].

Definition returned {A} (r : res A) (P : A -> bool) : bool :=
  match r with Ret a => P a | _ => false end.

Lemma returned_ex {A} (r : res A) P Q :
  wp r Q -> returned r P = true -> exists a, r = Ret a /\ P a = true /\ Q a.
Proof. destruct r as [a| |]; simpl; intros; [by exists a|done..]. Qed.

Lemma wp_build_ports mem d ports :
  bytes_ok d -> Forall port_typed ports ->
  wp (ane_m2_program_build_ports mem d (Some ports))
     (fun '(model, secs) => ports_built d ports model secs).
Proof.
  intros Hok Ht. unfold ane_m2_program_build_ports, ANE_M2_MAX_BINDS.
  apply wp_bind, wp_guard_fail. intros _. apply wp_bind, wp_guard_fail. intros Hn.
  apply wp_build_ports_inner; [done..|lia].
Qed.




(** A value of [ANE_M2_SCRATCH] that starts with a sign always enables
    the scratch merge, whatever number follows; only a number that parses to
    zero without a sign disables it. *)
Theorem scratch_env_signed e :
  (char0 e = 45 \/ char0 e = 43 -> scratch_bufid_from_env (Some e) = ANE_M2_SCRATCH_BUFID) /\
  (scratch_bufid_from_env (Some e) = 0 ->
   char0 e <> 45 /\ char0 e <> 43 /\ (strtoul e).1 = 0).
Proof.
  unfold scratch_bufid_from_env. split.
  - intros H. destruct ((char0 e =? 45) || (char0 e =? 43)) eqn:E; [done|lia].
  - destruct ((char0 e =? 45) || (char0 e =? 43)) eqn:E; [done|].
    destruct ((strtoul e).1 =? 0) eqn:E'; [lia|done].
Qed.

(** The string "-1", and the comment's "0". *)
Lemma scratch_env_signed_witness :
  scratch_bufid_from_env (Some [45; 49]) = ANE_M2_SCRATCH_BUFID /\
  scratch_bufid_from_env (Some [48]) = 0.
Proof.
  split; [|by vm_compute]. apply (proj1 (scratch_env_signed [45; 49])). by left.
Defined.

(** The emitted sections carry the model exactly. For every model whose
    fields fit their C types, every task stream and every outcome of the
    allocator, [emit_io_sections] stays inside the sections it allocates, and
    on success the generic section decodes to the io table, the operation
    section to the ref sets of all calls, and the tdprop segment names the
    whole descriptor with the walked, nonzero block count. *)
Theorem emit_sections_decode mem model desc kern tsk_size :
  model_ok model -> bytes_ok desc -> 0 <= tsk_size <= zlen desc -> in_range 64 tsk_size ->
  wp (emit_io_sections mem model desc kern tsk_size) (sections_of model desc kern tsk_size).
Proof. apply wp_emit. Qed.

Definition demo_model : ane_m2_model :=
  Model [Io 5 0 0x8000; Io 4 1 0x8000; Io 0x40 2 0x123456789] 2 [[(4, 5); (5, 4)]; [(1, 2)]].

Lemma emit_sections_decode_witness :
  exists secs, emit_io_sections (fun _ => true) demo_model demo_add [] (zlen demo_add) = Ret secs /\
    decode_operation (s_operation secs) = [[(4, 5); (5, 4)]; [(1, 2)]] /\
    decode_generic (s_generic secs) = [(5, 1, 0x8000); (4, 2, 0x8000); (0x40, 1, 0x123456789)].
Proof.
  assert (model_ok demo_model) as Hm
    by (constructor; [repeat constructor; done|done|repeat constructor; done|done]).
  assert (bytes_ok demo_add) as Hok by vm_decide.
  assert (0 <= zlen demo_add <= zlen demo_add) as Hl by vm_decide.
  assert (in_range 64 (zlen demo_add)) as H64 by vm_decide.
  pose proof (emit_sections_decode (fun _ => true) demo_model demo_add [] (zlen demo_add)
    Hm Hok Hl H64) as H.
  assert (returned (emit_io_sections (fun _ => true) demo_model demo_add [] (zlen demo_add))
    (fun _ => true) = true) as Hc by (vm_compute; reflexivity).
  destruct (returned_ex _ _ _ H Hc) as (secs & E & _ & [Hg _ Ho _ _ _ _ _ _]).
  exists secs. split; [exact E|]. split; [exact Ho|exact Hg].
Defined.
