(* ===== verification/M2Dev.v ===== *)
(** * libane/ane_m2.c: the program digest and the device path

    The dedup digest over the built sections, and the life of the buffer
    objects from [ane_m2_open] to [ane_m2_close], over the [AneKernel]
    interface of Accel. *)

From S2P Require Import Prelude Accel Sha256 M2Walk M2Build.

(** ** [ane_m2_program_digest] *)

Definition ane_m2_section_ids : list Z := [1; 2; 3; 4; 5; 7].

(** The sections in slot order; an empty section stands for a null or
    zero-sized one. *)
Definition section_list (s : ane_m2_sections) : list bytes :=
  [s_generic s; s_kernel s; s_descriptor s; s_operation s; s_procedure s; s_tdprop s].

(** [uint64_t hdr[2]] in memory. *)
Definition digest_header (id size : Z) : bytes := le_bytes 8 id ++ le_bytes 8 size.

Section digest.
Context `{ArmSha2}.

Definition digest_section (c : ane_sha256_ctx) (e : Z * bytes) : res ane_sha256_ctx :=
  let '(id, data) := e in
  guard_fail (zlen data =? 0) EINVAL;;
  c ← ane_sha256_update c (digest_header id (zlen data)) 16;
  ane_sha256_update c data (zlen data).

Definition ane_m2_program_digest_ctx (c : ane_sha256_ctx) (s : ane_m2_sections) : res bytes :=
  c ← foldM digest_section c (zip ane_m2_section_ids (section_list s));
  '(_, out) ← ane_sha256_final c;
  Ret out.

(** [hw] and [buf0]: what [ane_sha256_init] finds. *)
Definition ane_m2_program_digest (hw : bool) (buf0 : bytes) (s : ane_m2_sections) : res bytes :=
  ane_m2_program_digest_ctx (ane_sha256_init hw buf0) s.

Definition ane_m2_program_digest_ex (hw : bool) (buf0 : bytes) (s : ane_m2_sections)
    (portable_only : bool) : res bytes :=
  ane_m2_program_digest_ctx
    (ane_sha256_ctx_force_portable (ane_sha256_init hw buf0) portable_only) s.

End digest.

(** The key: the framed sections, concatenated. *)
Definition frame (e : Z * bytes) : bytes := digest_header e.1 (zlen e.2) ++ e.2.
Definition digest_key (s : ane_m2_sections) : bytes :=
  concat (frame <$> zip ane_m2_section_ids (section_list s)).

Definition sections_ok (s : ane_m2_sections) : Prop :=
  Forall (fun b => bytes_ok b /\ 0 < zlen b) (section_list s).

Lemma zlen_digest_header id size : zlen (digest_header id size) = 16.
Proof. unfold digest_header. by rewrite zlen_app !zlen_le_bytes. Qed.

Lemma digest_sections_absorbed `{ArmSha2} es c m :
  absorbed c m -> Forall (fun e => bytes_ok e.2 /\ 0 < zlen e.2 < 2 ^ 64) es ->
  twp (foldM digest_section c es) (fun c' => absorbed c' (m ++ concat (frame <$> es))).
Proof.
  revert c m. induction es as [|[id data] es IH]; intros c m Hab Hes.
  { by rewrite app_nil_r. }
  apply Forall_cons in Hes as [[Hok Hl] Hes]. cbn [snd] in Hok, Hl.
  rewrite fmap_cons. cbn [concat foldM]. apply twp_bind. unfold digest_section, guard_fail.
  destruct (zlen data =? 0) eqn:E; [lia|]. cbn [mbind res_bind].
  apply twp_bind. eapply twp_mono;
    [apply (update_absorbed c m (digest_header id (zlen data)) 16 Hab)|].
  - unfold digest_header. apply bytes_ok_app; apply bytes_ok_le_bytes.
  - rewrite zlen_digest_header. lia.
  - done.
  - intros c1 Hc1. rewrite -(zlen_digest_header id (zlen data)) slice_all in Hc1.
    eapply twp_mono; [apply (update_absorbed c1 _ data (zlen data) Hc1); [done|lia|lia]|].
    intros c2 Hc2. rewrite slice_all in Hc2. rewrite app_assoc. unfold frame at 1. cbn [fst snd].
    apply IH; [|done]. by rewrite -app_assoc in Hc2.
Qed.

(** The framing is unambiguous: equal keys come from equal sections. *)
Lemma le_bytes_inj n a b :
  0 <= a < 2 ^ (8 * Z.of_nat n) -> 0 <= b < 2 ^ (8 * Z.of_nat n) ->
  le_bytes n a = le_bytes n b -> a = b.
Proof.
  revert a b. induction n as [|n IH]; intros a b Ha Hb He; [simpl in *; lia|].
  cbn [le_bytes] in He. injection He as H1 H2.
  assert (Z.shiftr a 8 = Z.shiftr b 8) as Hs.
  { rewrite Z.shiftr_div_pow2 // Z.shiftr_div_pow2 //.
    replace (8 * Z.of_nat (S n)) with (8 + 8 * Z.of_nat n) in * by lia.
    rewrite Z.pow_add_r in Ha, Hb; [|lia..].
    apply IH; rewrite -?Z.shiftr_div_pow2 //.
    - rewrite Z.shiftr_div_pow2 //. split; [apply Z.div_pos; lia|apply Z.div_lt_upper_bound; lia].
    - rewrite Z.shiftr_div_pow2 //. split; [apply Z.div_pos; lia|apply Z.div_lt_upper_bound; lia]. }
  unfold wrap in H1. rewrite !Z.shiftr_div_pow2 // in Hs.
  rewrite (Z.div_mod a (2 ^ 8)); [|lia]. rewrite (Z.div_mod b (2 ^ 8)); [|lia]. lia.
Qed.

Lemma frames_inj ids ds ds' :
  length ds = length ids -> length ds' = length ids ->
  Forall (fun b : bytes => zlen b < 2 ^ 64) ds -> Forall (fun b : bytes => zlen b < 2 ^ 64) ds' ->
  concat (frame <$> zip ids ds) = concat (frame <$> zip ids ds') -> ds = ds'.
Proof.
  revert ds ds'. induction ids as [|id ids IH]; intros [|d ds] [|d' ds'] Hl Hl' Hs Hs' He; try done.
  apply Forall_cons in Hs as [Hd Hs]. apply Forall_cons in Hs' as [Hd' Hs'].
  cbn [zip_with] in He. rewrite !fmap_cons in He. cbn [concat] in He.
  unfold frame at 1 3, digest_header in He. cbn [fst snd] in He. rewrite -!app_assoc in He.
  apply app_inj_1 in He as [_ He]; [|pose proof (zlen_le_bytes 8 id); unfold zlen in *; lia].
  apply app_inj_1 in He as [Hsz He].
  2:{ pose proof (zlen_le_bytes 8 (zlen d)). pose proof (zlen_le_bytes 8 (zlen d')).
      unfold zlen in *. lia. }
  pose proof (zlen_nonneg d). pose proof (zlen_nonneg d').
  apply le_bytes_inj in Hsz; [|simpl; lia..].
  apply app_inj_1 in He as [-> He]; [|unfold zlen in Hsz; lia].
  f_equal. apply IH; (done || (simpl in *; lia)).
Qed.

Lemma digest_key_inj s s' :
  Forall (fun b => zlen b < 2 ^ 64) (section_list s) ->
  Forall (fun b => zlen b < 2 ^ 64) (section_list s') ->
  digest_key s = digest_key s' -> s = s'.
Proof.
  intros Hs Hs' He. apply frames_inj in He; [|done..].
  destruct s, s'. unfold section_list in He. simpl in He. congruence.
Qed.

Lemma zlen_digest_key s :
  zlen (digest_key s) = 96 + zlen (s_generic s) + zlen (s_kernel s) + zlen (s_descriptor s) +
    zlen (s_operation s) + zlen (s_procedure s) + zlen (s_tdprop s).
Proof.
  unfold digest_key, section_list, ane_m2_section_ids. cbn [zip_with].
  rewrite !fmap_cons fmap_nil. cbn [concat]. unfold frame. cbn [fst snd].
  rewrite !zlen_app ?zlen_digest_header ?zlen_le_bytes. change (zlen (@nil Z)) with 0. lia.
Qed.

Lemma section_below_key s : Forall (fun b => zlen b < zlen (digest_key s)) (section_list s).
Proof.
  rewrite zlen_digest_key. pose proof (zlen_nonneg (s_generic s)).
  pose proof (zlen_nonneg (s_kernel s)). pose proof (zlen_nonneg (s_descriptor s)).
  pose proof (zlen_nonneg (s_operation s)). pose proof (zlen_nonneg (s_procedure s)).
  pose proof (zlen_nonneg (s_tdprop s)). unfold section_list. repeat constructor; lia.
Qed.

(** The sections paired with their ids. *)
Lemma zip_ids_Forall (P : bytes -> Prop) s :
  Forall P (section_list s) -> Forall (fun e => P e.2) (zip ane_m2_section_ids (section_list s)).
Proof.
  intros HP. apply Forall_forall. intros [id b] Hin%elem_of_zip_r. cbn [snd].
  rewrite Forall_forall in HP. by apply HP.
Qed.

(** An empty section stops the digest. *)
Lemma digest_sections_empty `{ArmSha2} es c m :
  absorbed c m -> Forall (fun e => bytes_ok e.2 /\ zlen e.2 < 2 ^ 64) es ->
  Exists (fun e => zlen e.2 = 0) es -> foldM digest_section c es = Fail EINVAL.
Proof.
  intros Hab Hes Hex. revert c m Hab Hes.
  induction Hex as [[id d] es Hz|[id d] es Hex IH]; intros c m Hab Hes;
    apply Forall_cons in Hes as [[Hok Hl] Hes]; cbn [snd] in *; cbn [foldM].
  { unfold digest_section, guard_fail. by rewrite Hz. }
  destruct (decide (zlen d = 0)) as [Hz|Hnz].
  { unfold digest_section, guard_fail. by rewrite Hz. }
  pose proof (zlen_nonneg d).
  assert (Forall (fun e : Z * bytes => bytes_ok e.2 /\ 0 < zlen e.2 < 2 ^ 64) [(id, d)]) as Hf
    by (apply Forall_singleton; cbn [snd]; split; [done|lia]).
  destruct (twp_ex _ _ (digest_sections_absorbed [(id, d)] c m Hab Hf)) as (c' & Hc' & Hab').
  cbn [foldM] in Hc'. apply bind_Ret_inv in Hc' as (c2 & Hc2 & Hc'). injection Hc' as ->.
  rewrite Hc2. cbn [mbind res_bind]. by eapply IH.
Qed.

Lemma digest_ctx_spec `{ArmSha2} c s :
  absorbed c [] -> Forall bytes_ok (section_list s) -> 8 * zlen (digest_key s) < 2 ^ 64 ->
  Forall (fun b => 0 < zlen b) (section_list s) ->
  ane_m2_program_digest_ctx c s = Ret (fips_sha256 (digest_key s)).
Proof.
  intros Hab Hok Hlen Hpos. unfold ane_m2_program_digest_ctx.
  assert (Forall (fun e => bytes_ok e.2 /\ 0 < zlen e.2 < 2 ^ 64)
    (zip ane_m2_section_ids (section_list s))) as Hf.
  { apply (zip_ids_Forall (fun b => bytes_ok b /\ 0 < zlen b < 2 ^ 64)).
    pose proof (section_below_key s) as Hb. apply Forall_forall. intros b Hin.
    rewrite Forall_forall in Hok. rewrite Forall_forall in Hpos. rewrite Forall_forall in Hb.
    split; [auto|]. specialize (Hpos b Hin). specialize (Hb b Hin). lia. }
  destruct (twp_ex _ _ (digest_sections_absorbed _ c [] Hab Hf)) as (c' & -> & Hab').
  rewrite app_nil_l in Hab'. fold (digest_key s) in Hab'. cbn [mbind res_bind].
  destruct (final_absorbed c' _ Hab') as (c2 & ->); [|done|done].
  unfold digest_key. apply Forall_concat, Forall_fmap.
  eapply Forall_impl; [apply (zip_ids_Forall bytes_ok s Hok)|]. intros [id b] Hbo. unfold frame.
  unfold digest_header. repeat apply bytes_ok_app; (apply bytes_ok_le_bytes || done).
Qed.

Lemma zip_ids_Exists (P : bytes -> Prop) s :
  Exists P (section_list s) -> Exists (fun e => P e.2) (zip ane_m2_section_ids (section_list s)).
Proof.
  unfold section_list. cbn [zip_with ane_m2_section_ids]. rewrite !Exists_cons !Exists_nil. done.
Qed.

(** The program digest is the SHA-256 of the sections framed by their id
    and size, whatever path the hash takes and whether or not the caller
    forces the portable one; it is refused exactly when a section is empty;
    and the framing is unambiguous, so two programs have the same key only
    when all six sections are equal. *)
Theorem program_digest_spec `{ArmSha2} hw buf0 portable s :
  zlen buf0 = 64 -> bytes_ok buf0 -> Forall bytes_ok (section_list s) ->
  8 * zlen (digest_key s) < 2 ^ 64 ->
  (Forall (fun b => 0 < zlen b) (section_list s) ->
     ane_m2_program_digest_ex hw buf0 s portable = Ret (fips_sha256 (digest_key s)) /\
     ane_m2_program_digest hw buf0 s = Ret (fips_sha256 (digest_key s)) /\
     forall s', Forall (fun b => zlen b < 2 ^ 64) (section_list s') ->
       digest_key s' = digest_key s -> s' = s) /\
  (Exists (fun b => zlen b = 0) (section_list s) ->
     ane_m2_program_digest hw buf0 s = Fail EINVAL).
Proof.
  intros Hb Hbok Hok Hlen. pose proof (absorbed_init hw buf0 Hb Hbok) as Hab.
  assert (Forall (fun b => zlen b < 2 ^ 64) (section_list s)) as Hsz.
  { eapply Forall_impl; [apply section_below_key|]. simpl. intros b ?. lia. }
  split.
  - intros Hpos. split; [|split].
    + by apply digest_ctx_spec.
    + by apply digest_ctx_spec.
    + intros s' Hs' He. by apply digest_key_inj.
  - intros Hex. unfold ane_m2_program_digest, ane_m2_program_digest_ctx.
    erewrite digest_sections_empty; [done|exact Hab| |].
    + apply (zip_ids_Forall (fun b => bytes_ok b /\ zlen b < 2 ^ 64)).
      apply Forall_forall. intros b Hin. rewrite Forall_forall in Hok.
      rewrite Forall_forall in Hsz. auto.
    + by apply (zip_ids_Exists (fun b => zlen b = 0)).
Qed.

Definition demo_sections : ane_m2_sections := Sections [1] [2; 3] [4] [5] [6] [7].

Lemma program_digest_spec_witness :
  @ane_m2_program_digest arm_pseudocode true (replicate 64 0) demo_sections =
    Ret (fips_sha256 (digest_key demo_sections)) /\
  @ane_m2_program_digest arm_pseudocode true (replicate 64 0)
    (Sections [1] [] [4] [5] [6] [7]) = Fail EINVAL.
Proof.
  split.
  - refine (proj1 (proj2 (proj1 (@program_digest_spec arm_pseudocode true (replicate 64 0) true
      demo_sections _ _ _ _) _))).
    + reflexivity.
    + vm_decide.
    + vm_decide.
    + vm_compute; reflexivity.
    + vm_decide.
  - refine (proj2 (@program_digest_spec arm_pseudocode true (replicate 64 0) true
      (Sections [1] [] [4] [5] [6] [7]) _ _ _ _) _).
    + reflexivity.
    + vm_decide.
    + vm_decide.
    + vm_compute; reflexivity.
    + vm_decide.
Defined.

(** ** Device path: data *)

Definition ANE_M2_SEC_COUNT : nat := 6.
Definition ANE_M2_PRIORITY_DEFAULT : Z := 2.
Definition ANE_M2_EXEC_TIMEOUT_MS : Z := 30000.

(** [sizeof(struct anec)], packed. *)
Definition sizeof_anec : Z := 1704.

Record ane_m2_ctx := Ctx {
  c_model : ane_m2_model;
  c_secs : ane_m2_sections;
  prog_id : Z;
  proc_id : Z;
  sec_bo : list ane_bo;
  io_bo : list ane_bo;
}.

(** [env] is [getenv("ANE_M2_GUARD")]; [strtoull] and [strtoul] agree on an
    LP64 target. *)
Definition ane_m2_guard (env : option (list Z)) : Z :=
  match env with Some e => (strtoul e).1 | None => 0x4000 end.

(** The visit order of the sections: the exchange sort on [order[]]. *)
Definition order_at (order : list nat) (i : nat) : nat := default 0%nat (order !! i).

Definition order_step (size : nat -> Z) (i : nat) (order : list nat) (j : nat) : list nat :=
  if size (order_at order j) >? size (order_at order i)
  then <[j := order_at order i]> (<[i := order_at order j]> order)
  else order.

Definition order_pass (n : nat) (size : nat -> Z) (order : list nat) (i : nat) : list nat :=
  fold_left (order_step size i) (seq (S i) (n - S i)) order.

Definition section_order (n : nat) (size : nat -> Z) : list nat :=
  fold_left (order_pass n size) (seq 0 n) (seq 0 n).

Section device.
Context `{AneKernel}.
Context (guard : Z).

Definition bo_alloc (size : Z) (bo : ane_bo) (s : sys) : res unit * ane_bo * sys :=
  let total := u64 (size + guard) in
  match ioctl_bo_init total (kern s) with
  | (None, k) => (Fail EINVAL, bo, with_kern s k)
  | (Some (handle, offset), k) =>
      match mmap total offset k with
      | (None, k) => (Fail EINVAL, Bo None total 0 offset, sys_free handle (with_kern s k))
      | (Some m, k) => (Ret tt, Bo (Some m) total handle offset, with_kern s k)
      end
  end.

Definition bo_release (bo : ane_bo) (s : sys) : ane_bo * sys :=
  (Bo None (b_size bo) 0 (b_offset bo),
   if b_handle bo =? 0 then s else sys_free (b_handle bo) s).

(** [for (i = 0; i < n; i++) bo_release(nn, &bos[i]);] *)
Definition release_slot (st : list ane_bo * sys) (i : nat) : list ane_bo * sys :=
  let '(bos, s) := st in
  match bos !! i with
  | Some bo => let '(bo', s') := bo_release bo s in (<[i := bo']> bos, s')
  | None => st
  end.

Definition release_slots (n : nat) (st : list ane_bo * sys) : list ane_bo * sys :=
  fold_left release_slot (seq 0 n) st.

(** Returns the state of the descriptor; the context itself is freed. *)
Definition ane_m2_ctx_free (ctx : ane_m2_ctx) (created_secs created_ios : nat) (s : sys) : sys :=
  let '(_, s) := release_slots created_secs (sec_bo ctx, s) in
  (release_slots created_ios (io_bo ctx, s)).2.

(** One iteration of the two allocation loops of [ane_m2_open]: allocate
    [bos[slot]] and fill its mapping. *)
Definition alloc_slot (slot : nat) (size : Z) (fill : bytes -> res bytes)
    (st : list ane_bo * sys) : res unit * (list ane_bo * sys) :=
  let '(bos, s) := st in
  match bos !! slot with
  | None => (Fault OutOfBounds, st)
  | Some bo =>
      let '(r, bo, s) := bo_alloc size bo s in
      match r, b_map bo with
      | Ret tt, Some m =>
          match fill m with
          | Ret m' => (Ret tt, (<[slot := Bo (Some m') (b_size bo) (b_handle bo) (b_offset bo)]> bos, s))
          | Fail e => (Fail e, (<[slot := bo]> bos, s))
          | Fault w => (Fault w, (<[slot := bo]> bos, s))
          end
      | Ret tt, None => (Fault OutOfBounds, (<[slot := bo]> bos, s))
      | Fail e, _ => (Fail e, (<[slot := bo]> bos, s))
      | Fault w, _ => (Fault w, (<[slot := bo]> bos, s))
      end
  end.

(** The loops: how many iterations completed, and the state they leave. *)
Fixpoint alloc_slots (work : list (nat * Z * (bytes -> res bytes))) (done : nat)
    (st : list ane_bo * sys) : res unit * nat * (list ane_bo * sys) :=
  match work with
  | [] => (Ret tt, done, st)
  | (slot, size, fill) :: work' =>
      match alloc_slot slot size fill st with
      | (Ret tt, st') => alloc_slots work' (S done) st'
      | (r, st') => (r, done, st')
      end
  end.

Definition section_at (secs : ane_m2_sections) (i : nat) : bytes :=
  default [] (section_list secs !! i).

Definition section_work (secs : ane_m2_sections) (order : list nat)
    : list (nat * Z * (bytes -> res bytes)) :=
  map (fun slot => (slot, zlen (section_at secs slot),
                    fun m => memcpy m 0 (section_at secs slot) 0 (zlen (section_at secs slot))))
      order.

Definition io_work (model : ane_m2_model) : list (nat * Z * (bytes -> res bytes)) :=
  imap (fun i io => (i, io_size io, fun m => memset m 0 0 (io_size io))) (m_io model).

(** The host's scratch entry goes to the driver as an input. *)
Definition bind_type (io : ane_m2_io) : Z := if dir io =? 2 then 0 else dir io.

Definition section_args (secs : ane_m2_sections) (bos : list ane_bo) : list (drm_ane_section * bytes) :=
  zip_with (fun '(id, data) bo =>
      (Section_arg id (b_handle bo) (zlen data) 0, default [] (b_map bo)))
    (zip ane_m2_section_ids (section_list secs)) bos.

Definition bind_args (model : ane_m2_model) (bos : list ane_bo) : list drm_ane_generic_bind :=
  zip_with (fun io bo => Generic_bind (buffer_id io) (b_handle bo) (bind_type io) (io_size io))
    (m_io model) bos.

(** [DRM_IOCTL_ANE_PROG_LOOKUP], tried only when the digest exists: the id of
    a program the driver already holds. *)
Definition lookup_program (digest : res bytes) (s : sys) : option Z * sys :=
  match digest with
  | Ret d =>
      match ioctl_prog_lookup d (kern s) with
      | (Some (found, id), k) => (if found =? 0 then None else Some id, with_kern s k)
      | (None, k) => (None, with_kern s k)
      end
  | _ => (None, s)
  end.

(** [PROG_LOAD], skipped on a lookup hit. *)
Definition load_program (found : option Z) (model : ane_m2_model) (secs : ane_m2_sections)
    (secb iob : list ane_bo) (s : sys) : res Z * sys :=
  match found with
  | Some id => (Ret id, s)
  | None =>
      let '(r, k) := ioctl_prog_load (section_args secs secb) (bind_args model iob) (kern s) in
      (r, with_kern s k)
  end.

(** From the allocated buffers to the procedure. *)
Definition create_procedure (found : option Z) (model : ane_m2_model) (secs : ane_m2_sections)
    (secb iob : list ane_bo) (s : sys) : res (Z * Z) * sys :=
  match load_program found model secs secb iob s with
  | (Ret id, s) =>
      match ioctl_proc_create id (kern s) with
      | (Ret proc, k) => (Ret (id, proc), with_kern s k)
      | (Fail e, k) => (Fail e, with_kern s k)
      | (Fault w, k) => (Fault w, with_kern s k)
      end
  | (Fail e, s) => (Fail e, s)
  | (Fault w, s) => (Fault w, s)
  end.

(** The part of [ane_m2_open] after the sections are built; each [Fail] is
    the [goto error] with its [ane_m2_ctx_free]. *)
Definition open_built (model : ane_m2_model) (secs : ane_m2_sections) (digest : res bytes)
    (s : sys) : res ane_m2_ctx * sys :=
  let '(found, s) := lookup_program digest s in
  let no_io := replicate (Z.to_nat ANE_M2_MAX_BINDS) bo0 in
  let order := section_order ANE_M2_SEC_COUNT (fun i => zlen (section_at secs i)) in
  let work := if found then [] else section_work secs order in
  match alloc_slots work 0 (replicate ANE_M2_SEC_COUNT bo0, s) with
  | (Fault w, _, (_, s)) => (Fault w, s)
  | (Fail e, _, (secb, s)) =>
      (Fail e, ane_m2_ctx_free (Ctx model secs 0 0 secb no_io) ANE_M2_SEC_COUNT 0 s)
  | (Ret tt, _, (secb, s)) =>
      match alloc_slots (io_work model) 0 (no_io, s) with
      | (Fault w, _, (_, s)) => (Fault w, s)
      | (Fail e, created_ios, (iob, s)) =>
          (Fail e, ane_m2_ctx_free (Ctx model secs 0 0 secb iob) ANE_M2_SEC_COUNT created_ios s)
      | (Ret tt, created_ios, (iob, s)) =>
          match create_procedure found model secs secb iob s with
          | (Fault w, s) => (Fault w, s)
          | (Fail e, s) =>
              (Fail e, ane_m2_ctx_free (Ctx model secs 0 0 secb iob) ANE_M2_SEC_COUNT created_ios s)
          | (Ret (id, proc), s) =>
              let '(secb, s) := release_slots ANE_M2_SEC_COUNT (secb, s) in
              (Ret (Ctx model secs id proc secb iob), s)
          end
      end
  end.

(** [ane_m2_fread_all]: [file] is the content behind the path, if it can be
    opened and read. *)
Definition ane_m2_fread_all (mem : Z -> bool) (file : option bytes) : res bytes :=
  match file with
  | None => Fail EINVAL
  | Some f => if mem (zlen f) then Ret f else Fail ENOMEM
  end.

Section open.
Context `{ArmSha2} (hw : bool) (buf0 : bytes).
Context (mem : Z -> bool) (env_scratch env_oprefs : option (list Z)).

Definition build_program (f : bytes) (ports : option (list ane_m2_port_spec))
    : res (ane_m2_model * ane_m2_sections) :=
  match ports with
  | Some _ => ane_m2_program_build_ports mem f ports
  | None => ane_m2_program_build mem env_scratch env_oprefs f
  end.

(** [hdr] is [nn->anec] before and after; [ctx_mem] is whether [calloc] of
    the context succeeds. *)
Definition ane_m2_open (ctx_mem : bool) (file : option bytes)
    (ports : option (list ane_m2_port_spec)) (hdr : bytes) (s : sys)
    : res ane_m2_ctx * bytes * sys :=
  if negb ctx_mem then (Fail ENOMEM, hdr, s)
  else
    match ane_m2_fread_all mem file with
    | Fail e => (Fail e, hdr, s)
    | Fault w => (Fault w, hdr, s)
    | Ret f =>
        let hdr := if zlen f >=? sizeof_anec then slice f 0 sizeof_anec else hdr in
        match build_program f ports with
        | Fail e => (Fail e, hdr, s)
        | Fault w => (Fault w, hdr, s)
        | Ret (model, secs) =>
            match ane_m2_program_digest hw buf0 secs with
            | Fault w => (Fault w, hdr, s)
            | digest => let '(r, s) := open_built model secs digest s in (r, hdr, s)
            end
        end
    end.
End open.

Definition ane_m2_close (m2 : option ane_m2_ctx) (s : sys) : option ane_m2_ctx * sys :=
  match m2 with
  | None => (None, s)
  | Some ctx => (None, ane_m2_ctx_free ctx ANE_M2_SEC_COUNT (length (m_io (c_model ctx))) s)
  end.

(** *** Execution and transfers *)

Definition exec_io (io : ane_m2_io) (bo : ane_bo) : drm_ane_exec_io :=
  Exec_io (buffer_id io) (b_handle bo) (bind_type io) 0 0 (io_size io).

Definition ane_m2_exec (m2 : option ane_m2_ctx) (s : sys) : res unit * option ane_m2_ctx * sys :=
  match m2 with
  | None => (Fail EINVAL, m2, s)
  | Some ctx =>
      let args := Exec (prog_id ctx) (proc_id ctx) ANE_M2_PRIORITY_DEFAULT ANE_M2_EXEC_TIMEOUT_MS
                    (zip_with exec_io (m_io (c_model ctx)) (io_bo ctx)) in
      let '(ret, bos, k) := ioctl_exec args (io_bo ctx) (kern s) in
      (if ret <? 0 then Fail EINVAL else Ret tt,
       Some (Ctx (c_model ctx) (c_secs ctx) (prog_id ctx) (proc_id ctx) (sec_bo ctx) bos),
       with_kern s k)
  end.
End device.

(** The scan of [nth_io] from entry [i], with [seen] entries of the
    direction behind it. *)
Fixpoint nth_io_from (ios : list ane_m2_io) (d idx seen : Z) (i : nat) : option (nat * ane_m2_io) :=
  match ios with
  | [] => None
  | io :: ios' =>
      if negb (dir io =? d) then nth_io_from ios' d idx seen (S i)
      else if seen =? idx then Some (i, io)
      else nth_io_from ios' d idx (u32 (seen + 1)) (S i)
  end.

Definition nth_io (ctx : ane_m2_ctx) (d idx : Z) : option (nat * ane_m2_io) :=
  nth_io_from (m_io (c_model ctx)) d idx 0 0.

Definition set_io_map (ctx : ane_m2_ctx) (i : nat) (bo : ane_bo) (m : bytes) : ane_m2_ctx :=
  Ctx (c_model ctx) (c_secs ctx) (prog_id ctx) (proc_id ctx) (sec_bo ctx)
      (<[i := Bo (Some m) (b_size bo) (b_handle bo) (b_offset bo)]> (io_bo ctx)).

(** The mapping of [io_bo[i]]; a NULL one faults. *)
Definition io_map (ctx : ane_m2_ctx) (i : nat) : res (ane_bo * bytes) :=
  match io_bo ctx !! i with
  | Some bo => match b_map bo with Some m => Ret (bo, m) | None => Fault OutOfBounds end
  | None => Fault OutOfBounds
  end.

Definition ane_m2_send (m2 : option ane_m2_ctx) (from : bytes) (idx : Z) : res ane_m2_ctx :=
  match m2 with
  | None => Fail EINVAL
  | Some ctx =>
      match nth_io ctx 0 idx with
      | None => Fail EINVAL
      | Some (i, io) =>
          '(bo, m) ← io_map ctx i;
          m ← memcpy m 0 from 0 (io_size io);
          Ret (set_io_map ctx i bo m)
      end
  end.

(** Returns the caller's buffer. *)
Definition ane_m2_read (m2 : option ane_m2_ctx) (to : bytes) (idx : Z) : res bytes :=
  match m2 with
  | None => Fail EINVAL
  | Some ctx =>
      match nth_io ctx 1 idx with
      | None => Fail EINVAL
      | Some (i, io) =>
          '(_, m) ← io_map ctx i;
          memcpy to 0 m 0 (io_size io)
      end
  end.

Definition m2_io_size (d : Z) (m2 : option ane_m2_ctx) (idx : Z) : Z :=
  match m2 with
  | None => 0
  | Some ctx => match nth_io ctx d idx with Some (_, io) => io_size io | None => 0 end
  end.

Definition ane_m2_src_size := m2_io_size 0.
Definition ane_m2_dst_size := m2_io_size 1.

(** ** The visit order *)

Section order.
Context (size : nat -> Z) (n : nat).

(** [order[a]] dominates everything after it, for [a] before [i]. *)
Definition settled (i : nat) (l : list nat) : Prop :=
  forall a b, (a < i)%nat -> (a < b < n)%nat -> size (order_at l b) <= size (order_at l a).

(** [order[i]] dominates the entries between [i] and [j]. *)
Definition leads (i j : nat) (l : list nat) : Prop :=
  forall b, (i < b < j)%nat -> size (order_at l b) <= size (order_at l i).

Lemma order_at_insert l i v j :
  (i < length l)%nat -> order_at (<[i := v]> l) j = if bool_decide (i = j) then v else order_at l j.
Proof. apply lookup_insert_default. Qed.

Lemma swap_Permutation (l : list nat) i j :
  (i < length l)%nat -> (j < length l)%nat -> i <> j ->
  <[j := order_at l i]> (<[i := order_at l j]> l) ≡ₚ l.
Proof.
  intros Hi Hj Hne.
  destruct (lookup_lt_is_Some_2 l i Hi) as [x Hx]. destruct (lookup_lt_is_Some_2 l j Hj) as [y Hy].
  unfold order_at. rewrite Hx Hy /=.
  destruct (insert_Permutation l i x y Hx) as (r & H1 & H2).
  destruct (insert_Permutation (<[i:=y]> l) j y x) as (r' & H3 & H4).
  { by rewrite list_lookup_insert_ne. }
  rewrite H2 in H3. apply Permutation_cons_inv in H3. by rewrite H4 H1 H3.
Qed.

Lemma order_step_spec i j l :
  length l = n -> (i < j < n)%nat -> settled i l -> leads i j l ->
  let l' := order_step size i l j in
  length l' = n /\ l' ≡ₚ l /\ settled i l' /\ leads i (S j) l'.
Proof.
  intros Hl Hij Hs Hd. unfold order_step. destruct (_ >? _) eqn:E; cbv zeta.
  - split; [by rewrite !length_insert|]. split; [apply swap_Permutation; lia|]. split.
    + intros a b Ha Hb. rewrite !order_at_insert ?length_insert; [|lia..].
      repeat case_bool_decide; try lia; apply Hs; lia.
    + intros b Hb. rewrite !order_at_insert ?length_insert; [|lia..].
      repeat case_bool_decide; try lia. specialize (Hd b). lia.
  - split; [done|]. split; [done|]. split; [done|]. intros b Hb.
    destruct (decide (b = j)) as [->|]; [lia|]. apply Hd. lia.
Qed.

Lemma order_pass_spec i l :
  length l = n -> (i < n)%nat -> settled i l ->
  let l' := order_pass n size l i in length l' = n /\ l' ≡ₚ l /\ settled (S i) l'.
Proof.
  intros Hl Hi Hs. cbv zeta. unfold order_pass.
  enough (forall k j l, (j + k = n)%nat -> (i < j)%nat -> length l = n -> settled i l -> leads i j l ->
    let l' := fold_left (order_step size i) (seq j k) l in
    length l' = n /\ l' ≡ₚ l /\ settled i l' /\ leads i n l') as Hgen.
  { destruct (Hgen (n - S i)%nat (S i) l) as (? & ? & Hs' & Hd); [lia|lia|done|done|intros b; lia|].
    split; [done|]. split; [done|]. intros a b Ha Hb.
    destruct (decide (a = i)) as [->|]; [apply Hd; lia|apply Hs'; lia]. }
  clear l Hl Hs. intros k. induction k as [|k IH]; intros j l Hjk Hij Hl Hs Hd.
  { replace j with n in Hd by lia. done. }
  cbn [seq fold_left]. destruct (order_step_spec i j l Hl) as (Hl' & Hp & Hs' & Hd'); [lia|done|done|].
  destruct (IH (S j) _ ltac:(lia) ltac:(lia) Hl' Hs' Hd') as (? & Hp' & ?). 
  split; [done|]. split; [|done]. by rewrite Hp'.
Qed.

(** The order visits every slot once, largest first. *)
Lemma section_order_spec :
  section_order n size ≡ₚ seq 0 n /\
  (forall a b, (a < b < n)%nat ->
     size (order_at (section_order n size) b) <= size (order_at (section_order n size) a)).
Proof.
  enough (forall k i l, (i + k = n)%nat -> length l = n -> settled i l ->
    let l' := fold_left (order_pass n size) (seq i k) l in l' ≡ₚ l /\ settled n l') as Hgen.
  { destruct (Hgen n 0%nat (seq 0 n)) as [Hp Hs]; [lia|by rewrite length_seq|intros a; lia|].
    split; [done|]. intros a b Hab. apply Hs; lia. }
  intros k. induction k as [|k IH]; intros i l Hik Hl Hs.
  { replace i with n in Hs by lia. done. }
  cbn [seq fold_left]. destruct (order_pass_spec i l Hl) as (Hl' & Hp & Hs'); [lia|done|].
  destruct (IH (S i) _ ltac:(lia) Hl' Hs') as [Hp' Hset]. split; [|done]. by rewrite Hp'.
Qed.
End order.

(** ** Life of the buffer objects *)

Section life.
Context `{AneKernelLaws} (guard : Z).
Implicit Types (bos F : list ane_bo) (base : gset Z) (s : sys).

(** Work that fits its mapping: the size with the guard fits 64 bits and the
    fill stays inside the mapping. *)
Definition work_ok (w : nat * Z * (bytes -> res bytes)) : Prop :=
  0 <= w.1.2 /\ 0 <= guard /\ w.1.2 + guard < 2 ^ 64 /\
  forall m, zlen m = w.1.2 + guard -> bytes_ok m ->
    exists m', w.2 m = Ret m' /\ zlen m' = zlen m /\ bytes_ok m'.

(** A slot after its iteration: mapped with the guard behind it, filled. *)
Definition slot_filled (w : nat * Z * (bytes -> res bytes)) (bos : list ane_bo) : Prop :=
  exists bo m m', bos !! w.1.1 = Some bo /\ b_map bo = Some m' /\ w.2 m = Ret m' /\
    zlen m = w.1.2 + guard /\ zlen m' = zlen m /\ bytes_ok m' /\
    b_size bo = w.1.2 + guard /\ b_handle bo <> 0.

Definition slot_empty (bos : list ane_bo) (i : nat) : Prop :=
  exists bo, bos !! i = Some bo /\ b_handle bo = 0.

Lemma alloc_slot_spec w bos F base s :
  owns (bos ++ F) base s -> slot_empty bos w.1.1 -> work_ok w ->
  match alloc_slot guard w.1.1 w.1.2 w.2 (bos, s) with
  | (Ret tt, (bos', s')) =>
      owns (bos' ++ F) base s' /\ slot_filled w bos' /\ exists bo', bos' = <[w.1.1 := bo']> bos
  | (Fail e, (bos', s')) =>
      owns (bos' ++ F) base s' /\ slot_empty bos' w.1.1 /\ exists bo', bos' = <[w.1.1 := bo']> bos
  | (Fault _, _) => False
  end.
Proof.
  destruct w as [[i size] fill]. intros Ho (bo & Hi & Hz) (Hs0 & Hg & Hs1 & Hfill).
  cbn [fst snd] in *. unfold alloc_slot, bo_alloc. rewrite Hi.
  assert (u64 (size + guard) = size + guard) as Hu by (apply wrap_small; lia).
  pose proof (lookup_lt_Some _ _ _ Hi) as Hlt.
  assert ((bos ++ F) !! i = Some bo) as Hi' by (by apply lookup_app_l_Some).
  destruct (ioctl_bo_init _ _) as [[[h off]|] k] eqn:Ek.
  - pose proof (fun b' Hb' => owns_alloc (bos ++ F) base s i bo b' _ off k Ho Hi' Hz
      (eq_trans Ek (f_equal (fun x => (Some (x, off), k)) (eq_sym (Hb' : b_handle b' = h))))) as Ha.
    pose proof (mmap_live k (u64 (size + guard)) off) as Hml.
    pose proof (bo_init_live _ _ _ _ _ Ek) as (Hh & _ & _).
    destruct (mmap _ _ k) as [[m|] k2] eqn:Em.
    + apply mmap_len in Em as [Hm Hmo]; [|lia]. rewrite Hu in Hm. cbn [b_map b_size b_handle b_offset].
      destruct (Hfill m) as (m' & Hf & Hl & Hmo'); [lia|done|]. rewrite Hf.
      split; [|split].
      * rewrite -insert_app_l //. eapply (owns_live_eq _ _ (with_kern s k)); [exact Hml|].
        by apply Ha.
      * eexists _, m, m'. by rewrite list_lookup_insert_eq.
      * by eexists.
    + cbn [b_map]. split; [|split].
      * rewrite -insert_app_l //.
        specialize (Ha (Bo None 0 h 0) eq_refl).
        apply (owns_live_eq _ _ (with_kern s k) k2 Hml) in Ha.
        eapply (owns_free _ _ _ i (Bo None 0 h 0) (Bo None (u64 (size + guard)) 0 off)) in Ha;
          [|by rewrite list_lookup_insert_eq ?length_app; [|lia]|done|done].
        by rewrite list_insert_insert_eq in Ha.
      * eexists. by rewrite list_lookup_insert_eq.
      * by eexists.
  - cbn [b_map]. apply bo_init_fail in Ek. split; [|split].
    + rewrite list_insert_id //. by apply owns_live_eq.
    + eexists. by rewrite list_lookup_insert_eq.
    + by eexists.
Qed.

(** Slots other than [i] after a store at [i]. *)
Lemma slot_empty_insert_ne bos i j bo :
  i <> j -> slot_empty (<[i := bo]> bos) j <-> slot_empty bos j.
Proof. intros Hne. unfold slot_empty. by rewrite list_lookup_insert_ne. Qed.

Lemma slot_filled_insert_ne w bos i bo :
  i <> w.1.1 -> slot_filled w (<[i := bo]> bos) <-> slot_filled w bos.
Proof. intros Hne. unfold slot_filled. by rewrite list_lookup_insert_ne. Qed.

(** Both loops. [frame]: slots outside the work are untouched. *)
Definition untouched (work : list (nat * Z * (bytes -> res bytes))) (bos bos' : list ane_bo) : Prop :=
  length bos' = length bos /\ forall j, j ∉ work.*1.*1 -> bos' !! j = bos !! j.

Lemma alloc_slots_spec work k bos F base s :
  owns (bos ++ F) base s -> NoDup work.*1.*1 ->
  Forall (fun w => slot_empty bos w.1.1 /\ work_ok w) work ->
  match alloc_slots guard work k (bos, s) with
  | (Ret tt, k', (bos', s')) =>
      owns (bos' ++ F) base s' /\ k' = (k + length work)%nat /\ untouched work bos bos' /\
      Forall (fun w => slot_filled w bos') work
  | (Fail e, k', (bos', s')) =>
      owns (bos' ++ F) base s' /\ untouched work bos bos' /\ (k <= k')%nat /\
      Forall (fun w => slot_empty bos' w.1.1) (drop (k' - k) work)
  | (Fault _, _, _) => False
  end.
Proof.
  revert k bos s. induction work as [|[[i size] fill] work IH]; intros k bos s Ho Hnd Hw.
  { cbn [alloc_slots]. split; [done|]. split; [simpl; lia|]. by split; [|constructor]. }
  apply Forall_cons in Hw as [[He Hok] Hw]. cbn [fmap list_fmap] in Hnd.
  apply NoDup_cons in Hnd as [Hni Hnd]. cbn [fst] in Hni, He.
  pose proof (alloc_slot_spec (i, size, fill) bos F base s Ho He Hok) as Hs. cbn [fst snd] in Hs.
  assert (forall w, w ∈ work -> w.1.1 <> i) as Hne.
  { intros w Hin Heq. apply Hni. rewrite -Heq. do 2 apply list_elem_of_fmap_2. done. }
  cbn [alloc_slots].
  destruct (alloc_slot guard i size fill (bos, s)) as [[[]|e|?] [bos1 s1]]; [| |done].
  - destruct Hs as (Ho1 & Hf & bo' & ->).
    assert (Forall (fun w => slot_empty (<[i := bo']> bos) w.1.1 /\ work_ok w) work) as Hw1.
    { rewrite Forall_forall in Hw. apply Forall_forall. intros w Hin. destruct (Hw w Hin).
      split; [|done]. apply slot_empty_insert_ne; [|done]. by apply not_eq_sym, Hne. }
    specialize (IH (S k) (<[i := bo']> bos) s1 Ho1 Hnd Hw1).
    destruct (alloc_slots _ _ _ _) as [[[[]|e|?] k'] [bos2 s2]]; [| |done].
    + destruct IH as (Ho2 & -> & [Hl Hu] & Hall). split; [done|]. split; [simpl; lia|].
      split; [|constructor; [|done]].
      * split; [by rewrite Hl length_insert|]. intros j Hj. cbn [fmap list_fmap] in Hj.
        apply not_elem_of_cons in Hj as [Hj1 Hj2]. rewrite Hu //.
        by rewrite list_lookup_insert_ne; [|by apply not_eq_sym].
      * unfold slot_filled in *. cbn [fst snd] in *. by rewrite Hu.
    + destruct IH as (Ho2 & [Hl Hu] & Hk & Hall). split; [done|]. split; [|split; [lia|]].
      * split; [by rewrite Hl length_insert|]. intros j Hj. cbn [fmap list_fmap] in Hj.
        apply not_elem_of_cons in Hj as [Hj1 Hj2]. rewrite Hu //.
        by rewrite list_lookup_insert_ne; [|by apply not_eq_sym].
      * replace (k' - k)%nat with (S (k' - S k)) by lia. done.
  - destruct Hs as (Ho1 & Hf & bo' & ->). split; [done|]. split; [|split; [lia|]].
    + split; [by rewrite length_insert|]. intros j Hj. cbn [fmap list_fmap] in Hj.
      apply not_elem_of_cons in Hj as [Hj1 Hj2]. by rewrite list_lookup_insert_ne; [|by apply not_eq_sym].
    + rewrite Nat.sub_diag. cbn [drop]. constructor; [done|].
      rewrite Forall_forall in Hw. apply Forall_forall. intros w Hin. destruct (Hw w Hin).
      apply slot_empty_insert_ne; [|done]. by apply not_eq_sym, Hne.
Qed.

Lemma release_slot_spec bos F base s i :
  owns (bos ++ F) base s ->
  let '(bos', s') := release_slot (bos, s) i in
  owns (bos' ++ F) base s' /\ length bos' = length bos /\
  (forall b, bos' !! i = Some b -> b_handle b = 0 /\ b_map b = None) /\
  (forall j, j <> i -> bos' !! j = bos !! j).
Proof.
  intros Ho. unfold release_slot, bo_release. destruct (bos !! i) as [bo|] eqn:Hi; [|naive_solver].
  pose proof (lookup_lt_Some _ _ _ Hi) as Hlt.
  assert ((bos ++ F) !! i = Some bo) as Hi' by (by apply lookup_app_l_Some).
  split; [|split; [by rewrite length_insert|split]].
  - rewrite -insert_app_l //. destruct (b_handle bo =? 0) eqn:E.
    + apply owns_keep with bo; [done|done|]. simpl. lia.
    + apply owns_free; [done|done|lia|done].
  - intros b. rewrite list_lookup_insert_eq //. by intros [= <-].
  - intros j Hj. by rewrite list_lookup_insert_ne.
Qed.

Lemma release_slots_spec n bos F base s :
  owns (bos ++ F) base s ->
  let '(bos', s') := release_slots n (bos, s) in
  owns (bos' ++ F) base s' /\ length bos' = length bos /\
  (forall i b, (i < n)%nat -> bos' !! i = Some b -> b_handle b = 0 /\ b_map b = None) /\
  (forall j, (n <= j)%nat -> bos' !! j = bos !! j).
Proof.
  unfold release_slots. induction n as [|n IH]; intros Ho.
  { simpl. split; [done|]. split; [done|]. split; [lia|done]. }
  rewrite seq_S fold_left_app. cbn [fold_left Nat.add].
  destruct (fold_left release_slot (seq 0 n) (bos, s)) as [bos1 s1]. destruct (IH Ho) as (Ho1 & Hl & Hz & Hu).
  pose proof (release_slot_spec bos1 F base s1 n Ho1) as Hr.
  destruct (release_slot (bos1, s1) n) as [bos2 s2]. destruct Hr as (Ho2 & Hl2 & Hz2 & Hu2).
  split; [done|]. split; [lia|]. split.
  - intros i b Hi Hb. destruct (decide (i = n)) as [->|]; [by apply Hz2|].
    rewrite Hu2 // in Hb. eapply (Hz i); [lia|done].
  - intros j Hj. rewrite Hu2; [|lia]. apply Hu. lia.
Qed.

(** Freeing a context whose uncreated io slots are empty gives every handle
    back. *)
Lemma ctx_free_spec ctx nio base s :
  owns (sec_bo ctx ++ io_bo ctx) base s -> length (sec_bo ctx) = ANE_M2_SEC_COUNT ->
  (forall i b, (nio <= i)%nat -> io_bo ctx !! i = Some b -> b_handle b = 0) ->
  let s' := ane_m2_ctx_free ctx ANE_M2_SEC_COUNT nio s in
  live (kern s') = base /\ bad_free s' = false.
Proof.
  intros Ho Hl Hz. cbv zeta. unfold ane_m2_ctx_free.
  pose proof (release_slots_spec ANE_M2_SEC_COUNT _ _ _ _ Ho) as H1.
  destruct (release_slots _ (sec_bo ctx, s)) as [secb s1]. destruct H1 as (Ho1 & Hl1 & Hz1 & _).
  rewrite comm in Ho1. pose proof (release_slots_spec nio _ _ _ _ Ho1) as H2.
  destruct (release_slots nio (io_bo ctx, s1)) as [iob s2]. destruct H2 as (Ho2 & Hl2 & Hz2 & Hu2).
  assert (Forall (fun b => b_handle b = 0) (iob ++ secb)) as Hall.
  { apply Forall_app. split; apply Forall_lookup; intros i b Hb.
    - destruct (decide (i < nio)%nat); [by eapply Hz2|]. rewrite Hu2 in Hb; [|lia]. eapply Hz; [|done]. lia.
    - eapply Hz1; [|done]. apply lookup_lt_Some in Hb. lia. }
  destruct Ho2 as [Hg _ _ Hv]. cbn [snd]. split; [|done].
  rewrite Hv (held_empty _ Hall). set_solver.
Qed.
End life.

(** ** Opening a program *)

(** The sizes the device path can carry: with the guard they fit 64 bits, and
    the digest can count the key's bits. *)
Record program_fits (guard : Z) (model : ane_m2_model) (secs : ane_m2_sections) : Prop := {
  fits_guard : 0 <= guard;
  fits_secs : Forall (fun b => bytes_ok b /\ zlen b + guard < 2 ^ 64) (section_list secs);
  fits_key : 8 * zlen (digest_key secs) < 2 ^ 64;
  fits_io : Forall (fun io => 0 <= io_size io /\ io_size io + guard < 2 ^ 64) (m_io model);
  fits_count : zlen (m_io model) <= ANE_M2_MAX_BINDS;
}.

(** An open context: no section buffer is left, every io entry has a mapped
    buffer of its size and the guard behind it. *)
Record ctx_ok (guard : Z) (ctx : ane_m2_ctx) : Prop := {
  ctx_secs : length (sec_bo ctx) = ANE_M2_SEC_COUNT;
  ctx_secs_free : Forall (fun b => b_handle b = 0 /\ b_map b = None) (sec_bo ctx);
  ctx_io_len : zlen (io_bo ctx) = ANE_M2_MAX_BINDS;
  ctx_io : forall i io, m_io (c_model ctx) !! i = Some io ->
    exists bo m, io_bo ctx !! i = Some bo /\ b_map bo = Some m /\ b_handle bo <> 0 /\
      zlen m = io_size io + guard /\ bytes_ok m /\ 0 <= io_size io /\ 0 <= guard;
  ctx_io_rest : forall i bo, (length (m_io (c_model ctx)) <= i)%nat ->
    io_bo ctx !! i = Some bo -> b_handle bo = 0;
}.

(** A section argument names a section: its BO holds the section's bytes. *)
Definition names_section (e : Z * bytes) (a : drm_ane_section * bytes) : Prop :=
  sa_id a.1 = e.1 /\ sa_size a.1 = zlen e.2 /\ sa_offset a.1 = 0 /\ sa_bo_handle a.1 <> 0 /\
  slice a.2 0 (zlen e.2) = e.2.

Definition names_io (io : ane_m2_io) (b : drm_ane_generic_bind) : Prop :=
  gb_buffer_id b = buffer_id io /\ gb_size b = io_size io /\ gb_bo_handle b <> 0 /\
  gb_type b = (if dir io =? 2 then 0 else dir io).

Section opening.
Context `{AneKernelLaws} (guard : Z) (model : ane_m2_model) (secs : ane_m2_sections).
Context (Hfit : program_fits guard model secs).
Implicit Types (s : sys) (base : gset Z).

Lemma section_at_lookup i :
  (i < 6)%nat -> section_list secs !! i = Some (section_at secs i).
Proof. intros Hi. unfold section_at. by destruct i as [|[|[|[|[|[|i]]]]]]; [..|lia]. Qed.

Lemma section_work_slots order : (section_work secs order).*1.*1 = order.
Proof. induction order as [|i l IH]; [done|]. by cbn [section_work map fmap list_fmap fst]; f_equal. Qed.

Lemma slot_empty_replicate n i : (i < n)%nat -> slot_empty (replicate n bo0) i.
Proof. intros Hi. exists bo0. by rewrite lookup_replicate_2. Qed.

Lemma section_work_ok order w :
  order ≡ₚ seq 0 6 -> w ∈ section_work secs order -> (w.1.1 < 6)%nat /\ work_ok guard w.
Proof.
  intros Hp Hin. apply list_elem_of_In, in_map_iff in Hin as (i & <- & Hi). cbn [fst snd].
  apply list_elem_of_In in Hi. rewrite Hp in Hi. apply elem_of_seq in Hi.
  split; [lia|]. destruct Hfit as [Hg Hs _ _ _].
  assert (section_list secs !! i = Some (section_at secs i)) as Hl by (apply section_at_lookup; lia).
  rewrite Forall_lookup in Hs. destruct (Hs i _ Hl) as [Hbo Hsz].
  pose proof (zlen_nonneg (section_at secs i)).
  split; [done|]. split; [done|]. split; [done|]. intros m Hm Hmo. cbn [fst snd] in *.
  rewrite memcpy_eq; [|lia..]. eexists. split; [done|]. rewrite slice_all. split.
  - rewrite zlen_patch; lia.
  - by apply bytes_ok_patch.
Qed.

Lemma io_work_lookup w :
  w ∈ io_work model -> exists i io, m_io model !! i = Some io /\
    w = (i, io_size io, fun m => memset m 0 0 (io_size io)).
Proof.
  intros Hin. apply list_elem_of_lookup in Hin as (i & Hi). unfold io_work in Hi.
  rewrite list_lookup_imap in Hi. destruct (m_io model !! i) as [io|] eqn:E; [|done].
  injection Hi as <-. eauto.
Qed.

Lemma io_work_slots : (io_work model).*1.*1 = seq 0 (length (m_io model)).
Proof.
  unfold io_work. apply list_eq. intros i. rewrite !list_lookup_fmap list_lookup_imap.
  destruct (m_io model !! i) as [io|] eqn:E; simpl.
  - apply lookup_lt_Some in E. by rewrite lookup_seq_lt.
  - apply lookup_ge_None in E. by rewrite lookup_seq_ge.
Qed.

Lemma io_work_ok w :
  w ∈ io_work model -> (w.1.1 < Z.to_nat ANE_M2_MAX_BINDS)%nat /\ work_ok guard w.
Proof.
  intros Hin. apply io_work_lookup in Hin as (i & io & Hi & ->). cbn [fst snd].
  destruct Hfit as [Hg _ _ Hio Hc]. pose proof (lookup_lt_Some _ _ _ Hi). unfold zlen in Hc.
  split; [lia|]. rewrite Forall_lookup in Hio. destruct (Hio i io Hi) as [Hi1 Hi2].
  split; [done|]. split; [done|]. split; [done|]. intros m Hm Hmo. cbn [fst snd] in *.
  rewrite memset_eq; [|lia..]. eexists. split; [done|]. split.
  - rewrite zlen_patch ?zlen_replicate; lia.
  - apply bytes_ok_patch; [done|]. apply Forall_replicate. apply byte_ok_u8.
Qed.

Lemma sections_ready order secb :
  order ≡ₚ seq 0 6 ->
  length secb = 6%nat -> Forall (fun w => slot_filled guard w secb) (section_work secs order) ->
  Forall2 names_section (zip ane_m2_section_ids (section_list secs)) (section_args secs secb).
Proof.
  intros Hp Hl Hf. rewrite Forall_forall in Hf.
  assert (forall i, (i < 6)%nat -> exists bo m, secb !! i = Some bo /\ b_map bo = Some m /\
    b_handle bo <> 0 /\ slice m 0 (zlen (section_at secs i)) = section_at secs i) as Hslot.
  { intros i Hi.
    assert (i ∈ (section_work secs order).*1.*1) as Hin.
    { rewrite section_work_slots Hp. apply elem_of_seq. lia. }
    apply list_elem_of_fmap in Hin as (x & -> & Hin). apply list_elem_of_fmap in Hin as (w & -> & Hin).
    destruct (Hf w Hin) as (bo & m & m' & Hb & Hm' & Hfill & Hlm & Hlm' & _ & _ & Hh).
    exists bo, m'. split; [done|]. split; [done|]. split; [done|].
    apply list_elem_of_In, in_map_iff in Hin as (j & <- & _). cbn [fst snd] in *.
    pose proof (zlen_nonneg (section_at secs j)). pose proof (fits_guard _ _ _ Hfit).
    rewrite memcpy_eq in Hfill; [|lia..]. injection Hfill as <-. rewrite slice_all.
    apply slice_patch_same; lia. }
  apply Forall2_same_length_lookup_2.
  { unfold section_args. rewrite !length_zip_with Hl. done. }
  intros i e a He Ha. unfold section_args in Ha.
  apply lookup_zip_with_Some in Ha as ([id data] & bo & -> & He' & Hbo). simplify_eq.
  assert (i < 6)%nat as Hi by (apply lookup_lt_Some in Hbo; lia).
  apply lookup_zip_with_Some in He as (? & ? & [= <- <-] & _ & Hd).
  rewrite section_at_lookup // in Hd. injection Hd as <-.
  destruct (Hslot i Hi) as (bo' & m & Hb & Hm & Hh & Hsl). simplify_eq.
  unfold names_section. cbn [fst snd sa_id sa_size sa_offset sa_bo_handle]. by rewrite Hm.
Qed.

Lemma ios_ready iob :
  Forall (fun w => slot_filled guard w iob) (io_work model) ->
  (forall i io, m_io model !! i = Some io ->
    exists bo m, iob !! i = Some bo /\ b_map bo = Some m /\ b_handle bo <> 0 /\
      zlen m = io_size io + guard /\ bytes_ok m /\
      slice m 0 (io_size io) = replicate (Z.to_nat (io_size io)) 0) /\
  ((length (m_io model) <= length iob)%nat -> Forall2 names_io (m_io model) (bind_args model iob)).
Proof.
  intros Hf. rewrite Forall_forall in Hf.
  assert (forall i io, m_io model !! i = Some io ->
    exists bo m, iob !! i = Some bo /\ b_map bo = Some m /\ b_handle bo <> 0 /\
      zlen m = io_size io + guard /\ bytes_ok m /\
      slice m 0 (io_size io) = replicate (Z.to_nat (io_size io)) 0) as Hslot.
  { intros i io Hi.
    assert ((i, io_size io, fun m => memset m 0 0 (io_size io)) ∈ io_work model) as Hin.
    { apply list_elem_of_lookup. exists i. unfold io_work. by rewrite list_lookup_imap Hi. }
    destruct (Hf _ Hin) as (bo & m & m' & Hb & Hm' & Hfill & Hlm & Hlm' & Hok & _ & Hh).
    cbn [fst snd] in *. exists bo, m'. repeat (split; [done || lia|]).
    pose proof (fits_guard _ _ _ Hfit). pose proof (fits_io _ _ _ Hfit) as Hio.
    rewrite Forall_lookup in Hio. destruct (Hio i io Hi) as [? ?].
    rewrite memset_eq in Hfill; [|lia..]. injection Hfill as <-.
    assert (zlen (replicate (Z.to_nat (io_size io)) (u8 0)) = io_size io) as Hz
      by (rewrite zlen_replicate; lia).
    pose proof (slice_patch_same m (replicate (Z.to_nat (io_size io)) (u8 0))) as Hsp.
    rewrite Hz in Hsp. apply Hsp. lia. }
  split; [done|]. intros Hl. apply Forall2_same_length_lookup_2.
  { unfold bind_args. rewrite length_zip_with. lia. }
  intros i io b Hi Hb. apply lookup_zip_with_Some in Hb as (io' & bo & -> & Hi' & Hb).
  simplify_eq. destruct (Hslot i io Hi) as (bo' & m & Hb' & _ & Hh & _). simplify_eq.
  by unfold names_io.
Qed.

(** How the program id of an open context was obtained. *)
Definition loaded (digest : res bytes) (id : Z) : Prop :=
  (exists d found k, digest = Ret d /\ found <> 0 /\ (ioctl_prog_lookup d k).1 = Some (found, id)) \/
  (exists args binds k, (ioctl_prog_load args binds k).1 = Ret id /\
     Forall2 names_section (zip ane_m2_section_ids (section_list secs)) args /\
     Forall2 names_io (m_io model) binds).

Lemma lookup_program_spec digest s :
  let '(found, s') := lookup_program digest s in
  live (kern s') = live (kern s) /\ bad_free s' = bad_free s /\
  (forall id, found = Some id -> loaded digest id).
Proof.
  unfold lookup_program. destruct digest as [d| |]; [|done..].
  pose proof (lookup_live (kern s) d) as Hl.
  destruct (ioctl_prog_lookup d (kern s)) as [[[found id]|] k] eqn:E; [|done].
  split; [done|]. split; [done|]. intros id'. destruct (found =? 0) eqn:Ef; [done|]. intros [= <-].
  left. exists d, found, (kern s). rewrite E. split; [done|]. split; [lia|done].
Qed.

Lemma create_procedure_spec digest found secb iob s :
  (found = None -> Forall2 names_section (zip ane_m2_section_ids (section_list secs)) (section_args secs secb)) ->
  Forall2 names_io (m_io model) (bind_args model iob) ->
  (forall id, found = Some id -> loaded digest id) ->
  let '(r, s') := create_procedure found model secs secb iob s in
  live (kern s') = live (kern s) /\ bad_free s' = bad_free s /\
  match r with
  | Ret (id, _) => loaded digest id
  | Fail _ => True
  | Fault _ => False
  end.
Proof.
  intros Hs Hi Hf. unfold create_procedure.
  assert (let '(r, s') := load_program found model secs secb iob s in
    live (kern s') = live (kern s) /\ bad_free s' = bad_free s /\
    match r with Ret id => loaded digest id | Fail _ => True | Fault _ => False end) as Hload.
  { unfold load_program. destruct found as [id|]; [by auto|].
    pose proof (load_live (kern s) (section_args secs secb) (bind_args model iob)) as Hl.
    pose proof (load_no_fault (kern s) (section_args secs secb) (bind_args model iob)) as Hnf.
    destruct (ioctl_prog_load _ _ _) as [r k] eqn:E. split; [done|]. split; [done|].
    destruct r as [id| |w]; [|done|by apply (Hnf w)].
    right. exists (section_args secs secb), (bind_args model iob), (kern s). rewrite E. by split; [|split; [apply Hs|]]. }
  destruct (load_program _ _ _ _ _ _) as [[id| |] s1]; [|done..].
  destruct Hload as (Hl & Hb & Hld).
  pose proof (create_live (kern s1) id) as Hl2. pose proof (create_no_fault (kern s1) id) as Hnf.
  destruct (ioctl_proc_create id (kern s1)) as [[p| |w] k]; cbn [fst snd] in *.
  - split; [simpl; congruence|]. by split.
  - split; [simpl; congruence|]. by split.
  - by destruct (Hnf w).
Qed.

Lemma untouched_nil bos bos' : untouched [] bos bos' -> bos' = bos.
Proof. intros [Hl Hu]. apply list_eq. intros i. apply Hu. set_solver. Qed.

(** The section buffers after the first loop. *)
Lemma alloc_sections_spec order (found : option Z) iob base s :
  order ≡ₚ seq 0 6 -> owns (replicate 6 bo0 ++ iob) base s ->
  match alloc_slots guard (if found then [] else section_work secs order) 0 (replicate 6 bo0, s) with
  | (Ret tt, _, (secb, s')) =>
      owns (secb ++ iob) base s' /\ length secb = 6%nat /\
      (found = None -> Forall2 names_section (zip ane_m2_section_ids (section_list secs))
                         (section_args secs secb))
  | (Fail _, _, (secb, s')) => owns (secb ++ iob) base s' /\ length secb = 6%nat
  | (Fault _, _, _) => False
  end.
Proof.
  intros Hp Ho.
  pose proof (alloc_slots_spec guard (if found then [] else section_work secs order) 0
    (replicate 6 bo0) iob base s Ho) as Ha.
  assert (NoDup (if found then [] else section_work secs order).*1.*1) as Hnd.
  { destruct found; [constructor|]. rewrite section_work_slots Hp. apply NoDup_seq. }
  assert (Forall (fun w => slot_empty (replicate 6 bo0) w.1.1 /\ work_ok guard w)
    (if found then [] else section_work secs order)) as Hok.
  { destruct found; [constructor|]. apply Forall_forall. intros w Hw.
    destruct (section_work_ok order w Hp Hw). split; [|done]. by apply slot_empty_replicate. }
  specialize (Ha Hnd Hok).
  destruct (alloc_slots _ _ _ _) as [[[[]| |] k] [secb s1]]; [| |done].
  - destruct Ha as (Ho1 & _ & [Hl _] & Hf). rewrite length_replicate in Hl.
    split; [done|]. split; [done|]. intros ->. by eapply sections_ready.
  - destruct Ha as (Ho1 & [Hl _] & _). by rewrite length_replicate in Hl.
Qed.

(** The io buffers after the second loop. *)
Lemma alloc_ios_spec secb base s :
  owns (secb ++ replicate 64 bo0) base s ->
  match alloc_slots guard (io_work model) 0 (replicate 64 bo0, s) with
  | (Ret tt, n, (iob, s')) =>
      owns (secb ++ iob) base s' /\ length iob = 64%nat /\ n = length (m_io model) /\
      (forall i b, (n <= i)%nat -> iob !! i = Some b -> b_handle b = 0) /\
      Forall (fun w => slot_filled guard w iob) (io_work model)
  | (Fail _, n, (iob, s')) =>
      owns (secb ++ iob) base s' /\ forall i b, (n <= i)%nat -> iob !! i = Some b -> b_handle b = 0
  | (Fault _, _, _) => False
  end.
Proof.
  intros Ho. rewrite comm in Ho.
  pose proof (alloc_slots_spec guard (io_work model) 0 (replicate 64 bo0) secb base s Ho) as Ha.
  assert (NoDup (io_work model).*1.*1) as Hnd by (rewrite io_work_slots; apply NoDup_seq).
  assert (Forall (fun w => slot_empty (replicate 64 bo0) w.1.1 /\ work_ok guard w)
    (io_work model)) as Hok.
  { apply Forall_forall. intros w Hw. destruct (io_work_ok w Hw). split; [|done].
    by apply slot_empty_replicate. }
  specialize (Ha Hnd Hok).
  assert (forall iob i b, untouched (io_work model) (replicate 64 bo0) iob ->
    (length (m_io model) <= i)%nat -> iob !! i = Some b -> b_handle b = 0) as Hrest.
  { intros iob i b [Hl Hu] Hi Hb. rewrite Hu in Hb.
    - by apply lookup_replicate in Hb as [-> _].
    - rewrite io_work_slots elem_of_seq. lia. }
  assert (length (io_work model) = length (m_io model)) as Hlen.
  { unfold io_work. by rewrite length_imap. }
  destruct (alloc_slots _ _ _ _) as [[[[]| |] n] [iob s1]]; [| |done].
  - destruct Ha as (Ho1 & -> & Hu & Hf). rewrite comm in Ho1. split; [done|].
    pose proof (proj1 Hu) as Hl. rewrite length_replicate in Hl. rewrite Hlen Nat.add_0_l.
    split; [done|]. split; [done|]. split; [|done]. intros i b Hi. by apply Hrest.
  - destruct Ha as (Ho1 & Hu & _ & Hf). rewrite comm in Ho1. split; [done|].
    intros i b Hi Hb. destruct (decide (i < length (m_io model))%nat) as [Hlt|]; [|eapply Hrest; [done| |done]; lia].
    rewrite Nat.sub_0_r in Hf. rewrite Forall_lookup in Hf.
    destruct (lookup_lt_is_Some_2 (m_io model) i Hlt) as [io Hio].
    destruct (Hf (i - n)%nat (i, io_size io, fun m => memset m 0 0 (io_size io))) as (b' & Hb' & Hz).
    { rewrite lookup_drop. replace (n + (i - n))%nat with i by lia.
      unfold io_work. by rewrite list_lookup_imap Hio. }
    cbn [fst] in Hb'. by simplify_eq.
Qed.

(** What a caller has after a successful open: only the io buffers are held,
    zeroed up to their size, and the program is the one built. *)
Record opened (digest : res bytes) (base : gset Z) (ctx : ane_m2_ctx) (s : sys) : Prop := {
  opened_owns : owns (io_bo ctx) base s;
  opened_ok : ctx_ok guard ctx;
  opened_model : c_model ctx = model;
  opened_secs : c_secs ctx = secs;
  opened_zero : forall i io, m_io model !! i = Some io -> exists bo m,
    io_bo ctx !! i = Some bo /\ b_map bo = Some m /\
    slice m 0 (io_size io) = replicate (Z.to_nat (io_size io)) 0;
  opened_loaded : loaded digest (prog_id ctx);
}.

Lemma release_opened digest id proc secb iob base s :
  owns (secb ++ iob) base s -> length secb = 6%nat -> length iob = 64%nat ->
  (forall i b, (length (m_io model) <= i)%nat -> iob !! i = Some b -> b_handle b = 0) ->
  Forall (fun w => slot_filled guard w iob) (io_work model) -> loaded digest id ->
  let '(secb', s') := release_slots 6 (secb, s) in
  opened digest base (Ctx model secs id proc secb' iob) s'.
Proof.
  intros Ho Hls Hli Hrest Hf Hld. pose proof (release_slots_spec 6 _ _ _ _ Ho) as Hr.
  destruct (release_slots 6 (secb, s)) as [secb' s']. destruct Hr as (Ho' & Hl' & Hz & _).
  assert (Forall (fun b => b_handle b = 0 /\ b_map b = None) secb') as Hall.
  { apply Forall_lookup. intros i b Hb. apply (Hz i); [|done]. apply lookup_lt_Some in Hb. lia. }
  destruct (ios_ready iob Hf) as [Hio _].
  split; cbn [io_bo c_model c_secs prog_id]; try done.
  - assert (held (secb' ++ iob) = held iob) as He.
    { clear -Hall. induction Hall as [|b l [Hb _] _ IH]; [done|]. by rewrite held_cons bool_decide_eq_true_2. }
    destruct Ho' as [Hg Hn Hfr Hv]. rewrite He in Hn, Hfr, Hv. by split.
  - split; cbn [io_bo c_model sec_bo]; try done.
    + by rewrite Hl'.
    + unfold zlen, ANE_M2_MAX_BINDS. lia.
    + intros i io Hi. destruct (Hio i io Hi) as (bo & m & ? & ? & ? & ? & ? & _). exists bo, m.
      pose proof (fits_guard _ _ _ Hfit). pose proof (fits_io _ _ _ Hfit) as Hs.
      rewrite Forall_lookup in Hs. by destruct (Hs i io Hi).
  - intros i io Hi. destruct (Hio i io Hi) as (bo & m & ? & ? & _ & _ & _ & ?). by exists bo, m.
Qed.

Lemma open_built_spec digest s :
  bad_free s = false ->
  match open_built guard model secs digest s with
  | (Ret ctx, s') => opened digest (live (kern s)) ctx s'
  | (Fail _, s') => live (kern s') = live (kern s) /\ bad_free s' = false
  | (Fault _, _) => False
  end.
Proof.
  intros Hb. unfold open_built.
  pose proof (proj1 (section_order_spec (fun i => zlen (section_at secs i)) ANE_M2_SEC_COUNT)) as Hp.
  revert Hp. generalize (section_order ANE_M2_SEC_COUNT (fun i => zlen (section_at secs i))).
  intros order Hp. pose proof (lookup_program_spec digest s) as Hlk.
  destruct (lookup_program digest s) as [found s0]. destruct Hlk as (Hl0 & Hb0 & Hfound).
  change (Z.to_nat ANE_M2_MAX_BINDS) with 64%nat. change ANE_M2_SEC_COUNT with 6%nat in *.
  set (base := live (kern s)) in *. cbv zeta.
  assert (owns (replicate 6 bo0 ++ replicate 64 bo0) base s0) as Ho0.
  { apply owns_none; [|congruence|done]. apply Forall_app. split; by apply Forall_replicate. }
  pose proof (alloc_sections_spec order found _ base s0 Hp Ho0) as Hsec.
  destruct (alloc_slots guard (if found then [] else _) 0 _) as [[[[]| |] k] [secb s1]]; [| |done].
  2:{ destruct Hsec as [Ho1 Hl1]. refine (ctx_free_spec (Ctx _ _ _ _ _ _) 0 base s1 Ho1 Hl1 _).
      intros i b _ Hi. cbn [io_bo] in Hi. by apply lookup_replicate in Hi as [-> _]. }
  destruct Hsec as (Ho1 & Hl1 & Hnames). pose proof (alloc_ios_spec secb base s1 Ho1) as Hios.
  destruct (alloc_slots guard (io_work model) 0 _) as [[[[]| |] n] [iob s2]]; [| |done].
  2:{ destruct Hios as [Ho2 Hrest]. by apply (ctx_free_spec (Ctx _ _ _ _ _ _) n base s2 Ho2 Hl1). }
  destruct Hios as (Ho2 & Hl2 & -> & Hrest & Hf). destruct (ios_ready iob Hf) as [_ Hbinds].
  pose proof (create_procedure_spec digest found secb iob s2 Hnames) as Hc.
  pose proof (fits_count _ _ _ Hfit) as Hcount. unfold zlen, ANE_M2_MAX_BINDS in Hcount.
  specialize (Hc (Hbinds ltac:(lia)) Hfound).
  destruct (create_procedure _ _ _ _ _ _) as [r s3]. destruct Hc as (Hl3 & Hb3 & Hld).
  assert (owns (secb ++ iob) base s3) as Ho3.
  { destruct Ho2 as [? ? ? Hv]. split; [congruence|done|done|by rewrite Hl3]. }
  destruct r as [[id proc]| |]; [|by apply (ctx_free_spec (Ctx _ _ _ _ _ _) _ base s3 Ho3 Hl1)|done].
  pose proof (release_opened digest id proc secb iob base s3 Ho3 Hl1 Hl2 Hrest Hf Hld) as Hr.
  by destruct (release_slots 6 (secb, s3)) as [secb' s4].
Qed.
End opening.

(** ** Calls on an open context *)

Section calls.
Context `{AneKernelLaws} (guard : Z).
Implicit Types (ctx : ane_m2_ctx) (s : sys).

Lemma nth_io_from_spec ios d idx seen n i io :
  0 <= seen -> seen + zlen ios < 2 ^ 32 ->
  nth_io_from ios d idx seen n = Some (i, io) <->
  (exists k, i = (n + k)%nat /\ ios !! k = Some io /\ dir io = d /\
     idx = seen + zlen (filter (fun e => dir e = d) (take k ios))).
Proof.
  revert seen n. induction ios as [|e ios IH]; intros seen n H0' Hs; cbn [nth_io_from].
  { split; [done|]. by intros (k & _ & ? & _). }
  assert (zlen (e :: ios) = 1 + zlen ios) as Hz by (unfold zlen; simpl length; lia).
  pose proof (zlen_nonneg ios).
  destruct (dir e =? d) eqn:Ed; cbn [negb].
  - destruct (seen =? idx) eqn:Es.
    + split.
      * intros [= <- <-]. exists 0%nat. rewrite Nat.add_0_r. repeat split; [lia|].
        cbn [take]. rewrite filter_nil. unfold zlen. simpl. lia.
      * intros (k & -> & Hk & Hd & Hi). destruct k as [|k].
        { simpl in Hk. rewrite Nat.add_0_r. congruence. }
        cbn [take] in Hi. rewrite filter_cons_True in Hi; [|lia].
        exfalso. unfold zlen in Hi. simpl length in Hi. lia.
    + rewrite (wrap_small 32); [|lia]. rewrite IH; [|lia..]. split.
      * intros (k & -> & Hk & Hd & Hi). exists (S k). repeat split; [lia|done|done|].
        cbn [take]. rewrite filter_cons_True; [|lia]. unfold zlen in *. simpl length. lia.
      * intros (k & -> & Hk & Hd & Hi). destruct k as [|k].
        { cbn [take] in Hi. rewrite filter_nil in Hi. unfold zlen in Hi. simpl in Hi. lia. }
        exists k. cbn [take] in Hi. rewrite filter_cons_True in Hi; [|lia].
        repeat split; [lia|done|done|]. unfold zlen in *. simpl length in Hi. lia.
  - rewrite IH; [|lia..]. split.
    + intros (k & -> & Hk & Hd & Hi). exists (S k). repeat split; [lia|done|done|].
      cbn [take]. rewrite filter_cons_False; [done|lia].
    + intros (k & -> & Hk & Hd & Hi). destruct k as [|k].
      { simpl in Hk. injection Hk as <-. lia. }
      exists k. cbn [take] in Hi. rewrite filter_cons_False in Hi; [|lia].
      repeat split; [lia|done|done|done].
Qed.

(** Entry [i] is the [idx]-th entry of direction [d]. *)
Definition nth_of_dir (ios : list ane_m2_io) (d idx : Z) (i : nat) (io : ane_m2_io) : Prop :=
  ios !! i = Some io /\ dir io = d /\ idx = zlen (filter (fun e => dir e = d) (take i ios)).

Lemma nth_io_spec ctx d idx i io :
  zlen (m_io (c_model ctx)) < 2 ^ 32 ->
  nth_io ctx d idx = Some (i, io) <-> nth_of_dir (m_io (c_model ctx)) d idx i io.
Proof.
  intros Hl. unfold nth_io, nth_of_dir. rewrite nth_io_from_spec; [|lia..]. split.
  - by intros (k & -> & ? & ? & ->).
  - intros (? & ? & ->). by exists i.
Qed.

Lemma ctx_io_count ctx : ctx_ok guard ctx -> zlen (m_io (c_model ctx)) <= ANE_M2_MAX_BINDS.
Proof.
  intros [_ _ Hl Hio _]. destruct (decide (zlen (m_io (c_model ctx)) <= ANE_M2_MAX_BINDS)) as [|Hn]; [done|].
  unfold zlen, ANE_M2_MAX_BINDS in *.
  destruct (lookup_lt_is_Some_2 (m_io (c_model ctx)) (length (io_bo ctx))) as [io Hi]; [lia|].
  destruct (Hio _ _ Hi) as (bo & _ & Hb & _). apply lookup_lt_Some in Hb. lia.
Qed.

(** A context whose buffer objects keep their shape stays open. *)
Lemma ctx_ok_same_bo ctx bos :
  ctx_ok guard ctx -> Forall2 same_bo (io_bo ctx) bos ->
  ctx_ok guard (Ctx (c_model ctx) (c_secs ctx) (prog_id ctx) (proc_id ctx) (sec_bo ctx) bos).
Proof.
  intros [H1 H2 H3 H4 H5] Hs. split; cbn [sec_bo io_bo c_model]; try done.
  - rewrite -H3. unfold zlen. f_equal. symmetry. by eapply Forall2_length.
  - intros i io Hi. destruct (H4 i io Hi) as (bo & m & Hb & Hm & Hh & Hl & Hok & Hsz).
    destruct (Forall2_lookup_l _ _ _ _ _ Hs Hb) as (bo' & Hb' & _ & Hh' & _ & Hmm).
    rewrite Hm in Hmm. destruct (b_map bo') as [m'|] eqn:Em; [|done].
    destruct Hmm as [Hl' Hok']. exists bo', m'. rewrite Hh'. repeat (split; [done || lia|]). split; [auto|done].
  - intros i bo' Hi Hb'. destruct (Forall2_lookup_r _ _ _ _ _ Hs Hb') as (bo & Hb & _ & Hh & _).
    rewrite Hh. by eapply H5.
Qed.

Lemma io_lookup_map ctx i io :
  ctx_ok guard ctx -> m_io (c_model ctx) !! i = Some io ->
  exists bo m, io_map ctx i = Ret (bo, m) /\ io_bo ctx !! i = Some bo /\ b_map bo = Some m /\
    0 <= io_size io <= zlen m /\ bytes_ok m.
Proof.
  intros Hok Hi. destruct (ctx_io _ _ Hok i io Hi) as (bo & m & Hb & Hm & _ & Hl & Hmo & Hs & Hg).
  exists bo, m. unfold io_map. rewrite Hb Hm. repeat (split; [done || lia|]). done.
Qed.

Lemma m2_io_size_nth ctx d idx i io :
  nth_io ctx d idx = Some (i, io) -> m2_io_size d (Some ctx) idx = io_size io.
Proof. intros Hn. unfold m2_io_size. by rewrite Hn. Qed.

Lemma send_cases ctx from idx :
  ctx_ok guard ctx -> ane_m2_src_size (Some ctx) idx <= zlen from ->
  match ane_m2_send (Some ctx) from idx with
  | Ret ctx' => exists i io bo m, nth_of_dir (m_io (c_model ctx)) 0 idx i io /\
      io_bo ctx !! i = Some bo /\ b_map bo = Some m /\
      ctx' = set_io_map ctx i bo (patch m 0 (slice from 0 (io_size io))) /\
      zlen (slice from 0 (io_size io)) = io_size io /\ io_size io <= zlen m
  | Fail e => e = EINVAL /\ forall i io, ~ nth_of_dir (m_io (c_model ctx)) 0 idx i io
  | Fault _ => False
  end.
Proof.
  intros Hok Hlen. pose proof (ctx_io_count ctx Hok) as Hc. unfold ANE_M2_MAX_BINDS in Hc.
  assert (zlen (m_io (c_model ctx)) < 2 ^ 32) as Hc32 by lia.
  unfold ane_m2_send. destruct (nth_io ctx 0 idx) as [[i io]|] eqn:En.
  - pose proof (m2_io_size_nth _ _ _ _ _ En) as Hsz. unfold ane_m2_src_size in Hlen. rewrite Hsz in Hlen.
    apply nth_io_spec in En; [|done]. pose proof En as (Hi & _ & _).
    destruct (io_lookup_map ctx i io Hok Hi) as (bo & m & Hm & Hb & Hbm & Hs & _).
    rewrite Hm. cbn [mbind res_bind]. rewrite memcpy_eq; [|lia..]. cbn [mbind res_bind].
    exists i, io, bo, m. repeat (split; [done|]). split; [apply zlen_slice; lia|lia].
  - split; [done|]. intros i io Hn. apply nth_io_spec in Hn; [|done]. congruence.
Qed.

Lemma read_cases ctx to idx :
  ctx_ok guard ctx -> ane_m2_dst_size (Some ctx) idx <= zlen to ->
  match ane_m2_read (Some ctx) to idx with
  | Ret to' => exists i io bo m, nth_of_dir (m_io (c_model ctx)) 1 idx i io /\
      io_bo ctx !! i = Some bo /\ b_map bo = Some m /\
      to' = patch to 0 (slice m 0 (io_size io)) /\ zlen (slice m 0 (io_size io)) = io_size io
  | Fail e => e = EINVAL /\ forall i io, ~ nth_of_dir (m_io (c_model ctx)) 1 idx i io
  | Fault _ => False
  end.
Proof.
  intros Hok Hlen. pose proof (ctx_io_count ctx Hok) as Hc. unfold ANE_M2_MAX_BINDS in Hc.
  assert (zlen (m_io (c_model ctx)) < 2 ^ 32) as Hc32 by lia.
  unfold ane_m2_read. destruct (nth_io ctx 1 idx) as [[i io]|] eqn:En.
  - pose proof (m2_io_size_nth _ _ _ _ _ En) as Hsz. unfold ane_m2_dst_size in Hlen. rewrite Hsz in Hlen.
    apply nth_io_spec in En; [|done]. pose proof En as (Hi & _ & _).
    destruct (io_lookup_map ctx i io Hok Hi) as (bo & m & Hm & Hb & Hbm & Hs & _).
    rewrite Hm. cbn [mbind res_bind]. rewrite memcpy_eq; [|lia..].
    exists i, io, bo, m. repeat (split; [done|]). apply zlen_slice; lia.
  - split; [done|]. intros i io Hn. apply nth_io_spec in Hn; [|done]. congruence.
Qed.

(** *** Sessions *)

Inductive m2_call := CallSend (from : bytes) (idx : Z) | CallRead (to : bytes) (idx : Z) | CallExec.

(** What the caller owes: buffers as long as the library says. *)
Definition call_ok (ctx : ane_m2_ctx) (c : m2_call) : Prop :=
  match c with
  | CallSend from idx => ane_m2_src_size (Some ctx) idx <= zlen from /\ bytes_ok from
  | CallRead to idx => ane_m2_dst_size (Some ctx) idx <= zlen to
  | CallExec => True
  end.

(** One call; errors leave the context as it was, a fault stops the run. *)
Definition m2_step (st : ane_m2_ctx * sys) (c : m2_call) : res (ane_m2_ctx * sys) :=
  let '(ctx, s) := st in
  match c with
  | CallSend from idx =>
      match ane_m2_send (Some ctx) from idx with
      | Ret ctx' => Ret (ctx', s)
      | Fail _ => Ret (ctx, s)
      | Fault w => Fault w
      end
  | CallRead to idx =>
      match ane_m2_read (Some ctx) to idx with
      | Fault w => Fault w
      | _ => Ret (ctx, s)
      end
  | CallExec =>
      match ane_m2_exec (Some ctx) s with
      | (Fault w, _, _) => Fault w
      | (_, Some ctx', s') => Ret (ctx', s')
      | (_, None, _) => Fault OutOfBounds
      end
  end.

Definition session (base : gset Z) (ctx0 : ane_m2_ctx) (st : ane_m2_ctx * sys) : Prop :=
  ctx_ok guard st.1 /\ owns (io_bo st.1) base st.2 /\ c_model st.1 = c_model ctx0.

Lemma call_ok_model ctx ctx' c : c_model ctx' = c_model ctx -> call_ok ctx c -> call_ok ctx' c.
Proof.
  intros Hm. unfold call_ok, ane_m2_src_size, ane_m2_dst_size, m2_io_size, nth_io. by rewrite Hm.
Qed.

Lemma same_bo_refl b : same_bo b b.
Proof. unfold same_bo. destruct (b_map b); repeat split; done. Qed.

Lemma m2_step_session base ctx0 st c :
  session base ctx0 st -> call_ok ctx0 c -> twp (m2_step st c) (session base ctx0).
Proof.
  destruct st as [ctx s]. intros (Hok & Ho & Hm) Hc. cbn [fst snd] in *.
  apply (call_ok_model _ ctx) in Hc; [|done]. destruct c as [from idx|to idx|]; cbn [m2_step].
  - destruct Hc as [Hl Hfo]. pose proof (send_cases ctx from idx Hok Hl) as Hs.
    destruct (ane_m2_send _ _ _) as [ctx'| |]; [|by split|done].
    destruct Hs as (i & io & bo & m & Hn & Hb & Hbm & -> & Hls & Hlm).
    unfold set_io_map. split; [|split; [|done]]; cbn [fst snd io_bo].
    + apply ctx_ok_same_bo; [done|]. rewrite -{1}(list_insert_id _ _ _ Hb).
      apply Forall2_insert; [apply Forall_Forall2_diag, Forall_true, same_bo_refl|].
      unfold same_bo. cbn [b_map b_size b_handle b_offset]. rewrite Hbm. repeat (split; [done|]).
      split; [by rewrite zlen_patch; lia|]. intros Hmo. apply bytes_ok_patch; [done|by apply bytes_ok_slice].
    + by eapply owns_keep.
  - pose proof (read_cases ctx to idx Hok Hc) as Hr. by destruct (ane_m2_read _ _ _).
  - unfold ane_m2_exec.
    set (args := Exec _ _ _ _ _). pose proof (exec_live (kern s) args (io_bo ctx)) as Hl.
    pose proof (exec_bos (kern s) args (io_bo ctx)) as Hb.
    destruct (ioctl_exec args (io_bo ctx) (kern s)) as [[ret bos] k]. cbn [fst snd] in *.
    assert (session base ctx0 (Ctx (c_model ctx) (c_secs ctx) (prog_id ctx) (proc_id ctx)
      (sec_bo ctx) bos, with_kern s k)) as Hs.
    { split; [by apply ctx_ok_same_bo|]. split; [|done]. cbn [fst snd io_bo].
      apply owns_live_eq; [done|]. eapply owns_handles; [|exact Ho]. by apply same_bo_handles. }
    by destruct (ret <? 0).
Qed.

Lemma m2_run_session base ctx0 calls st :
  session base ctx0 st -> Forall (call_ok ctx0) calls ->
  twp (foldM m2_step st calls) (session base ctx0).
Proof.
  intros Hs Hc. revert st Hs. induction Hc as [|c calls Hc _ IH]; intros st Hs; [done|].
  cbn [foldM]. apply twp_bind. eapply twp_mono; [by apply m2_step_session|]. auto.
Qed.

Lemma close_balanced base ctx s :
  ctx_ok guard ctx -> owns (io_bo ctx) base s ->
  let '(m2, s') := ane_m2_close (Some ctx) s in
  m2 = None /\ live (kern s') = base /\ bad_free s' = false.
Proof.
  intros Hok Ho. unfold ane_m2_close. split; [done|]. apply ctx_free_spec.
  - assert (held (sec_bo ctx ++ io_bo ctx) = held (io_bo ctx)) as He.
    { pose proof (ctx_secs_free _ _ Hok) as Hf.
      induction Hf as [|b l [Hb _] _ IH]; [done|]. by rewrite /= held_cons bool_decide_eq_true_2. }
    destruct Ho. by split; rewrite ?He.
  - apply Hok.
  - intros i b Hi Hb. by eapply (ctx_io_rest _ _ Hok).
Qed.
End calls.

(** ** The device path as a whole *)

Section program.
Context `{ArmSha2} `{AneKernelLaws}.
Context (hw : bool) (buf0 : bytes) (mem : Z -> bool) (es eo : option (list Z)) (guard : Z).
Context (Hbuf : zlen buf0 = 64) (Hbufok : bytes_ok buf0).
Implicit Types (s : sys).

(** The digest of a program that fits: its key's SHA-256, or an error. *)
Lemma digest_cases model secs :
  program_fits guard model secs ->
  match ane_m2_program_digest hw buf0 secs with
  | Ret d => d = fips_sha256 (digest_key secs)
  | Fail _ => True
  | Fault _ => False
  end.
Proof.
  intros [_ Hs Hk _ _]. pose proof (absorbed_init hw buf0 Hbuf Hbufok) as Hab.
  assert (Forall bytes_ok (section_list secs)) as Hok.
  { eapply Forall_impl; [exact Hs|]. by intros b [? _]. }
  unfold ane_m2_program_digest.
  destruct (decide (Forall (fun b => 0 < zlen b) (section_list secs))) as [Hpos|Hneg].
  { by rewrite digest_ctx_spec. }
  apply not_Forall_Exists in Hneg; [|intros b; apply _].
  unfold ane_m2_program_digest_ctx. erewrite digest_sections_empty; [done|exact Hab| |].
  - apply (zip_ids_Forall (fun b => bytes_ok b /\ zlen b < 2 ^ 64)).
    pose proof (section_below_key secs) as Hb. apply Forall_forall. intros b Hin.
    rewrite Forall_forall in Hok. rewrite Forall_forall in Hb. split; [auto|].
    specialize (Hb b Hin). simpl in Hb. lia.
  - apply (zip_ids_Exists (fun b => zlen b = 0)). eapply Exists_impl; [exact Hneg|]. intros b Hb. unfold compose in Hb.
    pose proof (zlen_nonneg b). lia.
Qed.

Lemma build_program_no_fault f ports :
  bytes_ok f -> (forall ps, ports = Some ps -> Forall port_typed ps) ->
  forall w, build_program mem es eo f ports <> Fault w.
Proof.
  intros Hf Hp w. unfold build_program. destruct ports as [ps|].
  - eapply wp_no_fault. apply wp_build_ports; auto.
  - eapply wp_no_fault. by apply wp_program_build.
Qed.

Lemma open_cases ctx_mem f ports hdr s :
  bytes_ok f -> (forall ps, ports = Some ps -> Forall port_typed ps) ->
  (forall model secs, build_program mem es eo f ports = Ret (model, secs) ->
     program_fits guard model secs) ->
  bad_free s = false ->
  match ane_m2_open guard hw buf0 mem es eo ctx_mem (Some f) ports hdr s with
  | (Ret ctx, _, s') => exists model secs, build_program mem es eo f ports = Ret (model, secs) /\
      opened guard model secs (ane_m2_program_digest hw buf0 secs) (live (kern s)) ctx s'
  | (Fail _, _, s') => live (kern s') = live (kern s) /\ bad_free s' = false
  | (Fault _, _, _) => False
  end.
Proof.
  intros Hf Hp Hfit Hb. unfold ane_m2_open, ane_m2_fread_all.
  destruct ctx_mem; cbn [negb]; [|done]. destruct (mem (zlen f)); [|done].
  pose proof (build_program_no_fault f ports Hf Hp) as Hnf.
  destruct (build_program mem es eo f ports) as [[model secs]|e|w]; [|done|by destruct (Hnf w)].
  specialize (Hfit model secs eq_refl). pose proof (digest_cases model secs Hfit) as Hd.
  pose proof (open_built_spec guard model secs Hfit (ane_m2_program_digest hw buf0 secs) s Hb) as Ho.
  destruct (ane_m2_program_digest hw buf0 secs) as [d|e|w] eqn:Ed; [| |done].
  - destruct (open_built _ _ _ _ _) as [[ctx| |] s']; [|done|done]. exists model, secs. by rewrite Ed.
  - destruct (open_built _ _ _ _ _) as [[ctx| |] s']; [|done|done]. exists model, secs. by rewrite Ed.
Qed.
End program.

(** C4: the life of a program's buffers. Opening a file never faults; a
    refused or failed open gives back every handle it took and frees none
    twice. After a successful open, whatever the caller sends, reads and runs
    (with buffers of the sizes the library reports) stays inside the mapped
    buffers, and closing then gives back every handle, each exactly once. *)
Theorem m2_session_balanced `{ArmSha2} `{AneKernelLaws} hw buf0 mem es eo guard ctx_mem f ports hdr s :
  zlen buf0 = 64 -> bytes_ok buf0 -> bytes_ok f ->
  (forall ps, ports = Some ps -> Forall port_typed ps) ->
  (forall model secs, build_program mem es eo f ports = Ret (model, secs) ->
     program_fits guard model secs) ->
  bad_free s = false ->
  match ane_m2_open guard hw buf0 mem es eo ctx_mem (Some f) ports hdr s with
  | (Ret ctx, _, s') =>
      forall calls, Forall (call_ok ctx) calls ->
        twp (foldM m2_step (ctx, s') calls) (fun '(ctx', s'') =>
          let '(m2, s3) := ane_m2_close (Some ctx') s'' in
          m2 = None /\ live (kern s3) = live (kern s) /\ bad_free s3 = false)
  | (Fail _, _, s') => live (kern s') = live (kern s) /\ bad_free s' = false
  | (Fault _, _, _) => False
  end.
Proof.
  intros Hb Hbo Hf Hp Hfit Hg.
  pose proof (open_cases hw buf0 mem es eo guard Hb Hbo ctx_mem f ports hdr s Hf Hp Hfit Hg) as Ho.
  destruct (ane_m2_open _ _ _ _ _ _ _ _ _ _ _) as [[[ctx| |] hdr'] s']; [|done|done].
  destruct Ho as (model & secs & _ & [Hown Hok _ _ _ _]). intros calls Hcalls.
  eapply twp_mono; [apply (m2_run_session guard (live (kern s)) ctx); [by split|done]|].
  intros [ctx' s''] (Hok' & Hown' & _). by apply (close_balanced guard).
Qed.

(** What a successful open loads. The context carries the model and the
    sections the builder made of the file, every io buffer starts out zeroed,
    and the program id is either the driver's answer to a lookup of exactly
    this program's SHA-256 key, or its answer to a PROG_LOAD whose six
    arguments carry the section ids and sizes and point at buffers holding
    the section bytes, with one bind per io entry (scratch bound as an
    input). *)
Theorem m2_open_loads `{ArmSha2} `{AneKernelLaws} hw buf0 mem es eo guard ctx_mem f ports hdr s ctx hdr' s' :
  zlen buf0 = 64 -> bytes_ok buf0 -> bytes_ok f ->
  (forall ps, ports = Some ps -> Forall port_typed ps) ->
  (forall model secs, build_program mem es eo f ports = Ret (model, secs) ->
     program_fits guard model secs) ->
  bad_free s = false ->
  ane_m2_open guard hw buf0 mem es eo ctx_mem (Some f) ports hdr s = (Ret ctx, hdr', s') ->
  build_program mem es eo f ports = Ret (c_model ctx, c_secs ctx) /\
  (forall i io, m_io (c_model ctx) !! i = Some io -> exists bo m, io_bo ctx !! i = Some bo /\
     b_map bo = Some m /\ slice m 0 (io_size io) = replicate (Z.to_nat (io_size io)) 0) /\
  ((exists found k, found <> 0 /\
      (ioctl_prog_lookup (fips_sha256 (digest_key (c_secs ctx))) k).1 = Some (found, prog_id ctx)) \/
   (exists args binds k, (ioctl_prog_load args binds k).1 = Ret (prog_id ctx) /\
      Forall2 names_section (zip ane_m2_section_ids (section_list (c_secs ctx))) args /\
      Forall2 names_io (m_io (c_model ctx)) binds)).
Proof.
  intros Hb Hbo Hf Hp Hfit Hg Hopen.
  pose proof (open_cases hw buf0 mem es eo guard Hb Hbo ctx_mem f ports hdr s Hf Hp Hfit Hg) as Ho.
  rewrite Hopen in Ho. destruct Ho as (model & secs & Hbuild & [_ _ -> -> Hz Hld]).
  split; [done|]. split; [done|]. destruct Hld as [(d & found & k & Hd & Hne & Hlk)|Hld]; [left|by right].
  pose proof (digest_cases hw buf0 mem guard Hb Hbo model secs (Hfit _ _ Hbuild)) as Hdc.
  rewrite Hd in Hdc. subst d. by exists found, k.
Qed.

(** Transfers hit exactly one buffer. [ane_m2_send] overwrites the first
    [size] bytes of the [idx]-th input's buffer and nothing else, and refuses
    exactly the indices that name no input; [ane_m2_read] hands out the first
    [size] bytes of the [idx]-th output's buffer. *)
Theorem m2_transfer_exact guard ctx buf idx :
  ctx_ok guard ctx ->
  (ane_m2_src_size (Some ctx) idx <= zlen buf ->
   match ane_m2_send (Some ctx) buf idx with
   | Ret ctx' => exists i io bo m, nth_of_dir (m_io (c_model ctx)) 0 idx i io /\
       io_bo ctx !! i = Some bo /\ b_map bo = Some m /\
       io_bo ctx' = <[i := Bo (Some (patch m 0 (slice buf 0 (io_size io))))
                             (b_size bo) (b_handle bo) (b_offset bo)]> (io_bo ctx) /\
       c_model ctx' = c_model ctx
   | Fail e => e = EINVAL /\ forall i io, ~ nth_of_dir (m_io (c_model ctx)) 0 idx i io
   | Fault _ => False
   end) /\
  (ane_m2_dst_size (Some ctx) idx <= zlen buf ->
   match ane_m2_read (Some ctx) buf idx with
   | Ret to' => exists i io bo m, nth_of_dir (m_io (c_model ctx)) 1 idx i io /\
       io_bo ctx !! i = Some bo /\ b_map bo = Some m /\
       slice to' 0 (io_size io) = slice m 0 (io_size io) /\ zlen to' = zlen buf
   | Fail e => e = EINVAL /\ forall i io, ~ nth_of_dir (m_io (c_model ctx)) 1 idx i io
   | Fault _ => False
   end).
Proof.
  intros Hok. split; intros Hl.
  - pose proof (send_cases guard ctx buf idx Hok Hl) as Hs.
    destruct (ane_m2_send _ _ _) as [ctx'| |]; [|done|done].
    destruct Hs as (i & io & bo & m & Hn & Hb & Hm & -> & _). by exists i, io, bo, m.
  - pose proof (read_cases guard ctx buf idx Hok Hl) as Hr.
    pose proof (ctx_io_count guard ctx Hok) as Hc. unfold ANE_M2_MAX_BINDS in Hc.
    destruct (ane_m2_read _ _ _) as [to'| |]; [|done|done].
    destruct Hr as (i & io & bo & m & Hn & Hb & Hm & -> & Hsl). exists i, io, bo, m.
    assert (io_size io <= zlen buf).
    { apply (nth_io_spec ctx 1 idx i io) in Hn; [|lia].
      pose proof (m2_io_size_nth _ _ _ _ _ Hn). unfold ane_m2_dst_size in Hl. lia. }
    repeat (split; [done|]). split.
    + pose proof (slice_patch_same buf (slice m 0 (io_size io))) as Hsp. rewrite Hsl in Hsp.
      by apply Hsp.
    + pose proof (zlen_nonneg (slice m 0 (io_size io))). rewrite zlen_patch; lia.
Qed.

(** *** A concrete run *)

Definition demo_kernel : AneKernel := bump_kernel (fun _ bos => bos).

Lemma demo_kernel_laws : @AneKernelLaws demo_kernel.
Proof.
  apply bump_kernel_laws. intros _ bos. apply Forall_Forall2_diag, Forall_true, same_bo_refl.
Qed.

Definition demo_sys (budget : nat) : @sys demo_kernel := @Sys demo_kernel (Bump {[9]} budget) false.

Abbreviation demo_open budget :=
  (@ane_m2_open demo_kernel 0x100 arm_pseudocode false (replicate 64 0) (fun _ => true) None None true
    (Some demo_file) (Some demo_ports) [] (demo_sys budget)).

(** What the builder makes of the demo file, decided by evaluation. *)
Definition fits_bool (guard : Z) (r : res (ane_m2_model * ane_m2_sections)) : bool :=
  match r with
  | Ret (model, secs) =>
      bool_decide (0 <= guard /\
        Forall (fun b => bytes_ok b /\ zlen b + guard < 2 ^ 64) (section_list secs) /\
        8 * zlen (digest_key secs) < 2 ^ 64 /\
        Forall (fun io => 0 <= io_size io /\ io_size io + guard < 2 ^ 64) (m_io model) /\
        zlen (m_io model) <= ANE_M2_MAX_BINDS)
  | _ => true
  end.

Lemma fits_bool_sound guard r model secs :
  fits_bool guard r = true -> r = Ret (model, secs) -> program_fits guard model secs.
Proof. intros Hb ->. apply bool_decide_eq_true_1 in Hb as (? & ? & ? & ? & ?). by split. Qed.

Lemma demo_fits :
  fits_bool 0x100 (build_program (fun _ => true) None None demo_file (Some demo_ports)) = true.
Proof. vm_compute. reflexivity. Qed.

Lemma demo_ports_typed ps : Some demo_ports = Some ps -> Forall port_typed ps.
Proof. intros [= <-]. repeat constructor; done. Qed.

Definition is_open {A B C} (r : res A * B * C) : bool :=
  match r with (Ret _, _, _) => true | _ => false end.

(** Enough handles: the open succeeds, an exec runs, close balances. Three
    handles: the open fails half-way and gives them back. *)
Lemma m2_session_balanced_witness :
  (match demo_open 20 with
   | (Ret ctx, _, s') =>
       twp (foldM m2_step (ctx, s') [CallExec; CallExec]) (fun '(ctx', s'') =>
          let '(m2, s3) := ane_m2_close (Some ctx') s'' in
          m2 = None /\ live (kern s3) = {[9]} /\ bad_free s3 = false)
   | _ => False
   end) /\
  (match demo_open 3 with
   | (Fail _, _, s') => live (kern s') = {[9]} /\ bad_free s' = false
   | _ => False
   end).
Proof.
  assert (bytes_ok (replicate 64 0)) as Hb by vm_decide.
  assert (bytes_ok demo_file) as Hf by vm_decide.
  pose proof (fun n => @m2_session_balanced arm_pseudocode demo_kernel demo_kernel_laws false
    (replicate 64 0) (fun _ => true) None None 0x100 true demo_file (Some demo_ports) [] (demo_sys n)
    eq_refl Hb Hf demo_ports_typed (fun m s => fits_bool_sound _ _ m s demo_fits) eq_refl) as H.
  split.
  - specialize (H 20%nat).
    assert (is_open (demo_open 20) = true) as Ho by (vm_compute; reflexivity).
    destruct (demo_open 20) as [[[ctx|e|w] hdr] s']; [|done|done]. apply H. by repeat constructor.
  - specialize (H 3%nat).
    assert (is_open (demo_open 3) = false) as Ho by (vm_compute; reflexivity).
    destruct (demo_open 3) as [[[ctx|e|w] hdr] s']; [done|exact H|done].
Defined.

Lemma m2_open_loads_witness :
  exists ctx hdr s', demo_open 20 = (Ret ctx, hdr, s') /\
    build_program (fun _ => true) None None demo_file (Some demo_ports) = Ret (c_model ctx, c_secs ctx).
Proof.
  assert (bytes_ok (replicate 64 0)) as Hb by vm_decide.
  assert (bytes_ok demo_file) as Hf by vm_decide.
  assert (is_open (demo_open 20) = true) as Ho by (vm_compute; reflexivity).
  destruct (demo_open 20) as [[[ctx|e|w] hdr] s'] eqn:E; [|discriminate Ho|discriminate Ho].
  exists ctx, hdr, s'. split; [reflexivity|].
  exact (proj1 (@m2_open_loads arm_pseudocode demo_kernel demo_kernel_laws false
    (replicate 64 0) (fun _ => true) None None 0x100 true demo_file (Some demo_ports) [] (demo_sys 20)
    ctx hdr s' eq_refl Hb Hf demo_ports_typed (fun m s => fits_bool_sound _ _ m s demo_fits) eq_refl E)).
Defined.

(** An open context with one input and one output, and a guard of two. *)
Definition tiny_ctx : ane_m2_ctx :=
  Ctx (Model [Io 5 0 4; Io 4 1 4] 0 []) (Sections [] [] [] [] [] []) 7 8
    (replicate 6 bo0)
    ([Bo (Some [0; 0; 0; 0; 0; 0]) 6 1 0; Bo (Some [9; 8; 7; 6; 5; 4]) 6 2 0] ++ replicate 62 bo0).

Lemma tiny_ctx_ok : ctx_ok 2 tiny_ctx.
Proof.
  split; [done|repeat constructor|done| |].
  - intros [|[|i]] io Hi; simplify_eq/=; eexists _, _; repeat (split; [done|]);
      (split; [repeat constructor; unfold byte_ok; lia|]); unfold zlen; simpl; lia.
  - intros i bo Hi Hb. cbn [tiny_ctx io_bo c_model m_io length] in *.
    rewrite lookup_app_r in Hb; [|simpl; lia]. by apply lookup_replicate in Hb as [-> _].
Qed.

Lemma m2_transfer_exact_witness :
  ane_m2_send (Some tiny_ctx) [1; 2; 3; 4] 0 <> Fail EINVAL /\
  (match ane_m2_send (Some tiny_ctx) [1; 2; 3; 4] 1 with
   | Fail e => e = EINVAL
   | _ => False
   end) /\
  ane_m2_read (Some tiny_ctx) [0; 0; 0; 0; 1] 0 = Ret [9; 8; 7; 6; 1].
Proof.
  split; [vm_compute; discriminate|]. split; [|vm_compute; reflexivity].
  pose proof (proj1 (m2_transfer_exact 2 tiny_ctx [1; 2; 3; 4] 1 tiny_ctx_ok)) as H.
  assert (ane_m2_send (Some tiny_ctx) [1; 2; 3; 4] 1 = Fail EINVAL) as E by (vm_compute; reflexivity).
  rewrite E in H |- *. refine (proj1 (H _)). vm_compute. discriminate.
Defined.
