(* ===== verification/Ane.v ===== *)
(** * libane/ane.c: the library

    Device discovery, the M1 channel machinery (buffer objects, the direct
    and the staged load of a program), submission and the state-swapping
    loop, transfers, and the entry points that choose between the M1 and the
    T6021 back end. Timing and error messages are not modelled. *)

From S2P Require Import Prelude Accel Bind Tile Sha256 M2Walk M2Build M2Dev.

(** ** Sizes *)

Definition TILE_SHIFT_DEFAULT : Z := 0xE.
Definition TILE_ALIGN : Z := 0x4000.
Definition ANEC_HEADER_SIZE : Z := 0x1000.
Definition MAX_ANE_DEVICES : Z := 2.
Definition MAX_NODE_COUNT : Z := 64.

(** [((x) + TILE_ALIGN - 1) & -TILE_ALIGN] at 64 bits. *)
Definition tile_align (x : Z) : Z := Z.land (u64 (x + TILE_ALIGN - 1)) (u64 (- TILE_ALIGN)).

Record ane_nn := Nn {
  n_fd : Z;
  n_data : option bytes;
  n_anec : anec;
  n_chans : list ane_bo;
  n_btsp : ane_bo;
  n_bind : ane_bind;
  n_shift : Z;
  n_m2 : option ane_m2_ctx;
}.

Definition set_chans (nn : ane_nn) (chans : list ane_bo) (btsp : ane_bo) : ane_nn :=
  Nn (n_fd nn) (n_data nn) (n_anec nn) chans btsp (n_bind nn) (n_shift nn) (n_m2 nn).

Definition set_bind (nn : ane_nn) (b : ane_bind) : ane_nn :=
  Nn (n_fd nn) (n_data nn) (n_anec nn) (n_chans nn) (n_btsp nn) b (n_shift nn) (n_m2 nn).

Definition set_data (nn : ane_nn) (d : option bytes) : ane_nn :=
  Nn (n_fd nn) d (n_anec nn) (n_chans nn) (n_btsp nn) (n_bind nn) (n_shift nn) (n_m2 nn).

Definition set_anec (nn : ane_nn) (a : anec) : ane_nn :=
  Nn (n_fd nn) (n_data nn) a (n_chans nn) (n_btsp nn) (n_bind nn) (n_shift nn) (n_m2 nn).

Definition set_fd (nn : ane_nn) (fd : Z) : ane_nn :=
  Nn fd (n_data nn) (n_anec nn) (n_chans nn) (n_btsp nn) (n_bind nn) (n_shift nn) (n_m2 nn).

Definition set_m2 (nn : ane_nn) (m2 : option ane_m2_ctx) : ane_nn :=
  Nn (n_fd nn) (n_data nn) (n_anec nn) (n_chans nn) (n_btsp nn) (n_bind nn) (n_shift nn) m2.

(** [tiles[bdx] << tile_shift]; a channel past the array is out of bounds. *)
Definition tile_size (nn : ane_nn) (bdx : Z) : res Z :=
  match tiles (n_anec nn) !! Z.to_nat bdx with
  | Some t => Ret (u64 (Z.shiftl t (n_shift nn)))
  | None => Fault OutOfBounds
  end.

(** ** Device discovery *)

(** A node that [open] accepts: whether its two version ioctls succeed, and
    the driver behind it. *)
Record drm_node := Node { nd_v1 : bool; nd_v2 : bool; nd_name : bytes; nd_major : Z }.

(** "ane" *)
Definition ane_name : bytes := [97; 110; 101].

(** The string up to the first NUL. *)
Fixpoint c_string (s : bytes) : bytes :=
  match s with
  | [] => []
  | c :: s' => if c =? 0 then [] else c :: c_string s'
  end.

(** [mem] is [malloc]'s answer; the name buffer is written without a check. *)
Definition is_ane_device (mem : Z -> bool) (n : drm_node) : res Z :=
  guard_fail (negb (nd_v1 n)) EINVAL;;
  guard_fail (zlen (nd_name n) =? 0) EINVAL;;
  guard_fail (negb (nd_major n =? ANE_ABI_MAJOR) && negb (nd_major n =? ANE_ABI_M2_MAJOR)) EINVAL;;
  let name := mem (zlen (nd_name n) + 1) in
  guard_fail (negb (nd_v2 n)) EINVAL;;
  if name then
    guard_fail (negb (bool_decide (c_string (nd_name n) = ane_name))) EINVAL;;
    Ret (nd_major n)
  else Fault OutOfBounds.

(** The lowest descriptor that is not open. *)
Definition lowest_fd (fds : list Z) : Z :=
  default 0 (head (filter (fun fd => fd ∉ fds) (seqZ 0 (zlen fds + 1)))).

Definition close_fd (fd : Z) (fds : list Z) : list Z := filter (fun f => f <> fd) fds.

Section discovery.
Context (mem : Z -> bool) (nodes : Z -> option drm_node).

(** [open_fd]: the descriptor and the ABI, and the descriptors left open. *)
Definition open_fd (i : Z) (fds : list Z) : res (Z * Z) * list Z :=
  match nodes i with
  | None => (Fail ENODEV, fds)
  | Some n =>
      let fd := lowest_fd fds in
      let fds' := fd :: fds in
      match is_ane_device mem n with
      | Ret abi => (Ret (fd, abi), fds')
      | Fail _ => (Fail EINVAL, close_fd fd fds')
      | Fault w => (Fault w, fds')
      end
  end.

(** The node loop from [i], with [found] devices already passed over. *)
Fixpoint device_scan (fuel : nat) (i dev_id found : Z) (fds : list Z) : res (Z * Z) * list Z :=
  match fuel with
  | O => (Fail ENODEV, fds)
  | S fuel' =>
      match open_fd i fds with
      | (Fault w, fds') => (Fault w, fds')
      | (Fail _, fds') => device_scan fuel' (i + 1) dev_id found fds'
      | (Ret (fd, abi), fds') =>
          if dev_id =? found then (Ret (fd, abi), fds')
          else device_scan fuel' (i + 1) dev_id (found + 1) (close_fd fd fds')
      end
  end.

Definition device_open (dev_id : Z) (fds : list Z) : res (Z * Z) * list Z :=
  if (dev_id <? 0) || (dev_id >=? MAX_ANE_DEVICES) then (Fail EINVAL, fds)
  else device_scan (Z.to_nat MAX_NODE_COUNT) 0 dev_id 0 fds.

Definition ane_device_open (nn : ane_nn) (dev_id : Z) (fds : list Z)
    : res (ane_nn * Z) * list Z :=
  match device_open dev_id fds with
  | (Ret (fd, abi), fds) => (Ret (set_fd nn fd, abi), fds)
  | (Fail _, fds) => (Fail EINVAL, fds)
  | (Fault w, fds) => (Fault w, fds)
  end.
End discovery.

Definition device_close (fd : Z) (fds : list Z) : list Z :=
  if fd <? 0 then fds else close_fd fd fds.

Definition ane_device_close (nn : ane_nn) (fds : list Z) : ane_nn * list Z :=
  (set_fd nn 0, device_close (n_fd nn) fds).

(** ** Buffer objects and channels *)

Section channels.
Context `{AneKernel}.
Implicit Types (bo : ane_bo) (s : sys) (nn : ane_nn).

Definition bo_init (bo : ane_bo) (s : sys) : res unit * ane_bo * sys :=
  match ioctl_bo_init (b_size bo) (kern s) with
  | (None, k) => (Fail EINVAL, bo, with_kern s k)
  | (Some (handle, offset), k) => (Ret tt, Bo (b_map bo) (b_size bo) handle offset, with_kern s k)
  end.

Definition bo_free (bo : ane_bo) (s : sys) : ane_bo * sys :=
  (Bo (b_map bo) (b_size bo) 0 0, if b_handle bo =? 0 then s else sys_free (b_handle bo) s).

Definition bo_mmap (bo : ane_bo) (s : sys) : res unit * ane_bo * sys :=
  match mmap (b_size bo) (b_offset bo) (kern s) with
  | (None, k) => (Fail EINVAL, Bo None (b_size bo) (b_handle bo) (b_offset bo), with_kern s k)
  | (Some m, k) => (Ret tt, Bo (Some m) (b_size bo) (b_handle bo) (b_offset bo), with_kern s k)
  end.

Definition bo_munmap (bo : ane_bo) : ane_bo := Bo None (b_size bo) (b_handle bo) (b_offset bo).

Definition ane_bo_init (bo : ane_bo) (s : sys) : res unit * ane_bo * sys :=
  if b_size bo =? 0 then (Fail EINVAL, bo, s)
  else
    match bo_init bo s with
    | (Ret tt, bo, s) =>
        match bo_mmap bo s with
        | (Ret tt, bo, s) => (Ret tt, bo, s)
        | (r, bo, s) => let '(bo, s) := bo_free bo s in (r, bo, s)
        end
    | (r, bo, s) => (r, bo, s)
    end.

Definition ane_bo_free (bo : ane_bo) (s : sys) : ane_bo * sys := bo_free (bo_munmap bo) s.

Definition free_chan (st : list ane_bo * sys) (bdx : nat) : list ane_bo * sys :=
  let '(chans, s) := st in
  match chans !! bdx with
  | Some bo => let '(bo', s') := ane_bo_free bo s in (<[bdx := bo']> chans, s')
  | None => st
  end.

Definition ane_chan_free (nn : ane_nn) (s : sys) : ane_nn * sys :=
  let '(btsp, s) := ane_bo_free (n_btsp nn) s in
  let '(chans, s) := fold_left free_chan (seq 0 32) (n_chans nn, s) in
  (set_chans nn chans btsp, s).

(** The channel loop of [ane_chan_init]. *)
Fixpoint init_chans (bdxs : list nat) (nn : ane_nn) (s : sys) : res unit * ane_nn * sys :=
  match bdxs with
  | [] => (Ret tt, nn, s)
  | bdx :: rest =>
      if tile_of (n_anec nn) (Z.of_nat bdx) =? 0 then init_chans rest nn s
      else
        match n_chans nn !! bdx, tile_size nn (Z.of_nat bdx) with
        | Some bo, Ret size =>
            let '(r, bo, s) := ane_bo_init (Bo (b_map bo) size (b_handle bo) (b_offset bo)) s in
            let nn := set_chans nn (<[bdx := bo]> (n_chans nn)) (n_btsp nn) in
            match r with
            | Ret tt => init_chans rest nn s
            | r => (r, nn, s)
            end
        | _, _ => (Fault OutOfBounds, nn, s)
        end
  end.

End channels.

(** [set_nid(td, nid)] on the mapped bytes. *)
Definition set_nid (td : bytes) (nid : Z) : res bytes :=
  hdr0 ← le32 td 0;
  put_le32 td 0 (Z.lor (Z.land hdr0 0xf00ffff) (Z.shiftl (Z.land nid 0xff) 16)).

(** The bytes behind a channel's mapping; a NULL mapping faults. *)
Definition map_of (bo : ane_bo) : res bytes :=
  match b_map bo with Some m => Ret m | None => Fault OutOfBounds end.

Definition with_map (bo : ane_bo) (m : bytes) : ane_bo :=
  Bo (Some m) (b_size bo) (b_handle bo) (b_offset bo).

Definition chan (nn : ane_nn) (bdx : Z) : res ane_bo :=
  match n_chans nn !! Z.to_nat bdx with Some bo => Ret bo | None => Fault OutOfBounds end.

Definition set_chan (nn : ane_nn) (bdx : Z) (bo : ane_bo) : ane_nn :=
  set_chans nn (<[Z.to_nat bdx := bo]> (n_chans nn)) (n_btsp nn).

Definition set_btsp_and_command (nn : ane_nn) : res ane_nn :=
  let a := n_anec nn in
  c0 ← chan nn 0;
  m0 ← map_of c0;
  data ← (match n_data nn with Some d => Ret d | None => Fault OutOfBounds end);
  m0 ← memcpy m0 0 data 0 (size a);
  mb ← map_of (n_btsp nn);
  mb ← memcpy mb 0 data 0 (td_size a);
  mb ← set_nid mb ANE_FIFO_NID;
  Ret (set_chans nn (<[0%nat := with_map c0 m0]> (n_chans nn)) (with_map (n_btsp nn) mb)).

(** ** Files *)

(** [ane_fread(path, anec, sizeof(struct anec))] over the zeroed structure: a
    short file leaves the rest zero. [file] is the content behind the path. *)
Definition ane_fread_header (file : option bytes) : res bytes :=
  match file with
  | None => Fail EINVAL
  | Some f =>
      let have := Z.min sizeof_anec (zlen f) in
      memcpy (replicate (Z.to_nat sizeof_anec) 0) 0 f 0 have
  end.

(** [ane_pread(path, data, size, offset)]: the buffer and the bytes read. *)
Definition ane_pread (file : option bytes) (data : bytes) (size offset : Z) : res (bytes * Z) :=
  match file with
  | None => Fail EINVAL
  | Some f =>
      let done := Z.min size (Z.max 0 (zlen f - offset)) in
      if done =? 0 then Ret (data, 0)
      else data ← memcpy data 0 f offset done; Ret (data, done)
  end.

(** [mappable]: whether [open], [fstat] and [mmap] of the file succeed. *)
Definition ane_load_payload (file : option bytes) (mappable : bool) (dst : bytes) (size : Z)
    : res (bytes * Z) :=
  match file with
  | Some f =>
      if mappable && (zlen f >? ANEC_HEADER_SIZE) then
        let have := u64 (zlen f - ANEC_HEADER_SIZE) in
        let have := if have >? size then size else have in
        dst ← memcpy dst 0 f ANEC_HEADER_SIZE have;
        Ret (dst, have)
      else ane_pread file dst size ANEC_HEADER_SIZE
  | None => ane_pread file dst size ANEC_HEADER_SIZE
  end.

(** ** Loading a program *)

Section load.
Context (strict_bind : bool) (file : option bytes) (mappable : bool).
(** [posix_memalign]: a buffer of the size with its stale contents. *)
Context (memalign : Z -> option bytes).

(** Bind and check the task stream; both loads run this on the payload. *)
Definition bind_check (nn : ane_nn) (stream : bytes) : res ane_nn :=
  let a := n_anec nn in
  '(derived, b) ← ane_bind_init a stream (size a);
  let nn := set_bind nn b in
  guard_fail ((derived =? 0) && strict_bind) EINVAL;;
  over ← ane_bind_overrun a stream (size a) (n_shift nn);
  match over with
  | Some _ => Fail EINVAL
  | None => Ret nn
  end.

Definition ane_place_program (nn : ane_nn) : res ane_nn :=
  let a := n_anec nn in
  c0 ← chan nn 0;
  m0 ← map_of c0;
  '(m0, got) ← ane_load_payload file mappable m0 (size a);
  m0 ← memset m0 got 0 (u64 (size a - got));
  nn ← bind_check (set_chan nn 0 (with_map c0 m0)) m0;
  mb ← map_of (n_btsp nn);
  mb ← memcpy mb 0 m0 0 (td_size a);
  mb ← set_nid mb ANE_FIFO_NID;
  Ret (set_chans nn (n_chans nn) (with_map (n_btsp nn) mb)).

(** On an error the library frees [nn->data] and discards [nn]. *)
Definition ane_model_init (nn : ane_nn) (staged : bool) : res ane_nn :=
  hdr ← ane_fread_header file;
  a ← anec_decode hdr;
  let nn := set_anec nn a in
  guard_fail (size a =? 0) EINVAL;;
  if negb staged then Ret nn
  else
    match memalign (size a) with
    | None => Fail ENOMEM
    | Some data =>
        '(data, got) ← ane_pread file data (size a) ANEC_HEADER_SIZE;
        data ← memset data got 0 (u64 (size a - got));
        bind_check (set_data nn (Some data)) data
    end.

Section chan_init.
Context `{AneKernel}.

(** The tile channels, then the bootstrap channel. *)
Definition alloc_chans (nn : ane_nn) (s : sys) : res unit * ane_nn * sys :=
  match init_chans (seq 0 32) nn s with
  | (Ret tt, nn, s) =>
      let b := n_btsp nn in
      let '(r, btsp, s) :=
        ane_bo_init (Bo (b_map b) (tile_align (td_size (n_anec nn))) (b_handle b) (b_offset b)) s in
      (r, set_chans nn (n_chans nn) btsp, s)
  | (r, nn, s) => (r, nn, s)
  end.

Definition ane_chan_init (nn : ane_nn) (staged : bool) (s : sys) : res unit * ane_nn * sys :=
  match alloc_chans nn s with
  | (Fault w, nn, s) => (Fault w, nn, s)
  | (Fail e, nn, s) => let '(nn, s) := ane_chan_free nn s in (Fail e, nn, s)
  | (Ret tt, nn, s) =>
      if negb staged then
        match ane_place_program nn with
        | Ret nn => (Ret tt, nn, s)
        | Fail e => let '(nn, s) := ane_chan_free nn s in (Fail e, nn, s)
        | Fault w => (Fault w, nn, s)
        end
      else
        match set_btsp_and_command nn with
        | Ret nn => (Ret tt, nn, s)
        | Fail e => (Fail e, nn, s)
        | Fault w => (Fault w, nn, s)
        end
  end.
End chan_init.
End load.

(** ** Opening and freeing a network *)

(** [env] is [getenv("ANE_LOAD_STAGED")]. *)
Definition load_staged (env : option bytes) : bool :=
  match env with
  | None | Some [] => false
  | Some v => negb (bool_decide (c_string v = [48]))
  end.

(** A zeroed [struct ane_nn] with its tile shift. *)
Definition anec0 : anec := Anec 0 0 0 0 0 0 0 (replicate 32 0) (replicate 32 (replicate 6 0)).

Definition nn0 (tile_shift : Z) : ane_nn :=
  Nn 0 None anec0 (replicate 32 bo0) bo0 (AneBind (replicate 32 0) (replicate 32 0)) tile_shift None.

Section init.
Context `{ArmSha2} `{AneKernel}.
Context (hw : bool) (buf0 : bytes) (guard : Z).
Context (mem : Z -> bool) (memalign : Z -> option bytes) (nn_mem ctx_mem : bool).
Context (es eo : option (list Z)) (env_staged : option bytes) (strict_bind : bool).
Context (nodes : Z -> option drm_node) (file : option bytes) (mappable : bool).

(** The M1 half: [Fail] stands for every NULL return. *)
Definition init_m1 (nn : ane_nn) (staged : bool) (fds : list Z) (s : sys)
    : res ane_nn * list Z * sys :=
  match ane_model_init strict_bind file memalign nn staged with
  | Fault w => (Fault w, fds, s)
  | Fail e => let '(_, fds) := ane_device_close nn fds in (Fail e, fds, s)
  | Ret nn =>
      match ane_chan_init strict_bind file mappable nn staged s with
      | (Ret tt, nn, s) => (Ret nn, fds, s)
      | (Fail e, nn, s) => let '(_, fds) := ane_device_close nn fds in (Fail e, fds, s)
      | (Fault w, nn, s) => (Fault w, fds, s)
      end
  end.

(** The T6021 half; [nn->anec] takes the header when the file has one. *)
Definition init_m2 (nn : ane_nn) (ports : option (list ane_m2_port_spec)) (fds : list Z) (s : sys)
    : res ane_nn * list Z * sys :=
  match ane_m2_open guard hw buf0 mem es eo ctx_mem file ports
          (replicate (Z.to_nat sizeof_anec) 0) s with
  | (Ret ctx, hdr, s) =>
      match anec_decode hdr with
      | Ret a => (Ret (set_m2 (set_anec nn a) (Some ctx)), fds, s)
      | Fail e => (Fail e, fds, s)
      | Fault w => (Fault w, fds, s)
      end
  | (Fail e, _, s) => let '(_, fds) := ane_device_close nn fds in (Fail e, fds, s)
  | (Fault w, _, s) => (Fault w, fds, s)
  end.

Definition ane_init_common (dev_id tile_shift : Z) (ports : option (list ane_m2_port_spec))
    (fds : list Z) (s : sys) : res ane_nn * list Z * sys :=
  let staged := load_staged env_staged in
  if (tile_shift =? 0) || (tile_shift >? 20) then (Fail EINVAL, fds, s)
  else if negb nn_mem then (Fail ENOMEM, fds, s)
  else
    match ane_device_open mem nodes (nn0 tile_shift) dev_id fds with
    | (Fault w, fds) => (Fault w, fds, s)
    | (Fail e, fds) => (Fail e, fds, s)
    | (Ret (nn, abi_major), fds) =>
        if abi_major =? ANE_ABI_M2_MAJOR then init_m2 nn ports fds s
        else
          match ports with
          | Some _ => let '(_, fds) := ane_device_close nn fds in (Fail EINVAL, fds, s)
          | None => init_m1 nn staged fds s
          end
    end.

Definition __ane_init_shift (dev_id tile_shift : Z) := ane_init_common dev_id tile_shift None.
Definition ane_m2_init_ports (ports : option (list ane_m2_port_spec)) (dev_id : Z) :=
  ane_init_common dev_id TILE_SHIFT_DEFAULT ports.
Definition __ane_init (dev_id : Z) := __ane_init_shift dev_id TILE_SHIFT_DEFAULT.

Definition __ane_free (nn : ane_nn) (fds : list Z) (s : sys) : list Z * sys :=
  let '(nn, s) :=
    match n_m2 nn with
    | Some _ => let '(m2, s) := ane_m2_close (n_m2 nn) s in (set_m2 nn m2, s)
    | None => ane_chan_free nn s
    end in
  let '(_, fds) := ane_device_close nn fds in
  (fds, s).
End init.

(** ** Execution *)

(** A role's channel: [(nn)->bind.src[idx]]. *)
Definition src_bdx (nn : ane_nn) (idx : Z) : res Z :=
  match b_src (n_bind nn) !! Z.to_nat idx with Some b => Ret b | None => Fault OutOfBounds end.

Definition dst_bdx (nn : ane_nn) (idx : Z) : res Z :=
  match b_dst (n_bind nn) !! Z.to_nat idx with Some b => Ret b | None => Fault OutOfBounds end.

(** The handles of a submission: the allocated channels, zero elsewhere. *)
Definition submit_handles (nn : ane_nn) : list Z :=
  imap (fun bdx bo => if tile_of (n_anec nn) (Z.of_nat bdx) =? 0 then 0 else b_handle bo)
    (n_chans nn).

(** [handles[src]] and [handles[dst]] exchanged. *)
Definition swap_handles (hs : list Z) (src dst : Z) : res (list Z) :=
  match hs !! Z.to_nat src, hs !! Z.to_nat dst with
  | Some hsrc, Some hdst => Ret (<[Z.to_nat dst := hsrc]> (<[Z.to_nat src := hdst]> hs))
  | _, _ => Fault OutOfBounds
  end.

Definition submit_args (nn : ane_nn) (swap_state : bool) (state_src_idx state_dst_idx : Z)
    : res drm_ane_submit :=
  let a := n_anec nn in
  let handles := submit_handles nn in
  handles ←
    (if swap_state then
       src ← src_bdx nn state_src_idx;
       dst ← dst_bdx nn state_dst_idx;
       swap_handles handles src dst
     else Ret handles);
  Ret (Submit (tsk_size a) (td_count a) (td_size a) handles (b_handle (n_btsp nn))).

Section exec.
Context `{AneKernel}.

(** The submitted buffers are the bootstrap channel and the tile channels. *)
Definition ane_exec_with_state_swap (nn : ane_nn) (swap_state : bool)
    (state_src_idx state_dst_idx : Z) (s : sys) : res Z * ane_nn * sys :=
  match submit_args nn swap_state state_src_idx state_dst_idx with
  | Ret args =>
      let '(ret, bos, k) := ioctl_submit args (n_btsp nn :: n_chans nn) (kern s) in
      let nn := match bos with btsp :: chans => set_chans nn chans btsp | [] => nn end in
      (Ret ret, nn, with_kern s k)
  | Fail e => (Fail e, nn, s)
  | Fault w => (Fault w, nn, s)
  end.

Definition ane_exec (nn : ane_nn) (s : sys) : res Z * ane_nn * sys :=
  match n_m2 nn with
  | Some _ =>
      let '(r, m2, s) := ane_m2_exec (n_m2 nn) s in
      (r ≫= (fun _ => Ret 0), set_m2 nn m2, s)
  | None => ane_exec_with_state_swap nn false 0 0 s
  end.

(** The [for] loop from [iteration], [n] iterations to go; a negative
    [ret] of the ioctl is passed on. *)
Fixpoint exec_iterations (n : nat) (iteration : Z) (nn : ane_nn) (src_idx dst_idx : Z) (s : sys)
    : res Z * ane_nn * sys :=
  match n with
  | O => (Ret 0, nn, s)
  | S n' =>
      match ane_exec_with_state_swap nn (Z.odd iteration) src_idx dst_idx s with
      | (Ret ret, nn, s) =>
          if ret <? 0 then (Ret ret, nn, s)
          else exec_iterations n' (iteration + 1) nn src_idx dst_idx s
      | (r, nn, s) => (r, nn, s)
      end
  end.
End exec.

(** *** Sizes and transfers

    [INDEX_CHECK] is compiled in (the default configuration). *)

Definition ane_src_size (nn : ane_nn) (idx : Z) : res Z :=
  match n_m2 nn with
  | Some _ => Ret (ane_m2_src_size (n_m2 nn) idx)
  | None =>
      if idx >=? src_count (n_anec nn) then Ret 0
      else bdx ← src_bdx nn idx; tile_size nn bdx
  end.

Definition ane_dst_size (nn : ane_nn) (idx : Z) : res Z :=
  match n_m2 nn with
  | Some _ => Ret (ane_m2_dst_size (n_m2 nn) idx)
  | None =>
      if idx >=? dst_count (n_anec nn) then Ret 0
      else bdx ← dst_bdx nn idx; tile_size nn bdx
  end.

Definition ane_exec_loop `{AneKernel} (nn : ane_nn) (iterations src_idx dst_idx : Z) (s : sys)
    : res Z * ane_nn * sys :=
  let check :=
    guard_fail (if n_m2 nn then true else false) EOPNOTSUPP;;
    guard_fail ((iterations =? 0) || (src_idx >=? src_count (n_anec nn)) ||
                (dst_idx >=? dst_count (n_anec nn))) EINVAL;;
    ssz ← ane_src_size nn src_idx;
    dsz ← ane_dst_size nn dst_idx;
    guard_fail (negb (ssz =? dsz)) EINVAL in
  match check with
  | Ret _ => exec_iterations (Z.to_nat iterations) 0 nn src_idx dst_idx s
  | Fail e => (Fail e, nn, s)
  | Fault w => (Fault w, nn, s)
  end.

(** [(anec->tsk_size + 15) & ~15ULL]. *)
Definition kernel_offset (nn : ane_nn) : Z :=
  Z.land (u64 (tsk_size (n_anec nn) + 15)) (u64 (Z.lnot 15)).

Definition ane_kernel_capacity (nn : ane_nn) : res Z :=
  c0 ← chan nn 0;
  Ret (if kernel_offset nn <=? b_size c0 then b_size c0 - kernel_offset nn else 0).

(** [from = None] is a NULL pointer. *)
Definition ane_bind_kernel (nn : ane_nn) (from : option bytes) (size : Z) : res ane_nn :=
  capacity ← ane_kernel_capacity nn;
  c0 ← chan nn 0;
  match from with
  | None => Fail EINVAL
  | Some from =>
      guard_fail ((size >? capacity) || (u64 (kernel_offset nn + size) >? b_size c0)) EINVAL;;
      m ← map_of c0;
      m ← memcpy m (kernel_offset nn) from 0 size;
      Ret (set_chan nn 0 (with_map c0 m))
  end.

Definition __ane_send (nn : ane_nn) (from : bytes) (idx : Z) : res ane_nn :=
  match n_m2 nn with
  | Some _ =>
      match ane_m2_send (n_m2 nn) from idx with
      | Ret ctx => Ret (set_m2 nn (Some ctx))
      | Fail _ => Ret nn
      | Fault w => Fault w
      end
  | None =>
      if idx >=? src_count (n_anec nn) then Ret nn
      else
        bdx ← src_bdx nn idx;
        c ← chan nn bdx;
        m ← map_of c;
        sz ← tile_size nn bdx;
        m ← memcpy m 0 from 0 sz;
        Ret (set_chan nn bdx (with_map c m))
  end.

(** Returns the caller's buffer. *)
Definition __ane_read (nn : ane_nn) (to : bytes) (idx : Z) : res bytes :=
  match n_m2 nn with
  | Some _ =>
      match ane_m2_read (n_m2 nn) to idx with
      | Fail _ => Ret to
      | r => r
      end
  | None =>
      if idx >=? dst_count (n_anec nn) then Ret to
      else
        bdx ← dst_bdx nn idx;
        c ← chan nn bdx;
        m ← map_of c;
        sz ← tile_size nn bdx;
        memcpy to 0 m 0 sz
  end.

(** *** Tiled transfers *)

Definition geometry_of (nn : ane_nn) (bdx : Z) : res (Z * Z * Z * Z * Z * Z) :=
  match nchw (n_anec nn) !! Z.to_nat bdx with
  | Some [n; c; h; w; p; r] => Ret (n, c, h, w, p, r)
  | _ => Fault OutOfBounds
  end.

Definition ane_set_oracle_nchw (nn : ane_nn) (ch : Z) (geometry : list Z) : ane_nn :=
  if ch >=? TILE_COUNT then nn
  else
    let a := n_anec nn in
    set_anec nn (Anec (size a) (td_size a) (td_count a) (tsk_size a) (krn_size a) (src_count a)
                   (dst_count a) (tiles a) (<[Z.to_nat ch := take 6 geometry]> (nchw a))).

Definition tile_fits (nn : ane_nn) (bdx : Z) : res bool :=
  '(n, c, h, w, p, r) ← geometry_of nn bdx;
  span ← ane_bind_tile_span n c h w p r;
  bo ← chan nn bdx;
  Ret (span <=? b_size bo).

Definition __ane_tile_send (nn : ane_nn) (from : bytes) (idx : Z) : res ane_nn :=
  guard_fail (idx >=? src_count (n_anec nn)) EINVAL;;
  bdx ← src_bdx nn idx;
  fits ← tile_fits nn bdx;
  guard_fail (negb fits) EINVAL;;
  '(n, c, h, w, p, r) ← geometry_of nn bdx;
  bo ← chan nn bdx;
  m ← map_of bo;
  m ← ane_tile from m n c h w p r;
  Ret (set_chan nn bdx (with_map bo m)).

(** Returns the caller's buffer. *)
Definition __ane_tile_read (nn : ane_nn) (to : bytes) (idx : Z) : res bytes :=
  guard_fail (idx >=? dst_count (n_anec nn)) EINVAL;;
  bdx ← dst_bdx nn idx;
  fits ← tile_fits nn bdx;
  guard_fail (negb fits) EINVAL;;
  '(n, c, h, w, p, r) ← geometry_of nn bdx;
  bo ← chan nn bdx;
  m ← map_of bo;
  ane_untile to m n c h w p r.

(** ** Discovery finds the [dev_id]-th ANE node *)

Lemma lowest_fd_fresh fds : lowest_fd fds ∉ fds /\ 0 <= lowest_fd fds.
Proof.
  unfold lowest_fd. destruct (filter _ _) as [|fd l] eqn:E; cbn [head default].
  - exfalso. assert (seqZ 0 (zlen fds + 1) ⊆+ fds) as Hs.
    { apply NoDup_submseteq; [apply NoDup_seqZ|]. intros x Hx.
      destruct (decide (x ∈ fds)) as [|Hn]; [done|].
      assert (x ∈ filter (fun fd => fd ∉ fds) (seqZ 0 (zlen fds + 1))) as Hf
        by (by apply list_elem_of_filter).
      rewrite E in Hf. by apply not_elem_of_nil in Hf. }
    apply submseteq_length in Hs. rewrite length_seqZ in Hs. unfold zlen in Hs. lia.
  - assert (fd ∈ filter (fun fd => fd ∉ fds) (seqZ 0 (zlen fds + 1))) as Hf by (rewrite E; left).
    apply list_elem_of_filter in Hf as [Hf Hr]. apply elem_of_seqZ in Hr. split; [done|]. simpl. lia.
Qed.

Lemma close_fresh fds : close_fd (lowest_fd fds) (lowest_fd fds :: fds) = fds.
Proof.
  destruct (lowest_fd_fresh fds) as [Hf _]. unfold close_fd.
  rewrite filter_cons_False; [|by intros Hn; apply Hn]. generalize dependent (lowest_fd fds).
  intros fd Hf. induction fds as [|x fds IH]; [done|].
  apply not_elem_of_cons in Hf as [Hx Hf]. rewrite filter_cons_True; [|by apply not_eq_sym].
  by rewrite IH.
Qed.

(** The specification of [is_ane_device]. *)
Definition ane_node (n : drm_node) : Prop :=
  nd_v1 n = true /\ nd_v2 n = true /\ c_string (nd_name n) = ane_name /\
  (nd_major n = ANE_ABI_MAJOR \/ nd_major n = ANE_ABI_M2_MAJOR).

#[global] Instance ane_node_dec n : Decision (ane_node n).
Proof. unfold ane_node. apply _. Defined.

Lemma is_ane_device_spec mem n :
  mem (zlen (nd_name n) + 1) = true ->
  is_ane_device mem n = if bool_decide (ane_node n) then Ret (nd_major n) else Fail EINVAL.
Proof.
  intros Hm. unfold is_ane_device, guard_fail. rewrite Hm.
  destruct (nd_v1 n) eqn:E1; cbn [negb mbind res_bind].
  2:{ rewrite bool_decide_eq_false_2; [done|]. by intros (? & _); congruence. }
  destruct (zlen (nd_name n) =? 0) eqn:E2; cbn [mbind res_bind].
  { rewrite bool_decide_eq_false_2; [done|]. intros (_ & _ & Hn & _).
    destruct (nd_name n) as [|c l]; [done|]. unfold zlen in E2. simpl length in E2. lia. }
  destruct (negb _ && negb _) eqn:E3; cbn [mbind res_bind].
  { rewrite bool_decide_eq_false_2; [done|]. intros (_ & _ & _ & Hn). lia. }
  destruct (nd_v2 n) eqn:E4; cbn [negb mbind res_bind].
  2:{ rewrite bool_decide_eq_false_2; [done|]. by intros (_ & ? & _); congruence. }
  case_bool_decide as E5; cbn [negb mbind res_bind].
  - rewrite bool_decide_eq_true_2; [done|]. split; [done|]. split; [done|]. split; [done|].
    destruct (nd_major n =? ANE_ABI_MAJOR) eqn:?; [left|right]; unfold ANE_ABI_MAJOR, ANE_ABI_M2_MAJOR in *; lia.
  - rewrite bool_decide_eq_false_2; [done|]. by intros (_ & _ & ? & _).
Qed.

(** The ANE nodes from [i] on, in order, with their ABI. *)
Definition ane_nodes (nodes : Z -> option drm_node) (idxs : list Z) : list (Z * Z) :=
  omap (fun i => n ← nodes i; if bool_decide (ane_node n) then Some (i, nd_major n) else None) idxs.

(** [malloc] of every driver's name succeeds. *)
Definition names_fit (mem : Z -> bool) (nodes : Z -> option drm_node) : Prop :=
  forall i n, nodes i = Some n -> mem (zlen (nd_name n) + 1) = true.

Lemma device_scan_spec mem nodes fuel i dev_id found fds :
  names_fit mem nodes -> 0 <= found <= dev_id ->
  device_scan mem nodes fuel i dev_id found fds =
  match ane_nodes nodes (seqZ i (Z.of_nat fuel)) !! Z.to_nat (dev_id - found) with
  | Some (_, abi) => (Ret (lowest_fd fds, abi), lowest_fd fds :: fds)
  | None => (Fail ENODEV, fds)
  end.
Proof.
  intros Hm. revert i found fds. induction fuel as [|fuel IH]; intros i found fds Hf; [done|].
  rewrite seqZ_cons; [|lia]. replace (Z.succ i) with (i + 1) by lia.
  replace (Z.pred (Z.of_nat (S fuel))) with (Z.of_nat fuel) by lia.
  cbn [device_scan]. unfold open_fd. unfold ane_nodes at 1. cbn [omap list_omap].
  fold (ane_nodes nodes (seqZ (i + 1) (Z.of_nat fuel))).
  destruct (nodes i) as [n|] eqn:En; cbn [mbind option_bind]; [|by apply IH].
  rewrite (is_ane_device_spec mem n (Hm i n En)). destruct (bool_decide (ane_node n)).
  - destruct (dev_id =? found) eqn:E.
    + replace (Z.to_nat (dev_id - found)) with 0%nat by lia. done.
    + rewrite close_fresh IH; [|lia].
      by replace (Z.to_nat (dev_id - found)) with (S (Z.to_nat (dev_id - (found + 1)))) by lia.
  - rewrite close_fresh. by apply IH.
Qed.

Lemma device_open_spec mem nodes dev_id fds :
  names_fit mem nodes ->
  device_open mem nodes dev_id fds =
  if bool_decide (0 <= dev_id < 2) then
    match ane_nodes nodes (seqZ 0 64) !! Z.to_nat dev_id with
    | Some (_, abi) => (Ret (lowest_fd fds, abi), lowest_fd fds :: fds)
    | None => (Fail ENODEV, fds)
    end
  else (Fail EINVAL, fds).
Proof.
  intros Hm. unfold device_open, MAX_ANE_DEVICES. case_bool_decide as Hd.
  - destruct ((dev_id <? 0) || (dev_id >=? 2)) eqn:E; [lia|].
    rewrite device_scan_spec //; [|lia]. by rewrite Z.sub_0_r.
  - by destruct ((dev_id <? 0) || (dev_id >=? 2)) eqn:E; [|lia].
Qed.

(** Device discovery. [device_open] returns a descriptor of the
    [dev_id]-th node among [/dev/accel/accel0..63] whose driver is "ane" with
    ABI 1 or 2, and its ABI; every other descriptor it opened on the way is
    closed again, whatever the nodes answer. *)
Theorem device_open_exact mem nodes dev_id fds :
  names_fit mem nodes ->
  device_open mem nodes dev_id fds =
  if bool_decide (0 <= dev_id < 2) then
    match ane_nodes nodes (seqZ 0 64) !! Z.to_nat dev_id with
    | Some (_, abi) => (Ret (lowest_fd fds, abi), lowest_fd fds :: fds)
    | None => (Fail ENODEV, fds)
    end
  else (Fail EINVAL, fds).
Proof. apply device_open_spec. Qed.

(** A GPU on node 0, an ANE on nodes 1 and 4: device 1 is node 4. *)
Lemma device_open_exact_witness :
  device_open (fun _ => true) (fun i =>
      if i =? 0 then Some (Node true true [103; 112; 117] 1)
      else if (i =? 1) || (i =? 4) then Some (Node true true ane_name (if i =? 1 then 1 else 2))
      else None) 1 [0; 1; 2; 4] = (Ret (3, 2), [3; 0; 1; 2; 4]).
Proof. rewrite (device_open_exact (fun _ => true)); [vm_compute; reflexivity|done]. Defined.

(** ** Ownership of the channels *)

(** The bootstrap channel and the tile channels. *)
Definition nn_bos (nn : ane_nn) : list ane_bo := n_btsp nn :: n_chans nn.

(** An allocated buffer object: mapped over exactly its size. *)
Definition mapped (bo : ane_bo) (size : Z) : Prop :=
  size <> 0 /\ exists m, b_map bo = Some m /\ zlen m = size /\ bytes_ok m /\ b_size bo = size /\ b_handle bo <> 0.

(** The channels a header asks for are there, the others are empty. *)
Record chans_ok (nn : ane_nn) : Prop := {
  chans_len : length (n_chans nn) = 32%nat;
  chans_used : forall bdx bo, n_chans nn !! bdx = Some bo -> tile_of (n_anec nn) (Z.of_nat bdx) <> 0 ->
    mapped bo (tile_of (n_anec nn) (Z.of_nat bdx) * 2 ^ n_shift nn);
  chans_unused : forall bdx bo, n_chans nn !! bdx = Some bo ->
    tile_of (n_anec nn) (Z.of_nat bdx) = 0 -> b_handle bo = 0;
}.

Section own.
Context `{AneKernelLaws}.
Implicit Types (nn : ane_nn) (s : sys) (base : gset Z) (L : list ane_bo).

Lemma ane_bo_init_spec L i bo size base s :
  owns L base s -> L !! i = Some bo -> b_handle bo = 0 -> 0 <= size ->
  match ane_bo_init (Bo (b_map bo) size (b_handle bo) (b_offset bo)) s with
  | (Ret tt, bo', s') => owns (<[i := bo']> L) base s' /\ mapped bo' size
  | (Fail _, bo', s') => owns (<[i := bo']> L) base s' /\ b_handle bo' = 0
  | (Fault _, _, _) => False
  end.
Proof.
  intros Ho Hi Hz Hs. unfold ane_bo_init, bo_init, bo_mmap, bo_free. cbn [b_size b_map b_handle b_offset].
  destruct (size =? 0) eqn:E0; [by split; [eapply owns_keep|]|].
  destruct (ioctl_bo_init size (kern s)) as [[[h off]|] k] eqn:Ek.
  - pose proof (mmap_live k size off) as Hml. pose proof (bo_init_live _ _ _ _ _ Ek) as (Hh & _ & _).
    cbn [b_size b_map b_handle b_offset kern with_kern].
    destruct (mmap size off k) as [[m|] k2] eqn:Em.
    + apply mmap_len in Em as [Hm Hmo]; [|done]. split; [|split; [lia|by exists m]].
      apply (owns_live_eq _ _ (with_kern s k)); [exact Hml|]. by eapply owns_alloc.
    + assert (owns (<[i := Bo None size h off]> L) base (with_kern (with_kern s k) k2)) as Ha.
      { apply owns_live_eq; [exact Hml|]. by eapply owns_alloc. }
      cbn [b_map b_size b_handle b_offset]. destruct (h =? 0) eqn:E; [lia|].
      eapply (owns_free _ _ _ i _ (Bo None size 0 0)) in Ha;
        [|by apply list_lookup_insert_eq, (lookup_lt_Some _ _ _ Hi)|done|done].
      rewrite list_insert_insert_eq in Ha. by split.
  - apply bo_init_fail in Ek. split; [|done]. apply owns_live_eq; [done|]. by eapply owns_keep.
Qed.

Lemma tile_size_eq nn bdx :
  anec_ok (n_anec nn) -> 1 <= n_shift nn <= 20 -> 0 <= bdx < 32 ->
  tile_size nn bdx = Ret (tile_of (n_anec nn) bdx * 2 ^ n_shift nn) /\
  0 <= tile_of (n_anec nn) bdx * 2 ^ n_shift nn < 2 ^ 52.
Proof.
  intros Ha Hs Hb. unfold tile_size, tile_of.
  destruct (lookup_lt_is_Some_2 (tiles (n_anec nn)) (Z.to_nat bdx)) as [t Ht].
  { rewrite (ok_tiles _ Ha). lia. }
  rewrite Ht. cbn [default]. pose proof (ok_tiles_range _ Ha) as Hr. rewrite Forall_lookup in Hr.
  specialize (Hr _ _ Ht). unfold in_range in Hr.
  assert (2 ^ n_shift nn <= 2 ^ 20) by (apply Z.pow_le_mono_r; lia).
  assert (0 < 2 ^ n_shift nn) by lia. assert (0 <= t * 2 ^ n_shift nn < 2 ^ 52).
  { split; [lia|]. change (2 ^ 52) with (2 ^ 32 * 2 ^ 20). simpl. nia. }
  rewrite Z.shiftl_mul_pow2; [|lia]. split; [|done]. rewrite wrap_small; [done|]. lia.
Qed.

(** The channel loop fills the slots of [bdxs] and touches no other. *)
Definition same_header nn nn' : Prop :=
  n_fd nn' = n_fd nn /\ n_data nn' = n_data nn /\ n_anec nn' = n_anec nn /\
  n_bind nn' = n_bind nn /\ n_shift nn' = n_shift nn /\ n_m2 nn' = n_m2 nn.

Lemma init_chans_spec bdxs nn base s :
  owns (nn_bos nn) base s -> anec_ok (n_anec nn) -> 1 <= n_shift nn <= 20 ->
  length (n_chans nn) = 32%nat -> NoDup bdxs ->
  Forall (fun bdx => (bdx < 32)%nat /\ forall bo, n_chans nn !! bdx = Some bo -> b_handle bo = 0) bdxs ->
  match init_chans bdxs nn s with
  | (r, nn', s') =>
      owns (nn_bos nn') base s' /\ same_header nn nn' /\ n_btsp nn' = n_btsp nn /\
      length (n_chans nn') = 32%nat /\
      (forall bdx, bdx ∉ bdxs -> n_chans nn' !! bdx = n_chans nn !! bdx) /\
      match r with
      | Ret tt => forall bdx bo, bdx ∈ bdxs -> n_chans nn' !! bdx = Some bo ->
          (tile_of (n_anec nn) (Z.of_nat bdx) <> 0 ->
           mapped bo (tile_of (n_anec nn) (Z.of_nat bdx) * 2 ^ n_shift nn)) /\
          (tile_of (n_anec nn) (Z.of_nat bdx) = 0 -> b_handle bo = 0)
      | Fail _ => True
      | Fault _ => False
      end
  end.
Proof.
  revert nn s. induction bdxs as [|bdx rest IH]; intros nn s Ho Ha Hs Hl Hnd Hall.
  { cbn [init_chans]. repeat (split; [done|]). by intros ? ? ?%not_elem_of_nil. }
  apply NoDup_cons in Hnd as [Hni Hnd]. apply Forall_cons in Hall as [[Hb Hz] Hall]. cbn [init_chans].
  destruct (tile_of (n_anec nn) (Z.of_nat bdx) =? 0) eqn:Et.
  { specialize (IH nn s Ho Ha Hs Hl Hnd Hall). destruct (init_chans rest nn s) as [[r nn'] s'].
    destruct IH as (Ho' & Hh & Hb' & Hl' & Hu & Hr). repeat (split; [done|]). split.
    - intros j Hj. apply Hu. set_solver.
    - destruct r as [[]| |]; [|done|done]. intros j bo Hj Hbo.
      apply elem_of_cons in Hj as [->|Hj]; [|by apply Hr]. split; [lia|]. intros _. apply Hz.
      by rewrite Hu in Hbo. }
  destruct (lookup_lt_is_Some_2 (n_chans nn) bdx) as [bo Hbo]; [lia|]. rewrite Hbo.
  destruct (tile_size_eq nn (Z.of_nat bdx) Ha Hs) as [-> Hsz]; [lia|].
  pose proof (ane_bo_init_spec (nn_bos nn) (S bdx) bo
    (tile_of (n_anec nn) (Z.of_nat bdx) * 2 ^ n_shift nn) base s Ho Hbo (Hz _ Hbo) (proj1 Hsz)) as Hi.
  destruct (ane_bo_init _ s) as [[r bo'] s1].
  set (nn1 := set_chans nn (<[bdx := bo']> (n_chans nn)) (n_btsp nn)).
  assert (forall j, j <> bdx -> n_chans nn1 !! j = n_chans nn !! j) as Hne.
  { intros j Hj. cbn [nn1 set_chans n_chans]. by rewrite list_lookup_insert_ne. }
  destruct r as [[]| |]; [| |done].
  - destruct Hi as [Ho1 Hm]. assert (owns (nn_bos nn1) base s1) as Ho1' by exact Ho1.
    assert (length (n_chans nn1) = 32%nat) as Hl1 by (cbn [nn1 set_chans n_chans]; by rewrite length_insert).
    assert (Forall (fun b => (b < 32)%nat /\ forall bo, n_chans nn1 !! b = Some bo -> b_handle bo = 0)
      rest) as Hall1.
    { rewrite Forall_forall in Hall. apply Forall_forall. intros j Hj. destruct (Hall j Hj) as [? Hj'].
      split; [done|]. intros b. rewrite Hne; [apply Hj'|]. by intros ->. }
    specialize (IH nn1 s1 Ho1' Ha Hs Hl1 Hnd Hall1). destruct (init_chans rest nn1 s1) as [[r nn'] s'].
    destruct IH as (Ho' & Hh & Hb' & Hl' & Hu & Hr). repeat (split; [done|]). split.
    + intros j Hj. apply not_elem_of_cons in Hj as [Hj1 Hj2]. rewrite Hu //. by apply Hne.
    + destruct r as [[]| |]; [|done|done]. intros j b Hj Hjb.
      apply elem_of_cons in Hj as [->|Hj]; [|by apply Hr]. split; [intros _|lia].
      rewrite Hu // in Hjb. cbn [nn1 set_chans n_chans] in Hjb.
      rewrite list_lookup_insert_eq in Hjb; [|lia]. injection Hjb as <-. done.
  - destruct Hi as [Ho1 _]. split; [exact Ho1|]. split; [done|]. split; [done|].
    split; [cbn [nn1 set_chans n_chans]; by rewrite length_insert|].
    split; [|done]. intros j Hj. apply not_elem_of_cons in Hj as [Hj1 _]. by apply Hne.
Qed.

Lemma free_chan_spec L base chans s i :
  owns (chans ++ L) base s ->
  let '(chans', s') := free_chan (chans, s) i in
  owns (chans' ++ L) base s' /\ length chans' = length chans /\
  (forall b, chans' !! i = Some b -> b_handle b = 0) /\
  (forall j, j <> i -> chans' !! j = chans !! j).
Proof.
  intros Ho. unfold free_chan, ane_bo_free, bo_free, bo_munmap.
  destruct (chans !! i) as [bo|] eqn:Hi; [|naive_solver]. cbn [b_map b_size b_handle b_offset].
  pose proof (lookup_lt_Some _ _ _ Hi) as Hlt.
  assert ((chans ++ L) !! i = Some bo) as Hi' by (by apply lookup_app_l_Some).
  split; [|split; [by rewrite length_insert|split]].
  - rewrite -insert_app_l //. destruct (b_handle bo =? 0) eqn:E.
    + apply owns_keep with bo; [done|done|]. simpl. lia.
    + apply owns_free; [done|done|lia|done].
  - intros b. rewrite list_lookup_insert_eq //. by intros [= <-].
  - intros j Hj. by rewrite list_lookup_insert_ne.
Qed.

Lemma free_chans_spec L base n chans s :
  owns (chans ++ L) base s ->
  let '(chans', s') := fold_left free_chan (seq 0 n) (chans, s) in
  owns (chans' ++ L) base s' /\ length chans' = length chans /\
  (forall i b, (i < n)%nat -> chans' !! i = Some b -> b_handle b = 0).
Proof.
  induction n as [|n IH]; intros Ho; [simpl; split; [done|]; split; [done|]; lia|].
  rewrite seq_S fold_left_app. cbn [fold_left Nat.add].
  destruct (fold_left free_chan (seq 0 n) (chans, s)) as [c1 s1]. destruct (IH Ho) as (Ho1 & Hl & Hz).
  pose proof (free_chan_spec L base c1 s1 n Ho1) as Hr.
  destruct (free_chan (c1, s1) n) as [c2 s2]. destruct Hr as (Ho2 & Hl2 & Hz2 & Hu2).
  split; [done|]. split; [lia|]. intros i b Hi Hb.
  destruct (decide (i = n)) as [->|]; [by apply Hz2|]. rewrite Hu2 // in Hb. eapply (Hz i); [lia|done].
Qed.

(** [ane_chan_free] gives every handle back. *)
Lemma chan_free_balanced nn base s :
  owns (nn_bos nn) base s -> length (n_chans nn) = 32%nat ->
  let '(nn', s') := ane_chan_free nn s in
  live (kern s') = base /\ bad_free s' = false /\ n_fd nn' = n_fd nn.
Proof.
  intros Ho Hl. unfold ane_chan_free, ane_bo_free, bo_free, bo_munmap. cbn [b_map b_size b_handle b_offset].
  set (btsp := Bo None (b_size (n_btsp nn)) 0 0).
  assert (owns (btsp :: n_chans nn) base
    (if b_handle (n_btsp nn) =? 0 then s else sys_free (b_handle (n_btsp nn)) s)) as Ho1.
  { change (btsp :: n_chans nn) with (<[0%nat := btsp]> (nn_bos nn)).
    destruct (b_handle (n_btsp nn) =? 0) eqn:E.
    - apply owns_keep with (n_btsp nn); [done|done|]. simpl. lia.
    - apply owns_free; [done|done|lia|done]. }
  rewrite -[btsp :: n_chans nn]/([btsp] ++ n_chans nn) comm in Ho1.
  pose proof (free_chans_spec [btsp] base 32 _ _ Ho1) as Hf.
  destruct (fold_left free_chan (seq 0 32) _) as [chans s1]. destruct Hf as (Ho2 & Hl2 & Hz).
  assert (Forall (fun b => b_handle b = 0) (chans ++ [btsp])) as Hall.
  { apply Forall_app. split; [|by repeat constructor]. apply Forall_lookup. intros i b Hb.
    eapply Hz; [|done]. apply lookup_lt_Some in Hb. lia. }
  destruct Ho2 as [Hg _ _ Hv]. split; [|done]. rewrite Hv (held_empty _ Hall). set_solver.
Qed.
End own.

(** ** The payload both loads place *)

(** The file past the header, zero-padded to [size]. *)
Definition payload_got (f : bytes) (size : Z) : Z :=
  Z.min size (Z.max 0 (zlen f - ANEC_HEADER_SIZE)).

Definition payload (f : bytes) (size : Z) : bytes :=
  slice f ANEC_HEADER_SIZE (payload_got f size) ++
  replicate (Z.to_nat (size - payload_got f size)) 0.

Section payload.
Context (f : bytes) (size : Z) (Hf : bytes_ok f) (Hfl : zlen f < 2 ^ 63) (Hs : 0 <= size < 2 ^ 64).

Abbreviation got := (payload_got f size).

Lemma got_range : 0 <= got <= size /\ (0 < got -> ANEC_HEADER_SIZE + got <= zlen f).
Proof. unfold payload_got. lia. Qed.

Lemma zlen_payload_part : zlen (slice f ANEC_HEADER_SIZE got) = got.
Proof.
  destruct got_range as [Hg Hp]. destruct (Z.eq_dec got 0) as [->|].
  - unfold slice. by rewrite take_0.
  - apply zlen_slice; [done|lia|]. apply Hp. lia.
Qed.

Lemma zlen_payload : zlen (payload f size) = size.
Proof.
  unfold payload. rewrite zlen_app zlen_payload_part zlen_replicate.
  destruct got_range. lia.
Qed.

Lemma bytes_ok_payload : bytes_ok (payload f size).
Proof.
  unfold payload. apply Forall_app. split; [by apply bytes_ok_slice|].
  apply Forall_replicate. unfold byte_ok. lia.
Qed.

(** The tail of a short file is zeroed. *)
Lemma zero_tail dst :
  size <= zlen dst ->
  memset (patch dst 0 (slice f ANEC_HEADER_SIZE got)) got 0 (u64 (size - got)) =
  Ret (patch dst 0 (payload f size)).
Proof.
  intros Hd. destruct got_range as [Hg Hp]. pose proof zlen_payload_part as Hz.
  rewrite (wrap_small 64); [|lia].
  rewrite memset_eq; [|lia|lia|rewrite zlen_patch; lia]. f_equal. unfold payload.
  rewrite -patch_patch_app; [|lia|rewrite Hz zlen_replicate; lia]. rewrite Hz. done.
Qed.

Lemma pread_payload dst :
  size <= zlen dst ->
  ane_pread (Some f) dst size ANEC_HEADER_SIZE =
  Ret (patch dst 0 (slice f ANEC_HEADER_SIZE got), got).
Proof.
  intros Hd. destruct got_range as [Hg Hp]. unfold ane_pread. fold (payload_got f size).
  destruct (got =? 0) eqn:E.
  - assert (got = 0) as -> by lia. unfold slice. by rewrite take_0 patch_nil.
  - rewrite memcpy_eq; [done|lia|lia|lia|done|]. apply Hp. lia.
Qed.

(** Mapped or read, the file's bytes land the same. *)
Lemma load_payload dst mappable :
  size <= zlen dst ->
  ane_load_payload (Some f) mappable dst size =
  Ret (patch dst 0 (slice f ANEC_HEADER_SIZE got), got).
Proof.
  intros Hd. unfold ane_load_payload. destruct (mappable && _) eqn:E; [|by apply pread_payload].
  destruct got_range as [Hg Hp]. assert (0 < ANEC_HEADER_SIZE) by done.
  apply andb_prop in E as [_ E]. rewrite (wrap_small 64); [|lia].
  assert ((if zlen f - ANEC_HEADER_SIZE >? size then size else zlen f - ANEC_HEADER_SIZE) = got) as ->.
  { unfold payload_got. destruct (zlen f - _ >? size) eqn:?; lia. }
  rewrite memcpy_eq; [done|lia|lia|lia|lia|]. unfold payload_got. lia.
Qed.

Lemma payload_prefix dst : size <= zlen dst -> payload f size `prefix_of` patch dst 0 (payload f size).
Proof. intros Hd. eexists. unfold patch. by rewrite take_0 app_nil_l. Qed.
End payload.

(** ** Placing a program *)

(** What both loads check of the payload. *)
Definition bind_result (strict_bind : bool) (a : anec) (shift : Z) (stream : bytes) : res ane_bind :=
  '(derived, b) ← ane_bind_init a stream (size a);
  guard_fail ((derived =? 0) && strict_bind) EINVAL;;
  over ← ane_bind_overrun a stream (size a) shift;
  match over with Some _ => Fail EINVAL | None => Ret b end.

Lemma bind_check_eq strict nn stream :
  bind_check strict nn stream =
  b ← bind_result strict (n_anec nn) (n_shift nn) stream; Ret (set_bind nn b).
Proof.
  unfold bind_check, bind_result. destruct (ane_bind_init _ _ _) as [[d b]| |]; [|done|done].
  cbn [mbind res_bind]. destruct (guard_fail _ _) as [[]| |]; [|done|done]. cbn [mbind res_bind].
  cbn [set_bind n_shift]. by destruct (ane_bind_overrun _ _ _ _) as [[]| |].
Qed.

Lemma bind_result_prefix strict a sh m m' :
  bytes_ok m -> size a <= zlen m -> m `prefix_of` m' ->
  bind_result strict a sh m = bind_result strict a sh m'.
Proof.
  intros Hok Hl Hp. unfold bind_result. rewrite (bind_init_prefix a m m') //.
  by rewrite (bind_overrun_prefix a m m').
Qed.

Lemma bind_result_no_fault strict a sh m w :
  bytes_ok m -> size a <= zlen m -> bind_result strict a sh m <> Fault w.
Proof.
  intros Hok Hl. unfold bind_result. pose proof (bind_init_no_fault a m (size a) Hok Hl) as Hi.
  pose proof (bind_overrun_no_fault a m (size a) sh Hok Hl) as Ho.
  destruct (ane_bind_init _ _ _) as [[d b]| |w']; [|done|by destruct (Hi w')]. cbn [mbind res_bind].
  unfold guard_fail. destruct (_ && _); [done|]. cbn [mbind res_bind]. destruct (ane_bind_overrun _ _ _ _) as [[]| |w']; [done|done|done|by destruct (Ho w')].
Qed.

(** The first word of a task descriptor with the FIFO node id stamped in. *)
Definition stamped (m : bytes) : bytes :=
  patch m 0 (le_bytes 4 (Z.lor (Z.land (word32_at m 0) 0xf00ffff) (Z.shiftl (Z.land ANE_FIFO_NID 0xff) 16))).

Lemma set_nid_eq m : 4 <= zlen m -> set_nid m ANE_FIFO_NID = Ret (stamped m).
Proof.
  intros Hl. unfold set_nid. rewrite le32_eq; [|lia..]. cbn [mbind res_bind]. by rewrite put_le32_eq; [|lia..].
Qed.

(** The program in place: the payload at the head of channel 0, its first
    [td_size] bytes at the head of the bootstrap channel, stamped. *)
Definition placed (pl : bytes) (nn : ane_nn) (c0 : ane_bo) (m0 mb : bytes) : ane_nn :=
  set_chans nn (<[0%nat := with_map c0 (patch m0 0 pl)]> (n_chans nn))
    (with_map (n_btsp nn) (stamped (patch mb 0 (slice pl 0 (td_size (n_anec nn)))))).

(** What the channels must hold for a program of this header. *)
Record room (nn : ane_nn) (c0 : ane_bo) (m0 mb : bytes) : Prop := {
  room_c0 : n_chans nn !! 0%nat = Some c0;
  room_m0 : b_map c0 = Some m0;
  room_mb : b_map (n_btsp nn) = Some mb;
  room_size : 0 <= size (n_anec nn) <= zlen m0 /\ size (n_anec nn) < 2 ^ 64;
  room_td : 0 <= td_size (n_anec nn) <= size (n_anec nn) /\ td_size (n_anec nn) <= zlen mb;
  room_word : 4 <= zlen mb;
}.

Lemma slice_prefix m m' n : m `prefix_of` m' -> 0 <= n <= zlen m -> slice m' 0 n = slice m 0 n.
Proof.
  intros [rest ->] Hn. unfold slice, zlen in *. change (Z.to_nat 0) with 0%nat. rewrite !drop_0.
  apply take_app_le. lia.
Qed.

Lemma set_btsp_and_command_eq nn c0 m0 mb pl :
  room nn c0 m0 mb -> n_data nn = Some pl -> zlen pl = size (n_anec nn) ->
  set_btsp_and_command nn = Ret (placed pl nn c0 m0 mb).
Proof.
  intros [H1 H2 H3 H4 H5 H6] Hd Hl. unfold set_btsp_and_command, chan, map_of.
  change (Z.to_nat 0) with 0%nat. rewrite H1 Hd. cbn [mbind res_bind]. rewrite H2. cbn [mbind res_bind].
  rewrite memcpy_eq; [|lia..]. cbn [mbind res_bind]. rewrite H3. cbn [mbind res_bind].
  rewrite memcpy_eq; [|lia..]. cbn [mbind res_bind].
  rewrite set_nid_eq; [|rewrite zlen_patch ?zlen_slice; lia]. cbn [mbind res_bind]. unfold placed.
  by rewrite -Hl slice_all.
Qed.

Lemma place_program_eq strict f mappable nn c0 m0 mb :
  room nn c0 m0 mb -> bytes_ok f -> zlen f < 2 ^ 63 ->
  ane_place_program strict (Some f) mappable nn =
  b ← bind_result strict (n_anec nn) (n_shift nn) (payload f (size (n_anec nn)));
  Ret (placed (payload f (size (n_anec nn))) (set_bind nn b) c0 m0 mb).
Proof.
  intros [H1 H2 H3 H4 H5 H6] Hf Hfl. set (pl := payload f (size (n_anec nn))).
  assert (zlen pl = size (n_anec nn)) as Hl by (apply zlen_payload; lia).
  assert (bytes_ok pl) as Hplo by (apply bytes_ok_payload; (done || lia)).
  assert (pl `prefix_of` patch m0 0 pl) as Hpre by (apply payload_prefix; lia).
  unfold ane_place_program, chan, map_of.
  change (Z.to_nat 0) with 0%nat. rewrite H1. cbn [mbind res_bind]. rewrite H2. cbn [mbind res_bind].
  rewrite load_payload; [|lia..]. cbn [mbind res_bind]. rewrite zero_tail; [|lia..]. cbn [mbind res_bind].
  fold pl. rewrite bind_check_eq. cbn [set_chan set_chans n_anec n_shift].
  rewrite -(bind_result_prefix strict (n_anec nn) (n_shift nn) pl); [|done|lia|done].
  destruct (bind_result _ _ _ _) as [b| |]; [|done|done].
  cbn [mbind res_bind set_bind n_btsp n_chans]. change (Z.to_nat 0) with 0%nat.
  rewrite H3. cbn [mbind res_bind].
  rewrite memcpy_eq; [|lia|lia|lia|lia|rewrite zlen_patch; lia]. cbn [mbind res_bind].
  rewrite (slice_prefix pl); [|done|lia].
  rewrite set_nid_eq; [|rewrite zlen_patch ?zlen_slice; lia]. done.
Qed.

Lemma tile_align_bounds x :
  0 <= x < 2 ^ 32 -> x <= tile_align x < 2 ^ 33 /\ (0 < x -> TILE_ALIGN <= tile_align x).
Proof.
  intros Hx. unfold tile_align, TILE_ALIGN. rewrite (wrap_small 64); [|lia].
  rewrite (land_align 14 (x + 0x4000 - 1)); [|lia..].
  change (2 ^ 14) with 0x4000. change (2 ^ 33) with 8589934592. dlia.
Qed.

Section alloc.
Context `{AneKernelLaws}.
Implicit Types (nn : ane_nn) (s : sys) (base : gset Z).

Lemma alloc_chans_spec nn base s :
  owns (nn_bos nn) base s -> anec_ok (n_anec nn) -> 1 <= n_shift nn <= 20 ->
  n_chans nn = replicate 32 bo0 -> n_btsp nn = bo0 ->
  match alloc_chans nn s with
  | (r, nn', s') =>
      owns (nn_bos nn') base s' /\ same_header nn nn' /\ length (n_chans nn') = 32%nat /\
      match r with
      | Ret tt => chans_ok nn' /\ mapped (n_btsp nn') (tile_align (td_size (n_anec nn)))
      | Fail _ => True
      | Fault _ => False
      end
  end.
Proof.
  intros Ho Ha Hs Hc Hb. unfold alloc_chans.
  assert (Forall (fun bdx => (bdx < 32)%nat /\ forall bo, n_chans nn !! bdx = Some bo -> b_handle bo = 0)
    (seq 0 32)) as Hall.
  { apply Forall_forall. intros j Hj. apply elem_of_seq in Hj. split; [lia|]. intros bo.
    rewrite Hc. by intros [-> _]%lookup_replicate. }
  pose proof (init_chans_spec (seq 0 32) nn base s Ho Ha Hs ltac:(by rewrite Hc) (NoDup_seq _ _) Hall) as Hi.
  destruct (init_chans (seq 0 32) nn s) as [[r nn1] s1].
  destruct Hi as (Ho1 & Hh & Hb1 & Hl1 & _ & Hr). destruct r as [[]| |]; [| |done].
  2:{ by repeat (split; [done|]). }
  pose proof Hh as (_ & _ & Ha1 & _ & Hs1 & _). rewrite Ha1.
  pose proof (tile_align_bounds (td_size (n_anec nn)) (ok_td_size _ Ha)) as [Hta _].
  pose proof (ok_td_size _ Ha) as [Htd _].
  pose proof (ane_bo_init_spec (nn_bos nn1) 0 (n_btsp nn1) (tile_align (td_size (n_anec nn))) base s1
    Ho1 eq_refl ltac:(by rewrite Hb1 Hb) ltac:(lia)) as Hbt.
  destruct (ane_bo_init _ s1) as [[r bt] s2].
  assert (chans_ok (set_chans nn1 (n_chans nn1) bt)) as Hok.
  { split; cbn [set_chans n_chans n_anec n_shift]; [done| |]; intros bdx bo Hbo; rewrite Ha1 ?Hs1;
      apply (Hr bdx bo); [|done| |done]; apply elem_of_seq; apply lookup_lt_Some in Hbo; lia. }
  destruct r as [[]| |]; [| |done]; destruct Hbt as [Ho2 Hbt]; (split; [exact Ho2|]); split; try done.
Qed.

(** The allocation does not look at the staging buffer or the binding. *)
Definition with_load (d : option bytes) (b : ane_bind) (nn : ane_nn) : ane_nn :=
  set_bind (set_data nn d) b.

Lemma init_chans_load d b bdxs nn s :
  init_chans bdxs (with_load d b nn) s =
  let '(r, nn', s') := init_chans bdxs nn s in (r, with_load d b nn', s').
Proof.
  revert nn s. induction bdxs as [|bdx rest IH]; intros nn s; [done|]. cbn [init_chans].
  change (n_anec (with_load d b nn)) with (n_anec nn). change (n_chans (with_load d b nn)) with (n_chans nn).
  change (tile_size (with_load d b nn)) with (tile_size nn).
  destruct (_ =? 0); [apply IH|]. destruct (n_chans nn !! bdx) as [bo|]; [|done].
  destruct (tile_size nn (Z.of_nat bdx)) as [sz| |]; [|done|done].
  destruct (ane_bo_init _ s) as [[[[]| |] bo'] s1]; [|done|done]. apply (IH (set_chans nn (<[bdx := bo']> (n_chans nn)) (n_btsp nn))).
Qed.

Lemma alloc_chans_load d b nn s :
  alloc_chans (with_load d b nn) s = let '(r, nn', s') := alloc_chans nn s in (r, with_load d b nn', s').
Proof.
  unfold alloc_chans. rewrite init_chans_load. destruct (init_chans _ nn s) as [[[[]| |] nn'] s']; [|done|done].
  cbn [with_load set_bind set_data n_btsp n_anec]. by destruct (ane_bo_init _ s') as [[r bt] s2].
Qed.
End alloc.

(** ** Direct and staged loads *)

(** The header the library reads from a file. *)
Definition header_of (f : bytes) : res anec := ane_fread_header (Some f) ≫= anec_decode.

(** The header's own sizes are consistent: the program fits its channel, the
    first task descriptor fits the program. *)
Definition header_fits (shift : Z) (a : anec) : Prop :=
  size a <= tile_of a 0 * 2 ^ shift /\ td_size a <= size a.

Lemma header_of_ok f : bytes_ok f -> exists a, header_of f = Ret a /\ anec_ok a.
Proof.
  intros Hf. pose proof (zlen_nonneg f). unfold header_of, ane_fread_header.
  set (z := replicate (Z.to_nat sizeof_anec) 0).
  assert (zlen z = 1704) as Hz by done.
  assert (bytes_ok z) as Hzo by (apply Forall_replicate; unfold byte_ok; lia).
  clearbody z. unfold sizeof_anec. rewrite memcpy_eq; [|lia..]. cbn [mbind res_bind].
  destruct (anec_decode_ok (patch z 0 (slice f 0 (Z.min 1704 (zlen f))))) as (a & Ha & Hok & _).
  - apply bytes_ok_patch; [done|by apply bytes_ok_slice].
  - rewrite zlen_patch ?zlen_slice; lia.
  - by exists a.
Qed.

Section m1.
Context `{AneKernelLaws} (strict : bool) (f : bytes) (mappable : bool) (memalign : Z -> option bytes).
Context (a : anec) (sh fd : Z) (fds : list Z).
Context (Hf : bytes_ok f) (Hfl : zlen f < 2 ^ 63) (Ha : header_of f = Ret a) (Haok : anec_ok a).
Context (Hsh : 1 <= sh <= 20) (Hfit : header_fits sh a).
Context (Hmem : forall z d, memalign z = Some d -> zlen d = z).
Implicit Types (s : sys).

Abbreviation pl := (payload f (size a)).
Abbreviation nn := (set_fd (nn0 sh) fd).
Abbreviation init_file := (init_m1 memalign strict (Some f) mappable).

Lemma model_init_direct :
  ane_model_init strict (Some f) memalign nn false =
  if size a =? 0 then Fail EINVAL else Ret (set_anec nn a).
Proof.
  unfold ane_model_init. unfold header_of in Ha. destruct (ane_fread_header (Some f)) as [h| |]; [|done|done].
  cbn [mbind res_bind] in *. rewrite Ha. cbn [mbind res_bind]. unfold guard_fail. by destruct (size a =? 0).
Qed.

Lemma model_init_staged :
  ane_model_init strict (Some f) memalign nn true =
  if size a =? 0 then Fail EINVAL
  else if memalign (size a) is None then Fail ENOMEM
  else b ← bind_result strict a sh pl; Ret (with_load (Some pl) b (set_anec nn a)).
Proof.
  unfold ane_model_init. unfold header_of in Ha. destruct (ane_fread_header (Some f)) as [h| |]; [|done|done].
  cbn [mbind res_bind] in *. rewrite Ha. cbn [mbind res_bind]. unfold guard_fail.
  destruct (size a =? 0) eqn:E; [done|]. cbn [mbind res_bind negb].
  destruct (memalign (size a)) as [d|] eqn:Ed; [|done]. apply Hmem in Ed.
  pose proof (ok_size _ Haok) as Hs. unfold in_range in Hs.
  rewrite pread_payload; [|lia..]. cbn [mbind res_bind]. rewrite zero_tail; [|lia..]. cbn [mbind res_bind].
  rewrite patch_all; [|rewrite zlen_payload; lia]. rewrite bind_check_eq. done.
Qed.

Lemma room_after nn' :
  chans_ok nn' -> mapped (n_btsp nn') (tile_align (td_size a)) -> n_anec nn' = a -> n_shift nn' = sh ->
  size a <> 0 -> exists c0 m0 mb, room nn' c0 m0 mb.
Proof.
  intros [Hl Hu _] [Hnz (mb & Hmb & Hlb & _)] Ea Es Hsz.
  pose proof (ok_size _ Haok) as Hs. pose proof (ok_td_size _ Haok) as Htd. unfold in_range in *.
  destruct Hfit as [Hf1 Hf2]. destruct (lookup_lt_is_Some_2 (n_chans nn') 0%nat) as [c0 Hc0]; [lia|].
  assert (tile_of (n_anec nn') (Z.of_nat 0) <> 0) as Ht.
  { rewrite Ea. intros E. change (Z.of_nat 0) with 0 in E. rewrite E in Hf1. lia. }
  destruct (Hu 0%nat c0 Hc0 Ht) as [_ (m0 & Hm0 & Hl0 & _)]. rewrite Ea Es in Hl0.
  change (Z.of_nat 0) with 0 in Hl0.
  destruct (tile_align_bounds (td_size a)) as [[Hta _] Hta2]; [lia|].
  assert (0 < td_size a).
  { destruct (Z.eq_dec (td_size a) 0) as [E|]; [|lia]. by rewrite E in Hnz. }
  unfold TILE_ALIGN in Hta2. exists c0, m0, mb. split; rewrite ?Ea; (done || lia).
Qed.

Lemma owns_fresh_nn s :
  bad_free s = false -> owns (nn_bos (set_anec nn a)) (live (kern s)) s.
Proof. intros Hb. apply owns_none; [|done|done]. by apply Forall_cons; split; [|apply Forall_replicate]. Qed.

Lemma owns_placed nn1 c0 m0 mb base s :
  room nn1 c0 m0 mb -> owns (nn_bos nn1) base s -> owns (nn_bos (placed pl nn1 c0 m0 mb)) base s.
Proof.
  intros [Hc _ _ _ _ _] Ho. eapply owns_handles; [|exact Ho]. unfold nn_bos, placed.
  cbn [set_chans n_btsp n_chans fmap list_fmap with_map b_handle]. f_equal.
  rewrite list_fmap_insert. apply list_insert_id. by rewrite list_lookup_fmap Hc.
Qed.

(** After the allocation: room for the program, or everything given back. *)
Lemma alloc_fresh s :
  bad_free s = false -> size a <> 0 ->
  match alloc_chans (set_anec nn a) s with
  | (Ret tt, nn1, s1) => owns (nn_bos nn1) (live (kern s)) s1 /\ same_header (set_anec nn a) nn1 /\
      chans_ok nn1 /\ exists c0 m0 mb, room nn1 c0 m0 mb
  | (Fail _, nn1, s1) => owns (nn_bos nn1) (live (kern s)) s1 /\ same_header (set_anec nn a) nn1 /\
      length (n_chans nn1) = 32%nat
  | (Fault _, _, _) => False
  end.
Proof.
  intros Hb Hsz. pose proof (owns_fresh_nn s Hb) as Ho.
  pose proof (alloc_chans_spec (set_anec nn a) (live (kern s)) s Ho Haok Hsh eq_refl eq_refl) as Hal.
  destruct (alloc_chans (set_anec nn a) s) as [[r nn1] s1]. destruct Hal as (Ho1 & Hh & Hl & Hr).
  destruct r as [[]| |]; [|done|done]. destruct Hr as [Hok Hbt].
  repeat (split; [done|]). pose proof Hh as (_ & _ & Ha1 & _ & Hs1 & _).
  by apply room_after.
Qed.

(** Everything given back. *)
Definition restored (s s' : sys) : Prop := live (kern s') = live (kern s) /\ bad_free s' = false.

Lemma pl_facts : size a <> 0 -> bytes_ok pl /\ zlen pl = size a /\
  forall w, bind_result strict a sh pl <> Fault w.
Proof.
  intros Hsz. pose proof (ok_size _ Haok) as Hs. unfold in_range in Hs.
  assert (bytes_ok pl) as Hplo by (apply bytes_ok_payload; done || lia).
  assert (zlen pl = size a) as Hpll by (apply zlen_payload; done || lia).
  split; [done|]. split; [done|]. intros w. apply bind_result_no_fault; [done|lia].
Qed.

Lemma chan_init_direct s :
  bad_free s = false -> size a <> 0 ->
  match ane_chan_init strict (Some f) mappable (set_anec nn a) false s with
  | (Ret tt, nn', s') => exists nn1 b c0 m0 mb,
      alloc_chans (set_anec nn a) s = (Ret tt, nn1, s') /\ bind_result strict a sh pl = Ret b /\
      room nn1 c0 m0 mb /\ nn' = placed pl (set_bind nn1 b) c0 m0 mb
  | (Fail e, nn', s') => n_fd nn' = fd /\ restored s s' /\
      (bind_result strict a sh pl = Fail e \/ exists e' nn1 s1, alloc_chans (set_anec nn a) s = (Fail e', nn1, s1))
  | (Fault _, _, _) => False
  end.
Proof.
  intros Hb Hsz. destruct (pl_facts Hsz) as (Hplo & Hpll & Hnf).
  pose proof (alloc_fresh s Hb Hsz) as Hal. unfold ane_chan_init. cbn [negb].
  destruct (alloc_chans (set_anec nn a) s) as [[[[]|e|] nn1] s1]; [| |done].
  - destruct Hal as (Ho & (Hfd & _ & Ha1 & _ & Hs1 & _) & Hok & c0 & m0 & mb & Hroom).
    cbn [set_anec set_fd nn0 n_fd n_anec n_shift] in Hfd, Ha1, Hs1.
    rewrite (place_program_eq strict f mappable nn1 c0 m0 mb Hroom Hf Hfl) Ha1 Hs1.
    pose proof (chan_free_balanced nn1 _ s1 Ho (chans_len _ Hok)) as Hfree.
    destruct (bind_result strict a sh pl) as [b|e|w] eqn:Eb; cbn [mbind res_bind].
    + exists nn1, b, c0, m0, mb. repeat (split; [assumption || reflexivity|]). reflexivity.
    + destruct (ane_chan_free nn1 s1) as [nn2 s2]. destruct Hfree as (? & ? & ?).
      split; [congruence|]. split; [by split|]. left. reflexivity.
    + by destruct (Hnf w).
  - destruct Hal as (Ho & (Hfd & _) & Hl). cbn [set_anec set_fd nn0 n_fd] in Hfd.
    pose proof (chan_free_balanced nn1 _ s1 Ho Hl) as Hfree.
    destruct (ane_chan_free nn1 s1) as [nn2 s2]. destruct Hfree as (? & ? & ?).
    split; [congruence|]. split; [by split|]. right. exists e, nn1, s1. reflexivity.
Qed.

Lemma chan_init_staged b s :
  bad_free s = false -> size a <> 0 -> bind_result strict a sh pl = Ret b ->
  match ane_chan_init strict (Some f) mappable (with_load (Some pl) b (set_anec nn a)) true s with
  | (Ret tt, nn', s') => exists nn1 c0 m0 mb,
      alloc_chans (set_anec nn a) s = (Ret tt, nn1, s') /\
      room nn1 c0 m0 mb /\ nn' = placed pl (with_load (Some pl) b nn1) c0 m0 mb
  | (Fail e, nn', s') => n_fd nn' = fd /\ restored s s' /\
      exists e' nn1 s1, alloc_chans (set_anec nn a) s = (Fail e', nn1, s1)
  | (Fault _, _, _) => False
  end.
Proof.
  intros Hb Hsz Hbind. destruct (pl_facts Hsz) as (Hplo & Hpll & Hnf).
  pose proof (alloc_fresh s Hb Hsz) as Hal. unfold ane_chan_init. cbn [negb]. rewrite alloc_chans_load.
  destruct (alloc_chans (set_anec nn a) s) as [[[[]|e|] nn1] s1]; [| |done].
  - destruct Hal as (Ho & (Hfd & _ & Ha1 & _ & Hs1 & _) & Hok & c0 & m0 & mb & Hroom).
    cbn [set_anec set_fd nn0 n_fd n_anec n_shift] in Hfd, Ha1, Hs1.
    assert (room (with_load (Some pl) b nn1) c0 m0 mb) as Hroom' by (by destruct Hroom; split).
    rewrite (set_btsp_and_command_eq _ c0 m0 mb pl Hroom' eq_refl).
    { exists nn1, c0, m0, mb. repeat (split; [assumption || reflexivity|]). reflexivity. }
    cbn [with_load set_bind set_data n_anec]. by rewrite Ha1.
  - destruct Hal as (Ho & (Hfd & _) & Hl). cbn [set_anec set_fd nn0 n_fd] in Hfd.
    pose proof (chan_free_balanced (with_load (Some pl) b nn1) _ s1 Ho Hl) as Hfree.
    destruct (ane_chan_free (with_load (Some pl) b nn1) s1) as [nn2 s2]. destruct Hfree as (? & ? & Hfd2).
    split; [by rewrite Hfd2|]. split; [by split|]. exists e, nn1, s1. reflexivity.
Qed.

Lemma same_data nn1 d b : n_data nn1 = None -> set_bind nn1 b = set_data (with_load d b nn1) None.
Proof. destruct nn1. cbn. by intros ->. Qed.

(** Both loads: same outcome, up to the staging buffer. *)
Lemma loads_agree data s :
  bad_free s = false -> memalign (size a) = Some data ->
  match init_file nn true fds s, init_file nn false fds s with
  | (Ret nn1, fds1, s1), (Ret nn2, fds2, s2) =>
      nn2 = set_data nn1 None /\ s2 = s1 /\ fds1 = fds /\ fds2 = fds
  | (Fail _, fds1, s1), (Fail _, fds2, s2) =>
      fds1 = device_close fd fds /\ fds2 = device_close fd fds /\ restored s s1 /\ restored s s2
  | _, _ => False
  end.
Proof.
  intros Hb Hdata. unfold init_m1. rewrite model_init_staged model_init_direct Hdata.
  destruct (size a =? 0) eqn:Esz; [by repeat split|]. assert (size a <> 0) as Hsz by lia.
  destruct (pl_facts Hsz) as (_ & _ & Hnf). pose proof (chan_init_direct s Hb Hsz) as Hdir.
  destruct (bind_result strict a sh pl) as [b|e|w] eqn:Eb; [| |by destruct (Hnf w)]; cbn [mbind res_bind].
  - pose proof (chan_init_staged b s Hb Hsz Eb) as Hst.
    destruct (ane_chan_init _ _ _ (with_load _ _ _) true s) as [[[[]|e1|] nn1] s1]; [| |done];
      destruct (ane_chan_init _ _ _ (set_anec nn a) false s) as [[[[]|e2|] nn2] s2]; try done.
    + destruct Hst as (n1 & c0 & m0 & mb & E1 & [R1 R2 R3 _ _ _] & ->).
      destruct Hdir as (n2 & b2 & c2 & m2 & mb2 & E2 & [= <-] & [Q1 Q2 Q3 _ _ _] & ->).
      rewrite E1 in E2. injection E2 as <- <-. simplify_eq.
      pose proof (alloc_fresh s Hb Hsz) as Hal. rewrite E1 in Hal.
      destruct Hal as (_ & (_ & Hd & _) & _). split; [|done].
      rewrite (same_data n1 (Some pl) b Hd). reflexivity.
    + destruct Hst as (n1 & c0 & m0 & mb & E1 & _). destruct Hdir as (_ & _ & [?|(? & ? & ? & E2)]); [done|].
      by rewrite E1 in E2.
    + destruct Hst as (_ & _ & ? & ? & ? & E1). destruct Hdir as (? & ? & ? & ? & ? & E2 & _).
      by rewrite E1 in E2.
    + destruct Hst as (F1 & ? & _). destruct Hdir as (F2 & ? & _). unfold ane_device_close.
      by rewrite F1 F2.
  - destruct (ane_chan_init _ _ _ (set_anec nn a) false s) as [[[[]|e2|] nn2] s2]; [| |done].
    + by destruct Hdir as (? & ? & ? & ? & ? & _ & ? & _).
    + destruct Hdir as (F2 & ? & _). unfold ane_device_close. by rewrite F2.
Qed.

Lemma placed_owned nn1 b d c0 m0 mb s s' :
  bad_free s = false -> size a <> 0 -> alloc_chans (set_anec nn a) s = (Ret tt, nn1, s') ->
  room nn1 c0 m0 mb ->
  let nn' := placed pl (set_bind (set_data nn1 d) b) c0 m0 mb in
  n_fd nn' = fd /\ n_m2 nn' = None /\ owns (nn_bos nn') (live (kern s)) s' /\
  length (n_chans nn') = 32%nat.
Proof.
  intros Hb Hsz E Hroom. pose proof (alloc_fresh s Hb Hsz) as Hal. rewrite E in Hal.
  destruct Hal as (Ho & (Hfd & _ & _ & _ & _ & Hm2) & Hok & _). cbv zeta.
  split; [exact Hfd|]. split; [exact Hm2|]. split.
  - apply owns_placed; [by destruct Hroom; split|exact Ho].
  - cbn [placed set_chans n_chans set_bind set_data]. rewrite length_insert. apply Hok.
Qed.

Lemma init_m1_cases staged s :
  bad_free s = false ->
  match init_file nn staged fds s with
  | (Ret nn', fds', s') => fds' = fds /\ n_fd nn' = fd /\ n_m2 nn' = None /\
      owns (nn_bos nn') (live (kern s)) s' /\ length (n_chans nn') = 32%nat
  | (Fail _, fds', s') => fds' = device_close fd fds /\ restored s s'
  | (Fault _, _, _) => False
  end.
Proof.
  intros Hb. unfold init_m1. destruct staged.
  - rewrite model_init_staged. destruct (size a =? 0) eqn:Esz; [by repeat split|].
    assert (size a <> 0) as Hsz by lia. destruct (memalign (size a)); [|by repeat split].
    destruct (pl_facts Hsz) as (_ & _ & Hnf).
    destruct (bind_result strict a sh pl) as [b|e|w] eqn:Eb; [|by repeat split|by destruct (Hnf w)].
    cbn [mbind res_bind]. pose proof (chan_init_staged b s Hb Hsz Eb) as Hst.
    destruct (ane_chan_init _ _ _ (with_load _ _ _) true s) as [[[[]|e1|] nn1] s1]; [| |done].
    + destruct Hst as (n1 & c0 & m0 & mb & E1 & Hroom & ->). split; [done|].
      by apply (placed_owned n1 b (Some pl) c0 m0 mb s s1).
    + destruct Hst as (F1 & ? & _). unfold ane_device_close. by rewrite F1.
  - rewrite model_init_direct. destruct (size a =? 0) eqn:Esz; [by repeat split|].
    assert (size a <> 0) as Hsz by lia. pose proof (chan_init_direct s Hb Hsz) as Hdir.
    destruct (ane_chan_init _ _ _ (set_anec nn a) false s) as [[[[]|e2|] nn2] s2]; [| |done].
    + destruct Hdir as (n1 & b & c0 & m0 & mb & E1 & _ & Hroom & ->). split; [done|].
      pose proof (alloc_fresh s Hb Hsz) as Hal. rewrite E1 in Hal. destruct Hal as (_ & (_ & Hd & _) & _).
      pose proof (placed_owned n1 b None c0 m0 mb s s2 Hb Hsz E1 Hroom) as Hp.
      replace (set_bind n1 b) with (set_bind (set_data n1 None) b); [exact Hp|].
      destruct n1. cbn in Hd |- *. by rewrite Hd.
    + destruct Hdir as (F2 & ? & _). unfold ane_device_close. by rewrite F2.
Qed.
End m1.


(** *** The whole life of a network *)

Section whole.
Context `{ArmSha2} `{AneKernelLaws}.
Context (hw : bool) (buf0 : bytes) (guard : Z).
Context (mem : Z -> bool) (memalign : Z -> option bytes) (nn_mem ctx_mem : bool).
Context (es eo : option (list Z)) (env_staged : option bytes) (strict : bool).
Context (nodes : Z -> option drm_node) (f : bytes) (mappable : bool).

(** What the two back ends need of the file and its surroundings. *)
Record init_ok (ports : option (list ane_m2_port_spec)) (sh : Z) : Prop := {
  io_buf : zlen buf0 = 64 /\ bytes_ok buf0;
  io_file : bytes_ok f /\ zlen f < 2 ^ 63;
  io_names : names_fit mem nodes;
  io_memalign : forall z d, memalign z = Some d -> zlen d = z;
  io_ports : forall ps, ports = Some ps -> Forall port_typed ps;
  io_m1 : forall a, header_of f = Ret a -> header_fits sh a;
  io_m2 : forall model secs, build_program mem es eo f ports = Ret (model, secs) ->
    program_fits guard model secs;
}.

Abbreviation init_common := (ane_init_common hw buf0 guard mem memalign nn_mem ctx_mem es eo
  env_staged strict nodes (Some f) mappable).

Lemma close_opened fds : device_close (lowest_fd fds) (lowest_fd fds :: fds) = fds.
Proof.
  unfold device_close. destruct (lowest_fd_fresh fds) as [_ Hp].
  destruct (lowest_fd fds <? 0) eqn:E; [lia|]. apply close_fresh.
Qed.

Lemma free_m1 nn fds s base :
  n_m2 nn = None -> n_fd nn = lowest_fd fds -> owns (nn_bos nn) base s -> length (n_chans nn) = 32%nat ->
  let '(fds', s') := __ane_free nn (lowest_fd fds :: fds) s in
  fds' = fds /\ live (kern s') = base /\ bad_free s' = false.
Proof.
  intros Hm Hfd Ho Hl. unfold __ane_free. rewrite Hm.
  pose proof (chan_free_balanced nn base s Ho Hl) as Hf.
  destruct (ane_chan_free nn s) as [nn' s']. destruct Hf as (? & ? & Hfd').
  unfold ane_device_close. rewrite Hfd' Hfd close_opened. done.
Qed.

Lemma free_m2 nn ctx fds s base :
  n_m2 nn = Some ctx -> n_fd nn = lowest_fd fds -> ctx_ok guard ctx -> owns (io_bo ctx) base s ->
  let '(fds', s') := __ane_free nn (lowest_fd fds :: fds) s in
  fds' = fds /\ live (kern s') = base /\ bad_free s' = false.
Proof.
  intros Hm Hfd Hok Ho. unfold __ane_free. rewrite Hm.
  pose proof (close_balanced guard base ctx s Hok Ho) as Hc.
  destruct (ane_m2_close (Some ctx) s) as [m2 s']. destruct Hc as (-> & ? & ?).
  unfold ane_device_close. cbn [set_m2 n_fd]. rewrite Hfd close_opened. done.
Qed.

Lemma m2_header_decodes ports s ctx hdr s' :
  bytes_ok f ->
  ane_m2_open guard hw buf0 mem es eo ctx_mem (Some f) ports (replicate (Z.to_nat sizeof_anec) 0) s =
    (Ret ctx, hdr, s') ->
  exists a, anec_decode hdr = Ret a.
Proof.
  intros Hf. unfold ane_m2_open, ane_m2_fread_all.
  destruct ctx_mem; cbn [negb]; [|done]. destruct (mem (zlen f)); [|done].
  set (hdr0 := if zlen f >=? sizeof_anec then _ else _).
  assert (bytes_ok hdr0 /\ zlen hdr0 = 1704) as [Hok Hl].
  { unfold hdr0. destruct (zlen f >=? sizeof_anec) eqn:E; [|by vm_decide].
    unfold sizeof_anec in *. split; [by apply bytes_ok_slice|apply zlen_slice; lia]. }
  intros Ho. assert (hdr = hdr0) as ->.
  { destruct (build_program _ _ _ _ _) as [[model secs]| |]; [|done|done].
    destruct (ane_m2_program_digest _ _ _); [| |done];
      by destruct (open_built _ _ _ _ _) as [r s2]; simplify_eq. }
  destruct (anec_decode_ok hdr0 Hok Hl) as (a & Ha & _). by exists a.
Qed.

Lemma init_cases dev_id sh ports fds s :
  init_ok ports sh -> 0 <= sh -> bad_free s = false ->
  match init_common dev_id sh ports fds s with
  | (Ret nn, fds', s') =>
      let '(fds'', s'') := __ane_free nn fds' s' in
      fds'' = fds /\ live (kern s'') = live (kern s) /\ bad_free s'' = false
  | (Fail _, fds', s') => fds' = fds /\ live (kern s') = live (kern s) /\ bad_free s' = false
  | (Fault _, _, _) => False
  end.
Proof.
  intros [[Hb1 Hb2] [Hf Hfl] Hn Hma Hp Hm1 Hm2] Hsh0 Hbad. unfold ane_init_common.
  destruct ((sh =? 0) || (sh >? 20)) eqn:Esh; [done|]. assert (1 <= sh <= 20) as Hsh by lia. clear Esh.
  destruct nn_mem; cbn [negb]; [|done]. unfold ane_device_open. rewrite device_open_spec //.
  case_bool_decide; [|done]. destruct (ane_nodes nodes (seqZ 0 64) !! Z.to_nat dev_id) as [[i abi]|]; [|done].
  destruct (abi =? ANE_ABI_M2_MAJOR).
  - unfold init_m2.
    pose proof (open_cases hw buf0 mem es eo guard Hb1 Hb2 ctx_mem f ports
      (replicate (Z.to_nat sizeof_anec) 0) s Hf Hp Hm2 Hbad) as Ho.
    pose proof (m2_header_decodes ports s) as Hh.
    destruct (ane_m2_open _ _ _ _ _ _ _ _ _ _ s) as [[[ctx| |] hdr] s'] eqn:Eo; [| |done].
    + destruct (Hh ctx hdr s' Hf eq_refl) as [a ->].
      destruct Ho as (model & secs & _ & [Hown Hok _ _ _ _]). by apply (free_m2 _ ctx).
    + unfold ane_device_close. cbn [set_fd n_fd]. by rewrite close_opened.
  - destruct ports as [ps|].
    { unfold ane_device_close. cbn [set_fd n_fd]. by rewrite close_opened. }
    destruct (header_of_ok f Hf) as (a & Ha & Haok).
    pose proof (init_m1_cases strict f mappable memalign a sh (lowest_fd fds) (lowest_fd fds :: fds)
      Hf Hfl Ha Haok Hsh (Hm1 a Ha) Hma (load_staged env_staged) s Hbad) as Hc.
    destruct (init_m1 _ _ _ _ _ _ _ _) as [[[nn| |] fds'] s']; [| |done].
    + destruct Hc as (-> & Hfd & Hm & Hown & Hl). by apply free_m1.
    + destruct Hc as (-> & ? & ?). by rewrite close_opened.
Qed.
End whole.

(** Opening and freeing a network is balanced. Whatever the device
    nodes, the file, the environment and the driver answer, [ane_init_common]
    does not fault; when it returns NULL, the process holds the descriptors
    and the driver holds the handles they held before; when it returns a
    network, [__ane_free] restores both, and no handle is freed twice. *)
Theorem init_free_balanced `{ArmSha2} `{AneKernelLaws} hw buf0 guard mem memalign nn_mem ctx_mem es eo
    env_staged strict nodes f mappable dev_id sh ports fds s :
  init_ok buf0 guard mem memalign es eo nodes f ports sh -> 0 <= sh -> bad_free s = false ->
  match ane_init_common hw buf0 guard mem memalign nn_mem ctx_mem es eo env_staged strict nodes (Some f)
          mappable dev_id sh ports fds s with
  | (Ret nn, fds', s') =>
      let '(fds'', s'') := __ane_free nn fds' s' in
      fds'' = fds /\ live (kern s'') = live (kern s) /\ bad_free s'' = false
  | (Fail _, fds', s') => fds' = fds /\ live (kern s') = live (kern s) /\ bad_free s' = false
  | (Fault _, _, _) => False
  end.
Proof. apply init_cases. Qed.

(** *** A concrete network: an M1 program with one input and one output *)

Definition m1_file : bytes :=
  let hd := le_bytes 8 72 ++ le_bytes 4 72 ++ le_bytes 4 1 ++ le_bytes 8 72 ++ le_bytes 8 0 ++
            le_bytes 4 1 ++ le_bytes 4 1 ++ flat_map (le_bytes 4) [1; 0; 0; 0; 1; 1] in
  hd ++ replicate (Z.to_nat (0x1000 - zlen hd)) 0 ++ demo_stream.

Definition m1_memalign (z : Z) : option bytes :=
  if z <? 0 then None else Some (replicate (Z.to_nat z) 0xaa).

Lemma m1_memalign_len z d : m1_memalign z = Some d -> zlen d = z.
Proof.
  unfold m1_memalign. destruct (z <? 0) eqn:E; [done|]. intros [= <-]. rewrite zlen_replicate. lia.
Qed.

Lemma m1_header : header_of m1_file = Ret demo_anec.
Proof. vm_compute. reflexivity. Qed.

Lemma m1_fits : header_fits 10 demo_anec.
Proof. vm_compute. split; discriminate. Qed.

Abbreviation m1_init staged budget :=
  (@init_m1 demo_kernel m1_memalign false (Some m1_file) true (set_fd (nn0 10) 3) staged [3; 0]
    (demo_sys budget)).


(** One ANE on node 2, M1 or T6021. *)
Definition one_node (abi : Z) (i : Z) : option drm_node :=
  if i =? 2 then Some (Node true true ane_name abi) else None.

Lemma one_node_names abi : names_fit (fun _ => true) (one_node abi).
Proof. intros i n _. reflexivity. Qed.

Abbreviation demo_init abi file ports budget :=
  (@ane_init_common arm_pseudocode demo_kernel false (replicate 64 0) 0x100 (fun _ => true) m1_memalign
     true true None None None false (one_node abi) (Some file) true 0 10 ports [0] (demo_sys budget)).

Lemma m1_init_ok : init_ok (replicate 64 0) 0x100 (fun _ => true) m1_memalign None None (one_node 1)
  m1_file None 10.
Proof.
  split.
  - split; [done|vm_decide].
  - split; [vm_decide|vm_compute; reflexivity].
  - apply one_node_names.
  - exact m1_memalign_len.
  - done.
  - intros a. rewrite m1_header. intros [= <-]. exact m1_fits.
  - assert (fits_bool 0x100 (build_program (fun _ => true) None None m1_file None) = true) as H
      by (vm_compute; reflexivity).
    intros model secs. by apply fits_bool_sound.
Qed.

(** The M1 network opens and is freed; with two handles it is refused. *)
Lemma init_free_balanced_witness :
  (exists nn fds' s', demo_init 1 m1_file None 20%nat = (Ret nn, fds', s') /\
     let '(fds'', s'') := __ane_free nn fds' s' in
     fds'' = [0] /\ live (kern s'') = {[9]} /\ bad_free s'' = false) /\
  (exists e s', demo_init 1 m1_file None 2%nat = (Fail e, [0], s') /\ live (kern s') = {[9]}).
Proof.
  pose proof (fun n => @init_free_balanced arm_pseudocode demo_kernel demo_kernel_laws false
    (replicate 64 0) 0x100 (fun _ => true) m1_memalign true true None None None false (one_node 1)
    m1_file true 0 10 None [0] (demo_sys n) m1_init_ok ltac:(lia) eq_refl) as H.
  split.
  - specialize (H 20%nat).
    assert (is_open (demo_init 1 m1_file None 20%nat) = true) as Ho by (vm_compute; reflexivity).
    destruct (demo_init 1 m1_file None 20%nat) as [[[nn|e|w] fds'] s']; [|discriminate Ho|discriminate Ho].
    exists nn, fds', s'. split; [reflexivity|exact H].
  - specialize (H 2%nat).
    assert (is_open (demo_init 1 m1_file None 2%nat) = false) as Ho by (vm_compute; reflexivity).
    destruct (demo_init 1 m1_file None 2%nat) as [[[nn|e|w] fds'] s']; [discriminate Ho| |destruct H].
    destruct H as (-> & Hl & _). exists e, s'. split; [reflexivity|exact Hl].
Defined.

(** ** The state-swapping loop *)

(** A device whose program reads the buffer bound to channel [src] and
    writes [g] of it to the buffer bound to channel [dst], touching nothing
    else. *)
Definition device_runs `{AneKernel} (src dst : nat) (g : bytes -> bytes) : Prop :=
  forall args bos k hs hd i j bi bj m,
    NoDup (held bos) -> a_handles args !! src = Some hs -> a_handles args !! dst = Some hd ->
    bos !! i = Some bi -> b_handle bi = hs -> hs <> 0 -> b_map bi = Some m ->
    bos !! j = Some bj -> b_handle bj = hd -> hd <> 0 ->
    exists k', ioctl_submit args bos k = (0, <[j := with_map bj (g m)]> bos, k').

Section exec_loop.
Context `{AneKernel} (src dst : nat) (g : bytes -> bytes) (Hdev : device_runs src dst g).
Context (si di : Z).
Implicit Types (nn : ane_nn) (s : sys).

(** Where the state is after [i] iterations, and where the next one goes. *)
Definition state_chan (i : Z) : nat := if Z.odd i then dst else src.
Definition other_chan (i : Z) : nat := if Z.odd i then src else dst.

(** A network with the two state channels [src] and [dst]. *)
Record stateful (nn : ane_nn) : Prop := {
  st_src : src_bdx nn si = Ret (Z.of_nat src);
  st_dst : dst_bdx nn di = Ret (Z.of_nat dst);
  st_ne : src <> dst;
  st_tiles : tile_of (n_anec nn) (Z.of_nat src) <> 0 /\ tile_of (n_anec nn) (Z.of_nat dst) <> 0;
  st_held : NoDup (held (nn_bos nn));
  st_bound : forall c, c = src \/ c = dst -> exists bo, n_chans nn !! c = Some bo /\ b_handle bo <> 0;
}.

Lemma submit_handles_lookup nn c bo :
  n_chans nn !! c = Some bo -> tile_of (n_anec nn) (Z.of_nat c) <> 0 ->
  submit_handles nn !! c = Some (b_handle bo).
Proof.
  intros Hc Ht. unfold submit_handles. rewrite list_lookup_imap Hc /=.
  by destruct (_ =? 0) eqn:E; [lia|].
Qed.

(** The handles of iteration [i]: the state's buffer on [src], the other on
    [dst]. *)
Lemma submit_args_swap nn i :
  stateful nn ->
  exists args bs bo, submit_args nn (Z.odd i) si di = Ret args /\
    n_chans nn !! state_chan i = Some bs /\ n_chans nn !! other_chan i = Some bo /\
    b_handle bs <> 0 /\ b_handle bo <> 0 /\
    a_handles args !! src = Some (b_handle bs) /\ a_handles args !! dst = Some (b_handle bo).
Proof.
  intros [Hs Hd Hne [Ht1 Ht2] _ Hb]. destruct (Hb src) as (b1 & Hb1 & Hh1); [by left|].
  destruct (Hb dst) as (b2 & Hb2 & Hh2); [by right|].
  pose proof (submit_handles_lookup nn src b1 Hb1 Ht1) as H1.
  pose proof (submit_handles_lookup nn dst b2 Hb2 Ht2) as H2.
  unfold submit_args, state_chan, other_chan. destruct (Z.odd i).
  - rewrite Hs Hd. cbn [mbind res_bind]. unfold swap_handles. rewrite !Nat2Z.id H1 H2. cbn [mbind res_bind].
    pose proof (lookup_lt_Some _ _ _ H1). pose proof (lookup_lt_Some _ _ _ H2).
    eexists _, b2, b1. repeat (split; [done|]). cbn [a_handles]. split.
    + by rewrite list_lookup_insert_ne // list_lookup_insert_eq.
    + by rewrite list_lookup_insert_eq ?length_insert.
  - cbn [mbind res_bind]. by eexists _, b1, b2.
Qed.

Lemma held_with_map nn c bo m :
  n_chans nn !! c = Some bo ->
  held (nn_bos (set_chans nn (<[c := with_map bo m]> (n_chans nn)) (n_btsp nn))) = held (nn_bos nn).
Proof.
  intros Hc. unfold held, nn_bos. cbn [set_chans n_btsp n_chans fmap list_fmap].
  rewrite list_fmap_insert list_insert_id //. by rewrite list_lookup_fmap Hc.
Qed.

Lemma stateful_with_map nn c bo m :
  stateful nn -> n_chans nn !! c = Some bo ->
  stateful (set_chans nn (<[c := with_map bo m]> (n_chans nn)) (n_btsp nn)).
Proof.
  intros [H1 H2 H3 H4 H5 H6] Hc. split; try done; [by rewrite held_with_map|].
  intros c' Hc'. destruct (H6 c' Hc') as (b & Hb & Hh). cbn [set_chans n_chans].
  destruct (decide (c = c')) as [->|].
  - rewrite list_lookup_insert_eq; [|by eapply lookup_lt_Some]. eexists. split; [done|].
    cbn [with_map b_handle]. congruence.
  - rewrite list_lookup_insert_ne //. by exists b.
Qed.

(** One iteration moves the state. *)
Lemma exec_step nn i bs m s :
  stateful nn -> n_chans nn !! state_chan i = Some bs -> b_map bs = Some m ->
  exists nn' k', ane_exec_with_state_swap nn (Z.odd i) si di s = (Ret 0, nn', with_kern s k') /\
    stateful nn' /\ (exists bo, n_chans nn' !! state_chan (i + 1) = Some bo /\ b_map bo = Some (g m)) /\
    n_chans nn' !! state_chan i = Some bs.
Proof.
  intros Hst Hbs Hm. destruct (submit_args_swap nn i Hst) as (args & bs' & bo & Ea & Hbs' & Hbo & Hh1 & Hh2 & A1 & A2).
  rewrite Hbs in Hbs'. injection Hbs' as <-. unfold ane_exec_with_state_swap. rewrite Ea.
  destruct (Hdev args (nn_bos nn) (kern s) _ _ (S (state_chan i)) (S (other_chan i)) bs bo m
    (st_held _ Hst) A1 A2 Hbs eq_refl Hh1 Hm Hbo eq_refl Hh2) as [k' Ek].
  unfold nn_bos in Ek. rewrite Ek. cbn [insert list_insert].
  assert (state_chan (i + 1) = other_chan i) as Hnext.
  { unfold state_chan, other_chan. replace (i + 1) with (Z.succ i) by lia. rewrite Z.odd_succ -Z.negb_odd.
    by destruct (Z.odd i). }
  assert (other_chan i <> state_chan i) as Hne.
  { pose proof (st_ne _ Hst). unfold state_chan, other_chan. by destruct (Z.odd i). }
  eexists _, k'. split; [reflexivity|]. split; [by apply stateful_with_map|].
  cbn [set_chans n_chans]. rewrite Hnext. split.
  - exists (with_map bo (g m)). split; [|done]. apply list_lookup_insert_eq. by eapply lookup_lt_Some.
  - by rewrite list_lookup_insert_ne.
Qed.

Lemma exec_iterations_spec n : forall i nn bs m s,
  0 <= i -> stateful nn -> n_chans nn !! state_chan i = Some bs -> b_map bs = Some m ->
  exists nn' s', exec_iterations n i nn si di s = (Ret 0, nn', s') /\ stateful nn' /\
    exists bo, n_chans nn' !! state_chan (i + Z.of_nat n) = Some bo /\ b_map bo = Some (Nat.iter n g m).
Proof.
  induction n as [|n IH]; intros i nn bs m s Hi Hst Hbs Hm.
  { exists nn, s. split; [done|]. split; [done|]. exists bs. by rewrite Z.add_0_r. }
  destruct (exec_step nn i bs m s Hst Hbs Hm) as (nn1 & k1 & E & Hst1 & (bo & Hbo & Hbm) & _).
  cbn [exec_iterations]. rewrite E. change (0 <? 0) with false. cbv iota.
  destruct (IH (i + 1) nn1 bo (g m) (with_kern s k1) ltac:(lia) Hst1 Hbo Hbm) as (nn' & s' & E' & Hst' & Hb').
  exists nn', s'. split; [done|]. split; [done|].
  replace (i + Z.of_nat (S n)) with (i + 1 + Z.of_nat n) by lia. by rewrite Nat.iter_succ_r.
Qed.
End exec_loop.

(** C34: the state loop iterates. On a device whose program computes [g] from
    its state input to its state output, [ane_exec_loop] with [n] iterations
    leaves [g] applied [n] times to the initial state, without a copy: in the
    output's channel when [n] is odd and back in the input's channel when [n]
    is even. *)
Theorem exec_loop_iterates `{AneKernel} src dst g nn n si di s bo m :
  device_runs src dst g -> stateful src dst si di nn -> n_m2 nn = None ->
  0 < n < 2 ^ 32 -> 0 <= si < src_count (n_anec nn) -> 0 <= di < dst_count (n_anec nn) ->
  (exists z, ane_src_size nn si = Ret z /\ ane_dst_size nn di = Ret z) ->
  n_chans nn !! src = Some bo -> b_map bo = Some m ->
  exists nn' s', ane_exec_loop nn n si di s = (Ret 0, nn', s') /\
    exists bo', n_chans nn' !! (if Z.odd n then dst else src) = Some bo' /\
      b_map bo' = Some (Nat.iter (Z.to_nat n) g m).
Proof.
  intros Hdev Hst Hm2 Hn Hsi Hdi (z & Hz1 & Hz2) Hbo Hm. unfold ane_exec_loop, guard_fail. rewrite Hm2.
  cbn [mbind res_bind].
  destruct ((n =? 0) || (si >=? _) || (di >=? _)) eqn:E; [lia|]. cbn [mbind res_bind].
  rewrite Hz1 Hz2. cbn [mbind res_bind]. rewrite Z.eqb_refl. cbn [negb].
  destruct (exec_iterations_spec src dst g Hdev si di (Z.to_nat n) 0 nn bo m s ltac:(lia) Hst Hbo Hm)
    as (nn' & s' & Ee & _ & bo' & Hb & Hbm).
  exists nn', s'. split; [done|]. exists bo'. split; [|done].
  replace (0 + Z.of_nat (Z.to_nat n)) with n in Hb by lia. exact Hb.
Qed.

(** A device that adds one to every byte, from channel 5 to channel 4. *)
Definition add_one (m : bytes) : bytes := map (fun b => u8 (b + 1)) m.

Definition run_step (hs : list Z) (bos : list ane_bo) : list ane_bo :=
  match hs !! 5%nat, hs !! 4%nat with
  | Some h1, Some h2 =>
      match list_find (fun b => b_handle b = h1) bos, list_find (fun b => b_handle b = h2) bos with
      | Some (_, bi), Some (j, bj) =>
          match b_map bi with Some m => <[j := with_map bj (add_one m)]> bos | None => bos end
      | _, _ => bos
      end
  | _, _ => bos
  end.

Definition step_kernel : AneKernel := bump_kernel run_step.

Lemma list_find_handle bos i b :
  NoDup (held bos) -> bos !! i = Some b -> b_handle b <> 0 ->
  list_find (fun x => b_handle x = b_handle b) bos = Some (i, b).
Proof.
  intros Hnd Hi Hh. apply list_find_Some. split; [done|]. split; [done|].
  intros j y Hj Hlt He. assert (j = i); [|lia]. eapply held_unique; [done..|congruence].
Qed.

Lemma step_kernel_runs : @device_runs step_kernel 5 4 add_one.
Proof.
  intros args bos k hs hd i j bi bj m Hnd Hs Hd Hi <- Hnz Hm Hj <- Hnz'. exists k.
  cbn [step_kernel bump_kernel ioctl_submit]. unfold run_step. rewrite Hs Hd.
  by rewrite (list_find_handle bos i bi) // (list_find_handle bos j bj) // Hm.
Qed.

Definition state_nn : ane_nn :=
  Nn 3 None demo_anec
    ([Bo (Some [0]) 1 1 0; bo0; bo0; bo0; Bo (Some [7; 7]) 2 2 0; Bo (Some [1; 254]) 2 3 0] ++ replicate 26 bo0)
    (Bo (Some [0]) 1 4 0) (AneBind (5 :: replicate 31 0) (4 :: replicate 31 0)) 1 None.

Lemma state_nn_stateful : stateful 5 4 0 0 state_nn.
Proof.
  split; [reflexivity|reflexivity|done|by vm_compute|vm_decide|].
  intros c [-> | ->]; eexists; (split; [reflexivity|]); done.
Qed.

Lemma exec_loop_iterates_witness :
  exists nn' s', @ane_exec_loop step_kernel state_nn 3 0 0 (@Sys step_kernel (Bump {[9]} 20) false) = (Ret 0, nn', s') /\
    exists bo', n_chans nn' !! 4%nat = Some bo' /\ b_map bo' = Some [4; 1].
Proof.
  refine (@exec_loop_iterates step_kernel 5 4 add_one state_nn 3 0 0 (@Sys step_kernel (Bump {[9]} 20) false)
    (Bo (Some [1; 254]) 2 3 0) [1; 254] step_kernel_runs state_nn_stateful eq_refl _ _ _ _ eq_refl eq_refl).
  - lia.
  - vm_compute. split; [discriminate|reflexivity].
  - vm_compute. split; [discriminate|reflexivity].
  - eexists. split; reflexivity.
Defined.

(** ** Transfers *)

(** Weights can be replaced only behind the task stream.
    [ane_bind_kernel] accepts exactly the images that fit the channel behind
    the 16-byte aligned task stream, writes them there and nowhere else, and
    never leaves the channel's mapping. *)
Theorem bind_kernel_exact nn c0 m0 from n :
  n_chans nn !! 0%nat = Some c0 -> b_map c0 = Some m0 -> zlen m0 = b_size c0 -> b_size c0 < 2 ^ 63 ->
  0 <= tsk_size (n_anec nn) < 2 ^ 63 -> 0 <= n <= zlen from -> zlen from < 2 ^ 63 ->
  let off := 16 * ((tsk_size (n_anec nn) + 15) / 16) in
  ane_bind_kernel nn (Some from) n =
    (if bool_decide (off + n <= b_size c0) then Ret (set_chan nn 0 (with_map c0 (patch m0 off (slice from 0 n))))
     else Fail EINVAL) /\
  ane_bind_kernel nn None n = Fail EINVAL.
Proof.
  intros Hc Hm Hl Hs Ht Hn Hfl off. pose proof (zlen_nonneg m0).
  assert (kernel_offset nn = off) as Hoff.
  { unfold kernel_offset, off. change (Z.lnot 15) with (- 2 ^ 4). rewrite (wrap_small 64 (_ + 15)); [|lia].
    rewrite land_align; [done|lia|lia]. }
  assert (0 <= off <= tsk_size (n_anec nn) + 15) as Hor by (unfold off; dlia).
  unfold ane_bind_kernel, ane_kernel_capacity, chan. change (Z.to_nat 0) with 0%nat. rewrite Hc.
  cbn [mbind res_bind]. rewrite Hoff. split; [|done]. unfold guard_fail. rewrite (wrap_small 64); [|lia].
  case_bool_decide as Hfit.
  - destruct (off <=? b_size c0) eqn:E1; [|lia].
    destruct ((n >? b_size c0 - off) || (off + n >? b_size c0)) eqn:E2; [lia|]. cbn [mbind res_bind].
    unfold map_of. rewrite Hm. cbn [mbind res_bind]. rewrite memcpy_eq; [done|lia..].
  - destruct ((n >? _) || (off + n >? b_size c0)) eqn:E2; [done|lia].
Qed.

Definition kernel_nn : ane_nn :=
  set_chans state_nn (<[0%nat := Bo (Some (replicate 96 9)) 96 1 0]> (n_chans state_nn)) (n_btsp state_nn).

Lemma bind_kernel_exact_witness :
  (exists m, ane_bind_kernel kernel_nn (Some (replicate 16 5)) 16 = Ret (set_chan kernel_nn 0 (Bo (Some m) 96 1 0)) /\
     slice m 80 16 = replicate 16 5) /\
  ane_bind_kernel kernel_nn (Some (replicate 17 5)) 17 = Fail EINVAL.
Proof.
  assert (zlen (replicate 96 9) = 96) as Hz by reflexivity.
  split.
  - exists (patch (replicate 96 9) 80 (slice (replicate 16 5) 0 16)). split; [|vm_compute; reflexivity].
    refine (proj1 (bind_kernel_exact kernel_nn (Bo (Some (replicate 96 9)) 96 1 0) (replicate 96 9)
      (replicate 16 5) 16 eq_refl eq_refl Hz _ _ _ _)); vm_compute; (split; [discriminate|reflexivity || discriminate]) || reflexivity.
  - refine (proj1 (bind_kernel_exact kernel_nn (Bo (Some (replicate 96 9)) 96 1 0) (replicate 96 9)
      (replicate 17 5) 17 eq_refl eq_refl Hz _ _ _ _)); vm_compute; (split; [discriminate|reflexivity || discriminate]) || reflexivity.
Defined.

(** M1 transfers move whole channels. When a role is bound to an
    allocated channel, [__ane_send] replaces that channel's bytes by the
    caller's and touches nothing else, [__ane_read] hands out that channel's
    bytes, and neither leaves a buffer; an index past the role count changes
    nothing. *)
Theorem m1_transfer_exact nn idx bdx from :
  chans_ok nn -> anec_ok (n_anec nn) -> 1 <= n_shift nn <= 20 -> n_m2 nn = None -> 0 <= idx ->
  0 <= bdx < 32 -> tile_of (n_anec nn) bdx <> 0 -> tile_of (n_anec nn) bdx * 2 ^ n_shift nn <= zlen from ->
  (src_bdx nn idx = Ret bdx -> exists bo m, n_chans nn !! Z.to_nat bdx = Some bo /\ b_map bo = Some m /\
     __ane_send nn from idx =
       Ret (if idx >=? src_count (n_anec nn) then nn
            else set_chan nn bdx (with_map bo (slice from 0 (zlen m))))) /\
  (dst_bdx nn idx = Ret bdx -> exists bo m, n_chans nn !! Z.to_nat bdx = Some bo /\ b_map bo = Some m /\
     __ane_read nn from idx =
       Ret (if idx >=? dst_count (n_anec nn) then from else patch from 0 m)).
Proof.
  intros Hok Ha Hsh Hm2 Hidx Hb Ht Hl.
  destruct (lookup_lt_is_Some_2 (n_chans nn) (Z.to_nat bdx)) as [bo Hbo]; [rewrite (chans_len _ Hok); lia|].
  assert (tile_of (n_anec nn) (Z.of_nat (Z.to_nat bdx)) <> 0) as Ht' by (by rewrite Z2Nat.id; [|lia]).
  destruct (chans_used _ Hok _ _ Hbo Ht') as [_ (m & Hm & Hlm & _)]. rewrite Z2Nat.id in Hlm; [|lia].
  destruct (tile_size_eq nn bdx Ha Hsh Hb) as [Hsz Hsr].
  split; intros Hbdx; exists bo, m; (split; [done|]); (split; [done|]).
  - unfold __ane_send. rewrite Hm2. destruct (_ >=? _); [done|].
    rewrite Hbdx. cbn [mbind res_bind]. unfold chan. rewrite Hbo. cbn [mbind res_bind]. unfold map_of.
    rewrite Hm. cbn [mbind res_bind]. rewrite Hsz. cbn [mbind res_bind].
    rewrite memcpy_eq; [|lia..]. cbn [mbind res_bind]. rewrite patch_all; [|rewrite zlen_slice; lia].
    by rewrite Hlm.
  - unfold __ane_read. rewrite Hm2. destruct (_ >=? _); [done|].
    rewrite Hbdx. cbn [mbind res_bind]. unfold chan. rewrite Hbo. cbn [mbind res_bind]. unfold map_of.
    rewrite Hm. cbn [mbind res_bind]. rewrite Hsz. cbn [mbind res_bind].
    rewrite memcpy_eq; [|lia..]. by rewrite -Hlm slice_all.
Qed.

(** Channels 0, 4 and 5 of two bytes each. *)
Definition pair_nn : ane_nn :=
  set_chans state_nn (<[0%nat := Bo (Some [0; 0]) 2 1 0]> (n_chans state_nn)) (n_btsp state_nn).

Lemma pair_nn_ok : chans_ok pair_nn.
Proof.
  split; [reflexivity| |].
  - intros [|[|[|[|[|[|bdx]]]]]] bo Hbo Ht; try (by destruct Ht); simplify_eq/=;
      try (split; [vm_compute; discriminate|]; eexists; split; [reflexivity|]; split; [reflexivity|];
        split; [repeat constructor; unfold byte_ok; lia|]; split; [reflexivity|discriminate]).
    exfalso. apply Ht. unfold tile_of. rewrite Nat2Z.id. cbn [demo_anec tiles app lookup list_lookup].
    by rewrite lookup_replicate_default.
  - intros [|[|[|[|[|[|bdx]]]]]] bo Hbo Ht; simplify_eq/=; try done.
    by destruct (proj1 (lookup_replicate 26 bo0 bo bdx) Hbo) as [-> _].
Qed.

Lemma m1_transfer_exact_witness :
  (exists bo m, n_chans pair_nn !! 5%nat = Some bo /\ b_map bo = Some m /\
    __ane_send pair_nn [8; 9; 10] 0 = Ret (set_chan pair_nn 5 (with_map bo (slice [8; 9; 10] 0 (zlen m))))) /\
  __ane_read pair_nn [0; 0; 1] 0 = Ret [7; 7; 1].
Proof.
  split; [|vm_compute; reflexivity].
  refine (proj1 (m1_transfer_exact pair_nn 0 5 [8; 9; 10] pair_nn_ok demo_anec_ok _ eq_refl _ _ _ _) eq_refl).
  - vm_compute. split; discriminate.
  - lia.
  - lia.
  - vm_compute. discriminate.
  - vm_compute. discriminate.
Defined.

(** The zero geometry of a header without [nchw] fields passes the
    bounds check of a tiled transfer (its span is 0), and the transfer then
    divides by the zero row pitch. *)
Theorem tile_zero_geometry_faults nn from idx bdx bo m :
  idx < src_count (n_anec nn) -> src_bdx nn idx = Ret bdx ->
  nchw (n_anec nn) !! Z.to_nat bdx = Some [0; 0; 0; 0; 0; 0] ->
  n_chans nn !! Z.to_nat bdx = Some bo -> b_map bo = Some m -> 0 <= b_size bo ->
  tile_fits nn bdx = Ret true /\ __ane_tile_send nn from idx = Fault DivByZero.
Proof.
  intros Hi Hb Hg Hbo Hm Hs.
  assert (tile_fits nn bdx = Ret true) as Hf.
  { unfold tile_fits, geometry_of, chan. rewrite Hg. cbn [mbind res_bind].
    change (ane_bind_tile_span 0 0 0 0 0 0) with (Ret 0). cbn [mbind res_bind]. rewrite Hbo.
    cbn [mbind res_bind]. by rewrite (proj2 (Z.leb_le 0 (b_size bo)) Hs). }
  split; [done|]. unfold __ane_tile_send, guard_fail. destruct (idx >=? _) eqn:E; [lia|].
  cbn [mbind res_bind]. rewrite Hb. cbn [mbind res_bind]. rewrite Hf. cbn [mbind res_bind negb].
  unfold geometry_of, chan, map_of. rewrite Hg. cbn [mbind res_bind]. rewrite Hbo. cbn [mbind res_bind].
  by rewrite Hm.
Qed.

Lemma tile_zero_geometry_faults_witness : __ane_tile_send pair_nn [1; 2] 0 = Fault DivByZero.
Proof.
  refine (proj2 (tile_zero_geometry_faults pair_nn [1; 2] 0 5 (Bo (Some [1; 254]) 2 3 0) [1; 254]
    _ eq_refl eq_refl eq_refl eq_refl _)).
  - vm_compute. reflexivity.
  - vm_compute. discriminate.
Defined.

(** The positional channel map is not bounded by the channel array. With
    a header of 28 inputs and one output whose stream names nothing, input 27
    is bound to channel 32, past [tiles[32]] and [chans[32]], and a send to
    it leaves the arrays although the index check passes. *)
Theorem positional_channel_oob nn from :
  n_m2 nn = None -> src_count (n_anec nn) = 28 -> dst_count (n_anec nn) = 1 ->
  n_bind nn = ane_bind_positional (n_anec nn) -> length (n_chans nn) = 32%nat ->
  src_bdx nn 27 = Ret 32 /\ __ane_send nn from 27 = Fault OutOfBounds.
Proof.
  intros Hm Hs Hd Hb Hl.
  assert (src_bdx nn 27 = Ret 32) as Hx.
  { unfold src_bdx. rewrite Hb. unfold ane_bind_positional. rewrite Hd. by vm_compute. }
  split; [done|]. unfold __ane_send. rewrite Hm Hs. cbn [Z.geb Z.compare]. rewrite Hx. cbn [mbind res_bind].
  unfold chan. by rewrite lookup_ge_None_2; [|rewrite Hl; vm_compute; lia].
Qed.

Definition wide_nn : ane_nn :=
  let a := Anec 72 72 1 72 0 28 1 (replicate 32 1) (replicate 32 (replicate 6 0)) in
  Nn 3 None a (replicate 32 bo0) bo0 (ane_bind_positional a) 1 None.

Lemma positional_channel_oob_witness : __ane_send wide_nn [1] 27 = Fault OutOfBounds.
Proof. exact (proj2 (positional_channel_oob wide_nn [1] eq_refl eq_refl eq_refl eq_refl eq_refl)). Defined.

(** The header's program size is not checked against channel 0. A header
    that claims a program larger than the channel its own tile table
    allocates makes the load write past the channel's mapping, on the direct
    and on the staged path alike. *)
Theorem load_header_unchecked nn c0 m0 f strict mappable data :
  n_chans nn !! 0%nat = Some c0 -> b_map c0 = Some m0 -> bytes_ok f -> zlen f < 2 ^ 63 ->
  zlen m0 < size (n_anec nn) < 2 ^ 63 -> size (n_anec nn) <= zlen f - ANEC_HEADER_SIZE ->
  n_data nn = Some data ->
  ane_place_program strict (Some f) mappable nn = Fault OutOfBounds /\
  set_btsp_and_command nn = Fault OutOfBounds.
Proof.
  intros Hc Hm Hf Hfl Hs Hlen Hd. pose proof (zlen_nonneg m0).
  assert (0 < ANEC_HEADER_SIZE) by done.
  assert (forall (src : bytes) off, memcpy m0 0 src off (size (n_anec nn)) = Fault OutOfBounds) as Hcpy.
  { intros src off. unfold memcpy. rewrite bool_decide_eq_false_2; [done|lia]. }
  split.
  - unfold ane_place_program, chan, map_of. change (Z.to_nat 0) with 0%nat. rewrite Hc.
    cbn [mbind res_bind]. rewrite Hm. cbn [mbind res_bind].
    unfold ane_load_payload, ane_pread.
    replace (Z.min (size (n_anec nn)) (Z.max 0 (zlen f - ANEC_HEADER_SIZE))) with (size (n_anec nn)) by lia.
    rewrite (wrap_small 64); [|lia].
    assert ((if zlen f - ANEC_HEADER_SIZE >? size (n_anec nn) then size (n_anec nn)
             else zlen f - ANEC_HEADER_SIZE) = size (n_anec nn)) as ->.
    { destruct (zlen f - _ >? _) eqn:?; lia. }
    destruct (mappable && _); [by rewrite Hcpy|].
    destruct (size (n_anec nn) =? 0) eqn:E; [lia|]. by rewrite Hcpy.
  - unfold set_btsp_and_command, chan, map_of. change (Z.to_nat 0) with 0%nat. rewrite Hc.
    cbn [mbind res_bind]. rewrite Hm Hd. cbn [mbind res_bind]. by rewrite Hcpy.
Qed.

Lemma load_header_unchecked_witness :
  ane_place_program false (Some m1_file) true
    (set_data state_nn (Some demo_stream)) = Fault OutOfBounds.
Proof.
  refine (proj1 (load_header_unchecked (set_data state_nn (Some demo_stream)) (Bo (Some [0]) 1 1 0) [0] m1_file false true demo_stream
    eq_refl eq_refl _ _ _ _ eq_refl)).
  - vm_decide.
  - vm_compute. reflexivity.
  - vm_compute. split; reflexivity.
  - vm_compute. discriminate.
Defined.
