(* ===== verification/Dart.v ===== *)
(** * T8110 DART page tables

    The page-table builder of [src/ane/common/dart_t8110.h]: the window
    configuration, the register words, [dart8_map] and [dart8_translate]. Table
    memory is a map from table addresses to their 2048 words; a dereference
    outside it is a fault. The [alloc] callback is a parameter, whose result
    may depend on any state of its own; what the header and its README ask of
    it (16 KiB aligned, inside the 42-bit address field, not a table in use) is
    the class [DartAllocLaws]. *)
From S2P Require Import Prelude.

(** ** Page-table entries and registers *)

Definition D8_PADDR_SHIFT : Z := 4.
Definition D8_PADDR_MASK : Z := 2 ^ 38 - 2 ^ 10.
Definition D8_PTE_VALID : Z := 1.
Definition D8_PTE_NO_CACHE : Z := 2.
Definition D8_PTE_NO_WRITE : Z := 4.
Definition D8_PTE_NO_READ : Z := 8.
Definition D8_PTE_SUBPAGE_END : Z := 2 ^ 52 - 2 ^ 40.
Definition D8_TTBR_VALID : Z := 1.
Definition D8_TTBR_ADDR_SHIFT : Z := 14.
Definition D8_TTBR_FIELD_SHIFT : Z := 2.
Definition D8_TCR_TRANSLATE : Z := 1.
Definition D8_TCR_FOUR_LEVEL : Z := 8.
Definition D8_FAULT_NO_TTBR : Z := 1.
Definition D8_FAULT_NO_PGD : Z := 2.
Definition D8_FAULT_NO_PMD : Z := 4.
Definition D8_FAULT_NO_PTE : Z := 8.
Definition D8_FAULT_WRITE : Z := 16.
Definition D8_FAULT_READ : Z := 32.
Definition D8_GRANULE : Z := 0x4000.
Definition D8_ENTRIES : Z := 2048.
Definition D8_BITS_PER_LEVEL : Z := 11.
Definition D8_MAX_WALK_LEVELS : Z := 3.

Definition prot_mask : Z := Z.lor (Z.lor D8_PTE_NO_CACHE D8_PTE_NO_WRITE) D8_PTE_NO_READ.

Definition dart8_leaf_pte (pa prot : Z) : Z :=
  Z.lor (Z.lor (Z.lor (Z.land (Z.shiftr pa D8_PADDR_SHIFT) D8_PADDR_MASK) D8_PTE_SUBPAGE_END)
               (Z.land prot prot_mask)) D8_PTE_VALID.

Definition dart8_table_pte (table_pa : Z) : Z :=
  Z.lor (Z.land (Z.shiftr table_pa D8_PADDR_SHIFT) D8_PADDR_MASK) D8_PTE_VALID.

Definition dart8_leaf_pa (pte : Z) : Z :=
  u64 (Z.shiftl (Z.land pte D8_PADDR_MASK) D8_PADDR_SHIFT).

Definition dart8_ttbr (root_pa : Z) : Z :=
  Z.lor (u64 (Z.shiftl (Z.shiftr root_pa D8_TTBR_ADDR_SHIFT) D8_TTBR_FIELD_SHIFT)) D8_TTBR_VALID.

(** ** Configuration *)

Record dart8_cfg := Dart8Cfg {
  vm_base : Z;
  vm_size : Z;
  walk_levels : Z;
  sids : option (list Z);
  n_sids : Z
}.

Fixpoint sid_scan (l : list Z) (n : nat) (i sid : Z) : res bool :=
  match n with
  | O => Ret false
  | S n' =>
      match l !! Z.to_nat i with
      | None => Fault OutOfBounds
      | Some x => if x =? sid then Ret true else sid_scan l n' (i + 1) sid
      end
  end.

Definition dart8_sid_ok (c : dart8_cfg) (sid : Z) : res bool :=
  match sids c with
  | None => Ret true
  | Some l => sid_scan l (Z.to_nat (n_sids c)) 0 sid
  end.

Definition misaligned (x : Z) : bool := negb (Z.land x (D8_GRANULE - 1) =? 0).

(** [64 - __builtin_clzll top] is the bit length of a nonzero [top]. *)
Definition va_bits (top : Z) : Z :=
  if Z.shiftr top 14 =? 0 then 0 else Z.log2 top + 1 - 14.

Definition dart8_cfg_init (base size : Z) (s : option (list Z)) (ns : Z)
    (have_alloc have_free : bool) : dart8_cfg + errno :=
  if negb have_alloc || negb have_free || (size =? 0) || misaligned size || misaligned base
  then inr EINVAL
  else
    let top := u64 (u64 (base + size) - 1) in
    if top <? base then inr ERANGE
    else
      let levels := (va_bits top + D8_BITS_PER_LEVEL - 1) / D8_BITS_PER_LEVEL in
      let levels := if levels <? 2 then 2 else levels in
      if D8_MAX_WALK_LEVELS <? levels then inr ERANGE
      else inl (Dart8Cfg base size (u8 levels) s ns).

Definition dart8_tcr (c : dart8_cfg) : Z :=
  Z.lor D8_TCR_TRANSLATE (if walk_levels c =? 3 then D8_TCR_FOUR_LEVEL else 0).

Definition dart8_stream_program (c : dart8_cfg) (sid root_pa : Z) : res (Z * Z + errno) :=
  ok ← dart8_sid_ok c sid;
  if negb ok || misaligned root_pa then Ret (inr EINVAL)
  else Ret (inl (dart8_ttbr root_pa, dart8_tcr c)).

Definition dart8_index (c : dart8_cfg) (iova l : Z) : Z :=
  Z.land (Z.shiftr iova (14 + D8_BITS_PER_LEVEL * (walk_levels c - l))) (D8_ENTRIES - 1).

(** The value negated by the return. *)
Definition dart8_fault_at (c : dart8_cfg) (l : Z) (write : bool) : Z :=
  Z.lor (if l <? walk_levels c then (if l =? 1 then D8_FAULT_NO_PGD else D8_FAULT_NO_PMD)
         else D8_FAULT_NO_PTE)
        (if write then D8_FAULT_WRITE else D8_FAULT_READ).

(** ** Tables *)

Abbreviation tables := (gmap Z (list Z)).

Definition table_get (T : tables) (table idx : Z) : res Z :=
  match T !! table with
  | Some t => match t !! Z.to_nat idx with Some w => Ret w | None => Fault OutOfBounds end
  | None => Fault OutOfBounds
  end.

Definition table_set (T : tables) (table idx w : Z) : res tables :=
  match T !! table with
  | Some t => if idx <? zlen t then Ret (<[table := <[Z.to_nat idx := w]> t]> T) else Fault OutOfBounds
  | None => Fault OutOfBounds
  end.

(** A table after the [memset]. *)
Definition zero_table : list Z := replicate (Z.to_nat D8_ENTRIES) 0.
#[global] Arguments zero_table : simpl never.

Definition valid_pte (pte : Z) : bool := negb (Z.land pte D8_PTE_VALID =? 0).

Class DartAlloc (A : Type) := dart_alloc : A -> tables -> option Z * A.

Definition addr_ok (a : Z) : Prop := 0 < a < 2 ^ 42 /\ misaligned a = false.

Class DartAllocLaws (A : Type) `{DartAlloc A} :=
  dart_alloc_fresh s T a s' : dart_alloc s T = (Some a, s') -> addr_ok a /\ T !! a = None.

Section builder.
Context {A : Type} `{DartAlloc A} (c : dart8_cfg).

(** The walk of [dart8_map] from level [l] down, [n] levels above the leaf;
    [None] when an allocation failed. *)
Fixpoint map_descend (n : nat) (l iova table : Z) (st : tables * A) : res (tables * A * option Z) :=
  match n with
  | O => Ret (st, Some table)
  | S n' =>
      let '(T, s) := st in
      let idx := dart8_index c iova l in
      pte ← table_get T table idx;
      if valid_pte pte then map_descend n' (l + 1) iova (dart8_leaf_pa pte) (T, s)
      else
        match dart_alloc s T with
        | (None, s) => Ret ((T, s), None)
        | (Some t, s) =>
            let T := <[t := zero_table]> T in
            T ← table_set T table idx (dart8_table_pte t);
            pte ← table_get T table idx;
            map_descend n' (l + 1) iova (dart8_leaf_pa pte) (T, s)
        end
  end.

(** One page: [Some e] is the early return of [dart8_map]. *)
Definition map_page (root iova pa prot_bits : Z) (st : tables * A) : res (tables * A * option errno) :=
  '(st, table) ← map_descend (Z.to_nat (walk_levels c - 1)) 1 iova root st;
  match table with
  | None => Ret (st, Some ENOMEM)
  | Some table =>
      let '(T, s) := st in
      let idx := dart8_index c iova (walk_levels c) in
      pte ← table_get T table idx;
      let want := dart8_leaf_pte pa prot_bits in
      if valid_pte pte && negb (pte =? want) then Ret (st, Some EEXIST)
      else T ← table_set T table idx want; Ret ((T, s), None)
  end.

(** The loop over [off], [n] pages left. *)
Fixpoint map_pages (n : nat) (root iova pa prot_bits off : Z) (st : tables * A)
    : res (tables * A * option errno) :=
  match n with
  | O => Ret (st, None)
  | S n' =>
      '(st, e) ← map_page root (u64 (iova + off)) (u64 (pa + off)) prot_bits st;
      match e with
      | Some e => Ret (st, Some e)
      | None => map_pages n' root iova pa prot_bits (u64 (off + D8_GRANULE)) st
      end
  end.

(** [root] is the pointer [pt->root], 0 for NULL; the loop runs once for every
    multiple of the granule below [size]. *)
Definition dart8_map (root iova pa size prot : Z) (st : tables * A) : res (tables * A * option errno) :=
  if (root =? 0) || misaligned (Z.lor (Z.lor iova pa) size) || (size =? 0) then Ret (st, Some EINVAL)
  else
    let last := u64 (u64 (iova + size) - 1) in
    if (iova <? vm_base c) || (last <? iova) || (last >=? u64 (vm_base c + vm_size c))
    then Ret (st, Some ERANGE)
    else
      map_pages (Z.to_nat (size / D8_GRANULE)) root iova pa (Z.land prot prot_mask) 0 st.
End builder.

(** [inr code] is the return of [-(int)code]. *)
Fixpoint walk_from (c : dart8_cfg) (n : nat) (l iova : Z) (write : bool) (table : Z) (T : tables)
    : res (Z + Z) :=
  match n with
  | O => Ret (inl 0)
  | S n' =>
      let idx := dart8_index c iova l in
      pte ← table_get T table idx;
      if negb (valid_pte pte) then Ret (inr (dart8_fault_at c l write))
      else if l <? walk_levels c then walk_from c n' (l + 1) iova write (dart8_leaf_pa pte) T
      else Ret (inl pte)
  end.

Definition dart8_translate (c : dart8_cfg) (T : tables) (root iova : Z) (write : bool) : res (Z + Z) :=
  if root =? 0 then
    Ret (inr (Z.lor D8_FAULT_NO_TTBR (if write then D8_FAULT_WRITE else D8_FAULT_READ)))
  else
    r ← walk_from c (Z.to_nat (walk_levels c)) 1 iova write root T;
    match r with
    | inr e => Ret (inr e)
    | inl pte =>
        if write && negb (Z.land pte D8_PTE_NO_WRITE =? 0) then Ret (inr D8_FAULT_WRITE)
        else if negb write && negb (Z.land pte D8_PTE_NO_READ =? 0) then Ret (inr D8_FAULT_READ)
        else Ret (inl (u64 (dart8_leaf_pa pte + Z.land iova (D8_GRANULE - 1))))
    end.

(** ** Entries *)

Lemma testbit_paddr_mask i : Z.testbit D8_PADDR_MASK i = bool_decide (10 <= i < 38).
Proof.
  replace D8_PADDR_MASK with (Z.shiftl (Z.ones 28) 10) by reflexivity.
  destruct (decide (0 <= i)).
  - rewrite Z.shiftl_spec; [|done]. destruct (decide (10 <= i)).
    + rewrite Z.testbit_ones_nonneg; [|lia|lia].
      destruct (Z.ltb_spec (i - 10) 28); symmetry; [apply bool_decide_eq_true|apply bool_decide_eq_false]; lia.
    + rewrite Z.testbit_neg_r; [|lia]. symmetry. apply bool_decide_eq_false. lia.
  - rewrite Z.testbit_neg_r; [|lia]. symmetry. apply bool_decide_eq_false. lia.
Qed.

Lemma mask_pa x : Z.land x D8_PADDR_MASK = (x / 2 ^ 10) mod 2 ^ 28 * 2 ^ 10.
Proof. exact (land_field x 10 28 ltac:(done) ltac:(done)). Qed.

Lemma misaligned_false x : misaligned x = false <-> x mod 2 ^ 14 = 0.
Proof.
  unfold misaligned. replace (D8_GRANULE - 1) with (2 ^ 14 - 1) by reflexivity. rewrite land_mask_mod; [|lia].
  rewrite negb_false_iff Z.eqb_eq. done.
Qed.

(** The bits of an entry below bit 10 and above bit 38 do not reach its address. *)
Lemma leaf_pa_lor x y : Z.land y D8_PADDR_MASK = 0 -> dart8_leaf_pa (Z.lor x y) = dart8_leaf_pa x.
Proof. intros Hy. unfold dart8_leaf_pa. by rewrite Z.land_lor_distr_l Hy Z.lor_0_r. Qed.

Lemma leaf_pa_field pa :
  0 <= pa < 2 ^ 42 -> misaligned pa = false ->
  dart8_leaf_pa (Z.land (Z.shiftr pa D8_PADDR_SHIFT) D8_PADDR_MASK) = pa.
Proof.
  intros Hr Ha%misaligned_false. unfold dart8_leaf_pa, D8_PADDR_SHIFT.
  rewrite -Z.land_assoc Z.land_diag mask_pa Z.shiftr_div_pow2 // Z.shiftl_mul_pow2 //.
  assert ((pa / 2 ^ 4 / 2 ^ 10) mod 2 ^ 28 * 2 ^ 10 * 2 ^ 4 = pa) as ->; [|apply wrap_small; lia].
  rewrite Z.div_div // Z.mod_small; dlia.
Qed.

Lemma table_pte_pa a : addr_ok a -> dart8_leaf_pa (dart8_table_pte a) = a.
Proof.
  intros [Hr Ha]. unfold dart8_table_pte. rewrite leaf_pa_lor //. apply leaf_pa_field; [lia|done].
Qed.

Lemma table_pte_valid a : valid_pte (dart8_table_pte a) = true.
Proof.
  unfold valid_pte, dart8_table_pte. rewrite Z.land_lor_distr_l -Z.land_assoc.
  replace (Z.land D8_PADDR_MASK D8_PTE_VALID) with 0 by reflexivity. by rewrite Z.land_0_r.
Qed.

Lemma land_prot_field prot k :
  Z.land (Z.land prot prot_mask) k = Z.land prot (Z.land prot_mask k).
Proof. by rewrite Z.land_assoc. Qed.

Lemma leaf_pte_pa pa prot :
  0 <= pa < 2 ^ 42 -> misaligned pa = false -> dart8_leaf_pa (dart8_leaf_pte pa prot) = pa.
Proof.
  intros Hr Ha. unfold dart8_leaf_pte. rewrite !leaf_pa_lor //; [by apply leaf_pa_field|].
  rewrite land_prot_field. replace (Z.land prot_mask D8_PADDR_MASK) with 0 by reflexivity. apply Z.land_0_r.
Qed.

Lemma leaf_pte_low pa prot k :
  0 <= k < 2 ^ 10 -> Z.land (dart8_leaf_pte pa prot) k = Z.lor (Z.land prot (Z.land prot_mask k)) (Z.land 1 k).
Proof.
  intros Hk. unfold dart8_leaf_pte. rewrite !Z.land_lor_distr_l land_prot_field -Z.land_assoc.
  assert (forall b, 10 <= b -> Z.testbit k b = false) as Hb.
  { intros b Hb. apply (in_range_testbit 10); [unfold in_range; lia|lia|lia]. }
  assert (Z.land D8_PADDR_MASK k = 0) as ->.
  { apply Z.bits_inj'. intros i Hi. rewrite Z.land_spec testbit_paddr_mask Z.bits_0.
    case_bool_decide; [|done]. rewrite Hb; [done|lia]. }
  assert (Z.land D8_PTE_SUBPAGE_END k = 0) as ->.
  { replace D8_PTE_SUBPAGE_END with (Z.shiftl (Z.ones 12) 40) by reflexivity. rewrite Z.land_comm.
    apply land_shiftl_disjoint; lia. }
  rewrite Z.land_0_r. unfold prot_mask. by rewrite !Z.land_lor_distr_l.
Qed.

Lemma leaf_pte_valid pa prot : valid_pte (dart8_leaf_pte pa prot) = true.
Proof.
  unfold valid_pte, D8_PTE_VALID. rewrite leaf_pte_low; [|lia].
  replace (Z.land prot_mask 1) with 0 by reflexivity. by rewrite Z.land_0_r.
Qed.

Lemma leaf_pte_prot pa prot k :
  k = D8_PTE_NO_WRITE \/ k = D8_PTE_NO_READ \/ k = D8_PTE_NO_CACHE ->
  Z.land (dart8_leaf_pte pa prot) k = Z.land prot k.
Proof.
  intros Hk. rewrite leaf_pte_low; [|destruct Hk as [->|[->| ->]]; unfold D8_PTE_NO_WRITE, D8_PTE_NO_READ, D8_PTE_NO_CACHE; lia].
  destruct Hk as [->|[->| ->]];
    match goal with |- Z.lor (Z.land _ ?a) ?b = Z.land _ ?k =>
      replace a with k by reflexivity; replace b with 0 by reflexivity end; apply Z.lor_0_r.
Qed.

(** Different mappings have different entries. *)
Lemma leaf_pte_inj pa prot pa' prot' :
  0 <= pa < 2 ^ 42 -> misaligned pa = false -> 0 <= pa' < 2 ^ 42 -> misaligned pa' = false ->
  dart8_leaf_pte pa prot = dart8_leaf_pte pa' prot' ->
  pa = pa' /\ Z.land prot prot_mask = Z.land prot' prot_mask.
Proof.
  intros Hr Ha Hr' Ha' He. split.
  - rewrite -(leaf_pte_pa pa prot) // -(leaf_pte_pa pa' prot') //. by rewrite He.
  - unfold prot_mask. rewrite !Z.land_lor_distr_r.
    rewrite -!(leaf_pte_prot pa prot); [|by right; left|by left|by right; right].
    rewrite -!(leaf_pte_prot pa' prot'); [|by right; left|by left|by right; right]. by rewrite He.
Qed.

(** ** The configuration *)

Definition levels_ok (c : dart8_cfg) : Prop := walk_levels c = 2 \/ walk_levels c = 3.

(** The addresses the walk tells apart. *)
Definition va_top (c : dart8_cfg) : Z := 2 ^ (14 + 11 * walk_levels c).

Definition cfg_ok (c : dart8_cfg) : Prop :=
  levels_ok c /\ 0 <= vm_base c /\ 0 < vm_size c /\ vm_base c + vm_size c <= va_top c /\
  misaligned (vm_base c) = false /\ misaligned (vm_size c) = false.

Lemma va_bits_top top :
  0 <= top -> 0 <= va_bits top /\ top < 2 ^ (14 + va_bits top).
Proof.
  intros Ht. unfold va_bits. rewrite Z.shiftr_div_pow2 //. destruct (Z.eqb_spec (top / 2 ^ 14) 0) as [E|E].
  - split; [lia|]. replace (14 + 0) with 14 by lia. dlia.
  - assert (2 ^ 14 <= top) by dlia. assert (14 <= Z.log2 top).
    { rewrite -(Z.log2_pow2 14) //. by apply Z.log2_le_mono. }
    split; [lia|]. replace (14 + (Z.log2 top + 1 - 14)) with (Z.succ (Z.log2 top)) by lia.
    apply Z.log2_spec. lia.
Qed.

Lemma cfg_init_ok base size s ns ha hf c :
  in_range 64 base -> in_range 64 size -> dart8_cfg_init base size s ns ha hf = inl c ->
  cfg_ok c /\ vm_base c = base /\ vm_size c = size /\ sids c = s /\ n_sids c = ns.
Proof.
  intros Hb Hs. unfold dart8_cfg_init. destruct (negb ha || _ || _ || _ || _) eqn:Hg; [done|].
  rewrite !orb_false_iff in Hg. destruct Hg as [[[_ Hz] Hms] Hmb].
  set (top := u64 _). destruct (Z.ltb_spec top base); [done|].
  set (lv := (va_bits top + D8_BITS_PER_LEVEL - 1) / D8_BITS_PER_LEVEL).
  set (lv2 := if lv <? 2 then 2 else lv). destruct (Z.ltb_spec D8_MAX_WALK_LEVELS lv2); [done|].
  intros [= <-]. cbn [vm_base vm_size walk_levels sids n_sids].
  assert (top = base + size - 1) as Et.
  { subst top. unfold in_range, wrap in *. apply Z.eqb_neq in Hz.
    destruct (decide (base + size < 2 ^ 64)).
    - rewrite (Z.mod_small (base + size)); [|lia]. apply Z.mod_small. lia.
    - destruct (decide (base + size = 2 ^ 64)) as [E|].
      + rewrite E. reflexivity.
      + rewrite (Z.mod_eq (base + size)) // in H. replace ((base + size) / 2 ^ 64) with 1 in H by dlia.
        rewrite Z.mod_small in H; lia. }
  destruct (va_bits_top top) as [Hv Ht]; [unfold in_range in *; lia|].
  assert (2 <= lv2 /\ va_bits top <= 11 * lv2) as [H2 Hcov].
  { subst lv2 lv. unfold D8_BITS_PER_LEVEL. destruct (Z.ltb_spec ((va_bits top + 11 - 1) / 11) 2); dlia. }
  unfold D8_MAX_WALK_LEVELS in *. assert (u8 lv2 = lv2) as El by (apply wrap_small; lia).
  apply Z.eqb_neq in Hz. unfold in_range in *.
  split; [|done]. split; [unfold levels_ok; cbn [walk_levels]; lia|].
  cbn [vm_base vm_size]. split; [lia|]. split; [lia|]. split; [|done].
  unfold va_top. cbn [walk_levels]. rewrite El.
  assert (2 ^ (14 + va_bits top) <= 2 ^ (14 + 11 * lv2)); [apply Z.pow_le_mono_r; lia|lia].
Qed.

Lemma index_eq c iova l :
  levels_ok c -> 1 <= l <= walk_levels c ->
  dart8_index c iova l = (iova / 2 ^ (14 + 11 * (walk_levels c - l))) mod 2048.
Proof.
  intros Hl Hr. unfold dart8_index, D8_BITS_PER_LEVEL. replace (D8_ENTRIES - 1) with (2 ^ 11 - 1) by reflexivity.
  rewrite land_mask_mod // Z.shiftr_div_pow2 //. lia.
Qed.

Lemma index_range c iova l : 0 <= dart8_index c iova l < 2048.
Proof.
  unfold dart8_index. replace (D8_ENTRIES - 1) with (2 ^ 11 - 1) by reflexivity. rewrite land_mask_mod //.
  by apply Z.mod_pos_bound.
Qed.

(** The first [n] levels of the walk index alike. *)
Definition same_upto (c : dart8_cfg) (n : nat) (i j : Z) : Prop :=
  forall m, (m < n)%nat -> dart8_index c i (Z.of_nat m + 1) = dart8_index c j (Z.of_nat m + 1).

Definition page (iova : Z) : Z := iova / D8_GRANULE.

Lemma same_page c i j :
  levels_ok c -> 0 <= i < va_top c -> 0 <= j < va_top c ->
  same_upto c (Z.to_nat (walk_levels c)) i j <-> page i = page j.
Proof.
  intros Hl Hi Hj. unfold va_top, page in *. change D8_GRANULE with (2 ^ 14). split.
  - intros Hs. destruct Hl as [E|E]; rewrite E in Hi Hj Hs.
    + pose proof (Hs 0%nat ltac:(lia)) as H0. pose proof (Hs 1%nat ltac:(lia)) as H1.
      rewrite !index_eq ?E in H0, H1; try (unfold levels_ok; lia).
      replace (14 + 11 * (2 - (Z.of_nat 0 + 1))) with 25 in H0 by lia.
      replace (14 + 11 * (2 - (Z.of_nat 1 + 1))) with 14 in H1 by lia.
      change (2 ^ (14 + 11 * 2)) with (2 ^ 36) in *. dlia.
    + pose proof (Hs 0%nat ltac:(lia)) as H0. pose proof (Hs 1%nat ltac:(lia)) as H1.
      pose proof (Hs 2%nat ltac:(lia)) as H2.
      rewrite !index_eq ?E in H0, H1, H2; try (unfold levels_ok; lia).
      replace (14 + 11 * (3 - (Z.of_nat 0 + 1))) with 36 in H0 by lia.
      replace (14 + 11 * (3 - (Z.of_nat 1 + 1))) with 25 in H1 by lia.
      replace (14 + 11 * (3 - (Z.of_nat 2 + 1))) with 14 in H2 by lia.
      change (2 ^ (14 + 11 * 3)) with (2 ^ 47) in *. dlia.
  - intros Hp m Hm. assert (walk_levels c = 2 \/ walk_levels c = 3) as Hl' by done.
    rewrite !index_eq; [|done|lia|done|lia].
    set (k := 11 * (walk_levels c - (Z.of_nat m + 1))). assert (0 < 2 ^ k) by (apply Z.pow_pos_nonneg; lia).
    rewrite Z.pow_add_r; [|lia|lia]. rewrite -(Z.div_div i) // -(Z.div_div j) //. by rewrite Hp.
Qed.

(** ** The tree of tables *)

(** A page map: page number to physical page and protection. *)
Abbreviation pagemap := (gmap Z (Z * Z)).

Section tree.
Context (c : dart8_cfg) (Hlv : levels_ok c) (root : Z).
Abbreviation W := (Z.to_nat (walk_levels c)).
Abbreviation idx := (fun (iova : Z) (n : nat) => Z.to_nat (dart8_index c iova (Z.of_nat n + 1))).

(** The word that the walk of [iova] reads at depth [n], given its table. *)
Definition entry_at (T : tables) (a iova : Z) (n : nat) : option Z :=
  t ← T !! a; t !! idx iova n.

(** The table that the walk of [iova] reaches at depth [n]. *)
Fixpoint table_at (T : tables) (iova : Z) (n : nat) : option Z :=
  match n with
  | O => Some root
  | S n' =>
      a ← table_at T iova n';
      pte ← entry_at T a iova n';
      if valid_pte pte then Some (dart8_leaf_pa pte) else None
  end.

Definition leaf_entry (T : tables) (iova : Z) : option Z :=
  a ← table_at T iova (W - 1); entry_at T a iova (W - 1).

Record pt_wf (T : tables) : Prop := {
  pt_addr a t : T !! a = Some t -> addr_ok a /\ length t = 2048%nat;
  pt_at n i a : (n < W)%nat -> table_at T i n = Some a -> is_Some (T !! a);
  pt_inj n m i j a : (n < W)%nat -> (m < W)%nat -> table_at T i n = Some a -> table_at T j m = Some a ->
    n = m /\ same_upto c n i j
}.

Lemma levels_W : Z.of_nat W = walk_levels c /\ (2 <= W <= 3)%nat.
Proof. destruct Hlv; lia. Qed.

Lemma entry_at_Some T a i n : pt_wf T -> is_Some (T !! a) -> is_Some (entry_at T a i n).
Proof.
  intros Hwf [t Ht]. unfold entry_at. rewrite Ht. cbn. destruct (pt_addr _ Hwf a t Ht) as [_ Hl].
  apply lookup_lt_is_Some_2. pose proof (index_range c i (Z.of_nat n + 1)). lia.
Qed.

Lemma same_upto_S n i j :
  same_upto c (S n) i j <-> same_upto c n i j /\ idx i n = idx j n.
Proof.
  unfold same_upto. split.
  - intros Hs. split; [intros m Hm; apply Hs; lia|]. by rewrite (Hs n ltac:(lia)).
  - intros [Hs Hn] m Hm. destruct (decide (m = n)) as [->|]; [|apply Hs; lia].
    pose proof (index_range c i (Z.of_nat n + 1)). pose proof (index_range c j (Z.of_nat n + 1)). lia.
Qed.

Lemma same_upto_sym n i j : same_upto c n i j -> same_upto c n j i.
Proof. intros Hs m Hm. symmetry. by apply Hs. Qed.

Lemma same_upto_trans n i j k : same_upto c n i j -> same_upto c n j k -> same_upto c n i k.
Proof. intros H1 H2 m Hm. rewrite H1 //. by apply H2. Qed.

Lemma same_upto_le n m i j : (m <= n)%nat -> same_upto c n i j -> same_upto c m i j.
Proof. intros Hle Hs k Hk. apply Hs. lia. Qed.

(** The walk depends on the indices only. *)
Lemma table_at_same T n i j : same_upto c n i j -> table_at T i n = table_at T j n.
Proof.
  induction n as [|n IH]; [done|]. intros [Hs Hn]%same_upto_S. cbn. rewrite IH //.
  destruct (table_at T j n) as [a|]; [|done]. cbn. unfold entry_at. by rewrite Hn.
Qed.

Lemma leaf_entry_same T i j : same_upto c W i j -> leaf_entry T i = leaf_entry T j.
Proof.
  destruct levels_W as [_ HW]. replace W with (S (W - 1)) at 1 by lia. intros [Hs Hn]%same_upto_S.
  unfold leaf_entry. rewrite (table_at_same T _ i j) //. destruct (table_at T j (W - 1)); [|done].
  cbn. unfold entry_at. by rewrite Hn.
Qed.

Lemma zero_table_length : length zero_table = 2048%nat.
Proof. unfold zero_table. apply length_replicate. Qed.

Lemma zero_table_lookup k : (k < 2048)%nat -> zero_table !! k = Some 0.
Proof. intros Hk. unfold zero_table. apply lookup_replicate. split; [done|]. exact Hk. Qed.
#[local] Opaque zero_table.

(** *** Installing a table *)

Section install.
Context (T : tables) (Hwf : pt_wf T) (n : nat) (i a a' pte : Z) (t : list Z).
Context (Hn : (S n < W)%nat) (Ha : table_at T i n = Some a) (Ht : T !! a = Some t).
Context (Hpte : t !! idx i n = Some pte) (Hinv : valid_pte pte = false).
Context (Hok : addr_ok a') (Hfresh : T !! a' = None).
Definition installed : tables :=
  <[a := <[idx i n := dart8_table_pte a']> t]> (<[a' := zero_table]> T).

Lemma fresh_ne : a <> a'.
Proof. congruence. Qed.

Lemma installed_other b : b <> a -> b <> a' -> installed !! b = T !! b.
Proof. intros H1 H2. unfold installed. by rewrite !lookup_insert_ne. Qed.

Lemma installed_old b j m pte' :
  (m < W)%nat -> table_at T j m = Some b -> entry_at T b j m = Some pte' -> valid_pte pte' = true ->
  entry_at installed b j m = Some pte'.
Proof using All.
  intros Hm Hb He Hv. assert (b <> a') as Hne.
  { intros ->. unfold entry_at in He. by rewrite Hfresh in He. }
  unfold entry_at in *. destruct (decide (b = a)) as [->|]; [|by rewrite installed_other].
  unfold installed. rewrite lookup_insert_eq. rewrite Ht in He. cbn in *.
  destruct (pt_inj _ Hwf m n j i a Hm ltac:(lia) Hb Ha) as [-> Hs].
  rewrite list_lookup_insert_ne //. intros E. rewrite -E Hpte in He. congruence.
Qed.

Lemma installed_mono j m b : (m < W)%nat -> table_at T j m = Some b -> table_at installed j m = Some b.
Proof using All.
  revert b. induction m as [|m IH]; [done|]. intros b Hm. cbn.
  destruct (table_at T j m) as [b0|] eqn:Hb0; [|done]. cbn.
  destruct (entry_at T b0 j m) as [pte'|] eqn:He; [|done]. cbn. destruct (valid_pte pte') eqn:Hv; [|done].
  intros [= <-]. rewrite (IH b0 ltac:(lia) eq_refl). cbn.
  rewrite (installed_old b0 j m pte' ltac:(lia) Hb0 He Hv). cbn. by rewrite Hv.
Qed.

Lemma installed_only j m b :
  (m < W)%nat -> table_at installed j m = Some b ->
  table_at T j m = Some b \/ (m = S n /\ same_upto c (S n) i j /\ b = a').
Proof using All.
  revert b. induction m as [|m IH]; [by left|]. intros b Hm. cbn.
  destruct (table_at installed j m) as [b0|] eqn:Hb0; [|done]. cbn.
  destruct (entry_at installed b0 j m) as [pte'|] eqn:He; [|done]. cbn.
  destruct (valid_pte pte') eqn:Hv; [|done]. intros [= <-].
  destruct (IH b0 ltac:(lia) eq_refl) as [Hb|(-> & Hs & ->)].
  - rewrite Hb. cbn. assert (b0 <> a') as Hne.
    { destruct (pt_at _ Hwf m j b0 ltac:(lia) Hb). congruence. }
    unfold entry_at in *. destruct (decide (b0 = a)) as [->|]; [|left; rewrite installed_other // in He; rewrite He; cbn; by rewrite Hv].
    destruct (pt_inj _ Hwf m n j i a ltac:(lia) ltac:(lia) Hb Ha) as [-> Hs].
    unfold installed in He. rewrite lookup_insert_eq in He. rewrite Ht. cbn in *.
    destruct (decide (idx i n = idx j n)) as [E|E].
    + right. split; [done|]. split; [apply same_upto_S; split; [by apply same_upto_sym|done]|].
      rewrite -E list_lookup_insert_eq in He; [|apply lookup_lt_is_Some_1; by eexists].
      injection He as <-. by apply table_pte_pa.
    + left. rewrite list_lookup_insert_ne // in He. rewrite He. cbn. by rewrite Hv.
  - exfalso. unfold entry_at, installed in He. rewrite lookup_insert_ne in He; [|apply fresh_ne].
    rewrite lookup_insert_eq in He. cbn in He. 
    rewrite zero_table_lookup in He; [by injection He as <-|].
    pose proof (index_range c j (Z.of_nat (S n) + 1)). lia.
Qed.

Lemma installed_here : table_at installed i (S n) = Some a'.
Proof using All.
  cbn. rewrite (installed_mono i n a ltac:(lia) Ha). cbn. unfold entry_at, installed.
  rewrite lookup_insert_eq. cbn. rewrite list_lookup_insert_eq; [|apply lookup_lt_is_Some_1; by eexists].
  cbn. rewrite table_pte_valid. by rewrite table_pte_pa.
Qed.

Lemma installed_wf : pt_wf installed.
Proof using All.
  split.
  - intros b tb. unfold installed. destruct (decide (b = a)) as [->|].
    + rewrite lookup_insert_eq. intros [= <-]. rewrite length_insert. by apply (pt_addr _ Hwf).
    + rewrite lookup_insert_ne //. destruct (decide (b = a')) as [->|].
      * rewrite lookup_insert_eq. intros [= <-]. split; [done|apply zero_table_length].
      * rewrite lookup_insert_ne //. by apply (pt_addr _ Hwf).
  - intros m j b Hm Hb. unfold installed. destruct (decide (b = a)) as [->|]; [rewrite lookup_insert_eq; by eexists|].
    rewrite lookup_insert_ne //. destruct (decide (b = a')) as [->|]; [rewrite lookup_insert_eq; by eexists|].
    rewrite lookup_insert_ne //. destruct (installed_only j m b Hm Hb) as [?|(_ & _ & ->)]; [|done].
    by apply (pt_at _ Hwf m j).
  - intros m m' j j' b Hm Hm' Hb Hb'. assert (forall k j0, (k < W)%nat -> table_at T j0 k <> Some a') as Hno.
    { intros k j0 Hk Hk0. destruct (pt_at _ Hwf k j0 a' Hk Hk0). congruence. }
    destruct (installed_only j m b Hm Hb) as [H1|(-> & Hs & ->)],
      (installed_only j' m' _ Hm' Hb') as [H2|(-> & Hs' & E)].
    + by eapply (pt_inj _ Hwf).
    + subst b. by apply Hno in H1.
    + by apply Hno in H2.
    + split; [done|]. eapply same_upto_trans; [by apply same_upto_sym|done].
Qed.

(** A new table holds no page. *)
Lemma installed_leaf j :
  leaf_entry installed j = leaf_entry T j \/ (leaf_entry T j = None /\ leaf_entry installed j = Some 0).
Proof using All.
  destruct levels_W as [_ HW]. unfold leaf_entry.
  destruct (table_at installed j (W - 1)) as [b|] eqn:Hb.
  - destruct (installed_only j (W - 1) b ltac:(lia) Hb) as [H1|(E & Hs & ->)].
    + left. rewrite H1. cbn. unfold entry_at. destruct (decide (b = a)) as [->|].
      * destruct (pt_inj _ Hwf (W - 1) n j i a ltac:(lia) ltac:(lia) H1 Ha) as [? _]. lia.
      * rewrite installed_other //. destruct (pt_at _ Hwf (W - 1) j b ltac:(lia) H1). congruence.
    + right. split.
      * destruct (table_at T j (W - 1)) as [b'|] eqn:Hb'; [|done].
        apply installed_mono in Hb' as Hb2; [|lia]. rewrite Hb in Hb2. injection Hb2 as <-.
        destruct (pt_at _ Hwf (W - 1) j a' ltac:(lia) Hb'). congruence.
      * cbn. unfold entry_at, installed. rewrite lookup_insert_ne; [|apply fresh_ne]. rewrite lookup_insert_eq. cbn.
        apply zero_table_lookup. pose proof (index_range c j (Z.of_nat (W - 1) + 1)). lia.
  - left. destruct (table_at T j (W - 1)) as [b|] eqn:Hb'; [|done].
    apply installed_mono in Hb'; [congruence|lia].
Qed.
End install.

(** *** Writing a leaf *)

Section store.
Context (T : tables) (Hwf : pt_wf T) (i a w : Z) (t : list Z).
Context (Ha : table_at T i (W - 1) = Some a) (Ht : T !! a = Some t).
Definition leaf_stored : tables := <[a := <[idx i (W - 1)%nat := w]> t]> T.

Lemma leaf_stored_table j m : (m < W)%nat -> table_at leaf_stored j m = table_at T j m.
Proof using All.
  destruct levels_W as [_ HW]. induction m as [|m IH]; [done|]. intros Hm. cbn. rewrite IH; [|lia].
  destruct (table_at T j m) as [b|] eqn:Hb; [|done]. cbn. unfold entry_at, leaf_stored.
  destruct (decide (b = a)) as [->|]; [|by rewrite lookup_insert_ne].
  destruct (pt_inj _ Hwf m (W - 1) j i a ltac:(lia) ltac:(lia) Hb Ha) as [? _]. lia.
Qed.

Lemma leaf_stored_wf : pt_wf leaf_stored.
Proof using All.
  split.
  - intros b tb. unfold leaf_stored. destruct (decide (b = a)) as [->|].
    + rewrite lookup_insert_eq. intros [= <-]. rewrite length_insert. by apply (pt_addr _ Hwf).
    + rewrite lookup_insert_ne //. by apply (pt_addr _ Hwf).
  - intros m j b Hm Hb. rewrite leaf_stored_table // in Hb. unfold leaf_stored.
    destruct (decide (b = a)) as [->|]; [rewrite lookup_insert_eq; by eexists|].
    rewrite lookup_insert_ne //. by apply (pt_at _ Hwf m j).
  - intros m m' j j' b Hm Hm'. rewrite !leaf_stored_table //. by apply (pt_inj _ Hwf).
Qed.

Lemma leaf_stored_same j : same_upto c W i j -> leaf_entry leaf_stored j = Some w.
Proof using All.
  destruct levels_W as [_ HW]. intros Hs. rewrite -(leaf_entry_same _ i j) //. unfold leaf_entry.
  rewrite leaf_stored_table; [|lia]. rewrite Ha. cbn. unfold entry_at, leaf_stored. rewrite lookup_insert_eq. cbn.
  apply list_lookup_insert_eq. destruct (pt_addr _ Hwf a t Ht) as [_ ->].
  pose proof (index_range c i (Z.of_nat (W - 1) + 1)). lia.
Qed.

Lemma leaf_stored_other j : ~ same_upto c W i j -> leaf_entry leaf_stored j = leaf_entry T j.
Proof using All.
  destruct levels_W as [_ HW]. intros Hs. unfold leaf_entry. rewrite leaf_stored_table; [|lia].
  destruct (table_at T j (W - 1)) as [b|] eqn:Hb; [|done]. cbn. unfold entry_at, leaf_stored.
  destruct (decide (b = a)) as [->|]; [|by rewrite lookup_insert_ne].
  destruct (pt_inj _ Hwf (W - 1) (W - 1) j i a ltac:(lia) ltac:(lia) Hb Ha) as [_ Hsu].
  rewrite lookup_insert_eq Ht. cbn. apply list_lookup_insert_ne. intros E. apply Hs.
  replace W with (S (W - 1)) by lia. apply same_upto_S. split; [by apply same_upto_sym|done].
Qed.
End store.

(** *** The abstract map *)

Definition page_ok (v : Z * Z) : Prop :=
  0 <= v.1 < 2 ^ 42 /\ misaligned v.1 = false /\ Z.land v.2 prot_mask = v.2.

Record pt_inv (T : tables) (m : pagemap) : Prop := {
  pi_wf : pt_wf T;
  pi_pages p v : m !! p = Some v -> page_ok v;
  pi_leaf i : 0 <= i < va_top c ->
    match m !! page i with
    | Some (pa, prot) => leaf_entry T i = Some (dart8_leaf_pte pa prot)
    | None => forall pte, leaf_entry T i = Some pte -> valid_pte pte = false
    end
}.

(** New tables hold no page. *)
Definition grows (T T' : tables) : Prop := forall j,
  leaf_entry T' j = leaf_entry T j \/ (leaf_entry T j = None /\ leaf_entry T' j = Some 0).

Lemma grows_trans T1 T2 T3 : grows T1 T2 -> grows T2 T3 -> grows T1 T3.
Proof.
  intros H1 H2 j. destruct (H1 j) as [E1|[E1 E1']], (H2 j) as [E2|[E2 E2']].
  - left. congruence.
  - right. split; congruence.
  - right. split; congruence.
  - congruence.
Qed.

Lemma grows_inv T T' m : pt_inv T m -> pt_wf T' -> grows T T' -> pt_inv T' m.
Proof.
  intros [Hwf Hp Hl] Hwf' Hg. split; [done|done|]. intros i Hi. specialize (Hl i Hi).
  destruct (m !! page i) as [[pa prot]|]; destruct (Hg i) as [->|[E E']]; try done.
  - congruence.
  - intros pte. rewrite E'. by intros [= <-].
Qed.

Lemma table_get_eq T a i n pte :
  entry_at T a i n = Some pte -> table_get T a (dart8_index c i (Z.of_nat n + 1)) = Ret pte.
Proof. unfold entry_at, table_get. destruct (T !! a); [|done]. cbn. by intros ->. Qed.

Lemma table_set_eq T a t i n w :
  T !! a = Some t -> length t = 2048%nat ->
  table_set T a (dart8_index c i (Z.of_nat n + 1)) w = Ret (<[a := <[idx i n := w]> t]> T).
Proof.
  intros Ht Hl. unfold table_set. rewrite Ht. unfold zlen. rewrite Hl.
  pose proof (index_range c i (Z.of_nat n + 1)).
  destruct (Z.ltb_spec (dart8_index c i (Z.of_nat n + 1)) (Z.of_nat 2048)); [done|lia].
Qed.

Section alloc.
Context {A : Type} `{DartAllocLaws A}.

Lemma descend_spec n d i table T (s : A) :
  (n + d = W - 1)%nat -> pt_wf T -> table_at T i d = Some table ->
  twp (map_descend c n (Z.of_nat d + 1) i table (T, s)) (fun '((T', s'), r) =>
    pt_wf T' /\ grows T T' /\ (forall a, r = Some a -> table_at T' i (W - 1) = Some a)).
Proof using All.
  destruct levels_W as [_ HW]. revert d table T s. induction n as [|n IH]; intros d table T s Hnd Hwf Hd.
  { cbn. split; [done|]. split; [by left|]. intros a [= <-]. by replace (W - 1)%nat with d by lia. }
  cbn [map_descend]. destruct (pt_at _ Hwf d i table ltac:(lia) Hd) as [t Ht].
  destruct (pt_addr _ Hwf _ _ Ht) as [_ Hlen].
  destruct (entry_at_Some T table i d Hwf (ex_intro _ t Ht)) as [pte Hpte].
  rewrite (table_get_eq _ _ _ _ _ Hpte). cbn [mbind res_bind]. destruct (valid_pte pte) eqn:Hv.
  - replace (Z.of_nat d + 1 + 1) with (Z.of_nat (S d) + 1) by lia. apply IH; [lia|done|].
    cbn. rewrite Hd. cbn. rewrite Hpte. cbn. by rewrite Hv.
  - destruct (dart_alloc s T) as [[t'|] s'] eqn:Hal; [|by split; [|split; [left|]]].
    destruct (dart_alloc_fresh _ _ _ _ Hal) as [Hok Hfresh].
    unfold entry_at in Hpte. rewrite Ht in Hpte. cbn in Hpte.
    rewrite (table_set_eq _ _ t); [|rewrite lookup_insert_ne //; congruence|done]. cbn [mbind res_bind].
    pose proof (installed_wf T Hwf d i table t' pte t ltac:(lia) Hd Ht Hpte Hv Hok Hfresh) as Hwf'.
    pose proof (installed_here T Hwf d i table t' pte t ltac:(lia) Hd Ht Hpte Hv Hok Hfresh) as Hat.
    pose proof (installed_leaf T Hwf d i table t' pte t ltac:(lia) Hd Ht Hpte Hv Hok Hfresh) as Hgr.
    change (<[table := _]> (<[t' := zero_table]> T)) with (installed T d i table t' t).
    rewrite (table_get_eq _ _ _ _ (dart8_table_pte t')).
    2:{ unfold entry_at, installed. rewrite lookup_insert_eq. cbn. apply list_lookup_insert_eq.
        pose proof (index_range c i (Z.of_nat d + 1)). lia. }
    cbn [mbind res_bind]. rewrite table_pte_pa //.
    replace (Z.of_nat d + 1 + 1) with (Z.of_nat (S d) + 1) by lia.
    eapply twp_mono; [apply IH; [lia|done|done]|]. intros [[T' s''] r] (Hw & Hg & Hr).
    split; [done|]. split; [by eapply grows_trans|done].
Qed.

Lemma store_inv T m i a t pa prot :
  pt_inv T m -> 0 <= i < va_top c -> page_ok (pa, prot) ->
  table_at T i (W - 1) = Some a -> T !! a = Some t ->
  pt_inv (leaf_stored T i a (dart8_leaf_pte pa prot) t) (<[page i := (pa, prot)]> m).
Proof using All.
  intros [Hwf Hp Hl] Hi Hok Ha Ht. split.
  - by apply leaf_stored_wf.
  - intros p v. destruct (decide (p = page i)) as [->|]; [rewrite lookup_insert_eq; by intros [= <-]|].
    rewrite lookup_insert_ne //. apply Hp.
  - intros j Hj. destruct (decide (page i = page j)) as [E|E].
    + rewrite -E lookup_insert_eq. apply leaf_stored_same; try done. by apply same_page.
    + rewrite lookup_insert_ne //. rewrite leaf_stored_other //; [by apply Hl|]. by rewrite same_page.
Qed.

(** The outcome of one page, for the reason the code gives. *)
Definition page_outcome (m : pagemap) (p : Z) (v : Z * Z) (m' : pagemap) (e : option errno) : Prop :=
  (e = None /\ (m !! p = None \/ m !! p = Some v) /\ m' = <[p := v]> m) \/
  (e = Some EEXIST /\ (exists v', m !! p = Some v' /\ v' <> v) /\ m' = m) \/
  (e = Some ENOMEM /\ m' = m).

Lemma map_page_spec T m i pa prot (s : A) :
  pt_inv T m -> 0 <= i < va_top c -> page_ok (pa, prot) ->
  twp (map_page c root i pa prot (T, s)) (fun '((T', s'), e) =>
    exists m', pt_inv T' m' /\ page_outcome m (page i) (pa, prot) m' e).
Proof using All.
  intros Hinv Hi Hok. destruct levels_W as [EW HW]. unfold map_page. apply twp_bind.
  replace (Z.to_nat (walk_levels c - 1)) with (W - 1)%nat by lia.
  eapply twp_mono; [apply (descend_spec (W - 1) 0 i root T s ltac:(lia) (pi_wf _ _ Hinv) eq_refl)|].
  intros [[T1 s1] [a|]] (Hwf1 & Hg & Ha); cycle 1.
  { exists m. split; [by eapply grows_inv|]. by right; right. }
  specialize (Ha a eq_refl). pose proof (grows_inv _ _ _ Hinv Hwf1 Hg) as Hinv1. clear Hg Hinv.
  destruct (pt_at _ Hwf1 (W - 1) i a ltac:(lia) Ha) as [t Ht]. destruct (pt_addr _ Hwf1 _ _ Ht) as [_ Hlen].
  destruct (entry_at_Some T1 a i (W - 1) Hwf1 (ex_intro _ t Ht)) as [pte Hpte].
  replace (walk_levels c) with (Z.of_nat (W - 1) + 1) by lia.
  rewrite (table_get_eq _ _ _ _ _ Hpte). cbn [mbind res_bind].
  rewrite (table_set_eq _ _ _ _ _ _ Ht Hlen). cbn [mbind res_bind].
  pose proof (pi_leaf _ _ Hinv1 i Hi) as Hleaf. assert (leaf_entry T1 i = Some pte) as Hle.
  { unfold leaf_entry. rewrite Ha. done. }
  pose proof (store_inv T1 m i a t pa prot Hinv1 Hi Hok Ha Ht) as Hst.
  destruct (m !! page i) as [[pa' prot']|] eqn:Hm.
  - rewrite Hle in Hleaf. injection Hleaf as ->. rewrite leaf_pte_valid. cbn [andb].
    destruct (Z.eqb_spec (dart8_leaf_pte pa' prot') (dart8_leaf_pte pa prot)) as [E|E]; cbn [negb].
    + destruct (pi_pages _ _ Hinv1 _ _ Hm) as (H1 & H2 & H3), Hok as (H4 & H5 & H6). cbn in *.
      destruct (leaf_pte_inj pa' prot' pa prot ltac:(done) ltac:(done) ltac:(done) ltac:(done) E) as [-> Ep].
      exists (<[page i := (pa, prot)]> m). split; [exact Hst|]. left. split; [done|]. split; [|done].
      right. rewrite Hm. do 2 f_equal. congruence.
    + exists m. split; [done|]. right; left. split; [done|]. split; [|done]. rewrite Hm.
      eexists. split; [done|]. congruence.
  - rewrite (Hleaf pte Hle). cbn [andb]. exists (<[page i := (pa, prot)]> m). split; [exact Hst|]. left. by rewrite Hm; auto.
Qed.

(** The first [k] pages of a mapping. *)
Fixpoint add_pages (k : nat) (p pa prot : Z) (m : pagemap) : pagemap :=
  match k with
  | O => m
  | S k' => add_pages k' (p + 1) (pa + D8_GRANULE) prot (<[p := (pa, prot)]> m)
  end.

(** [dart8_map] maps page by page and stops, without undoing, at a page mapped
    otherwise or at a failed allocation. *)
Definition pages_outcome (n : nat) (p pa prot : Z) (m m' : pagemap) (e : option errno) : Prop :=
  exists k, (k <= n)%nat /\ m' = add_pages k p pa prot m /\
    (forall j, (j < k)%nat -> let q := p + Z.of_nat j in
       m !! q = None \/ m !! q = Some (pa + Z.of_nat j * D8_GRANULE, prot)) /\
    ((e = None /\ k = n) \/
     (e = Some EEXIST /\ (k < n)%nat /\
        exists v, m !! (p + Z.of_nat k) = Some v /\ v <> (pa + Z.of_nat k * D8_GRANULE, prot)) \/
     (e = Some ENOMEM /\ (k < n)%nat)).

Lemma pages_outcome_cons n p pa prot m m' e :
  pages_outcome n (p + 1) (pa + D8_GRANULE) prot (<[p := (pa, prot)]> m) m' e ->
  m !! p = None \/ m !! p = Some (pa, prot) ->
  pages_outcome (S n) p pa prot m m' e.
Proof using.
  intros (k & Hk & Em & Hfree & He) Hm0. exists (S k). split; [lia|]. split; [done|].
  assert (forall j : nat, <[p := (pa, prot)]> m !! (p + 1 + Z.of_nat j) = m !! (p + Z.of_nat (S j))) as Hsh.
  { intros j. rewrite lookup_insert_ne; [|lia]. f_equal. lia. }
  split.
  - intros [|j] Hj; cbn zeta.
    + replace (p + Z.of_nat 0) with p by lia. by replace (pa + Z.of_nat 0 * D8_GRANULE) with pa by lia.
    + specialize (Hfree j ltac:(lia)). cbn zeta in Hfree. rewrite Hsh in Hfree.
      by replace (pa + Z.of_nat (S j) * D8_GRANULE) with (pa + D8_GRANULE + Z.of_nat j * D8_GRANULE) by lia.
  - destruct He as [[-> ->]|[(-> & Hlt & Hc)|[-> Hlt]]]; [by left|right; left|right; right; split; [done|lia]].
    split; [done|]. split; [lia|]. rewrite Hsh in Hc.
    by replace (pa + Z.of_nat (S k) * D8_GRANULE) with (pa + D8_GRANULE + Z.of_nat k * D8_GRANULE) by lia.
Qed.

Lemma page_add i k : page (i + k * D8_GRANULE) = page i + k.
Proof using. unfold page, D8_GRANULE. by rewrite Z.div_add. Qed.

Lemma misaligned_add x k : misaligned x = false -> misaligned (x + k * D8_GRANULE) = false.
Proof using. rewrite !misaligned_false. change D8_GRANULE with (2 ^ 14). by rewrite Z_mod_plus_full. Qed.

Lemma map_pages_spec n T m iova pa prot off (s : A) :
  pt_inv T m -> 0 <= off -> 0 <= iova -> 0 <= pa -> misaligned off = false -> misaligned pa = false ->
  iova + off + Z.of_nat n * D8_GRANULE <= va_top c -> pa + off + Z.of_nat n * D8_GRANULE <= 2 ^ 42 ->
  Z.land prot prot_mask = prot ->
  twp (map_pages c n root iova pa prot off (T, s)) (fun '((T', s'), e) =>
    exists m', pt_inv T' m' /\ pages_outcome n (page (iova + off)) (pa + off) prot m m' e).
Proof using All.
  revert T m off s. induction n as [|n IH]; intros T m off s Hinv Ho Hi Hpa Hao Hap Htop Hp42 Hpr.
  { cbn. exists m. split; [done|]. exists 0%nat. split; [done|]. split; [done|]. split; [lia|]. by left. }
  assert (va_top c <= 2 ^ 47) by (unfold va_top; destruct Hlv as [-> | ->]; cbn; lia).
  cbn [map_pages]. assert (0 < D8_GRANULE) by done.
  rewrite (wrap_small 64 (iova + off)); [|lia]. rewrite (wrap_small 64 (pa + off)); [|lia].
  rewrite (wrap_small 64 (off + D8_GRANULE)); [|lia]. apply twp_bind.
  eapply twp_mono; [apply (map_page_spec T m (iova + off) (pa + off) prot s Hinv)|].
  - lia.
  - split; [cbn; lia|]. split; [|done]. cbn. rewrite !misaligned_false in Hao, Hap |- *. dlia.
  - intros [[T1 s1] e] (m1 & Hinv1 & Hout). destruct Hout as [(-> & Hm & ->)|[(-> & Hc & ->)|[-> ->]]].
    + eapply twp_mono; [apply (IH T1 _ (off + D8_GRANULE) s1 Hinv1); try done; try lia|].
      * rewrite -(Z.mul_1_l D8_GRANULE). by apply misaligned_add.
      * intros [[T' s'] e] (m' & Hinv' & Hout). exists m'. split; [done|]. apply pages_outcome_cons; [|done].
        replace (page (iova + off) + 1) with (page (iova + (off + D8_GRANULE))); [|rewrite -page_add; f_equal; lia].
        by replace (pa + off + D8_GRANULE) with (pa + (off + D8_GRANULE)) by lia.
    + exists m. split; [done|]. exists 0%nat. split; [lia|]. split; [done|]. split; [lia|]. right; left.
      split; [done|]. split; [lia|]. replace (page (iova + off) + Z.of_nat 0) with (page (iova + off)) by lia.
      by replace (pa + off + Z.of_nat 0 * D8_GRANULE) with (pa + off) by lia.
    + exists m. split; [done|]. exists 0%nat. split; [lia|]. split; [done|]. split; [lia|]. right; right. split; [done|lia].
Qed.
End alloc.

(** ** Translation *)

Lemma walk_from_spec n d i write table T :
  (S n + d = W)%nat -> pt_wf T -> table_at T i d = Some table ->
  twp (walk_from c (S n) (Z.of_nat d + 1) i write table T) (fun r =>
    match r with
    | inl pte => leaf_entry T i = Some pte /\ valid_pte pte = true
    | inr e => (exists l, 1 <= l <= walk_levels c /\ e = dart8_fault_at c l write) /\
               forall pte, leaf_entry T i = Some pte -> valid_pte pte = false
    end).
Proof using Hlv.
  destruct levels_W as [EW HW]. revert d table. induction n as [|n IH]; intros d table Hnd Hwf Hd;
    destruct (pt_at _ Hwf d i table ltac:(lia) Hd) as [t Ht];
    destruct (entry_at_Some T table i d Hwf (ex_intro _ t Ht)) as [pte Hpte];
    cbn [walk_from]; rewrite (table_get_eq _ _ _ _ _ Hpte); cbn [mbind res_bind];
    destruct (valid_pte pte) eqn:Hv; cbn [negb].
  - destruct (Z.ltb_spec (Z.of_nat d + 1) (walk_levels c)); [lia|]. split; [|done].
    unfold leaf_entry. replace (W - 1)%nat with d by lia. by rewrite Hd.
  - split; [exists (Z.of_nat d + 1); split; [lia|done]|]. unfold leaf_entry.
    replace (W - 1)%nat with d by lia. rewrite Hd. cbn. intros pte'. rewrite Hpte. by intros [= <-].
  - destruct (Z.ltb_spec (Z.of_nat d + 1) (walk_levels c)); [|lia].
    replace (Z.of_nat d + 1 + 1) with (Z.of_nat (S d) + 1) by lia. apply (IH (S d)); [lia|done|].
    cbn. rewrite Hd. cbn. rewrite Hpte. cbn. by rewrite Hv.
  - split; [exists (Z.of_nat d + 1); split; [lia|done]|]. intros pte' Hle. exfalso.
    assert (table_at T i (S d) = None) as Hnone by (cbn; rewrite Hd; cbn; rewrite Hpte; cbn; by rewrite Hv).
    assert (forall k, table_at T i (k + S d) = None) as Hk by (intros k; induction k as [|k IHk]; [done|cbn; by rewrite IHk]).
    unfold leaf_entry in Hle. replace (W - 1)%nat with ((W - 1 - S d) + S d)%nat in Hle by lia. by rewrite Hk in Hle.
Qed.

(** What the hardware walk answers for an abstract map. *)
Definition walk_spec (m : pagemap) (iova : Z) (write : bool) (r : Z + Z) : Prop :=
  match m !! page iova with
  | Some (pa, prot) =>
      r = if write && negb (Z.land prot D8_PTE_NO_WRITE =? 0) then inr D8_FAULT_WRITE
          else if negb write && negb (Z.land prot D8_PTE_NO_READ =? 0) then inr D8_FAULT_READ
          else inl (pa + iova mod D8_GRANULE)
  | None => exists l, 1 <= l <= walk_levels c /\ r = inr (dart8_fault_at c l write)
  end.

Lemma translate_spec T m i write :
  root <> 0 -> pt_inv T m -> 0 <= i < va_top c ->
  twp (dart8_translate c T root i write) (walk_spec m i write).
Proof using Hlv.
  intros Hr [Hwf Hp Hl] Hi. unfold dart8_translate. destruct (Z.eqb_spec root 0) as [?|_]; [done|]. apply twp_bind.
  destruct levels_W as [EW HW]. destruct W as [|n] eqn:En; [lia|].
  eapply twp_mono; [apply (walk_from_spec n 0 i write root T ltac:(lia) Hwf eq_refl)|].
  specialize (Hl i Hi). unfold walk_spec. intros [pte|e].
  - intros [Hle Hv]. rewrite Hle in Hl. destruct (m !! page i) as [[pa prot]|] eqn:Hm.
    + injection Hl as ->. destruct (Hp _ _ Hm) as (H1 & H2 & _). cbn in H1, H2.
      rewrite !leaf_pte_prot; [|by auto|by auto]. rewrite leaf_pte_pa //.
      replace (D8_GRANULE - 1) with (2 ^ 14 - 1) by reflexivity. rewrite land_mask_mod //.
      change D8_GRANULE with (2 ^ 14). rewrite (wrap_small 64); [|dlia].
      destruct write, (Z.land prot D8_PTE_NO_WRITE =? 0), (Z.land prot D8_PTE_NO_READ =? 0); done.
    + by rewrite (Hl pte eq_refl) in Hv.
  - intros [(l & Hlr & ->) Hle]. destruct (m !! page i) as [[pa prot]|] eqn:Hm; [|by exists l].
    apply Hle in Hl. by rewrite leaf_pte_valid in Hl.
Qed.

(** ** The whole call *)

Record map_req := MapReq { q_iova : Z; q_pa : Z; q_size : Z; q_prot : Z }.

Definition req_ok (q : map_req) : Prop :=
  in_range 64 (q_iova q) /\ 0 <= q_pa q /\ in_range 64 (q_size q) /\ q_pa q + q_size q <= 2 ^ 42.

Definition map_spec (m : pagemap) (q : map_req) (m' : pagemap) (e : option errno) : Prop :=
  if misaligned (q_iova q) || misaligned (q_pa q) || misaligned (q_size q) || (q_size q =? 0)
  then e = Some EINVAL /\ m' = m
  else if bool_decide (q_iova q < vm_base c \/ vm_base c + vm_size c < q_iova q + q_size q)
  then e = Some ERANGE /\ m' = m
  else pages_outcome (Z.to_nat (q_size q / D8_GRANULE)) (page (q_iova q)) (q_pa q)
         (Z.land (q_prot q) prot_mask) m m' e.

Lemma misaligned_lor x y : misaligned (Z.lor x y) = misaligned x || misaligned y.
Proof using.
  unfold misaligned. rewrite Z.land_lor_distr_l -negb_andb. f_equal.
  apply eq_true_iff_eq. rewrite andb_true_iff !Z.eqb_eq. apply Z.lor_eq_0_iff.
Qed.

Lemma dart8_map_spec {A} `{DartAllocLaws A} T m q (s : A) :
  root <> 0 -> cfg_ok c -> pt_inv T m -> req_ok q ->
  twp (dart8_map c root (q_iova q) (q_pa q) (q_size q) (q_prot q) (T, s)) (fun '((T', s'), e) =>
    exists m', pt_inv T' m' /\ map_spec m q m' e).
Proof using Hlv.
  intros Hr (_ & Hvb & Hvs & Htop & Hab & Has) Hinv (Hi & Hpa & Hs & H42). unfold dart8_map, map_spec.
  rewrite !misaligned_lor. destruct (Z.eqb_spec root 0) as [?|_]; [done|]. cbn [orb].
  destruct (misaligned (q_iova q) || misaligned (q_pa q) || misaligned (q_size q) || (q_size q =? 0)) eqn:Hg.
  { by exists m. }
  rewrite !orb_false_iff in Hg. destruct Hg as [[[Hmi Hmp] Hms] Hz]. apply Z.eqb_neq in Hz. unfold in_range in *.
  assert (va_top c <= 2 ^ 47) by (unfold va_top; destruct Hlv as [-> | ->]; cbn; lia).
  rewrite (wrap_small 64 (vm_base c + vm_size c)); [|lia].
  match goal with |- context [if ?b then _ else map_pages _ _ _ _ _ _ _ _] => set (out := b) end.
  assert (out = bool_decide (q_iova q < vm_base c \/ vm_base c + vm_size c < q_iova q + q_size q)) as ->.
  { subst out. symmetry. set (last := u64 _).
    assert (last = q_iova q + q_size q - 1 \/ last < q_iova q /\ 2 ^ 64 < q_iova q + q_size q) as Hlast.
    { subst last. unfold wrap. destruct (decide (q_iova q + q_size q < 2 ^ 64)).
      - left. rewrite (Z.mod_small (q_iova q + q_size q)); [|lia]. apply Z.mod_small. lia.
      - destruct (decide (q_iova q + q_size q = 2 ^ 64)) as [E|].
        + left. rewrite E. reflexivity.
        + right. rewrite (Z.mod_eq (q_iova q + q_size q)) //.
          replace ((q_iova q + q_size q) / 2 ^ 64) with 1 by dlia. rewrite Z.mod_small; lia. }
    destruct (Z.ltb_spec (q_iova q) (vm_base c)); [apply bool_decide_eq_true; by left|]. cbn [orb].
    destruct (Z.ltb_spec last (q_iova q)); [apply bool_decide_eq_true; lia|]. cbn [orb].
    destruct (Z.geb_spec last (vm_base c + vm_size c)); [apply bool_decide_eq_true|apply bool_decide_eq_false]; lia. }
  case_bool_decide as Hout; [by exists m|].
  assert (Z.of_nat (Z.to_nat (q_size q / D8_GRANULE)) * D8_GRANULE = q_size q) as En.
  { rewrite misaligned_false in Hms. change D8_GRANULE with (2 ^ 14). rewrite Z2Nat.id; dlia. }
  eapply twp_mono; [apply (map_pages_spec _ T m (q_iova q) (q_pa q) _ 0 s Hinv); try done; try lia|].
  - by rewrite -Z.land_assoc Z.land_diag.
  - intros [[T' s'] e] (m' & Hinv' & Ho). exists m'. split; [done|]. by rewrite !Z.add_0_r in Ho.
Qed.
End tree.

Fixpoint dart8_maps {A} `{DartAlloc A} (c : dart8_cfg) (root : Z) (qs : list map_req) (st : tables * A)
    : res (tables * A * list (option errno)) :=
  match qs with
  | [] => Ret (st, [])
  | q :: qs =>
      '(st, e) ← dart8_map c root (q_iova q) (q_pa q) (q_size q) (q_prot q) st;
      '(st, es) ← dart8_maps c root qs st;
      Ret (st, e :: es)
  end.

Inductive maps_spec (c : dart8_cfg) : pagemap -> list map_req -> list (option errno) -> pagemap -> Prop :=
  | maps_nil m : maps_spec c m [] [] m
  | maps_cons m q m' e qs es m'' :
      map_spec c m q m' e -> maps_spec c m' qs es m'' -> maps_spec c m (q :: qs) (e :: es) m''.

Lemma maps_refine {A} `{DartAllocLaws A} c root qs T m (s : A) :
  root <> 0 -> cfg_ok c -> pt_inv c root T m -> Forall req_ok qs ->
  twp (dart8_maps c root qs (T, s)) (fun '((T', s'), es) =>
    exists m', pt_inv c root T' m' /\ maps_spec c m qs es m').
Proof.
  intros Hr Hc. revert T m s. induction qs as [|q qs IH]; intros T m s Hinv Hqs.
  { cbn. exists m. split; [done|constructor]. }
  apply Forall_cons in Hqs as [Hq Hqs]. cbn [dart8_maps]. apply twp_bind.
  eapply twp_mono; [apply (dart8_map_spec c (proj1 Hc) root T m q s Hr Hc Hinv Hq)|].
  intros [[T1 s1] e] (m1 & Hinv1 & Hs1). apply twp_bind.
  eapply twp_mono; [apply (IH T1 m1 s1 Hinv1 Hqs)|]. intros [[T2 s2] es] (m2 & Hinv2 & Hs2).
  cbn. exists m2. split; [done|]. by econstructor.
Qed.

Lemma root_inv c root : levels_ok c -> addr_ok root -> pt_inv c root {[root := zero_table]} ∅.
Proof.
  intros Hl Hok. assert (forall n i a, table_at c root {[root := zero_table]} i n = Some a -> n = 0%nat /\ a = root) as Hat.
  { intros n i. induction n as [|n IH]; intros a; cbn; [by intros [= <-]|].
    destruct (table_at c root _ i n) as [b|]; [|done]. destruct (IH b eq_refl) as [-> ->]. cbn.
    unfold entry_at. rewrite lookup_singleton_eq. cbn. rewrite zero_table_lookup; [done|].
    pose proof (index_range c i (Z.of_nat 0 + 1)). lia. }
  split.
  - split.
    + intros a t [<- <-]%lookup_singleton_Some. split; [done|apply zero_table_length].
    + intros n i a _ [_ ->]%Hat. rewrite lookup_singleton_eq. by eexists.
    + intros n m i j a _ _ [-> _]%Hat [-> _]%Hat. split; [done|]. intros m Hm. lia.
  - intros p v. by rewrite lookup_empty.
  - intros i Hi. rewrite lookup_empty. intros pte. unfold leaf_entry.
    destruct (table_at c root _ i (Z.to_nat (walk_levels c) - 1)) as [a|] eqn:Ha; [|done].
    apply Hat in Ha as [Hn _]. destruct Hl as [E|E]; rewrite E in Hn; lia.
Qed.

(** The register words of a stream name the root and the walk depth. *)
Lemma stream_program_spec c sid root l :
  sids c = Some l -> zlen l = n_sids c -> 0 <= root < 2 ^ 64 ->
  twp (dart8_stream_program c sid root) (fun r =>
    match r with
    | inr e => e = EINVAL /\ (sid ∉ l \/ misaligned root = true)
    | inl (ttbr, tcr) => sid ∈ l /\ Z.shiftl (Z.shiftr ttbr 2) 14 = root /\ Z.testbit ttbr 0 = true /\
        tcr = (if walk_levels c =? 3 then 9 else 1)
    end).
Proof.
  intros Hs Hn Hr. unfold dart8_stream_program, dart8_sid_ok. rewrite Hs -Hn. unfold zlen. rewrite Nat2Z.id.
  assert (forall k i, (i + k = length l)%nat ->
    sid_scan l k (Z.of_nat i) sid = Ret (bool_decide (sid ∈ drop i l))) as Hscan.
  { intros k. induction k as [|k IH]; intros i Hi; cbn [sid_scan].
    - rewrite drop_ge; [|lia]. done.
    - rewrite Nat2Z.id. destruct (lookup_lt_is_Some_2 l i ltac:(lia)) as [x Hx]. rewrite Hx.
      rewrite (drop_S _ _ _ Hx). destruct (Z.eqb_spec x sid) as [->|Hne].
      + f_equal. symmetry. apply bool_decide_eq_true. by left.
      + replace (Z.of_nat i + 1) with (Z.of_nat (S i)) by lia. rewrite IH; [|lia]. f_equal.
        apply bool_decide_ext. rewrite elem_of_cons. naive_solver. }
  change 0 with (Z.of_nat 0) at 1. rewrite (Hscan (length l) 0%nat eq_refl). cbn [mbind res_bind]. rewrite drop_0.
  case_bool_decide as Hin; cbn [negb orb]; [|split; [done|by left]].
  destruct (misaligned root) eqn:Hm; cbn; [split; [done|by right]|]. split; [done|].
  apply misaligned_false in Hm. unfold dart8_ttbr, D8_TTBR_ADDR_SHIFT, D8_TTBR_FIELD_SHIFT, D8_TTBR_VALID, dart8_tcr.
  rewrite wrap_small; [|rewrite Z.shiftr_div_pow2 // Z.shiftl_mul_pow2 //; dlia].
  split; [|split; [|destruct (walk_levels c =? 3); reflexivity]].
  - rewrite Z.shiftr_lor Z.shiftr_shiftl_l //. change (Z.shiftr 1 2) with 0. rewrite Z.lor_0_r Z.shiftl_0_r.
    rewrite Z.shiftr_div_pow2 // Z.shiftl_mul_pow2 //. dlia.
  - rewrite -Z.bit0_odd Z.lor_spec. by rewrite orb_true_r.
Qed.

(** ** Properties *)

(** C33. From an empty root table, over any sequence of [dart8_map] calls whose
    physical ranges fit the 42-bit address field, and whatever tables the
    allocation callback supplies or refuses: no access leaves a table, each
    call returns what the abstract page map says (refusals change nothing; a
    call that meets a page mapped otherwise, or a failed allocation, keeps
    exactly the pages before it), and every [dart8_translate] agrees with the
    abstract map, protection faults and in-page offsets included. *)
Theorem dart_maps_refine {A} `{DartAllocLaws A} c base size s ns root (al : A) qs :
  in_range 64 base -> in_range 64 size -> dart8_cfg_init base size s ns true true = inl c ->
  addr_ok root -> Forall req_ok qs ->
  twp (dart8_maps c root qs ({[root := zero_table]}, al)) (fun '((T, _), es) =>
    exists m, maps_spec c ∅ qs es m /\
      forall iova write, 0 <= iova < va_top c ->
        twp (dart8_translate c T root iova write) (walk_spec c m iova write)).
Proof.
  intros Hb Hs Hc Hr Hqs. destruct (cfg_init_ok _ _ _ _ _ _ _ Hb Hs Hc) as [Hok _].
  pose proof (proj1 Hok) as Hl. assert (root <> 0) as Hr0 by (destruct Hr; lia).
  eapply twp_mono; [apply (maps_refine c root qs _ ∅ al Hr0 Hok (root_inv c root Hl Hr) Hqs)|].
  intros [[T s'] es] (m & Hinv & Hm). exists m. split; [done|]. intros iova write Hi. by apply translate_spec.
Qed.

(** A bump allocator of tables. *)
#[global] Instance bump_tables : DartAlloc Z := fun s T =>
  if bool_decide (0 < s < 2 ^ 42) && negb (misaligned s) && bool_decide (T !! s = None)
  then (Some s, s + D8_GRANULE) else (None, s).

#[global] Instance bump_tables_laws : DartAllocLaws Z.
Proof.
  intros s T a s'. unfold dart_alloc, bump_tables. destruct (_ && _ && _) eqn:Hb; [|done]. intros [= <- <-].
  apply andb_prop in Hb as [[Ha Hm]%andb_prop Hf]. apply bool_decide_eq_true in Ha, Hf. apply negb_true_iff in Hm.
  split; [by split|done].
Qed.

(** The firmware's TEXT and DATA segments of the T6021, then a mapping that
    runs into them. *)
Definition t6021_fw_maps : list map_req :=
  [MapReq 0x10000000000 0x10000848000 0xc4000 0; MapReq 0x100000c4000 0x10001400000 0x438000 0;
   MapReq 0x100004fc000 0x200000 0x8000 4; MapReq 0x100000c0000 0x300000 0x8000 0].

Definition h16_cfg : dart8_cfg := Dart8Cfg 0x10000000000 0x30000000000 3 (Some [0; 10; 11; 15]) 4.

Definition fw_maps_ok (r : res (tables * Z * list (option errno))) : bool :=
  match r with
  | Ret ((T, _), es) =>
      bool_decide (es = [None; None; None; Some EEXIST]) &&
      bool_decide (dart8_translate h16_cfg T 0x40000000 0x100000dca10 false = Ret (inl 0x10001418a10)) &&
      bool_decide (dart8_translate h16_cfg T 0x40000000 0x100004fc000 true = Ret (inr D8_FAULT_WRITE))
  | _ => false
  end.

Lemma fw_maps_ok_spec r : fw_maps_ok r = true -> exists T s, r = Ret ((T, s), [None; None; None; Some EEXIST]) /\
  dart8_translate h16_cfg T 0x40000000 0x100000dca10 false = Ret (inl 0x10001418a10).
Proof.
  destruct r as [[[T s] es]| |]; try done. cbn. intros [[H1 H2]%andb_prop _]%andb_prop.
  apply bool_decide_eq_true in H1, H2. subst es. by exists T, s.
Qed.

Lemma dart_maps_refine_witness :
  exists T s m, dart8_maps h16_cfg 0x40000000 t6021_fw_maps ({[0x40000000 := zero_table]}, 0x40004000) =
                  Ret ((T, s), [None; None; None; Some EEXIST]) /\
    maps_spec h16_cfg ∅ t6021_fw_maps [None; None; None; Some EEXIST] m /\
    walk_spec h16_cfg m 0x100000dca10 false (inl 0x10001418a10).
Proof.
  pose proof (dart_maps_refine h16_cfg 0x10000000000 0x30000000000 (Some [0; 10; 11; 15]) 4 0x40000000 0x40004000
                t6021_fw_maps) as H.
  destruct (fw_maps_ok_spec (dart8_maps h16_cfg 0x40000000 t6021_fw_maps ({[0x40000000 := zero_table]}, 0x40004000)))
    as (T & s & Hr & Ht); [vm_compute; reflexivity|].
  exists T, s. rewrite Hr in H. destruct H as (m & Hm & Hw).
  - vm_compute. split; congruence.
  - vm_compute. split; congruence.
  - vm_compute. reflexivity.
  - vm_compute. repeat split; congruence.
  - repeat constructor; vm_compute; congruence.
  - exists m. split; [exact Hr|]. split; [exact Hm|].
    specialize (Hw 0x100000dca10 false). rewrite Ht in Hw. apply Hw. vm_compute. split; congruence.
Defined.
