(* ===== verification/Pool.v ===== *)
(** * The parked-buffer pool of the T6021 driver

    [src/ane/t6021/ane_t6021_pool.h]: buffers whose last reference is gone
    but whose memory and IOVA stay reserved. Part one translates every
    function of the header and proves the accounting invariant of each; part
    two runs any number of [ane_t6021_pool_park] calls interleaved at their
    atomic operations and shows that the budget still holds. *)

From S2P Require Import Prelude.

(** An entry is identified by [ent_id] (its address in the C code). *)
Record pool_ent := PoolEnt {
  ent_id : Z;
  ent_size : Z;        (* size_t size *)
  pooled_sec : bool;   (* charged against the section budget *)
}.

#[global] Instance pool_ent_eq_dec : EqDecision pool_ent.
Proof. solve_decision. Defined.

(** [list] is oldest first; [sec_bytes] is the 64-bit residue of the atomic
    counter. The spin lock makes each function's list section one step. *)
Record pool := Pool {
  p_list : list pool_ent;
  sec_bytes : Z;
  max_mb : Z;          (* unsigned int *)
  min_kb : Z;          (* unsigned int *)
}.

Definition status := option errno.

Section pool.
(** The kernel's page size is a build option: 4, 16 or 64 KiB on arm64. *)
Context (PAGE_SHIFT : Z).

Definition page_align (x : Z) : Z := align_up PAGE_SHIFT x.

Definition ane_t6021_pool_init (max_mb min_kb : Z) : pool := Pool [] 0 max_mb min_kb.

Definition ane_t6021_pool_admits (p : pool) (size : Z) : bool :=
  negb (max_mb p =? 0) && (u64 (min_kb p * 1024) <=? page_align size).

Definition pool_charge (p : pool) (n : Z) : pool :=
  Pool (p_list p) (u64 (sec_bytes p + n)) (max_mb p) (min_kb p).

Definition pool_uncharge (p : pool) (n : Z) : pool :=
  Pool (p_list p) (u64 (sec_bytes p - n)) (max_mb p) (min_kb p).

Definition set_list (p : pool) (l : list pool_ent) : pool :=
  Pool l (sec_bytes p) (max_mb p) (min_kb p).

(** The first entry of the list that satisfies [f], and the others. *)
Fixpoint list_take_first (f : pool_ent -> bool) (l : list pool_ent) :
    option (pool_ent * list pool_ent) :=
  match l with
  | [] => None
  | e :: l' =>
      if f e then Some (e, l')
      else match list_take_first f l' with
           | Some (e', r) => Some (e', e :: r)
           | None => None
           end
  end.

Definition ane_t6021_pool_evict_oldest (p : pool) : option pool_ent * pool :=
  match list_take_first pooled_sec (p_list p) with
  | Some (e, l) =>
      (Some (PoolEnt (ent_id e) (ent_size e) false),
       set_list (pool_uncharge p (page_align (ent_size e))) l)
  | None => (None, p)
  end.

Definition ane_t6021_pool_park_uncharged (p : pool) (ent : pool_ent) (size : Z) : pool :=
  set_list p (p_list p ++ [PoolEnt (ent_id ent) size false]).

Definition ane_t6021_pool_take (p : pool) (size : Z) (quarantined : bool) :
    option pool_ent * pool :=
  if quarantined then (None, p)
  else
    match list_take_first (fun e => page_align (ent_size e) =? page_align size) (p_list p) with
    | Some (e, l) =>
        let p := set_list p l in
        (Some (PoolEnt (ent_id e) (ent_size e) false),
         if pooled_sec e then pool_uncharge p (page_align (ent_size e)) else p)
    | None => (None, p)
    end.

Definition ane_t6021_pool_sec_bytes (p : pool) : Z :=
  if bool_decide (2 ^ 63 <= sec_bytes p) then sec_bytes p - 2 ^ 64 else sec_bytes p.

(** *** Functions that call back

    [release] and [attempt] act on the caller's state [C]. *)
Section callbacks.
Context {C : Type} (release : pool_ent -> C -> C).

Definition fuel_of (p : pool) : nat := S (length (p_list p)).

(** [while ((old = evict_oldest(p)) != NULL) release(old);] *)
Definition drain (p : pool) (c : C) : res (pool * C) :=
  loop (fuel_of p) (fun '(p, c) =>
    match ane_t6021_pool_evict_oldest p with
    | (Some old, p) => Ret (inl (p, release old c))
    | (None, p) => Ret (inr (p, c))
    end) (p, c).

(** The eviction loop of [ane_t6021_pool_park]. *)
Definition make_room (budget : Z) (p : pool) (c : C) : res (pool * C) :=
  loop (fuel_of p) (fun '(p, c) =>
    if budget <? sec_bytes p then
      match ane_t6021_pool_evict_oldest p with
      | (Some old, p) => Ret (inl (p, release old c))
      | (None, p) => Ret (inr (p, c))
      end
    else Ret (inr (p, c))) (p, c).

Definition pool_budget (p : pool) : Z := u64 (Z.shiftl (max_mb p) 20).

Definition ane_t6021_pool_park (p : pool) (ent : pool_ent) (size : Z) (c : C) :
    res (pool * C * status) :=
  let pg := page_align size in
  let budget := pool_budget p in
  let link p := set_list p (p_list p ++ [PoolEnt (ent_id ent) size true]) in
  if budget =? 0 then
    '(p, c) ← drain p c; Ret (p, c, Some EINVAL)
  else if negb (ane_t6021_pool_admits p size) then Ret (p, c, Some EINVAL)
  else if budget <? pg then Ret (p, c, Some ENOSPC)
  else
    let p := pool_charge p pg in
    if budget <? sec_bytes p then
      '(p, c) ← make_room budget p c;
      if budget <? sec_bytes p then Ret (pool_uncharge p pg, c, Some ENOSPC)
      else Ret (link p, c, None)
    else Ret (link p, c, None).

(** Only [-ENOMEM] and [-ENOSPC] evict and retry. *)
Definition retryable (st : status) : bool :=
  bool_decide (st = Some ENOMEM) || bool_decide (st = Some ENOSPC).

Definition ane_t6021_pool_alloc_retry (attempt : C -> C * status) (p : pool) (c : C) :
    res (pool * C * status) :=
  loop (fuel_of p) (fun '(p, c) =>
    let '(c, ret) := attempt c in
    if negb (retryable ret) then Ret (inr (p, c, ret))
    else
      match ane_t6021_pool_evict_oldest p with
      | (None, p) => Ret (inr (p, c, ret))
      | (Some old, p) => Ret (inl (p, release old c))
      end) (p, c).

(** [ane_t6021_bo_pool_max_mb_set]: a new budget; zero drains the pool. *)
Definition ane_t6021_bo_pool_max_mb_set (v : Z) (p : pool) (c : C) : res (pool * C) :=
  let p := Pool (p_list p) (sec_bytes p) v (min_kb p) in
  if v =? 0 then drain p c else Ret (p, c).

End callbacks.
End pool.

(** ** Accounting

    A pool's budgeted entries, oldest first, are what eviction frees; the
    counter is their page-aligned total. *)
Section accounting.
Context (PAGE_SHIFT : Z).
Implicit Types (p : pool) (e : pool_ent).

Abbreviation page_align := (page_align PAGE_SHIFT).
Abbreviation evict_oldest := (ane_t6021_pool_evict_oldest PAGE_SHIFT).

Definition charge e : Z := if pooled_sec e then page_align (ent_size e) else 0.

Definition is_budgeted e : Prop := pooled_sec e = true.

#[global] Instance is_budgeted_dec e : Decision (is_budgeted e).
Proof. unfold is_budgeted. apply _. Defined.

Definition budgeted p : list pool_ent := filter is_budgeted (p_list p).
Definition uncharged p : list pool_ent := filter (fun e => ~ is_budgeted e) (p_list p).

(** An entry as eviction and [take] hand it out. *)
Definition unpooled e : pool_ent := PoolEnt (ent_id e) (ent_size e) false.

(** [x] is what calls in flight have charged without a linked entry. *)
Definition pool_wf (x : Z) p : Prop :=
  sec_bytes p = x + sumz charge (p_list p) /\ 0 <= x /\ sec_bytes p < 2 ^ 64.

Lemma charge_range e : 0 <= charge e < 2 ^ 64.
Proof.
  unfold charge. pose proof (align_up_range PAGE_SHIFT (ent_size e)).
  destruct (pooled_sec e); unfold Pool.page_align; lia.
Qed.

Lemma sum_charge_nonneg l : 0 <= sumz charge l.
Proof.
  assert (0 <= sumz charge l <= zlen l * 2 ^ 64); [|lia].
  apply sumz_bounds. intros e _. pose proof (charge_range e). lia.
Qed.

(** Only the budgeted entries count. *)
Lemma sum_charge_budgeted l : sumz charge l = sumz charge (filter is_budgeted l).
Proof.
  induction l as [|e l IH]; [done|]. rewrite filter_cons sumz_cons IH.
  case_decide as He; [done|]. unfold charge at 1. unfold is_budgeted in He.
  by destruct (pooled_sec e).
Qed.

Lemma list_take_first_spec f l :
  match list_take_first f l with
  | Some (e, r) => exists l1 l2, l = l1 ++ e :: l2 /\ r = l1 ++ l2 /\ f e = true /\
                                 Forall (fun e' => f e' = false) l1
  | None => Forall (fun e' => f e' = false) l
  end.
Proof.
  induction l as [|e l IH]; cbn [list_take_first]; [constructor|].
  destruct (f e) eqn:Ef.
  { by exists [], l. }
  destruct (list_take_first f l) as [[e' r]|]; [|by constructor].
  destruct IH as (l1 & l2 & -> & -> & He' & Hl1). exists (e :: l1), l2. repeat split; auto.
Qed.

Lemma filter_none l : Forall (fun e => pooled_sec e = false) l -> filter is_budgeted l = [].
Proof.
  induction 1 as [|e l He _ IH]; [done|]. rewrite filter_cons_False; [done|].
  unfold is_budgeted. by rewrite He.
Qed.

Definition same_limits p p' : Prop := max_mb p' = max_mb p /\ min_kb p' = min_kb p.

(** Eviction takes the oldest budgeted entry and nothing else. *)
Lemma evict_oldest_spec x p :
  pool_wf x p ->
  match budgeted p with
  | [] => evict_oldest p = (None, p)
  | e :: es => exists p', evict_oldest p = (Some (unpooled e), p') /\ pool_wf x p' /\
      budgeted p' = es /\ uncharged p' = uncharged p /\ same_limits p p' /\
      sec_bytes p' = sec_bytes p - page_align (ent_size e) /\
      (length (p_list p') < length (p_list p))%nat
  end.
Proof.
  intros (Hsum & Hx0 & Hlt). unfold budgeted, uncharged, ane_t6021_pool_evict_oldest.
  pose proof (list_take_first_spec pooled_sec (p_list p)) as Hf.
  destruct (list_take_first pooled_sec (p_list p)) as [[e r]|].
  2: { by rewrite filter_none. }
  destruct Hf as (l1 & l2 & Hl & -> & He & Hl1). rewrite Hl.
  rewrite !filter_app (filter_none l1 Hl1). cbn [app].
  rewrite (filter_cons_True is_budgeted); [|done].
  eexists. split; [reflexivity|]. unfold pool_wf. cbn [set_list pool_uncharge p_list sec_bytes].
  rewrite Hl sumz_app sumz_cons in Hsum. rewrite sumz_app.
  pose proof (sum_charge_nonneg l1). pose proof (sum_charge_nonneg l2).
  assert (charge e = page_align (ent_size e)) as Hc by (unfold charge; by rewrite He).
  pose proof (charge_range e).
  rewrite (wrap_small 64); [|lia]. repeat split; try lia.
  - by rewrite filter_app (filter_none l1 Hl1).
  - rewrite filter_app. f_equal. rewrite filter_cons_False; [done|]. intros Hn. by apply Hn.
  - rewrite !length_app. cbn [length]. lia.
Qed.

Lemma budgeted_nil_sec x p : pool_wf x p -> budgeted p = [] -> sec_bytes p = x.
Proof. intros [-> _] Hb. rewrite sum_charge_budgeted. unfold budgeted in Hb. rewrite Hb. cbn. lia. Qed.

Lemma pool_charge_sum p : sumz charge (budgeted p) = sumz charge (p_list p).
Proof. symmetry. apply sum_charge_budgeted. Qed.

(** *** Eviction loops

    [evicted x k p p']: the [k] oldest budgeted entries are gone, nothing else
    changed. [released k p c] is the caller's state after releasing them. *)
Definition evicted (x : Z) (k : nat) p p' : Prop :=
  pool_wf x p' /\ budgeted p' = drop k (budgeted p) /\ uncharged p' = uncharged p /\
  same_limits p p'.

Definition released {C} (release : pool_ent -> C -> C) (k : nat) p (c : C) : C :=
  foldl (fun c e => release (unpooled e) c) c (take k (budgeted p)).

Lemma evicted_0 x p : pool_wf x p -> evicted x 0 p p.
Proof. done. Qed.

(** One more eviction after [k]. *)
Lemma evicted_snoc x k p0 p old p' :
  evicted x k p0 p -> evict_oldest p = (Some old, p') ->
  exists e, budgeted p0 !! k = Some e /\ old = unpooled e /\ evicted x (S k) p0 p' /\
            (length (p_list p') < length (p_list p))%nat.
Proof.
  intros (Hwf & Hd & Hu & [Hm Hk]) He. pose proof (evict_oldest_spec x p Hwf) as Hs.
  destruct (budgeted p) as [|e es] eqn:Hb; [congruence|].
  destruct Hs as (p1 & Hev & Hwf1 & Hb1 & Hu1 & [Hm1 Hk1] & _ & Hlen). rewrite Hev in He. simplify_eq. exists e.
  assert (budgeted p0 !! k = Some e) as Hlk.
  { rewrite -(Nat.add_0_r k) -lookup_drop -Hd. done. }
  apply drop_S in Hlk as Hds. rewrite -Hd in Hds. injection Hds as Hds.
  repeat split; try done; try congruence; apply Hwf1.
Qed.

Lemma released_snoc {C} (release : pool_ent -> C -> C) k p0 e c :
  budgeted p0 !! k = Some e ->
  release (unpooled e) (released release k p0 c) = released release (S k) p0 c.
Proof. intros He. unfold released. by rewrite (take_S_r _ _ _ He) foldl_snoc. Qed.

(** Rule for a loop that evicts one entry per continuing iteration: it stops
    within the pool's length. *)
Lemma evict_loop_rule {C R} x (body : pool * C -> res ((pool * C) + R))
    (I : nat -> pool -> C -> Prop) (Q : R -> Prop) p0 c0 :
  pool_wf x p0 -> I 0%nat p0 c0 ->
  (forall k p c, evicted x k p0 p -> I k p c ->
    match body (p, c) with
    | Ret (inl (p', c')) => (exists old, evict_oldest p = (Some old, p')) /\ I (S k) p' c'
    | Ret (inr r) => Q r
    | _ => False
    end) ->
  twp (loop (fuel_of p0) body (p0, c0)) Q.
Proof.
  intros Hwf HI Hstep.
  enough (forall fuel k p c, (length (p_list p) < fuel)%nat -> evicted x k p0 p -> I k p c ->
            twp (loop fuel body (p, c)) Q) as Hgen.
  { apply (Hgen _ 0%nat); [unfold fuel_of; lia|by apply evicted_0|done]. }
  induction fuel as [|fuel IH]; intros k p c Hlen Hev HIk; [lia|].
  rewrite loop_S. specialize (Hstep k p c Hev HIk).
  destruct (body (p, c)) as [[[p' c']|r]| |]; try done. cbn [mbind res_bind].
  destruct Hstep as [[old Hold] HI']. destruct (evicted_snoc x k p0 p old p' Hev Hold) as (e & _ & _ & Hev' & Hl).
  apply (IH (S k)); [lia|done|done].
Qed.

Lemma evicted_sec x k p p' :
  pool_wf x p -> evicted x k p p' -> sec_bytes p' = sec_bytes p - sumz charge (take k (budgeted p)).
Proof.
  intros [Hs _] ([Hs' _] & Hd & _). rewrite Hs Hs' -(pool_charge_sum p) -(pool_charge_sum p') Hd.
  rewrite -{2}(take_drop k (budgeted p)) sumz_app. lia.
Qed.

Section loops.
Context {C : Type} (release : pool_ent -> C -> C).

Abbreviation released := (released release).

Lemma evict_oldest_some x p old p' c k p0 c0 :
  evicted x k p0 p -> c = released k p0 c0 -> evict_oldest p = (Some old, p') ->
  release old c = released (S k) p0 c0.
Proof.
  intros Hev -> Hold.
  destruct (evicted_snoc x k p0 p old p' Hev Hold) as (e & He & -> & _).
  by apply released_snoc.
Qed.

Lemma evict_oldest_none x p p' : pool_wf x p -> evict_oldest p = (None, p') -> p' = p /\ budgeted p = [].
Proof.
  intros Hwf He. pose proof (evict_oldest_spec x p Hwf) as Hs.
  destruct (budgeted p); [split; congruence|]. destruct Hs as (? & ? & _). congruence.
Qed.

Lemma drain_spec x p c :
  pool_wf x p ->
  twp (drain PAGE_SHIFT release p c) (fun '(p', c') => exists k,
    evicted x k p p' /\ budgeted p' = [] /\ c' = released k p c).
Proof.
  intros Hwf. unfold drain.
  apply (evict_loop_rule x _ (fun k _ c' => c' = released k p c)); [done|done|].
  intros k p1 c1 Hev Hc. destruct (evict_oldest p1) as [[old|] p2] eqn:He.
  - split; [by exists old|]. by eapply evict_oldest_some.
  - apply (evict_oldest_none x) in He as [-> Hb]; [|apply Hev]. by exists k.
Qed.

(** The loop stops at the first point where the counter is within the
    budget. *)
Definition first_fit (budget : Z) (k : nat) p : Prop :=
  forall j, (j < k)%nat -> budget < sec_bytes p - sumz charge (take j (budgeted p)).

Lemma make_room_spec x budget p c :
  pool_wf x p ->
  twp (make_room PAGE_SHIFT release budget p c) (fun '(p', c') => exists k,
    evicted x k p p' /\ c' = released k p c /\ first_fit budget k p /\
    (sec_bytes p' <= budget \/ budgeted p' = [])).
Proof.
  intros Hwf. unfold make_room.
  apply (evict_loop_rule x _ (fun k _ c' => c' = released k p c /\ first_fit budget k p)); [done| |].
  { split; [done|]. intros j Hj. lia. }
  intros k p1 c1 Hev [Hc Hff]. destruct (budget <? sec_bytes p1) eqn:Hlt.
  2: { exists k. repeat split; try done; try apply Hev. left. lia. }
  destruct (evict_oldest p1) as [[old|] p2] eqn:He.
  - split; [by exists old|]. split; [by eapply evict_oldest_some|].
    intros j Hj. destruct (decide (j = k)) as [->|]; [|apply Hff; lia].
    rewrite -(evicted_sec _ _ _ _ Hwf Hev). lia.
  - apply (evict_oldest_none x) in He as [-> Hb]; [|apply Hev]. exists k. auto.
Qed.

(** The park and the retry loop, with what they do to the pool and to the
    caller. *)
Lemma pool_budget_eq p : in_range 32 (max_mb p) -> pool_budget p = max_mb p * 2 ^ 20.
Proof.
  intros Hm. unfold pool_budget, in_range in *. rewrite Z.shiftl_mul_pow2; [|lia].
  apply wrap_small. lia.
Qed.

(** An entry is linked at the tail: the counter already holds its charge. *)
Lemma link_spec x pg p e :
  pool_wf (x + pg) p -> 0 <= x -> pooled_sec e = true -> pg = page_align (ent_size e) ->
  let p' := set_list p (p_list p ++ [e]) in
  pool_wf x p' /\ budgeted p' = budgeted p ++ [e] /\ uncharged p' = uncharged p.
Proof.
  intros (Hs & Hx & Hlt) Hx' He ->. unfold pool_wf, budgeted, uncharged. cbn [set_list p_list sec_bytes].
  assert (is_budgeted e) as Hb by done.
  rewrite sumz_app sumz_cons !filter_app filter_cons_True; [|done].
  rewrite (filter_cons_False (fun e => ~ is_budgeted e)); [|naive_solver].
  rewrite app_nil_r. unfold charge at 2. rewrite He. cbn [sumz foldr]. repeat split; lia.
Qed.

Lemma charge_spec x pg p :
  pool_wf x p -> 0 <= pg -> sec_bytes p + pg < 2 ^ 64 ->
  pool_wf (x + pg) (pool_charge p pg) /\ sec_bytes (pool_charge p pg) = sec_bytes p + pg.
Proof.
  intros (Hs & Hx & Hlt) Hpg Hlt'. unfold pool_wf. cbn [pool_charge p_list sec_bytes].
  pose proof (sum_charge_nonneg (p_list p)). rewrite (wrap_small 64); lia.
Qed.

(** A successful park, from a pool whose counter already holds the charge. *)
Lemma park_link budget k x p p1 ent size :
  evicted (x + page_align size) k (pool_charge p (page_align size)) p1 -> 0 <= x ->
  sec_bytes p1 <= budget ->
  let p' := set_list p1 (p_list p1 ++ [PoolEnt (ent_id ent) size true]) in
  pool_wf x p' /\ budgeted p' = drop k (budgeted p) ++ [PoolEnt (ent_id ent) size true] /\
  uncharged p' = uncharged p /\ same_limits p p' /\ sec_bytes p' <= budget.
Proof.
  intros (Hwf & Hb & Hu & Hlim) Hx Hs.
  destruct (link_spec x (page_align size) p1 (PoolEnt (ent_id ent) size true)) as (Hwf' & Hb' & Hu');
    [done|done|done|done|].
  cbn zeta. rewrite Hb' Hb Hu' Hu. done.
Qed.

Definition park_outcome p (ent : pool_ent) (size : Z) (c : C) (r : pool * C * status) : Prop :=
  let '(p', c', st) := r in
  let pg := page_align size in
  let budget := max_mb p * 2 ^ 20 in
  if bool_decide (budget = 0) then
    st = Some EINVAL /\ exists k, evicted 0 k p p' /\ budgeted p' = [] /\ c' = released k p c
  else if negb (ane_t6021_pool_admits PAGE_SHIFT p size) then st = Some EINVAL /\ p' = p /\ c' = c
  else if bool_decide (budget < pg) then st = Some ENOSPC /\ p' = p /\ c' = c
  else st = None /\ exists k,
    c' = released k p c /\ first_fit (budget - pg) k p /\
    pool_wf 0 p' /\ budgeted p' = drop k (budgeted p) ++ [PoolEnt (ent_id ent) size true] /\
    uncharged p' = uncharged p /\ same_limits p p' /\ sec_bytes p' <= budget.

Lemma pool_park_spec p ent size c :
  pool_wf 0 p -> in_range 32 (max_mb p) -> sec_bytes p < 2 ^ 63 ->
  twp (ane_t6021_pool_park PAGE_SHIFT release p ent size c) (park_outcome p ent size c).
Proof.
  intros Hwf Hm Hs. unfold ane_t6021_pool_park, park_outcome. rewrite (pool_budget_eq p Hm).
  pose proof (align_up_range PAGE_SHIFT size) as Hpg. fold (Pool.page_align PAGE_SHIFT size) in Hpg.
  unfold in_range in Hm.
  destruct (bool_decide_reflect (max_mb p * 2 ^ 20 = 0)) as [Hb|Hb].
  { rewrite (proj2 (Z.eqb_eq _ _) Hb). apply twp_bind. eapply twp_mono; [by apply (drain_spec 0)|].
    intros [p' c'] (k & Hev & Hnil & ->). split; [done|]. by exists k. }
  rewrite (proj2 (Z.eqb_neq _ _) Hb).
  destruct (ane_t6021_pool_admits _ _ _); [|done]. cbn [negb].
  destruct (bool_decide_reflect (max_mb p * 2 ^ 20 < page_align size)) as [Hl|Hl].
  { by rewrite (proj2 (Z.ltb_lt _ _) Hl). }
  rewrite (proj2 (Z.ltb_ge _ _)); [|lia].
  destruct (charge_spec 0 (page_align size) p Hwf) as [Hwf1 Hs1]; [lia|lia|].
  destruct (Z.ltb_spec (max_mb p * 2 ^ 20) (sec_bytes (pool_charge p (page_align size)))) as [Hover|Hfit].
  - apply twp_bind. eapply twp_mono; [by apply (make_room_spec (0 + page_align size))|].
    intros [p1 c1] (k & Hev & -> & Hff & Hor).
    assert (sec_bytes p1 <= max_mb p * 2 ^ 20) as Hle.
    { destruct Hor as [|Hnil]; [done|].
      rewrite (budgeted_nil_sec (0 + page_align size) p1); [lia|apply Hev|done]. }
    rewrite (proj2 (Z.ltb_ge _ _)); [|done]. split; [done|]. exists k. split; [done|]. split.
    { intros j Hj. specialize (Hff j Hj). rewrite Hs1 in Hff.
      change (budgeted (pool_charge p (page_align size))) with (budgeted p) in Hff. lia. }
    by apply (park_link _ k 0 p p1 ent size).
  - split; [done|]. exists 0%nat. split; [done|]. split; [intros j Hj; lia|].
    by apply (park_link _ 0 0 p (pool_charge p (page_align size)) ent size).
Qed.

(** The retry loop makes one attempt more than it evicts. *)
Fixpoint attempts (attempt : C -> C * status) (es : list pool_ent) (c : C) : C * status :=
  match es with
  | [] => attempt c
  | e :: es => attempts attempt es (release (unpooled e) (attempt c).1)
  end.

Lemma attempts_snoc attempt es e c :
  attempts attempt (es ++ [e]) c = attempt (release (unpooled e) (attempts attempt es c).1).
Proof. revert c. induction es as [|e' es IH]; intros c; [done|]. apply IH. Qed.

Definition retry_outcome attempt p (c : C) (r : pool * C * status) : Prop :=
  let '(p', c', st) := r in exists k,
    evicted 0 k p p' /\ (k <= length (budgeted p))%nat /\
    (c', st) = attempts attempt (take k (budgeted p)) c /\
    (forall j, (j < k)%nat -> retryable (attempts attempt (take j (budgeted p)) c).2 = true) /\
    (retryable st = false \/ budgeted p' = []).

Lemma alloc_retry_spec attempt p c :
  pool_wf 0 p ->
  twp (ane_t6021_pool_alloc_retry PAGE_SHIFT release attempt p c) (retry_outcome attempt p c).
Proof.
  intros Hwf. unfold ane_t6021_pool_alloc_retry.
  set (ks := fun k => attempts attempt (take k (budgeted p)) c).
  apply (evict_loop_rule 0 _ (fun k _ c' => (k <= length (budgeted p))%nat /\ attempt c' = ks k /\
           forall j, (j < k)%nat -> retryable (ks j).2 = true)); [done| |].
  { split; [lia|]. split; [done|]. intros j Hj. lia. }
  intros k p1 c1 Hev (Hk & Hc & Hj). destruct (attempt c1) as [c2 st] eqn:Ha.
  assert (forall p', evicted 0 k p p' -> retryable st = false \/ budgeted p' = [] ->
            retry_outcome attempt p c (p', c2, st)) as Hout.
  { intros p' Hev' Hor. exists k. repeat split; try done; apply Hev'. }
  destruct (retryable st) eqn:Hr; cbn [negb]; [|by apply Hout; [|left]].
  destruct (ane_t6021_pool_evict_oldest PAGE_SHIFT p1) as [[old|] p2] eqn:He.
  - destruct (evicted_snoc 0 k p p1 old p2 Hev He) as (e & Hlk & -> & _).
    pose proof (lookup_lt_Some _ _ _ Hlk).
    split; [by exists (unpooled e)|]. split; [lia|]. split.
    + unfold ks. rewrite (take_S_r _ _ _ Hlk) attempts_snoc. fold (ks k). by rewrite -Hc.
    + intros j Hjk. destruct (decide (j = k)) as [->|]; [by rewrite -Hc|apply Hj; lia].
  - apply (evict_oldest_none 0) in He as [-> Hb]; [|apply Hev]. apply Hout; auto.
Qed.
End loops.
End accounting.

(** *** Invariants of the caller

    A property of the linked entries and of the caller's state that every
    eviction keeps holds after the functions that call back. *)
Section preserves.
Context {C : Type} (PAGE_SHIFT : Z) (release : pool_ent -> C -> C) (P : list pool_ent -> C -> Prop).

Lemma evict_list p old p' :
  ane_t6021_pool_evict_oldest PAGE_SHIFT p = (Some old, p') ->
  exists l1 e l2, p_list p = l1 ++ e :: l2 /\ p_list p' = l1 ++ l2 /\ pooled_sec e = true /\ old = unpooled e.
Proof.
  unfold ane_t6021_pool_evict_oldest. pose proof (list_take_first_spec pooled_sec (p_list p)) as Hf.
  destruct (list_take_first pooled_sec (p_list p)) as [[e r]|]; [|done].
  destruct Hf as (l1 & l2 & -> & -> & He & _). intros [= <- <-]. by exists l1, e, l2.
Qed.

Lemma take_list p size q e p' :
  ane_t6021_pool_take PAGE_SHIFT p size q = (Some e, p') ->
  q = false /\ exists l1 e0 l2, p_list p = l1 ++ e0 :: l2 /\ p_list p' = l1 ++ l2 /\ e = unpooled e0 /\
    page_align PAGE_SHIFT (ent_size e0) = page_align PAGE_SHIFT size /\ same_limits p p'.
Proof.
  unfold ane_t6021_pool_take. destruct q; [done|].
  pose proof (list_take_first_spec (fun e => page_align PAGE_SHIFT (ent_size e) =? page_align PAGE_SHIFT size)
                (p_list p)) as Hf.
  destruct (list_take_first _ (p_list p)) as [[e0 r]|]; [|done].
  destruct Hf as (l1 & l2 & -> & -> & He & _). intros [= <- <-]. split; [done|].
  exists l1, e0, l2. split; [done|]. split; [by destruct (pooled_sec e0)|]. split; [done|].
  split; [lia|]. by destruct (pooled_sec e0).
Qed.

Lemma take_none p size q p' : ane_t6021_pool_take PAGE_SHIFT p size q = (None, p') -> p' = p.
Proof.
  unfold ane_t6021_pool_take. destruct q; [by intros [= <-]|].
  destruct (list_take_first _ (p_list p)) as [[e0 r]|]; by intros [= <-].
Qed.

Context (Hrel : forall l1 e l2 c, pooled_sec e = true ->
           P (l1 ++ e :: l2) c -> P (l1 ++ l2) (release (unpooled e) c)).

Lemma evict_preserves p c old p' :
  P (p_list p) c -> ane_t6021_pool_evict_oldest PAGE_SHIFT p = (Some old, p') -> P (p_list p') (release old c).
Proof. intros HP He. destruct (evict_list p old p' He) as (l1 & e & l2 & Hl & -> & Hs & ->). rewrite Hl in HP. auto. Qed.

Lemma evict_none_list p p' : ane_t6021_pool_evict_oldest PAGE_SHIFT p = (None, p') -> p' = p.
Proof.
  unfold ane_t6021_pool_evict_oldest. destruct (list_take_first pooled_sec (p_list p)) as [[e r]|]; by intros [= <-].
Qed.

Lemma drain_preserves p c p' c' :
  P (p_list p) c -> drain PAGE_SHIFT release p c = Ret (p', c') -> P (p_list p') c'.
Proof.
  intros HP. apply (loop_inv _ (fun '(p, c) => P (p_list p) c) (fun '(p, c) => P (p_list p) c)); [|done].
  intros [p1 c1] H1. destruct (ane_t6021_pool_evict_oldest PAGE_SHIFT p1) as [[old|] p2] eqn:He.
  - by eapply evict_preserves.
  - by apply evict_none_list in He as ->.
Qed.

Lemma make_room_preserves b p c p' c' :
  P (p_list p) c -> make_room PAGE_SHIFT release b p c = Ret (p', c') -> P (p_list p') c'.
Proof.
  intros HP. apply (loop_inv _ (fun '(p, c) => P (p_list p) c) (fun '(p, c) => P (p_list p) c)); [|done].
  intros [p1 c1] H1. destruct (b <? sec_bytes p1); [|done].
  destruct (ane_t6021_pool_evict_oldest PAGE_SHIFT p1) as [[old|] p2] eqn:He.
  - by eapply evict_preserves.
  - by apply evict_none_list in He as ->.
Qed.

Lemma park_preserves p ent size c p' c' st :
  P (p_list p) c -> ane_t6021_pool_park PAGE_SHIFT release p ent size c = Ret (p', c', st) ->
  match st with
  | None => exists l, P l c' /\ p_list p' = l ++ [PoolEnt (ent_id ent) size true]
  | Some _ => P (p_list p') c'
  end.
Proof.
  intros HP Hp. unfold ane_t6021_pool_park in Hp.
  destruct (pool_budget p =? 0).
  { apply bind_Ret_inv in Hp as ([p1 c1] & Hd & Hr). simplify_eq. by eapply drain_preserves. }
  destruct (ane_t6021_pool_admits PAGE_SHIFT p size); cbn [negb] in Hp; [|by simplify_eq].
  destruct (_ <? page_align PAGE_SHIFT size); [by simplify_eq|].
  destruct (_ <? sec_bytes _).
  - apply bind_Ret_inv in Hp as ([p1 c1] & Hm & Hr).
    assert (P (p_list p1) c1) by (eapply make_room_preserves; [|exact Hm]; exact HP).
    destruct (_ <? sec_bytes p1); simplify_eq; [done|]. by exists (p_list p1).
  - simplify_eq. by exists (p_list p).
Qed.

(** [Q] is what a successful attempt establishes. *)
Lemma alloc_retry_preserves (Q : list pool_ent -> C -> status -> Prop) attempt p c p' c' st :
  (forall l c, P l c -> let '(c', st) := attempt c in
     if retryable st then P l c' /\ Q l c' st else Q l c' st) ->
  P (p_list p) c -> ane_t6021_pool_alloc_retry PAGE_SHIFT release attempt p c = Ret (p', c', st) ->
  Q (p_list p') c' st.
Proof.
  intros Ha HP.
  apply (loop_inv _ (fun '(p, c) => P (p_list p) c) (fun '(p, c, st) => Q (p_list p) c st)); [|done].
  intros [p1 c1] H1. specialize (Ha (p_list p1) c1 H1). destruct (attempt c1) as [c2 st2].
  destruct (retryable st2); cbn [negb]; [|done]. destruct Ha as [HP2 HQ2].
  destruct (ane_t6021_pool_evict_oldest PAGE_SHIFT p1) as [[old|] p2] eqn:He.
  - by eapply evict_preserves.
  - by apply evict_none_list in He as ->.
Qed.
End preserves.

(** ** Parks that run concurrently

    [ane_t6021_vm_close] drops a reference without the buffer lock, so several
    [ane_t6021_pool_park] calls can run at once. A call is a sequence of atomic
    operations (a read, an atomic add or subtract, a list section under the
    lock); [park_pc] is where a call stands and [park_step] its next
    operation, with the entries it releases. *)
Inductive park_pc :=
  | Idle
  | Start (ent : pool_ent) (size : Z)
  | Draining
  | Admit (ent : pool_ent) (size budget : Z)
  | Charge (ent : pool_ent) (size budget : Z)
  | Over (ent : pool_ent) (size budget : Z)
  | Evict (ent : pool_ent) (size budget : Z)
  | Recheck (ent : pool_ent) (size budget : Z)
  | Undo (ent : pool_ent) (size : Z)
  | Link (ent : pool_ent) (size : Z)
  | Done (st : status).

Section concurrent.
Context (PAGE_SHIFT : Z).
Implicit Types (p : pool) (t : park_pc).

Abbreviation page_align := (page_align PAGE_SHIFT).
Abbreviation evict_oldest := (ane_t6021_pool_evict_oldest PAGE_SHIFT).
Abbreviation charge := (charge PAGE_SHIFT).
Abbreviation pool_wf := (pool_wf PAGE_SHIFT).

Definition park_step p t : pool * park_pc * list pool_ent :=
  match t with
  | Idle | Done _ => (p, t, [])
  | Start e size =>
      let budget := pool_budget p in
      (p, if budget =? 0 then Draining else Admit e size budget, [])
  | Draining =>
      match evict_oldest p with
      | (Some old, p) => (p, Draining, [old])
      | (None, p) => (p, Done (Some EINVAL), [])
      end
  | Admit e size budget =>
      (p, if negb (ane_t6021_pool_admits PAGE_SHIFT p size) then Done (Some EINVAL)
          else if budget <? page_align size then Done (Some ENOSPC)
          else Charge e size budget, [])
  | Charge e size budget =>
      let p := pool_charge p (page_align size) in
      (p, if budget <? sec_bytes p then Over e size budget else Link e size, [])
  | Over e size budget =>
      (p, if budget <? sec_bytes p then Evict e size budget else Recheck e size budget, [])
  | Evict e size budget =>
      match evict_oldest p with
      | (Some old, p) => (p, Over e size budget, [old])
      | (None, p) => (p, Recheck e size budget, [])
      end
  | Recheck e size budget =>
      (p, if budget <? sec_bytes p then Undo e size else Link e size, [])
  | Undo e size => (pool_uncharge p (page_align size), Done (Some ENOSPC), [])
  | Link e size => (set_list p (p_list p ++ [PoolEnt (ent_id e) size true]), Done None, [])
  end.

(** Runs of one call: the entries released, oldest first. *)
Inductive park_exec : pool -> park_pc -> list pool_ent -> pool -> park_pc -> Prop :=
  | exec_refl p t : park_exec p t [] p t
  | exec_step p t p1 t1 r p2 t2 rs :
      park_step p t = (p1, t1, r) -> park_exec p1 t1 rs p2 t2 -> park_exec p t (r ++ rs) p2 t2.

(** The next operation of a call, its tests rewritten with the hypotheses. *)
Ltac pstep :=
  eapply exec_step;
    [cbn [park_step]; cbv zeta; repeat match goal with H : ?a = ?b |- context [?a] => rewrite H end; cbn [negb]; reflexivity|].

Lemma exec_trans p t r1 p1 t1 r2 p2 t2 :
  park_exec p t r1 p1 t1 -> park_exec p1 t1 r2 p2 t2 -> park_exec p t (r1 ++ r2) p2 t2.
Proof.
  induction 1 as [|p t p' t' r p1 t1 rs Hs _ IH]; intros H2; [done|].
  rewrite -app_assoc. eapply exec_step; [done|]. by apply IH.
Qed.

Section sequential.
Context {C : Type} (release : pool_ent -> C -> C).

Definition release_all (rs : list pool_ent) (c : C) : C := foldl (fun c e => release e c) c rs.

Lemma release_all_app rs1 rs2 c : release_all (rs1 ++ rs2) c = release_all rs2 (release_all rs1 c).
Proof. apply foldl_app. Qed.

(** A loop of the sequential code is matched by steps of the call. *)
Lemma loop_exec {R} (body : pool * C -> res ((pool * C) + R)) t (Q : R -> pool -> park_pc -> C -> Prop) :
  (forall p c, match body (p, c) with
     | Ret (inl (p', c')) => exists rs, park_exec p t rs p' t /\ c' = release_all rs c
     | Ret (inr r) => exists rs p' t' c', park_exec p t rs p' t' /\ c' = release_all rs c /\ Q r p' t' c'
     | _ => False
     end) ->
  forall fuel p c r, loop fuel body (p, c) = Ret r ->
    exists rs p' t' c', park_exec p t rs p' t' /\ c' = release_all rs c /\ Q r p' t' c'.
Proof.
  intros Hb fuel. induction fuel as [|fuel IH]; intros p c r Hl; [done|].
  rewrite loop_S in Hl. specialize (Hb p c). destruct (body (p, c)) as [[[p1 c1]|r']| |]; try done.
  - destruct Hb as (rs & Hex & ->). cbn in Hl. destruct (IH _ _ _ Hl) as (rs2 & p' & t' & c' & Hex2 & -> & HQ).
    exists (rs ++ rs2), p', t', (release_all (rs ++ rs2) c). split; [by eapply exec_trans|].
    split; [done|]. by rewrite release_all_app.
  - cbn in Hl. by simplify_eq.
Qed.

Lemma drain_exec p c p' c' :
  drain PAGE_SHIFT release p c = Ret (p', c') ->
  exists rs, park_exec p Draining rs p' (Done (Some EINVAL)) /\ c' = release_all rs c.
Proof.
  intros Hd. unfold drain in Hd.
  eapply (loop_exec _ Draining (fun r q t d => r = (q, d) /\ t = Done (Some EINVAL))) in Hd
    as (rs & q & t & d & Hex & -> & Hr & ->).
  { simplify_eq. by exists rs. }
  intros p1 c1. destruct (evict_oldest p1) as [[old|] p2] eqn:He.
  - exists ([old] ++ []). split; [|done]. pstep. constructor.
  - exists ([] ++ []), p2, (Done (Some EINVAL)), c1. split; [|done]. pstep. constructor.
Qed.

Lemma make_room_exec e size budget p c p' c' :
  make_room PAGE_SHIFT release budget p c = Ret (p', c') ->
  exists rs, park_exec p (Over e size budget) rs p' (Recheck e size budget) /\ c' = release_all rs c.
Proof.
  intros Hd. unfold make_room in Hd.
  eapply (loop_exec _ (Over e size budget) (fun r q t d => r = (q, d) /\ t = Recheck e size budget)) in Hd
    as (rs & q & t & d & Hex & -> & Hr & ->).
  { simplify_eq. by exists rs. }
  intros p1 c1. destruct (budget <? sec_bytes p1) eqn:Hb.
  2: { exists ([] ++ []), p1, (Recheck e size budget), c1. split; [|done]. pstep. constructor. }
  destruct (evict_oldest p1) as [[old|] p2] eqn:He.
  - exists ([] ++ [old] ++ []). split; [|done]. do 2 pstep. constructor.
  - exists ([] ++ [] ++ []), p2, (Recheck e size budget), c1. split; [|done]. do 2 pstep. constructor.
Qed.

(** The sequential function is one run of the operations. *)
Lemma pool_park_exec p e size c p' c' st :
  ane_t6021_pool_park PAGE_SHIFT release p e size c = Ret (p', c', st) ->
  exists rs, park_exec p (Start e size) rs p' (Done st) /\ c' = release_all rs c.
Proof.
  unfold ane_t6021_pool_park. intros Hp.
  destruct (pool_budget p =? 0) eqn:Hb.
  { apply bind_Ret_inv in Hp as ([p1 c1] & Hd & Hr). simplify_eq.
    destruct (drain_exec _ _ _ _ Hd) as (rs & Hex & ->). exists ([] ++ rs). split; [|done]. by pstep. }
  destruct (ane_t6021_pool_admits PAGE_SHIFT p size) eqn:Ha.
  2: { simplify_eq/=. exists ([] ++ [] ++ []). split; [|done]. do 2 pstep. constructor. }
  destruct (pool_budget p <? page_align size) eqn:Hl.
  { simplify_eq/=. exists ([] ++ [] ++ []). split; [|done]. do 2 pstep. constructor. }
  cbn [negb] in Hp.
  destruct (pool_budget p <? sec_bytes (pool_charge p (page_align size))) eqn:Ho.
  2: { simplify_eq. exists ([] ++ [] ++ [] ++ [] ++ []). split; [|done]. do 4 pstep. constructor. }
  apply bind_Ret_inv in Hp as ([p1 c1] & Hm & Hr).
  destruct (make_room_exec e size _ _ _ _ _ Hm) as (rs & Hex & ->).
  exists ([] ++ [] ++ [] ++ rs ++ [] ++ [] ++ []).
  assert (park_exec p1 (Recheck e size (pool_budget p)) ([] ++ [] ++ []) p' (Done st) /\
          c' = release_all rs c) as [Hex2 ->].
  { destruct (pool_budget p <? sec_bytes p1) eqn:Hf; simplify_eq.
    - split; [|done]. do 2 pstep. constructor.
    - split; [|done]. do 2 pstep. constructor. }
  split; [do 3 pstep; eapply exec_trans; eassumption|]. cbn [app]. by rewrite app_nil_r.
Qed.
End sequential.

(** *** The system: one pool, the calls in progress, and the other users of
    the pool. [v] in [EvSetMax] is a new budget, at most [M] MiB. *)
Record psys := PSys { ps_pool : pool; ps_calls : list park_pc }.

Inductive pool_event :=
  | EvCall (i : nat) (e : pool_ent) (size : Z)   (* call park *)
  | EvSetMax (i : nat) (v : Z)                    (* write bo_pool_max_mb *)
  | EvStep (i : nat)                              (* next operation of call i *)
  | EvTake (size : Z) (quarantined : bool)
  | EvUncharged (e : pool_ent) (size : Z)
  | EvEvict.                                      (* alloc_retry evicts *)

Definition resting t : bool := match t with Idle | Done _ => true | _ => false end.

Inductive psys_step (M : Z) : psys -> pool_event -> psys -> Prop :=
  | ps_call p ts i t e size :
      ts !! i = Some t -> resting t = true ->
      psys_step M (PSys p ts) (EvCall i e size) (PSys p (<[i:=Start e size]> ts))
  | ps_set_max p ts i t v :
      ts !! i = Some t -> resting t = true -> 0 <= v <= M ->
      psys_step M (PSys p ts) (EvSetMax i v)
        (PSys (Pool (p_list p) (sec_bytes p) v (min_kb p))
              (if v =? 0 then <[i:=Draining]> ts else ts))
  | ps_step p ts i t p' t' rs :
      ts !! i = Some t -> park_step p t = (p', t', rs) ->
      psys_step M (PSys p ts) (EvStep i) (PSys p' (<[i:=t']> ts))
  | ps_take p ts size q :
      psys_step M (PSys p ts) (EvTake size q)
        (PSys (ane_t6021_pool_take PAGE_SHIFT p size q).2 ts)
  | ps_uncharged p ts e size :
      psys_step M (PSys p ts) (EvUncharged e size)
        (PSys (ane_t6021_pool_park_uncharged p e size) ts)
  | ps_evict p ts :
      psys_step M (PSys p ts) EvEvict (PSys (evict_oldest p).2 ts).

Inductive psys_trace (M : Z) : psys -> list pool_event -> psys -> Prop :=
  | tr_nil s : psys_trace M s [] s
  | tr_cons s ev s1 evs s2 :
      psys_step M s ev s1 -> psys_trace M s1 evs s2 -> psys_trace M s (ev :: evs) s2.

(** What a call has added to the counter without a linked entry, and the part
    of it that is already committed to a link. *)
Definition inflight t : Z :=
  match t with
  | Over _ size _ | Evict _ size _ | Recheck _ size _ | Undo _ size | Link _ size => page_align size
  | _ => 0
  end.

Definition committed t : Z := match t with Link _ size => page_align size | _ => 0 end.

Definition park_ok (M : Z) t : Prop :=
  match t with
  | Admit _ _ b => b <= M * 2 ^ 20
  | Charge _ size b | Over _ size b | Evict _ size b | Recheck _ size b =>
      page_align size <= b <= M * 2 ^ 20
  | Undo _ size | Link _ size => page_align size <= M * 2 ^ 20
  | _ => True
  end.

Definition MAX_CALLS : Z := 2048.

Record psys_inv (M : Z) (s : psys) : Prop := {
  inv_wf : pool_wf (sumz inflight (ps_calls s)) (ps_pool s);
  inv_fit : sumz charge (p_list (ps_pool s)) + sumz committed (ps_calls s) <= M * 2 ^ 20;
  inv_calls : Forall (park_ok M) (ps_calls s);
  inv_max : 0 <= max_mb (ps_pool s) <= M;
  inv_count : zlen (ps_calls s) <= MAX_CALLS;
}.

Lemma committed_inflight t : 0 <= committed t <= inflight t.
Proof.
  destruct t as [|?|?| | | | | | |e size|]; cbn [committed inflight]; try lia;
    pose proof (align_up_range PAGE_SHIFT size) as Hr; unfold Pool.page_align; lia.
Qed.

Lemma inflight_bound M t : 0 <= M < 2 ^ 32 -> park_ok M t -> 0 <= inflight t <= 2 ^ 52.
Proof.
  intros HM. pose proof (committed_inflight t). destruct t; simpl in *; lia.
Qed.

Lemma evict_oldest_wf x p :
  pool_wf x p ->
  pool_wf x (evict_oldest p).2 /\ same_limits p (evict_oldest p).2 /\
  sumz charge (p_list (evict_oldest p).2) <= sumz charge (p_list p).
Proof.
  intros Hwf. pose proof (evict_oldest_spec PAGE_SHIFT x p Hwf) as Hs.
  destruct (budgeted p) as [|e es]; [by rewrite Hs|].
  destruct Hs as (p' & -> & Hwf' & _ & _ & Hlim & Hsec & _). split; [done|]. split; [done|].
  destruct Hwf as [Hw _], Hwf' as [Hw' _]. cbn [snd].
  pose proof (align_up_range PAGE_SHIFT (ent_size e)) as Hr. unfold Pool.page_align in Hsec. lia.
Qed.

Lemma take_wf x p size q :
  pool_wf x p ->
  let p' := (ane_t6021_pool_take PAGE_SHIFT p size q).2 in
  pool_wf x p' /\ same_limits p p' /\ sumz charge (p_list p') <= sumz charge (p_list p).
Proof.
  intros Hwf. unfold ane_t6021_pool_take. destruct q; [done|].
  pose proof (list_take_first_spec (fun e => page_align (ent_size e) =? page_align size) (p_list p)) as Hf.
  destruct (list_take_first _ _) as [[e r]|]; [|done].
  destruct Hf as (l1 & l2 & Hl & -> & _ & _). destruct Hwf as (Hs & Hx & Hlt).
  rewrite Hl sumz_app sumz_cons in Hs. pose proof (charge_range PAGE_SHIFT e).
  pose proof (sum_charge_nonneg PAGE_SHIFT l1). pose proof (sum_charge_nonneg PAGE_SHIFT l2).
  cbn zeta. rewrite Hl. unfold Pool.pool_wf, same_limits.
  destruct (pooled_sec e) eqn:He; cbn [snd set_list pool_uncharge p_list sec_bytes max_mb min_kb];
    rewrite !sumz_app sumz_cons; unfold Pool.charge in *; rewrite He in Hs |- *;
    unfold Pool.charge in *; rewrite He in H; try rewrite (wrap_small 64); try lia.
Qed.

(** One operation of one call: [x] is the charge of the other calls in
    flight, [y] the committed part of it. *)
Lemma park_step_inv M x y p t :
  0 <= M < 2 ^ 32 -> park_ok M t -> 0 <= y <= x -> x <= 2 ^ 63 -> max_mb p <= M -> 0 <= max_mb p ->
  pool_wf (x + inflight t) p -> sumz charge (p_list p) + (y + committed t) <= M * 2 ^ 20 ->
  let '(p', t', _) := park_step p t in
  pool_wf (x + inflight t') p' /\ sumz charge (p_list p') + (y + committed t') <= M * 2 ^ 20 /\
  park_ok M t' /\ max_mb p' = max_mb p.
Proof.
  intros HM Hok Hy Hx Hmax Hmax0 Hwf Hfit.
  pose proof (evict_oldest_wf (x + inflight t) p Hwf) as (Hewf & [Helim _] & Hesum).
  assert (0 <= page_align (match t with Charge _ z _ => z | _ => 0 end)) as Hpa
    by apply align_up_range.
  destruct t; cbn [park_step inflight committed park_ok] in *.
  - done.
  - unfold pool_budget. destruct (_ =? 0); repeat split; cbn; try done; try apply Hwf.
    rewrite Z.shiftl_mul_pow2; [|lia]. pose proof (wrap_small 64 (max_mb p * 2 ^ 20)). lia.
  - destruct (evict_oldest p) as [[old|] p']; cbn [snd] in *; repeat split; try done; try apply Hewf; cbn; lia.
  - destruct (negb _); [done|]. destruct (_ <? _) eqn:Hb; [done|]. repeat split; try apply Hwf; cbn; lia.
  - destruct (charge_spec PAGE_SHIFT (x + 0) (page_align size) p Hwf) as [Hwf' Hs']; [done| |].
    { destruct Hwf as [Hw _]. lia. }
    rewrite Z.add_0_r in Hwf'.
    destruct (budget <? sec_bytes _) eqn:Hb; repeat split; cbn [inflight committed park_ok pool_charge p_list max_mb];
      try apply Hwf'; try lia.
    destruct Hwf' as [Hw' _]. cbn [pool_charge p_list] in Hw'. lia.
  - destruct (_ <? _); repeat split; try apply Hwf; cbn; lia.
  - destruct (evict_oldest p) as [[old|] p']; cbn [snd] in *; repeat split; try apply Hewf; cbn; lia.
  - destruct (budget <? sec_bytes p) eqn:Hb; repeat split; cbn [inflight committed park_ok]; try apply Hwf; try lia.
    destruct Hwf as [Hw _]. lia.
  - destruct Hwf as (Hw & Hx' & Hlt). unfold Pool.pool_wf.
    cbn [pool_uncharge sec_bytes p_list max_mb committed inflight park_ok].
    pose proof (sum_charge_nonneg PAGE_SHIFT (p_list p)).
    pose proof (align_up_range PAGE_SHIFT size) as Hr. unfold Pool.page_align in *.
    rewrite (wrap_small 64); [|lia]. repeat split; lia.
  - destruct (link_spec PAGE_SHIFT x (page_align size) p (PoolEnt (ent_id ent) size true))
      as (Hwf' & _); [done|lia|done|done|].
    rewrite Z.add_0_r. split; [done|]. cbn [set_list p_list max_mb committed park_ok].
    rewrite sumz_app sumz_cons. cbn. repeat split; lia.
  - done.
Qed.

Lemma sum_inflight_bounds M ts :
  0 <= M < 2 ^ 32 -> Forall (park_ok M) ts -> zlen ts <= MAX_CALLS ->
  0 <= sumz committed ts <= sumz inflight ts /\ sumz inflight ts <= 2 ^ 63.
Proof.
  intros HM Hok Hn. rewrite Forall_forall in Hok. split.
  - split; [|apply sumz_le; intros; apply committed_inflight].
    apply (sumz_bounds _ _ (2 ^ 52)). intros t Ht.
    pose proof (committed_inflight t). pose proof (inflight_bound M t HM (Hok t Ht)). lia.
  - pose proof (sumz_bounds inflight ts (2 ^ 52) (fun t Ht => inflight_bound M t HM (Hok t Ht))).
    unfold MAX_CALLS in Hn. nia.
Qed.

(** The other calls, when call [i] stands at [t]. *)
Lemma others_split f (ts : list park_pc) i t t' :
  ts !! i = Some t -> sumz f (<[i:=t']> ts) = (sumz f ts - f t) + f t'.
Proof. apply sumz_insert. Qed.

(** Call [i] does its next operation. *)
Lemma call_step_inv M p ts i t p' t' rs :
  0 <= M < 2 ^ 32 -> psys_inv M (PSys p ts) -> ts !! i = Some t -> park_step p t = (p', t', rs) ->
  psys_inv M (PSys p' (<[i:=t']> ts)).
Proof.
  intros HM [Hwf Hfit Hok Hmax Hn] Ht Hps. cbn [ps_pool ps_calls] in *.
  destruct (sum_inflight_bounds M ts HM Hok Hn) as [[Hc0 Hci] Hib].
  assert (park_ok M t) as Hokt by (eapply Forall_lookup_1; eauto).
  pose proof (committed_inflight t) as Hct. pose proof (committed_inflight t') as Hct'.
  assert (0 <= sumz committed ts - committed t <= sumz inflight ts - inflight t) as Hoth.
  { assert (Forall (park_ok M) (<[i:=Idle]> ts)) as Hok2 by by apply Forall_insert.
    destruct (sum_inflight_bounds M (<[i:=Idle]> ts) HM Hok2) as [Hb _]; [by rewrite zlen_insert|].
    rewrite !(others_split _ ts i t Idle Ht) in Hb. cbn [inflight committed] in Hb. lia. }
  pose proof (park_step_inv M (sumz inflight ts - inflight t) (sumz committed ts - committed t) p t
                HM Hokt Hoth) as Hinv. rewrite Hps in Hinv.
  replace (sumz inflight ts - inflight t + inflight t) with (sumz inflight ts) in Hinv by lia.
  replace (sumz committed ts - committed t + committed t) with (sumz committed ts) in Hinv by lia.
  destruct Hinv as (Hwf' & Hfit' & Hok' & Hm'); [lia|lia|lia|done|done|].
  split; cbn [ps_pool ps_calls]; rewrite ?(others_split _ _ i t t' Ht) ?zlen_insert ?Hm'; try done.
  by apply Forall_insert.
Qed.

Lemma psys_step_inv M s ev s' :
  0 <= M < 2 ^ 32 -> psys_inv M s -> psys_step M s ev s' -> psys_inv M s'.
Proof.
  intros HM [Hwf Hfit Hok Hmax Hn] Hst.
  destruct (sum_inflight_bounds M (ps_calls s) HM Hok Hn) as [[Hc0 Hci] Hib].
  assert (forall i t t', resting t = true -> ps_calls s !! i = Some t -> inflight t' = 0 -> committed t' = 0 ->
            sumz inflight (<[i:=t']> (ps_calls s)) = sumz inflight (ps_calls s) /\
            sumz committed (<[i:=t']> (ps_calls s)) = sumz committed (ps_calls s)) as Hrest.
  { intros i t t' Hr Ht Hi' Hc'. rewrite !(others_split _ _ i t t' Ht) Hi' Hc'.
    destruct t; try done; cbn [inflight committed]; lia. }
  destruct Hst as [p ts i t e size Ht Hr|p ts i t v Ht Hr Hv|p ts i t p' t' rs Ht Hps|p ts size q|p ts e size|p ts];
    cbn [ps_pool ps_calls] in *.
  - destruct (Hrest i t (Start e size)) as [Hr1 Hr2]; [done..|].
    split; cbn [ps_pool ps_calls]; rewrite ?Hr1 ?Hr2 ?zlen_insert; try done.
    by apply Forall_insert.
  - destruct (v =? 0).
    + destruct (Hrest i t Draining) as [Hr1 Hr2]; [done..|].
      split; cbn [ps_pool ps_calls]; rewrite ?Hr1 ?Hr2 ?zlen_insert; try done.
      by apply Forall_insert.
    + by split.
  - by eapply (call_step_inv M p ts i t).
  - destruct (take_wf _ p size q Hwf) as (Hwf' & [Hm' _] & Hs').
    split; cbn [ps_pool ps_calls]; rewrite ?Hm'; try done. lia.
  - split; cbn [ps_pool ps_calls ane_t6021_pool_park_uncharged set_list p_list max_mb]; try done.
    + destruct Hwf as (Hw & Hx & Hlt). unfold Pool.pool_wf. cbn [set_list p_list sec_bytes].
      rewrite sumz_app. cbn. repeat split; lia.
    + rewrite sumz_app. cbn. lia.
  - destruct (evict_oldest_wf _ p Hwf) as (Hwf' & [Hm' _] & Hs').
    split; cbn [ps_pool ps_calls]; rewrite ?Hm'; try done. lia.
Qed.

Lemma psys_trace_inv M s evs s' :
  0 <= M < 2 ^ 32 -> psys_inv M s -> psys_trace M s evs s' -> psys_inv M s'.
Proof.
  intros HM Hi Htr. induction Htr as [|s ev s1 evs s2 Hs _ IH]; [done|].
  apply IH. by eapply psys_step_inv.
Qed.

Lemma psys_init_inv M mm mk n :
  0 <= mm <= M -> Z.of_nat n <= MAX_CALLS ->
  psys_inv M (PSys (ane_t6021_pool_init mm mk) (replicate n Idle)).
Proof.
  intros Hmm Hn. assert (forall f, f Idle = 0 -> sumz f (replicate n Idle) = 0) as Hz.
  { intros f Hf. induction n as [|n IH]; [done|]. cbn [replicate]. rewrite sumz_cons Hf IH; lia. }
  split; cbn [ps_pool ps_calls ane_t6021_pool_init p_list max_mb]; rewrite ?Hz; try done.
  - cbn. lia.
  - by apply Forall_replicate.
  - unfold zlen. by rewrite length_replicate.
Qed.
End concurrent.

(** ** Properties *)

(** C7. Any number of parks (up to 2048 at once), evictions, takes, io parks
    and budget changes, interleaved at their atomic operations from an empty
    pool: the section bytes linked in the pool never exceed the largest budget
    ever set, the counter is exactly the linked bytes plus the charges of
    the calls in flight, and when no call is in flight nothing stays charged
    that is not linked. *)
Theorem pool_budget_concurrent PAGE_SHIFT M mm mk n evs s :
  0 <= mm <= M -> M < 2 ^ 32 -> Z.of_nat n <= MAX_CALLS ->
  psys_trace PAGE_SHIFT M (PSys (ane_t6021_pool_init mm mk) (replicate n Idle)) evs s ->
  let linked := sumz (charge PAGE_SHIFT) (p_list (ps_pool s)) in
  0 <= linked <= M * 2 ^ 20 /\
  sec_bytes (ps_pool s) = sumz (inflight PAGE_SHIFT) (ps_calls s) + linked /\
  (Forall (fun t => resting t = true) (ps_calls s) -> sec_bytes (ps_pool s) = linked).
Proof.
  intros Hmm HM Hn Htr.
  destruct (psys_trace_inv PAGE_SHIFT M _ evs s ltac:(lia) (psys_init_inv PAGE_SHIFT M mm mk n Hmm Hn) Htr)
    as [[Hw [Hx _]] Hfit Hok _ Hcnt].
  destruct (sum_inflight_bounds PAGE_SHIFT M (ps_calls s) ltac:(lia) Hok Hcnt) as [Hc _].
  pose proof (sum_charge_nonneg PAGE_SHIFT (p_list (ps_pool s))).
  cbn zeta. split; [lia|]. split; [done|]. intros Hrest. rewrite Hw.
  enough (sumz (inflight PAGE_SHIFT) (ps_calls s) = 0) by lia. clear -Hrest.
  induction Hrest as [|t ts Ht _ IH]; [done|]. rewrite sumz_cons IH. by destruct t.
Qed.

(** Two parks of 768 KiB race for a budget of 1 MiB over a parked 512 KiB
    entry; both charge first, the second undoes. *)
Definition race_events : list pool_event :=
  [EvCall 0 (PoolEnt 1 0 false) 524288; EvStep 0; EvStep 0; EvStep 0; EvStep 0;
   EvCall 0 (PoolEnt 2 0 false) 786432; EvCall 1 (PoolEnt 3 0 false) 786432;
   EvStep 0; EvStep 1; EvStep 0; EvStep 1; EvStep 0; EvStep 1;
   EvStep 1; EvStep 1; EvStep 1; EvStep 1; EvStep 0; EvStep 1; EvStep 1; EvStep 0; EvStep 0; EvStep 0].

(** Runs the step relation on events that name their call. *)
Lemma trace_step PAGE_SHIFT M p ts i t p' t' rs evs s :
  ts !! i = Some t -> park_step PAGE_SHIFT p t = (p', t', rs) ->
  psys_trace PAGE_SHIFT M (PSys p' (<[i:=t']> ts)) evs s ->
  psys_trace PAGE_SHIFT M (PSys p ts) (EvStep i :: evs) s.
Proof. intros Ht Hp Htr. eapply tr_cons; [by eapply ps_step|done]. Qed.

Lemma trace_call PAGE_SHIFT M p ts i t e size evs s :
  ts !! i = Some t -> resting t = true ->
  psys_trace PAGE_SHIFT M (PSys p (<[i:=Start e size]> ts)) evs s ->
  psys_trace PAGE_SHIFT M (PSys p ts) (EvCall i e size :: evs) s.
Proof. intros Ht Hr Htr. eapply tr_cons; [by eapply ps_call|done]. Qed.

Lemma pool_budget_concurrent_witness :
  exists s, psys_trace 14 1 (PSys (ane_t6021_pool_init 1 256) (replicate 2 Idle)) race_events s /\
  ps_calls s = [Done None; Done (Some ENOSPC)] /\ sec_bytes (ps_pool s) = 786432 /\
  0 <= sumz (charge 14) (p_list (ps_pool s)) <= 1 * 2 ^ 20.
Proof.
  assert (exists s, psys_trace 14 1 (PSys (ane_t6021_pool_init 1 256) (replicate 2 Idle)) race_events s /\
            ps_calls s = [Done None; Done (Some ENOSPC)] /\ sec_bytes (ps_pool s) = 786432)
    as (s & Htr & Hcalls & Hsec).
  { eexists. split; [|split].
    { unfold race_events.
      repeat first [eapply trace_step; [vm_compute; reflexivity|vm_compute; reflexivity|]
                   |eapply trace_call; [vm_compute; reflexivity|reflexivity|]
                   |apply tr_nil]. }
    all: reflexivity. }
  exists s. split; [exact Htr|]. split; [exact Hcalls|]. split; [exact Hsec|].
  apply (pool_budget_concurrent 14 1 1 256 2 race_events s); [lia|lia|vm_compute; discriminate|exact Htr].
Defined.

(** The park, run alone: with the budget off it drains the pool and
    refuses; a size under the floor or over the budget changes nothing; every
    other park succeeds, after releasing exactly the shortest run of oldest
    section entries that makes room, and leaves io entries, order and
    accounting intact. The call is a run of the atomic operations that the
    concurrent system interleaves. *)
Theorem pool_park_exact {C} PAGE_SHIFT (release : pool_ent -> C -> C) p ent size c :
  pool_wf PAGE_SHIFT 0 p -> in_range 32 (max_mb p) -> sec_bytes p < 2 ^ 63 ->
  twp (ane_t6021_pool_park PAGE_SHIFT release p ent size c) (fun r =>
    park_outcome PAGE_SHIFT release p ent size c r /\
    exists rs, park_exec PAGE_SHIFT p (Start ent size) rs r.1.1 (Done r.2) /\
               r.1.2 = release_all release rs c).
Proof.
  intros Hwf Hm Hs. destruct (twp_ex _ _ (pool_park_spec PAGE_SHIFT release p ent size c Hwf Hm Hs))
    as ([[p' c'] st] & He & Hout).
  pose proof (pool_park_exec PAGE_SHIFT release p ent size c p' c' st He) as Hex.
  rewrite He. by split.
Qed.

Definition demo_pool : pool :=
  Pool [PoolEnt 1 524288 true; PoolEnt 2 16384 false; PoolEnt 3 262144 true] 786432 1 16.

Lemma pool_park_exact_witness :
  exists p', ane_t6021_pool_park 14 (fun e c => c ++ [ent_id e]) demo_pool (PoolEnt 4 0 false) 600000 []
             = Ret (p', [1], None) /\
  exists rs, park_exec 14 demo_pool (Start (PoolEnt 4 0 false) 600000) rs p' (Done None).
Proof.
  pose proof (pool_park_exact 14 (fun e c => c ++ [ent_id e]) demo_pool (PoolEnt 4 0 false) 600000 []) as H.
  assert (exists p', ane_t6021_pool_park 14 (fun e c => c ++ [ent_id e]) demo_pool (PoolEnt 4 0 false) 600000 []
             = Ret (p', [1], None)) as [p' E] by (eexists; vm_compute; reflexivity).
  exists p'. split; [exact E|]. rewrite E in H.
  destruct H as [_ (rs & Hex & _)];
    [vm_compute; repeat split; congruence|vm_compute; repeat split; congruence|reflexivity|].
  exists rs. exact Hex.
Defined.

(** C39. The retry loop of [BO_INIT] always returns: it makes one attempt more
    than it evicts, each eviction frees the oldest section entry, it stops at
    the first status that is not [-ENOMEM] or [-ENOSPC], and it reports one of
    those two only when no section entry is left to give back. *)
Theorem pool_alloc_retry_complete {C} PAGE_SHIFT (release : pool_ent -> C -> C) attempt p c :
  pool_wf PAGE_SHIFT 0 p ->
  twp (ane_t6021_pool_alloc_retry PAGE_SHIFT release attempt p c)
    (retry_outcome PAGE_SHIFT release attempt p c).
Proof. apply alloc_retry_spec. Qed.

Lemma pool_alloc_retry_complete_witness :
  twp (ane_t6021_pool_alloc_retry 14 (fun _ c => c + 1)
         (fun c => (c, if bool_decide (c < 2) then Some ENOMEM else None)) demo_pool 0)
      (fun r => exists k, evicted 14 0 k demo_pool r.1.1).
Proof.
  eapply twp_mono.
  - apply (pool_alloc_retry_complete 14 (fun _ c => c + 1)
             (fun c => (c, if bool_decide (c < 2) then Some ENOMEM else None)) demo_pool 0).
    vm_compute. repeat split; congruence.
  - intros [[p' c'] st] (k & Hev & _). by exists k.
Defined.
