(* ===== verification/ProgTab.v ===== *)
(** * The program table of the T6021 driver

    [src/ane/t6021/ane_t6021_progtab.h]: the firmware programs that are
    loaded, who holds a reference on them, and when they are unloaded. A
    pointer into the table is the index of the slot; a section buffer is
    named by its address. The functions run under the firmware lock. *)

From S2P Require Import Prelude.

Definition ANE_T6021_MAX_PROGRAMS : Z := 250.
Definition ANE_T6021_PROG_SECS : Z := 9.
Definition ANE_T6021_PROG_NOPROC : Z := U32_MAX.

Inductive prog_state := PROG_FREE | PROG_LIVE | PROG_HELD.

#[global] Instance prog_state_eq_dec : EqDecision prog_state.
Proof. solve_decision. Defined.

Record prog := Prog {
  digest : bytes;
  prog_id : Z;
  proc_id : Z;
  users : Z;
  state : prog_state;
  sec : list (option Z);   (* the section buffers, NULL when none *)
}.

Definition prog0 : prog :=
  Prog (replicate 32 0) 0 0 0 PROG_FREE (replicate 9 None).

Record progtab := ProgTab { progs : list prog; hi : Z }.

Definition progtab0 : progtab := ProgTab (replicate 250 prog0) 0.

(** The ids one file holds a reference on: [ids[0..n)]. *)
Abbreviation fdprogs := (list Z).

(** [for (i = 0; i < t->hi; i++) if (f(&t->progs[i])) return ...] *)
Fixpoint scan_from (f : prog -> bool) (i : nat) (l : list prog) : option nat :=
  match l with
  | [] => None
  | p :: l' => if f p then Some i else scan_from f (S i) l'
  end.

Definition scan (f : prog -> bool) (t : progtab) : option nat :=
  scan_from f 0 (take (Z.to_nat (hi t)) (progs t)).

Definition is_live (p : prog) : bool := bool_decide (state p = PROG_LIVE).

Definition ane_t6021_progtab_find (t : progtab) (dg : bytes) : option nat :=
  scan (fun p => is_live p && bool_decide (digest p = dg)) t.

Definition ane_t6021_progtab_by_id (t : progtab) (id : Z) : option nat :=
  scan (fun p => is_live p && (prog_id p =? id)) t.

Definition is_free (p : prog) : bool := bool_decide (state p = PROG_FREE).

Definition ane_t6021_progtab_has_room (t : progtab) : bool :=
  if hi t <? ANE_T6021_MAX_PROGRAMS then true
  else if scan is_free t is Some _ then true else false.

Definition set_prog (t : progtab) (i : nat) (p : prog) : progtab :=
  ProgTab (<[i:=p]> (progs t)) (hi t).

(** [memset], then the fields of a program that was just loaded. *)
Definition fresh_prog (dg : bytes) (id : Z) : prog :=
  Prog dg id ANE_T6021_PROG_NOPROC 0 PROG_LIVE (replicate 9 None).

Definition ane_t6021_progtab_add (t : progtab) (dg : bytes) (id : Z) : option nat * progtab :=
  match scan is_free t with
  | Some i => (Some i, set_prog t i (fresh_prog dg id))
  | None =>
      if hi t =? ANE_T6021_MAX_PROGRAMS then (None, t)
      else (Some (Z.to_nat (hi t)),
            set_prog (ProgTab (progs t) (hi t + 1)) (Z.to_nat (hi t)) (fresh_prog dg id))
  end.

Definition ane_t6021_fdprogs_has (f : fdprogs) (id : Z) : bool := bool_decide (id ∈ f).

Definition set_users (p : prog) (n : Z) : prog :=
  Prog (digest p) (prog_id p) (proc_id p) n (state p) (sec p).

Definition set_state (p : prog) (st : prog_state) : prog :=
  Prog (digest p) (prog_id p) (proc_id p) (users p) st (sec p).

Definition set_proc (p : prog) (id : Z) : prog :=
  Prog (digest p) (prog_id p) id (users p) (state p) (sec p).

Definition set_secs (p : prog) (l : list (option Z)) : prog :=
  Prog (digest p) (prog_id p) (proc_id p) (users p) (state p) l.

(** The file takes a reference, once per program. *)
Definition ane_t6021_fdprogs_ref (f : fdprogs) (p : prog) : bool * fdprogs * prog :=
  if ane_t6021_fdprogs_has f (prog_id p) then (true, f, p)
  else if zlen f =? ANE_T6021_MAX_PROGRAMS then (false, f, p)
  else (true, f ++ [prog_id p], set_users p (u32 (users p + 1))).

(** [struct ane_t6021_progtab_ops]: [unload] is zero only when the firmware
    acknowledged both commands; [release] gives the buffers back. *)
Record progtab_ops (C : Type) := ProgOps {
  op_unload : C -> prog -> C * bool;
  op_release : C -> prog -> C;
}.
Arguments ProgOps {C} _ _.
Arguments op_unload {C} _ _ _.
Arguments op_release {C} _ _ _.

Section close.
Context {C : Type} (unload_on_close : bool) (ops : progtab_ops C).

(** One id of the closing file. *)
Definition close_one (st : progtab * C * Z) (id : Z) : progtab * C * Z :=
  let '(t, c, held) := st in
  match ane_t6021_progtab_by_id t id with
  | None => st
  | Some i =>
      match progs t !! i with
      | None => st
      | Some p =>
          if users p =? 0 then st
          else
            let p := set_users p (users p - 1) in
            if negb (users p =? 0) || negb unload_on_close then (set_prog t i p, c, held)
            else
              let '(c, ok) := op_unload ops c p in
              if negb ok then (set_prog t i (set_state p PROG_HELD), c, held + 1)
              else (set_prog t i prog0, op_release ops c p, held)
      end
  end.

(** Returns the number of programs that ended held; the file's list is
    empty afterwards. *)
Definition ane_t6021_progtab_fd_close (t : progtab) (f : fdprogs) (c : C) :
    progtab * C * Z :=
  foldl close_one (t, c, 0) f.
End close.

(** ** The table invariant

    [refs id] is the number of files that hold [id]. *)
Definition live_at (t : progtab) (i : nat) (p : prog) : Prop :=
  progs t !! i = Some p /\ state p = PROG_LIVE.

Record tab_inv (t : progtab) (refs : Z -> Z) : Prop := {
  ti_len : length (progs t) = 250%nat;
  ti_hi : 0 <= hi t <= 250;
  ti_above : forall i p, progs t !! i = Some p -> hi t <= Z.of_nat i -> state p = PROG_FREE;
  ti_ids : forall i j p q, live_at t i p -> live_at t j q -> prog_id p = prog_id q -> i = j;
  ti_digests : forall i j p q, live_at t i p -> live_at t j q -> digest p = digest q -> i = j;
  ti_users : forall i p, live_at t i p -> users p = refs (prog_id p);
  ti_refs : forall id, refs id <> 0 -> exists i p, live_at t i p /\ prog_id p = id;
}.

Lemma scan_from_spec f k l :
  match scan_from f k l with
  | Some i => exists p, (k <= i)%nat /\ l !! (i - k)%nat = Some p /\ f p = true
  | None => forall j p, l !! j = Some p -> f p = false
  end.
Proof.
  revert k. induction l as [|p l IH]; intros k; cbn [scan_from]; [done|].
  destruct (f p) eqn:Hf.
  { exists p. by rewrite Nat.sub_diag. }
  specialize (IH (S k)). destruct (scan_from f (S k) l) as [i|].
  - destruct IH as (q & Hk & Hq & Hfq). exists q. split; [lia|]. split; [|done].
    by replace (i - k)%nat with (S (i - S k))%nat by lia.
  - intros [|j] q Hq; [by simplify_eq/=|by apply (IH j)].
Qed.

Lemma scan_spec f t :
  match scan f t with
  | Some i => exists p, progs t !! i = Some p /\ f p = true /\ (Z.of_nat i < hi t \/ hi t < 0)
  | None => forall i p, progs t !! i = Some p -> Z.of_nat i < hi t -> f p = false
  end.
Proof.
  unfold scan. pose proof (scan_from_spec f 0 (take (Z.to_nat (hi t)) (progs t))) as Hs.
  destruct (scan_from f 0 _) as [i|].
  - destruct Hs as (p & _ & Hp & Hf). rewrite Nat.sub_0_r in Hp.
    apply lookup_take_Some in Hp as [Hp Hi]. exists p. repeat split; [done|done|lia].
  - intros i p Hp Hi. apply (Hs i). rewrite lookup_take_lt; [done|lia].
Qed.

Section inv.
Context (t : progtab) (refs : Z -> Z) (Hinv : tab_inv t refs).

Lemma live_below i p : live_at t i p -> Z.of_nat i < hi t.
Proof.
  intros [Hp Hl]. destruct (decide (Z.of_nat i < hi t)) as [|Hn]; [done|].
  rewrite (ti_above _ _ Hinv i p) in Hl; [done|done|lia].
Qed.

(** The two searches find exactly the live programs. *)
Lemma by_id_spec id :
  match ane_t6021_progtab_by_id t id with
  | Some i => exists p, live_at t i p /\ prog_id p = id
  | None => forall i p, live_at t i p -> prog_id p <> id
  end.
Proof.
  unfold ane_t6021_progtab_by_id, is_live.
  pose proof (scan_spec (fun p => bool_decide (state p = PROG_LIVE) && (prog_id p =? id)) t) as Hs.
  destruct (scan _ t) as [i|].
  - destruct Hs as (p & Hp & Hf & _). exists p. apply andb_prop in Hf as [Hf1 Hf2].
    apply bool_decide_eq_true in Hf1. split; [done|lia].
  - intros i p Hl Hid. specialize (Hs i p (proj1 Hl) (live_below i p Hl)).
    rewrite bool_decide_true in Hs; [|apply Hl]. rewrite Hid Z.eqb_refl in Hs. done.
Qed.

Lemma find_spec dg :
  match ane_t6021_progtab_find t dg with
  | Some i => exists p, live_at t i p /\ digest p = dg
  | None => forall i p, live_at t i p -> digest p <> dg
  end.
Proof.
  unfold ane_t6021_progtab_find, is_live.
  pose proof (scan_spec (fun p => bool_decide (state p = PROG_LIVE) && bool_decide (digest p = dg)) t) as Hs.
  destruct (scan _ t) as [i|].
  - destruct Hs as (p & Hp & Hf & _). exists p. apply andb_prop in Hf as [Hf1 Hf2].
    apply bool_decide_eq_true in Hf1, Hf2. done.
  - intros i p Hl Hid. specialize (Hs i p (proj1 Hl) (live_below i p Hl)).
    rewrite !bool_decide_true in Hs; [done|done|apply Hl].
Qed.

Lemma by_id_live i p : live_at t i p -> ane_t6021_progtab_by_id t (prog_id p) = Some i.
Proof.
  intros Hl. pose proof (by_id_spec (prog_id p)) as Hs.
  destruct (ane_t6021_progtab_by_id t (prog_id p)) as [j|]; [|by destruct (Hs i p Hl)].
  destruct Hs as (q & Hq & He). f_equal. by eapply (ti_ids _ _ Hinv j i q p).
Qed.

Lemma lookup_set_prog i p j :
  (i < 250)%nat -> progs (set_prog t i p) !! j = if bool_decide (i = j) then Some p else progs t !! j.
Proof.
  intros Hi. cbn [set_prog progs]. case_bool_decide as E.
  - subst. apply list_lookup_insert_eq. by rewrite (ti_len _ _ Hinv).
  - by apply list_lookup_insert_ne.
Qed.

Lemma live_bound i p : progs t !! i = Some p -> (i < 250)%nat.
Proof. intros Hp. apply lookup_lt_Some in Hp. by rewrite (ti_len _ _ Hinv) in Hp. Qed.

(** Replacing a live slot by one of the same identity, or by one that is no
    longer live. [refs'] may differ at its id only. *)
Lemma set_prog_inv i p q refs' :
  live_at t i p ->
  (forall id, id <> prog_id p -> refs' id = refs id) ->
  (state q = PROG_LIVE -> prog_id q = prog_id p /\ digest q = digest p /\ users q = refs' (prog_id p)) ->
  (state q <> PROG_LIVE -> refs' (prog_id p) = 0) ->
  tab_inv (set_prog t i q) refs'.
Proof.
  intros Hl Hr Hlive Hdead. pose proof (live_bound i p (proj1 Hl)) as Hi.
  assert (forall j x, live_at (set_prog t i q) j x ->
            (j = i /\ x = q /\ state q = PROG_LIVE) \/ (j <> i /\ live_at t j x)) as Hcase.
  { intros j x [Hx Hlx]. rewrite lookup_set_prog in Hx; [|done]. case_bool_decide; [left; by simplify_eq|right].
    split; [congruence|done]. }
  assert (forall j x, j <> i -> live_at t j x -> prog_id x <> prog_id p /\ digest x <> digest p) as Hne.
  { intros j x Hji Hx. split; intros He; destruct Hji.
    - by eapply (ti_ids _ _ Hinv j i x p).
    - by eapply (ti_digests _ _ Hinv j i x p). }
  split.
  - cbn. by rewrite length_insert (ti_len _ _ Hinv).
  - apply (ti_hi _ _ Hinv).
  - intros j x Hx Hj. rewrite lookup_set_prog in Hx; [|done]. case_bool_decide.
    + pose proof (live_below i p Hl). cbn in Hj. lia.
    + by apply (ti_above _ _ Hinv j).
  - intros j k x y Hx Hy He. destruct (Hcase j x Hx) as [(-> & -> & Hq)|[Hj Hx']],
      (Hcase k y Hy) as [(-> & -> & Hq')|[Hk Hy']]; try done.
    + destruct (Hlive Hq) as [Hid _]. destruct (Hne k y Hk Hy'). congruence.
    + destruct (Hlive Hq') as [Hid _]. destruct (Hne j x Hj Hx'). congruence.
    + by eapply (ti_ids _ _ Hinv j k x y).
  - intros j k x y Hx Hy He. destruct (Hcase j x Hx) as [(-> & -> & Hq)|[Hj Hx']],
      (Hcase k y Hy) as [(-> & -> & Hq')|[Hk Hy']]; try done.
    + destruct (Hlive Hq) as (_ & Hid & _). destruct (Hne k y Hk Hy'). congruence.
    + destruct (Hlive Hq') as (_ & Hid & _). destruct (Hne j x Hj Hx'). congruence.
    + by eapply (ti_digests _ _ Hinv j k x y).
  - intros j x Hx. destruct (Hcase j x Hx) as [(-> & -> & Hq)|[Hj Hx']].
    + destruct (Hlive Hq) as (-> & _ & ->). done.
    + rewrite Hr; [by apply (ti_users _ _ Hinv j)|]. by apply (Hne j).
  - intros id Hid. destruct (decide (id = prog_id p)) as [->|Hn].
    + destruct (decide (state q = PROG_LIVE)) as [Hq|Hq]; [|by rewrite Hdead in Hid].
      exists i, q. split; [|by apply Hlive]. split; [|done]. rewrite lookup_set_prog; [|done].
      by rewrite bool_decide_true.
    + rewrite Hr in Hid; [|done]. destruct (ti_refs _ _ Hinv id Hid) as (j & x & [Hx Hlx] & Hxid).
      exists j, x. split; [|done]. split; [|done]. rewrite lookup_set_prog; [|done].
      rewrite bool_decide_false; [done|]. intros ->. destruct Hl. congruence.
Qed.
End inv.

Lemma is_free_spec p : is_free p = true <-> state p = PROG_FREE.
Proof. unfold is_free. by rewrite bool_decide_eq_true. Qed.

(** [add] takes a slot that holds no program, live or held. *)
Lemma add_spec t refs dg id :
  tab_inv t refs -> ane_t6021_progtab_has_room t = true ->
  (forall i p, live_at t i p -> prog_id p <> id /\ digest p <> dg) -> refs id = 0 ->
  exists i p0 t', ane_t6021_progtab_add t dg id = (Some i, t') /\ tab_inv t' refs /\
    progs t !! i = Some p0 /\ state p0 = PROG_FREE /\ progs t' = <[i:=fresh_prog dg id]> (progs t).
Proof.
  intros Hinv Hroom Hnew Hr. unfold ane_t6021_progtab_add, ane_t6021_progtab_has_room in *.
  pose proof (ti_hi _ _ Hinv) as Hhi. pose proof (ti_len _ _ Hinv) as Hlen.
  assert (exists i p0 h, progs t !! i = Some p0 /\ state p0 = PROG_FREE /\ hi t <= h <= 250 /\ Z.of_nat i < h /\
    match scan is_free t with
    | Some i => (Some i, set_prog t i (fresh_prog dg id))
    | None => if hi t =? ANE_T6021_MAX_PROGRAMS then (None, t)
              else (Some (Z.to_nat (hi t)),
                    set_prog (ProgTab (progs t) (hi t + 1)) (Z.to_nat (hi t)) (fresh_prog dg id))
    end = (Some i, ProgTab (<[i:=fresh_prog dg id]> (progs t)) h)) as (i & p0 & h & Hp0 & Hfree & Hh & Hih & ->).
  { pose proof (scan_spec is_free t) as Hs. destruct (scan is_free t) as [i|].
    - destruct Hs as (p0 & Hp & Hf & Hi). exists i, p0, (hi t). rewrite -is_free_spec. repeat split; try done; lia.
    - destruct (Z.ltb_spec (hi t) ANE_T6021_MAX_PROGRAMS) as [Hlt|]; [|done].
      unfold ANE_T6021_MAX_PROGRAMS in *. destruct (lookup_lt_is_Some_2 (progs t) (Z.to_nat (hi t))) as [p0 Hp0]; [lia|].
      exists (Z.to_nat (hi t)), p0, (hi t + 1). rewrite (proj2 (Z.eqb_neq _ _)); [|lia].
      repeat split; try done; try lia. apply (ti_above _ _ Hinv (Z.to_nat (hi t))); [done|lia]. }
  exists i, p0, (ProgTab (<[i:=fresh_prog dg id]> (progs t)) h). split; [done|]. split; [|done].
  assert (i < 250)%nat as Hi by (apply lookup_lt_Some in Hp0; lia).
  assert (forall j x, live_at (ProgTab (<[i:=fresh_prog dg id]> (progs t)) h) j x ->
            (j = i /\ x = fresh_prog dg id) \/ (j <> i /\ live_at t j x)) as Hcase.
  { intros j x [Hx Hl]. cbn in Hx. destruct (decide (j = i)) as [->|Hj].
    - left. rewrite list_lookup_insert_eq in Hx; [|lia]. by simplify_eq.
    - right. by rewrite list_lookup_insert_ne in Hx. }
  split; cbn [progs hi].
  - by rewrite length_insert.
  - lia.
  - intros j x Hx Hj. destruct (decide (j = i)) as [->|Hji]; [lia|].
    rewrite list_lookup_insert_ne in Hx; [|done]. apply (ti_above _ _ Hinv j); [done|lia].
  - intros j k x y Hx Hy He. destruct (Hcase j x Hx) as [(-> & ->)|[Hj Hx']],
      (Hcase k y Hy) as [(-> & ->)|[Hk Hy']]; try done.
    + by destruct (Hnew k y Hy').
    + by destruct (Hnew j x Hx').
    + by eapply (ti_ids _ _ Hinv j k x y).
  - intros j k x y Hx Hy He. destruct (Hcase j x Hx) as [(-> & ->)|[Hj Hx']],
      (Hcase k y Hy) as [(-> & ->)|[Hk Hy']]; try done.
    + by destruct (Hnew k y Hy').
    + by destruct (Hnew j x Hx').
    + by eapply (ti_digests _ _ Hinv j k x y).
  - intros j x Hx. destruct (Hcase j x Hx) as [(-> & ->)|[Hj Hx']]; [by cbn|].
    by apply (ti_users _ _ Hinv j).
  - intros id' Hid. destruct (ti_refs _ _ Hinv id' Hid) as (j & x & [Hx Hlx] & Hxid).
    exists j, x. split; [|done]. split; [|done]. cbn. rewrite list_lookup_insert_ne; [done|].
    intros ->. congruence.
Qed.

(** [ref1 refs id]: one more file holds [id]. *)
Definition ref1 (refs : Z -> Z) (id : Z) : Z -> Z :=
  fun id' => if id' =? id then refs id' + 1 else refs id'.

Lemma ref_spec t refs i p f :
  tab_inv t refs -> live_at t i p -> 0 <= refs (prog_id p) < U32_MAX ->
  match ane_t6021_fdprogs_ref f p with
  | (true, f', p') =>
      (f' = f /\ p' = p /\ prog_id p ∈ f) \/
      (f' = f ++ [prog_id p] /\ prog_id p ∉ f /\ p' = set_users p (users p + 1) /\
       tab_inv (set_prog t i p') (ref1 refs (prog_id p)))
  | (false, f', p') => f' = f /\ p' = p /\ zlen f = 250
  end.
Proof.
  intros Hinv Hl Hr. unfold ane_t6021_fdprogs_ref, ane_t6021_fdprogs_has.
  case_bool_decide as Hin; [by left|].
  destruct (Z.eqb_spec (zlen f) ANE_T6021_MAX_PROGRAMS) as [He|]; [done|].
  right. rewrite (ti_users _ _ Hinv i p Hl).
  assert (u32 (refs (prog_id p) + 1) = refs (prog_id p) + 1) as ->
    by (apply wrap_small; unfold U32_MAX in Hr; lia).
  split; [done|]. split; [done|]. split; [done|].
  apply (set_prog_inv t refs Hinv i p); [done| | |].
  - intros id Hid. unfold ref1. by rewrite (proj2 (Z.eqb_neq _ _)).
  - intros _. unfold ref1. cbn. by rewrite Z.eqb_refl.
  - intros Hn. destruct Hn. apply Hl.
Qed.

Section close_spec.
Context {C : Type} (unload_on_close : bool) (ops : progtab_ops C).

(** [unref1 refs id]: one file fewer. *)
Definition unref1 (refs : Z -> Z) (id : Z) : Z -> Z :=
  fun id' => if id' =? id then refs id' - 1 else refs id'.

(** What closing does to one id: with other users the count drops; the last
    user's program is unloaded, and freed or held. *)
Lemma close_one_spec t refs c held id :
  tab_inv t refs -> 0 < refs id ->
  exists i p, live_at t i p /\ prog_id p = id /\ users p = refs id /\
    let p' := set_users p (users p - 1) in
    let '(t', c', held') := close_one unload_on_close ops (t, c, held) id in
    tab_inv t' (unref1 refs id) /\
    if negb (refs id =? 1) || negb unload_on_close
    then t' = set_prog t i p' /\ c' = c /\ held' = held
    else let '(c1, ok) := op_unload ops c p' in
         if ok : bool then t' = set_prog t i prog0 /\ c' = op_release ops c1 p' /\ held' = held
         else t' = set_prog t i (set_state p' PROG_HELD) /\ c' = c1 /\ held' = held + 1.
Proof.
  intros Hinv Hr. destruct (ti_refs _ _ Hinv id) as (i & p & Hl & <-); [lia|].
  exists i, p. split; [done|]. split; [done|]. pose proof (ti_users _ _ Hinv i p Hl) as Hu.
  split; [done|]. cbn zeta. unfold close_one. rewrite (by_id_live t refs Hinv i p Hl).
  rewrite (proj1 Hl) (proj2 (Z.eqb_neq (users p) 0)); [|lia].
  assert (forall q, (state q = PROG_LIVE -> q = set_users p (users p - 1)) ->
            (state q <> PROG_LIVE -> refs (prog_id p) = 1) ->
            tab_inv (set_prog t i q) (unref1 refs (prog_id p))) as Hset.
  { intros q Hq Hd. apply (set_prog_inv t refs Hinv i p); [done| | |]; unfold unref1.
    - intros id Hid. by rewrite (proj2 (Z.eqb_neq _ _)).
    - intros Hlq. rewrite (Hq Hlq) Z.eqb_refl. cbn. split; [done|]. split; [done|lia].
    - intros Hn. rewrite Z.eqb_refl (Hd Hn). lia. }
  cbn [set_users users]. replace (users p - 1 =? 0) with (refs (prog_id p) =? 1) by lia.
  destruct (negb (refs (prog_id p) =? 1) || negb unload_on_close) eqn:Hb.
  { split; [|done]. apply Hset; [done|]. cbn. intros Hn. destruct Hn. apply Hl. }
  destruct (op_unload ops c _) as [c1 [|]]; cbn [negb]; (split; [|done]); apply Hset; try done; lia.
Qed.
End close_spec.
