(* ===== verification/T6021.v ===== *)
(** * Buffers and programs of the T6021 driver

    [src/ane/t6021/ane_t6021_rtclient_main.c]: buffer objects with their
    reference counts, user mappings, the pool of parked buffers, program
    loading, execution and unloading. Each ioctl is one function on the
    driver state; an exchange with the firmware is split where the doorbell
    rings, so that other threads' buffer ioctls can run in between
    ([PROG_LOAD] and [EXEC] hold the firmware lock, [BO_INIT], [BO_FREE],
    mmap and munmap do not take it). *)

From S2P Require Import Prelude Pool ProgTab.

(** ** State *)

(** [struct ane_t6021_bo], named by its address. *)
Record bo := Bo {
  b_owner : Z;
  b_handle : Z;
  b_refcount : Z;
  b_dma : Z;
  b_size : Z;
  b_fw_ref : bool;
  b_fw_program : bool;
  b_fw_io : bool;
  b_prog_refs : Z;   (* u16 *)
}.

(** [struct ane_t6021_fd]. *)
Record fdst := Fd { fd_bos : list Z; fd_progs : fdprogs }.

(** The exchange that holds the firmware lock. *)
Inductive fwop :=
  | FwLoad (fd : Z) (dg : bytes) (secs : list (option Z)) (cmd : bytes)
  | FwExec (ios : list Z) (cmd : bytes).

Record drv := Drv {
  bos : gmap Z bo;            (* allocated struct ane_t6021_bo *)
  mem : gmap Z bytes;         (* coherent memory by DMA address *)
  total : Z;                  (* ane_t6021_bo_total_bytes *)
  bopool : pool;
  fds : gmap Z fdst;          (* open files *)
  vmas : list Z;              (* the buffer of each user mapping *)
  tab : progtab;
  quarantined : bool;
  next_handle : Z;
  fw_busy : option fwop;
  bad_access : bool;          (* ghost: a freed object was used *)
}.

Definition set_bos (d : drv) (m : gmap Z bo) : drv :=
  Drv m (mem d) (total d) (bopool d) (fds d) (vmas d) (tab d) (quarantined d)
      (next_handle d) (fw_busy d) (bad_access d).
Definition set_mem (d : drv) (m : gmap Z bytes) (t : Z) : drv :=
  Drv (bos d) m t (bopool d) (fds d) (vmas d) (tab d) (quarantined d)
      (next_handle d) (fw_busy d) (bad_access d).
Definition set_pool (d : drv) (p : pool) : drv :=
  Drv (bos d) (mem d) (total d) p (fds d) (vmas d) (tab d) (quarantined d)
      (next_handle d) (fw_busy d) (bad_access d).
Definition set_fds (d : drv) (m : gmap Z fdst) : drv :=
  Drv (bos d) (mem d) (total d) (bopool d) m (vmas d) (tab d) (quarantined d)
      (next_handle d) (fw_busy d) (bad_access d).
Definition set_vmas (d : drv) (l : list Z) : drv :=
  Drv (bos d) (mem d) (total d) (bopool d) (fds d) l (tab d) (quarantined d)
      (next_handle d) (fw_busy d) (bad_access d).
Definition set_tab (d : drv) (t : progtab) : drv :=
  Drv (bos d) (mem d) (total d) (bopool d) (fds d) (vmas d) t (quarantined d)
      (next_handle d) (fw_busy d) (bad_access d).
Definition quarantine (d : drv) : drv :=
  Drv (bos d) (mem d) (total d) (bopool d) (fds d) (vmas d) (tab d) true
      (next_handle d) (fw_busy d) (bad_access d).
Definition set_handle (d : drv) (h : Z) : drv :=
  Drv (bos d) (mem d) (total d) (bopool d) (fds d) (vmas d) (tab d) (quarantined d)
      h (fw_busy d) (bad_access d).
Definition set_busy (d : drv) (b : option fwop) : drv :=
  Drv (bos d) (mem d) (total d) (bopool d) (fds d) (vmas d) (tab d) (quarantined d)
      (next_handle d) b (bad_access d).
Definition set_bad (d : drv) : drv :=
  Drv (bos d) (mem d) (total d) (bopool d) (fds d) (vmas d) (tab d) (quarantined d)
      (next_handle d) (fw_busy d) true.

Definition set_refcount (b : bo) (n : Z) : bo :=
  Bo (b_owner b) (b_handle b) n (b_dma b) (b_size b) (b_fw_ref b) (b_fw_program b) (b_fw_io b) (b_prog_refs b).
Definition set_io (b : bo) : bo :=
  Bo (b_owner b) (b_handle b) (b_refcount b) (b_dma b) (b_size b) true (b_fw_program b) true (b_prog_refs b).

(** What an ioctl returns: its value or a negative errno. *)
Abbreviation ioctl A := (res (drv * (A + errno))).

Definition ANE_T6021_BO_MAX : Z := 2 ^ 30.
Definition SZ_16K : Z := 0x4000.
Definition MAX_BINDS : Z := 64.
Definition ANE_T6021_LOAD_SEC_COUNT : Z := 9.
Definition ANE_CALL_COOKIE : Z := 0xADD0.

(** The kernel allocators: [kzalloc] of a buffer object and
    [dma_alloc_coherent] return memory that is not allocated, or fail; the
    choice may depend on anything ([s]). *)
Class KernelAlloc := {
  kzalloc : Z -> gmap Z bo -> option Z;
  dma_alloc : Z -> gmap Z bytes -> Z -> option Z;
}.

Class KernelAllocLaws `{KernelAlloc} := {
  kzalloc_fresh s m a : kzalloc s m = Some a -> m !! a = None;
  dma_alloc_fresh s m size a : dma_alloc s m size = Some a -> m !! a = None;
}.

(** [ane_t6021_fw_alias_iova_ok]: clear of the firmware entry alias. *)
Definition ane_t6021_fw_alias_iova_ok (fw_alias_iova fw_size iova size : Z) : bool :=
  if fw_alias_iova =? 0 then true
  else (u64 (iova + size) <=? fw_alias_iova) || (u64 (fw_alias_iova + fw_size) <=? iova).

Section driver.
Context `{KernelAlloc} (PAGE_SHIFT : Z).
(** Module parameters, the firmware alias window, the kernel's SHA-256. *)
Context (bo_total_max_mb fw_alias_iova fw_size : Z) (unload_on_close : bool)
  (sha256 : bytes -> bytes).

Abbreviation page_align := (page_align PAGE_SHIFT).

(** ** Buffer objects *)

(** [dma_free_coherent(bo->dev, bo->size, bo->cpu, bo->dma)] with the counter,
    and [kfree(bo)]. *)
Definition free_bo (d : drv) (b : Z) (o : bo) : drv :=
  let d := match mem d !! b_dma o with
           | Some _ => set_mem d (delete (b_dma o) (mem d)) (total d - page_align (b_size o))
           | None => set_bad d
           end in
  set_bos d (delete b (bos d)).

Definition ane_t6021_pool_release_ent (e : pool_ent) (d : drv) : drv :=
  match bos d !! ent_id e with
  | Some o => free_bo d (ent_id e) o
  | None => set_bad d
  end.

Definition ane_t6021_bo_release (b : Z) (d : drv) : res drv :=
  match bos d !! b with
  | None => Ret (set_bad d)
  | Some o =>
      let ent := PoolEnt b 0 false in
      if negb (b_fw_ref o) then
        '(p, d, st) ← ane_t6021_pool_park PAGE_SHIFT ane_t6021_pool_release_ent (bopool d) ent (b_size o) d;
        let d := set_pool d p in
        match st with
        | None => Ret d
        | Some _ => Ret (free_bo d b o)
        end
      else if b_fw_program o || quarantined d then Ret (set_bos d (delete b (bos d)))
      else Ret (set_pool d (ane_t6021_pool_park_uncharged (bopool d) ent (b_size o)))
  end.

Definition kref_get (b : Z) (d : drv) : drv :=
  match bos d !! b with
  | None => set_bad d
  | Some o => set_bos d (<[b := set_refcount o (b_refcount o + 1)]> (bos d))
  end.

Definition kref_put (b : Z) (d : drv) : res drv :=
  match bos d !! b with
  | None => Ret (set_bad d)
  | Some o =>
      let d := set_bos d (<[b := set_refcount o (b_refcount o - 1)]> (bos d)) in
      if b_refcount o - 1 =? 0 then ane_t6021_bo_release b d else Ret d
  end.

(** The first buffer on the file's list that satisfies [f]. *)
Fixpoint bo_find (f : bo -> bool) (m : gmap Z bo) (l : list Z) : option (Z * bo) :=
  match l with
  | [] => None
  | b :: l' =>
      match m !! b with
      | Some o => if f o then Some (b, o) else bo_find f m l'
      | None => bo_find f m l'
      end
  end.

Definition by_handle (h : Z) (o : bo) : bool := b_handle o =? h.

(** [ane_t6021_bo_alloc_attempt]; the state carries [c->bo_out]. *)
Definition ane_t6021_bo_alloc_attempt (s size : Z) (c : drv * option Z) :
    (drv * option Z) * status :=
  let '(d, _) := c in
  if Z.shiftl bo_total_max_mb 20 <? total d + page_align size then (c, Some ENOSPC)
  else
    match kzalloc s (bos d) with
    | None => (c, Some ENOMEM)
    | Some b =>
        match dma_alloc s (mem d) size with
        | None => (c, Some ENOMEM)
        | Some a =>
            if negb (a mod SZ_16K =? 0) || negb (ane_t6021_fw_alias_iova_ok fw_alias_iova fw_size a size)
            then (c, Some ERANGE)
            else
              let d := set_mem d (<[a := replicate (Z.to_nat (page_align size)) 0]> (mem d))
                               (total d + page_align size) in
              ((set_bos d (<[b := Bo 0 0 0 a 0 false false false 0]> (bos d)), Some b), None)
        end
    end.

(** The [publish] label: the buffer gets a handle on the file's list. *)
Definition bo_publish (fd : Z) (f : fdst) (b size : Z) (d : drv) : drv * (Z + errno) :=
  match bos d !! b with
  | None => (set_bad d, inr EINVAL)
  | Some o =>
      let h0 := next_handle d in
      let h := if h0 =? 0 then u32 (h0 + 1) else h0 in
      let o := Bo fd h 1 (b_dma o) size (b_fw_ref o) (b_fw_program o) (b_fw_io o) (b_prog_refs o) in
      let d := set_handle (set_bos d (<[b := o]> (bos d))) (u32 (h + 1)) in
      (set_fds d (<[fd := Fd (fd_bos f ++ [b]) (fd_progs f)]> (fds d)), inl h)
  end.

Definition ane_t6021_bo_init_ioctl (s fd size : Z) (d : drv) : ioctl Z :=
  match fds d !! fd with
  | None => Ret (d, inr EINVAL)
  | Some f =>
      if (size =? 0) || (ANE_T6021_BO_MAX <? size) then Ret (d, inr EINVAL)
      else
        match ane_t6021_pool_take PAGE_SHIFT (bopool d) size (quarantined d) with
        | (Some e, p) =>
            let d := set_pool d p in
            match bos d !! ent_id e with
            | None => Ret (set_bad d, inr EINVAL)
            | Some o =>
                match mem d !! b_dma o with
                | None => Ret (set_bad d, inr EINVAL)
                | Some c =>
                    c ← memset c 0 0 (page_align size);
                    Ret (bo_publish fd f (ent_id e) size (set_mem d (<[b_dma o := c]> (mem d)) (total d)))
                end
            end
        | (None, _) =>
            '(p, (d, out), st) ← ane_t6021_pool_alloc_retry PAGE_SHIFT
                (fun e '(d, out) => (ane_t6021_pool_release_ent e d, out))
                (ane_t6021_bo_alloc_attempt s size) (bopool d) (d, None);
            let d := set_pool d p in
            match st, out with
            | Some e, _ => Ret (d, inr e)
            | None, Some b => Ret (bo_publish fd f b size d)
            | None, None => Ret (set_bad d, inr EINVAL)
            end
        end
  end.

Definition ane_t6021_bo_drop (fd b : Z) (d : drv) : res drv :=
  match fds d !! fd with
  | None => Ret (set_bad d)
  | Some f =>
      kref_put b (set_fds d (<[fd := Fd (filter (fun x => x <> b) (fd_bos f)) (fd_progs f)]> (fds d)))
  end.

Definition ane_t6021_bo_free_ioctl (fd handle : Z) (d : drv) : ioctl unit :=
  match fds d !! fd with
  | None => Ret (d, inr ENODEV)
  | Some f =>
      match bo_find (by_handle handle) (bos d) (fd_bos f) with
      | None => Ret (d, inr ENOENT)
      | Some (b, _) => d ← ane_t6021_bo_drop fd b d; Ret (d, inl tt)
      end
  end.

(** [mapped] is the result of [dma_mmap_coherent]. *)
Definition ane_t6021_mmap (fd vm_pgoff size : Z) (mapped : status) (d : drv) : ioctl unit :=
  match fds d !! fd with
  | None => Ret (d, inr ENODEV)
  | Some f =>
      let handle := u32 vm_pgoff in
      if handle =? 0 then Ret (d, inr EINVAL)
      else
        match bo_find (fun o => by_handle handle o && (b_owner o =? fd)) (bos d) (fd_bos f) with
        | None => Ret (d, inr ENOENT)
        | Some (b, o) =>
            let d := kref_get b d in
            if page_align (b_size o) <? size then d ← kref_put b d; Ret (d, inr ENOENT)
            else
              match mapped with
              | Some e => d ← kref_put b d; Ret (d, inr e)
              | None => Ret (set_vmas d (b :: vmas d), inl tt)
              end
        end
  end.

Definition ane_t6021_vm_open (b : Z) (d : drv) : drv :=
  let d := kref_get b d in set_vmas d (b :: vmas d).

(** The mapping is gone when [vm_close] runs. *)
Definition remove_one (b : Z) (l : list Z) : list Z :=
  match list_find (fun x => x = b) l with
  | Some (i, _) => delete i l
  | None => l
  end.

Definition ane_t6021_vm_close (b : Z) (d : drv) : res drv :=
  kref_put b (set_vmas d (remove_one b (vmas d))).

Definition ane_t6021_open (fd : Z) (kzalloc_ok : bool) (d : drv) : drv * (unit + errno) :=
  if negb kzalloc_ok then (d, inr ENOMEM)
  else (set_fds d (<[fd := Fd [] []]> (fds d)), inl tt).

(** ** Programs *)

(** [struct drm_ane_section] and [struct drm_ane_exec_io], as copied from
    the caller. *)
Record section := Section { s_id : Z; s_bo_handle : Z; s_offset : Z; s_size : Z }.
Record exec_arg := ExecIo { io_buffer_id : Z; io_type : Z; io_bo_handle : Z; io_size : Z }.

Fixpoint ids_distinct (l : list section) : bool :=
  match l with
  | [] => true
  | x :: l' => forallb (fun y => negb (s_id x =? s_id y)) l' && ids_distinct l'
  end.

Definition section_ids_ok (l : list section) : bool :=
  forallb (fun x => (1 <=? s_id x) && (s_id x <=? ANE_T6021_LOAD_SEC_COUNT)) l && ids_distinct l.

(** The buffer that holds a section: the handle is on the file's list and
    the range lies inside the buffer. *)
Definition section_bo (m : gmap Z bo) (l : list Z) (x : section) : option (Z * bo) :=
  match bo_find (by_handle (s_bo_handle x)) m l with
  | Some (b, o) =>
      if (s_size x <=? b_size o) && (s_offset x <=? b_size o - s_size x) then Some (b, o) else None
  | None => None
  end.

(** The hash input of a section: its id and size as two 64-bit words, then
    its bytes. *)
Definition mem_of (m : gmap Z bytes) (o : bo) : option bytes := m !! b_dma o.

Definition section_message (m : gmap Z bytes) (o : bo) (x : section) : bytes :=
  le_bytes 8 (s_id x) ++ le_bytes 8 (s_size x) ++
  slice (default [] (mem_of m o)) (s_offset x) (s_size x).

Definition load_message (d : drv) (l : list Z) (secs : list section) : res bytes :=
  foldM (fun acc x =>
    match section_bo (bos d) l x with
    | None => Fail EINVAL
    | Some (_, o) => Ret (acc ++ section_message (mem d) o x)
    end) [] secs.

(** Marks one section's buffer before its IOVA is published, takes the
    program's reference and writes the section record. *)
Definition load_mark (l : list Z) (st : drv * list (option Z) * bytes) (x : section) :
    res (drv * list (option Z) * bytes + drv) :=
  let '(d, secs, cmd) := st in
  match section_bo (bos d) l x with
  | None => Ret (inr d)
  | Some (b, o) =>
      let o := Bo (b_owner o) (b_handle o) (b_refcount o + 1) (b_dma o) (b_size o) true true
                  (b_fw_io o) (u16 (b_prog_refs o + 1)) in
      let d := set_bos d (<[b := o]> (bos d)) in
      let base := 0x8 + (s_id x - 1) * 0x30 in
      cmd ← put_le32 cmd base 1;
      cmd ← put_le32 cmd (base + 0x04) (s_id x);
      cmd ← put_le64 cmd (base + 0x18) (u64 (b_dma o + s_offset x));
      cmd ← put_le64 cmd (base + 0x20) (s_size x);
      Ret (inl (d, <[Z.to_nat (s_id x - 1) := Some b]> secs, cmd))
  end.

(** The loop over the sections; [inr] is its early exit. *)
Fixpoint load_marks (l : list Z) (st : drv * list (option Z) * bytes) (xs : list section) :
    res (drv * list (option Z) * bytes + drv) :=
  match xs with
  | [] => Ret (inl st)
  | x :: xs' =>
      r ← load_mark l st x;
      match r with
      | inl st => load_marks l st xs'
      | inr d => Ret (inr d)
      end
  end.

(** The file takes a reference on slot [i]. *)
Definition take_ref (fd : Z) (f : fdst) (i : nat) (p : prog) (d : drv) : bool * drv :=
  let '(ok, ids, p) := ane_t6021_fdprogs_ref (fd_progs f) p in
  (ok, set_tab (set_fds d (<[fd := Fd (fd_bos f) ids]> (fds d))) (set_prog (tab d) i p)).

(** [PROG_LOAD] up to the doorbell. [inl (Some id)] is a program that was
    already loaded; [inl None] waits for the firmware's answer. [kmem] and
    [copied] are the outcomes of the temporary allocations and of
    [copy_from_user], [cmd_buf] whether the command buffer exists. *)
Definition prog_load_begin (fd generic_count : Z) (secs : list section)
    (kmem copied cmd_buf : bool) (d : drv) : ioctl (option Z) :=
  if quarantined d then Ret (d, inr ETIMEDOUT)
  else
    match fds d !! fd with
    | None => Ret (d, inr EINVAL)
    | Some f =>
        if (zlen secs <? 1) || (ANE_T6021_LOAD_SEC_COUNT <? zlen secs) ||
           (MAX_BINDS <? generic_count) then Ret (d, inr EINVAL)
        else if negb kmem then Ret (d, inr ENOMEM)
        else if negb copied then Ret (d, inr EFAULT)
        else if negb (section_ids_ok secs) then Ret (d, inr EINVAL)
        else
          match load_message d (fd_bos f) secs with
          | Fault w => Fault w
          | Fail e => Ret (d, inr e)
          | Ret msg =>
              let dg := sha256 msg in
              match ane_t6021_progtab_find (tab d) dg with
              | Some i =>
                  match progs (tab d) !! i with
                  | None => Ret (set_bad d, inr EINVAL)
                  | Some p =>
                      let '(ok, d) := take_ref fd f i p d in
                      Ret (d, if ok then inl (Some (prog_id p)) else inr ENOSPC)
                  end
              | None =>
                  if negb (ane_t6021_progtab_has_room (tab d)) then Ret (d, inr ENOSPC)
                  else if negb cmd_buf then Ret (d, inr ENODEV)
                  else
                    r ← load_marks (fd_bos f) (d, replicate 9 None, replicate (Z.to_nat SZ_16K) 0) secs;
                    match r with
                    | inr d => Ret (d, inr EINVAL)
                    | inl (d, slots, cmd) =>
                        cmd ← put_le32 cmd 0x1b8 U32_MAX;
                        Ret (set_busy d (Some (FwLoad fd dg slots cmd)), inl None)
                    end
              end
          end
    end.

(** The answer to LOAD_PROGRAM: [ok] is a zero status, [id] the word the
    firmware wrote at +0x1b8. A failed command quarantines the device. *)
Definition prog_load_end (ok : bool) (id : Z) (d : drv) : ioctl Z :=
  match fw_busy d with
  | Some (FwLoad fd dg slots _) =>
      let d := set_busy d None in
      if negb ok then Ret (quarantine d, inr ETIMEDOUT)
      else if id =? U32_MAX then Ret (d, inr EPROTO)
      else
        match ane_t6021_progtab_add (tab d) dg id with
        | (None, _) => Ret (d, inr ENOSPC)
        | (Some i, t) =>
            let np := set_secs (fresh_prog dg id) slots in
            let d := set_tab d (set_prog t i np) in
            match fds d !! fd with
            | None => Ret (set_bad d, inr EINVAL)
            | Some f =>
                let '(ok, d) := take_ref fd f i np d in
                Ret (d, if ok then inl id else inr ENOSPC)
            end
        end
  | _ => Ret (d, inr EINVAL)
  end.

(** [found] and the id, as written back to the caller. *)
Definition ane_t6021_prog_lookup_ioctl (fd pad digest_len : Z) (dg : bytes) (copied : bool) (d : drv) :
    ioctl (bool * Z) :=
  if negb (pad =? 0) || negb (digest_len =? 32) then Ret (d, inr EINVAL)
  else if negb copied then Ret (d, inr EFAULT)
  else if quarantined d then Ret (d, inr ENODEV)
  else
    match ane_t6021_progtab_find (tab d) dg with
    | None => Ret (d, inl (false, 0))
    | Some i =>
        match progs (tab d) !! i, fds d !! fd with
        | Some p, Some f =>
            let '(ok, d) := take_ref fd f i p d in
            Ret (d, if ok then inl (true, prog_id p) else inr ENOSPC)
        | _, _ => Ret (set_bad d, inr EINVAL)
        end
    end.

(** [ok] and [id]: the firmware's answer to CREATE_PROCESS. *)
Definition ane_rtclient_create_process (pid : Z) (cmd_buf ok : bool) (id : Z) (d : drv) : drv * (Z + errno) :=
  match ane_t6021_progtab_by_id (tab d) pid with
  | None => (d, inr ENOENT)
  | Some i =>
      match progs (tab d) !! i with
      | None => (set_bad d, inr EINVAL)
      | Some p =>
          if negb (proc_id p =? U32_MAX) then (d, inl (proc_id p))
          else if negb cmd_buf then (d, inr ENODEV)
          else if negb ok then (quarantine d, inr ETIMEDOUT)
          else if id =? U32_MAX then (d, inr EPROTO)
          else (set_tab d (set_prog (tab d) i (set_proc p id)), inl id)
      end
  end.

Definition ane_t6021_proc_create_ioctl (fd pid : Z) (cmd_buf ok : bool) (id : Z) (d : drv) : drv * (Z + errno) :=
  if quarantined d then (d, inr ETIMEDOUT)
  else
    match fds d !! fd with
    | None => (d, inr ENOENT)
    | Some f =>
        if negb (ane_t6021_fdprogs_has (fd_progs f) pid) then (d, inr ENOENT)
        else ane_rtclient_create_process pid cmd_buf ok id d
    end.

(** One io buffer of a call: marked before its IOVA is published. *)
Definition exec_mark (l : list Z) (st : drv * list Z * bytes * Z) (x : exec_arg) :
    res (drv * list Z * bytes * Z + drv) :=
  let '(d, ios, cmd, i) := st in
  match bo_find (by_handle (io_bo_handle x)) (bos d) l with
  | None => Ret (inr d)
  | Some (b, o) =>
      if b_size o <? io_size x then Ret (inr d)
      else
        let d := set_bos d (<[b := set_io o]> (bos d)) in
        let base := 0x60 + i * 0x30 in
        cmd ← put_le32 cmd base 1;
        cmd ← put_le32 cmd (base + 0x04) (io_buffer_id x);
        cmd ← put_le32 cmd (base + 0x08) (io_type x);
        cmd ← put_le64 cmd (base + 0x18) (b_dma o);
        cmd ← put_le64 cmd (base + 0x20) (io_size x);
        Ret (inl (d, ios ++ [b], cmd, i + 1))
  end.

Fixpoint exec_marks (l : list Z) (st : drv * list Z * bytes * Z) (xs : list exec_arg) :
    res (drv * list Z * bytes * Z + drv) :=
  match xs with
  | [] => Ret (inl st)
  | x :: xs' =>
      r ← exec_mark l st x;
      match r with
      | inl st => exec_marks l st xs'
      | inr d => Ret (inr d)
      end
  end.

(** [EXEC] up to the doorbell. *)
Definition exec_begin (fd pid proc priority : Z) (ios : list exec_arg) (kmem copied cmd_buf : bool) (d : drv) :
    ioctl unit :=
  match fds d !! fd with
  | None => Ret (d, inr EINVAL)
  | Some f =>
      if (zlen ios <? 1) || (MAX_BINDS <? zlen ios) || (priority <? 2) || (7 <? priority)
      then Ret (d, inr EINVAL)
      else if negb kmem then Ret (d, inr ENOMEM)
      else if negb copied then Ret (d, inr EFAULT)
      else if SZ_16K <? 0x60 + zlen ios * 0x30 then Ret (d, inr E2BIG)
      else if quarantined d then Ret (d, inr ETIMEDOUT)
      else if negb cmd_buf then Ret (d, inr ENODEV)
      else if negb (ane_t6021_fdprogs_has (fd_progs f) pid) then Ret (d, inr ENOENT)
      else
        let cmd := replicate (Z.to_nat SZ_16K) 0 in
        cmd ← put_le32 cmd 0x08 pid;
        cmd ← put_le32 cmd 0x0c proc;
        cmd ← put_le64 cmd 0x10 0;
        cmd ← put_le32 cmd 0x18 priority;
        cmd ← put_le64 cmd 0x20 ANE_CALL_COOKIE;
        cmd ← put_le32 cmd 0x28 (zlen ios);
        r ← exec_marks (fd_bos f) (d, [], cmd, 0) ios;
        match r with
        | inr d => Ret (d, inr EINVAL)
        | inl (d, bl, cmd, _) => Ret (set_busy d (Some (FwExec bl cmd)), inl tt)
        end
  end.

Definition exec_end (ok : bool) (d : drv) : ioctl unit :=
  match fw_busy d with
  | Some (FwExec _ _) =>
      let d := set_busy d None in
      if negb ok then Ret (quarantine d, inr ETIMEDOUT) else Ret (d, inl tt)
  | _ => Ret (d, inr EINVAL)
  end.

(** ** Closing a file *)

(** The firmware's answers to TERMINATE_PROCESS and DESTROY_PROGRAM (with
    the settling of its allocation ring). *)
Record unload_answers := Answers { ans_terminate : Z -> bool; ans_destroy : Z -> bool }.

Definition ane_t6021_prog_unload_op (cmd_buf : bool) (ans : unload_answers) (c : res drv) (p : prog) :
    res drv * bool :=
  match c with
  | Ret d =>
      if negb cmd_buf || quarantined d then (Ret d, false)
      else if negb (proc_id p =? U32_MAX) && negb (ans_terminate ans (prog_id p)) then (Ret (quarantine d), false)
      else if negb (ans_destroy ans (prog_id p)) then (Ret (quarantine d), false)
      else (Ret d, true)
  | _ => (c, false)
  end.

Definition release_section (d : drv) (ob : option Z) : res drv :=
  match ob with
  | None => Ret d
  | Some b =>
      match bos d !! b with
      | None => Ret (set_bad d)
      | Some o =>
          let n := u16 (b_prog_refs o - 1) in
          let o := if n =? 0
                   then Bo (b_owner o) (b_handle o) (b_refcount o) (b_dma o) (b_size o) (b_fw_io o) false
                           (b_fw_io o) n
                   else Bo (b_owner o) (b_handle o) (b_refcount o) (b_dma o) (b_size o) (b_fw_ref o)
                           (b_fw_program o) (b_fw_io o) n in
          kref_put b (set_bos d (<[b := o]> (bos d)))
      end
  end.

Definition ane_t6021_prog_release_op (c : res drv) (p : prog) : res drv :=
  d ← c; foldM release_section d (sec p).

Definition close_ops (cmd_buf : bool) (ans : unload_answers) : progtab_ops (res drv) :=
  ProgOps (ane_t6021_prog_unload_op cmd_buf ans) ane_t6021_prog_release_op.

Definition ane_t6021_postclose (cmd_buf : bool) (ans : unload_answers) (fd : Z) (d : drv) : res drv :=
  match fds d !! fd with
  | None => Ret d
  | Some f =>
      let '(t, c, _) := ane_t6021_progtab_fd_close unload_on_close (close_ops cmd_buf ans)
                          (tab d) (fd_progs f) (Ret d) in
      d ← c;
      let d := set_fds (set_tab d t) (<[fd := Fd (fd_bos f) []]> (fds d)) in
      d ← foldM (fun d b => ane_t6021_bo_drop fd b d) d (fd_bos f);
      Ret (set_fds d (delete fd (fds d)))
  end.

End driver.
