(* ===== verification/T6021Inv.v ===== *)
(** * The reference counts of the T6021 driver

    The invariant of the buffers and of the program table, and that every
    buffer operation of the driver preserves it: counts are exact, a buffer
    is freed only when nothing names it, and the bytes charged are the bytes
    allocated. *)

From S2P Require Import Prelude Pool ProgTab T6021.

(** ** The buffer invariant

    Reference counts are exact: a buffer's count is its handle, its mappings
    and the references of programs. A buffer with no reference is parked, or
    it is [x], the one a release is working on. *)

Definition hcount (F : gmap Z fdst) (b k : Z) : Z :=
  match F !! k with
  | Some f => if decide (b ∈ fd_bos f) then 1 else 0
  | None => 0
  end.

Definition vcount (V : list Z) (b : Z) : Z := sumz (fun v => if v =? b then 1 else 0) V.

Definition scount (l : list (option Z)) (b : Z) : Z :=
  sumz (fun s => if decide (s = Some b) then 1 else 0) l.

Arguments hcount : simpl never.
Arguments vcount : simpl never.
Arguments scount : simpl never.

Lemma hcount_range F b k : 0 <= hcount F b k <= 1.
Proof. unfold hcount. destruct (F !! k); [case_decide|]; lia. Qed.

Lemma vcount_cons V v b : vcount (v :: V) b = (if v =? b then 1 else 0) + vcount V b.
Proof. done. Qed.

Lemma vcount_nonneg V b : 0 <= vcount V b.
Proof.
  induction V as [|v V IH]; [done|]. rewrite vcount_cons. destruct (v =? b); lia.
Qed.

Lemma vcount_pos V b : 0 < vcount V b <-> b ∈ V.
Proof.
  induction V as [|v V IH].
  - split; [done|]. intros Hb. by apply elem_of_nil in Hb.
  - rewrite vcount_cons elem_of_cons. pose proof (vcount_nonneg V b).
    destruct (Z.eqb_spec v b); [split; [by left|lia]|]. rewrite Z.add_0_l IH. naive_solver.
Qed.

Lemma vcount_remove V v b :
  v ∈ V -> vcount (remove_one v V) b = vcount V b - if v =? b then 1 else 0.
Proof.
  intros Hv. unfold remove_one.
  destruct (list_find (fun x => x = v) V) as [[i y]|] eqn:Hf.
  2: { apply list_find_None in Hf. rewrite Forall_forall in Hf. by destruct (Hf v Hv). }
  apply list_find_Some in Hf as (Hi & -> & _). clear Hv. revert i Hi.
  induction V as [|z V IH]; intros [|i] Hi; try done.
  - injection Hi as ->. change (delete 0%nat (v :: V)) with V. rewrite vcount_cons. lia.
  - change (delete (S i) (z :: V)) with (z :: delete i V). rewrite !vcount_cons (IH i Hi). lia.
Qed.

Lemma scount_nonneg l b : 0 <= scount l b.
Proof.
  apply (sumz_bounds _ _ 1). intros s _. case_decide; lia.
Qed.

Section buf.
Context (PAGE_SHIFT : Z).
Abbreviation page_align := (page_align PAGE_SHIFT).

Record bo_ok (x : option Z) (n : Z) (M : gmap Z bytes) (L : list pool_ent) (F : gmap Z fdst)
    (V : list Z) (T : Z -> Z) (b : Z) (o : bo) : Prop := {
  ok_ref : b_refcount o = hcount F b (b_owner o) + vcount V b + b_prog_refs o;
  ok_secs : 0 <= T b <= b_prog_refs o /\ b_prog_refs o <= n;
  ok_prog : b_fw_program o = bool_decide (0 < b_prog_refs o);
  ok_fwref : b_fw_ref o = b_fw_program o || b_fw_io o;
  ok_mem : exists c, M !! b_dma o = Some c /\ zlen c = page_align (b_size o);
  ok_park : b_refcount o = 0 -> x = Some b \/ exists e, e ∈ L /\ ent_id e = b;
}.

Record buf_inv (x : option Z) (n : Z) (B : gmap Z bo) (M : gmap Z bytes) (L : list pool_ent)
    (F : gmap Z fdst) (V : list Z) (T : Z -> Z) : Prop := {
  bi_bo b o : B !! b = Some o -> bo_ok x n M L F V T b o;
  bi_dma b1 b2 o1 o2 : B !! b1 = Some o1 -> B !! b2 = Some o2 -> b_dma o1 = b_dma o2 -> b1 = b2;
  bi_x b : x = Some b -> (exists o, B !! b = Some o /\ b_refcount o = 0) /\
             forall e, e ∈ L -> ent_id e <> b;
  bi_nodup : NoDup (ent_id <$> L);
  bi_pool e : e ∈ L -> exists o, B !! ent_id e = Some o /\ b_refcount o = 0 /\
                page_align (ent_size e) = page_align (b_size o) /\
                (pooled_sec e = true -> b_fw_ref o = false);
  bi_fds k f : F !! k = Some f -> NoDup (fd_bos f) /\
                 forall b, b ∈ fd_bos f -> exists o, B !! b = Some o /\ b_owner o = k;
  bi_vmas b : b ∈ V -> is_Some (B !! b);
  bi_secs b : B !! b = None -> T b = 0;
}.

Section facts.
Context (x : option Z) (n : Z) (B : gmap Z bo) (M : gmap Z bytes) (L : list pool_ent)
  (F : gmap Z fdst) (V : list Z) (T : Z -> Z) (Hinv : buf_inv x n B M L F V T).

(** Who has a reference is not parked and not [x]. *)
Lemma live_not_parked b o :
  B !! b = Some o -> b_refcount o <> 0 -> x <> Some b /\ forall e, e ∈ L -> ent_id e <> b.
Proof.
  intros Hb Hr. split.
  - intros ->. destruct (bi_x _ _ _ _ _ _ _ _ Hinv b eq_refl) as [(o' & Ho' & Hz) _]. congruence.
  - intros e He <-. destruct (bi_pool _ _ _ _ _ _ _ _ Hinv e He) as (o' & Ho' & Hz & _). congruence.
Qed.

Lemma ref_zero b o :
  B !! b = Some o -> b_refcount o = 0 ->
  hcount F b (b_owner o) = 0 /\ vcount V b = 0 /\ b_prog_refs o = 0 /\ T b = 0.
Proof.
  intros Hb Hz. destruct (bi_bo _ _ _ _ _ _ _ _ Hinv b o Hb) as [Hr [Hs _] _ _ _ _].
  pose proof (hcount_range F b (b_owner o)). pose proof (vcount_nonneg V b). lia.
Qed.

(** No file, mapping or program names an unreferenced buffer. *)
Lemma ref_zero_fds b o k f : B !! b = Some o -> b_refcount o = 0 -> F !! k = Some f -> b ∉ fd_bos f.
Proof.
  intros Hb Hz Hk Hin. destruct (bi_fds _ _ _ _ _ _ _ _ Hinv k f Hk) as [_ Hf].
  destruct (Hf b Hin) as (o' & Ho' & <-). assert (o' = o) as -> by congruence.
  destruct (ref_zero b o Hb Hz) as [Hh _]. unfold hcount in Hh. rewrite Hk in Hh.
  rewrite decide_True in Hh; [lia|done].
Qed.

Lemma handle_ref k f b o : F !! k = Some f -> b ∈ fd_bos f -> B !! b = Some o ->
  b_owner o = k /\ 0 < b_refcount o.
Proof.
  intros Hk Hin Hb. destruct (bi_fds _ _ _ _ _ _ _ _ Hinv k f Hk) as [_ Hf].
  destruct (Hf b Hin) as (o' & Ho' & Hok). assert (o' = o) as -> by congruence. split; [done|].
  destruct (bi_bo _ _ _ _ _ _ _ _ Hinv b o Hb) as [Hr Hs _ _ _ _].
  unfold hcount in Hr. rewrite Hok Hk decide_True in Hr; [|done]. pose proof (vcount_nonneg V b). lia.
Qed.

(** A buffer that is not parked changes its references or its flags. *)
Lemma buf_update b o o' n' F' V' T' :
  B !! b = Some o -> n <= n' -> x = None \/ x = Some b -> (forall e, e ∈ L -> ent_id e <> b) ->
  b_dma o' = b_dma o -> page_align (b_size o') = page_align (b_size o) ->
  (forall b' k, b' <> b -> hcount F' b' k = hcount F b' k) ->
  (forall b', b' <> b -> vcount V' b' = vcount V b') -> (forall b', b' <> b -> T' b' = T b') ->
  (forall k f, F' !! k = Some f -> NoDup (fd_bos f) /\ (b ∈ fd_bos f -> b_owner o' = k)) ->
  b_refcount o' = hcount F' b (b_owner o') + vcount V' b + b_prog_refs o' ->
  0 <= T' b <= b_prog_refs o' -> b_prog_refs o' <= n' ->
  b_fw_program o' = bool_decide (0 < b_prog_refs o') -> b_fw_ref o' = b_fw_program o' || b_fw_io o' ->
  buf_inv (if b_refcount o' =? 0 then Some b else None) n' (<[b:=o']> B) M L F' V' T'.
Proof.
  intros Hb Hn Hx Hnp Hdma Hsize HF HV HT HF' Hr Ht Htn Hp Hfr.
  destruct Hinv as [Ibo Idma Ix Ind Ipool Ifds Ivm Isec].
  assert (exists c, M !! b_dma o' = Some c /\ zlen c = page_align (b_size o')) as Hmem.
  { rewrite Hdma Hsize. apply (Ibo b o Hb). }
  split.
  - intros b' q Hq. destruct (decide (b' = b)) as [->|Hne].
    + rewrite lookup_insert_eq in Hq. injection Hq as <-. split; try done.
      intros Hz. left. by rewrite Hz.
    + rewrite lookup_insert_ne in Hq; [|done]. destruct (Ibo b' q Hq) as [Hr1 Hs1 Hp1 Hf1 Hm1 Hk1].
      split; try done.
      * rewrite HF; [|done]. by rewrite HV.
      * rewrite HT; [|done]. lia.
      * intros Hz. right. destruct (Hk1 Hz) as [Hxb|]; [|done]. destruct Hx; congruence.
  - intros b1 b2 o1 o2 H1 H2 He.
    destruct (decide (b1 = b)) as [->|Hn1], (decide (b2 = b)) as [->|Hn2]; try done.
    + rewrite lookup_insert_eq in H1. injection H1 as <-. rewrite lookup_insert_ne in H2; [|done].
      apply (Idma b b2 o o2); [done|done|congruence].
    + rewrite lookup_insert_eq in H2. injection H2 as <-. rewrite lookup_insert_ne in H1; [|done].
      apply (Idma b1 b o1 o); [done|done|congruence].
    + rewrite !lookup_insert_ne in H1, H2; [|done..]. by apply (Idma b1 b2 o1 o2).
  - intros b' Hxb. destruct (Z.eqb_spec (b_refcount o') 0) as [Hz|]; [|done]. injection Hxb as <-.
    split; [|done]. exists o'. by rewrite lookup_insert_eq.
  - done.
  - intros e He. rewrite lookup_insert_ne; [by apply Ipool|]. intros Heq. by apply (Hnp e).
  - intros k f Hk. destruct (HF' k f Hk) as [Hnd Hown]. split; [done|].
    intros b' Hin. destruct (decide (b' = b)) as [->|Hne].
    + exists o'. rewrite lookup_insert_eq. auto.
    + rewrite lookup_insert_ne; [|done]. specialize (HF b' k Hne). unfold hcount in HF.
      rewrite Hk decide_True in HF; [|done]. destruct (F !! k) as [f0|] eqn:Hk0; [|done].
      case_decide as Hin0; [|done]. by apply (Ifds k f0).
  - intros b' Hin. apply vcount_pos in Hin. destruct (decide (b' = b)) as [->|Hne].
    + rewrite lookup_insert_eq. by exists o'.
    + rewrite lookup_insert_ne; [|done]. apply Ivm. rewrite -vcount_pos -HV; done.
  - intros b' Hb'. destruct (decide (b' = b)) as [->|Hne]; [by rewrite lookup_insert_eq in Hb'|].
    rewrite lookup_insert_ne in Hb'; [|done]. rewrite HT; [|done]. by apply Isec.
Qed.
End facts.

Section moves.
Implicit Types (x : option Z) (B : gmap Z bo) (M : gmap Z bytes) (L : list pool_ent)
  (F : gmap Z fdst) (V : list Z) (T : Z -> Z).

(** An unreferenced buffer goes away, its memory with it or not. *)
Lemma buf_delete x y n B M L L' F V T b o M' :
  buf_inv x n B M L F V T -> B !! b = Some o -> b_refcount o = 0 ->
  (M' = delete (b_dma o) M \/ M' = M) ->
  (forall e, e ∈ L' <-> e ∈ L /\ ent_id e <> b) -> NoDup (ent_id <$> L') ->
  (y = x /\ x <> Some b \/ y = None /\ x = Some b) ->
  buf_inv y n (delete b B) M' L' F V T.
Proof.
  intros Hinv Hb Hz HM HL Hnd Hy. pose proof (ref_zero _ _ _ _ _ _ _ _ Hinv b o Hb Hz) as (_ & Hv & _ & HTb).
  pose proof (fun k f => ref_zero_fds _ _ _ _ _ _ _ _ Hinv b o k f Hb Hz) as Hnf.
  destruct Hinv as [Ibo Idma Ix Ind Ipool Ifds Ivm Isec].
  assert (forall b' q, b' <> b -> B !! b' = Some q -> M' !! b_dma q = M !! b_dma q) as HMk.
  { intros b' q Hne Hq. destruct HM as [->| ->]; [|done]. rewrite lookup_delete_ne; [done|].
    intros He. by apply Hne, (Idma b' b q o). }
  split.
  - intros b' q Hq. apply lookup_delete_Some in Hq as [Hne Hq].
    destruct (Ibo b' q Hq) as [Hr1 Hs1 Hp1 Hf1 Hm1 Hk1]. split; try done.
    + by rewrite (HMk b' q).
    + intros Hz'. destruct (Hk1 Hz') as [Hxb|(e & He & Hid)].
      * left. destruct Hy as [[-> _]|[_ Hxb']]; congruence.
      * right. exists e. split; [|done]. apply HL. split; [done|congruence].
  - intros b1 b2 o1 o2 H1 H2. apply lookup_delete_Some in H1 as [_ H1], H2 as [_ H2]. by apply Idma.
  - intros b' Hyb. destruct Hy as [[-> Hxb]|[-> _]]; [|done]. destruct (Ix b' Hyb) as [(q & Hq & Hqz) Hn].
    split.
    + exists q. split; [|done]. apply lookup_delete_Some. split; [congruence|done].
    + intros e He. apply HL in He as [He _]. by apply Hn.
  - done.
  - intros e He. apply HL in He as [He Hne]. destruct (Ipool e He) as (q & Hq & Hrest). exists q.
    split; [|done]. apply lookup_delete_Some. split; [congruence|done].
  - intros k f Hk. destruct (Ifds k f Hk) as [Hnd' Hall]. split; [done|].
    intros b' Hin. destruct (Hall b' Hin) as (q & Hq & Hok). exists q. split; [|done].
    apply lookup_delete_Some. split; [|done]. intros <-. by apply (Hnf k f).
  - intros b' Hin. rewrite lookup_delete_ne; [by apply Ivm|]. intros <-. apply vcount_pos in Hin. lia.
  - intros b' Hb'. apply lookup_delete_None in Hb' as [<-|Hb']; [done|by apply Isec].
Qed.

(** The buffer a release works on is parked. *)
Lemma buf_park n B M L F V T b o e :
  buf_inv (Some b) n B M L F V T -> B !! b = Some o -> ent_id e = b ->
  page_align (ent_size e) = page_align (b_size o) -> (pooled_sec e = true -> b_fw_ref o = false) ->
  buf_inv None n B M (L ++ [e]) F V T.
Proof.
  intros [Ibo Idma Ix Ind Ipool Ifds Ivm Isec] Hb He Hs Hp.
  destruct (Ix b eq_refl) as [(o1 & Ho1 & Hz) Hn]. assert (o1 = o) as -> by congruence.
  split; try done.
  - intros b' q Hq. destruct (Ibo b' q Hq) as [Hr1 Hs1 Hp1 Hf1 Hm1 Hk1]. split; try done.
    intros Hz'. right. destruct (Hk1 Hz') as [Hxb|(e' & He' & Hid)].
    + exists e. split; [apply elem_of_app; right; by apply list_elem_of_singleton|congruence].
    + exists e'. split; [|done]. apply elem_of_app. by left.
  - rewrite fmap_app. apply NoDup_app. split; [done|]. split.
    + intros i Hi Hi'. apply list_elem_of_fmap in Hi as (e' & -> & He').
      cbn in Hi'. apply list_elem_of_singleton in Hi'. apply (Hn e' He'). congruence.
    + apply NoDup_singleton.
  - intros e' He'. apply elem_of_app in He' as [He'|He']; [by apply Ipool|].
    apply list_elem_of_singleton in He' as ->. exists o. rewrite He. done.
Qed.

(** A parked buffer leaves the pool. *)
Lemma buf_unpark n B M l1 e l2 F V T :
  buf_inv None n B M (l1 ++ e :: l2) F V T -> buf_inv (Some (ent_id e)) n B M (l1 ++ l2) F V T.
Proof.
  intros [Ibo Idma Ix Ind Ipool Ifds Ivm Isec].
  assert (forall e', e' ∈ l1 ++ l2 -> e' ∈ l1 ++ e :: l2) as Hsub.
  { intros e' He'. apply elem_of_app in He' as [|]; apply elem_of_app; [by left|right; by right]. }
  rewrite fmap_app fmap_cons in Ind. apply NoDup_app in Ind as (Hn1 & Hdis & Hn2).
  apply NoDup_cons in Hn2 as [Hne Hn2]. split; try done.
  - intros b' q Hq. destruct (Ibo b' q Hq) as [Hr1 Hs1 Hp1 Hf1 Hm1 Hk1]. split; try done.
    intros Hz'. destruct (Hk1 Hz') as [|(e' & He' & Hid)]; [done|].
    apply elem_of_app in He' as [He'|He']; [right; exists e'; split; [apply elem_of_app; by left|done]|].
    apply elem_of_cons in He' as [->|He']; [left; by rewrite Hid|].
    right. exists e'. split; [apply elem_of_app; by right|done].
  - intros b [= <-]. assert (e ∈ l1 ++ e :: l2) as Hin by (apply elem_of_app; right; left).
    destruct (Ipool e Hin) as (o & Ho & Hz & _). split; [by exists o|].
    intros e' He' Heq. apply elem_of_app in He' as [He'|He'].
    + apply (Hdis (ent_id e')); [by apply list_elem_of_fmap_2|]. rewrite Heq. left.
    + apply Hne. rewrite -Heq. by apply list_elem_of_fmap_2.
  - rewrite fmap_app. apply NoDup_app. split; [done|]. split; [|done].
    intros i Hi Hi'. apply (Hdis i Hi). by right.
  - intros e' He'. by apply Ipool, Hsub.
Qed.

(** A parked buffer is evicted: freed, whatever else is being released. *)
Lemma buf_evict x n B M l1 e l2 F V T :
  buf_inv x n B M (l1 ++ e :: l2) F V T ->
  exists o, B !! ent_id e = Some o /\
    buf_inv x n (delete (ent_id e) B) (delete (b_dma o) M) (l1 ++ l2) F V T.
Proof.
  intros Hinv. assert (e ∈ l1 ++ e :: l2) as Hin by (apply elem_of_app; right; left).
  destruct (bi_pool _ _ _ _ _ _ _ _ Hinv e Hin) as (o & Ho & Hz & _). exists o. split; [done|].
  pose proof (bi_nodup _ _ _ _ _ _ _ _ Hinv) as Ind.
  rewrite fmap_app fmap_cons in Ind. apply NoDup_app in Ind as (Hn1 & Hdis & Hn2).
  apply NoDup_cons in Hn2 as [Hne Hn2].
  eapply (buf_delete x x n B M (l1 ++ e :: l2)); [done|done|done|by left| | |left].
  - intros e'. rewrite !elem_of_app elem_of_cons. split.
    + intros [He'|He'].
      * split; [by left|]. intros Heq. apply (Hdis (ent_id e')); [by apply list_elem_of_fmap_2|]. rewrite Heq. left.
      * split; [by right; right|]. intros Heq. apply Hne. rewrite -Heq. by apply list_elem_of_fmap_2.
    + intros [[|[->|]] Hid]; [by left|done|by right].
  - rewrite fmap_app. apply NoDup_app. split; [done|]. split; [|done].
    intros i Hi Hi'. apply (Hdis i Hi). by right.
  - split; [done|]. intros ->. destruct (bi_x _ _ _ _ _ _ _ _ Hinv (ent_id e) eq_refl) as [_ Hn].
    by apply (Hn e Hin).
Qed.

(** A new buffer, not yet published. *)
Lemma buf_create n B M L F V T b a c o :
  buf_inv None n B M L F V T -> B !! b = None -> M !! a = None -> 0 <= n ->
  o = Bo (b_owner o) (b_handle o) 0 a (b_size o) false false false 0 ->
  hcount F b (b_owner o) = 0 -> zlen c = page_align (b_size o) ->
  buf_inv (Some b) n (<[b:=o]> B) (<[a:=c]> M) L F V T.
Proof.
  intros [Ibo Idma Ix Ind Ipool Ifds Ivm Isec] Hb Ha Hn0 Ho Hh Hc.
  assert (forall e, e ∈ L -> ent_id e <> b) as HnL.
  { intros e He <-. destruct (Ipool e He) as (q & Hq & _). congruence. }
  assert (vcount V b = 0) as Hv.
  { pose proof (vcount_nonneg V b). destruct (decide (0 < vcount V b)) as [Hp|]; [|lia].
    apply vcount_pos, Ivm in Hp as [q Hq]. congruence. }
  assert (forall q b', B !! b' = Some q -> b_dma q <> a) as Hda.
  { intros q b' Hq <-. destruct (Ibo b' q Hq) as [_ _ _ _ (c' & Hc' & _) _]. congruence. }
  assert (b_dma o = a) as Hoa by (by rewrite Ho).
  split.
  - intros b' q Hq. destruct (decide (b' = b)) as [->|Hne].
    + rewrite lookup_insert_eq in Hq. injection Hq as <-. rewrite Ho. split; cbn; try done.
      * by rewrite Hh Hv.
      * rewrite (Isec b Hb). lia.
      * exists c. by rewrite lookup_insert_eq.
      * by left.
    + rewrite lookup_insert_ne in Hq; [|done]. destruct (Ibo b' q Hq) as [Hr1 Hs1 Hp1 Hf1 Hm1 Hk1]. split; try done.
      * rewrite lookup_insert_ne; [done|]. intros Heq. by apply (Hda q b').
      * intros Hz. right. by destruct (Hk1 Hz).
  - intros b1 b2 o1 o2 H1 H2 He.
    destruct (decide (b1 = b)) as [->|Hn1], (decide (b2 = b)) as [->|Hn2]; try done.
    + rewrite lookup_insert_eq in H1. injection H1 as <-. rewrite lookup_insert_ne in H2; [|done].
      destruct (Hda o2 b2 H2). congruence.
    + rewrite lookup_insert_eq in H2. injection H2 as <-. rewrite lookup_insert_ne in H1; [|done].
      destruct (Hda o1 b1 H1). congruence.
    + rewrite !lookup_insert_ne in H1, H2; [|done..]. by apply (Idma b1 b2 o1 o2).
  - intros b' [= <-]. split; [|done]. exists o. rewrite lookup_insert_eq. by rewrite Ho.
  - done.
  - intros e He. rewrite lookup_insert_ne; [by apply Ipool|]. intros Heq. by apply (HnL e).
  - intros k f Hk. destruct (Ifds k f Hk) as [Hnd Hall]. split; [done|]. intros b' Hin.
    destruct (Hall b' Hin) as (q & Hq & Hok). exists q. rewrite lookup_insert_ne; [done|]. congruence.
  - intros b' Hin. apply Ivm in Hin as [q Hq]. rewrite lookup_insert_ne; [by exists q|]. congruence.
  - intros b' Hb'. apply lookup_insert_None in Hb' as [Hb' _]. by apply Isec.
Qed.

(** Contents change, lengths do not. *)
Lemma buf_mem x n B M L F V T a c c' :
  buf_inv x n B M L F V T -> M !! a = Some c -> zlen c' = zlen c ->
  buf_inv x n B (<[a:=c']> M) L F V T.
Proof.
  intros [Ibo Idma Ix Ind Ipool Ifds Ivm Isec] Ha Hc. split; try done.
  intros b q Hq. destruct (Ibo b q Hq) as [Hr1 Hs1 Hp1 Hf1 (c1 & Hc1 & Hl1) Hk1]. split; try done.
  destruct (decide (a = b_dma q)) as [->|Hne].
  - exists c'. rewrite lookup_insert_eq. split; [done|]. rewrite Hc. congruence.
  - exists c1. by rewrite lookup_insert_ne.
Qed.
End moves.
End buf.

(** ** The driver invariant *)

(** Bytes of coherent memory that are allocated. *)
Definition mem_bytes (M : gmap Z bytes) : Z := msum zlen M.

(** References that the firmware's programs hold on a buffer: the table's and
    those of a load in flight. *)
Definition busy_secs (o : option fwop) (b : Z) : Z :=
  match o with Some (FwLoad _ _ slots _) => scount slots b | _ => 0 end.

Definition tab_secs (t : progtab) (b : Z) : Z := sumz (fun p => scount (sec p) b) (progs t).

Definition tcount (d : drv) (b : Z) : Z := tab_secs (tab d) b + busy_secs (fw_busy d) b.

(** How many files hold a program id. *)
Definition refs_of (G : gmap Z fdprogs) (id : Z) : Z :=
  msum (fun l => if decide (id ∈ l) then 1 else 0) G.

Definition progs_of (d : drv) : gmap Z fdprogs := fd_progs <$> fds d.

(** What buffer operations leave alone. *)
Definition rest (d : drv) := (fds d, vmas d, tab d, quarantined d, next_handle d, fw_busy d).

Section inv.
Context (PAGE_SHIFT bo_total_max_mb : Z).
Abbreviation page_align := (page_align PAGE_SHIFT).

Implicit Types (T : Z -> Z).

Record core (x : option Z) (n : Z) (T : Z -> Z) (L : list pool_ent) (d : drv) : Prop := {
  c_buf : buf_inv PAGE_SHIFT x n (bos d) (mem d) L (fds d) (vmas d) T;
  c_total : total d = mem_bytes (mem d);
  c_cap : total d <= Z.shiftl bo_total_max_mb 20;
  c_bad : bad_access d = false;
}.

Definition pool_good (p : pool) : Prop :=
  pool_wf PAGE_SHIFT 0 p /\ in_range 32 (max_mb p) /\ sec_bytes p <= 2 ^ 52.

(** The program table against the open files; [no] bounds the files. *)
Record tabs (no : Z) (t : progtab) (busy : option fwop) (G : gmap Z fdprogs) : Prop := {
  tb_inv : tab_inv t (refs_of G);
  tb_free i p : progs t !! i = Some p -> state p = PROG_FREE -> sec p = replicate 9 None;
  tb_nodup k l : G !! k = Some l -> NoDup l;
  tb_size : Z.of_nat (size G) <= no;
  tb_busy : match busy with
            | Some (FwLoad fd dg slots _) =>
                is_Some (G !! fd) /\ (forall i p, live_at t i p -> digest p <> dg) /\
                ane_t6021_progtab_has_room t = true
            | _ => True
            end;
}.

(** [nl] counts the loads so far, [no] the opens. *)
Record dinv (nl no : Z) (d : drv) : Prop := {
  d_core : core None (9 * nl) (tcount d) (p_list (bopool d)) d;
  d_pool : pool_good (bopool d);
  d_tabs : tabs no (tab d) (fw_busy d) (progs_of d);
}.

Lemma core_ext x n T L d d' :
  core x n T L d -> bos d' = bos d -> mem d' = mem d -> total d' = total d -> rest d' = rest d ->
  bad_access d' = bad_access d -> core x n T L d'.
Proof.
  intros [Hb Ht Hc Hbad] E1 E2 E3 E4 E5. unfold rest in E4. injection E4 as Ef Ev _ _ _ _.
  split; by rewrite ?E1 ?E2 ?E3 ?Ef ?Ev ?E5.
Qed.

(** An evicted buffer is really freed. *)
Lemma release_ent_core x n T l1 e l2 d :
  core x n T (l1 ++ e :: l2) d ->
  core x n T (l1 ++ l2) (ane_t6021_pool_release_ent PAGE_SHIFT (unpooled e) d) /\
  rest (ane_t6021_pool_release_ent PAGE_SHIFT (unpooled e) d) = rest d /\
  bopool (ane_t6021_pool_release_ent PAGE_SHIFT (unpooled e) d) = bopool d.
Proof.
  intros [Hb Ht Hc Hbad]. destruct (buf_evict _ _ _ _ _ _ _ _ _ _ _ Hb) as (o & Ho & Hb').
  unfold ane_t6021_pool_release_ent, free_bo. cbn [unpooled ent_id]. rewrite Ho.
  destruct (bi_bo _ _ _ _ _ _ _ _ _ Hb (ent_id e) o Ho) as [_ _ _ _ (c & Hm & Hl) _]. rewrite Hm.
  split; [|done]. split; cbn; [done| | |done].
  - unfold mem_bytes in *. rewrite (msum_delete zlen _ _ c Hm). lia.
  - pose proof (zlen_nonneg c). lia.
Qed.

(** [free_bo] of the buffer a release works on. *)
Lemma free_bo_core n T d b o :
  core (Some b) n T (p_list (bopool d)) d -> bos d !! b = Some o ->
  core None n T (p_list (bopool d)) (free_bo PAGE_SHIFT d b o).
Proof.
  intros [Hb Ht Hc Hbad] Ho.
  destruct (bi_x _ _ _ _ _ _ _ _ _ Hb b eq_refl) as [(o' & Ho' & Hz) HnL].
  assert (o' = o) as -> by congruence.
  destruct (bi_bo _ _ _ _ _ _ _ _ _ Hb b o Ho) as [_ _ _ _ (c & Hm & Hl) _].
  unfold free_bo. rewrite Hm. split; cbn; [|unfold mem_bytes in *; rewrite (msum_delete zlen _ _ c Hm); lia|pose proof (zlen_nonneg c); lia|done].
  eapply (buf_delete _ (Some b)); [done|done|done|by left| |apply Hb|by right].
  intros e. split; [|by intros []]. intros He. split; [done|by apply HnL].
Qed.

(** ... and it is never the buffer a release works on. *)
Lemma release_ent_keeps b o n T l1 e l2 d :
  core (Some b) n T (l1 ++ e :: l2) d -> bos d !! b = Some o ->
  bos (ane_t6021_pool_release_ent PAGE_SHIFT (unpooled e) d) !! b = Some o.
Proof.
  intros [Hb _ _ _] Ho. assert (ent_id e <> b) as Hne.
  { destruct (bi_x _ _ _ _ _ _ _ _ _ Hb b eq_refl) as [_ Hn]. apply Hn. apply elem_of_app. right. left. }
  unfold ane_t6021_pool_release_ent, free_bo. cbn [unpooled ent_id].
  destruct (bos d !! ent_id e); [|done]. destruct (mem d !! _); cbn; by rewrite lookup_delete_ne.
Qed.

Lemma evicted_good k p p' : pool_good p -> evicted PAGE_SHIFT 0 k p p' -> pool_good p'.
Proof.
  intros (Hwf & Hmax & Hsec) Hev. pose proof (evicted_sec _ _ _ _ _ Hwf Hev) as Hs'.
  destruct Hev as (Hwf' & _ & _ & [Hm' _]). split; [done|]. rewrite Hm'. split; [done|].
  pose proof (sum_charge_nonneg PAGE_SHIFT (take k (budgeted p))). lia.
Qed.

Lemma park_good {C} (rel : pool_ent -> C -> C) p ent size c r :
  pool_good p -> park_outcome PAGE_SHIFT rel p ent size c r -> pool_good r.1.1.
Proof.
  intros Hg Hout. destruct r as [[p' c'] st]. unfold park_outcome in Hout. cbn [fst snd].
  destruct (bool_decide (max_mb p * 2 ^ 20 = 0)).
  { destruct Hout as (_ & k & Hev & _). by eapply evicted_good. }
  destruct (negb _); [by destruct Hout as (_ & -> & _)|].
  destruct (bool_decide (max_mb p * 2 ^ 20 < _)); [by destruct Hout as (_ & -> & _)|].
  destruct Hout as (_ & k & _ & _ & Hwf' & _ & _ & [Hm' _] & Hs'), Hg as (_ & Hmax & _).
  split; [done|]. rewrite Hm'. split; [done|]. unfold in_range in Hmax. lia.
Qed.

Lemma free_bo_rest d b o :
  bopool (free_bo PAGE_SHIFT d b o) = bopool d /\ rest (free_bo PAGE_SHIFT d b o) = rest d.
Proof. unfold free_bo. by destruct (mem d !! b_dma o). Qed.

(** A duplicate section buffer: parked under the budget, or freed. *)
Lemma release_section_bo n T d b o :
  core (Some b) n T (p_list (bopool d)) d -> pool_good (bopool d) -> bos d !! b = Some o -> b_fw_ref o = false ->
  twp (ane_t6021_bo_release PAGE_SHIFT b d) (fun d' =>
    core None n T (p_list (bopool d')) d' /\ pool_good (bopool d') /\ rest d' = rest d).
Proof.
  intros Hcore Hg Ho Hf. unfold ane_t6021_bo_release. rewrite Ho Hf. cbn [negb].
  pose proof Hg as (Hwf & Hmax & Hsec).
  destruct (twp_ex _ _ (pool_park_spec PAGE_SHIFT (ane_t6021_pool_release_ent PAGE_SHIFT) (bopool d)
              (PoolEnt b 0 false) (b_size o) d Hwf Hmax ltac:(lia))) as ([[p' d1] st] & He & Hout).
  rewrite He. cbn [mbind res_bind]. apply park_good in Hout as Hgood; [|done]. cbn [fst snd] in Hgood.
  unshelve epose proof (park_preserves PAGE_SHIFT (ane_t6021_pool_release_ent PAGE_SHIFT)
    (fun l d1 => core (Some b) n T l d1 /\ rest d1 = rest d /\ bos d1 !! b = Some o) _ _ _ _ _ _ _ _ _ He) as Hp.
  { intros l1 e l2 c _ (H1 & H2 & H3). destruct (release_ent_core _ _ _ _ _ _ _ H1) as (Hc1 & Hr1 & _).
    split; [done|]. split; [congruence|]. by eapply release_ent_keeps. }
  { done. }
  destruct st as [e|]; cbn [twp].
  - destruct Hp as (Hc1 & Hr1 & Ho1). destruct (free_bo_rest (set_pool d1 p') b o) as [-> ->].
    split; [|done]. apply free_bo_core; [|done]. by eapply core_ext.
  - destruct Hp as (l & (Hc1 & Hr1 & Ho1) & Hl). cbn [set_pool bopool]. split; [|done]. rewrite Hl.
    eapply (core_ext _ _ _ _ d1); try done. destruct Hc1 as [Hb1 Ht1 Hcap1 Hbad1]. split; try done.
    by eapply (buf_park _ _ _ _ _ _ _ _ b o).
Qed.

(** The end of a reference count: freed, parked or kept for the firmware. *)
Lemma bo_release_spec n T d b :
  core (Some b) n T (p_list (bopool d)) d -> pool_good (bopool d) ->
  twp (ane_t6021_bo_release PAGE_SHIFT b d) (fun d' =>
    core None n T (p_list (bopool d')) d' /\ pool_good (bopool d') /\ rest d' = rest d).
Proof.
  intros Hcore Hg. pose proof (c_buf _ _ _ _ _ Hcore) as Hb.
  destruct (bi_x _ _ _ _ _ _ _ _ _ Hb b eq_refl) as [(o & Ho & Hz) HnL].
  destruct (ref_zero _ _ _ _ _ _ _ _ _ Hb b o Ho Hz) as (_ & _ & Hpr & _).
  destruct (bi_bo _ _ _ _ _ _ _ _ _ Hb b o Ho) as [_ _ Hprog _ _ _].
  destruct (b_fw_ref o) eqn:Hf; [|by apply (release_section_bo n T d b o)].
  unfold ane_t6021_bo_release. rewrite Ho Hf Hprog Hpr. cbn [negb].
  rewrite bool_decide_false; [|lia]. cbn [orb]. destruct Hcore as [_ Ht Hc Hbad].
  destruct (quarantined d); cbn [twp].
  - split; [|done]. split; cbn; [|done|done|done].
    eapply (buf_delete _ (Some b)); [done|done|done|by right| |apply Hb|by right].
    intros e. split; [|by intros []]. intros He. split; [done|by apply HnL].
  - cbn [set_pool bopool ane_t6021_pool_park_uncharged set_list p_list]. split; [|split; [|done]].
    + split; try done. by eapply (buf_park _ _ _ _ _ _ _ _ b o).
    + destruct Hg as ((Hs & Hx & Hlt) & Hmax & Hsec). split; [|done].
      unfold pool_wf. cbn [ane_t6021_pool_park_uncharged set_list p_list sec_bytes]. rewrite sumz_app.
      change (sumz _ [_]) with 0. lia.
Qed.

(** What follows a decrement: nothing, or the release. *)
Lemma put_tail n T d b o :
  bos d !! b = Some o -> pool_good (bopool d) ->
  core (if b_refcount o =? 0 then Some b else None) n T (p_list (bopool d)) d ->
  twp (if b_refcount o =? 0 then ane_t6021_bo_release PAGE_SHIFT b d else Ret d) (fun d' =>
    core None n T (p_list (bopool d')) d' /\ pool_good (bopool d') /\ rest d' = rest d).
Proof.
  intros Ho Hg Hc. destruct (b_refcount o =? 0); [by apply bo_release_spec|done].
Qed.

(** Dropping one reference; [d1] is the state in which its holder is gone. *)
Lemma kref_put_spec n T T1 d d1 b o o1 :
  core None n T (p_list (bopool d)) d -> pool_good (bopool d) ->
  bos d !! b = Some o -> 0 < b_refcount o ->
  bos d1 = <[b:=o1]> (bos d) -> mem d1 = mem d -> total d1 = total d -> bopool d1 = bopool d ->
  bad_access d1 = bad_access d -> b_refcount o1 = b_refcount o -> b_dma o1 = b_dma o -> b_size o1 = b_size o ->
  (forall b' k, b' <> b -> hcount (fds d1) b' k = hcount (fds d) b' k) ->
  (forall b', b' <> b -> vcount (vmas d1) b' = vcount (vmas d) b') -> (forall b', b' <> b -> T1 b' = T b') ->
  (forall k f, fds d1 !! k = Some f -> NoDup (fd_bos f) /\ (b ∈ fd_bos f -> b_owner o1 = k)) ->
  b_refcount o1 - 1 = hcount (fds d1) b (b_owner o1) + vcount (vmas d1) b + b_prog_refs o1 ->
  0 <= T1 b <= b_prog_refs o1 -> b_prog_refs o1 <= n ->
  b_fw_program o1 = bool_decide (0 < b_prog_refs o1) -> b_fw_ref o1 = b_fw_program o1 || b_fw_io o1 ->
  twp (kref_put PAGE_SHIFT b d1) (fun d' =>
    core None n T1 (p_list (bopool d')) d' /\ pool_good (bopool d') /\ rest d' = rest d1).
Proof.
  intros [Hb Ht Hc Hbad] Hg Ho Hpos E1 E2 E3 E4 E5 Hrc Hdma Hsz HF HV HT HF' Hr Hs Hsn Hp Hfr.
  unfold kref_put. rewrite E1 lookup_insert_eq.
  destruct (live_not_parked _ _ _ _ _ _ _ _ _ Hb b o Ho ltac:(lia)) as [Hx HnL].
  apply (put_tail n T1 (set_bos d1 (<[b:=set_refcount o1 (b_refcount o1 - 1)]> (<[b:=o1]> (bos d)))) b
           (set_refcount o1 (b_refcount o1 - 1))).
  - cbn. by rewrite lookup_insert_eq.
  - cbn. by rewrite E4.
  - cbn [set_bos bopool]. rewrite E4. split; cbn; rewrite ?E2 ?E3 ?E5; try done.
    rewrite insert_insert_eq. cbn [b_refcount set_refcount].
    eapply (buf_update _ None n (bos d) (mem d) (p_list (bopool d)) (fds d) (vmas d) T Hb b o
             (set_refcount o1 (b_refcount o1 - 1))); cbn; try done; try lia; [by left|congruence].
Qed.

Lemma hcount_insert F fd l ps b k :
  hcount (<[fd:=Fd l ps]> F) b k = if k =? fd then (if decide (b ∈ l) then 1 else 0) else hcount F b k.
Proof.
  unfold hcount. destruct (Z.eqb_spec k fd) as [->|Hne].
  - by rewrite lookup_insert_eq.
  - by rewrite lookup_insert_ne.
Qed.

(** Lists of handles change, references on programs do not. *)
Lemma progs_of_insert d fd f l :
  fds d !! fd = Some f -> fd_progs <$> <[fd := Fd l (fd_progs f)]> (fds d) = progs_of d.
Proof.
  intros Hf. rewrite fmap_insert. cbn. apply insert_id. by rewrite lookup_fmap Hf.
Qed.

Lemma rest_eqs d d' :
  rest d' = rest d -> fds d' = fds d /\ vmas d' = vmas d /\ tab d' = tab d /\ quarantined d' = quarantined d /\
    next_handle d' = next_handle d /\ fw_busy d' = fw_busy d.
Proof. unfold rest. by intros [= -> -> -> -> -> ->]. Qed.

Lemma tcount_eqs d d' : rest d' = rest d -> tcount d' = tcount d.
Proof. intros (_ & _ & Ht & _ & _ & Hb)%rest_eqs. unfold tcount. by rewrite Ht Hb. Qed.

(** A handle is dropped. [T] is left abstract for the close path. *)
Lemma bo_drop_core n T d fd f b :
  core None n T (p_list (bopool d)) d -> pool_good (bopool d) -> fds d !! fd = Some f -> b ∈ fd_bos f ->
  twp (ane_t6021_bo_drop PAGE_SHIFT fd b d) (fun d' =>
    core None n T (p_list (bopool d')) d' /\ pool_good (bopool d') /\
    rest d' = rest (set_fds d (<[fd := Fd (filter (fun y => y <> b) (fd_bos f)) (fd_progs f)]> (fds d)))).
Proof.
  intros Hcore Hg Hf Hin. pose proof (c_buf _ _ _ _ _ Hcore) as Hb.
  destruct (bi_fds _ _ _ _ _ _ _ _ _ Hb fd f Hf) as [Hnd Hall]. destruct (Hall b Hin) as (o & Ho & Hown).
  destruct (handle_ref _ _ _ _ _ _ _ _ _ Hb fd f b o Hf Hin Ho) as [_ Hpos].
  destruct (bi_bo _ _ _ _ _ _ _ _ _ Hb b o Ho) as [Hr [Hs Hsn] Hp Hfr Hm _].
  unfold ane_t6021_bo_drop. rewrite Hf.
  eapply (kref_put_spec n T T d _ b o o); cbn; try done.
  - by rewrite insert_id.
  - intros b' k Hne. rewrite hcount_insert. destruct (Z.eqb_spec k fd) as [->|]; [|done].
    unfold hcount. rewrite Hf.
    destruct (decide (b' ∈ filter _ _)) as [H1|H1], (decide (b' ∈ fd_bos f)) as [H2|H2]; try done.
    + apply list_elem_of_filter in H1. naive_solver.
    + destruct H1. by apply list_elem_of_filter.
  - intros k f' Hk. destruct (decide (k = fd)) as [->|Hne].
    + rewrite lookup_insert_eq in Hk. injection Hk as <-. cbn. split; [by apply NoDup_filter|].
      intros H1. apply list_elem_of_filter in H1 as [H1 _]. done.
    + rewrite lookup_insert_ne in Hk; [|done]. destruct (bi_fds _ _ _ _ _ _ _ _ _ Hb k f' Hk) as [Hnd' Hall'].
      split; [done|]. intros Hin'. destruct (Hall' b Hin') as (o2 & Ho2 & <-). congruence.
  - rewrite hcount_insert Hown Z.eqb_refl decide_False; [|intros H1; by apply list_elem_of_filter in H1 as [H1 _]].
    assert (hcount (fds d) b fd = 1) as Hh by (unfold hcount; by rewrite Hf decide_True).
    rewrite Hown Hh in Hr. lia.
Qed.

(** A mapping goes away. *)
Lemma vm_close_core n T d b :
  core None n T (p_list (bopool d)) d -> pool_good (bopool d) -> b ∈ vmas d ->
  twp (ane_t6021_vm_close PAGE_SHIFT b d) (fun d' =>
    core None n T (p_list (bopool d')) d' /\ pool_good (bopool d') /\
    rest d' = rest (set_vmas d (remove_one b (vmas d)))).
Proof.
  intros Hcore Hg Hin. pose proof (c_buf _ _ _ _ _ Hcore) as Hb.
  destruct (bi_vmas _ _ _ _ _ _ _ _ _ Hb b Hin) as [o Ho].
  destruct (bi_bo _ _ _ _ _ _ _ _ _ Hb b o Ho) as [Hr [Hs Hsn] Hp Hfr Hm _].
  pose proof (hcount_range (fds d) b (b_owner o)). pose proof (proj2 (vcount_pos (vmas d) b) Hin).
  unfold ane_t6021_vm_close.
  eapply (kref_put_spec n T T d _ b o o); cbn; try done; try lia.
  - by rewrite insert_id.
  - intros b' Hne. rewrite (vcount_remove _ _ _ Hin) (proj2 (Z.eqb_neq _ _)); [lia|done].
  - intros k f' Hk. destruct (bi_fds _ _ _ _ _ _ _ _ _ Hb k f' Hk) as [Hnd' Hall'].
    split; [done|]. intros Hin'. destruct (Hall' b Hin') as (o2 & Ho2 & <-). congruence.
  - rewrite (vcount_remove _ _ _ Hin) Z.eqb_refl. lia.
Qed.

(** A mapping is added with its reference. *)
Lemma vm_open_core n T d b o :
  core None n T (p_list (bopool d)) d -> bos d !! b = Some o -> 0 < b_refcount o ->
  core None n T (p_list (bopool d)) (set_vmas (kref_get b d) (b :: vmas d)) /\
  rest (set_vmas (kref_get b d) (b :: vmas d)) = rest (set_vmas d (b :: vmas d)) /\
  bopool (kref_get b d) = bopool d.
Proof.
  intros [Hb Ht Hc Hbad] Ho Hpos.
  destruct (live_not_parked _ _ _ _ _ _ _ _ _ Hb b o Ho ltac:(lia)) as [Hx HnL].
  destruct (bi_bo _ _ _ _ _ _ _ _ _ Hb b o Ho) as [Hr [Hs Hsn] Hp Hfr Hm _].
  unfold kref_get. rewrite Ho. split; [|done]. split; cbn; try done.
  replace None with (if b_refcount o + 1 =? 0 then Some b else None) by (by rewrite (proj2 (Z.eqb_neq _ _)); [|lia]).
  eapply (buf_update _ None n (bos d) (mem d) (p_list (bopool d)) (fds d) (vmas d) T Hb b o
            (set_refcount o (b_refcount o + 1))); cbn; try done; [by left| | |].
  - intros b' Hne. rewrite vcount_cons (proj2 (Z.eqb_neq _ _)); [lia|done].
  - intros k f' Hk. destruct (bi_fds _ _ _ _ _ _ _ _ _ Hb k f' Hk) as [Hnd' Hall'].
    split; [done|]. intros Hin'. destruct (Hall' b Hin') as (o2 & Ho2 & <-). congruence.
  - rewrite vcount_cons Z.eqb_refl. lia.
Qed.

Lemma get_put_id d b o :
  bos d !! b = Some o -> 0 < b_refcount o -> kref_put PAGE_SHIFT b (kref_get b d) = Ret d.
Proof.
  intros Ho Hpos. unfold kref_get, kref_put. rewrite Ho. cbn [set_bos bos]. rewrite lookup_insert_eq.
  cbn [set_refcount b_refcount]. rewrite (proj2 (Z.eqb_neq _ _)); [|lia].
  rewrite insert_insert_eq. f_equal. destruct d. cbn in *. unfold set_bos. cbn. f_equal.
  rewrite insert_id; [done|]. rewrite Ho. f_equal. destruct o. cbn. unfold set_refcount. cbn. f_equal. lia.
Qed.

(** Publishing an unreferenced buffer on a file's list. *)
Definition published (d d' : drv) (fd : Z) (f : fdst) (b h : Z) : Prop :=
  fds d' = <[fd := Fd (fd_bos f ++ [b]) (fd_progs f)]> (fds d) /\ vmas d' = vmas d /\ tab d' = tab d /\
  quarantined d' = quarantined d /\ fw_busy d' = fw_busy d /\ bopool d' = bopool d /\ mem d' = mem d /\
  exists o o', bos d !! b = Some o /\ bos d' !! b = Some o' /\ b_dma o' = b_dma o /\ b_handle o' = h /\
    b_owner o' = fd /\ b_refcount o' = 1.

Lemma publish_core n T L d fd f b o size :
  core (Some b) n T L d -> bos d !! b = Some o -> fds d !! fd = Some f ->
  page_align size = page_align (b_size o) ->
  let '(d', r) := bo_publish fd f b size d in
  core None n T L d' /\ exists h, r = inl h /\ published d d' fd f b h.
Proof.
  intros [Hb Ht Hc Hbad] Ho Hf Hsz. unfold bo_publish. rewrite Ho.
  destruct (bi_x _ _ _ _ _ _ _ _ _ Hb b eq_refl) as [(o1 & Ho1 & Hz) HnL]. assert (o1 = o) as -> by congruence.
  destruct (ref_zero _ _ _ _ _ _ _ _ _ Hb b o Ho Hz) as (_ & Hv & Hpr & HTb).
  destruct (bi_bo _ _ _ _ _ _ _ _ _ Hb b o Ho) as [_ [Hs Hsn] Hp Hfr Hm _].
  pose proof (fun k f' => ref_zero_fds _ _ _ _ _ _ _ _ _ Hb b o k f' Ho Hz) as Hnf.
  set (h := if next_handle d =? 0 then u32 (next_handle d + 1) else next_handle d).
  set (o' := Bo fd h 1 (b_dma o) size (b_fw_ref o) (b_fw_program o) (b_fw_io o) (b_prog_refs o)).
  split.
  2: { exists h. split; [done|]. repeat split. exists o, o'. cbn. by rewrite lookup_insert_eq. }
  split; cbn; try done.
  change None with (if b_refcount o' =? 0 then Some b else None).
  eapply (buf_update _ (Some b) n (bos d) (mem d) L (fds d) (vmas d) T Hb b o o'); cbn; try done; [by right| | |].
  - intros b' k Hne. rewrite hcount_insert. destruct (Z.eqb_spec k fd) as [->|]; [|done].
    unfold hcount. rewrite Hf.
    destruct (decide (b' ∈ fd_bos f ++ [b])) as [H1|H1], (decide (b' ∈ fd_bos f)) as [H2|H2]; try done.
    + apply elem_of_app in H1 as [|H1]; [done|]. by apply list_elem_of_singleton in H1.
    + destruct H1. apply elem_of_app. by left.
  - intros k f' Hk. destruct (decide (k = fd)) as [->|Hne].
    + rewrite lookup_insert_eq in Hk. injection Hk as <-. cbn. split; [|done].
      apply NoDup_app. split; [by apply (bi_fds _ _ _ _ _ _ _ _ _ Hb fd f)|]. split.
      * intros y Hy Hyb. apply list_elem_of_singleton in Hyb as ->. by apply (Hnf fd f).
      * apply NoDup_singleton.
    + rewrite lookup_insert_ne in Hk; [|done]. split; [by apply (bi_fds _ _ _ _ _ _ _ _ _ Hb k f')|].
      intros Hin. by destruct (Hnf k f' Hk).
  - rewrite hcount_insert Z.eqb_refl decide_True; [lia|]. apply elem_of_app. right.
    by apply list_elem_of_singleton.
Qed.

Lemma take_good p size q : pool_good p -> pool_good (ane_t6021_pool_take PAGE_SHIFT p size q).2.
Proof.
  intros (Hwf & Hmax & Hsec). pose proof (take_wf PAGE_SHIFT 0 p size q Hwf) as (Hwf' & [Hm' _] & Hs').
  split; [done|]. rewrite Hm'. split; [done|].
  destruct Hwf as [Hs _], Hwf' as [Hs2 _]. lia.
Qed.

(** A parked buffer is taken and zeroed. *)
Lemma bo_init_taken n T d s size e p' fd f `{KernelAlloc} ai fs :
  core None n T (p_list (bopool d)) d -> pool_good (bopool d) -> fds d !! fd = Some f ->
  (size =? 0) || (ANE_T6021_BO_MAX <? size) = false ->
  ane_t6021_pool_take PAGE_SHIFT (bopool d) size (quarantined d) = (Some e, p') ->
  twp (ane_t6021_bo_init_ioctl PAGE_SHIFT bo_total_max_mb ai fs s fd size d) (fun '(d', r) =>
    core None n T (p_list (bopool d')) d' /\ pool_good (bopool d') /\
    exists h o, r = inl h /\ bopool d' = p' /\ bos d !! ent_id e = Some o /\
      mem d' = <[b_dma o := replicate (Z.to_nat (page_align size)) 0]> (mem d) /\
      published (set_mem (set_pool d p') (mem d') (total d)) d' fd f (ent_id e) h).
Proof.
  intros Hcore Hg Hf Hsz Htk. unfold ane_t6021_bo_init_ioctl. rewrite Hf Hsz Htk.
  destruct (take_list _ _ _ _ _ _ Htk) as (_ & l1 & e0 & l2 & Hl & Hl' & -> & Hpa & _).
  pose proof (take_good _ size (quarantined d) Hg) as Hg'. rewrite Htk in Hg'. cbn [snd] in Hg'.
  destruct Hcore as [Hb Ht Hc Hbad]. rewrite Hl in Hb. apply buf_unpark in Hb as Hb1.
  destruct (bi_pool _ _ _ _ _ _ _ _ _ Hb e0) as (o & Ho & Hz & Hps & _).
  { apply elem_of_app. right. left. }
  destruct (bi_bo _ _ _ _ _ _ _ _ _ Hb _ o Ho) as [_ _ _ _ (c & Hm & Hcl) _].
  cbn [unpooled ent_id set_pool bos mem]. rewrite Ho Hm.
  pose proof (align_up_range PAGE_SHIFT size) as Hpr. fold (page_align size) in Hpr.
  rewrite memset_eq; [|lia|lia|lia]. cbn [mbind res_bind twp].
  assert (zlen (replicate (Z.to_nat (page_align size)) (u8 0)) = zlen c) as Hlen
    by (rewrite zlen_replicate; lia).
  rewrite patch_all; [|done]. change (u8 0) with 0 in *.
  pose proof (buf_mem _ _ _ _ _ _ _ _ _ _ _ _ Hb1 Hm Hlen) as Hb2.
  set (d1 := set_mem (set_pool d p') (<[b_dma o := _]> (mem d)) (total (set_pool d p'))).
  pose proof (publish_core n T (l1 ++ l2) d1 fd f (ent_id e0) o size) as Hpub.
  destruct (bo_publish fd f (ent_id e0) size d1) as [d' r] eqn:Epub.
  destruct Hpub as (Hc' & h & -> & Hpub); [|done|done|lia|].
  { split; cbn; try done. unfold mem_bytes in *. rewrite (msum_update zlen _ _ _ _ Hm). lia. }
  pose proof Hpub as (Hf' & _ & _ & _ & _ & Hp' & Hmem' & _). cbn in Hp', Hmem'.
  cbn [twp]. rewrite Hp' Hl'. split; [done|]. split; [done|].
  exists h, o. rewrite Hmem'. split; [done|]. split; [done|]. split; [done|]. split; [done|exact Hpub].
Qed.

Section alloc.
Context `{KernelAllocLaws} (fw_alias_iova fw_size : Z).

Abbreviation attempt := (ane_t6021_bo_alloc_attempt PAGE_SHIFT bo_total_max_mb fw_alias_iova fw_size).

(** A successful attempt adds one zeroed allocation and its object. *)
Definition allocated (d0 d : drv) (b a size : Z) : Prop :=
  bos d0 !! b = None /\ mem d0 !! a = None /\
  total d0 + page_align size <= Z.shiftl bo_total_max_mb 20 /\
  d = set_bos (set_mem d0 (<[a := replicate (Z.to_nat (page_align size)) 0]> (mem d0))
                       (total d0 + page_align size))
              (<[b := Bo 0 0 0 a 0 false false false 0]> (bos d0)).

Lemma attempt_spec s size d out :
  match attempt s size (d, out) with
  | (c, Some e) => c = (d, out)
  | ((d', out'), None) => exists b a, out' = Some b /\ allocated d d' b a size
  end.
Proof.
  unfold ane_t6021_bo_alloc_attempt.
  destruct (Z.ltb_spec (Z.shiftl bo_total_max_mb 20) (total d + page_align size)); [done|].
  destruct (kzalloc s (bos d)) as [b|] eqn:Eb; [|done].
  destruct (dma_alloc s (mem d) size) as [a|] eqn:Ea; [|done].
  destruct (negb _ || negb _); [done|]. exists b, a. split; [done|].
  split; [by eapply kzalloc_fresh|]. split; [by eapply dma_alloc_fresh|]. done.
Qed.

Definition alloc_post n T d (l : list pool_ent) (c : drv * option Z) (size : Z) (st : status) : Prop :=
  match st with
  | Some _ => core None n T l c.1 /\ rest c.1 = rest d
  | None => exists d0 b a, core None n T l d0 /\ rest d0 = rest d /\ c.2 = Some b /\ allocated d0 c.1 b a size
  end.

Lemma alloc_publish n T L d0 d b a size fd f :
  0 <= n -> core None n T L d0 -> allocated d0 d b a size -> fds d0 !! fd = Some f ->
  let '(d', r) := bo_publish fd f b size d in
  core None n T L d' /\ exists h, r = inl h /\ published d d' fd f b h.
Proof.
  intros Hn Hc (Hb & Ha & Hcap & ->) Hf. pose proof (align_up_range PAGE_SHIFT size) as Hpr.
  fold (page_align size) in Hpr. destruct Hc as [Hbuf Ht Hcp Hbad].
  set (o := Bo fd 0 0 a size false false false 0). set (c := replicate _ 0).
  assert (zlen c = page_align size) as Hcl by (unfold c; rewrite zlen_replicate; lia).
  assert (buf_inv PAGE_SHIFT (Some b) n (<[b:=o]> (bos d0)) (<[a:=c]> (mem d0)) L (fds d0) (vmas d0) T) as Hb1.
  { apply buf_create; try done. unfold hcount. cbn. rewrite Hf decide_False; [done|]. intros Hin.
    destruct (bi_fds _ _ _ _ _ _ _ _ _ Hbuf fd f Hf) as [_ Hall]. destruct (Hall b Hin) as (q & Hq & _). congruence. }
  set (d1 := set_bos (set_mem d0 (<[a:=c]> (mem d0)) (total d0 + page_align size)) (<[b:=o]> (bos d0))).
  pose proof (publish_core n T L d1 fd f b o size) as Hpub.
  assert (bo_publish fd f b size d1 =
          bo_publish fd f b size (set_bos (set_mem d0 (<[a:=c]> (mem d0)) (total d0 + page_align size))
                                  (<[b := Bo 0 0 0 a 0 false false false 0]> (bos d0)))) as Heq.
  { unfold bo_publish. cbn. rewrite !lookup_insert_eq. cbn. by rewrite !insert_insert_eq. }
  rewrite -Heq. destruct (bo_publish fd f b size d1) as [d' r] eqn:Epub.
  destruct Hpub as (Hc' & h & -> & Hpub).
  - split; cbn; try done. unfold mem_bytes in *. rewrite msum_insert; [lia|done].
  - cbn. by rewrite lookup_insert_eq.
  - done.
  - done.
  - split; [done|]. exists h. split; [done|].
    destruct Hpub as (E1 & E2 & E3 & E4 & E5 & E6 & E7 & o1 & o' & E8 & Hrest). cbn in E8.
    rewrite lookup_insert_eq in E8. injection E8 as <-.
    repeat split; try done. exists (Bo 0 0 0 a 0 false false false 0), o'. cbn. by rewrite lookup_insert_eq.
Qed.

(** [BO_INIT]: the new handle's memory is zero, everything else is kept. *)
Definition init_post n T d size fd (o : drv * (Z + errno)) : Prop :=
  let '(d', r) := o in
    core None n T (p_list (bopool d')) d' /\ pool_good (bopool d') /\
    match r with
    | inr _ => rest d' = rest d
    | inl h => exists f b o, fds d !! fd = Some f /\ bos d' !! b = Some o /\ b_handle o = h /\ b_owner o = fd /\ b_refcount o = 1 /\
        fds d' = <[fd := Fd (fd_bos f ++ [b]) (fd_progs f)]> (fds d) /\ vmas d' = vmas d /\ tab d' = tab d /\
        quarantined d' = quarantined d /\ fw_busy d' = fw_busy d /\
        mem d' !! b_dma o = Some (replicate (Z.to_nat (page_align size)) 0)
    end.

Lemma bo_init_alloc n T d s size fd f p' :
  0 <= n -> core None n T (p_list (bopool d)) d -> pool_good (bopool d) -> fds d !! fd = Some f ->
  (size =? 0) || (ANE_T6021_BO_MAX <? size) = false ->
  ane_t6021_pool_take PAGE_SHIFT (bopool d) size (quarantined d) = (None, p') ->
  twp (ane_t6021_bo_init_ioctl PAGE_SHIFT bo_total_max_mb fw_alias_iova fw_size s fd size d)
    (init_post n T d size fd).
Proof.
  intros Hn Hcore Hg Hf Hsz Htk.
  pose proof (alloc_retry_spec PAGE_SHIFT (fun e '(d, out) => (ane_t6021_pool_release_ent PAGE_SHIFT e d, out))
                (attempt s size) (bopool d) (d, None) (proj1 Hg)) as Hspec.
  destruct (twp_ex _ _ Hspec) as ([[p1 [d1 out]] st] & He & (k & Hev & _)).
  apply (evicted_good _ _ _ Hg) in Hev as Hg1.
  unshelve epose proof (alloc_retry_preserves PAGE_SHIFT
    (fun e '(d, out) => (ane_t6021_pool_release_ent PAGE_SHIFT e d, out))
    (fun l c => core None n T l c.1 /\ rest c.1 = rest d) _ (fun l c st => alloc_post n T d l c size st)
    (attempt s size) _ _ _ _ _ _ _ He) as Hpost.
  { intros l1 e l2 [c out'] _ [H1 H2]. destruct (release_ent_core _ _ _ _ _ _ _ H1) as (Hc1 & Hr1 & _).
    cbn [fst] in *. split; [exact Hc1|]. by rewrite Hr1. }
  { intros l [c out'] [H1 H2]. pose proof (attempt_spec s size c out') as Ha. cbn [fst] in *.
    destruct (attempt s size (c, out')) as [[c' out2] [e|]].
    - injection Ha as -> ->. destruct (retryable _); done.
    - destruct Ha as (b & a & -> & Hal). cbn. by exists c, b, a. }
  { done. }
  unfold ane_t6021_bo_init_ioctl. rewrite Hf Hsz Htk He. cbn [mbind res_bind].
  destruct st as [e|]; unfold alloc_post in Hpost; cbn [fst snd] in Hpost.
  { destruct Hpost as [Hc1 Hr1]. cbn. split; [|done]. by eapply core_ext. }
  destruct Hpost as (d0 & b & a & Hc0 & Hr0 & -> & Hal).
  pose proof (rest_eqs _ _ Hr0) as (Ef & Ev & Et & Eq & _ & Eb).
  assert (allocated (set_pool d0 p1) (set_pool d1 p1) b a size) as Hal'.
  { destruct Hal as (H1 & H2 & H3 & ->). done. }
  assert (core None n T (p_list p1) (set_pool d0 p1)) as Hc0' by by eapply core_ext.
  pose proof (alloc_publish n T (p_list p1) (set_pool d0 p1) (set_pool d1 p1) b a size fd f Hn Hc0' Hal') as Hpub.
  destruct (bo_publish fd f b size (set_pool d1 p1)) as [d' r].
  destruct Hpub as (Hc' & h & -> & (E1 & E2 & E3 & E4 & E5 & E6 & E7 & o & o' & Ho & Ho' & Hdma & Hh & Hown & Hone));
    [cbn; congruence|].
  destruct Hal' as (_ & _ & _ & Ed1). rewrite Ed1 in E1 E2 E3 E4 E5 E6 E7 Ho. cbn in E1, E2, E3, E4, E5, E6, E7, Ho.
  rewrite lookup_insert_eq in Ho. injection Ho as <-. cbn [twp init_post]. rewrite E6. split; [done|]. split; [done|].
  exists f, b, o'. rewrite E1 E2 E3 E4 E5 E7 Hdma Ef. repeat split; try done. apply lookup_insert_eq.
Qed.

Lemma bo_init_spec n T d s size fd :
  0 <= n -> core None n T (p_list (bopool d)) d -> pool_good (bopool d) ->
  twp (ane_t6021_bo_init_ioctl PAGE_SHIFT bo_total_max_mb fw_alias_iova fw_size s fd size d)
    (init_post n T d size fd).
Proof.
  intros Hn Hcore Hg. destruct (fds d !! fd) as [f|] eqn:Hf.
  2: { unfold ane_t6021_bo_init_ioctl. by rewrite Hf. }
  destruct ((size =? 0) || (ANE_T6021_BO_MAX <? size)) eqn:Hsz.
  { unfold ane_t6021_bo_init_ioctl. by rewrite Hf Hsz. }
  destruct (ane_t6021_pool_take PAGE_SHIFT (bopool d) size (quarantined d)) as [[e|] p'] eqn:Htk.
  - eapply twp_mono; [by eapply (bo_init_taken n T d s size e p' fd f)|].
    intros [d' r] (Hc' & Hg' & h & o & -> & _ & Ho & Hm & Hpub).
    destruct Hpub as (E1 & E2 & E3 & E4 & E5 & _ & _ & o1 & o' & Ho1 & Ho' & Hdma & Hh & Hown & Hone).
    assert (o1 = o) as -> by (cbn in Ho1; congruence).
    split; [done|]. split; [done|]. exists f, (ent_id e), o'. repeat split; try done.
    rewrite Hdma Hm. apply lookup_insert_eq.
  - by eapply bo_init_alloc.
Qed.
End alloc.
End inv.
