(* ===== verification/T6021Sys.v ===== *)
(** * The T6021 driver as a system

    Programs on top of the buffer invariant: loading, sharing, executing and
    unloading, then any sequence of ioctls, mappings, closes and firmware
    answers from the initial state. *)

From S2P Require Import Prelude Pool ProgTab T6021 T6021Inv.

(** ** Counting references *)

Lemma tab_inv_ext t refs refs' :
  (forall id, refs' id = refs id) -> tab_inv t refs -> tab_inv t refs'.
Proof.
  intros He [H1 H2 H3 H4 H5 H6 H7]. split; try done.
  - intros i p Hp. rewrite He. by apply (H6 i).
  - intros id Hid. rewrite He in Hid. by apply H7.
Qed.

Lemma refs_of_bounds G id : 0 <= refs_of G id <= Z.of_nat (size G).
Proof.
  unfold refs_of. pose proof (msum_bounds (fun l => if decide (id ∈ l) then 1 else 0) G 1) as Hb.
  rewrite Z.mul_1_r in Hb. apply Hb. intros k l _. case_decide; lia.
Qed.

Lemma refs_of_delete G k l id :
  G !! k = Some l -> refs_of (delete k G) id = refs_of G id - if decide (id ∈ l) then 1 else 0.
Proof. intros Hk. unfold refs_of. by rewrite (msum_delete _ _ _ _ Hk). Qed.

Lemma refs_of_ref G k l id :
  G !! k = Some l -> id ∉ l -> forall id', refs_of (<[k := l ++ [id]]> G) id' = ref1 (refs_of G) id id'.
Proof.
  intros Hk Hid id'. unfold refs_of, ref1. rewrite (msum_update _ _ _ l); [|done]. cbn beta.
  destruct (Z.eqb_spec id' id) as [->|Hne].
  - destruct (decide (id ∈ l)) as [|_]; [done|]. destruct (decide (id ∈ l ++ [id])) as [_|Hn]; [lia|].
    destruct Hn. apply elem_of_app. right. by apply list_elem_of_singleton.
  - destruct (decide (id' ∈ l)) as [H1|H1], (decide (id' ∈ l ++ [id])) as [H2|H2]; try lia.
    + destruct H2. apply elem_of_app. by left.
    + apply elem_of_app in H2 as [|H2]; [done|]. by apply list_elem_of_singleton in H2.
Qed.

Lemma scount_cons s l b : scount (s :: l) b = (if decide (s = Some b) then 1 else 0) + scount l b.
Proof. done. Qed.

Lemma scount_none n b : scount (replicate n None) b = 0.
Proof. induction n as [|n IH]; [done|]. cbn [replicate]. rewrite scount_cons IH. by case_decide. Qed.

Lemma scount_insert l i b b' :
  l !! i = Some None -> scount (<[i:=Some b]> l) b' = scount l b' + if b' =? b then 1 else 0.
Proof.
  intros Hi. unfold scount. rewrite (sumz_insert _ _ _ _ None Hi). cbn beta.
  repeat case_decide; destruct (Z.eqb_spec b' b); simplify_eq; lia.
Qed.

Lemma tab_secs_set t i p q b :
  progs t !! i = Some p -> tab_secs (set_prog t i q) b = tab_secs t b - scount (sec p) b + scount (sec q) b.
Proof. intros Hi. unfold tab_secs. cbn. by apply (sumz_insert (fun p => scount (sec p) b)). Qed.

Lemma tab_secs_nonneg t b : 0 <= tab_secs t b.
Proof.
  unfold tab_secs. induction (progs t) as [|p l IH]; [done|]. rewrite sumz_cons.
  pose proof (scount_nonneg (sec p) b). lia.
Qed.

Lemma scount_le_tab t i p b : progs t !! i = Some p -> scount (sec p) b <= tab_secs t b.
Proof.
  intros Hi. apply (sumz_elem (fun p => scount (sec p) b)); [|by eapply list_elem_of_lookup_2].
  intros q _. apply scount_nonneg.
Qed.

(** ** Weakenings of the buffer invariant *)

Section frame.
Context (PAGE_SHIFT : Z).

(** Counting fewer program references. *)
Lemma buf_secs x n B M L F V T T' :
  buf_inv PAGE_SHIFT x n B M L F V T -> (forall b, 0 <= T' b <= T b) -> buf_inv PAGE_SHIFT x n B M L F V T'.
Proof.
  intros [Ibo Idma Ix Ind Ipool Ifds Ivm Isec] HT. split; try done.
  - intros b o Ho. destruct (Ibo b o Ho). specialize (HT b). split; try done. lia.
  - intros b Hb. specialize (Isec b Hb). specialize (HT b). lia.
Qed.

Lemma buf_more x n n' B M L F V T :
  buf_inv PAGE_SHIFT x n B M L F V T -> n <= n' -> buf_inv PAGE_SHIFT x n' B M L F V T.
Proof.
  intros [Ibo Idma Ix Ind Ipool Ifds Ivm Isec] Hn. split; try done.
  intros b o Ho. destruct (Ibo b o Ho). split; try done. lia.
Qed.

(** Files change, their buffer lists do not. *)
Lemma buf_fds x n B M L F F' V T :
  buf_inv PAGE_SHIFT x n B M L F V T ->
  (forall b k, hcount F' b k = hcount F b k) -> (forall k f, F' !! k = Some f -> NoDup (fd_bos f)) ->
  buf_inv PAGE_SHIFT x n B M L F' V T.
Proof.
  intros [Ibo Idma Ix Ind Ipool Ifds Ivm Isec] HF Hnd. split; try done.
  - intros b o Ho. destruct (Ibo b o Ho). split; try done. by rewrite HF.
  - intros k f Hk. split; [by apply (Hnd k)|]. intros b Hin. specialize (HF b k). unfold hcount in HF.
    rewrite Hk decide_True in HF; [|done]. destruct (F !! k) as [f0|] eqn:Hk0; [|done].
    case_decide as Hin0; [|done]. by apply (Ifds k f0).
Qed.

Lemma hcount_same_bos F fd f ps b k :
  F !! fd = Some f -> hcount (<[fd := Fd (fd_bos f) ps]> F) b k = hcount F b k.
Proof.
  intros Hf. rewrite hcount_insert. destruct (Z.eqb_spec k fd) as [->|]; [|done]. unfold hcount. by rewrite Hf.
Qed.
End frame.

Section progs.
Context (PAGE_SHIFT bo_total_max_mb : Z).
Abbreviation core := (core PAGE_SHIFT bo_total_max_mb).
Abbreviation dinv := (dinv PAGE_SHIFT bo_total_max_mb).
Abbreviation pool_good := (pool_good PAGE_SHIFT).

(** A new list of programs for one file. *)
Lemma core_progs n T L d fd f ps :
  core None n T L d -> fds d !! fd = Some f ->
  core None n T L (set_fds d (<[fd := Fd (fd_bos f) ps]> (fds d))).
Proof.
  intros [Hb Ht Hc Hbad] Hf. split; try done. cbn. eapply buf_fds; [done| |].
  - intros b k. by apply hcount_same_bos.
  - intros k f' Hk. destruct (decide (k = fd)) as [->|Hne].
    + rewrite lookup_insert_eq in Hk. injection Hk as <-. by apply (bi_fds _ _ _ _ _ _ _ _ _ Hb fd f).
    + rewrite lookup_insert_ne in Hk; [|done]. by apply (bi_fds _ _ _ _ _ _ _ _ _ Hb k f').
Qed.

Lemma core_tab x n T L d t : core x n T L d -> core x n T L (set_tab d t).
Proof. by intros []. Qed.

(** ** A file takes a reference on a program *)

Lemma take_ref_inv nl no d fd f i p :
  dinv nl no d -> fw_busy d = None -> no < U32_MAX -> fds d !! fd = Some f -> live_at (tab d) i p ->
  dinv nl no (take_ref fd f i p d).2 /\ rest (take_ref fd f i p d).2 =
    rest (set_tab (set_fds d (fds (take_ref fd f i p d).2)) (tab (take_ref fd f i p d).2)) /\
  ((take_ref fd f i p d).1 = true -> exists f', fds (take_ref fd f i p d).2 !! fd = Some f' /\ prog_id p ∈ fd_progs f').
Proof.
  intros [Hcore Hpool [Ht Hfree Hnd Hsize Hbusy]] Hb Hno Hf Hl. rewrite Hb in Hbusy.
  pose proof (refs_of_bounds (progs_of d) (prog_id p)) as Hrb.
  pose proof (ref_spec (tab d) (refs_of (progs_of d)) i p (fd_progs f) Ht Hl ltac:(lia)) as Hr.
  assert (progs_of d !! fd = Some (fd_progs f)) as HG by (unfold progs_of; by rewrite lookup_fmap Hf).
  unfold take_ref. destruct (ane_t6021_fdprogs_ref (fd_progs f) p) as [[ok ids] p'] eqn:Er.
  cbn [fst snd]. split; [|split; [done|]].
  2: { intros ->. exists (Fd (fd_bos f) ids). cbn. rewrite lookup_insert_eq. split; [done|].
       destruct Hr as [(-> & _ & Hin)|(-> & _)]; [done|]. apply elem_of_app. right. by apply list_elem_of_singleton. }
  assert (sec p' = sec p) as Hsec.
  { destruct ok; [destruct Hr as [(_ & -> & _)|(_ & _ & -> & _)]|destruct Hr as (_ & -> & _)]; done. }
  assert (tab_inv (set_prog (tab d) i p') (refs_of (<[fd := ids]> (progs_of d))) /\ NoDup ids /\
          state p' = state p) as (Ht' & Hids & Hst).
  { pose proof (Hnd fd _ HG) as Hndf.
    assert (set_prog (tab d) i p = tab d) as Hid.
    { unfold set_prog. rewrite list_insert_id; [by destruct (tab d)|apply Hl]. }
    destruct ok; [destruct Hr as [(-> & -> & _)|(-> & Hnin & -> & Hti)]|destruct Hr as (-> & -> & _)].
    - rewrite insert_id; [|done]. by rewrite Hid.
    - split; [|split; [|done]].
      + eapply tab_inv_ext; [|exact Hti]. by apply refs_of_ref.
      + apply NoDup_app. split; [done|]. split; [|apply NoDup_singleton].
        intros y Hy Hy'. by apply list_elem_of_singleton in Hy' as ->.
    - rewrite insert_id; [|done]. by rewrite Hid. }
  split; cbn.
  - destruct (core_progs _ _ _ _ fd f ids Hcore Hf) as [Hbuf Htot Hcap Hbad].
    split; try done. eapply buf_secs; [exact Hbuf|]. intros b. unfold tcount.
    cbn [set_tab set_fds tab fw_busy]. rewrite Hb. cbn [busy_secs].
    rewrite (tab_secs_set _ _ p); [|apply Hl]. rewrite Hsec. pose proof (tab_secs_nonneg (tab d) b). lia.
  - done.
  - unfold progs_of. cbn. rewrite fmap_insert. cbn. fold (progs_of d). split.
    + done.
    + intros j q Hq Hs. destruct (decide (j = i)) as [->|Hne].
      * rewrite list_lookup_insert_eq in Hq; [|by eapply lookup_lt_Some, (proj1 Hl)]. injection Hq as <-.
        rewrite Hst (proj2 Hl) in Hs. done.
      * rewrite list_lookup_insert_ne in Hq; [|done]. by apply (Hfree j).
    + intros k l Hk. destruct (decide (k = fd)) as [->|Hne].
      * rewrite lookup_insert_eq in Hk. by injection Hk as <-.
      * rewrite lookup_insert_ne in Hk; [|done]. by apply (Hnd k).
    + rewrite map_size_insert_Some; [done|by exists (fd_progs f)].
    + by rewrite Hb.
Qed.

(** ** Loading *)

Lemma bo_find_Some g m l b o : bo_find g m l = Some (b, o) -> b ∈ l /\ m !! b = Some o /\ g o = true.
Proof.
  induction l as [|y l IH]; cbn [bo_find]; [done|]. destruct (m !! y) as [q|] eqn:Hy.
  - destruct (g q) eqn:Hg; [intros [= <- <-]; split; [left|done]|].
    intros Hf. destruct (IH Hf) as (Hin & ?). split; [by right|done].
  - intros Hf. destruct (IH Hf) as (Hin & ?). split; [by right|done].
Qed.

Lemma section_bo_Some m l x b o :
  section_bo m l x = Some (b, o) -> b ∈ l /\ m !! b = Some o /\ s_size x <= b_size o /\ s_offset x <= b_size o - s_size x.
Proof.
  unfold section_bo. destruct (bo_find _ m l) as [[b' o']|] eqn:Hf; [|done].
  destruct (_ && _) eqn:Hc; [|done]. intros [= <- <-]. apply bo_find_Some in Hf as (? & ? & _). repeat split; try done; lia.
Qed.

(** Any number of stores into the command buffer. *)
Lemma put32_ok m p v : zlen m = SZ_16K -> 0 <= p -> p + 4 <= SZ_16K ->
  exists m', put_le32 m p v = Ret m' /\ zlen m' = SZ_16K.
Proof.
  intros Hm Hp He. eexists. split; [apply put_le32_eq; lia|]. rewrite zlen_patch ?zlen_le_bytes; lia.
Qed.

Lemma put64_ok m p v : zlen m = SZ_16K -> 0 <= p -> p + 8 <= SZ_16K ->
  exists m', put_le64 m p v = Ret m' /\ zlen m' = SZ_16K.
Proof.
  intros Hm Hp He. eexists. split; [apply put_le64_eq; lia|]. rewrite zlen_patch ?zlen_le_bytes; lia.
Qed.

Definition add_ref (T : Z -> Z) (b : Z) : Z -> Z := fun b' => T b' + if b' =? b then 1 else 0.

(** A buffer of an open file gets one more program reference. *)
Lemma mark_core n T L d fd f b o :
  core None n T L d -> fds d !! fd = Some f -> b ∈ fd_bos f -> bos d !! b = Some o -> n + 1 < 2 ^ 16 ->
  core None (n + 1) (add_ref T b) L
    (set_bos d (<[b := Bo (b_owner o) (b_handle o) (b_refcount o + 1) (b_dma o) (b_size o) true true
                          (b_fw_io o) (u16 (b_prog_refs o + 1))]> (bos d))).
Proof.
  intros [Hb Ht Hc Hbad] Hf Hin Ho Hn.
  destruct (handle_ref _ _ _ _ _ _ _ _ _ Hb fd f b o Hf Hin Ho) as [Hown Hpos].
  destruct (live_not_parked _ _ _ _ _ _ _ _ _ Hb b o Ho ltac:(lia)) as [Hx HnL].
  destruct (bi_bo _ _ _ _ _ _ _ _ _ Hb b o Ho) as [Hr [Hs Hsn] Hp Hfr Hm _].
  rewrite (wrap_small 16); [|lia]. split; cbn; try done.
  set (o' := Bo _ _ _ _ _ _ _ _ _).
  replace None with (if b_refcount o' =? 0 then Some b else None)
    by (cbn; by rewrite (proj2 (Z.eqb_neq _ _)); [|lia]).
  eapply (buf_update _ None n (bos d) (mem d) L (fds d) (vmas d) T Hb b o o'); cbn; try done; try lia.
  - by left.
  - intros b' Hne. unfold add_ref. rewrite (proj2 (Z.eqb_neq _ _)); [lia|done].
  - intros k f' Hk. destruct (bi_fds _ _ _ _ _ _ _ _ _ Hb k f' Hk) as [Hnd Hall]. split; [done|].
    intros Hin'. destruct (Hall b Hin') as (q & Hq & <-). congruence.
  - unfold add_ref. rewrite Z.eqb_refl. lia.
  - rewrite bool_decide_true; [done|lia].
Qed.

Lemma load_mark_spec n T d slots cmd fd f x :
  core None n T (p_list (bopool d)) d -> fds d !! fd = Some f -> n + 1 < 2 ^ 16 ->
  1 <= s_id x <= 9 -> slots !! Z.to_nat (s_id x - 1) = Some None -> zlen cmd = SZ_16K ->
  twp (load_mark (fd_bos f) (d, slots, cmd) x) (fun r =>
    match r with
    | inr d' => d' = d
    | inl (d', slots', cmd') => zlen cmd' = SZ_16K /\ rest d' = rest d /\ bopool d' = bopool d /\
        exists b, slots' = <[Z.to_nat (s_id x - 1) := Some b]> slots /\
          core None (n + 1) (add_ref T b) (p_list (bopool d)) d'
    end).
Proof.
  intros Hcore Hf Hn Hid Hslot Hcmd. unfold load_mark.
  destruct (section_bo (bos d) (fd_bos f) x) as [[b o]|] eqn:Hs; [|done].
  apply section_bo_Some in Hs as (Hin & Ho & _). cbn [b_dma].
  destruct (put32_ok cmd (8 + (s_id x - 1) * 48) 1) as (c1 & -> & H1); [done|unfold SZ_16K; lia..|]. cbn [mbind res_bind].
  destruct (put32_ok c1 (8 + (s_id x - 1) * 48 + 4) (s_id x)) as (c2 & -> & H2); [done|unfold SZ_16K; lia..|]. cbn [mbind res_bind].
  destruct (put64_ok c2 (8 + (s_id x - 1) * 48 + 24) (u64 (b_dma o + s_offset x))) as (c3 & -> & H3);
    [done|unfold SZ_16K; lia..|]. cbn [mbind res_bind].
  destruct (put64_ok c3 (8 + (s_id x - 1) * 48 + 32) (s_size x)) as (c4 & -> & H4); [done|unfold SZ_16K; lia..|].
  cbn [mbind res_bind twp]. split; [done|]. split; [done|]. split; [done|]. exists b. split; [done|].
  by apply (mark_core n T _ d fd f b o).
Qed.

Definition plus (T : Z -> Z) (slots : list (option Z)) : Z -> Z := fun b => T b + scount slots b.

Lemma core_secs x n T T' L d : core x n T L d -> (forall b, 0 <= T' b <= T b) -> core x n T' L d.
Proof. intros [Hb Ht Hc Hbad] HT. split; try done. by eapply buf_secs. Qed.

Lemma core_more x n n' T L d : core x n T L d -> n <= n' -> core x n' T L d.
Proof. intros [Hb Ht Hc Hbad] Hn. split; try done. by eapply buf_more. Qed.

(** The loop over the sections: one reference per section, in the slot of
    the section's id. *)
Lemma load_marks_spec n T d slots cmd fd f xs :
  core None n (plus T slots) (p_list (bopool d)) d -> (forall b, 0 <= T b) ->
  fds d !! fd = Some f -> n + zlen xs < 2 ^ 16 -> zlen cmd = SZ_16K -> length slots = 9%nat ->
  section_ids_ok xs = true -> (forall x, x ∈ xs -> slots !! Z.to_nat (s_id x - 1) = Some None) ->
  twp (load_marks (fd_bos f) (d, slots, cmd) xs) (fun r =>
    match r with
    | inr d' => core None (n + zlen xs) T (p_list (bopool d')) d' /\ rest d' = rest d /\ bopool d' = bopool d
    | inl (d', slots', cmd') => zlen cmd' = SZ_16K /\ length slots' = 9%nat /\ rest d' = rest d /\ bopool d' = bopool d /\
        core None (n + zlen xs) (plus T slots') (p_list (bopool d')) d'
    end).
Proof.
  intros Hcore HT Hf Hn Hcmd Hlen Hids Hfree. revert n d slots cmd Hcore Hf Hn Hcmd Hlen Hfree.
  induction xs as [|x xs IH]; intros n d slots cmd Hcore Hf Hn Hcmd Hlen Hfree; cbn [load_marks].
  { cbn. rewrite Z.add_0_r. done. }
  unfold section_ids_ok in Hids. cbn [forallb ids_distinct] in Hids.
  apply andb_prop in Hids as [[Hid Hids1]%andb_prop [Hdis Hids2]%andb_prop].
  assert (1 <= s_id x <= 9) as Hx by (unfold ANE_T6021_LOAD_SEC_COUNT in Hid; lia).
  assert (zlen (x :: xs) = 1 + zlen xs) as Hz by (unfold zlen; cbn [length]; lia).
  pose proof (zlen_nonneg xs). rewrite Hz in Hn |- *.
  apply twp_bind. eapply twp_mono.
  { apply (load_mark_spec n (plus T slots) d slots cmd fd f x); try done; [lia|]. apply Hfree. left. }
  intros [[[d1 slots1] cmd1]|d1].
  2: { intros ->. cbn. split; [|done]. eapply core_more; [eapply core_secs; [done|]|lia].
       intros b. unfold plus. pose proof (HT b). pose proof (scount_nonneg slots b). lia. }
  intros (Hc1 & Hr1 & Hp1 & b & -> & Hcore1).
  pose proof (rest_eqs _ _ Hr1) as (Ef & _).
  eapply twp_mono; [apply (IH ltac:(unfold section_ids_ok; by rewrite Hids1 Hids2) (n + 1) d1 _ cmd1)|].
  - rewrite Hp1. destruct Hcore1 as [Hb Ht Hc Hbad]. split; try done. eapply buf_secs; [exact Hb|].
    intros b'. unfold plus, add_ref. rewrite scount_insert; [|apply Hfree; left].
    pose proof (HT b'). pose proof (scount_nonneg slots b'). destruct (b' =? b); lia.
  - by rewrite Ef.
  - lia.
  - done.
  - by rewrite length_insert.
  - intros y Hy. rewrite forallb_forall in Hdis. rewrite forallb_forall in Hids1.
    assert (s_id x <> s_id y) as Hne.
    { specialize (Hdis y). rewrite -list_elem_of_In in Hdis. specialize (Hdis Hy). lia. }
    assert (1 <= s_id y).
    { specialize (Hids1 y). rewrite -list_elem_of_In in Hids1. specialize (Hids1 Hy). lia. }
    rewrite list_lookup_insert_ne; [|lia]. apply Hfree. by right.
  - replace (n + 1 + zlen xs) with (n + (1 + zlen xs)) by lia.
    intros [[[d2 slots2] cmd2]|d2]; rewrite ?Hr1 ?Hp1; done.
Qed.

(** What [dinv] needs when only buffers changed. *)
Lemma dinv_rest nl no d d' n :
  dinv nl no d -> rest d' = rest d -> core None n (tcount d) (p_list (bopool d')) d' -> n <= 9 * nl ->
  pool_good (bopool d') -> dinv nl no d'.
Proof.
  intros [_ _ Htabs] Hr Hc Hn Hg. pose proof (rest_eqs _ _ Hr) as (Ef & _ & Et & _ & _ & Eb).
  split; [|done|by unfold progs_of; rewrite Et Eb Ef].
  rewrite (tcount_eqs _ _ Hr). by eapply core_more.
Qed.

Lemma dinv_more nl no d : dinv nl no d -> dinv (nl + 1) no d.
Proof. intros [Hc Hp Ht]. split; try done. eapply core_more; [done|lia]. Qed.

Lemma dinv_tcount_busy d b : fw_busy d = None -> tcount d b = tab_secs (tab d) b.
Proof. intros Hb. unfold tcount. rewrite Hb. cbn. lia. Qed.

Lemma prog_load_begin_inv sha nl no d fd gc secs kmem copied cmd_buf :
  dinv nl no d -> fw_busy d = None -> no < U32_MAX -> 9 * (nl + 1) < 2 ^ 16 ->
  twp (prog_load_begin sha fd gc secs kmem copied cmd_buf d) (fun r => dinv (nl + 1) no r.1).
Proof.
  intros Hd Hb Hno Hnl. apply dinv_more in Hd as Hd1. unfold prog_load_begin.
  destruct (quarantined d); [done|]. destruct (fds d !! fd) as [f|] eqn:Hf; [|done].
  destruct (_ || _ || _) eqn:Hcnt; [done|]. destruct kmem; [|done]. destruct copied; [|done]. cbn [negb].
  destruct (section_ids_ok secs) eqn:Hids; [|done]. cbn [negb].
  destruct (load_message d (fd_bos f) secs) as [msg| |] eqn:Hm; [|done|exfalso].
  2: { revert Hm. unfold load_message. generalize (@nil Z). clear. induction secs as [|x secs IH]; intros acc; [done|].
       cbn [foldM]. destruct (section_bo _ _ x) as [[b o]|]; [|done]. cbn [mbind res_bind]. apply IH. }
  pose proof (d_tabs _ _ _ _ _ Hd) as [Ht Hfree Hnd Hsize _].
  pose proof (find_spec (tab d) _ Ht (sha msg)) as Hfind.
  destruct (ane_t6021_progtab_find (tab d) (sha msg)) as [i|].
  - destruct Hfind as (p & Hl & _). rewrite (proj1 Hl).
    destruct (take_ref_inv (nl + 1) no d fd f i p Hd1 Hb Hno Hf Hl) as [Hinv _].
    destruct (take_ref fd f i p d) as [ok d']. done.
  - destruct (ane_t6021_progtab_has_room (tab d)) eqn:Hroom; [|done]. destruct cmd_buf; [|done]. cbn [negb].
    destruct Hd as [Hcore Hpool _]. apply twp_bind.
    assert (zlen secs <= 9) as Hz by (unfold ANE_T6021_LOAD_SEC_COUNT in Hcnt; lia).
    eapply twp_mono.
    { apply (load_marks_spec (9 * nl) (tcount d) d _ _ fd f secs); try done; try lia.
      - eapply core_secs; [exact Hcore|]. intros b. unfold plus. rewrite scount_none dinv_tcount_busy; [|done].
        pose proof (tab_secs_nonneg (tab d) b). lia.
      - intros b. rewrite dinv_tcount_busy; [|done]. apply tab_secs_nonneg.
      - intros x Hx. apply lookup_replicate. split; [done|]. unfold section_ids_ok in Hids.
        apply andb_prop in Hids as [Hids _]. rewrite forallb_forall in Hids.
        specialize (Hids x). rewrite -list_elem_of_In in Hids. specialize (Hids Hx).
        unfold ANE_T6021_LOAD_SEC_COUNT in Hids. lia. }
    intros [[[d1 slots] cmd]|d1].
    + intros (Hc1 & Hl1 & Hr1 & Hp1 & Hcore1). destruct (put32_ok cmd 0x1b8 U32_MAX) as (c2 & -> & _); [done|done|done|].
      cbn [mbind res_bind twp fst]. pose proof (rest_eqs _ _ Hr1) as (Ef & Ev & Et & _ & _ & Eb).
      split; cbn [set_busy bopool].
      * destruct Hcore1 as [Hbuf Htot Hcap Hbad]. split; try done. cbn. apply (buf_more _ _ (9 * nl + zlen secs)); [|lia].
        eapply buf_secs; [exact Hbuf|]. intros b. unfold plus, tcount. cbn. rewrite Et Hb. cbn.
        pose proof (tab_secs_nonneg (tab d) b). pose proof (scount_nonneg slots b). lia.
      * by rewrite Hp1.
      * unfold progs_of. cbn. rewrite Et Ef. split; try done. cbn.
        split; [rewrite lookup_fmap Hf; by eexists|]. split; [exact Hfind|done].
    + intros (Hcore1 & Hr1 & Hp1). cbn [twp fst].
      eapply (dinv_rest (nl + 1) no d d1); [done|done|exact Hcore1|lia|by rewrite Hp1].
Qed.

Lemma dinv_quarantine nl no d : dinv nl no d -> dinv nl no (quarantine d).
Proof. intros [[Hb Ht Hc Hbad] Hp Htb]. by split. Qed.

(** The lock is released; a load that failed keeps its references. *)
Lemma dinv_unbusy nl no d : dinv nl no d -> dinv nl no (set_busy d None).
Proof.
  intros [Hcore Hp [H1 H2 H3 H4 _]]. split; [|done|by split].
  destruct Hcore as [Hb Ht Hc Hbad]. split; try done. eapply buf_secs; [exact Hb|].
  intros b. unfold tcount. cbn. pose proof (tab_secs_nonneg (tab d) b).
  assert (0 <= busy_secs (fw_busy d) b); [|lia].
  destruct (fw_busy d) as [[]|]; try done. apply scount_nonneg.
Qed.

(** The firmware names a program that is not live. *)
Definition fresh_id (d : drv) (id : Z) : Prop := forall i p, live_at (tab d) i p -> prog_id p <> id.

Lemma fresh_refs nl no d id : dinv nl no d -> fresh_id d id -> refs_of (progs_of d) id = 0.
Proof.
  intros [_ _ [Ht _ _ _ _]] Hid. destruct (decide (refs_of (progs_of d) id = 0)) as [|Hn]; [done|].
  destruct (ti_refs _ _ Ht id Hn) as (i & p & Hl & Hp). by destruct (Hid i p Hl).
Qed.

(** A loaded program enters the table with the references of its load. *)
Lemma add_prog_inv nl no d fd dg slots cmd id :
  dinv nl no d -> fw_busy d = Some (FwLoad fd dg slots cmd) -> fresh_id d id ->
  exists i t, ane_t6021_progtab_add (tab d) dg id = (Some i, t) /\
    let np := set_secs (fresh_prog dg id) slots in
    dinv nl no (set_tab (set_busy d None) (set_prog t i np)) /\ live_at (set_prog t i np) i np.
Proof.
  intros Hd Hb Hid. pose proof (fresh_refs _ _ _ _ Hd Hid) as Hr0.
  destruct Hd as [Hcore Hp [Ht Hfree Hnd Hsize Hbusy]]. rewrite Hb in Hbusy. destruct Hbusy as (_ & Hdg & Hroom).
  destruct (add_spec (tab d) _ dg id Ht Hroom) as (i & p0 & t & Hadd & Ht' & Hp0 & Hst0 & Hprogs); [|done|].
  { intros j q Hl. split; [by apply (Hid j)|by apply (Hdg j)]. }
  exists i, t. split; [done|]. cbn zeta. set (np := set_secs (fresh_prog dg id) slots).
  assert (i < length (progs (tab d)))%nat as Hi by by eapply lookup_lt_Some.
  assert (live_at t i (fresh_prog dg id)) as Hlt by (split; [by rewrite Hprogs list_lookup_insert_eq|done]).
  assert (progs (set_prog t i np) = <[i:=np]> (progs (tab d))) as Hpr
    by (cbn; by rewrite Hprogs list_insert_insert_eq).
  split; [|split; [by rewrite Hpr list_lookup_insert_eq|done]].
  split.
  - destruct Hcore as [Hbuf Htot Hcap Hbad]. split; try done. eapply buf_secs; [exact Hbuf|].
    intros b. unfold tcount, tab_secs at 1 2. cbn [set_tab set_busy tab fw_busy]. rewrite Hpr Hb. cbn [busy_secs].
    rewrite (sumz_insert (fun p => scount (sec p) b) _ i np p0 Hp0) (Hfree i p0 Hp0 Hst0) scount_none.
    cbn [np set_secs sec]. fold (tab_secs (tab d) b).
    pose proof (tab_secs_nonneg (tab d) b). pose proof (scount_nonneg slots b). lia.
  - done.
  - cbn [set_tab set_busy tab fw_busy]. split; try done.
    + apply (set_prog_inv t _ Ht' i (fresh_prog dg id)); try done.
    + intros j q Hq Hs. rewrite Hpr in Hq. destruct (decide (j = i)) as [->|Hne].
      * rewrite list_lookup_insert_eq in Hq; [|done]. by injection Hq as <-.
      * rewrite list_lookup_insert_ne in Hq; [|done]. by apply (Hfree j).
Qed.

Lemma prog_load_end_inv nl no d ok id :
  dinv nl no d -> no < U32_MAX -> (ok = true -> fresh_id d id) ->
  twp (prog_load_end ok id d) (fun r => dinv nl no r.1).
Proof.
  intros Hd Hno Hid. unfold prog_load_end. destruct (fw_busy d) as [[fd dg slots cmd|]|] eqn:Hb; try done.
  apply dinv_unbusy in Hd as Hd0.
  destruct ok; cbn [negb]; [|by apply dinv_quarantine]. destruct (id =? U32_MAX); [done|].
  destruct (add_prog_inv nl no d fd dg slots cmd id Hd Hb (Hid eq_refl)) as (i & t & Hadd & Hd1 & Hl).
  change (tab (set_busy d None)) with (tab d). rewrite Hadd.
  pose proof (tb_busy _ _ _ _ (d_tabs _ _ _ _ _ Hd)) as Hbusy. rewrite Hb in Hbusy. destruct Hbusy as ([l Hl0] & _).
  unfold progs_of in Hl0. rewrite lookup_fmap in Hl0. destruct (fds d !! fd) as [f|] eqn:Hf; [|done].
  cbn [set_tab set_busy fds]. rewrite Hf.
  destruct (take_ref_inv nl no _ fd f i _ Hd1 eq_refl Hno Hf Hl) as [Hinv _].
  by destruct (take_ref fd f i _ _) as [ok d'].
Qed.

Lemma prog_lookup_inv nl no d fd pad len dg copied :
  dinv nl no d -> fw_busy d = None -> no < U32_MAX -> is_Some (fds d !! fd) ->
  twp (ane_t6021_prog_lookup_ioctl fd pad len dg copied d) (fun r => dinv nl no r.1).
Proof.
  intros Hd Hb Hno [f Hf]. unfold ane_t6021_prog_lookup_ioctl.
  destruct (negb _ || negb _); [done|]. destruct (negb copied); [done|]. destruct (quarantined d); [done|].
  pose proof (find_spec (tab d) _ (tb_inv _ _ _ _ (d_tabs _ _ _ _ _ Hd)) dg) as Hfind.
  destruct (ane_t6021_progtab_find (tab d) dg) as [i|]; [|done].
  destruct Hfind as (p & Hl & _). rewrite (proj1 Hl) Hf.
  destruct (take_ref_inv nl no d fd f i p Hd Hb Hno Hf Hl) as [Hinv _].
  by destruct (take_ref fd f i p d) as [ok d'].
Qed.

(** A slot changes nothing that the invariant counts. *)
Lemma dinv_set_slot nl no d i p q :
  dinv nl no d -> fw_busy d = None -> live_at (tab d) i p ->
  prog_id q = prog_id p -> digest q = digest p -> users q = users p -> state q = state p -> sec q = sec p ->
  dinv nl no (set_tab d (set_prog (tab d) i q)).
Proof.
  intros [Hcore Hp [Ht Hfree Hnd Hsize Hbusy]] Hb Hl Hid Hdg Hu Hs Hsec. rewrite Hb in Hbusy. split.
  - destruct Hcore as [Hbuf Htot Hcap Hbad]. split; try done. eapply buf_secs; [exact Hbuf|].
    intros b. unfold tcount. cbn [set_tab tab fw_busy]. rewrite Hb. cbn [busy_secs].
    rewrite (tab_secs_set _ _ p); [|apply Hl]. rewrite Hsec. pose proof (tab_secs_nonneg (tab d) b). lia.
  - done.
  - cbn [set_tab tab fw_busy]. split; try done; [| |by rewrite Hb].
    + apply (set_prog_inv (tab d) _ Ht i p); try done.
      * intros _. rewrite Hu. split; [done|]. split; [done|]. by apply (ti_users _ _ Ht i).
      * rewrite Hs. intros Hn. destruct Hn. apply Hl.
    + intros j x Hx Hxs. cbn in Hx. destruct (decide (j = i)) as [->|Hne].
      * rewrite list_lookup_insert_eq in Hx; [|by eapply lookup_lt_Some, (proj1 Hl)]. injection Hx as <-.
        rewrite Hs (proj2 Hl) in Hxs. done.
      * rewrite list_lookup_insert_ne in Hx; [|done]. by apply (Hfree j).
Qed.

Lemma proc_create_inv nl no d fd pid cmd_buf ok id :
  dinv nl no d -> fw_busy d = None -> dinv nl no (ane_t6021_proc_create_ioctl fd pid cmd_buf ok id d).1.
Proof.
  intros Hd Hb. unfold ane_t6021_proc_create_ioctl, ane_rtclient_create_process.
  destruct (quarantined d); [done|]. destruct (fds d !! fd) as [f|]; [|done]. destruct (negb _); [done|].
  pose proof (by_id_spec (tab d) _ (tb_inv _ _ _ _ (d_tabs _ _ _ _ _ Hd)) pid) as Hs.
  destruct (ane_t6021_progtab_by_id (tab d) pid) as [i|]; [|done]. destruct Hs as (p & Hl & _).
  rewrite (proj1 Hl). destruct (negb (proc_id p =? U32_MAX)); [done|]. destruct (negb cmd_buf); [done|].
  destruct (negb ok); [by apply dinv_quarantine|]. destruct (id =? U32_MAX); [done|].
  by apply (dinv_set_slot nl no d i p).
Qed.

(** ** Executing *)

Lemma set_io_core n T L d fd f b o :
  core None n T L d -> fds d !! fd = Some f -> b ∈ fd_bos f -> bos d !! b = Some o ->
  core None n T L (set_bos d (<[b := set_io o]> (bos d))).
Proof.
  intros [Hb Ht Hc Hbad] Hf Hin Ho.
  destruct (handle_ref _ _ _ _ _ _ _ _ _ Hb fd f b o Hf Hin Ho) as [Hown Hpos].
  destruct (live_not_parked _ _ _ _ _ _ _ _ _ Hb b o Ho ltac:(lia)) as [Hx HnL].
  destruct (bi_bo _ _ _ _ _ _ _ _ _ Hb b o Ho) as [Hr [Hs Hsn] Hp Hfr Hm _].
  split; cbn; try done.
  replace None with (if b_refcount (set_io o) =? 0 then Some b else None)
    by (cbn; by rewrite (proj2 (Z.eqb_neq _ _)); [|lia]).
  eapply (buf_update _ None n (bos d) (mem d) L (fds d) (vmas d) T Hb b o (set_io o)); cbn; try done.
  - by left.
  - intros k f' Hk. destruct (bi_fds _ _ _ _ _ _ _ _ _ Hb k f' Hk) as [Hnd Hall]. split; [done|].
    intros Hin'. destruct (Hall b Hin') as (q & Hq & <-). congruence.
  - by rewrite orb_true_r.
Qed.

Lemma exec_marks_spec n T d fd f ios cmd i xs :
  core None n T (p_list (bopool d)) d -> fds d !! fd = Some f -> zlen cmd = SZ_16K -> 0 <= i -> i + zlen xs <= 64 ->
  twp (exec_marks (fd_bos f) (d, ios, cmd, i) xs) (fun r =>
    let d' := match r with inl (d', _, _, _) => d' | inr d' => d' end in
    core None n T (p_list (bopool d')) d' /\ rest d' = rest d /\ bopool d' = bopool d).
Proof.
  revert d ios cmd i. induction xs as [|x xs IH]; intros d ios cmd i Hc Hf Hcmd Hi Hn; [done|].
  assert (zlen (x :: xs) = 1 + zlen xs) as Hz by (unfold zlen; cbn [length]; lia).
  pose proof (zlen_nonneg xs). cbn [exec_marks]. unfold exec_mark at 1.
  destruct (bo_find _ (bos d) (fd_bos f)) as [[b o]|] eqn:Hfd; [|done].
  apply bo_find_Some in Hfd as (Hin & Ho & _). destruct (_ <? _); [done|].
  destruct (put32_ok cmd (96 + i * 48) 1) as (c1 & -> & H1); [done|unfold SZ_16K; lia..|]. cbn [mbind res_bind].
  destruct (put32_ok c1 (96 + i * 48 + 4) (io_buffer_id x)) as (c2 & -> & H2); [done|unfold SZ_16K; lia..|]. cbn [mbind res_bind].
  destruct (put32_ok c2 (96 + i * 48 + 8) (io_type x)) as (c3 & -> & H3); [done|unfold SZ_16K; lia..|]. cbn [mbind res_bind].
  destruct (put64_ok c3 (96 + i * 48 + 24) (b_dma o)) as (c4 & -> & H4); [done|unfold SZ_16K; lia..|]. cbn [mbind res_bind].
  destruct (put64_ok c4 (96 + i * 48 + 32) (io_size x)) as (c5 & -> & H5); [done|unfold SZ_16K; lia..|]. cbn [mbind res_bind].
  eapply twp_mono; [apply IH; [by eapply (set_io_core n T _ d fd f b o)|done|done|lia|lia]|done].
Qed.

Lemma exec_begin_inv nl no d fd pid proc prio ios kmem copied cmd_buf :
  dinv nl no d -> fw_busy d = None ->
  twp (exec_begin fd pid proc prio ios kmem copied cmd_buf d) (fun r => dinv nl no r.1).
Proof.
  intros Hd Hb. unfold exec_begin. destruct (fds d !! fd) as [f|] eqn:Hf; [|done].
  destruct (_ || _ || _ || _) eqn:Hcnt; [done|]. destruct kmem; [|done]. destruct copied; [|done]. cbn [negb].
  destruct (SZ_16K <? _); [done|]. destruct (quarantined d); [done|]. destruct (negb cmd_buf); [done|].
  destruct (negb _); [done|].
  assert (zlen (replicate (Z.to_nat SZ_16K) 0) = SZ_16K) as H0
    by (rewrite zlen_replicate; reflexivity).
  revert H0. generalize (replicate (Z.to_nat SZ_16K) 0). intros c0 H0.
  destruct (put32_ok c0 8 pid) as (c1 & -> & H1); [done..|]. cbn [mbind res_bind].
  destruct (put32_ok c1 12 proc) as (c2 & -> & H2); [done..|]. cbn [mbind res_bind].
  destruct (put64_ok c2 16 0) as (c3 & -> & H3); [done..|]. cbn [mbind res_bind].
  destruct (put32_ok c3 24 prio) as (c4 & -> & H4); [done..|]. cbn [mbind res_bind].
  destruct (put64_ok c4 32 ANE_CALL_COOKIE) as (c5 & -> & H5); [done..|]. cbn [mbind res_bind].
  destruct (put32_ok c5 40 (zlen ios)) as (c6 & -> & H6); [done..|]. cbn [mbind res_bind].
  pose proof Hd as [Hcore Hpool Htabs]. apply twp_bind. eapply twp_mono.
  { apply (exec_marks_spec (9 * nl) (tcount d) d fd f [] c6 0 ios); try done.
    unfold MAX_BINDS in Hcnt. lia. }
  intros [[[[d1 bl] c7] j]|d1]; cbn zeta; intros (Hc1 & Hr1 & Hp1); cbn [twp fst].
  - pose proof (rest_eqs _ _ Hr1) as (Ef & _ & Et & _ & _ & Eb).
    assert (dinv nl no d1) as Hd1 by (eapply dinv_rest; [done|done|done|lia|by rewrite Hp1]).
    destruct Hd1 as [Hcore1 Hpool1 [T1 T2 T3 T4 _]]. split; [|done|by split].
    destruct Hcore1 as [Hbuf Htot Hcap Hbad]. split; try done. eapply buf_secs; [exact Hbuf|].
    intros b. rewrite (dinv_tcount_busy d1); [|congruence]. unfold tcount. cbn [set_busy tab fw_busy busy_secs].
    pose proof (tab_secs_nonneg (tab d1) b). lia.
  - eapply dinv_rest; [done|done|done|lia|by rewrite Hp1].
Qed.

Lemma exec_end_inv nl no d ok : dinv nl no d -> twp (exec_end ok d) (fun r => dinv nl no r.1).
Proof.
  intros Hd. unfold exec_end. destruct (fw_busy d) as [[]|]; try done. apply dinv_unbusy in Hd.
  destruct ok; [done|]. by apply dinv_quarantine.
Qed.

(** ** Unloading and closing *)

(** One section buffer is given back. *)
Lemma release_section_core n T d ob :
  core None n T (p_list (bopool d)) d -> pool_good (bopool d) -> n < 2 ^ 16 ->
  (forall b, ob = Some b -> 0 < T b) ->
  twp (release_section PAGE_SHIFT d ob) (fun d' =>
    core None n (fun b => T b - if decide (ob = Some b) then 1 else 0) (p_list (bopool d')) d' /\
    pool_good (bopool d') /\ rest d' = rest d).
Proof.
  intros Hcore Hg Hn HT. destruct ob as [b|]; cbn [release_section].
  2: { split; [|done]. eapply core_secs; [done|]. intros b. cbn beta. case_decide; [done|].
       destruct (bos d !! b) as [o|] eqn:Ho.
       - destruct (bi_bo _ _ _ _ _ _ _ _ _ (c_buf _ _ _ _ _ _ _ Hcore) b o Ho) as [_ [Hs _] _ _ _ _]. lia.
       - rewrite (bi_secs _ _ _ _ _ _ _ _ _ (c_buf _ _ _ _ _ _ _ Hcore) b Ho). lia. }
  specialize (HT b eq_refl). pose proof (c_buf _ _ _ _ _ _ _ Hcore) as Hb.
  destruct (bos d !! b) as [o|] eqn:Ho.
  2: { rewrite (bi_secs _ _ _ _ _ _ _ _ _ Hb b Ho) in HT. lia. }
  destruct (bi_bo _ _ _ _ _ _ _ _ _ Hb b o Ho) as [Hr [Hs Hsn] Hp Hfr Hm _].
  pose proof (hcount_range (fds d) b (b_owner o)). pose proof (vcount_nonneg (vmas d) b).
  rewrite (wrap_small 16 (b_prog_refs o - 1)); [|lia].
  eapply twp_mono; [eapply (kref_put_spec PAGE_SHIFT bo_total_max_mb n T
    (fun b' => T b' - if decide (Some b = Some b') then 1 else 0) d _ b o); cbn [set_bos bos mem total bopool bad_access fds vmas];
    try exact Ho; try reflexivity; try done; try lia|].
  all: try (destruct (b_prog_refs o - 1 =? 0) eqn:Hz; cbn; done).
  - intros b' Hne. destruct (decide (Some b = Some b')) as [He|]; [by injection He as ->|lia].
  - intros k f' Hk. destruct (bi_fds _ _ _ _ _ _ _ _ _ Hb k f' Hk) as [Hnd Hall]. split; [done|].
    intros Hin'. destruct (Hall b Hin') as (q & Hq & <-). assert (q = o) as -> by congruence.
    by destruct (b_prog_refs o - 1 =? 0).
  - destruct (b_prog_refs o - 1 =? 0) eqn:Hz; cbn; lia.
  - destruct (decide (Some b = Some b)) as [_|Hn0]; [|by destruct Hn0]. destruct (b_prog_refs o - 1 =? 0) eqn:Hz; cbn; lia.
  - destruct (b_prog_refs o - 1 =? 0) eqn:Hz; cbn; lia.
  - destruct (Z.eqb_spec (b_prog_refs o - 1) 0) as [Hz|Hz]; cbn.
    + rewrite Hz bool_decide_false; [done|lia].
    + rewrite Hp !bool_decide_true; [done|lia|lia].
Qed.

(** All section buffers of a program the firmware dropped. *)
Lemma release_secs_core n T d l :
  core None n T (p_list (bopool d)) d -> pool_good (bopool d) -> n < 2 ^ 16 -> (forall b, scount l b <= T b) ->
  twp (foldM (release_section PAGE_SHIFT) d l) (fun d' =>
    core None n (fun b => T b - scount l b) (p_list (bopool d')) d' /\ pool_good (bopool d') /\ rest d' = rest d).
Proof.
  revert T d. induction l as [|ob l IH]; intros T d Hc Hg Hn HT; cbn [foldM].
  { split; [|done]. eapply core_secs; [done|]. intros b. specialize (HT b). cbn in HT |- *. change (scount [] b) with 0 in *. lia. }
  apply twp_bind. eapply twp_mono; [apply (release_section_core n T d ob); try done|].
  { intros b ->. specialize (HT b). rewrite scount_cons decide_True in HT; [|done]. pose proof (scount_nonneg l b). lia. }
  intros d1 (Hc1 & Hg1 & Hr1). eapply twp_mono; [apply (IH _ d1 Hc1 Hg1 Hn)|].
  { intros b. specialize (HT b). rewrite scount_cons in HT. lia. }
  intros d2 (Hc2 & Hg2 & Hr2). split; [|by rewrite Hr2]. eapply core_secs; [exact Hc2|].
  intros b. specialize (HT b). rewrite scount_cons in HT |- *. lia.
Qed.

(** The state of a close: the ids still to drop, the table so far. *)
Record closing (n : Z) (d : drv) (G0 : gmap Z fdprogs) (ids : list Z) (t : progtab) (d1 : drv) : Prop := {
  cl_tab : tab_inv t (fun id => refs_of G0 id + if decide (id ∈ ids) then 1 else 0);
  cl_free i p : progs t !! i = Some p -> state p = PROG_FREE -> sec p = replicate 9 None;
  cl_core : core None n (tab_secs t) (p_list (bopool d1)) d1;
  cl_pool : pool_good (bopool d1);
  cl_fds : fds d1 = fds d;
  cl_busy : fw_busy d1 = None;
}.

Lemma close_refs G0 id ids id' :
  NoDup (id :: ids) ->
  unref1 (fun i => refs_of G0 i + if decide (i ∈ id :: ids) then 1 else 0) id id' =
  refs_of G0 id' + if decide (id' ∈ ids) then 1 else 0.
Proof.
  intros [Hnin _]%NoDup_cons. unfold unref1. destruct (Z.eqb_spec id' id) as [->|Hne].
  - destruct (decide (id ∈ id :: ids)) as [_|Hn]; [|destruct Hn; left].
    destruct (decide (id ∈ ids)); [done|lia].
  - destruct (decide (id' ∈ id :: ids)) as [H1|H1], (decide (id' ∈ ids)) as [H2|H2]; try lia.
    + apply elem_of_cons in H1 as [|]; done.
    + destruct H1. by right.
Qed.

(** A slot that keeps its sections, or that gives them up and is free. *)
Lemma closing_set n d G0 ids t d1 d2 i p q id :
  closing n d G0 (id :: ids) t d1 -> NoDup (id :: ids) -> progs t !! i = Some p ->
  tab_inv (set_prog t i q) (unref1 (fun i => refs_of G0 i + if decide (i ∈ id :: ids) then 1 else 0) id) ->
  (state q = PROG_FREE -> sec q = replicate 9 None) ->
  core None n (fun b => tab_secs t b - scount (sec p) b + scount (sec q) b) (p_list (bopool d2)) d2 ->
  pool_good (bopool d2) -> fds d2 = fds d -> fw_busy d2 = None ->
  closing n d G0 ids (set_prog t i q) d2.
Proof.
  intros [Ht Hfree Hc Hg Hf Hb] Hnd Hp Ht' Hq Hc2 Hg2 Hf2 Hb2. split; try done.
  - eapply tab_inv_ext; [|exact Ht']. intros id'. symmetry. by apply close_refs.
  - intros j x Hx Hs. cbn in Hx. destruct (decide (j = i)) as [->|Hne].
    + rewrite list_lookup_insert_eq in Hx; [|by eapply lookup_lt_Some]. injection Hx as <-. auto.
    + rewrite list_lookup_insert_ne in Hx; [|done]. by apply (Hfree j).
  - destruct Hc2 as [Hbuf Htot Hcap Hbad]. split; try done. eapply buf_secs; [exact Hbuf|].
    intros b. rewrite (tab_secs_set _ _ p); [|done].
    pose proof (scount_le_tab _ _ _ b Hp). pose proof (scount_nonneg (sec q) b). lia.
Qed.

Lemma unload_op_spec cmd_buf ans d p :
  exists d' ok, ane_t6021_prog_unload_op cmd_buf ans (Ret d) p = (Ret d', ok) /\ (d' = d \/ d' = quarantine d).
Proof.
  unfold ane_t6021_prog_unload_op. destruct (negb cmd_buf || quarantined d); [by exists d, false; auto|].
  destruct (_ && _); [by exists (quarantine d), false; auto|].
  destruct (negb _); [by exists (quarantine d), false; auto|]. by exists d, true; auto.
Qed.

Lemma close_step n d G0 id ids t d1 held uoc cmd_buf ans :
  closing n d G0 (id :: ids) t d1 -> NoDup (id :: ids) -> n < 2 ^ 16 ->
  exists t' d2 held', close_one uoc (close_ops PAGE_SHIFT cmd_buf ans) (t, Ret d1, held) id = (t', Ret d2, held') /\
    closing n d G0 ids t' d2.
Proof.
  intros Hcl Hnd Hn. pose proof Hcl as [Ht Hfree Hc Hg Hf Hb].
  pose proof (refs_of_bounds G0 id) as Hrb.
  set (refs := fun i => refs_of G0 i + if decide (i ∈ id :: ids) then 1 else 0) in *.
  assert (0 < refs id) as Hpos.
  { unfold refs. destruct (decide (id ∈ id :: ids)) as [_|Hn0]; [lia|destruct Hn0; left]. }
  destruct (close_one_spec uoc (close_ops PAGE_SHIFT cmd_buf ans) t refs (Ret d1) held id Ht Hpos)
    as (i & p & Hl & Hpid & Hu & Hspec).
  cbn zeta in Hspec. destruct (close_one uoc _ (t, Ret d1, held) id) as [[t' c'] held'].
  destruct Hspec as [Ht' Hcase]. exists t'.
  assert (forall q d2, sec q = sec p -> core None n (tab_secs t) (p_list (bopool d2)) d2 ->
            core None n (fun b => tab_secs t b - scount (sec p) b + scount (sec q) b) (p_list (bopool d2)) d2) as Hsame.
  { intros q d2 Hq Hc2. eapply core_secs; [exact Hc2|]. intros b. rewrite Hq. pose proof (tab_secs_nonneg t b). lia. }
  destruct (negb (refs id =? 1) || negb uoc).
  { destruct Hcase as (-> & -> & ->). exists d1, held. split; [done|].
    eapply (closing_set n d G0 ids t d1 d1 i p); try done; [apply Hl| |by apply Hsame].
    cbn. intros Hfr. rewrite (proj2 Hl) in Hfr. done. }
  destruct (unload_op_spec cmd_buf ans d1 (set_users p (users p - 1))) as (du & ok & Hun & Hdu).
  cbn [op_unload op_release close_ops] in Hcase. rewrite Hun in Hcase.
  assert (core None n (tab_secs t) (p_list (bopool du)) du /\ pool_good (bopool du) /\ fds du = fds d /\ fw_busy du = None)
    as (Hcu & Hgu & Hfu & Hbu).
  { destruct Hdu as [->| ->]; [done|]. split; [|done]. by destruct Hc. }
  destruct ok; destruct Hcase as (-> & -> & ->).
  - cbn [ane_t6021_prog_release_op set_users sec mbind res_bind].
    destruct (twp_ex _ _ (release_secs_core n (tab_secs t) du (sec p) Hcu Hgu Hn
                (fun b => scount_le_tab t i p b (proj1 Hl)))) as (d2 & Hrel & Hc2 & Hg2 & Hr2).
    rewrite Hrel. exists d2, held. split; [done|]. pose proof (rest_eqs _ _ Hr2) as (Ef2 & _ & _ & _ & _ & Eb2).
    eapply (closing_set n d G0 ids t d1 d2 i p); try done; [apply Hl| |congruence|congruence].
    eapply core_secs; [exact Hc2|]. intros b. cbn [prog0 sec]. rewrite scount_none.
    pose proof (scount_le_tab _ _ _ b (proj1 Hl)). lia.
  - exists du, (held + 1). split; [done|].
    eapply (closing_set n d G0 ids t d1 du i p); try done; [apply Hl|]. by apply Hsame.
Qed.

Lemma close_fold n d G0 ids t d1 held uoc cmd_buf ans :
  closing n d G0 ids t d1 -> NoDup ids -> n < 2 ^ 16 ->
  exists t' d2 held', foldl (close_one uoc (close_ops PAGE_SHIFT cmd_buf ans)) (t, Ret d1, held) ids =
    (t', Ret d2, held') /\ closing n d G0 [] t' d2.
Proof.
  revert t d1 held. induction ids as [|id ids IH]; intros t d1 held Hcl Hnd Hn.
  { by exists t, d1, held. }
  destruct (close_step n d G0 id ids t d1 held uoc cmd_buf ans Hcl Hnd Hn) as (t' & d2 & held' & Heq & Hcl').
  cbn [foldl]. rewrite Heq. apply IH; [done|by apply NoDup_cons in Hnd as [_ ?]|done].
Qed.

(** Every buffer on the list of a closing file. *)
Lemma drop_all_core n T d fd l ps :
  core None n T (p_list (bopool d)) d -> pool_good (bopool d) -> fds d !! fd = Some (Fd l ps) -> NoDup l ->
  twp (foldM (fun d b => ane_t6021_bo_drop PAGE_SHIFT fd b d) d l) (fun d' =>
    core None n T (p_list (bopool d')) d' /\ pool_good (bopool d') /\
    rest d' = rest (set_fds d (<[fd := Fd [] ps]> (fds d)))).
Proof.
  revert d. induction l as [|b l IH]; intros d Hc Hg Hf Hnd; cbn [foldM].
  { split; [done|]. split; [done|]. unfold rest. cbn. by rewrite insert_id. }
  apply NoDup_cons in Hnd as [Hnin Hnd].
  apply twp_bind. eapply twp_mono; [apply (bo_drop_core _ _ n T d fd (Fd (b :: l) ps) b Hc Hg Hf); left|].
  intros d1 (Hc1 & Hg1 & Hr1). cbn [fd_bos fd_progs] in Hr1.
  assert (filter (fun y => y <> b) (b :: l) = l) as Hfl.
  { rewrite filter_cons_False; [|naive_solver]. clear -Hnin. induction l as [|y l IH]; [done|].
    apply not_elem_of_cons in Hnin as [Hne Hnin]. rewrite filter_cons_True; [|done]. by rewrite IH. }
  rewrite Hfl in Hr1. pose proof (rest_eqs _ _ Hr1) as (Ef & Ev & Et & Eq & En & Eb). cbn in Ef.
  eapply twp_mono; [apply (IH d1 Hc1 Hg1); [by rewrite Ef lookup_insert_eq|done]|].
  intros d2 (Hc2 & Hg2 & Hr2). split; [done|]. split; [done|]. rewrite Hr2. unfold rest. cbn.
  by rewrite Ef Ev Et Eq En Eb insert_insert_eq.
Qed.

Lemma postclose_inv nl no d fd uoc cmd_buf ans :
  dinv nl no d -> fw_busy d = None -> 9 * nl < 2 ^ 16 ->
  twp (ane_t6021_postclose PAGE_SHIFT uoc cmd_buf ans fd d) (dinv nl no).
Proof.
  intros [Hcore Hpool [Ht Hfree Hnd Hsize _]] Hb Hn. unfold ane_t6021_postclose.
  destruct (fds d !! fd) as [f|] eqn:Hf; [|by split; [|done|split; try done; by rewrite Hb]].
  assert (progs_of d !! fd = Some (fd_progs f)) as HG by (unfold progs_of; by rewrite lookup_fmap Hf).
  set (G0 := delete fd (progs_of d)).
  assert (closing (9 * nl) d G0 (fd_progs f) (tab d) d) as Hcl.
  { split; try done.
    - eapply tab_inv_ext; [|exact Ht]. intros id. unfold G0. rewrite (refs_of_delete _ _ _ _ HG). lia.
    - eapply core_secs; [exact Hcore|]. intros b. rewrite dinv_tcount_busy; [|done].
      pose proof (tab_secs_nonneg (tab d) b). lia. }
  destruct (close_fold (9 * nl) d G0 (fd_progs f) (tab d) d 0 uoc cmd_buf ans Hcl (Hnd fd _ HG) Hn)
    as (t & d2 & held & Heq & [Ht2 Hfree2 Hc2 Hg2 Hf2 Hb2]).
  unfold ane_t6021_progtab_fd_close. rewrite Heq. cbn [mbind res_bind].
  assert (fds d2 !! fd = Some f) as Hfd2 by by rewrite Hf2.
  pose proof (core_progs (9 * nl) (tab_secs t) _ (set_tab d2 t) fd f [] (core_tab _ _ _ _ _ t Hc2) Hfd2) as Hc3.
  apply twp_bind. eapply twp_mono.
  { eapply (drop_all_core (9 * nl) (tab_secs t) _ fd (fd_bos f) []); [exact Hc3|done| |].
    - cbn. by rewrite lookup_insert_eq.
    - by apply (bi_fds _ _ _ _ _ _ _ _ _ (c_buf _ _ _ _ _ _ _ Hcore) fd f). }
  intros d4 (Hc4 & Hg4 & Hr4). pose proof (rest_eqs _ _ Hr4) as (Ef & _ & Et & _ & _ & Eb).
  cbn in Ef, Et, Eb. rewrite insert_insert_eq in Ef. cbn [twp]. split; cbn [set_fds bopool].
  - destruct Hc4 as [Hbuf Htot Hcap Hbad]. split; try done. cbn.
    eapply buf_secs; [eapply buf_fds; [exact Hbuf| |]|].
    + intros b k. rewrite Ef. unfold hcount. destruct (decide (k = fd)) as [->|Hne].
      * rewrite lookup_delete_eq lookup_insert_eq. cbn [fd_bos].
        destruct (decide (b ∈ [])) as [Hin|]; [by apply elem_of_nil in Hin|done].
      * by rewrite lookup_delete_ne ?lookup_insert_ne.
    + intros k f' Hk. apply lookup_delete_Some in Hk as [_ Hk].
      by apply (bi_fds _ _ _ _ _ _ _ _ _ Hbuf k f').
    + intros b. unfold tcount. cbn. rewrite Et Eb Hb2. cbn. pose proof (tab_secs_nonneg t b). lia.
  - done.
  - cbn [set_fds tab fw_busy]. rewrite Et Eb Hb2.
    assert (progs_of (set_fds d4 (delete fd (fds d4))) = G0) as ->.
    { unfold progs_of, G0. cbn. rewrite Ef delete_insert_eq Hf2. by rewrite fmap_delete. }
    split; try done.
    + eapply tab_inv_ext; [|exact Ht2]. intros id.
      cbn beta. destruct (decide (id ∈ [])) as [Hin|]; [by apply elem_of_nil in Hin|by rewrite Z.add_0_r].
    + intros k l Hk. apply lookup_delete_Some in Hk as [_ Hk]. by apply (Hnd k).
    + unfold G0. rewrite map_size_delete HG. cbn. lia.
Qed.
End progs.

(** ** The system *)

(** What can happen next: an ioctl or system call of some process, the
    firmware's answer, a write to a buffer, a new pool budget. *)
Inductive event :=
  | EvOpen (fd : Z) (kzalloc_ok : bool)
  | EvInit (s fd size : Z)
  | EvFree (fd handle : Z)
  | EvMmap (fd vm_pgoff size : Z) (mapped : status)
  | EvVmOpen (b : Z)
  | EvVmClose (b : Z)
  | EvWrite (a : Z) (c : bytes)
  | EvLoad (fd gc : Z) (secs : list section) (kmem copied cmd_buf : bool)
  | EvLoadEnd (ok : bool) (id : Z)
  | EvLookup (fd pad len : Z) (dg : bytes) (copied : bool)
  | EvProc (fd pid : Z) (cmd_buf ok : bool) (id : Z)
  | EvExec (fd pid proc priority : Z) (ios : list exec_arg) (kmem copied cmd_buf : bool)
  | EvExecEnd (ok : bool)
  | EvClose (fd : Z) (cmd_buf : bool) (ans : unload_answers)
  | EvSetMaxMb (v : Z).

Definition drv0 (mm mk : Z) : drv :=
  Drv ∅ ∅ 0 (ane_t6021_pool_init mm mk) ∅ [] progtab0 false 1 None false.

(** What the rest of the kernel guarantees: file pointers are fresh, a vma
    names a mapping, the firmware lock serialises, writes stay inside their
    buffer, and the firmware's new program ids are not in use. *)
Definition enabled (ev : event) (d : drv) : Prop :=
  match ev with
  | EvOpen fd _ => fds d !! fd = None
  | EvVmOpen b | EvVmClose b => b ∈ vmas d
  | EvWrite a c => exists c0, mem d !! a = Some c0 /\ zlen c = zlen c0
  | EvLookup fd _ _ _ _ => fw_busy d = None /\ is_Some (fds d !! fd)
  | EvLoad _ _ _ _ _ _ | EvProc _ _ _ _ _ | EvExec _ _ _ _ _ _ _ _ | EvClose _ _ _ => fw_busy d = None
  | EvLoadEnd ok id => ok = true -> fresh_id d id
  | EvSetMaxMb v => in_range 32 v
  | _ => True
  end.

Section system.
Context `{KernelAlloc} (PAGE_SHIFT bo_total_max_mb fw_alias_iova fw_size : Z) (unload_on_close : bool)
  (sha256 : bytes -> bytes).

Definition run_ioctl {A} (m : ioctl A) : res drv := r ← m; Ret r.1.

Definition run (ev : event) (d : drv) : res drv :=
  match ev with
  | EvOpen fd ok => Ret (ane_t6021_open fd ok d).1
  | EvInit s fd size =>
      run_ioctl (ane_t6021_bo_init_ioctl PAGE_SHIFT bo_total_max_mb fw_alias_iova fw_size s fd size d)
  | EvFree fd h => run_ioctl (ane_t6021_bo_free_ioctl PAGE_SHIFT fd h d)
  | EvMmap fd pgoff size mapped => run_ioctl (ane_t6021_mmap PAGE_SHIFT fd pgoff size mapped d)
  | EvVmOpen b => Ret (ane_t6021_vm_open b d)
  | EvVmClose b => ane_t6021_vm_close PAGE_SHIFT b d
  | EvWrite a c => Ret (set_mem d (<[a := c]> (mem d)) (total d))
  | EvLoad fd gc secs kmem copied cmd_buf => run_ioctl (prog_load_begin sha256 fd gc secs kmem copied cmd_buf d)
  | EvLoadEnd ok id => run_ioctl (prog_load_end ok id d)
  | EvLookup fd pad len dg copied => run_ioctl (ane_t6021_prog_lookup_ioctl fd pad len dg copied d)
  | EvProc fd pid cmd_buf ok id => Ret (ane_t6021_proc_create_ioctl fd pid cmd_buf ok id d).1
  | EvExec fd pid proc prio ios kmem copied cmd_buf =>
      run_ioctl (exec_begin fd pid proc prio ios kmem copied cmd_buf d)
  | EvExecEnd ok => run_ioctl (exec_end ok d)
  | EvClose fd cmd_buf ans => ane_t6021_postclose PAGE_SHIFT unload_on_close cmd_buf ans fd d
  | EvSetMaxMb v =>
      '(p, d) ← ane_t6021_bo_pool_max_mb_set PAGE_SHIFT (ane_t6021_pool_release_ent PAGE_SHIFT) v (bopool d) d;
      Ret (set_pool d p)
  end.

Inductive trace : drv -> list event -> drv -> Prop :=
  | trace_nil d : trace d [] d
  | trace_snoc d evs d1 ev d2 :
      trace d evs d1 -> enabled ev d1 -> run ev d1 = Ret d2 -> trace d (evs ++ [ev]) d2.

Definition is_load_ev (ev : event) : bool := match ev with EvLoad _ _ _ _ _ _ => true | _ => false end.
Definition is_open_ev (ev : event) : bool := match ev with EvOpen _ _ => true | _ => false end.
Definition count_ev (f : event -> bool) (evs : list event) : Z := sumz (fun ev => if f ev then 1 else 0) evs.

(** The section counter of a buffer has 16 bits and a program's user count 32:
    the theorems hold below these many loads and opens. *)
Definition bounded (evs : list event) : Prop :=
  count_ev is_load_ev evs <= 7281 /\ count_ev is_open_ev evs < U32_MAX.

End system.

Section preservation.
Context `{KernelAllocLaws} (PAGE_SHIFT bo_total_max_mb fw_alias_iova fw_size : Z) (unload_on_close : bool)
  (sha256 : bytes -> bytes).

Abbreviation run := (run PAGE_SHIFT bo_total_max_mb fw_alias_iova fw_size unload_on_close sha256).
Abbreviation trace := (trace PAGE_SHIFT bo_total_max_mb fw_alias_iova fw_size unload_on_close sha256).
Abbreviation dinv := (dinv PAGE_SHIFT bo_total_max_mb).

Lemma progtab0_lookup i p : progs progtab0 !! i = Some p -> p = prog0.
Proof. unfold progtab0, progs. intros Hp. by apply lookup_replicate in Hp as [-> _]. Qed.

Lemma drv0_inv mm mk : 0 <= bo_total_max_mb -> in_range 32 mm -> dinv 0 0 (drv0 mm mk).
Proof.
  intros Hcap Hmm. split.
  - split; cbn; try done; [|rewrite Z.shiftl_mul_pow2; lia]. split; try done.
    + constructor.
    + intros e He. by apply elem_of_nil in He.
    + intros b Hb. by apply elem_of_nil in Hb.
  - split; [|done]. split; [done|]. split; [done|]. cbn. lia.
  - cbn [drv0 tab fw_busy]. split; try done.
    + split; try done.
      * intros i p Hp _. by apply progtab0_lookup in Hp as ->.
      * intros i j p q [Hp Hs]. by apply progtab0_lookup in Hp as ->.
      * intros i j p q [Hp Hs]. by apply progtab0_lookup in Hp as ->.
      * intros i p [Hp Hs]. by apply progtab0_lookup in Hp as ->.
    + intros i p Hp _. by apply progtab0_lookup in Hp as ->.
Qed.

Lemma run_ioctl_spec {A} (m : ioctl A) Q : twp m (fun r => Q r.1) -> twp (run_ioctl m) Q.
Proof. intros Hm. unfold run_ioctl. apply twp_bind. by eapply twp_mono. Qed.

(** Rebuilding the invariant after a buffer operation that changed files or
    mappings but no program list. *)
Lemma dinv_bufs nl no d d' :
  dinv nl no d -> core PAGE_SHIFT bo_total_max_mb None (9 * nl) (tcount d) (p_list (bopool d')) d' ->
  pool_good PAGE_SHIFT (bopool d') -> progs_of d' = progs_of d -> tab d' = tab d -> fw_busy d' = fw_busy d ->
  dinv nl no d'.
Proof.
  intros [_ _ Ht] Hc Hg Hp Et Eb. split; [|done|by rewrite Et Eb Hp].
  assert (tcount d' = tcount d) as -> by (unfold tcount; by rewrite Et Eb). done.
Qed.

Lemma open_inv nl no d fd ok :
  dinv nl no d -> fds d !! fd = None -> dinv nl (no + 1) (ane_t6021_open fd ok d).1.
Proof.
  intros [Hcore Hg [Ht Hfree Hnd Hsize Hbusy]] Hfd. unfold ane_t6021_open.
  destruct ok; cbn [negb fst].
  2: { split; try done. split; try done. lia. }
  assert (progs_of d !! fd = None) as HG by (unfold progs_of; by rewrite lookup_fmap Hfd).
  split; cbn [set_fds bopool]; [|done|].
  - destruct Hcore as [Hbuf Htot Hcap Hbad]. split; try done. cbn. eapply buf_fds; [exact Hbuf| |].
    + intros b k. rewrite hcount_insert. destruct (Z.eqb_spec k fd) as [->|]; [|done].
      unfold hcount. rewrite Hfd. destruct (decide (b ∈ [])) as [Hin|]; [by apply elem_of_nil in Hin|done].
    + intros k f Hk. destruct (decide (k = fd)) as [->|Hne].
      * rewrite lookup_insert_eq in Hk. injection Hk as <-. constructor.
      * rewrite lookup_insert_ne in Hk; [|done]. by apply (bi_fds _ _ _ _ _ _ _ _ _ Hbuf k f).
  - assert (progs_of (set_fds d (<[fd := Fd [] []]> (fds d))) = <[fd := []]> (progs_of d)) as ->.
    { unfold progs_of. cbn. by rewrite fmap_insert. }
    cbn [set_fds tab fw_busy]. split; try done.
    + eapply tab_inv_ext; [|exact Ht]. intros id. unfold refs_of. rewrite msum_insert; [|done].
      destruct (decide (id ∈ [])) as [Hin|]; [by apply elem_of_nil in Hin|lia].
    + intros k l Hk. destruct (decide (k = fd)) as [->|Hne].
      * rewrite lookup_insert_eq in Hk. injection Hk as <-. constructor.
      * rewrite lookup_insert_ne in Hk; [|done]. by apply (Hnd k).
    + rewrite map_size_insert_None; [|done]. lia.
    + destruct (fw_busy d) as [[fd' dg slots cmd|]|]; try done. destruct Hbusy as ([l Hl] & Hrest).
      split; [|done]. rewrite lookup_insert_ne; [by exists l|]. congruence.
Qed.

Lemma free_inv nl no d fd h :
  dinv nl no d -> twp (ane_t6021_bo_free_ioctl PAGE_SHIFT fd h d) (fun r => dinv nl no r.1).
Proof.
  intros Hd. unfold ane_t6021_bo_free_ioctl. destruct (fds d !! fd) as [f|] eqn:Hf; [|done].
  destruct (bo_find _ _ _) as [[b o]|] eqn:Hfd; [|done]. apply bo_find_Some in Hfd as (Hin & _ & _).
  apply twp_bind. eapply twp_mono; [apply (bo_drop_core PAGE_SHIFT bo_total_max_mb (9 * nl) (tcount d) d fd f b); try done; apply Hd|].
  intros d' (Hc & Hg & Hr). pose proof (rest_eqs _ _ Hr) as (Ef & _ & Et & _ & _ & Eb). cbn [twp fst].
  eapply (dinv_bufs nl no d); try done. unfold progs_of. rewrite Ef. cbn. by apply progs_of_insert.
Qed.

Lemma vm_open_inv nl no d b o :
  dinv nl no d -> bos d !! b = Some o -> 0 < b_refcount o -> dinv nl no (set_vmas (kref_get b d) (b :: vmas d)).
Proof.
  intros Hd Ho Hpos. destruct (vm_open_core PAGE_SHIFT bo_total_max_mb (9 * nl) (tcount d) d b o (d_core _ _ _ _ _ Hd) Ho Hpos) as (Hc & Hr & Hp).
  pose proof (rest_eqs _ _ Hr) as (Ef & _ & Et & _ & _ & Eb).
  eapply (dinv_bufs nl no d); try done; cbn [set_vmas bopool]; rewrite ?Hp; try done; [apply Hd|].
  unfold progs_of. by rewrite Ef.
Qed.

Lemma mmap_inv nl no d fd pgoff size mapped :
  dinv nl no d -> twp (ane_t6021_mmap PAGE_SHIFT fd pgoff size mapped d) (fun r => dinv nl no r.1).
Proof.
  intros Hd. unfold ane_t6021_mmap. destruct (fds d !! fd) as [f|] eqn:Hf; [|done].
  destruct (_ =? 0); [done|]. destruct (bo_find _ _ _) as [[b o]|] eqn:Hfd; [|done].
  apply bo_find_Some in Hfd as (Hin & Ho & _).
  destruct (handle_ref _ _ _ _ _ _ _ _ _ (c_buf _ _ _ _ _ _ _ (d_core _ _ _ _ _ Hd)) fd f b o Hf Hin Ho) as [_ Hpos].
  rewrite !(get_put_id PAGE_SHIFT d b o Ho Hpos). cbn [mbind res_bind].
  destruct (_ <? _); [done|]. destruct mapped; [done|]. cbn [twp fst].
  replace (vmas (kref_get b d)) with (vmas d) by (unfold kref_get; by rewrite Ho).
  by eapply vm_open_inv.
Qed.

Lemma set_max_inv nl no d v :
  dinv nl no d -> in_range 32 v -> twp (run (EvSetMaxMb v) d) (dinv nl no).
Proof.
  intros Hd Hv. pose proof Hd as [Hcore (Hwf & Hmax & Hsec) Htabs].
  unfold T6021Sys.run, ane_t6021_bo_pool_max_mb_set.
  set (p := Pool (p_list (bopool d)) (sec_bytes (bopool d)) v (min_kb (bopool d))).
  assert (pool_good PAGE_SHIFT p) as Hg by done.
  destruct (v =? 0).
  2: { cbn [mbind res_bind twp]. eapply (dinv_bufs nl no d); try done. by eapply core_ext. }
  destruct (twp_ex _ _ (drain_spec PAGE_SHIFT (ane_t6021_pool_release_ent PAGE_SHIFT) 0 p d Hwf))
    as ([p' d'] & Hdr & k & Hev & _ & _).
  rewrite Hdr. cbn [mbind res_bind twp]. apply (evicted_good _ _ _ _ Hg) in Hev as Hg'.
  unshelve epose proof (drain_preserves PAGE_SHIFT (ane_t6021_pool_release_ent PAGE_SHIFT)
    (fun l c => core PAGE_SHIFT bo_total_max_mb None (9 * nl) (tcount d) l c /\ rest c = rest d) _ _ _ _ _ _ Hdr) as [Hc Hr].
  { intros l1 e l2 c _ [H1 H2]. destruct (release_ent_core _ _ _ _ _ _ _ _ _ H1) as (Hc1 & Hr1 & _).
    split; [done|congruence]. }
  { done. }
  pose proof (rest_eqs _ _ Hr) as (Ef & _ & Et & _ & _ & Eb).
  eapply (dinv_bufs nl no d); try done; [by eapply core_ext|]. unfold progs_of. cbn. by rewrite Ef.
Qed.

Lemma init_inv nl no d s fd size :
  0 <= nl -> dinv nl no d ->
  twp (ane_t6021_bo_init_ioctl PAGE_SHIFT bo_total_max_mb fw_alias_iova fw_size s fd size d) (fun r => dinv nl no r.1).
Proof.
  intros Hn Hd. eapply twp_mono; [apply (bo_init_spec PAGE_SHIFT bo_total_max_mb fw_alias_iova fw_size (9 * nl) (tcount d)); [lia|apply Hd..]|].
  intros [d' r] (Hc & Hg & Hr). cbn [fst]. destruct r as [h|e].
  - destruct Hr as (f & b & o & Hf & _ & _ & _ & _ & Ef & _ & Et & _ & Eb & _).
    eapply (dinv_bufs nl no d); try done. unfold progs_of. rewrite Ef. by apply progs_of_insert.
  - eapply (dinv_rest _ _ nl no d); try done.
Qed.

(** Every event that can happen completes and keeps the invariant. *)
Lemma run_inv ev d nl no :
  0 <= nl -> dinv nl no d -> enabled ev d ->
  9 * (nl + if is_load_ev ev then 1 else 0) < 2 ^ 16 -> no + (if is_open_ev ev then 1 else 0) < U32_MAX ->
  twp (run ev d) (dinv (nl + if is_load_ev ev then 1 else 0) (no + if is_open_ev ev then 1 else 0)).
Proof.
  intros Hnl Hd Hen Hl Ho.
  destruct ev; cbn [is_load_ev is_open_ev] in *; rewrite ?Z.add_0_r; rewrite ?Z.add_0_r in Hl, Ho; cbn [enabled] in Hen.
  - by apply open_inv.
  - by apply run_ioctl_spec, init_inv.
  - by apply run_ioctl_spec, free_inv.
  - by apply run_ioctl_spec, mmap_inv.
  - cbn. unfold ane_t6021_vm_open.
    pose proof (c_buf _ _ _ _ _ _ _ (d_core _ _ _ _ _ Hd)) as Hb.
    destruct (bi_vmas _ _ _ _ _ _ _ _ _ Hb b Hen) as [o Hob].
    replace (vmas (kref_get b d)) with (vmas d) by (unfold kref_get; by rewrite Hob).
    eapply vm_open_inv; [done|done|].
    destruct (bi_bo _ _ _ _ _ _ _ _ _ Hb b o Hob) as [Hr Hs _ _ _ _].
    apply vcount_pos in Hen. pose proof (hcount_range (fds d) b (b_owner o)). lia.
  - eapply twp_mono; [apply (vm_close_core PAGE_SHIFT bo_total_max_mb (9 * nl) (tcount d)); try done; apply Hd|].
    intros d' (Hc & Hg & Hr). pose proof (rest_eqs _ _ Hr) as (Ef & _ & Et & _ & _ & Eb).
    eapply (dinv_bufs nl no d); try done. unfold progs_of. by rewrite Ef.
  - destruct Hen as (c0 & Ha & Hz). destruct Hd as [[Hbuf Htot Hcap Hbad] Hg Ht]. cbn. split; [|done|done].
    split; cbn; try done; [by eapply buf_mem|]. unfold mem_bytes in *. rewrite (msum_update _ _ _ c0); [lia|done].
  - apply run_ioctl_spec, prog_load_begin_inv; [done|done|lia|lia].
  - by apply run_ioctl_spec, prog_load_end_inv.
  - destruct Hen as [Hb Hf]. by apply run_ioctl_spec, prog_lookup_inv.
  - by apply proc_create_inv.
  - by apply run_ioctl_spec, exec_begin_inv.
  - by apply run_ioctl_spec, exec_end_inv.
  - by apply postclose_inv.
  - by apply set_max_inv.
Qed.

Lemma count_ev_snoc f evs ev : count_ev f (evs ++ [ev]) = count_ev f evs + if f ev then 1 else 0.
Proof. unfold count_ev. rewrite sumz_app. cbn. lia. Qed.

Lemma count_ev_nonneg f evs : 0 <= count_ev f evs.
Proof. apply (sumz_bounds _ _ 1). intros ev _. destruct (f ev); lia. Qed.

Lemma trace_inv mm mk evs d :
  0 <= bo_total_max_mb -> in_range 32 mm -> trace (drv0 mm mk) evs d -> bounded evs ->
  dinv (count_ev is_load_ev evs) (count_ev is_open_ev evs) d.
Proof.
  intros Hcap Hmm Htr. remember (drv0 mm mk) as d0 eqn:Hd0. induction Htr as [d0|d0 evs d1 ev d2 _ IH Hen Hrun]; intros Hbd.
  { subst. by apply drv0_inv. }
  unfold bounded in Hbd. rewrite !count_ev_snoc in Hbd |- *. unfold U32_MAX in *.
  pose proof (count_ev_nonneg is_load_ev evs).
  assert (bounded evs) as Hbd0 by (unfold bounded, U32_MAX; destruct (is_load_ev ev), (is_open_ev ev); lia).
  specialize (IH Hd0 Hbd0).
  assert (twp (run ev d1) (dinv (count_ev is_load_ev evs + if is_load_ev ev then 1 else 0)
                                (count_ev is_open_ev evs + if is_open_ev ev then 1 else 0))) as Hr.
  { apply run_inv; try done; unfold U32_MAX; lia. }
  by rewrite Hrun in Hr.
Qed.
End preservation.

(** An allocator for the examples: the next address above all others. *)
Definition next_key (l : list Z) : Z := 1 + foldr Z.max 0 l.

Lemma next_key_fresh l k : k ∈ l -> k < next_key l.
Proof.
  unfold next_key. induction l as [|y l IH]; intros Hk; [by apply elem_of_nil in Hk|].
  apply elem_of_cons in Hk as [->|Hk]; cbn [foldr]; [lia|]. specialize (IH Hk). lia.
Qed.

#[global] Instance bump_alloc : KernelAlloc := {|
  kzalloc _ m := Some (next_key (map_to_list m).*1);
  dma_alloc _ m _ := Some (0x4000 * next_key ((fun kv => kv.1 / 0x4000) <$> map_to_list m));
|}.

#[global] Instance bump_alloc_laws : KernelAllocLaws.
Proof.
  split.
  - intros s m a [= <-]. destruct (m !! _) as [o|] eqn:Ho; [|done]. apply elem_of_map_to_list in Ho.
    apply (list_elem_of_fmap_2 fst), next_key_fresh in Ho. cbn in Ho. lia.
  - intros s m size a [= <-]. destruct (m !! _) as [o|] eqn:Ho; [|done]. apply elem_of_map_to_list in Ho.
    apply (list_elem_of_fmap_2 (fun kv => kv.1 / 0x4000)), next_key_fresh in Ho. cbn [fst] in Ho.
    rewrite Z.mul_comm Z.div_mul in Ho; lia.
Qed.

(** Runs of events whose side conditions are decided by evaluation. *)
Definition enabled_b (ev : event) (d : drv) : bool :=
  match ev with
  | EvOpen fd _ => bool_decide (fds d !! fd = None)
  | EvVmOpen b | EvVmClose b => bool_decide (b ∈ vmas d)
  | EvWrite a c => match mem d !! a with Some c0 => zlen c =? zlen c0 | None => false end
  | EvLookup fd _ _ _ _ =>
      match fw_busy d, fds d !! fd with None, Some _ => true | _, _ => false end
  | EvLoad _ _ _ _ _ _ | EvProc _ _ _ _ _ | EvExec _ _ _ _ _ _ _ _ | EvClose _ _ _ =>
      match fw_busy d with None => true | _ => false end
  | EvLoadEnd ok id =>
      negb ok || forallb (fun p => negb (is_live p) || negb (prog_id p =? id)) (progs (tab d))
  | EvSetMaxMb v => (0 <=? v) && (v <? 2 ^ 32)
  | _ => true
  end.

Lemma enabled_b_spec ev d : enabled_b ev d = true -> enabled ev d.
Proof.
  destruct ev; cbn [enabled enabled_b]; intros Hb; try done; try (by apply bool_decide_eq_true in Hb);
    try (by destruct (fw_busy d)).
  - destruct (mem d !! a) as [c0|]; [|done]. exists c0. split; [done|lia].
  - intros -> i p [Hp Hl] Hid. cbn [negb orb] in Hb. rewrite forallb_forall in Hb.
    specialize (Hb p). rewrite -list_elem_of_In in Hb. specialize (Hb (list_elem_of_lookup_2 _ _ _ Hp)).
    unfold is_live in Hb. rewrite bool_decide_true in Hb; [|done]. rewrite Hid Z.eqb_refl in Hb. done.
  - destruct (fw_busy d); [done|]. destruct (fds d !! fd); [|done]. by split; [|eexists].
  - unfold in_range. lia.
Qed.

Section exec.
Context `{KernelAlloc} (PAGE_SHIFT cap al fs : Z) (uoc : bool) (sha : bytes -> bytes).

Fixpoint exec_events (evs : list event) (d : drv) : option drv :=
  match evs with
  | [] => Some d
  | ev :: evs =>
      if enabled_b ev d then
        match run PAGE_SHIFT cap al fs uoc sha ev d with
        | Ret d => exec_events evs d
        | _ => None
        end
      else None
  end.

Lemma exec_events_trace d0 evs0 evs d d' :
  trace PAGE_SHIFT cap al fs uoc sha d0 evs0 d -> exec_events evs d = Some d' ->
  trace PAGE_SHIFT cap al fs uoc sha d0 (evs0 ++ evs) d'.
Proof.
  revert evs0 d. induction evs as [|ev evs IH]; intros evs0 d Htr He; cbn [exec_events] in He.
  { injection He as <-. by rewrite app_nil_r. }
  destruct (enabled_b ev d) eqn:Hen; [|done]. apply enabled_b_spec in Hen.
  destruct (run _ _ _ _ _ _ ev d) as [d1| |] eqn:Hr; try done.
  rewrite (app_assoc evs0 [ev] evs). eapply IH; [|done]. by eapply trace_snoc.
Qed.
End exec.

(** ** Properties *)

(** A buffer that something names: its object and its memory are allocated,
    it is counted, and it is not in the pool. *)
Definition buffer_held (PAGE_SHIFT : Z) (d : drv) (b : Z) : Prop :=
  exists o c, bos d !! b = Some o /\ mem d !! b_dma o = Some c /\ zlen c = page_align PAGE_SHIFT (b_size o) /\
    0 < b_refcount o /\ forall e, e ∈ p_list (bopool d) -> ent_id e <> b.

Lemma held_ref PAGE_SHIFT cap nl no d b o :
  dinv PAGE_SHIFT cap nl no d -> bos d !! b = Some o -> 0 < b_refcount o -> buffer_held PAGE_SHIFT d b.
Proof.
  intros Hd Ho Hpos. pose proof (c_buf _ _ _ _ _ _ _ (d_core _ _ _ _ _ Hd)) as Hb.
  destruct (bi_bo _ _ _ _ _ _ _ _ _ Hb b o Ho) as [_ _ _ _ (c & Hm & Hl) _].
  destruct (live_not_parked _ _ _ _ _ _ _ _ _ Hb b o Ho ltac:(lia)) as [_ Hn]. by exists o, c.
Qed.

Lemma held_secs PAGE_SHIFT cap nl no d b :
  dinv PAGE_SHIFT cap nl no d -> 0 < tcount d b -> buffer_held PAGE_SHIFT d b.
Proof.
  intros Hd Ht. pose proof (c_buf _ _ _ _ _ _ _ (d_core _ _ _ _ _ Hd)) as Hb.
  destruct (bos d !! b) as [o|] eqn:Ho; [|rewrite (bi_secs _ _ _ _ _ _ _ _ _ Hb b Ho) in Ht; lia].
  eapply held_ref; [done|done|]. destruct (bi_bo _ _ _ _ _ _ _ _ _ Hb b o Ho) as [Hr [Hs _] _ _ _ _].
  pose proof (hcount_range (fds d) b (b_owner o)). pose proof (vcount_nonneg (vmas d) b). lia.
Qed.

Lemma scount_pos l b : Some b ∈ l -> 0 < scount l b.
Proof.
  induction l as [|s l IH]; intros Hin; [by apply elem_of_nil in Hin|]. rewrite scount_cons.
  pose proof (scount_nonneg l b). apply elem_of_cons in Hin as [<-|Hin].
  - destruct (decide (Some b = Some b)); [lia|done].
  - specialize (IH Hin). case_decide; lia.
Qed.

(** C5. From the initial state, after any sequence of ioctls, mappings,
    closes, firmware answers and pool evictions, with buffer calls running
    while a firmware command is in flight: no freed object was used, every
    section buffer of a loaded program, of a program whose unload failed, and
    of a load in flight is still allocated and out of the pool; so is every
    buffer a file or a mapping names; and the bytes charged are the bytes
    allocated, within the cap. *)
Theorem t6021_memory_safe `{KernelAllocLaws} PAGE_SHIFT cap al fs uoc sha mm mk evs d :
  0 <= cap -> in_range 32 mm -> bounded evs ->
  trace PAGE_SHIFT cap al fs uoc sha (drv0 mm mk) evs d ->
  bad_access d = false /\
  (forall i p b, progs (tab d) !! i = Some p -> Some b ∈ sec p -> buffer_held PAGE_SHIFT d b) /\
  (forall fd dg slots cmd b, fw_busy d = Some (FwLoad fd dg slots cmd) -> Some b ∈ slots -> buffer_held PAGE_SHIFT d b) /\
  (forall fd f b, fds d !! fd = Some f -> b ∈ fd_bos f -> buffer_held PAGE_SHIFT d b) /\
  (forall b, b ∈ vmas d -> buffer_held PAGE_SHIFT d b) /\
  total d = mem_bytes (mem d) /\ total d <= cap * 2 ^ 20.
Proof.
  intros Hcap Hmm Hbd Htr. pose proof (trace_inv _ _ _ _ _ _ _ _ _ _ Hcap Hmm Htr Hbd) as Hd.
  pose proof (c_buf _ _ _ _ _ _ _ (d_core _ _ _ _ _ Hd)) as Hb.
  destruct (d_core _ _ _ _ _ Hd) as [_ Htot Hc Hbad]. rewrite Z.shiftl_mul_pow2 in Hc; [|lia].
  split; [done|]. split; [|split; [|split; [|split; [|done]]]].
  - intros i p b Hp Hin. eapply held_secs; [done|]. apply scount_pos in Hin.
    pose proof (scount_le_tab _ _ _ b Hp). unfold tcount.
    assert (0 <= busy_secs (fw_busy d) b); [|lia]. destruct (fw_busy d) as [[]|]; try done. apply scount_nonneg.
  - intros fd dg slots cmd b Hbusy Hin. eapply held_secs; [done|]. apply scount_pos in Hin.
    unfold tcount. rewrite Hbusy. cbn [busy_secs]. pose proof (tab_secs_nonneg (tab d) b). lia.
  - intros fd f b Hf Hin. destruct (bi_fds _ _ _ _ _ _ _ _ _ Hb fd f Hf) as [_ Hall].
    destruct (Hall b Hin) as (o & Ho & _). eapply held_ref; [done|done|].
    by destruct (handle_ref _ _ _ _ _ _ _ _ _ Hb fd f b o Hf Hin Ho).
  - intros b Hin. destruct (bi_vmas _ _ _ _ _ _ _ _ _ Hb b Hin) as [o Ho]. eapply held_ref; [done|done|].
    destruct (bi_bo _ _ _ _ _ _ _ _ _ Hb b o Ho) as [Hr [Hs _] _ _ _ _]. apply vcount_pos in Hin.
    pose proof (hcount_range (fds d) b (b_owner o)). lia.
Qed.

(** File 1 loads a program from its first buffer and runs it on the second;
    while the call is in flight file 1 frees the second buffer and file 2 asks
    for one of the same size. *)
Definition demo_sha (_ : bytes) : bytes := replicate 32 7.

Definition demo_load : list event :=
  [EvOpen 1 true; EvInit 0 1 20000; EvInit 0 1 16384;
   EvLoad 1 0 [Section 1 1 0 64] true true true; EvLoadEnd true 5; EvProc 1 5 true true 9; EvOpen 2 true].

Definition demo_exec : list event :=
  demo_load ++ [EvExec 1 5 9 2 [ExecIo 0 0 2 16384] true true true; EvFree 1 2; EvInit 0 2 16384].

Abbreviation demo_trace := (trace 14 64 0 0 true demo_sha (drv0 1 16)).

Definition demo_run (evs : list event) : option drv := exec_events 14 64 0 0 true demo_sha evs (drv0 1 16).

(** A trace whose last state satisfies a test. *)
Definition demo_test (evs : list event) (f : drv -> bool) : bool :=
  match demo_run evs with Some d => f d | None => false end.

Lemma demo_reaches evs f : demo_test evs f = true -> exists d, demo_trace evs d /\ f d = true.
Proof.
  unfold demo_test, demo_run. intros Ht.
  destruct (exec_events 14 64 0 0 true demo_sha evs (drv0 1 16)) as [d|] eqn:He; [|done]. exists d. split; [|done].
  by apply (exec_events_trace 14 64 0 0 true demo_sha (drv0 1 16) [] evs (drv0 1 16)); [constructor|].
Qed.

Definition demo_loaded (d : drv) : bool :=
  match progs (tab d) with
  | p :: _ => is_live p && bool_decide (sec p !! 0%nat = Some (Some 1))
  | _ => false
  end.

Lemma demo_loaded_spec d :
  demo_loaded d = true -> exists p, progs (tab d) !! 0%nat = Some p /\ state p = PROG_LIVE /\ Some 1 ∈ sec p.
Proof.
  unfold demo_loaded. destruct (progs (tab d)) as [|p l]; [done|]. intros [Hl Hs]%andb_prop.
  apply bool_decide_eq_true in Hl, Hs. exists p. split; [done|]. split; [done|]. by eapply list_elem_of_lookup_2.
Qed.

Lemma t6021_memory_safe_witness : exists d, demo_trace demo_load d /\ buffer_held 14 d 1.
Proof.
  destruct (demo_reaches demo_load demo_loaded) as (d & Htr & Hl); [vm_compute; reflexivity|].
  destruct (demo_loaded_spec d Hl) as (p & Hp & _ & Hin).
  exists d. split; [exact Htr|].
  apply (t6021_memory_safe 14 64 0 0 true demo_sha 1 16 demo_load d ltac:(lia) ltac:(unfold in_range; lia)
           ltac:(unfold bounded; vm_compute; split; [discriminate|reflexivity]) Htr) with (i := 0%nat) (p := p);
    [exact Hp|exact Hin].
Defined.



(** C38. In every reachable state, every ioctl, mapping call, close and
    firmware answer runs to its end: the eviction and retry loops stop, the
    command buffer is large enough, and the table slot a load was promised is
    there. *)
Theorem t6021_events_complete `{KernelAllocLaws} PAGE_SHIFT cap al fs uoc sha mm mk evs d ev :
  0 <= cap -> in_range 32 mm -> bounded (evs ++ [ev]) ->
  trace PAGE_SHIFT cap al fs uoc sha (drv0 mm mk) evs d -> enabled ev d ->
  exists d', run PAGE_SHIFT cap al fs uoc sha ev d = Ret d' /\ bad_access d' = false.
Proof.
  intros Hcap Hmm Hbd Htr Hen. unfold bounded, U32_MAX in Hbd. rewrite !count_ev_snoc in Hbd.
  assert (bounded evs) as Hbd0 by (unfold bounded, U32_MAX; destruct (is_load_ev ev), (is_open_ev ev); lia).
  pose proof (trace_inv _ _ _ _ _ _ _ _ _ _ Hcap Hmm Htr Hbd0) as Hd.
  pose proof (count_ev_nonneg is_load_ev evs).
  destruct (twp_ex _ _ (run_inv PAGE_SHIFT cap al fs uoc sha ev d (count_ev is_load_ev evs) (count_ev is_open_ev evs)
              ltac:(lia) Hd Hen ltac:(lia)
              ltac:(unfold U32_MAX; lia))) as (d' & Hr & Hd').
  exists d'. split; [done|]. apply (c_bad _ _ _ _ _ _ _ (d_core _ _ _ _ _ Hd')).
Qed.

Lemma t6021_events_complete_witness :
  exists d d', demo_trace demo_load d /\
    run 14 64 0 0 true demo_sha (EvClose 1 true (Answers (fun _ => true) (fun _ => false))) d = Ret d' /\
    bad_access d' = false.
Proof.
  destruct (demo_reaches demo_load (fun d => match fw_busy d with None => true | _ => false end))
    as (d & Htr & Hb); [vm_compute; reflexivity|].
  exists d. destruct (t6021_events_complete 14 64 0 0 true demo_sha 1 16 demo_load d
    (EvClose 1 true (Answers (fun _ => true) (fun _ => false))) ltac:(lia) ltac:(unfold in_range; lia)
    ltac:(unfold bounded; vm_compute; split; [discriminate|reflexivity]) Htr) as (d' & Hr & Hbad).
  { cbn [enabled]. destruct (fw_busy d); [discriminate Hb|reflexivity]. }
  exists d'. split; [exact Htr|]. split; [exact Hr|exact Hbad].
Defined.

(** A handle that [BO_INIT] returns names a buffer of the page-rounded size
    whose bytes are all zero and that no other file, no mapping and no program
    of the table names, whether it was allocated or taken from the pool. *)
Theorem t6021_bo_init_exclusive `{KernelAllocLaws} PAGE_SHIFT cap al fs uoc sha mm mk evs d s fd size d' h :
  0 <= cap -> in_range 32 mm -> bounded evs ->
  trace PAGE_SHIFT cap al fs uoc sha (drv0 mm mk) evs d ->
  ane_t6021_bo_init_ioctl PAGE_SHIFT cap al fs s fd size d = Ret (d', inl h) ->
  exists b o f, bos d' !! b = Some o /\ b_handle o = h /\ fds d' !! fd = Some f /\ b ∈ fd_bos f /\
    mem d' !! b_dma o = Some (replicate (Z.to_nat (page_align PAGE_SHIFT size)) 0) /\
    (forall fd' f', fds d' !! fd' = Some f' -> b ∈ fd_bos f' -> fd' = fd) /\ b ∉ vmas d' /\
    (forall i p, progs (tab d') !! i = Some p -> Some b ∉ sec p).
Proof.
  intros Hcap Hmm Hbd Htr Hinit. pose proof (trace_inv _ _ _ _ _ _ _ _ _ _ Hcap Hmm Htr Hbd) as Hd.
  pose proof (count_ev_nonneg is_load_ev evs).
  pose proof (bo_init_spec PAGE_SHIFT cap al fs (9 * count_ev is_load_ev evs) (tcount d) d s size fd ltac:(lia)
                (d_core _ _ _ _ _ Hd) (d_pool _ _ _ _ _ Hd)) as Hspec.
  rewrite Hinit in Hspec. destruct Hspec as (Hc & _ & f & b & o & Hf & Ho & Hh & Hown & Hone & Ef & _ & Et & _ & Eb & Hm).
  pose proof (c_buf _ _ _ _ _ _ _ Hc) as Hb. exists b, o, (Fd (fd_bos f ++ [b]) (fd_progs f)).
  assert (b ∈ fd_bos f ++ [b]) as Hin by (apply elem_of_app; right; by apply list_elem_of_singleton).
  destruct (bi_bo _ _ _ _ _ _ _ _ _ Hb b o Ho) as [Hr [Hs _] _ _ _ _].
  rewrite Hown Hone Ef hcount_insert Z.eqb_refl in Hr.
  destruct (decide (b ∈ fd_bos f ++ [b])) as [_|]; [|done]. pose proof (vcount_nonneg (vmas d') b).
  repeat split; try done.
  - by rewrite Ef lookup_insert_eq.
  - intros fd' f' Hf' Hin'. destruct (bi_fds _ _ _ _ _ _ _ _ _ Hb fd' f' Hf') as [_ Hall].
    destruct (Hall b Hin') as (o' & Ho' & <-). congruence.
  - intros Hv. apply vcount_pos in Hv. lia.
  - intros i p Hp Hsec. rewrite Et in Hp. apply scount_pos in Hsec. pose proof (scount_le_tab _ _ _ b Hp).
    assert (0 <= busy_secs (fw_busy d) b) by (destruct (fw_busy d) as [[]|]; try done; apply scount_nonneg).
    unfold tcount in Hs. lia.
Qed.

(** The io buffer of the demo, freed and asked for again by another file. *)
Lemma t6021_bo_init_exclusive_witness :
  exists d d' h b, demo_trace (demo_load ++ [EvFree 1 2]) d /\
    ane_t6021_bo_init_ioctl 14 64 0 0 0 2 16384 d = Ret (d', inl h) /\ b ∉ vmas d'.
Proof.
  destruct (demo_reaches (demo_load ++ [EvFree 1 2])
              (fun d => match ane_t6021_bo_init_ioctl 14 64 0 0 0 2 16384 d with Ret (_, inl _) => true | _ => false end))
    as (d & Htr & Hi); [vm_compute; reflexivity|].
  destruct (ane_t6021_bo_init_ioctl 14 64 0 0 0 2 16384 d) as [[d' [h|e]]| |] eqn:He; try discriminate Hi.
  destruct (t6021_bo_init_exclusive 14 64 0 0 true demo_sha 1 16 (demo_load ++ [EvFree 1 2]) d 0 2 16384 d' h
    ltac:(lia) ltac:(unfold in_range; lia) ltac:(unfold bounded; vm_compute; split; [discriminate|reflexivity]) Htr He)
    as (b & o & f & _ & _ & _ & _ & _ & _ & Hv & _).
  exists d, d', h, b. split; [exact Htr|]. split; [exact He|exact Hv].
Defined.

(** An io buffer is not kept for the call that uses it: a thread may free
    its handle while the firmware runs the call, and [BO_INIT] then gives the
    same memory, which the firmware is about to write, to another file. *)
Theorem t6021_io_buffer_reused :
  exists d ios cmd b f, demo_trace demo_exec d /\ fw_busy d = Some (FwExec ios cmd) /\ b ∈ ios /\
    fds d !! 2 = Some f /\ b ∈ fd_bos f.
Proof.
  destruct (demo_reaches demo_exec (fun d =>
    match fw_busy d, fds d !! 2 with
    | Some (FwExec ios _), Some f => bool_decide (2 ∈ ios) && bool_decide (2 ∈ fd_bos f)
    | _, _ => false
    end)) as (d & Htr & Ht); [vm_compute; reflexivity|].
  destruct (fw_busy d) as [[|ios cmd]|] eqn:Hb; try done. destruct (fds d !! 2) as [f|] eqn:Hf; [|done].
  apply andb_prop in Ht as [H1 H2]. apply bool_decide_eq_true in H1, H2.
  exists d, ios, cmd, 2, f. done.
Qed.
