(* ===== verification/Link.v ===== *)
(** * The library against the driver

    [libane] names a program by the digest of its six sections
    ([ane_m2_program_digest], src/libane/ane_m2.c), asks the driver for it with
    PROG_LOOKUP and loads it with PROG_LOAD only when the lookup misses; the
    T6021 driver hashes the sections it is given on its own
    (src/ane/t6021/ane_t6021_rtclient_main.c). This file composes the two
    models: the digests agree, so a lookup finds exactly what a load stored. *)
From S2P Require Import Prelude Accel Sha256 M2Walk M2Build M2Dev.
From S2P Require Import Pool ProgTab T6021 T6021Inv T6021Sys.

(** The section argument of libane, as the driver copies it. *)
Definition kernel_section (a : drm_ane_section) : section :=
  T6021.Section (sa_id a) (sa_bo_handle a) (sa_offset a) (sa_size a).

(** The driver's memory behind a section argument holds the section. *)
Definition kernel_holds (d : drv) (f : fdst) (e : Z * bytes) (a : drm_ane_section) : Prop :=
  sa_id a = e.1 /\ sa_size a = zlen e.2 /\ sa_offset a = 0 /\
  exists b o c, bo_find (by_handle (sa_bo_handle a)) (bos d) (fd_bos f) = Some (b, o) /\
    mem d !! T6021.b_dma o = Some c /\ zlen e.2 <= T6021.b_size o /\ slice c 0 (zlen e.2) = e.2.

Lemma load_message_frames d f es args acc :
  Forall2 (kernel_holds d f) es args ->
  foldM (fun acc x =>
    match section_bo (bos d) (fd_bos f) x with
    | None => Fail EINVAL
    | Some (_, o) => Ret (acc ++ section_message (mem d) o x)
    end) acc (kernel_section <$> args) = Ret (acc ++ concat (frame <$> es)).
Proof.
  intros HF. revert acc. induction HF as [|e a es args (Hid & Hsz & Hoff & b & o & c & Hf & Hm & Hle & Hsl) HF IH]; intros acc.
  { cbn. by rewrite app_nil_r. }
  assert (section_bo (bos d) (fd_bos f) (kernel_section a) = Some (b, o)) as Hbo.
  { unfold section_bo, kernel_section. cbn [T6021.s_bo_handle T6021.s_size T6021.s_offset]. rewrite Hf Hsz Hoff.
    destruct (Z.leb_spec (zlen e.2) (T6021.b_size o)); [|lia].
    by destruct (Z.leb_spec 0 (T6021.b_size o - zlen e.2)); [|lia]. }
  rewrite !fmap_cons. cbn [foldM concat]. rewrite Hbo. cbn [mbind res_bind]. rewrite IH. f_equal.
  rewrite -app_assoc. f_equal. f_equal. unfold section_message, mem_of, frame, digest_header, kernel_section.
  cbn [T6021.s_id T6021.s_size T6021.s_offset]. rewrite Hm Hid Hsz Hoff. cbn [default]. rewrite Hsl.
  by rewrite app_assoc.
Qed.

(** The driver hashes the message that libane's digest is the hash of. *)
Lemma load_message_key d f secs args :
  Forall2 (kernel_holds d f) (zip ane_m2_section_ids (section_list secs)) args ->
  load_message d (fd_bos f) (kernel_section <$> args) = Ret (digest_key secs).
Proof. intros HF. apply (load_message_frames d f _ _ [] HF). Qed.

Lemma digest_key_ok secs : Forall bytes_ok (section_list secs) -> bytes_ok (digest_key secs).
Proof.
  intros Hok. unfold digest_key. apply Forall_concat, Forall_fmap.
  eapply Forall_impl; [apply (zip_ids_Forall bytes_ok secs Hok)|]. intros [id b] Hbo. unfold frame, digest_header.
  repeat apply bytes_ok_app; (apply bytes_ok_le_bytes || done).
Qed.

(** The live entry with a digest is the one a search finds. *)
Lemma find_live t refs i p : tab_inv t refs -> live_at t i p -> ane_t6021_progtab_find t (digest p) = Some i.
Proof.
  intros Hi Hl. pose proof (find_spec t refs Hi (digest p)) as Hs.
  destruct (ane_t6021_progtab_find t (digest p)) as [j|].
  - destruct Hs as (q & Hq & He). f_equal. by eapply (ti_digests _ _ Hi).
  - by destruct (Hs i p Hl).
Qed.

(** What PROG_LOOKUP answers for a live program. *)
Definition lookup_hits (d : drv) (digest : bytes) (id : Z) : Prop :=
  forall fd f, fds d !! fd = Some f ->
    exists d' r, ane_t6021_prog_lookup_ioctl fd 0 32 digest true d = Ret (d', r) /\
      (r = inl (true, id) \/ (r = inr ENOSPC /\ zlen (fd_progs f) = ANE_T6021_MAX_PROGRAMS)).

Lemma lookup_live d refs i p :
  tab_inv (tab d) refs -> quarantined d = false -> live_at (tab d) i p -> lookup_hits d (digest p) (ProgTab.prog_id p).
Proof.
  intros Hi Hq Hl fd f Hf. unfold ane_t6021_prog_lookup_ioctl. cbn [negb orb Z.eqb Pos.eqb].
  rewrite Hq (find_live _ _ i p Hi Hl) (proj1 Hl) Hf. unfold take_ref, ane_t6021_fdprogs_ref.
  destruct (ane_t6021_fdprogs_has (fd_progs f) (ProgTab.prog_id p)); [do 2 eexists; split; [reflexivity|by left]|].
  destruct (Z.eqb_spec (zlen (fd_progs f)) ANE_T6021_MAX_PROGRAMS); do 2 eexists; (split; [reflexivity|auto]).
Qed.

Lemma take_ref_live d fd f i p :
  live_at (tab d) i p ->
  quarantined (take_ref fd f i p d).2 = quarantined d /\
  exists p', live_at (tab (take_ref fd f i p d).2) i p' /\ digest p' = digest p /\ ProgTab.prog_id p' = ProgTab.prog_id p.
Proof.
  intros [Hp Hs]. unfold take_ref, ane_t6021_fdprogs_ref. assert (i < length (progs (tab d)))%nat by by eapply lookup_lt_Some.
  destruct (ane_t6021_fdprogs_has (fd_progs f) (ProgTab.prog_id p)); [|destruct (zlen (fd_progs f) =? ANE_T6021_MAX_PROGRAMS)];
    (split; [done|]); eexists; (split; [split; [apply list_lookup_insert_eq; done|]|]); done.
Qed.

Section reachable.
Context `{KernelAllocLaws} (PAGE_SHIFT cap : Z).
Abbreviation dinv := (dinv PAGE_SHIFT cap).

(** The answer to a load publishes the program under the digest of the load. *)
Lemma load_end_live nl no d fd dg slots cmd id d' r :
  dinv nl no d -> no < U32_MAX -> fw_busy d = Some (FwLoad fd dg slots cmd) -> fresh_id d id ->
  prog_load_end true id d = Ret (d', inl r) ->
  dinv nl no d' /\ r = id /\ quarantined d' = quarantined d /\
  exists i p, live_at (tab d') i p /\ digest p = dg /\ ProgTab.prog_id p = id.
Proof.
  intros Hd Hno Hb Hid Hend. split.
  { pose proof (prog_load_end_inv PAGE_SHIFT cap nl no d true id Hd Hno (fun _ => Hid)) as Hinv. by rewrite Hend in Hinv. }
  destruct (add_prog_inv PAGE_SHIFT cap nl no d fd dg slots cmd id Hd Hb Hid) as (i & t & Hadd & _ & Hl).
  unfold prog_load_end in Hend. rewrite Hb in Hend. cbn [negb] in Hend. destruct (id =? U32_MAX); [done|].
  change (tab (set_busy d None)) with (tab d) in Hend. rewrite Hadd in Hend.
  set (d1 := set_tab (set_busy d None) (set_prog t i (set_secs (fresh_prog dg id) slots))) in *.
  destruct (fds d1 !! fd) as [f|]; [|done].
  destruct (take_ref_live d1 fd f i _ Hl) as (Hq & p' & Hl' & Hdg & Hpid).
  destruct (take_ref fd f i _ d1) as [ok d2]. cbn [fst snd] in *. destruct ok; [|done]. injection Hend as <- <-.
  split; [done|]. split; [done|]. by exists i, p'.
Qed.

(** What PROG_LOAD does with the sections of a libane program. *)
Lemma load_begin_digest sha fd gc secs args kmem copied cmd_buf d f d1 r nl no :
  dinv nl no d -> fds d !! fd = Some f ->
  Forall2 (kernel_holds d f) (zip ane_m2_section_ids (section_list secs)) args ->
  prog_load_begin sha fd gc (kernel_section <$> args) kmem copied cmd_buf d = Ret (d1, inl r) ->
  match r with
  | Some id => quarantined d1 = false /\
      exists i p, live_at (tab d1) i p /\ digest p = sha (digest_key secs) /\ ProgTab.prog_id p = id
  | None => exists slots cmd, fw_busy d1 = Some (FwLoad fd (sha (digest_key secs)) slots cmd)
  end.
Proof.
  intros Hd Hf HF Hbeg. unfold prog_load_begin in Hbeg. destruct (quarantined d) eqn:Hq; [done|].
  rewrite Hf (load_message_key d f secs args HF) in Hbeg.
  destruct (_ || _ || _); [done|]. destruct kmem, copied; try done. cbn [negb] in Hbeg.
  destruct (section_ids_ok _); [|done]. cbn [negb] in Hbeg.
  pose proof (find_spec (tab d) _ (tb_inv _ _ _ _ (d_tabs _ _ _ _ _ Hd)) (sha (digest_key secs))) as Hs.
  destruct (ane_t6021_progtab_find (tab d) (sha (digest_key secs))) as [i|].
  - destruct Hs as (p & Hl & Hdg). rewrite (proj1 Hl) in Hbeg.
    destruct (take_ref_live d fd f i p Hl) as (Hq1 & p' & Hl' & Hdg' & Hid').
    destruct (take_ref fd f i p d) as [ok d2]. cbn [fst snd] in *. destruct ok; [|done]. injection Hbeg as <- <-.
    split; [congruence|]. exists i, p'. split; [done|]. split; congruence.
  - destruct (ane_t6021_progtab_has_room (tab d)); [|done]. destruct cmd_buf; [|done]. cbn [negb] in Hbeg.
    destruct (load_marks _ _ _) as [[[[d2 slots] cmd]|d2]| |]; try done. cbn [mbind res_bind] in Hbeg.
    destruct (put_le32 cmd _ _) as [cmd'| |]; try done. cbn in Hbeg. injection Hbeg as <- <-. by exists slots, cmd'.
Qed.
End reachable.

(** ** Properties *)

(** C11. libane and the driver name a program alike. When the driver accepts
    PROG_LOAD for buffers that hold the six sections, then PROG_LOOKUP with the
    digest libane computes for them, from any open file, hits: at once when
    the driver already held the program, and after the firmware's answer
    otherwise, whatever ran in between. (A file that already holds 250
    programs is refused a further one.) *)
Theorem m2_lookup_finds_load `{ArmSha2} `{KernelAllocLaws} hw buf0 secs args
    PAGE_SHIFT cap al fs uoc sha mm mk evs d fd f gc kmem copied cmd_buf d1 r :
  (forall m, bytes_ok m -> 8 * zlen m < 2 ^ 64 -> sha m = fips_sha256 m) ->
  zlen buf0 = 64 -> bytes_ok buf0 ->
  Forall bytes_ok (section_list secs) -> Forall (fun b => 0 < zlen b) (section_list secs) ->
  8 * zlen (digest_key secs) < 2 ^ 64 -> 0 <= cap -> in_range 32 mm ->
  trace PAGE_SHIFT cap al fs uoc sha (drv0 mm mk) evs d -> fw_busy d = None -> fds d !! fd = Some f ->
  bounded (evs ++ [EvLoad fd gc (kernel_section <$> args) kmem copied cmd_buf]) ->
  Forall2 (kernel_holds d f) (zip ane_m2_section_ids (section_list secs)) args ->
  prog_load_begin sha fd gc (kernel_section <$> args) kmem copied cmd_buf d = Ret (d1, inl r) ->
  exists digest, ane_m2_program_digest hw buf0 secs = Ret digest /\
    match r with
    | Some id => lookup_hits d1 digest id
    | None => forall evs2 d2 id d3 id',
        trace PAGE_SHIFT cap al fs uoc sha (drv0 mm mk) evs2 d2 -> bounded evs2 ->
        fw_busy d2 = fw_busy d1 -> quarantined d2 = false -> fresh_id d2 id ->
        prog_load_end true id d2 = Ret (d3, inl id') -> id' = id /\ lookup_hits d3 digest id
    end.
Proof.
  intros Hsha Hb Hbok Hok Hpos Hlen Hcap Hmm Htr Hbusy Hf Hbd HF Hbeg.
  exists (fips_sha256 (digest_key secs)). split; [apply digest_ctx_spec; try done; by apply absorbed_init|].
  assert (sha (digest_key secs) = fips_sha256 (digest_key secs)) as Es by (apply Hsha; [by apply digest_key_ok|done]).
  unfold bounded, U32_MAX in Hbd. rewrite !count_ev_snoc in Hbd. cbn [is_load_ev is_open_ev] in Hbd.
  assert (bounded evs) as Hbd0 by (unfold bounded, U32_MAX; lia).
  pose proof (trace_inv _ _ _ _ _ _ _ _ _ _ Hcap Hmm Htr Hbd0) as Hd.
  pose proof (load_begin_digest PAGE_SHIFT cap sha fd gc secs args kmem copied cmd_buf d f d1 r _ _ Hd Hf HF Hbeg) as Hr.
  destruct r as [id|]; rewrite Es in Hr.
  - destruct Hr as (Hq & i & p & Hl & <- & <-).
    pose proof (prog_load_begin_inv PAGE_SHIFT cap sha _ _ d fd gc (kernel_section <$> args) kmem copied cmd_buf Hd Hbusy
      ltac:(unfold U32_MAX; lia) ltac:(lia)) as Hd1. rewrite Hbeg in Hd1. cbn [twp fst] in Hd1.
    eapply lookup_live; [exact (tb_inv _ _ _ _ (d_tabs _ _ _ _ _ Hd1))|done|done].
  - destruct Hr as (slots & cmd & Hfw). intros evs2 d2 id d3 id' Htr2 Hbd2 Hfw2 Hq2 Hid Hend. rewrite Hfw in Hfw2.
    pose proof (trace_inv _ _ _ _ _ _ _ _ _ _ Hcap Hmm Htr2 Hbd2) as Hd2.
    destruct (load_end_live PAGE_SHIFT cap _ _ d2 fd _ slots cmd id d3 id' Hd2 (proj2 Hbd2) Hfw2 Hid Hend)
      as (Hd3 & -> & Hq3 & i & p & Hl & <- & <-).
    split; [done|]. eapply lookup_live; [exact (tb_inv _ _ _ _ (d_tabs _ _ _ _ _ Hd3))|congruence|done].
Qed.

(** The program of [demo_sections] in six buffers of file 1, loaded and
    answered with id 5. *)
Definition link_args : list drm_ane_section :=
  imap (fun i e => Section_arg e.1 (Z.of_nat i + 1) (zlen e.2) 0)
    (zip ane_m2_section_ids (section_list demo_sections)).

Definition link_events : list event :=
  EvOpen 1 true :: replicate 6 (EvInit 0 1 64) ++
  imap (fun i b => EvWrite (0x4000 * (Z.of_nat i + 1)) (b ++ replicate (16384 - length b) 0)) (section_list demo_sections).

Definition holds_b (d : drv) (f : fdst) (e : Z * bytes) (a : drm_ane_section) : bool :=
  (sa_id a =? e.1) && (sa_size a =? zlen e.2) && (sa_offset a =? 0) &&
  match bo_find (by_handle (sa_bo_handle a)) (bos d) (fd_bos f) with
  | Some (b, o) =>
      match mem d !! T6021.b_dma o with
      | Some c => (zlen e.2 <=? T6021.b_size o) && bool_decide (slice c 0 (zlen e.2) = e.2)
      | None => false
      end
  | None => false
  end.

Lemma holds_b_spec d f es args :
  forallb id (zip_with (holds_b d f) es args) = true -> length es = length args ->
  Forall2 (kernel_holds d f) es args.
Proof.
  revert args. induction es as [|e es IH]; intros [|a args]; try done.
  cbn [zip_with forallb]. intros [Hb Hbs]%andb_prop [= Hl]. constructor; [|by apply IH].
  unfold holds_b, id in Hb. apply andb_prop in Hb as [[[H1 H2]%andb_prop H3]%andb_prop Hb].
  destruct (bo_find _ _ _) as [[b o]|] eqn:Hf; [|done]. destruct (mem d !! _) as [c|] eqn:Hm; [|done].
  apply andb_prop in Hb as [H4 H5]. apply bool_decide_eq_true in H5.
  split; [lia|]. split; [lia|]. split; [lia|]. exists b, o, c. repeat split; try done. lia.
Qed.

Definition link_test (sha : bytes -> bytes) (evs : list event) (secs : ane_m2_sections) (args : list drm_ane_section) : bool :=
  match exec_events 14 64 0 0 true sha evs (drv0 1 16) with
  | Some d =>
      match fds d !! 1, fw_busy d, prog_load_begin sha 1 0 (kernel_section <$> args) true true true d with
      | Some f, None, Ret (d1, inl None) =>
          forallb id (zip_with (holds_b d f) (zip ane_m2_section_ids (section_list secs)) args) &&
          negb (quarantined d1) && enabled_b (EvLoadEnd true 5) d1 &&
          match prog_load_end true 5 d1 with Ret (_, inl id) => id =? 5 | _ => false end
      | _, _, _ => false
      end
  | None => false
  end.

Lemma link_test_spec sha evs secs args :
  link_test sha evs secs args = true -> zlen args = 6 -> exists d f d1 d3,
  trace 14 64 0 0 true sha (drv0 1 16) evs d /\ fds d !! 1 = Some f /\ fw_busy d = None /\
  Forall2 (kernel_holds d f) (zip ane_m2_section_ids (section_list secs)) args /\
  prog_load_begin sha 1 0 (kernel_section <$> args) true true true d = Ret (d1, inl None) /\
  quarantined d1 = false /\ fresh_id d1 5 /\ prog_load_end true 5 d1 = Ret (d3, inl 5).
Proof.
  unfold link_test. destruct (exec_events 14 64 0 0 true sha evs (drv0 1 16)) as [d|] eqn:He; [|done].
  destruct (fds d !! 1) as [f|] eqn:Hf; [|done]. destruct (fw_busy d) eqn:Hb; [done|].
  destruct (prog_load_begin sha 1 0 (kernel_section <$> args) true true true d) as [[d1 [[id|]|e]]| |] eqn:Hl; try done.
  intros Ht Hlen. apply andb_prop in Ht as [Ht H4]. apply andb_prop in Ht as [Ht H3]. apply andb_prop in Ht as [H1 H2].
  apply enabled_b_spec in H3. cbn [enabled] in H3.
  destruct (prog_load_end true 5 d1) as [[d3 [id|e]]| |] eqn:Hend; try done.
  apply Z.eqb_eq in H4 as ->. apply negb_true_iff in H2. exists d, f, d1, d3.
  split; [apply (exec_events_trace 14 64 0 0 true sha (drv0 1 16) [] evs (drv0 1 16)); [constructor|done]|].
  split; [done|]. split; [done|]. split.
  - apply holds_b_spec; [done|]. unfold zlen in Hlen. rewrite length_zip. cbn. lia.
  - split; [done|]. split; [done|]. split; [by apply H3|done].
Qed.

Lemma m2_lookup_finds_load_witness :
  exists d3 digest, @ane_m2_program_digest arm_pseudocode true (replicate 64 0) demo_sections = Ret digest /\
    lookup_hits d3 digest 5.
Proof.
  destruct (link_test_spec fips_sha256 link_events demo_sections link_args)
    as (d & f & d1 & d3 & Htr & Hf & Hb & HF & Hl & Hq & Hid & Hend); [vm_compute; reflexivity|vm_compute; reflexivity|].
  assert (trace 14 64 0 0 true fips_sha256 (drv0 1 16)
            (link_events ++ [EvLoad 1 0 (kernel_section <$> link_args) true true true]) d1) as Htr1.
  { eapply trace_snoc; [exact Htr|exact Hb|]. cbn [run]. unfold run_ioctl. rewrite Hl. reflexivity. }
  destruct (@m2_lookup_finds_load arm_pseudocode bump_alloc bump_alloc_laws true (replicate 64 0) demo_sections link_args
              14 64 0 0 true fips_sha256 1 16 link_events d 1 f 0 true true true d1 None) as (digest & Hdg & Hhit).
  - intros m _ _. reflexivity.
  - reflexivity.
  - vm_decide.
  - vm_decide.
  - vm_decide.
  - vm_compute. reflexivity.
  - lia.
  - unfold in_range. lia.
  - exact Htr.
  - exact Hb.
  - exact Hf.
  - unfold bounded. vm_compute. split; [discriminate|reflexivity].
  - exact HF.
  - exact Hl.
  - exists d3, digest. split; [exact Hdg|].
    apply (Hhit _ d1 5 d3 5 Htr1); try assumption; [|reflexivity].
    unfold bounded. vm_compute. split; [discriminate|reflexivity].
Defined.
