(* ===== verification/M1Map.v ===== *)
(** * IOMMU mappings of the M1 driver

    The mapping layer of [src/ane/src/ane_drv.c] and the scratch pages of
    [src/ane/src/ane_dart.c]: a range of the device's address space is reserved
    in a [drm_mm] allocator and its pages are entered into the IOMMU domain,
    and both are undone together. The IOMMU core and [drm_mm] are the classes
    [Iommu] and [DrmMm]; their laws are the documented behaviour the driver
    relies on. *)

From S2P Require Import Prelude.

(** ** The kernel services *)

(** A domain, observed page by page. [iommu_map] maps one page,
    [iommu_map_sg] a list of pages at consecutive addresses (the value is the
    number of bytes mapped); [iommu_unmap] returns the bytes unmapped. *)
Class Iommu := {
  domain : Type;
  iova_to_phys : domain -> Z -> option Z;
  iommu_map : domain -> Z -> Z -> domain * option errno;
  iommu_map_sg : domain -> Z -> list Z -> domain * (Z + errno);
  iommu_unmap : domain -> Z -> Z -> domain * Z;
}.

(** The address-space allocator: [mm_insert] picks a range of the given size,
    [mm_reserve] accepts a given range; [nodes] maps starts to sizes. *)
Class DrmMm := {
  mm_insert : gmap Z Z -> Z -> option Z;
  mm_reserve : gmap Z Z -> Z -> Z -> bool;
}.

Definition ranges_meet (a n b m : Z) : Prop := a < b + m /\ b < a + n.

Section services.
Context (shift : Z).
Definition page_bytes : Z := Z.shiftl 1 shift.

Class IommuLaws `{Iommu} := {
  map_ok d i p d' j : iommu_map d i p = (d', None) ->
    iova_to_phys d i = None /\ iova_to_phys d' j = if decide (j = i) then Some p else iova_to_phys d j;
  map_err d i p d' e j : iommu_map d i p = (d', Some e) -> iova_to_phys d' j = iova_to_phys d j;
  (* one page, or up to the first hole *)
  unmap_range d i n d' u : 0 <= n -> iommu_unmap d i (n * page_bytes) = (d', u) ->
    exists k, u = k * page_bytes /\ 0 <= k <= n /\
      (forall j, (exists x, 0 <= x < k /\ j = i + x * page_bytes) -> iova_to_phys d' j = None) /\
      (forall j, ~ (exists x, 0 <= x < k /\ j = i + x * page_bytes) -> iova_to_phys d' j = iova_to_phys d j) /\
      (k < n -> iova_to_phys d (i + k * page_bytes) = None);
  (* on an error everything it mapped is unmapped again *)
  map_sg_err d i ps d' e j : iommu_map_sg d i ps = (d', inr e) -> iova_to_phys d' j = iova_to_phys d j;
  map_sg_full d i ps d' n : iommu_map_sg d i ps = (d', inl n) -> n = zlen ps * page_bytes ->
    (forall x, (x < length ps)%nat -> iova_to_phys d (i + Z.of_nat x * page_bytes) = None) /\
    (forall x p, ps !! x = Some p -> iova_to_phys d' (i + Z.of_nat x * page_bytes) = Some p);
  map_sg_other d i ps d' r j : iommu_map_sg d i ps = (d', r) ->
    ~ (exists x, 0 <= x < zlen ps /\ j = i + x * page_bytes) -> iova_to_phys d' j = iova_to_phys d j;
}.

(** The range of the allocator is [[lo, hi)]. *)
Class DrmMmLaws `{DrmMm} (lo hi : Z) := {
  mm_insert_ok ns n a : mm_insert ns n = Some a ->
    0 < n /\ lo <= a /\ a + n <= hi /\ a mod page_bytes = 0 /\
    forall b m, ns !! b = Some m -> ~ ranges_meet a n b m;
  mm_reserve_ok ns a n : mm_reserve ns a n = true ->
    0 < n /\ lo <= a /\ a + n <= hi /\ forall b m, ns !! b = Some m -> ~ ranges_meet a n b m;
}.
End services.

(** ** State *)

(** A [drm_mm] node: its size, and (ghost) the pages mapped in it. *)
Record node := Node { n_size : Z; n_pages : list Z }.

(** The IOMMU domain and the allocator of one device. *)
Record space `{Iommu} := Space { sp_dom : domain; sp_nodes : gmap Z node }.

Section map.
Context `{Iommu} `{DrmMm} (shift : Z).
Abbreviation G := (page_bytes shift).

Definition node_sizes (ns : gmap Z node) : gmap Z Z := n_size <$> ns.

(** [n] pages from [iova]; the count of unmapped pages is only logged. *)
Fixpoint clear_pages (n : nat) (iova : Z) (d : domain) (cleared : Z) : domain * Z :=
  match n with
  | O => (d, cleared)
  | S n' =>
      match iova_to_phys d iova with
      | None => clear_pages n' (iova + G) d cleared
      | Some _ => clear_pages n' (iova + G) (iommu_unmap d iova G).1 (cleared + 1)
      end
  end.

(** The loop runs once for each multiple of the page size below [end - start]. *)
Definition ane_iommu_clear_range (start end_ : Z) (d : domain) : domain * Z :=
  clear_pages (Z.to_nat ((end_ - start + G - 1) / G)) start d 0.

(** One page of [ane_iommu_map_each]: a stray entry is cleared once. *)
Definition map_one (iova pa : Z) (d : domain) : domain * option errno :=
  match iommu_map d iova pa with
  | (d, None) => (d, None)
  | (d, Some e) =>
      if bool_decide (e = EEXIST) && bool_decide (is_Some (iova_to_phys d iova)) then
        iommu_map (iommu_unmap d iova G).1 iova pa
      else (d, Some e)
  end.

(** [while (i-- > 0)]: pages [i - 1] down to 0. *)
Fixpoint rollback (i : nat) (iova : Z) (d : domain) : domain :=
  match i with
  | O => d
  | S i' => rollback i' iova (iommu_unmap d (iova + u32 (Z.shiftl (Z.of_nat i') shift)) G).1
  end.

Fixpoint map_each_from (i : nat) (iova : Z) (ps : list Z) (d : domain) : domain * option errno :=
  match ps with
  | [] => (d, None)
  | p :: ps =>
      match map_one (iova + u32 (Z.shiftl (Z.of_nat i) shift)) p d with
      | (d, None) => map_each_from (S i) iova ps d
      | (d, Some e) => (rollback i iova d, Some e)
      end
  end.

Definition ane_iommu_map_each (iova : Z) (ps : list Z) (d : domain) : domain * option errno :=
  map_each_from 0 iova ps d.

(** [sg_err] is the outcome of [sg_alloc_table_from_pages]. *)
Definition ane_iommu_map_batch (sg_err : option errno) (iova : Z) (ps : list Z) (d : domain)
    : domain * option errno :=
  match sg_err with
  | Some e => (d, Some e)
  | None =>
      let size := zlen ps * G in
      let '(d, mapped) := iommu_map_sg d iova ps in
      let '(d, mapped) :=
        match mapped with
        | inr EEXIST =>
            let '(d, strays) := ane_iommu_clear_range iova (iova + size) d in
            if strays =? 0 then (d, mapped) else iommu_map_sg d iova ps
        | _ => (d, mapped)
        end in
      match mapped with
      | inr e => (d, Some e)
      | inl n =>
          if n =? size then (d, None)
          else ((ane_iommu_clear_range iova (iova + size) d).1, Some EIO)
      end
  end.

(** What the outside decides in one [ane_iommu_map_pages]: the node
    allocation, the module parameter [map_batch], the scatter table. *)
Record map_env := MapEnv { me_kzalloc : bool; me_batch : bool; me_sg : option errno }.

(** Returns the start of the range. The reserved size is the 32-bit value of
    [npages << shift]. *)
Definition ane_iommu_map_pages (env : map_env) (ps : list Z) (s : space) : space * (Z + errno) :=
  if negb (me_kzalloc env) then (s, inr ENOMEM)
  else
    let size := u32 (Z.shiftl (zlen ps) shift) in
    match mm_insert (node_sizes (sp_nodes s)) size with
    | None => (s, inr ENOSPC)
    | Some iova =>
        match (if me_batch env then ane_iommu_map_batch (me_sg env) iova ps (sp_dom s)
               else ane_iommu_map_each iova ps (sp_dom s)) with
        | (d, None) => (Space _ d (<[iova := Node size ps]> (sp_nodes s)), inl iova)
        | (d, Some e) => (Space _ d (sp_nodes s), inr e)
        end
    end.

(** The pages after a short unmap, one by one. *)
Fixpoint unmap_each (n : nat) (iova : Z) (d : domain) : domain :=
  match n with
  | O => d
  | S n' => unmap_each n' (iova + G) (iommu_unmap d iova G).1
  end.

Definition ane_iommu_unmap_pages (iova : Z) (npages : Z) (s : space) : space :=
  let size := npages * G in
  let '(d, unmapped) := iommu_unmap (sp_dom s) iova size in
  let d := unmap_each (Z.to_nat ((size - unmapped + G - 1) / G)) (iova + unmapped) d in
  Space _ d (delete iova (sp_nodes s)).

(** One entry of [ane_reclaim_preserved]: pages 0, 1, ... of the node. *)
Fixpoint unmap_from (i : nat) (n : nat) (iova : Z) (d : domain) : domain :=
  match n with
  | O => d
  | S n' => unmap_from (S i) n' iova (iommu_unmap d (iova + u32 (Z.shiftl (Z.of_nat i) shift)) G).1
  end.

Definition reclaim_one (s : space) (p : Z * list Z) : space :=
  Space _ (unmap_from 0 (length p.2) p.1 (sp_dom s)) (delete p.1 (sp_nodes s)).

(** ** Scratch pages ([ane_dart.c]) *)

(** [page] and [kz] are the outcomes of [alloc_page] and [kzalloc]. *)
Definition ane_dart_drain_fault (page : option Z) (kz : bool) (fault_iova : Z) (s : space)
    : space * (Z * Z + errno) :=
  match page with
  | None => (s, inr ENOMEM)
  | Some page =>
      if negb kz then (s, inr ENOMEM)
      else
        let iova := Z.land fault_iova (u64 (Z.lnot (G - 1))) in
        if negb (mm_reserve (node_sizes (sp_nodes s)) iova G) then (s, inr ENOSPC)
        else
          match iommu_map (sp_dom s) iova page with
          | (d, Some e) => (Space _ d (sp_nodes s), inr e)
          | (d, None) => (Space _ d (<[iova := Node G [page]]> (sp_nodes s)), inl (iova, page))
          end
  end.

Definition release_one (s : space) (x : Z * Z) : space :=
  Space _ (iommu_unmap (sp_dom s) x.1 G).1 (delete x.1 (sp_nodes s)).

Definition ane_dart_release_scratch (scratch : list (Z * Z)) (s : space) : space :=
  fold_left release_one scratch s.
End map.

(** ** The invariant

    Every entry of the domain inside the allocator's range belongs to a node,
    and every node has its pages entered; nodes do not overlap. *)

Definition in_pages (shift iova n j : Z) : Prop := exists x, 0 <= x < n /\ j = iova + x * page_bytes shift.

Section invariant.
Context `{HI : Iommu} `{HM : DrmMm} (shift lo hi : Z) `{!IommuLaws shift} `{!DrmMmLaws shift lo hi}.
Context (Hshift : 0 <= shift).
Abbreviation G := (page_bytes shift).
Abbreviation in_pages := (in_pages shift).

Record space_inv (s : space) : Prop := {
  si_node a nd : sp_nodes s !! a = Some nd ->
    lo <= a /\ a + n_size nd <= hi /\ a mod G = 0 /\ n_size nd = zlen (n_pages nd) * G /\ 0 < zlen (n_pages nd);
  si_disj a b nd nd' : sp_nodes s !! a = Some nd -> sp_nodes s !! b = Some nd' -> a <> b ->
    ~ ranges_meet a (n_size nd) b (n_size nd');
  si_pte j p : lo <= j < hi -> j mod G = 0 ->
    iova_to_phys (sp_dom s) j = Some p <->
    exists a nd i, sp_nodes s !! a = Some nd /\ n_pages nd !! i = Some p /\ j = a + Z.of_nat i * G
}.

Lemma G_pos : 0 < G.
Proof using Hshift. unfold page_bytes. rewrite Z.shiftl_mul_pow2 // Z.mul_1_l. by apply Z.pow_pos_nonneg. Qed.

Lemma shiftl_G n : Z.shiftl n shift = n * G.
Proof using Hshift. unfold page_bytes. rewrite !Z.shiftl_mul_pow2 //. lia. Qed.

Lemma in_pages_inj iova n x : in_pages iova n (iova + x * G) <-> 0 <= x < n.
Proof using Hshift.
  pose proof G_pos. split.
  - intros (y & Hy & E). assert (x = y) as -> by nia. done.
  - intros Hx. by exists x.
Qed.

Lemma in_pages_aligned iova n j : iova mod G = 0 -> in_pages iova n j -> j mod G = 0.
Proof using Hshift. intros Ha (x & _ & ->). by rewrite Z_mod_plus_full. Qed.

Lemma in_pages_bounds iova n j : in_pages iova n j -> iova <= j < iova + n * G.
Proof using Hshift. pose proof G_pos. intros (x & Hx & ->). nia. Qed.

Lemma in_pages_S iova n j :
  in_pages iova (Z.of_nat (S n)) j <-> j = iova \/ in_pages (iova + G) (Z.of_nat n) j.
Proof using Hshift.
  pose proof G_pos. split.
  - intros (x & Hx & ->). destruct (decide (x = 0)) as [->|]; [left; lia|right; exists (x - 1); lia].
  - intros [->|(x & Hx & ->)]; [exists 0; lia|exists (x + 1); lia].
Qed.

#[local] Instance in_pages_dec iova n j : Decision (in_pages iova n j).
Proof using Hshift.
  pose proof G_pos. destruct (decide ((j - iova) mod G = 0 /\ 0 <= (j - iova) / G < n)) as [[Hm Hr]|Hn].
  - left. exists ((j - iova) / G). split; [done|]. pose proof (Z.div_mod (j - iova) G). lia.
  - right. intros (x & Hx & ->). apply Hn. replace (iova + x * G - iova) with (x * G) by lia.
    rewrite Z_mod_mult Z.div_mul; lia.
Qed.

(** The pages of a node are the pages of its range. *)
Lemma node_page s a nd i p :
  space_inv s -> sp_nodes s !! a = Some nd -> n_pages nd !! i = Some p ->
  in_pages a (zlen (n_pages nd)) (a + Z.of_nat i * G) /\ lo <= a + Z.of_nat i * G < hi /\ (a + Z.of_nat i * G) mod G = 0.
Proof using Hshift.
  intros Hs Ha Hp. pose proof G_pos. destruct (si_node _ Hs a nd Ha) as (H1 & H2 & H3 & H4 & _).
  apply lookup_lt_Some in Hp. unfold zlen in *. split; [apply in_pages_inj; lia|]. split; [nia|].
  by rewrite Z_mod_plus_full.
Qed.

Lemma node_pte s a nd i p :
  space_inv s -> sp_nodes s !! a = Some nd -> n_pages nd !! i = Some p ->
  iova_to_phys (sp_dom s) (a + Z.of_nat i * G) = Some p.
Proof using Hshift.
  intros Hs Ha Hp. destruct (node_page s a nd i p Hs Ha Hp) as (_ & Hr & Hm).
  apply (si_pte _ Hs); [done|done|]. by exists a, nd, i.
Qed.

(** A range clear of the nodes has no entries. *)
Lemma free_range s a n j :
  space_inv s -> lo <= a -> a + n * G <= hi -> a mod G = 0 ->
  (forall b m, node_sizes (sp_nodes s) !! b = Some m -> ~ ranges_meet a (n * G) b m) ->
  in_pages a n j -> iova_to_phys (sp_dom s) j = None.
Proof using Hshift.
  intros Hs H1 H2 Ha Hfree Hin. pose proof G_pos. pose proof (in_pages_bounds _ _ _ Hin).
  destruct (iova_to_phys (sp_dom s) j) as [p|] eqn:Hj; [|done].
  apply (si_pte _ Hs) in Hj; [|lia|by eapply in_pages_aligned].
  destruct Hj as (b & nd & i & Hb & Hp & ->). exfalso. apply (Hfree b (n_size nd)).
  - unfold node_sizes. by rewrite lookup_fmap Hb.
  - destruct (node_page s b nd i p Hs Hb Hp) as (Hin' & _). apply in_pages_bounds in Hin'.
    destruct (si_node _ Hs b nd Hb) as (_ & _ & _ & -> & _). unfold ranges_meet. lia.
Qed.

(** Entering a node. *)
Lemma insert_inv s a ps d :
  space_inv s -> lo <= a -> a + zlen ps * G <= hi -> a mod G = 0 -> 0 < zlen ps ->
  (forall b m, node_sizes (sp_nodes s) !! b = Some m -> ~ ranges_meet a (zlen ps * G) b m) ->
  (forall i p, ps !! i = Some p -> iova_to_phys d (a + Z.of_nat i * G) = Some p) ->
  (forall j, ~ in_pages a (zlen ps) j -> iova_to_phys d j = iova_to_phys (sp_dom s) j) ->
  space_inv (Space _ d (<[a := Node (zlen ps * G) ps]> (sp_nodes s))).
Proof using Hshift.
  intros Hs H1 H2 Ha Hpos Hfree Hmap Hoth. pose proof G_pos.
  assert (sp_nodes s !! a = None) as Hnew.
  { destruct (sp_nodes s !! a) as [nd|] eqn:E; [|done]. exfalso. apply (Hfree a (n_size nd)).
    - unfold node_sizes. by rewrite lookup_fmap E.
    - destruct (si_node _ Hs a nd E) as (_ & _ & _ & -> & ?). unfold ranges_meet. nia. }
  assert (forall b nd, sp_nodes s !! b = Some nd -> ~ ranges_meet a (zlen ps * G) b (n_size nd)) as Hf.
  { intros b nd Hb. apply Hfree. unfold node_sizes. by rewrite lookup_fmap Hb. }
  split; cbn [sp_nodes sp_dom].
  - intros b nd. destruct (decide (b = a)) as [->|]; [rewrite lookup_insert_eq; by intros [= <-]|].
    rewrite lookup_insert_ne //. apply (si_node _ Hs).
  - intros b c nd nd' Hb Hc Hne. destruct (decide (b = a)) as [->|].
    + rewrite lookup_insert_eq in Hb. injection Hb as <-. rewrite lookup_insert_ne // in Hc. by apply Hf.
    + rewrite lookup_insert_ne // in Hb. destruct (decide (c = a)) as [->|].
      * rewrite lookup_insert_eq in Hc. injection Hc as <-. specialize (Hf b nd Hb). unfold ranges_meet in *. cbn. tauto.
      * rewrite lookup_insert_ne // in Hc. by apply (si_disj _ Hs b c).
  - intros j p Hj Hm. destruct (decide (in_pages a (zlen ps) j)) as [Hin|Hin].
    + destruct Hin as (x & Hx & ->). destruct (lookup_lt_is_Some_2 ps (Z.to_nat x)) as [q Hq]; [unfold zlen in *; lia|].
      replace x with (Z.of_nat (Z.to_nat x)) by lia. rewrite (Hmap _ _ Hq). split.
      * intros [= ->]. exists a, (Node (zlen ps * G) ps), (Z.to_nat x). by rewrite lookup_insert_eq.
      * intros (b & nd & i & Hb & Hp & E). destruct (decide (b = a)) as [->|].
        -- rewrite lookup_insert_eq in Hb. injection Hb as <-. cbn in Hp.
           assert (Z.to_nat x = i) as <- by nia. congruence.
        -- rewrite lookup_insert_ne // in Hb. exfalso. apply (Hf b nd Hb).
           destruct (node_page s b nd i p Hs Hb Hp) as (Hin' & _). apply in_pages_bounds in Hin'.
           destruct (si_node _ Hs b nd Hb) as (_ & _ & _ & -> & _). unfold ranges_meet. nia.
    + rewrite Hoth //. rewrite (si_pte _ Hs) //. split.
      * intros (b & nd & i & Hb & Hp & E). exists b, nd, i. rewrite lookup_insert_ne //. congruence.
      * intros (b & nd & i & Hb & Hp & ->). destruct (decide (b = a)) as [->|].
        -- exfalso. rewrite lookup_insert_eq in Hb. injection Hb as <-. apply Hin. cbn in Hp.
           apply lookup_lt_Some in Hp. apply in_pages_inj. unfold zlen. lia.
        -- rewrite lookup_insert_ne // in Hb. by exists b, nd, i.
Qed.

(** Removing a node. *)
Lemma delete_inv s a nd d :
  space_inv s -> sp_nodes s !! a = Some nd ->
  (forall j, in_pages a (zlen (n_pages nd)) j -> iova_to_phys d j = None) ->
  (forall j, ~ in_pages a (zlen (n_pages nd)) j -> iova_to_phys d j = iova_to_phys (sp_dom s) j) ->
  space_inv (Space _ d (delete a (sp_nodes s))).
Proof using Hshift.
  intros Hs Ha Hun Hoth. pose proof G_pos. split; cbn [sp_nodes sp_dom].
  - intros b nd'. rewrite lookup_delete_Some. intros [_ Hb]. by apply (si_node _ Hs).
  - intros b c nd1 nd2. rewrite !lookup_delete_Some. intros [_ Hb] [_ Hc]. by apply (si_disj _ Hs).
  - intros j p Hj Hm. destruct (decide (in_pages a (zlen (n_pages nd)) j)) as [Hin|Hin].
    + rewrite Hun //. split; [done|]. intros (b & nd' & i & Hb & Hp & ->). apply lookup_delete_Some in Hb as [Hne Hb].
      exfalso. apply (si_disj _ Hs a b nd nd' Ha Hb Hne).
      destruct (node_page s b nd' i p Hs Hb Hp) as (Hin' & _). apply in_pages_bounds in Hin, Hin'.
      destruct (si_node _ Hs b nd' Hb) as (_ & _ & _ & -> & _), (si_node _ Hs a nd Ha) as (_ & _ & _ & -> & _).
      unfold ranges_meet. lia.
    + rewrite Hoth // (si_pte _ Hs) //. split.
      * intros (b & nd' & i & Hb & Hp & ->). exists b, nd', i. split; [|done]. apply lookup_delete_Some. split; [|done].
        intros Eab. subst b. apply Hin. rewrite Ha in Hb. injection Hb as <-. by destruct (node_page s a nd i p Hs Ha Hp).
      * intros (b & nd' & i & Hb & Hp & E). apply lookup_delete_Some in Hb as [_ Hb]. by exists b, nd', i.
Qed.

(** The nodes stay, the entries read the same. *)
Lemma same_inv s d :
  space_inv s -> (forall j, iova_to_phys d j = iova_to_phys (sp_dom s) j) -> space_inv (Space _ d (sp_nodes s)).
Proof using.
  intros [H1 H2 H3] He. split; cbn [sp_nodes sp_dom]; [done|done|]. intros j p Hj Hm. rewrite He. by apply H3.
Qed.

(** ** The operations *)

Lemma unmap_page d i j :
  iova_to_phys (iommu_unmap d i G).1 j = if decide (j = i) then None else iova_to_phys d j.
Proof using Hshift IommuLaws0.
  destruct (iommu_unmap d i G) as [d' u] eqn:Hu. rewrite -(Z.mul_1_l G) in Hu.
  destruct (unmap_range shift d i 1 d' u ltac:(lia) Hu) as (k & _ & Hk & Hin & Hout & Hhole). cbn [fst].
  assert (k = 0 \/ k = 1) as [-> | ->] by lia.
  - rewrite Hout; [|intros (x & ? & _); lia]. destruct (decide (j = i)) as [->|]; [|done].
    specialize (Hhole ltac:(lia)). by rewrite Z.mul_0_l Z.add_0_r in Hhole.
  - destruct (decide (j = i)) as [->|Hne].
    + apply Hin. exists 0. lia.
    + apply Hout. intros (x & Hx & ->). assert (x = 0) as -> by lia. lia.
Qed.

Lemma clear_pages_none n iova d k :
  (forall j, in_pages iova (Z.of_nat n) j -> iova_to_phys d j = None) -> clear_pages shift n iova d k = (d, k).
Proof using Hshift.
  revert iova k. induction n as [|n IH]; intros iova k Hn; [done|]. cbn [clear_pages].
  rewrite (Hn iova); [|exists 0; lia]. apply IH. intros j (x & Hx & ->). apply Hn. exists (x + 1). lia.
Qed.

Lemma clear_pages_view n iova d k j :
  iova_to_phys (clear_pages shift n iova d k).1 j =
  if decide (in_pages iova (Z.of_nat n) j) then None else iova_to_phys d j.
Proof using Hshift IommuLaws0.
  revert iova d k. induction n as [|n IH]; intros iova d k; cbn [clear_pages].
  { destruct (decide _) as [(x & Hx & _)|]; [lia|done]. }
  pose proof (in_pages_S iova n j) as Hsplit.
  destruct (iova_to_phys d iova) as [p|] eqn:Hp; rewrite IH; destruct (decide (in_pages (iova + G) (Z.of_nat n) j));
    destruct (decide (in_pages iova (Z.of_nat (S n)) j)) as [Hin|Hnin]; try done; try tauto; rewrite ?unmap_page;
    destruct (decide (j = iova)) as [->|]; try done; tauto.
Qed.

Lemma clear_range_none iova n d :
  (forall j, in_pages iova n j -> iova_to_phys d j = None) -> 0 <= n ->
  ane_iommu_clear_range shift iova (iova + n * G) d = (d, 0).
Proof using Hshift.
  intros Hn Hpos. pose proof G_pos. unfold ane_iommu_clear_range.
  replace ((iova + n * G - iova + G - 1) / G) with n.
  2: { replace (iova + n * G - iova + G - 1) with (n * G + (G - 1)) by lia. rewrite Z.div_add_l; [|lia].
       rewrite Z.div_small; lia. }
  apply clear_pages_none. by rewrite Z2Nat.id.
Qed.

Lemma clear_range_view iova n d j :
  0 <= n -> iova_to_phys (ane_iommu_clear_range shift iova (iova + n * G) d).1 j =
  if decide (in_pages iova n j) then None else iova_to_phys d j.
Proof using Hshift IommuLaws0.
  intros Hpos. pose proof G_pos. unfold ane_iommu_clear_range.
  replace ((iova + n * G - iova + G - 1) / G) with n.
  2: { replace (iova + n * G - iova + G - 1) with (n * G + (G - 1)) by lia. rewrite Z.div_add_l; [|lia].
       rewrite Z.div_small; lia. }
  rewrite clear_pages_view. by rewrite Z2Nat.id.
Qed.

(** A mapping of [ps] at [iova], all or nothing. *)
Definition map_outcome (iova : Z) (ps : list Z) (d d' : domain) (e : option errno) : Prop :=
  match e with
  | None => (forall i p, ps !! i = Some p -> iova_to_phys d' (iova + Z.of_nat i * G) = Some p) /\
            (forall j, ~ in_pages iova (zlen ps) j -> iova_to_phys d' j = iova_to_phys d j)
  | Some _ => forall j, iova_to_phys d' j = iova_to_phys d j
  end.

Lemma map_batch_spec sg iova ps d :
  (forall j, in_pages iova (zlen ps) j -> iova_to_phys d j = None) ->
  let r := ane_iommu_map_batch shift sg iova ps d in map_outcome iova ps d r.1 r.2.
Proof using Hshift IommuLaws0.
  intros Hfree. pose proof G_pos. unfold ane_iommu_map_batch. destruct sg as [e|]; [done|].
  destruct (iommu_map_sg d iova ps) as [d1 m1] eqn:Hsg.
  assert (exists d2 m2, (match m1 with
    | inr EEXIST => let '(d, strays) := ane_iommu_clear_range shift iova (iova + zlen ps * G) d1 in
        if strays =? 0 then (d, m1) else iommu_map_sg d iova ps
    | _ => (d1, m1) end) = (d2, m2) /\ iommu_map_sg d iova ps = (d2, m2)) as (d2 & m2 & Er & Hsg2).
  { destruct m1 as [n|[]]; try (do 2 eexists; split; [reflexivity|exact Hsg]).
    rewrite clear_range_none; [do 2 eexists; split; [reflexivity|exact Hsg]| |apply zlen_nonneg].
    intros j Hj. rewrite (map_sg_err shift _ _ _ _ _ j Hsg). by apply Hfree. }
  rewrite Er. clear Er Hsg d1 m1. destruct m2 as [n|e]; cbn [fst snd map_outcome].
  2: { intros j. by rewrite (map_sg_err shift _ _ _ _ _ j Hsg2). }
  destruct (Z.eqb_spec n (zlen ps * G)) as [En|Hn]; cbn [fst snd map_outcome].
  - destruct (map_sg_full shift _ _ _ _ _ Hsg2 En) as [_ Hfull]. split; [done|].
    intros j Hj. by rewrite (map_sg_other shift _ _ _ _ _ j Hsg2 Hj).
  - intros j. rewrite clear_range_view; [|apply zlen_nonneg]. destruct (decide _) as [Hin|Hin].
    + by rewrite Hfree.
    + by rewrite (map_sg_other shift _ _ _ _ _ j Hsg2 Hin).
Qed.

Lemma rollback_view i iova d j :
  Z.of_nat i * G < 2 ^ 32 ->
  iova_to_phys (rollback shift i iova d) j =
  if decide (in_pages iova (Z.of_nat i) j) then None else iova_to_phys d j.
Proof using Hshift IommuLaws0.
  pose proof G_pos. revert d. induction i as [|i IH]; intros d Hr; cbn [rollback].
  { destruct (decide _) as [(x & Hx & _)|]; [lia|done]. }
  rewrite shiftl_G wrap_small; [|lia]. rewrite IH; [|lia].
  destruct (decide (in_pages iova (Z.of_nat i) j)) as [Hin|Hin].
  - destruct (decide _) as [|Hn]; [done|]. destruct Hn. destruct Hin as (x & Hx & ->). exists x. lia.
  - rewrite unmap_page. destruct (decide (j = iova + Z.of_nat i * G)) as [->|Hne].
    + destruct (decide _) as [|Hn]; [done|]. destruct Hn. exists (Z.of_nat i). lia.
    + destruct (decide _) as [(x & Hx & ->)|]; [|done]. exfalso.
      destruct (decide (x = Z.of_nat i)) as [->|]; [done|]. apply Hin. exists x. lia.
Qed.

Lemma map_one_spec iova p d :
  iova_to_phys d iova = None ->
  forall j, iova_to_phys (map_one shift iova p d).1 j =
    if decide (j = iova) then match (map_one shift iova p d).2 with None => Some p | _ => None end else iova_to_phys d j.
Proof using Hshift IommuLaws0.
  intros Hn j. unfold map_one. destruct (iommu_map d iova p) as [d1 [e|]] eqn:Hm.
  - pose proof (map_err shift _ _ _ _ _ iova Hm) as Hi. pose proof (map_err shift _ _ _ _ _ j Hm) as Hj.
    rewrite (bool_decide_eq_false_2 (is_Some _)); [|rewrite Hi Hn; by intros []]. rewrite andb_false_r. cbn [fst snd].
    rewrite Hj. by destruct (decide (j = iova)) as [->|].
  - cbn [fst snd]. by destruct (map_ok shift _ _ _ _ j Hm) as [_ ->].
Qed.

Lemma map_each_spec i iova ps d d0 :
  (Z.of_nat i + zlen ps) * G < 2 ^ 32 ->
  (forall j, in_pages iova (Z.of_nat i + zlen ps) j -> iova_to_phys d0 j = None) ->
  (forall j, ~ in_pages iova (Z.of_nat i) j -> iova_to_phys d j = iova_to_phys d0 j) ->
  match map_each_from shift i iova ps d with
  | (d', None) =>
      (forall j, in_pages iova (Z.of_nat i) j -> iova_to_phys d' j = iova_to_phys d j) /\
      (forall k p, ps !! k = Some p -> iova_to_phys d' (iova + (Z.of_nat (i + k)) * G) = Some p) /\
      (forall j, ~ in_pages iova (Z.of_nat i + zlen ps) j -> iova_to_phys d' j = iova_to_phys d0 j)
  | (d', Some _) => forall j, iova_to_phys d' j = iova_to_phys d0 j
  end.
Proof using Hshift IommuLaws0.
  pose proof G_pos. revert i d. induction ps as [|p ps IH]; intros i d Hr Hfree Hd; cbn [map_each_from].
  { split; [done|]. split; [done|]. intros j Hj. apply Hd. intros Hin. apply Hj. unfold zlen. cbn. by rewrite Z.add_0_r. }
  assert (zlen (p :: ps) = 1 + zlen ps) as El by (unfold zlen; cbn; lia). pose proof (zlen_nonneg ps). rewrite El in Hr, Hfree.
  rewrite shiftl_G wrap_small; [|lia].
  assert (~ in_pages iova (Z.of_nat i) (iova + Z.of_nat i * G)) as Hni by (rewrite in_pages_inj; lia).
  assert (iova_to_phys d (iova + Z.of_nat i * G) = None) as Hnone.
  { rewrite Hd //. apply Hfree, in_pages_inj. lia. }
  pose proof (map_one_spec (iova + Z.of_nat i * G) p d Hnone) as Hone.
  destruct (map_one shift (iova + Z.of_nat i * G) p d) as [d1 [e|]]; cbn [fst snd] in Hone.
  - intros j. rewrite rollback_view; [|lia]. destruct (decide (in_pages iova (Z.of_nat i) j)) as [Hin|Hin].
    + symmetry. apply Hfree. destruct Hin as (x & Hx & ->). exists x. lia.
    + rewrite Hone. destruct (decide _) as [->|]; [symmetry; apply Hfree, in_pages_inj; lia|by apply Hd].
  - specialize (IH (S i) d1). replace (Z.of_nat (S i) + zlen ps) with (Z.of_nat i + (1 + zlen ps)) in IH by lia.
    assert (forall j, ~ in_pages iova (Z.of_nat (S i)) j -> iova_to_phys d1 j = iova_to_phys d0 j) as Hd1.
    { intros j Hj. rewrite Hone. destruct (decide _) as [->|Hne].
      - destruct Hj. apply in_pages_inj. lia.
      - apply Hd. intros (x & Hx & ->). apply Hj. exists x. lia. }
    specialize (IH Hr Hfree Hd1). destruct (map_each_from shift (S i) iova ps d1) as [d' [e|]]; [done|].
    destruct IH as (Hold & Hnew & Hout). rewrite El. split; [|split; [|done]].
    + intros j Hin. rewrite Hold; [|destruct Hin as (x & Hx & ->); exists x; lia].
      rewrite Hone. destruct (decide _) as [->|]; [done|done].
    + intros [|k] q Hk.
      * cbn in Hk. injection Hk as <-. rewrite Nat.add_0_r Hold; [|apply in_pages_inj; lia].
        rewrite Hone. by destruct (decide _).
      * replace (i + S k)%nat with (S i + k)%nat by lia. by apply Hnew.
Qed.

Lemma map_each_outcome iova ps d :
  zlen ps * G < 2 ^ 32 -> (forall j, in_pages iova (zlen ps) j -> iova_to_phys d j = None) ->
  let r := ane_iommu_map_each shift iova ps d in map_outcome iova ps d r.1 r.2.
Proof using Hshift IommuLaws0.
  intros Hr Hfree. unfold ane_iommu_map_each.
  pose proof (map_each_spec 0 iova ps d d ltac:(lia) ltac:(done) ltac:(done)) as Hs.
  destruct (map_each_from shift 0 iova ps d) as [d' [e|]]; cbn; [done|]. by destruct Hs as (_ & ? & ?).
Qed.

Lemma map_pages_inv env ps s :
  space_inv s -> 0 < zlen ps -> zlen ps * G < 2 ^ 32 ->
  match ane_iommu_map_pages shift env ps s with
  | (s', inl a) => space_inv s' /\ sp_nodes s !! a = None /\ lo <= a /\
      sp_nodes s' = <[a := Node (zlen ps * G) ps]> (sp_nodes s)
  | (s', inr _) => space_inv s' /\ sp_nodes s' = sp_nodes s
  end.
Proof using All.
  intros Hs Hpos Hr. unfold ane_iommu_map_pages. destruct (me_kzalloc env); [|done]. cbn [negb].
  pose proof G_pos. rewrite shiftl_G wrap_small; [|lia].
  destruct (mm_insert (node_sizes (sp_nodes s)) (zlen ps * G)) as [a|] eqn:Ha; [|done].
  destruct (mm_insert_ok shift _ _ _ Ha) as (_ & H1 & H2 & H3 & Hfree).
  pose proof (fun j => free_range s a (zlen ps) j Hs H1 H2 H3 Hfree) as Hnone.
  assert (exists r, (if me_batch env then ane_iommu_map_batch shift (me_sg env) a ps (sp_dom s)
            else ane_iommu_map_each shift a ps (sp_dom s)) = r /\ map_outcome a ps (sp_dom s) r.1 r.2) as ([d e] & -> & Ho).
  { eexists. split; [reflexivity|]. destruct (me_batch env); [by apply map_batch_spec|by apply map_each_outcome]. }
  destruct e as [e|]; cbn in Ho.
  - split; [by apply same_inv|done].
  - destruct Ho as [Hmap Hoth]. split; [by apply insert_inv|]. split; [|done].
    destruct (sp_nodes s !! a) as [nd|] eqn:E; [|done]. exfalso. apply (Hfree a (n_size nd)).
    + unfold node_sizes. by rewrite lookup_fmap E.
    + destruct (si_node _ Hs a nd E) as (_ & _ & _ & -> & ?). unfold ranges_meet. nia.
Qed.

Lemma unmap_each_view n iova d j :
  iova_to_phys (unmap_each shift n iova d) j =
  if decide (in_pages iova (Z.of_nat n) j) then None else iova_to_phys d j.
Proof using Hshift IommuLaws0.
  pose proof G_pos. revert iova d. induction n as [|n IH]; intros iova d; cbn [unmap_each].
  { destruct (decide _) as [(x & Hx & _)|]; [lia|done]. }
  rewrite IH unmap_page. pose proof (in_pages_S iova n j) as Hsplit.
  destruct (decide (in_pages (iova + G) (Z.of_nat n) j)), (decide (in_pages iova (Z.of_nat (S n)) j)),
    (decide (j = iova)); try done; tauto.
Qed.

Lemma unmap_pages_inv s a nd :
  space_inv s -> sp_nodes s !! a = Some nd ->
  let s' := ane_iommu_unmap_pages shift a (zlen (n_pages nd)) s in
  space_inv s' /\ sp_nodes s' = delete a (sp_nodes s).
Proof using Hshift IommuLaws0.
  intros Hs Ha. pose proof G_pos. pose proof (zlen_nonneg (n_pages nd)) as Hn0. set (n := zlen (n_pages nd)) in *.
  unfold ane_iommu_unmap_pages. destruct (iommu_unmap (sp_dom s) a (n * G)) as [d u] eqn:Hu.
  destruct (unmap_range shift _ _ _ _ _ Hn0 Hu) as (k & -> & Hk & Hin & Hout & _). cbn zeta. split; [|done].
  replace ((n * G - k * G + G - 1) / G) with (n - k).
  2: { replace (n * G - k * G + G - 1) with ((n - k) * G + (G - 1)) by lia. rewrite Z.div_add_l; [|lia].
       rewrite Z.div_small; lia. }
  apply (delete_inv s a nd); [done|done| |]; intros j Hj; rewrite unmap_each_view Z2Nat.id; try lia; fold n in Hj.
  - destruct (decide (in_pages (a + k * G) (n - k) j)) as [|Hno]; [done|]. apply Hin. destruct Hj as (x & Hx & ->).
    exists x. split; [|done]. destruct (decide (x < k)); [lia|]. destruct Hno. exists (x - k). lia.
  - destruct (decide (in_pages (a + k * G) (n - k) j)) as [(x & Hx & ->)|_].
    + destruct Hj. exists (k + x). lia.
    + apply Hout. intros (x & Hx & ->). apply Hj. exists x. lia.
Qed.

Lemma unmap_from_view n i iova d j :
  Z.of_nat (i + n) * G <= 2 ^ 32 ->
  iova_to_phys (unmap_from shift i n iova d) j =
  if decide (in_pages (iova + Z.of_nat i * G) (Z.of_nat n) j) then None else iova_to_phys d j.
Proof using Hshift IommuLaws0.
  pose proof G_pos. revert i d. induction n as [|n IH]; intros i d Hr; cbn [unmap_from].
  { destruct (decide _) as [(x & Hx & _)|]; [lia|done]. }
  rewrite shiftl_G wrap_small; [|nia]. rewrite IH; [|by replace (S i + n)%nat with (i + S n)%nat by lia]. rewrite unmap_page.
  replace (iova + Z.of_nat (S i) * G) with (iova + Z.of_nat i * G + G) by lia. set (b := iova + Z.of_nat i * G).
  pose proof (in_pages_S b n j) as Hsplit.
  destruct (decide (in_pages (b + G) (Z.of_nat n) j)), (decide (in_pages b (Z.of_nat (S n)) j)), (decide (j = b)); try done; tauto.
Qed.

Context (Hlo : 0 <= lo) (Hhi : hi <= 2 ^ 32).

Lemma reclaim_inv s a nd :
  space_inv s -> sp_nodes s !! a = Some nd ->
  let s' := reclaim_one shift s (a, n_pages nd) in
  space_inv s' /\ sp_nodes s' = delete a (sp_nodes s).
Proof using All.
  intros Hs Ha. cbn zeta. split; [|done]. destruct (si_node _ Hs a nd Ha) as (H1 & H2 & _ & H4 & _).
  assert (Z.of_nat (0 + length (n_pages nd)) * G <= 2 ^ 32) as Hr by (unfold zlen in H4; cbn [Nat.add]; lia).
  apply (delete_inv s a nd); [done|done| |]; intros j Hj; cbn [fst snd]; rewrite unmap_from_view //;
    rewrite Z.mul_0_l Z.add_0_r; fold (zlen (n_pages nd)); by destruct (decide _).
Qed.

Lemma drain_inv page kz fault s :
  space_inv s -> 0 <= shift <= 32 ->
  match ane_dart_drain_fault shift page kz fault s with
  | (s', inl (a, p)) => page = Some p /\ space_inv s' /\ sp_nodes s !! a = None /\
      sp_nodes s' = <[a := Node G [p]]> (sp_nodes s)
  | (s', inr _) => space_inv s' /\ sp_nodes s' = sp_nodes s
  end.
Proof using All.
  intros Hs Hsh. pose proof G_pos. unfold ane_dart_drain_fault. destruct page as [p|]; [|done]. destruct kz; [|done]. cbn [negb].
  set (a := Z.land fault (u64 (Z.lnot (G - 1)))).
  destruct (mm_reserve (node_sizes (sp_nodes s)) a G) eqn:Hres; [|done]. cbn [negb].
  destruct (mm_reserve_ok shift _ _ _ Hres) as (_ & H1 & H2 & Hfree).
  assert (a mod G = 0) as Hal.
  { subst a. unfold page_bytes. rewrite Z.shiftl_1_l.
    replace (u64 (Z.lnot (2 ^ shift - 1))) with (2 ^ 64 - 2 ^ shift).
    - apply Z.bits_inj'. intros i Hi. rewrite Z.bits_0.
      destruct (decide (i < shift)) as [Hlt|]; [|rewrite Z.mod_pow2_bits_high //; lia].
      rewrite Z.mod_pow2_bits_low // Z.land_spec. rewrite (_ : 2 ^ 64 - 2 ^ shift = (2 ^ (64 - shift) - 1) * 2 ^ shift).
      + rewrite Z.mul_pow2_bits_low; [|lia]. by rewrite andb_false_r.
      + rewrite Z.mul_sub_distr_r -Z.pow_add_r; [|lia|lia]. f_equal; [f_equal|]; lia.
    - unfold wrap. assert (0 < 2 ^ shift <= 2 ^ 32) by (split; [by apply Z.pow_pos_nonneg|apply Z.pow_le_mono_r; lia]).
      rewrite (_ : Z.lnot (2 ^ shift - 1) = - 2 ^ shift); [|unfold Z.lnot; lia].
      apply (Z.mod_unique_pos _ _ (-1)); lia. }
  destruct (iommu_map (sp_dom s) a p) as [d [e|]] eqn:Hm; cbn.
  - split; [|done]. apply same_inv; [done|]. intros j. by rewrite (map_err shift _ _ _ _ _ j Hm).
  - split; [done|]. assert (sp_nodes s !! a = None) as Hnew.
    { destruct (sp_nodes s !! a) as [nd|] eqn:E; [|done]. exfalso. apply (Hfree a (n_size nd)).
      - unfold node_sizes. by rewrite lookup_fmap E.
      - destruct (si_node _ Hs a nd E) as (_ & _ & _ & -> & ?). unfold ranges_meet. nia. }
    split; [|done]. replace (Node G [p]) with (Node (zlen [p] * G) [p]) by (unfold zlen; cbn; f_equal; lia).
    assert (zlen [p] * G = G) as E1 by (unfold zlen; cbn; lia).
    apply insert_inv; rewrite ?E1; try done.
    + intros [|i] q Hq; [|done]. cbn in Hq. injection Hq as <-. rewrite Z.mul_0_l Z.add_0_r.
      destruct (map_ok shift _ _ _ _ a Hm) as [_ ->]. by destruct (decide (a = a)).
    + intros j Hj. destruct (map_ok shift _ _ _ _ j Hm) as [_ ->]. destruct (decide (j = a)) as [->|]; [|done].
      destruct Hj. exists 0. unfold zlen. cbn. lia.
Qed.

Lemma release_inv s a p :
  space_inv s -> sp_nodes s !! a = Some (Node G [p]) ->
  let s' := release_one shift s (a, p) in space_inv s' /\ sp_nodes s' = delete a (sp_nodes s).
Proof using Hshift IommuLaws0.
  intros Hs Ha. cbn zeta. split; [|done]. apply (delete_inv s a (Node G [p])); [done|done| |]; intros j Hj; cbn [fst];
    rewrite unmap_page; destruct (decide (j = a)) as [->|Hne]; try done.
  - destruct Hj as (x & Hx & ->). unfold zlen in Hx. cbn in Hx. assert (x = 0) as -> by lia. lia.
  - destruct Hj. exists 0. unfold zlen. cbn. lia.
Qed.
End invariant.

(** ** A model of the services

    A page-granular domain and a first-fit allocator that satisfy the laws;
    theorems that assume them are evaluated on it. *)

Definition free_pages (G : Z) (d : gmap Z Z) (i : Z) (n : nat) : bool :=
  forallb (fun x => bool_decide (d !! (i + Z.of_nat x * G) = None)) (seq 0 n).

Fixpoint enter_pages (G : Z) (i : Z) (ps : list Z) (d : gmap Z Z) : gmap Z Z :=
  match ps with
  | [] => d
  | p :: ps => <[i := p]> (enter_pages G (i + G) ps d)
  end.

Fixpoint remove_pages (G : Z) (n : nat) (i : Z) (d : gmap Z Z) (done : Z) : gmap Z Z * Z :=
  match n with
  | O => (d, done)
  | S n' =>
      match d !! i with
      | None => (d, done)
      | Some _ => remove_pages G n' (i + G) (delete i d) (done + G)
      end
  end.

Definition sample_iommu (shift : Z) : Iommu := {|
  domain := gmap Z Z;
  iova_to_phys d j := d !! j;
  iommu_map d i p := match d !! i with Some _ => (d, Some EEXIST) | None => (<[i := p]> d, None) end;
  iommu_map_sg d i ps :=
    if free_pages (page_bytes shift) d i (length ps)
    then (enter_pages (page_bytes shift) i ps d, inl (zlen ps * page_bytes shift)) else (d, inr EEXIST);
  iommu_unmap d i n := remove_pages (page_bytes shift) (Z.to_nat (n / page_bytes shift)) i d 0;
|}.

(** Whether [n] bytes at [a] are in range and free. *)
Definition fits (lo hi : Z) (ns : gmap Z Z) (a n : Z) : Prop :=
  0 < n /\ lo <= a /\ a + n <= hi /\ map_Forall (fun b m => ~ (a < b + m /\ b < a + n)) ns.

#[global] Instance fits_dec lo hi ns a n : Decision (fits lo hi ns a n).
Proof. unfold fits. apply _. Defined.

(** First fit: the start of the range, or the end of a node. *)
Definition sample_mm (shift lo hi : Z) : DrmMm := {|
  mm_insert ns n :=
    List.find (fun a => bool_decide (fits lo hi ns a n /\ a mod page_bytes shift = 0))
      (lo :: ((fun y => y.1 + y.2) <$> map_to_list ns));
  mm_reserve ns a n := bool_decide (fits lo hi ns a n);
|}.

Section sample.
Context (shift lo hi : Z) (Hshift : 0 <= shift).
Abbreviation G := (page_bytes shift).

Lemma free_pages_true d i n :
  free_pages G d i n = true <-> forall x, (x < n)%nat -> d !! (i + Z.of_nat x * G) = None.
Proof using.
  unfold free_pages. rewrite forallb_forall. split.
  - intros Hf x Hx. specialize (Hf x). rewrite bool_decide_eq_true in Hf. apply Hf. apply in_seq. lia.
  - intros Hf x [_ Hx]%in_seq. apply bool_decide_eq_true. apply Hf. lia.
Qed.

Lemma enter_pages_other i ps d j :
  ~ in_pages shift i (zlen ps) j -> enter_pages G i ps d !! j = d !! j.
Proof using.
  revert i. induction ps as [|p ps IH]; intros i Hj; [done|]. cbn [enter_pages].
  assert (zlen (p :: ps) = 1 + zlen ps) as E by (unfold zlen; cbn; lia). pose proof (zlen_nonneg ps).
  rewrite lookup_insert_ne.
  - apply IH. intros (x & Hx & ->). apply Hj. exists (x + 1). lia.
  - intros <-. apply Hj. exists 0. lia.
Qed.

Lemma enter_pages_in i ps d x p : ps !! x = Some p -> enter_pages G i ps d !! (i + Z.of_nat x * G) = Some p.
Proof using Hshift.
  pose proof (G_pos shift Hshift). revert i x. induction ps as [|q ps IH]; intros i [|x] Hp; [done|done| |]; cbn in *.
  - injection Hp as ->. rewrite Z.mul_0_l Z.add_0_r. by rewrite lookup_insert_eq.
  - rewrite lookup_insert_ne; [|lia]. replace (i + Z.of_nat (S x) * G) with (i + G + Z.of_nat x * G) by lia. by apply IH.
Qed.

Lemma remove_pages_spec n i d u d' u' :
  remove_pages G n i d u = (d', u') ->
  exists k, u' = u + k * G /\ 0 <= k <= Z.of_nat n /\
    (forall j, in_pages shift i k j -> d' !! j = None) /\
    (forall j, ~ in_pages shift i k j -> d' !! j = d !! j) /\ (k < Z.of_nat n -> d !! (i + k * G) = None).
Proof using Hshift.
  pose proof (G_pos shift Hshift). revert i d u. induction n as [|n IH]; intros i d u; cbn [remove_pages].
  - intros [= <- <-]. exists 0. split; [lia|]. split; [lia|]. split; [intros j (x & Hx & _); lia|]. split; [done|lia].
  - destruct (d !! i) as [p|] eqn:Hi.
    + intros (k & -> & Hk & Hin & Hout & Hend)%IH. exists (k + 1). split; [lia|]. split; [lia|].
      assert (forall j, in_pages shift i (k + 1) j <-> j = i \/ in_pages shift (i + G) k j) as Hs.
      { intros j. split.
        - intros (x & Hx & ->). destruct (decide (x = 0)) as [->|]; [left; lia|right; exists (x - 1); lia].
        - intros [->|(x & Hx & ->)]; [exists 0; lia|exists (x + 1); lia]. }
      assert (~ in_pages shift (i + G) k i) as Hni by (intros (x & Hx & E); nia).
      split; [|split].
      * intros j [->|Hj]%Hs; [|by apply Hin]. rewrite Hout //. apply lookup_delete_eq.
      * intros j Hj. rewrite Hs in Hj. rewrite Hout; [|tauto]. rewrite lookup_delete_ne //. intros ->. tauto.
      * intros Hlt. replace (i + (k + 1) * G) with (i + G + k * G) by lia. specialize (Hend ltac:(lia)).
        by rewrite lookup_delete_ne in Hend; [|nia].
    + intros [= <- <-]. exists 0. split; [lia|]. split; [lia|]. split; [intros j (x & Hx & _); lia|]. split; [done|].
      intros _. by rewrite Z.mul_0_l Z.add_0_r.
Qed.

Lemma sample_iommu_laws : @IommuLaws shift (sample_iommu shift).
Proof using Hshift.
  pose proof (G_pos shift Hshift). split; cbn.
  - intros d i p d' j. destruct (d !! i) eqn:E; [done|]. intros [= <-]. split; [done|].
    destruct (decide (j = i)) as [->|]; [by rewrite lookup_insert_eq|by rewrite lookup_insert_ne].
  - intros d i p d' e j. destruct (d !! i); [|done]. by intros [= <- _].
  - intros d i n d' u Hn Hu. rewrite Z.div_mul in Hu; [|lia].
    destruct (remove_pages_spec _ _ _ _ _ _ Hu) as (k & -> & Hk & Hin & Hout & Hend).
    rewrite Z2Nat.id // in Hk, Hend. exists k. rewrite Z.add_0_l. done.
  - intros d i ps d' e j. destruct (free_pages _ _ _ _); [done|]. by intros [= <- _].
  - intros d i ps d' n. destruct (free_pages _ _ _ _) eqn:Hf; [|done]. intros [= <- <-] _. split.
    + by apply free_pages_true.
    + intros x p. apply enter_pages_in.
  - intros d i ps d' r j. destruct (free_pages _ _ _ _) eqn:Hf; [|by intros [= <- _]]. intros [= <- _] Hj.
    by apply enter_pages_other.
Qed.

Lemma sample_mm_laws : @DrmMmLaws shift (sample_mm shift lo hi) lo hi.
Proof using.
  split; cbn -[List.find].
  - intros ns n a [_ [(H1 & H2 & H3 & H4) H5]%bool_decide_eq_true]%find_some. by split_and!.
  - intros ns a n (H1 & H2 & H3 & H4)%bool_decide_eq_true. by split_and!.
Qed.
End sample.

(** ** Objects of 4 GiB and more *)

Section large.
Context `{HI : Iommu} `{HM : DrmMm} (shift lo hi : Z) `{!IommuLaws shift} `{!DrmMmLaws shift lo hi}.
Context (Hshift : 0 <= shift).

Lemma map_batch_clears iova ps d d1 j :
  iommu_map_sg d iova ps = (d1, inr EEXIST) -> in_pages shift iova (zlen ps) j ->
  forall p, iova_to_phys (ane_iommu_map_batch shift None iova ps d).1 j = Some p -> p ∈ ps.
Proof using Hshift IommuLaws0.
  intros Hsg Hj p. unfold ane_iommu_map_batch. rewrite Hsg. pose proof (zlen_nonneg ps) as Hn.
  pose proof (clear_range_view shift Hshift iova (zlen ps) d1 j Hn) as Hc.
  destruct (ane_iommu_clear_range shift iova (iova + zlen ps * page_bytes shift) d1) as [d2 strays]. cbn [fst] in Hc.
  rewrite decide_True // in Hc. destruct (strays =? 0); [by rewrite /= Hc|].
  destruct (iommu_map_sg d2 iova ps) as [d3 [n|e]] eqn:Hsg2.
  2: { cbn. by rewrite (map_sg_err shift _ _ _ _ _ j Hsg2) Hc. }
  destruct (Z.eqb_spec n (zlen ps * page_bytes shift)) as [En|]; cbn [fst].
  - destruct (map_sg_full shift _ _ _ _ _ Hsg2 En) as [_ Hfull]. destruct Hj as (x & Hx & ->).
    destruct (lookup_lt_is_Some_2 ps (Z.to_nat x)) as [q Hq]; [unfold zlen in *; lia|].
    pose proof (Hfull _ _ Hq) as E. rewrite Z2Nat.id in E; [|lia]. rewrite E. intros [= <-]. by eapply list_elem_of_lookup_2.
  - rewrite (clear_range_view shift Hshift) // decide_True //.
Qed.

(** The size reserved for an object is [npages << shift] in 32 bits, while
    its pages are mapped over the full length. Where that length runs into
    another node, the entries of that node are taken for strays and cleared: it
    stays reserved, but its page is no longer mapped, whatever the call
    returns. *)
Theorem m1_large_object_unmaps_others env ps s a b nd p d1 :
  me_kzalloc env = true -> me_batch env = true -> me_sg env = None ->
  mm_insert (node_sizes (sp_nodes s)) (u32 (Z.shiftl (zlen ps) shift)) = Some a ->
  iommu_map_sg (sp_dom s) a ps = (d1, inr EEXIST) ->
  sp_nodes s !! b = Some nd -> 0 < n_size nd -> in_pages shift a (zlen ps) b -> p ∉ ps ->
  let s' := (ane_iommu_map_pages shift env ps s).1 in
  sp_nodes s' !! b = Some nd /\ iova_to_phys (sp_dom s') b <> Some p.
Proof using Hshift IommuLaws0 DrmMmLaws0.
  intros Hk Hbt Hsg Hins Hex Hb Hsz Hin Hp. cbn zeta. unfold ane_iommu_map_pages. rewrite Hk Hbt Hsg Hins. cbn [negb].
  pose proof (map_batch_clears a ps (sp_dom s) d1 b Hex Hin p) as Hc.
  assert (b <> a) as Hne.
  { intros ->. destruct (mm_insert_ok shift _ _ _ Hins) as (Hpos & _ & _ & _ & Hfree).
    apply (Hfree a (n_size nd)); [unfold node_sizes; by rewrite lookup_fmap Hb|]. unfold ranges_meet. lia. }
  destruct (ane_iommu_map_batch shift None a ps (sp_dom s)) as [d [e|]]; cbn [fst sp_nodes sp_dom] in *.
  - split; [done|]. intros E. by apply Hp, Hc.
  - rewrite lookup_insert_ne //. split; [done|]. intros E. by apply Hp, Hc.
Qed.
End large.

(** 4 GiB and one page against a one-page object at [0x8000]. *)
Definition large_pages : list Z := replicate (Z.to_nat 262145) 0x200000.

Definition large_space : @space (sample_iommu 14) :=
  Space (sample_iommu 14) ({[0x8000 := 0x100000]} : gmap Z Z) {[0x8000 := Node 0x4000 [0x100000]]}.

Lemma large_len : zlen large_pages = 262145.
Proof. unfold large_pages. by rewrite zlen_replicate Z2Nat.id. Qed.

Lemma large_exists :
  @iommu_map_sg (sample_iommu 14) (sp_dom large_space) 0x4000 large_pages = (sp_dom large_space, inr EEXIST).
Proof.
  cbn [iommu_map_sg sample_iommu sp_dom large_space].
  destruct (free_pages (page_bytes 14) _ 0x4000 (length large_pages)) eqn:Hf; [|done]. exfalso.
  pose proof (proj1 (free_pages_true 14 _ _ _) Hf 1%nat) as Hn. assert (1 < length large_pages)%nat as Hl.
  { pose proof large_len as E. unfold zlen in E. lia. }
  specialize (Hn Hl). vm_compute in Hn. congruence.
Qed.

Lemma m1_large_object_unmaps_others_witness :
  let s' := (@ane_iommu_map_pages (sample_iommu 14) (sample_mm 14 0x4000 (2 ^ 32)) 14 (MapEnv true true None) large_pages large_space).1 in
  sp_nodes s' !! 0x8000 = Some (Node 0x4000 [0x100000]) /\
  @iova_to_phys (sample_iommu 14) (sp_dom s') 0x8000 <> Some 0x100000.
Proof.
  apply (@m1_large_object_unmaps_others (sample_iommu 14) (sample_mm 14 0x4000 (2 ^ 32)) 14 0x4000 (2 ^ 32)
    (sample_iommu_laws 14 ltac:(lia)) (sample_mm_laws 14 0x4000 (2 ^ 32)) ltac:(lia) (MapEnv true true None)
    large_pages large_space 0x4000 0x8000 (Node 0x4000 [0x100000]) 0x100000 (sp_dom large_space)).
  - reflexivity.
  - reflexivity.
  - reflexivity.
  - rewrite large_len. vm_compute. reflexivity.
  - exact large_exists.
  - reflexivity.
  - reflexivity.
  - rewrite large_len. exists 1. split; [lia|reflexivity].
  - intros Hin. unfold large_pages in Hin. apply elem_of_replicate in Hin as [Hin _]. discriminate Hin.
Defined.
