(* ===== verification/M1Tm.v ===== *)
(** * The task manager of the M1 driver

    [src/ane/src/ane_tm.c]: queueing a task, waiting for its completion with
    the DART error latch consulted before every engine access, containing DART
    faults with scratch pages, declaring the engine wedged, and recovering it in
    two stages. Registers are the class [Engine]; every access is logged, so
    that theorems can speak of their order. Functions are programs of a state
    monad over the registers and [struct ane_device]. *)

From S2P Require Import Prelude M1Map.

(** ** Registers *)

(** A register access: task manager, task queues, a DART, the power-state
    words; [w] is true for a write. *)
Inductive access :=
  | ATm (w : bool) (off v : Z)
  | ATq (w : bool) (off v : Z)
  | ADart (i : nat) (w : bool) (off v : Z)
  | APs (i : Z) (v : Z)
  | APower (on : bool) (i : nat).

(** The engine, its DARTs and its power domains, with whatever state they
    have; [polls] is the number of evaluations a poll loop gets before its
    timeout. [force_suspend] and [force_resume] are the runtime-PM calls on
    power domain [i]. *)
Class Engine := {
  eng : Type;
  tm_rd : Z -> eng -> Z * eng;
  tm_wr : Z -> Z -> eng -> eng;
  tq_rd : Z -> eng -> Z * eng;
  tq_wr : Z -> Z -> eng -> eng;
  dart_rd : nat -> Z -> eng -> Z * eng;
  dart_wr : nat -> Z -> Z -> eng -> eng;
  ps_rd : Z -> eng -> Z * eng;
  polls : eng -> nat;
  force_suspend : nat -> eng -> eng * option errno;
  force_resume : nat -> eng -> eng * option errno;
}.

Definition ANE_TQ_COUNT : nat := 8.
Definition TQ_PRTY_TABLE : list Z := [0x1; 0x2; 0x3; 0x4; 0x5; 0x6; 0x1e; 0x1f].

Definition TM_ADDR : Z := 0x0.
Definition TM_INFO : Z := 0x4.
Definition TM_PUSH : Z := 0x8.
Definition TM_TQ_EN : Z := 0xc.
Definition TM_IRQ_EVTC (line : Z) : Z := 0x14 + line * 0x14.
Definition TM_IRQ_INFO (line : Z) : Z := 0x18 + line * 0x14.
Definition TM_IRQ_UNK1 (line : Z) : Z := 0x1c + line * 0x14.
Definition TM_IRQ_TMST (line : Z) : Z := 0x20 + line * 0x14.
Definition TM_IRQ_UNK2 (line : Z) : Z := 0x24 + line * 0x14.
Definition TM_COMMITTED : Z := 0x44.
Definition TM_STATUS : Z := 0x54.
Definition TM_ERROR1 : Z := 0x58.
Definition TM_ERROR2 : Z := 0x5c.
Definition TM_ERROR3 : Z := 0x60.
Definition TM_IRQ_EN1 : Z := 0x68.
Definition TM_IRQ_ACK : Z := 0x6c.
Definition TM_IRQ_EN2 : Z := 0x70.
Definition TM_IS_IDLE : Z := 0x1.

Definition TQ_STATUS (qid : Z) : Z := 0x000 + qid * 0x148.
Definition TQ_PRTY (qid : Z) : Z := 0x010 + qid * 0x148.
Definition TQ_BAR1 (qid bdx : Z) : Z := 0x020 + qid * 0x148 + bdx * 0x4.
Definition TQ_NID1 (qid : Z) : Z := 0x0a0 + qid * 0x148.
Definition TQ_SIZE1 (qid : Z) : Z := 0x130 + qid * 0x148.
Definition TQ_ADDR1 (qid : Z) : Z := 0x134 + qid * 0x148.

Definition ANE_PS_ACTUAL_MASK : Z := 0xf0.
Definition ANE_PS_WORDS : nat := 6.
Definition ANE_PS_ALL_ON : Z := 2 ^ 24 - 1.

Definition DART_STREAM_COMMAND : Z := 0x20.
Definition DART_STREAM_COMMAND_BUSY : Z := 0x4.
Definition DART_STREAM_COMMAND_INVALIDATE : Z := 0x100000.
Definition DART_STREAM_SELECT : Z := 0x34.
Definition DART_ERROR : Z := 0x40.
Definition DART_ERROR_FLAG : Z := 0x80000000.
Definition DART_ERROR_ADDR_LO : Z := 0x50.
Definition DART_ERROR_ADDR_HI : Z := 0x54.
Definition ANE_DART_SCRATCH_MAX : Z := 16.

(** ** State *)

(** What a probe fixes: the stream ids of the DARTs, the number of power
    domains, whether the power-state words are mapped, whether the task-manager
    file survives a power cycle. *)
Record board := Board {
  dart_sids : list Z;
  pd_count : nat;
  ps_mapped : bool;
  tm_retention : bool;
}.

(** [struct ane_device]. [a_preserved] is [preserved_list]; [a_status_fresh]
    combines [tm_status_known] and [tm_status_fresh]; [a_pins] counts the
    module references the wedge took. Ghost: [a_kept], ranges that stay mapped
    for good; [a_dma], a failed task may still access memory; [a_gates], the
    completed power cycles of the recovery. *)
Record ane `{Iommu} := Ane {
  a_space : space;
  a_preserved : list (Z * list Z);
  a_wedged : bool;
  a_scratch_retained : bool;
  a_quiesced : bool;
  a_por_pending : bool;
  a_removed : bool;
  a_masked : bool;
  a_status_fresh : option Z;
  a_pins : Z;
  a_kept : list (Z * list Z);
  a_dma : bool;
  a_gates : nat;
}.

(** [struct ane_request]. *)
Record ane_request := Request {
  r_qid : Z; r_nid : Z; r_td_size : Z; r_td_count : Z; r_btsp_iova : Z; r_bar : list Z;
}.

Record mach `{Iommu} `{Engine} := Mach { s_eng : eng; s_log : list access; s_ane : ane }.

Definition mprog `{Iommu} `{Engine} (A : Type) : Type := mach -> A * mach.

#[global] Instance mprog_ret `{Iommu} `{Engine} : MRet mprog := fun A a s => (a, s).
#[global] Instance mprog_bind `{Iommu} `{Engine} : MBind mprog := fun A B f m s =>
  let '(a, s) := m s in f a s.

Section tm.
Context `{Iommu} `{DrmMm} `{Engine} (shift : Z) (bd : board).

Definition get_ane : mprog ane := fun s => (s_ane s, s).
Definition modify (f : ane -> ane) : mprog unit := fun s => (tt, Mach _ _ (s_eng s) (s_log s) (f (s_ane s))).
Definition get_polls : mprog nat := fun s => (polls (s_eng s), s).

(** A read or write of the hardware, with its log entry. *)
Definition hw_read (rd : eng -> Z * eng) (acc : Z -> access) : mprog Z := fun s =>
  let '(v, e) := rd (s_eng s) in (v, Mach _ _ e (s_log s ++ [acc v]) (s_ane s)).
Definition hw_write (wr : eng -> eng) (acc : access) : mprog unit := fun s =>
  (tt, Mach _ _ (wr (s_eng s)) (s_log s ++ [acc]) (s_ane s)).

Definition tm_read32 (off : Z) : mprog Z := hw_read (tm_rd off) (ATm false off).
Definition tm_write32 (off v : Z) : mprog unit := hw_write (tm_wr off v) (ATm true off v).
Definition tq_read32 (off : Z) : mprog Z := hw_read (tq_rd off) (ATq false off).
Definition tq_write32 (off v : Z) : mprog unit := hw_write (tq_wr off v) (ATq true off v).
Definition dart_read (i : nat) (off : Z) : mprog Z := hw_read (dart_rd i off) (ADart i false off).
Definition dart_write (i : nat) (off v : Z) : mprog unit := hw_write (dart_wr i off v) (ADart i true off v).

Fixpoint for_each {A} (l : list A) (f : A -> mprog unit) : mprog unit :=
  match l with
  | [] => mret tt
  | x :: l => f x;; for_each l f
  end.

(** [read_poll_timeout]: [op] until [cond] holds of its value; after the
    timeout it is evaluated once more. *)
Fixpoint poll_loop {A} (n : nat) (op : mprog A) (cond : A -> bool) : mprog (A * option errno) :=
  v ← op;
  if cond v then mret (v, None)
  else match n with
       | O => mret (v, Some ETIMEDOUT)
       | S n' => poll_loop n' op cond
       end.

Definition read_poll_timeout {A} (op : mprog A) (cond : A -> bool) : mprog (A * option errno) :=
  n ← get_polls; poll_loop n op cond.

(** Updates of [struct ane_device]. *)
Definition set_space (sp : space) (a : ane) : ane :=
  Ane _ sp (a_preserved a) (a_wedged a) (a_scratch_retained a) (a_quiesced a) (a_por_pending a) (a_removed a)
      (a_masked a) (a_status_fresh a) (a_pins a) (a_kept a) (a_dma a) (a_gates a).
Definition set_preserved (l : list (Z * list Z)) (a : ane) : ane :=
  Ane _ (a_space a) l (a_wedged a) (a_scratch_retained a) (a_quiesced a) (a_por_pending a) (a_removed a)
      (a_masked a) (a_status_fresh a) (a_pins a) (a_kept a) (a_dma a) (a_gates a).
Definition set_wedged (w : bool) (pins : Z) (a : ane) : ane :=
  Ane _ (a_space a) (a_preserved a) w (a_scratch_retained a) (a_quiesced a) (a_por_pending a) (a_removed a)
      (a_masked a) (a_status_fresh a) pins (a_kept a) (a_dma a) (a_gates a).
Definition set_quiesced (q : bool) (a : ane) : ane :=
  Ane _ (a_space a) (a_preserved a) (a_wedged a) (a_scratch_retained a) q (a_por_pending a) (a_removed a)
      (a_masked a) (a_status_fresh a) (a_pins a) (a_kept a) (a_dma a) (a_gates a).
Definition set_por (p : bool) (a : ane) : ane :=
  Ane _ (a_space a) (a_preserved a) (a_wedged a) (a_scratch_retained a) (a_quiesced a) p (a_removed a)
      (a_masked a) (a_status_fresh a) (a_pins a) (a_kept a) (a_dma a) (a_gates a).
Definition set_masked (m : bool) (a : ane) : ane :=
  Ane _ (a_space a) (a_preserved a) (a_wedged a) (a_scratch_retained a) (a_quiesced a) (a_por_pending a) (a_removed a)
      m (a_status_fresh a) (a_pins a) (a_kept a) (a_dma a) (a_gates a).
Definition set_fresh (v : option Z) (a : ane) : ane :=
  Ane _ (a_space a) (a_preserved a) (a_wedged a) (a_scratch_retained a) (a_quiesced a) (a_por_pending a) (a_removed a)
      (a_masked a) v (a_pins a) (a_kept a) (a_dma a) (a_gates a).
Definition set_retained (kept : list (Z * list Z)) (a : ane) : ane :=
  Ane _ (a_space a) (a_preserved a) (a_wedged a) true (a_quiesced a) (a_por_pending a) (a_removed a)
      (a_masked a) (a_status_fresh a) (a_pins a) (a_kept a ++ kept) (a_dma a) (a_gates a).
Definition set_kept (kept : list (Z * list Z)) (a : ane) : ane :=
  Ane _ (a_space a) (a_preserved a) (a_wedged a) (a_scratch_retained a) (a_quiesced a) (a_por_pending a) (a_removed a)
      (a_masked a) (a_status_fresh a) (a_pins a) kept (a_dma a) (a_gates a).
Definition set_dma (x : bool) (a : ane) : ane :=
  Ane _ (a_space a) (a_preserved a) (a_wedged a) (a_scratch_retained a) (a_quiesced a) (a_por_pending a) (a_removed a)
      (a_masked a) (a_status_fresh a) (a_pins a) (a_kept a) x (a_gates a).
Definition set_gated (a : ane) : ane :=
  Ane _ (a_space a) (a_preserved a) (a_wedged a) (a_scratch_retained a) (a_quiesced a) (a_por_pending a) (a_removed a)
      (a_masked a) (a_status_fresh a) (a_pins a) (a_kept a) false (S (a_gates a)).
Definition set_removed (a : ane) : ane :=
  Ane _ (a_space a) (a_preserved a) (a_wedged a) (a_scratch_retained a) (a_quiesced a) (a_por_pending a) true
      (a_masked a) (a_status_fresh a) (a_pins a) (a_kept a) (a_dma a) (a_gates a).

(** ** Power state *)

Fixpoint ps_words (n : nat) (i : Z) (v : Z) : mprog Z :=
  match n with
  | O => mret v
  | S n' =>
      w ← hw_read (ps_rd i) (APs i);
      ps_words n' (i + 1) (Z.lor v (Z.shiftl (Z.shiftr (Z.land w ANE_PS_ACTUAL_MASK) 4) (i * 4)))
  end.

Definition ane_ps_act : mprog Z :=
  if ps_mapped bd then ps_words ANE_PS_WORDS 0 0 else mret 0.

(** The loop of [ane_ps_verify_on], [n] tries left. *)
Fixpoint verify_tries (n : nat) : mprog (option errno) :=
  match n with
  | O => mret (Some ETIMEDOUT)
  | S n' =>
      act ← ane_ps_act;
      if act =? ANE_PS_ALL_ON then mret None else verify_tries n'
  end.

Definition ane_ps_verify_on : mprog (option errno) :=
  if ps_mapped bd then verify_tries 100 else mret None.

(** ** Queues *)

(** [rec] only selects the logging of the writes. *)
Definition ane_tm_enable : mprog unit :=
  v ← tm_read32 TM_TQ_EN;
  tm_write32 TM_TQ_EN (Z.lor v 0x1000);;
  for_each (zip (seq 0 ANE_TQ_COUNT) TQ_PRTY_TABLE) (fun '(qid, prty) => tq_write32 (TQ_PRTY (Z.of_nat qid)) prty);;
  tm_write32 TM_IRQ_EN1 0x4000000;;
  tm_write32 TM_IRQ_EN2 0x6.

Definition ane_tm_status : mprog Z := tm_read32 TM_STATUS.

Definition ane_tm_enqueue (req : ane_request) : mprog unit :=
  let qid := r_qid req in
  tq_write32 (TQ_STATUS qid) 0x1;;
  for_each (zip (seq 0 32) (r_bar req)) (fun '(bdx, bar) => tq_write32 (TQ_BAR1 qid (Z.of_nat bdx)) bar);;
  tq_write32 (TQ_SIZE1 qid) (u32 (Z.shiftl (u32 (Z.shiftr (r_td_size req) 2 - 1)) 0x10));;
  tq_write32 (TQ_ADDR1 qid) (r_btsp_iova req);;
  tq_write32 (TQ_NID1 qid) (Z.lor (Z.shiftl (Z.land (r_nid req) 0xff) 8) 1).

Definition ane_tm_push_tq (req : ane_request) : mprog unit :=
  let qid := r_qid req in
  addr ← tq_read32 (TQ_ADDR1 qid);
  tm_write32 TM_ADDR addr;;
  size ← tq_read32 (TQ_SIZE1 qid);
  tm_write32 TM_INFO (Z.lor size (r_td_count req));;
  tm_write32 TM_PUSH (Z.lor (default 0 (TQ_PRTY_TABLE !! Z.to_nat qid)) (Z.shiftl (Z.land qid 7) 8)).

(** ** Events *)

Definition finish_info (req : ane_request) : Z :=
  Z.lor (Z.lor 0x05000000 (u32 (Z.shiftl (r_nid req) 16))) (u32 (r_td_count req - 1)).

(** [n] events of a line; the other words of an event are read and dropped. *)
Fixpoint pop_events (n : nat) (line : Z) (req : option ane_request) (finished : Z) : mprog Z :=
  match n with
  | O => mret finished
  | S n' =>
      info ← tm_read32 (TM_IRQ_INFO line);
      tm_read32 (TM_IRQ_UNK1 line);;
      tm_read32 (TM_IRQ_TMST line);;
      tm_read32 (TM_IRQ_UNK2 line);;
      pop_events n' line req
        (match req with
         | Some r => if info =? finish_info r then Z.lor finished (Z.shiftl 1 line) else finished
         | None => finished
         end)
  end.

(** One line; [None] is a count over the cap. *)
Definition collect_line (line : Z) (req : option ane_request) (finished : Z) : mprog (option Z) :=
  count ← tm_read32 (TM_IRQ_EVTC line);
  if count >? 64 then mret None
  else f ← pop_events (Z.to_nat count) line req finished; mret (Some f).

(** The value is [-EIO] or whether the task is done and the engine idle; the
    updated [finished] comes back with it. *)
Definition ane_tm_collect_events (req : option ane_request) (finished : Z) : mprog (Z * (bool + errno)) :=
  f ← collect_line 0 req finished;
  match f with
  | None => mret (finished, inr EIO)
  | Some f0 =>
      f ← collect_line 1 req f0;
      match f with
      | None => mret (f0, inr EIO)
      | Some f =>
          ack ← tm_read32 TM_IRQ_ACK;
          tm_write32 TM_IRQ_ACK (Z.lor ack 2);;
          if f =? 3 then
            st ← tm_read32 TM_STATUS;
            mret (f, inl (negb (Z.land st TM_IS_IDLE =? 0)))
          else mret (f, inl false)
      end
  end.

(** ** The DART latch *)

Fixpoint dart_scan (n : nat) (i : nat) : mprog (option (Z * Z)) :=
  match n with
  | O => mret None
  | S n' =>
      err ← dart_read i DART_ERROR;
      if Z.land err DART_ERROR_FLAG =? 0 then dart_scan n' (S i)
      else
        lo ← dart_read i DART_ERROR_ADDR_LO;
        hi ← dart_read i DART_ERROR_ADDR_HI;
        mret (Some (err, Z.lor lo (Z.shiftl hi 32)))
  end.

(** Status and address of the first DART with a latched fault. The address
    registers are read only when the caller asks for the address. *)
Definition ane_dart_faulted_at : mprog (option (Z * Z)) := dart_scan (length (dart_sids bd)) 0.

Fixpoint dart_flags (n : nat) (i : nat) : mprog bool :=
  match n with
  | O => mret false
  | S n' =>
      err ← dart_read i DART_ERROR;
      if Z.land err DART_ERROR_FLAG =? 0 then dart_flags n' (S i) else mret true
  end.

Definition ane_dart_faulted : mprog bool := dart_flags (length (dart_sids bd)) 0.

Definition ane_dart_invalidate (i : nat) (sid : Z) : mprog (option errno) :=
  if sid >=? 32 then mret (Some EINVAL)
  else
    dart_write i DART_STREAM_SELECT (Z.shiftl 1 sid);;
    dart_write i DART_STREAM_COMMAND DART_STREAM_COMMAND_INVALIDATE;;
    '(_, e) ← read_poll_timeout (dart_read i DART_STREAM_COMMAND)
                (fun cmd => Z.land cmd DART_STREAM_COMMAND_BUSY =? 0);
    mret e.

Definition invalidate_all : mprog unit :=
  for_each (imap (fun i sid => (i, sid)) (dart_sids bd)) (fun '(i, sid) => ane_dart_invalidate i sid;; mret tt).

Definition ane_dart_mask : mprog unit := modify (set_masked true).
Definition ane_dart_unmask : mprog unit := modify (set_masked false).

(** [ane_dart_drain_fault] with its TLB invalidation. *)
Definition drain_fault (env : option Z * bool) (iova : Z) : mprog (Z * Z + errno) :=
  a ← get_ane;
  let '(sp, r) := ane_dart_drain_fault shift env.1 env.2 iova (a_space a) in
  modify (set_space sp);;
  match r with
  | inl x => invalidate_all;; mret (inl x)
  | inr e => mret (inr e)
  end.

Definition release_scratch (scratch : list (Z * Z)) : mprog unit :=
  modify (fun a => set_space (ane_dart_release_scratch shift scratch (a_space a)) a);;
  match scratch with [] => mret tt | _ => invalidate_all end.

(** ** Recovery *)

(** [pm_runtime_force_suspend] and [pm_runtime_force_resume] of domain [i]. *)
Definition pm_suspend (i : nat) : mprog (option errno) := fun s =>
  let '(e, r) := force_suspend i (s_eng s) in (r, Mach _ _ e (s_log s ++ [APower false i]) (s_ane s)).
Definition pm_resume (i : nat) : mprog (option errno) := fun s =>
  let '(e, r) := force_resume i (s_eng s) in (r, Mach _ _ e (s_log s ++ [APower true i]) (s_ane s)).

(** A loop over domains that stops at the first error. *)
Fixpoint each_domain (f : nat -> mprog (option errno)) (l : list nat) : mprog (option errno) :=
  match l with
  | [] => mret None
  | i :: l =>
      e ← f i;
      match e with
      | Some e => mret (Some e)
      | None => each_domain f l
      end
  end.

(** [ane_runtime_resume]: re-arms the task manager and samples its first
    status. DVFS is not modelled. *)
Definition ane_runtime_resume : mprog unit :=
  (a ← get_ane;
   match a_status_fresh a with
   | None => ane_ps_act;; mret tt
   | Some _ => mret tt
   end);;
  ane_tm_enable;;
  a ← get_ane;
  match a_status_fresh a with
  | Some _ => mret tt
  | None => st ← ane_tm_status; modify (set_fresh (Some st));; ane_ps_act;; mret tt
  end.

(** [ane_runtime_suspend] outside a recovery cycle: a wedged engine may only
    be gated once it is quiesced, and the power-off is noted. *)
Definition ane_runtime_suspend : mprog (option errno) :=
  a ← get_ane;
  if a_wedged a then
    if negb (a_quiesced a) then mret (Some EBUSY)
    else modify (set_por true);; mret None
  else mret None.

(** With several domains the cycle suspends and resumes each of them; with
    one, the device itself is suspended (its callback lets a recovery cycle
    pass) and its resume callback runs. The usage references taken around the
    calls are given back on every path. *)
Definition ane_pd_cycle : mprog (option errno) :=
  if (1 <? pd_count bd)%nat then
    e ← each_domain pm_suspend (seq 0 (pd_count bd));
    match e with
    | Some e => mret (Some e)
    | None => each_domain pm_resume (seq 0 (pd_count bd))
    end
  else
    e ← pm_suspend 0;
    match e with
    | Some e => mret (Some e)
    | None =>
        e ← pm_resume 0;
        match e with
        | Some e => mret (Some e)
        | None => ane_runtime_resume;; mret None
        end
    end.

Fixpoint drain_line (n : nat) (line : Z) : mprog unit :=
  match n with
  | O => mret tt
  | S n' =>
      tm_read32 (TM_IRQ_INFO line);;
      tm_read32 (TM_IRQ_UNK1 line);;
      tm_read32 (TM_IRQ_TMST line);;
      tm_read32 (TM_IRQ_UNK2 line);;
      drain_line n' line
  end.

Definition clear_error (reg : Z) : mprog unit :=
  v ← tm_read32 reg;
  if v =? 0 then mret tt
  else
    tm_write32 reg v;;
    (w ← tm_read32 reg; if w =? 0 then mret tt else tm_write32 reg 0);;
    tm_read32 reg;; mret tt.

Definition clear_queue (qid : Z) : mprog unit :=
  nid ← tq_read32 (TQ_NID1 qid);
  tq_write32 (TQ_STATUS qid) 0;;
  if Z.land nid 1 =? 0 then mret tt
  else tq_write32 (TQ_NID1 qid) (Z.land nid (U32_MAX - 1)).

Definition ane_tm_drain_retained : mprog unit :=
  v ← tm_read32 TM_TQ_EN;
  tm_write32 TM_TQ_EN (Z.land v (U32_MAX - 0x3000));;
  for_each [0; 1] (fun line => count ← tm_read32 (TM_IRQ_EVTC line); drain_line (Z.to_nat (Z.min count 64)) line);;
  (ack ← tm_read32 TM_IRQ_ACK; tm_write32 TM_IRQ_ACK (Z.lor ack 3));;
  for_each [TM_ERROR1; TM_ERROR2; TM_ERROR3] clear_error;;
  for_each (seqZ 0 8) clear_queue;;
  for_each [TM_COMMITTED; TM_ERROR1; TM_ERROR2; TM_ERROR3] (fun reg => tm_read32 reg;; mret tt).

(** [ane_drv.c]: every preserved range is unmapped and its pages are freed. *)
Definition ane_reclaim_preserved : mprog unit :=
  modify (fun a => set_preserved [] (set_space (fold_left (reclaim_one shift) (a_preserved a) (a_space a)) a)).

(** What only success does. *)
Definition recover_done : mprog (option errno) :=
  modify (set_quiesced false);;
  a ← get_ane;
  (if a_wedged a then modify (set_wedged false (a_pins a - 1));; ane_reclaim_preserved else mret tt);;
  mret None.

(** The idle check. *)
Definition recover_check : mprog (option errno) :=
  a ← get_ane;
  '(_, err) ← read_poll_timeout (tm_read32 TM_STATUS)
    (fun st => negb (Z.land st TM_IS_IDLE =? 0) || (st =? default 0 (a_status_fresh a)));
  tm_read32 TM_STATUS;;
  match err with
  | Some e => mret (Some e)
  | None => recover_done
  end.

Definition ane_tm_recover : mprog (option errno) :=
  a ← get_ane;
  if a_scratch_retained a then mret (Some EBUSY)
  else if negb (a_wedged a) then mret None
  else if a_por_pending a then
    modify (set_por false);;
    e ← ane_ps_verify_on;
    match e with
    | Some e => mret (Some e)
    | None => recover_check
    end
  else if a_quiesced a then mret (Some EAGAIN)
  else
    e ← ane_pd_cycle;
    match e with
    | Some e => mret (Some e)
    | None =>
        modify set_gated;;
        modify (set_quiesced true);;
        e ← ane_ps_verify_on;
        match e with
        | Some e => mret (Some e)
        | None =>
            (if tm_retention bd then ane_tm_drain_retained else mret tt);;
            ane_tm_enable;;
            recover_check
        end
    end.

(** ** Execution *)

(** The latch first, then the engine. *)
Definition ane_tm_poll_step (req : ane_request) (finished : Z) : mprog (Z * (bool + errno)) :=
  f ← ane_dart_faulted;
  if (f : bool) then mret (finished, inr EIO) else ane_tm_collect_events (Some req) finished.

(** The completion poll; [finished] is updated by every step. *)
Fixpoint poll_task (n : nat) (req : ane_request) (finished : Z) : mprog (Z * (bool + errno) * option errno) :=
  '(finished, st) ← ane_tm_poll_step req finished;
  match st with
  | inl false =>
      match n with
      | O => mret (finished, st, Some ETIMEDOUT)
      | S n' => poll_task n' req finished
      end
  | _ => mret (finished, st, None)
  end.

(** The outer loop, [n] scratch pages left: the error, whether a fault was
    seen, and the scratch pages. *)
Fixpoint task_loop (env : nat -> option Z * bool) (n : nat) (req : ane_request) (finished : Z)
    (scratch : list (Z * Z)) (faulted : bool) : mprog (option errno * bool * list (Z * Z)) :=
  k ← get_polls;
  '(finished, st, err) ← poll_task k req finished;
  let err := match err, st with None, inr e => Some e | _, _ => err end in
  f ← ane_dart_faulted_at;
  match f with
  | None => mret (err, faulted, scratch)
  | Some (_, iova) =>
      match n with
      | O => mret (Some EIO, true, scratch)
      | S n' =>
          r ← drain_fault (env (length scratch)) iova;
          match r with
          | inr e => mret (Some e, true, scratch)
          | inl x => task_loop env n' req finished (scratch ++ [x]) true
          end
      end
  end.

(** The report of a wedge: the engine is not read behind a latched fault. *)
Definition wedge_report (faulted : bool) (err : errno) : mprog unit :=
  a ← get_ane;
  if a_wedged a then modify (set_wedged true (a_pins a))
  else
    modify (set_wedged true (a_pins a + 1));;
    behind ← (if faulted || bool_decide (err = EIO) then mret true
              else f ← ane_dart_faulted_at; mret (bool_decide (is_Some f)));
    if (behind : bool) then mret tt
    else
      for_each [TM_STATUS; TM_ERROR1; TM_ERROR2; TM_ERROR3; TM_IRQ_EVTC 0; TM_IRQ_EVTC 1]
        (fun reg => tm_read32 reg;; mret tt).

(** A task whose completion was not established: the engine may still run. *)
Definition wedge (err : errno) (faulted : bool) (scratch : list (Z * Z)) : mprog (option errno) :=
  modify (set_dma true);;
  wedge_report faulted err;;
  ane_dart_unmask;;
  match scratch with
  | _ :: _ => modify (set_retained ((fun x => (x.1, [x.2])) <$> scratch));; mret (Some err)
  | [] => ane_tm_recover;; mret (Some err)
  end.

(** Take the queue entry off: [status & ~1], then the queue off. *)
Definition close_queue (qid status : Z) : mprog unit :=
  tq_write32 (TQ_NID1 qid) (Z.land status (U32_MAX - 1));;
  tq_write32 (TQ_STATUS qid) 0x0.

(** After the loop. *)
Definition finish_task (req : ane_request) (err : option errno) (faulted : bool) (scratch : list (Z * Z))
    : mprog (option errno) :=
  if faulted then
    bad ← (match err with Some _ => mret true | None => ane_dart_faulted end);
    if (bad : bool) then wedge (default EIO err) faulted scratch
    else
      status ← tq_read32 (TQ_NID1 (r_qid req));
      close_queue (r_qid req) status;;
      release_scratch scratch;;
      ane_dart_unmask;;
      mret (Some EIO)
  else
    match err with
    | Some e => wedge e faulted scratch
    | None =>
        status ← tq_read32 (TQ_NID1 (r_qid req));
        if negb (Z.land (Z.shiftr status 8) 0xff =? r_nid req) then wedge EIO faulted scratch
        else
          close_queue (r_qid req) status;;
          ane_dart_unmask;;
          mret None
    end.

Definition ane_tm_execute (env : nat -> option Z * bool) (req : ane_request) : mprog (option errno) :=
  ane_dart_mask;;
  '(_, r) ← ane_tm_collect_events None 0;
  match r with
  | inr e => wedge e false []
  | inl _ =>
      ane_tm_push_tq req;;
      '(err, faulted, scratch) ← task_loop env (Z.to_nat ANE_DART_SCRATCH_MAX) req 0 [] false;
      finish_task req err faulted scratch
  end.
End tm.

(** ** A monitor of the access log

    [m_latched]: the DARTs whose error register last read as faulted; none
    has been read at first ([mon0]), which says nothing of the hardware. An
    engine access is refused while there are any; switching a power domain
    clears them. A fault that no read has shown is not seen: the hazard the
    source names at its poll remains. The rest watches one task: it was pushed, its finish event
    came on both lines, the engine then read idle, a DART fault was seen. *)

Record mon := Mon {
  m_latched : gset nat; m_pushed : bool; m_line0 : bool; m_line1 : bool; m_done : bool; m_fault : bool;
}.

Definition mon0 : mon := Mon ∅ false false false false false.

Definition mon_engine (req : ane_request) (m : mon) (w : bool) (off v : Z) : mon :=
  if w && (off =? TM_PUSH) then Mon (m_latched m) true false false false false
  else if negb w && (off =? TM_IRQ_INFO 0) && (v =? finish_info req)
  then Mon (m_latched m) (m_pushed m) (m_pushed m) (m_line1 m) (m_done m) (m_fault m)
  else if negb w && (off =? TM_IRQ_INFO 1) && (v =? finish_info req)
  then Mon (m_latched m) (m_pushed m) (m_line0 m) (m_pushed m) (m_done m) (m_fault m)
  else if negb w && (off =? TM_STATUS)
  then Mon (m_latched m) (m_pushed m) (m_line0 m) (m_line1 m)
         (m_line0 m && m_line1 m && negb (Z.land v TM_IS_IDLE =? 0)) (m_fault m)
  else m.

Definition mon_step (req : ane_request) (m : mon) (x : access) : option mon :=
  match x with
  | ATm w off v => if bool_decide (m_latched m = ∅) then Some (mon_engine req m w off v) else None
  | ATq _ _ _ => if bool_decide (m_latched m = ∅) then Some m else None
  | ADart i false off v =>
      if off =? DART_ERROR then
        if Z.land v DART_ERROR_FLAG =? 0
        then Some (Mon (m_latched m ∖ {[i]}) (m_pushed m) (m_line0 m) (m_line1 m) (m_done m) (m_fault m))
        else Some (Mon ({[i]} ∪ m_latched m) (m_pushed m) (m_line0 m) (m_line1 m) (m_done m) true)
      else Some m
  | ADart _ true _ _ | APs _ _ => Some m
  | APower _ _ => Some (Mon ∅ (m_pushed m) (m_line0 m) (m_line1 m) (m_done m) (m_fault m))
  end.

Fixpoint mon_run (req : ane_request) (m : mon) (l : list access) : option mon :=
  match l with
  | [] => Some m
  | x :: l => m ← mon_step req m x; mon_run req m l
  end.

Lemma mon_run_app req m l1 l2 : mon_run req m (l1 ++ l2) = m ← mon_run req m l1; mon_run req m l2.
Proof.
  revert m. induction l1 as [|x l1 IH]; intros m; [done|]. cbn. destruct (mon_step req m x) as [m'|]; [|done].
  cbn. apply IH.
Qed.

(** ** Triples over the monitor and the device *)

Section triples.
Context `{HI : Iommu} `{HM : DrmMm} `{HE : Engine} (shift : Z) (bd : board) (req : ane_request).

Definition tri {A} (P : mon -> ane -> Prop) (m : mprog A) (Q : A -> mon -> ane -> Prop) : Prop :=
  forall s g, P g (s_ane s) -> exists l g',
    s_log (m s).2 = s_log s ++ l /\ mon_run req g l = Some g' /\ Q (m s).1 g' (s_ane (m s).2).

Lemma tri_ret {A} (a : A) P : tri P (mret a) (fun r g x => r = a /\ P g x).
Proof. intros s g HP. exists [], g. cbn. by rewrite app_nil_r. Qed.

Lemma tri_val {A} (a : A) (P : mon -> ane -> Prop) (Q : A -> mon -> ane -> Prop) :
  (forall g x, P g x -> Q a g x) -> tri P (mret a) Q.
Proof. intros HQ s g HP. exists [], g. cbn. rewrite app_nil_r. auto. Qed.

Lemma tri_bind {A B} P (m : mprog A) Q (f : A -> mprog B) R :
  tri P m Q -> (forall a, tri (Q a) (f a) R) -> tri P (mbind f m) R.
Proof.
  intros Hm Hf s g HP. destruct (Hm s g HP) as (l1 & g1 & E1 & R1 & H1).
  unfold mbind, mprog_bind. destruct (m s) as [a s1]. cbn [fst snd] in *.
  destruct (Hf a s1 g1 H1) as (l2 & g2 & E2 & R2 & H2). exists (l1 ++ l2), g2.
  split; [by rewrite E2 E1 app_assoc|]. split; [by rewrite mon_run_app R1|done].
Qed.

Lemma tri_conseq {A} (P P' : mon -> ane -> Prop) (m : mprog A) Q Q' :
  tri P m Q -> (forall g x, P' g x -> P g x) -> (forall a g x, Q a g x -> Q' a g x) -> tri P' m Q'.
Proof.
  intros Hm HP HQ s g H. destruct (Hm s g (HP _ _ H)) as (l & g' & E & R & H'). exists l, g'. auto.
Qed.

Lemma tri_pre {A} (P P' : mon -> ane -> Prop) (m : mprog A) Q :
  tri P m Q -> (forall g x, P' g x -> P g x) -> tri P' m Q.
Proof. intros Hm HP. by eapply tri_conseq. Qed.

(** A fact that does not depend on the state. *)
Lemma tri_pure {A} (F : Prop) P (m : mprog A) Q : (F -> tri P m Q) -> tri (fun g x => F /\ P g x) m Q.
Proof. intros Hm s g [HF HP]. by apply Hm. Qed.

Lemma tri_exists {A B} (P : B -> mon -> ane -> Prop) (m : mprog A) Q :
  (forall b, tri (P b) m Q) -> tri (fun g x => exists b, P b g x) m Q.
Proof. intros Hm s g [b HP]. by apply (Hm b). Qed.

Lemma tri_get P : tri P get_ane (fun a g x => a = x /\ P g x).
Proof. intros s g HP. exists [], g. cbn. by rewrite app_nil_r. Qed.

Lemma tri_modify f P : tri (fun g x => P g (f x)) (modify f) (fun _ => P).
Proof. intros s g HP. exists [], g. cbn. by rewrite app_nil_r. Qed.

Lemma tri_polls P : tri P get_polls (fun _ => P).
Proof. intros s g HP. exists [], g. cbn. by rewrite app_nil_r. Qed.

Lemma tri_read rd acc P (Q : Z -> mon -> ane -> Prop) :
  (forall v g x, P g x -> exists g', mon_step req g (acc v) = Some g' /\ Q v g' x) -> tri P (hw_read rd acc) Q.
Proof.
  intros Hs s g HP. unfold hw_read. destruct (rd (s_eng s)) as [v e]. cbn.
  destruct (Hs v g (s_ane s) HP) as (g' & Hg & HQ). exists [acc v], g'. cbn. by rewrite Hg.
Qed.

Lemma tri_write wr acc P (Q : mon -> ane -> Prop) :
  (forall g x, P g x -> exists g', mon_step req g acc = Some g' /\ Q g' x) -> tri P (hw_write wr acc) (fun _ => Q).
Proof.
  intros Hs s g HP. cbn. destruct (Hs g (s_ane s) HP) as (g' & Hg & HQ). exists [acc], g'. cbn. by rewrite Hg.
Qed.

(** Loops keep an invariant. *)
Lemma tri_for_each {A} (l : list A) f (P : mon -> ane -> Prop) :
  (forall a, tri P (f a) (fun _ => P)) -> tri P (for_each l f) (fun _ => P).
Proof.
  intros Hf. induction l as [|a l IH].
  - eapply tri_conseq; [apply (tri_ret tt P)|done|]. by intros ? ? ? [_ ?].
  - cbn [for_each]. eapply tri_bind; [apply Hf|]. intros ?. exact IH.
Qed.

Lemma tri_poll_loop {A} n (op : mprog A) cond (P : mon -> ane -> Prop) (Q : A -> mon -> ane -> Prop) :
  tri P op Q -> (forall a g x, Q a g x -> P g x) ->
  tri P (poll_loop n op cond) (fun r g x => Q r.1 g x /\ (r.2 = None -> cond r.1 = true) /\
    (forall e, r.2 = Some e -> cond r.1 = false)).
Proof.
  intros Hop HQP. induction n as [|n IH]; cbn [poll_loop]; (eapply tri_bind; [apply Hop|]); intros a;
    destruct (cond a) eqn:Hc.
  1,3: eapply tri_conseq; [apply (tri_ret (a, None) (Q a))|done|]; by intros ? ? ? [-> ?].
  - eapply tri_conseq; [apply (tri_ret (a, Some ETIMEDOUT) (Q a))|done|]. by intros ? ? ? [-> ?].
  - eapply tri_pre; [apply IH|]. apply HQP.
Qed.

(** *** Engine code with the latch clear *)

(** No DART is latched, and a property of the device. *)
Definition calm (X : ane -> Prop) (g : mon) (x : ane) : Prop := m_latched g = ∅ /\ X x.

Lemma mon_engine_latched g w off v : m_latched (mon_engine req g w off v) = m_latched g.
Proof. unfold mon_engine. by repeat case_match. Qed.

Lemma tm_read_calm off X : tri (calm X) (tm_read32 off) (fun _ => calm X).
Proof.
  apply tri_read. intros v g x [Hl HX]. cbn [mon_step]. rewrite bool_decide_eq_true_2 //. eexists. split; [done|].
  split; [by rewrite mon_engine_latched|done].
Qed.

Lemma tm_write_calm off v X : tri (calm X) (tm_write32 off v) (fun _ => calm X).
Proof.
  apply tri_write. intros g x [Hl HX]. cbn [mon_step]. rewrite bool_decide_eq_true_2 //. eexists. split; [done|].
  split; [by rewrite mon_engine_latched|done].
Qed.

Lemma tq_read_any off (P : mon -> ane -> Prop) : (forall g x, P g x -> m_latched g = ∅) -> tri P (tq_read32 off) (fun _ => P).
Proof. intros HP. apply tri_read. intros v g x H. cbn [mon_step]. rewrite bool_decide_eq_true_2; [by eexists|by eapply HP]. Qed.

Lemma tq_write_any off v (P : mon -> ane -> Prop) : (forall g x, P g x -> m_latched g = ∅) -> tri P (tq_write32 off v) (fun _ => P).
Proof. intros HP. apply tri_write. intros g x H. cbn [mon_step]. rewrite bool_decide_eq_true_2; [by eexists|by eapply HP]. Qed.

Lemma tri_ret_keep {A} (a : A) P : tri P (mret a) (fun _ => P).
Proof. eapply tri_conseq; [apply (tri_ret a P)|done|]. by intros ? ? ? [_ ?]. Qed.

(** Code that keeps [calm X], step by step. *)
Ltac calm_step :=
  lazymatch goal with
  | |- tri _ (mbind _ _) _ => eapply tri_bind; [|let v := fresh "v" in intros v; cbv beta]
  | |- tri _ (tm_read32 _) _ => apply tm_read_calm
  | |- tri _ (tm_write32 _ _) _ => apply tm_write_calm
  | |- tri _ (tq_read32 _) _ => apply tq_read_any; by intros ? ? [? _]
  | |- tri _ (tq_write32 _ _) _ => apply tq_write_any; by intros ? ? [? _]
  | |- tri _ (mret _) _ => apply tri_ret_keep
  | |- tri _ (for_each _ _) _ => apply tri_for_each; let v := fresh "v" in intros v; cbv beta
  | |- tri _ (match ?x with _ => _ end) _ => destruct x
  | |- tri _ (if ?x then _ else _) _ => destruct x
  end.
Ltac calm := repeat calm_step.

Lemma pop_events_calm n line r f X : tri (calm X) (pop_events n line r f) (fun _ => calm X).
Proof. revert f. induction n as [|n IH]; intros f; cbn [pop_events]; calm. apply IH. Qed.

Lemma collect_calm r f X : tri (calm X) (ane_tm_collect_events r f) (fun _ => calm X).
Proof.
  assert (forall line f, tri (calm X) (collect_line line r f) (fun _ => calm X)) as Hl.
  { intros line f'. unfold collect_line. calm. apply pop_events_calm. }
  unfold ane_tm_collect_events. eapply tri_bind; [apply Hl|]. intros [f0|]; [|apply tri_ret_keep].
  eapply tri_bind; [apply Hl|]. intros [f1|]; [|apply tri_ret_keep]. calm.
Qed.

Lemma enable_calm X : tri (calm X) ane_tm_enable (fun _ => calm X).
Proof. unfold ane_tm_enable. calm. Qed.

Lemma drain_retained_calm X : tri (calm X) ane_tm_drain_retained (fun _ => calm X).
Proof.
  assert (forall n line, tri (calm X) (drain_line n line) (fun _ => calm X)) as Hl.
  { intros n line. induction n as [|n IH]; cbn [drain_line]; calm. exact IH. }
  unfold ane_tm_drain_retained, clear_error, clear_queue. calm. apply Hl.
Qed.

Lemma push_calm r X : tri (calm X) (ane_tm_push_tq r) (fun _ g x => calm X g x /\ m_pushed g = true /\
  m_line0 g = false /\ m_line1 g = false /\ m_fault g = false).
Proof.
  unfold ane_tm_push_tq. calm. apply tri_write. intros g x [Hl HX]. cbn [mon_step]. rewrite bool_decide_eq_true_2 //. by eexists.
Qed.

(** Power-state reads touch nothing the monitor watches. *)
Lemma ps_act_any P : tri P (ane_ps_act bd) (fun _ => P).
Proof.
  unfold ane_ps_act. destruct (ps_mapped bd); [|apply tri_ret_keep]. generalize ANE_PS_WORDS at 1. intros n.
  generalize 0 at 1. generalize 0. revert n. induction n as [|n IH]; intros i v; cbn [ps_words]; [apply tri_ret_keep|].
  eapply tri_bind; [apply (tri_read _ _ P (fun _ => P)); intros; by eexists|]. intros w. apply IH.
Qed.

Lemma verify_on_any P : tri P (ane_ps_verify_on bd) (fun _ => P).
Proof.
  unfold ane_ps_verify_on. destruct (ps_mapped bd); [|apply tri_ret_keep]. generalize 100%nat. intros n.
  induction n as [|n IH]; cbn [verify_tries]; [apply tri_ret_keep|]. eapply tri_bind; [apply ps_act_any|].
  intros act. destruct (act =? ANE_PS_ALL_ON); [apply tri_ret_keep|apply IH].
Qed.

(** *** The latch *)

(** What the monitor knows of the task. *)
Definition task_core (g : mon) : bool * bool * bool * bool := (m_pushed g, m_line0 g, m_line1 g, m_done g).

Abbreviation ndarts := (length (dart_sids bd)).

(** Latched DARTs are among those from [i] to [i + k - 1]. *)
Definition within (i k : nat) (g : mon) : Prop := forall j, j ∈ m_latched g -> (i <= j < i + k)%nat.

(** A relation on the rest of the monitor and the device. *)
Abbreviation rel := (bool * bool * bool * bool -> bool -> ane -> Prop).

Definition scanned (R : rel) (i k : nat) (hit : bool) (g : mon) (x : ane) : Prop :=
  if hit then within 0 (i + k) g /\ m_fault g = true /\ exists F, R (task_core g) F x
  else m_latched g = ∅ /\ R (task_core g) (m_fault g) x.

Lemma dart_error_read i k (R : rel) :
  tri (fun g x => within i (S k) g /\ R (task_core g) (m_fault g) x) (dart_read i DART_ERROR)
    (fun v g x => if Z.land v DART_ERROR_FLAG =? 0 then within (S i) k g /\ R (task_core g) (m_fault g) x
                  else within 0 (i + S k) g /\ m_fault g = true /\ exists F, R (task_core g) F x).
Proof.
  apply tri_read. intros v g x [Hw HR]. cbn [mon_step]. rewrite Z.eqb_refl. destruct (Z.land v DART_ERROR_FLAG =? 0).
  - eexists. split; [done|]. split; [|done]. intros j [Hj Hne]%elem_of_difference.
    specialize (Hw j Hj). rewrite elem_of_singleton in Hne. lia.
  - eexists. split; [done|]. split; [|by split; [|eexists]]. intros j [->%elem_of_singleton|Hj]%elem_of_union; [lia|].
    specialize (Hw j Hj). lia.
Qed.

Lemma dart_addr_read i off P : (off =? DART_ERROR) = false -> tri P (dart_read i off) (fun _ => P).
Proof. intros Ho. apply tri_read. intros v g x HP. cbn [mon_step]. rewrite Ho. by eexists. Qed.

Lemma within_nil i g : within i 0 g -> m_latched g = ∅.
Proof. intros Hw. apply set_eq. intros j. split; [intros Hj; specialize (Hw j Hj); lia|set_solver]. Qed.

Lemma dart_flags_spec k i (R : rel) :
  tri (fun g x => within i k g /\ R (task_core g) (m_fault g) x) (dart_flags k i) (scanned R i k).
Proof.
  revert i. induction k as [|k IH]; intros i; cbn [dart_flags].
  { apply tri_val. intros g x (Hw & HR). split; [by eapply within_nil|done]. }
  eapply tri_bind; [apply dart_error_read|]. intros v. cbv beta. destruct (Z.land v DART_ERROR_FLAG =? 0).
  - eapply tri_conseq; [apply (IH (S i))|done|]. intros [] g x; [|done]. unfold scanned. by replace (i + S k)%nat with (S i + k)%nat by lia.
  - by apply tri_val.
Qed.

Lemma dart_scan_spec k i (R : rel) :
  tri (fun g x => within i k g /\ R (task_core g) (m_fault g) x) (dart_scan k i)
    (fun r => scanned R i k (bool_decide (is_Some r))).
Proof.
  revert i. induction k as [|k IH]; intros i; cbn [dart_scan].
  { apply tri_val. intros g x (Hw & HR). split; [by eapply within_nil|done]. }
  eapply tri_bind; [apply dart_error_read|]. intros v. cbv beta. destruct (Z.land v DART_ERROR_FLAG =? 0).
  - eapply tri_conseq; [apply (IH (S i))|done|]. intros r g x. unfold scanned. by replace (i + S k)%nat with (S i + k)%nat by lia.
  - eapply tri_bind; [by apply dart_addr_read|]. intros lo. eapply tri_bind; [by apply dart_addr_read|]. intros hi.
    by apply tri_val.
Qed.

Lemma faulted_spec (R : rel) :
  tri (fun g x => within 0 ndarts g /\ R (task_core g) (m_fault g) x) (ane_dart_faulted bd) (scanned R 0 ndarts).
Proof. apply dart_flags_spec. Qed.

Lemma faulted_at_spec (R : rel) :
  tri (fun g x => within 0 ndarts g /\ R (task_core g) (m_fault g) x) (ane_dart_faulted_at bd)
    (fun r => scanned R 0 ndarts (bool_decide (is_Some r))).
Proof. apply dart_scan_spec. Qed.

Lemma within_empty i k g : m_latched g = ∅ -> within i k g.
Proof. intros E j. rewrite E. set_solver. Qed.

(** DART commands are no error reads. *)
Lemma invalidate_any P : tri P (invalidate_all bd) (fun _ => P).
Proof.
  unfold invalidate_all. apply tri_for_each. intros [i sid]. apply (tri_bind P _ (fun _ => P)); [|intros ?; apply tri_ret_keep].
  unfold ane_dart_invalidate. destruct (sid >=? 32); [apply tri_ret_keep|].
  eapply tri_bind; [apply (tri_write _ _ P P); intros; by eexists|]. intros ?.
  eapply tri_bind; [apply (tri_write _ _ P P); intros; by eexists|]. intros ?.
  apply (tri_bind P _ (fun _ => P)); [|intros [? ?]; apply tri_ret_keep]. unfold read_poll_timeout.
  eapply tri_bind; [apply tri_polls|]. intros n. eapply tri_conseq; [apply (tri_poll_loop n _ _ P (fun _ => P))|done|].
  - by apply dart_addr_read.
  - done.
  - by intros ? ? ? [? _].
Qed.

(** *** One task *)

(** The lines that [finished] names have delivered the finish event. *)
Definition okcore (fin : Z) (c : bool * bool * bool * bool) : Prop :=
  let '(p, l0, l1, d) := c in
  p = true /\ (Z.testbit fin 0 = true -> l0 = true) /\ (Z.testbit fin 1 = true -> l1 = true) /\ 0 <= fin < 4.

Definition tasking (fin : Z) (F : bool) (X : ane -> Prop) (g : mon) (x : ane) : Prop :=
  m_latched g = ∅ /\ okcore fin (task_core g) /\ m_fault g = F /\ X x.

Lemma tm_read_neutral off (P : mon -> ane -> Prop) :
  (forall g x, P g x -> m_latched g = ∅) -> off ∉ [TM_IRQ_INFO 0; TM_IRQ_INFO 1; TM_STATUS] ->
  tri P (tm_read32 off) (fun _ => P).
Proof.
  intros HP Hoff. apply tri_read. intros v g x H. cbn [mon_step]. rewrite bool_decide_eq_true_2; [|by eapply HP].
  eexists. split; [done|]. unfold mon_engine. cbn [andb negb].
  destruct (Z.eqb_spec off (TM_IRQ_INFO 0)) as [->|]; [by destruct Hoff; left|].
  destruct (Z.eqb_spec off (TM_IRQ_INFO 1)) as [->|]; [by destruct Hoff; right; left|].
  destruct (Z.eqb_spec off TM_STATUS) as [->|]; [by destruct Hoff; right; right; left|]. done.
Qed.

Lemma tm_write_neutral off v (P : mon -> ane -> Prop) :
  (forall g x, P g x -> m_latched g = ∅) -> off <> TM_PUSH -> tri P (tm_write32 off v) (fun _ => P).
Proof.
  intros HP Hoff. apply tri_write. intros g x H. cbn [mon_step]. rewrite bool_decide_eq_true_2; [|by eapply HP].
  eexists. split; [done|]. unfold mon_engine. destruct (Z.eqb_spec off TM_PUSH); [done|]. done.
Qed.

Lemma tasking_clear fin F X g x : tasking fin F X g x -> m_latched g = ∅.
Proof. by intros [? _]. Qed.

Lemma info_read line fin F X :
  line = 0 \/ line = 1 -> tri (tasking fin F X) (tm_read32 (TM_IRQ_INFO line))
    (fun v => tasking (if v =? finish_info req then Z.lor fin (Z.shiftl 1 line) else fin) F X).
Proof.
  intros Hline. apply tri_read. intros v g x (Hl & Hc & HF & HX). cbn [mon_step]. rewrite bool_decide_eq_true_2 //.
  eexists. split; [done|]. unfold task_core, okcore in Hc. destruct Hc as (Hp & H0 & H1 & Hr).
  assert (0 <= Z.lor fin (Z.shiftl 1 line) < 4) as Hr'.
  { apply (in_range_lor 2); [lia|done|]. unfold in_range. destruct Hline as [-> | ->]; done. }
  unfold mon_engine. destruct Hline as [-> | ->].
  1: change (TM_IRQ_INFO 0 =? TM_IRQ_INFO 0) with true; change (TM_IRQ_INFO 0 =? TM_IRQ_INFO 1) with false;
     change (TM_IRQ_INFO 0 =? TM_STATUS) with false.
  2: change (TM_IRQ_INFO 1 =? TM_IRQ_INFO 0) with false; change (TM_IRQ_INFO 1 =? TM_IRQ_INFO 1) with true;
     change (TM_IRQ_INFO 1 =? TM_STATUS) with false.
  all: destruct (v =? finish_info req); cbn [andb negb]; [|exact (conj Hl (conj (conj Hp (conj H0 (conj H1 Hr))) (conj HF HX)))].
  - rewrite Hp. split; [done|]. split; [|done]. cbn. split; [done|]. split; [done|]. split; [|done].
    intros Hb. apply H1. change (Z.testbit (Z.lor fin 1) 1 = true) in Hb. rewrite Z.lor_spec orb_false_r in Hb. exact Hb.
  - rewrite Hp. split; [done|]. split; [|done]. cbn. split; [done|]. split; [|done].
    intros Hb. apply H0. change (Z.testbit (Z.lor fin 2) 0 = true) in Hb. rewrite Z.lor_spec orb_false_r in Hb. exact Hb.
Qed.

Lemma pop_events_task n line fin F X :
  line = 0 \/ line = 1 ->
  tri (tasking fin F X) (pop_events n line (Some req) fin) (fun f => tasking f F X).
Proof.
  intros Hline. revert fin. induction n as [|n IH]; intros fin; cbn [pop_events]; [by apply tri_val|].
  eapply tri_bind; [by apply info_read|]. intros v. cbv beta.
  assert (TM_IRQ_UNK1 line ∉ [TM_IRQ_INFO 0; TM_IRQ_INFO 1; TM_STATUS] /\
          TM_IRQ_TMST line ∉ [TM_IRQ_INFO 0; TM_IRQ_INFO 1; TM_STATUS] /\
          TM_IRQ_UNK2 line ∉ [TM_IRQ_INFO 0; TM_IRQ_INFO 1; TM_STATUS]) as (N1 & N2 & N3).
  { rewrite !not_elem_of_cons. unfold TM_IRQ_UNK1, TM_IRQ_TMST, TM_IRQ_UNK2, TM_IRQ_INFO, TM_STATUS.
    pose proof (not_elem_of_nil (A := Z)). destruct Hline as [-> | ->]; repeat split; done. }
  do 3 (eapply tri_bind; [apply tm_read_neutral; [apply tasking_clear|done]|]; intros ?; cbv beta). apply IH.
Qed.

Lemma collect_line_task line fin F X :
  line = 0 \/ line = 1 ->
  tri (tasking fin F X) (collect_line line (Some req) fin)
    (fun r => match r with Some f => tasking f F X | None => tasking fin F X end).
Proof.
  intros Hline. unfold collect_line. eapply tri_bind.
  { apply tm_read_neutral; [apply tasking_clear|]. rewrite !not_elem_of_cons. unfold TM_IRQ_EVTC, TM_IRQ_INFO, TM_STATUS.
    pose proof (not_elem_of_nil (A := Z)). destruct Hline as [-> | ->]; repeat split; done. }
  intros count. cbv beta. destruct (count >? 64); [by apply tri_val|].
  eapply tri_bind; [by apply pop_events_task|]. intros f. by apply tri_val.
Qed.

Lemma okcore_3 g : okcore 3 (task_core g) -> m_line0 g = true /\ m_line1 g = true.
Proof. intros (_ & H0 & H1 & _). split; [by apply H0|by apply H1]. Qed.

Lemma status_read F X :
  tri (tasking 3 F X) (tm_read32 TM_STATUS)
    (fun v g x => tasking 3 F X g x /\ m_done g = negb (Z.land v TM_IS_IDLE =? 0)).
Proof.
  apply tri_read. intros v g x (Hl & Hc & HF & HX). cbn [mon_step]. rewrite bool_decide_eq_true_2 //.
  eexists. split; [done|]. unfold mon_engine. cbn [andb negb].
  change (TM_STATUS =? TM_IRQ_INFO 0) with false. change (TM_STATUS =? TM_IRQ_INFO 1) with false.
  rewrite Z.eqb_refl. cbn [andb negb]. destruct (okcore_3 g Hc) as [E0 E1]. split; [|cbn; by rewrite E0 E1].
  split; [done|]. split; [exact Hc|done].
Qed.

Lemma collect_task fin F X :
  tri (tasking fin F X) (ane_tm_collect_events (Some req) fin)
    (fun r g x => tasking r.1 F X g x /\ (r.2 = inl true -> m_done g = true)).
Proof.
  unfold ane_tm_collect_events. eapply tri_bind; [apply collect_line_task; by left|]. intros [f0|]; [|by apply tri_val].
  eapply tri_bind; [apply collect_line_task; by right|]. intros [f|]; [|by apply tri_val].
  eapply tri_bind; [apply tm_read_neutral; [apply tasking_clear|set_solver]|]. intros ack. cbv beta.
  eapply tri_bind; [apply tm_write_neutral; [apply tasking_clear|done]|]. intros ?. cbv beta.
  destruct (Z.eqb_spec f 3) as [->|]; [|by apply tri_val].
  eapply tri_bind; [apply status_read|]. intros st. apply tri_val. intros g x [Ht Hd]. split; [done|].
  intros [= Hb]. congruence.
Qed.

(** Before a poll: latches may be set; [fl] is the loop's [faulted]. *)
Definition polling (fin : Z) (fl : bool) (X : ane -> Prop) (g : mon) (x : ane) : Prop :=
  within 0 ndarts g /\ okcore fin (task_core g) /\ (fl = false -> m_fault g = false) /\ X x.

Definition polled (fl : bool) (X : ane -> Prop) (r : Z * (bool + errno)) (g : mon) (x : ane) : Prop :=
  within 0 ndarts g /\ okcore r.1 (task_core g) /\ X x /\
  match r.2 with
  | inr _ => True
  | inl b => m_latched g = ∅ /\ (fl = false -> m_fault g = false) /\ (b = true -> m_done g = true)
  end.

Lemma poll_step_task fin fl X :
  tri (polling fin fl X) (ane_tm_poll_step bd req fin) (polled fl X).
Proof.
  unfold ane_tm_poll_step. eapply tri_bind.
  { eapply tri_pre; [apply (faulted_spec (fun c F x => okcore fin c /\ (fl = false -> F = false) /\ X x))|].
    by intros g x (? & ? & ? & ?). }
  intros []; cbv beta.
  - apply tri_val. intros g x (Hw & HF & F & Hc & _ & HX). exact (conj Hw (conj Hc (conj HX I))).
  - cbn [scanned]. intros s g (Hl & Hc & HF & HX).
    destruct (collect_task fin (m_fault g) X s g (conj Hl (conj Hc (conj eq_refl HX)))) as (l & g' & E & Hrun & (Hl' & Hc' & HF' & HX') & Hd).
    exists l, g'. split; [done|]. split; [done|].
    split; [by apply within_empty|]. split; [done|]. split; [done|].
    destruct (ane_tm_collect_events (Some req) fin s).1.2 as [b|]; [|done]. split; [done|].
    split; [intros; rewrite HF'; auto|]. intros ->. auto.
Qed.

Lemma poll_task_spec n fin fl X :
  tri (polling fin fl X) (poll_task bd n req fin)
    (fun r g x => polled fl X r.1 g x /\ (r.2 = None -> r.1.2 <> inl false)).
Proof.
  revert fin. induction n as [|n IH]; intros fin; cbn [poll_task]; (eapply tri_bind; [apply poll_step_task|]);
    intros [f [[]|e]]; try (by apply tri_val).
  eapply tri_pre; [apply IH|]. intros g x (Hw & Hc & HX & Hl & HF & _). exact (conj Hw (conj Hc (conj HF HX))).
Qed.

(** *** Recovery *)

(** The device alone. *)
Definition dev (X : ane -> Prop) (g : mon) (x : ane) : Prop := X x.

Lemma pm_suspend_spec i X : tri (dev X) (pm_suspend i) (fun _ => calm X).
Proof.
  intros s g HX. unfold pm_suspend. destruct (force_suspend i (s_eng s)) as [e r].
  exists [APower false i]. eexists. by repeat split.
Qed.

Lemma pm_resume_spec i X : tri (dev X) (pm_resume i) (fun _ => calm X).
Proof.
  intros s g HX. unfold pm_resume. destruct (force_resume i (s_eng s)) as [e r].
  exists [APower true i]. eexists. by repeat split.
Qed.

Lemma calm_dev X g x : calm X g x -> dev X g x.
Proof. by intros [_ ?]. Qed.

Lemma each_domain_spec f l X :
  (forall i, tri (dev X) (f i) (fun _ => calm X)) -> tri (calm X) (each_domain f l) (fun _ => calm X).
Proof.
  intros Hf. induction l as [|i l IH]; cbn [each_domain]; [apply tri_ret_keep|].
  eapply tri_bind; [eapply tri_pre; [apply Hf|apply calm_dev]|]. intros [e|]; [apply tri_ret_keep|apply IH].
Qed.

Lemma runtime_resume_spec X :
  (forall v x, X x -> X (set_fresh v x)) -> tri (calm X) (ane_runtime_resume bd) (fun _ => calm X).
Proof.
  intros HX. unfold ane_runtime_resume. apply (tri_bind _ _ (fun _ => calm X)).
  { apply (tri_bind _ _ (fun _ => calm X)); [eapply tri_conseq; [apply tri_get|done|]; by intros ? ? ? [_ ?]|].
    intros y. destruct (a_status_fresh y); [apply tri_ret_keep|]. eapply tri_bind; [apply ps_act_any|]. intros ?. apply tri_ret_keep. }
  intros ?. eapply tri_bind; [apply enable_calm|]. intros ?.
  apply (tri_bind _ _ (fun _ => calm X)); [eapply tri_conseq; [apply tri_get|done|]; by intros ? ? ? [_ ?]|].
  intros y. destruct (a_status_fresh y); [apply tri_ret_keep|]. eapply tri_bind; [apply tm_read_calm|]. intros st. cbv beta.
  eapply tri_bind; [eapply tri_pre; [apply (tri_modify (set_fresh (Some st)) (calm X))|]|].
  - intros g x [Hl Hx]. split; [done|by apply HX].
  - intros ?. eapply tri_bind; [apply ps_act_any|]. intros ?. apply tri_ret_keep.
Qed.

Lemma pd_cycle_spec X :
  (forall v x, X x -> X (set_fresh v x)) -> tri (dev X) (ane_pd_cycle bd) (fun _ => calm X).
Proof.
  intros HX. unfold ane_pd_cycle. destruct (1 <? pd_count bd)%nat eqn:Hc.
  - eapply tri_bind.
    { apply Nat.ltb_lt in Hc. destruct (pd_count bd) as [|n]; [lia|]. cbn [seq each_domain].
      eapply tri_bind; [apply pm_suspend_spec|]. intros [e|]; [apply tri_ret_keep|]. apply each_domain_spec.
      intros i. apply pm_suspend_spec. }
    intros [e|]; [apply tri_ret_keep|]. apply each_domain_spec. intros i. apply pm_resume_spec.
  - eapply tri_bind; [apply pm_suspend_spec|]. intros [e|]; [apply tri_ret_keep|].
    eapply tri_bind; [eapply tri_pre; [apply pm_resume_spec|apply calm_dev]|]. intros [e|]; [apply tri_ret_keep|].
    eapply tri_bind; [by apply runtime_resume_spec|]. intros ?. apply tri_ret_keep.
Qed.

(** What recovery does to the device when it succeeds. *)
Definition recovered (x : ane) : ane :=
  let x := set_wedged false (a_pins x - 1) (set_quiesced false x) in
  set_preserved [] (set_space (fold_left (reclaim_one shift) (a_preserved x) (a_space x)) x).

(** A device property that every step of a recovery keeps. *)
Record recover_closed (Dev : ane -> Prop) : Prop := {
  rc_por x : Dev x -> Dev (set_por false x);
  rc_fresh v x : Dev x -> Dev (set_fresh v x);
  rc_quiet x : Dev x -> a_por_pending x = true -> a_quiesced x = true;
  rc_cycle x : Dev x -> a_wedged x = true -> a_scratch_retained x = false -> Dev (set_quiesced true (set_gated x));
  rc_ok x : Dev x -> a_wedged x = true -> a_scratch_retained x = false -> a_quiesced x = true ->
    a_por_pending x = false -> Dev (recovered x);
}.

Lemma check_spec Dev :
  recover_closed Dev ->
  tri (calm (fun x => Dev x /\ a_wedged x = true /\ a_scratch_retained x = false /\ a_quiesced x = true /\
               a_por_pending x = false))
    (recover_check shift) (fun r g x => Dev x /\ (r = None -> a_wedged x = false)).
Proof.
  intros Hrc. unfold recover_check. set (X := fun x => _).
  apply (tri_bind _ _ (fun _ => calm X)); [eapply tri_conseq; [apply tri_get|done|]; by intros ? ? ? [_ ?]|].
  intros y. unfold read_poll_timeout.
  apply (tri_bind _ _ (fun _ => calm X)).
  { eapply tri_bind; [apply tri_polls|]. intros n. eapply tri_conseq; [apply (tri_poll_loop n _ _ (calm X) (fun _ => calm X))|done|].
    - apply tm_read_calm.
    - done.
    - by intros ? ? ? [? _]. }
  intros [st err]. eapply tri_bind; [apply tm_read_calm|]. intros ?. cbv beta. destruct err as [e|].
  { apply tri_val. intros g x [_ [HD _]]. by split. }
  intros s g [_ (HD & Hw & Hr & Hq & Hp)].
  assert (recover_done shift s = (None, Mach _ _ (s_eng s) (s_log s) (recovered (s_ane s)))) as ->.
  { unfold recover_done, ane_reclaim_preserved, mbind, mprog_bind, get_ane, modify. cbn. rewrite Hw. reflexivity. }
  exists [], g. cbn [fst snd s_log s_ane]. rewrite app_nil_r. split; [done|]. split; [done|]. split; [|done].
  exact (rc_ok _ Hrc _ HD Hw Hr Hq Hp).
Qed.

Lemma recover_spec Dev :
  recover_closed Dev ->
  tri (fun g x => Dev x /\ (m_latched g = ∅ \/ a_por_pending x = false)) (ane_tm_recover shift bd)
    (fun r g x => Dev x /\ (r = None -> a_wedged x = false)).
Proof.
  intros Hrc. unfold ane_tm_recover. eapply tri_bind; [apply tri_get|]. intros y. cbv beta.
  set (Post := fun (r : option errno) (_ : mon) (x : ane) => Dev x /\ (r = None -> a_wedged x = false)).
  intros s g (-> & HD & Hg). revert s g HD Hg.
  intros s g HD Hg. destruct (a_scratch_retained (s_ane s)) eqn:Hret.
  { exists [], g. cbn. by rewrite app_nil_r. }
  destruct (a_wedged (s_ane s)) eqn:Hw; cbn [negb].
  2: { exists [], g. cbn. by rewrite app_nil_r. }
  destruct (a_por_pending (s_ane s)) eqn:Hpor.
  - destruct Hg as [Hl|]; [|done]. pose proof (rc_quiet _ Hrc _ HD Hpor) as Hq.
    set (X := fun x => Dev x /\ a_wedged x = true /\ a_scratch_retained x = false /\ a_quiesced x = true /\ a_por_pending x = false).
    refine ((_ : tri (fun g x => m_latched g = ∅ /\ X (set_por false x)) _ Post) s g _).
    + eapply tri_bind; [apply (tri_modify (set_por false) (calm X))|]. intros ?. cbv beta.
      eapply tri_bind; [apply verify_on_any|]. intros [e|]; [apply tri_val; by intros ? ? (_ & ? & _)|by apply check_spec].
    + split; [done|]. split; [by apply (rc_por _ Hrc)|done].
  - destruct (a_quiesced (s_ane s)) eqn:Hq.
    { exists [], g. cbn. by rewrite app_nil_r. }
    set (X0 := fun x => Dev x /\ a_wedged x = true /\ a_scratch_retained x = false /\ a_por_pending x = false).
    set (X := fun x => Dev x /\ a_wedged x = true /\ a_scratch_retained x = false /\ a_quiesced x = true /\ a_por_pending x = false).
    refine ((_ : tri (dev X0) _ Post) s g _); [|done].
    eapply tri_bind; [apply pd_cycle_spec|].
    { intros v x (H1 & H2 & H3 & H4). split; [by apply (rc_fresh _ Hrc)|done]. }
    intros [e|]; [apply tri_val; by intros ? ? (_ & ? & _)|].
    eapply tri_bind; [eapply tri_pre; [apply (tri_modify set_gated (fun g x => m_latched g = ∅ /\ X (set_quiesced true x)))|]|].
    { intros g' x (Hl & H1 & H2 & H3 & H4). split; [done|]. split; [by apply (rc_cycle _ Hrc)|done]. }
    intros ?. eapply tri_bind; [apply (tri_modify (set_quiesced true) (calm X))|]. intros ?.
    eapply tri_bind; [apply verify_on_any|]. intros [e|]; [apply tri_val; by intros ? ? (_ & ? & _)|].
    apply (tri_bind _ _ (fun _ => calm X)); [destruct (tm_retention bd); [apply drain_retained_calm|apply tri_ret_keep]|].
    intros ?. eapply tri_bind; [apply enable_calm|]. intros ?. by apply check_spec.
Qed.

(** *** Execution *)

(** [Inv fl scr]: the device while a task runs, with the loop's [faulted] and
    its scratch pages; [Dev]: the device between calls. *)
Definition wedging (x : ane) : ane := set_masked false (set_wedged true (a_pins x + 1) (set_dma true x)).
Definition scratch_ranges (scr : list (Z * Z)) : list (Z * list Z) := (fun y => (y.1, [y.2])) <$> scr.

Record exec_closed (env : nat -> option Z * bool) (Inv : bool -> list (Z * Z) -> ane -> Prop) (Dev : ane -> Prop) : Prop := {
  xc_flags fl scr x : Inv fl scr x ->
    a_wedged x = false /\ a_scratch_retained x = false /\ a_por_pending x = false /\ a_quiesced x = false;
  xc_none scr x : Inv false scr x -> scr = [];
  xc_faulted fl scr x : Inv fl scr x -> Inv true scr x;
  xc_drain fl scr x iova sp r : Inv fl scr x ->
    ane_dart_drain_fault shift (env (length scr)).1 (env (length scr)).2 iova (a_space x) = (sp, r) ->
    match r with
    | inl y => Inv true (scr ++ [y]) (set_space sp x)
    | inr _ => Inv true scr (set_space sp x)
    end;
  xc_done x : Inv false [] x -> Dev (set_masked false x);
  xc_contained scr x : Inv true scr x ->
    Dev (set_masked false (set_space (ane_dart_release_scratch shift scr (a_space x)) x));
  xc_wedge scr x : Inv true scr x -> scr <> [] -> Dev (set_retained (scratch_ranges scr) (wedging x));
  xc_wedge0 fl x : Inv fl [] x -> Dev (wedging x);
  xc_recover : recover_closed Dev;
}.

Section execution.
Context (env : nat -> option Z * bool) (Inv : bool -> list (Z * Z) -> ane -> Prop) (Dev : ane -> Prop).
Context (Hxc : exec_closed env Inv Dev).

Lemma drain_fault_spec fl scr iova (C : mon -> Prop) :
  tri (fun g x => C g /\ Inv fl scr x) (drain_fault shift bd (env (length scr)) iova)
    (fun r g x => C g /\ match r with inl y => Inv true (scr ++ [y]) x | inr _ => Inv true scr x end).
Proof using Hxc.
  unfold drain_fault. eapply tri_bind; [apply tri_get|]. intros y. cbv beta.
  destruct (ane_dart_drain_fault shift (env (length scr)).1 (env (length scr)).2 iova (a_space y)) as [sp r] eqn:Hd.
  eapply tri_bind.
  { eapply tri_pre; [apply (tri_modify (set_space sp) (fun g x => C g /\ match r with inl y => Inv true (scr ++ [y]) x | inr _ => Inv true scr x end))|].
    intros g x (-> & HC & HI'). split; [done|]. exact (xc_drain _ _ _ Hxc _ _ _ _ _ _ HI' Hd). }
  intros ?. cbv beta. destruct r as [z|e]; [|by apply tri_val].
  eapply tri_bind; [apply invalidate_any|]. intros ?. by apply tri_val.
Qed.

Definition looped (r : option errno * bool * list (Z * Z)) (g : mon) (x : ane) : Prop :=
  within 0 ndarts g /\ Inv r.1.2 r.2 x /\ (r.1.1 = None -> m_latched g = ∅) /\
  (r.1.1 = None -> r.1.2 = false -> m_done g = true /\ m_fault g = false).

Lemma task_loop_spec n fin scr fl :
  tri (polling fin fl (Inv fl scr)) (task_loop shift bd env n req fin scr fl) looped.
Proof using Hxc.
  revert fin scr fl. induction n as [|n IH]; intros fin scr fl; cbn [task_loop];
    (eapply tri_bind; [apply tri_polls|]); intros k; cbv beta;
    (eapply tri_bind; [apply poll_task_spec|]); intros [[f st] err]; cbv beta; cbn [fst snd];
    set (er := match err, st with None, inr e => Some e | _, _ => err end);
    (eapply tri_bind; [eapply tri_pre; [apply (faulted_at_spec (fun c F x => okcore f c /\ Inv fl scr x /\
       (er = None -> (fl = false -> F = false) /\ (let '(_, _, _, d) := c in d = true))))|]|]).
  1,3: intros g x ((Hw & Hc & HX & Hst) & Hne); cbn [fst snd] in *; split; [done|]; split; [done|]; split; [done|];
    intros Her; subst er; destruct err as [e|]; [done|]; destruct st as [b|e]; [|done];
    destruct Hst as (_ & HF & Hd); split; [done|]; apply Hd; destruct b; [done|]; by destruct Hne.
  all: intros [[stt iova]|]; cbv beta.
  - apply tri_val. intros g x (Hw & HF & F & Hc & HX & _). split; [done|]. split; [by apply (xc_faulted _ _ _ Hxc) in HX|]. by split.
  - apply tri_val. intros g x (Hl & Hc & HX & Hd). split; [by apply within_empty|]. split; [done|]. split; [done|].
    intros He Hfl. destruct (Hd He) as [HF Hdone]. by split; [|apply HF].
  - eapply tri_bind.
    { eapply tri_pre; [apply (drain_fault_spec fl scr iova (fun g => within 0 ndarts g /\ okcore f (task_core g)))|].
      intros g x (Hw & HF & F & Hc & HX & _). by split. }
    intros [y|e]; cbv beta.
    + eapply tri_pre; [apply IH|]. intros g x [[Hw Hc] HX]. by split.
    + apply tri_val. intros g x [[Hw Hc] HX]. split; [done|]. split; [done|]. by split.
  - apply tri_val. intros g x (Hl & Hc & HX & Hd). split; [by apply within_empty|]. split; [done|]. split; [done|].
    intros He Hfl. destruct (Hd He) as [HF Hdone]. by split; [|apply HF].
Qed.

Lemma wedge_report_spec fl err (K : ane -> Prop) :
  tri (fun g x => within 0 ndarts g /\ a_wedged x = false /\ K (set_wedged true (a_pins x + 1) x))
    (wedge_report bd fl err) (fun _ g x => within 0 ndarts g /\ K x).
Proof.
  unfold wedge_report. eapply tri_bind; [apply tri_get|]. intros y. cbv beta. intros s g (-> & Hw & Hwd & HK). rewrite Hwd.
  set (pins := a_pins (s_ane s) + 1) in *.
  refine ((_ : tri (fun g x => within 0 ndarts g /\ K (set_wedged true pins x)) _
             (fun _ g x => within 0 ndarts g /\ K x)) s g _); [|done].
  eapply tri_bind; [apply (tri_modify (set_wedged true pins) (fun g x => within 0 ndarts g /\ K x))|]. intros ?. cbv beta.
  apply (tri_bind _ _ (fun b g x => if b : bool then within 0 ndarts g /\ K x else calm K g x)).
  - destruct (fl || bool_decide (err = EIO)); [by apply tri_val|].
    eapply tri_bind; [apply (faulted_at_spec (fun _ _ x => K x))|]. intros r. cbv beta. apply tri_val.
    intros g' x Hs. destruct (bool_decide (is_Some r)); [by destruct Hs as (? & _ & _ & ?)|done].
  - intros []; [by apply tri_val|].
    apply (tri_conseq (calm K) _ _ (fun _ => calm K)); [|done|].
    + apply tri_for_each. intros reg. eapply tri_bind; [apply tm_read_calm|]. intros ?. apply tri_ret_keep.
    + intros ? g' x [Hl HKx]. split; [by apply within_empty|done].
Qed.

Lemma wedge_spec err fl scr :
  tri (fun g x => within 0 ndarts g /\ Inv fl scr x) (wedge shift bd err fl scr) (fun r _ x => r = Some err /\ Dev x).
Proof using Hxc.
  unfold wedge. eapply tri_bind; [eapply tri_pre; [apply (tri_modify (set_dma true) (fun g x => within 0 ndarts g /\
    exists x0, Inv fl scr x0 /\ x = set_dma true x0))|]|].
  { intros g x [Hw HX]. split; [done|]. by exists x. }
  intros ?. cbv beta. eapply tri_bind.
  { eapply tri_pre; [apply (wedge_report_spec fl err (fun x => exists x0, Inv fl scr x0 /\ set_masked false x = wedging x0))|].
    intros g x (Hw & x0 & HX & ->). split; [done|]. split; [by destruct (xc_flags _ _ _ Hxc _ _ _ HX)|]. by exists x0. }
  intros ?. cbv beta. eapply tri_bind.
  { eapply tri_pre; [apply (tri_modify (set_masked false) (fun g x => exists x0, Inv fl scr x0 /\ x = wedging x0))|].
    by intros g x (_ & ?). }
  intros ?. cbv beta. destruct scr as [|z scr].
  - eapply tri_bind.
    { eapply tri_pre; [apply (recover_spec Dev (xc_recover _ _ _ Hxc))|]. intros g x (x0 & HX & ->).
      split; [by eapply (xc_wedge0 _ _ _ Hxc)|]. right. by destruct (xc_flags _ _ _ Hxc _ _ _ HX) as (_ & _ & ? & _). }
    intros r. apply tri_val. intros g x [HD _]. done.
  - eapply tri_bind; [eapply tri_pre; [apply (tri_modify (set_retained (scratch_ranges (z :: scr))) (fun _ => Dev))|]|].
    + intros g x (x0 & HX & ->). apply (xc_wedge _ _ _ Hxc); [by eapply (xc_faulted _ _ _ Hxc)|done].
    + intros ?. by apply tri_val.
Qed.

(** What a call leaves: the device property, and for a success the evidence. *)
Definition executed (r : option errno) (g : mon) (x : ane) : Prop :=
  Dev x /\ (r = None -> m_done g = true /\ m_fault g = false /\ exists x0, Inv false [] x0 /\ x = set_masked false x0).

Lemma close_queue_any qid st (P : mon -> ane -> Prop) :
  (forall g x, P g x -> m_latched g = ∅) -> tri P (close_queue qid st) (fun _ => P).
Proof.
  intros HP. unfold close_queue. eapply tri_bind; [by apply tq_write_any|]. intros ?. by apply tq_write_any.
Qed.

Lemma finish_spec err fl scr :
  tri (looped (err, fl, scr)) (finish_task shift bd req err fl scr) executed.
Proof using Hxc.
  unfold finish_task. destruct fl.
  - apply (tri_bind _ _ (fun b g x => if b : bool then within 0 ndarts g /\ Inv true scr x else calm (Inv true scr) g x)).
    + destruct err as [e|]; [apply tri_val; by intros g x (? & ? & _)|].
      eapply tri_conseq; [apply (faulted_spec (fun _ _ => Inv true scr))| |].
      * intros g x (Hw & HX & _). by split.
      * intros [] g x Hs; [by destruct Hs as (? & _ & _ & ?)|done].
    + intros []; cbv beta.
      * eapply tri_conseq; [apply wedge_spec|done|]. intros r g x [-> HD]. by split.
      * eapply tri_bind; [apply tq_read_any; by intros ? ? [? _]|]. intros st. cbv beta.
        eapply tri_bind; [apply close_queue_any; by intros ? ? [? _]|]. intros ?. cbv beta.
        eapply tri_bind.
        { unfold release_scratch. eapply tri_bind.
          { eapply tri_pre; [apply (tri_modify (fun y => set_space (ane_dart_release_scratch shift scr (a_space y)) y)
              (fun _ x => Dev (set_masked false x)))|]. intros g x [_ HX]. by apply (xc_contained _ _ _ Hxc). }
          intros ?. cbv beta. destruct scr; [apply tri_ret_keep|apply invalidate_any]. }
        intros ?. cbv beta. eapply tri_bind; [apply (tri_modify (set_masked false) (fun _ => Dev))|]. intros ?.
        apply tri_val. by intros g x HD.
  - destruct err as [e|].
    + eapply tri_conseq; [apply wedge_spec| |].
      * intros g x (Hw & HX & _). by split.
      * intros r g x [-> HD]. by split.
    + set (P := fun g x => m_latched g = ∅ /\ Inv false scr x /\ m_done g = true /\ m_fault g = false).
      apply (tri_pre P).
      2: { intros g x (Hw & HX & Hl & Hd). split; [by apply Hl|]. split; [done|]. by apply Hd. }
      eapply tri_bind; [apply tq_read_any; by intros ? ? [? _]|]. intros st. cbv beta.
      destruct (negb _).
      * eapply tri_conseq; [apply wedge_spec| |].
        -- intros g x (Hl & HX & _). split; [by apply within_empty|done].
        -- intros r g x [-> HD]. by split.
      * eapply tri_bind; [apply close_queue_any; by intros ? ? [? _]|]. intros ?. cbv beta.
        eapply tri_bind; [eapply tri_pre; [apply (tri_modify (set_masked false) (fun g x => executed None g x))|]|].
        -- intros g x (Hl & HX & Hd & HF). pose proof (xc_none _ _ _ Hxc _ _ HX) as Hscr. rewrite Hscr in HX.
           split; [by apply (xc_done _ _ _ Hxc)|]. intros _. split; [done|]. split; [done|]. by exists x.
        -- intros ?. by apply tri_val.
Qed.

Lemma execute_spec :
  tri (fun g x => m_latched g = ∅ /\ Inv false [] (set_masked true x)) (ane_tm_execute shift bd env req) executed.
Proof using Hxc.
  unfold ane_tm_execute. eapply tri_bind; [apply (tri_modify (set_masked true) (calm (Inv false [])))|]. intros ?. cbv beta.
  eapply tri_bind; [apply collect_calm|]. intros [f [b|e]]; cbv beta.
  - eapply tri_bind; [apply push_calm|]. intros ?. cbv beta.
    eapply tri_bind; [eapply tri_pre; [apply task_loop_spec|]|].
    + intros g x ([Hl HX] & Hp & H0 & H1 & HF). split; [by apply within_empty|]. split; [|done].
      unfold okcore, task_core. by rewrite Hp H0 H1.
    + intros [[err fl] scr]. apply finish_spec.
  - eapply tri_conseq; [apply wedge_spec| |].
    + intros g x [Hl HX]. split; [by apply within_empty|done].
    + intros r g x [-> HD]. by split.
Qed.
End execution.
End triples.

(** ** Execution and its evidence *)

Section claim.
Context `{HI : Iommu} `{HM : DrmMm} `{HE : Engine} (shift : Z) (bd : board) (req : ane_request).

(** No wedge, and [p] references on the module. *)
Definition idle (p : Z) (x : ane) : Prop :=
  a_wedged x = false /\ a_scratch_retained x = false /\ a_por_pending x = false /\ a_quiesced x = false /\ a_pins x = p.

(** The module holds one more reference exactly while the engine is wedged; an
    engine is quiesced, or has scratch pages retained, only when wedged. *)
Definition coherent (p : Z) (x : ane) : Prop :=
  (a_por_pending x = true -> a_quiesced x = true) /\ (a_quiesced x = true -> a_wedged x = true) /\
  (a_scratch_retained x = true -> a_wedged x = true) /\ a_pins x = if a_wedged x then p + 1 else p.

Lemma recover_coherent p : recover_closed shift (coherent p).
Proof.
  split; unfold coherent; cbn.
  - intros x (_ & ? & ? & ?). done.
  - done.
  - by intros x (? & _).
  - intros x (_ & _ & ? & ?) Hw Hr. done.
  - intros x (Hp & _ & _ & Hn) Hw Hr Hq Hpor. rewrite Hw in Hn. rewrite Hr Hpor.
    split; [done|]. split; [done|]. split; [done|]. lia.
Qed.

Lemma exec_coherent p x0 env :
  exec_closed shift env (fun fl scr x => idle p x /\ (fl = false -> scr = [] /\ x = set_masked true x0)) (coherent p).
Proof.
  split.
  - by intros fl scr x [(? & ? & ? & ? & _) _].
  - intros scr x [_ Hx]. by apply Hx.
  - intros fl scr x [Hi _]. by split.
  - intros fl scr x iova sp r [Hi _] _. by destruct r.
  - intros x [(Hw & Hr & Hp & Hq & Hn) _]. unfold coherent. cbn. by rewrite Hw Hr Hp Hq.
  - intros scr x [(Hw & Hr & Hp & Hq & Hn) _]. unfold coherent. cbn. by rewrite Hw Hr Hp Hq.
  - intros scr x [(Hw & Hr & Hp & Hq & Hn) _] _. unfold coherent. cbn. by rewrite Hp Hq Hn.
  - intros fl x [(Hw & Hr & Hp & Hq & Hn) _]. unfold coherent. cbn. by rewrite Hp Hq Hn.
  - apply recover_coherent.
Qed.

(** C10. A task of an engine that is not wedged: once a read of a DART error
    register has shown a fault, no register of the task manager or of the queues is
    accessed, in the task, its report and its recovery, until a read of that
    register was clear or a power domain was switched. Nothing is said of a fault
    that no read has shown: before the first read (the first collection of
    events and the push come before it) and between a clear read and the next
    access. A return of zero has seen the finish event of this very task on
    both event lines after the push, then the engine idle, and no read with a DART
    fault since the push, and leaves the device as it was; the flags stay coherent
    and the module is pinned exactly when the call leaves the engine wedged. *)
Theorem tm_execute_monitored env p s :
  idle p (s_ane s) ->
  let '(r, s') := ane_tm_execute shift bd env req s in
  exists l g, s_log s' = s_log s ++ l /\ mon_run req mon0 l = Some g /\ coherent p (s_ane s') /\
    (r = None -> m_done g = true /\ m_fault g = false /\ s_ane s' = set_masked false (s_ane s)).
Proof.
  intros Hi. pose proof (execute_spec shift bd req env _ _ (exec_coherent p (s_ane s) env) s mon0) as Hx.
  destruct Hx as (l & g & El & Hrun & Hc & Hok).
  { split; [done|]. split; [exact Hi|]. by intros _. }
  destruct (ane_tm_execute shift bd env req s) as [r s']. exists l, g. split; [done|]. split; [done|]. split; [done|].
  intros Hr. destruct (Hok Hr) as (Hd & Hf & x0 & [_ Hx0] & E). split; [done|]. split; [done|].
  destruct (Hx0 eq_refl) as [_ ->]. by rewrite E.
Qed.
End claim.

(** *** A sample engine

    It finishes the task [r] as soon as it is pushed; DART [0] faults once when
    [bad] and clears when its fault page is mapped (the stream is invalidated);
    a [stuck] engine finishes nothing and its domains cannot be gated. *)
Record sample_eng := SampleEng { se_pushed : bool; se_bad : bool; se_left : Z; se_stuck : bool }.

Definition sample_engine (r : ane_request) : Engine := {|
  eng := sample_eng;
  tm_rd off e :=
    if off =? TM_IRQ_EVTC 0 then (if se_pushed e && negb (se_bad e) && negb (se_stuck e) && (0 <? se_left e) then 1 else 0, e)
    else if off =? TM_IRQ_EVTC 1 then (if se_pushed e && negb (se_bad e) && negb (se_stuck e) && (0 <? se_left e) then 1 else 0, e)
    else if off =? TM_IRQ_INFO 0 then (finish_info r, e)
    else if off =? TM_IRQ_INFO 1 then (finish_info r, SampleEng (se_pushed e) (se_bad e) (se_left e - 1) (se_stuck e))
    else if off =? TM_STATUS then (TM_IS_IDLE, e) else (0, e);
  tm_wr off v e := if off =? TM_PUSH then SampleEng true (se_bad e) (se_left e) (se_stuck e) else e;
  tq_rd off e := (if off =? TQ_NID1 (r_qid r) then Z.lor (Z.shiftl (r_nid r) 8) 1 else 0, e);
  tq_wr off v e := e;
  dart_rd i off e :=
    (if se_pushed e && se_bad e && (off =? DART_ERROR) then DART_ERROR_FLAG else if off =? DART_ERROR_ADDR_LO then 0x8000 else 0, e);
  dart_wr i off v e := if off =? DART_STREAM_COMMAND then SampleEng (se_pushed e) false (se_left e) (se_stuck e) else e;
  ps_rd i e := (0xff, e);
  polls e := 4%nat;
  force_suspend i e := if se_stuck e then (e, Some EIO) else (SampleEng false false 0 false, None);
  force_resume i e := (e, None);
|}.

Definition sample_request : ane_request := Request 4 0x40 0x274 1 0x10000 (replicate 32 0).
Definition sample_board : board := Board [0] 1 true false.
Definition sample_ane : @ane (sample_iommu 14) :=
  Ane (sample_iommu 14) (Space (sample_iommu 14) ∅ ∅) [] false false false false false false (Some 1) 0 [] false 0.
Definition sample_mach (bad : bool) : @mach (sample_iommu 14) (sample_engine sample_request) :=
  Mach (sample_iommu 14) (sample_engine sample_request) (SampleEng false bad 1 false) [] sample_ane.

Definition sample_run (bad : bool) :=
  @ane_tm_execute (sample_iommu 14) (sample_mm 14 0x4000 (2 ^ 32)) (sample_engine sample_request) 14 sample_board
    (fun _ => (Some 0x900000, true)) sample_request (sample_mach bad).

Definition sample_verdict (bad : bool) : option errno * option (bool * bool) * bool :=
  ((sample_run bad).1,
   (fun m => (m_done m, m_fault m)) <$> mon_run sample_request mon0 (s_log (sample_run bad).2),
   a_wedged (s_ane (sample_run bad).2)).

(** A completed task, and one whose fault is contained by a scratch page. *)
Lemma tm_execute_monitored_witness :
  sample_verdict false = (None, Some (true, false), false) /\
  sample_verdict true = (Some EIO, Some (true, true), false) /\
  coherent 0 (s_ane (sample_run true).2).
Proof.
  split; [vm_compute; reflexivity|]. split; [vm_compute; reflexivity|].
  unfold sample_run.
  pose proof (@tm_execute_monitored (sample_iommu 14) (sample_mm 14 0x4000 (2 ^ 32)) (sample_engine sample_request)
    14 sample_board sample_request (fun _ => (Some 0x900000, true)) 0 (sample_mach true)) as Hx.
  destruct (ane_tm_execute _ _ _ _ _) as [r s']. cbn [snd].
  destruct Hx as (l & g & _ & _ & Hc & _); [exact (conj eq_refl (conj eq_refl (conj eq_refl (conj eq_refl eq_refl))))|exact Hc].
Defined.
