(* ===== verification/M1Drv.v ===== *)
(** * The M1 driver: buffer objects and ioctls

    [src/ane/src/ane_drv.c]: buffer objects, the three ioctls, close, reset,
    runtime suspend and removal, over the mappings of [M1Map] and the task
    manager of [M1Tm].

    The GEM core keeps an object alive while anything refers to it: a handle of
    a file, a CPU mapping, an ioctl in flight. [v_refs] lists those references;
    dropping the last one of an object runs [ane_gem_free_object]. An ioctl is a
    job that proceeds in steps, one per critical section of [engine_lock], per
    handle lookup and per reference drop, so that jobs interleave; every step is
    the function [drv_step] of an event. *)

From S2P Require Import Prelude Accel M1Map M1Tm.

(** ** State *)

(** [struct ane_bo], with the size of its GEM object. *)
Record obj := Obj {
  o_size : Z;
  o_npages : Z;
  o_pages : option (list Z);
  o_mm : option Z;
  o_iova : Z;
}.

(** Who refers to an object; a job numbers its references. *)
Inductive holder :=
  | HHandle (file : nat) (h : Z)
  | HVma (v : nat)
  | HJob (tid slot : nat).

#[global] Instance holder_eq_dec : EqDecision holder.
Proof. solve_decision. Defined.

(** An ioctl in flight: [ane_bo_init] about to take the lock, [ane_bo_free]
    after its lookup, [ane_submit] looking up handle [bdx] (32 is the bootstrap
    buffer) or about to take the lock, and any of them dropping its references
    before it returns. *)
Inductive job :=
  | JMap (file : nat) (id : nat)
  | JDelete (file : nat) (h : Z)
  | JLook (file : nat) (args : drm_ane_submit) (bdx : nat) (bar : list Z)
  | JRun (args : drm_ane_submit) (bar : list Z) (btsp : Z)
  | JPut (slots : list nat) (ret : option errno).

(** [v_on] is the runtime-PM state; [v_list] is [bo_list]. *)
Record m1drv `{Iommu} `{Engine} := Drv {
  v_mach : mach;
  v_on : bool;
  v_next : nat;
  v_objs : gmap nat obj;
  v_refs : list (holder * nat);
  v_jobs : gmap nat job;
  v_list : list nat;
}.

Fixpoint ref_of (h : holder) (l : list (holder * nat)) : option nat :=
  match l with
  | [] => None
  | (h', id) :: l => if decide (h' = h) then Some id else ref_of h l
  end.

Fixpoint drop_ref (h : holder) (l : list (holder * nat)) : list (holder * nat) :=
  match l with
  | [] => []
  | (h', id) :: l => if decide (h' = h) then l else (h', id) :: drop_ref h l
  end.

(** [round_up] of the kernel, in 64 bits; [y] is a power of two. *)
Definition round_up (x y : Z) : Z := u64 (Z.lor (u64 (x - 1)) (y - 1) + 1).

Definition ANE_CMD_GRAN : Z := 0x10.
Definition CMD_BUF_BDX : nat := 0.
Definition KRN_BUF_BDX : nat := 1.

(** What the kernel decides in the course of [ane_bo_init]. *)
Record init_env := InitEnv {
  ie_kzalloc : bool;
  ie_init : option errno;
  ie_offset : option errno;
  ie_pages : list Z + errno;
}.

(** What it decides in a later step of a job. *)
Record run_env := RunEnv {
  re_map : map_env;
  re_handle : Z + errno;
  re_scratch : nat -> option Z * bool;
  re_kzalloc : bool;
}.

Section m1drv.
Context `{Iommu} `{DrmMm} `{Engine} (shift : Z) (bd : board).

Definition v_ane (s : m1drv) : ane := s_ane (v_mach s).

Definition set_mach (m : mach) (s : m1drv) : m1drv :=
  Drv _ _ m (v_on s) (v_next s) (v_objs s) (v_refs s) (v_jobs s) (v_list s).
Definition set_ane (f : ane -> ane) (s : m1drv) : m1drv :=
  set_mach (Mach _ _ (s_eng (v_mach s)) (s_log (v_mach s)) (f (v_ane s))) s.
Definition set_on (b : bool) (s : m1drv) : m1drv :=
  Drv _ _ (v_mach s) b (v_next s) (v_objs s) (v_refs s) (v_jobs s) (v_list s).
Definition set_objs (os : gmap nat obj) (s : m1drv) : m1drv :=
  Drv _ _ (v_mach s) (v_on s) (v_next s) os (v_refs s) (v_jobs s) (v_list s).
Definition set_refs (l : list (holder * nat)) (s : m1drv) : m1drv :=
  Drv _ _ (v_mach s) (v_on s) (v_next s) (v_objs s) l (v_jobs s) (v_list s).
Definition set_bo_list (l : list nat) (s : m1drv) : m1drv :=
  Drv _ _ (v_mach s) (v_on s) (v_next s) (v_objs s) (v_refs s) (v_jobs s) l.
Definition set_job (tid : nat) (j : job) (s : m1drv) : m1drv :=
  Drv _ _ (v_mach s) (v_on s) (v_next s) (v_objs s) (v_refs s) (<[tid := j]> (v_jobs s)) (v_list s).
Definition end_job (tid : nat) (s : m1drv) : m1drv :=
  Drv _ _ (v_mach s) (v_on s) (v_next s) (v_objs s) (v_refs s) (delete tid (v_jobs s)) (v_list s).
Definition new_obj (o : obj) (s : m1drv) : m1drv :=
  Drv _ _ (v_mach s) (v_on s) (S (v_next s)) (<[v_next s := o]> (v_objs s)) (v_refs s) (v_jobs s) (v_list s).

Definition run_tm {A} (m : mprog A) (s : m1drv) : A * m1drv :=
  let '(r, ms) := m (v_mach s) in (r, set_mach ms s).

(** ** Objects *)

(** [a] and [ps] are the node and the pages of the object; without memory for
    the registry entry they are never reclaimed. *)
Definition ane_preserve_bo (kz : bool) (a : Z) (ps : list Z) (x : ane) : ane :=
  if kz then set_preserved (a_preserved x ++ [(a, ps)]) x else set_kept (a_kept x ++ [(a, ps)]) x.

Definition unmap_bo (o : obj) (x : ane) : ane :=
  set_space (ane_iommu_unmap_pages shift (o_iova o) (o_npages o) (a_space x)) x.

(** The object leaves [v_objs] and its pages are free, unless they were
    preserved. *)
Definition ane_gem_free_object (kz : bool) (id : nat) (s : m1drv) : m1drv :=
  match v_objs s !! id with
  | None => s
  | Some o =>
      let s :=
        match o_mm o with
        | None => s
        | Some a =>
            set_bo_list (filter (fun i => i <> id) (v_list s))
              (if a_wedged (v_ane s)
               then set_ane (ane_preserve_bo kz a (take (Z.to_nat (o_npages o)) (default [] (o_pages o)))) s
               else set_ane (unmap_bo o) s)
        end in
      set_objs (delete id (v_objs s)) s
  end.

(** [drm_gem_object_put] of one reference. *)
Definition put (kz : bool) (h : holder) (s : m1drv) : m1drv :=
  match ref_of h (v_refs s) with
  | None => s
  | Some id =>
      let s := set_refs (drop_ref h (v_refs s)) s in
      if existsb (fun r => Nat.eqb r.2 id) (v_refs s) then s else ane_gem_free_object kz id s
  end.

Definition hold (h : holder) (id : nat) (s : m1drv) : m1drv := set_refs (v_refs s ++ [(h, id)]) s.

Definition bo_lookup (file : nat) (h : Z) (s : m1drv) : option nat := ref_of (HHandle file h) (v_refs s).

(** ** Power *)

(** [pm_runtime_resume_and_get]: [ok] is the outcome of powering the domains. *)
Definition pm_get (ok : bool) (s : m1drv) : bool * m1drv :=
  if v_on s then (true, s)
  else if ok then (true, set_on true (run_tm (ane_runtime_resume bd) s).2) else (false, s).

(** ** Ioctls *)

(** Up to the lock. *)
Definition ane_bo_init (tid file : nat) (pad size : Z) (env : init_env) (s : m1drv) : m1drv :=
  let fail e := set_job tid (JPut [] (Some e)) s in
  if negb (pad =? 0) || (size =? 0) then fail EINVAL
  else if negb (ie_kzalloc env) then fail ENOMEM
  else
    match ie_init env with
    | Some e => fail e
    | None =>
        let gsize := round_up size (page_bytes shift) in
        let id := v_next s in
        let create npages pages j :=
          set_job tid j (hold (HJob tid 0) id (new_obj (Obj gsize npages pages None 0) s)) in
        match ie_offset env with
        | Some e => create 0 None (JPut [0%nat] (Some e))
        | None =>
            let npages := u32 (Z.shiftr gsize shift) in
            match ie_pages env with
            | inr e => create npages None (JPut [0%nat] (Some e))
            | inl ps => create npages (Some ps) (JMap file id)
            end
        end
    end.

(** A wedged engine gets one recovery attempt; [e] is returned when the device
    is gone or stays wedged. *)
Definition recovered_or (gone refused : errno) (s : m1drv) : option errno * m1drv :=
  if a_removed (v_ane s) then (Some gone, s)
  else if a_wedged (v_ane s) then
    match run_tm (ane_tm_recover shift bd) s with
    | (Some _, s) => (Some refused, s)
    | (None, s) => (None, s)
    end
  else (None, s).

(** [ane_iommu_map_pages] of an object, with its fields. *)
Definition map_bo (env : map_env) (id : nat) (o : obj) (s : m1drv) : option errno * m1drv :=
  if bool_decide (is_Some (o_mm o)) then (Some EBUSY, s)
  else
    match ane_iommu_map_pages shift env (take (Z.to_nat (o_npages o)) (default [] (o_pages o))) (a_space (v_ane s)) with
    | (sp, inr e) => (Some e, set_ane (set_space sp) s)
    | (sp, inl a) =>
        (None, set_objs (<[id := Obj (o_size o) (o_npages o) (o_pages o) (Some a) a]> (v_objs s)) (set_ane (set_space sp) s))
    end.

(** A handle is a number the file does not use. *)
Definition handle_create (file : nat) (h : Z + errno) (id : nat) (s : m1drv) : option errno * m1drv :=
  match h with
  | inr e => (Some e, s)
  | inl h =>
      if (h =? 0) || bool_decide (is_Some (bo_lookup file h s)) then (Some ENOSPC, s)
      else (None, hold (HHandle file h) id s)
  end.

(** From the lock on. *)
Definition ane_bo_init_locked (tid file id : nat) (env : run_env) (s : m1drv) : m1drv :=
  match recovered_or ENODEV ENODEV s with
  | (Some e, s) => set_job tid (JPut [0%nat] (Some e)) s
  | (None, s) =>
      match v_objs s !! id with
      | None => set_job tid (JPut [0%nat] (Some EINVAL)) s
      | Some o =>
          match map_bo (re_map env) id o s with
          | (Some e, s) => set_job tid (JPut [0%nat] (Some e)) s
          | (None, s) =>
              let '(ret, s) := handle_create file (re_handle env) id (set_bo_list (v_list s ++ [id]) s) in
              set_job tid (JPut [0%nat] ret) s
          end
      end
  end.

Definition ane_bo_free (tid file : nat) (pad h : Z) (s : m1drv) : m1drv :=
  if negb (pad =? 0) then set_job tid (JPut [] (Some EINVAL)) s
  else
    match recovered_or ENODEV ENODEV s with
    | (Some e, s) => set_job tid (JPut [] (Some e)) s
    | (None, s) =>
        match bo_lookup file h s with
        | None => set_job tid (JPut [] (Some EINVAL)) s
        | Some id => set_job tid (JDelete file h) (hold (HJob tid 0) id s)
        end
    end.

Definition submit_valid (pad : Z) (args : drm_ane_submit) : bool :=
  negb (negb (pad =? 0) || (a_tsk_size args =? 0) || (a_td_count args =? 0) || (a_td_count args >? 0xffff) ||
        (a_td_size args <? 4) || (a_td_size args >? 0x40000) || negb (Z.land (a_td_size args) 3 =? 0) ||
        (default 0 (a_handles args !! CMD_BUF_BDX) =? 0) || negb (default 0 (a_handles args !! KRN_BUF_BDX) =? 0) ||
        (a_btsp_handle args =? 0)).

Definition ane_submit (tid file : nat) (pad : Z) (args : drm_ane_submit) (s : m1drv) : m1drv :=
  if submit_valid pad args then set_job tid (JLook file args 0 (replicate 32 0)) s
  else set_job tid (JPut [] (Some EINVAL)) s.

(** The references of a submit in the order they are dropped. *)
Definition submit_slots : list nat := 32%nat :: seq 0 32.

(** One round of the lookup loop, or the lookup of the bootstrap buffer. *)
Definition submit_lookup (tid file : nat) (args : drm_ane_submit) (bdx : nat) (bar : list Z) (s : m1drv) : m1drv :=
  let fail s := set_job tid (JPut submit_slots (Some EINVAL)) s in
  if (bdx <? 32)%nat then
    let h := default 0 (a_handles args !! bdx) in
    if h =? 0 then set_job tid (JLook file args (S bdx) bar) s
    else
      match bo_lookup file h s with
      | None => fail s
      | Some id =>
          let s := hold (HJob tid bdx) id s in
          match v_objs s !! id with
          | None => fail s
          | Some o =>
              if (o_iova o =? 0) ||
                 ((bdx =? CMD_BUF_BDX)%nat && (a_tsk_size args >=? u32 (Z.shiftl (o_npages o) shift)))
              then fail s
              else set_job tid (JLook file args (S bdx) (<[bdx := u32 (o_iova o)]> bar)) s
          end
      end
  else
    let bar := <[KRN_BUF_BDX := u32 (default 0 (bar !! CMD_BUF_BDX) + round_up (a_tsk_size args) ANE_CMD_GRAN)]> bar in
    match bo_lookup file (a_btsp_handle args) s with
    | None => fail s
    | Some id =>
        let s := hold (HJob tid 32) id s in
        match v_objs s !! id with
        | None => fail s
        | Some o =>
            if (o_iova o =? 0) || (a_td_size args >? o_size o) then fail s
            else set_job tid (JRun args bar (u32 (o_iova o))) s
        end
    end.

Definition submit_request (args : drm_ane_submit) (bar : list Z) (btsp : Z) : ane_request :=
  Request 4 ANE_FIFO_NID (a_td_size args) (a_td_count args) btsp bar.

(** The critical section. The CPU boost and the statistics are not modelled. *)
Definition submit_run (tid : nat) (args : drm_ane_submit) (bar : list Z) (btsp : Z) (env : run_env) (s : m1drv) : m1drv :=
  match recovered_or ENODEV ECANCELED s with
  | (Some e, s) => set_job tid (JPut submit_slots (Some e)) s
  | (None, s) =>
      let req := submit_request args bar btsp in
      let '(_, s) := run_tm (ane_tm_enqueue req) s in
      let '(ret, s) := run_tm (ane_tm_execute shift bd (re_scratch env) req) s in
      set_job tid (JPut submit_slots ret) s
  end.

(** One step of job [tid]. *)
Definition job_step (tid : nat) (env : run_env) (s : m1drv) : m1drv :=
  match v_jobs s !! tid with
  | None => s
  | Some (JMap file id) => ane_bo_init_locked tid file id env s
  | Some (JDelete file h) => set_job tid (JPut [0%nat] None) (put (re_kzalloc env) (HHandle file h) s)
  | Some (JLook file args bdx bar) => submit_lookup tid file args bdx bar s
  | Some (JRun args bar btsp) => submit_run tid args bar btsp env s
  | Some (JPut (slot :: slots) ret) => set_job tid (JPut slots ret) (put (re_kzalloc env) (HJob tid slot) s)
  | Some (JPut [] ret) => end_job tid s
  end.

(** ** The rest *)

(** [ane_drm_postclose] and [reset_store] do the same. *)
Definition ane_drm_postclose (pm : bool) (s : m1drv) : m1drv :=
  match pm_get pm s with
  | (false, s) => s
  | (true, s) => if a_removed (v_ane s) then s else (run_tm (ane_tm_recover shift bd) s).2
  end.

(** Runtime suspend comes when no ioctl holds the device. *)
Definition pm_idle (s : m1drv) : m1drv :=
  if v_on s && negb (a_removed (v_ane s)) && bool_decide (v_jobs s = ∅) then
    match run_tm ane_runtime_suspend s with
    | (None, s) => set_on false s
    | (Some _, s) => s
    end
  else s.

Definition remove_bo (s : m1drv) (id : nat) : m1drv :=
  match v_objs s !! id with
  | None => s
  | Some o =>
      set_objs (<[id := Obj (o_size o) (o_npages o) (o_pages o) None 0]> (v_objs s)) (set_ane (unmap_bo o) s)
  end.

Definition ane_platform_remove (s : m1drv) : m1drv :=
  let s := set_ane set_removed s in
  if a_wedged (v_ane s) then s
  else
    let s := set_bo_list [] (fold_left remove_bo (v_list s) s) in
    (run_tm (ane_reclaim_preserved shift) s).2.

(** ** Events *)

Inductive m1_event :=
  | EvBoInit (tid file : nat) (pm : bool) (pad size : Z) (env : init_env)
  | EvBoFree (tid file : nat) (pm : bool) (pad h : Z)
  | EvSubmit (tid file : nat) (pm : bool) (pad : Z) (args : drm_ane_submit)
  | EvJob (tid : nat) (env : run_env)
  | EvMmap (file : nat) (h : Z) (v : nat)
  | EvMunmap (v : nat) (kz : bool)
  | EvCloseHandle (file : nat) (h : Z) (kz : bool)
  | EvOpen (pm : bool)
  | EvPostclose (pm : bool)
  | EvSuspend
  | EvRemove.

(** [ane_drm_ioctl]: power first, then the handler, in a job of its own. *)
Definition start (tid : nat) (pm : bool) (handler : m1drv -> m1drv) (s : m1drv) : m1drv :=
  match v_jobs s !! tid with
  | Some _ => s
  | None => match pm_get pm s with (false, s) => s | (true, s) => handler s end
  end.

Definition drv_step (e : m1_event) (s : m1drv) : m1drv :=
  match e with
  | EvBoInit tid file pm pad size env => start tid pm (ane_bo_init tid file pad size env) s
  | EvBoFree tid file pm pad h => start tid pm (ane_bo_free tid file pad h) s
  | EvSubmit tid file pm pad args => start tid pm (ane_submit tid file pad args) s
  | EvJob tid env => job_step tid env s
  | EvMmap file h v =>
      match bo_lookup file h s with
      | Some id => hold (HVma v) id s
      | None => s
      end
  | EvMunmap v kz => put kz (HVma v) s
  | EvCloseHandle file h kz => put kz (HHandle file h) s
  | EvOpen pm => (pm_get pm s).2
  | EvPostclose pm => ane_drm_postclose pm s
  | EvSuspend => pm_idle s
  | EvRemove => ane_platform_remove s
  end.

Definition drv_run (es : list m1_event) (s : m1drv) : m1drv := fold_left (fun s e => drv_step e s) es s.
End m1drv.

(** ** The device invariant *)

(** The nodes of an allocator with their pages. *)
Definition ranges (ns : gmap Z node) : list (Z * list Z) := map_to_list (n_pages <$> ns).

Lemma ranges_insert ns a nd : ns !! a = None -> ranges (<[a := nd]> ns) ≡ₚ (a, n_pages nd) :: ranges ns.
Proof. intros Ha. unfold ranges. rewrite fmap_insert map_to_list_insert //. by rewrite lookup_fmap Ha. Qed.

Lemma ranges_elem ns a ps : (a, ps) ∈ ranges ns <-> exists nd, ns !! a = Some nd /\ n_pages nd = ps.
Proof.
  unfold ranges. rewrite elem_of_map_to_list lookup_fmap. destruct (ns !! a) as [nd|]; cbn; split.
  - intros [= <-]. by exists nd.
  - by intros (? & [= <-] & <-).
  - done.
  - by intros (? & ? & _).
Qed.

Lemma ranges_delete ns a ps l :
  (a, ps) :: l ≡ₚ ranges ns -> exists nd, ns !! a = Some nd /\ n_pages nd = ps /\ l ≡ₚ ranges (delete a ns).
Proof.
  intros Hp. assert ((a, ps) ∈ ranges ns) as He by (rewrite -Hp; left).
  apply ranges_elem in He as (nd & Ha & Hps). exists nd. split; [done|]. split; [done|].
  apply (Permutation.Permutation_cons_inv (a := (a, ps))). rewrite Hp -{1}(insert_delete_id ns a nd Ha).
  rewrite ranges_insert; [by rewrite Hps|]. apply lookup_delete_eq.
Qed.

(** [k] is a number of power cycles and [N] a set of nodes: until the engine
    has been gated once more, [N] stays while a failed task may run; with [b]
    that task exists. *)
Definition keeps `{Iommu} (k : nat) (N : gmap Z node) (b : bool) (x : ane) : Prop :=
  (k <= a_gates x)%nat /\
  (a_gates x = k -> (b = true -> a_dma x = true) /\ (a_dma x = true -> N ⊆ sp_nodes (a_space x))).

Section device.
Context `{HI : Iommu} `{HM : DrmMm} (shift lo hi : Z) `{!IommuLaws shift} `{!DrmMmLaws shift lo hi}.
Context (Hshift : 0 <= shift <= 32) (Hlo : 0 < lo) (Hhi : hi <= 2 ^ 32).
Abbreviation G := (page_bytes shift).

(** [R] are the ranges of the live objects. *)
Record dev_ok (R : list (Z * list Z)) (rm : bool) (k : nat) (N : gmap Z node) (b : bool) (x : ane) : Prop := {
  do_space : space_inv shift lo hi (a_space x);
  do_own : R ++ a_preserved x ++ a_kept x ≡ₚ ranges (sp_nodes (a_space x));
  do_flags : (a_por_pending x = true -> a_quiesced x = true) /\ (a_quiesced x = true -> a_wedged x = true) /\
    (a_scratch_retained x = true -> a_wedged x = true) /\ (a_dma x = true -> a_wedged x = true /\ a_quiesced x = false);
  do_pins : a_pins x = if a_wedged x then 1 else 0;
  do_pres : a_wedged x = false -> a_preserved x = [];
  do_removed : a_removed x = rm;
  do_keeps : keeps k N b x;
}.

(** While a task runs. *)
Record exec_ok (R : list (Z * list Z)) (rm : bool) (k : nat) (N : gmap Z node) (b : bool)
    (fl : bool) (scr : list (Z * Z)) (x : ane) : Prop := {
  eo_space : space_inv shift lo hi (a_space x);
  eo_own : scratch_ranges scr ++ R ++ a_preserved x ++ a_kept x ≡ₚ ranges (sp_nodes (a_space x));
  eo_flags : a_wedged x = false /\ a_scratch_retained x = false /\ a_por_pending x = false /\ a_quiesced x = false;
  eo_dma : a_dma x = false;
  eo_pins : a_pins x = 0;
  eo_pres : a_preserved x = [];
  eo_removed : a_removed x = rm;
  eo_keeps : (k <= a_gates x)%nat /\ (a_gates x = k -> b = false /\ N ⊆ sp_nodes (a_space x));
  eo_none : fl = false -> scr = [];
}.

(** Removing ranges one by one. *)
Lemma fold_remove {B} (f : space -> B -> space) (rg : B -> Z * list Z) :
  (forall sp y nd, space_inv shift lo hi sp -> sp_nodes sp !! (rg y).1 = Some nd -> n_pages nd = (rg y).2 ->
     space_inv shift lo hi (f sp y) /\ sp_nodes (f sp y) = delete (rg y).1 (sp_nodes sp)) ->
  forall l sp rest, space_inv shift lo hi sp -> (rg <$> l) ++ rest ≡ₚ ranges (sp_nodes sp) ->
    space_inv shift lo hi (fold_left f l sp) /\ rest ≡ₚ ranges (sp_nodes (fold_left f l sp)).
Proof using.
  intros Hf. induction l as [|y l IH]; intros sp rest Hs Hp; [done|]. cbn [fold_left]. cbn in Hp.
  destruct (rg y) as [a ps] eqn:Ey. destruct (ranges_delete _ _ _ _ Hp) as (nd & Ha & Hps & Hp').
  destruct (Hf sp y nd Hs) as [Hs' En]; [by rewrite Ey|by rewrite Ey|]. rewrite Ey in En. cbn in En.
  apply IH; [done|]. by rewrite En.
Qed.

Lemma reclaim_all l sp rest :
  space_inv shift lo hi sp -> l ++ rest ≡ₚ ranges (sp_nodes sp) ->
  space_inv shift lo hi (fold_left (reclaim_one shift) l sp) /\
  rest ≡ₚ ranges (sp_nodes (fold_left (reclaim_one shift) l sp)).
Proof using Hshift Hlo Hhi IommuLaws0 DrmMmLaws0.
  intros Hs Hp. apply (fold_remove (reclaim_one shift) id); [|done|by rewrite list_fmap_id].
  intros sp' [a ps] nd Hs' Ha Hps. cbn in *. subst ps. apply reclaim_inv; try done; lia.
Qed.

Lemma release_scratch_all scr sp rest :
  space_inv shift lo hi sp -> scratch_ranges scr ++ rest ≡ₚ ranges (sp_nodes sp) ->
  space_inv shift lo hi (ane_dart_release_scratch shift scr sp) /\
  rest ≡ₚ ranges (sp_nodes (ane_dart_release_scratch shift scr sp)).
Proof using Hshift Hlo Hhi IommuLaws0 DrmMmLaws0.
  intros Hs Hp. apply (fold_remove (release_one shift) (fun y => (y.1, [y.2]))); [|done|done].
  intros sp' [a p] nd Hs' Ha Hps. cbn in *. apply (release_inv shift lo hi); [lia|done|].
  destruct (si_node _ _ _ _ Hs' a nd Ha) as (_ & _ & _ & Hsz & _). destruct nd as [sz ps]. cbn in *. subst ps.
  rewrite Ha. by rewrite Hsz Z.mul_1_l.
Qed.

Lemma recover_dev R rm k N b : recover_closed shift (dev_ok R rm k N b).
Proof using Hshift Hlo Hhi IommuLaws0 DrmMmLaws0.
  split.
  - intros x [H1 H2 (_ & ? & ? & ?) H4 Hx H5 H6]. by split.
  - intros v x [H1 H2 H3 H4 Hx H5 H6]. by split.
  - intros x Hx. apply (do_flags _ _ _ _ _ _ Hx).
  - intros x [H1 H2 (Hp & Hq & Hr & Hd) H4 Hx H5 H6] Hw Hret. split; try done.
    destruct H6 as [H6 _]. split; cbn; [lia|]. intros. lia.
  - intros x [H1 H2 (Hp & Hq & Hr & Hd) H4 Hx H5 H6] Hw Hret Hqq Hpor.
    destruct (reclaim_all (a_preserved x) (a_space x) (R ++ a_kept x)) as [Hs Ho]; [done| |].
    { rewrite -H2. rewrite !app_assoc. f_equiv. apply Permutation_app_comm. }
    assert (a_dma x = false) as Ed by (destruct (a_dma x); [destruct (Hd eq_refl); congruence|done]).
    split; unfold recovered, keeps in *; cbn; try done.
    + rewrite Hret Hpor Ed. by repeat split.
    + rewrite H4 Hw. done.
    + rewrite Ed in H6 |- *. destruct H6 as [? H6]. split; [done|]. intros Hg. by destruct (H6 Hg).
Qed.

Lemma exec_dev R rm k N b env : exec_closed shift env (exec_ok R rm k N b) (dev_ok R rm k N b).
Proof using Hshift Hlo Hhi IommuLaws0 DrmMmLaws0.
  split.
  - intros fl scr x Hx. apply (eo_flags _ _ _ _ _ _ _ _ Hx).
  - intros scr x Hx. by apply (eo_none _ _ _ _ _ _ _ _ Hx).
  - intros fl scr x [H1 H2 H3 H4 H5 Hx H6 H7 H8]. by split.
  - intros fl scr x iova sp r [H1 H2 H3 H4 H5 Hx H6 [Hk HN] H8] Hd.
    pose proof (drain_inv shift lo hi ltac:(lia) ltac:(lia) Hhi (env (length scr)).1 (env (length scr)).2 iova (a_space x) H1 Hshift) as Hdi.
    rewrite Hd in Hdi. destruct r as [[a p]|e].
    + destruct Hdi as (_ & Hs & Hnew & En). split; cbn; rewrite ?En; try done.
      * rewrite ranges_insert // -H2. unfold scratch_ranges. rewrite fmap_app. cbn. solve_Permutation.
      * split; [done|]. intros Hg. destruct (HN Hg) as [? HN']. split; [done|]. etransitivity; [exact HN'|]. by apply insert_subseteq.
    + destruct Hdi as [Hs En]. split; cbn; rewrite ?En; done.
  - intros x [H1 H2 (Hw & Hr & Hp & Hq) H4 H5 Hx H6 [Hk HN] H8]. split; unfold keeps; cbn; try done.
    + by rewrite Hw Hr Hp Hq H4.
    + by rewrite Hw.
    + split; [done|]. intros Hg. rewrite H4. by destruct (HN Hg) as [-> _].
  - intros scr x [H1 H2 (Hw & Hr & Hp & Hq) H4 H5 Hx H6 [Hk HN] H8].
    destruct (release_scratch_all scr (a_space x) _ H1 H2) as [Hs Ho].
    split; unfold keeps; cbn; try done.
    + by rewrite Hw Hr Hp Hq H4.
    + by rewrite Hw.
    + split; [done|]. intros Hg. rewrite H4. by destruct (HN Hg) as [-> _].
  - intros scr x [H1 H2 (Hw & Hr & Hp & Hq) H4 H5 Hx H6 [Hk HN] H8] Hne. split; unfold keeps; cbn; try done.
    + rewrite -H2. solve_Permutation.
    + rewrite Hp Hq. by repeat split.
    + by rewrite H5.
    + split; [done|]. intros Hg. by destruct (HN Hg) as [_ HN'].
  - intros fl x [H1 H2 (Hw & Hr & Hp & Hq) H4 H5 Hx H6 [Hk HN] H8]. split; unfold keeps; cbn; try done.
    + rewrite Hr Hp Hq. by repeat split.
    + by rewrite H5.
    + split; [done|]. intros Hg. by destruct (HN Hg) as [_ HN'].
  - apply recover_dev.
Qed.
End device.

(** ** The driver invariant *)

(** The range of a live object. *)
Definition obj_range (o : obj) : option (Z * list Z) :=
  match o_mm o, o_pages o with
  | Some a, Some ps => Some (a, ps)
  | _, _ => None
  end.

Definition obj_ranges (os : gmap nat obj) : list (Z * list Z) := omap (fun y => obj_range y.2) (map_to_list os).

Lemma obj_ranges_insert os id o :
  os !! id = None -> obj_ranges (<[id := o]> os) ≡ₚ option_list (obj_range o) ++ obj_ranges os.
Proof. intros Hn. unfold obj_ranges. rewrite map_to_list_insert //. cbn. by destruct (obj_range o). Qed.

Lemma obj_ranges_delete os id o :
  os !! id = Some o -> obj_ranges os ≡ₚ option_list (obj_range o) ++ obj_ranges (delete id os).
Proof.
  intros Ho. rewrite -{1}(insert_delete_id os id o Ho). apply obj_ranges_insert, lookup_delete_eq.
Qed.

Lemma obj_ranges_update os id o :
  obj_ranges (<[id := o]> os) ≡ₚ option_list (obj_range o) ++ obj_ranges (delete id os).
Proof. rewrite -insert_delete_eq. apply obj_ranges_insert, lookup_delete_eq. Qed.

Lemma obj_ranges_elem os a ps :
  (a, ps) ∈ obj_ranges os <-> exists id o, os !! id = Some o /\ o_mm o = Some a /\ o_pages o = Some ps.
Proof.
  unfold obj_ranges. rewrite list_elem_of_omap. split.
  - intros ([id o] & Hi%elem_of_map_to_list & Hr). exists id, o. split; [done|]. unfold obj_range in Hr. cbn in Hr.
    destruct (o_mm o), (o_pages o); try done. by injection Hr as -> ->.
  - intros (id & o & Ho & Hm & Hp). exists (id, o). split; [by apply elem_of_map_to_list|]. unfold obj_range. cbn. by rewrite Hm Hp.
Qed.

(** An object is smaller than 4 GiB; its fields agree with its node. *)
Definition obj_ok (shift : Z) (o : obj) : Prop :=
  match o_pages o with
  | Some ps => o_npages o = zlen ps /\ 0 < zlen ps /\ zlen ps * page_bytes shift < 2 ^ 32 /\ o_size o = zlen ps * page_bytes shift
  | None => o_mm o = None
  end /\ o_iova o = default 0 (o_mm o).

(** What the lookup of a slot has established, until the device is removed:
    the reference is held and the object is mapped at [v]. *)
Definition slot_held `{Iommu} `{Engine} (s : m1drv) (tid slot : nat) (v need : Z) : Prop :=
  exists id o, (HJob tid slot, id) ∈ v_refs s /\ v_objs s !! id = Some o /\ is_Some (o_pages o) /\ need <= o_size o /\
    (a_removed (v_ane s) = true \/ o_mm o = Some v).

Definition need_of (args : drm_ane_submit) (slot : nat) : Z :=
  if (slot =? CMD_BUF_BDX)%nat then a_tsk_size args + 1 else if (slot =? 32)%nat then a_td_size args else 0.

(** The addresses of a job that has looked up the slots below [n]. *)
Definition bars_ok `{Iommu} `{Engine} (s : m1drv) (tid n : nat) (args : drm_ane_submit) (bar : list Z) : Prop :=
  length bar = 32%nat /\
  (forall i v, bar !! i = Some v -> i <> KRN_BUF_BDX -> v = 0 \/ ((i < n)%nat /\ slot_held s tid i v (need_of args i))) /\
  ((0 < n)%nat -> exists v, bar !! CMD_BUF_BDX = Some v /\ slot_held s tid CMD_BUF_BDX v (need_of args CMD_BUF_BDX)).

Definition job_ok `{Iommu} `{Engine} (s : m1drv) (tid : nat) (j : job) : Prop :=
  match j with
  | JMap file id =>
      exists o, (HJob tid 0, id) ∈ v_refs s /\ v_objs s !! id = Some o /\ is_Some (o_pages o)
  | JLook file args bdx bar =>
      (bdx <= 32)%nat /\ bars_ok s tid bdx args bar /\ default 0 (a_handles args !! CMD_BUF_BDX) <> 0
  | JRun args bar btsp =>
      bars_ok s tid 32 args bar /\ slot_held s tid 32 btsp (need_of args 32) /\
      bar !! KRN_BUF_BDX = Some (u32 (default 0 (bar !! CMD_BUF_BDX) + round_up (a_tsk_size args) ANE_CMD_GRAN))
  | JDelete _ _ | JPut _ _ => True
  end.

Section driver.
Context `{HI : Iommu} `{HM : DrmMm} `{HE : Engine} (shift lo hi : Z) `{!IommuLaws shift} `{!DrmMmLaws shift lo hi}.
Context (bd : board) (Hshift : 0 <= shift <= 32) (Hlo : 0 < lo) (Hhi : hi <= 2 ^ 32).
Abbreviation G := (page_bytes shift).

(** The invariant but for the jobs. *)
Record base (k : nat) (N : gmap Z node) (b : bool) (s : m1drv) : Prop := {
  ba_dev : dev_ok shift lo hi (obj_ranges (v_objs s)) (a_removed (v_ane s)) k N b (v_ane s);
  ba_objs id o : v_objs s !! id = Some o -> (id < v_next s)%nat /\ obj_ok shift o;
  ba_list : NoDup (v_list s) /\
    forall id, id ∈ v_list s <-> exists o, v_objs s !! id = Some o /\ is_Some (o_mm o);
  ba_refs h id : (h, id) ∈ v_refs s -> is_Some (v_objs s !! id);
}.

Definition good (k : nat) (N : gmap Z node) (b : bool) (s : m1drv) : Prop :=
  base k N b s /\ forall tid j, v_jobs s !! tid = Some j -> job_ok s tid j.

(** The kernel hands out as many pages as the object has, and the object is
    smaller than 4 GiB. *)
Definition small (e : m1_event) : Prop :=
  match e with
  | EvBoInit _ _ _ _ size env =>
      forall ps, ie_pages env = inl ps ->
        0 < round_up size G < 2 ^ 32 /\ zlen ps * G = round_up size G
  | _ => True
  end.

(** What a step must leave to the jobs other than [me]. *)
Record evolves (me : option nat) (s s' : m1drv) : Prop := {
  ev_refs tid slot id : Some tid <> me -> (HJob tid slot, id) ∈ v_refs s -> (HJob tid slot, id) ∈ v_refs s';
  ev_objs tid slot id o : Some tid <> me -> (HJob tid slot, id) ∈ v_refs s -> v_objs s !! id = Some o ->
    exists o', v_objs s' !! id = Some o' /\ o_size o' = o_size o /\ o_pages o' = o_pages o /\
      (a_removed (v_ane s') = true \/ o_mm o = None \/ o_mm o' = o_mm o);
  ev_removed : a_removed (v_ane s) = true -> a_removed (v_ane s') = true;
}.

Lemma evolves_refl me s : evolves me s s.
Proof. split; [done| |done]. intros tid slot id o _ _ Ho. exists o. split_and!; auto. Qed.

Lemma evolves_trans me s1 s2 s3 : evolves me s1 s2 -> evolves me s2 s3 -> evolves me s1 s3.
Proof.
  intros [R1 O1 M1] [R2 O2 M2]. split.
  - intros tid slot id Hne Hr. apply R2; [done|]. by apply R1.
  - intros tid slot id o Hne Hr Ho. destruct (O1 _ _ _ _ Hne Hr Ho) as (o1 & Ho1 & E1 & P1 & Hm1).
    destruct (O2 _ _ _ _ Hne (R1 _ _ _ Hne Hr) Ho1) as (o2 & Ho2 & E2 & P2 & Hm2). exists o2.
    split; [done|]. split; [congruence|]. split; [congruence|].
    destruct Hm1 as [Hm1|[Hm1|Hm1]]; [left; by apply M2|by right; left|].
    rewrite -Hm1. exact Hm2.
  - auto.
Qed.

Lemma slot_ok_evolves me s s' tid slot v need :
  Some tid <> me -> evolves me s s' -> slot_held s tid slot v need -> slot_held s' tid slot v need.
Proof.
  intros Hne [R O M] (id & o & Hr & Ho & Hp & Hn & Hm). destruct (O _ _ _ _ Hne Hr Ho) as (o' & Ho' & Es & Ep & Hm').
  exists id, o'. split; [by apply R|]. split; [done|]. split; [by rewrite Ep|]. split; [by rewrite Es|].
  destruct Hm as [Hm|Hm]; [left; by apply M|]. destruct Hm' as [|[|Hm']]; [by left|congruence|right; congruence].
Qed.

Lemma bars_ok_evolves me s s' tid n args bar :
  Some tid <> me -> evolves me s s' -> bars_ok s tid n args bar -> bars_ok s' tid n args bar.
Proof.
  intros Hne He (Hl & Hb & Hc). split; [done|]. split.
  - intros i v Hi Hk. destruct (Hb i v Hi Hk) as [|[? ?]]; [by left|right]. split; [done|]. by eapply slot_ok_evolves.
  - intros Hn. destruct (Hc Hn) as (v & ? & ?). exists v. split; [done|]. by eapply slot_ok_evolves.
Qed.

Lemma job_ok_evolves me s s' tid j :
  Some tid <> me -> evolves me s s' -> job_ok s tid j -> job_ok s' tid j.
Proof.
  intros Hne He. destruct j as [file id|file h|file args bdx bar|args bar btsp|slots ret]; cbn; try done.
  - intros (o & Hr & Ho & Hp). destruct (ev_objs _ _ _ He _ _ _ _ Hne Hr Ho) as (o' & Ho' & _ & Ep & _).
    exists o'. split; [by apply (ev_refs _ _ _ He)|]. split; [done|]. by rewrite Ep.
  - intros (? & ? & ?). split; [done|]. split; [by eapply bars_ok_evolves|done].
  - intros (? & ? & ?). split; [by eapply bars_ok_evolves|]. split; [by eapply slot_ok_evolves|done].
Qed.

Section steps.
Context (k : nat) (N : gmap Z node) (b : bool).
Abbreviation base := (base k N b).

(** *** References *)

Lemma take_ref_base h id s : base s -> is_Some (v_objs s !! id) -> base (hold h id s).
Proof using.
  intros [H1 H2 H3 H4] Hid. split; [done|done|done|]. intros h' id'. cbn. rewrite elem_of_app list_elem_of_singleton.
  intros [Hr|[= -> ->]]; [by eapply H4|done].
Qed.

Lemma take_ref_evolves h id s : evolves None s (hold h id s).
Proof using.
  split; [|intros tid slot id' o _ _ Ho; exists o; split_and!; auto|done]. intros tid slot id' _ Hr. cbn. apply elem_of_app. by left.
Qed.

Lemma ref_of_elem h l id : ref_of h l = Some id -> (h, id) ∈ l.
Proof using.
  induction l as [|[h' id'] l IH]; [done|]. cbn. case_decide as E; [|intros Hr; right; by apply IH].
  intros [= ->]. rewrite E. left.
Qed.

Lemma drop_ref_sub h l y : y ∈ drop_ref h l -> y ∈ l.
Proof using.
  induction l as [|[h' id'] l IH]; [done|]. cbn. case_decide; [intros; by right|].
  intros [->|Hy]%elem_of_cons; [left|right; by apply IH].
Qed.

Lemma drop_ref_other h l h' id : h' <> h -> (h', id) ∈ l -> (h', id) ∈ drop_ref h l.
Proof using.
  intros Hne. induction l as [|[h1 id1] l IH]; [done|]. cbn. intros [[= <- <-]|Hy]%elem_of_cons.
  - rewrite decide_False //. left.
  - case_decide; [done|]. right. by apply IH.
Qed.

(** *** Freeing an object *)

(** Dropping the range of an object. *)
Lemma dev_unmap R rm o a ps x :
  dev_ok shift lo hi ((a, ps) :: R) rm k N b x -> a_wedged x = false -> o_iova o = a -> o_npages o = zlen ps ->
  dev_ok shift lo hi R rm k N b (unmap_bo shift o x).
Proof using Hshift Hlo Hhi IommuLaws0.
  intros [H1 H2 H3 H4 Hx H5 [Hk HN]] Hw <- Hn. destruct (ranges_delete _ _ _ _ H2) as (nd & Ha & <- & Hp).
  destruct (unmap_pages_inv shift lo hi ltac:(lia) (a_space x) (o_iova o) nd H1 Ha) as [Hs En].
  destruct H3 as (F1 & F2 & F3 & F4).
  assert (a_dma x = false) as Ed by (destruct (a_dma x); [destruct (F4 eq_refl); congruence|done]).
  unfold unmap_bo. split; unfold keeps; cbn; rewrite ?Hn ?En; try done.
  rewrite Ed in HN |- *. split; [done|]. intros Hg. by destruct (HN Hg) as [? _].
Qed.

Lemma dev_preserve R rm kz a ps x :
  dev_ok shift lo hi ((a, ps) :: R) rm k N b x -> a_wedged x = true ->
  dev_ok shift lo hi R rm k N b (ane_preserve_bo kz a ps x).
Proof using.
  intros [H1 H2 H3 H4 Hx H5 H6] Hw. unfold ane_preserve_bo.
  destruct kz; split; try done; cbn; rewrite ?Hw; try done; rewrite -H2; solve_Permutation.
Qed.

Lemma preserve_removed kz a ps x : a_removed (ane_preserve_bo kz a ps x) = a_removed x.
Proof using. unfold ane_preserve_bo. by destruct kz. Qed.

Lemma dev_perm R R' rm x :
  R ≡ₚ R' -> dev_ok shift lo hi R rm k N b x -> dev_ok shift lo hi R' rm k N b x.
Proof using. intros Hp [H1 H2 H3 H4 Hx H5 H6]. split; try done. by rewrite -Hp. Qed.

Lemma free_object_base kz id s :
  base s -> (forall h, (h, id) ∉ v_refs s) -> base (ane_gem_free_object shift kz id s).
Proof using Hshift Hlo Hhi IommuLaws0.
  intros [H1 H2 [H3 H3'] H4] Hr. unfold ane_gem_free_object. destruct (v_objs s !! id) as [o|] eqn:Ho; [|done].
  destruct (H2 _ _ Ho) as [_ [Hok Hio]].
  assert (forall id' o', delete id (v_objs s) !! id' = Some o' -> (id' < v_next s)%nat /\ obj_ok shift o') as Hobjs.
  { intros id' o' [_ Ho']%lookup_delete_Some. by apply H2. }
  assert (forall h' id', (h', id') ∈ v_refs s -> is_Some (delete id (v_objs s) !! id')) as Hrefs.
  { intros h' id' Hin. rewrite lookup_delete_ne; [by eapply H4|]. intros ->. by eapply Hr. }
  pose proof (dev_perm _ _ _ _ (obj_ranges_delete _ _ _ Ho) H1) as Hdev. unfold obj_range in Hdev.
  destruct (o_mm o) as [a|] eqn:Hm.
  - destruct (o_pages o) as [ps|] eqn:Hps; [|done]. cbn in Hdev, Hio. destruct Hok as (Hn & _ & _ & _).
    rewrite Hn. unfold zlen. rewrite Nat2Z.id. cbn [default]. rewrite firstn_all.
    assert (NoDup (filter (fun i => i <> id) (v_list s)) /\ forall i, i ∈ filter (fun i => i <> id) (v_list s) <->
      exists o', delete id (v_objs s) !! i = Some o' /\ is_Some (o_mm o')) as Hlist.
    { split; [by apply NoDup_filter|]. intros i. rewrite list_elem_of_filter H3'. split.
      - intros [Hne (o' & Ho' & ?)]. exists o'. by rewrite lookup_delete_ne.
      - intros (o' & [Hne Ho']%lookup_delete_Some & ?). split; [congruence|]. by exists o'. }
    destruct (a_wedged (v_ane s)) eqn:Hw; split; try done.
    + cbn. rewrite preserve_removed. by apply dev_preserve.
    + cbn. by apply (dev_unmap _ _ o a ps).
  - split; try done.
    + cbn. split; [done|]. intros i. rewrite H3'. split.
      * intros (o' & Ho' & Hs). exists o'. split; [|done]. rewrite lookup_delete_ne //. intros <-. rewrite Ho in Ho'.
        injection Ho' as <-. rewrite Hm in Hs. by destruct Hs.
      * intros (o' & [_ Ho']%lookup_delete_Some & ?). by exists o'.
Qed.

Lemma free_object_same kz id s :
  v_refs (ane_gem_free_object shift kz id s) = v_refs s /\ v_jobs (ane_gem_free_object shift kz id s) = v_jobs s /\
  a_removed (v_ane (ane_gem_free_object shift kz id s)) = a_removed (v_ane s) /\
  v_objs (ane_gem_free_object shift kz id s) = delete id (v_objs s).
Proof using.
  unfold ane_gem_free_object. destruct (v_objs s !! id) as [o|] eqn:Ho.
  2: { split; [done|]. split; [done|]. split; [done|]. by rewrite delete_id. }
  destruct (o_mm o); [|done]. destruct (a_wedged (v_ane s)); [|done]. cbn. by rewrite preserve_removed.
Qed.

(** The job whose reference is dropped. *)
Definition owner (h : holder) : option nat := match h with HJob tid _ => Some tid | _ => None end.

Lemma put_good kz h s : base s -> base (put shift kz h s) /\ evolves (owner h) s (put shift kz h s) /\
  v_jobs (put shift kz h s) = v_jobs s.
Proof using Hshift Hlo Hhi IommuLaws0.
  intros Hb. unfold put. destruct (ref_of h (v_refs s)) as [id|] eqn:Hr; [|split; [done|]; split; [apply evolves_refl|done]].
  set (s1 := set_refs (drop_ref h (v_refs s)) s).
  assert (base s1) as Hb1.
  { destruct Hb as [H1 H2 H3 H4]. split; try done. intros h' id' Hin. apply (H4 h'). exact (drop_ref_sub _ _ _ Hin). }
  assert (evolves (owner h) s s1) as He1.
  { split; [|intros tid slot id' o _ _ Ho; exists o; split_and!; auto|done].
    intros tid slot id' Hne Hin. apply drop_ref_other; [|done]. intros <-. by apply Hne. }
  destruct (existsb (fun r => Nat.eqb r.2 id) (v_refs s1)) eqn:Hx; [done|].
  assert (forall h', (h', id) ∉ v_refs s1) as Hno.
  { intros h' Hin. assert (existsb (fun r => Nat.eqb r.2 id) (v_refs s1) = true) as E; [|congruence].
    apply existsb_exists. exists (h', id). split; [by apply list_elem_of_In|apply Nat.eqb_refl]. }
  split; [by apply free_object_base|]. destruct (free_object_same kz id s1) as (E1 & E2 & E3 & E4). split; [|by rewrite E2].
  apply (evolves_trans _ _ s1); [done|]. split; [by rewrite E1| |by rewrite E3].
  intros tid slot id' o Hne Hin Ho. exists o. rewrite E4 lookup_delete_ne; [split_and!; auto|]. intros ->. by eapply Hno.
Qed.

(** *** Engine code *)

(** Only the engine, the device and the power state change. *)
Definition same (s s' : m1drv) : Prop :=
  v_next s' = v_next s /\ v_objs s' = v_objs s /\ v_refs s' = v_refs s /\ v_jobs s' = v_jobs s /\ v_list s' = v_list s /\
  a_removed (v_ane s') = a_removed (v_ane s).

Lemma same_refl s : same s s.
Proof using. by repeat split. Qed.

Lemma same_trans s1 s2 s3 : same s1 s2 -> same s2 s3 -> same s1 s3.
Proof using.
  intros (? & ? & ? & ? & ? & ?) (? & ? & ? & ? & ? & ?). split_and!; congruence.
Qed.

Lemma same_evolves me s s' : same s s' -> evolves me s s'.
Proof using.
  intros (_ & Eo & Er & _ & _ & Em). split; [by rewrite Er| |by rewrite Em].
  intros tid slot id o _ _ Ho. exists o. rewrite Eo. split_and!; auto.
Qed.

Lemma same_base s s' :
  base s -> same s s' -> dev_ok shift lo hi (obj_ranges (v_objs s)) (a_removed (v_ane s)) k N b (v_ane s') -> base s'.
Proof using.
  intros [H1 H2 H3 H4] (En & Eo & Er & _ & El & Em) Hd. split; rewrite ?En ?Eo ?Er ?El ?Em; done.
Qed.

(** The triples of [M1Tm] on the driver's state, with a fresh monitor. *)
Lemma run_tri {A} req (m : mprog A) (P : mon -> ane -> Prop) (Q : A -> mon -> ane -> Prop) s :
  tri req P m Q -> P mon0 (v_ane s) ->
  exists g, Q (run_tm m s).1 g (v_ane (run_tm m s).2) /\
    (a_removed (v_ane (run_tm m s).2) = a_removed (v_ane s) -> same s (run_tm m s).2).
Proof using.
  intros Ht HP. destruct (Ht (v_mach s) mon0 HP) as (l & g & _ & _ & HQ). exists g. unfold run_tm.
  destruct (m (v_mach s)) as [r ms]. split; [exact HQ|]. intros Hr. by repeat split.
Qed.

Definition req0 : ane_request := Request 0 0 0 0 0 [].

Lemma recover_run s :
  base s -> let r := run_tm (ane_tm_recover shift bd) s in
  base r.2 /\ same s r.2 /\ (r.1 = None -> a_wedged (v_ane r.2) = false).
Proof using Hshift Hlo Hhi IommuLaws0 DrmMmLaws0.
  intros Hb.
  destruct (run_tri req0 _ _ _ s (recover_spec shift bd req0 _ (recover_dev shift lo hi Hshift Hlo Hhi
    (obj_ranges (v_objs s)) (a_removed (v_ane s)) k N b))) as (g & [Hd Hw] & Hsame).
  { split; [exact (ba_dev _ _ _ _ Hb)|by left]. }
  pose proof (Hsame (do_removed _ _ _ _ _ _ _ _ _ Hd)) as Hs. split; [by eapply same_base|]. by split.
Qed.

Lemma resume_run s : base s -> base (run_tm (ane_runtime_resume bd) s).2 /\ same s (run_tm (ane_runtime_resume bd) s).2.
Proof using Hshift Hlo Hhi IommuLaws0 DrmMmLaws0.
  intros Hb.
  destruct (run_tri req0 _ _ _ s (runtime_resume_spec bd req0 (dev_ok shift lo hi (obj_ranges (v_objs s)) (a_removed (v_ane s)) k N b)
    (rc_fresh _ _ (recover_dev shift lo hi Hshift Hlo Hhi _ _ k N b)))) as (g & [_ Hd] & Hsame).
  { split; [done|]. exact (ba_dev _ _ _ _ Hb). }
  pose proof (Hsame (do_removed _ _ _ _ _ _ _ _ _ Hd)) as Hs. split; [by eapply same_base|done].
Qed.

Lemma pm_get_good pm s : base s -> base (pm_get bd pm s).2 /\ same s (pm_get bd pm s).2.
Proof using Hshift Hlo Hhi IommuLaws0 DrmMmLaws0.
  intros Hb. unfold pm_get. destruct (v_on s); [split; [done|apply same_refl]|]. destruct pm; [|split; [done|apply same_refl]].
  destruct (resume_run s Hb) as [Hb' Hs]. destruct (run_tm (ane_runtime_resume bd) s) as [r s']. cbn [snd] in *. split.
  - destruct Hb' as [H1 H2 H3 H4]. by split.
  - exact Hs.
Qed.

Lemma recovered_or_good e1 e2 s :
  base s -> let r := recovered_or shift bd e1 e2 s in
  base r.2 /\ same s r.2 /\ (r.1 = None -> a_wedged (v_ane r.2) = false /\ a_removed (v_ane s) = false) /\
  (a_wedged (v_ane s) = false -> r.2 = s).
Proof using Hshift Hlo Hhi IommuLaws0 DrmMmLaws0.
  intros Hb. unfold recovered_or. destruct (a_removed (v_ane s)) eqn:Hrm; [by split_and!; try apply same_refl|].
  destruct (a_wedged (v_ane s)) eqn:Hw; [|by split_and!; try apply same_refl].
  destruct (recover_run s Hb) as (Hb' & Hs & Hr). destruct (run_tm (ane_tm_recover shift bd) s) as [[e|] s']; cbn in *.
  - by split_and!.
  - split_and!; [done|done|by intros; split; [apply Hr|]|done].
Qed.

(** Until removal the device stays as the submit found it. *)
Lemma enqueue_run req s : let r := run_tm (ane_tm_enqueue req) s in v_ane r.2 = v_ane s /\ same s r.2.
Proof using.
  assert (tri req0 (calm (fun x => x = v_ane s)) (ane_tm_enqueue req) (fun _ => calm (fun x => x = v_ane s))) as Ht.
  { unfold ane_tm_enqueue.
    repeat first [eapply tri_bind; [|let v := fresh in intros v; cbv beta] | apply tq_write_any; by intros ? ? [? _]
                 | apply tri_for_each; let v := fresh in intros v; cbv beta | match goal with |- context [let '(_, _) := ?y in _] => destruct y end]. }
  destruct (run_tri req0 _ _ _ s Ht) as (g & [_ E] & Hs); [done|]. split; [done|]. apply Hs. by rewrite E.
Qed.

(** What [keeps] needs when a task starts. *)
Definition may_start (s : m1drv) : Prop := a_gates (v_ane s) = k -> N ⊆ sp_nodes (a_space (v_ane s)).

Lemma execute_run env req s :
  base s -> a_wedged (v_ane s) = false -> may_start s ->
  let r := run_tm (ane_tm_execute shift bd env req) s in base r.2 /\ same s r.2.
Proof using Hshift Hlo Hhi IommuLaws0 DrmMmLaws0.
  intros Hb Hw Hst.
  destruct (run_tri req _ _ _ s (execute_spec shift bd req env _ _ (exec_dev shift lo hi Hshift Hlo Hhi
    (obj_ranges (v_objs s)) (a_removed (v_ane s)) k N b env))) as (g & [Hd _] & Hsame).
  - split; [done|]. destruct (ba_dev _ _ _ _ Hb) as [H1 H2 (F1 & F2 & F3 & F4) H4 Hx H5 [Hk HN]]. rewrite Hw in F2, F3, F4, H4.
    assert (a_dma (v_ane s) = false) as Ed by (destruct (a_dma (v_ane s)); [by destruct (F4 eq_refl)|done]).
    assert (a_quiesced (v_ane s) = false) as Eq by (destruct (a_quiesced (v_ane s)); [by specialize (F2 eq_refl)|done]).
    split; cbn; try done.
    + split_and!; [done| | |done].
      * destruct (a_scratch_retained (v_ane s)); [by specialize (F3 eq_refl)|done].
      * destruct (a_por_pending (v_ane s)); [specialize (F1 eq_refl); congruence|done].
    + by apply Hx.
    + split; [done|]. intros Hg. destruct (HN Hg) as [Hbt _]. rewrite Ed in Hbt. split; [|by apply Hst].
      destruct b; [by specialize (Hbt eq_refl)|done].
  - pose proof (Hsame (do_removed _ _ _ _ _ _ _ _ _ Hd)) as Hs. split; [by eapply same_base|done].
Qed.

Lemma suspend_run s :
  base s -> base (run_tm ane_runtime_suspend s).2 /\ same s (run_tm ane_runtime_suspend s).2.
Proof using.
  intros Hb. unfold run_tm, ane_runtime_suspend, mbind, mprog_bind, get_ane. cbn. fold (v_ane s).
  destruct (a_wedged (v_ane s)) eqn:Hw; [|split; [by destruct Hb|by repeat split]].
  destruct (a_quiesced (v_ane s)) eqn:Hq; cbn; [|split; [by destruct Hb|by repeat split]].
  split; [|by repeat split]. eapply same_base; [done|by repeat split|]. cbn. fold (v_ane s).
  destruct (ba_dev _ _ _ _ Hb) as [H1 H2 (F1 & F2 & F3 & F4) H4 Hx H5 H6]. split; try done.
Qed.

(** *** Mapping an object *)

Lemma obj_mapped s id o a :
  base s -> v_objs s !! id = Some o -> o_mm o = Some a ->
  exists ps nd, o_pages o = Some ps /\ o_iova o = a /\ sp_nodes (a_space (v_ane s)) !! a = Some nd /\ n_pages nd = ps /\
    lo <= a /\ a + zlen ps * G <= hi /\ a mod G = 0 /\ o_size o = zlen ps * G /\ o_npages o = zlen ps /\ 0 < zlen ps.
Proof using.
  intros [H1 H2 _ _] Ho Hm. destruct (H2 _ _ Ho) as [_ [Hok Hio]]. rewrite Hm in Hok, Hio.
  destruct (o_pages o) as [ps|] eqn:Hps; [|done]. destruct Hok as (Hn & Hpos & Hlt & Hsz).
  assert ((a, ps) ∈ ranges (sp_nodes (a_space (v_ane s)))) as Hin.
  { rewrite -(do_own _ _ _ _ _ _ _ _ _ H1). apply elem_of_app. left. apply obj_ranges_elem. by exists id, o. }
  apply ranges_elem in Hin as (nd & Ha & E). exists ps, nd.
  destruct (si_node _ _ _ _ (do_space _ _ _ _ _ _ _ _ _ H1) a nd Ha) as (L1 & L2 & L3 & L4 & L5). rewrite E in L4, L5.
  split_and!; try done. lia.
Qed.

Lemma map_bo_good env id o s :
  base s -> v_objs s !! id = Some o -> is_Some (o_pages o) ->
  match map_bo shift env id o s with
  | (Some _, s') => base s' /\ same s s'
  | (None, s') =>
      base (set_bo_list (v_list s' ++ [id]) s') /\ evolves None s s' /\ v_jobs s' = v_jobs s /\ is_Some (v_objs s' !! id)
  end.
Proof using Hshift Hlo Hhi IommuLaws0 DrmMmLaws0.
  intros Hb Ho [ps Hps]. unfold map_bo. destruct (o_mm o) as [a0|] eqn:Hm; [split; [done|apply same_refl]|].
  rewrite bool_decide_eq_false_2; [|by intros []]. destruct Hb as [H1 H2 [H3 H3'] H4].
  destruct (H2 _ _ Ho) as [Hid [Hok Hio]]. rewrite Hps in Hok. destruct Hok as (Hn & Hpos & Hlt & Hsz).
  rewrite Hps Hn. unfold zlen at 1. rewrite Nat2Z.id. cbn [default from_option]. rewrite firstn_all.
  destruct H1 as [D1 D2 D3 D4 Dx D5 [Dk DN]].
  pose proof (map_pages_inv shift lo hi ltac:(lia) env ps (a_space (v_ane s)) D1 Hpos Hlt) as Hmap.
  destruct (ane_iommu_map_pages shift env ps (a_space (v_ane s))) as [sp [a|e]].
  - destruct Hmap as (Hs & Hnew & _ & En). split_and!.
    + split; cbn.
      * split; unfold keeps; cbn; try done.
        -- rewrite En ranges_insert // -D2 obj_ranges_update. cbn.
           rewrite (obj_ranges_delete _ _ _ Ho). unfold obj_range at 1. rewrite Hm. cbn. reflexivity.
        -- split; [done|]. intros Hg. destruct (DN Hg) as [? DN']. split; [done|]. intros Hd. rewrite En.
           etransitivity; [by apply DN'|]. by apply insert_subseteq.
      * intros id' o' [[<- <-]|[_ Ho']]%lookup_insert_Some; [|by apply H2]. split; [done|]. unfold obj_ok. cbn. by split_and!.
      * split.
        -- apply NoDup_app. split; [done|]. split; [|apply NoDup_singleton]. intros i Hi ->%list_elem_of_singleton.
           apply H3' in Hi as (o' & Ho' & Hs'). rewrite Ho in Ho'. injection Ho' as <-. rewrite Hm in Hs'. by destruct Hs'.
        -- intros i. rewrite elem_of_app list_elem_of_singleton H3'. destruct (decide (i = id)) as [->|Hne].
           ++ split; [intros _|by right]. eexists. split; [apply lookup_insert_eq|]. done.
           ++ rewrite lookup_insert_ne //. split; [intros [?|?]; done|by left].
      * intros h' id' Hr. destruct (decide (id' = id)) as [->|]; [by rewrite lookup_insert_eq|].
        rewrite lookup_insert_ne //. by eapply H4.
    + split; [done| |done]. intros tid slot id' o' _ _ Ho'. cbn. destruct (decide (id' = id)) as [->|].
      * rewrite Ho in Ho'. injection Ho' as <-. rewrite lookup_insert_eq. eexists. split; [done|]. cbn. auto.
      * rewrite lookup_insert_ne //. exists o'. split_and!; auto.
    + done.
    + cbn. by rewrite lookup_insert_eq.
  - destruct Hmap as [Hs En]. split; [|by repeat split]. apply (same_base s); [by split|by repeat split|].
    split; unfold keeps; cbn; rewrite ?En; done.
Qed.

(** *** Jobs *)

Lemma set_job_good me tid j s s' :
  good k N b s -> base s' -> evolves me s s' -> (me = None \/ me = Some tid) -> v_jobs s' = v_jobs s -> job_ok s' tid j ->
  good k N b (set_job tid j s').
Proof using.
  intros [_ Hj] [H1 H2 H3 H4] He Hme Ej Hnew. split; [by split|]. intros tid' j'. cbn. rewrite Ej.
  intros [[<- <-]|[Hne Hj']]%lookup_insert_Some; [exact Hnew|].
  apply (job_ok_evolves me s s' tid' j'); [|done|by apply Hj]. destruct Hme as [-> | ->]; [done|congruence].
Qed.

Lemma good_evolves s s' : good k N b s -> base s' -> evolves None s s' -> v_jobs s' = v_jobs s -> good k N b s'.
Proof using.
  intros [_ Hj] Hb He Ej. split; [done|]. intros tid j. rewrite Ej. intros Htid. by apply (job_ok_evolves None s); [|by auto|by apply Hj].
Qed.

Lemma same_good s s' : good k N b s -> base s' -> same s s' -> good k N b s'.
Proof using. intros Hg Hb Hs. apply (good_evolves s); [done|done|by apply same_evolves|]. by destruct Hs as (_ & _ & _ & ? & _). Qed.

Lemma bo_init_locked_good tid file id env s :
  good k N b s -> job_ok s tid (JMap file id) -> good k N b (ane_bo_init_locked shift bd tid file id env s).
Proof using Hshift Hlo Hhi IommuLaws0 DrmMmLaws0.
  intros Hg (o & Hr & Ho & Hp). pose proof (proj1 Hg) as Hb. unfold ane_bo_init_locked.
  destruct (recovered_or_good ENODEV ENODEV s Hb) as (Hb1 & Hs1 & _).
  destruct (recovered_or shift bd ENODEV ENODEV s) as [[e|] s1]; cbn [fst snd] in *.
  { apply (set_job_good None _ _ s); [done|done|by apply same_evolves|by left|apply Hs1|done]. }
  destruct Hs1 as (S1 & S2 & S3 & S4 & S5 & S6). rewrite S2 Ho.
  assert (evolves None s s1) as He1 by (by apply same_evolves).
  pose proof (map_bo_good (re_map env) id o s1 Hb1) as Hmap. rewrite S2 in Hmap. specialize (Hmap Ho Hp).
  destruct (map_bo shift (re_map env) id o s1) as [[e|] s2].
  { destruct Hmap as [Hb2 Hs2]. apply (set_job_good None _ _ s); [done|done| |by left| |done].
    - apply (evolves_trans _ _ s1); [done|]. by apply same_evolves.
    - destruct Hs2 as (_ & _ & _ & -> & _). done. }
  destruct Hmap as (Hb2 & He2 & Ej2 & Hid). set (s3 := set_bo_list (v_list s2 ++ [id]) s2) in *.
  assert (evolves None s s3) as He3
    by (destruct (evolves_trans _ _ _ _ He1 He2); by split).
  assert (v_jobs s3 = v_jobs s) as Ej3 by (cbn; congruence).
  unfold handle_create. destruct (re_handle env) as [h|e].
  2: { by apply (set_job_good None _ _ s); [..|left| |]. }
  destruct (_ || _); [by apply (set_job_good None _ _ s); [..|left| |]|].
  apply (set_job_good None _ _ s); [done|by apply take_ref_base| |by left|done|done].
  apply (evolves_trans _ _ s3); [done|apply take_ref_evolves].
Qed.

Lemma bo_free_good tid file pad h s : good k N b s -> good k N b (ane_bo_free shift bd tid file pad h s).
Proof using Hshift Hlo Hhi IommuLaws0 DrmMmLaws0.
  intros Hg. pose proof (proj1 Hg) as Hb. unfold ane_bo_free. destruct (negb _).
  { apply (set_job_good None _ _ s); [done|done|apply evolves_refl|by left|done|done]. }
  destruct (recovered_or_good ENODEV ENODEV s Hb) as (Hb1 & Hs1 & _).
  destruct (recovered_or shift bd ENODEV ENODEV s) as [[e|] s1]; cbn [fst snd] in *.
  { apply (set_job_good None _ _ s); [done|done|by apply same_evolves|by left|apply Hs1|done]. }
  destruct (bo_lookup file h s1) as [id|] eqn:Hl.
  - apply (set_job_good None _ _ s); [done| | |by left|apply Hs1|done].
    + apply take_ref_base; [done|]. eapply ba_refs; [done|]. by apply ref_of_elem.
    + apply (evolves_trans _ _ s1); [by apply same_evolves|apply take_ref_evolves].
  - apply (set_job_good None _ _ s); [done|done|by apply same_evolves|by left|apply Hs1|done].
Qed.

(** A found slot. *)
Lemma lookup_slot tid slot need s id o :
  base s -> v_objs s !! id = Some o -> (o_iova o =? 0) = false -> need <= o_size o ->
  slot_held (hold (HJob tid slot) id s) tid slot (u32 (o_iova o)) need.
Proof using Hlo Hhi Hshift.
  intros Hb Ho Hi Hn. apply Z.eqb_neq in Hi. pose proof (ba_objs _ _ _ _ Hb _ _ Ho) as [_ [_ Hio]].
  destruct (o_mm o) as [a|] eqn:Hm; [|done]. cbn in Hio.
  destruct (obj_mapped s id o a Hb Ho Hm) as (ps & nd & Hp & _ & _ & _ & L1 & L2 & _ & _ & _ & L3).
  exists id, o. cbn. split_and!; [|done|by rewrite Hp|done|].
  - apply elem_of_app. right. by apply list_elem_of_singleton.
  - right. rewrite Hm Hio wrap_small; [done|]. pose proof (G_pos shift ltac:(lia)). nia.
Qed.

Lemma submit_lookup_good tid file args bdx bar s :
  good k N b s -> job_ok s tid (JLook file args bdx bar) -> good k N b (submit_lookup shift tid file args bdx bar s).
Proof using Hshift Hlo Hhi.
  intros Hg (Hbdx & (Hlen & Hbar & Hcmd) & Hh0). pose proof (proj1 Hg) as Hb. unfold submit_lookup.
  destruct (Nat.ltb_spec bdx 32) as [Hlt|Hge].
  - destruct (Z.eqb_spec (default 0 (a_handles args !! bdx)) 0) as [E|Hh].
    { apply (set_job_good None _ _ s); [done|done|apply evolves_refl|by left|done|].
      assert (bdx <> 0%nat) by (by intros ->). split; [lia|]. split; [|done]. split; [done|]. split.
      - intros i v Hi Hk. destruct (Hbar i v Hi Hk) as [|[? ?]]; [by left|right]. split; [lia|done].
      - intros _. apply Hcmd. lia. }
    destruct (bo_lookup file _ s) as [id|] eqn:Hl.
    2: { apply (set_job_good None _ _ s); [done|done|apply evolves_refl|by left|done|done]. }
    apply ref_of_elem in Hl. destruct (ba_refs _ _ _ _ Hb _ _ Hl) as [o Ho].
    set (s1 := hold (HJob tid bdx) id s). assert (base s1) as Hb1 by (by apply take_ref_base).
    assert (evolves None s s1) as He by apply take_ref_evolves. cbn [v_objs s1 hold set_refs]. rewrite Ho.
    destruct (o_iova o =? 0) eqn:Hi; cbn [orb]; [by apply (set_job_good None _ _ s); [..|left| |]|].
    destruct (_ && _) eqn:Hsz; [by apply (set_job_good None _ _ s); [..|left| |]|].
    apply (set_job_good None _ _ s); [done|done|done|by left|done|].
    assert (slot_held s1 tid bdx (u32 (o_iova o)) (need_of args bdx)) as Hslot.
    { apply lookup_slot; [done|done|done|]. destruct (ba_objs _ _ _ _ Hb _ _ Ho) as [_ [Hok Hio]].
      apply Z.eqb_neq in Hi. destruct (o_mm o) as [a|]; [|done]. destruct (o_pages o) as [ps|]; [|done].
      destruct Hok as (Hn & Hpos & Hlt' & Hsz'). pose proof (G_pos shift ltac:(lia)). unfold need_of.
      destruct (Nat.eqb_spec bdx CMD_BUF_BDX) as [->|].
      - cbn in Hsz. rewrite Z.geb_leb in Hsz. apply Z.leb_gt in Hsz.
        rewrite Hn shiftl_G in Hsz; [|lia]. rewrite wrap_small in Hsz; lia.
      - destruct (Nat.eqb_spec bdx 32); [lia|]. nia. }
    split; [lia|]. split; [|done]. split; [by rewrite length_insert|]. split.
    + intros i v. rewrite list_lookup_insert_Some. intros [(<- & <- & _)|[Hne Hiv]] Hk; [right; split; [lia|done]|].
      destruct (Hbar i v Hiv Hk) as [|[? ?]]; [by left|right]. split; [lia|]. by apply (slot_ok_evolves None s).
    + intros _. destruct (decide (bdx = 0%nat)) as [->|Hne].
      * exists (u32 (o_iova o)). split; [|done]. apply list_lookup_insert_eq. lia.
      * destruct Hcmd as (v & Hv & Hs); [lia|]. exists v. rewrite list_lookup_insert_ne //. split; [done|]. by apply (slot_ok_evolves None s).
  - assert (bdx = 32%nat) as -> by lia.
    destruct (bo_lookup file _ s) as [id|] eqn:Hl.
    2: { apply (set_job_good None _ _ s); [done|done|apply evolves_refl|by left|done|done]. }
    apply ref_of_elem in Hl. destruct (ba_refs _ _ _ _ Hb _ _ Hl) as [o Ho].
    set (s1 := hold (HJob tid 32) id s). assert (base s1) as Hb1 by (by apply take_ref_base).
    assert (evolves None s s1) as He by apply take_ref_evolves. cbn [v_objs s1 hold set_refs]. rewrite Ho.
    destruct (o_iova o =? 0) eqn:Hi; cbn [orb]; [by apply (set_job_good None _ _ s); [..|left| |]|].
    destruct (a_td_size args >? o_size o) eqn:Hsz; [by apply (set_job_good None _ _ s); [..|left| |]|].
    apply (set_job_good None _ _ s); [done|done|done|by left|done|]. rewrite Z.gtb_ltb in Hsz. apply Z.ltb_ge in Hsz.
    split; [|split; [by apply lookup_slot|]].
    + split; [by rewrite length_insert|]. split.
      * intros i v. rewrite list_lookup_insert_Some. intros [(<- & _)|[Hne Hiv]] Hk; [done|].
        destruct (Hbar i v Hiv Hk) as [|[? ?]]; [by left|right]. split; [lia|]. by apply (slot_ok_evolves None s).
      * intros _. destruct Hcmd as (v & Hv & Hs); [lia|]. exists v. rewrite list_lookup_insert_ne //. split; [done|].
        by apply (slot_ok_evolves None s).
    + unfold KRN_BUF_BDX, CMD_BUF_BDX. rewrite list_lookup_insert_eq; [|rewrite Hlen; lia]. by rewrite list_lookup_insert_ne.
Qed.

Lemma submit_run_good tid args bar btsp env s :
  good k N b s -> (b = true \/ N = ∅ \/ (a_wedged (v_ane s) = false /\ N ⊆ sp_nodes (a_space (v_ane s)))) ->
  good k N b (submit_run shift bd tid args bar btsp env s).
Proof using Hshift Hlo Hhi IommuLaws0 DrmMmLaws0.
  intros Hg Hst. pose proof (proj1 Hg) as Hb. unfold submit_run.
  destruct (recovered_or_good ENODEV ECANCELED s Hb) as (Hb1 & Hs1 & Hr1 & Heq).
  destruct (recovered_or shift bd ENODEV ECANCELED s) as [[e|] s1]; cbn [fst snd] in *.
  { apply (set_job_good None _ _ s); [done|done|by apply same_evolves|by left|apply Hs1|done]. }
  destruct (Hr1 eq_refl) as [Hw1 _].
  assert (may_start s1) as Hms.
  { intros Hk. destruct Hst as [-> | [-> | [Hw HN]]].
    - destruct (do_keeps _ _ _ _ _ _ _ _ _ (ba_dev _ _ _ _ Hb1)) as [_ Hkk]. destruct (Hkk Hk) as [Hd _].
      destruct (do_flags _ _ _ _ _ _ _ _ _ (ba_dev _ _ _ _ Hb1)) as (_ & _ & _ & F). destruct (F (Hd eq_refl)). congruence.
    - apply map_empty_subseteq.
    - by rewrite (Heq Hw). }
  set (req := submit_request args bar btsp).
  destruct (enqueue_run req s1) as [Ea Hs2]. destruct (run_tm (ane_tm_enqueue req) s1) as [r2 s2]. cbn [fst snd] in *.
  assert (base s2) as Hb2.
  { apply (same_base s1); [done|done|]. rewrite Ea. apply (ba_dev _ _ _ _ Hb1). }
  destruct (execute_run (re_scratch env) req s2 Hb2) as [Hb3 Hs3]; [by rewrite Ea|unfold may_start; by rewrite Ea|].
  destruct (run_tm _ s2) as [r3 s3]. cbn [fst snd] in *.
  pose proof (same_trans _ _ _ (same_trans _ _ _ Hs1 Hs2) Hs3) as Hs.
  apply (set_job_good None _ _ s); [done|done|by apply same_evolves|by left|apply Hs|done].
Qed.

Lemma new_obj_base h o s :
  base s -> obj_ok shift o -> o_mm o = None -> base (hold h (v_next s) (new_obj o s)).
Proof using.
  intros [H1 H2 [H3 H3'] H4] Ho Hm. assert (v_objs s !! v_next s = None) as Hn.
  { destruct (v_objs s !! v_next s) eqn:E; [|done]. apply H2 in E as [? _]. lia. }
  split; cbn.
  - apply (dev_perm (obj_ranges (v_objs s))); [|exact H1].
    rewrite obj_ranges_insert //. unfold obj_range. by rewrite Hm.
  - intros id o' [[<- <-]|[_ Ho']]%lookup_insert_Some; [split; [lia|done]|]. destruct (H2 _ _ Ho'). split; [lia|done].
  - split; [done|]. intros id. rewrite H3'. destruct (decide (id = v_next s)) as [->|].
    + rewrite lookup_insert_eq Hn. split; [by intros (? & ? & _)|]. intros (? & [= <-] & E). rewrite Hm in E. by destruct E.
    + by rewrite lookup_insert_ne.
  - intros h' id. rewrite elem_of_app list_elem_of_singleton. intros [Hr|[= -> ->]]; [|by rewrite lookup_insert_eq].
    destruct (decide (id = v_next s)) as [->|]; [by rewrite lookup_insert_eq|]. rewrite lookup_insert_ne //. by eapply H4.
Qed.

Lemma new_obj_evolves h o s : base s -> evolves None s (hold h (v_next s) (new_obj o s)).
Proof using.
  intros [_ H2 _ _]. split; [|intros tid slot id o' _ _ Ho'|done].
  - intros tid slot id _ Hr. cbn. apply elem_of_app. by left.
  - exists o'. cbn. rewrite lookup_insert_ne; [split_and!; auto|]. intros <-. apply H2 in Ho' as [? _]. lia.
Qed.

Lemma bo_init_good tid file pm pad size env s :
  good k N b s -> small (EvBoInit tid file pm pad size env) -> good k N b (ane_bo_init shift tid file pad size env s).
Proof using Hshift.
  intros Hg Hsm. pose proof (proj1 Hg) as Hb. unfold ane_bo_init.
  assert (forall e, good k N b (set_job tid (JPut [] (Some e)) s)) as Hfail.
  { intros e. apply (set_job_good None _ _ s); [done|done|apply evolves_refl|by left|done|done]. }
  destruct (_ || _); [apply Hfail|]. destruct (ie_kzalloc env); [|apply Hfail]. cbn [negb].
  destruct (ie_init env); [apply Hfail|].
  assert (forall np pages j, obj_ok shift (Obj (round_up size G) np pages None 0) ->
    job_ok (hold (HJob tid 0) (v_next s) (new_obj (Obj (round_up size G) np pages None 0) s)) tid j ->
    good k N b (set_job tid j (hold (HJob tid 0) (v_next s) (new_obj (Obj (round_up size G) np pages None 0) s)))) as Hmk.
  { intros np pages j Ho Hj. by apply (set_job_good None _ _ s); [done|by apply new_obj_base|by apply new_obj_evolves|left| |]. }
  destruct (ie_offset env) as [e|]; [by apply Hmk|]. destruct (ie_pages env) as [ps|e] eqn:Hps; [|by apply Hmk].
  destruct (Hsm ps Hps) as [Hr Hl]. apply Hmk.
  - split; [|done]. cbn. pose proof (G_pos shift ltac:(lia)).
    assert (Z.shiftr (round_up size G) shift = zlen ps) as ->.
    { rewrite -Hl -(shiftl_G shift ltac:(lia)) Z.shiftr_shiftl_l; [|lia]. by rewrite Z.sub_diag Z.shiftl_0_r. }
    rewrite Hl. split; [|nia]. apply wrap_small. split; [apply zlen_nonneg|]. nia.
  - exists (Obj (round_up size G) (u32 (Z.shiftr (round_up size G) shift)) (Some ps) None 0). cbn. split; [|split; [|done]].
    + apply elem_of_app. right. by apply list_elem_of_singleton.
    + apply lookup_insert_eq.
Qed.

(** *** Removal *)

Lemma remove_bo_base id l s :
  base (set_bo_list (id :: l) s) -> a_wedged (v_ane s) = false -> a_removed (v_ane s) = true ->
  base (set_bo_list l (remove_bo shift s id)) /\ evolves None s (remove_bo shift s id).
Proof using Hshift Hlo Hhi IommuLaws0.
  intros [H1 H2 [H3 H3'] H4] Hw Hrm. cbn in *. unfold remove_bo.
  destruct (proj1 (H3' id) ltac:(left)) as (o & Ho & [a Hm]). rewrite Ho.
  destruct (H2 _ _ Ho) as [Hid [Hok Hio]]. rewrite Hm in Hok, Hio.
  destruct (o_pages o) as [ps|] eqn:Hps; [|done]. destruct Hok as (Hn & Hok). split.
  - split; cbn.
    + apply (dev_perm (obj_ranges (delete id (v_objs s)))); [by rewrite obj_ranges_update|].
      apply (dev_unmap _ _ o a ps); [|done|done|done].
      refine (dev_perm _ _ _ _ _ H1). rewrite (obj_ranges_delete _ _ _ Ho). unfold obj_range. by rewrite Hm Hps.
    + intros id' o' [[<- <-]|[_ Ho']]%lookup_insert_Some; [|by apply H2]. split; [done|]. unfold obj_ok. cbn. by rewrite Hn.
    + apply NoDup_cons in H3 as [Hnot H3]. split; [done|]. intros i. destruct (decide (i = id)) as [->|Hne].
      * split; [done|]. intros (o' & Ho' & E). rewrite lookup_insert_eq in Ho'. injection Ho' as <-. by destruct E.
      * rewrite lookup_insert_ne // -H3' elem_of_cons. split; [by right|by intros [?|?]].
    + intros h' id' Hr. destruct (decide (id' = id)) as [->|]; [by rewrite lookup_insert_eq|].
      rewrite lookup_insert_ne //. by eapply H4.
  - split; [done| |done]. intros tid slot id' o' _ _ Ho'. cbn. destruct (decide (id' = id)) as [->|].
    + rewrite Ho in Ho'. injection Ho' as <-. rewrite lookup_insert_eq. eexists. split; [done|]. cbn. auto.
    + rewrite lookup_insert_ne //. exists o'. split_and!; auto.
Qed.

Lemma remove_bos l s :
  base (set_bo_list l s) -> a_wedged (v_ane s) = false -> a_removed (v_ane s) = true ->
  let s' := fold_left (remove_bo shift) l s in
  base (set_bo_list [] s') /\ evolves None s s' /\ v_jobs s' = v_jobs s /\ a_wedged (v_ane s') = false.
Proof using Hshift Hlo Hhi IommuLaws0.
  revert s. induction l as [|id l IH]; intros s Hb Hw Hrm; cbn zeta; [by split_and!; try apply evolves_refl|].
  destruct (remove_bo_base id l s Hb Hw Hrm) as [Hb' He]. cbn [fold_left].
  assert (v_jobs (remove_bo shift s id) = v_jobs s /\ a_wedged (v_ane (remove_bo shift s id)) = false) as [Ej Ew].
  { unfold remove_bo. by destruct (v_objs s !! id). }
  destruct (IH (remove_bo shift s id) Hb' Ew) as (Hb2 & He2 & Ej2 & Ew2); [by apply (ev_removed _ _ _ He)|].
  split; [done|]. split; [by eapply evolves_trans|]. split; [congruence|done].
Qed.

Lemma remove_good s : good k N b s -> good k N b (ane_platform_remove shift s).
Proof using Hshift Hlo Hhi IommuLaws0 DrmMmLaws0.
  intros Hg. pose proof (proj1 Hg) as Hb. unfold ane_platform_remove. set (s1 := set_ane set_removed s).
  assert (base s1) as Hb1. { destruct Hb as [[] ? ? ?]. split; [by split|done|done|done]. }
  assert (evolves None s s1) as He1. { split; [done| |done]. intros tid slot id o _ _ Ho. exists o. split_and!; auto. }
  destruct (a_wedged (v_ane s1)) eqn:Hw; [by apply (good_evolves s)|].
  destruct (remove_bos (v_list s1) s1) as (Hb2 & He2 & Ej2 & Ew2); [by destruct Hb1; split|done|done|].
  set (s2 := set_bo_list [] (fold_left (remove_bo shift) (v_list s1) s1)) in *.
  assert (evolves None s s2) as He by (destruct (evolves_trans _ _ _ _ He1 He2); by split).
  apply (good_evolves s); [done| | |exact Ej2].
  2: { destruct He. by split. }
  change (a_wedged (v_ane s2) = false) in Ew2.
  destruct Hb2 as [[D1 D2 (F1 & F2 & F3 & F4) D4 Dx D5 [Dk DN]] H2 H3 H4].
  split; [|exact H2|exact H3|exact H4]. cbn. fold (v_ane s2).
  destruct (reclaim_all shift lo hi Hshift Hlo Hhi (a_preserved (v_ane s2)) (a_space (v_ane s2)) (obj_ranges (v_objs s2) ++ a_kept (v_ane s2))) as [Hs Ho]; [done| |].
  { rewrite -D2. solve_Permutation. }
  assert (a_dma (v_ane s2) = false) as Ed by (destruct (a_dma (v_ane s2)); [by destruct (F4 eq_refl); congruence|done]).
  split; unfold keeps; cbn; try done. split; [done|]. intros Hk. destruct (DN Hk) as [Hd _].
  split; [exact Hd|]. intros Hd'. change (a_dma (v_ane s2) = true) in Hd'. congruence.
Qed.

(** *** Every step *)

Lemma job_step_good tid env s :
  good k N b s -> (b = true \/ N = ∅ \/ (a_wedged (v_ane s) = false /\ N ⊆ sp_nodes (a_space (v_ane s)))) ->
  good k N b (job_step shift bd tid env s).
Proof using Hshift Hlo Hhi IommuLaws0 DrmMmLaws0.
  intros Hg Hst. pose proof (proj1 Hg) as Hb. unfold job_step. destruct (v_jobs s !! tid) as [j|] eqn:Hj; [|done].
  pose proof (proj2 Hg _ _ Hj) as Hok. destruct j as [file id|file h|file args bdx bar|args bar btsp|[|slot slots] ret].
  - by apply bo_init_locked_good.
  - destruct (put_good (re_kzalloc env) (HHandle file h) s Hb) as (Hb' & He & Ej).
    by apply (set_job_good None _ _ s); [..|left| |].
  - by apply submit_lookup_good.
  - by apply submit_run_good.
  - destruct Hg as [[H1 H2 H3 H4] Hjs]. split; [by split|]. intros tid' j'. cbn. intros [_ Hj']%lookup_delete_Some. by apply Hjs.
  - destruct (put_good (re_kzalloc env) (HJob tid slot) s Hb) as (Hb' & He & Ej).
    by apply (set_job_good (Some tid) _ _ s); [..|right| |].
Qed.

Lemma start_good tid pm f s :
  good k N b s -> (forall s', good k N b s' -> good k N b (f s')) -> good k N b (start bd tid pm f s).
Proof using Hshift Hlo Hhi IommuLaws0 DrmMmLaws0.
  intros Hg Hf. unfold start. destruct (v_jobs s !! tid); [done|]. destruct (pm_get_good pm s (proj1 Hg)) as [Hb Hs].
  destruct (pm_get bd pm s) as [[] s']; cbn [snd] in *; [apply Hf|]; by apply (same_good s).
Qed.

Lemma step_good e s :
  good k N b s -> (b = true \/ N = ∅ \/ (a_wedged (v_ane s) = false /\ N ⊆ sp_nodes (a_space (v_ane s)))) ->
  small e -> good k N b (drv_step shift bd e s).
Proof using Hshift Hlo Hhi IommuLaws0 DrmMmLaws0.
  intros Hg Hst Hsm. pose proof (proj1 Hg) as Hb.
  destruct e as [tid file pm pad size env|tid file pm pad h|tid file pm pad args|tid env|file h v|v kz|file h kz|pm|pm| |]; cbn [drv_step].
  - apply start_good; [done|]. intros s' Hg'. by apply (bo_init_good _ _ pm).
  - apply start_good; [done|]. intros s' Hg'. by apply bo_free_good.
  - apply start_good; [done|]. intros s' Hg'. unfold ane_submit. destruct (submit_valid pad args) eqn:Hv.
    + apply (set_job_good None _ _ s'); [done|apply Hg'|apply evolves_refl|by left|done|].
      split; [lia|]. split.
      * split; [done|]. split; [|lia]. intros i v Hi _. left. by apply lookup_replicate in Hi as [? _].
      * unfold submit_valid in Hv. apply negb_true_iff in Hv. rewrite !orb_false_iff in Hv. destruct Hv as [[[_ Hv] _] _].
        by apply Z.eqb_neq in Hv.
    + apply (set_job_good None _ _ s'); [done|apply Hg'|apply evolves_refl|by left|done|done].
  - by apply job_step_good.
  - destruct (bo_lookup file h s) as [id|] eqn:Hl; [|done]. apply (good_evolves s); [done| |apply take_ref_evolves|done].
    apply take_ref_base; [done|]. eapply ba_refs; [done|]. by apply ref_of_elem.
  - destruct (put_good kz (HVma v) s Hb) as (Hb' & He & Ej). by apply (good_evolves s).
  - destruct (put_good kz (HHandle file h) s Hb) as (Hb' & He & Ej). by apply (good_evolves s).
  - destruct (pm_get_good pm s Hb). by apply (same_good s).
  - unfold ane_drm_postclose. destruct (pm_get_good pm s Hb) as [Hb' Hs]. destruct (pm_get bd pm s) as [[] s']; cbn [snd] in *.
    + destruct (a_removed (v_ane s')); [by apply (same_good s)|]. destruct (recover_run s' Hb') as (Hb2 & Hs2 & _).
      apply (same_good s); [done|done|]. by eapply same_trans.
    + by apply (same_good s).
  - unfold pm_idle. destruct (_ && _); [|done]. destruct (suspend_run s Hb) as [Hb' Hs].
    destruct (run_tm ane_runtime_suspend s) as [[e|] s']; cbn [snd] in *; [by apply (same_good s)|].
    apply (same_good s); [done|by destruct Hb'; split|done].
  - by apply remove_good.
Qed.
End steps.
End driver.

(** ** Probe *)

Definition round_down (x y : Z) : Z := Z.ldiff x (y - 1).

(** The IOMMU domain of the device: page sizes, aperture. *)
Record domain_info := DomainInfo {
  di_pgsize_bitmap : Z; di_force_aperture : bool; di_start : Z; di_end : Z;
}.

(** The range of the allocator. *)
Definition ane_iommu_domain_init (shift : Z) (dom : option domain_info) : Z * Z + errno :=
  match dom with
  | None => inr EPROBE_DEFER
  | Some d =>
      let G := page_bytes shift in
      if (Z.land (di_pgsize_bitmap d) G =? 0) || negb (di_force_aperture d) then inr EINVAL
      else
        let min_iova := Z.max (di_start d) G in
        let limit := round_down (Z.min (di_end d) U32_MAX + 1) G in
        if min_iova >=? limit then inr EINVAL
        else
          let min_iova := round_up min_iova G in
          if min_iova >=? limit then inr EINVAL else inl (min_iova, limit)
  end.

Section probe.
Context `{Iommu} `{DrmMm} `{Engine} (shift : Z) (bd : board).

(** The one hole of an empty allocator is its whole range. *)
Definition ane_iommu_purge_stale (lo hi : Z) (x : ane) : ane :=
  set_space (Space _ (ane_iommu_clear_range shift lo hi (sp_dom (a_space x))).1 (sp_nodes (a_space x))) x.

(** The device after a probe on a domain that still has mappings [d]. *)
Definition probed (lo hi : Z) (d : domain) (e : eng) : m1drv :=
  let x := Ane _ (Space _ d ∅) [] false false false false false false None 0 [] false 0 in
  let s := Drv _ _ (Mach _ _ e [] x) false 0 ∅ [] ∅ [] in
  let '(_, s) := run_tm (ane_runtime_resume bd) s in
  set_on true (set_ane (ane_iommu_purge_stale lo hi) s).
End probe.

Lemma lor_ones_eq a n : 0 <= n -> Z.lor a (2 ^ n - 1) = a / 2 ^ n * 2 ^ n + (2 ^ n - 1).
Proof.
  intros Hn. assert (2 ^ n - 1 = Z.ones n) as E by (rewrite Z.ones_equiv; lia). rewrite E.
  transitivity (Z.ldiff a (Z.ones n) + Z.ones n).
  - assert (Z.land (Z.ldiff a (Z.ones n)) (Z.ones n) = 0) as Hz.
    { apply Z.bits_inj'. intros i Hi. rewrite Z.land_spec Z.ldiff_spec Z.bits_0. by destruct (Z.testbit a i), (Z.testbit (Z.ones n) i). }
    rewrite Z.add_nocarry_lxor // Z.lxor_lor //. apply Z.bits_inj'. intros i Hi. rewrite !Z.lor_spec Z.ldiff_spec.
    by destruct (Z.testbit a i), (Z.testbit (Z.ones n) i).
  - by rewrite Z.ldiff_ones_r // Z.shiftl_mul_pow2 // Z.shiftr_div_pow2.
Qed.

Lemma round_up_eq x n :
  0 <= n -> 1 <= x -> x + 2 ^ n < 2 ^ 64 -> round_up x (2 ^ n) = ((x - 1) / 2 ^ n + 1) * 2 ^ n.
Proof.
  intros Hn Hx Hb. assert (0 < 2 ^ n) as Hp by (by apply Z.pow_pos_nonneg). unfold round_up.
  rewrite (wrap_small 64 (x - 1)); [|lia]. rewrite lor_ones_eq //.
  pose proof (Z.div_mod (x - 1) (2 ^ n) ltac:(lia)). pose proof (Z.mod_pos_bound (x - 1) (2 ^ n) Hp).
  pose proof (Z.div_pos (x - 1) (2 ^ n) ltac:(lia) Hp). rewrite wrap_small; [lia|]. nia.
Qed.

(** The command buffer is longer than the task stream, so the weights behind
    it start inside it or at its end. *)
Lemma round_up_within x m n : 0 <= n -> 1 <= x < m -> m mod 2 ^ n = 0 -> m < 2 ^ 63 -> 2 ^ n < 2 ^ 63 ->
  x <= round_up x (2 ^ n) <= m.
Proof.
  intros Hn Hx Hm Hb Hn'. assert (0 < 2 ^ n) as Hp by (by apply Z.pow_pos_nonneg). rewrite round_up_eq; [|lia|lia|lia].
  pose proof (Z.div_mod (x - 1) (2 ^ n) ltac:(lia)). pose proof (Z.mod_pos_bound (x - 1) (2 ^ n) Hp).
  pose proof (Z.div_mod m (2 ^ n) ltac:(lia)). split; [lia|].
  assert ((x - 1) / 2 ^ n < m / 2 ^ n) by nia. nia.
Qed.

Lemma page_bytes_pow shift : 0 <= shift -> page_bytes shift = 2 ^ shift.
Proof. intros. unfold page_bytes. by rewrite Z.shiftl_1_l. Qed.

(** What the rest of the driver relies on. *)
Lemma domain_init_range shift dom lo hi :
  0 <= shift <= 32 -> ane_iommu_domain_init shift dom = inl (lo, hi) ->
  0 < lo /\ hi <= 2 ^ 32 /\ lo mod page_bytes shift = 0 /\ hi mod page_bytes shift = 0 /\ lo < hi.
Proof.
  intros Hs. unfold ane_iommu_domain_init. destruct dom as [d|]; [|done]. destruct (_ || _); [done|].
  pose proof (G_pos shift ltac:(lia)) as HG. rewrite page_bytes_pow in HG |- *; [|lia].
  set (m := Z.max (di_start d) (2 ^ shift)). set (l := round_down _ _).
  rewrite !Z.geb_leb. destruct (Z.leb_spec l m); [done|].
  assert (l <= 2 ^ 32 /\ l mod 2 ^ shift = 0) as [Hl Hlm].
  { subst l. unfold round_down. rewrite (_ : 2 ^ shift - 1 = Z.ones shift); [|rewrite Z.ones_equiv; lia].
    rewrite Z.ldiff_ones_r; [|lia]. rewrite Z.shiftl_mul_pow2; [|lia]. rewrite Z.shiftr_div_pow2; [|lia].
    split; [|apply Z_mod_mult]. assert (Z.min (di_end d) U32_MAX + 1 <= 2 ^ 32) as Hu by (unfold U32_MAX; lia).
    etransitivity; [|exact Hu]. rewrite Z.mul_comm. apply Z.mul_div_le. lia. }
  assert (1 <= m) by lia. rewrite round_up_eq; [|lia|lia|].
  2: { assert (2 ^ shift <= 2 ^ 32) by (apply Z.pow_le_mono_r; lia). lia. }
  destruct (Z.leb_spec l (((m - 1) / 2 ^ shift + 1) * 2 ^ shift)); [done|]. intros [= <- <-].
  pose proof (Z.div_pos (m - 1) (2 ^ shift) ltac:(lia) ltac:(lia)). split_and!; try done; [nia|apply Z_mod_mult].
Qed.

(** ** Theorems *)

(** Job [tid] holds object [o] through [slot], and [o] is mapped at [v]. *)
Definition mapped_at `{Iommu} `{Engine} (shift : Z) (s : m1drv) (tid slot : nat) (v : Z) (o : obj) : Prop :=
  exists id ps, (HJob tid slot, id) ∈ v_refs s /\ v_objs s !! id = Some o /\ o_mm o = Some v /\
    o_pages o = Some ps /\ o_size o = zlen ps * page_bytes shift /\
    forall i p, ps !! i = Some p ->
      iova_to_phys (sp_dom (a_space (v_ane s))) (v + Z.of_nat i * page_bytes shift) = Some p.

Section reach.
Context `{HI : Iommu} `{HM : DrmMm} `{HE : Engine} (shift lo hi : Z) `{!IommuLaws shift} `{!DrmMmLaws shift lo hi}.
Context (bd : board) (dom : option domain_info).
Context (Hshift : 4 <= shift <= 32) (Hdom : ane_iommu_domain_init shift dom = inl (lo, hi)).
Abbreviation G := (page_bytes shift).

Lemma range_facts : 0 <= shift <= 32 /\ 0 < lo /\ hi <= 2 ^ 32 /\ lo mod G = 0 /\ hi mod G = 0 /\ lo < hi.
Proof using Hshift Hdom. split; [lia|]. apply (domain_init_range shift dom); [lia|done]. Qed.

(** The invariant with other parameters. *)
Lemma good_keeps k N b k' N' b' (s : m1drv) :
  good shift lo hi k N b s -> keeps k' N' b' (v_ane s) -> good shift lo hi k' N' b' s.
Proof using. intros [[[] ? ? ?] Hj] Hk. split; [|done]. split; [by split|done|done|done]. Qed.

Lemma purged_space d :
  space_inv shift lo hi (Space HI (ane_iommu_clear_range shift lo hi d).1 ∅).
Proof using Hshift Hdom IommuLaws0.
  destruct range_facts as (Hs & Hlo & Hhi & Hlm & Hhm & Hlt). pose proof (G_pos shift ltac:(lia)) as HG.
  split; cbn; [done|done|]. intros j p Hj Hjm.
  pose proof (Z.div_mod lo G ltac:(lia)) as E1. pose proof (Z.div_mod hi G ltac:(lia)) as E2.
  pose proof (Z.div_mod j G ltac:(lia)) as E3. rewrite Hlm in E1. rewrite Hhm in E2. rewrite Hjm in E3.
  replace hi with (lo + (hi / G - lo / G) * G) by lia.
  rewrite (clear_range_view shift (proj1 Hs)); [|nia]. rewrite decide_True.
  - split; [done|]. by intros (? & ? & ? & ? & _).
  - exists (j / G - lo / G). split; [nia|lia].
Qed.

Lemma probed_good d e : good shift lo hi 0 ∅ false (probed shift bd lo hi d e).
Proof using Hshift Hdom IommuLaws0.
  unfold probed. set (x := Ane _ _ _ _ _ _ _ _ _ _ _ _ _ _). set (s0 := Drv _ _ _ _ _ _ _ _ _).
  destruct (run_tri req0 _ _ _ s0 (runtime_resume_spec bd req0 (fun y => exists v, y = set_fresh v x)
    ltac:(intros v y [w ->]; by exists v))) as (g & [_ [v Ev]] & Hsame); [split; [done|by exists None]|].
  specialize (Hsame ltac:(by rewrite Ev)). destruct (run_tm (ane_runtime_resume bd) s0) as [r s1]. cbn [snd] in *.
  destruct Hsame as (En & Eo & Er & Ej & El & Em). split.
  - split; cbn.
    + fold (v_ane s1). rewrite Eo Ev. cbn. split; cbn; try done. by apply purged_space.
    + rewrite Eo. done.
    + rewrite El Eo. split; [constructor|]. intros id. split; [by intros ?%elem_of_nil|]. by intros (? & ? & _).
    + rewrite Er. by intros h id ?%elem_of_nil.
  - intros tid j. cbn. by rewrite Ej.
Qed.

Lemma run_good k N b es s :
  good shift lo hi k N b s -> b = true \/ N = ∅ -> Forall (small shift) es -> good shift lo hi k N b (drv_run shift bd es s).
Proof using Hshift Hdom IommuLaws0 DrmMmLaws0.
  destruct range_facts as (Hs & Hlo & Hhi & _). intros Hg Hb Hsm. revert s Hg.
  induction Hsm as [|e es He _ IH]; intros s Hg; [done|]. cbn. apply IH. apply step_good; try done. tauto.
Qed.

Lemma reach_good d e es :
  Forall (small shift) es -> good shift lo hi 0 ∅ false (drv_run shift bd es (probed shift bd lo hi d e)).
Proof using Hshift Hdom IommuLaws0 DrmMmLaws0. intros Hsm. apply run_good; [apply probed_good|by right|done]. Qed.

(** C8. After any events in which every BO_INIT that gets its pages asks for
    less than 4 GiB ([small]), with jobs interleaved and every kernel
    allocation free to fail: the IOMMU maps exactly the pages of the live objects, of the
    ranges preserved under a wedge, and of those kept for good, each range at
    its own node; nothing is preserved unless the engine is wedged; no
    reference names a freed object; the module is pinned exactly while the
    engine is wedged. *)
Theorem m1_mappings_owned d e es :
  Forall (small shift) es ->
  let s := drv_run shift bd es (probed shift bd lo hi d e) in
  let owned := obj_ranges (v_objs s) ++ a_preserved (v_ane s) ++ a_kept (v_ane s) in
  (forall j p, lo <= j < hi -> j mod G = 0 ->
     iova_to_phys (sp_dom (a_space (v_ane s))) j = Some p <->
     exists a ps i, (a, ps) ∈ owned /\ ps !! i = Some p /\ j = a + Z.of_nat i * G) /\
  NoDup owned.*1 /\ (a_wedged (v_ane s) = false -> a_preserved (v_ane s) = []) /\
  (forall h id, (h, id) ∈ v_refs s -> is_Some (v_objs s !! id)) /\
  a_pins (v_ane s) = (if a_wedged (v_ane s) then 1 else 0).
Proof using Hshift Hdom IommuLaws0 DrmMmLaws0.
  intros Hsm. cbn zeta. destruct (reach_good d e es Hsm) as [[[H1 H2 _ H4 Hp _ _] _ _ H5] _].
  set (s := drv_run _ _ _ _) in *. split_and!; try done.
  - intros j p Hj Hm. rewrite (si_pte _ _ _ _ H1) //. split.
    + intros (a & nd & i & Ha & Hi & ->). exists a, (n_pages nd), i. rewrite H2 ranges_elem. split; [by exists nd|done].
    + intros (a & ps & i & Hin & Hi & ->). rewrite H2 ranges_elem in Hin. destruct Hin as (nd & Ha & <-). by exists a, nd, i.
  - rewrite H2. apply NoDup_fst_map_to_list.
Qed.

(** A submit that is about to take the lock, on a device that is not
    removed: every address of its request is the address of a buffer object
    whose reference the job holds and whose pages are mapped there; the command
    buffer is longer than the task stream and the bootstrap buffer holds a task
    descriptor; the weights start inside the command buffer or at its end. *)
Theorem m1_request_mapped d e es tid args bar btsp :
  Forall (small shift) es -> let s := drv_run shift bd es (probed shift bd lo hi d e) in
  v_jobs s !! tid = Some (JRun args bar btsp) -> a_removed (v_ane s) = false ->
  length bar = 32%nat /\ (exists o, mapped_at shift s tid 32 btsp o /\ a_td_size args <= o_size o) /\
  (forall i v, bar !! i = Some v -> v = 0 \/ i = KRN_BUF_BDX \/ exists o, mapped_at shift s tid i v o) /\
  exists v w o, bar !! CMD_BUF_BDX = Some v /\ bar !! KRN_BUF_BDX = Some w /\
    mapped_at shift s tid CMD_BUF_BDX v o /\ a_tsk_size args < o_size o /\
    (0 < a_tsk_size args -> v + a_tsk_size args <= w <= v + o_size o \/ w = 0 /\ v + o_size o = 2 ^ 32).
Proof using Hshift Hdom IommuLaws0 DrmMmLaws0.
  intros Hsm. destruct (reach_good d e es Hsm) as [Hb Hj]. set (s := drv_run _ _ _ _) in *. cbn zeta. intros Htid Hrm.
  destruct (Hj _ _ Htid) as ((Hlen & Hbar & Hcmd) & Hbt & Hk). destruct range_facts as (Hs & Hlo & Hhi & _).
  assert (forall slot v need, slot_held s tid slot v need -> exists o, mapped_at shift s tid slot v o /\ need <= o_size o /\ v + o_size o <= hi) as Hmap.
  { intros slot v need (id & o & Hr & Ho & Hp & Hn & [Hx|Hm]); [congruence|].
    destruct (obj_mapped shift lo hi 0 ∅ false s id o v Hb Ho Hm) as (ps & nd & E1 & _ & Ha & Enp & _ & L2 & _ & Esz & _).
    exists o. split; [|split; [done|lia]]. exists id, ps. split_and!; try done. intros i p Hi. subst ps.
    eapply (node_pte shift lo hi); [lia|exact (do_space _ _ _ _ _ _ _ _ _ (ba_dev _ _ _ _ _ _ _ Hb))|done|done]. }
  split; [done|]. split; [destruct (Hmap _ _ _ Hbt) as (o & ? & ? & _); by exists o|]. split.
  - intros i v Hi. destruct (decide (i = KRN_BUF_BDX)); [by right; left|].
    destruct (Hbar i v Hi) as [?|[_ Hsl]]; [done|by left|]. right; right. destruct (Hmap _ _ _ Hsl) as (o & ? & _). by exists o.
  - destruct Hcmd as (v & Hv & Hsl); [lia|]. destruct (Hmap _ _ _ Hsl) as (o & Hm & Hn & Hend).
    change (need_of args CMD_BUF_BDX) with (a_tsk_size args + 1) in Hn.
    exists v. eexists. exists o. split; [done|]. split; [exact Hk|]. split; [done|]. split; [lia|].
    intros Hpos. rewrite Hv. change (default 0 (Some v)) with v.
    destruct Hm as (id & ps & _ & Ho & Hmm & _ & Esz & _).
    destruct (obj_mapped shift lo hi 0 ∅ false s id o v Hb Ho Hmm) as (_ & _ & _ & _ & _ & _ & L1 & _).
    destruct (round_up_within (a_tsk_size args) (o_size o) 4) as [R1 R2]; [lia|lia| |lia|done|].
    { rewrite Esz page_bytes_pow; [|lia]. replace shift with ((shift - 4) + 4) by lia. rewrite Z.pow_add_r; [|lia|lia].
      rewrite Z.mul_assoc. apply Z_mod_mult. }
    change (2 ^ 4) with ANE_CMD_GRAN in R1, R2. set (ru := round_up _ _) in *.
    destruct (decide (v + ru < 2 ^ 32)) as [Hlt|Hge]; [left|].
    { rewrite wrap_small; lia. }
    right.
    assert (v + ru = 2 ^ 32) as -> by lia. split; [done|lia].
Qed.

(** C9. From a device that is not wedged, let event [e] end in a task that may
    still access memory. Whatever happens then (objects freed, files closed,
    ioctls, resets, suspends, removal), until a recovery has power-cycled the
    engine every page the device could reach before [e] is still mapped at the
    same address. *)
Theorem m1_failed_task_keeps_memory d en es e es' :
  Forall (small shift) (es ++ e :: es') ->
  let s := drv_run shift bd es (probed shift bd lo hi d en) in
  let s1 := drv_step shift bd e s in let s2 := drv_run shift bd es' s1 in
  a_wedged (v_ane s) = false -> a_dma (v_ane s1) = true -> a_gates (v_ane s2) = a_gates (v_ane s) ->
  forall j p, lo <= j < hi -> j mod G = 0 ->
    iova_to_phys (sp_dom (a_space (v_ane s))) j = Some p -> iova_to_phys (sp_dom (a_space (v_ane s2))) j = Some p.
Proof using Hshift Hdom IommuLaws0 DrmMmLaws0.
  intros [Hsm Hsm']%Forall_app. inversion Hsm' as [|? ? He Hes]; subst. cbn zeta. pose proof (reach_good d en es Hsm) as Hg.
  set (s := drv_run shift bd es _) in *. set (s1 := drv_step shift bd e s). set (s2 := drv_run shift bd es' s1).
  intros Hw Hd Hgates j p Hj Hm Hp. destruct range_facts as (Hs & Hlo & Hhi & _).
  set (N := sp_nodes (a_space (v_ane s))). set (k := a_gates (v_ane s)) in *.
  assert (good shift lo hi k N false s1) as Hg1.
  { apply step_good; try done; [|by right; right]. apply (good_keeps _ _ _ _ _ _ _ Hg). by split. }
  assert (k <= a_gates (v_ane s1) <= a_gates (v_ane s2))%nat as [G1 G2].
  { split; [apply (do_keeps _ _ _ _ _ _ _ _ _ (ba_dev _ _ _ _ _ _ _ (proj1 Hg1)))|].
    assert (good shift lo hi (a_gates (v_ane s1)) ∅ false s2) as Hg'.
    { apply run_good; [|by right|done]. apply (good_keeps _ _ _ _ _ _ _ Hg1). split; [done|]. intros _. split; [done|]. intros _. apply map_empty_subseteq. }
    apply (do_keeps _ _ _ _ _ _ _ _ _ (ba_dev _ _ _ _ _ _ _ (proj1 Hg'))). }
  assert (N ⊆ sp_nodes (a_space (v_ane s1))) as HN1.
  { destruct (do_keeps _ _ _ _ _ _ _ _ _ (ba_dev _ _ _ _ _ _ _ (proj1 Hg1))) as [_ HK]. apply HK; [lia|done]. }
  assert (good shift lo hi k N true s2) as Hg2.
  { apply run_good; [|by left|done]. apply (good_keeps _ _ _ _ _ _ _ Hg1). by split. }
  destruct (do_keeps _ _ _ _ _ _ _ _ _ (ba_dev _ _ _ _ _ _ _ (proj1 Hg2))) as [_ HK]. destruct (HK Hgates) as [Hd2 HN2].
  specialize (HN2 (Hd2 eq_refl)).
  apply (si_pte _ _ _ _ (do_space _ _ _ _ _ _ _ _ _ (ba_dev _ _ _ _ _ _ _ (proj1 Hg)))) in Hp as (a & nd & i & Ha & Hi & ->); [|done|done].
  eapply (node_pte shift lo hi); [lia|exact (do_space _ _ _ _ _ _ _ _ _ (ba_dev _ _ _ _ _ _ _ (proj1 Hg2)))| |done].
  by eapply lookup_weaken.
Qed.
End reach.

(** ** A run

    Two buffer objects in an address space of three pages, a task that never
    finishes on an engine that cannot be gated, then the file is closed. *)

Definition sample_dom : option domain_info := Some (DomainInfo 0x4000 true 0 0xffff).
Definition sample_env (h : Z) : run_env := RunEnv (MapEnv true true None) (inl h) (fun _ => (Some 0x900000, true)) true.
Definition sample_init (pa h : Z) : list m1_event :=
  [EvBoInit 1 7 true 0 0x4000 (InitEnv true None None (inl [pa])); EvJob 1 (sample_env h); EvJob 1 (sample_env 0);
   EvJob 1 (sample_env 0)].
Definition sample_args : drm_ane_submit := Submit 0x274 1 0x274 (1 :: replicate 31 0) 2.
Definition sample_before : list m1_event :=
  sample_init 0x100000 1 ++ sample_init 0x200000 2 ++ [EvSubmit 2 7 true 0 sample_args] ++
  replicate 33 (EvJob 2 (sample_env 0)).
Definition sample_after : list m1_event :=
  replicate 34 (EvJob 2 (sample_env 0)) ++ [EvCloseHandle 7 1 true; EvCloseHandle 7 2 true; EvPostclose true].

Abbreviation s_mm := (sample_mm 14 0x4000 0x10000).
Abbreviation s_eng0 := (sample_engine sample_request).

Abbreviation sample_start := (@probed (sample_iommu 14) s_eng0 14 sample_board 0x4000 0x10000 ∅ (SampleEng false false 1 true)).
Abbreviation sample_drive es s := (@drv_run (sample_iommu 14) s_mm s_eng0 14 sample_board es s).

(** The job, the flags and the ranges of a state. *)
Definition sample_view (s : @m1drv (sample_iommu 14) s_eng0) :
    option (bool * list Z) * (bool * bool * nat) * list (Z * list Z) * list (Z * list Z) :=
  (match v_jobs s !! 2%nat with
   | Some (JRun _ bar _) => Some (true, take 3 bar)
   | Some (JPut _ _) => Some (false, [])
   | _ => None
   end, (a_wedged (v_ane s), a_dma (v_ane s), a_gates (v_ane s)), obj_ranges (v_objs s), a_preserved (v_ane s)).

Lemma sample_view_before :
  sample_view (sample_drive sample_before sample_start) =
  (Some (true, [0x4000; 0x4280; 0]), (false, false, 0%nat), [(0x8000, [0x200000]); (0x4000, [0x100000])], []).
Proof. vm_compute. reflexivity. Qed.

Lemma sample_view_end :
  sample_view (sample_drive (sample_before ++ EvJob 2 (sample_env 0) :: sample_after) sample_start) =
  (None, (true, true, 0%nat), [], [(0x4000, [0x100000]); (0x8000, [0x200000])]).
Proof. vm_compute. reflexivity. Qed.

Lemma sample_small : Forall (small 14) (sample_before ++ EvJob 2 (sample_env 0) :: sample_after).
Proof.
  assert (forall pa h, Forall (small 14) (sample_init pa h)) as Hi.
  { intros pa h. apply Forall_cons. split; [|by repeat constructor]. intros ps [= <-]. by vm_compute. }
  rewrite Forall_app. split; [|repeat constructor]. unfold sample_before. rewrite !Forall_app. split; [apply Hi|].
  split; [apply Hi|]. split; [by repeat constructor|]. apply Forall_replicate. done.
Qed.

Lemma sample_small_before : Forall (small 14) sample_before.
Proof. pose proof sample_small as H. by apply Forall_app in H as [? _]. Qed.

Lemma sample_dom_init : ane_iommu_domain_init 14 sample_dom = inl (0x4000, 0x10000).
Proof. reflexivity. Qed.

Lemma sample_laws : @IommuLaws 14 (sample_iommu 14) /\ @DrmMmLaws 14 s_mm 0x4000 0x10000.
Proof. split; [by apply sample_iommu_laws|apply sample_mm_laws]. Qed.

Lemma sample_end_reads (s : @m1drv (sample_iommu 14) s_eng0) :
  sample_view s = (None, (true, true, 0%nat), [], [(0x4000, [0x100000]); (0x8000, [0x200000])]) ->
  let owned := obj_ranges (v_objs s) ++ a_preserved (v_ane s) ++ a_kept (v_ane s) in
  (forall j p, 0x4000 <= j < 0x10000 -> j mod page_bytes 14 = 0 ->
     iova_to_phys (sp_dom (a_space (v_ane s))) j = Some p <->
     exists a ps i, (a, ps) ∈ owned /\ ps !! i = Some p /\ j = a + Z.of_nat i * page_bytes 14) /\
  NoDup owned.*1 /\ (a_wedged (v_ane s) = false -> a_preserved (v_ane s) = []) /\
  (forall h id, (h, id) ∈ v_refs s -> is_Some (v_objs s !! id)) /\
  a_pins (v_ane s) = (if a_wedged (v_ane s) then 1 else 0) ->
  a_pins (v_ane s) = 1 /\ iova_to_phys (sp_dom (a_space (v_ane s))) 0x8000 = Some 0x200000.
Proof.
  intros Hv. unfold sample_view in Hv. injection Hv as _ Hw _ _ Ho Hp. cbn zeta. intros (H1 & _ & _ & _ & H2).
  split; [by rewrite H2 Hw|]. apply H1; [lia|done|]. exists 0x8000, [0x200000], 0%nat. rewrite Ho Hp. split; [|done].
  right. left.
Qed.

Lemma m1_mappings_owned_witness :
  a_pins (v_ane (sample_drive (sample_before ++ EvJob 2 (sample_env 0) :: sample_after) sample_start)) = 1 /\
  iova_to_phys (sp_dom (a_space (v_ane (sample_drive (sample_before ++ EvJob 2 (sample_env 0) :: sample_after) sample_start)))) 0x8000
  = Some 0x200000.
Proof.
  exact (sample_end_reads _ sample_view_end
    (@m1_mappings_owned (sample_iommu 14) s_mm s_eng0 14 0x4000 0x10000 (proj1 sample_laws) (proj2 sample_laws)
      sample_board sample_dom ltac:(lia) sample_dom_init ∅ (SampleEng false false 1 true) _ sample_small)).
Defined.

Lemma m1_request_mapped_witness :
  let s := sample_drive sample_before sample_start in
  exists btsp o, v_jobs s !! 2%nat = Some (JRun sample_args (0x4000 :: 0x4280 :: replicate 30 0) btsp) /\
    mapped_at 14 s 2 0 0x4000 o /\ 0x274 < o_size o.
Proof.
  cbn zeta.
  assert (exists btsp, v_jobs (sample_drive sample_before sample_start) !! 2%nat =
    Some (JRun sample_args (0x4000 :: 0x4280 :: replicate 30 0) btsp)) as [btsp Hj] by (eexists; vm_compute; reflexivity).
  assert (a_removed (v_ane (sample_drive sample_before sample_start)) = false) as Hr by (vm_compute; reflexivity).
  pose proof (@m1_request_mapped (sample_iommu 14) s_mm s_eng0 14 0x4000 0x10000 (proj1 sample_laws)
    (proj2 sample_laws) sample_board sample_dom ltac:(lia) sample_dom_init ∅ (SampleEng false false 1 true) _ 2%nat _ _ btsp
    sample_small_before Hj Hr) as (_ & _ & _ & v & w & o & Hv & _ & Hm & Hlt & _).
  injection Hv as <-. exists btsp, o. split; [exact Hj|]. split; [exact Hm|exact Hlt].
Defined.

Abbreviation sample_failed :=
  (@drv_step (sample_iommu 14) s_mm s_eng0 14 sample_board (EvJob 2 (sample_env 0)) (sample_drive sample_before sample_start)).

Lemma sample_idle : a_wedged (v_ane (sample_drive sample_before sample_start)) = false.
Proof. vm_compute. reflexivity. Qed.

Lemma sample_runs_on : a_dma (v_ane sample_failed) = true.
Proof. vm_compute. reflexivity. Qed.

Lemma sample_gates :
  a_gates (v_ane (sample_drive sample_after sample_failed)) = a_gates (v_ane (sample_drive sample_before sample_start)).
Proof. vm_compute. reflexivity. Qed.

Lemma sample_entry :
  iova_to_phys (sp_dom (a_space (v_ane (sample_drive sample_before sample_start)))) 0x4000 = Some 0x100000.
Proof. vm_compute. reflexivity. Qed.

Lemma m1_failed_task_keeps_memory_witness :
  iova_to_phys (sp_dom (a_space (v_ane (sample_drive sample_after sample_failed)))) 0x4000 = Some 0x100000.
Proof.
  exact (@m1_failed_task_keeps_memory (sample_iommu 14) s_mm s_eng0 14 0x4000 0x10000 (proj1 sample_laws)
    (proj2 sample_laws) sample_board sample_dom ltac:(lia) sample_dom_init ∅ (SampleEng false false 1 true)
    sample_before (EvJob 2 (sample_env 0)) sample_after sample_small
    sample_idle sample_runs_on sample_gates 0x4000 0x100000 ltac:(lia) eq_refl sample_entry).
Defined.
