(* ===== verification/Clocks.v ===== *)
(** * Clocks of the M1 driver

    [src/ane/src/ane_dvfs.c] with [ane_dvfs_req.h]: the clock level asked for
    at power-up and withdrawn before suspend. [src/ane/src/ane_boost.c]: the
    minimum frequency held on every CPU cluster while a submission runs.

    The clock code is a sequence of register accesses; a run is their list, and
    the machine is a parameter: any function from the accesses so far to the
    word read. The boost code runs under its mutex, so a call is one step; the
    delayed work is a timer and a running instance between other calls. *)

From Stdlib Require Import String.
From S2P Require Import Prelude.

#[local] Open Scope Z_scope.

Module Dvfs.

Definition PS_ANE_SYS_ID : Z := 10.
Definition PS_ANE_SYS : Z := Z.shiftl 1 PS_ANE_SYS_ID.

Definition ane_dvfs_req_may_up (req : Z) : bool := Z.land req PS_ANE_SYS =? 0.
Definition ane_dvfs_req_up (req : Z) : Z := Z.lor req PS_ANE_SYS.
Definition ane_dvfs_req_down (req : Z) : Z := Z.land req (Z.lxor U64_MAX PS_ANE_SYS).
Definition ane_dvfs_req_is_up (req : Z) : bool := negb (Z.land req PS_ANE_SYS =? 0).

Definition DVFS_CMD_BASE : Z := 0x80000000.
Definition PTD_REG_PMP_STATUS : Z := 0x001.
Definition PTD_REG_PS_REQ : Z := 0x0f8.
Definition PTD_REG_PS_ACK : Z := 0x100.
Definition PTD_REG_ANE_LEVEL : Z := 0x10c.
Definition PTD_PMP_RUNNING : Z := 0x1.
Definition ANE_DVFS_MAX_TIMEOUTS : Z := 3.
Definition PTD_LEVEL_WORD : Z := 0x2000000000000000.
Definition ANE_DVFS_LEVEL_MAX : Z := 5.

(** Accesses: the entities of the PTD window by register, the two words of the
    DVFS block, and calls of the report's locked update. *)
Inductive access :=
  | RdPtd (reg v : Z) | WrPtd (reg v : Z)
  | RdOn (v : Z) | WrOn (v : Z)
  | RdCmd (v : Z) | WrCmd (v : Z)
  | SetRequest (enable no_ack : bool) (ret : option errno)
  | Wait.

Class Pmgr := {
  pm_ptd : list access -> Z -> Z;
  pm_on : list access -> Z;
  pm_cmd : list access -> Z;
  pm_set_request : list access -> bool -> bool -> option errno;
  pm_polls : list access -> nat;
}.

Record ane_dvfs := AneDvfs {
  d_dvfs : bool;
  d_ptd : bool;
  d_active : bool;
  d_level : Z;
  d_ack_timeouts : Z;
  d_state : string;
  d_report_np : bool;
  d_set_request : bool;
}.

Definition set_state (st : string) (d : ane_dvfs) : ane_dvfs :=
  AneDvfs (d_dvfs d) (d_ptd d) (d_active d) (d_level d) (d_ack_timeouts d) st (d_report_np d) (d_set_request d).
Definition set_active (b : bool) (d : ane_dvfs) : ane_dvfs :=
  AneDvfs (d_dvfs d) (d_ptd d) b (d_level d) (d_ack_timeouts d) (d_state d) (d_report_np d) (d_set_request d).
Definition set_level (l : Z) (d : ane_dvfs) : ane_dvfs :=
  AneDvfs (d_dvfs d) (d_ptd d) (d_active d) l (d_ack_timeouts d) (d_state d) (d_report_np d) (d_set_request d).
Definition add_timeout (d : ane_dvfs) : ane_dvfs :=
  AneDvfs (d_dvfs d) (d_ptd d) (d_active d) (d_level d) (u32 (d_ack_timeouts d + 1)) (d_state d) (d_report_np d) (d_set_request d).

Section dvfs.
Context `{Pmgr}.
Implicit Types (h : list access) (d : ane_dvfs).

Definition ptd_read h (reg : Z) : list access * Z := let v := u64 (pm_ptd h reg) in (h ++ [RdPtd reg v], v).
Definition ptd_write h (reg val : Z) : list access := h ++ [WrPtd reg val].
Definition dvfs_step h : list access := h ++ [Wait].
Definition dvfs_cmd h (prev new : Z) : list access :=
  h ++ [WrCmd (Z.lor (Z.lor DVFS_CMD_BASE (u32 (Z.shiftl prev 4))) new)].

(** [read_poll_timeout] on the acknowledge; the word is read once more after
    the deadline. *)
Fixpoint ack_poll (enable : bool) (n : nat) h : list access * bool :=
  let '(h, ack) := ptd_read h PTD_REG_PS_ACK in
  if eqb (negb (Z.land ack PS_ANE_SYS =? 0)) enable then (h, true)
  else
    match n with
    | O => let '(h, ack) := ptd_read h PTD_REG_PS_ACK in (h, eqb (negb (Z.land ack PS_ANE_SYS =? 0)) enable)
    | S n' => ack_poll enable n' (h ++ [Wait])
    end.

Definition masked_request h (enable no_ack : bool) : list access * option errno :=
  let '(h, req) := ptd_read h PTD_REG_PS_REQ in
  let h := ptd_write h PTD_REG_PS_REQ (if enable then ane_dvfs_req_up req else ane_dvfs_req_down req) in
  if no_ack then (h, None)
  else let '(h, ok) := ack_poll enable (pm_polls h) h in (h, if ok : bool then None else Some ETIMEDOUT).

Definition ps_req_request d h (enable no_ack : bool) : list access * option errno :=
  if d_set_request d then
    let ret := pm_set_request h enable no_ack in
    let h := h ++ [SetRequest enable no_ack ret] in
    if bool_decide (ret = Some ENODEV) then masked_request h enable no_ack else (h, ret)
  else masked_request h enable no_ack.

Definition ane_dvfs_release d h (level_set psreq_set : bool) : list access :=
  let h := if level_set then
             let h := dvfs_step (dvfs_cmd h (d_level d) 0) in
             dvfs_step (ptd_write h PTD_REG_ANE_LEVEL PTD_LEVEL_WORD)
           else h in
  let h := if psreq_set then dvfs_step (ps_req_request d h false true).1 else h in
  let h := dvfs_step (dvfs_cmd h 0 0) in
  h ++ [WrOn 0].

Definition dvfs_level_state (level : Z) : string :=
  default EmptyString (["level-0"; "level-1"; "level-2"; "level-3"; "level-4"; "level-5"]%string !! Z.to_nat level).

(** From the first write on. *)
Definition dvfs_sequence d h (level : Z) : ane_dvfs * list access :=
  let h := dvfs_step (h ++ [WrOn 1]) in
  let h := dvfs_step (dvfs_cmd h 0 0) in
  let '(h, req) := ptd_read h PTD_REG_PS_REQ in
  if negb (ane_dvfs_req_may_up req) then (set_state "ps-req-changed" d, ane_dvfs_release d h false false)
  else
    match ps_req_request d h true false with
    | (h, Some _) => (set_state "ps-ack-timeout" (add_timeout d), ane_dvfs_release d h false true)
    | (h, None) =>
        let '(h, req) := ptd_read h PTD_REG_PS_REQ in
        if negb (ane_dvfs_req_is_up req) then (set_state "ps-req-readback-unexpected" d, ane_dvfs_release d h false true)
        else
          let h := dvfs_step (dvfs_cmd h 0 level) in
          let h := ptd_write h PTD_REG_ANE_LEVEL (Z.lor PTD_LEVEL_WORD level) in
          (set_state (dvfs_level_state level) (set_active true (set_level level d)), h ++ [RdCmd (u32 (pm_cmd h))])
    end.

(** [dvfs_level] is the module parameter. *)
Definition ane_dvfs_up (dvfs_level : Z) d h : ane_dvfs * list access :=
  let level := Z.min dvfs_level ANE_DVFS_LEVEL_MAX in
  if negb (d_dvfs d) || negb (d_ptd d) || d_active d then (d, h)
  else if level =? 0 then (set_state "level-0-by-parameter" d, h)
  else if d_ack_timeouts d >=? ANE_DVFS_MAX_TIMEOUTS then (set_state "disabled-after-ps-ack-timeouts" d, h)
  else
    let '(h, status) := ptd_read h PTD_REG_PMP_STATUS in
    if negb (Z.land status PTD_PMP_RUNNING =? PTD_PMP_RUNNING) then (set_state "pmp-not-running" d, h)
    else
      let on := u32 (pm_on h) in
      let h := h ++ [RdOn on] in
      if negb (on =? 0) then (set_state "dvfs-busy" d, h)
      else
        let '(h, req) := ptd_read h PTD_REG_PS_REQ in
        if negb (ane_dvfs_req_may_up req) then (set_state "ps-req-already-set" d, h)
        else
          let '(h, lvl) := ptd_read h PTD_REG_ANE_LEVEL in
          if negb (lvl =? 0) && ((lvl <? PTD_LEVEL_WORD) || (lvl >? Z.lor PTD_LEVEL_WORD 5)) then
            (set_state "level-word-unexpected" d, h)
          else dvfs_sequence d h level.

Definition ane_dvfs_down d h : ane_dvfs * list access :=
  if negb (d_active d) then (d, h)
  else
    let h := ane_dvfs_release d h true true in
    (set_state "level-0" (set_active false d), h).

(** What the kernel holds for the driver: mapped windows, the sysfs file, the
    symbol and the node. *)
Record held := Held { k_windows : Z; k_file : bool; k_symbol : bool; k_node : bool }.

Definition held0 : held := Held 0 false false false.

(** The device tree and the kernel at initialisation: whether each window is
    mapped, the error of the sysfs file, whether the symbol and the node are
    there. *)
Record init_env := InitEnv {
  n_dvfs : bool;
  n_ptd : bool;
  n_file : option errno;
  n_symbol : bool;
  n_report : bool;
}.

Definition b2z (b : bool) : Z := if b then 1 else 0.

Definition dvfs0 : ane_dvfs := AneDvfs false false false 0 0 EmptyString false false.

Definition ane_dvfs_init (e : init_env) : ane_dvfs * held * option errno :=
  let d := AneDvfs (n_dvfs e) (n_ptd e) false 0 0 "not-configured" false false in
  let k := Held (b2z (n_dvfs e) + b2z (n_ptd e)) false false false in
  if negb (n_dvfs e) || negb (n_ptd e) then
    (set_state "not-configured" dvfs0, Held (k_windows k - b2z (n_dvfs e) - b2z (n_ptd e)) false false false, None)
  else
    match n_file e with
    | Some err => (set_state "not-configured" dvfs0, Held (k_windows k - 2) false false false, Some err)
    | None =>
        let set := n_symbol e && n_report e in
        (AneDvfs true true false 0 0 "level-0" set set, Held (k_windows k) true set set, None)
    end.

Definition ane_dvfs_exit d (k : held) h : ane_dvfs * held * list access :=
  if negb (d_dvfs d) then (d, k, h)
  else
    let k := Held (k_windows k) false (k_symbol k) (k_node k) in
    let '(d, h) := ane_dvfs_down d h in
    let '(d, k) := if d_set_request d then
                     (AneDvfs (d_dvfs d) (d_ptd d) (d_active d) (d_level d) (d_ack_timeouts d) (d_state d) false false,
                      Held (k_windows k) (k_file k) false false)
                   else (d, k) in
    (AneDvfs false false (d_active d) (d_level d) (d_ack_timeouts d) (d_state d) (d_report_np d) (d_set_request d),
     Held (k_windows k - 2) (k_file k) (k_symbol k) (k_node k), h).
End dvfs.

(** ** The protocol *)

(** What the accesses ask of the hardware. *)
Inductive command := On (v : Z) | Cmd (v : Z) | Request (enable : bool) | Level (v : Z) | Stray (reg v : Z).

Definition command_of (a : access) : list command :=
  match a with
  | WrOn v => [On v]
  | WrCmd v => [Cmd v]
  | WrPtd reg v =>
      if reg =? PTD_REG_PS_REQ then [Request (Z.testbit v 10)] else if reg =? PTD_REG_ANE_LEVEL then [Level v] else [Stray reg v]
  | SetRequest enable _ ret => if bool_decide (ret = Some ENODEV) then [] else [Request enable]
  | RdPtd _ _ | RdOn _ | RdCmd _ | Wait => []
  end.

Definition commands (h : list access) : list command := flat_map command_of h.

(** The words in the order of the vendor's system. *)
Definition up_words (l : Z) : list command :=
  [On 1; Cmd 0x80000000; Request true; Cmd (0x80000000 + l); Level (0x2000000000000000 + l)].
Definition down_words (l : Z) : list command :=
  [Cmd (0x80000000 + 16 * l); Level 0x2000000000000000; Request false; Cmd 0x80000000; On 0].
Definition given_up (requested : bool) : list command :=
  [On 1; Cmd 0x80000000] ++ (if requested then [Request true; Request false] else []) ++ [Cmd 0x80000000; On 0].

(** Runs that end without a level, or at level [l]. *)
Inductive protocol : option Z -> list command -> Prop :=
  | p_start : protocol None []
  | p_up w l : protocol None w -> 1 <= l <= 5 -> protocol (Some l) (w ++ up_words l)
  | p_down w l : protocol (Some l) w -> protocol None (w ++ down_words l)
  | p_given_up w b : protocol None w -> protocol None (w ++ given_up b).

(** A request written by the driver itself changes bit 10 of the word just
    read and nothing else; the block is switched on right behind reads that
    find the PMP running, the block off, no request and a known level word. *)
Inductive careful : list access -> Prop :=
  | c_start : careful []
  | c_other h a :
      careful h -> a <> WrOn 1 -> (forall v, a <> WrPtd PTD_REG_PS_REQ v) -> careful (h ++ [a])
  | c_request h r v :
      careful h -> (forall i, i <> 10 -> Z.testbit v i = Z.testbit r i) ->
      careful (h ++ [RdPtd PTD_REG_PS_REQ r; WrPtd PTD_REG_PS_REQ v])
  | c_on h s q l :
      careful h -> Z.testbit s 0 = true -> Z.testbit q 10 = false -> l = 0 \/ 0x2000000000000000 <= l <= 0x2000000000000005 ->
      careful (h ++ [RdPtd PTD_REG_PMP_STATUS s; RdOn 0; RdPtd PTD_REG_PS_REQ q; RdPtd PTD_REG_ANE_LEVEL l; WrOn 1]).

Lemma commands_app h h' : commands (h ++ h') = (commands h ++ commands h')%list.
Proof. apply flat_map_app. Qed.

(** Reads and delays. *)
Definition passive (a : access) : bool := match a with RdPtd _ _ | RdOn _ | RdCmd _ | Wait => true | _ => false end.

Lemma passive_commands l : Forall (fun a => passive a = true) l -> commands l = [].
Proof. induction 1 as [|a l Ha _ IH]; [done|]. unfold commands in *. cbn [flat_map]. rewrite IH app_nil_r. by destruct a. Qed.

Lemma passive_careful h l : careful h -> Forall (fun a => passive a = true) l -> careful (h ++ l).
Proof.
  intros Hh Hl. revert h Hh. induction Hl as [|a l Ha _ IH]; intros h Hh; [by rewrite app_nil_r|].
  rewrite (app_assoc h [a] l). apply IH. apply c_other; [done|intros E; by rewrite E in Ha|intros v E; by rewrite E in Ha].
Qed.

(** A step that issues [w] and stays careful. *)
Definition issues (w : list command) (h h' : list access) : Prop :=
  commands h' = (commands h ++ w)%list /\ (careful h -> careful h').

Lemma issues_nil h : issues [] h h.
Proof. split; [by rewrite app_nil_r|done]. Qed.

Lemma issues_trans w1 w2 h1 h2 h3 : issues w1 h1 h2 -> issues w2 h2 h3 -> issues (w1 ++ w2) h1 h3.
Proof. intros [E1 H1] [E2 H2]. split; [by rewrite E2 E1 app_assoc|auto]. Qed.

Lemma issues_passive h l : Forall (fun a => passive a = true) l -> issues [] h (h ++ l).
Proof. intros Hl. split; [by rewrite commands_app (passive_commands l Hl)|]. intros Hh. by apply passive_careful. Qed.

Lemma issues_one h a : a <> WrOn 1 -> (forall v, a <> WrPtd PTD_REG_PS_REQ v) -> issues (command_of a) h (h ++ [a]).
Proof.
  intros H1 H2. split; [rewrite commands_app; f_equal; apply app_nil_r|]. intros Hh. by apply c_other.
Qed.

(** *** The request word *)

Lemma sys_bit r : negb (Z.land r PS_ANE_SYS =? 0) = Z.testbit r 10.
Proof.
  change PS_ANE_SYS with (Z.shiftl (2 ^ 1 - 1) 10). rewrite land_field; [|done..]. rewrite Z.testbit_odd Z.shiftr_div_pow2; [|done].
  change (2 ^ 1) with 2. rewrite Zmod_odd. by destruct (Z.odd _).
Qed.

Lemma req_bits (enable : bool) r i :
  in_range 64 r -> Z.testbit (if enable then ane_dvfs_req_up r else ane_dvfs_req_down r) i = if decide (i = 10) then enable else Z.testbit r i.
Proof.
  intros Hr. destruct (Z.lt_ge_cases i 0) as [Hneg|Hi].
  { rewrite !Z.testbit_neg_r; [|done..]. by rewrite decide_False; [|lia]. }
  destruct enable; unfold ane_dvfs_req_up, ane_dvfs_req_down; change PS_ANE_SYS with (2 ^ 10).
  - rewrite Z.lor_spec Z.pow2_bits_eqb; [|done]. destruct (decide (i = 10)) as [->|Hne]; [apply orb_true_r|].
    rewrite (proj2 (Z.eqb_neq 10 i)); [apply orb_false_r|lia].
  - rewrite Z.land_spec Z.lxor_spec Z.pow2_bits_eqb; [|done]. change U64_MAX with (Z.ones 64).
    rewrite Z.testbit_ones_nonneg; [|done..]. destruct (decide (i = 10)) as [->|Hne]; [apply andb_false_r|].
    rewrite (proj2 (Z.eqb_neq 10 i)); [|lia]. rewrite xorb_false_r. destruct (Z.ltb_spec i 64); [apply andb_true_r|].
    by rewrite (in_range_testbit 64 r i).
Qed.

Section calls.
Context `{Pmgr}.

Lemma ack_poll_passive enable n h : exists l, (ack_poll enable n h).1 = (h ++ l)%list /\ Forall (fun a => passive a = true) l.
Proof.
  revert h. induction n as [|n IH]; intros h; cbn [ack_poll]; unfold ptd_read; destruct (eqb _ _); cbn [fst].
  - exists [RdPtd PTD_REG_PS_ACK (u64 (pm_ptd h PTD_REG_PS_ACK))]. by repeat constructor.
  - eexists. rewrite -app_assoc. split; [done|]. by repeat constructor.
  - exists [RdPtd PTD_REG_PS_ACK (u64 (pm_ptd h PTD_REG_PS_ACK))]. by repeat constructor.
  - destruct (IH ((h ++ [RdPtd PTD_REG_PS_ACK (u64 (pm_ptd h PTD_REG_PS_ACK))]) ++ [Wait])%list) as (l & -> & Hl).
    eexists. rewrite -!app_assoc. split; [done|]. by repeat constructor.
Qed.

Lemma masked_request_issues h enable no_ack : issues [Request enable] h (masked_request h enable no_ack).1.
Proof.
  unfold masked_request, ptd_read, ptd_write. set (r := u64 (pm_ptd h PTD_REG_PS_REQ)).
  assert (in_range 64 r) as Hr by (apply Z.mod_pos_bound; done).
  rewrite -app_assoc. cbn [app]. set (h1 := (h ++ _)%list).
  assert (issues [Request enable] h h1) as H1.
  { subst h1. split.
    - rewrite commands_app. f_equal. transitivity [Request (Z.testbit (if enable then ane_dvfs_req_up r else ane_dvfs_req_down r) 10)];
        [done|]. by rewrite req_bits.
    - intros Hh. apply c_request; [done|]. intros i Hi. rewrite req_bits; [|done]. by rewrite decide_False. }
  destruct no_ack; [done|]. destruct (ack_poll_passive enable (pm_polls h1) h1) as (l & E & Hl).
  destruct (ack_poll enable (pm_polls h1) h1) as [h2 ok]. cbn [fst] in *. subst h2.
  rewrite -(app_nil_r [Request enable]). eapply issues_trans; [exact H1|]. by apply issues_passive.
Qed.

Lemma request_issues d h enable no_ack : issues [Request enable] h (ps_req_request d h enable no_ack).1.
Proof.
  unfold ps_req_request. destruct (d_set_request d); [|apply masked_request_issues].
  set (ret := pm_set_request h enable no_ack).
  assert (issues (command_of (SetRequest enable no_ack ret)) h (h ++ [SetRequest enable no_ack ret])) as H1 by (by apply issues_one).
  cbn [command_of] in H1. destruct (bool_decide (ret = Some ENODEV)); [|done].
  rewrite -(app_nil_l [Request enable]). eapply issues_trans; [exact H1|]. apply masked_request_issues.
Qed.

Lemma issues_step w h h' : issues w h h' -> issues w h (dvfs_step h').
Proof. intros Hi. rewrite -(app_nil_r w). eapply issues_trans; [exact Hi|]. apply issues_passive. by repeat constructor. Qed.

Lemma issues_read w h h' reg : issues w h h' -> issues w h (ptd_read h' reg).1.
Proof. intros Hi. rewrite -(app_nil_r w). eapply issues_trans; [exact Hi|]. apply issues_passive. by repeat constructor. Qed.

Lemma cmd_word prev new : 0 <= prev <= 5 -> 0 <= new <= 5 ->
  Z.lor (Z.lor DVFS_CMD_BASE (u32 (Z.shiftl prev 4))) new = 0x80000000 + 16 * prev + new.
Proof.
  intros Hp Hn. assert (Forall (fun p => Forall (fun n => Z.lor (Z.lor DVFS_CMD_BASE (u32 (Z.shiftl p 4))) n = 0x80000000 + 16 * p + n)
    (seqZ 0 6)) (seqZ 0 6)) as Hall by vm_decide.
  rewrite Forall_forall in Hall. specialize (Hall prev ltac:(apply elem_of_seqZ; lia)). rewrite Forall_forall in Hall.
  apply Hall, elem_of_seqZ. lia.
Qed.

Lemma issues_cmd w h h' prev new :
  0 <= prev <= 5 -> 0 <= new <= 5 -> issues w h h' -> issues (w ++ [Cmd (0x80000000 + 16 * prev + new)]) h (dvfs_cmd h' prev new).
Proof. intros Hp Hn Hi. eapply issues_trans; [exact Hi|]. unfold dvfs_cmd. rewrite cmd_word; [|done..]. by apply issues_one. Qed.

Lemma issues_level w h h' v : issues w h h' -> issues (w ++ [Level v]) h (ptd_write h' PTD_REG_ANE_LEVEL v).
Proof. intros Hi. eapply issues_trans; [exact Hi|]. by apply (issues_one _ (WrPtd PTD_REG_ANE_LEVEL v)). Qed.

Lemma issues_request w h h' d enable no_ack : issues w h h' -> issues (w ++ [Request enable]) h (ps_req_request d h' enable no_ack).1.
Proof. intros Hi. eapply issues_trans; [exact Hi|]. apply request_issues. Qed.

Lemma issues_off w h h' : issues w h h' -> issues (w ++ [On 0]) h (h' ++ [WrOn 0]).
Proof. intros Hi. eapply issues_trans; [exact Hi|]. by apply (issues_one _ (WrOn 0)). Qed.

(** The withdrawal, from any point. *)
Lemma release_issues w d h h' (level_set psreq_set : bool) :
  0 <= d_level d <= 5 -> issues w h h' ->
  issues (w ++ (if level_set then [Cmd (0x80000000 + 16 * d_level d); Level 0x2000000000000000] else []) ++
          (if psreq_set then [Request false] else []) ++ [Cmd 0x80000000; On 0]) h (ane_dvfs_release d h' level_set psreq_set).
Proof.
  intros Hl Hi. unfold ane_dvfs_release.
  assert (forall w h', issues w h h' -> issues (w ++ [Cmd 0x80000000; On 0]) h ((dvfs_step (dvfs_cmd h' 0 0)) ++ [WrOn 0])%list) as Hend.
  { intros w1 h1 H1. apply (issues_cmd _ _ _ 0 0) in H1; [|lia..]. apply issues_step, issues_off in H1. by rewrite -app_assoc in H1. }
  assert (forall w h', issues w h h' ->
    issues (w ++ (if psreq_set then [Request false] else []) ++ [Cmd 0x80000000; On 0]) h
      (dvfs_step (dvfs_cmd (if psreq_set then dvfs_step (ps_req_request d h' false true).1 else h') 0 0) ++ [WrOn 0])%list) as Hreq.
  { intros w1 h1 H1. rewrite app_assoc. apply Hend. destruct psreq_set; [|by rewrite app_nil_r]. by apply issues_step, issues_request. }
  rewrite app_assoc. apply Hreq. destruct level_set; [|by rewrite app_nil_r].
  apply (issues_cmd _ _ _ (d_level d) 0) in Hi; [|lia..]. apply issues_step, (issues_level _ _ _ PTD_LEVEL_WORD), issues_step in Hi.
  rewrite -app_assoc in Hi. by rewrite Z.add_0_r in Hi.
Qed.

(** The state beside the log. *)
Definition mode (d : ane_dvfs) : option Z := if d_active d then Some (d_level d) else None.

Definition dvfs_inv (d : ane_dvfs) (k : held) (h : list access) : Prop :=
  protocol (mode d) (commands h) /\ careful h /\ 0 <= d_level d <= 5 /\ 0 <= d_ack_timeouts d <= 3 /\
  d_ptd d = d_dvfs d /\ d_report_np d = d_set_request d /\
  if d_dvfs d then k = Held 2 true (d_set_request d) (d_set_request d) else k = held0 /\ d_active d = false /\ d_set_request d = false.

(** What a call leaves alone. *)
Definition same_setup (d d' : ane_dvfs) : Prop :=
  d_dvfs d' = d_dvfs d /\ d_ptd d' = d_ptd d /\ d_set_request d' = d_set_request d /\ d_report_np d' = d_report_np d.

(** The sequence behind the guard: it reaches the level or gives up. *)
Lemma sequence_spec w d h0 h level d' h' :
  1 <= level <= 5 -> 0 <= d_level d <= 5 -> d_active d = false -> 0 <= d_ack_timeouts d < 3 ->
  issues w h0 (h ++ [WrOn 1]) -> dvfs_sequence d h level = (d', h') ->
  same_setup d d' /\ 0 <= d_level d' <= 5 /\ 0 <= d_ack_timeouts d' <= 3 /\
  (mode d' = Some level /\ issues (w ++ drop 1 (up_words level)) h0 h' \/
   exists b, mode d' = None /\ issues (w ++ drop 1 (given_up b)) h0 h').
Proof.
  intros Hl Hd Ha Ht Hi. unfold dvfs_sequence. cbv zeta.
  apply issues_step in Hi. apply (issues_cmd _ _ _ 0 0) in Hi; [|lia..]. apply issues_step in Hi.
  set (h1 := dvfs_step (dvfs_cmd _ 0 0)) in *. apply (issues_read _ _ _ PTD_REG_PS_REQ) in Hi.
  destruct (ptd_read h1 PTD_REG_PS_REQ) as [h2 req]. cbn [fst] in Hi. destruct (negb _).
  { intros [= <- <-]. split; [done|]. split; [done|]. split; [cbn; lia|]. right. exists false. unfold mode. cbn [d_active set_state]. rewrite Ha.
    split; [done|]. apply (release_issues _ d _ _ false false Hd) in Hi. by rewrite -app_assoc in Hi. }
  apply (issues_request _ _ _ d true false) in Hi. destruct (ps_req_request d h2 true false) as [h3 [err|]]; cbn [fst] in Hi.
  { intros [= <- <-]. split; [done|]. split; [done|]. cbn [d_ack_timeouts set_state add_timeout].
    rewrite (wrap_small 32); [|lia]. split; [lia|]. right. exists true. unfold mode. cbn [d_active set_state add_timeout]. rewrite Ha.
    split; [done|]. apply (release_issues _ d _ _ false true Hd) in Hi. by rewrite -!app_assoc in Hi. }
  apply (issues_read _ _ _ PTD_REG_PS_REQ) in Hi. destruct (ptd_read h3 PTD_REG_PS_REQ) as [h4 req']. cbn [fst] in Hi. destruct (negb _).
  { intros [= <- <-]. split; [done|]. split; [done|]. split; [cbn; lia|]. right. exists true. unfold mode. cbn [d_active set_state]. rewrite Ha.
    split; [done|]. apply (release_issues _ d _ _ false true Hd) in Hi. by rewrite -!app_assoc in Hi. }
  intros [= <- <-]. split; [done|]. split; [cbn; lia|]. split; [cbn; lia|]. left. split; [done|].
  apply (issues_cmd _ _ _ 0 level) in Hi; [|lia..]. apply issues_step, (issues_level _ _ _ (Z.lor PTD_LEVEL_WORD level)) in Hi.
  assert (Z.lor PTD_LEVEL_WORD level = 0x2000000000000000 + level) as E.
  { rewrite Z.lor_comm. change PTD_LEVEL_WORD with (Z.shiftl 0x20000000 32). rewrite lor_shiftl_add; lia. }
  rewrite E in Hi |- *. rewrite -!app_assoc in Hi. 
  rewrite -(app_nil_r (w ++ _)%list). eapply issues_trans; [exact Hi|]. apply issues_passive. by repeat constructor.
Qed.

Lemma guarded_on h s q l :
  Z.testbit s 0 = true -> Z.testbit q 10 = false -> l = 0 \/ 0x2000000000000000 <= l <= 0x2000000000000005 ->
  issues [On 1] h ((((h ++ [RdPtd PTD_REG_PMP_STATUS s]) ++ [RdOn 0]) ++ [RdPtd PTD_REG_PS_REQ q]) ++ [RdPtd PTD_REG_ANE_LEVEL l] ++ [WrOn 1]).
Proof.
  intros Hs Hq Hl. rewrite -!app_assoc. cbn [app]. split; [by rewrite commands_app|]. intros Hh. by apply c_on.
Qed.

Lemma inv_idle d d' k h h' :
  dvfs_inv d k h -> same_setup d d' -> mode d' = mode d -> d_level d' = d_level d -> d_active d' = d_active d ->
  d_ack_timeouts d' = d_ack_timeouts d -> issues [] h h' -> dvfs_inv d' k h'.
Proof.
  intros (I1 & I2 & I3 & I4 & I5 & I6 & I7) (S1 & S2 & S3 & S4) Em El Ea Et [Ec Hc]. unfold dvfs_inv.
  rewrite Em El Et S1 S2 S3 S4 Ea Ec app_nil_r. split_and!; try done; try apply I3; try apply I4. by apply Hc.
Qed.

Lemma up_inv level d k h d' h' :
  0 <= level -> dvfs_inv d k h -> ane_dvfs_up level d h = (d', h') -> dvfs_inv d' k h'.
Proof.
  intros Hlv Hinv. unfold ane_dvfs_up. cbv zeta.
  assert (forall st l, Forall (fun a => passive a = true) l -> dvfs_inv (set_state st d) k (h ++ l)) as Hquiet.
  { intros st l Hl. eapply inv_idle; [exact Hinv|done..|]. by apply issues_passive. }
  destruct (d_dvfs d) eqn:E1; cbn [negb orb]; [|by intros [= <- <-]].
  destruct (d_ptd d) eqn:E2; cbn [negb orb]; [|by intros [= <- <-]].
  destruct (d_active d) eqn:E3; [by intros [= <- <-]|].
  destruct (Z.eqb_spec (Z.min level ANE_DVFS_LEVEL_MAX) 0) as [E4|E4].
  { intros [= <- <-]. rewrite -(app_nil_r h). by apply Hquiet. }
  destruct (Z.geb_spec (d_ack_timeouts d) ANE_DVFS_MAX_TIMEOUTS) as [E5|E5].
  { intros [= <- <-]. rewrite -(app_nil_r h). by apply Hquiet. }
  unfold ptd_read. set (s := u64 _). destruct (Z.eqb_spec (Z.land s PTD_PMP_RUNNING) PTD_PMP_RUNNING) as [E6|E6]; cbn [negb].
  2: { intros [= <- <-]. apply Hquiet. by repeat constructor. }
  set (on := u32 _). destruct (Z.eqb_spec on 0) as [E7|E7]; cbn [negb].
  2: { intros [= <- <-]. rewrite -!app_assoc. apply Hquiet. by repeat constructor. }
  set (q := u64 _). destruct (ane_dvfs_req_may_up q) eqn:E8; cbn [negb].
  2: { intros [= <- <-]. rewrite -!app_assoc. apply Hquiet. by repeat constructor. }
  set (l := u64 _). destruct (negb (l =? 0) && _) eqn:E9.
  { intros [= <- <-]. rewrite -!app_assoc. apply Hquiet. by repeat constructor. }
  intros Hseq. destruct Hinv as (I1 & I2 & I3 & I4 & I5 & I6 & I7). rewrite E7 in Hseq.
  assert (Z.testbit s 0 = true) as Hs by (rewrite Z.bit0_odd -Z.bit0_odd; change PTD_PMP_RUNNING with (2 ^ 1 - 1) in E6; rewrite land_mask_mod in E6;
    [|done]; change (2 ^ 1) with 2 in E6; rewrite Zmod_odd in E6; rewrite Z.bit0_odd; by destruct (Z.odd s)).
  assert (Z.testbit q 10 = false) as Hq by (rewrite -sys_bit; unfold ane_dvfs_req_may_up in E8; by rewrite E8).
  assert (l = 0 \/ 0x2000000000000000 <= l <= 0x2000000000000005) as Hl.
  { change (Z.lor PTD_LEVEL_WORD 5) with 0x2000000000000005 in E9. change PTD_LEVEL_WORD with 0x2000000000000000 in E9. lia. }
  pose proof (guarded_on h s q l Hs Hq Hl) as Hon. rewrite app_assoc in Hon.
  change ANE_DVFS_LEVEL_MAX with 5 in *. change ANE_DVFS_MAX_TIMEOUTS with 3 in *.
  destruct (sequence_spec _ d h _ (Z.min level 5) d' h' ltac:(lia) I3 E3 ltac:(lia) Hon Hseq) as ((S1 & S2 & S3 & S4) & D1 & D2 & Hcase).
  assert (mode d = None) as Em by (unfold mode; by rewrite E3). rewrite Em in I1. rewrite E1 in I7.
  assert (protocol (mode d') (commands h') /\ careful h') as [J1 J2].
  { destruct Hcase as [(-> & Ec & Hc)|(b & -> & Ec & Hc)]; rewrite Ec; (split; [|by apply Hc]); [apply p_up; [done|lia]|by apply (p_given_up _ b)]. }
  unfold dvfs_inv. rewrite S1 S2 S3 S4 E1. by split_and!; try apply D1; try apply D2.
Qed.

Lemma down_inv d k h d' h' :
  dvfs_inv d k h -> ane_dvfs_down d h = (d', h') -> dvfs_inv d' k h' /\ d_active d' = false /\ same_setup d d'.
Proof.
  intros Hinv. unfold ane_dvfs_down. destruct (d_active d) eqn:Ea; cbn [negb]; [|by intros [= <- <-]].
  intros [= <- <-]. split; [|done]. destruct Hinv as (I1 & I2 & I3 & I4 & I5 & I6 & I7).
  unfold mode in I1. rewrite Ea in I1.
  destruct (release_issues [] d h h true true I3 (issues_nil h)) as [Ec Hc]. cbn [app] in Ec.
  unfold dvfs_inv, mode. cbn [d_active d_level d_ack_timeouts d_dvfs d_ptd d_set_request d_report_np set_state set_active].
  rewrite Ec. split; [apply (p_down _ (d_level d) I1)|]. split; [by apply Hc|]. split; [done|]. split; [done|]. split; [done|]. split; [done|].
  destruct (d_dvfs d); [done|]. by destruct I7 as (? & ? & ?).
Qed.

Lemma dvfs_init_inv e d k r : ane_dvfs_init e = (d, k, r) -> dvfs_inv d k [] /\ (r <> None -> k = held0).
Proof.
  unfold ane_dvfs_init. assert (protocol None [] /\ careful []) as [P C] by (split; constructor).
  destruct (n_dvfs e) eqn:E1, (n_ptd e) eqn:E2; cbn [negb orb]; cbv zeta; try (intros [= <- <- <-]; by split_and!).
  destruct (n_file e) as [err|]; intros [= <- <- <-]; [by split_and!|]. split; [|done]. unfold dvfs_inv. cbn. by split_and!.
Qed.

(** *** Sequences of calls *)

Inductive call := Up (level : Z) | Down | Exit.

Definition run_call (c : call) (x : ane_dvfs * held * list access) : ane_dvfs * held * list access :=
  let '(d, k, h) := x in
  match c with
  | Up level => let '(d, h) := ane_dvfs_up level d h in (d, k, h)
  | Down => let '(d, h) := ane_dvfs_down d h in (d, k, h)
  | Exit => ane_dvfs_exit d k h
  end.

Definition call_ok (c : call) : Prop := match c with Up level => in_range 32 level | _ => True end.

Lemma exit_inv d k h d' k' h' :
  dvfs_inv d k h -> ane_dvfs_exit d k h = (d', k', h') -> dvfs_inv d' k' h' /\ d_active d' = false /\ k' = held0.
Proof.
  intros Hinv. unfold ane_dvfs_exit. destruct (d_dvfs d) eqn:E1; cbn [negb].
  2: { intros [= <- <- <-]. split; [done|]. destruct Hinv as (I1 & I2 & I3 & I4 & I5 & I6 & I7). rewrite E1 in I7.
    by destruct I7 as (J1 & J2 & J3). }
  destruct (ane_dvfs_down d h) as [d1 h1] eqn:Ed. destruct (down_inv _ _ _ _ _ Hinv Ed) as (Hinv1 & Ea & (S1 & S2 & S3 & S4)).
  destruct Hinv1 as (I1 & I2 & I3 & I4 & I5 & I6 & I7). rewrite S1 E1 in I7. subst k. unfold mode in I1. rewrite Ea in I1.
  cbn [k_windows k_symbol k_node k_file]. destruct (d_set_request d1) eqn:Es; intros [= <- <- <-]; cbn [k_windows k_symbol k_node k_file d_active];
    (split; [|by split]); unfold dvfs_inv, mode; cbn [d_active d_level d_ack_timeouts d_dvfs d_ptd d_set_request d_report_np];
    rewrite Ea ?Es; by split_and!; try apply I3; try apply I4.
Qed.

Lemma call_inv c x : call_ok c -> dvfs_inv x.1.1 x.1.2 x.2 -> dvfs_inv (run_call c x).1.1 (run_call c x).1.2 (run_call c x).2.
Proof.
  destruct x as [[d k] h]. cbn [fst snd]. intros Hc Hinv. destruct c as [level| |]; cbn [run_call].
  - destruct (ane_dvfs_up level d h) as [d' h'] eqn:E. cbn [fst snd]. eapply up_inv; [apply Hc|exact Hinv|exact E].
  - destruct (ane_dvfs_down d h) as [d' h'] eqn:E. cbn [fst snd]. eapply down_inv; [exact Hinv|exact E].
  - destruct (ane_dvfs_exit d k h) as [[d' k'] h'] eqn:E. cbn [fst snd]. eapply exit_inv; [exact Hinv|exact E].
Qed.

Definition run_calls (cs : list call) (x : ane_dvfs * held * list access) : ane_dvfs * held * list access := foldl (fun x c => run_call c x) x cs.

Lemma calls_inv cs x :
  Forall call_ok cs -> dvfs_inv x.1.1 x.1.2 x.2 -> dvfs_inv (run_calls cs x).1.1 (run_calls cs x).1.2 (run_calls cs x).2.
Proof. intros Hc. revert x. induction Hc as [|c cs Hok _ IH]; intros x Hx; [done|]. apply IH. by apply call_inv. Qed.

(** C30. Whatever the hardware answers and whatever calls are made after
    initialisation, the words written are whole up and down sequences in the
    order of the vendor's system, or up sequences given up and unwound, for
    the levels up to 5 that the code allows (the notes above the code name
    the words of level 1 only); a level is in force exactly while the driver says
    so; the block is switched on only behind the guard; and a request word
    written here is the word read just before it with this client's bit set or
    cleared. That read and write are two accesses without a lock, so a change
    another client makes in between is lost, as the notes say. After removal
    no level is in force and nothing is held. *)
Theorem dvfs_protocol e d k r cs :
  ane_dvfs_init e = (d, k, r) -> Forall call_ok cs ->
  let '(d', k', h') := run_calls cs (d, k, []) in
  protocol (mode d') (commands h') /\ careful h' /\ 0 <= d_ack_timeouts d' <= 3 /\ (r <> None -> k = held0) /\
  let '(d2, k2, h2) := run_call Exit (d', k', h') in
  protocol None (commands h2) /\ careful h2 /\ k2 = held0.
Proof.
  intros Hi Hc. destruct (dvfs_init_inv e d k r Hi) as [Hinv Hr]. pose proof (calls_inv cs (d, k, []) Hc Hinv) as Hx.
  destruct (run_calls cs (d, k, [])) as [[d' k'] h']. cbn [fst snd] in Hx. pose proof Hx as (I1 & I2 & _ & I4 & _).
  split; [done|]. split; [done|]. split; [done|]. split; [done|]. cbn [run_call].
  destruct (ane_dvfs_exit d' k' h') as [[d2 k2] h2] eqn:E. destruct (exit_inv _ _ _ _ _ _ Hx E) as ((J1 & J2 & _) & Ja & ->).
  unfold mode in J1. by rewrite Ja in J1.
Qed.
End calls.

(** A machine that acknowledges the request it was last sent. *)
#[local] Instance sample_pmgr : Pmgr := {
  pm_ptd := fun h reg =>
    if reg =? PTD_REG_PMP_STATUS then 1
    else if (reg =? PTD_REG_PS_REQ) || (reg =? PTD_REG_PS_ACK) then
      default 0x60003000 (last (omap (fun a => match a with WrPtd 0xf8 v => Some v | _ => None end) h))
    else 0;
  pm_on := fun _ => 0;
  pm_cmd := fun _ => 0;
  pm_set_request := fun _ _ _ => Some ENODEV;
  pm_polls := fun _ => 2%nat;
}.

Definition sample_start : ane_dvfs * held * option errno := ane_dvfs_init (InitEnv true true None true true).

Lemma dvfs_protocol_witness :
  let '(d, k, h) := run_calls [Up 9; Down; Up 2] (sample_start.1.1, sample_start.1.2, []) in
  protocol (mode d) (commands h) /\ mode d = Some 2 /\ commands h = (up_words 5 ++ down_words 5 ++ up_words 2)%list.
Proof.
  pose proof (dvfs_protocol (InitEnv true true None true true) sample_start.1.1 sample_start.1.2 None [Up 9; Down; Up 2] eq_refl
    ltac:(repeat constructor; vm_compute; congruence)) as Hw.
  destruct (run_calls [Up 9; Down; Up 2] (sample_start.1.1, sample_start.1.2, [])) as [[d k] h] eqn:E. vm_compute in E. injection E as <- <- <-.
  split; [exact (proj1 Hw)|]. split; vm_compute; reflexivity.
Defined.
End Dvfs.

Module Boost.

(** A CPU's frequency policy: the first CPU of its cluster, and the top
    frequency; and what a request on it returns. *)
Record policy := Policy { first_cpu : Z; max_freq : Z; add_ret : Z }.

(** The request objects are the legs; [q_active] lists the ones that are
    registered, with the frequency they hold and for which cluster. *)
Record request := Req { leg : Z; cluster : Z; freq : Z }.

Record ane_boost := AneBoost {
  b_legs : bool;                 (* allocated *)
  b_nlegs : Z;
  b_held : Z;
  b_last_end : Z;
  b_busy : bool;
  b_on : bool;
  q_active : list request;
  w_pending : option Z;          (* when the delayed work expires *)
  w_running : bool;              (* an instance waits for the mutex *)
}.

Section boost.
(** [for_each_possible_cpu] and the kernel's clock arithmetic. *)
Context (cpus : list Z) (msecs_to_jiffies : Z -> Z).
Implicit Types b : ane_boost.

Definition time_after_eq (x y : Z) : bool := 0 <=? wrap 64 (x - y + 2 ^ 63) - 2 ^ 63.

Definition set_requests (held : Z) (on : bool) (q : list request) b : ane_boost :=
  AneBoost (b_legs b) (b_nlegs b) held (b_last_end b) (b_busy b) on q (w_pending b) (w_running b).

(** Registering a leg that is registered already, or is not there, is a
    fault; so is removing one that is not registered. *)
Definition freq_qos_add_request (nlegs n : Z) (p : policy) (q : list request) : res (list request * Z) :=
  if negb ((0 <=? n) && (n <? nlegs)) || existsb (fun r => leg r =? n) q then Fault OutOfBounds
  else if 0 <=? add_ret p then Ret ((q ++ [Req n (first_cpu p) (max_freq p)])%list, add_ret p) else Ret (q, add_ret p).

Definition freq_qos_remove_request (n : Z) (q : list request) : res (list request) :=
  if existsb (fun r => leg r =? n) q then Ret (List.filter (fun r => negb (leg r =? n)) q) else Fault OutOfBounds.

(** One CPU: the policy it has, if any. *)
Definition boost_cpu (nlegs : Z) (policies : Z -> option policy) (x : Z * list request) (cpu : Z) : res (Z * list request) :=
  let '(n, q) := x in
  match policies cpu with
  | None => Ret (n, q)
  | Some p =>
      if negb (cpu =? first_cpu p) || (n >=? nlegs) then Ret (n, q)
      else
        '(q, err) ← freq_qos_add_request nlegs n p q;
        Ret (if err >=? 0 then n + 1 else n, q)
  end.

Definition ane_boost_set (policies : Z -> option policy) (on : bool) b : res ane_boost :=
  if on then
    '(n, q) ← foldM (boost_cpu (b_nlegs b) policies) (0, q_active b) cpus;
    Ret (set_requests n true q b)
  else
    q ← foldM (fun q n => freq_qos_remove_request n q) (q_active b) (seqZ 0 (b_held b));
    Ret (set_requests 0 false q b).

Definition set_busy (busy : bool) b : ane_boost :=
  AneBoost (b_legs b) (b_nlegs b) (b_held b) (b_last_end b) busy (b_on b) (q_active b) (w_pending b) (w_running b).
Definition set_work (pending : option Z) (running : bool) b : ane_boost :=
  AneBoost (b_legs b) (b_nlegs b) (b_held b) (b_last_end b) (b_busy b) (b_on b) (q_active b) pending running.

Definition no_policy : Z -> option policy := fun _ => None.

(** The parameter [boost_idle_ms] and the clock are read at each call. *)
Definition ane_boost_off_work (boost_idle_ms jiffies : Z) b : res ane_boost :=
  let b := set_work (w_pending b) false b in
  if b_on b && negb (b_busy b) && time_after_eq jiffies (b_last_end b + msecs_to_jiffies boost_idle_ms) then
    ane_boost_set no_policy false b
  else Ret b.

Definition ane_boost_begin (boost_idle_ms : Z) (policies : Z -> option policy) b : res ane_boost :=
  if negb (b_legs b) || (boost_idle_ms =? 0) then Ret b
  else
    let b := set_busy true b in
    if negb (b_on b) then ane_boost_set policies true b else Ret b.

Definition ane_boost_end (boost_idle_ms jiffies : Z) b : ane_boost :=
  if negb (b_legs b) then b
  else
    let b := AneBoost (b_legs b) (b_nlegs b) (b_held b) jiffies false (b_on b) (q_active b) (w_pending b) (w_running b) in
    if b_on b then set_work (Some (jiffies + msecs_to_jiffies boost_idle_ms)) (w_running b) b else b.

(** [legs]: whether the allocation succeeds. *)
Definition ane_boost_init (legs : bool) : ane_boost * option errno :=
  (AneBoost legs (zlen cpus) 0 0 false false [] None false, if legs then None else Some ENOMEM).

(** [cancel_delayed_work_sync] has let a running instance finish. *)
Definition ane_boost_exit b : res ane_boost :=
  if negb (b_legs b) then Ret b
  else
    let b := set_work None (w_running b) b in
    b ← (if b_on b then ane_boost_set no_policy false b else Ret b);
    Ret (AneBoost false (b_nlegs b) (b_held b) (b_last_end b) (b_busy b) (b_on b) (q_active b) (w_pending b) (w_running b)).

(** ** The system *)

Inductive event :=
  | Begin (idle : Z) (policies : Z -> option policy)
  | End (idle : Z)
  | Fire                          (* the timer expires and an instance starts *)
  | Work (idle : Z)               (* it gets the mutex *)
  | Exit.

(** One event at time [now]; submissions do not overlap ([sub] is one under
    way), and removal waits for them and for a running instance. *)
Inductive step (now : Z) : bool * ane_boost -> event -> bool * ane_boost -> Prop :=
  | s_begin b idle ps b' : ane_boost_begin idle ps b = Ret b' -> step now (false, b) (Begin idle ps) (true, b')
  | s_end b idle : step now (true, b) (End idle) (false, ane_boost_end idle now b)
  | s_fire sub b t : w_pending b = Some t -> t <= now -> w_running b = false -> step now (sub, b) Fire (sub, set_work None true b)
  | s_work sub b idle b' : w_running b = true -> ane_boost_off_work idle now b = Ret b' -> step now (sub, b) (Work idle) (sub, b')
  | s_exit b b' : w_running b = false -> ane_boost_exit b = Ret b' -> step now (false, b) Exit (false, b').

(** Runs, with the time of the last event. *)
Inductive runs (ok : event -> Prop) : Z -> bool * ane_boost -> Prop :=
  | r_init legs : runs ok 0 (false, (ane_boost_init legs).1)
  | r_step t now x e y : runs ok t x -> t <= now < 2 ^ 62 -> ok e -> step now x e y -> runs ok now y.

(** ** Requests *)

(** The clusters a start holds, with their top frequency. *)
Definition boost_of (policies : Z -> option policy) (cpu : Z) : option (Z * Z) :=
  match policies cpu with
  | Some p => if (cpu =? first_cpu p) && (0 <=? add_ret p) then Some (first_cpu p, max_freq p) else None
  | None => None
  end.

Definition boosted (policies : Z -> option policy) (l : list Z) : list (Z * Z) := omap (boost_of policies) l.

Lemma leg_lookup (q : list request) n m : map leg q = seqZ 0 n -> existsb (fun r => leg r =? m) q = bool_decide (0 <= m < n).
Proof using Type.
  intros Hq. apply eq_bool_prop_intro. rewrite !Is_true_true bool_decide_eq_true existsb_exists. split.
  - intros (r & Hr & E). apply Z.eqb_eq in E. apply (in_map leg) in Hr. rewrite Hq E in Hr. apply list_elem_of_In, elem_of_seqZ in Hr. lia.
  - intros Hm. assert (In m (map leg q)) as Hin by (rewrite Hq; apply list_elem_of_In, elem_of_seqZ; lia).
    apply in_map_iff in Hin as (r & E & Hr). exists r. by rewrite E Z.eqb_refl.
Qed.

Lemma boost_cpu_eq nlegs ps n q cpu :
  0 <= n < nlegs -> map leg q = seqZ 0 n ->
  boost_cpu nlegs ps (n, q) cpu =
    Ret match boost_of ps cpu with Some (c, f) => (n + 1, (q ++ [Req n c f])%list) | None => (n, q) end.
Proof using Type.
  intros Hn Hq. unfold boost_cpu, boost_of. destruct (ps cpu) as [p|]; [|done].
  rewrite Z.geb_leb (proj2 (Z.leb_gt nlegs n)); [|lia]. rewrite orb_false_r. destruct (cpu =? first_cpu p); cbn [negb andb]; [|done].
  unfold freq_qos_add_request. rewrite (leg_lookup q n n Hq) bool_decide_eq_false_2; [|lia].
  rewrite (proj2 (Z.leb_le 0 n)) ?(proj2 (Z.ltb_lt n nlegs)); [|lia..]. cbn [andb negb orb].
  destruct (0 <=? add_ret p) eqn:Ha; cbn [mbind res_bind]; by rewrite Z.geb_leb Ha.
Qed.

Lemma add_legs_spec nlegs ps l n q :
  0 <= n -> n + zlen l <= nlegs -> map leg q = seqZ 0 n ->
  exists n' q', foldM (boost_cpu nlegs ps) (n, q) l = Ret (n', (q ++ q')%list) /\ n <= n' <= nlegs /\
    map leg (q ++ q') = seqZ 0 n' /\ map (fun r => (cluster r, freq r)) q' = boosted ps l.
Proof using Type.
  revert n q. induction l as [|cpu l IH]; intros n q Hn Hl Hq; cbn [foldM].
  { exists n, []. rewrite app_nil_r. unfold zlen in Hl. cbn in Hl. split_and!; (done || lia). }
  unfold zlen in *. cbn [length] in Hl. rewrite boost_cpu_eq; [|lia|done]. cbn [mbind res_bind boosted omap list_omap].
  destruct (boost_of ps cpu) as [[c f]|]; [|apply IH; [done|lia|done]].
  destruct (IH (n + 1) (q ++ [Req n c f])%list) as (n' & q' & E & Hb & Hq' & Hc); [lia|lia| |].
  { rewrite map_app Hq. cbn [map leg]. by rewrite (seqZ_app 0 n 1); [|lia..]. }
  exists n', (Req n c f :: q'). rewrite -app_assoc in E, Hq'. cbn [app] in E, Hq'.
  split; [exact E|]. split; [lia|]. split; [done|]. cbn [map cluster freq]. by rewrite Hc.
Qed.

Lemma remove_spec i m q : map leg q = seqZ i m -> foldM (fun q n => freq_qos_remove_request n q) q (seqZ i m) = Ret [].
Proof using Type.
  intros Hq. destruct (Z.le_gt_cases m 0) as [Hm|Hm].
  { rewrite seqZ_nil in Hq |- *; [|done..]. by destruct q. }
  remember (Z.to_nat m) as k eqn:Hk. assert (m = Z.of_nat k) as -> by lia. clear Hk Hm. revert i q Hq.
  induction k as [|k IH]; intros i q Hq; [by destruct q|].
  rewrite seqZ_cons in Hq |- *; [|lia..]. replace (Z.pred (Z.of_nat (S k))) with (Z.of_nat k) in * by lia.
  destruct q as [|r q]; [done|]. cbn [map] in Hq. injection Hq as Hr Hq. cbn [foldM].
  assert (freq_qos_remove_request i (r :: q) = Ret q) as ->; [|cbn [mbind res_bind]; by apply IH].
  unfold freq_qos_remove_request. cbn [existsb List.filter]. rewrite Hr Z.eqb_refl. cbn [orb negb]. f_equal.
  apply forallb_filter_id, forallb_forall. intros x Hx. apply (in_map leg) in Hx. rewrite Hq in Hx.
  apply list_elem_of_In, elem_of_seqZ in Hx. lia.
Qed.

(** ** The invariant *)

Definition boost_inv (x : bool * ane_boost) : Prop :=
  let '(sub, b) := x in
  b_nlegs b = zlen cpus /\ map leg (q_active b) = seqZ 0 (b_held b) /\ 0 <= b_held b <= zlen cpus /\
  (b_on b = false -> b_held b = 0) /\ (b_busy b = true -> sub = true /\ b_on b = true) /\
  (b_legs b = false -> b_on b = false /\ w_pending b = None /\ w_running b = false).

Lemma turn_off ps b : map leg (q_active b) = seqZ 0 (b_held b) -> ane_boost_set ps false b = Ret (set_requests 0 false [] b).
Proof. intros Hq. unfold ane_boost_set. by rewrite remove_spec. Qed.

Lemma turn_on ps b :
  b_nlegs b = zlen cpus -> map leg (q_active b) = seqZ 0 (b_held b) -> b_held b = 0 ->
  exists n q, ane_boost_set ps true b = Ret (set_requests n true q b) /\ 0 <= n <= zlen cpus /\ map leg q = seqZ 0 n /\
    map (fun r => (cluster r, freq r)) q = boosted ps cpus.
Proof.
  intros Hn Hq Hh. rewrite Hh in Hq. destruct (q_active b) as [|r q] eqn:Eq; [|done].
  destruct (add_legs_spec (zlen cpus) ps cpus 0 [] ltac:(lia) ltac:(lia) eq_refl) as (n' & q' & E & Hb & Hq' & Hc).
  exists n', q'. unfold ane_boost_set. rewrite Hn Eq E. cbn [mbind res_bind app]. by split_and!; try apply Hb.
Qed.

(** The cases of the invariant. *)
Ltac cases := cbn in *; split_and!; intros; intuition (try congruence; try lia).

Lemma begin_spec idle ps b :
  boost_inv (false, b) ->
  exists b', ane_boost_begin idle ps b = Ret b' /\ boost_inv (true, b') /\ b_last_end b' = b_last_end b /\
    w_pending b' = w_pending b /\ w_running b' = w_running b /\
    (b_legs b = true -> idle <> 0 -> b_busy b' = true /\ b_on b' = true /\
       (b_on b = false -> map (fun r => (cluster r, freq r)) (q_active b') = boosted ps cpus)) /\
    (b_legs b = false \/ idle = 0 -> b' = b).
Proof.
  intros (I1 & I2 & I3 & I4 & I5 & I6). unfold ane_boost_begin.
  assert (b_busy b = false) as Hnb by (destruct (b_busy b); [by destruct I5|done]).
  assert (boost_inv (true, b)) as Hsame by (unfold boost_inv; cases).
  destruct (b_legs b) eqn:El; cbn [negb orb]; [|exists b; split; [done|]; split; [exact Hsame|]; cases].
  destruct (Z.eqb_spec idle 0) as [->|Hi]; [exists b; split; [done|]; split; [exact Hsame|]; cases|].
  cbv zeta. cbn [b_on set_busy]. destruct (b_on b) eqn:Eo; cbn [negb].
  { eexists. split; [done|]. split; [unfold boost_inv; cases|]. cases. }
  destruct (turn_on ps (set_busy true b) I1 I2 (I4 eq_refl)) as (n & q & -> & Hn & Hq & Hc). eexists. split; [done|].
  split; [unfold boost_inv; cases|]. cases.
Qed.

Lemma work_spec idle now sub b :
  boost_inv (sub, b) ->
  exists b', ane_boost_off_work idle now b = Ret b' /\ boost_inv (sub, b') /\ b_busy b' = b_busy b /\
    b_last_end b' = b_last_end b /\ w_pending b' = w_pending b /\ w_running b' = false /\ b_legs b' = b_legs b /\
    b_on b' = b_on b && negb (negb (b_busy b) && time_after_eq now (b_last_end b + msecs_to_jiffies idle)).
Proof.
  intros (I1 & I2 & I3 & I4 & I5 & I6). unfold ane_boost_off_work. cbv zeta. cbn [b_on b_busy b_last_end set_work].
  destruct (b_on b) eqn:Eo, (b_busy b) eqn:Eb, (time_after_eq now _) eqn:Et; cbn [negb andb];
    try (eexists; split; [done|]; split; [unfold boost_inv; cases|]; cases).
  rewrite turn_off; [|done]. eexists. split; [done|]. pose proof (zlen_nonneg cpus). split; [unfold boost_inv; cases|]; cases.
Qed.

Lemma exit_spec b :
  boost_inv (false, b) -> w_running b = false ->
  exists b', ane_boost_exit b = Ret b' /\ boost_inv (false, b') /\ b_legs b' = false /\ q_active b' = [] /\ b_on b' = false /\
    w_pending b' = None /\ w_running b' = false /\ b_last_end b' = b_last_end b.
Proof.
  intros (I1 & I2 & I3 & I4 & I5 & I6) Hr. unfold ane_boost_exit. pose proof (zlen_nonneg cpus).
  assert (b_busy b = false) as Hnb by (destruct (b_busy b); [by destruct I5|done]).
  assert (b_on b = false -> q_active b = []) as Hq0 by (intros Ho; rewrite (I4 Ho) in I2; by destruct (q_active b)).
  destruct (b_legs b) eqn:El; cbn [negb].
  2: { destruct (I6 eq_refl) as (J1 & J2 & J3). exists b. split; [done|]. split; [unfold boost_inv; cases|]. cases. }
  cbv zeta. cbn [b_on set_work]. destruct (b_on b) eqn:Eo.
  - rewrite turn_off; [|done]. cbn [mbind res_bind]. eexists. split; [done|]. split; [unfold boost_inv; cases|]. cases.
  - cbn [mbind res_bind]. eexists. split; [done|]. split; [unfold boost_inv; cases|]. cases.
Qed.

Lemma step_inv now x e y : boost_inv x -> step now x e y -> boost_inv y.
Proof.
  intros Hx Hs. destruct Hs as [b idle ps b' E|b idle|sub b t Ht Hle Hr|sub b idle b' Hr E|b b' Hr E].
  - destruct (begin_spec idle ps b Hx) as (b1 & E1 & H1 & _). rewrite E in E1. by injection E1 as <-.
  - destruct Hx as (I1 & I2 & I3 & I4 & I5 & I6). unfold ane_boost_end. destruct (b_legs b) eqn:El; cbn [negb].
    + cbv zeta. cbn [b_on]. destruct (b_on b) eqn:Eo; unfold boost_inv; cases.
    + unfold boost_inv; cases.
  - destruct Hx as (I1 & I2 & I3 & I4 & I5 & I6). unfold boost_inv; cases.
  - destruct (work_spec idle now sub b Hx) as (b1 & E1 & H1 & _). rewrite E in E1. by injection E1 as <-.
  - destruct (exit_spec b Hx Hr) as (b1 & E1 & H1 & _). rewrite E in E1. by injection E1 as <-.
Qed.

Lemma runs_inv ok t x : runs ok t x -> boost_inv x.
Proof.
  induction 1 as [legs|t now x e y _ IH _ _ Hs]; [|by eapply step_inv]. cbn. pose proof (zlen_nonneg cpus). by split_and!; try lia.
Qed.

(** ** With an idle time that does not change *)

Definition idle_is (idle : Z) (e : event) : Prop :=
  match e with Begin i _ | End i | Work i => i = idle | Fire | Exit => True end.

Section timed.
Context (idle : Z) (Hj : 0 <= msecs_to_jiffies idle <= 2 ^ 61).

Abbreviation J := (msecs_to_jiffies idle).

(** A boost that is on without a submission has its drop ahead: armed, or
    running and due. *)
Definition timed (now : Z) (x : bool * ane_boost) : Prop :=
  let b := x.2 in
  0 <= b_last_end b <= now /\ (forall t, w_pending b = Some t -> t <= now + J) /\
  (b_on b = true -> b_busy b = false ->
     (exists t, w_pending b = Some t /\ b_last_end b + J <= t) \/ (w_running b = true /\ b_last_end b + J <= now)).

Lemma time_after_eq_le x y : 0 <= x < 2 ^ 62 -> 0 <= y < 2 ^ 63 -> time_after_eq x y = (y <=? x).
Proof.
  intros Hx Hy. unfold time_after_eq, wrap. rewrite Z.mod_small; [|lia]. destruct (Z.leb_spec y x); [apply Z.leb_le|apply Z.leb_gt]; lia.
Qed.

Lemma step_timed t now x e y :
  boost_inv x -> timed t x -> 0 <= t <= now -> now < 2 ^ 62 -> idle_is idle e -> step now x e y -> timed now y.
Proof.
  intros Hinv (T1 & T2 & T3) Ht Hnow He Hs. destruct Hs as [b i ps b' E|b i|sub b t' Ht' Hle Hr|sub b i b' Hr E|b b' Hr E]; cbn [fst snd] in *.
  - destruct (begin_spec i ps b Hinv) as (b1 & E1 & _ & L1 & L2 & L3 & L4 & L5). rewrite E in E1. injection E1 as <-.
    unfold timed. cbn [snd]. rewrite L1 L2 L3. split; [lia|]. split; [intros s Hs; specialize (T2 s Hs); lia|]. intros Ho Hb.
    assert (b_legs b = false \/ i = 0) as Hn.
    { destruct (b_legs b); [|by left]. right. destruct (Z.eq_dec i 0); [done|]. destruct (L4 eq_refl n) as (J1 & _). congruence. }
    rewrite (L5 Hn) in Ho, Hb. destruct (T3 Ho Hb) as [T|[T T']]; [by left|right; split; [done|lia]].
  - cbn in He. subst i. unfold ane_boost_end. destruct (b_legs b) eqn:El; cbn [negb].
    + cbv zeta. cbn [b_on]. destruct (b_on b) eqn:Eo; unfold timed; cbn.
      * split; [lia|]. split; [intros s [= <-]; lia|]. intros _ _. left. eexists. split; [done|lia].
      * split; [lia|]. split; [intros s Hs; specialize (T2 s Hs); lia|congruence].
    + unfold timed. cbn [snd]. destruct Hinv as (_ & _ & _ & _ & _ & I6). destruct (I6 El) as (J1 & J2 & J3).
      rewrite J1 J2. split; [lia|]. by split.
  - unfold timed. cbn. split; [lia|]. split; [done|]. intros Ho Hb. right. split; [done|].
    destruct (T3 Ho Hb) as [(s & Es & Hs)|[Hc _]]; [|congruence]. rewrite Ht' in Es. injection Es as <-. lia.
  - cbn in He. subst i. destruct (work_spec idle now sub b Hinv) as (b1 & E1 & _ & L1 & L2 & L3 & L4 & _ & L5). rewrite E in E1. injection E1 as <-.
    unfold timed. cbn [snd]. rewrite L1 L2 L3. split; [lia|]. split; [intros s Hs; specialize (T2 s Hs); lia|]. intros Ho Hb.
    rewrite Ho Hb time_after_eq_le in L5; [|lia..]. destruct (b_on b) eqn:Eo; [|done]. cbn [negb andb] in L5.
    destruct (Z.leb_spec (b_last_end b + J) now) as [|Hlt]; [done|]. destruct (T3 eq_refl Hb) as [T|[_ T]]; [by left|lia].
  - destruct (exit_spec b Hinv Hr) as (b1 & E1 & _ & _ & _ & L1 & L2 & L3 & L4). rewrite E in E1. injection E1 as <-.
    unfold timed. cbn [snd]. rewrite L1 L2 L4. split; [lia|]. by split.
Qed.

Lemma runs_timed t x : runs (idle_is idle) t x -> 0 <= t /\ timed t x.
Proof.
  induction 1 as [legs|t now x e y Hr [IH0 IH] Hnow Hok Hs].
  - split; [done|]. unfold timed. cbn. split; [lia|]. by split.
  - split; [lia|]. eapply step_timed; [by eapply runs_inv|exact IH|lia|lia|exact Hok|exact Hs].
Qed.

(** The drop, when nothing else comes first. *)
Lemma work_drops sub b now :
  boost_inv (sub, b) -> w_running b = true -> b_busy b = false -> 0 <= now < 2 ^ 62 -> 0 <= b_last_end b < 2 ^ 62 ->
  b_last_end b + J <= now -> exists b', step now (sub, b) (Work idle) (sub, b') /\ b_on b' = false.
Proof.
  intros Hinv Hr Hb Hn Hl Hd. destruct (work_spec idle now sub b Hinv) as (b1 & E1 & _ & _ & _ & _ & _ & _ & L5).
  exists b1. split; [by apply s_work|]. rewrite L5 Hb time_after_eq_le; [|lia..]. rewrite (proj2 (Z.leb_le _ _) Hd). apply andb_false_r.
Qed.
End timed.
End boost.


(** While the idle time is not changed, a boost that is on without a
    submission is dropped: its work is armed for at most the idle time ahead,
    or already runs, and once that time is reached the next run of the work
    removes every request. *)
Theorem boost_drops cpus J idle now sub b :
  0 <= J idle <= 2 ^ 61 -> runs cpus J (idle_is idle) now (sub, b) -> now < 2 ^ 62 -> b_on b = true -> b_busy b = false ->
  exists t, t <= now + J idle /\ forall t', t <= t' -> now <= t' < 2 ^ 62 ->
    if w_running b then exists b', step cpus J t' (sub, b) (Work idle) (sub, b') /\ b_on b' = false
    else exists b1 b', step cpus J t' (sub, b) Fire (sub, b1) /\ step cpus J t' (sub, b1) (Work idle) (sub, b') /\ b_on b' = false.
Proof.
  intros Hj Hr Hnow Ho Hb. pose proof (runs_inv _ _ _ _ _ Hr) as Hinv. destruct (runs_timed cpus J idle Hj now _ Hr) as (H0 & T1 & T2 & T3).
  cbn [snd] in *. destruct (T3 Ho Hb) as [(t & Et & Hle)|[Hrun Hle]].
  - exists t. split; [by apply T2|]. intros t' Ht' Hn'. destruct (w_running b) eqn:Ew.
    + apply work_drops; try done; lia.
    + exists (set_work None true b). assert (step cpus J t' (sub, b) Fire (sub, set_work None true b)) as Hs by (by eapply s_fire).
      destruct (work_drops cpus J idle Hj sub (set_work None true b) t') as (b' & S' & E'); try done; [|cbn; lia..|by exists b'].
      by eapply step_inv; [|exact Hs].
  - exists now. split; [lia|]. intros t' Ht' Hn'. rewrite Hrun. apply work_drops; try done; lia.
Qed.

(** ** Two CPUs in one cluster *)

Definition two_cpus : list Z := [0; 1].
Definition one_cluster (cpu : Z) : option policy := Some (Policy 0 3000 1).
Definition idle_boost : ane_boost := AneBoost true 2 1 7 false true [Req 0 0 3000] (Some 107) false.

(** A submission from time 5 to 7, with an idle time of 100. *)
Lemma one_submission ok : ok (Begin 100 one_cluster) -> ok (End 100) -> runs two_cpus (fun ms => ms) ok 7 (false, idle_boost).
Proof.
  intros H1 H2. set (b := AneBoost true 2 1 0 true true [Req 0 0 3000] None false).
  eapply (r_step _ _ _ 5 7 (true, b)); [|lia|exact H2|].
  - eapply (r_step _ _ _ 0 5); [apply (r_init _ _ _ true)|lia|exact H1|]. apply s_begin. reflexivity.
  - exact (s_end two_cpus (fun ms => ms) 7 b 100).
Qed.

(** Raising the idle time between the arming of the drop and its run leaves
    the boost on with nothing ahead that would end it. *)
Lemma boost_idle_raised_stuck :
  exists now b, runs two_cpus (fun ms => ms) (fun _ => True) now (false, b) /\ b_on b = true /\ b_busy b = false /\
    w_pending b = None /\ w_running b = false.
Proof.
  exists 107, (AneBoost true 2 1 7 false true [Req 0 0 3000] None false). split; [|done].
  eapply (r_step _ _ _ 107 107 (false, set_work None true idle_boost) (Work 1000)); [|lia|exact I|apply s_work; reflexivity].
  eapply (r_step _ _ _ 7 107 (false, idle_boost) Fire); [apply one_submission; exact I|lia|exact I|].
  apply (s_fire two_cpus (fun ms => ms) 107 false idle_boost 107); [reflexivity|lia|reflexivity].
Qed.


Lemma boost_drops_witness :
  exists t, t <= 107 /\ exists b1 b', step two_cpus (fun ms => ms) 200 (false, idle_boost) Fire (false, b1) /\
    step two_cpus (fun ms => ms) 200 (false, b1) (Work 100) (false, b') /\ b_on b' = false.
Proof.
  destruct (boost_drops two_cpus (fun ms => ms) 100 7 false idle_boost) as (t & Ht & H).
  - split; vm_compute; discriminate.
  - apply one_submission; reflexivity.
  - lia.
  - reflexivity.
  - reflexivity.
  - exists t. split; [exact Ht|]. apply (H 200); lia.
Defined.
End Boost.
