(* ===== verification/Stats.v ===== *)
(** * The busy-time counters and the submission ring

    [src/ane/include/ane_stats.h] and the reader of
    [src/ane/ane_stats_show.c]: the counters every submission of both kernel
    drivers updates without a lock, the ring of the last submissions, and the
    two readers, [ane_stats_snapshot] (sysfs) and [ane_timeline_show]
    (debugfs).

    Every function is a machine with one state per atomic access, so that any
    number of calls interleave access by access; accesses are sequentially
    consistent. A thread is one submission: it runs [ane_stats_begin], waits
    for its engine, and runs [ane_stats_complete]. The samples the callers
    pass are arbitrary. *)

From S2P Require Import Prelude.

(** ** Data *)

Record ane_stats_counters := Counters {
  busy_ns : Z;        (* u64 *)
  jobs : Z;           (* u64 *)
  last_busy_end : Z;  (* u64 *)
  max_end : Z;        (* u64 *)
  inflight : Z;       (* u32 *)
}.

Definition ANE_STATS_INFLIGHT_TRANS : Z := 0xFFFFFFFF.

Record ane_stats_ring_entry := RingEntry {
  e_seq : Z;
  e_submit_ns : Z;
  e_start_ns : Z;
  e_end_ns : Z;
  e_tasks : Z;
  e_rc : Z;
  e_tmst : Z;
}.

Record ane_stats_ring := Ring {
  r_head : Z;
  r_n : Z;
  r_mask : Z;
  r_slots : list ane_stats_ring_entry;
}.

#[global] Instance counters_eq_dec : EqDecision ane_stats_counters.
Proof. solve_decision. Defined.

#[global] Instance ring_entry_eq_dec : EqDecision ane_stats_ring_entry.
Proof. solve_decision. Defined.

#[global] Instance ring_eq_dec : EqDecision ane_stats_ring.
Proof. solve_decision. Defined.

Definition zero_entry : ane_stats_ring_entry := RingEntry 0 0 0 0 0 0 0.

Definition ANE_STATS_RING_ORDER_DEFAULT : Z := 8.

(** The counters and the ring from zero. The callers attach the array of
    [1 << n_shift] zeroed slots right after. *)
Definition ane_stats_counters_init (n_shift : Z) : ane_stats_counters * ane_stats_ring :=
  let n_total := u32 (Z.shiftl 1 n_shift) in
  (Counters 0 0 0 0 0,
   Ring 0 n_total (u32 (n_total - 1)) (replicate (Z.to_nat n_total) zero_entry)).

Definition set_busy (f : Z -> Z) (c : ane_stats_counters) :=
  Counters (f (busy_ns c)) (jobs c) (last_busy_end c) (max_end c) (inflight c).
Definition set_jobs (f : Z -> Z) (c : ane_stats_counters) :=
  Counters (busy_ns c) (f (jobs c)) (last_busy_end c) (max_end c) (inflight c).
Definition set_last (v : Z) (c : ane_stats_counters) :=
  Counters (busy_ns c) (jobs c) v (max_end c) (inflight c).
Definition set_max (v : Z) (c : ane_stats_counters) :=
  Counters (busy_ns c) (jobs c) (last_busy_end c) v (inflight c).
Definition set_inflight (v : Z) (c : ane_stats_counters) :=
  Counters (busy_ns c) (jobs c) (last_busy_end c) (max_end c) v.

Definition set_seq (v : Z) (e : ane_stats_ring_entry) :=
  RingEntry v (e_submit_ns e) (e_start_ns e) (e_end_ns e) (e_tasks e) (e_rc e) (e_tmst e).
Definition set_submit (v : Z) (e : ane_stats_ring_entry) :=
  RingEntry (e_seq e) v (e_start_ns e) (e_end_ns e) (e_tasks e) (e_rc e) (e_tmst e).
Definition set_start (v : Z) (e : ane_stats_ring_entry) :=
  RingEntry (e_seq e) (e_submit_ns e) v (e_end_ns e) (e_tasks e) (e_rc e) (e_tmst e).
Definition set_end (v : Z) (e : ane_stats_ring_entry) :=
  RingEntry (e_seq e) (e_submit_ns e) (e_start_ns e) v (e_tasks e) (e_rc e) (e_tmst e).
Definition set_tasks (v : Z) (e : ane_stats_ring_entry) :=
  RingEntry (e_seq e) (e_submit_ns e) (e_start_ns e) (e_end_ns e) v (e_rc e) (e_tmst e).
Definition set_rc (v : Z) (e : ane_stats_ring_entry) :=
  RingEntry (e_seq e) (e_submit_ns e) (e_start_ns e) (e_end_ns e) (e_tasks e) v (e_tmst e).
Definition set_tmst (v : Z) (e : ane_stats_ring_entry) :=
  RingEntry (e_seq e) (e_submit_ns e) (e_start_ns e) (e_end_ns e) (e_tasks e) (e_rc e) v.

(** [&ring->slots[(size_t)(ticket - 1) & ring->mask]]. *)
Definition slot_index (r : ane_stats_ring) (ticket : Z) : nat :=
  Z.to_nat (Z.land (u64 (ticket - 1)) (r_mask r)).

Definition slot_store (f : ane_stats_ring_entry -> ane_stats_ring_entry) (ticket : Z)
    (r : ane_stats_ring) : res ane_stats_ring :=
  match r_slots r !! slot_index r ticket with
  | Some e => Ret (Ring (r_head r) (r_n r) (r_mask r) (<[slot_index r ticket := f e]> (r_slots r)))
  | None => Fault OutOfBounds
  end.

(** ** The two calls of a submission *)

Record begin_args := BeginArgs { a_submit_ns : Z; a_tasks : Z }.
Record complete_args := CompleteArgs { a_end_ns : Z; a_rc : Z; a_tmst : Z }.

(** Where a submission is: the next atomic access, with the locals that are
    live there. [st] is the value [ane_stats_begin] stored in [start_ns]. *)
Inductive pc :=
  | BTicket
  | BCur (ticket : Z)
  | BLoop (ticket cur : Z)
  | BMaxEnd (ticket : Z)
  | BLatch (ticket latch : Z)
  | BOpen (ticket : Z)
  | BSeq (ticket : Z)
  | BSubmit (ticket : Z)
  | BStartRd (ticket : Z)
  | BStart (ticket st : Z)
  | BEnd (ticket st : Z)
  | BTasks (ticket st : Z)
  | BRc (ticket st : Z)
  | BTmst (ticket st : Z)
  | BRet (ticket st : Z)
  | CCur (ticket st : Z) (a : complete_args)
  | CMaxRd (ticket st : Z) (a : complete_args) (cur : Z)
  | CMax (ticket st : Z) (a : complete_args) (cur old : Z)
  | CLoop (ticket st : Z) (a : complete_args) (cur : Z)
  | CReread (ticket st : Z) (a : complete_args)
  | CStart (ticket st : Z) (a : complete_args)
  | CFoldRd (ticket st : Z) (a : complete_args) (s : Z)
  | CFold (ticket st : Z) (a : complete_args) (s fold_end : Z)
  | CClose (ticket st : Z) (a : complete_args) (fold_end : Z)
  | CJobs (ticket st : Z) (a : complete_args) (fold_end : Z)
  | CEnd (ticket st : Z) (a : complete_args) (fold_end : Z)
  | CRc (ticket st : Z) (a : complete_args) (fold_end : Z)
  | CTmst (ticket st : Z) (a : complete_args) (fold_end : Z)
  | CSeq (ticket st : Z) (a : complete_args) (fold_end : Z)
  | CRet (ticket st : Z) (a : complete_args) (fold_end : Z).

Definition mem := (ane_stats_counters * ane_stats_ring)%type.

(** A store to the slot of [ticket], then [k]. *)
Definition store_then (f : ane_stats_ring_entry -> ane_stats_ring_entry) (ticket : Z) (k : pc)
    (m : mem) : res (mem * pc) :=
  r ← slot_store f ticket m.2; Ret ((m.1, r), k).

(** One access of [ane_stats_begin]. *)
Definition ane_stats_begin (b : begin_args) (p : pc) (m : mem) : res (mem * pc) :=
  let '(c, r) := m in
  match p with
  | BTicket =>
      Ret ((c, Ring (u64 (r_head r + 1)) (r_n r) (r_mask r) (r_slots r)), BCur (u64 (r_head r + 1)))
  | BCur tk => Ret (m, BLoop tk (inflight c))
  | BLoop tk cur =>
      if cur =? ANE_STATS_INFLIGHT_TRANS then Ret (m, BLoop tk (inflight c))
      else if cur =? 0 then
        if inflight c =? 0 then Ret ((set_inflight ANE_STATS_INFLIGHT_TRANS c, r), BMaxEnd tk)
        else Ret (m, BCur tk)
      else if inflight c =? cur then Ret ((set_inflight (u32 (cur + 1)) c, r), BSeq tk)
      else Ret (m, BLoop tk (inflight c))
  | BMaxEnd tk =>
      let latch := max_end c in
      Ret (m, BLatch tk (if a_submit_ns b >? latch then a_submit_ns b else latch))
  | BLatch tk latch => Ret ((set_last latch c, r), BOpen tk)
  | BOpen tk => Ret ((set_inflight 1 c, r), BSeq tk)
  | BSeq tk => store_then (set_seq (u64 (2 * tk - 1))) tk (BSubmit tk) m
  | BSubmit tk => store_then (set_submit (a_submit_ns b)) tk (BStartRd tk) m
  | BStartRd tk => Ret (m, BStart tk (last_busy_end c))
  | BStart tk st => store_then (set_start st) tk (BEnd tk st) m
  | BEnd tk st => store_then (set_end (a_submit_ns b)) tk (BTasks tk st) m
  | BTasks tk st => store_then (set_tasks (a_tasks b)) tk (BRc tk st) m
  | BRc tk st => store_then (set_rc 0xFFFFFFFF) tk (BTmst tk st) m
  | BTmst tk st => store_then (set_tmst 0) tk (BRet tk st) m
  | _ => Ret (m, p)
  end.

(** One access of [ane_stats_atomic64_max]: [inl] retries with a new [old]. *)
Definition ane_stats_atomic64_max (i old v : Z) : Z * (Z + unit) :=
  if i >? old then if v =? old then (i, inr tt) else (v, inl v) else (v, inr tt).

(** One access of [ane_stats_complete]. *)
Definition ane_stats_complete (p : pc) (m : mem) : res (mem * pc) :=
  let '(c, r) := m in
  match p with
  | CCur tk st a => Ret (m, CMaxRd tk st a (inflight c))
  | CMaxRd tk st a cur => Ret (m, CMax tk st a cur (max_end c))
  | CMax tk st a cur old =>
      let '(v, k) := ane_stats_atomic64_max (a_end_ns a) old (max_end c) in
      Ret ((set_max v c, r),
           match k with inl old => CMax tk st a cur old | inr _ => CLoop tk st a cur end)
  | CLoop tk st a cur =>
      if cur =? ANE_STATS_INFLIGHT_TRANS then Ret (m, CLoop tk st a (inflight c))
      else if cur >? 1 then
        if inflight c =? cur then Ret ((set_inflight (u32 (cur - 1)) c, r), CJobs tk st a 0)
        else Ret (m, CLoop tk st a (inflight c))
      else if cur =? 0 then Ret (m, CJobs tk st a 0)
      else if inflight c =? 1 then
        Ret ((set_inflight ANE_STATS_INFLIGHT_TRANS c, r), CStart tk st a)
      else Ret (m, CReread tk st a)
  | CReread tk st a => Ret (m, CLoop tk st a (inflight c))
  | CStart tk st a => Ret (m, CFoldRd tk st a (last_busy_end c))
  | CFoldRd tk st a s =>
      let fold_end := max_end c in
      Ret (m, CFold tk st a s (if fold_end <? a_end_ns a then a_end_ns a else fold_end))
  | CFold tk st a s fe =>
      Ret ((if fe >? s then set_busy (fun v => u64 (v + u64 (fe - s))) c else c, r), CClose tk st a fe)
  | CClose tk st a fe => Ret ((set_inflight 0 c, r), CJobs tk st a fe)
  | CJobs tk st a fe => Ret ((set_jobs (fun v => u64 (v + 1)) c, r), CEnd tk st a fe)
  | CEnd tk st a fe =>
      store_then (set_end (if fe =? 0 then a_end_ns a else fe)) tk (CRc tk st a fe) m
  | CRc tk st a fe => store_then (set_rc (a_rc a)) tk (CTmst tk st a fe) m
  | CTmst tk st a fe => store_then (set_tmst (a_tmst a)) tk (CSeq tk st a fe) m
  | CSeq tk st a fe => store_then (set_seq (u64 (2 * tk))) tk (CRet tk st a fe) m
  | _ => Ret (m, p)
  end.

Definition in_begin (p : pc) : bool :=
  match p with
  | BTicket | BCur _ | BLoop _ _ | BMaxEnd _ | BLatch _ _ | BOpen _ | BSeq _ | BSubmit _
  | BStartRd _ | BStart _ _ | BEnd _ _ | BTasks _ _ | BRc _ _ | BTmst _ _ => true
  | _ => false
  end.

(** ** The readers *)

(** [ane_stats_snapshot]; [ane_stats_now_ns()] is an argument of the step
    that samples it. *)
Inductive snap_pc :=
  | SInflight
  | SBusy (inflight : Z)
  | SStart (inflight raw : Z)
  | SNow (inflight raw s : Z)
  | SBusy2 (inflight raw s now : Z)
  | SInflight2 (inflight raw s now : Z)
  | SStart2 (inflight raw s now : Z)
  | SRet (busy : Z).

(** What the snapshot returns once its reads agree. *)
Definition snap_value (infl raw s now : Z) : Z :=
  if negb (infl =? 0) && (now >? s) then u64 (raw + u64 (now - s)) else raw.

Definition ane_stats_snapshot (now : Z) (c : ane_stats_counters) (p : snap_pc) : snap_pc :=
  match p with
  | SInflight =>
      if inflight c =? ANE_STATS_INFLIGHT_TRANS then SInflight else SBusy (inflight c)
  | SBusy i => if i =? 0 then SNow i (busy_ns c) 0 else SStart i (busy_ns c)
  | SStart i raw => SNow i raw (last_busy_end c)
  | SNow i raw s => SBusy2 i raw s now
  | SBusy2 i raw s n => if busy_ns c =? raw then SInflight2 i raw s n else SInflight
  | SInflight2 i raw s n =>
      if inflight c =? i then if i =? 0 then SRet (snap_value i raw s n) else SStart2 i raw s n
      else SInflight
  | SStart2 i raw s n =>
      if last_busy_end c =? s then SRet (snap_value i raw s n) else SInflight
  | SRet v => SRet v
  end.

(** A line of [ane_timeline]: ticket, submit, start, end, tasks, rc, tmst. *)
Record line := Line {
  l_ticket : Z; l_submit : Z; l_start : Z; l_end : Z; l_tasks : Z; l_rc : Z; l_tmst : Z }.

#[global] Instance line_eq_dec : EqDecision line.
Proof. solve_decision. Defined.

(** [ane_timeline_show]: [i] of [live] slots of the ring read at [head]; the
    entry fields read so far are collected in [e]. *)
Inductive show_pc :=
  | THead
  | TSeq (head live i : Z)
  | TSubmit (head live i : Z) (e : ane_stats_ring_entry)
  | TStart (head live i : Z) (e : ane_stats_ring_entry)
  | TEnd (head live i : Z) (e : ane_stats_ring_entry)
  | TTasks (head live i : Z) (e : ane_stats_ring_entry)
  | TRc (head live i : Z) (e : ane_stats_ring_entry)
  | TTmst (head live i : Z) (e : ane_stats_ring_entry)
  | TRet.

(** The loop test after [i] slots. *)
Definition show_next (head live i : Z) : show_pc :=
  if i <? live then TSeq head live i else TRet.

Definition ane_timeline_show (r : ane_stats_ring) (p : show_pc) : res (show_pc * list line) :=
  let slot head i :=
    match r_slots r !! slot_index r (head - i) with
    | Some e => Ret e
    | None => Fault OutOfBounds
    end in
  match p with
  | THead =>
      let live := if r_head r <? r_mask r + 1 then r_head r else r_mask r + 1 in
      Ret (show_next (r_head r) live 0, [])
  | TSeq h l i => e ← slot h i; Ret (TSubmit h l i (set_seq (e_seq e) zero_entry), [])
  | TSubmit h l i x => e ← slot h i; Ret (TStart h l i (set_submit (e_submit_ns e) x), [])
  | TStart h l i x => e ← slot h i; Ret (TEnd h l i (set_start (e_start_ns e) x), [])
  | TEnd h l i x => e ← slot h i; Ret (TTasks h l i (set_end (e_end_ns e) x), [])
  | TTasks h l i x => e ← slot h i; Ret (TRc h l i (set_tasks (e_tasks e) x), [])
  | TRc h l i x => e ← slot h i; Ret (TTmst h l i (set_rc (e_rc e) x), [])
  | TTmst h l i x =>
      e ← slot h i;
      let ticket := h - i in
      Ret (show_next h l (i + 1),
           if e_seq x =? u64 (2 * ticket)
           then [Line (u64 (2 * ticket)) (e_submit_ns x) (e_start_ns x) (e_end_ns x) (e_tasks x)
                      (e_rc x) (e_tmst e)]
           else [])
  | TRet => Ret (TRet, [])
  end.

(** ** The system: submissions and readers, interleaved *)

Record thread := Thread { t_args : begin_args; t_pc : pc }.

Record sys := Sys {
  s_mem : mem;
  s_threads : list thread;
  s_snaps : list snap_pc;
  s_shows : list (show_pc * list line);
}.

Inductive event :=
  | EBegin (submit_ns tasks : Z)
  | EComplete (i : nat) (end_ns rc tmst : Z)
  | EStep (i : nat)
  | ESnapOpen
  | ESnap (j : nat) (now : Z)
  | EShowOpen
  | EShow (j : nat).

Definition live (p : pc) : Z := match p with CRet _ _ _ _ => 0 | _ => 1 end.

(** The threads that can be inside the two functions at once. *)
Definition LIVE_MAX : Z := 2 ^ 32 - 2.

(** One access of a thread. *)
Definition thread_step (th : thread) (m : mem) : res (mem * pc) :=
  if in_begin (t_pc th) then ane_stats_begin (t_args th) (t_pc th) m
  else ane_stats_complete (t_pc th) m.

(** An event that is not enabled changes nothing; a store outside the ring
    is a fault. *)
Definition sys_step (s : sys) (ev : event) : res sys :=
  let '(Sys m T sn sh) := s in
  match ev with
  | EBegin submit tasks =>
      if sumz (live ∘ t_pc) T <? LIVE_MAX then
        Ret (Sys m (T ++ [Thread (BeginArgs (u64 submit) (u32 tasks)) BTicket]) sn sh)
      else Ret s
  | EComplete i e rc tmst =>
      match T !! i with
      | Some (Thread b (BRet tk st)) =>
          Ret (Sys m (<[i := Thread b (CCur tk st (CompleteArgs (u64 e) (u32 rc) (u64 tmst)))]> T) sn sh)
      | _ => Ret s
      end
  | EStep i =>
      match T !! i with
      | Some th => '(m, p) ← thread_step th m; Ret (Sys m (<[i := Thread (t_args th) p]> T) sn sh)
      | None => Ret s
      end
  | ESnapOpen => Ret (Sys m T (sn ++ [SInflight]) sh)
  | ESnap j now => Ret (Sys m T (alter (ane_stats_snapshot now m.1) j sn) sh)
  | EShowOpen => Ret (Sys m T sn (sh ++ [(THead, [])]))
  | EShow j =>
      match sh !! j with
      | Some (p, out) =>
          '(p, ls) ← ane_timeline_show m.2 p; Ret (Sys m T sn (<[j := (p, out ++ ls)]> sh))
      | None => Ret s
      end
  end.

Definition stats_init (n_shift : Z) : sys := Sys (ane_stats_counters_init n_shift) [] [] [].

Definition run (n_shift : Z) (evs : list event) : res sys := foldM sys_step (stats_init n_shift) evs.

(** ** The specification: the union of the completed windows *)

(** The window a submission is counted with once it left its busy period. *)
Definition window (p : pc) : option (Z * Z) :=
  match p with
  | CClose _ st a fe | CJobs _ st a fe | CEnd _ st a fe | CRc _ st a fe | CTmst _ st a fe
  | CSeq _ st a fe | CRet _ st a fe => Some (st, if fe =? 0 then a_end_ns a else fe)
  | _ => None
  end.

(** The nanoseconds of a window [[start, end)], and how many a list of
    windows covers. *)
Definition wset (w : Z * Z) : gset Z := list_to_set (seqZ w.1 (w.2 - w.1)).
Definition cover (ws : list (Z * Z)) : gset Z := ⋃ (wset <$> ws).
Definition union_ns (ws : list (Z * Z)) : Z := Z.of_nat (size (cover ws)).

Definition windows (T : list thread) : list (Z * Z) := omap (window ∘ t_pc) T.

Lemma elem_wset w x : x ∈ wset w <-> w.1 <= x < w.2.
Proof. unfold wset. rewrite elem_of_list_to_set elem_of_seqZ. lia. Qed.

Lemma size_wset w : Z.of_nat (size (wset w)) = Z.max 0 (w.2 - w.1).
Proof.
  unfold wset. rewrite size_list_to_set; [|apply NoDup_seqZ]. rewrite length_seqZ. lia.
Qed.

Lemma elem_cover ws x : x ∈ cover ws <-> exists w, w ∈ ws /\ w.1 <= x < w.2.
Proof.
  unfold cover. rewrite elem_of_union_list. setoid_rewrite list_elem_of_fmap.
  setoid_rewrite <- elem_wset. naive_solver.
Qed.

Lemma elem_windows T w :
  w ∈ windows T <-> exists i th, T !! i = Some th /\ window (t_pc th) = Some w.
Proof.
  unfold windows. rewrite list_elem_of_omap. setoid_rewrite list_elem_of_lookup. naive_solver.
Qed.

(** A thread that enters [window] adds its window. *)
Lemma cover_insert T i th th' w :
  T !! i = Some th -> window (t_pc th) = None -> window (t_pc th') = Some w ->
  cover (windows (<[i:=th']> T)) = cover (windows T) ∪ wset w.
Proof.
  intros Hi Hn Hs. apply set_eq. intros x. rewrite elem_of_union !elem_cover elem_wset.
  setoid_rewrite elem_windows. split.
  - intros (w' & (j & t & Hj & Hw) & Hx). apply list_lookup_insert_Some in Hj as [(<- & <- & _)|[Hne Hj]].
    + right. by simplify_eq.
    + left. eauto 10.
  - intros [(w' & (j & t & Hj & Hw) & Hx)|Hx].
    + exists w'. split; [|done]. exists j, t. split; [|done].
      rewrite list_lookup_insert_ne; [done|]. intros ->. simplify_eq.
    + exists w. split; [|done]. exists i, th'. split; [|done].
      apply list_lookup_insert_eq. by eapply lookup_lt_Some.
Qed.

Lemma windows_insert_same T i th th' :
  T !! i = Some th -> window (t_pc th') = window (t_pc th) -> windows (<[i:=th']> T) = windows T.
Proof.
  unfold windows. revert i. induction T as [|t T IH]; intros [|i] Hi Hw; try done.
  - injection Hi as ->. cbn. by rewrite Hw.
  - change (<[S i:=th']> (t :: T)) with (t :: <[i:=th']> T). cbn. by rewrite (IH i).
Qed.

(** ** The invariant *)

(** [own]: the thread holds the transition sentinel. [memb]: it is one of the
    submissions [inflight] counts. [opn]: its busy period is open. [done]: its
    job is counted. *)
Definition own (p : pc) : Z :=
  match p with
  | BMaxEnd _ | BLatch _ _ | BOpen _ | CStart _ _ _ | CFoldRd _ _ _ _ | CFold _ _ _ _ _
  | CClose _ _ _ _ => 1
  | _ => 0
  end.

Definition memb (p : pc) : Z :=
  match p with
  | BSeq _ | BSubmit _ | BStartRd _ | BStart _ _ | BEnd _ _ | BTasks _ _ | BRc _ _ | BTmst _ _
  | BRet _ _ | CCur _ _ _ | CMaxRd _ _ _ _ | CMax _ _ _ _ _ | CLoop _ _ _ _ | CReread _ _ _ => 1
  | _ => 0
  end.

Definition opn (p : pc) : Z :=
  match p with
  | BOpen _ | CStart _ _ _ | CFoldRd _ _ _ _ | CFold _ _ _ _ _ => 1
  | _ => memb p
  end.

Definition done (p : pc) : Z :=
  match p with
  | CEnd _ _ _ _ | CRc _ _ _ _ | CTmst _ _ _ _ | CSeq _ _ _ _ | CRet _ _ _ _ => 1
  | _ => 0
  end.

Definition u64_ok (z : Z) : Prop := 0 <= z < 2 ^ 64.

(** What the locals of a thread say of the counters. *)
Definition local_ok (c : ane_stats_counters) (b : begin_args) (p : pc) : Prop :=
  u64_ok (a_submit_ns b) /\
  match p with
  | BLatch _ latch => max_end c <= latch /\ u64_ok latch
  | BStart _ st | BEnd _ st | BTasks _ st | BRc _ st | BTmst _ st | BRet _ st => st = last_busy_end c
  | CCur _ st a => st = last_busy_end c /\ u64_ok (a_end_ns a)
  | CMaxRd _ st a cur => st = last_busy_end c /\ u64_ok (a_end_ns a) /\ 1 <= cur
  | CMax _ st a cur old =>
      st = last_busy_end c /\ u64_ok (a_end_ns a) /\ 1 <= cur /\ old <= max_end c
  | CLoop _ st a cur => st = last_busy_end c /\ 0 <= a_end_ns a <= max_end c /\ 1 <= cur
  | CReread _ st a | CStart _ st a => st = last_busy_end c /\ 0 <= a_end_ns a <= max_end c
  | CFoldRd _ st a s => st = last_busy_end c /\ 0 <= a_end_ns a <= max_end c /\ s = last_busy_end c
  | CFold _ st a s fe =>
      st = last_busy_end c /\ 0 <= a_end_ns a <= max_end c /\ s = last_busy_end c /\ fe = max_end c
  | _ => True
  end.

(** A completed window ends before [max_end]; while a period is open it
    starts with the period or ended before it. *)
Definition window_ok (c : ane_stats_counters) (open : Prop) (w : Z * Z) : Prop :=
  0 <= w.1 /\ w.2 <= max_end c /\ (open -> w.2 <= last_busy_end c \/ w.1 = last_busy_end c).

Record inv (c : ane_stats_counters) (T : list thread) : Prop := Inv {
  inv_inflight :
    (inflight c = ANE_STATS_INFLIGHT_TRANS /\ sumz (own ∘ t_pc) T = 1 /\ sumz (memb ∘ t_pc) T = 0) \/
    (inflight c = sumz (memb ∘ t_pc) T /\ sumz (own ∘ t_pc) T = 0);
  inv_live : sumz (live ∘ t_pc) T <= LIVE_MAX;
  inv_local : forall i th, T !! i = Some th -> local_ok c (t_args th) (t_pc th);
  inv_max : u64_ok (max_end c);
  inv_last : u64_ok (last_busy_end c);
  inv_windows : forall w, w ∈ windows T -> window_ok c (sumz (opn ∘ t_pc) T <> 0) w;
  inv_busy : sumz (opn ∘ t_pc) T = 0 -> busy_ns c = union_ns (windows T);
  inv_busy_open : sumz (opn ∘ t_pc) T <> 0 ->
    busy_ns c = Z.of_nat (size (filter (fun x => x < last_busy_end c) (cover (windows T))));
  inv_jobs : jobs c = u64 (sumz (done ∘ t_pc) T);
}.

Lemma sumz_pos {A} (f : A -> Z) (l : list A) i x :
  (forall y, 0 <= f y) -> l !! i = Some x -> f x <= sumz f l.
Proof.
  intros Hf Hi. apply sumz_elem; [by intros; apply Hf|]. by eapply list_elem_of_lookup_2.
Qed.

Lemma sumz_nonneg {A} (f : A -> Z) (l : list A) : (forall y, 0 <= f y) -> 0 <= sumz f l.
Proof. intros Hf. induction l as [|x l IH]; [done|]. rewrite sumz_cons. specialize (Hf x). lia. Qed.

Lemma own_nonneg th : 0 <= (own ∘ t_pc) th.
Proof. cbn. destruct (t_pc th); cbn; lia. Qed.
Lemma memb_nonneg th : 0 <= (memb ∘ t_pc) th.
Proof. cbn. destruct (t_pc th); cbn; lia. Qed.
Lemma opn_nonneg th : 0 <= (opn ∘ t_pc) th.
Proof. cbn. destruct (t_pc th); cbn; lia. Qed.
Lemma done_nonneg th : 0 <= (done ∘ t_pc) th.
Proof. cbn. destruct (t_pc th); cbn; lia. Qed.
Lemma live_nonneg th : 0 <= (live ∘ t_pc) th.
Proof. cbn. destruct (t_pc th); cbn; lia. Qed.

#[local] Hint Resolve own_nonneg memb_nonneg opn_nonneg done_nonneg live_nonneg : stats.

Lemma memb_le_live T : sumz (memb ∘ t_pc) T <= sumz (live ∘ t_pc) T.
Proof. apply sumz_le. intros th _. cbn. destruct (t_pc th); cbn; lia. Qed.

Lemma memb_le_opn T : sumz (memb ∘ t_pc) T <= sumz (opn ∘ t_pc) T.
Proof. apply sumz_le. intros th _. cbn. destruct (t_pc th); cbn; lia. Qed.

Lemma opn_le T : sumz (opn ∘ t_pc) T <= sumz (memb ∘ t_pc) T + sumz (own ∘ t_pc) T.
Proof.
  induction T as [|th T IH]; [done|]. rewrite !sumz_cons.
  enough ((opn ∘ t_pc) th <= (memb ∘ t_pc) th + (own ∘ t_pc) th) by lia.
  cbn. destruct (t_pc th); cbn; lia.
Qed.

(** The counts of the other threads, from the counts of all. *)
Lemma others_zero (f : pc -> Z) T i j th th' :
  (forall p, 0 <= f p) -> T !! i = Some th -> T !! j = Some th' -> i <> j ->
  sumz (f ∘ t_pc) T <= f (t_pc th) -> f (t_pc th') = 0.
Proof.
  intros Hf Hi Hj Hne Hs.
  pose proof (sumz_insert (f ∘ t_pc) T i th' th Hi) as E. cbn in E.
  assert ((<[i:=th']> T) !! j = Some th') as Hj' by (rewrite list_lookup_insert_ne; done).
  destruct (Z.eq_dec (f (t_pc th')) 0) as [|Hnz]; [done|].
  assert (2 * f (t_pc th') <= sumz (f ∘ t_pc) (<[i:=th']> T)); [|specialize (Hf (t_pc th')); lia].
  clear E Hs Hj. assert ((<[i:=th']> T) !! i = Some th') as Hi'
    by (apply list_lookup_insert_eq; by eapply lookup_lt_Some).
  revert Hi' Hj'. generalize (<[i:=th']> T). clear Hi. intros L Hi Hj.
  revert i j Hne Hi Hj. induction L as [|y L IH]; intros [|i] [|j] Hne Hi Hj; try done; rewrite sumz_cons.
  - injection Hi as ->. cbn in Hj.
    pose proof (sumz_pos (f ∘ t_pc) L j th' (fun y => Hf (t_pc y)) Hj). cbn in *. lia.
  - injection Hj as ->. cbn in Hi.
    pose proof (sumz_pos (f ∘ t_pc) L i th' (fun y => Hf (t_pc y)) Hi). cbn in *. lia.
  - specialize (IH i j ltac:(congruence) Hi Hj). specialize (Hf (t_pc y)). cbn in *. lia.
Qed.

(** How the local facts of the other threads survive a step. *)
Lemma local_ok_same c c' b p :
  max_end c' = max_end c -> last_busy_end c' = last_busy_end c -> local_ok c b p -> local_ok c' b p.
Proof. intros Em El. unfold local_ok. by rewrite Em El. Qed.

Lemma local_ok_max c c' b p :
  max_end c <= max_end c' -> last_busy_end c' = last_busy_end c -> own p = 0 ->
  local_ok c b p -> local_ok c' b p.
Proof. intros Em El Ho [Hs Hl]. split; [done|]. destruct p; try done; rewrite ?El; intuition lia. Qed.

Lemma local_ok_outside c c' b p :
  own p = 0 -> memb p = 0 -> local_ok c b p -> local_ok c' b p.
Proof. intros Ho Hm [Hs Hl]. split; [done|]. by destruct p. Qed.

(** The local facts of every thread after thread [i] moved to [p]. *)
Lemma local_insert c T i th p c' :
  T !! i = Some th -> local_ok c' (t_args th) p ->
  (forall j th', T !! j = Some th' -> j <> i -> local_ok c' (t_args th') (t_pc th')) ->
  inv c T ->
  forall j th', <[i:=Thread (t_args th) p]> T !! j = Some th' -> local_ok c' (t_args th') (t_pc th').
Proof.
  intros Hi Hp Ho _ j th' Hj.
  apply list_lookup_insert_Some in Hj as [(<- & <- & _)|[Hne Hj]]; [done|]. by apply (Ho j).
Qed.

Lemma sum_step (f : pc -> Z) T i th p :
  T !! i = Some th ->
  sumz (f ∘ t_pc) (<[i:=Thread (t_args th) p]> T) = sumz (f ∘ t_pc) T - f (t_pc th) + f p.
Proof. intros Hi. by rewrite (sumz_insert _ _ _ _ th Hi). Qed.

(** All five counts after a step of thread [i]. *)
Ltac sums Hi := rewrite ?(sum_step own _ _ _ _ Hi) ?(sum_step memb _ _ _ _ Hi)
  ?(sum_step opn _ _ _ _ Hi) ?(sum_step done _ _ _ _ Hi) ?(sum_step live _ _ _ _ Hi).

(** A member is alone with the counter: no thread holds the sentinel. *)
Lemma member_inflight c T i th :
  inv c T -> T !! i = Some th -> memb (t_pc th) = 1 ->
  inflight c = sumz (memb ∘ t_pc) T /\ 1 <= inflight c < ANE_STATS_INFLIGHT_TRANS /\
  sumz (own ∘ t_pc) T = 0 /\ sumz (opn ∘ t_pc) T <> 0.
Proof.
  intros HI Hi Hm. pose proof (sumz_pos (memb ∘ t_pc) T i th memb_nonneg Hi) as Hp. cbn in Hp.
  pose proof (memb_le_live T). pose proof (memb_le_opn T). pose proof (inv_live _ _ HI).
  destruct (inv_inflight _ _ HI) as [(? & ? & ?)|[? ?]]; unfold ANE_STATS_INFLIGHT_TRANS, LIVE_MAX in *; lia.
Qed.

(** The holder of the sentinel is the only thread in or around a period. *)
Lemma owner_alone c T i th :
  inv c T -> T !! i = Some th -> own (t_pc th) = 1 ->
  sumz (own ∘ t_pc) T = 1 /\ sumz (memb ∘ t_pc) T = 0 /\
  (forall j th', T !! j = Some th' -> j <> i -> own (t_pc th') = 0 /\ memb (t_pc th') = 0).
Proof.
  intros HI Hi Hm. pose proof (sumz_pos (own ∘ t_pc) T i th own_nonneg Hi) as Hp. cbn in Hp.
  destruct (inv_inflight _ _ HI) as [(? & Ho & Hz)|[? ?]]; [|lia].
  split_and!; [done..|]. intros j th' Hj Hne. split.
  - eapply (others_zero own T i j); [by intros []|done..|by rewrite Hm; lia].
  - pose proof (sumz_pos (memb ∘ t_pc) T j th' memb_nonneg Hj) as Hq. cbn in Hq.
    pose proof (memb_nonneg th'). cbn in *. lia.
Qed.

(** A step that leaves the counts and the windows alone. *)
Lemma inv_quiet c c' T i th p :
  inv c T -> T !! i = Some th ->
  own p = own (t_pc th) -> memb p = memb (t_pc th) -> opn p = opn (t_pc th) ->
  done p = done (t_pc th) -> live p <= live (t_pc th) -> window p = window (t_pc th) ->
  busy_ns c' = busy_ns c -> jobs c' = jobs c -> last_busy_end c' = last_busy_end c ->
  inflight c' = inflight c -> max_end c <= max_end c' -> u64_ok (max_end c') ->
  (max_end c' = max_end c \/ memb (t_pc th) = 1) ->
  local_ok c' (t_args th) p ->
  inv c' (<[i:=Thread (t_args th) p]> T).
Proof.
  intros HI Hi Eo Em Ep Ed El Ew Eb Ej Es Ef Hmax Hmok Hcase Hp.
  pose proof HI as [H1 H2 H3 H4 H5 H6 H7 H8 H9].
  assert (windows (<[i:=Thread (t_args th) p]> T) = windows T) as EW by by eapply windows_insert_same.
  assert (forall f, f p = f (t_pc th) ->
    sumz (f ∘ t_pc) (<[i:=Thread (t_args th) p]> T) = sumz (f ∘ t_pc) T) as Esum.
  { intros f Hf. rewrite (sum_step f _ _ _ _ Hi). lia. }
  split; rewrite ?EW ?(Esum own Eo) ?(Esum memb Em) ?(Esum opn Ep) ?(Esum done Ed) ?Eb ?Ej ?Es ?Ef; try done.
  - sums Hi. lia.
  - eapply local_insert; [done..| |done]. intros j th' Hj Hne. destruct Hcase as [E|Hm].
    + by apply (local_ok_same c); [..|apply (H3 j)].
    + destruct (member_inflight _ _ _ _ HI Hi Hm) as (_ & _ & Ho & _).
      apply (local_ok_max c); [done..| |by apply (H3 j)].
      pose proof (sumz_pos (own ∘ t_pc) T j th' own_nonneg Hj). pose proof (own_nonneg th'). cbn in *. lia.
  - intros w Hw. destruct (H6 w Hw) as (? & ? & ?). unfold window_ok. rewrite Es.
    split_and!; [done|lia|done].
Qed.

(** The steps that change the counts, one by one. *)
Section transitions.
Context (c : ane_stats_counters) (T : list thread) (i : nat) (th : thread).
Context (HI : inv c T) (Hi : T !! i = Some th).

Abbreviation after p := (<[i:=Thread (t_args th) p]> T).

(** Taking the sentinel of an idle engine. *)
Lemma inv_take_idle p tk :
  own (t_pc th) = 0 -> memb (t_pc th) = 0 -> opn (t_pc th) = 0 -> done (t_pc th) = 0 ->
  live (t_pc th) = 1 -> window (t_pc th) = None -> p = BMaxEnd tk -> inflight c = 0 ->
  inv (set_inflight ANE_STATS_INFLIGHT_TRANS c) (after p).
Proof using HI Hi.
  intros Eo Em Ep Ed El Ew -> Hf. pose proof HI as [H1 H2 H3 H4 H5 H6 H7 H8 H9].
  assert (windows (after (BMaxEnd tk)) = windows T) as EW by by eapply windows_insert_same.
  assert (sumz (opn ∘ t_pc) T = 0) as Hop.
  { pose proof (opn_le T). pose proof (sumz_nonneg (opn ∘ t_pc) T opn_nonneg).
    destruct H1 as [(E & _ & _)|[? ?]]; [by rewrite Hf in E|lia]. }
  split; rewrite ?EW; sums Hi; cbn [own memb opn done live set_inflight inflight busy_ns jobs max_end last_busy_end];
    rewrite ?Eo ?Em ?Ep ?Ed ?El ?Z.sub_0_r ?Z.add_0_r; try done.
  - left. destruct H1 as [(E & _ & _)|[? ?]]; [by rewrite Hf in E|]. split_and!; [done|lia..].
  - lia.
  - eapply local_insert; [done| |intros j th' Hj _|done]; [|by apply (H3 j)].
    split; [apply (H3 i)|]; done.
Qed.

(** Joining an open period. *)
Lemma inv_join tk :
  own (t_pc th) = 0 -> memb (t_pc th) = 0 -> opn (t_pc th) = 0 -> done (t_pc th) = 0 ->
  live (t_pc th) = 1 -> window (t_pc th) = None ->
  inflight c <> 0 -> inflight c <> ANE_STATS_INFLIGHT_TRANS ->
  inv (set_inflight (u32 (inflight c + 1)) c) (after (BSeq tk)).
Proof using HI Hi.
  intros Eo Em Ep Ed El Ew Hf Hnt. pose proof HI as [H1 H2 H3 H4 H5 H6 H7 H8 H9].
  assert (windows (after (BSeq tk)) = windows T) as EW by by eapply windows_insert_same.
  destruct H1 as [(E & _ & _)|[E Hown]]; [done|].
  pose proof (memb_le_opn T) as Hmo. pose proof (sumz_nonneg (memb ∘ t_pc) T memb_nonneg).
  assert (sumz (memb ∘ t_pc) (after (BSeq tk)) <= LIVE_MAX) as Hb.
  { etransitivity; [apply memb_le_live|]. sums Hi. cbn. lia. }
  rewrite (sum_step memb _ _ _ _ Hi) in Hb. cbn in Hb.
  split; rewrite ?EW; sums Hi; cbn [own memb opn done live set_inflight inflight busy_ns jobs max_end last_busy_end];
    rewrite ?Eo ?Em ?Ep ?Ed ?El ?Z.sub_0_r ?Z.add_0_r; try done.
  - right. split; [|lia]. rewrite wrap_small; [lia|]. unfold LIVE_MAX in *. lia.
  - lia.
  - eapply local_insert; [done| |intros j th' Hj _|done]; [|by apply (H3 j)].
    split; [apply (H3 i)|]; done.
  - intros w Hw. destruct (H6 w Hw) as (? & ? & Hopen). split_and!; [done..|]. intros _. apply Hopen. lia.
  - intros ?. lia.
  - intros _. apply H8. lia.
Qed.

(** Latching the start of a period. *)
Lemma inv_latch tk latch :
  t_pc th = BLatch tk latch -> inv (set_last latch c) (after (BOpen tk)).
Proof using HI Hi.
  intros Ep. pose proof HI as [H1 H2 H3 H4 H5 H6 H7 H8 H9].
  destruct (owner_alone _ _ _ _ HI Hi ltac:(by rewrite Ep)) as (Ho & Hm & Hoth).
  assert (sumz (opn ∘ t_pc) T = 0) as Hop.
  { destruct (Z.eq_dec (sumz (opn ∘ t_pc) T) 0) as [|Hne]; [done|].
    pose proof (opn_le (after (CClose 0 0 (CompleteArgs 0 0 0) 0))) as Hle.
    revert Hle. sums Hi. rewrite Ep. cbn. pose proof (sumz_nonneg (opn ∘ t_pc) T opn_nonneg).
    pose proof (opn_le (after BTicket)) as Hle'. revert Hle'. sums Hi. rewrite Ep. cbn. lia. }
  assert (windows (after (BOpen tk)) = windows T) as EW.
  { eapply windows_insert_same; [done|]. by rewrite Ep. }
  pose proof (H3 i th Hi) as [Hs Hl]. rewrite Ep in Hl. destruct Hl as [Hlm Hlr].
  assert (forall x, x ∈ cover (windows T) -> x < latch) as Hlt.
  { intros x (w & Hw & Hx)%elem_cover. destruct (H6 w Hw) as (_ & ? & _). lia. }
  split; rewrite ?EW; sums Hi; rewrite ?Ep ?Ho ?Hm ?Hop; cbn [own memb opn done live set_last inflight busy_ns jobs max_end last_busy_end]; try done.
  - left. destruct H1 as [(? & _)|[_ ?]]; [done|lia].
  - lia.
  - eapply local_insert; [done| |intros j th' Hj Hne|done].
    + by split.
    + destruct (Hoth j th' Hj Hne). apply (local_ok_outside c); [done..|]. by apply (H3 j).
  - intros w Hw. destruct (H6 w Hw) as (? & ? & _). split_and!; [done..|]. intros _. left. cbn. lia.
  - intros _. rewrite (H7 Hop). unfold union_ns. do 2 f_equal. apply set_eq. intros x.
    rewrite elem_of_filter. split; [|by intros [_ ?]]. intros Hx. split; [by apply Hlt|done].
  - rewrite H9. f_equal. lia.
Qed.

(** Publishing the open period. *)
Lemma inv_open tk : t_pc th = BOpen tk -> inv (set_inflight 1 c) (after (BSeq tk)).
Proof using HI Hi.
  intros Ep. pose proof HI as [H1 H2 H3 H4 H5 H6 H7 H8 H9].
  destruct (owner_alone _ _ _ _ HI Hi ltac:(by rewrite Ep)) as (Ho & Hm & Hoth).
  assert (windows (after (BSeq tk)) = windows T) as EW.
  { eapply windows_insert_same; [done|]. by rewrite Ep. }
  split; rewrite ?EW; sums Hi; rewrite ?Ep ?Ho ?Hm; cbn [own memb opn done live set_inflight inflight busy_ns jobs max_end last_busy_end]; try done.
  - by right.
  - lia.
  - eapply local_insert; [done| |intros j th' Hj _|done]; [|by apply (H3 j)].
    split; [apply (H3 i)|]; done.
  - intros w Hw. destruct (H6 w Hw) as (? & ? & Hopen). split_and!; [done..|]. intros ?. apply Hopen. lia.
  - intros ?. apply H7. lia.
  - intros ?. apply H8. lia.
  - rewrite H9. f_equal. lia.
Qed.

(** Leaving a period that others keep open. *)
Lemma inv_leave tk st a cur :
  t_pc th = CLoop tk st a cur -> 1 < inflight c ->
  inv (set_inflight (u32 (inflight c - 1)) c) (after (CJobs tk st a 0)).
Proof using HI Hi.
  intros Ep Hf. pose proof HI as [H1 H2 H3 H4 H5 H6 H7 H8 H9].
  destruct (member_inflight _ _ _ _ HI Hi ltac:(by rewrite Ep)) as (Ef & Hrange & Ho & Hop).
  pose proof (H3 i th Hi) as [Hs Hl]. rewrite Ep in Hl. destruct Hl as (Est & Hend & _).
  pose proof (cover_insert T i th (Thread (t_args th) (CJobs tk st a 0)) (st, a_end_ns a) Hi
    ltac:(by rewrite Ep) eq_refl) as EC.
  pose proof (memb_le_opn T).
  split; sums Hi; rewrite ?Ep ?Ho; cbn [own memb opn done live set_inflight inflight busy_ns jobs max_end last_busy_end]; try done.
  - right. split; [|lia]. rewrite wrap_small; [lia|]. unfold ANE_STATS_INFLIGHT_TRANS in *. lia.
  - lia.
  - eapply local_insert; [done| |intros j th' Hj _|done]; [|by apply (H3 j)]. by split.
  - intros w Hw. apply elem_windows in Hw as (j & t & Hj & Hw).
    apply list_lookup_insert_Some in Hj as [(<- & <- & _)|[Hne Hj]].
    + cbn in Hw. injection Hw as <-. unfold u64_ok in *. split_and!; cbn; [lia..|]. intros _. by right.
    + destruct (H6 w) as (? & ? & Hopen); [apply elem_windows; eauto|].
      split_and!; [done..|]. intros _. by apply Hopen.
  - intros ?. lia.
  - intros _. rewrite H8; [|done]. rewrite EC. do 2 f_equal. apply set_eq. intros x.
    rewrite !elem_of_filter elem_of_union elem_wset. cbn. split; [intuition|]. intros [? [?|?]]; [done|lia].
  - rewrite H9. f_equal. lia.
Qed.

(** The last member takes the sentinel. *)
Lemma inv_take_last tk st a cur :
  t_pc th = CLoop tk st a cur -> inflight c = 1 ->
  inv (set_inflight ANE_STATS_INFLIGHT_TRANS c) (after (CStart tk st a)).
Proof using HI Hi.
  intros Ep Hf. pose proof HI as [H1 H2 H3 H4 H5 H6 H7 H8 H9].
  destruct (member_inflight _ _ _ _ HI Hi ltac:(by rewrite Ep)) as (Ef & Hrange & Ho & Hop).
  pose proof (H3 i th Hi) as [Hs Hl]. rewrite Ep in Hl. destruct Hl as (Est & Hend & _).
  assert (windows (after (CStart tk st a)) = windows T) as EW.
  { eapply windows_insert_same; [done|]. by rewrite Ep. }
  split; rewrite ?EW; sums Hi; rewrite ?Ep ?Ho; cbn [own memb opn done live set_inflight inflight busy_ns jobs max_end last_busy_end]; try done.
  - left. split_and!; [done|lia..].
  - lia.
  - eapply local_insert; [done| |intros j th' Hj _|done]; [|by apply (H3 j)]. by split.
  - intros w Hw. destruct (H6 w Hw) as (? & ? & Hopen). split_and!; [done..|]. intros _. by apply Hopen.
  - intros ?. lia.
  - intros _. by apply H8.
  - rewrite H9. f_equal. lia.
Qed.

(** Reopening the counter after the fold. *)
Lemma inv_close tk st a fe :
  t_pc th = CClose tk st a fe -> inv (set_inflight 0 c) (after (CJobs tk st a fe)).
Proof using HI Hi.
  intros Ep. pose proof HI as [H1 H2 H3 H4 H5 H6 H7 H8 H9].
  destruct (owner_alone _ _ _ _ HI Hi ltac:(by rewrite Ep)) as (Ho & Hm & Hoth).
  assert (windows (after (CJobs tk st a fe)) = windows T) as EW.
  { eapply windows_insert_same; [done|]. by rewrite Ep. }
  split; rewrite ?EW; sums Hi; rewrite ?Ep ?Ho ?Hm; cbn [own memb opn done live set_inflight inflight busy_ns jobs max_end last_busy_end]; rewrite ?Z.sub_0_r ?Z.add_0_r; try done.
  - by right.
  - lia.
  - eapply local_insert; [done| |intros j th' Hj _|done]; [|by apply (H3 j)].
    split; [apply (H3 i)|]; done.
Qed.
End transitions.

(** Counting the job. *)
Lemma inv_count c T i th tk st a fe :
  inv c T -> T !! i = Some th -> t_pc th = CJobs tk st a fe ->
  inv (set_jobs (fun v => u64 (v + 1)) c) (<[i:=Thread (t_args th) (CEnd tk st a fe)]> T).
Proof.
  intros HI Hi Ep. pose proof HI as [H1 H2 H3 H4 H5 H6 H7 H8 H9].
  assert (windows (<[i:=Thread (t_args th) (CEnd tk st a fe)]> T) = windows T) as EW.
  { eapply windows_insert_same; [done|]. by rewrite Ep. }
  split; rewrite ?EW; sums Hi; rewrite ?Ep; cbn [own memb opn done live set_jobs inflight busy_ns jobs max_end last_busy_end];
    rewrite ?Z.sub_0_r ?Z.add_0_r; try done.
  - lia.
  - eapply local_insert; [done| |intros j th' Hj _|done]; [|by apply (H3 j)].
    split; [apply (H3 i)|]; done.
  - rewrite H9. unfold wrap. by rewrite Z.add_mod_idemp_l.
Qed.

Lemma cover_bound ws M :
  0 <= M -> (forall w, w ∈ ws -> 0 <= w.1 /\ w.2 <= M) -> union_ns ws <= M.
Proof.
  intros HM Hw. unfold union_ns. transitivity (Z.of_nat (size (wset (0, M)))).
  - apply inj_le, subseteq_size. intros x (w & Hin & Hx)%elem_cover. apply elem_wset. cbn.
    specialize (Hw w Hin). lia.
  - rewrite size_wset. cbn. lia.
Qed.

(** The drain: the whole period is folded once. *)
Lemma inv_fold c T i th tk st a s fe :
  inv c T -> T !! i = Some th -> t_pc th = CFold tk st a s fe ->
  inv (if fe >? s then set_busy (fun v => u64 (v + u64 (fe - s))) c else c)
      (<[i:=Thread (t_args th) (CClose tk st a fe)]> T).
Proof.
  intros HI Hi Ep. pose proof HI as [H1 H2 H3 H4 H5 H6 H7 H8 H9].
  destruct (owner_alone _ _ _ _ HI Hi ltac:(by rewrite Ep)) as (Ho & Hm & Hoth).
  pose proof (H3 i th Hi) as [Hs Hl]. rewrite Ep in Hl. destruct Hl as (Est & Hend & Es & Efe).
  set (T' := <[i:=Thread (t_args th) (CClose tk st a fe)]> T).
  assert (sumz (opn ∘ t_pc) T = 1) as Hop.
  { pose proof (opn_le T). pose proof (sumz_pos (opn ∘ t_pc) T i th opn_nonneg Hi) as Hp.
    cbn in Hp. rewrite Ep in Hp. cbn in Hp. lia. }
  assert (cover (windows T') = filter (fun x => x < last_busy_end c) (cover (windows T)) ∪ wset (s, fe)) as EC.
  { unfold T'. rewrite (cover_insert T i th (Thread (t_args th) (CClose tk st a fe))
      (st, if fe =? 0 then a_end_ns a else fe) Hi ltac:(by rewrite Ep) eq_refl). apply set_eq. intros x.
    rewrite !elem_of_union elem_of_filter !elem_wset. cbn. unfold u64_ok in *. split.
    - intros [Hx|Hx]; [|right; destruct (Z.eqb_spec fe 0); lia].
      pose proof Hx as (w & Hw & Hxw)%elem_cover. destruct (H6 w Hw) as (? & ? & [?|?]); [lia|left; split; [lia|done]|].
      right. lia.
    - intros [[_ ?]|Hx]; [by left|]. right. destruct (Z.eqb_spec fe 0); lia. }
  assert (Z.of_nat (size (cover (windows T'))) = busy_ns c + Z.max 0 (fe - s)) as Esz.
  { rewrite EC size_union; [|intros x [? _]%elem_of_filter ?%elem_wset; cbn in *; lia].
    rewrite Nat2Z.inj_add size_wset -(H8 ltac:(lia)). done. }
  assert (forall w, w ∈ windows T' -> 0 <= w.1 /\ w.2 <= max_end c) as Hwin.
  { intros w (j & t & Hj & Hw)%elem_windows. unfold T' in Hj.
    apply list_lookup_insert_Some in Hj as [(<- & <- & _)|[Hne Hj]].
    - cbn in Hw. injection Hw as <-. unfold u64_ok in *. cbn. destruct (Z.eqb_spec fe 0); lia.
    - destruct (H6 w) as (? & ? & _); [apply elem_windows; eauto|done]. }
  pose proof (cover_bound (windows T') (max_end c) ltac:(unfold u64_ok in *; lia) Hwin) as Hbound.
  unfold union_ns in Hbound. rewrite Esz in Hbound.
  assert (0 <= busy_ns c) by (rewrite (H8 ltac:(lia)); lia).
  assert (exists c', (if fe >? s then set_busy (fun v => u64 (v + u64 (fe - s))) c else c) = c' /\
    busy_ns c' = union_ns (windows T') /\ jobs c' = jobs c /\ last_busy_end c' = last_busy_end c /\
    max_end c' = max_end c /\ inflight c' = inflight c) as (c' & -> & Eb & Ej & El & Em & Ef).
  { eexists. split; [done|]. unfold union_ns. rewrite Esz.
    destruct (Z.gtb_spec fe s); split_and!; try done; cbn; [|lia].
    unfold u64_ok in *. rewrite (wrap_small 64 (fe - s)); [|lia]. rewrite wrap_small; lia. }
  split; rewrite ?Eb ?Ej ?El ?Em ?Ef; unfold T'; sums Hi; rewrite ?Ep ?Ho ?Hm ?Hop; cbn [own memb opn done live];
    rewrite ?Z.sub_0_r ?Z.add_0_r; try done.
  - left. destruct H1 as [(? & _)|[_ ?]]; [done|lia].
  - lia.
  - eapply local_insert; [done| |intros j th' Hj _|done]; [by split|].
    apply (local_ok_same c); [done..|by apply (H3 j)].
  - intros w Hw. destruct (Hwin w Hw). unfold window_ok. rewrite Em. by split_and!.
Qed.

(** The shape of the ring; every ticket has a slot. *)
Definition ring_ok (k : Z) (r : ane_stats_ring) : Prop :=
  0 <= k <= 31 /\ r_n r = 2 ^ k /\ r_mask r = 2 ^ k - 1 /\ zlen (r_slots r) = 2 ^ k.

Lemma slot_index_eq k r tk : ring_ok k r -> slot_index r tk = Z.to_nat (u64 (tk - 1) mod 2 ^ k).
Proof. intros (Hk & _ & Em & _). unfold slot_index. rewrite Em land_mask_mod; [done|lia]. Qed.

Lemma slot_present k r tk : ring_ok k r -> exists e, r_slots r !! slot_index r tk = Some e.
Proof.
  intros Hr. rewrite (slot_index_eq k r tk Hr). destruct Hr as (Hk & _ & _ & Hl).
  apply lookup_in_bounds. rewrite Hl. apply Z.mod_pos_bound. lia.
Qed.

Lemma slot_store_ok k f tk r :
  ring_ok k r -> exists e, r_slots r !! slot_index r tk = Some e /\
    slot_store f tk r = Ret (Ring (r_head r) (r_n r) (r_mask r) (<[slot_index r tk := f e]> (r_slots r))) /\
    ring_ok k (Ring (r_head r) (r_n r) (r_mask r) (<[slot_index r tk := f e]> (r_slots r))).
Proof.
  intros Hr. destruct (slot_present k r tk Hr) as [e He]. exists e. unfold slot_store. rewrite He.
  split_and!; [done..|]. destruct Hr as (Hk & ? & ? & ?). unfold ring_ok. cbn. by rewrite zlen_insert.
Qed.

(** What a step of a thread must establish. *)
Definition step_ok (k : Z) (T : list thread) (i : nat) (b : begin_args) (m : res (mem * pc)) : Prop :=
  exists c' r' p', m = Ret ((c', r'), p') /\ inv c' (<[i:=Thread b p']> T) /\ ring_ok k r'.

Lemma store_step_ok k f tk p T i b q c r :
  inv c T -> ring_ok k r -> T !! i = Some (Thread b q) ->
  own p = own q -> memb p = memb q -> opn p = opn q ->
  done p = done q -> live p <= live q -> window p = window q ->
  local_ok c b p ->
  step_ok k T i b (store_then f tk p (c, r)).
Proof.
  intros HI Hr Hi Ho Hm Hp Hd Hl Hw Hloc. destruct (slot_store_ok k f tk r Hr) as (e & He & Es & Hr').
  unfold step_ok, store_then. cbn [fst snd]. rewrite Es. do 3 eexists. split; [done|]. split; [|done].
  apply (inv_quiet c _ T i (Thread b q)); try done; [apply HI|by left].
Qed.

(** A step that only reads, or moves the ring head. *)
Lemma read_step_ok k p T i b q c r :
  inv c T -> ring_ok k r -> T !! i = Some (Thread b q) ->
  own p = own q -> memb p = memb q -> opn p = opn q ->
  done p = done q -> live p <= live q -> window p = window q ->
  local_ok c b p ->
  step_ok k T i b (Ret ((c, r), p)).
Proof.
  intros HI Hr Hi Ho Hm Hp Hd Hl Hw Hloc. exists c, r, p. split_and!; [done| |done].
  apply (inv_quiet c _ T i (Thread b q)); try done; [apply HI|by left].
Qed.

(** The steps of the two functions that only read or only store a slot. *)
Ltac quiet_step HI Hr Hi Hl :=
  first [eapply store_step_ok; [exact HI|exact Hr|exact Hi|..]
        |eapply read_step_ok; [exact HI|exact Hr|exact Hi|..]];
  cbn [t_args t_pc]; first [exact Hl | done | by split].

Lemma begin_step_ok k T i b p c r :
  inv c T -> ring_ok k r -> T !! i = Some (Thread b p) -> in_begin p = true ->
  step_ok k T i b (ane_stats_begin b p (c, r)).
Proof.
  intros HI Hr Hi Hp. pose proof (inv_local _ _ HI i _ Hi) as Hl. cbn [t_args t_pc] in Hl.
  pose proof (proj1 Hl) as Hsub.
  destruct p; try done; cbn [ane_stats_begin];
    try quiet_step HI Hr Hi Hl.
  - (* BLoop *)
    destruct (Z.eqb_spec cur ANE_STATS_INFLIGHT_TRANS) as [Et|Hnt]; [quiet_step HI Hr Hi Hl|].
    destruct (Z.eqb_spec cur 0) as [->|Hnz].
    + destruct (Z.eqb_spec (inflight c) 0) as [E|Hne];
        [|quiet_step HI Hr Hi Hl].
      do 3 eexists. split_and!; [done| |done]. by apply (inv_take_idle c T i (Thread b (BLoop ticket 0)) HI Hi _ ticket).
    + destruct (Z.eqb_spec (inflight c) cur) as [E|Hne];
        [|quiet_step HI Hr Hi Hl].
      do 3 eexists. split_and!; [done| |done]. subst cur.
      by apply (inv_join c T i (Thread b (BLoop ticket (inflight c))) HI Hi).
  - (* BMaxEnd *)
    pose proof (inv_max _ _ HI). unfold u64_ok in *.
    eapply read_step_ok; [exact HI|exact Hr|exact Hi|done..|]. split; [done|].
    unfold u64_ok. destruct (Z.gtb_spec (a_submit_ns b) (max_end c)); lia.
  - do 3 eexists. split_and!; [done| |done]. by eapply (inv_latch c T i (Thread b (BLatch ticket latch))).
  - do 3 eexists. split_and!; [done| |done]. by eapply (inv_open c T i (Thread b (BOpen ticket))).
Qed.

Lemma atomic64_max_ok i old v :
  0 <= i -> old <= v ->
  let '(v', k) := ane_stats_atomic64_max i old v in
  v <= v' /\ v' <= Z.max v i /\ match k with inl old' => old' = v' /\ v' = v | inr _ => i <= v' end.
Proof.
  intros Hi Ho. unfold ane_stats_atomic64_max. destruct (Z.gtb_spec i old); [|lia].
  destruct (Z.eqb_spec v old); lia.
Qed.

Lemma complete_step_ok k T i b p c r :
  inv c T -> ring_ok k r -> T !! i = Some (Thread b p) -> in_begin p = false ->
  step_ok k T i b (ane_stats_complete p (c, r)).
Proof.
  intros HI Hr Hi Hp. pose proof (inv_local _ _ HI i _ Hi) as Hl. cbn [t_args t_pc] in Hl.
  pose proof (inv_max _ _ HI) as Hmx. pose proof (inv_last _ _ HI) as Hlast.
  assert (memb p = 1 -> 1 <= inflight c < ANE_STATS_INFLIGHT_TRANS) as Hmem.
  { intros Hm. by destruct (member_inflight _ _ _ _ HI Hi Hm) as (_ & ? & _). }
  destruct p; try done; cbn [ane_stats_complete]; try quiet_step HI Hr Hi Hl;
    pose proof Hl as [Hs Hl']; cbn in Hl'; specialize (Hmem eq_refl) || clear Hmem.
  - eapply read_step_ok; [exact HI|exact Hr|exact Hi|done..|]. split; [done|]. cbn. intuition lia.
  - eapply read_step_ok; [exact HI|exact Hr|exact Hi|done..|]. split; [done|]. cbn. intuition lia.
  - (* CMax *)
    destruct Hl' as (Est & Hend & Hcur & Hold).
    pose proof (atomic64_max_ok (a_end_ns a) old (max_end c) (proj1 Hend) Hold) as Hmax.
    destruct (ane_stats_atomic64_max (a_end_ns a) old (max_end c)) as [v kk]. destruct Hmax as (Hv & Hle & Hkk).
    do 3 eexists. split_and!; [done| |done]. unfold u64_ok in *.
    apply (inv_quiet c _ T i (Thread b (CMax ticket st a cur old))); try done; try by destruct kk.
    + unfold u64_ok. cbn. lia.
    + by right.
    + destruct kk; (split; [done|]); cbn; unfold u64_ok; intuition lia.
  - (* CLoop *)
    destruct Hl' as (Est & Hend & Hcur).
    destruct (Z.eqb_spec cur ANE_STATS_INFLIGHT_TRANS) as [Et|Hnt].
    { eapply read_step_ok; [exact HI|exact Hr|exact Hi|done..|]. split; [done|]. cbn. intuition lia. }
    destruct (Z.gtb_spec cur 1) as [Hgt|Hle].
    + destruct (Z.eqb_spec (inflight c) cur) as [E|Hne].
      * subst cur. do 3 eexists. split_and!; [done| |done].
        by eapply (inv_leave c T i (Thread b (CLoop ticket st a (inflight c)))).
      * eapply read_step_ok; [exact HI|exact Hr|exact Hi|done..|]. split; [done|]. cbn. intuition lia.
    + destruct (Z.eqb_spec cur 0) as [E|_]; [lia|].
      destruct (Z.eqb_spec (inflight c) 1) as [E|Hne].
      * do 3 eexists. split_and!; [done| |done].
        by eapply (inv_take_last c T i (Thread b (CLoop ticket st a cur))).
      * eapply read_step_ok; [exact HI|exact Hr|exact Hi|done..|]. by split.
  - eapply read_step_ok; [exact HI|exact Hr|exact Hi|done..|]. split; [done|]. cbn. intuition lia.
  - eapply read_step_ok; [exact HI|exact Hr|exact Hi|done..|]. split; [done|]. cbn. intuition lia.
  - eapply read_step_ok; [exact HI|exact Hr|exact Hi|done..|]. split; [done|]. cbn.
    destruct (Z.ltb_spec (max_end c) (a_end_ns a)); intuition lia.
  - do 3 eexists. split_and!; [done| |done]. by apply (inv_fold c T i (Thread b (CFold ticket st a s fold_end))).
  - do 3 eexists. split_and!; [done| |done]. by eapply (inv_close c T i (Thread b (CClose ticket st a fold_end))).
  - do 3 eexists. split_and!; [done| |done].
    by apply (inv_count c T i (Thread b (CJobs ticket st a fold_end))).
Qed.

(** ** What the ring holds before it wraps *)

Definition ticket_of (p : pc) : option Z :=
  match p with
  | BTicket => None
  | BCur tk | BLoop tk _ | BMaxEnd tk | BLatch tk _ | BOpen tk | BSeq tk | BSubmit tk | BStartRd tk
  | BStart tk _ | BEnd tk _ | BTasks tk _ | BRc tk _ | BTmst tk _ | BRet tk _ | CCur tk _ _
  | CMaxRd tk _ _ _ | CMax tk _ _ _ _ | CLoop tk _ _ _ | CReread tk _ _ | CStart tk _ _
  | CFoldRd tk _ _ _ | CFold tk _ _ _ _ | CClose tk _ _ _ | CJobs tk _ _ _ | CEnd tk _ _ _
  | CRc tk _ _ _ | CTmst tk _ _ _ | CSeq tk _ _ _ | CRet tk _ _ _ => Some tk
  end.

Definition ticketed (p : pc) : Z := match p with BTicket => 0 | _ => 1 end.

(** The slot of a submission, store by store. *)
Definition entry_of (b : begin_args) (p : pc) : ane_stats_ring_entry :=
  let odd tk := u64 (2 * tk - 1) in
  let sub := a_submit_ns b in
  let open tk st := RingEntry (odd tk) sub st sub (a_tasks b) 0xFFFFFFFF 0 in
  let fin a fe := if fe =? 0 then a_end_ns a else fe in
  match p with
  | BTicket | BCur _ | BLoop _ _ | BMaxEnd _ | BLatch _ _ | BOpen _ | BSeq _ => zero_entry
  | BSubmit tk => RingEntry (odd tk) 0 0 0 0 0 0
  | BStartRd tk | BStart tk _ => RingEntry (odd tk) sub 0 0 0 0 0
  | BEnd tk st => RingEntry (odd tk) sub st 0 0 0 0
  | BTasks tk st => RingEntry (odd tk) sub st sub 0 0 0
  | BRc tk st => RingEntry (odd tk) sub st sub (a_tasks b) 0 0
  | BTmst tk st => RingEntry (odd tk) sub st sub (a_tasks b) 0xFFFFFFFF 0
  | BRet tk st | CCur tk st _ | CMaxRd tk st _ _ | CMax tk st _ _ _ | CLoop tk st _ _
  | CReread tk st _ | CStart tk st _ | CFoldRd tk st _ _ | CFold tk st _ _ _ | CClose tk st _ _
  | CJobs tk st _ _ | CEnd tk st _ _ => open tk st
  | CRc tk st a fe => RingEntry (odd tk) sub st (fin a fe) (a_tasks b) 0xFFFFFFFF 0
  | CTmst tk st a fe => RingEntry (odd tk) sub st (fin a fe) (a_tasks b) (a_rc a) 0
  | CSeq tk st a fe => RingEntry (odd tk) sub st (fin a fe) (a_tasks b) (a_rc a) (a_tmst a)
  | CRet tk st a fe => RingEntry (u64 (2 * tk)) sub st (fin a fe) (a_tasks b) (a_rc a) (a_tmst a)
  end.

Record ring_inv (k : Z) (r : ane_stats_ring) (T : list thread) : Prop := RingInv {
  ri_head : r_head r = sumz (ticketed ∘ t_pc) T;
  ri_range : forall i th tk, T !! i = Some th -> ticket_of (t_pc th) = Some tk -> 1 <= tk <= r_head r;
  ri_inj : forall i j th th' tk, T !! i = Some th -> T !! j = Some th' ->
    ticket_of (t_pc th) = Some tk -> ticket_of (t_pc th') = Some tk -> i = j;
  ri_slot : forall i th tk, T !! i = Some th -> ticket_of (t_pc th) = Some tk ->
    r_slots r !! Z.to_nat (tk - 1) = Some (entry_of (t_args th) (t_pc th));
  ri_free : forall j, r_head r <= j < 2 ^ k -> r_slots r !! Z.to_nat j = Some zero_entry;
  ri_surj : forall tk, 1 <= tk <= r_head r ->
    exists i th, T !! i = Some th /\ ticket_of (t_pc th) = Some tk;
}.

Lemma surj_insert (T : list thread) (i : nat) b q p tk tk' :
  T !! i = Some (Thread b q) -> ticket_of q = Some tk -> ticket_of p = Some tk ->
  (exists j th, T !! j = Some th /\ ticket_of (t_pc th) = Some tk') ->
  exists j th, <[i:=Thread b p]> T !! j = Some th /\ ticket_of (t_pc th) = Some tk'.
Proof.
  intros Hi Hq Hp (j & th & Hj & Ht). destruct (decide (i = j)) as [<-|Hne].
  - exists i, (Thread b p). split; [apply list_lookup_insert_eq; by eapply lookup_lt_Some|].
    cbn. rewrite Hi in Hj. injection Hj as <-. cbn in Ht. congruence.
  - exists j, th. by rewrite list_lookup_insert_ne.
Qed.

Lemma ticketed_nonneg th : 0 <= (ticketed ∘ t_pc) th.
Proof. cbn. destruct (t_pc th); cbn; lia. Qed.

Lemma ticketed_le T : 0 <= sumz (ticketed ∘ t_pc) T <= zlen T.
Proof.
  rewrite -(Z.mul_1_r (zlen T)). apply sumz_bounds. intros th _. cbn. destruct (t_pc th); cbn; lia.
Qed.

Lemma ticketed_of p tk : ticket_of p = Some tk -> ticketed p = 1.
Proof. by destruct p. Qed.

Lemma slot_index_small k r tk :
  ring_ok k r -> 1 <= tk <= 2 ^ k -> slot_index r tk = Z.to_nat (tk - 1).
Proof.
  intros Hr Htk. rewrite (slot_index_eq k r tk Hr). destruct Hr as (Hk & _).
  pose proof (Z.pow_le_mono_r 2 k 31). rewrite wrap_small; [|lia]. by rewrite Z.mod_small; [|lia].
Qed.

(** A step that leaves the ring alone. *)
Lemma ring_same k r T i b q p tk :
  ring_inv k r T -> T !! i = Some (Thread b q) ->
  ticket_of q = Some tk -> ticket_of p = Some tk -> entry_of b p = entry_of b q ->
  ring_inv k r (<[i:=Thread b p]> T).
Proof.
  intros [H1 H2 H3 H4 H5 H6] Hi Hq Hp He.
  assert (forall j th tk', <[i:=Thread b p]> T !! j = Some th -> ticket_of (t_pc th) = Some tk' ->
    exists th', T !! j = Some th' /\ ticket_of (t_pc th') = Some tk' /\
      entry_of (t_args th) (t_pc th) = entry_of (t_args th') (t_pc th')) as Hback.
  { intros j th tk' Hj Ht. apply list_lookup_insert_Some in Hj as [(<- & <- & _)|[_ Hj]]; [|eauto].
    exists (Thread b q). cbn in *. split_and!; congruence. }
  split.
  - rewrite (sumz_insert _ _ _ _ _ Hi) H1. cbn. rewrite (ticketed_of _ _ Hq) (ticketed_of _ _ Hp). lia.
  - intros j th tk' Hj Ht. destruct (Hback j th tk' Hj Ht) as (th' & Hj' & Ht' & _). eauto.
  - intros j j' th th' tk' Hj Hj' Ht Ht'. destruct (Hback _ _ _ Hj Ht) as (? & ? & ? & _).
    destruct (Hback _ _ _ Hj' Ht') as (? & ? & ? & _). eauto.
  - intros j th tk' Hj Ht. destruct (Hback _ _ _ Hj Ht) as (th' & Hj' & Ht' & ->). eauto.
  - done.
  - intros tk' Htk'. eapply surj_insert; eauto.
Qed.

(** A store to the thread's own slot. *)
Lemma ring_store k r T i b q p tk f r' :
  ring_inv k r T -> ring_ok k r -> zlen T <= 2 ^ k -> T !! i = Some (Thread b q) ->
  ticket_of q = Some tk -> ticket_of p = Some tk -> f (entry_of b q) = entry_of b p ->
  slot_store f tk r = Ret r' -> ring_inv k r' (<[i:=Thread b p]> T).
Proof.
  intros [H1 H2 H3 H4 H5 H6] Hr Hn Hi Hq Hp He Hs.
  pose proof (ticketed_le T). pose proof (H2 i _ tk Hi Hq) as Htk. pose proof (H4 i _ tk Hi Hq) as Hslot.
  unfold slot_store in Hs. rewrite (slot_index_small k r tk Hr) in Hs; [|lia]. rewrite Hslot in Hs.
  cbn [t_args t_pc] in Hs. rewrite He in Hs. injection Hs as <-.
  assert (forall j th tk', <[i:=Thread b p]> T !! j = Some th -> ticket_of (t_pc th) = Some tk' ->
    exists th', T !! j = Some th' /\ ticket_of (t_pc th') = Some tk') as Hback.
  { intros j th tk' Hj Ht. apply list_lookup_insert_Some in Hj as [(<- & <- & _)|[_ Hj]]; [|eauto].
    exists (Thread b q). cbn in *. split; [done|congruence]. }
  split; cbn [r_head r_slots].
  - rewrite (sumz_insert _ _ _ _ _ Hi) H1. cbn. rewrite (ticketed_of _ _ Hq) (ticketed_of _ _ Hp). lia.
  - intros j th tk' Hj Ht. destruct (Hback _ _ _ Hj Ht) as (? & ? & ?). eauto.
  - intros j j' th th' tk' Hj Hj' Ht Ht'. destruct (Hback _ _ _ Hj Ht) as (? & ? & ?).
    destruct (Hback _ _ _ Hj' Ht') as (? & ? & ?). eauto.
  - intros j th tk' Hj Ht. apply list_lookup_insert_Some in Hj as [(<- & <- & _)|[Hne Hj]].
    + cbn in *. replace tk' with tk by congruence. apply list_lookup_insert_eq. by eapply lookup_lt_Some.
    + rewrite list_lookup_insert_ne; [by eauto|]. intros E. pose proof (H2 _ _ _ Hj Ht).
      apply Hne. eapply (H3 _ _ _ _ tk' Hi Hj); [|done]. rewrite Hq. f_equal. lia.
  - intros j Hj. rewrite list_lookup_insert_ne; [by apply H5|]. lia.
  - intros tk' Htk'. eapply surj_insert; eauto.
Qed.

(** Drawing a ticket. *)
Lemma ring_ticket k r T i b :
  ring_inv k r T -> ring_ok k r -> zlen T <= 2 ^ k -> T !! i = Some (Thread b BTicket) ->
  ring_inv k (Ring (u64 (r_head r + 1)) (r_n r) (r_mask r) (r_slots r))
    (<[i:=Thread b (BCur (u64 (r_head r + 1)))]> T).
Proof.
  intros [H1 H2 H3 H4 H5 H6] Hr Hn Hi. destruct Hr as (Hk & _).
  pose proof (sumz_insert (ticketed ∘ t_pc) T i (Thread b (BCur 0)) _ Hi) as E. cbn in E.
  pose proof (ticketed_le (<[i:=Thread b (BCur 0)]> T)) as Hle. rewrite zlen_insert E in Hle.
  pose proof (Z.pow_le_mono_r 2 k 31). pose proof (ticketed_le T).
  rewrite wrap_small; [|lia]. split; cbn [r_head r_slots].
  - rewrite (sumz_insert _ _ _ _ _ Hi). cbn. lia.
  - intros j th tk Hj Ht. apply list_lookup_insert_Some in Hj as [(<- & <- & _)|[Hne Hj]].
    + cbn in Ht. injection Ht as <-. lia.
    + specialize (H2 _ _ _ Hj Ht). lia.
  - intros j j' th th' tk Hj Hj' Ht Ht'.
    apply list_lookup_insert_Some in Hj as [(<- & <- & _)|[Hne Hj]];
      apply list_lookup_insert_Some in Hj' as [(<- & <- & _)|[Hne' Hj']]; [done| | |by eauto].
    + cbn in Ht. injection Ht as <-. specialize (H2 _ _ _ Hj' Ht'). lia.
    + cbn in Ht'. injection Ht' as <-. specialize (H2 _ _ _ Hj Ht). lia.
  - intros j th tk Hj Ht. apply list_lookup_insert_Some in Hj as [(<- & <- & _)|[Hne Hj]]; [|by eauto].
    cbn in *. injection Ht as <-. rewrite -(H5 (r_head r)); [do 2 f_equal; lia|lia].
  - intros j Hj. apply H5. lia.
  - intros tk Htk. destruct (Z.eq_dec tk (r_head r + 1)) as [->|Hne].
    + eexists i, _. split; [apply list_lookup_insert_eq; by eapply lookup_lt_Some|done].
    + destruct (H6 tk ltac:(lia)) as (j & th & Hj & Ht). exists j, th. split; [|done].
      rewrite list_lookup_insert_ne; [done|]. intros <-. rewrite Hi in Hj. by injection Hj as <-.
Qed.

Lemma thread_step_ring k r T i th c c' r' p :
  ring_inv k r T -> ring_ok k r -> zlen T <= 2 ^ k -> T !! i = Some th ->
  thread_step th (c, r) = Ret ((c', r'), p) -> ring_inv k r' (<[i:=Thread (t_args th) p]> T).
Proof.
  destruct th as [b q]. intros HR Hr Hn Hi. unfold thread_step. cbn [t_args t_pc].
  destruct q; cbn [in_begin ane_stats_begin ane_stats_complete]; intros Hs;
    try (unfold store_then in Hs; apply bind_Ret_inv in Hs as (r1 & Hs & E); injection E as <- <- <-;
         eapply ring_store; eauto; done);
    repeat (case_match; try discriminate Hs); injection Hs as <- <- <-;
    first [by apply ring_ticket | by eapply ring_same].
Qed.

(** ** The readers' view *)

(** The line of a committed entry. *)
Definition line_of (e : ane_stats_ring_entry) : line :=
  Line (e_seq e) (e_submit_ns e) (e_start_ns e) (e_end_ns e) (e_tasks e) (e_rc e) (e_tmst e).

(** The entries of the submissions that completed. *)
Definition completed (T : list thread) (tk : Z) (e : ane_stats_ring_entry) : Prop :=
  exists i b st a fe, T !! i = Some (Thread b (CRet tk st a fe)) /\ e = entry_of b (CRet tk st a fe).

Definition prefix_read (n : nat) (x e : ane_stats_ring_entry) : Prop :=
  ((1 <= n)%nat -> e_submit_ns x = e_submit_ns e) /\
  ((2 <= n)%nat -> e_start_ns x = e_start_ns e) /\
  ((3 <= n)%nat -> e_end_ns x = e_end_ns e) /\
  ((4 <= n)%nat -> e_tasks x = e_tasks e) /\
  ((5 <= n)%nat -> e_rc x = e_rc e).

(** A reader between its loads: if the first one saw the final sequence, what
    it loaded since comes from that completed submission. *)
Definition reading (r : ane_stats_ring) (T : list thread) (h l i : Z) (n : nat)
    (x : ane_stats_ring_entry) : Prop :=
  0 <= i < l /\ l <= h <= r_head r /\
  (e_seq x = u64 (2 * (h - i)) -> exists e, completed T (h - i) e /\ prefix_read n x e).

Definition show_ok (r : ane_stats_ring) (T : list thread) (p : show_pc) : Prop :=
  match p with
  | THead | TRet => True
  | TSeq h l i => 0 <= i < l /\ l <= h <= r_head r
  | TSubmit h l i x => reading r T h l i 0 x
  | TStart h l i x => reading r T h l i 1 x
  | TEnd h l i x => reading r T h l i 2 x
  | TTasks h l i x => reading r T h l i 3 x
  | TRc h l i x => reading r T h l i 4 x
  | TTmst h l i x => reading r T h l i 5 x
  end.

Definition lines_ok (T : list thread) (out : list line) : Prop :=
  Forall (fun l => exists tk e, completed T tk e /\ l = line_of e) out.

Lemma completed_slot k r T tk e :
  ring_inv k r T -> completed T tk e ->
  r_slots r !! Z.to_nat (tk - 1) = Some e /\ e_seq e = u64 (2 * tk) /\ 1 <= tk <= r_head r.
Proof.
  intros HR (i & b & st & a & fe & Hi & ->).
  split_and!; [by apply (ri_slot _ _ _ HR i _ tk Hi)|done|by apply (ri_range _ _ _ HR i _ tk Hi)..].
Qed.

(** Only a completed submission shows the final sequence. *)
Lemma final_seq_completed k r T tk e :
  ring_inv k r T -> ring_ok k r -> zlen T <= 2 ^ k -> 1 <= tk <= r_head r ->
  r_slots r !! slot_index r tk = Some e -> e_seq e = u64 (2 * tk) -> completed T tk e.
Proof.
  intros HR Hr Hn Htk He Hs. pose proof (ticketed_le T). pose proof (ri_head _ _ _ HR) as Hh.
  rewrite (slot_index_small k r tk Hr) in He; [|lia].
  destruct (ri_surj _ _ _ HR tk Htk) as (i & [b p] & Hi & Ht). cbn in Ht.
  pose proof (ri_slot _ _ _ HR i _ tk Hi Ht) as Hsl. rewrite He in Hsl. injection Hsl as ->.
  cbn [t_args t_pc] in *. destruct Hr as (Hk & _). pose proof (Z.pow_le_mono_r 2 k 31).
  destruct p; cbn in Ht; try discriminate Ht; injection Ht as ->; cbn in Hs;
    try (rewrite ?(wrap_small 64 (2 * tk - 1)) ?(wrap_small 64 (2 * tk)) in Hs; lia).
  by exists i, b, st, a, fold_end.
Qed.

(** A step of the reader before the ring wraps. *)
Lemma show_step_ok k r T p p' ls :
  ring_inv k r T -> ring_ok k r -> zlen T <= 2 ^ k -> show_ok r T p ->
  ane_timeline_show r p = Ret (p', ls) -> show_ok r T p' /\ lines_ok T ls.
Proof.
  intros HR Hr Hn. pose proof (ticketed_le T). pose proof (ri_head _ _ _ HR) as Hh.
  assert (forall h l i, 0 <= i -> l <= h <= r_head r -> show_ok r T (show_next h l i)) as Hnext.
  { intros h l i ? ?. unfold show_next. destruct (Z.ltb_spec i l); cbn; [lia|done]. }
  assert (forall h i e e0, r_slots r !! slot_index r (h - i) = Some e0 -> completed T (h - i) e -> e0 = e) as Hsame.
  { intros h i e e0 H0 Hc. destruct (completed_slot k r T _ e HR Hc) as (Hs & _ & ?).
    rewrite (slot_index_small k r _ Hr) in H0; [|lia]. congruence. }
  destruct p; cbn [ane_timeline_show show_ok]; intros Hok Hs.
  1: { injection Hs as <- <-. split; [|constructor]. apply Hnext; [done|].
       destruct Hr as (_ & _ & Em & _). rewrite Em. destruct (Z.ltb_spec (r_head r) (2 ^ k - 1 + 1)); lia. }
  8: { injection Hs as <- <-. split; [done|constructor]. }
  all: destruct (r_slots r !! slot_index r (head - i)) as [e0|] eqn:E0; [|done]; cbn in Hs; injection Hs as <- <-.
  1: { split; [|constructor]. split_and!; [lia..|]. cbn. intros Hq. exists e0. split; [|by split_and!; lia].
       eapply final_seq_completed; eauto. lia. }
  all: destruct Hok as (Hi & Hl & Hseq).
  1-5: split; [|constructor]; split_and!; [lia..|]; cbn; intros Hq; destruct (Hseq Hq) as (e1 & Hc & Hp);
       exists e1; split; [done|]; rewrite (Hsame head i e1 e0 E0 Hc); destruct Hp as (P1 & P2 & P3 & P4 & P5);
       split_and!; cbn; intros; try done; try lia; auto with lia.
  split; [apply Hnext; lia|]. destruct (Z.eqb_spec (e_seq e) (u64 (2 * (head - i)))) as [Hq|]; constructor; [|constructor].
  destruct (Hseq Hq) as (e1 & Hc & P1 & P2 & P3 & P4 & P5). exists (head - i), e1. split; [done|].
  rewrite (Hsame head i e1 e0 E0 Hc). destruct (completed_slot k r T _ e1 HR Hc) as (_ & Es & _).
  unfold line_of. rewrite Es. f_equal; auto with lia.
Qed.

(** ** Reachable states *)

Record sys_inv (k : Z) (s : sys) : Prop := SysInv {
  si_inv : inv (s_mem s).1 (s_threads s);
  si_ring : ring_ok k (s_mem s).2;
  si_slots : zlen (s_threads s) <= 2 ^ k -> ring_inv k (s_mem s).2 (s_threads s);
  si_show : zlen (s_threads s) <= 2 ^ k ->
    Forall (fun x => show_ok (s_mem s).2 (s_threads s) x.1 /\ lines_ok (s_threads s) x.2) (s_shows s);
}.

(** The completed submissions and the ring head only grow. *)
Definition grows (r r' : ane_stats_ring) (T T' : list thread) : Prop :=
  r_head r <= r_head r' /\ forall tk e, completed T tk e -> completed T' tk e.

Lemma show_ok_grows r r' T T' p : grows r r' T T' -> show_ok r T p -> show_ok r' T' p.
Proof.
  intros [Hh Hc]. destruct p; cbn; try done; try lia.
  all: intros (? & ? & Hs); split_and!; [lia..|]; intros Hq; destruct (Hs Hq) as (e1 & He & ?); eauto.
Qed.

Lemma lines_ok_grows r r' T T' out : grows r r' T T' -> lines_ok T out -> lines_ok T' out.
Proof. intros [_ Hc] H. eapply Forall_impl; [exact H|]. intros l (tk & e & He & ->). eauto. Qed.

Lemma shows_grow r r' T T' (sh : list (show_pc * list line)) :
  grows r r' T T' ->
  Forall (fun x => show_ok r T x.1 /\ lines_ok T x.2) sh ->
  Forall (fun x => show_ok r' T' x.1 /\ lines_ok T' x.2) sh.
Proof.
  intros Hg H. eapply Forall_impl; [exact H|]. intros x [? ?].
  split; [by eapply show_ok_grows|by eapply lines_ok_grows].
Qed.

Lemma completed_insert (T : list thread) i th p tk e :
  T !! i = Some th -> (live (t_pc th) = 0 -> p = t_pc th) -> completed T tk e ->
  completed (<[i:=Thread (t_args th) p]> T) tk e.
Proof.
  intros Hi Hp (j & b & st & a & fe & Hj & ->). exists j, b, st, a, fe. split; [|done].
  destruct (decide (i = j)) as [<-|Hne]; [|by rewrite list_lookup_insert_ne].
  rewrite Hi in Hj. injection Hj as ->. cbn in *. rewrite (Hp eq_refl).
  apply list_lookup_insert_eq. by eapply lookup_lt_Some.
Qed.

Lemma thread_step_final th m m' p :
  thread_step th m = Ret (m', p) -> live (t_pc th) = 0 -> p = t_pc th.
Proof. destruct th as [b q], m. cbn. unfold thread_step. destruct q; cbn; try done. by intros [= _ <-]. Qed.

Lemma thread_step_head k c r T i th c' r' p :
  ring_inv k r T -> ring_inv k r' (<[i:=Thread (t_args th) p]> T) -> T !! i = Some th ->
  thread_step th (c, r) = Ret ((c', r'), p) -> r_head r <= r_head r'.
Proof.
  intros HR HR' Hi Hs. rewrite (ri_head _ _ _ HR) (ri_head _ _ _ HR') (sumz_insert _ _ _ _ _ Hi). cbn.
  assert (ticketed (t_pc th) <= ticketed p); [|lia].
  destruct th as [b q]. unfold thread_step in Hs. cbn in *. destruct p; cbn; try (destruct q; cbn; lia).
  destruct q; cbn in Hs; unfold store_then in Hs;
    repeat (case_match || (apply bind_Ret_inv in Hs as (? & _ & Hs))); cbn; try lia; discriminate Hs.
Qed.

Lemma inv_append c T submit tasks :
  inv c T -> sumz (live ∘ t_pc) T < LIVE_MAX ->
  inv c (T ++ [Thread (BeginArgs (u64 submit) tasks) BTicket]).
Proof.
  intros [H1 H2 H3 H4 H5 H6 H7 H8 H9] Hl.
  assert (windows (T ++ [Thread (BeginArgs (u64 submit) tasks) BTicket]) = windows T) as EW.
  { unfold windows. rewrite omap_app. cbn. by rewrite app_nil_r. }
  split; rewrite ?EW ?sumz_app; cbn [sumz foldr compose t_pc own memb opn live done]; rewrite ?Z.add_0_r; try done.
  - cbn. lia.
  - intros i th Hi. apply lookup_app_Some in Hi as [Hi|[_ Hi]]; [by apply (H3 i)|].
    apply list_lookup_singleton_Some in Hi as [_ <-]. split; [|done]. apply (wrap_range 64). lia.
Qed.

Lemma ring_append k r T b :
  ring_inv k r T -> ring_inv k r (T ++ [Thread b BTicket]).
Proof.
  intros [H1 H2 H3 H4 H5 H6].
  assert (forall i th tk, (T ++ [Thread b BTicket]) !! i = Some th -> ticket_of (t_pc th) = Some tk ->
    T !! i = Some th) as Hback.
  { intros i th tk Hi Ht. apply lookup_app_Some in Hi as [Hi|[_ Hi]]; [done|].
    apply list_lookup_singleton_Some in Hi as [_ <-]. done. }
  split; eauto.
  - rewrite sumz_app. cbn. lia.
  - intros tk Htk. destruct (H6 tk Htk) as (i & th & Hi & Ht). exists i, th. split; [|done].
    by apply lookup_app_l_Some.
Qed.

Lemma completed_append (T : list thread) x tk e : completed T tk e -> completed (T ++ [x]) tk e.
Proof.
  intros (j & b & st & a & fe & Hj & ->). exists j, b, st, a, fe. split; [|done]. by apply lookup_app_l_Some.
Qed.

Lemma sys_step_inv k s ev : sys_inv k s -> exists s', sys_step s ev = Ret s' /\ sys_inv k s'.
Proof.
  destruct s as [[c r] T sn sh]. intros HS. pose proof HS as [HI Hr HR HW]. cbn in *.
  destruct ev as [submit tasks|i e rc tmst|i| |j now| |j]; cbn [sys_step].
  - destruct (Z.ltb_spec (sumz (live ∘ t_pc) T) LIVE_MAX) as [Hl|]; [|by eexists].
    eexists. split; [done|]. split; cbn; [by apply inv_append|done|..]; rewrite zlen_app;
      change (zlen [_]) with 1; intros Hn.
    + apply ring_append, HR. lia.
    + eapply shows_grow; [|apply HW; lia]. split; [done|]. intros. by apply completed_append.
  - destruct (T !! i) as [[b p]|] eqn:Hi; [|by eexists]. destruct p; try by eexists.
    eexists. split; [done|]. pose proof (inv_local _ _ HI i _ Hi) as [Hs Hl]. split; cbn; [|done|..].
    + apply (inv_quiet c c T i (Thread b (BRet ticket st))); try done; [apply HI|by left|].
      split; [done|]. cbn in *. split; [done|]. apply (wrap_range 64). lia.
    + rewrite zlen_insert. intros Hn. by eapply ring_same; [apply HR| | |..].
    + rewrite zlen_insert. intros Hn. eapply shows_grow; [|by apply HW]. split; [done|]. intros.
      by apply (completed_insert T i (Thread b (BRet ticket st))).
  - destruct (T !! i) as [th|] eqn:Hi; [|by eexists].
    assert (step_ok k T i (t_args th) (thread_step th (c, r))) as (c' & r' & p & Es & HI' & Hr').
    { unfold thread_step. destruct th as [b p]. cbn [t_args t_pc]. destruct (in_begin p) eqn:Hb;
        [by apply begin_step_ok|by apply complete_step_ok]. }
    rewrite Es. cbn. eexists. split; [done|].
    assert (zlen T <= 2 ^ k -> ring_inv k r' (<[i:=Thread (t_args th) p]> T)) as HR'.
    { intros Hn. by eapply (thread_step_ring k r T i th c); eauto. }
    split; cbn; [done..| |]; rewrite zlen_insert; [done|]. intros Hn.
    eapply shows_grow; [|by apply HW]. split.
    + by eapply (thread_step_head k c r T); eauto.
    + intros. apply completed_insert; [done| |done]. by eapply thread_step_final.
  - by eexists.
  - by eexists.
  - eexists. split; [done|]. split; cbn; try done. intros Hn. apply Forall_app. split; [by apply HW|].
    constructor; [|constructor]. split; [done|constructor].
  - destruct (sh !! j) as [[p out]|] eqn:Hj; [|by eexists].
    assert (exists p' ls, ane_timeline_show r p = Ret (p', ls)) as (p' & ls & Es).
    { destruct p; cbn; try (destruct (slot_present k r (head - i) Hr) as [e0 ->]); cbn; eauto. }
    rewrite Es. cbn. eexists. split; [done|]. split; cbn; try done. intros Hn.
    apply Forall_insert; [by apply HW|].
    destruct (Forall_lookup_1 _ _ _ _ (HW Hn) Hj) as [Hp Ho]. cbn in *.
    destruct (show_step_ok k r T p p' ls (HR Hn) Hr Hn Hp Es) as [? ?]. split; [done|].
    by apply Forall_app.
Qed.

Lemma stats_init_inv k : 0 <= k <= 31 -> sys_inv k (stats_init k).
Proof.
  intros Hk. pose proof (Z.pow_le_mono_r 2 k 31). assert (0 < 2 ^ k) by lia.
  assert (u32 (Z.shiftl 1 k) = 2 ^ k) as E.
  { rewrite Z.shiftl_mul_pow2; [|lia]. rewrite wrap_small; lia. }
  unfold stats_init, ane_stats_counters_init. rewrite E. rewrite (wrap_small 32 (2 ^ k - 1)); [|lia].
  split; cbn.
  - split; cbn; unfold u64_ok, LIVE_MAX; try done; try lia; try (by right).
    intros w Hw. by apply elem_of_nil in Hw.
  - split_and!; cbn; [lia..|]. rewrite zlen_replicate. lia.
  - intros _. split; cbn; try done.
    + intros j Hj. apply lookup_replicate_2. lia.
    + intros tk Htk. lia.
  - intros _. constructor.
Qed.

(** Any interleaving keeps the invariant and no access is outside the ring. *)
Lemma stats_run_inv k evs : 0 <= k <= 31 -> exists s, run k evs = Ret s /\ sys_inv k s.
Proof.
  intros Hk. unfold run. pose proof (stats_init_inv k Hk) as HI. revert HI. generalize (stats_init k).
  induction evs as [|ev evs IH]; intros s HI; [by exists s|]. cbn [foldM].
  destruct (sys_step_inv k s ev HI) as (s' & -> & HI'). by apply IH.
Qed.

(** ** Properties *)

(** Every submission that began has completed. *)
Definition quiescent (s : sys) : Prop := Forall (fun th => live (t_pc th) = 0) (s_threads s).

(** The windows of the committed entries of the ring. *)
Definition ring_windows (r : ane_stats_ring) : list (Z * Z) :=
  omap (fun e => if Z.even (e_seq e) && negb (e_seq e =? 0) then Some (e_start_ns e, e_end_ns e) else None)
    (r_slots r).

(** [begin] then [complete], alone. *)
Definition submission (i : nat) (submit end_ns : Z) : list event :=
  [EBegin submit 1] ++ replicate 14 (EStep i) ++ [EComplete i end_ns 0 0] ++ replicate 15 (EStep i).

Lemma quiescent_counts (T : list thread) :
  Forall (fun th => live (t_pc th) = 0) T ->
  sumz (own ∘ t_pc) T = 0 /\ sumz (memb ∘ t_pc) T = 0 /\ sumz (opn ∘ t_pc) T = 0 /\
  sumz (done ∘ t_pc) T = zlen T.
Proof.
  induction 1 as [|th T Hth _ IH]; [done|]. rewrite !sumz_cons. cbn [compose].
  destruct IH as (-> & -> & -> & ->). destruct (t_pc th); cbn in *; try done.
  split_and!; try done. unfold zlen. cbn [length]. lia.
Qed.

(** In a state of rest the committed ring entries cover what the windows do. *)
Lemma ring_windows_cover k r T :
  ring_inv k r T -> ring_ok k r -> zlen T <= 2 ^ k -> Forall (fun th => live (t_pc th) = 0) T ->
  cover (ring_windows r) = cover (windows T).
Proof.
  intros HR Hr Hn Hq. pose proof (ticketed_le T). pose proof (ri_head _ _ _ HR) as Hh.
  pose proof Hr as (Hk & _ & _ & Hlen). pose proof (Z.pow_le_mono_r 2 k 31).
  assert (forall w, w ∈ ring_windows r <-> w ∈ windows T) as Hw.
  { intros w. unfold ring_windows. rewrite list_elem_of_omap elem_windows. split.
    - intros (e & [j Hj]%list_elem_of_lookup & He).
      destruct (Z.even (e_seq e) && negb (e_seq e =? 0)) eqn:Ee; [|done]. injection He as <-.
      apply andb_true_iff in Ee as [Hev Hnz]. apply negb_true_iff, Z.eqb_neq in Hnz.
      pose proof (lookup_lt_Some _ _ _ Hj). unfold zlen in Hlen.
      destruct (Z.lt_ge_cases (Z.of_nat j) (r_head r)) as [Hlt|Hge].
      + destruct (ri_surj _ _ _ HR (Z.of_nat j + 1) ltac:(lia)) as (i & th & Hi & Ht).
        pose proof (ri_slot _ _ _ HR i th _ Hi Ht) as Hs.
        replace (Z.to_nat (Z.of_nat j + 1 - 1)) with j in Hs by lia. rewrite Hj in Hs. injection Hs as ->.
        exists i, th. split; [done|]. pose proof (Forall_lookup_1 _ _ _ _ Hq Hi) as Hl.
        destruct th as [b p]. cbn in *. by destruct p.
      + pose proof (ri_free _ _ _ HR (Z.of_nat j) ltac:(lia)) as Hz. rewrite Nat2Z.id Hj in Hz.
        by injection Hz as ->.
    - intros (i & th & Hi & Hwin). pose proof (Forall_lookup_1 _ _ _ _ Hq Hi) as Hl.
      destruct th as [b p]. cbn in Hl, Hwin. destruct p; try done. injection Hwin as <-.
      pose proof (ri_slot _ _ _ HR i _ ticket Hi eq_refl) as Hs.
      pose proof (ri_range _ _ _ HR i _ ticket Hi eq_refl) as Hrg. cbn [t_args t_pc] in Hs.
      eexists. split; [by eapply list_elem_of_lookup_2|]. cbn [e_seq entry_of e_start_ns e_end_ns].
      rewrite wrap_small; [|lia]. rewrite Z.even_mul orb_true_l.
      destruct (Z.eqb_spec (2 * ticket) 0); [lia|done]. }
  apply set_eq. intros x. rewrite !elem_cover. setoid_rewrite Hw. done.
Qed.

(** C19. Whatever submissions of any threads interleave, access by access and
    with whatever time stamps, no access is outside the ring; and when all
    that began have completed, [busy_ns] is the number of nanoseconds in the
    union of their windows, without wrap-around, [jobs] their number, no
    submission is in flight, the windows of the committed ring entries cover
    the same time as long as the ring has not wrapped, and a snapshot that
    runs then returns [busy_ns] after five reads. *)
Theorem stats_busy_is_union k evs :
  0 <= k <= 31 ->
  exists s, run k evs = Ret s /\
    let '(c, r) := s_mem s in
    quiescent s ->
    busy_ns c = union_ns (windows (s_threads s)) /\
    jobs c = u64 (zlen (s_threads s)) /\
    inflight c = 0 /\
    (zlen (s_threads s) <= 2 ^ k -> busy_ns c = union_ns (ring_windows r)) /\
    forall now, Nat.iter 5 (ane_stats_snapshot now c) SInflight = SRet (busy_ns c).
Proof.
  intros Hk. destruct (stats_run_inv k evs Hk) as ([[c r] T sn sh] & E & [HI Hr HR _]). cbn in *.
  eexists. split; [exact E|]. cbn. intros Hq. destruct (quiescent_counts T Hq) as (Ho & Hm & Hp & Hd).
  assert (inflight c = 0) as Hf.
  { destruct (inv_inflight _ _ HI) as [(_ & ? & _)|[-> _]]; [lia|done]. }
  pose proof (inv_busy _ _ HI Hp) as Hb. split_and!; [done| |done|..].
  - by rewrite (inv_jobs _ _ HI) Hd.
  - intros Hn. rewrite Hb. unfold union_ns. do 2 f_equal. symmetry. by apply (ring_windows_cover k); auto.
  - intros now. cbn. rewrite !Hf. cbn. rewrite Z.eqb_refl. cbn. by rewrite Hf.
Qed.

(** Two overlapping submissions, [10, 30) and [20, 50), and a later one,
    [70, 80): 50 ns busy, not 60. *)
Definition overlap_trace : list event :=
  [EBegin 10 1] ++ replicate 14 (EStep 0) ++ [EBegin 20 1] ++ replicate 11 (EStep 1) ++
  [EComplete 0 30 0 0] ++ replicate 9 (EStep 0) ++ [EComplete 1 50 0 0] ++ replicate 13 (EStep 1) ++
  submission 2 70 80.

Lemma stats_busy_is_union_witness :
  exists s, run 2 overlap_trace = Ret s /\ quiescent s /\ busy_ns (s_mem s).1 = 50 /\
    busy_ns (s_mem s).1 = union_ns (windows (s_threads s)).
Proof.
  destruct (stats_busy_is_union 2 overlap_trace ltac:(lia)) as (s & E & H).
  exists s. split; [exact E|]. vm_compute in E. injection E as <-. cbn in H.
  assert (forall (P Q R : Prop), P -> (P -> Q) -> R -> P /\ R /\ Q) as Hc by tauto.
  apply Hc; [repeat constructor| |reflexivity]. intros Hq. exact (proj1 (H Hq)).
Defined.

(** As long as no more submissions began than the ring has slots, every
    line the timeline reader prints, however its loads interleave with the
    producers' stores, is the complete record of one completed submission. *)
Theorem timeline_lines_committed k evs s :
  0 <= k <= 31 -> run k evs = Ret s -> zlen (s_threads s) <= 2 ^ k ->
  forall p out l, (p, out) ∈ s_shows s -> l ∈ out ->
  exists i b tk st a fe,
    s_threads s !! i = Some (Thread b (CRet tk st a fe)) /\
    l = Line (u64 (2 * tk)) (a_submit_ns b) st (if fe =? 0 then a_end_ns a else fe) (a_tasks b)
             (a_rc a) (a_tmst a).
Proof.
  intros Hk E Hn p out l Hp Hl. destruct (stats_run_inv k evs Hk) as (s' & E' & HS).
  rewrite E in E'. injection E' as <-. pose proof (si_show _ _ HS Hn) as Hsh.
  rewrite Forall_forall in Hsh. destruct (Hsh _ Hp) as [_ Ho]. cbn in Ho. unfold lines_ok in Ho.
  rewrite Forall_forall in Ho. destruct (Ho l Hl) as (tk & e & (i & b & st & a & fe & Hi & ->) & ->).
  by exists i, b, tk, st, a, fe.
Qed.

(** A reader that starts while the first submission commits. *)
Definition show_trace : list event :=
  submission 0 10 30 ++ [EShowOpen] ++ replicate 3 (EShow 0) ++ [EBegin 40 2] ++ replicate 14 (EStep 1) ++
  replicate 5 (EShow 0).

Lemma timeline_lines_committed_witness :
  exists s out l, run 1 show_trace = Ret s /\ (TRet, out) ∈ s_shows s /\ l ∈ out /\
    exists i b tk st a fe,
      s_threads s !! i = Some (Thread b (CRet tk st a fe)) /\
      l = Line (u64 (2 * tk)) (a_submit_ns b) st (if fe =? 0 then a_end_ns a else fe) (a_tasks b)
               (a_rc a) (a_tmst a).
Proof.
  destruct (run 1 show_trace) as [s| |] eqn:E; [|exfalso; vm_compute in E; discriminate E..].
  pose proof (timeline_lines_committed 1 show_trace s ltac:(lia) E) as H.
  vm_compute in E. injection E as <-.
  eexists _, _, _. split; [reflexivity|]. split; [left|]. split; [left|].
  eapply H; [done|left|left].
Defined.

(** The clock samples of a run, in order. *)
Definition samples (evs : list event) : list Z :=
  omap (fun ev => match ev with
                  | EBegin t _ | EComplete _ t _ _ | ESnap _ t => Some t
                  | _ => None
                  end) evs.

(** The reported busy time can decrease, although every sample is taken
    in clock order: the completion samples its end before it folds, so a
    snapshot in between reports the open period up to a later instant than
    the one the fold uses. Here one submission runs from 100 to 200, the
    snapshot at 250 returns 150, and the next one, at 260, returns 100. *)
Theorem snapshot_can_decrease :
  exists evs s, StronglySorted Z.le (samples evs) /\ run ANE_STATS_RING_ORDER_DEFAULT evs = Ret s /\
    quiescent s /\ s_snaps s = [SRet 150; SRet 100].
Proof.
  exists ([EBegin 100 1] ++ replicate 14 (EStep 0) ++ [EComplete 0 200 0 0] ++
          [ESnapOpen] ++ replicate 7 (ESnap 0 250) ++ replicate 15 (EStep 0) ++
          [ESnapOpen] ++ replicate 5 (ESnap 1 260)).
  eexists. split_and!; [|vm_compute; reflexivity|repeat constructor|reflexivity].
  vm_compute. repeat constructor; intros [=].
Qed.

(** Once the ring has wrapped, the reader can print a line that mixes two
    submissions: it loads [seq] before the other fields and never again, so a
    submission that reuses the oldest slot between those loads goes
    unnoticed. The line carries a submit time and a task count that belong to
    no submission together. *)
Theorem timeline_torn_after_wrap :
  exists evs s out l,
    run ANE_STATS_RING_ORDER_DEFAULT evs = Ret s /\ (TRet, out) ∈ s_shows s /\ l ∈ out /\
    Forall (fun th => a_submit_ns (t_args th) <> l_submit l \/ a_tasks (t_args th) <> l_tasks l)
      (s_threads s).
Proof.
  exists (concat (map (fun i => submission i (Z.of_nat i) (Z.of_nat i)) (seq 0 256)) ++
          [EShowOpen] ++ replicate (1 + 255 * 7 + 1) (EShow 0) ++
          [EBegin 1000 7] ++ replicate 8 (EStep 256) ++ replicate 6 (EShow 0)).
  eexists _, _, (Line 2 1000 0 0 1 0 0).
  split; [vm_compute; reflexivity|]. cbn [s_shows s_threads]. split; [left|].
  split; [vm_decide|]. vm_decide.
Qed.
