(* ===== verification/FwValidate.v ===== *)
(** * The firmware image: validation and boot patches

    [src/ane/t6021/ane_fw_validate.h]: the pinned images, the validator that
    walks the Mach-O load commands of a candidate blob, and the patches the
    driver writes into its staged copy. The offsets of the load-command walk
    are 32-bit, as in the source, so their sums wrap; every load from the blob
    and every store to the image is checked against its length. *)

From Stdlib Require Import String Ascii.
From S2P Require Import Prelude.

#[local] Open Scope Z_scope.

(** ** Constants and pinned data *)

Definition ANE_FW_BUF_SIZE : Z := 0x500000.
Definition ANE_FW_ENTRY_PC : Z := 0x0.
Definition MH_MAGIC_64 : Z := 0xfeedfacf.
Definition MH_PRELOAD : Z := 5.
Definition CPU_TYPE_ARM64 : Z := 0x0100000c.
Definition LC_SEGMENT_64 : Z := 0x19.
Definition LC_UNIXTHREAD : Z := 0x5.
Definition ARM_THREAD_STATE64 : Z := 6.
Definition ANE_FW_NCMDS : Z := 5.
Definition ANE_FW_SIZEOF_CMDS : Z := 0x960.
Definition ANE_FW_FLAGS : Z := 0x1.
Definition ANE_FW_NSEGS : Z := 2.
Definition ANE_FW_RTK_PATCHES : Z := 5.
Definition ANE_FW_DATA_BASE_VM : Z := 0x423c.
Definition ANE_FW_TUNABLES_MAX : Z := 0x24.

Record ane_fw_seg := FwSeg {
  vmaddr : Z;
  vmsize : Z;
  fileoff : Z;
  filesize : Z;
  seg_name : bytes;   (* char name[17] *)
}.

#[global] Instance fw_seg_eq_dec : EqDecision ane_fw_seg.
Proof. solve_decision. Defined.

Record ane_fw_image := FwImage {
  fw_name : string;
  fw_sha256 : bytes;
  fw_size : Z;
  fw_segs : list ane_fw_seg;
  rtk_vm : list Z;
  tunables_vm : Z;
}.

(** A string literal in a [char[17]]. *)
Definition c_name (s : string) : bytes :=
  let l := map (fun c => Z.of_N (N_of_ascii c)) (list_ascii_of_string s) in
  l ++ replicate (17 - List.length l) 0.

Definition ane_fw_selene : ane_fw_image :=
  FwImage "apple/ane/t602x_ane0_fw_selene_rc4x.macho"
    [0xa9; 0xc4; 0xb7; 0x71; 0x29; 0x4a; 0x6b; 0x11;
     0x56; 0x24; 0xd9; 0x48; 0xa; 0x62; 0x48; 0xd0;
     0x89; 0x9a; 0x16; 0x81; 0xa5; 0x75; 0xe8; 0x65;
     0x7; 0xb; 0x87; 0xa3; 0x24; 0x84; 0x27; 0xbc]
    0x4c5b28
    [FwSeg 0x0 0xc4000 0x4000 0xc4000 (c_name "__TEXT");
     FwSeg 0xc4000 0x438000 0xc8000 0x3e8000 (c_name "__DATA")]
    [0xca848; 0xca9b3; 0xca9bf; 0xca9cb; 0xca9db] 0xdcd78.

Definition ane_fw_bia : ane_fw_image :=
  FwImage "apple/ane/h14_ane_fw_bia_j4xx.macho"
    [0xaf; 0x58; 0x7d; 0xfa; 0x96; 0xb1; 0xe0; 0x1d;
     0x2b; 0x2e; 0xf; 0x9f; 0x77; 0x6e; 0x5d; 0xbe;
     0xfe; 0xbb; 0x44; 0xc7; 0x96; 0x8b; 0x86; 0xff;
     0xf7; 0xd2; 0xb1; 0x9c; 0x4c; 0xbe; 0xf0; 0xdd]
    0x4b5b38
    [FwSeg 0x0 0xb4000 0x4000 0xb4000 (c_name "__TEXT");
     FwSeg 0xb4000 0x438000 0xb8000 0x3e8000 (c_name "__DATA")]
    [0xba688; 0xba7f3; 0xba7ff; 0xba80b; 0xba81b] 0xccbb8.

Record ane_asc_tunable := AscTunable { tn_off : Z; tn_mask : Z; tn_val : Z }.

Record ane_asc_tunables := AscTunables {
  tn_keys : list Z;
  tn_nkeys : Z;
  tn_n : Z;
  tn_r : list ane_asc_tunable;
}.

Definition ane_t602x_asc_tunables : ane_asc_tunables :=
  AscTunables [0x10; 0x1; 0x0] 3 24
  [AscTunable 0x150010 0x3f 0x10;
   AscTunable 0x51c08 0x10000000 0x10000000;
   AscTunable 0x51c18 0x10000000000000 0x10000000000000;
   AscTunable 0x140020 0xf00000 0x700000;
   AscTunable 0x140120 0x2eff 0x2b1;
   AscTunable 0x140130 0x3fff 0x18;
   AscTunable 0x140138 0x7fff 0x64;
   AscTunable 0x140140 0x3fff 0x2f;
   AscTunable 0x140148 0x7fff 0xc8;
   AscTunable 0x140150 0x3fff 0x4f;
   AscTunable 0x140158 0x7fff 0x14e;
   AscTunable 0x140160 0x3fff 0x4f;
   AscTunable 0x140168 0x7fff 0x14e;
   AscTunable 0x140170 0x3fff 0x18;
   AscTunable 0x140178 0x7fff 0x64;
   AscTunable 0x140180 0x3fff 0x28;
   AscTunable 0x140188 0x7fff 0xa7;
   AscTunable 0x140190 0x3fff 0x28;
   AscTunable 0x140198 0x7fff 0xa7;
   AscTunable 0x1401a0 0x3fff 0x4f;
   AscTunable 0x1401a8 0x7fff 0x14e;
   AscTunable 0x145010 0x8000c 0xc;
   AscTunable 0x14a008 0xff0ffff 0x2520;
   AscTunable 0x14a010 0xff0ffff 0x2002520].

Definition ane_t6020_asc_tunables : ane_asc_tunables :=
  AscTunables [0x0] 1 24
  [AscTunable 0x150010 0x3f 0x10;
   AscTunable 0x51c08 0x10000000 0x10000000;
   AscTunable 0x51c18 0x10000000000000 0x10000000000000;
   AscTunable 0x140020 0xf00000 0x700000;
   AscTunable 0x140120 0x2eff 0x2b1;
   AscTunable 0x140130 0x3fff 0x18;
   AscTunable 0x140138 0x7fff 0x64;
   AscTunable 0x140140 0x3fff 0x18;
   AscTunable 0x140148 0x7fff 0x64;
   AscTunable 0x140150 0x3fff 0x20;
   AscTunable 0x140158 0x7fff 0x86;
   AscTunable 0x140160 0x3fff 0x4f;
   AscTunable 0x140168 0x7fff 0x14e;
   AscTunable 0x140170 0x3fff 0x8;
   AscTunable 0x140178 0x7fff 0x22;
   AscTunable 0x140180 0x3fff 0x8;
   AscTunable 0x140188 0x7fff 0x22;
   AscTunable 0x140190 0x3fff 0x18;
   AscTunable 0x140198 0x7fff 0x64;
   AscTunable 0x1401a0 0x3fff 0x18;
   AscTunable 0x1401a8 0x7fff 0x64;
   AscTunable 0x145010 0x8000c 0xc;
   AscTunable 0x14a008 0xff0ffff 0x2520;
   AscTunable 0x14a010 0xff0ffff 0x1002520].

Definition ane_t8112_asc_tunables : ane_asc_tunables :=
  AscTunables [0x10; 0x0] 2 23
  [AscTunable 0x51c08 0x10000000 0x10000000;
   AscTunable 0x51c18 0x10000000000000 0x10000000000000;
   AscTunable 0x140020 0x4000000000f80000 0x4000000000780000;
   AscTunable 0x140120 0x2eff 0x2b1;
   AscTunable 0x140130 0x3fff 0x18;
   AscTunable 0x140138 0x7fff 0x64;
   AscTunable 0x140140 0x3fff 0x18;
   AscTunable 0x140148 0x7fff 0x64;
   AscTunable 0x140150 0x3fff 0x20;
   AscTunable 0x140158 0x7fff 0x86;
   AscTunable 0x140160 0x3fff 0x28;
   AscTunable 0x140168 0x7fff 0xa7;
   AscTunable 0x140170 0x3fff 0x10;
   AscTunable 0x140178 0x7fff 0x43;
   AscTunable 0x140180 0x3fff 0x10;
   AscTunable 0x140188 0x7fff 0x43;
   AscTunable 0x140190 0x3fff 0x18;
   AscTunable 0x140198 0x7fff 0x64;
   AscTunable 0x1401a0 0x3fff 0x28;
   AscTunable 0x1401a8 0x7fff 0xa7;
   AscTunable 0x145010 0x8000c 0x8000c;
   AscTunable 0x14a008 0xff0ffff 0x2520;
   AscTunable 0x14a010 0xff0ffff 0x3002520].

Definition ane_t8112_fuse_revision (w0 w1 : Z) : Z :=
  Z.lor (Z.land (Z.shiftr w0 27) 7)
        (Z.shiftl (Z.land (Z.lor (Z.shiftr w0 30) (u32 (Z.shiftl w1 2))) 7) 4).

(** ** The validator *)

(** The locals the loop over the load commands carries. *)
Record walk_state := WalkState {
  w_off : Z;                          (* u32 *)
  w_nsegs : Z;
  w_entry : Z;                        (* u64 *)
  w_out : option (list ane_fw_seg);   (* segs_out, [None] for NULL *)
}.

(** A refusal carries its reason. *)
Definition verdict (A : Type) := (string + A)%type.

(** [segs_out[i] = s]; past the array it is a fault. *)
Definition store_seg (out : option (list ane_fw_seg)) (i : Z) (s : ane_fw_seg) :
    res (option (list ane_fw_seg)) :=
  match out with
  | None => Ret None
  | Some l => if bool_decide (0 <= i < zlen l) then Ret (Some (<[Z.to_nat i := s]> l)) else Fault OutOfBounds
  end.

(** [memcmp(blob + off, s, 16) == 0]. *)
Definition name_eq (blob : bytes) (off : Z) (s : bytes) : res bool :=
  if bool_decide (0 <= off /\ off + 16 <= zlen blob /\ 16 <= zlen s) then
    Ret (bool_decide (slice blob off 16 = take 16 s))
  else Fault OutOfBounds.

(** The pinned segment a segment command names: the inner [for] over [k]. *)
Fixpoint match_seg (blob : bytes) (off va vs fo fs : Z) (segs : list ane_fw_seg) :
    res (option ane_fw_seg) :=
  match segs with
  | [] => Ret None
  | s :: segs' =>
      if (va =? vmaddr s) && (vs =? vmsize s) && (fo =? fileoff s) && (fs =? filesize s) then
        eq ← name_eq blob (off + 8) (seg_name s);
        if (eq : bool) then Ret (Some s) else match_seg blob off va vs fo fs segs'
      else match_seg blob off va vs fo fs segs'
  end.

(** The LC_SEGMENT_64 branch. *)
Definition segment_command (blob : bytes) (size : Z) (fw : ane_fw_image) (w : walk_state) :
    res (verdict walk_state) :=
  let off := w_off w in
  va ← le64 blob (off + 24);
  vs ← le64 blob (off + 32);
  fo ← le64 blob (off + 40);
  fs ← le64 blob (off + 48);
  if (fo >? size) || (fs >? u64 (size - fo)) then Ret (inl "segment file range out of bounds"%string)
  else if fs >? vs then Ret (inl "filesize > vmsize"%string)
  else
    s ← match_seg blob off va vs fo fs (fw_segs fw);
    match s with
    | None => Ret (inl "segment != pinned layout"%string)
    | Some s =>
        out ← store_seg (w_out w) (w_nsegs w) s;
        Ret (inr (WalkState off (u32 (w_nsegs w + 1)) (w_entry w) out))
    end.

(** The [while] over the thread states of an LC_UNIXTHREAD command, with [p]
    and the entry found so far. *)
Definition thread_body (blob : bytes) (off cmdsize : Z) (st : Z * Z) :
    res ((Z * Z) + verdict Z) :=
  let '(p, entry) := st in
  if u32 (p + 8) <=? u32 (off + cmdsize) then
    flavor ← le32 blob p;
    count ← le32 blob (p + 4);
    if count >? u32 (u32 (cmdsize - u32 (p - off)) - 8) / 4 then
      Ret (inr (inl "thread state count out of bounds"%string))
    else if flavor =? ARM_THREAD_STATE64 then
      if (count <? 66) || (u32 (p + 8 + count * 4) >? u32 (off + cmdsize)) then
        Ret (inr (inl "thread state too small for pc"%string))
      else
        e ← le64 blob (p + 8 + 32 * 8);
        Ret (inl (u32 (p + (8 + count * 4)), e))
    else Ret (inl (u32 (p + (8 + count * 4)), entry))
  else Ret (inr (inr entry)).

(** Enough for every command: [p] grows by 8 or more and stays in the
    [32 + ANE_FW_SIZEOF_CMDS] bytes of the commands. *)
Definition thread_fuel : nat := 400.

Definition thread_command (blob : bytes) (w : walk_state) (cmdsize : Z) : res (verdict walk_state) :=
  r ← loop thread_fuel (thread_body blob (w_off w) cmdsize) (u32 (w_off w + 8), w_entry w);
  match r with
  | inl reason => Ret (inl reason)
  | inr entry => Ret (inr (WalkState (w_off w) (w_nsegs w) entry (w_out w)))
  end.

(** One iteration of the loop over the load commands. *)
Definition load_command (blob : bytes) (size : Z) (fw : ane_fw_image) (sizeofcmds : Z) (w : walk_state) :
    res (verdict walk_state) :=
  let off := w_off w in
  if (u32 (off + 8) >? u32 (32 + sizeofcmds)) || (u32 (off + 8) >? size) then
    Ret (inl "load command header out of bounds"%string)
  else
    cmd ← le32 blob off;
    cmdsize ← le32 blob (off + 4);
    if (cmdsize <? 8) || (u32 (off + cmdsize) >? u32 (32 + sizeofcmds)) ||
       (u32 (off + cmdsize) >? size) then
      Ret (inl "cmdsize out of bounds"%string)
    else
      r ← (if cmd =? LC_SEGMENT_64 then segment_command blob size fw w
           else if cmd =? LC_UNIXTHREAD then thread_command blob w cmdsize
           else Ret (inr w));
      match r with
      | inl reason => Ret (inl reason)
      | inr w => Ret (inr (WalkState (u32 (off + cmdsize)) (w_nsegs w) (w_entry w) (w_out w)))
      end.

Fixpoint load_commands (n : nat) (blob : bytes) (size : Z) (fw : ane_fw_image) (sizeofcmds : Z)
    (w : walk_state) : res (verdict walk_state) :=
  match n with
  | O => Ret (inr w)
  | S n' =>
      r ← load_command blob size fw sizeofcmds w;
      match r with
      | inl reason => Ret (inl reason)
      | inr w => load_commands n' blob size fw sizeofcmds w
      end
  end.

(** The final copy of the pinned segments to [segs_out]. *)
Definition publish_segs (fw : ane_fw_image) (out : option (list ane_fw_seg)) :
    res (option (list ane_fw_seg)) :=
  foldM (fun out i => store_seg out i (default (FwSeg 0 0 0 0 []) (fw_segs fw !! Z.to_nat i))) out
    (seqZ 0 ANE_FW_NSEGS).

(** [actual_sha] is the SHA-256 the caller computed over the blob. On
    acceptance the value is what [segs_out] and [entry_out] receive. *)
Definition ane_fw_validate_blob (blob : bytes) (fw : ane_fw_image) (actual_sha : bytes)
    (segs_out : option (list ane_fw_seg)) : res (verdict (option (list ane_fw_seg) * Z)) :=
  let size := zlen blob in
  if negb (size =? fw_size fw) then Ret (inl "size != pinned image"%string)
  else if negb (bool_decide (take 32 (fw_sha256 fw) = take 32 actual_sha)) then
    Ret (inl "sha256 != pinned payload hash"%string)
  else
    magic ← le32 blob 0;
    cputype ← le32 blob 4;
    filetype ← le32 blob 12;
    ncmds ← le32 blob 16;
    sizeofcmds ← le32 blob 20;
    flags ← le32 blob 24;
    if negb (magic =? MH_MAGIC_64) then Ret (inl "magic"%string)
    else if negb (cputype =? CPU_TYPE_ARM64) then Ret (inl "cputype"%string)
    else if negb (filetype =? MH_PRELOAD) then Ret (inl "filetype != MH_PRELOAD"%string)
    else if negb (ncmds =? ANE_FW_NCMDS) || negb (sizeofcmds =? ANE_FW_SIZEOF_CMDS) ||
            negb (flags =? ANE_FW_FLAGS) then
      Ret (inl "header fields != pinned image"%string)
    else
      r ← load_commands (Z.to_nat ncmds) blob size fw sizeofcmds
            (WalkState 32 0 U64_MAX segs_out);
      match r with
      | inl reason => Ret (inl reason)
      | inr w =>
          if negb (w_nsegs w =? ANE_FW_NSEGS) then Ret (inl "segment count != 2"%string)
          else if negb (w_entry w =? ANE_FW_ENTRY_PC) then Ret (inl "entry pc != 0"%string)
          else
            out ← publish_segs fw (w_out w);
            Ret (inr (out, w_entry w))
      end.

(** ** The boot patches *)

Record ane_fw_boot_patch := BootPatch {
  exec_base : Z;      (* u64 *)
  stack_guard : Z;    (* u64 *)
  bp_soc : Z;         (* u32 *)
  soc_revision : Z;   (* u32 *)
  cpu_pa : Z;         (* u64 *)
  wrapper_pa : Z;     (* u64 *)
}.

Fixpoint ane_fw_put_le (m : bytes) (p v : Z) (n : nat) : res bytes :=
  match n with
  | O => Ret m
  | S n' => m ← wr8 m p v; ane_fw_put_le m (p + 1) (Z.shiftr v 8) n'
  end.

Definition tunables_unset : bytes := [0x01; 0x03; ANE_FW_TUNABLES_MAX; 0x00; 0xff; 0xff; 0xff; 0xff].

(** The tag and the length of each [__rtk_patch] record. *)
Definition rtk_rec : list (Z * Z) :=
  [(0x53544b47, 8); (0x534f435f, 4); (0x534f4352, 4); (0x43704164, 8); (0x57724164, 8)].

Definition rtk_val (p : ane_fw_boot_patch) : list Z :=
  [stack_guard p; bp_soc p; soc_revision p; cpu_pa p; wrapper_pa p].

(** The first key of the table that is not above the chip revision. *)
Fixpoint pick_key (keys : list Z) (rev : Z) : option Z :=
  match keys with
  | [] => None
  | k :: keys' => if k >? rev then pick_key keys' rev else Some k
  end.

(** The record check: every [__rtk_patch] record has its tag and length. *)
Fixpoint rtk_match (img : bytes) (vms : list Z) (recs : list (Z * Z)) : res bool :=
  match vms, recs with
  | vm :: vms', (tag, len) :: recs' =>
      t ← le32 img vm;
      if negb (t =? tag) then Ret false
      else
        l ← le32 img (vm + 4);
        if negb (l =? len) then Ret false else rtk_match img vms' recs'
  | _, _ => Ret true
  end.

(** The record stores. *)
Fixpoint put_rtk (img : bytes) (vms : list Z) (recs : list (Z * Z)) (vals : list Z) : res bytes :=
  match vms, recs, vals with
  | vm :: vms', (_, len) :: recs', v :: vals' =>
      img ← ane_fw_put_le img (vm + 8) v (Z.to_nat len); put_rtk img vms' recs' vals'
  | _, _, _ => Ret img
  end.

(** The tunable stores, from record [i]. *)
Fixpoint put_tunables (img : bytes) (blk i : Z) (rs : list ane_asc_tunable) : res bytes :=
  match rs with
  | [] => Ret img
  | r :: rs' =>
      img ← ane_fw_put_le img (blk + 8 + 20 * i) (tn_off r) 4;
      img ← ane_fw_put_le img (blk + 12 + 20 * i) (tn_mask r) 8;
      img ← ane_fw_put_le img (blk + 20 + 20 * i) (tn_val r) 8;
      put_tunables img blk (i + 1) rs'
  end.

(** [memcmp(img + off, s, n) == 0]. *)
Definition bytes_eq (img : bytes) (off : Z) (s : bytes) : res bool :=
  if bool_decide (0 <= off /\ off + zlen s <= zlen img) then
    Ret (bool_decide (slice img off (zlen s) = s))
  else Fault OutOfBounds.

(** The image after the call and, on a refusal, the reason. *)
Definition ane_fw_apply_boot_patches (img : bytes) (fw : ane_fw_image) (t : ane_asc_tunables)
    (p : ane_fw_boot_patch) : res (bytes * option string) :=
  let blk := tunables_vm fw in
  match pick_key (take (Z.to_nat (tn_nkeys t)) (tn_keys t)) (soc_revision p) with
  | None => Ret (img, Some "no ASC tunables for this chip revision"%string)
  | Some key =>
    if tn_n t >? ANE_FW_TUNABLES_MAX then Ret (img, Some "no ASC tunables for this chip revision"%string)
    else
      base ← le64 img ANE_FW_DATA_BASE_VM;
      if negb (base =? 0) then Ret (img, Some "DATA base field is not the archive zero"%string)
      else
        ok ← rtk_match img (rtk_vm fw) rtk_rec;
        if negb ok then Ret (img, Some "__rtk_patch record != pinned image"%string)
        else
          unset ← bytes_eq img blk tunables_unset;
          if negb unset then Ret (img, Some "tunables block header != pinned image"%string)
          else
            img ← ane_fw_put_le img ANE_FW_DATA_BASE_VM
                    (u64 (exec_base p + vmaddr (default (FwSeg 0 0 0 0 []) (fw_segs fw !! 1%nat)))) 8;
            img ← put_rtk img (rtk_vm fw) rtk_rec (rtk_val p);
            img ← wr8 img (blk + 3) (tn_n t);
            img ← ane_fw_put_le img (blk + 4) key 4;
            img ← put_tunables img blk 0 (take (Z.to_nat (tn_n t)) (tn_r t));
            Ret (img, None)
  end.

(** ** What the validator accepts *)

(** What an image must satisfy; the pinned ones do. *)
Definition image_ok (fw : ane_fw_image) : Prop :=
  0xa00 <= fw_size fw < 2 ^ 32 /\ zlen (fw_segs fw) = ANE_FW_NSEGS /\
  Forall (fun s => zlen (seg_name s) = 17) (fw_segs fw).

#[global] Instance image_ok_dec fw : Decision (image_ok fw).
Proof. unfold image_ok. apply _. Defined.

(** The end of the command area. *)
Abbreviation LIM := (32 + ANE_FW_SIZEOF_CMDS).

(** A Mach-O blob read without the walk: the offsets of its load commands, the
    pinned segments they name, and the thread states of its thread commands. *)
Section reading.
Context (blob : bytes).

Definition cmdsize_at (off : Z) : Z := word32_at blob (off + 4).

(** The offset behind a command; 32 bits, so it may wrap. *)
Definition next_command (off : Z) : Z := u32 (off + cmdsize_at off).

Fixpoint command_offsets (n : nat) (off : Z) : list Z :=
  match n with
  | O => []
  | S n' => off :: command_offsets n' (next_command off)
  end.

Definition command_fits (off : Z) : Prop :=
  off + 8 <= LIM /\ 8 <= cmdsize_at off /\ next_command off <= LIM.

Definition with_command (cmd : Z) (offs : list Z) : list Z :=
  filter (fun off => word32_at blob off = cmd) offs.

(** The command at [off] is the segment [s], its bytes inside the blob. *)
Definition names_segment (off : Z) (s : ane_fw_seg) : Prop :=
  word64_at blob (off + 24) = vmaddr s /\ word64_at blob (off + 32) = vmsize s /\
  word64_at blob (off + 40) = fileoff s /\ word64_at blob (off + 48) = filesize s /\
  slice blob (off + 8) 16 = take 16 (seg_name s) /\
  fileoff s + filesize s <= zlen blob /\ filesize s <= vmsize s.

(** The thread states from [p] to the end [e] of their command: the positions
    of their headers. A state lies inside the command, and one of the flavor
    that carries the entry is long enough for it. *)
Inductive thread_states (e : Z) : Z -> list Z -> Prop :=
  | states_end p : e < p + 8 -> thread_states e p []
  | states_next p ps :
      p + 8 <= e -> p + 8 + 4 * word32_at blob (p + 4) <= e ->
      (word32_at blob p = ARM_THREAD_STATE64 -> 66 <= word32_at blob (p + 4)) ->
      thread_states e (p + 8 + 4 * word32_at blob (p + 4)) ps ->
      thread_states e p (p :: ps).

Definition command_states (off : Z) (ps : list Z) : Prop :=
  thread_states (next_command off) (off + 8) ps.

(** The program counter of the last such state, [e] when there is none. *)
Fixpoint last_pc (e : Z) (ps : list Z) : Z :=
  match ps with
  | [] => e
  | p :: ps' =>
      last_pc (if word32_at blob p =? ARM_THREAD_STATE64 then word64_at blob (p + 8 + 32 * 8) else e) ps'
  end.

(** The command list is well formed and its thread states are at [ps]. *)
Definition commands_ok (fw : ane_fw_image) (offs ps : list Z) : Prop :=
  Forall command_fits offs /\
  Forall (fun off => exists s, s ∈ fw_segs fw /\ names_segment off s) (with_command LC_SEGMENT_64 offs) /\
  exists pss, Forall2 command_states (with_command LC_UNIXTHREAD offs) pss /\ ps = concat pss.

Definition commands : list Z := command_offsets (Z.to_nat ANE_FW_NCMDS) 32.

(** The segment commands of the blob. *)
Definition seg_count : Z := zlen (with_command LC_SEGMENT_64 commands).

(** A pinned image: size, hash, header, commands, segments and entry. *)
Definition pinned_blob (fw : ane_fw_image) (sha : bytes) : Prop :=
  zlen blob = fw_size fw /\ take 32 sha = take 32 (fw_sha256 fw) /\
  word32_at blob 0 = MH_MAGIC_64 /\ word32_at blob 4 = CPU_TYPE_ARM64 /\
  word32_at blob 12 = MH_PRELOAD /\ word32_at blob 16 = ANE_FW_NCMDS /\
  word32_at blob 20 = ANE_FW_SIZEOF_CMDS /\ word32_at blob 24 = ANE_FW_FLAGS /\
  seg_count = ANE_FW_NSEGS /\
  exists ps, commands_ok fw commands ps /\ last_pc U64_MAX ps = ANE_FW_ENTRY_PC.

Lemma states_det e p ps ps' : thread_states e p ps -> thread_states e p ps' -> ps = ps'.
Proof.
  intros H. revert ps'. induction H as [p Hp|p ps Hp Hc Hf _ IH]; intros ps' H'; inversion H'; subst; [done|lia|lia|].
  f_equal. auto.
Qed.

Lemma commands_det fw offs ps ps' : commands_ok fw offs ps -> commands_ok fw offs ps' -> ps = ps'.
Proof.
  intros (_ & _ & pss & H & ->) (_ & _ & pss' & H' & ->). f_equal. revert pss' H'.
  induction H as [|off p offs' pss Hp _ IH]; intros pss' H'; inversion H'; subst; [done|].
  f_equal; [by eapply states_det|auto].
Qed.

Lemma last_pc_app e ps ps' : last_pc e (ps ++ ps') = last_pc (last_pc e ps) ps'.
Proof. revert e. induction ps as [|p ps IH]; intros e; [done|]. apply IH. Qed.
End reading.

(** ** The walk *)

Section walk.
Context (blob : bytes) (fw : ane_fw_image).
Context (Hb : bytes_ok blob) (Hsize : zlen blob = fw_size fw) (Hfw : image_ok fw).

Lemma match_seg_spec off va vs fo fs segs :
  0 <= off -> off + 24 <= zlen blob -> Forall (fun s => zlen (seg_name s) = 17) segs ->
  twp (match_seg blob off va vs fo fs segs) (fun r =>
    let named s := va = vmaddr s /\ vs = vmsize s /\ fo = fileoff s /\ fs = filesize s /\
      slice blob (off + 8) 16 = take 16 (seg_name s) in
    match r with Some s => s ∈ segs /\ named s | None => forall s, s ∈ segs -> ~ named s end).
Proof using.
  clear Hb Hsize Hfw. intros Ho Hl. cbv zeta. induction 1 as [|s segs Hs _ IH]; [by intros s ?%not_elem_of_nil|].
  cbn [match_seg].
  destruct ((va =? vmaddr s) && (vs =? vmsize s) && (fo =? fileoff s) && (fs =? filesize s)) eqn:Ef.
  - unfold name_eq. rewrite bool_decide_eq_true_2; [|lia]. cbn [mbind res_bind].
    case_bool_decide as Hn; [cbn; split; [left|split_and!; [lia..|done]]|].
    eapply twp_mono; [exact IH|]. intros [s'|]; [intros [? ?]; split; [by right|done]|].
    intros Hno s' [->|Hin]%elem_of_cons; [by intros (_ & _ & _ & _ & ?)|by apply Hno].
  - eapply twp_mono; [exact IH|]. intros [s'|]; [intros [? ?]; split; [by right|done]|].
    intros Hno s' [->|Hin]%elem_of_cons; [intros (? & ? & ? & ? & _); lia|by apply Hno].
Qed.

(** [segs_out] has an entry for each of [k] commands, from entry [i]. *)
Definition room (out : option (list ane_fw_seg)) (i k : Z) : Prop :=
  forall l, out = Some l -> i + k <= zlen l.

Definition same_shape (out out' : option (list ane_fw_seg)) : Prop := zlen <$> out = zlen <$> out'.

Lemma store_seg_ok out i s :
  0 <= i -> room out i 1 -> exists out', store_seg out i s = Ret out' /\ same_shape out out'.
Proof using.
  clear Hb Hsize Hfw. intros Hi Hr. destruct out as [l|]; [|by exists None]. cbn.
  specialize (Hr l eq_refl). rewrite bool_decide_eq_true_2; [|lia]. eexists. split; [done|].
  unfold same_shape. cbn. by rewrite zlen_insert.
Qed.

Lemma segment_command_spec off k e out :
  0 <= off <= LIM - 8 -> 0 <= k < ANE_FW_NCMDS -> room out k 1 ->
  (exists reason, segment_command blob (zlen blob) fw (WalkState off k e out) = Ret (inl reason) /\
    forall s, s ∈ fw_segs fw -> ~ names_segment blob off s) \/
  (exists out', segment_command blob (zlen blob) fw (WalkState off k e out) = Ret (inr (WalkState off (k + 1) e out')) /\
    same_shape out out' /\ exists s, s ∈ fw_segs fw /\ names_segment blob off s).
Proof using Hb Hfw Hsize.
  intros Ho Hk Hr. destruct Hfw as (Hsz & _ & Hnm). unfold ANE_FW_SIZEOF_CMDS, ANE_FW_NCMDS in *.
  unfold segment_command. cbn [w_off w_nsegs w_entry w_out]. rewrite !le64_eq; [|lia..]. cbn [mbind res_bind].
  unfold names_segment. pose proof (word64_at_range blob (off + 40) Hb) as R1. unfold in_range in R1.
  pose proof (word64_at_range blob (off + 48) Hb) as R2. unfold in_range in R2.
  generalize dependent (word64_at blob (off + 40)). intros fo R1. generalize dependent (word64_at blob (off + 48)). intros fs R2.
  generalize (word64_at blob (off + 24)) as va. generalize (word64_at blob (off + 32)) as vs. intros vs va.
  destruct (Z.gtb_spec fo (zlen blob)) as [|Hfo]; [left; eexists; split; [done|]; intros s _ ?; lia|]. cbn [orb].
  rewrite wrap_small; [|lia].
  destruct (Z.gtb_spec fs (zlen blob - fo)); [left; eexists; split; [done|]; intros s _ ?; lia|].
  destruct (Z.gtb_spec fs vs); [left; eexists; split; [done|]; intros s _ ?; lia|].
  destruct (twp_ex _ _ (match_seg_spec off va vs fo fs (fw_segs fw) ltac:(lia) ltac:(lia) Hnm)) as (r & -> & Hs).
  cbn [mbind res_bind]. destruct r as [s|].
  - right. destruct Hs as [Hin (-> & -> & -> & -> & Hn)].
    destruct (store_seg_ok out k s ltac:(lia) Hr) as (out' & -> & Hsh). cbn [mbind res_bind].
    rewrite wrap_small; [|lia]. exists out'. split_and!; [done..|]. exists s. split_and!; [done..|lia|lia].
  - left. eexists. split; [done|]. intros s Hin (? & ? & ? & ? & ? & _). by apply (Hs s Hin).
Qed.

Lemma thread_loop_spec off cmdsize fuel p e :
  0 <= off -> 8 <= cmdsize < 2 ^ 32 -> u32 (off + cmdsize) <= LIM -> off + 8 <= p <= LIM ->
  (Z.to_nat ((LIM - p) / 8) < fuel)%nat ->
  twp (loop fuel (thread_body blob off cmdsize) (p, e)) (fun r =>
    match r with
    | inl _ => forall ps, ~ thread_states blob (u32 (off + cmdsize)) p ps
    | inr e' => exists ps, thread_states blob (u32 (off + cmdsize)) p ps /\ e' = last_pc blob e ps
    end).
Proof using Hb Hfw Hsize.
  destruct Hfw as (Hsz & _ & _). intros Ho Hc Hlim. revert p e. induction fuel as [|fuel IH]; intros p e Hp Hf; [lia|].
  rewrite loop_S. unfold ANE_FW_SIZEOF_CMDS in *. remember (loop fuel (thread_body blob off cmdsize)) as lp eqn:Elp.
  unfold thread_body. cbv beta iota.
  rewrite (wrap_small 32 (p + 8)); [|lia].
  destruct (Z.leb_spec (p + 8) (u32 (off + cmdsize))) as [Hle|].
  2: { cbn. exists []. split; [by constructor|done]. }
  assert (u32 (off + cmdsize) = off + cmdsize) as Ee.
  { destruct (Z.lt_ge_cases (off + cmdsize) (2 ^ 32)); [apply wrap_small; lia|].
    assert (u32 (off + cmdsize) = off + cmdsize - 2 ^ 32) as E; [|lia].
    unfold wrap. rewrite -(Z.mod_unique_pos (off + cmdsize) (2 ^ 32) 1 (off + cmdsize - 2 ^ 32)); lia. }
  rewrite !Ee in Hlim Hle IH |- *. rewrite !le32_eq; [|lia..]. cbn [mbind res_bind].
  pose proof (word32_at_range blob (p + 4) Hb) as Hcount. unfold in_range in Hcount.
  assert (forall ps, thread_states blob (off + cmdsize) p ps -> exists ps', ps = p :: ps' /\
    p + 8 + 4 * word32_at blob (p + 4) <= off + cmdsize /\
    (word32_at blob p = ARM_THREAD_STATE64 -> 66 <= word32_at blob (p + 4)) /\
    thread_states blob (off + cmdsize) (p + 8 + 4 * word32_at blob (p + 4)) ps') as Hinv.
  { intros ps H. inversion H; subst; [lia|]. by eexists. }
  pose proof (states_next blob (off + cmdsize) p) as Hnext.
  set (count := word32_at blob (p + 4)) in *. clearbody count.
  rewrite (wrap_small 32 (p - off)); [|lia]. rewrite (wrap_small 32 (cmdsize - (p - off))); [|lia].
  rewrite wrap_small; [|lia].
  destruct (Z.gtb_spec count ((cmdsize - (p - off) - 8) / 4)) as [Hbig|Hcl].
  { cbn. intros ps H. destruct (Hinv ps H) as (? & _ & ? & _). clear -H0 Hbig. dlia. }
  assert (4 * count <= cmdsize - (p - off) - 8) as Hfit by (clear -Hcl; dlia).
  assert (Z.to_nat ((32 + 0x960 - (p + 8 + 4 * count)) / 8) < fuel)%nat as Hf'.
  { clear -Hf Hcount Hfit Hlim Hp. unfold ANE_FW_SIZEOF_CMDS in Hf. dlia. }
  rewrite (wrap_small 32 (p + (8 + count * 4))); [|lia]. rewrite (wrap_small 32 (p + 8 + count * 4)); [|lia].
  replace (p + (8 + count * 4)) with (p + 8 + 4 * count) by lia.
  specialize (fun e => IH (p + 8 + 4 * count) e ltac:(lia) Hf') as IH'. subst lp.
  destruct (Z.eqb_spec (word32_at blob p) ARM_THREAD_STATE64) as [Efl|Efl].
  - destruct (Z.ltb_spec count 66); cbn [orb].
    { cbn. intros ps H'. destruct (Hinv ps H') as (? & _ & _ & Hl & _). specialize (Hl Efl). lia. }
    destruct (Z.gtb_spec (p + 8 + count * 4) (off + cmdsize)); [lia|].
    rewrite le64_eq; [|lia..]. cbn [mbind res_bind]. eapply twp_mono; [apply IH'|].
    intros [reason|e'].
    + intros Hno ps H'. destruct (Hinv ps H') as (ps' & _ & _ & _ & Hps). by apply (Hno ps').
    + intros (ps & Hps & ->). exists (p :: ps). split; [by apply Hnext; [lia|lia|lia|]|]. cbn [last_pc].
      by rewrite Efl.
  - cbn [mbind res_bind]. eapply twp_mono; [apply IH'|]. intros [reason|e'].
    + intros Hno ps H'. destruct (Hinv ps H') as (ps' & _ & _ & _ & Hps). by apply (Hno ps').
    + intros (ps & Hps & ->). exists (p :: ps). split; [by apply Hnext; [lia|lia| |]|]. cbn [last_pc].
      by destruct (Z.eqb_spec (word32_at blob p) ARM_THREAD_STATE64).
Qed.

Lemma thread_command_spec off k e out :
  0 <= off <= LIM - 8 -> 8 <= cmdsize_at blob off -> next_command blob off <= LIM ->
  (exists reason, thread_command blob (WalkState off k e out) (cmdsize_at blob off) = Ret (inl reason) /\
    forall ps, ~ command_states blob off ps) \/
  (exists ps, thread_command blob (WalkState off k e out) (cmdsize_at blob off) =
      Ret (inr (WalkState off k (last_pc blob e ps) out)) /\ command_states blob off ps).
Proof using Hb Hfw Hsize.
  intros Ho Hc Hn. unfold thread_command. cbn [w_off w_nsegs w_entry w_out].
  pose proof (word32_at_range blob (off + 4) Hb) as Hr. unfold in_range in Hr. fold (cmdsize_at blob off) in Hr.
  rewrite (wrap_small 32 (off + 8)); [|unfold ANE_FW_SIZEOF_CMDS in *; lia].
  destruct (twp_ex _ _ (thread_loop_spec off (cmdsize_at blob off) thread_fuel (off + 8) e ltac:(lia) ltac:(lia) Hn ltac:(lia)
    ltac:(unfold thread_fuel, ANE_FW_SIZEOF_CMDS; clear -Ho; dlia))) as (r & -> & Hq).
  cbn [mbind res_bind]. destruct r as [reason|e'].
  - left. by exists reason.
  - right. destruct Hq as (ps & Hps & ->). by exists ps.
Qed.

Lemma with_command_cons cmd off offs :
  with_command blob cmd (off :: offs) =
  (if decide (word32_at blob off = cmd) then [off] else []) ++ with_command blob cmd offs.
Proof using. clear Hb Hsize Hfw. unfold with_command. rewrite filter_cons. by case_decide. Qed.

(** A well-formed list is a command that fits, its meaning, and a well-formed
    list behind it. *)
Lemma commands_ok_cons off offs ps :
  commands_ok blob fw (off :: offs) ps <->
  command_fits blob off /\
  (word32_at blob off = LC_SEGMENT_64 -> exists s, s ∈ fw_segs fw /\ names_segment blob off s) /\
  exists ps0 ps1, ps = ps0 ++ ps1 /\ commands_ok blob fw offs ps1 /\
    (if decide (word32_at blob off = LC_UNIXTHREAD) then command_states blob off ps0 else ps0 = []).
Proof using.
  clear Hb Hsize Hfw. unfold commands_ok. rewrite Forall_cons !with_command_cons. split.
  - intros ([Hf Hfs] & Hsg & pss & Hp & ->). apply Forall_app in Hsg as [Hs1 Hs2]. split; [done|split].
    { intros E. rewrite decide_True // in Hs1. apply Forall_cons in Hs1 as [Hs _]. exact Hs. }
    case_decide.
    + apply Forall2_cons_inv_l in Hp as (ps0 & pss' & Hp0 & Hp & ->). exists ps0, (concat pss').
      split; [done|]. split; [|done]. split; [done|]. split; [done|]. by exists pss'.
    + exists [], (concat pss). split; [done|]. split; [|done]. split; [done|]. split; [done|]. by exists pss.
  - intros (Hf & Hsg & ps0 & ps1 & -> & (Hfs & Hs2 & pss & Hp & ->) & H0). split; [done|split].
    { apply Forall_app. split; [|done]. destruct (decide (word32_at blob off = LC_SEGMENT_64)); [|by constructor]. apply Forall_singleton. auto. }
    destruct (decide (word32_at blob off = LC_UNIXTHREAD)); [exists (ps0 :: pss)|exists pss; subst]; split; try done. by apply Forall2_cons.
Qed.

Lemma load_command_spec off k e out :
  0 <= off <= LIM -> 0 <= k < ANE_FW_NCMDS ->
  room out k (zlen (with_command blob LC_SEGMENT_64 [off])) ->
  (exists reason, load_command blob (zlen blob) fw ANE_FW_SIZEOF_CMDS (WalkState off k e out) = Ret (inl reason) /\
    forall ps, ~ commands_ok blob fw [off] ps) \/
  (exists ps out', load_command blob (zlen blob) fw ANE_FW_SIZEOF_CMDS (WalkState off k e out) =
      Ret (inr (WalkState (next_command blob off) (k + zlen (with_command blob LC_SEGMENT_64 [off])) (last_pc blob e ps) out')) /\
    commands_ok blob fw [off] ps /\ same_shape out out').
Proof using Hb Hfw Hsize.
  intros Ho Hk Hr. pose proof Hfw as (Hsz & _ & _).
  assert (LIM <= zlen blob) as HL by (unfold ANE_FW_SIZEOF_CMDS; lia). assert (LIM < 2 ^ 32) as HL' by (unfold ANE_FW_SIZEOF_CMDS; lia).
  pose proof (wrap_range 32 (off + cmdsize_at blob off)) as Hnr. fold (next_command blob off) in Hnr.
  unfold load_command. cbn [w_off w_nsegs w_entry w_out].
  rewrite (wrap_small 32 (off + 8)); [|unfold ANE_FW_SIZEOF_CMDS in *; lia]. rewrite (wrap_small 32 LIM); [|lia].
  destruct (Z.gtb_spec (off + 8) LIM) as [|Hg]; cbn [orb].
  { left. eexists. split; [done|]. intros ps (Hf & _)%commands_ok_cons. unfold command_fits in Hf. lia. }
  destruct (Z.gtb_spec (off + 8) (zlen blob)); [lia|]. rewrite !le32_eq; [|lia..]. cbn [mbind res_bind].
  fold (cmdsize_at blob off). fold (next_command blob off).
  destruct (Z.ltb_spec (cmdsize_at blob off) 8) as [|Hc]; cbn [orb].
  { left. eexists. split; [done|]. intros ps (Hf & _)%commands_ok_cons. unfold command_fits in Hf. lia. }
  destruct (Z.gtb_spec (next_command blob off) LIM) as [|Hn]; cbn [orb].
  { left. eexists. split; [done|]. intros ps (Hf & _)%commands_ok_cons. unfold command_fits in Hf. lia. }
  destruct (Z.gtb_spec (next_command blob off) (zlen blob)); [lia|].
  assert (command_fits blob off) as Hfit by done.
  assert (commands_ok blob fw [] []) as Hnil by (split_and!; [done..|]; by exists []).
  rewrite with_command_cons app_nil_r in Hr |- *.
  destruct (Z.eqb_spec (word32_at blob off) LC_SEGMENT_64) as [Es|Es].
  - rewrite decide_True // in Hr |- *. destruct (segment_command_spec off k e out ltac:(lia) Hk Hr) as [(reason & -> & Hno)|(out' & -> & Hsh & Hs)].
    + left. exists reason. split; [done|]. intros ps (_ & H' & _)%commands_ok_cons. destruct (H' Es) as (s & Hin & Hs). by apply (Hno s).
    + right. exists [], out'. split_and!; [done| |done]. apply commands_ok_cons. split_and!; [done..|].
      exists [], []. split_and!; [done..|]. rewrite decide_False //. rewrite Es. done.
  - rewrite (decide_False (P := word32_at blob off = LC_SEGMENT_64)) // in Hr |- *.
    replace (k + zlen []) with k by (unfold zlen; cbn; lia).
    destruct (Z.eqb_spec (word32_at blob off) LC_UNIXTHREAD) as [Et|Et].
    + destruct (thread_command_spec off k e out ltac:(lia) Hc Hn) as [(reason & -> & Hno)|(ps & -> & Hps)].
      * left. exists reason. split; [done|]. intros ps (_ & _ & ps0 & ps1 & _ & _ & H')%commands_ok_cons.
        rewrite decide_True // in H'. by apply (Hno ps0).
      * right. exists ps, out. split_and!; [done| |done]. apply commands_ok_cons. split_and!; [done..|].
        exists ps, []. rewrite app_nil_r. split_and!; [done..|]. by rewrite decide_True.
    + right. exists [], out. split_and!; [done| |done]. apply commands_ok_cons. split_and!; [done..|].
      exists [], []. split_and!; [done..|]. by rewrite decide_False.
Qed.

Lemma load_commands_spec n off k e out :
  0 <= off <= LIM -> 0 <= k -> k + Z.of_nat n <= ANE_FW_NCMDS ->
  room out k (zlen (with_command blob LC_SEGMENT_64 (command_offsets blob n off))) ->
  (exists reason, load_commands n blob (zlen blob) fw ANE_FW_SIZEOF_CMDS (WalkState off k e out) = Ret (inl reason) /\
    forall ps, ~ commands_ok blob fw (command_offsets blob n off) ps) \/
  (exists ps off' out', load_commands n blob (zlen blob) fw ANE_FW_SIZEOF_CMDS (WalkState off k e out) =
      Ret (inr (WalkState off' (k + zlen (with_command blob LC_SEGMENT_64 (command_offsets blob n off))) (last_pc blob e ps) out')) /\
    commands_ok blob fw (command_offsets blob n off) ps /\ same_shape out out').
Proof using Hb Hfw Hsize.
  revert off k e out. induction n as [|n IH]; intros off k e out Ho Hk Hn Hr; cbn [load_commands command_offsets].
  { right. exists [], off, out. split_and!; [|split_and!; [done..|by exists []]|done].
    by replace (k + zlen (with_command blob LC_SEGMENT_64 [])) with k by (unfold zlen; cbn; lia). }
  cbn [command_offsets] in Hr. rewrite with_command_cons zlen_app in Hr |- *.
  pose proof (with_command_cons LC_SEGMENT_64 off []) as E1. rewrite app_nil_r in E1. rewrite -E1 in Hr |- *.
  set (c1 := zlen (with_command blob LC_SEGMENT_64 [off])) in *.
  set (c2 := zlen (with_command blob LC_SEGMENT_64 (command_offsets blob n (next_command blob off)))) in *.
  assert (0 <= c1 <= 1) as Hc1 by (unfold c1; rewrite E1; case_decide; unfold zlen; cbn; lia).
  assert (0 <= c2) as Hc2 by apply zlen_nonneg.
  destruct (load_command_spec off k e out Ho ltac:(lia)) as [(reason & -> & Hno)|(ps0 & out1 & -> & H0 & Hsh)].
  { intros l Hl. specialize (Hr l Hl). fold c1. lia. }
  { left. exists reason. split; [done|]. intros ps (Hf & Hsg & ps0 & ps1 & -> & _ & H1)%commands_ok_cons.
    apply (Hno ps0). apply commands_ok_cons. split; [done|]. split; [done|]. exists ps0, []. rewrite app_nil_r. split; [done|].
    split; [|done]. split; [done|]. split; [done|]. by exists []. }
  apply commands_ok_cons in H0 as (Hf & Hsg & ps0' & ps1' & -> & (_ & _ & pss & Hp & ->) & H1).
  apply Forall2_nil_inv_l in Hp as ->. cbn [concat]. rewrite app_nil_r.
  cbn [mbind res_bind]. fold c1. pose proof (wrap_range 32 (off + cmdsize_at blob off)) as Hnr. fold (next_command blob off) in Hnr.
  pose proof Hf as (_ & _ & Hnl).
  destruct (IH (next_command blob off) (k + c1) (last_pc blob e ps0') out1 ltac:(lia) ltac:(lia) ltac:(lia)) as
    [(reason & -> & Hno)|(ps & off' & out' & -> & Hok & Hsh')].
  { intros l Hl. fold c2. subst out1. unfold same_shape in Hsh. cbn in Hsh. destruct out as [l0|]; [|done].
    injection Hsh as Hz. specialize (Hr l0 eq_refl). lia. }
  - left. exists reason. split; [done|]. intros ps (_ & _ & ps0 & ps1 & -> & Hok & _)%commands_ok_cons. by apply (Hno ps1).
  - right. exists (ps0' ++ ps), off', out'. fold c2. rewrite Z.add_assoc last_pc_app. split_and!; [done| |].
    + apply commands_ok_cons. split_and!; [done..|]. by exists ps0', ps.
    + unfold same_shape in *. congruence.
Qed.

(** The final copy fills the first entries with the pinned segments. *)
Lemma publish_segs_eq l :
  ANE_FW_NSEGS <= zlen l ->
  exists l', publish_segs fw (Some l) = Ret (Some l') /\ take 2 l' = fw_segs fw /\ zlen l' = zlen l.
Proof using Hfw.
  intros Hl. destruct Hfw as (_ & Hn & _). unfold ANE_FW_NSEGS in *. unfold publish_segs.
  change (seqZ 0 ANE_FW_NSEGS) with [0; 1]. cbn [foldM mbind res_bind store_seg].
  rewrite bool_decide_eq_true_2; [|lia]. cbn [foldM mbind res_bind store_seg].
  rewrite bool_decide_eq_true_2; [|rewrite zlen_insert; lia]. cbn [mbind res_bind].
  eexists. split; [done|]. rewrite !zlen_insert. split; [|done]. change (Z.to_nat 0) with 0%nat. change (Z.to_nat 1) with 1%nat.
  destruct l as [|a [|b l]]; try (unfold zlen in Hl; cbn in Hl; lia).
  destruct (fw_segs fw) as [|x [|y [|z segs]]]; unfold zlen in Hn; cbn in Hn; try lia. done.
Qed.
End walk.

(** What [segs_out] receives: nothing when it is NULL, else the pinned
    segments at its start. *)
Definition published (fw : ane_fw_image) (out out' : option (list ane_fw_seg)) : Prop :=
  match out, out' with
  | None, None => True
  | Some l, Some l' => take 2 l' = fw_segs fw /\ zlen l' = zlen l
  | _, _ => False
  end.

(** [segs_out] is NULL or has two entries and one for each segment command. *)
Definition out_room (blob : bytes) (out : option (list ane_fw_seg)) : Prop :=
  forall l, out = Some l -> ANE_FW_NSEGS <= zlen l /\ seg_count blob <= zlen l.

(** The guards of the validator up to the walk. *)
Lemma validate_unfold blob fw sha out :
  image_ok fw ->
  ((exists reason, ane_fw_validate_blob blob fw sha out = Ret (inl reason)) /\ ~ pinned_blob blob fw sha) \/
  (zlen blob = fw_size fw /\ take 32 sha = take 32 (fw_sha256 fw) /\
   word32_at blob 0 = MH_MAGIC_64 /\ word32_at blob 4 = CPU_TYPE_ARM64 /\
   word32_at blob 12 = MH_PRELOAD /\ word32_at blob 16 = ANE_FW_NCMDS /\
   word32_at blob 20 = ANE_FW_SIZEOF_CMDS /\ word32_at blob 24 = ANE_FW_FLAGS /\
   ane_fw_validate_blob blob fw sha out =
     (r ← load_commands 5 blob (zlen blob) fw ANE_FW_SIZEOF_CMDS (WalkState 32 0 U64_MAX out);
      match r with
      | inl reason => Ret (inl reason)
      | inr w =>
          if negb (w_nsegs w =? ANE_FW_NSEGS) then Ret (inl "segment count != 2"%string)
          else if negb (w_entry w =? ANE_FW_ENTRY_PC) then Ret (inl "entry pc != 0"%string)
          else out ← publish_segs fw (w_out w); Ret (inr (out, w_entry w))
      end)).
Proof.
  intros (Hsz & _ & _). unfold ane_fw_validate_blob, pinned_blob.
  destruct (Z.eqb_spec (zlen blob) (fw_size fw)) as [Hs|]; [|left; split; [by eexists|tauto]]. cbn [negb].
  case_bool_decide as Hsha; [|left; split; [by eexists|naive_solver]]. cbn [negb]. rewrite !le32_eq; [|lia..]. cbn [mbind res_bind].
  destruct (Z.eqb_spec (word32_at blob 0) MH_MAGIC_64) as [E0|]; [|left; split; [by eexists|tauto]]. cbn [negb].
  destruct (Z.eqb_spec (word32_at blob 4) CPU_TYPE_ARM64) as [E1|]; [|left; split; [by eexists|tauto]]. cbn [negb].
  destruct (Z.eqb_spec (word32_at blob 12) MH_PRELOAD) as [E2|]; [|left; split; [by eexists|tauto]]. cbn [negb].
  destruct (Z.eqb_spec (word32_at blob 16) ANE_FW_NCMDS) as [E3|]; [|left; split; [by eexists|tauto]].
  destruct (Z.eqb_spec (word32_at blob 20) ANE_FW_SIZEOF_CMDS) as [E4|]; [|left; split; [by eexists|tauto]].
  destruct (Z.eqb_spec (word32_at blob 24) ANE_FW_FLAGS) as [E5|]; [|left; split; [by eexists|tauto]].
  right. cbn [negb orb]. rewrite E3 E4. by split_and!.
Qed.

(** The verdict of the validator. *)
Lemma validate_spec blob fw sha out :
  bytes_ok blob -> image_ok fw -> out_room blob out ->
  (pinned_blob blob fw sha /\
    exists out', ane_fw_validate_blob blob fw sha out = Ret (inr (out', ANE_FW_ENTRY_PC)) /\ published fw out out') \/
  (~ pinned_blob blob fw sha /\ exists reason, ane_fw_validate_blob blob fw sha out = Ret (inl reason)).
Proof.
  intros Hb Hfw Hr. destruct (validate_unfold blob fw sha out Hfw) as [[Hx Hno]|H]; [by right|].
  destruct H as (Hs & Hsha & E0 & E1 & E2 & E3 & E4 & E5 & ->).
  assert (seg_count blob = zlen (with_command blob LC_SEGMENT_64 (command_offsets blob 5 32))) as Ec by done.
  destruct (load_commands_spec blob fw Hb Hs Hfw 5 32 0 U64_MAX out) as [(reason & -> & Hno)|(ps & off' & out' & -> & Hok & Hsh)].
  - done.
  - done.
  - done.
  - intros l Hl. destruct (Hr l Hl) as [_ Hrl]. lia.
  - right. split; [|by exists reason]. intros (_ & _ & _ & _ & _ & _ & _ & _ & _ & ps & Hok & _). by apply (Hno ps).
  - cbn [mbind res_bind w_nsegs w_entry w_out]. rewrite Z.add_0_l -Ec.
    destruct (Z.eqb_spec (seg_count blob) ANE_FW_NSEGS) as [En|En]; cbn [negb].
    2: { right. split; [|by eexists]. unfold pinned_blob. tauto. }
    destruct (Z.eqb_spec (last_pc blob U64_MAX ps) ANE_FW_ENTRY_PC) as [Ee|Ee]; cbn [negb].
    2: { right. split; [|by eexists]. intros (_ & _ & _ & _ & _ & _ & _ & _ & _ & ps' & Hok' & Ee'). apply Ee.
         by rewrite (commands_det _ _ _ _ _ Hok Hok'). }
    left. split; [split_and!; try done; by exists ps|]. rewrite Ee. unfold same_shape in Hsh.
    destruct out as [l|], out' as [l1|]; try done.
    + injection Hsh as Hz. destruct (Hr l eq_refl) as [Hl _].
      destruct (publish_segs_eq fw Hfw l1 ltac:(lia)) as (l2 & -> & Ht & Hz2). exists (Some l2). cbn. split_and!; [done..|lia].
    + by exists None.
Qed.

(** C17. On any bytes whatever the validator stays inside the blob, terminates
    and accepts exactly a pinned blob: the pinned size, hash and Mach-O header,
    five commands inside the command area, two of them segment commands, each
    naming a pinned segment by its five fields with its file range inside the
    blob, thread states inside their commands, and an entry of 0 in the last
    ARM_THREAD_STATE64 of them. [segs_out] then starts with the pinned
    segments. It must have two entries and one for every segment command of
    the blob (the source stores an entry before it counts); the two entries
    the loader passes are enough for every blob that is accepted without
    [segs_out]. *)
Theorem fw_validate_exact blob fw sha :
  bytes_ok blob -> image_ok fw ->
  (forall out, out_room blob out ->
    (pinned_blob blob fw sha /\
      exists out', ane_fw_validate_blob blob fw sha out = Ret (inr (out', ANE_FW_ENTRY_PC)) /\ published fw out out') \/
    (~ pinned_blob blob fw sha /\ exists reason, ane_fw_validate_blob blob fw sha out = Ret (inl reason))) /\
  (pinned_blob blob fw sha -> forall l, zlen l = ANE_FW_NSEGS -> out_room blob (Some l)).
Proof.
  intros Hb Hfw. split; [intros out; by apply validate_spec|].
  intros (_ & _ & _ & _ & _ & _ & _ & _ & Hn & _) l Hl ? [= <-]. lia.
Qed.

(** A small image, and a blob that it accepts. *)
Definition small_fw : ane_fw_image :=
  FwImage "small" (replicate 32 7) 0xa00
    [FwSeg 0 0x20 0x980 0x20 (c_name "__TEXT"); FwSeg 0x20 0x40 0x9a0 0x10 (c_name "__DATA")] [] 0.

Definition segment_bytes (s : ane_fw_seg) : bytes :=
  le_bytes 4 LC_SEGMENT_64 ++ le_bytes 4 72 ++ take 16 (seg_name s) ++ le_bytes 8 (vmaddr s) ++
  le_bytes 8 (vmsize s) ++ le_bytes 8 (fileoff s) ++ le_bytes 8 (filesize s) ++ replicate 16 0.

Definition command_bytes (cmd cmdsize : Z) : bytes :=
  le_bytes 4 cmd ++ le_bytes 4 cmdsize ++ replicate (Z.to_nat (cmdsize - 8)) 0.

Definition small_header : bytes :=
  le_bytes 4 MH_MAGIC_64 ++ le_bytes 4 CPU_TYPE_ARM64 ++ le_bytes 4 0 ++ le_bytes 4 MH_PRELOAD ++
  le_bytes 4 ANE_FW_NCMDS ++ le_bytes 4 ANE_FW_SIZEOF_CMDS ++ le_bytes 4 ANE_FW_FLAGS ++ le_bytes 4 0.

Definition thread_bytes : bytes :=
  le_bytes 4 LC_UNIXTHREAD ++ le_bytes 4 288 ++ le_bytes 4 ARM_THREAD_STATE64 ++ le_bytes 4 68 ++
  replicate 272 0.

Definition pad (n : Z) (m : bytes) : bytes := m ++ replicate (Z.to_nat (n - zlen m)) 0.

Definition small_blob (first second third : bytes) : bytes :=
  pad 0xa00 (small_header ++ first ++ second ++ third ++ command_bytes 0x1b 24 ++ thread_bytes).

Abbreviation text_bytes := (segment_bytes (FwSeg 0 0x20 0x980 0x20 (c_name "__TEXT"))).
Abbreviation data_bytes := (segment_bytes (FwSeg 0x20 0x40 0x9a0 0x10 (c_name "__DATA"))).
Abbreviation good_blob := (small_blob text_bytes data_bytes (command_bytes 2 24)).

Lemma fw_validate_exact_witness :
  pinned_blob good_blob small_fw (replicate 32 7) /\
  exists out', ane_fw_validate_blob good_blob small_fw (replicate 32 7) (Some (fw_segs ane_fw_bia)) =
      Ret (inr (out', ANE_FW_ENTRY_PC)) /\ published small_fw (Some (fw_segs ane_fw_bia)) out'.
Proof.
  assert (bytes_ok good_blob) as Hb by vm_decide. assert (image_ok small_fw) as Hi by vm_decide.
  destruct (fw_validate_exact good_blob small_fw (replicate 32 7) Hb Hi) as [Hv _].
  destruct (Hv (Some (fw_segs ane_fw_bia))) as [H|[_ [reason H]]]; [|exact H|].
  - intros l E. injection E as <-. vm_compute. split; congruence.
  - exfalso. revert H. vm_compute. congruence.
Defined.

(** [segs_out] is written before the segments are counted: a third command
    that names a pinned segment stores past an array of two. Only the hash
    stands before it. *)
Lemma segs_out_overflow :
  ane_fw_validate_blob (small_blob text_bytes data_bytes text_bytes) small_fw (replicate 32 7)
    (Some (fw_segs small_fw)) = Fault OutOfBounds.
Proof. vm_compute. reflexivity. Qed.

(** The pinned images satisfy [image_ok]. *)
Lemma pinned_images_ok : Forall image_ok [ane_fw_selene; ane_fw_bia].
Proof. vm_decide. Qed.

(** ** The patches *)

Lemma put_le_eq n m p v :
  0 <= p -> p + Z.of_nat n <= zlen m -> ane_fw_put_le m p v n = Ret (patch m p (le_bytes n v)).
Proof.
  revert m p v. induction n as [|n IH]; intros m p v Hp Hl.
  - cbn [ane_fw_put_le]. change (le_bytes 0 v) with (@nil Z). by rewrite patch_nil.
  - cbn [ane_fw_put_le]. rewrite wr8_eq; [|lia]. cbn [mbind res_bind].
    rewrite IH; [|lia|rewrite zlen_insert; lia]. f_equal. rewrite patch_insert; [done|lia|].
    rewrite zlen_le_bytes. lia.
Qed.

(** A list of stores, in order. *)
Definition writes := list (Z * bytes).
Definition apply_writes (m : bytes) (ws : writes) : bytes := foldl (fun m w => patch m w.1 w.2) m ws.

(** Stores at ascending, disjoint ranges from [lo] to [hi]. *)
Fixpoint ascending (lo hi : Z) (ws : writes) : bool :=
  match ws with
  | [] => lo <=? hi
  | (o, bs) :: ws' => (lo <=? o) && ascending (o + zlen bs) hi ws'
  end.

Lemma ascending_le lo hi ws : ascending lo hi ws = true -> lo <= hi.
Proof.
  revert lo. induction ws as [|[o bs] ws IH]; intros lo; cbn [ascending]; [lia|].
  intros [Hl H]%andb_true_iff. specialize (IH _ H). pose proof (zlen_nonneg bs). lia.
Qed.

Lemma zlen_apply_writes m ws lo :
  0 <= lo -> ascending lo (zlen m) ws = true -> zlen (apply_writes m ws) = zlen m.
Proof.
  revert m lo. induction ws as [|[o bs] ws IH]; intros m lo Hlo H; [done|].
  cbn [ascending] in H. apply andb_true_iff in H as [Hl H]. pose proof (ascending_le _ _ _ H).
  pose proof (zlen_nonneg bs). change (apply_writes m ((o, bs) :: ws)) with (apply_writes (patch m o bs) ws).
  assert (zlen (patch m o bs) = zlen m) as E by (apply zlen_patch; lia).
  rewrite (IH _ (o + zlen bs)); [done|lia|by rewrite E].
Qed.

(** Bytes before [lo] are not touched. *)
Lemma apply_writes_before m ws lo i :
  0 <= lo -> ascending lo (zlen m) ws = true -> 0 <= i < lo -> byte_at (apply_writes m ws) i = byte_at m i.
Proof.
  revert m lo. induction ws as [|[o bs] ws IH]; intros m lo Hlo H Hi; [done|].
  cbn [ascending] in H. apply andb_true_iff in H as [Hl H]. pose proof (ascending_le _ _ _ H).
  pose proof (zlen_nonneg bs). change (apply_writes m ((o, bs) :: ws)) with (apply_writes (patch m o bs) ws).
  assert (zlen (patch m o bs) = zlen m) as E by (apply zlen_patch; lia).
  rewrite (IH _ (o + zlen bs)); [|lia|by rewrite E|lia].
  rewrite byte_at_patch; [|lia..]. rewrite bool_decide_eq_false_2; [done|lia].
Qed.

(** Every store is in the result, and nothing else changed. *)
Lemma apply_writes_in m ws lo :
  0 <= lo -> ascending lo (zlen m) ws = true ->
  Forall (fun w => slice (apply_writes m ws) w.1 (zlen w.2) = w.2) ws /\
  (forall i, 0 <= i -> Forall (fun w => ~ w.1 <= i < w.1 + zlen w.2) ws ->
    byte_at (apply_writes m ws) i = byte_at m i).
Proof.
  revert m lo. induction ws as [|[o bs] ws IH]; intros m lo Hlo H; [by split|].
  cbn [ascending] in H. apply andb_true_iff in H as [Hl H]. pose proof (ascending_le _ _ _ H).
  pose proof (zlen_nonneg bs). change (apply_writes m ((o, bs) :: ws)) with (apply_writes (patch m o bs) ws).
  assert (zlen (patch m o bs) = zlen m) as E by (apply zlen_patch; lia).
  rewrite -E in H. destruct (IH _ (o + zlen bs) ltac:(lia) H) as [Hin Hout].
  pose proof (zlen_apply_writes (patch m o bs) ws (o + zlen bs) ltac:(lia) H) as El. split.
  - constructor; [|done]. cbn [fst snd]. apply bytes_ext.
    { rewrite zlen_slice; lia. }
    intros i Hi. rewrite zlen_slice in Hi; [|lia..]. rewrite byte_at_slice; [|lia..].
    rewrite (apply_writes_before _ _ (o + zlen bs)); [|lia|done|lia].
    rewrite byte_at_patch; [|lia..]. rewrite bool_decide_eq_true_2; [|lia]. f_equal. lia.
  - intros i Hi [Ho Hw]%Forall_cons. cbn in Ho. rewrite Hout; [|done..].
    rewrite byte_at_patch; [|lia..]. by rewrite bool_decide_eq_false_2.
Qed.

Lemma apply_writes_app m ws ws' : apply_writes m (ws ++ ws') = apply_writes (apply_writes m ws) ws'.
Proof. apply foldl_app. Qed.

(** The stores of one patch run: the fields of the image, in source order. *)
Definition rtk_writes (vms : list Z) (recs : list (Z * Z)) (vals : list Z) : writes :=
  zip_with (fun vr v => (vr.1 + 8, le_bytes (Z.to_nat vr.2.2) v)) (zip vms recs) vals.

Definition tunable_writes (blk i : Z) (rs : list ane_asc_tunable) : writes :=
  imap (fun j r => (blk + 8 + 20 * (i + Z.of_nat j),
                    le_bytes 4 (tn_off r) ++ le_bytes 8 (tn_mask r) ++ le_bytes 8 (tn_val r))) rs.

Definition boot_writes (fw : ane_fw_image) (t : ane_asc_tunables) (p : ane_fw_boot_patch) (key : Z) :
    writes :=
  [(ANE_FW_DATA_BASE_VM,
    le_bytes 8 (exec_base p + vmaddr (default (FwSeg 0 0 0 0 []) (fw_segs fw !! 1%nat))))] ++
  rtk_writes (rtk_vm fw) rtk_rec (rtk_val p) ++
  [(tunables_vm fw + 3, [u8 (tn_n t)]); (tunables_vm fw + 4, le_bytes 4 key)] ++
  tunable_writes (tunables_vm fw) 0 (take (Z.to_nat (tn_n t)) (tn_r t)).

Lemma put_rtk_eq vms recs vals m lo :
  0 <= lo -> ascending lo (zlen m) (rtk_writes vms recs vals) = true ->
  put_rtk m vms recs vals = Ret (apply_writes m (rtk_writes vms recs vals)).
Proof.
  unfold rtk_writes. revert m lo recs vals.
  induction vms as [|vm vms IH]; intros m lo [|[tag len] recs] [|v vals] Hlo H; try done.
  cbn [zip zip_with fst snd ascending] in H. apply andb_true_iff in H as [Hl H].
  cbn [put_rtk zip zip_with fst snd]. rewrite zlen_le_bytes in H.
  pose proof (ascending_le _ _ _ H). rewrite put_le_eq; [|lia..]. cbn [mbind res_bind].
  assert (zlen (patch m (vm + 8) (le_bytes (Z.to_nat len) v)) = zlen m) as E
    by (apply zlen_patch; rewrite ?zlen_le_bytes; lia).
  rewrite (IH _ (vm + 8 + Z.of_nat (Z.to_nat len))); [done|lia|by rewrite E].
Qed.

Lemma tunable_writes_cons blk i r rs :
  tunable_writes blk i (r :: rs) =
  (blk + 8 + 20 * i, le_bytes 4 (tn_off r) ++ le_bytes 8 (tn_mask r) ++ le_bytes 8 (tn_val r)) ::
  tunable_writes blk (i + 1) rs.
Proof.
  unfold tunable_writes. rewrite imap_cons. f_equal; [do 2 f_equal; lia|]. apply imap_ext. intros j x _. cbn.
  do 2 f_equal. lia.
Qed.

Lemma put_tunables_eq rs m blk i lo :
  0 <= lo -> ascending lo (zlen m) (tunable_writes blk i rs) = true ->
  put_tunables m blk i rs = Ret (apply_writes m (tunable_writes blk i rs)).
Proof.
  revert m i lo. induction rs as [|r rs IH]; intros m i lo Hlo H; [done|].
  rewrite tunable_writes_cons in H |- *. cbn [ascending] in H. apply andb_true_iff in H as [Hl H].
  rewrite !zlen_app !zlen_le_bytes in H. pose proof (ascending_le _ _ _ H) as Hle.
  pose proof (zlen_le_bytes 4 (tn_off r)) as L1. pose proof (zlen_le_bytes 8 (tn_mask r)) as L2.
  pose proof (zlen_le_bytes 8 (tn_val r)) as L3. set (o := blk + 8 + 20 * i) in *.
  cbn [put_tunables]. fold o. rewrite put_le_eq; [|lia..]. cbn [mbind res_bind].
  assert (zlen (patch m o (le_bytes 4 (tn_off r))) = zlen m) as E1 by (apply zlen_patch; lia).
  replace (blk + 12 + 20 * i) with (o + zlen (le_bytes 4 (tn_off r))) by lia.
  rewrite put_le_eq; [|lia..]. cbn [mbind res_bind]. rewrite patch_patch_app; [|lia..].
  assert (zlen (patch m o (le_bytes 4 (tn_off r) ++ le_bytes 8 (tn_mask r))) = zlen m) as E2
    by (apply zlen_patch; rewrite ?zlen_app; lia).
  replace (blk + 20 + 20 * i) with (o + zlen (le_bytes 4 (tn_off r) ++ le_bytes 8 (tn_mask r)))
    by (rewrite zlen_app; lia).
  assert (zlen (le_bytes 4 (tn_off r) ++ le_bytes 8 (tn_mask r)) = 12) as L12 by (rewrite zlen_app; lia).
  rewrite put_le_eq; [|lia..]. cbn [mbind res_bind].
  rewrite patch_patch_app; [|lia..]. rewrite -app_assoc.
  assert (zlen (patch m o (le_bytes 4 (tn_off r) ++ le_bytes 8 (tn_mask r) ++ le_bytes 8 (tn_val r))) = zlen m) as E3
    by (apply zlen_patch; rewrite ?zlen_app; lia).
  rewrite (IH _ (i + 1) (o + 20)); [done|lia|]. rewrite E3. revert H.
  replace (o + (Z.of_nat 4 + (Z.of_nat 8 + Z.of_nat 8))) with (o + 20) by lia. done.
Qed.

Lemma ascending_app lo hi ws ws' :
  ascending lo hi (ws ++ ws') = true ->
  exists mid, lo <= mid /\ ascending lo mid ws = true /\ ascending mid hi ws' = true /\
    (forall hi', mid <= hi' -> ascending lo hi' ws = true).
Proof.
  revert lo. induction ws as [|[o bs] ws IH]; intros lo; cbn [app ascending].
  - intros H. exists lo. split_and!; [lia..|done|lia].
  - intros [Hl H]%andb_true_iff. destruct (IH _ H) as (mid & Hm & H1 & H2 & H3).
    pose proof (zlen_nonneg bs). exists mid. split_and!; [lia|by rewrite Hl|done|]. intros hi' Hh.
    rewrite Hl. by apply H3.
Qed.

Lemma ascending_mono lo hi hi' ws : hi <= hi' -> ascending lo hi ws = true -> ascending lo hi' ws = true.
Proof.
  intros Hh. revert lo. induction ws as [|[o bs] ws IH]; intros lo; cbn [ascending]; [lia|].
  intros [-> H]%andb_true_iff. by apply IH.
Qed.

(** The fields the checks read are inside an image of [hi] bytes. *)
Definition layout_ok (fw : ane_fw_image) (hi : Z) : bool :=
  forallb (fun vm => (0 <=? vm) && (vm + 8 <=? hi)) (rtk_vm fw) &&
  (0 <=? tunables_vm fw) && (tunables_vm fw + 8 <=? hi) && (ANE_FW_DATA_BASE_VM + 8 <=? hi).

Definition records_match (img : bytes) (fw : ane_fw_image) : Prop :=
  forall i vm tag len, rtk_vm fw !! i = Some vm -> rtk_rec !! i = Some (tag, len) ->
    word32_at img vm = tag /\ word32_at img (vm + 4) = len.

(** The image the patches accept: the archive's, never patched. *)
Definition patch_ready (img : bytes) (fw : ane_fw_image) (t : ane_asc_tunables)
    (p : ane_fw_boot_patch) (key : Z) : Prop :=
  pick_key (take (Z.to_nat (tn_nkeys t)) (tn_keys t)) (soc_revision p) = Some key /\
  tn_n t <= ANE_FW_TUNABLES_MAX /\ word64_at img ANE_FW_DATA_BASE_VM = 0 /\
  records_match img fw /\ slice img (tunables_vm fw) 8 = tunables_unset.

Lemma rtk_match_eq img vms recs :
  Forall (fun vm => 0 <= vm /\ vm + 8 <= zlen img) vms ->
  exists b, rtk_match img vms recs = Ret b /\
    (b = true <-> forall i vm tag len, vms !! i = Some vm -> recs !! i = Some (tag, len) ->
      word32_at img vm = tag /\ word32_at img (vm + 4) = len).
Proof.
  intros Hv. revert recs. induction Hv as [|vm vms [Hv0 Hv1] _ IH]; intros [|[tag len] recs];
    try (exists true; split; [done|]; split; [by intros _ [|i] ?? ?|done]).
  cbn [rtk_match]. rewrite !le32_eq; [|lia..]. cbn [mbind res_bind].
  destruct (Z.eqb_spec (word32_at img vm) tag) as [E|Hne]; cbn [negb].
  2: { exists false. split; [done|]. split; [done|]. intros H. by destruct (H 0%nat vm tag len eq_refl eq_refl). }
  destruct (Z.eqb_spec (word32_at img (vm + 4)) len) as [E'|Hne]; cbn [negb].
  2: { exists false. split; [done|]. split; [done|]. intros H. by destruct (H 0%nat vm tag len eq_refl eq_refl). }
  destruct (IH recs) as (b & -> & Hb). exists b. split; [done|]. rewrite Hb. split.
  - intros H [|i] vm' tag' len' Hi Hr; [by simplify_eq/=|by apply (H i)].
  - intros H i. apply (H (S i)).
Qed.

(** The patch run against its list of stores. *)
Lemma apply_boot_patches_spec img fw t p :
  layout_ok fw (zlen img) = true ->
  (forall key, ascending 0 (zlen img) (boot_writes fw t p key) = true) ->
  (exists key, patch_ready img fw t p key /\
    ane_fw_apply_boot_patches img fw t p = Ret (apply_writes img (boot_writes fw t p key), None)) \/
  (exists reason, ane_fw_apply_boot_patches img fw t p = Ret (img, Some reason) /\
    forall key, ~ patch_ready img fw t p key).
Proof.
  intros Hlay Hasc. unfold layout_ok in Hlay. repeat (apply andb_true_iff in Hlay as [Hlay ?]).
  assert (Forall (fun vm => 0 <= vm /\ vm + 8 <= zlen img) (rtk_vm fw)) as Hvm.
  { apply Forall_forall. intros vm Hin. rewrite forallb_forall in Hlay. specialize (Hlay vm).
    rewrite list_elem_of_In in Hin. specialize (Hlay Hin). lia. }
  unfold ane_fw_apply_boot_patches.
  destruct (pick_key _ _) as [key|] eqn:Ek; [|right; eexists; split; [done|]; intros key (? & _); congruence].
  destruct (Z.gtb_spec (tn_n t) ANE_FW_TUNABLES_MAX); [right; eexists; split; [done|]; intros ? (_ & ? & _); lia|].
  rewrite le64_eq; [|unfold ANE_FW_DATA_BASE_VM in *; lia..]. cbn [mbind res_bind].
  destruct (Z.eqb_spec (word64_at img ANE_FW_DATA_BASE_VM) 0) as [E0|]; cbn [negb];
    [|right; eexists; split; [done|]; by intros ? (_ & _ & ? & _)].
  destruct (rtk_match_eq img (rtk_vm fw) rtk_rec Hvm) as (b & -> & Hb). cbn [mbind res_bind].
  destruct b; cbn [negb]; [|right; eexists; split; [done|]; intros ? (_ & _ & _ & Hm & _); by apply Hb in Hm].
  unfold bytes_eq. change (zlen tunables_unset) with 8. rewrite bool_decide_eq_true_2; [|lia]. cbn [mbind res_bind].
  case_bool_decide as Hu; cbn [negb]; [|right; eexists; split; [done|]; by intros ? (_ & _ & _ & _ & ?)].
  left. exists key. split; [split; [done|]; split; [done|]; split; [done|]; split; [exact (proj1 Hb eq_refl)|done]|].
  specialize (Hasc key). unfold boot_writes in Hasc |- *.
  apply ascending_app in Hasc as (m1 & Hm1 & A1 & Hasc & A1').
  pose proof (ascending_le _ _ _ Hasc) as Hle1.
  apply ascending_app in Hasc as (m2 & Hm2 & A2 & Hasc & A2').
  pose proof (ascending_le _ _ _ Hasc) as Hle2.
  apply ascending_app in Hasc as (m3 & Hm3 & A3 & A4 & A3'). pose proof (ascending_le _ _ _ A4) as Hle3.
  set (base := exec_base p + _) in *. cbn [ascending] in A1. rewrite zlen_le_bytes in A1.
  assert (ANE_FW_DATA_BASE_VM + 8 <= zlen img) by lia.
  rewrite put_le_eq; [|unfold ANE_FW_DATA_BASE_VM in *; lia..]. cbn [mbind res_bind]. rewrite le_bytes_wrap; [|lia].
  rewrite !apply_writes_app. cbn [apply_writes foldl fst snd].
  set (img1 := patch img ANE_FW_DATA_BASE_VM (le_bytes 8 base)).
  assert (zlen img1 = zlen img) as L1 by (apply zlen_patch; rewrite ?zlen_le_bytes; unfold ANE_FW_DATA_BASE_VM in *; lia).
  rewrite (put_rtk_eq _ _ _ img1 m1); [|lia|by rewrite L1; apply A2'; lia]. cbn [mbind res_bind].
  set (img2 := apply_writes img1 _).
  assert (zlen img2 = zlen img) as L2 by (rewrite -L1; apply (zlen_apply_writes _ _ m1); [lia|rewrite L1; apply A2'; lia]).
  cbn [ascending] in A3. rewrite zlen_le_bytes in A3. change (zlen [u8 (tn_n t)]) with 1 in A3.
  rewrite wr8_eq; [|lia]. cbn [mbind res_bind].
  assert (<[Z.to_nat (tunables_vm fw + 3) := u8 (tn_n t)]> img2 = patch img2 (tunables_vm fw + 3) [u8 (tn_n t)]) as Ep.
  { rewrite -patch_insert; [by rewrite patch_nil|lia|change (zlen (@nil Z)) with 0; lia]. }
  rewrite Ep. set (img3 := patch img2 _ _).
  assert (zlen img3 = zlen img) as L3 by (rewrite -L2; apply zlen_patch; change (zlen [u8 (tn_n t)]) with 1; lia).
  rewrite put_le_eq; [|lia..]. cbn [mbind res_bind]. set (img4 := patch img3 _ _).
  assert (zlen img4 = zlen img) as L4 by (rewrite -L3; apply zlen_patch; rewrite ?zlen_le_bytes; lia).
  rewrite (put_tunables_eq _ img4 _ _ m3); [done|lia|by rewrite L4].
Qed.

(** Where the stores go does not depend on the values stored. *)
Definition shape (ws : writes) : list (Z * Z) := map (fun w => (w.1, zlen w.2)) ws.

Lemma ascending_shape lo hi ws ws' : shape ws = shape ws' -> ascending lo hi ws = ascending lo hi ws'.
Proof.
  revert lo ws'. induction ws as [|[o bs] ws IH]; intros lo [|[o' bs'] ws'] H; try done.
  injection H as -> Hl H. cbn [ascending]. rewrite Hl. f_equal. by apply IH.
Qed.

Lemma rtk_writes_shape vms recs vals vals' :
  length vals = length vals' -> shape (rtk_writes vms recs vals) = shape (rtk_writes vms recs vals').
Proof.
  unfold rtk_writes. revert recs vals vals'.
  induction vms as [|vm vms IH]; intros [|[tag len] recs] [|v vals] [|v' vals'] Hl; try done.
  cbn. rewrite !zlen_le_bytes. f_equal. apply IH. by injection Hl.
Qed.

Lemma boot_writes_shape fw t p key p' key' :
  shape (boot_writes fw t p key) = shape (boot_writes fw t p' key').
Proof.
  unfold boot_writes, shape. rewrite !map_app. cbn [map fst snd]. rewrite !zlen_le_bytes.
  f_equal. f_equal. by apply rtk_writes_shape.
Qed.

(** The whole layout check for an image of [hi] bytes. *)
Definition patch_layout (fw : ane_fw_image) (t : ane_asc_tunables) (hi : Z) : bool :=
  layout_ok fw hi && ascending 0 hi (boot_writes fw t (BootPatch 0 0 0 0 0 0) 0).

(** The little-endian value of eight bytes just stored. *)
Lemma word64_at_slice m o v : slice m o 8 = le_bytes 8 v -> 0 <= o -> word64_at m o = u64 v.
Proof.
  intros Hs Ho.
  assert (forall i, 0 <= i < 8 -> byte_at m (o + i) = byte_at (le_bytes 8 v) i) as Hb.
  { intros i Hi. by rewrite -(byte_at_slice m o 8 i) // Hs. }
  assert (word32_at m o = u32 v) as E0.
  { rewrite -word32_at_le_bytes. apply word32_at_ext. intros i Hi. rewrite Hb; [|lia]. rewrite (le_bytes_app 4 4).
    unfold byte_at. rewrite lookup_app_l; [done|]. pose proof (zlen_le_bytes 4 v). unfold zlen in *. lia. }
  assert (word32_at m (o + 4) = u32 (Z.shiftr v 32)) as E1.
  { rewrite -word32_at_le_bytes. apply word32_at_ext. intros i Hi. rewrite -Z.add_assoc Hb; [|lia].
    rewrite (le_bytes_app 4 4). pose proof (zlen_le_bytes 4 v). unfold zlen in *.
    unfold byte_at. rewrite lookup_app_r; [|lia]. do 2 f_equal. lia. }
  unfold word64_at. rewrite E0 E1. pose proof (wrap_range 32 v). rewrite lor_shiftl_add; [|lia..].
  unfold wrap. rewrite Z.shiftr_div_pow2; [|lia]. change (2 ^ 64) with (2 ^ 32 * 2 ^ 32).
  rewrite (Z.rem_mul_r v (2 ^ 32)); lia.
Qed.

Lemma patch_layout_mono fw t hi hi' :
  hi <= hi' -> patch_layout fw t hi = true -> patch_layout fw t hi' = true.
Proof.
  intros Hh. unfold patch_layout, layout_ok. intros [H Ha]%andb_true_iff.
  repeat (apply andb_true_iff in H as [H ?]). rewrite (ascending_mono 0 hi hi'); [|done..].
  assert (forallb (fun vm => (0 <=? vm) && (vm + 8 <=? hi')) (rtk_vm fw) = true) as ->; [|lia].
  rewrite forallb_forall in H. rewrite forallb_forall. intros vm Hv. specialize (H vm Hv). lia.
Qed.

(** A patch run on a valid layout returns, and keeps the length. *)
Lemma patches_run img fw t p :
  patch_layout fw t (zlen img) = true ->
  (exists key, patch_ready img fw t p key /\
    ane_fw_apply_boot_patches img fw t p = Ret (apply_writes img (boot_writes fw t p key), None) /\
    zlen (apply_writes img (boot_writes fw t p key)) = zlen img /\
    Forall (fun w => slice (apply_writes img (boot_writes fw t p key)) w.1 (zlen w.2) = w.2) (boot_writes fw t p key)) \/
  (exists reason, ane_fw_apply_boot_patches img fw t p = Ret (img, Some reason) /\
    forall key, ~ patch_ready img fw t p key).
Proof.
  intros Hpl. pose proof Hpl as [Hlay Hasc]%andb_true_iff.
  assert (forall key, ascending 0 (zlen img) (boot_writes fw t p key) = true) as Hany.
  { intros key. rewrite -Hasc. apply ascending_shape, boot_writes_shape. }
  destruct (apply_boot_patches_spec img fw t p Hlay Hany) as [(key & Hr & E)|?]; [left|by right].
  exists key. split; [done|]. split; [done|]. split; [by apply (zlen_apply_writes _ _ 0)|].
  apply (apply_writes_in _ _ 0); [done|apply Hany].
Qed.

(** The fields of both pinned images, with every tunables table, are
    disjoint and inside the staged buffer; and on any image that holds such
    a layout the patch run never leaves it, and either refuses and leaves
    every byte as it was, or the image was an unpatched archive copy and
    then each field holds exactly its value and every other byte is
    unchanged. A second run on the result is refused unless the DATA address
    it wrote is zero. *)
Theorem fw_patches_exact :
  Forall (fun fw => Forall (fun t => patch_layout fw t ANE_FW_BUF_SIZE = true)
      [ane_t602x_asc_tunables; ane_t6020_asc_tunables; ane_t8112_asc_tunables])
    [ane_fw_selene; ane_fw_bia] /\
  forall img fw t p, patch_layout fw t (zlen img) = true ->
  exists img' r, ane_fw_apply_boot_patches img fw t p = Ret (img', r) /\
    match r with
    | Some _ => img' = img /\ forall key, ~ patch_ready img fw t p key
    | None => exists key, patch_ready img fw t p key /\ zlen img' = zlen img /\
        Forall (fun w => slice img' w.1 (zlen w.2) = w.2) (boot_writes fw t p key) /\
        (forall i, 0 <= i -> Forall (fun w => ~ w.1 <= i < w.1 + zlen w.2) (boot_writes fw t p key) ->
          byte_at img' i = byte_at img i) /\
        (forall t' p', u64 (exec_base p + vmaddr (default (FwSeg 0 0 0 0 []) (fw_segs fw !! 1%nat))) <> 0 ->
          patch_layout fw t' (zlen img) = true ->
          exists reason, ane_fw_apply_boot_patches img' fw t' p' = Ret (img', Some reason))
    end.
Proof.
  split; [repeat constructor|]. intros img fw t p [Hlay Hasc]%andb_true_iff.
  assert (forall t' p' key, patch_layout fw t' (zlen img) = true ->
    ascending 0 (zlen img) (boot_writes fw t' p' key) = true) as Hany.
  { intros t' p' key [_ H]%andb_true_iff. rewrite -H. apply ascending_shape, boot_writes_shape. }
  assert (patch_layout fw t (zlen img) = true) as Hpl by (unfold patch_layout; by rewrite Hlay Hasc).
  destruct (apply_boot_patches_spec img fw t p Hlay (fun key => Hany t p key Hpl)) as [(key & Hr & E)|(reason & E & Hn)].
  2: { exists img, (Some reason). by split. }
  rewrite E. do 2 eexists. split; [done|]. cbn beta iota. exists key. split; [done|].
  pose proof (Hany t p key Hpl) as Ha.
  destruct (apply_writes_in img (boot_writes fw t p key) 0 ltac:(done) Ha) as [Hin Hout].
  pose proof (zlen_apply_writes _ _ _ ltac:(done) Ha) as Hz. split_and!; [done..|].
  intros t' p' Hbase Ht'. pose proof Ht' as [Hl' _]%andb_true_iff. rewrite -Hz in Hl'.
  destruct (apply_boot_patches_spec _ fw t' p' Hl') as [(key' & (_ & _ & H0 & _) & _)|(reason & E' & _)];
    [intros key'; rewrite Hz; by apply Hany| |by exists reason].
  destruct Hbase. apply Forall_inv in Hin. cbn [fst snd] in Hin. rewrite zlen_le_bytes in Hin.
  rewrite -(word64_at_slice _ _ _ Hin); [exact H0|by unfold ANE_FW_DATA_BASE_VM].
Qed.

(** A small layout, and an archive image of it. *)
Definition tiny_fw : ane_fw_image :=
  FwImage "tiny" [] 0 (fw_segs small_fw) [0x4300; 0x4310; 0x431c; 0x4328; 0x4338] 0x4400.

Definition tiny_image : bytes :=
  apply_writes (replicate (Z.to_nat 0x4800) 0)
    (zip_with (fun vm r => (vm, le_bytes 4 r.1 ++ le_bytes 4 r.2)) (rtk_vm tiny_fw) rtk_rec ++
     [(0x4400, tunables_unset)]).

Abbreviation tiny_patch := (BootPatch 0x10000000000 0x1122334455667788 0x6021 0x11 0x285000000 0x285400000).

(** The image is an archive copy. *)
Lemma tiny_ready : patch_ready tiny_image tiny_fw ane_t602x_asc_tunables tiny_patch 0x10.
Proof.
  assert (zlen tiny_image = 0x4800) as Hz by (vm_compute; reflexivity).
  assert (Forall (fun vm => 0 <= vm /\ vm + 8 <= zlen tiny_image) (rtk_vm tiny_fw)) as Hv.
  { rewrite Hz. vm_decide. }
  destruct (rtk_match_eq tiny_image (rtk_vm tiny_fw) rtk_rec Hv) as (b & Eb & Hb).
  assert (rtk_match tiny_image (rtk_vm tiny_fw) rtk_rec = Ret true) as Et by (vm_compute; reflexivity).
  rewrite Et in Eb. injection Eb as <-.
  split; [reflexivity|]. split; [vm_compute; discriminate|]. split; [vm_compute; reflexivity|].
  split; [exact (proj1 Hb eq_refl)|vm_compute; reflexivity].
Qed.

Lemma fw_patches_exact_witness :
  exists img', ane_fw_apply_boot_patches tiny_image tiny_fw ane_t602x_asc_tunables tiny_patch = Ret (img', None) /\
    Forall (fun w => slice img' w.1 (zlen w.2) = w.2) (boot_writes tiny_fw ane_t602x_asc_tunables tiny_patch 0x10).
Proof.
  destruct (proj2 fw_patches_exact tiny_image tiny_fw ane_t602x_asc_tunables tiny_patch) as (img' & r & E & H);
    [vm_compute; reflexivity|].
  destruct r as [reason|]; [destruct H as [_ H]; destruct (H 0x10 tiny_ready)|]. exists img'. split; [exact E|].
  destruct H as (key & (Hk & _) & _ & Hin & _). vm_compute in Hk. injection Hk as <-. exact Hin.
Defined.
