(* ===== verification/FwLoad.v ===== *)
(** * The firmware loader of the T6021 driver

    [src/ane/t6021/ane_t6021_fwload.c]: the per-SoC data, the pinned image's
    validation and staging in coherent memory, the boot patches of the staged
    copy, its alias at the entry address of the coprocessor, and the teardown.
    The IOMMU domain is the interface [Iommu] of [M1Map]; the coherent
    allocator is [DmaCoherent] below. The firmware file, the kernel's SHA-256,
    the registers read and the device tree are parameters. Mapping attributes
    are not modelled. *)

From Stdlib Require Import String.
From S2P Require Import Prelude FwValidate M1Map.

#[local] Open Scope Z_scope.

(** ** Register words *)

Definition ANE_T6021_RVBAR_ENTRY_BASE : Z := 0x0081000000000001.
Definition ANE_T6021_RVBAR_ADDR_MASK : Z := 0xff7efffffffff800.

Definition ane_t6021_rvbar_compose (iova : Z) : Z :=
  Z.lor ANE_T6021_RVBAR_ENTRY_BASE (Z.land iova ANE_T6021_RVBAR_ADDR_MASK).

Definition ane_t6021_rvbar_latched (rd : Z) : bool := negb (Z.land rd 1 =? 0).

Definition ane_t6021_rvbar_entry_bits (rd : Z) : Z := Z.land rd ANE_T6021_RVBAR_ADDR_MASK.

Definition ane_t6021_rvbar_entry_ok (iova : Z) : bool :=
  Z.land iova (u64 (Z.lnot ANE_T6021_RVBAR_ADDR_MASK)) =? 0.

(** ** Per-SoC data *)

Record ane_t602x_soc := Soc {
  soc : Z;
  soc_rev : Z;
  revision_fuse : bool;
  preload_placement : bool;
  soc_fw : ane_fw_image;
  soc_tunables : ane_asc_tunables;
  ps_cpu_off : Z;
  pwgate_off : Z;
  pmu_pa : Z;
  ps_off : Z;
  trace_td_off : Z;
  fw_pin : option string;
}.

Definition ane_t6020_soc : ane_t602x_soc :=
  Soc 0x6020 0x01 false false ane_fw_selene ane_t6020_asc_tunables 0x2e0 0 0x28e084000 0 0x1c20458 None.

Definition ane_t6021_soc : ane_t602x_soc :=
  Soc 0x6021 0x11 false true ane_fw_selene ane_t602x_asc_tunables 0x2e0 0 0x28e084000 0 0x1c20458 None.

Definition ane_t6022_soc : ane_t602x_soc :=
  Soc 0x6022 0x11 false false ane_fw_selene ane_t602x_asc_tunables 0x2e0 0 0x28e084000 0 0x1c20458 None.

Definition ane_t6022_soc_die1 : ane_t602x_soc :=
  Soc 0x6022 0x11 false false ane_fw_selene ane_t602x_asc_tunables 0x2e0 0 0x228e084000 0 0x1c20458
    (Some "t602x_ane1_fw_selene_rc4x"%string).

Definition ane_t8112_soc : ane_t602x_soc :=
  Soc 0x8112 0 true false ane_fw_bia ane_t8112_asc_tunables 0xc008 0x8b8 0x23b70c000 0x8 0 None.

(** The match data: which entry of the compatible table the node has. *)
Inductive soc_id := T6020 | T6021 | T6022 | T8112.

Definition match_data (m : soc_id) : ane_t602x_soc :=
  match m with
  | T6020 => ane_t6020_soc | T6021 => ane_t6021_soc | T6022 => ane_t6022_soc | T8112 => ane_t8112_soc
  end.

Definition ane_t6022_dies : list (Z * ane_t602x_soc) :=
  [(0x28e08c000, ane_t6022_soc); (0x228e08c000, ane_t6022_soc_die1)].

(** [set]: the start of the node's "set" window, if it has one. *)
Definition ane_t6021_soc_for (m : soc_id) (set : option Z) : ane_t602x_soc :=
  match m, set with
  | T6022, Some base =>
      match List.find (fun x => x.1 =? base) ane_t6022_dies with
      | Some x => x.2
      | None => match_data m
      end
  | _, _ => match_data m
  end.

(** ** Module parameters and their checks *)

Record fw_params := FwParams {
  fw_load : bool;
  fw_extra_ram : Z;        (* unsigned int *)
  fw_alias_reserved : bool;
}.

Definition ANE_T6021_FW_ALIAS_PAGE : Z := 0x4000.
Definition SZ_16M : Z := 0x1000000.

Definition ane_t6021_fwload_requested (q : fw_params) : bool := fw_load q.

Definition ane_t6021_fwload_options_ok (q : fw_params) : bool :=
  (fw_extra_ram q <=? SZ_16M) && (Z.land (fw_extra_ram q) (ANE_T6021_FW_ALIAS_PAGE - 1) =? 0).

Definition ane_t6021_fw_alias_is_reserved (q : fw_params) (s : ane_t602x_soc) : bool :=
  fw_alias_reserved q && preload_placement s.

Definition ane_t6021_fw_preload : list (Z * Z) :=
  [(0x10000848000, 0xc4000); (0x10001400000, 0x438000)].

(** A child of /reserved-memory: its range and whether it is no-map. *)
Record reserved_node := ReservedNode { rn_base : Z; rn_size : Z; rn_no_map : bool }.

(** [nodes] is [None] without a /reserved-memory node. *)
Definition ane_t6021_fw_preload_reserved (nodes : option (list reserved_node)) : bool :=
  match nodes with
  | None => false
  | Some ns =>
      zlen (List.filter (fun w =>
        existsb (fun n => rn_no_map n && (rn_base n <=? w.1) && (w.1 + w.2 <=? rn_base n + rn_size n)) ns)
        ane_t6021_fw_preload) =? zlen ane_t6021_fw_preload
  end.

Definition ane_t6021_fwload_placement_ok (q : fw_params) (s : ane_t602x_soc)
    (nodes : option (list reserved_node)) : bool :=
  negb (fw_load q) || negb (ane_t6021_fw_alias_is_reserved q s) || ane_t6021_fw_preload_reserved nodes.

(** ** The coherent allocator *)

(** [dma_alloc d n]: [n] zeroed bytes mapped at an address of the domain;
    [dma_free] unmaps them. *)
Class DmaCoherent `{Iommu} := {
  dma_alloc : domain -> Z -> option (Z * domain);
  dma_free : domain -> Z -> Z -> domain;
}.

Abbreviation P := (page_bytes 14).

(** Whether [j] is one of [n] pages at [a]. *)
Definition page_of (a n j : Z) : Prop := exists x, 0 <= x < n /\ j = a + x * P.

(** The pages of an allocation of [n] bytes. *)
Definition dma_pages (n : Z) : Z := (n + (P - 1)) / P.

(** The device's DMA mask has 32 bits. *)
Class DmaLaws `{DmaCoherent} := {
  dma_alloc_addr d n i d' : dma_alloc d n = Some (i, d') -> 0 < i /\ i + dma_pages n * P <= 2 ^ 32;
  dma_alloc_pages d n i d' : dma_alloc d n = Some (i, d') ->
    (forall j, page_of i (dma_pages n) j -> iova_to_phys d j = None /\
      exists p, iova_to_phys d' j = Some p /\ p <> 0 /\ Z.land p (P - 1) = 0) /\
    (forall j, ~ page_of i (dma_pages n) j -> iova_to_phys d' j = iova_to_phys d j);
  dma_free_pages d i n j : page_of i (dma_pages n) j -> iova_to_phys (dma_free d i n) j = None;
  dma_free_other d i n j : ~ page_of i (dma_pages n) j -> iova_to_phys (dma_free d i n) j = iova_to_phys d j;
}.

Lemma dma_pages_exact n : n mod P = 0 -> dma_pages n = n / P.
Proof.
  intros Hm. unfold dma_pages. apply Z.div_exact in Hm; [|done]. rewrite {1}Hm Z.add_comm Z.mul_comm Z.div_add //.
Qed.

(** The laws at sizes of whole pages. *)
Section whole_pages.
Context `{DmaLaws}.

Lemma dma_alloc_ok d n i d' : dma_alloc d n = Some (i, d') -> n mod P = 0 ->
  (forall j, page_of i (n / P) j -> iova_to_phys d j = None /\
    exists p, iova_to_phys d' j = Some p /\ p <> 0 /\ Z.land p (P - 1) = 0) /\
  (forall j, ~ page_of i (n / P) j -> iova_to_phys d' j = iova_to_phys d j).
Proof. intros Ha Hm. rewrite -dma_pages_exact //. by apply dma_alloc_pages. Qed.

Lemma dma_free_in d i n j : n mod P = 0 -> page_of i (n / P) j -> iova_to_phys (dma_free d i n) j = None.
Proof. intros Hm. rewrite -dma_pages_exact //. by apply dma_free_pages. Qed.

Lemma dma_free_out d i n j :
  n mod P = 0 -> ~ page_of i (n / P) j -> iova_to_phys (dma_free d i n) j = iova_to_phys d j.
Proof. intros Hm. rewrite -dma_pages_exact //. by apply dma_free_other. Qed.
End whole_pages.

(** ** The loader *)

Section loader.
Context `{HI : Iommu} {HC : DmaCoherent}.
(** [sha256] of the kernel. *)
Context (sha256 : bytes -> bytes).

(** The firmware fields of [struct ane_t6021], with the domain its address
    space lives in. [l_ext] is [fw_alias_ext_iova] and [fw_alias_ext_len]. *)
Record fw_state := FwState {
  l_dom : domain;
  l_buf : option bytes;
  l_iova : Z;
  l_size : Z;          (* u32 *)
  l_alias : Z;
  l_ext : list (Z * Z);
  l_extn : Z;
}.

Definition set_dom (d : domain) (s : fw_state) : fw_state :=
  FwState d (l_buf s) (l_iova s) (l_size s) (l_alias s) (l_ext s) (l_extn s).

(** The uninitialised [segs[ANE_FW_NSEGS]] of the callers. *)
Definition segs_stack : list ane_fw_seg := replicate (Z.to_nat ANE_FW_NSEGS) (FwSeg 0 0 0 0 []).

(** What the world outside decides during one probe. *)
Record fw_env := FwEnv {
  e_request : bytes + errno;        (* request_firmware *)
  e_has_domain : bool;              (* iommu_get_domain_for_dev *)
  e_aperture_end : Z;
  e_rvbar_patch : Z;                (* readq(RVBAR) of ane_t6021_fw_patch *)
  e_rvbar : Z;                      (* readq(RVBAR) of ane_t6021_fw_alias_map *)
  e_guard : Z;                      (* get_random_u64 *)
  e_engine : Z;                     (* start of the engine window *)
  e_fuse : (Z * Z) + errno;         (* the two eFuse words *)
}.

(** [iommu_iova_to_phys]: zero when there is no translation. *)
Definition phys (d : domain) (j : Z) : Z := default 0 (iova_to_phys d j).

Definition ane_t6021_pmu_map (sc : ane_t602x_soc) (d : domain) : domain * option errno :=
  match iommu_map d (pmu_pa sc) (pmu_pa sc) with
  | (d, Some e) => (d, Some e)
  | (d, None) => (d, if phys d (pmu_pa sc) =? pmu_pa sc then None else Some EIO)
  end.

(** One window of pages: [pa_of] gives the page of each offset. The result
    carries the bytes mapped. [check] is the read-back of the reserved
    branch. *)
Fixpoint map_window (n : nat) (base o : Z) (pa_of : domain -> Z -> Z) (check : bool) (d : domain)
    (mapped : Z) : domain * option errno * Z :=
  match n with
  | O => (d, None, mapped)
  | S n' =>
      let pa := pa_of d o in
      if (pa =? 0) || negb (Z.land pa (ANE_T6021_FW_ALIAS_PAGE - 1) =? 0) then (d, Some EFAULT, mapped)
      else if negb (phys d (base + o) =? 0) then (d, Some EEXIST, mapped)
      else
        match iommu_map d (base + o) pa with
        | (d, Some e) => (d, Some e, mapped)
        | (d, None) =>
            let mapped := o + ANE_T6021_FW_ALIAS_PAGE in
            if check && negb (phys d (base + o) =? pa) then (d, Some EIO, mapped)
            else map_window n' base (o + ANE_T6021_FW_ALIAS_PAGE) pa_of check d mapped
        end
  end.

(** The iterations of [for (o = 0; o < len; o += PAGE)]. *)
Definition pages_for (len : Z) : nat := Z.to_nat ((len + (ANE_T6021_FW_ALIAS_PAGE - 1)) / ANE_T6021_FW_ALIAS_PAGE).

(** The read-back of every aliased page. *)
Definition roundtrip (entry iova : Z) (n : nat) (d : domain) : bool :=
  forallb (fun x => phys d (entry + Z.of_nat x * ANE_T6021_FW_ALIAS_PAGE) =?
                    phys d (iova + Z.of_nat x * ANE_T6021_FW_ALIAS_PAGE)) (seq 0 n).

(** Unmapping the recorded extents. *)
Fixpoint unmap_ext (ext : list (Z * Z)) (d : domain) : domain :=
  match ext with
  | [] => d
  | (i, n) :: ext' => unmap_ext ext' (if n =? 0 then d else (iommu_unmap d i n).1)
  end.

(** The windows of the reserved branch, from window [w] on; the extents
    recorded so far. *)
Fixpoint map_windows (wins : list (Z * Z * (domain -> Z -> Z))) (d : domain) (ext : list (Z * Z)) :
    domain * option errno * list (Z * Z) :=
  match wins with
  | [] => (d, None, ext)
  | (base, len, pa_of) :: wins' =>
      let '(d, err, mapped) := map_window (pages_for len) base 0 pa_of true d 0 in
      let ext := if mapped =? 0 then ext else ext ++ [(base, mapped)] in
      match err with
      | Some e => (d, Some e, ext)
      | None => map_windows wins' d ext
      end
  end.

Definition reserved_windows (q : fw_params) (s : fw_state) (entry : Z) : list (Z * Z * (domain -> Z -> Z)) :=
  let base0 := 0x10000000000 in
  let '(p0, l0) := default (0, 0) (ane_t6021_fw_preload !! 0%nat) in
  let '(p1, l1) := default (0, 0) (ane_t6021_fw_preload !! 1%nat) in
  [(base0, l0, fun _ o => p0 + o); (base0 + l0, l1, fun _ o => p1 + o)] ++
  (if fw_extra_ram q =? 0 then []
   else [(entry + 0x4fc000, l_size s - 0x4fc000, fun d o => phys d (l_iova s + (entry + 0x4fc000) + o - entry))]).

Definition ane_t6021_fw_alias_map (q : fw_params) (e : fw_env) (sc : ane_t602x_soc) (reserved : bool)
    (s : fw_state) : fw_state * option errno :=
  let entry := ane_t6021_rvbar_entry_bits (e_rvbar e) in
  if negb (e_has_domain e) then (s, Some ENODEV)
  else if negb (ane_t6021_rvbar_latched (e_rvbar e)) || (entry =? 0) then (s, None)
  else if negb (ane_t6021_rvbar_entry_ok entry) || negb (Z.land entry (ANE_T6021_FW_ALIAS_PAGE - 1) =? 0) then
    (s, Some EINVAL)
  else if u64 (entry + l_size s - 1) >? e_aperture_end e then (s, Some ERANGE)
  else if reserved then
    if negb (0x10000000000 =? entry) then (s, Some EINVAL)
    else
      let '(d, err, ext) := map_windows (reserved_windows q s entry) (l_dom s) [] in
      match err with
      | Some er => (FwState (unmap_ext ext d) (l_buf s) (l_iova s) (l_size s) (l_alias s) [] 0, Some er)
      | None =>
          let '(d, r) := ane_t6021_pmu_map sc d in
          (FwState d (l_buf s) (l_iova s) (l_size s) entry ext (zlen (reserved_windows q s entry)), r)
      end
  else
    let n := pages_for (l_size s) in
    let '(d, err, off) := map_window n entry 0 (fun d o => phys d (l_iova s + o)) false (l_dom s) 0 in
    match err with
    | Some er => (set_dom (unmap_ext [(entry, off)] d) s, Some er)
    | None =>
        if roundtrip entry (l_iova s) n d then
          let '(d, r) := ane_t6021_pmu_map sc d in
          (FwState d (l_buf s) (l_iova s) (l_size s) entry [(entry, l_size s)] 1, r)
        else (set_dom (unmap_ext [(entry, l_size s)] d) s, Some EIO)
    end.

Definition ane_t6021_soc_revision (e : fw_env) (sc : ane_t602x_soc) : Z + errno :=
  if negb (revision_fuse sc) then inl (soc_rev sc)
  else match e_fuse e with
       | inl (w0, w1) => inl (ane_t8112_fuse_revision w0 w1)
       | inr er => inr er
       end.

Definition ANE_ASC_CPU_BASE : Z := 0x1000000.
Definition ANE_ASC_WRAPPER_BASE : Z := 0x1400000.

(** The stack guard: the random word with one byte cleared. *)
Definition guard_word (g : Z) : Z := Z.land g (u64 (Z.lnot (u64 (Z.shiftl 0xff (8 * Z.shiftr g 61))))).

Definition ane_t6021_fw_patch (e : fw_env) (sc : ane_t602x_soc) (iova : Z) (img : bytes) :
    res (bytes * option errno) :=
  let entry := if ane_t6021_rvbar_latched (e_rvbar_patch e) then ane_t6021_rvbar_entry_bits (e_rvbar_patch e) else 0 in
  match ane_t6021_soc_revision e sc with
  | inr er => Ret (img, Some er)
  | inl rev =>
      '(img, r) ← ane_fw_apply_boot_patches img (soc_fw sc) (soc_tunables sc)
        (BootPatch (if entry =? 0 then iova else entry) (guard_word (e_guard e)) (soc sc) rev
                   (u64 (e_engine e + ANE_ASC_CPU_BASE)) (u64 (e_engine e + ANE_ASC_WRAPPER_BASE)));
      Ret (img, match r with Some _ => Some EINVAL | None => None end)
  end.

Definition ane_t6021_fwload_check (q : fw_params) (e : fw_env) (sc : ane_t602x_soc) : res (option errno) :=
  if negb (fw_load q) then Ret None
  else match e_request e with
       | inr er => Ret (Some er)
       | inl blob =>
           r ← ane_fw_validate_blob blob (soc_fw sc) (sha256 blob) (Some segs_stack);
           Ret (match r with inl _ => Some EPERM | inr _ => None end)
       end.

Definition ane_t6021_fwload_remove (e : fw_env) (s : fw_state) : fw_state :=
  let d := if negb (l_extn s =? 0) && e_has_domain e
           then unmap_ext (take (Z.to_nat (l_extn s)) (l_ext s)) (l_dom s) else l_dom s in
  match l_buf s with
  | None => FwState d None (l_iova s) (l_size s) (l_alias s) (l_ext s) 0
  | Some _ => FwState (dma_free d (l_iova s) (l_size s)) None (l_iova s) 0 (l_alias s) (l_ext s) 0
  end.

(** The copy of the segments into the fresh buffer. *)
Definition stage_segs (blob : bytes) (segs : list ane_fw_seg) (buf : bytes) : res bytes :=
  foldM (fun buf sg =>
    if filesize sg =? 0 then Ret buf else memcpy buf (vmaddr sg) blob (fileoff sg) (filesize sg)) buf segs.

Definition ane_t6021_fwload_probe (q : fw_params) (e : fw_env) (sc : ane_t602x_soc) (s : fw_state) :
    res (fw_state * option errno) :=
  let alloc_size := u32 (ANE_FW_BUF_SIZE + fw_extra_ram q) in
  let reserved := ane_t6021_fw_alias_is_reserved q sc in
  if negb (fw_load q) then Ret (s, None)
  else if negb (ane_t6021_fwload_options_ok q) then Ret (s, Some EINVAL)
  else
    match e_request e with
    | inr er => Ret (s, Some er)
    | inl blob =>
        v ← ane_fw_validate_blob blob (soc_fw sc) (sha256 blob) (Some segs_stack);
        match v with
        | inl _ => Ret (s, Some EPERM)
        | inr (segs, _) =>
            match dma_alloc (l_dom s) alloc_size with
            | None => Ret (s, Some ENOMEM)
            | Some (iova, d) =>
                buf ← stage_segs blob (default [] segs) (replicate (Z.to_nat alloc_size) 0);
                let s := FwState d (Some buf) iova alloc_size (l_alias s) (l_ext s) (l_extn s) in
                '(buf, r) ← (if reserved then Ret (buf, None) else ane_t6021_fw_patch e sc iova buf);
                let s := FwState (l_dom s) (Some buf) iova alloc_size (l_alias s) (l_ext s) (l_extn s) in
                let '(s, r) := match r with
                               | Some er => (s, Some er)
                               | None => ane_t6021_fw_alias_map q e sc reserved s
                               end in
                match r with
                | Some er => Ret (ane_t6021_fwload_remove e s, Some er)
                | None => Ret (s, None)
                end
            end
        end
    end.
End loader.

(** ** Runs of mapped pages *)

(** Some page of the extents. *)
Definition covered (rs : list (Z * Z)) (j : Z) : Prop := exists r, r ∈ rs /\ page_of r.1 (r.2 / P) j.

Fixpoint disjoint_runs (rs : list (Z * Z)) : Prop :=
  match rs with
  | [] => True
  | r :: rs' => (forall j, page_of r.1 (r.2 / P) j -> ~ covered rs' j) /\ disjoint_runs rs'
  end.

Lemma covered_nil j : ~ covered [] j.
Proof. intros (r & Hr & _). by apply elem_of_nil in Hr. Qed.

Lemma covered_app rs r j : covered (rs ++ [r]) j <-> covered rs j \/ page_of r.1 (r.2 / P) j.
Proof.
  unfold covered. setoid_rewrite elem_of_app. setoid_rewrite list_elem_of_singleton. naive_solver.
Qed.

Lemma covered_cons r rs j : covered (r :: rs) j <-> page_of r.1 (r.2 / P) j \/ covered rs j.
Proof. unfold covered. setoid_rewrite elem_of_cons. naive_solver. Qed.

Lemma disjoint_app rs r :
  disjoint_runs rs -> (forall j, page_of r.1 (r.2 / P) j -> ~ covered rs j) -> disjoint_runs (rs ++ [r]).
Proof.
  induction rs as [|r' rs IH]; cbn; [intros _ _; split; [intros j _; apply covered_nil|done]|].
  intros [Hd Hrs] Hn. split.
  - intros j Hj [Hc|Hc]%covered_app; [by apply (Hd j)|]. apply (Hn j Hc), covered_cons. by left.
  - apply IH; [done|]. intros j Hj Hc. apply (Hn j Hj), covered_cons. by right.
Qed.

#[global] Instance page_of_dec a n j : Decision (page_of a n j).
Proof.
  destruct (decide ((j - a) mod P = 0 /\ 0 <= (j - a) / P < n)) as [[Hm Hr]|Hn].
  - left. exists ((j - a) / P). split; [done|].
    assert (j - a = P * ((j - a) / P)) by by apply Z.div_exact. lia.
  - right. intros (x & Hx & ->). apply Hn. replace (a + x * P - a) with (x * P) by lia.
    rewrite Z_mod_mult Z.div_mul; [done|done].
Defined.

Section proofs.
Context `{HI : Iommu} `{HL : !IommuLaws 14} {HC : DmaCoherent} `{HD : !DmaLaws}.

(** [d] is [d0] with the pages of [rs], free in [d0], mapped. *)
Record extends (d0 : domain) (rs : list (Z * Z)) (d : domain) : Prop := Extends {
  ext_disjoint : disjoint_runs rs;
  ext_whole : Forall (fun r => r.2 mod P = 0 /\ 0 < r.2) rs;
  ext_in : forall j, covered rs j -> iova_to_phys d0 j = None /\ is_Some (iova_to_phys d j);
  ext_out : forall j, ~ covered rs j -> iova_to_phys d j = iova_to_phys d0 j;
}.

Lemma extends_refl d : extends d [] d.
Proof using. split; [done|constructor| |done]. by intros j ?%covered_nil. Qed.

Lemma unmap_run d i n :
  n mod P = 0 -> 0 <= n -> (forall j, page_of i (n / P) j -> is_Some (iova_to_phys d j)) ->
  forall j, iova_to_phys (iommu_unmap d i n).1 j = if decide (page_of i (n / P) j) then None else iova_to_phys d j.
Proof using HL.
  intros Hm Hn Hall j. destruct (iommu_unmap d i n) as [d' u] eqn:Hu.
  assert (n = n / P * P) as En by (rewrite Z.mul_comm; by apply Z.div_exact). rewrite En in Hu.
  assert (0 <= n / P) by (apply Z.div_pos; done).
  destruct (unmap_range 14 d i (n / P) d' u ltac:(done) Hu) as (k & _ & Hk & Hin & Hout & Hhole). cbn [fst].
  assert (k = n / P) as ->.
  { destruct (Z.eq_dec k (n / P)) as [|Hne]; [done|]. specialize (Hhole ltac:(lia)).
    destruct (Hall (i + k * P)) as [p Hp]; [exists k; lia|]. congruence. }
  destruct (decide _) as [Hj|Hj]; [by apply Hin|by apply Hout].
Qed.

(** Unmapping extents that are mapped clears exactly their pages. *)
Lemma unmap_ext_clears rs d :
  disjoint_runs rs -> Forall (fun r => r.2 mod P = 0 /\ 0 < r.2) rs ->
  (forall j, covered rs j -> is_Some (iova_to_phys d j)) ->
  (forall j, covered rs j -> iova_to_phys (unmap_ext rs d) j = None) /\
  (forall j, ~ covered rs j -> iova_to_phys (unmap_ext rs d) j = iova_to_phys d j).
Proof using HL.
  revert d. induction rs as [|[i n] rs IH]; intros d Hd Hw Hin; [split; [by intros j ?%covered_nil|done]|].
  cbn [unmap_ext]. apply Forall_cons in Hw as [[Hm Hp] Hw]. cbn in Hm, Hp, Hd. destruct Hd as [Hd1 Hd].
  destruct (Z.eqb_spec n 0); [lia|].
  assert (forall j, page_of i (n / P) j -> is_Some (iova_to_phys d j)) as Hall.
  { intros j Hj. apply Hin, covered_cons. by left. }
  pose proof (unmap_run d i n Hm ltac:(lia) Hall) as Hu.
  destruct (IH (iommu_unmap d i n).1 Hd Hw) as [H1 H2].
  { intros j Hj. rewrite Hu decide_False; [apply Hin, covered_cons; by right|]. intros Hp'. by apply (Hd1 j). }
  split.
  - intros j [Hj|Hj]%covered_cons; [|by apply H1]. rewrite H2; [|by apply Hd1]. by rewrite Hu decide_True.
  - intros j Hj. rewrite H2; [|intros Hc; apply Hj, covered_cons; by right]. rewrite Hu decide_False; [done|].
    intros Hp'. apply Hj, covered_cons. by left.
Qed.

(** Unmapping the extents undoes them. *)
Lemma unmap_ext_restores rs d0 d j :
  extends d0 rs d -> iova_to_phys (unmap_ext rs d) j = iova_to_phys d0 j.
Proof using HL.
  intros [Hd Hw Hin Hout]. destruct (unmap_ext_clears rs d Hd Hw) as [H1 H2]; [intros; by apply Hin|].
  destruct (decide (Exists (fun r => page_of r.1 (r.2 / P) j) rs)) as [Hc|Hn].
  - apply Exists_exists in Hc as (r & Hr & Hj). rewrite H1; [|by exists r]. symmetry. apply Hin. by exists r.
  - assert (~ covered rs j) by (intros (r & Hr & Hj); apply Hn, Exists_exists; by exists r).
    rewrite H2; [|done]. by apply Hout.
Qed.

Lemma extends_app d0 rs d r d' :
  extends d0 rs d -> extends d [r] d' -> extends d0 (rs ++ [r]) d'.
Proof using.
  intros [A1 A2 A3 A4] [_ B2 B3 B4].
  assert (forall j, covered [r] j <-> page_of r.1 (r.2 / P) j) as E.
  { intros j. rewrite covered_cons. split; [by intros [?|?%covered_nil]|by left]. }
  assert (forall j, page_of r.1 (r.2 / P) j -> ~ covered rs j) as Hn.
  { intros j Hj Hc. destruct (B3 j) as [Hnone _]; [by apply E|]. destruct (A3 j Hc) as [_ [p Hp]]. congruence. }
  split.
  - by apply disjoint_app.
  - by apply Forall_app.
  - intros j [Hc|Hc]%covered_app.
    + destruct (A3 j Hc) as [? Hs]. split; [done|]. rewrite B4; [done|]. rewrite E. intros Hj. by apply (Hn j).
    + destruct (B3 j) as [Hn0 Hs]; [by apply E|]. split; [|done]. rewrite -A4; [done|]. by apply Hn.
  - intros j Hj. rewrite B4; [apply A4|]; intros Hc; apply Hj, covered_app; [by left|right; by apply E].
Qed.

(** Every translation of [d] is one of [d']. *)
Definition keeps (d d' : domain) : Prop :=
  forall j p, iova_to_phys d j = Some p -> iova_to_phys d' j = Some p.

Lemma page_P : ANE_T6021_FW_ALIAS_PAGE = P.
Proof using. done. Qed.

Lemma P_pos : 0 < P.
Proof using. done. Qed.

(** The [m] pages a window mapped, from page [k] on. *)
Lemma map_window_spec n base k pa_of check d m0 d' err mapped :
  map_window n base (k * P) pa_of check d m0 = (d', err, mapped) ->
  exists m, 0 <= m <= Z.of_nat n /\ mapped = (if m =? 0 then m0 else (k + m) * P) /\
    (err = None -> m = Z.of_nat n) /\
    (forall x, k <= x < k + m -> iova_to_phys d (base + x * P) = None /\
      exists dx, keeps dx d' /\ iova_to_phys d' (base + x * P) = Some (pa_of dx (x * P)) /\ pa_of dx (x * P) <> 0) /\
    (forall j, ~ (exists x, k <= x < k + m /\ j = base + x * P) -> iova_to_phys d' j = iova_to_phys d j).
Proof using HL.
  pose proof P_pos. revert k d m0. induction n as [|n IH]; intros k d m0; cbn [map_window]; rewrite ?page_P.
  { intros [= <- <- <-]. exists 0. split_and!; try done; try lia. }
  destruct (Z.eqb_spec (pa_of d (k * P)) 0) as [Hz|Hnz].
  { intros [= <- <- <-]. exists 0. split_and!; try done; try lia. }
  destruct (negb _); cbn [orb].
  { intros [= <- <- <-]. exists 0. split_and!; try done; try lia. }
  destruct (negb _).
  { intros [= <- <- <-]. exists 0. split_and!; try done; try lia. }
  destruct (iommu_map d (base + k * P) (pa_of d (k * P))) as [d1 [er|]] eqn:Em.
  { intros [= <- <- <-]. exists 0. split_and!; try done; try lia. intros j _. by apply (map_err 14 _ _ _ _ er _ Em). }
  pose proof (fun j => map_ok 14 _ _ _ _ j Em) as Hm.
  assert (iova_to_phys d (base + k * P) = None) as Hfree by apply (Hm 0).
  assert (keeps d d1) as Hkd.
  { intros j pp Hpp. destruct (Hm j) as [_ ->]. rewrite decide_False; [done|]. intros ->. congruence. }
  replace (k * P + P) with ((k + 1) * P) by lia.
  destruct (check && negb _).
  { intros [= <- <- <-]. exists 1. split_and!; try done; try lia.
    - intros x Hx. assert (x = k) as -> by lia. split; [done|]. exists d. split; [done|]. split; [|done].
      destruct (Hm (base + k * P)) as [_ ->]. by rewrite decide_True.
    - intros j Hj. destruct (Hm j) as [_ ->]. rewrite decide_False; [done|]. intros ->. apply Hj. exists k. lia. }
  intros (m & Hmn & -> & Herr & Hin & Hout)%IH. exists (m + 1).
  assert (keeps d1 d') as Hkd'.
  { intros j pp Hpp. rewrite Hout; [done|]. intros (x & Hx & ->). destruct (Hin x Hx) as [Hz _]. congruence. }
  split; [lia|]. split; [destruct (Z.eqb_spec (m + 1) 0); [lia|]; destruct (Z.eqb_spec m 0) as [E0|]; [rewrite E0|]; f_equal; lia|].
  split; [intros He; specialize (Herr He); lia|]. split.
  - intros x Hx. destruct (Z.eq_dec x k) as [->|Hne].
    + split; [done|]. exists d. split; [intros j pp Hpp%Hkd; by apply Hkd'|]. split; [|done].
      rewrite Hout; [|intros (y & ? & ?); nia].
      destruct (Hm (base + k * P)) as [_ ->]. by rewrite decide_True.
    + destruct (Hin x ltac:(lia)) as [Hnone Hdx]. split; [|done].
      destruct (Hm (base + x * P)) as [_ E]. rewrite E decide_False in Hnone; [done|]. nia.
  - intros j Hj. rewrite Hout; [|intros (x & ? & ->); apply Hj; exists x; split; [lia|done]].
    destruct (Hm j) as [_ ->]. rewrite decide_False; [done|]. intros ->. apply Hj. exists k. lia.
Qed.

(** The same as an extension by one run. *)
Lemma map_window_extends n base pa_of check d d' err mapped :
  map_window n base 0 pa_of check d 0 = (d', err, mapped) ->
  extends d (if mapped =? 0 then [] else [(base, mapped)]) d' /\
  0 <= mapped /\ (err = None -> mapped = Z.of_nat n * P) /\
  (forall x, 0 <= x < mapped / P -> exists dx, keeps dx d' /\
    iova_to_phys d' (base + x * P) = Some (pa_of dx (x * P)) /\ pa_of dx (x * P) <> 0).
Proof using HL.
  pose proof P_pos. intros Hw. change 0 with (0 * P) in Hw at 1.
  destruct (map_window_spec _ _ _ _ _ _ _ _ _ _ Hw) as (m & Hmn & Em & Herr & Hin & Hout).
  assert (mapped = m * P) as -> by (destruct (Z.eqb_spec m 0) as [->|]; lia).
  assert (m * P / P = m) as Hdiv by (apply Z.div_mul; lia).
  assert (forall j, page_of base m j <-> exists x, 0 <= x < 0 + m /\ j = base + x * P) as Hpg by done.
  split; [|split; [lia|split; [intros ->%Herr; done|intros x Hx; rewrite Hdiv in Hx; by apply Hin]]].
  destruct (Z.eqb_spec (m * P) 0) as [E0|Hnz].
  - assert (m = 0) as -> by nia. split; [done|constructor| |]; [by intros j ?%covered_nil|].
    intros j _. apply Hout. intros (x & ? & _). lia.
  - assert (forall j, covered [(base, m * P)] j <-> page_of base m j) as E.
    { intros j. rewrite covered_cons. cbn [fst snd]. rewrite Hdiv. split; [by intros [?|?%covered_nil]|by left]. }
    split.
    + cbn. split; [intros; apply covered_nil|done].
    + constructor; [|constructor]. cbn. split; [apply Z.mod_mul; lia|nia].
    + intros j (x & Hx & ->)%E. destruct (Hin x ltac:(lia)) as [? (dx & _ & -> & _)]. by split.
    + intros j Hj. apply Hout. intros Hx. by apply Hj, E, Hpg.
Qed.

(** All windows of the reserved branch. *)
Lemma map_windows_extends wins d0 d ext d' err ext' :
  extends d0 ext d -> map_windows wins d ext = (d', err, ext') -> extends d0 ext' d'.
Proof using HL.
  revert d ext. induction wins as [|[[base len] pa_of] wins IH]; intros d ext He; cbn [map_windows].
  { by intros [= <- <- <-]. }
  destruct (map_window (pages_for len) base 0 pa_of true d 0) as [[d1 er] mapped] eqn:Ew.
  destruct (map_window_extends _ _ _ _ _ _ _ _ Ew) as (Hx & _).
  assert (extends d0 (if mapped =? 0 then ext else ext ++ [(base, mapped)]) d1) as He'.
  { destruct (mapped =? 0).
    - destruct He as [A1 A2 A3 A4], Hx as [_ _ _ B4]. pose proof (fun j => B4 j (covered_nil j)) as B.
      split; [done..| |]; intros j Hj; rewrite B; [by apply A3|by apply A4].
    - by eapply extends_app. }
  destruct er as [e1|]; [by intros [= <- <- <-]|]. by apply IH.
Qed.

(** A page mapped before an extension keeps its translation. *)
Lemma extends_keeps d rs d' j p :
  extends d rs d' -> iova_to_phys d j = Some p -> iova_to_phys d' j = Some p.
Proof using.
  intros [_ _ A3 A4] Hp. destruct (decide (Exists (fun r => page_of r.1 (r.2 / P) j) rs)) as [Hc|Hn].
  - apply Exists_exists in Hc as (r & Hr & Hj). destruct (A3 j) as [Hz _]; [by exists r|]. congruence.
  - rewrite A4; [done|]. intros (r & Hr & Hj). apply Hn, Exists_exists. by exists r.
Qed.

Lemma pages_for_mul n : 0 <= n -> pages_for (n * P) = Z.to_nat n.
Proof using.
  intros Hn. unfold pages_for. rewrite page_P. f_equal.
  rewrite Z.add_comm Z.div_add; [|done]. by rewrite Z.div_small.
Qed.

(** A successful run of the windows maps every page of each. *)
Lemma map_windows_pages wins d ext d' ext' :
  map_windows wins d ext = (d', None, ext') ->
  Forall (fun w => forall x, 0 <= x < Z.of_nat (pages_for w.1.2) ->
    exists dx, keeps dx d' /\ iova_to_phys d' (w.1.1 + x * P) = Some (w.2 dx (x * P)) /\ w.2 dx (x * P) <> 0) wins.
Proof using HL.
  revert d ext. induction wins as [|[[base len] pa_of] wins IH]; intros d ext; cbn [map_windows]; [by constructor|].
  destruct (map_window (pages_for len) base 0 pa_of true d 0) as [[d1 er] mapped] eqn:Ew.
  destruct (map_window_extends _ _ _ _ _ _ _ _ Ew) as (Hx & _ & Hn & Hin).
  destruct er as [e1|]; [by intros [= ]|]. intros Hw. constructor; [|by eapply IH].
  cbn [fst snd]. intros x Hxx. rewrite (Hn eq_refl) Z.div_mul in Hin; [|done].
  destruct (Hin x Hxx) as (dx & Hkx & Hp & Hnz). exists dx.
  pose proof (map_windows_extends wins d1 d1 [] d' None) as Hext.
  destruct (map_windows wins d1 []) as [[d2 er2] ext2] eqn:Ew2.
  assert (forall e1 e2, (map_windows wins d1 e1).1 = (map_windows wins d1 e2).1) as Hsame.
  { clear. generalize d1. induction wins as [|[[b l] f] wins IH]; intros d e1 e2; [done|]. cbn [map_windows].
    destruct (map_window (pages_for l) b 0 f true d 0) as [[d2 er] mp]. destruct er; [done|]. apply IH. }
  specialize (Hsame [] (if mapped =? 0 then ext else ext ++ [(base, mapped)])). rewrite Ew2 Hw in Hsame.
  cbn in Hsame. injection Hsame as -> ->. pose proof (Hext ext2 (extends_refl d1) eq_refl) as He.
  split; [intros j pp Hpp%Hkx; by eapply extends_keeps|]. split; [by eapply extends_keeps|done].
Qed.

(** The page a reserved window maps, once it was there, stays the same. *)
Lemma reserved_windows_stable q s entry :
  Forall (fun w => forall d d' o, keeps d d' -> w.2 d o <> 0 -> w.2 d' o = w.2 d o) (reserved_windows q s entry).
Proof using.
  assert (forall d d' j, keeps d d' -> phys d j <> 0 -> phys d' j = phys d j) as Hp.
  { intros d d' j Hk. unfold phys. destruct (iova_to_phys d j) as [p|] eqn:Ej; [|done]. by rewrite (Hk _ _ Ej). }
  unfold reserved_windows. cbn [lookup list_lookup ane_t6021_fw_preload default]. apply Forall_app. split.
  - repeat constructor.
  - destruct (_ =? 0); repeat constructor. cbn. intros d d' o. apply Hp.
Qed.

Lemma pmu_map_spec sc d d' r :
  ane_t6021_pmu_map sc d = (d', r) ->
  match r with
  | Some _ => forall j, iova_to_phys d' j = iova_to_phys d j
  | None => iova_to_phys d (pmu_pa sc) = None /\ iova_to_phys d' (pmu_pa sc) = Some (pmu_pa sc) /\
      forall j, j <> pmu_pa sc -> iova_to_phys d' j = iova_to_phys d j
  end.
Proof using HL.
  unfold ane_t6021_pmu_map. destruct (iommu_map d (pmu_pa sc) (pmu_pa sc)) as [d1 [er|]] eqn:Em.
  { intros [= <- <-] j. by apply (map_err 14 _ _ _ _ er _ Em). }
  pose proof (fun j => map_ok 14 _ _ _ _ j Em) as Hm.
  assert (iova_to_phys d1 (pmu_pa sc) = Some (pmu_pa sc)) as E.
  { destruct (Hm (pmu_pa sc)) as [_ ->]. by rewrite decide_True. }
  unfold phys. rewrite E. cbn [default]. rewrite Z.eqb_refl. intros [= <- <-].
  split_and!; [apply (Hm 0)|done|]. intros j Hj. destruct (Hm j) as [_ ->]. by rewrite decide_False.
Qed.

(** The coprocessor's entry is latched and set: the alias is made. *)
Definition aliased (e : fw_env) : bool :=
  ane_t6021_rvbar_latched (e_rvbar e) && negb (ane_t6021_rvbar_entry_bits (e_rvbar e) =? 0).

(** The alias in the domain [d]: the pages of the windows in reserved mode,
    else the pages of the buffer at the entry. *)
Definition alias_pages (q : fw_params) (e : fw_env) (reserved : bool) (s : fw_state) (d : domain) : Prop :=
  let entry := ane_t6021_rvbar_entry_bits (e_rvbar e) in
  if reserved then
    Forall (fun w => forall x, 0 <= x < Z.of_nat (pages_for w.1.2) ->
      iova_to_phys d (w.1.1 + x * P) = Some (w.2 d (x * P)) /\ w.2 d (x * P) <> 0) (reserved_windows q s entry)
  else forall x, 0 <= x < l_size s / P ->
    exists p, p <> 0 /\ iova_to_phys d (entry + x * P) = Some p /\ iova_to_phys d (l_iova s + x * P) = Some p.

Lemma alias_pages_keeps q e reserved s d d' :
  keeps d d' -> alias_pages q e reserved s d -> alias_pages q e reserved s d'.
Proof using.
  intros Hk. unfold alias_pages. destruct reserved.
  - pose proof (reserved_windows_stable q s (ane_t6021_rvbar_entry_bits (e_rvbar e))) as Hs. intros Hp.
    rewrite Forall_forall in Hs. rewrite Forall_forall in Hp. apply Forall_forall. intros w Hw x Hx.
    destruct (Hp w Hw x Hx) as [H1 H2]. rewrite (Hs w Hw d d' _ Hk H2). split; [by apply Hk|done].
  - intros Hp x Hx. destruct (Hp x Hx) as (p & ? & ? & ?). exists p. split_and!; auto.
Qed.

(** What the alias leaves: the recorded extents, and after success the
    power page. *)
Definition alias_post (q : fw_params) (e : fw_env) (sc : ane_t602x_soc) (reserved : bool)
    (s s' : fw_state) (d1 : domain) : Prop :=
  iova_to_phys d1 (pmu_pa sc) = None /\ iova_to_phys (l_dom s') (pmu_pa sc) = Some (pmu_pa sc) /\
  (forall j, j <> pmu_pa sc -> iova_to_phys (l_dom s') j = iova_to_phys d1 j) /\
  l_alias s' = ane_t6021_rvbar_entry_bits (e_rvbar e) /\ alias_pages q e reserved s d1.

Lemma roundtrip_true entry iova n d x :
  roundtrip entry iova n d = true -> 0 <= x < Z.of_nat n -> phys d (entry + x * P) = phys d (iova + x * P).
Proof using.
  unfold roundtrip. rewrite forallb_forall. intros H Hx. specialize (H (Z.to_nat x)).
  rewrite Z2Nat.id in H; [|lia]. apply Z.eqb_eq, H. apply in_seq. lia.
Qed.

Lemma extends_ext d0 d0' rs d d' :
  extends d0 rs d -> (forall j, iova_to_phys d0' j = iova_to_phys d0 j) ->
  (forall j, iova_to_phys d' j = iova_to_phys d j) -> extends d0' rs d'.
Proof using.
  intros [A1 A2 A3 A4] H0 H1. split; [done..| |]; intros j Hj; rewrite ?H0 ?H1; [by apply A3|by apply A4].
Qed.

Lemma alias_map_spec q e sc reserved s s' r :
  l_extn s = 0 -> l_size s mod P = 0 -> 0 < l_size s ->
  ane_t6021_fw_alias_map q e sc reserved s = (s', r) ->
  l_buf s' = l_buf s /\ l_iova s' = l_iova s /\ l_size s' = l_size s /\
  (l_extn s' = 0 \/ e_has_domain e = true) /\
  exists d1, extends (l_dom s) (take (Z.to_nat (l_extn s')) (l_ext s')) d1 /\
    match r with
    | Some er => (forall j, iova_to_phys (l_dom s') j = iova_to_phys d1 j) /\
        (er = ENODEV /\ e_has_domain e = false \/ aliased e = true)
    | None => e_has_domain e = true /\ if aliased e then alias_post q e sc reserved s s' d1 else s' = s
    end.
Proof using HL.
  intros Hn Hmod Hpos. unfold ane_t6021_fw_alias_map.
  set (entry := ane_t6021_rvbar_entry_bits (e_rvbar e)).
  assert (forall er, (s, Some er) = (s', r) -> er = ENODEV /\ e_has_domain e = false \/ aliased e = true ->
    l_buf s' = l_buf s /\ l_iova s' = l_iova s /\ l_size s' = l_size s /\
    (l_extn s' = 0 \/ e_has_domain e = true) /\
    exists d1, extends (l_dom s) (take (Z.to_nat (l_extn s')) (l_ext s')) d1 /\
      match r with
      | Some er => (forall j, iova_to_phys (l_dom s') j = iova_to_phys d1 j) /\
          (er = ENODEV /\ e_has_domain e = false \/ aliased e = true)
      | None => e_has_domain e = true /\ if aliased e then alias_post q e sc reserved s s' d1 else s' = s
      end) as Hsame.
  { intros er [= <- <-] Hc. split_and!; [done..|by left|]. exists (l_dom s). rewrite Hn. split; [apply extends_refl|done]. }
  destruct (negb (e_has_domain e)) eqn:Ed.
  { apply negb_true_iff in Ed. intros H. eapply Hsame; [exact H|by left]. }
  apply negb_false_iff in Ed.
  assert (negb (ane_t6021_rvbar_latched (e_rvbar e)) || (entry =? 0) = negb (aliased e)) as ->.
  { unfold aliased. fold entry. by destruct (ane_t6021_rvbar_latched (e_rvbar e)), (entry =? 0). }
  destruct (aliased e) eqn:Hal; cbn [negb].
  2: { intros [= <- <-]. split_and!; [done..|by left|]. exists (l_dom s). rewrite Hn. split; [apply extends_refl|done]. }
  destruct (negb (ane_t6021_rvbar_entry_ok entry) || _); [intros H; eapply Hsame; [exact H|by right]|].
  destruct (u64 (entry + l_size s - 1) >? _); [intros H; eapply Hsame; [exact H|by right]|].
  destruct reserved.
  - destruct (negb (0x10000000000 =? entry)); [intros H; eapply Hsame; [exact H|by right]|].
    destruct (map_windows (reserved_windows q s entry) (l_dom s) []) as [[d err] ext] eqn:Ew.
    pose proof (map_windows_extends _ _ _ _ _ _ _ (extends_refl (l_dom s)) Ew) as He.
    destruct err as [er|].
    { intros [= <- <-]. cbn. split_and!; [done..|by left|]. exists (l_dom s). split; [apply extends_refl|].
      split; [|by right]. intros j. by apply unmap_ext_restores. }
    destruct (ane_t6021_pmu_map sc d) as [d2 r2] eqn:Ep. pose proof (pmu_map_spec _ _ _ _ Ep) as Hp.
    intros [= <- <-]. cbn [l_buf l_iova l_size l_extn l_ext l_dom]. split_and!; [done..|by right|]. exists d.
    assert (take (Z.to_nat (zlen (reserved_windows q s entry))) ext = ext) as ->.
    { apply take_ge. enough (forall wins d ext d' er ext', map_windows wins d ext = (d', er, ext') ->
        (length ext' <= length ext + length wins)%nat) as Hlen.
      { unfold zlen. rewrite Nat2Z.id. exact (Hlen _ _ _ _ _ _ Ew). }
      clear. induction wins as [|[[b l] f] wins IH]; intros d ext d' er ext'; cbn [map_windows].
      { intros [= _ _ <-]. cbn. lia. }
      destruct (map_window (pages_for l) b 0 f true d 0) as [[d2 er2] mp]. destruct er2.
      - intros [= _ _ <-]. destruct (mp =? 0); rewrite ?length_app; cbn; lia.
      - intros H%IH. destruct (mp =? 0); rewrite ?length_app in H; cbn in *; lia. }
    split; [done|]. destruct r2 as [er|]; [split; [done|by right]|]. split; [done|].
    destruct Hp as (? & ? & ?). split; [done|]. split; [done|]. split; [done|]. split; [done|].
    unfold alias_pages. fold entry.
    pose proof (reserved_windows_stable q s entry) as Hs. pose proof (map_windows_pages _ _ _ _ _ Ew) as Hp.
    rewrite Forall_forall in Hs. rewrite Forall_forall in Hp. apply Forall_forall. intros w Hw x Hx.
    destruct (Hp w Hw x Hx) as (dx & Hk & Hd & Hnz). rewrite (Hs w Hw dx d _ Hk Hnz). by split.
  - set (n := pages_for (l_size s)).
    assert (Z.of_nat n = l_size s / P) as En.
    { unfold n. assert (l_size s = l_size s / P * P) as -> by (rewrite Z.mul_comm; by apply Z.div_exact).
      rewrite Z.div_mul; [|done]. rewrite pages_for_mul; [|apply Z.div_pos; [lia|done]].
      rewrite Z2Nat.id; [done|apply Z.div_pos; [lia|done]]. }
    assert (Z.of_nat n * P = l_size s) as EnP.
    { rewrite En Z.mul_comm. symmetry. by apply Z.div_exact. }
    destruct (map_window n entry 0 (fun d o => phys d (l_iova s + o)) false (l_dom s) 0) as [[d err] off] eqn:Ew.
    destruct (map_window_extends _ _ _ _ _ _ _ _ Ew) as (He & Hoff & Hfull & Hin).
    destruct err as [er|].
    { intros [= <- <-]. cbn [set_dom l_buf l_iova l_size l_extn l_ext l_dom]. split_and!; [done..|by left|]. rewrite Hn.
      exists (l_dom s). split; [apply extends_refl|]. split; [|by right]. intros j. cbn [unmap_ext].
      destruct (Z.eqb_spec off 0) as [->|Hnz].
      - destruct He as [_ _ _ A4]. apply A4, covered_nil.
      - rewrite -(unmap_ext_restores [(entry, off)] (l_dom s) d j He). cbn [unmap_ext].
        by destruct (Z.eqb_spec off 0). }
    rewrite (Hfull eq_refl) EnP in He Hin. destruct (Z.eqb_spec (l_size s) 0); [lia|].
    destruct (roundtrip entry (l_iova s) n d) eqn:Er.
    2: { intros [= <- <-]. cbn [set_dom l_buf l_iova l_size l_extn l_ext l_dom]. split_and!; [done..|by left|]. rewrite Hn.
      exists (l_dom s). split; [apply extends_refl|]. split; [|by right]. intros j.
      exact (unmap_ext_restores [(entry, l_size s)] (l_dom s) d j He). }
    destruct (ane_t6021_pmu_map sc d) as [d2 r2] eqn:Ep. pose proof (pmu_map_spec _ _ _ _ Ep) as Hp.
    intros [= <- <-]. cbn [l_buf l_iova l_size l_extn l_ext l_dom]. split_and!; [done..|by right|]. exists d.
    split; [done|]. destruct r2 as [er|]; [split; [done|by right]|]. split; [done|].
    destruct Hp as (? & ? & ?). split; [done|]. split; [done|]. split; [done|]. split; [done|]. intros x Hx.
    destruct (Hin x Hx) as (dx & _ & Hpx & Hnz). exists (phys dx (l_iova s + x * P)). split_and!; [done..|].
    pose proof (roundtrip_true _ _ _ _ x Er ltac:(lia)) as E. fold entry in E. unfold phys in E at 1.
    rewrite Hpx in E. cbn in E. unfold phys in E at 2.
    destruct (iova_to_phys d (l_iova s + x * P)) as [p'|] eqn:Ep'; cbn in E; [by rewrite E|]. by rewrite E in Hnz.
Qed.
End proofs.

(** ** The probe *)

(** The stores of the segment copy. *)
Definition stage_writes (blob : bytes) (segs : list ane_fw_seg) : writes :=
  map (fun sg => (vmaddr sg, slice blob (fileoff sg) (filesize sg))) segs.

(** The segments are inside a file of [n] bytes and ascend in a buffer of
    [hi]. *)
Fixpoint segs_ok (lo hi n : Z) (segs : list ane_fw_seg) : bool :=
  match segs with
  | [] => lo <=? hi
  | sg :: segs' =>
      (lo <=? vmaddr sg) && (0 <=? fileoff sg) && (0 <=? filesize sg) && (fileoff sg + filesize sg <=? n) &&
      segs_ok (vmaddr sg + filesize sg) hi n segs'
  end.

Definition soc_ok (sc : ane_t602x_soc) : Prop :=
  image_ok (soc_fw sc) /\ patch_layout (soc_fw sc) (soc_tunables sc) ANE_FW_BUF_SIZE = true /\
  segs_ok 0 ANE_FW_BUF_SIZE (fw_size (soc_fw sc)) (fw_segs (soc_fw sc)) = true.

#[global] Instance soc_ok_dec sc : Decision (soc_ok sc).
Proof. unfold soc_ok. apply _. Defined.

Definition all_socs : list ane_t602x_soc :=
  [ane_t6020_soc; ane_t6021_soc; ane_t6022_soc; ane_t6022_soc_die1; ane_t8112_soc].

Lemma segs_ascending lo hi hi' blob segs :
  hi <= hi' -> 0 <= lo -> segs_ok lo hi (zlen blob) segs = true -> ascending lo hi' (stage_writes blob segs) = true.
Proof.
  intros Hh. revert lo. induction segs as [|sg segs IH]; intros lo Hlo; cbn [segs_ok stage_writes map ascending].
  { lia. }
  intros H. repeat (apply andb_true_iff in H as [H ?]). rewrite zlen_slice; [|lia..].
  apply andb_true_iff. split; [done|]. apply IH; [lia|done].
Qed.

Lemma stage_segs_eq blob segs buf lo hi :
  0 <= lo -> hi <= zlen buf -> segs_ok lo hi (zlen blob) segs = true ->
  stage_segs blob segs buf = Ret (apply_writes buf (stage_writes blob segs)).
Proof.
  unfold stage_segs. revert lo buf. induction segs as [|sg segs IH]; intros lo buf Hlo Hh H; [done|].
  cbn [foldM stage_writes map apply_writes foldl fst snd]. cbn [segs_ok] in H.
  repeat (apply andb_true_iff in H as [H ?]).
  assert (vmaddr sg + filesize sg <= hi) as Hle.
  { pose proof (segs_ascending (vmaddr sg + filesize sg) hi hi blob segs ltac:(lia) ltac:(lia) ltac:(done)) as Ha.
    by apply ascending_le in Ha. }
  assert (zlen (patch buf (vmaddr sg) (slice blob (fileoff sg) (filesize sg))) = zlen buf) as Ez.
  { rewrite zlen_patch; [done|lia|rewrite zlen_slice; lia]. }
  destruct (Z.eqb_spec (filesize sg) 0) as [E0|Hnz].
  - assert (slice blob (fileoff sg) (filesize sg) = []) as -> by by rewrite E0.
    rewrite patch_nil. cbn [mbind res_bind]. apply (IH (vmaddr sg + filesize sg)); [lia|done|done].
  - rewrite memcpy_eq; [|lia..]. cbn [mbind res_bind]. apply (IH (vmaddr sg + filesize sg)); [lia|by rewrite Ez|done].
Qed.

Section probe.
Context `{HI : Iommu} `{HL : !IommuLaws 14} {HC : DmaCoherent} `{HD : !DmaLaws}.
Context (sha256 : bytes -> bytes).

(** What the loader takes from the pinned hash: a blob of the pinned size and
    hash has no more segment commands than the array it passes. *)
Definition pin_ok (sc : ane_t602x_soc) : Prop :=
  forall blob, zlen blob = fw_size (soc_fw sc) ->
    take 32 (fw_sha256 (soc_fw sc)) = take 32 (sha256 blob) -> seg_count blob <= ANE_FW_NSEGS.

(** The loader's validation. *)
Lemma validate_pinned sc blob :
  soc_ok sc -> pin_ok sc -> bytes_ok blob ->
  (~ pinned_blob blob (soc_fw sc) (sha256 blob) /\
   exists reason, ane_fw_validate_blob blob (soc_fw sc) (sha256 blob) (Some segs_stack) = Ret (inl reason)) \/
  (pinned_blob blob (soc_fw sc) (sha256 blob) /\
   ane_fw_validate_blob blob (soc_fw sc) (sha256 blob) (Some segs_stack) =
     Ret (inr (Some (fw_segs (soc_fw sc)), ANE_FW_ENTRY_PC))).
Proof using.
  intros (Hi & _) Hpin Hb. destruct (decide (zlen blob = fw_size (soc_fw sc))) as [Hs|Hs].
  2: { left. split; [by intros (? & _)|]. unfold ane_fw_validate_blob.
       destruct (Z.eqb_spec (zlen blob) (fw_size (soc_fw sc))); [done|]. by eexists. }
  destruct (decide (take 32 (fw_sha256 (soc_fw sc)) = take 32 (sha256 blob))) as [Hh|Hh].
  2: { left. split; [intros (_ & ? & _); congruence|]. unfold ane_fw_validate_blob. rewrite Hs Z.eqb_refl. cbn [negb].
       rewrite bool_decide_eq_false_2; [|done]. by eexists. }
  assert (out_room blob (Some segs_stack)) as Hr.
  { intros l [= <-]. split; [done|]. change (zlen segs_stack) with ANE_FW_NSEGS. by apply Hpin. }
  destruct (validate_spec blob (soc_fw sc) (sha256 blob) _ Hb Hi Hr) as [(Hp & out' & -> & Hpub)|[Hn Hv]]; [|by left].
  right. split; [done|]. destruct out' as [l|]; [|done]. destruct Hpub as [Ht Hz]. change (zlen segs_stack) with 2 in Hz.
  rewrite -Ht take_ge; [done|]. unfold zlen in Hz. lia.
Qed.

(** The state between the allocation and the alias. *)
Lemma remove_restores e d0 da n s1 d1 :
  dma_alloc d0 n = Some (l_iova s1, da) -> n mod P = 0 -> l_size s1 = n -> l_buf s1 <> None ->
  (l_extn s1 = 0 \/ e_has_domain e = true) ->
  extends da (take (Z.to_nat (l_extn s1)) (l_ext s1)) d1 ->
  (forall j, is_Some (iova_to_phys d1 j) -> iova_to_phys (l_dom s1) j = iova_to_phys d1 j) ->
  forall j, iova_to_phys (l_dom (ane_t6021_fwload_remove e s1)) j =
    if decide (iova_to_phys d1 j = None) then iova_to_phys (l_dom s1) j else iova_to_phys d0 j.
Proof using HL HD.
  intros Ha Hm Hsz Hb Hdom Hx Hkeep j. destruct (dma_alloc_ok _ _ _ _ Ha Hm) as [Hin Hout].
  pose proof Hx as [X1 X2 X3 X4]. set (rs := take _ _) in *.
  assert (forall j, covered rs j -> is_Some (iova_to_phys (l_dom s1) j)) as Hc.
  { intros j' Hj. destruct (X3 j' Hj) as [_ Hs]. by rewrite Hkeep. }
  destruct (unmap_ext_clears rs (l_dom s1) X1 X2 Hc) as [U1 U2].
  set (du := if negb (l_extn s1 =? 0) && e_has_domain e then unmap_ext rs (l_dom s1) else l_dom s1).
  assert (iova_to_phys (l_dom (ane_t6021_fwload_remove e s1)) j = iova_to_phys (dma_free du (l_iova s1) n) j) as ->.
  { unfold ane_t6021_fwload_remove. fold rs du. destruct (l_buf s1); [|done]. cbn. by rewrite Hsz. }
  assert (du = unmap_ext rs (l_dom s1)) as ->.
  { unfold du. destruct (Z.eqb_spec (l_extn s1) 0) as [E0|]; cbn; [unfold rs; by rewrite E0|].
    destruct Hdom as [?| ->]; done. }
  destruct (decide (page_of (l_iova s1) (n / P) j)) as [Hp|Hp].
  - rewrite dma_free_in; [|done..]. destruct (Hin j Hp) as [-> (p & Hp' & _)].
    rewrite decide_False; [done|]. by rewrite (extends_keeps _ _ _ _ _ Hx Hp').
  - rewrite dma_free_out; [|done..]. specialize (Hout j Hp).
    destruct (decide (Exists (fun r => page_of r.1 (r.2 / P) j) rs)) as [He|Hn].
    + apply Exists_exists in He as (r & Hr & Hj). assert (covered rs j) as Hcj by by exists r.
      rewrite U1; [|done]. destruct (X3 j Hcj) as [Hz [p Hp']]. rewrite decide_False; [|by rewrite Hp']. congruence.
    + assert (~ covered rs j) as Hcj by (intros (r & Hr & Hj); apply Hn, Exists_exists; by exists r).
      rewrite U2; [|done]. destruct (decide _) as [Hz|Hs]; [done|].
      rewrite Hkeep; [|by destruct (iova_to_phys d1 j)]. by rewrite X4.
Qed.

(** Teardown before anything was aliased. *)
Lemma remove_unaliased e s d buf iova n j :
  l_extn s = 0 -> dma_alloc (l_dom s) n = Some (iova, d) -> n mod P = 0 ->
  iova_to_phys (l_dom (ane_t6021_fwload_remove e (FwState d (Some buf) iova n (l_alias s) (l_ext s) (l_extn s)))) j =
  iova_to_phys (l_dom s) j.
Proof using HL HD.
  intros Hn Ea Hmod. set (s1 := FwState d (Some buf) iova n (l_alias s) (l_ext s) (l_extn s)).
  assert (l_extn s1 = 0) as Hn1 by done.
  rewrite (remove_restores e (l_dom s) d n s1 d Ea Hmod eq_refl ltac:(done) ltac:(by left));
    [|rewrite Hn1; apply extends_refl|done].
  destruct (decide _) as [Hz'|]; [|done]. rewrite Hz'. symmetry.
  destruct (dma_alloc_ok _ _ _ _ Ea Hmod) as [Hi Ho].
  destruct (decide (page_of iova (n / P) j)) as [Hp|Hp]; [by apply Hi|]. by rewrite -Ho.
Qed.

(** The bytes of the buffer before the patches: the segments at their
    addresses, zero elsewhere. *)
Definition staged_image (q : fw_params) (sc : ane_t602x_soc) (blob : bytes) : bytes :=
  apply_writes (replicate (Z.to_nat (ANE_FW_BUF_SIZE + fw_extra_ram q)) 0) (stage_writes blob (fw_segs (soc_fw sc))).

(** The values patched into a copy at [iova]: it runs at the entry when that
    is latched and set, else where it is. *)
Definition staged_patch (e : fw_env) (sc : ane_t602x_soc) (rev iova : Z) : ane_fw_boot_patch :=
  let rd := e_rvbar_patch e in
  let entry := ane_t6021_rvbar_entry_bits rd in
  {| exec_base := if ane_t6021_rvbar_latched rd && negb (entry =? 0) then entry else iova;
     stack_guard := guard_word (e_guard e);
     bp_soc := soc sc;
     soc_revision := rev;
     cpu_pa := u64 (e_engine e + 0x1000000);
     wrapper_pa := u64 (e_engine e + 0x1400000) |}.

(** The bytes [buf] of a buffer at [iova]: the staged image, and outside the
    reserved mode the fields of the boot patches over it. *)
Definition holds_image (q : fw_params) (e : fw_env) (sc : ane_t602x_soc) (iova : Z) (buf : bytes) : Prop :=
  exists blob, e_request e = inl blob /\ pinned_blob blob (soc_fw sc) (sha256 blob) /\
    let staged := staged_image q sc blob in
    Forall (fun w => slice staged w.1 (zlen w.2) = w.2) (stage_writes blob (fw_segs (soc_fw sc))) /\
    if ane_t6021_fw_alias_is_reserved q sc then buf = staged
    else exists rev key, ane_t6021_soc_revision e sc = inl rev /\
      let p := staged_patch e sc rev iova in
      patch_ready staged (soc_fw sc) (soc_tunables sc) p key /\
      buf = apply_writes staged (boot_writes (soc_fw sc) (soc_tunables sc) p key) /\
      Forall (fun w => slice buf w.1 (zlen w.2) = w.2) (boot_writes (soc_fw sc) (soc_tunables sc) p key).

(** What a successful probe leaves. *)
Definition loaded (q : fw_params) (e : fw_env) (sc : ane_t602x_soc) (s s' : fw_state) : Prop :=
  let n := ANE_FW_BUF_SIZE + fw_extra_ram q in
  (exists buf, l_buf s' = Some buf /\ zlen buf = n /\ holds_image q e sc (l_iova s') buf) /\ l_size s' = n /\
  (* the alias and the power page exactly when the entry is latched and set *)
  e_has_domain e = true /\
  (if aliased e then
     l_alias s' = ane_t6021_rvbar_entry_bits (e_rvbar e) /\
     iova_to_phys (l_dom s') (pmu_pa sc) = Some (pmu_pa sc) /\
     alias_pages q e (ane_t6021_fw_alias_is_reserved q sc) s' (l_dom s')
   else l_extn s' = 0 /\ l_alias s' = l_alias s) /\
  (* the buffer is mapped, and nothing else changed *)
  (forall j, page_of (l_iova s') (n / P) j -> is_Some (iova_to_phys (l_dom s') j)) /\
  (forall j, ~ page_of (l_iova s') (n / P) j -> ~ covered (take (Z.to_nat (l_extn s')) (l_ext s')) j ->
    (aliased e = true -> j <> pmu_pa sc) -> iova_to_phys (l_dom s') j = iova_to_phys (l_dom s) j) /\
  (* teardown *)
  (forall j, j <> pmu_pa sc ->
    iova_to_phys (l_dom (ane_t6021_fwload_remove e s')) j = iova_to_phys (l_dom s) j).

(** Why a probe fails. *)
Inductive load_error (q : fw_params) (e : fw_env) (sc : ane_t602x_soc) (s : fw_state) : errno -> Prop :=
  | bad_options : ane_t6021_fwload_options_ok q = false -> load_error q e sc s EINVAL
  | no_file er : e_request e = inr er -> load_error q e sc s er
  | not_pinned blob : e_request e = inl blob -> ~ pinned_blob blob (soc_fw sc) (sha256 blob) -> load_error q e sc s EPERM
  | no_memory : dma_alloc (l_dom s) (ANE_FW_BUF_SIZE + fw_extra_ram q) = None -> load_error q e sc s ENOMEM
  | no_revision er : ane_t6021_soc_revision e sc = inr er -> load_error q e sc s er
  | not_patchable blob rev iova : e_request e = inl blob -> ane_t6021_soc_revision e sc = inl rev ->
      (forall key, ~ patch_ready (staged_image q sc blob) (soc_fw sc) (soc_tunables sc) (staged_patch e sc rev iova) key) ->
      load_error q e sc s EINVAL
  | no_domain : e_has_domain e = false -> load_error q e sc s ENODEV
  | not_aliased er : aliased e = true -> load_error q e sc s er.

(** The whole of the loader after the validation. *)
Lemma options_size q :
  0 <= fw_extra_ram q -> ane_t6021_fwload_options_ok q = true ->
  u32 (ANE_FW_BUF_SIZE + fw_extra_ram q) = ANE_FW_BUF_SIZE + fw_extra_ram q /\
  (ANE_FW_BUF_SIZE + fw_extra_ram q) mod P = 0.
Proof using.
  intros H0 [H1 H2]%andb_true_iff. unfold SZ_16M, ANE_FW_BUF_SIZE in *. apply Z.eqb_eq in H2.
  split; [apply wrap_small; lia|]. change (ANE_T6021_FW_ALIAS_PAGE - 1) with (2 ^ 14 - 1) in H2.
  rewrite land_mask_mod in H2; [|lia]. change P with (2 ^ 14). rewrite Z.add_mod; [|lia]. by rewrite H2.
Qed.

(** The allocation seen from the domain before it. *)
Lemma before_alloc s d iova n d1 rs j :
  dma_alloc (l_dom s) n = Some (iova, d) -> n mod P = 0 -> extends d rs d1 -> iova_to_phys d1 j = None ->
  iova_to_phys (l_dom s) j = None.
Proof using HL HD.
  intros Ha Hmod Hx Hz. destruct (dma_alloc_ok _ _ _ _ Ha Hmod) as [Hi Ho].
  destruct (decide (page_of iova (n / P) j)) as [Hp|Hp]; [by apply Hi|]. rewrite -Ho; [|done].
  destruct (iova_to_phys d j) as [pp|] eqn:Ej; [|done]. by rewrite (extends_keeps _ _ _ _ _ Hx Ej) in Hz.
Qed.

(** The end of the probe: alias, or teardown. *)
Lemma stage_finish_spec q e sc s d buf iova :
  let n := ANE_FW_BUF_SIZE + fw_extra_ram q in
  let reserved := ane_t6021_fw_alias_is_reserved q sc in
  let s1 := FwState d (Some buf) iova n (l_alias s) (l_ext s) (l_extn s) in
  l_extn s = 0 -> n mod P = 0 -> 0 < n -> dma_alloc (l_dom s) n = Some (iova, d) ->
  zlen buf = n -> holds_image q e sc iova buf ->
  let '(s2, r) := ane_t6021_fw_alias_map q e sc reserved s1 in
  match r with
  | Some er =>
      (forall j, iova_to_phys (l_dom (ane_t6021_fwload_remove e s2)) j = iova_to_phys (l_dom s) j) /\
      l_buf (ane_t6021_fwload_remove e s2) = None /\ l_extn (ane_t6021_fwload_remove e s2) = 0 /\ load_error q e sc s er
  | None => loaded q e sc s s2
  end.
Proof using HL HD.
  intros n reserved s1 Hext Hmod Hpos Ha Hlen Himg.
  destruct (ane_t6021_fw_alias_map q e sc reserved s1) as [s2 r] eqn:Em.
  destruct (alias_map_spec q e sc reserved s1 s2 r Hext Hmod Hpos Em) as (Eb & Ei & Es & Hdom & d1 & Hx & Hr).
  cbn [s1 l_dom l_buf l_iova l_size] in Eb, Ei, Es, Hx.
  pose proof Ha as Ha'. rewrite -Ei in Ha'.
  assert (l_buf s2 <> None) as Hb by by rewrite Eb.
  assert (l_extn (ane_t6021_fwload_remove e s2) = 0 /\ l_buf (ane_t6021_fwload_remove e s2) = None) as [Hr1 Hr2].
  { unfold ane_t6021_fwload_remove. by destruct (l_buf s2). }
  pose proof (fun j => before_alloc s d iova n d1 _ j Ha Hmod Hx) as Hbefore.
  destruct (dma_alloc_ok _ _ _ _ Ha Hmod) as [Hi Ho].
  destruct r as [er|].
  - destruct Hr as [Hr Hwhy]. split_and!; [|done..|].
    + intros j. rewrite (remove_restores e (l_dom s) d n s2 d1 Ha' Hmod Es Hb Hdom Hx); [|by intros; apply Hr].
      destruct (decide _) as [Hz|]; [|done]. rewrite Hr Hz. symmetry. by apply Hbefore.
    + destruct Hwhy as [[-> ?]|?]; [by apply no_domain|by apply not_aliased].
  - destruct Hr as [Hhd Hr].
    assert (keeps d1 (l_dom s2) /\
      (forall j, (aliased e = true -> j <> pmu_pa sc) -> iova_to_phys (l_dom s2) j = iova_to_phys d1 j)) as [Hk Hsame].
    { destruct (aliased e).
      - destruct Hr as (P1 & _ & P3 & _). split; [|auto]. intros j pp Hpp. rewrite P3; [done|]. intros ->. congruence.
      - subst s2. cbn in Hx. rewrite Hext in Hx. cbn in Hx.
        assert (forall j, iova_to_phys d j = iova_to_phys d1 j) as E1.
        { intros j'. symmetry. by apply (ext_out _ _ _ Hx), covered_nil. }
        split; [|auto]. intros j pp. cbn. by rewrite E1. }
    split; [exists buf; rewrite Ei; by split_and!|]. split; [done|]. split; [done|]. split; [|split; [|split]].
    + destruct (aliased e) eqn:Eal.
      * destruct Hr as (P1 & P2 & P3 & P4 & P5). split; [done|]. split; [done|].
        apply (alias_pages_keeps _ _ _ _ _ _ Hk) in P5. fold reserved. revert P5. unfold alias_pages, reserved_windows.
        cbn [s1 l_size l_iova]. by rewrite Es Ei.
      * by subst s2.
    + rewrite Ei. intros j Hj. destruct (Hi j Hj) as [_ (pp & Hpp & _)]. exists pp.
      by apply Hk, (extends_keeps _ _ _ _ _ Hx).
    + rewrite Ei. intros j Hj Hc Hp. rewrite Hsame; [|done]. rewrite (ext_out _ _ _ Hx); [|done]. by apply Ho.
    + intros j Hj. rewrite (remove_restores e (l_dom s) d n s2 d1 Ha' Hmod Es Hb Hdom Hx);
        [|intros j' [pp Hpp]; rewrite Hpp; by apply Hk].
      destruct (decide _) as [Hz|]; [|done]. rewrite Hsame; [|done]. rewrite Hz. symmetry. by apply Hbefore.
Qed.

Lemma fwload_probe_spec q e sc s :
  sc ∈ all_socs \/ soc_ok sc -> pin_ok sc -> 0 <= fw_extra_ram q -> l_buf s = None -> l_extn s = 0 ->
  (forall blob, e_request e = inl blob -> bytes_ok blob) ->
  exists s' r, ane_t6021_fwload_probe sha256 q e sc s = Ret (s', r) /\
    match r with
    | Some er => (forall j, iova_to_phys (l_dom s') j = iova_to_phys (l_dom s) j) /\
        l_buf s' = None /\ l_extn s' = 0 /\ load_error q e sc s er
    | None => fw_load q = false /\ s' = s \/ loaded q e sc s s'
    end.
Proof using HL HD.
  intros Hsc Hpin Hex Hb Hn Hblob.
  assert (soc_ok sc) as Hok.
  { destruct Hsc as [Hin|]; [|done]. assert (Forall soc_ok all_socs) as Hall by vm_decide.
    rewrite Forall_forall in Hall. by apply Hall. }
  unfold ane_t6021_fwload_probe. destruct (fw_load q) eqn:Eq; cbn [negb]; [|exists s, None; split; [done|by left]].
  destruct (ane_t6021_fwload_options_ok q) eqn:Eo; cbn [negb].
  2: { eexists s, (Some _). split; [done|]. split_and!; [done..|]. by apply bad_options. }
  destruct (options_size q Hex Eo) as [-> Hmod]. set (n := ANE_FW_BUF_SIZE + fw_extra_ram q) in *.
  destruct (e_request e) as [blob|er] eqn:Er.
  2: { eexists s, (Some _). split; [done|]. split_and!; [done..|]. by apply no_file. }
  destruct (validate_pinned sc blob Hok Hpin (Hblob _ eq_refl)) as [(Hnp & reason & ->)|(Hpinned & ->)];
    cbn [mbind res_bind].
  { eexists s, (Some _). split; [done|]. split_and!; [done..|]. by eapply not_pinned. }
  pose proof Hpinned as (Hsz & _).
  destruct (dma_alloc (l_dom s) n) as [[iova d]|] eqn:Ea.
  2: { eexists s, (Some _). split; [done|]. split_and!; [done..|]. by apply no_memory. }
  destruct Hok as (Himg & Hlay & Hsegs). cbn [default]. rewrite -Hsz in Hsegs.
  assert (0 <= n) as Hn0 by (unfold n, ANE_FW_BUF_SIZE; lia).
  assert (zlen (replicate (Z.to_nat n) 0) = n) as Hz by (rewrite zlen_replicate; lia).
  assert (ANE_FW_BUF_SIZE <= zlen (replicate (Z.to_nat n) 0)) as Hle by (rewrite Hz; unfold n; lia).
  rewrite (stage_segs_eq blob (fw_segs (soc_fw sc)) _ 0 ANE_FW_BUF_SIZE ltac:(done) Hle Hsegs).
  cbn [mbind res_bind]. change (apply_writes _ _) with (staged_image q sc blob).
  pose proof (segs_ascending 0 ANE_FW_BUF_SIZE n blob _ ltac:(unfold n; lia) ltac:(done) Hsegs) as Hasc.
  rewrite -Hz in Hasc.
  destruct (apply_writes_in _ _ 0 ltac:(done) Hasc) as [Hin _].
  pose proof (zlen_apply_writes _ _ 0 ltac:(done) Hasc) as Hzs. rewrite Hz in Hzs.
  change (apply_writes _ _) with (staged_image q sc blob) in Hin, Hzs.
  assert (0 < n) as Hpos by (unfold n, ANE_FW_BUF_SIZE; lia).
  assert (forall buf, zlen buf = n -> holds_image q e sc iova buf ->
    exists s' r, (let s1 := FwState d (Some buf) iova n (l_alias s) (l_ext s) (l_extn s) in
      let '(s2, r) := ane_t6021_fw_alias_map q e sc (ane_t6021_fw_alias_is_reserved q sc) s1 in
      match r with
      | Some er => Ret (ane_t6021_fwload_remove e s2, Some er)
      | None => Ret (s2, None)
      end) = Ret (s', r) /\
      match r with
      | Some er => (forall j, iova_to_phys (l_dom s') j = iova_to_phys (l_dom s) j) /\
          l_buf s' = None /\ l_extn s' = 0 /\ load_error q e sc s er
      | None => true = false /\ s' = s \/ loaded q e sc s s'
      end) as Hend.
  { intros buf Hbl Hbi. pose proof (stage_finish_spec q e sc s d buf iova Hn Hmod Hpos Ea Hbl Hbi) as Hf. cbv zeta in Hf |- *.
    fold n in Hf. destruct (ane_t6021_fw_alias_map _ _ _ _ _) as [s2 [er|]]; [by eexists _, (Some _)|].
    exists s2, None. split; [done|by right]. }
  destruct (ane_t6021_fw_alias_is_reserved q sc) eqn:Eres.
  - cbn [mbind res_bind]. cbn [l_dom l_alias l_ext l_extn]. apply Hend; [done|].
    exists blob. split; [done|]. split; [done|]. split; [done|]. by rewrite Eres.
  - unfold ane_t6021_fw_patch. destruct (ane_t6021_soc_revision e sc) as [rev|er] eqn:Erev.
    2: { cbn [mbind res_bind]. cbn [l_dom l_alias l_ext l_extn].
         eexists _, (Some er). split; [done|].
         split; [intros j; by apply remove_unaliased|]. split_and!; [done..|]. by apply no_revision. }
    assert (BootPatch (if (if ane_t6021_rvbar_latched (e_rvbar_patch e) then ane_t6021_rvbar_entry_bits (e_rvbar_patch e) else 0) =? 0
        then iova else if ane_t6021_rvbar_latched (e_rvbar_patch e) then ane_t6021_rvbar_entry_bits (e_rvbar_patch e) else 0)
      (guard_word (e_guard e)) (soc sc) rev (u64 (e_engine e + ANE_ASC_CPU_BASE)) (u64 (e_engine e + ANE_ASC_WRAPPER_BASE)) =
      staged_patch e sc rev iova) as ->.
    { unfold staged_patch. f_equal. destruct (ane_t6021_rvbar_latched (e_rvbar_patch e)); [|done]. cbn [andb].
      by destruct (_ =? 0). }
    assert (patch_layout (soc_fw sc) (soc_tunables sc) (zlen (staged_image q sc blob)) = true) as Hlay'.
    { rewrite Hzs. apply (patch_layout_mono _ _ ANE_FW_BUF_SIZE); [unfold n; lia|done]. }
    destruct (patches_run (staged_image q sc blob) _ _ (staged_patch e sc rev iova) Hlay') as
      [(key & Hready & -> & Hzi & Hfields)|(reason & -> & Hno)]; cbn [mbind res_bind]; cbn [l_dom l_alias l_ext l_extn].
    + apply Hend; [by rewrite Hzi|]. exists blob. split; [done|]. split; [done|]. split; [done|]. rewrite Eres.
      by exists rev, key.
    + eexists _, (Some EINVAL). split; [done|].
      split; [intros j; by apply remove_unaliased|]. split_and!; [done..|]. by eapply not_patchable.
Qed.


(** The alias the loader records. *)
Lemma alias_map_alias q e sc reserved s s' r :
  ane_t6021_fw_alias_map q e sc reserved s = (s', r) ->
  l_alias s' = l_alias s \/ l_alias s' = ane_t6021_rvbar_entry_bits (e_rvbar e).
Proof using.
  unfold ane_t6021_fw_alias_map.
  do 4 (match goal with |- context [if ?b then _ else _] => destruct b; [intros [= <- _]; by left|] end).
  destruct reserved.
  - destruct (negb _); [intros [= <- _]; by left|]. destruct (map_windows _ _ _) as [[d [er|]] ext].
    + intros [= <- _]. by left.
    + destruct (ane_t6021_pmu_map sc d). intros [= <- _]. by right.
  - destruct (map_window _ _ _ _ _ _ _) as [[d [er|]] off]; [intros [= <- _]; by left|].
    destruct (roundtrip _ _ _ _); [|intros [= <- _]; by left]. destruct (ane_t6021_pmu_map sc d). intros [= <- _]. by right.
Qed.

Lemma probe_alias q e sc s s' :
  ane_t6021_fwload_probe sha256 q e sc s = Ret (s', None) -> fw_load q = true ->
  l_alias s' = l_alias s \/ l_alias s' = ane_t6021_rvbar_entry_bits (e_rvbar e).
Proof using.
  unfold ane_t6021_fwload_probe. intros H Hq. rewrite Hq in H. cbn [negb] in H. destruct (negb _); [done|].
  destruct (e_request e); [|done]. apply bind_Ret_inv in H as ([reason|[segs en]] & _ & H); [done|].
  destruct (dma_alloc _ _) as [[iova d]|]; [|done]. apply bind_Ret_inv in H as (buf & _ & H).
  apply bind_Ret_inv in H as ([buf' r] & _ & H). cbn beta iota zeta in H. destruct r; [done|].
  destruct (ane_t6021_fw_alias_map _ _ _ _ _) as [s2 r2] eqn:Em. apply alias_map_alias in Em. destruct r2; [done|].
  by injection H as <-.
Qed.
End probe.

(** ** A model of the allocator

    First fit among eight places in the page-granular domain of [M1Map]. *)

Definition sample_base : Z := 0x40000000.
Definition sample_places : list Z := (fun k => sample_base + k * 0x2000000) <$> seqZ 0 8.

Definition sample_dma : @DmaCoherent (sample_iommu 14) := {|
  dma_alloc := fun (d : @domain (sample_iommu 14)) n =>
    match filter (fun b => dma_pages n <= 0x800 /\ free_pages P d b (Z.to_nat (dma_pages n)) = true) sample_places with
    | b :: _ => Some (b, enter_pages P b ((fun x => 0x800000000 + b + x * P) <$> seqZ 0 (dma_pages n)) d)
    | [] => None
    end;
  dma_free := fun (d : @domain (sample_iommu 14)) i n =>
    foldr (fun x (d : gmap Z Z) => delete (i + x * P) d) d (seqZ 0 (dma_pages n));
|}.

Lemma sample_free_spec i l (d : gmap Z Z) j :
  foldr (fun x (d : gmap Z Z) => delete (i + x * P) d) d l !! j =
  if decide (Exists (fun x => j = i + x * P) l) then None else d !! j.
Proof.
  induction l as [|x l IH].
  { by destruct (decide _) as [?%Exists_nil|]. }
  cbn [foldr].
  destruct (decide (j = i + x * P)) as [->|Hne].
  - rewrite lookup_delete_eq decide_True; [done|]. by left.
  - rewrite lookup_delete_ne; [|done]. rewrite IH. destruct (decide (Exists _ l)) as [He|He];
      destruct (decide (Exists _ (x :: l))) as [He'|He']; try done.
    + by destruct He'; right.
    + by apply Exists_cons in He' as [?|?].
Qed.

Lemma page_of_exists i n j : 0 <= n -> page_of i n j <-> Exists (fun x => j = i + x * P) (seqZ 0 n).
Proof.
  intros Hn. rewrite Exists_exists. unfold page_of. setoid_rewrite elem_of_seqZ. split.
  - intros (x & Hx & ->). exists x. split; [lia|done].
  - intros (x & Hx & ->). exists x. split; [lia|done].
Qed.

Lemma sample_places_ok b :
  b ∈ sample_places -> exists k, 0 <= k /\ 0x800000000 + b = k * 2 ^ 14 /\ 0 < b <= 2 ^ 31.
Proof.
  intros Hb. assert (Forall (fun b => 0 < b <= 2 ^ 31 /\ b mod 2 ^ 14 = 0) sample_places) as Hall by vm_decide.
  rewrite Forall_forall in Hall. destruct (Hall b Hb) as [Hp Hm]. apply Z.div_exact in Hm; [|done].
  exists (2 ^ 21 + b / 2 ^ 14). split; [|split; [|done]].
  - pose proof (Z.div_pos b (2 ^ 14)). lia.
  - rewrite {1}Hm. change 0x800000000 with (2 ^ 21 * 2 ^ 14). lia.
Qed.

Lemma sample_dma_laws : @DmaLaws (sample_iommu 14) sample_dma.
Proof.
  assert (forall d n i d', @dma_alloc (sample_iommu 14) sample_dma d n = Some (i, d') ->
    (dma_pages n <= 0x800 /\ free_pages P d i (Z.to_nat (dma_pages n)) = true) /\ i ∈ sample_places /\
    d' = enter_pages P i ((fun x => 0x800000000 + i + x * P) <$> seqZ 0 (dma_pages n)) d) as Hsp.
  { intros d n i d' Ha. cbn [dma_alloc sample_dma] in Ha. destruct (filter _ sample_places) as [|b rest] eqn:Ef; [done|].
    injection Ha as <- <-. apply (and_assoc _ _ _). split; [|done]. apply (list_elem_of_filter (fun b => dma_pages n <= 0x800 /\ free_pages P d b (Z.to_nat (dma_pages n)) = true)).
    rewrite Ef. left. }
  split.
  - intros d n i d' Ha. destruct (Hsp _ _ _ _ Ha) as ((Hm & _) & Hb & _).
    destruct (sample_places_ok i Hb) as (k & _ & _ & Hpos). change P with 16384. lia.
  - intros d n i d' Ha. destruct (Hsp _ _ _ _ Ha) as ((Hm & Hf) & Hb & ->). clear Ha. rename i into b.
    set (m := dma_pages n) in *. destruct (sample_places_ok b Hb) as (k & Hk & Ek & Hpos).
    cbn [iova_to_phys sample_iommu].
    set (ps := (fun x => 0x800000000 + b + x * P) <$> seqZ 0 m).
    assert (zlen ps = Z.max 0 m) as Hps.
    { unfold ps, zlen. rewrite length_fmap length_seqZ. lia. }
    split.
    + intros j (x & Hx & ->). split.
      * pose proof (proj1 (free_pages_true 14 d b (Z.to_nat m)) Hf (Z.to_nat x) ltac:(lia)) as H.
        by rewrite Z2Nat.id in H; [|lia].
      * exists (0x800000000 + b + x * P). split.
        -- assert (Z.of_nat (Z.to_nat x) = x) as Ex by lia. rewrite -{1}Ex.
           apply (enter_pages_in 14 ltac:(done)). unfold ps. rewrite list_lookup_fmap lookup_seqZ_lt; [|lia].
           cbn. f_equal. by rewrite Ex.
        -- split; [change P with 16384; lia|]. change (P - 1) with (2 ^ 14 - 1). rewrite land_mask_mod; [|done].
           change P with (2 ^ 14). rewrite Ek -Z.mul_add_distr_r. by apply Z.mod_mul.
    + intros j Hj. apply (enter_pages_other 14). intros (x & Hx & ->). apply Hj. exists x. split; [lia|done].
  - intros d i n j Hp. cbn. rewrite sample_free_spec decide_True; [done|]. apply page_of_exists; [|done].
    destruct Hp as (x & ? & _). lia.
  - intros d i n j Hp. cbn. rewrite sample_free_spec. destruct (decide _) as [He|]; [|done]. destruct Hp.
    apply Exists_exists in He as (x & Hx%elem_of_seqZ & ->). exists x. split; [lia|done].
Qed.

(** A loader with a small image in reserved mode, and a hash that is the
    pinned one exactly for [good_blob]. *)
Definition small_soc : ane_t602x_soc :=
  Soc 0x6021 0x11 false true
    (FwImage "small" (replicate 32 7) 0xa00 (fw_segs small_fw) (rtk_vm tiny_fw) (tunables_vm tiny_fw))
    ane_t602x_asc_tunables 0x2e0 0 0x28e084000 0 0 None.

Definition small_sha (blob : bytes) : bytes := if bool_decide (blob = good_blob) then replicate 32 7 else [].

Definition small_params : fw_params := FwParams true 0x8000 true.

Definition small_env : fw_env := FwEnv (inl good_blob) true (2 ^ 48 - 1) 0x10000000001 0x10000000001 0 0 (inl (0, 0)).

Definition small_state : @fw_state (sample_iommu 14) := @FwState (sample_iommu 14) (∅ : gmap Z Z) None 0 0 0 [] 0.

Abbreviation small_probe :=
  (@ane_t6021_fwload_probe (sample_iommu 14) sample_dma small_sha small_params small_env small_soc small_state).

Definition succeeded `{Iommu} (r : res (fw_state * option errno)) : bool :=
  match r with Ret (s, None) => negb (l_extn s =? 0) && (l_iova s =? 0x40000000) | _ => false end.

(** Reading the result without evaluating it. *)
Lemma read_probe_result `{Iommu} (x : res (fw_state * option errno)) :
  succeeded x = true -> exists s, x = Ret (s, None) /\ l_extn s <> 0 /\ l_iova s = 0x40000000.
Proof.
  intros Hr. destruct x as [[s [|]]| |]; try discriminate Hr. exists s. cbn in Hr.
  apply andb_true_iff in Hr as [H1 H2]. split; [done|]. lia.
Qed.

(** The result, with the staged bytes left as they are. *)
Lemma small_probe_result : succeeded small_probe = true.
Proof.
  unfold ane_t6021_fwload_probe.
  change (negb (fw_load small_params)) with false. cbn match.
  change (negb (ane_t6021_fwload_options_ok small_params)) with false. cbn match.
  change (e_request small_env) with (inl good_blob : bytes + errno). cbn match.
  replace (ane_fw_validate_blob good_blob (soc_fw small_soc) (small_sha good_blob) (Some segs_stack))
    with (Ret (inr (Some (fw_segs small_fw), 0)) : res (verdict (option (list ane_fw_seg) * Z)))
    by (vm_compute; reflexivity).
  cbn [mbind res_bind]. set (n := u32 _).
  cbn [default]. assert (0 <= n) as Hn by (vm_compute; discriminate).
  rewrite (stage_segs_eq good_blob (fw_segs small_fw) (replicate (Z.to_nat n) 0) 0 0x100);
    [|done|rewrite zlen_replicate Z2Nat.id //; vm_compute; discriminate|vm_compute; reflexivity].
  change (ane_t6021_fw_alias_is_reserved small_params small_soc) with true. cbn [mbind res_bind].
  generalize (apply_writes (replicate (Z.to_nat n) 0) (stage_writes good_blob (fw_segs small_fw))). intros buf.
  vm_compute. reflexivity.
Qed.

