(* ===== verification/Boot.v ===== *)
(** * The boot sequence of the T6021 coprocessor

    [src/ane/t6021/ane_t6021_boot.h] and [ane_t6021_boot.c], with the part of
    the probe in [ane_t6021_rtclient_main.c] that starts the firmware: the
    register sequence that releases the CPU and hands it the init structure,
    the allocations made for it, and what is released when a step fails.

    A run is its list of register accesses. The device is a parameter: any
    function from the accesses so far and an offset to the word it returns.
    Log lines and delays are not modelled, except that a poll's wait is an
    event. *)

From Stdlib Require Import String.
From S2P Require Import Prelude FwValidate M1Map FwLoad.

#[local] Open Scope Z_scope.

(** ** Constants *)

Definition ANE_T6021_CPU_RUN_RELEASE : Z := 0x10.
Definition ANE_T6021_BOOT_IPC_REQ_THRESHOLD : Z := 0x21.
Definition ANE_T6021_BOOT_WAKE_REQ : Z := 0xf7fbdff9.
Definition ANE_T6021_BOOT_ACK : Z := 0x08042006.
Definition ANE_T6021_INIT_STRUCT_SIZE : Z := 0x174.
Definition ANE_T6021_INIT_FW_DVA_OFF : Z := 0x00.
Definition ANE_T6021_INIT_COUNT_OFF : Z := 0x68.
Definition ANE_T6021_INIT_COUNT : Z := 0x40.
Definition ANE_T6021_INIT_TEMPLATE_OFF : Z := 0x6c.
Definition ANE_T6021_INIT_TBIT_OFF : Z := 0xc0.
Definition ANE_T6021_INIT_TBIT_VAL : Z := 0x4.
Definition ANE_T6021_BOOT_IPC_CEILING : Z := 0x100000.
Definition ANE_T6021_BOOT_HEAP_CEILING : Z := 0x02000000.
Definition ANE_T6021_BOOT_REG_TABLE0 : Z := 0x00000b38.
Definition ANE_T6021_BOOT_REG_TABLE1 : Z := 0x00000b98.
Definition ANE_T6021_BOOT_REG_TABLE2 : Z := 0x00000bf8.
Definition ANE_T6021_BOOT_REG_RVBAR : Z := 0x01050000.
Definition ANE_T6021_BOOT_REG_CPUCTRL : Z := 0x01400044.
Definition ANE_T6021_BOOT_REG_SCRATCH0 : Z := 0x01840048.
Definition ANE_T6021_BOOT_REG_SCRATCH1 : Z := 0x0184004c.
Definition ANE_T6021_BOOT_REG_SCRATCH6 : Z := 0x01840060.
Definition ANE_T6021_BOOT_REG_SCRATCH7 : Z := 0x01840064.
Definition ANE_T6021_BOOT_TABLE_VALUE : Z := 0x01ff01ff.
Definition ANE_T6021_BOOT_TABLE_POLLS : Z := 1000.

Definition ane_t6021_scratch64_split (v : Z) : Z * Z := (u32 (Z.land v 0xffffffff), u32 (Z.shiftr v 32)).
Definition ane_t6021_scratch64_join (lo hi : Z) : Z := Z.lor (Z.shiftl hi 32) lo.

(** ** Sizes the firmware asks for *)

Definition ane_t6021_ipc_size (page_size captured : Z) : Z :=
  let ord := u32 (captured + 1) in if page_size >? ord then page_size else ord.

(** [None] is the refusal, [-E2BIG]. *)
Definition ane_t6021_heap_size (scratch3_req floor max_size : Z) : option Z :=
  if scratch3_req =? 0 then Some 0
  else if scratch3_req >? max_size then None
  else Some (if scratch3_req >? floor then scratch3_req else floor).

(** ** The init structure *)

Record ane_t6021_init_sources := InitSources {
  src_fw_dva : Z;        (* u64 *)
  src_ipc_dva : Z;       (* u64 *)
  src_cfg_size : Z;      (* u32 *)
  src_prev_fw_len : Z;   (* u32 *)
  src_heap_floor : Z;    (* u64 *)
  src_pool_dma : Z;      (* u64 *)
  src_pool_word0 : Z;    (* u64 *)
}.

(** Byte stores, in order. *)
Definition store_all (m : bytes) (ws : list (Z * Z)) : res bytes :=
  foldM (fun m w => wr8 m w.1 w.2) m ws.

(** The eight stores of one iteration of the first loop. *)
Definition fill_row (s : ane_t6021_init_sources) (heap_dva boot_ordinal i : Z) : list (Z * Z) :=
  let size := src_cfg_size s in
  [(ANE_T6021_INIT_FW_DVA_OFF + i, Z.shiftr (src_fw_dva s) (8 * i));
   (0x08 + i, Z.shiftr (src_ipc_dva s) (8 * i));
   (0x10 + i, Z.shiftr size (8 * i));
   (0x18 + i, Z.shiftr (u64 (0x10000000 - size)) (8 * i));
   (0x20 + i, Z.shiftr heap_dva (8 * i));
   (0x50 + i, Z.shiftr boot_ordinal (8 * i));
   (0x58 + i, Z.shiftr (src_pool_dma s) (8 * i));
   (0x60 + i, Z.shiftr (src_pool_word0 s) (8 * i))].

(** The stores after the loops. *)
Definition fill_tail (s : ane_t6021_init_sources) : list (Z * Z) :=
  [(0x30, src_prev_fw_len s); (0x31, Z.shiftr (src_prev_fw_len s) 8);
   (0x32, Z.shiftr (src_prev_fw_len s) 16); (0x33, Z.shiftr (src_prev_fw_len s) 24);
   (ANE_T6021_INIT_COUNT_OFF + 0, ANE_T6021_INIT_COUNT); (ANE_T6021_INIT_COUNT_OFF + 1, 0);
   (ANE_T6021_INIT_COUNT_OFF + 2, 0); (ANE_T6021_INIT_COUNT_OFF + 3, 0);
   (ANE_T6021_INIT_TEMPLATE_OFF + 0, 0); (ANE_T6021_INIT_TEMPLATE_OFF + 1, 0);
   (ANE_T6021_INIT_TEMPLATE_OFF + 2, 0); (ANE_T6021_INIT_TEMPLATE_OFF + 3, 0);
   (ANE_T6021_INIT_TEMPLATE_OFF + ANE_T6021_INIT_TBIT_OFF + 0, ANE_T6021_INIT_TBIT_VAL)].

Definition ane_t6021_init_struct_fill (buf : bytes) (s : ane_t6021_init_sources)
    (heap_size heap_dva boot_ordinal : Z) : res bytes :=
  buf ← foldM (fun m i => store_all m (fill_row s heap_dva boot_ordinal i)) buf (seqZ 0 8);
  buf ← foldM (fun m i => wr8 m (0x28 + i) (Z.shiftr heap_size (8 * i))) buf (seqZ 0 8);
  store_all buf (fill_tail s).

(** ** Allocations for the firmware *)

(** [pool] holds the bytes of the pool once it is allocated; of the other two
    surfaces only the address matters here. *)
Record ane_t6021_boot_allocs := BootAllocs {
  al_pool : option bytes;
  al_pool_dva : Z;
  al_ipc : bool;
  al_ipc_dva : Z;
  al_ipc_size : Z;
  al_heap : bool;
  al_heap_dva : Z;
  al_heap_size : Z;
}.

Definition no_allocs : ane_t6021_boot_allocs := BootAllocs None 0 false 0 0 false 0 0.

Definition pool_size : Z := 0x40000.

Section prepare.
Context {A : Type}.
(** [alloc]: the address of fresh zeroed memory, or failure. *)
Context (alloc : A -> Z -> A * option Z).

(** The fill of the pool and the halves of its address. *)
Definition fill_and_split (s : ane_t6021_init_sources) (scratch1_read : Z) (ctx : A)
    (a : ane_t6021_boot_allocs) : res (A * ane_t6021_boot_allocs * ((Z * Z) + errno)) :=
  let filled := InitSources (src_fw_dva s) (al_ipc_dva a) (src_cfg_size s) (src_prev_fw_len s)
                  (src_heap_floor s) (al_pool_dva a) (src_pool_word0 s) in
  pool ← ane_t6021_init_struct_fill (default [] (al_pool a)) filled (al_heap_size a) (al_heap_dva a)
           (u32 (scratch1_read + 1));
  Ret (ctx,
       BootAllocs (Some pool) (al_pool_dva a) (al_ipc a) (al_ipc_dva a) (al_ipc_size a) (al_heap a)
         (al_heap_dva a) (al_heap_size a),
       inl (u32 (Z.land (al_pool_dva a) 0xffffffff), u32 (Z.shiftr (al_pool_dva a) 32))).

Definition ane_t6021_boot_prepare_publish (s : ane_t6021_init_sources)
    (scratch3_req scratch0_read scratch1_read page_size ipc_ceiling heap_ceiling : Z) (ctx : A) :
    res (A * ane_t6021_boot_allocs * ((Z * Z) + errno)) :=
  if scratch0_read >=? ANE_T6021_BOOT_IPC_REQ_THRESHOLD then Ret (ctx, no_allocs, inr EPROTO)
  else
    let ipc_size := ane_t6021_ipc_size page_size scratch1_read in
    let a := BootAllocs None 0 false 0 ipc_size false 0 0 in
    if ipc_size >? ipc_ceiling then Ret (ctx, a, inr E2BIG)
    else
      match ane_t6021_heap_size scratch3_req (src_heap_floor s) heap_ceiling with
      | None => Ret (ctx, a, inr E2BIG)
      | Some heap_size =>
          let a := BootAllocs None 0 false 0 ipc_size false 0 heap_size in
          match alloc ctx pool_size with
          | (ctx, None) => Ret (ctx, a, inr ENOMEM)
          | (ctx, Some pool_dva) =>
              let pool := replicate (Z.to_nat pool_size) 0 in
              let a := BootAllocs (Some pool) pool_dva false 0 ipc_size false 0 heap_size in
              match alloc ctx ipc_size with
              | (ctx, None) => Ret (ctx, a, inr ENOMEM)
              | (ctx, Some ipc_dva) =>
                  let a := BootAllocs (Some pool) pool_dva true ipc_dva ipc_size false 0 heap_size in
                  if heap_size =? 0 then fill_and_split s scratch1_read ctx a
                  else
                    match alloc ctx heap_size with
                    | (ctx, None) => Ret (ctx, a, inr ENOMEM)
                    | (ctx, Some heap_dva) =>
                        fill_and_split s scratch1_read ctx
                          (BootAllocs (Some pool) pool_dva true ipc_dva ipc_size true heap_dva heap_size)
                    end
              end
          end
      end.
End prepare.

(** ** The register sequence *)

Inductive io :=
  | Rd32 (off v : Z)
  | Rd64 (off v : Z)
  | Wr32 (off v : Z)
  | Wr64 (off v : Z)
  | Barrier
  | Wait.

#[global] Instance io_eq_dec : EqDecision io.
Proof. solve_decision. Defined.

Record ane_t6021_boot_cfg := BootCfg {
  preflight_ok : bool;
  preboot_table_mode : Z;
  cfg_fw_dva : Z;
  rtb_mode : bool;
  stop_after : Z;
}.

(** The outputs of a run. *)
Record boot_result := BootResult {
  b_ret : option errno;
  cpu_started : bool;
  fw_alive : bool;
  booted : bool;
  scratch_result : Z;
}.

Section run.
(** The device, and the state the prepare hook changes. *)
Context (dev : list io -> Z -> Z) {A : Type}.
Context (prepare : list io -> A -> res (list io * A * ((Z * Z) + errno))).

Definition wr32 (off v : Z) (h : list io) : list io := h ++ [Wr32 off v].

(** The engine table of mode 1. *)
Definition preboot_table (h : list io) : list io :=
  wr32 ANE_T6021_BOOT_REG_TABLE2 ANE_T6021_BOOT_TABLE_VALUE
    (wr32 ANE_T6021_BOOT_REG_TABLE1 ANE_T6021_BOOT_TABLE_VALUE
      (wr32 ANE_T6021_BOOT_REG_TABLE0 ANE_T6021_BOOT_TABLE_VALUE h)).

Definition tun : list (Z * Z) :=
  [(0x000, 0x00000010); (0x038, 0x00050020); (0x03c, 0x000a0030); (0x400, 0x40010001);
   (0x600, 0x01ffffff); (0x738, 0x00200020); (0x798, 0x00100030); (0x7f8, 0x0100000a);
   (0x900, 0x00000101); (0x410, 0x00001100); (0x420, 0x00001100); (0x430, 0x00001100)].

Definition grant_tunables (h : list io) : list io := foldl (fun h t => wr32 t.1 t.2 h) h tun.

Definition scratch_clear (rtb : bool) (h : list io) : list io :=
  let h := foldl (fun h i => wr32 (ANE_T6021_BOOT_REG_SCRATCH0 + 4 * i) 0 h) h (seqZ 0 8) in
  let h := wr32 ANE_T6021_BOOT_REG_SCRATCH6 (if rtb then 0 else 1) h in
  let h := wr32 ANE_T6021_BOOT_REG_SCRATCH7 1 h in
  wr32 ANE_T6021_BOOT_REG_SCRATCH7 0 h.

Definition rvbar_fold (fw_dva : Z) (h : list io) : list io :=
  let rvbar := u64 (dev h ANE_T6021_BOOT_REG_RVBAR) in
  let h := h ++ [Rd64 ANE_T6021_BOOT_REG_RVBAR rvbar] in
  if ane_t6021_rvbar_latched rvbar then h
  else h ++ [Wr64 ANE_T6021_BOOT_REG_RVBAR (ane_t6021_rvbar_compose fw_dva)].

Definition cpu_release (h : list io) : list io :=
  wr32 ANE_T6021_BOOT_REG_CPUCTRL ANE_T6021_CPU_RUN_RELEASE (wr32 ANE_T6021_BOOT_REG_CPUCTRL 0 h).

(** At most [n] reads of SCRATCH7 for the ack; the last word read. *)
Fixpoint poll_ack (n : nat) (v : Z) (h : list io) : list io * Z :=
  match n with
  | O => (h, v)
  | S n' =>
      let v := u32 (dev h ANE_T6021_BOOT_REG_SCRATCH7) in
      let h := h ++ [Rd32 ANE_T6021_BOOT_REG_SCRATCH7 v] in
      if v =? ANE_T6021_BOOT_ACK then (h, v) else poll_ack n' v (h ++ [Wait])
  end.

(** The words of SCRATCH1 and SCRATCH0 after DONE. *)
Definition read_result (h : list io) : list io * Z :=
  let hi := u32 (dev h ANE_T6021_BOOT_REG_SCRATCH1) in
  let h := h ++ [Rd32 ANE_T6021_BOOT_REG_SCRATCH1 hi] in
  let lo := u32 (dev h ANE_T6021_BOOT_REG_SCRATCH0) in
  (h ++ [Rd32 ANE_T6021_BOOT_REG_SCRATCH0 lo], Z.lor (Z.shiftl hi 32) lo).

Definition ane_t6021_boot_run (cfg : ane_t6021_boot_cfg) (h : list io) (x : A) :
    res (list io * A * boot_result) :=
  if negb (preflight_ok cfg) then Ret (h, x, BootResult (Some ENODATA) false false false 0)
  else if preboot_table_mode cfg =? 0 then Ret (h, x, BootResult (Some EAGAIN) false false false 0)
  else
    let h := if preboot_table_mode cfg =? 1 then preboot_table h else h in
    let h := grant_tunables h in
    if stop_after cfg =? 1 then Ret (h, x, BootResult (Some ECANCELED) false false false 0)
    else
      let h := scratch_clear (rtb_mode cfg) h in
      if stop_after cfg =? 2 then Ret (h, x, BootResult (Some ECANCELED) false false false 0)
      else
        let h := rvbar_fold (cfg_fw_dva cfg) h in
        if stop_after cfg =? 3 then Ret (h, x, BootResult (Some ECANCELED) false false false 0)
        else
          let h := cpu_release h in
          let '(h, v) := poll_ack (Z.to_nat ANE_T6021_BOOT_TABLE_POLLS) 0 h in
          if negb (v =? ANE_T6021_BOOT_ACK) then
            Ret (h, x, BootResult (if rtb_mode cfg then None else Some ETIMEDOUT) true false false 0)
          else if stop_after cfg =? 4 then Ret (h, x, BootResult (Some ECANCELED) true true false 0)
          else if rtb_mode cfg then Ret (h, x, BootResult None true true false 0)
          else
            '(h, x, p) ← prepare h x;
            match p with
            | inr e => Ret (h, x, BootResult (Some e) true true false 0)
            | inl (lo, hi) =>
                let h := h ++ [Barrier] in
                let h := wr32 ANE_T6021_BOOT_REG_SCRATCH0 lo h in
                let h := wr32 ANE_T6021_BOOT_REG_SCRATCH1 hi h in
                let h := wr32 ANE_T6021_BOOT_REG_SCRATCH7 ANE_T6021_BOOT_WAKE_REQ h in
                let '(h, v) := poll_ack (Z.to_nat ANE_T6021_BOOT_TABLE_POLLS) 0 h in
                if negb (v =? ANE_T6021_BOOT_ACK) then
                  Ret (h, x, BootResult (Some ETIMEDOUT) true true false 0)
                else
                  let '(h, sres) := read_result h in
                  Ret (h, x, BootResult None true true true sres)
            end.
End run.

Definition ane_t6021_boot_dma_reclaimable (cpu_started : bool) : bool := negb cpu_started.
Definition ane_t6021_boot_remove_held (cpu_started : bool) : bool := cpu_started.

(** ** The kernel side: [ane_t6021_boot.c] *)

Definition pf_provider_genpd_strategy : bool := true.
Definition pf_pool_word0_proven : bool := true.
Definition pf_heap_floor_pinned : bool := true.
Definition pf_dart_page_floor : bool := true.
Definition pf_rvbar_lifecycle : bool := true.
Definition pf_pass6_init_contract : bool := true.
Definition pf_main_lifetime_review : bool := true.

Definition ane_t6021_boot_preflight_complete : bool :=
  pf_provider_genpd_strategy && pf_pool_word0_proven && pf_heap_floor_pinned && pf_dart_page_floor &&
  pf_rvbar_lifecycle && pf_pass6_init_contract && pf_main_lifetime_review.

Definition boot_sources : ane_t6021_init_sources := InitSources 0 0 0x500000 0 0x4000 0 0x40000.

Definition ANE_ASC_RVBAR : Z := 0x1050000.
Definition ANE_ASC_CPU_STATUS : Z := 0x1400048.
Definition ANE_MBI_SCRATCH0 : Z := 0x1840048.
Definition ANE_T6021_BOOT_REG_TICK : Z := 0x01160008.

Section kernel.
Context `{HI : Iommu} {HC : DmaCoherent}.
Context (dev : list io -> Z -> Z).
(** The module parameter. *)
Context (boot_prevent_nap : bool).

(** [struct ane_t6021] from the boot's side: the loader's fields, the surfaces
    and the outcome; [bs_pins] counts the references it holds on the module. *)
Record boot_state := BootState {
  bs_fw : fw_state;
  bs_allocs : ane_t6021_boot_allocs;
  bs_result : boot_result;
  bs_pins : Z;
}.

Definition ane_t6021_fw_alias_iova_ok (f : fw_state) (iova size : Z) : bool :=
  let lo := l_alias f in
  if lo =? 0 then true else (u64 (iova + size) <=? lo) || (iova >=? u64 (lo + l_size f)).

Definition ane_boot_alloc (f : fw_state) (size : Z) : fw_state * option Z :=
  match dma_alloc (l_dom f) size with
  | None => (f, None)
  | Some (iova, d) =>
      if negb (ane_t6021_fw_alias_iova_ok f iova size) then (set_dom (dma_free d iova size) f, None)
      else (set_dom d f, Some iova)
  end.

Definition rd32 (off : Z) (h : list io) : list io * Z :=
  let v := u32 (dev h off) in (h ++ [Rd32 off v], v).

(** The store into the init resources. *)
Definition nap_bit (pool : bytes) : res bytes :=
  b ← rd8 pool (ANE_T6021_INIT_TEMPLATE_OFF + 0x84);
  wr8 pool (ANE_T6021_INIT_TEMPLATE_OFF + 0x84) (Z.lor b 1).

Definition ane_t6021_boot_prepare (h : list io) (s : boot_state) :
    res (list io * boot_state * ((Z * Z) + errno)) :=
  if negb ane_t6021_boot_preflight_complete then Ret (h, s, inr ENODATA)
  else
    let '(h, scratch0) := rd32 ANE_MBI_SCRATCH0 h in
    let '(h, scratch1) := rd32 (ANE_MBI_SCRATCH0 + 4) h in
    let '(h, request) := rd32 (ANE_MBI_SCRATCH0 + 4 * 3) h in
    let src := InitSources (l_iova (bs_fw s)) (src_ipc_dva boot_sources) (src_cfg_size boot_sources)
                 (src_prev_fw_len boot_sources) (src_heap_floor boot_sources) (src_pool_dma boot_sources)
                 (src_pool_word0 boot_sources) in
    '(f, a, r) ← ane_t6021_boot_prepare_publish ane_boot_alloc src request scratch0 scratch1 0x4000
                   ANE_T6021_BOOT_IPC_CEILING ANE_T6021_BOOT_HEAP_CEILING (bs_fw s);
    pool ← match r, al_pool a with
           | inl _, Some pool => if boot_prevent_nap then pool ← nap_bit pool; Ret (Some pool) else Ret (Some pool)
           | _, pool => Ret pool
           end;
    Ret (h,
         BootState f (BootAllocs pool (al_pool_dva a) (al_ipc a) (al_ipc_dva a) (al_ipc_size a) (al_heap a)
                        (al_heap_dva a) (al_heap_size a)) (bs_result s) (bs_pins s),
         r).

Definition ane_t6021_boot_progress_dump (h : list io) : list io :=
  let h := (rd32 ANE_T6021_BOOT_REG_TICK h).1 in
  let h := (rd32 ANE_T6021_BOOT_REG_TICK h).1 in
  let h := foldl (fun h i => (rd32 (ANE_T6021_BOOT_REG_SCRATCH0 + 4 * i) h).1) h (seqZ 0 8) in
  let h := h ++ [Rd64 ANE_ASC_RVBAR (u64 (dev h ANE_ASC_RVBAR))] in
  (rd32 ANE_ASC_CPU_STATUS h).1.

(** [try_get] is [try_module_get]. *)
Definition ane_t6021_boot_start (try_get : bool) (stop_after table_mode : Z) (rtb_mode : bool)
    (h : list io) (s : boot_state) : res (list io * boot_state * option errno) :=
  let cfg := BootCfg ane_t6021_boot_preflight_complete table_mode (l_iova (bs_fw s)) rtb_mode stop_after in
  if negb try_get then Ret (h, s, Some EBUSY)
  else
    let s := BootState (bs_fw s) (bs_allocs s) (bs_result s) (bs_pins s + 1) in
    '(h, s, r) ← ane_t6021_boot_run dev ane_t6021_boot_prepare cfg h s;
    let s := BootState (bs_fw s) (bs_allocs s) r (bs_pins s) in
    let h := if cpu_started r && negb (fw_alive r) then ane_t6021_boot_progress_dump h else h in
    if negb (cpu_started r) then
      Ret (h, BootState (bs_fw s) (bs_allocs s) (bs_result s) (bs_pins s - 1), b_ret r)
    else match b_ret r with
         | Some ENODATA => Ret (h, s, Some ENODATA)
         | Some _ => Ret (h, s, None)
         | None => Ret (h, s, None)
         end.

(** ** The part of the probe that starts the firmware *)

(** The module parameters, and what the kernel answers. *)
Record start_env := StartEnv {
  se_params : fw_params;
  se_env : fw_env;
  se_fw_start : bool;
  se_table_mode : Z;
  se_rtb_mode : bool;
  se_iommu_mapped : bool;
  se_kzalloc : bool;
  se_try_get : bool;
}.

(** [p_fw] is [ane->fw], [p_held] [ane->held], [p_touched]
    [hardware_touched]; the domain outlives [ane->fw]. [Some r] of the
    last component: the probe returned [r]. *)
Record probe_state := ProbeState {
  p_dom : domain;
  p_fw : option boot_state;
  p_held : bool;
  p_touched : bool;
  p_pins : Z;
}.

Definition fresh_fw (d : domain) (pins : Z) : boot_state :=
  BootState (FwState d None 0 0 0 [] 0) no_allocs (BootResult None false false false 0) pins.

(** The failure exits after staging: [fwload_remove], [ane->fw = NULL]. *)
Definition drop_fw (e : fw_env) (b : boot_state) (p : probe_state) : probe_state :=
  ProbeState (l_dom (ane_t6021_fwload_remove e (bs_fw b))) None (p_held p) (p_touched p) (bs_pins b).

Definition keep_fw (b : boot_state) (held : bool) (p : probe_state) : probe_state :=
  ProbeState (l_dom (bs_fw b)) (Some b) held (p_touched p) (bs_pins b).

Definition probe_start (sha256 : bytes -> bytes) (se : start_env) (sc : ane_t602x_soc) (h : list io)
    (p : probe_state) : res (list io * probe_state * option (option errno)) :=
  if negb (se_fw_start se) then Ret (h, p, Some (Some EPROBE_DEFER))
  else if negb (ane_t6021_fwload_requested (se_params se)) then Ret (h, p, Some (Some EINVAL))
  else if negb (se_iommu_mapped se) then Ret (h, p, Some (Some EINVAL))
  else if negb (se_kzalloc se) then Ret (h, p, Some (Some ENOMEM))
  else
    let a := fresh_fw (p_dom p) (p_pins p) in
    let p := ProbeState (p_dom p) (Some a) (p_held p) true (p_pins p) in
    '(f, r) ← ane_t6021_fwload_probe sha256 (se_params se) (se_env se) sc (bs_fw a);
    let a := BootState f (bs_allocs a) (bs_result a) (bs_pins a) in
    match r with
    | Some er => Ret (h, drop_fw (se_env se) a p, Some (Some er))
    | None =>
        if negb (ane_t6021_rvbar_entry_ok (l_iova f)) then Ret (h, drop_fw (se_env se) a p, Some (Some EINVAL))
        else
          '(h, a, r) ← ane_t6021_boot_start (se_try_get se) 0 (se_table_mode se) (se_rtb_mode se) h a;
          if bool_decide (r = Some ENODATA \/ r = Some EAGAIN \/ r = Some EBUSY \/ r = Some ECANCELED) then
            Ret (h, drop_fw (se_env se) a p, Some r)
          else
            let h := (rd32 ANE_ASC_CPU_STATUS h).1 in
            let p := keep_fw a true p in
            if negb (fw_alive (bs_result a)) && negb (se_rtb_mode se) then Ret (h, p, Some None)
            else Ret (h, p, None)
    end.
End kernel.

(** ** The init structure, byte by byte *)

Definition stores (m : bytes) (ws : list (Z * Z)) : bytes := foldl (fun m w => <[Z.to_nat w.1 := u8 w.2]> m) m ws.

Lemma zlen_stores m ws : zlen (stores m ws) = zlen m.
Proof. revert m. induction ws as [|w ws IH]; intros m; [done|]. cbn. rewrite IH. apply zlen_insert. Qed.

Lemma store_all_eq m ws :
  Forall (fun w => 0 <= w.1 < zlen m) ws -> store_all m ws = Ret (stores m ws).
Proof.
  revert m. induction ws as [|w ws IH]; intros m Hws; [done|]. apply Forall_cons in Hws as [Hw Hws].
  unfold store_all in *. cbn [foldM stores foldl]. rewrite wr8_eq; [|done]. cbn [mbind res_bind].
  apply IH. by rewrite zlen_insert.
Qed.

Lemma store_all_app m ws ws' : store_all m (ws ++ ws') = store_all m ws ≫= (fun m' => store_all m' ws').
Proof. apply foldM_app. Qed.

(** The last store to a byte. *)
Definition stored (ws : list (Z * Z)) (k : Z) : option Z :=
  foldl (fun acc w => if w.1 =? k then Some w.2 else acc) None ws.

Lemma byte_at_stores m ws k :
  Forall (fun w => 0 <= w.1 < zlen m) ws -> 0 <= k ->
  byte_at (stores m ws) k = match stored ws k with Some v => u8 v | None => byte_at m k end.
Proof.
  intros Hws Hk. induction ws as [|w ws IH] using rev_ind; [done|].
  apply Forall_app in Hws as [Hws Hw]. apply Forall_inv in Hw.
  unfold stores, stored in *. rewrite !foldl_app. cbn [foldl].
  change (foldl _ m ws) with (stores m ws).
  rewrite byte_at_insert; [|rewrite zlen_stores; exact Hw|done].
  destruct (Z.eqb_spec w.1 k) as [->|Hne]; [by rewrite bool_decide_eq_true_2|].
  rewrite bool_decide_eq_false_2; [|done]. by apply IH.
Qed.

Definition fill_stores (s : ane_t6021_init_sources) (heap_size heap_dva ord : Z) : list (Z * Z) :=
  flat_map (fill_row s heap_dva ord) (seqZ 0 8) ++
  map (fun i => (0x28 + i, Z.shiftr heap_size (8 * i))) (seqZ 0 8) ++ fill_tail s.

Lemma fill_stores_bound s heap_size heap_dva ord :
  Forall (fun w => 0 <= w.1 < ANE_T6021_INIT_STRUCT_SIZE) (fill_stores s heap_size heap_dva ord).
Proof.
  apply (Forall_fmap fst (fun o => 0 <= o < ANE_T6021_INIT_STRUCT_SIZE)).
  change (Forall (fun o => 0 <= o < ANE_T6021_INIT_STRUCT_SIZE)
    (fst <$> fill_stores (InitSources 0 0 0 0 0 0 0) 0 0 0)). vm_decide.
Qed.

Lemma init_struct_fill_eq m s heap_size heap_dva ord :
  ANE_T6021_INIT_STRUCT_SIZE <= zlen m ->
  ane_t6021_init_struct_fill m s heap_size heap_dva ord = Ret (stores m (fill_stores s heap_size heap_dva ord)).
Proof.
  intros Hm. rewrite -store_all_eq.
  2: { eapply Forall_impl; [apply fill_stores_bound|]. cbn. lia. }
  assert (forall m, foldM (fun m i => store_all m (fill_row s heap_dva ord i)) m (seqZ 0 8) =
    store_all m (flat_map (fill_row s heap_dva ord) (seqZ 0 8))) as E1.
  { generalize (seqZ 0 8). intros l. induction l as [|i l IH]; intros m'; [done|]. cbn [foldM flat_map].
    rewrite store_all_app. destruct (store_all m' _); cbn [mbind res_bind]; [apply IH|done..]. }
  assert (forall m, foldM (fun m i => wr8 m (0x28 + i) (Z.shiftr heap_size (8 * i))) m (seqZ 0 8) =
    store_all m (map (fun i => (0x28 + i, Z.shiftr heap_size (8 * i))) (seqZ 0 8))) as E2.
  { generalize (seqZ 0 8). intros l. induction l as [|i l IH]; intros m'; [done|]. unfold store_all. cbn [foldM map fst snd].
    destruct (wr8 m' _ _); cbn [mbind res_bind]; [apply IH|done..]. }
  unfold ane_t6021_init_struct_fill, fill_stores. rewrite E1.
  rewrite (store_all_app m (flat_map (fill_row s heap_dva ord) (seqZ 0 8))).
  destruct (store_all m _) as [m1| |]; cbn [mbind res_bind]; [|done..].
  rewrite E2 (store_all_app m1 (map _ (seqZ 0 8))). done.
Qed.

(** The words of the structure. *)
Definition init_words (s : ane_t6021_init_sources) (heap_size heap_dva ord : Z) : list (Z * Z) :=
  [(0x00, src_fw_dva s); (0x08, src_ipc_dva s); (0x10, src_cfg_size s); (0x18, u64 (0x10000000 - src_cfg_size s));
   (0x20, heap_dva); (0x28, heap_size); (0x50, ord); (0x58, src_pool_dma s); (0x60, src_pool_word0 s)].

Lemma word64_at_bytes m o v :
  0 <= o -> o + 8 <= zlen m -> Forall (fun i => byte_at m (o + i) = u8 (Z.shiftr v (8 * i))) (seqZ 0 8) ->
  word64_at m o = u64 v.
Proof.
  intros Ho Hl Hb. apply word64_at_slice; [|done]. apply bytes_ext; [rewrite zlen_slice ?zlen_le_bytes; lia|].
  rewrite zlen_slice; [|lia..]. intros i Hi. rewrite byte_at_slice; [|lia..].
  rewrite Forall_forall in Hb. rewrite Hb; [|apply elem_of_seqZ; lia].
  unfold byte_at. assert (i = 0 \/ i = 1 \/ i = 2 \/ i = 3 \/ i = 4 \/ i = 5 \/ i = 6 \/ i = 7) as Hc by lia.
  unfold le_bytes. rewrite !Z.shiftr_shiftr; [|lia..].
  repeat (destruct Hc as [->|Hc]; [rewrite ?Z.shiftr_0_r; reflexivity|]). subst i. reflexivity.
Qed.

Lemma fill_words m s heap_size heap_dva ord :
  ANE_T6021_INIT_STRUCT_SIZE <= zlen m ->
  let m' := stores m (fill_stores s heap_size heap_dva ord) in
  Forall (fun w => word64_at m' w.1 = u64 w.2) (init_words s heap_size heap_dva ord) /\
  byte_at m' 0x12c = 4 /\
  (forall k, 0 <= k -> stored (fill_stores s heap_size heap_dva ord) k = None -> byte_at m' k = byte_at m k).
Proof.
  intros Hm m'. unfold ANE_T6021_INIT_STRUCT_SIZE in Hm.
  assert (Forall (fun w => 0 <= w.1 < zlen m) (fill_stores s heap_size heap_dva ord)) as Hb.
  { eapply Forall_impl; [apply fill_stores_bound|]. cbn. unfold ANE_T6021_INIT_STRUCT_SIZE. lia. }
  split; [|split].
  - assert (Forall (fun w => 0 <= w.1 /\ w.1 + 8 <= zlen m /\
      Forall (fun i => stored (fill_stores s heap_size heap_dva ord) (w.1 + i) = Some (Z.shiftr w.2 (8 * i))) (seqZ 0 8))
      (init_words s heap_size heap_dva ord)) as H.
    { unfold init_words. repeat constructor; cbn [fst snd]; lia. }
    eapply Forall_impl; [exact H|]. intros [o v] (Ho & Hl & Hi). cbn [fst snd] in *.
    apply word64_at_bytes; [done|by rewrite zlen_stores|]. apply Forall_forall. intros i Hin.
    rewrite Forall_forall in Hi. rewrite byte_at_stores; [|done|apply elem_of_seqZ in Hin; lia]. by rewrite Hi.
  - unfold m'. rewrite byte_at_stores; [done|done|lia].
  - intros k Hk Hs. unfold m'. rewrite byte_at_stores; [|done..]. by rewrite Hs.
Qed.

(** ** What the prepare hook leaves *)

Section prepared.
Context `{HI : Iommu} `{HL : !IommuLaws 14} {HC : DmaCoherent} `{HD : !DmaLaws}.

(** The pages of an allocation, as a run. *)
Definition run_of (i n : Z) : Z * Z := (i, dma_pages n * P).

Definition surfaces (a : ane_t6021_boot_allocs) : list (Z * Z) :=
  (if al_pool a then [(al_pool_dva a, pool_size)] else []) ++
  (if al_ipc a then [(al_ipc_dva a, al_ipc_size a)] else []) ++
  (if al_heap a then [(al_heap_dva a, al_heap_size a)] else []).

Definition runs (a : ane_t6021_boot_allocs) : list (Z * Z) := map (fun s => run_of s.1 s.2) (surfaces a).

(** Outside the window of the entry alias. *)
Definition clear_of_alias (f : fw_state) (s : Z * Z) : Prop :=
  l_alias f = 0 \/ s.1 + s.2 <= l_alias f \/ l_alias f + l_size f <= s.1.

Lemma dma_pages_pos n : 0 < n -> 0 < dma_pages n /\ n <= dma_pages n * P.
Proof using.
  intros Hn. unfold dma_pages. change P with 16384. split.
  - apply Z.div_str_pos. lia.
  - pose proof (Z_div_mod_eq_full (n + (16384 - 1)) 16384). pose proof (Z.mod_pos_bound (n + (16384 - 1)) 16384). lia.
Qed.

Lemma boot_alloc_spec f n f' r :
  0 < n -> 0 <= l_alias f -> 0 <= l_size f -> l_alias f + l_size f < 2 ^ 64 ->
  ane_boot_alloc f n = (f', r) ->
  f' = set_dom (l_dom f') f /\
  match r with
  | None => extends (l_dom f) [] (l_dom f')
  | Some i => extends (l_dom f) [run_of i n] (l_dom f') /\ clear_of_alias f (i, n) /\ 0 < i < 2 ^ 32
  end.
Proof using HD.
  intros Hn Ha0 Hs0 Hal. unfold ane_boot_alloc.
  destruct (dma_alloc (l_dom f) n) as [[i d]|] eqn:Ea.
  2: { intros [= <- <-]. split; [by destruct f|apply extends_refl]. }
  destruct (dma_alloc_pages _ _ _ _ Ea) as [Hi Ho]. destruct (dma_alloc_addr _ _ _ _ Ea) as [Hp Hm].
  destruct (dma_pages_pos n Hn) as [Hpg Hle].
  destruct (ane_t6021_fw_alias_iova_ok f i n) eqn:Eok; cbn [negb]; intros [= <- <-]; (split; [done|]); cbn [l_dom set_dom].
  - split.
    + assert (forall j, covered [run_of i n] j <-> page_of i (dma_pages n) j) as E.
      { intros j. rewrite covered_cons. cbn [fst snd run_of]. rewrite Z.div_mul; [|done].
        split; [by intros [?|?%covered_nil]|by left]. }
      split.
      * cbn. split; [intros j _; apply covered_nil|done].
      * constructor; [|constructor]. cbn [snd run_of]. split; [by apply Z.mod_mul|change P with 16384; lia].
      * intros j Hj%E. destruct (Hi j Hj) as (H0 & p & -> & _). eauto.
      * intros j Hj. apply Ho. by rewrite -E.
    + split; [|change P with 16384 in *; lia]. unfold ane_t6021_fw_alias_iova_ok in Eok. unfold clear_of_alias. cbn [fst snd].
      destruct (Z.eqb_spec (l_alias f) 0) as [|Hne]; [by left|]. right.
      unfold wrap in Eok. rewrite !Z.mod_small in Eok; [|change P with 16384 in *; lia..]. lia.
  - split; [done|constructor|by intros j ?%covered_nil|]. intros j _.
    destruct (decide (page_of i (dma_pages n) j)) as [Hj|Hj].
    + rewrite dma_free_pages; [|done]. by destruct (Hi j Hj) as [-> _].
    + rewrite dma_free_other; [|done]. by apply Ho.
Qed.

Lemma extends_same d0 rs d d' : extends d0 rs d -> extends d [] d' -> extends d0 rs d'.
Proof using.
  intros He Hs. apply (extends_ext d0 d0 rs d d' He); [done|]. intros j. by apply (ext_out _ _ _ Hs), covered_nil.
Qed.

(** The sources the filled structure has. *)
Definition filled (s : ane_t6021_init_sources) (a : ane_t6021_boot_allocs) : ane_t6021_init_sources :=
  InitSources (src_fw_dva s) (al_ipc_dva a) (src_cfg_size s) (src_prev_fw_len s) (src_heap_floor s) (al_pool_dva a)
    (src_pool_word0 s).

(** A filled pool. *)
Definition pool_filled (s : ane_t6021_init_sources) (ord : Z) (a : ane_t6021_boot_allocs) (nap : Z)
    (pool : bytes) : Prop :=
  zlen pool = pool_size /\
  Forall (fun w => word64_at pool w.1 = u64 w.2) (init_words (filled s a) (al_heap_size a) (al_heap_dva a) ord) /\
  byte_at pool 0x12c = 4 /\ byte_at pool 0xf0 = nap /\
  (forall k, ANE_T6021_INIT_STRUCT_SIZE <= k -> byte_at pool k = 0).

(** What is true after the hook: [f] and [f'] before and after. *)
Definition prepared (s : ane_t6021_init_sources) (req s0 s1 : Z) (f f' : fw_state) (a : ane_t6021_boot_allocs)
    (nap : Z) (r : (Z * Z) + errno) : Prop :=
  f' = set_dom (l_dom f') f /\ extends (l_dom f) (runs a) (l_dom f') /\
  Forall (fun x => 0 < x.1 < 2 ^ 32 /\ clear_of_alias f x) (surfaces a) /\
  match r with
  | inr EPROTO => ANE_T6021_BOOT_IPC_REQ_THRESHOLD <= s0 /\ f' = f /\ surfaces a = []
  | inr E2BIG => (ANE_T6021_BOOT_IPC_CEILING <= s1 < U32_MAX \/ ANE_T6021_BOOT_HEAP_CEILING < req) /\ f' = f /\
      surfaces a = []
  | inr ENOMEM => True
  | inr _ => False
  | inl (lo, hi) =>
      s0 < ANE_T6021_BOOT_IPC_REQ_THRESHOLD /\ ane_t6021_scratch64_join lo hi = al_pool_dva a /\ al_ipc a = true /\
      al_ipc_size a = Z.max 0x4000 (u32 (s1 + 1)) /\ al_ipc_size a <= ANE_T6021_BOOT_IPC_CEILING /\
      al_heap_size a = (if req =? 0 then 0 else Z.max req (src_heap_floor s)) /\
      al_heap a = negb (req =? 0) /\
      exists pool, al_pool a = Some pool /\ pool_filled s (u32 (s1 + 1)) a nap pool
  end.

Lemma join_split v : 0 <= v < 2 ^ 64 ->
  ane_t6021_scratch64_join (u32 (Z.land v 0xffffffff)) (u32 (Z.shiftr v 32)) = v.
Proof using.
  intros Hv. change 0xffffffff with (Z.ones 32). rewrite Z.land_ones; [|lia]. unfold wrap. rewrite Z.mod_mod; [|lia].
  rewrite Z.shiftr_div_pow2; [|lia]. rewrite (Z.mod_small (v / 2 ^ 32)).
  2: { split; [apply Z.div_pos; lia|]. apply Z.div_lt_upper_bound; lia. }
  unfold ane_t6021_scratch64_join. rewrite Z.lor_comm lor_shiftl_add; [|lia|apply Z.mod_pos_bound; lia].
  pose proof (Z_div_mod_eq_full v (2 ^ 32)). lia.
Qed.

Lemma fill_and_split_eq s s1 (f : fw_state) a :
  al_pool a = Some (replicate (Z.to_nat pool_size) 0) -> 0 < al_pool_dva a < 2 ^ 32 ->
  exists pool, pool_filled s (u32 (s1 + 1)) a 0 pool /\
    fill_and_split s s1 f a =
      Ret (f, BootAllocs (Some pool) (al_pool_dva a) (al_ipc a) (al_ipc_dva a) (al_ipc_size a) (al_heap a)
                (al_heap_dva a) (al_heap_size a),
           inl (u32 (Z.land (al_pool_dva a) 0xffffffff), u32 (Z.shiftr (al_pool_dva a) 32))).
Proof using.
  intros Hp Hd. unfold fill_and_split. rewrite Hp. cbn [default].
  assert (zlen (replicate (Z.to_nat pool_size) 0) = pool_size) as Hz by (rewrite zlen_replicate; unfold pool_size; lia).
  assert (ANE_T6021_INIT_STRUCT_SIZE <= zlen (replicate (Z.to_nat pool_size) 0)) as Hl by (rewrite Hz; done).
  change (InitSources (src_fw_dva s) (al_ipc_dva a) (src_cfg_size s) (src_prev_fw_len s) (src_heap_floor s) (al_pool_dva a)
    (src_pool_word0 s)) with (filled s a).
  rewrite init_struct_fill_eq; [|done]. cbn [mbind res_bind]. eexists. split; [|reflexivity].
  destruct (fill_words _ (filled s a) (al_heap_size a) (al_heap_dva a) (u32 (s1 + 1)) Hl) as (H1 & H2 & H3).
  assert (forall k, byte_at (replicate (Z.to_nat pool_size) 0) k = 0) as Hzero.
  { intros k. unfold byte_at. destruct (replicate _ 0 !! _) eqn:E; [|done]. by apply lookup_replicate in E as [-> _]. }
  split; [by rewrite zlen_stores|]. split; [exact H1|]. split; [exact H2|]. split; [by rewrite H3; [apply Hzero|..]|].
  intros k Hk. rewrite H3.
  - apply Hzero.
  - unfold ANE_T6021_INIT_STRUCT_SIZE in Hk. lia.
  - pose proof (fill_stores_bound (filled s a) (al_heap_size a) (al_heap_dva a) (u32 (s1 + 1))) as Hb.
    revert Hb. generalize (fill_stores (filled s a) (al_heap_size a) (al_heap_dva a) (u32 (s1 + 1))). intros ws.
    induction ws as [|w ws IH] using rev_ind; [done|]. intros [Hws Hw]%Forall_app. apply Forall_inv in Hw.
    unfold stored in *. rewrite foldl_app. cbn [foldl]. destruct (Z.eqb_spec w.1 k); [lia|by apply IH].
Qed.

Lemma prepare_publish_spec s req s0 s1 f :
  0 <= src_heap_floor s -> 0 <= req -> in_range 32 s1 ->
  0 <= l_alias f -> 0 <= l_size f -> l_alias f + l_size f < 2 ^ 64 ->
  exists f' a r,
    ane_t6021_boot_prepare_publish ane_boot_alloc s req s0 s1 0x4000 ANE_T6021_BOOT_IPC_CEILING
      ANE_T6021_BOOT_HEAP_CEILING f = Ret (f', a, r) /\ prepared s req s0 s1 f f' a 0 r.
Proof using HD.
  intros Hfl Hreq Hs1 Ha0 Hs0 Hal. unfold ane_t6021_boot_prepare_publish.
  assert (f = set_dom (l_dom f) f) as Hf by by destruct f.
  destruct (Z.geb_spec s0 ANE_T6021_BOOT_IPC_REQ_THRESHOLD) as [Hge|Hlt].
  { exists f, no_allocs, (inr EPROTO). split; [done|]. split; [done|]. split; [apply extends_refl|]. split; [constructor|done]. }
  assert (ane_t6021_ipc_size 0x4000 s1 = Z.max 0x4000 (u32 (s1 + 1))) as Eipc.
  { unfold ane_t6021_ipc_size. destruct (Z.gtb_spec 0x4000 (u32 (s1 + 1))); lia. }
  rewrite Eipc. set (ipc := Z.max 0x4000 (u32 (s1 + 1))).
  destruct (Z.gtb_spec ipc ANE_T6021_BOOT_IPC_CEILING) as [Hgt|Hle].
  { eexists f, _, (inr E2BIG). split; [reflexivity|]. split; [done|]. split; [apply extends_refl|]. split; [constructor|].
    split; [|done]. left. unfold ipc, wrap, in_range, U32_MAX, ANE_T6021_BOOT_IPC_CEILING in *.
    destruct (decide (s1 = 2 ^ 32 - 1)) as [->|Hne]; [by vm_compute in Hgt|]. rewrite Z.mod_small in Hgt; lia. }
  destruct (ane_t6021_heap_size req (src_heap_floor s) ANE_T6021_BOOT_HEAP_CEILING) as [heap|] eqn:Eh.
  2: { eexists f, _, (inr E2BIG). split; [reflexivity|]. split; [done|]. split; [apply extends_refl|]. split; [constructor|].
       split; [|done]. right. unfold ane_t6021_heap_size in Eh. destruct (Z.eqb_spec req 0); [done|].
       destruct (Z.gtb_spec req ANE_T6021_BOOT_HEAP_CEILING); [lia|done]. }
  assert (heap = if req =? 0 then 0 else Z.max req (src_heap_floor s)) as Eheap.
  { unfold ane_t6021_heap_size in Eh. destruct (req =? 0); [congruence|]. destruct (req >? ANE_T6021_BOOT_HEAP_CEILING); [done|].
    injection Eh as <-. destruct (Z.gtb_spec req (src_heap_floor s)); lia. }
  destruct (ane_boot_alloc f pool_size) as [f1 r1] eqn:E1.
  destruct (boot_alloc_spec f pool_size f1 r1 ltac:(done) Ha0 Hs0 Hal E1) as [Ef1 H1]. destruct r1 as [pdva|].
  2: { eexists f1, _, (inr ENOMEM). split; [reflexivity|]. split; [done|]. split; [exact H1|]. by split; [constructor|]. }
  destruct H1 as (X1 & C1 & R1).
  assert (0 < ipc) as Hipc by (unfold ipc; lia).
  assert (l_alias f1 = l_alias f /\ l_size f1 = l_size f) as [Al1 Sz1] by (rewrite Ef1; done).
  destruct (ane_boot_alloc f1 ipc) as [f2 r2] eqn:E2.
  destruct (boot_alloc_spec f1 ipc f2 r2 Hipc ltac:(lia) ltac:(lia) ltac:(lia) E2) as [Ef2 H2].
  assert (f2 = set_dom (l_dom f2) f) as Ef2' by (rewrite {1}Ef2 Ef1; done).
  destruct r2 as [idva|].
  2: { eexists f2, _, (inr ENOMEM). split; [reflexivity|]. split; [done|]. 
       split; [exact (extends_same _ _ _ _ X1 H2)|]. split; [exact (Forall_cons_2 _ (pdva, pool_size) _ (conj R1 C1) (Forall_nil_2 _))|done]. }
  destruct H2 as (X2 & C2 & R2). pose proof (extends_app _ _ _ _ _ X1 X2) as X12. cbn [app] in X12.
  assert (clear_of_alias f (idva, ipc)) as C2' by (unfold clear_of_alias in *; by rewrite Al1 Sz1 in C2).
  destruct (Z.eqb_spec heap 0) as [Hz|Hnz].
  - destruct (fill_and_split_eq s s1 f2 (BootAllocs (Some (replicate (Z.to_nat pool_size) 0)) pdva true idva ipc false 0 heap)
      eq_refl R1) as (pool & Hpool & ->).
    eexists f2, _, (inl (_, _)). split; [reflexivity|]. split; [done|]. split; [exact X12|].
    split; [exact (Forall_cons_2 _ (pdva, pool_size) _ (conj R1 C1) (Forall_cons_2 _ (idva, ipc) _ (conj R2 C2') (Forall_nil_2 _)))|].
    split; [done|]. split; [apply join_split; cbn [al_pool_dva]; lia|]. split; [done|]. split; [done|]. split; [done|].
    split; [exact Eheap|]. split; [|by exists pool]. cbn [al_heap]. destruct (Z.eqb_spec req 0); [done|lia].
  - assert (l_alias f2 = l_alias f /\ l_size f2 = l_size f) as [Al2 Sz2] by (rewrite Ef2'; done).
    assert (req <> 0) as Hr by (intros ->; apply Hnz; exact Eheap).
    assert (0 < heap) as Hh by (rewrite Eheap (proj2 (Z.eqb_neq _ _) Hr); lia).
    destruct (ane_boot_alloc f2 heap) as [f3 r3] eqn:E3.
    destruct (boot_alloc_spec f2 heap f3 r3 Hh ltac:(lia) ltac:(lia) ltac:(lia) E3) as [Ef3 H3].
    assert (f3 = set_dom (l_dom f3) f) as Ef3' by (rewrite {1}Ef3 Ef2'; done).
    destruct r3 as [hdva|].
    2: { eexists f3, _, (inr ENOMEM). split; [reflexivity|]. split; [done|].
         split; [exact (extends_same _ _ _ _ X12 H3)|].
         split; [exact (Forall_cons_2 _ (pdva, pool_size) _ (conj R1 C1) (Forall_cons_2 _ (idva, ipc) _ (conj R2 C2') (Forall_nil_2 _)))|done]. }
    destruct H3 as (X3 & C3 & R3). pose proof (extends_app _ _ _ _ _ X12 X3) as X123. cbn [app] in X123.
    assert (clear_of_alias f (hdva, heap)) as C3' by (unfold clear_of_alias in *; by rewrite Al2 Sz2 in C3).
    destruct (fill_and_split_eq s s1 f3 (BootAllocs (Some (replicate (Z.to_nat pool_size) 0)) pdva true idva ipc true hdva heap)
      eq_refl R1) as (pool & Hpool & ->).
    eexists f3, _, (inl (_, _)). split; [reflexivity|]. split; [done|]. split; [exact X123|].
    split; [exact (Forall_cons_2 _ (pdva, pool_size) _ (conj R1 C1) (Forall_cons_2 _ (idva, ipc) _ (conj R2 C2') (Forall_cons_2 _ (hdva, heap) _ (conj R3 C3') (Forall_nil_2 _))))|].
    split; [done|]. split; [apply join_split; cbn [al_pool_dva]; lia|]. split; [done|]. split; [done|]. split; [done|].
    split; [exact Eheap|]. split; [by rewrite (proj2 (Z.eqb_neq _ _) Hr)|by exists pool].
Qed.

(** The nap bit leaves the rest of the structure. *)
Lemma nap_bit_eq s ord a pool :
  pool_filled s ord a 0 pool -> exists pool', nap_bit pool = Ret pool' /\ pool_filled s ord a 1 pool'.
Proof using.
  intros (Hz & Hw & Ht & Hn & Hr). unfold nap_bit, ANE_T6021_INIT_TEMPLATE_OFF. change (0x6c + 0x84) with 0xf0.
  rewrite rd8_eq; [|by rewrite Hz]. cbn [mbind res_bind]. rewrite Hn wr8_eq; [|by rewrite Hz].
  eexists. split; [reflexivity|].
  assert (forall k, 0 <= k -> byte_at (<[Z.to_nat 0xf0 := u8 (Z.lor 0 1)]> pool) k =
    if bool_decide (0xf0 = k) then 1 else byte_at pool k) as E.
  { intros k Hk. rewrite byte_at_insert; [done|by rewrite Hz|done]. }
  split; [by rewrite zlen_insert|]. split; [|split; [|split]].
  - assert (Forall (fun w => 0 <= w.1 /\ w.1 + 8 <= 0xf0)
      (init_words (filled s a) (al_heap_size a) (al_heap_dva a) ord)) as Hb by (repeat constructor; cbn [fst]; lia).
    rewrite Forall_forall in Hw. rewrite Forall_forall in Hb. apply Forall_forall. intros w Hin.
    rewrite -Hw //. destruct (Hb w Hin) as [Hb1 Hb2].
    assert (forall o, 0 <= o -> o + 4 <= 0xf0 -> word32_at (<[Z.to_nat 0xf0 := u8 (Z.lor 0 1)]> pool) o = word32_at pool o)
      as E4.
    { intros o Ho1 Ho2. apply word32_at_ext. intros i Hi. rewrite E; [|lia]. rewrite bool_decide_eq_false_2; [done|lia]. }
    unfold word64_at. rewrite !E4; [done|lia..].
  - rewrite E; [by rewrite Ht|done].
  - by rewrite E.
  - intros k Hk. unfold ANE_T6021_INIT_STRUCT_SIZE in Hk. rewrite E; [|lia].
    rewrite bool_decide_eq_false_2; [by apply Hr|lia].
Qed.

(** The sources of [ane_t6021_boot_prepare]. *)
Definition kernel_sources (iova : Z) : ane_t6021_init_sources := InitSources iova 0 0x500000 0 0x4000 0 0x40000.

Definition alias_sane (f : fw_state) : Prop := 0 <= l_alias f /\ 0 <= l_size f /\ l_alias f + l_size f < 2 ^ 64.

Lemma boot_prepare_spec dev nap h s :
  alias_sane (bs_fw s) ->
  let '(h1, s0) := rd32 dev ANE_MBI_SCRATCH0 h in
  let '(h2, s1) := rd32 dev (ANE_MBI_SCRATCH0 + 4) h1 in
  let '(h3, req) := rd32 dev (ANE_MBI_SCRATCH0 + 4 * 3) h2 in
  exists f a r,
    ane_t6021_boot_prepare dev nap h s = Ret (h3, BootState f a (bs_result s) (bs_pins s), r) /\
    prepared (kernel_sources (l_iova (bs_fw s))) req s0 s1 (bs_fw s) f a (Z.b2z nap) r.
Proof using HD.
  intros (Ha & Hs & Hal). unfold ane_t6021_boot_prepare. change (negb ane_t6021_boot_preflight_complete) with false.
  cbn match. unfold rd32. cbn match.
  set (s0 := u32 (dev h ANE_MBI_SCRATCH0)). set (h1 := h ++ _). set (s1 := u32 _). set (h2 := h1 ++ _). set (req := u32 _).
  change (InitSources _ _ _ _ _ _ _) with (kernel_sources (l_iova (bs_fw s))).
  destruct (prepare_publish_spec (kernel_sources (l_iova (bs_fw s))) req s0 s1 (bs_fw s)) as (f & a & r & -> & Hp);
    [done|apply wrap_range; lia|apply wrap_range; lia|done..|].
  cbn [mbind res_bind]. destruct r as [[lo hi]|er].
  - destruct Hp as (H1 & H2 & H3 & H4 & H5 & H6 & H7 & H8 & H9 & H10 & pool & Epool & Hpool). rewrite Epool.
    assert (exists pool', (if nap then pool ← nap_bit pool; Ret (Some pool) else Ret (Some pool)) = Ret (Some pool') /\
      pool_filled (kernel_sources (l_iova (bs_fw s))) (u32 (s1 + 1)) a (Z.b2z nap) pool') as (pool' & -> & Hpool').
    { destruct nap; [|by exists pool]. destruct (nap_bit_eq _ _ _ _ Hpool) as (pool' & -> & Hp'). by exists pool'. }
    cbn [mbind res_bind]. eexists f, _, (inl (lo, hi)). split; [reflexivity|].
    unfold runs, surfaces in H2, H3. rewrite Epool in H2. rewrite Epool in H3.
    split; [done|]. split; [exact H2|]. split; [exact H3|]. repeat (split; [done|]). by exists pool'.
  - cbn [mbind res_bind]. eexists f, _, (inr er). split; [reflexivity|]. destruct a. exact Hp.
Qed.

End prepared.

(** ** The boot protocol as an automaton *)

(** [Setup c]: before the release; [c] is whether the last read of RVBAR
    showed the latch clear. *)
Inductive phase :=
  | Setup (clear : bool)
  | Halted
  | Running
  | Ready
  | Fenced
  | Low (lo : Z)
  | Published (lo hi : Z)
  | Woken (lo hi : Z)
  | Done (lo hi : Z).

(** One access; [None] is a violation. Reads and waits are always allowed, a
    write only where the protocol has it. *)
Definition phase_step (fw_dva : Z) (p : phase) (e : io) : option phase :=
  match e with
  | Wait => Some p
  | Rd32 off v =>
      if (off =? ANE_T6021_BOOT_REG_SCRATCH7) && (v =? ANE_T6021_BOOT_ACK) then
        match p with Running => Some Ready | Woken lo hi => Some (Done lo hi) | _ => Some p end
      else Some p
  | Rd64 off v =>
      match p with
      | Setup c => Some (Setup (if off =? ANE_T6021_BOOT_REG_RVBAR then negb (ane_t6021_rvbar_latched v) else c))
      | _ => Some p
      end
  | Wr64 off v =>
      match p with
      | Setup true =>
          if (off =? ANE_T6021_BOOT_REG_RVBAR) && (v =? ane_t6021_rvbar_compose fw_dva) then Some p else None
      | _ => None
      end
  | Barrier => match p with Ready => Some Fenced | _ => None end
  | Wr32 off v =>
      match p with
      | Setup c =>
          if off =? ANE_T6021_BOOT_REG_CPUCTRL then if v =? 0 then Some Halted else None
          else Some (Setup c)
      | Halted =>
          if (off =? ANE_T6021_BOOT_REG_CPUCTRL) && (v =? ANE_T6021_CPU_RUN_RELEASE) then Some Running else None
      | Fenced => if off =? ANE_T6021_BOOT_REG_SCRATCH0 then Some (Low v) else None
      | Low lo => if off =? ANE_T6021_BOOT_REG_SCRATCH1 then Some (Published lo v) else None
      | Published lo hi =>
          if (off =? ANE_T6021_BOOT_REG_SCRATCH7) && (v =? ANE_T6021_BOOT_WAKE_REQ) then Some (Woken lo hi) else None
      | _ => None
      end
  end.

Definition run_phase (fw_dva : Z) (p : phase) (h : list io) : option phase :=
  foldl (fun acc e => p ← acc; phase_step fw_dva p e) (Some p) h.

Definition phase_started (p : phase) : bool := match p with Setup _ | Halted => false | _ => true end.
Definition phase_alive (p : phase) : bool := match p with Setup _ | Halted | Running => false | _ => true end.
Definition phase_done (p : phase) : bool := match p with Done _ _ => true | _ => false end.

(** The address handed to the firmware, once it was woken. *)
Definition phase_address (p : phase) : option Z :=
  match p with
  | Woken lo hi | Done lo hi => Some (ane_t6021_scratch64_join lo hi)
  | _ => None
  end.

Definition waits (h : list io) : nat := length (filter (fun e => e = Wait) h).

Lemma run_phase_app fw_dva p h h' :
  run_phase fw_dva p (h ++ h') = run_phase fw_dva p h ≫= (fun p' => run_phase fw_dva p' h').
Proof.
  unfold run_phase. rewrite foldl_app. destruct (foldl _ (Some p) h) as [p'|]; [done|]. cbn.
  induction h' as [|e h' IH]; [done|]. exact IH.
Qed.

Lemma waits_app h h' : waits (h ++ h') = (waits h + waits h')%nat.
Proof. unfold waits. by rewrite filter_app length_app. Qed.

Lemma waits_quiet h l : Forall (fun e => e <> Wait) l -> waits (h ++ l) = waits h.
Proof.
  intros Hl. rewrite waits_app. enough (waits l = 0%nat) by lia. unfold waits.
  induction Hl as [|e l He Hl IH]; [done|]. by rewrite filter_cons_False.
Qed.

(** The polls of a phase that waits for the word. *)
Lemma poll_ack_spec dev fw_dva n v h p p0 h' v' :
  run_phase fw_dva p0 h = Some p -> v <> ANE_T6021_BOOT_ACK -> poll_ack dev n v h = (h', v') ->
  exists l, h' = h ++ l /\ (waits l <= n)%nat /\
    run_phase fw_dva p0 h' =
      Some (if v' =? ANE_T6021_BOOT_ACK then
              match p with Running => Ready | Woken lo hi => Done lo hi | _ => p end else p).
Proof.
  revert v h. induction n as [|n IH]; intros v h Hp Hv; cbn [poll_ack].
  { intros [= <- <-]. exists []. rewrite app_nil_r. split; [done|]. split; [done|].
    by rewrite (proj2 (Z.eqb_neq v _) Hv). }
  set (w := u32 _). set (h1 := h ++ _).
  assert (run_phase fw_dva p0 h1 = phase_step fw_dva p (Rd32 ANE_T6021_BOOT_REG_SCRATCH7 w)) as E1.
  { unfold h1. rewrite run_phase_app Hp. cbn [mbind option_bind]. unfold run_phase. cbn [foldl mbind option_bind]. done. }
  cbn [phase_step] in E1. rewrite Z.eqb_refl andb_true_l in E1.
  destruct (Z.eqb_spec w ANE_T6021_BOOT_ACK) as [Hw|Hw].
  - intros [= <- <-]. exists [Rd32 ANE_T6021_BOOT_REG_SCRATCH7 w]. split; [done|]. split; [change (0 <= S n)%nat; lia|].
    rewrite Hw Z.eqb_refl. rewrite E1. by destruct p.
  - intros Hpoll. destruct (IH w (h1 ++ [Wait])) as (l & El & Hl & Hr); [|done|done|].
    { rewrite run_phase_app E1. done. }
    exists ([Rd32 ANE_T6021_BOOT_REG_SCRATCH7 w; Wait] ++ l). split; [rewrite El; unfold h1; by rewrite -!app_assoc|].
    split; [|done]. rewrite waits_app. change (waits [Rd32 _ w; Wait]) with 1%nat. lia.
Qed.

Section order.
Context `{HI : Iommu} `{HL : !IommuLaws 14} {HC : DmaCoherent} `{HD : !DmaLaws}.
Context (nap : bool).

(** The accesses before the release stay in [Setup]. *)
Lemma setup_phase dev cfg h :
  run_phase (cfg_fw_dva cfg) (Setup false) h = Some (Setup false) -> waits h = 0%nat ->
  exists c, let h' := rvbar_fold dev (cfg_fw_dva cfg) h in
    run_phase (cfg_fw_dva cfg) (Setup false) h' = Some (Setup c) /\ waits h' = 0%nat.
Proof using.
  intros Hp Hw. unfold rvbar_fold. set (v := u64 _). set (h1 := h ++ _).
  assert (run_phase (cfg_fw_dva cfg) (Setup false) h1 = Some (Setup (negb (ane_t6021_rvbar_latched v)))) as E1.
  { unfold h1. by rewrite run_phase_app Hp. }
  assert (waits h1 = 0%nat) as W1 by (unfold h1; rewrite waits_app Hw; done).
  destruct (ane_t6021_rvbar_latched v); [by exists false|]. exists true. split.
  - rewrite run_phase_app E1. cbn. by rewrite Z.eqb_refl.
  - rewrite waits_app W1. done.
Qed.

Lemma early_phase cfg :
  let h1 := grant_tunables (if preboot_table_mode cfg =? 1 then preboot_table [] else []) in
  let h2 := scratch_clear (rtb_mode cfg) h1 in
  (run_phase (cfg_fw_dva cfg) (Setup false) h1 = Some (Setup false) /\ waits h1 = 0%nat) /\
  (run_phase (cfg_fw_dva cfg) (Setup false) h2 = Some (Setup false) /\ waits h2 = 0%nat).
Proof using. destruct (preboot_table_mode cfg =? 1), (rtb_mode cfg); split; split; reflexivity. Qed.

Lemma release_phase fw_dva c h :
  run_phase fw_dva (Setup false) h = Some (Setup c) -> run_phase fw_dva (Setup false) (cpu_release h) = Some Running.
Proof using.
  intros Hp. unfold cpu_release, wr32. by rewrite !run_phase_app Hp.
Qed.

(** What the sequence has done, from its trace. *)
Definition boot_ok (cfg : ane_t6021_boot_cfg) (s : boot_state) (h : list io) (s' : boot_state) (r : boot_result) : Prop :=
  exists p, run_phase (cfg_fw_dva cfg) (Setup false) h = Some p /\ p <> Halted /\
    cpu_started r = phase_started p /\ fw_alive r = phase_alive p /\ booted r = phase_done p /\
    Z.of_nat (waits h) <= 2000 /\
    (phase_alive p = false -> s' = s) /\
    (cpu_started r = false ->
      (b_ret r = Some ENODATA \/ b_ret r = Some EAGAIN) /\ h = [] \/ b_ret r = Some ECANCELED /\ stop_after cfg <> 0) /\
    bs_pins s' = bs_pins s /\
    (cpu_started r = true -> b_ret r <> Some ENODATA /\ (b_ret r = None <-> booted r = true \/ rtb_mode cfg = true /\
      (fw_alive r = true -> stop_after cfg <> 4))) /\
    (s' = s /\ phase_address p = None \/ exists s0 s1 req res,
      prepared (kernel_sources (l_iova (bs_fw s))) req s0 s1 (bs_fw s) (bs_fw s') (bs_allocs s') (Z.b2z nap) res /\
      forall d, phase_address p = Some d -> exists lo hi, res = inl (lo, hi) /\ d = al_pool_dva (bs_allocs s')).

Lemma boot_ok_early cfg s h c e :
  run_phase (cfg_fw_dva cfg) (Setup false) h = Some (Setup c) -> waits h = 0%nat ->
  (e = ENODATA \/ e = EAGAIN) /\ h = [] \/ e = ECANCELED /\ stop_after cfg <> 0 ->
  boot_ok cfg s h s (BootResult (Some e) false false false 0).
Proof using.
  intros Hp Hw He. exists (Setup c). split; [done|]. split; [done|]. split; [done|]. split; [done|]. split; [done|].
  split; [lia|]. split; [done|]. split; [intros _; destruct He as [[[->| ->] ->]|[-> ?]]; auto|]. split; [done|].
  split; [done|by left].
Qed.

Lemma boot_ok_started cfg s h p e :
  run_phase (cfg_fw_dva cfg) (Setup false) h = Some p -> Z.of_nat (waits h) <= 2000 -> p = Running \/ p = Ready ->
  e <> Some ENODATA -> (e = None <-> rtb_mode cfg = true /\ (p = Ready -> stop_after cfg <> 4)) ->
  boot_ok cfg s h s (BootResult e true (phase_alive p) false 0).
Proof using.
  intros Hp Hw Hpp Hne He. exists p. split; [done|]. split; [by destruct Hpp as [-> | ->]|].
  split; [by destruct Hpp as [-> | ->]|]. split; [done|]. split; [by destruct Hpp as [-> | ->]|].
  split; [done|]. split; [done|]. split; [done|]. split; [done|]. split; [|left; split; [done|]; by destruct Hpp as [-> | ->]].
  intros _. split; [done|]. cbn. destruct Hpp as [-> | ->]; naive_solver.
Qed.

Lemma boot_ok_woken cfg s h p s' s0 s1 req lo hi e v :
  prepared (kernel_sources (l_iova (bs_fw s))) req s0 s1 (bs_fw s) (bs_fw s') (bs_allocs s') (Z.b2z nap) (inl (lo, hi)) ->
  bs_pins s' = bs_pins s -> rtb_mode cfg = false ->
  run_phase (cfg_fw_dva cfg) (Setup false) h = Some p -> Z.of_nat (waits h) <= 2000 ->
  (p = Woken lo hi /\ e = Some ETIMEDOUT) \/ (p = Done lo hi /\ e = None) ->
  boot_ok cfg s h s' (BootResult e true true (phase_done p) v).
Proof using.
  intros Hpr Hpins Hrtb Hp Hw Hpe. exists p. split; [done|].
  assert (p = Woken lo hi \/ p = Done lo hi) as Hpp by naive_solver.
  split; [by destruct Hpp as [-> | ->]|]. split; [by destruct Hpp as [-> | ->]|].
  split; [by destruct Hpp as [-> | ->]|]. split; [done|]. split; [done|].
  split; [by destruct Hpp as [-> | ->]|]. split; [done|]. split; [done|].
  split; [intros _; destruct Hpe as [[-> ->]|[-> ->]]; cbn; rewrite Hrtb; naive_solver|].
  right. exists s0, s1, req, (inl (lo, hi)). split; [done|]. intros d Hd. exists lo, hi. split; [done|].
  destruct Hpr as (_ & _ & _ & _ & Hj & _). rewrite -Hj. destruct Hpp as [-> | ->]; cbn in Hd; congruence.
Qed.

Context (dev : list io -> Z -> Z).

Lemma boot_run_spec cfg s :
  alias_sane (bs_fw s) ->
  exists h s' r, ane_t6021_boot_run dev (ane_t6021_boot_prepare dev nap) cfg [] s = Ret (h, s', r) /\ boot_ok cfg s h s' r.
Proof using HD.
  intros Hsane. unfold ane_t6021_boot_run.
  destruct (preflight_ok cfg); cbn [negb].
  2: { eexists [], s, _. split; [reflexivity|]. apply (boot_ok_early _ _ _ false); [done|done|auto]. }
  destruct (preboot_table_mode cfg =? 0).
  { eexists [], s, _. split; [reflexivity|]. apply (boot_ok_early _ _ _ false); [done|done|auto]. }
  pose proof (early_phase cfg) as [[P1 W1] [P2 W2]].
  set (h1 := grant_tunables _) in *. set (h2 := scratch_clear _ h1) in *.
  destruct (Z.eqb_spec (stop_after cfg) 1) as [S1|S1].
  { eexists h1, s, _. split; [reflexivity|]. apply (boot_ok_early _ _ _ false); [done|done|]. right. split; [done|lia]. }
  destruct (Z.eqb_spec (stop_after cfg) 2) as [S2|S2].
  { eexists h2, s, _. split; [reflexivity|]. apply (boot_ok_early _ _ _ false); [done|done|]. right. split; [done|lia]. }
  destruct (setup_phase dev cfg h2 P2 W2) as (c & P3 & W3). cbv zeta in P3, W3.
  set (h3 := rvbar_fold dev (cfg_fw_dva cfg) h2) in *.
  destruct (Z.eqb_spec (stop_after cfg) 3) as [S3|S3].
  { eexists h3, s, _. split; [reflexivity|]. apply (boot_ok_early _ _ _ c); [done|done|]. right. split; [done|lia]. }
  pose proof (release_phase _ _ _ P3) as P4.
  assert (waits (cpu_release h3) = 0%nat) as W4 by (unfold cpu_release, wr32; rewrite !waits_app W3; done).
  destruct (poll_ack dev _ 0 (cpu_release h3)) as [h5 v] eqn:Epoll.
  destruct (poll_ack_spec dev (cfg_fw_dva cfg) _ 0 _ _ _ _ _ P4 ltac:(done) Epoll) as (l & E5 & W5 & P5).
  assert (Z.of_nat (waits h5) <= 1000) as W5'.
  { rewrite E5 waits_app W4. unfold ANE_T6021_BOOT_TABLE_POLLS in W5. lia. }
  destruct (v =? ANE_T6021_BOOT_ACK); cbn [negb].
  2: { eexists h5, s, _. split; [reflexivity|]. apply (boot_ok_started cfg s h5 Running); [done|lia|by left|..];
       clear; destruct (rtb_mode cfg); naive_solver. }
  destruct (Z.eqb_spec (stop_after cfg) 4) as [S4|S4].
  { eexists h5, s, _. split; [reflexivity|]. apply (boot_ok_started cfg s h5 Ready); [done|lia|by right|done|]. clear -S4. naive_solver. }
  destruct (rtb_mode cfg) eqn:Ertb.
  { eexists h5, s, _. split; [reflexivity|]. apply (boot_ok_started cfg s h5 Ready); [done|lia|by right|done|].
    clear -S4 Ertb. naive_solver. }
  pose proof (boot_prepare_spec dev nap h5 s Hsane) as Hprep. unfold rd32 in Hprep.
  set (s0 := u32 _) in Hprep. set (s1 := u32 _) in Hprep. set (req := u32 _) in Hprep.
  destruct Hprep as (f & a & r & -> & Hpr). cbn [mbind res_bind].
  set (h6 := ((h5 ++ [Rd32 _ s0]) ++ [Rd32 _ s1]) ++ [Rd32 _ req]).
  assert (run_phase (cfg_fw_dva cfg) (Setup false) h6 = Some Ready) as P6 by (unfold h6; rewrite !run_phase_app P5; done).
  assert (Z.of_nat (waits h6) <= 1000) as W6 by (unfold h6; rewrite !waits_quiet; [done|by repeat constructor..]).
  clearbody h6. destruct r as [[lo hi]|er].
  2: { eexists h6, _, _. split; [reflexivity|]. exists Ready. split; [done|]. split; [done|]. split; [done|]. split; [done|].
       split; [done|]. split; [lia|]. split; [done|]. split; [done|]. split; [done|]. split.
       - intros _. cbn. split; [|split; [done|]; intros [?|[? _]]; congruence]. destruct Hpr as (_ & _ & _ & Hpr). by destruct er.
       - right. by exists s0, s1, req, (inr er). }
  set (h7 := wr32 _ _ (wr32 _ _ (wr32 _ _ _))).
  assert (run_phase (cfg_fw_dva cfg) (Setup false) h7 = Some (Woken lo hi)) as P7.
  { unfold h7, wr32. by rewrite !run_phase_app P6. }
  assert (Z.of_nat (waits h7) <= 1000) as W7 
    by (unfold h7, wr32; rewrite !waits_quiet; [done|by repeat constructor..]).
  destruct (poll_ack dev _ 0 h7) as [h8 v'] eqn:Epoll'.
  destruct (poll_ack_spec dev (cfg_fw_dva cfg) _ 0 _ _ _ _ _ P7 ltac:(done) Epoll') as (l' & E8 & W8 & P8).
  assert (Z.of_nat (waits h8) <= 2000) as W8'.
  { rewrite E8 waits_app. unfold ANE_T6021_BOOT_TABLE_POLLS in W8. lia. }
  destruct (v' =? ANE_T6021_BOOT_ACK); cbn [negb].
  - unfold read_result. set (hi' := u32 _). set (h9 := _ ++ [Rd32 _ hi']). set (lo' := u32 _).
    eexists _, _, _. split; [reflexivity|].
    eapply (boot_ok_woken cfg s _ (Done lo hi) _ s0 s1 req lo hi None); [exact Hpr|done|done|..|by right].
    + unfold h9. rewrite !run_phase_app P8. done.
    + unfold h9. rewrite !waits_quiet; [done|by repeat constructor..].
  - eexists h8, _, _. split; [reflexivity|].
    eapply (boot_ok_woken cfg s _ (Woken lo hi) _ s0 s1 req lo hi (Some ETIMEDOUT)); [exact Hpr|done..|by left].
Qed.
(** Reads and waits only. *)
Definition passive (e : io) : Prop := match e with Rd32 _ _ | Rd64 _ _ | Wait => True | _ => False end.

Definition read_on (h h' : list io) : Prop := exists l, h' = h ++ l /\ Forall passive l.

Lemma read_on_trans h1 h2 h3 : read_on h1 h2 -> read_on h2 h3 -> read_on h1 h3.
Proof using.
  intros (l & -> & Hl) (l' & -> & Hl'). exists (l ++ l'). split; [by rewrite app_assoc|]. by apply Forall_app.
Qed.

Lemma read_on_rd32 h h' off : read_on h h' -> read_on h (rd32 dev off h').1.
Proof using. intros H. eapply read_on_trans; [exact H|]. eexists. split; [reflexivity|]. by constructor. Qed.

Lemma dump_passive h : read_on h (ane_t6021_boot_progress_dump dev h).
Proof using.
  assert (forall l h h', read_on h h' ->
    read_on h (foldl (fun h i => (rd32 dev (ANE_T6021_BOOT_REG_SCRATCH0 + 4 * i) h).1) h' l)) as Hf.
  { clear. intros l. induction l as [|i l IH]; intros h h' Hh; [done|]. by apply IH, read_on_rd32. }
  unfold ane_t6021_boot_progress_dump. apply read_on_rd32. eapply read_on_trans.
  - apply Hf. do 2 apply read_on_rd32. exists []. by rewrite app_nil_r.
  - eexists. split; [reflexivity|]. by constructor.
Qed.

(** The outcome of [ane_t6021_boot_start]: refused with everything as before,
    or a running CPU, the module pinned and a zero return. *)
Definition start_outcome (s : boot_state) (h : list io) (s' : boot_state) (e : option errno) : Prop :=
  (exists c, run_phase (l_iova (bs_fw s)) (Setup false) h = Some (Setup c)) /\
    bs_fw s' = bs_fw s /\ bs_allocs s' = bs_allocs s /\ bs_pins s' = bs_pins s /\ cpu_started (bs_result s') = cpu_started (bs_result s) /\
    (e = Some ENODATA \/ e = Some EAGAIN \/ e = Some EBUSY \/ e = Some ECANCELED) \/
  exists h1 l p, h = h1 ++ l /\ Forall passive l /\ run_phase (l_iova (bs_fw s)) (Setup false) h1 = Some p /\
    phase_started p = true /\ cpu_started (bs_result s') = true /\ fw_alive (bs_result s') = phase_alive p /\
    booted (bs_result s') = phase_done p /\ bs_pins s' = bs_pins s + 1 /\ e = None /\
    (bs_fw s' = bs_fw s /\ bs_allocs s' = bs_allocs s \/ exists s0 s1 req res,
      prepared (kernel_sources (l_iova (bs_fw s))) req s0 s1 (bs_fw s) (bs_fw s') (bs_allocs s') (Z.b2z nap) res).

Lemma boot_start_spec tg stop mode rtb s :
  alias_sane (bs_fw s) -> cpu_started (bs_result s) = false ->
  exists h s' e, ane_t6021_boot_start dev nap tg stop mode rtb [] s = Ret (h, s', e) /\ start_outcome s h s' e.
Proof using HD.
  intros Hs Hcs. unfold ane_t6021_boot_start. destruct tg; cbn [negb].
  2: { eexists [], s, _. split; [reflexivity|]. left. split; [by exists false|]. naive_solver. }
  set (cfg := BootCfg _ _ _ _ _). set (s1 := BootState _ _ _ (bs_pins s + 1)).
  destruct (boot_run_spec cfg s1 Hs) as (h & s' & r & -> & p & Hp & Hnh & Hc & Ha & Hb & _ & Hsame & Hno & Hpins & Hst & Hpr).
  cbn [mbind res_bind]. destruct (cpu_started r) eqn:Ec; cbn [negb andb].
  - destruct (Hst eq_refl) as [Hne _].
    assert (exists l, (if negb (fw_alive r) then ane_t6021_boot_progress_dump dev h else h) = h ++ l /\ Forall passive l)
      as (l & -> & Hl).
    { destruct (fw_alive r); cbn [negb]; [exists []; by rewrite app_nil_r|]. apply dump_passive. }
    assert (exists e, (match b_ret r with
      | Some ENODATA => Ret (h ++ l, BootState (bs_fw s') (bs_allocs s') r (bs_pins s'), Some ENODATA)
      | Some _ => Ret (h ++ l, BootState (bs_fw s') (bs_allocs s') r (bs_pins s'), None)
      | None => Ret (h ++ l, BootState (bs_fw s') (bs_allocs s') r (bs_pins s'), None)
      end) = Ret (h ++ l, BootState (bs_fw s') (bs_allocs s') r (bs_pins s'), e) /\ e = None) as (e & -> & ->).
    { exists None. split; [|done]. destruct (b_ret r) as [[]|]; done. }
    eexists _, _, _. split; [reflexivity|]. right. exists h, l, p. cbn [bs_result bs_pins bs_fw bs_allocs].
    split; [done|]. split; [done|]. split; [done|]. split; [by rewrite -Hc|]. split; [done|]. split; [done|]. split; [done|].
    split; [by rewrite Hpins|]. split; [done|].
    destruct Hpr as [[-> _]|(s0 & s1' & req & res & Hpr & _)]; [by left|]. right. by exists s0, s1', req, res.
  - eexists _, _, _. split; [reflexivity|]. left. cbn [bs_result bs_pins bs_fw bs_allocs].
    assert (s' = s1) as ->.
    { apply Hsame. destruct p; try done. }
    split; [destruct p; try done; by eexists|]. split; [done|]. split; [done|]. split; [cbn; lia|]. split; [by rewrite Ec|].
    destruct (Hno eq_refl) as [[[->| ->] _]|[-> _]]; auto.
Qed.

Context (sha256 : bytes -> bytes).

(** The window of the alias cannot wrap: the entry has bits 48 and 55 clear. *)
Lemma entry_bits_bound v : 0 <= v -> 0 <= ane_t6021_rvbar_entry_bits v <= ANE_T6021_RVBAR_ADDR_MASK.
Proof using.
  intros Hv. unfold ane_t6021_rvbar_entry_bits. split; [apply Z.land_nonneg; by left|].
  apply Z.ldiff_le; [done|]. apply Z.bits_inj'. intros n Hn. rewrite Z.ldiff_spec Z.land_spec Z.bits_0.
  by destruct (Z.testbit v n), (Z.testbit ANE_T6021_RVBAR_ADDR_MASK n).
Qed.

Lemma keeps_prepared src req s0 s1 f f' a n r j pa :
  prepared src req s0 s1 f f' a n r -> iova_to_phys (l_dom f) j = Some pa -> iova_to_phys (l_dom f') j = Some pa.
Proof using. intros (_ & Hx & _) Hj. by apply (extends_keeps _ _ _ _ _ Hx). Qed.

(** What the probe of a stopped coprocessor leaves. *)
Definition probe_outcome (se : start_env) (sc : ane_t602x_soc) (p : probe_state) (h : list io) (p' : probe_state)
    (out : option (option errno)) : Prop :=
  (exists e, out = Some (Some e)) /\ p_fw p' = None /\ p_held p' = p_held p /\ p_pins p' = p_pins p /\
    (exists fw_dva c, run_phase fw_dva (Setup false) h = Some (Setup c)) /\
    (p' = p /\ h = [] \/ p_touched p' = true) /\
    (forall j, j <> pmu_pa sc -> iova_to_phys (p_dom p') j = iova_to_phys (p_dom p) j) \/
  (out = None \/ out = Some None) /\ p_held p' = true /\ p_touched p' = true /\ p_pins p' = p_pins p + 1 /\
    exists f b, loaded sha256 (se_params se) (se_env se) sc (FwState (p_dom p) None 0 0 0 [] 0) f /\
      p_fw p' = Some b /\ p_dom p' = l_dom (bs_fw b) /\ cpu_started (bs_result b) = true /\
      l_buf (bs_fw b) = l_buf f /\ l_iova (bs_fw b) = l_iova f /\
      (forall j pa, iova_to_phys (l_dom f) j = Some pa -> iova_to_phys (p_dom p') j = Some pa) /\
      (forall j, covered (runs (bs_allocs b)) j -> is_Some (iova_to_phys (p_dom p') j)) /\
      (out = None <-> fw_alive (bs_result b) = true \/ se_rtb_mode se = true).

(** C14. The probe of a stopped coprocessor, on every SoC, for every firmware
    file, register and allocator behaviour: it never leaves a buffer, and
    either fails with the CPU never released, the module reference given
    back, nothing held and every translation but the power page's as before,
    or it returns success with the CPU released, the module pinned, the
    device held, and every page the loader and the boot sequence mapped still
    mapped. *)
Theorem probe_start_owns se sc p :
  sc ∈ all_socs \/ soc_ok sc -> pin_ok sha256 sc -> 0 <= fw_extra_ram (se_params se) -> p_fw p = None ->
  (forall blob, e_request (se_env se) = inl blob -> bytes_ok blob) -> 0 <= e_rvbar (se_env se) ->
  exists h p' out, probe_start dev nap sha256 se sc [] p = Ret (h, p', out) /\ probe_outcome se sc p h p' out.
Proof using HL HD.
  intros Hsc Hpin Hex Hfw Hblob Hrv. unfold probe_start.
  assert (forall e, exists h p' out, Ret ([], p, Some (Some e)) = Ret (h, p', out) /\ probe_outcome se sc p h p' out) as Hearly.
  { intros e. exists [], p, (Some (Some e)). split; [done|]. left. split; [by exists e|]. split; [done|]. split; [done|].
    split; [done|]. split; [by exists 0, false|]. split; [by left|done]. }
  destruct (se_fw_start se); cbn [negb]; [|apply Hearly].
  destruct (ane_t6021_fwload_requested (se_params se)) eqn:Eq; cbn [negb]; [|apply Hearly].
  destruct (se_iommu_mapped se); cbn [negb]; [|apply Hearly].
  destruct (se_kzalloc se); cbn [negb]; [|apply Hearly].
  set (f0 := FwState (p_dom p) None 0 0 0 [] 0).
  destruct (fwload_probe_spec sha256 (se_params se) (se_env se) sc f0 Hsc Hpin Hex eq_refl eq_refl Hblob)
    as (f & r & Ef & Hr).
  change (bs_fw (fresh_fw (p_dom p) (p_pins p))) with f0. rewrite Ef. cbn [mbind res_bind].
  destruct r as [er|].
  { destruct Hr as (Hd & Hb & Hn & _). eexists _, _, _. split; [reflexivity|]. left. split; [by eexists|].
    unfold drop_fw, ane_t6021_fwload_remove. cbn [bs_fw]. rewrite Hb Hn. cbn.
    split; [done|]. split; [done|]. split; [done|]. split; [by exists 0, false|]. split; [by right|]. intros j _. apply Hd. }
  assert (loaded sha256 (se_params se) (se_env se) sc f0 f) as Hl.
  { destruct Hr as [[Hq _]|Hl]; [|done]. unfold ane_t6021_fwload_requested in Eq. congruence. }
  assert (forall j, j <> pmu_pa sc ->
    iova_to_phys (l_dom (ane_t6021_fwload_remove (se_env se) f)) j = iova_to_phys (p_dom p) j) as Htear.
  { apply Hl. }
  destruct (ane_t6021_rvbar_entry_ok (l_iova f)); cbn [negb].
  2: { eexists _, _, _. split; [reflexivity|]. left. split; [by eexists|]. cbn.
       split; [done|]. split; [done|]. split; [done|]. split; [by exists 0, false|]. split; [by right|]. done. }
  set (b0 := BootState f _ _ _).
  assert (alias_sane (bs_fw b0)) as Hsane.
  { destruct (probe_alias sha256 _ _ _ _ _ Ef Eq) as [Ha|Ha]; unfold alias_sane; cbn [bs_fw b0]; rewrite Ha.
    - destruct Hl as (_ & Hs & _). rewrite Hs. cbn.
      assert (ane_t6021_fwload_options_ok (se_params se) = true) as [Ho _]%andb_true_iff.
      { unfold ane_t6021_fwload_probe in Ef. unfold ane_t6021_fwload_requested in Eq. rewrite Eq in Ef. cbn [negb] in Ef.
        by destruct (ane_t6021_fwload_options_ok _). }
      unfold SZ_16M, ANE_FW_BUF_SIZE in *. lia.
    - pose proof (entry_bits_bound _ Hrv) as He. unfold ANE_T6021_RVBAR_ADDR_MASK in He.
      destruct Hl as (_ & Hs & _). rewrite Hs.
      assert (ane_t6021_fwload_options_ok (se_params se) = true) as [Ho _]%andb_true_iff.
      { unfold ane_t6021_fwload_probe in Ef. unfold ane_t6021_fwload_requested in Eq. rewrite Eq in Ef. cbn [negb] in Ef.
        by destruct (ane_t6021_fwload_options_ok _). }
      unfold SZ_16M, ANE_FW_BUF_SIZE in *. lia. }
  destruct (boot_start_spec (se_try_get se) 0 (se_table_mode se) (se_rtb_mode se) b0 Hsane eq_refl)
    as (h & b & e & -> & Hout). cbn [mbind res_bind].
  destruct Hout as [((c & Hp) & Hbf & Hba & Hbp & Hbc & He)|
    (h1 & l & ph & -> & Hpas & Hp & Hps & Hbc & Hfa & Hbo & Hpin' & -> & Hpr)].
  - rewrite bool_decide_eq_true_2; [|done]. eexists _, _, _. split; [reflexivity|]. left.
    unfold drop_fw. rewrite Hbf Hbp. cbn [bs_fw b0 bs_pins p_fw p_held p_pins p_touched p_dom].
    split; [destruct He as [->|[->|[->| ->]]]; by eexists|]. split; [done|]. split; [done|]. split; [done|].
    split; [by exists (l_iova f), c|]. split; [by right|]. exact Htear.
  - rewrite bool_decide_eq_false_2; [|by intros [|[|[|]]]].
    assert (probe_outcome se sc p (rd32 dev ANE_ASC_CPU_STATUS (h1 ++ l)).1 (keep_fw b true (ProbeState (p_dom p) None (p_held p) true 0))
      (if negb (fw_alive (bs_result b)) && negb (se_rtb_mode se) then Some None else None)) as Hgoal.
    { right. split; [destruct (_ && _); auto|]. split; [done|]. split; [done|]. split; [exact Hpin'|].
      exists f, b. split; [exact Hl|]. split; [done|]. split; [done|]. split; [done|].
      assert (l_buf (bs_fw b) = l_buf f /\ l_iova (bs_fw b) = l_iova f) as [Eb Ei].
      { destruct Hpr as [[-> _]|(s0 & s1 & req & rs & (-> & _))]; done. }
      split; [done|]. split; [done|]. cbn [keep_fw p_dom].
      split; [|split].
      - intros j pa Hj. destruct Hpr as [[-> _]|(s0 & s1 & req & rs & Hpr)]; [done|]. by apply (keeps_prepared _ _ _ _ _ _ _ _ _ _ _ Hpr).
      - intros j Hj. destruct Hpr as [[_ Ea]|(s0 & s1 & req & rs & (_ & Hx & _))].
        + rewrite Ea in Hj. by apply covered_nil in Hj.
        + by apply (ext_in _ _ _ Hx).
      - clear. destruct (fw_alive (bs_result b)), (se_rtb_mode se); naive_solver. }
    destruct (negb (fw_alive (bs_result b)) && negb (se_rtb_mode se)); by eexists _, _, _.
Qed.
End order.

(** ** Claims, and the sample system *)

Section claims.
Context `{HI : Iommu} `{HL : !IommuLaws 14} {HC : DmaCoherent} `{HD : !DmaLaws}.
Context (dev : list io -> Z -> Z) (nap : bool).

(** C15. For every device and configuration the boot sequence returns, after
    at most two thousand poll delays, and its accesses follow the protocol:
    the CPU is released by 0 then RUN and only after the setup writes; RVBAR
    is written only with the composed entry and only when the last read
    showed its latch clear; after the release nothing is written until the
    READY word was read, then exactly the barrier, the two halves of the pool
    address and the wake word, in this order. The reported flags are the
    phase reached, nothing was allocated before READY, and a refusal before
    the release leaves the state as it was. *)
Theorem boot_run_protocol cfg s :
  alias_sane (bs_fw s) ->
  exists h s' r p, ane_t6021_boot_run dev (ane_t6021_boot_prepare dev nap) cfg [] s = Ret (h, s', r) /\
    run_phase (cfg_fw_dva cfg) (Setup false) h = Some p /\ Z.of_nat (waits h) <= 2000 /\
    cpu_started r = phase_started p /\ fw_alive r = phase_alive p /\ booted r = phase_done p /\
    (phase_alive p = false -> s' = s) /\
    (cpu_started r = false ->
      (b_ret r = Some ENODATA \/ b_ret r = Some EAGAIN) /\ h = [] \/ b_ret r = Some ECANCELED /\ stop_after cfg <> 0) /\
    (cpu_started r = true -> b_ret r <> Some ENODATA /\ (b_ret r = None <-> booted r = true \/ rtb_mode cfg = true /\
      (fw_alive r = true -> stop_after cfg <> 4))) /\
    (forall d, phase_address p = Some d -> d = al_pool_dva (bs_allocs s')).
Proof using HD.
  intros Hs. destruct (boot_run_spec nap dev cfg s Hs) as (h & s' & r & E & p & Hp & _ & Hc & Ha & Hb & Hw & Hsame & Hno & _ & Hst & Hpr).
  exists h, s', r, p. split; [done|]. split; [done|]. split; [done|]. split; [done|]. split; [done|]. split; [done|].
  split; [done|]. split; [done|]. split; [done|]. intros d Hd.
  destruct Hpr as [[-> Hn]|(s0 & s1 & req & rs & _ & Haddr)]; [congruence|].
  by destruct (Haddr d Hd) as (lo & hi & _ & ->).
Qed.

(** The prepare hook reads SCRATCH0, SCRATCH1 and SCRATCH3 once each and
    always returns. Its three refusals are exact: a request of 0x21 or more
    (EPROTO) and a size over the ceiling (E2BIG) come before any allocation;
    after a failed allocation the surfaces already made stay recorded. In
    every case the new translations are exactly the pages of the recorded
    surfaces, which are pairwise disjoint, new, and outside the entry alias.
    On success the two published halves join to the pool's address, the
    surfaces have the clamped sizes, and the words of the init structure
    decode to the firmware, IPC, heap and pool addresses, the rest of the
    pool staying zero. *)
Theorem boot_prepare_exact h s :
  alias_sane (bs_fw s) ->
  let '(h1, s0) := rd32 dev ANE_MBI_SCRATCH0 h in
  let '(h2, s1) := rd32 dev (ANE_MBI_SCRATCH0 + 4) h1 in
  let '(h3, req) := rd32 dev (ANE_MBI_SCRATCH0 + 4 * 3) h2 in
  exists f a r,
    ane_t6021_boot_prepare dev nap h s = Ret (h3, BootState f a (bs_result s) (bs_pins s), r) /\
    prepared (kernel_sources (l_iova (bs_fw s))) req s0 s1 (bs_fw s) f a (Z.b2z nap) r.
Proof using HD. apply boot_prepare_spec. Qed.
End claims.

(** A device that answers every read with the ack word. *)
Definition ack_dev (h : list io) (off : Z) : Z := ANE_T6021_BOOT_ACK.

Abbreviation small_boot := (@BootState (sample_iommu 14) small_state no_allocs (BootResult None false false false 0) 0).

Lemma small_sane : @alias_sane (sample_iommu 14) small_state.
Proof. unfold alias_sane. cbn. lia. Qed.

Lemma boot_run_protocol_witness :
  exists h s' r,
    @ane_t6021_boot_run ack_dev _ (@ane_t6021_boot_prepare (sample_iommu 14) sample_dma ack_dev true)
      (BootCfg true 2 0x40000000 true 0) [] small_boot = Ret (h, s', r) /\
    b_ret r = None /\ fw_alive r = true /\ s' = small_boot.
Proof.
  destruct (@boot_run_protocol (sample_iommu 14) sample_dma sample_dma_laws ack_dev true
    (BootCfg true 2 0x40000000 true 0) small_boot small_sane) as (h & s' & r & p & E & _ & _ & Hc & _ & _ & _ & _ & Hst & _).
  exists h, s', r. split; [exact E|].
  assert (exists h, @ane_t6021_boot_run ack_dev _ (@ane_t6021_boot_prepare (sample_iommu 14) sample_dma ack_dev true)
      (BootCfg true 2 0x40000000 true 0) [] small_boot = Ret (h, small_boot, BootResult None true true false 0)) as [h' E'].
  { eexists. reflexivity. }
  rewrite E' in E. injection E as <- <- <-. split; [|done].
  apply (Hst eq_refl). right. done.
Defined.

Abbreviation small_prepare := (@ane_t6021_boot_prepare (sample_iommu 14) sample_dma (fun _ _ => 0x10) true [] small_boot).

(** The sample allocator has room for the three surfaces. *)
Lemma small_allocs : exists f1 f2 f3 : @fw_state (sample_iommu 14),
  @ane_boot_alloc (sample_iommu 14) sample_dma small_state pool_size = (f1, Some 0x40000000) /\
  @ane_boot_alloc (sample_iommu 14) sample_dma f1 0x4000 = (f2, Some 0x42000000) /\
  @ane_boot_alloc (sample_iommu 14) sample_dma f2 0x4000 = (f3, Some 0x44000000).
Proof.
  assert (forall (x : @fw_state (sample_iommu 14) * option Z) v, x.2 = v -> x = (x.1, v)) as Hp by (by intros [? ?] v <-).
  eexists _, _, _. split; [apply Hp; vm_compute; reflexivity|]. split; apply Hp; vm_compute; reflexivity.
Qed.

Lemma small_prepare_ok : exists h s, small_prepare = Ret (h, s, inl (0x40000000, 0)).
Proof.
  destruct small_allocs as (f1 & f2 & f3 & E1 & E2 & E3).
  unfold ane_t6021_boot_prepare. change (negb ane_t6021_boot_preflight_complete) with false. cbn match. unfold rd32. cbn match.
  set (src := InitSources _ _ _ _ _ _ _). cbn [bs_fw]. change (u32 16) with 16. unfold ane_t6021_boot_prepare_publish.
  change (16 >=? ANE_T6021_BOOT_IPC_REQ_THRESHOLD) with false.
  change (ane_t6021_ipc_size 0x4000 16) with 0x4000. change (0x4000 >? ANE_T6021_BOOT_IPC_CEILING) with false.
  change (ane_t6021_heap_size 16 (src_heap_floor src) ANE_T6021_BOOT_HEAP_CEILING) with (Some 0x4000). cbn match.
  rewrite E1 E2. change (0x4000 =? 0) with false. cbn match. rewrite E3.
  destruct (fill_and_split_eq src 16 f3
    (BootAllocs (Some (replicate (Z.to_nat pool_size) 0)) 0x40000000 true 0x42000000 0x4000 true 0x44000000 0x4000)
    eq_refl ltac:(done)) as (pool & Hpool & ->).
  cbn [mbind res_bind al_pool]. destruct (nap_bit_eq _ _ _ _ Hpool) as (pool' & -> & _). by eexists _, _.
Qed.

Lemma boot_prepare_exact_witness :
  exists h f a, small_prepare = Ret (h, BootState f a (BootResult None false false false 0) 0, inl (0x40000000, 0)) /\
    al_pool_dva a = 0x40000000 /\ al_heap a = true /\ al_heap_size a = 0x4000 /\ al_ipc_size a = 0x4000.
Proof.
  pose proof (@boot_prepare_exact (sample_iommu 14) sample_dma sample_dma_laws (fun _ _ => 0x10) true [] small_boot small_sane)
    as H. unfold rd32 in H. cbn match in H. destruct H as (f & a & r & E & Hp).
  destruct small_prepare_ok as (h & s & E'). rewrite E' in E. injection E as -> -> <-. eexists _, f, a. split; [exact E'|].
  destruct Hp as (_ & _ & _ & _ & Hj & _ & Hi & _ & Hh & Hb & _).
  split; [symmetry; exact Hj|]. split; [exact Hb|]. split; [exact Hh|exact Hi].
Defined.

(** The probe on the small image, in RTBuddy mode. *)
Abbreviation small_start := (StartEnv small_params small_env true 2 true true true true).
Abbreviation small_before := (@ProbeState (sample_iommu 14) (∅ : gmap Z Z) None false false 0).
Abbreviation small_result :=
  (@probe_start (sample_iommu 14) sample_dma ack_dev true small_sha small_start small_soc [] small_before).

Lemma small_start_ok : exists h p, small_result = Ret (h, p, None).
Proof.
  destruct (read_probe_result _ small_probe_result) as (f & Ef & _ & Hi). unfold probe_start.
  cbn [se_fw_start se_params se_iommu_mapped se_kzalloc negb ane_t6021_fwload_requested fw_load small_params].
  match goal with |- context [ane_t6021_fwload_probe ?a ?b ?c ?d ?e] =>
    change (ane_t6021_fwload_probe a b c d e) with small_probe end.
  rewrite Ef. cbn [mbind res_bind]. rewrite Hi. change (ane_t6021_rvbar_entry_ok 0x40000000) with true. cbn [negb].
  eexists _, _. reflexivity.
Qed.

Lemma probe_start_owns_witness :
  exists h p', small_result = Ret (h, p', None) /\
    p_held p' = true /\ p_pins p' = 1 /\ exists b, p_fw p' = Some b /\ cpu_started (bs_result b) = true.
Proof.
  destruct (@probe_start_owns (sample_iommu 14) (sample_iommu_laws 14 ltac:(lia)) sample_dma sample_dma_laws true ack_dev
    small_sha small_start small_soc small_before) as (h & p' & out & E & H).
  - right. vm_decide.
  - intros blob Hz Hs. unfold small_sha in Hs. destruct (bool_decide (blob = good_blob)) eqn:Eb; [|discriminate Hs].
    apply bool_decide_eq_true in Eb as ->. vm_compute. discriminate.
  - reflexivity || (cbn; lia).
  - reflexivity.
  - intros blob [= <-]. vm_decide.
  - cbn. lia.
  - destruct small_start_ok as (h' & p & E'). rewrite E' in E. injection E as <- <- <-. exists h', p. split; [exact E'|].
    destruct H as [((e & [=]) & _)|(_ & Hh & _ & Hp & f' & b' & _ & Hb & _ & Hc & _)].
    split; [exact Hh|]. split; [exact Hp|]. exists b'. split; [exact Hb|exact Hc].
Defined.
