(* ===== verification/Chman.v ===== *)
(** * Messages between the T6021 driver and its firmware

    The channel table of [src/ane/t6021/ane_t6021_boot.h], the table of buffers
    the firmware asked for ([ane_t6021_legtab.h]), the rule of the allocation
    ring ([ane_t6021_mring.h]), and the exchange, drain and command functions
    of [ane_t6021_rtclient_main.c].

    The IPC surface and the buffers are shared memory: before every load the
    firmware may change any byte of them. It is a parameter, a function of
    what the host did so far. Functions are programs of a state monad over
    [struct ane_rtclient]; every shared access, barrier and doorbell is
    logged. The number of polls a wait gets before its deadline is a
    parameter too. Log lines and the optional TD trace are not modelled. *)

From Stdlib Require Import String.
From S2P Require Import Prelude FwValidate M1Map FwLoad Boot.

#[local] Open Scope Z_scope.

(** ** The channel table *)

Definition ANE_T6021_CHMAN_ENTRY_SIZE : Z := 0x100.
Definition ANE_T6021_CHMAN_NAME_LEN : Z := 0x40.
Definition ANE_T6021_CHMAN_COUNT : Z := 8.
Definition ANE_T6021_CHMAN_TOTAL : Z := 0x10440.

Record ane_t6021_chman_static := ChmanStatic {
  cs_name : string;
  cs_type : Z;
  cs_bit : Z;
  cs_size : Z;
  cs_off : Z;
}.

Definition ane_t6021_chman_layout : list ane_t6021_chman_static :=
  [ChmanStatic "TERMINAL" 2 0 0x300 0x0800;
   ChmanStatic "IO" 0 1 0x010 0xc800;
   ChmanStatic "DEBUG" 0 2 0x008 0xcc00;
   ChmanStatic "BUF_H2T" 0 3 0x040 0xce00;
   ChmanStatic "BUF_T2H" 1 4 0x040 0xde00;
   ChmanStatic "SHAREDMALLOC" 1 5 0x008 0xee00;
   ChmanStatic "IO_T2H" 1 6 0x040 0xf000;
   ChmanStatic "DATA_CHAIN_H2T" 0 7 0x010 0x10000].

(** [layout[i]]; the callers pass an index below [CHMAN_COUNT]. *)
Definition layout (i : Z) : ane_t6021_chman_static :=
  default (ChmanStatic "" 0 0 0 0) (ane_t6021_chman_layout !! Z.to_nat i).

Definition c_string (s : string) : bytes :=
  map (fun c => Z.of_N (Ascii.N_of_ascii c)) (list_ascii_of_string s) ++ [0].

(** Entry [i] of the table at the start of the surface. *)
Definition ane_t6021_chman_entry_ok (ipc : bytes) (i ipc_dva : Z) : res bool :=
  let d := i * ANE_T6021_CHMAN_ENTRY_SIZE in
  let s := layout i in
  nm ← strncmp_eq ipc d (c_string (cs_name s)) (Z.to_nat ANE_T6021_CHMAN_NAME_LEN);
  if negb nm then Ret false
  else
    ty ← le32 ipc (d + 0x40);
    bit ← le32 ipc (d + 0x44);
    size ← le64 ipc (d + 0x48);
    ring ← le64 ipc (d + 0x50);
    Ret ((ty =? cs_type s) && (bit =? cs_bit s) && (size =? cs_size s) && (ring =? u64 (ipc_dva + cs_off s))).

Definition ane_t6021_chman_check (ipc : bytes) (ipc_dva : Z) : res Z :=
  foldM (fun bad i =>
    ok ← ane_t6021_chman_entry_ok ipc i ipc_dva;
    Ret (if ok : bool then bad else Z.lor bad (u32 (Z.shiftl 1 i)))) 0 (seqZ 0 ANE_T6021_CHMAN_COUNT).

(** One slot given to the host: [memset(entry, 0, 24); entry[0] = 1;]. *)
Definition host_slot (off : Z) (m : bytes) (slot : Z) : res bytes :=
  m ← memset m (off + slot * 0x40) 0 24;
  wr8 m (off + slot * 0x40) 1.

(** The surface after the call, and the value returned. *)
Definition ane_t6021_chman_host_init (ipc : option bytes) (size dva : Z) : res (option bytes * bool) :=
  match ipc with
  | None => Ret (None, false)
  | Some m =>
      if (size <? ANE_T6021_CHMAN_TOTAL) || (dva >? U64_MAX - ANE_T6021_CHMAN_TOTAL) then Ret (ipc, false)
      else
        bad ← ane_t6021_chman_check m dva;
        if negb (bad =? 0) then Ret (ipc, false)
        else
          m ← foldM (fun m i =>
                if negb (cs_type (layout i) =? 0) then Ret m
                else foldM (host_slot (cs_off (layout i))) m (seqZ 0 (cs_size (layout i))))
                m (seqZ 0 ANE_T6021_CHMAN_COUNT);
          Ret (Some m, true)
  end.

(** ** The rule of the allocation ring *)

Inductive ane_t6021_mring_kind :=
  | ANE_T6021_MRING_IDLE
  | ANE_T6021_MRING_MALLOC
  | ANE_T6021_MRING_FREE
  | ANE_T6021_MRING_ANSWERED
  | ANE_T6021_MRING_BAD.

Definition ane_t6021_mring_classify (hdr size mode : Z) : ane_t6021_mring_kind :=
  if negb (Z.land hdr 1 =? 0) then ANE_T6021_MRING_ANSWERED
  else if hdr =? 0 then
    if size =? 0 then ANE_T6021_MRING_IDLE
    else if mode >? 0xffffffff then ANE_T6021_MRING_BAD else ANE_T6021_MRING_MALLOC
  else if negb (size =? 0) || negb (mode =? 0) then ANE_T6021_MRING_BAD else ANE_T6021_MRING_FREE.

(** ** The table of buffers *)

(** [cpu] is the memory behind the pointer. *)
Record ane_legacy_buffer := LegacyBuffer {
  lb_cpu : option bytes;
  lb_dma : Z;
  lb_size : Z;
}.

Definition no_buffer : ane_legacy_buffer := LegacyBuffer None 0 0.

(** [for (i = 0; i < n; i++) if (p(&t[i])) return i;] from index [i]. *)
Fixpoint legtab_scan (p : nat -> ane_legacy_buffer -> bool) (t : list ane_legacy_buffer) (n i : nat) : res (option nat) :=
  match n with
  | O => Ret None
  | S n' =>
      match t !! i with
      | None => Fault OutOfBounds
      | Some b => if p i b then Ret (Some i) else legtab_scan p t n' (S i)
      end
  end.

Definition ane_legtab_pick (t : list ane_legacy_buffer) (used cap : Z) : res (option nat) :=
  r ← legtab_scan (fun _ b => bool_decide (lb_cpu b = None)) t (Z.to_nat used) 0;
  Ret (match r with
       | Some i => Some i
       | None => if used <? cap then Some (Z.to_nat used) else None
       end).

Definition ane_legtab_find (t : list ane_legacy_buffer) (used dma : Z) (keep : option nat) : res (option nat) :=
  legtab_scan (fun i b => bool_decide (lb_cpu b <> None) && (lb_dma b =? dma) && bool_decide (keep <> Some i))
    t (Z.to_nat used) 0.

(** ** Driver state and shared memory *)

(** What the host does, in order. [Ld] and [St] access the IPC surface,
    [LdB] and [StB] a buffer; [Bell] is a write of a doorbell bit. *)
Inductive ev :=
  | Ld (off v : Z)
  | St (off v : Z)
  | LdB (i : nat) (off v : Z)
  | StB (i : nat) (off v : Z)
  | Fence
  | Bell (bit : Z)
  | IrqRd (v : Z)
  | IrqAck (v : Z)
  | Free (dma : Z)
  | StatsBegin
  | StatsComplete (rc : option errno).

#[export] Instance ev_eq_dec : EqDecision ev.
Proof. solve_decision. Defined.

Definition ANE_LEGACY_ALLOCS : Z := 8192.
Definition ANE_LEGACY_BYTES : Z := 0x20000000.
Definition SZ_16K : Z := 0x4000.
Definition SZ_2M : Z := 0x200000.
Definition CSNE_CMD_PROCEDURE_CALL : Z := 0x204.
Definition ANE_CALL_COOKIE : Z := 0xADD0.
Definition ANE_T2H_CALL_COOKIE_OFF : Z := 0x08.
Definition ANE_T2H_CALL_STATE_OFF : Z := 0x1c.
Definition ANE_T2H_CALL_FINISHED : Z := 1.

Section driver.
Context `{HI : Iommu} {HC : DmaCoherent}.

(** [struct ane_rtclient], the fields the exchange uses, with the boot fields
    of [struct ane_t6021] it reads and [ane_t6021_quarantined]. Pointers into
    the table are indices. *)
Record rtclient := RtClient {
  g_ipc : bytes;
  g_ipc_iova : Z;
  g_ipc_size : Z;
  g_fw : fw_state;
  g_held : bool;
  g_chman_ok : bool;
  g_bufs : list ane_legacy_buffer;
  g_last : option nat;
  g_allocated : Z;        (* u32 *)
  g_bytes : Z;            (* size_t *)
  g_malloc_cursor : Z;
  g_cmd_cursor : list Z;
  g_cmd_buf : option nat;
  g_quarantined : bool;
  g_log : list ev;
}.

Definition set_mem (ipc : bytes) (bufs : list ane_legacy_buffer) (g : rtclient) : rtclient :=
  RtClient ipc (g_ipc_iova g) (g_ipc_size g) (g_fw g) (g_held g) (g_chman_ok g) bufs (g_last g) (g_allocated g)
    (g_bytes g) (g_malloc_cursor g) (g_cmd_cursor g) (g_cmd_buf g) (g_quarantined g) (g_log g).
Definition add_log (e : ev) (g : rtclient) : rtclient :=
  RtClient (g_ipc g) (g_ipc_iova g) (g_ipc_size g) (g_fw g) (g_held g) (g_chman_ok g) (g_bufs g) (g_last g)
    (g_allocated g) (g_bytes g) (g_malloc_cursor g) (g_cmd_cursor g) (g_cmd_buf g) (g_quarantined g) (g_log g ++ [e]).
Definition set_table (f : fw_state) (bufs : list ane_legacy_buffer) (last : option nat) (allocated bts : Z)
    (g : rtclient) : rtclient :=
  RtClient (g_ipc g) (g_ipc_iova g) (g_ipc_size g) f (g_held g) (g_chman_ok g) bufs last allocated bts
    (g_malloc_cursor g) (g_cmd_cursor g) (g_cmd_buf g) (g_quarantined g) (g_log g).
Definition set_malloc_cursor (c : Z) (g : rtclient) : rtclient :=
  RtClient (g_ipc g) (g_ipc_iova g) (g_ipc_size g) (g_fw g) (g_held g) (g_chman_ok g) (g_bufs g) (g_last g)
    (g_allocated g) (g_bytes g) c (g_cmd_cursor g) (g_cmd_buf g) (g_quarantined g) (g_log g).
Definition set_cmd_cursor (ch c : Z) (g : rtclient) : rtclient :=
  RtClient (g_ipc g) (g_ipc_iova g) (g_ipc_size g) (g_fw g) (g_held g) (g_chman_ok g) (g_bufs g) (g_last g)
    (g_allocated g) (g_bytes g) (g_malloc_cursor g) (<[Z.to_nat ch := c]> (g_cmd_cursor g)) (g_cmd_buf g)
    (g_quarantined g) (g_log g).
Definition quarantine (g : rtclient) : rtclient :=
  RtClient (g_ipc g) (g_ipc_iova g) (g_ipc_size g) (g_fw g) (g_held g) (g_chman_ok g) (g_bufs g) (g_last g)
    (g_allocated g) (g_bytes g) (g_malloc_cursor g) (g_cmd_cursor g) (g_cmd_buf g) true (g_log g).
Definition set_chman_ok (b : bool) (g : rtclient) : rtclient :=
  RtClient (g_ipc g) (g_ipc_iova g) (g_ipc_size g) (g_fw g) (g_held g) b (g_bufs g) (g_last g)
    (g_allocated g) (g_bytes g) (g_malloc_cursor g) (g_cmd_cursor g) (g_cmd_buf g) (g_quarantined g) (g_log g).

(** A call that can fail by a value keeps the state it reached. *)
Definition M (A : Type) : Type := rtclient -> res (rtclient * A).

Definition ret {A} (a : A) : M A := fun g => Ret (g, a).
Definition bind {A B} (m : M A) (k : A -> M B) : M B := fun g => '(g', a) ← m g; k a g'.
Definition get {A} (f : rtclient -> A) : M A := fun g => Ret (g, f g).
Definition modify (f : rtclient -> rtclient) : M unit := fun g => Ret (f g, tt).
Definition lift {A} (r : rtclient -> res A) : M A := fun g => a ← r g; Ret (g, a).
End driver.

#[local] Notation "'let!' x := m 'in' k" := (bind m (fun x => k))
  (at level 200, x pattern, m at level 100, k at level 200, only parsing).
#[local] Notation "m ;; k" := (bind m (fun _ => k)) (at level 100, k at level 200, right associativity).

(** The firmware: the IPC surface and buffer [i] after the host's accesses
    [l], from what they were; the word of the interrupt register; the polls
    a wait that starts after [l] gets before its deadline. *)
Class Firmware := {
  fw_ipc : list ev -> bytes -> bytes;
  fw_buf : list ev -> nat -> bytes -> bytes;
  fw_irq : list ev -> Z;
  fw_polls : list ev -> nat;
}.

(** It writes bytes of the memory it was given. *)
Class FirmwareLaws `{Firmware} := {
  fw_ipc_len l m : zlen (fw_ipc l m) = zlen m;
  fw_ipc_bytes l m : bytes_ok m -> bytes_ok (fw_ipc l m);
  fw_buf_len l i m : zlen (fw_buf l i m) = zlen m;
  fw_buf_bytes l i m : bytes_ok m -> bytes_ok (fw_buf l i m);
}.

Section ops.
Context `{HI : Iommu} {HC : DmaCoherent} {HF : Firmware}.

Definition emit (e : ev) : M unit := modify (add_log e).

(** The firmware acts. *)
Definition fw_act : M unit :=
  modify (fun g => set_mem (fw_ipc (g_log g) (g_ipc g))
    (imap (fun i b => LegacyBuffer (fw_buf (g_log g) i <$> lb_cpu b) (lb_dma b) (lb_size b)) (g_bufs g)) g).

Definition ld64 (off : Z) : M Z :=
  fw_act;; let! v := lift (fun g => le64 (g_ipc g) off) in emit (Ld off v);; ret v.

Definition st64 (off v : Z) : M unit :=
  let! m := lift (fun g => put_le64 (g_ipc g) off v) in
  modify (fun g => set_mem m (g_bufs g) g);; emit (St off v).

(** The memory of buffer [i]; a NULL pointer is not dereferenced. *)
Definition buf_mem (i : nat) (g : rtclient) : res bytes :=
  match g_bufs g !! i with
  | Some (LegacyBuffer (Some m) _ _) => Ret m
  | _ => Fault OutOfBounds
  end.

Definition ldb16 (i : nat) (off : Z) : M Z :=
  fw_act;; let! v := lift (fun g => m ← buf_mem i g; le16 m off) in emit (LdB i off v);; ret v.

Definition stb16 (i : nat) (off v : Z) : M unit :=
  let! m := lift (fun g => m ← buf_mem i g; m ← wr8 m off v; wr8 m (off + 1) (Z.shiftr v 8)) in
  modify (fun g => set_mem (g_ipc g)
    (alter (fun b => LegacyBuffer (Some m) (lb_dma b) (lb_size b)) i (g_bufs g)) g);;
  emit (StB i off v).

(** ** Operations *)

(** [None] is a zero return. *)
Definition ane_rtclient_legacy_alloc (size : Z) : M (option errno) :=
  let! bts := get g_bytes in
  if (size =? 0) || negb (Z.land size (SZ_16K - 1) =? 0) || (size >? SZ_2M) ||
     (size >? u64 (ANE_LEGACY_BYTES - bts)) then ret (Some E2BIG)
  else
    let! slot := lift (fun g => ane_legtab_pick (g_bufs g) (g_allocated g) ANE_LEGACY_ALLOCS) in
    match slot with
    | None => ret (Some E2BIG)
    | Some i => fun g =>
        match dma_alloc (l_dom (g_fw g)) size with
        | None => Ret (g, Some ENOMEM)
        | Some (dma, d) =>
            match g_bufs g !! i with
            | None => Fault OutOfBounds
            | Some b =>
                if negb (Z.land dma (SZ_16K - 1) =? 0) || negb (ane_t6021_fw_alias_iova_ok (g_fw g) dma size) then
                  Ret (set_table (set_dom (dma_free d dma size) (g_fw g))
                         (<[i := LegacyBuffer None dma (lb_size b)]> (g_bufs g)) (g_last g) (g_allocated g) (g_bytes g) g,
                       Some ERANGE)
                else
                  Ret (set_table (set_dom d (g_fw g))
                         (<[i := LegacyBuffer (Some (replicate (Z.to_nat size) 0)) dma size]> (g_bufs g)) (Some i)
                         (if Z.of_nat i =? g_allocated g then u32 (g_allocated g + 1) else g_allocated g)
                         (u64 (g_bytes g + size)) g,
                       None)
            end
        end
    end.

(** [boot] is whether [ane->fw] and its IPC surface exist. *)
Definition ane_rtclient_validate_chman (boot : bool) : M unit :=
  let! size := get g_ipc_size in
  if negb boot then ret tt
  else if size <? ANE_T6021_CHMAN_TOTAL then ret tt
  else
    emit Fence;; fw_act;;
    let! bad := lift (fun g => ane_t6021_chman_check (g_ipc g) (g_ipc_iova g)) in
    modify (set_chman_ok (bad =? 0)).

(** The release of a buffer the firmware gave back. *)
Definition release_buf (i : nat) : M unit := fun g =>
  match g_bufs g !! i with
  | None => Fault OutOfBounds
  | Some b =>
      Ret (add_log (Free (lb_dma b))
             (set_table (set_dom (dma_free (l_dom (g_fw g)) (lb_dma b) (lb_size b)) (g_fw g))
                (<[i := no_buffer]> (g_bufs g)) (g_last g) (g_allocated g) (u64 (g_bytes g - lb_size b)) g), tt)
  end.

Definition mslot (cursor : Z) : Z := cs_off (layout 5) + cursor * 8 * 8.

(** The new cursor, and 1, 0 or an error. *)
Definition ane_rtclient_malloc_service (cursor : Z) : M (Z * (bool + errno)) :=
  let slot := mslot cursor in
  let next := (cursor + 1) mod cs_size (layout 5) in
  let! hdr := ld64 slot in
  if negb (Z.land hdr 1 =? 0) then ret (cursor, inl false)
  else
    emit Fence;;
    let! size := ld64 (slot + 8) in
    let! mode := ld64 (slot + 16) in
    match ane_t6021_mring_classify hdr size mode with
    | ANE_T6021_MRING_MALLOC =>
        let! r := ane_rtclient_legacy_alloc size in
        match r with
        | Some _ => ret (cursor, inr ENOMEM)
        | None =>
            let! last := get g_last in
            let i := default 0%nat last in
            let! dma := lift (fun g => match g_bufs g !! i with Some b => Ret (lb_dma b) | None => Fault OutOfBounds end) in
            st64 (slot + 8) 0;; st64 (slot + 16) (u32 (Z.of_nat i + 1));; emit Fence;;
            st64 slot (Z.lor dma 1);; emit Fence;; emit (Bell 5);; ret (next, inl true)
        end
    | ANE_T6021_MRING_FREE =>
        st64 (slot + 8) 0;; st64 (slot + 16) 0;; emit Fence;; st64 slot 1;; emit Fence;; emit (Bell 5);;
        let! freed := lift (fun g => ane_legtab_find (g_bufs g) (g_allocated g) hdr (g_cmd_buf g)) in
        match freed with
        | Some i => release_buf i;; ret (next, inl true)
        | None => ret (next, inl true)
        end
    | ANE_T6021_MRING_IDLE | ANE_T6021_MRING_ANSWERED => ret (cursor, inl false)
    | ANE_T6021_MRING_BAD => ret (cursor, inr EOPNOTSUPP)
    end.

(** The polls of one quiet period: at most [n] looks at the ring. *)
Fixpoint settle_quiet (n : nat) (cursor : Z) : M (Z * (bool + errno)) :=
  match n with
  | O => ret (cursor, inl false)
  | S n' =>
      let! r := ane_rtclient_malloc_service cursor in
      match r with
      | (c, inl false) => settle_quiet n' c
      | r => ret r
      end
  end.

(** [left] more answers are allowed. *)
Fixpoint settle (left : nat) (cursor : Z) : M (Z * option errno) :=
  let! n := get (fun g => fw_polls (g_log g)) in
  let! r := settle_quiet n cursor in
  match r with
  | (c, inl false) => ret (c, None)
  | (c, inr e) => ret (c, Some e)
  | (c, inl true) => match left with O => ret (c, Some EBUSY) | S left' => settle left' c end
  end.

Definition ane_rtclient_malloc_settle : M (option errno) :=
  let! cursor := get g_malloc_cursor in
  let! r := settle 64 cursor in
  modify (set_malloc_cursor r.1);; ret r.2.

(** The requests answered before the command goes out. *)
Fixpoint pre_serve (n : nat) (cursor : Z) : M (Z * option errno) :=
  match n with
  | O => ret (cursor, None)
  | S n' =>
      let! r := ane_rtclient_malloc_service cursor in
      match r with
      | (c, inr e) => ret (c, Some e)
      | (c, inl true) => pre_serve n' c
      | (c, inl false) => ret (c, None)
      end
  end.

(** The verdict on a completed slot. *)
Definition exchange_verdict (i : nat) (io header length opcode : Z) : M (option errno) :=
  emit Fence;;
  let! dma := get (fun g => lb_dma (default no_buffer (g_bufs g !! i))) in
  if negb (header =? Z.lor dma 1) then ret (Some EPROTO)
  else
    let! l := ld64 (io + 8) in
    if negb (l =? length) then ret (Some EPROTO)
    else
      let! z := ld64 (io + 16) in
      if negb (z =? 0) then ret (Some EPROTO)
      else
        let! op := ldb16 i 4 in
        if negb (op =? opcode) then ret (Some EPROTO)
        else
          let! st := ldb16 i 6 in
          ret (if st =? 0 then None else Some EPROTO).

(** The polls for the answer. *)
Fixpoint exchange_poll (n : nat) (i : nat) (io length opcode channel cursor : Z) : M (Z * option errno) :=
  match n with
  | O => let! _ := ld64 io in ret (cursor, Some ETIMEDOUT)
  | S n' =>
      let! pending := get (fun g => u32 (fw_irq (g_log g))) in
      emit (IrqRd pending);;
      (if negb (pending =? 0) then emit (IrqAck pending);; emit Fence else ret tt);;
      let! header := ld64 io in
      let! served := (if Z.land header 1 =? 0 then ane_rtclient_malloc_service cursor
                      else ret (cursor, inl false)) in
      match served with
      | (cursor, inr e) => ret (cursor, Some e)
      | (cursor, inl _) =>
          let! header := ld64 io in
          if negb (Z.land header 1 =? 0) then
            let! r := exchange_verdict i io header length opcode in
            modify (fun g => set_cmd_cursor channel
              ((default 0 (g_cmd_cursor g !! Z.to_nat channel) + 1) mod cs_size (layout channel)) g);;
            ret (cursor, r)
          else exchange_poll n' i io length opcode channel cursor
      end
  end.

(** [i] is the command buffer's index. *)
Definition ane_rtclient_legacy_exchange (i : nat) (length opcode channel : Z) : M (option errno) :=
  let! ready := get (fun g => g_held g && g_chman_ok g) in
  if negb ready then ret (Some EPROTO)
  else
    fw_act;;
    let! bad := lift (fun g => ane_t6021_chman_check (g_ipc g) (g_ipc_iova g)) in
    if negb (bad =? 0) then ret (Some EPROTO)
    else
      let! cursor := get g_malloc_cursor in
      let! buf := get (fun g => default no_buffer (g_bufs g !! i)) in
      if (length <? 8) || (length >? lb_size buf) || (channel >=? ANE_T6021_CHMAN_COUNT) then ret (Some EINVAL)
      else
        let! cur := get (fun g => default 0 (g_cmd_cursor g !! Z.to_nat channel)) in
        let io := cs_off (layout channel) + cur * 64 in
        let! h := ld64 io in
        if Z.land h 1 =? 0 then ret (Some EBUSY)
        else
          let! r := pre_serve (Z.to_nat (cs_size (layout 5))) cursor in
          match r with
          | (cursor, Some e) => modify (set_malloc_cursor cursor);; ret (Some e)
          | (cursor, None) =>
              stb16 i 4 opcode;;
              st64 (io + 8) length;; st64 (io + 16) length;; emit Fence;; st64 io (lb_dma buf);; emit Fence;;
              emit (Bell (cs_bit (layout channel)));;
              let! n := get (fun g => fw_polls (g_log g)) in
              let! r := exchange_poll n i io length opcode channel cursor in
              modify (set_malloc_cursor r.1);; ret r.2
          end.
(** Where [len] bytes at a firmware address are: in a buffer, or in the IPC
    surface. *)
Inductive place := InBuf (i : nat) (off : Z) | InIpc (off : Z).

Definition ane_rtclient_fw_cpu (iova len : Z) (g : rtclient) : res (option place) :=
  r ← legtab_scan (fun _ b => bool_decide (lb_cpu b <> None) && (iova >=? lb_dma b) &&
              (u64 (u64 (iova - lb_dma b) + len) <=? lb_size b)) (g_bufs g) (Z.to_nat (g_allocated g)) 0;
  Ret (match r with
       | Some i => Some (InBuf i (u64 (iova - lb_dma (default no_buffer (g_bufs g !! i)))))
       | None =>
           if (iova >=? g_ipc_iova g) && (u64 (u64 (iova - g_ipc_iova g) + len) <=? g_ipc_size g)
           then Some (InIpc (u64 (iova - g_ipc_iova g))) else None
       end).

(** Unaligned little-endian loads from a payload. *)
Definition place_mem (p : place) (g : rtclient) : res (bytes * Z) :=
  match p with
  | InBuf i off => m ← buf_mem i g; Ret (m, off)
  | InIpc off => Ret (g_ipc g, off)
  end.

Definition ld_place (w : bytes -> Z -> res Z) (p : place) (off : Z) : M Z :=
  fw_act;; lift (fun g => '(m, o) ← place_mem p g; w m (o + off)).

(** Whether an event is the finish event of a call. *)
Definition t2h_finished (hdr : Z) : M bool :=
  let! p := lift (ane_rtclient_fw_cpu hdr (ANE_T2H_CALL_STATE_OFF + 4)) in
  match p with
  | None => ret false
  | Some p =>
      let! cookie := ld_place le64 p ANE_T2H_CALL_COOKIE_OFF in
      if cookie =? ANE_CALL_COOKIE then
        let! state := ld_place le32 p ANE_T2H_CALL_STATE_OFF in
        ret (state =? ANE_T2H_CALL_FINISHED)
      else ret false
  end.

(** At most [n] slots from [slot_i]. *)
Fixpoint drain_slots (n : nat) (channel slot_i : Z) (finished : bool) : M bool :=
  match n with
  | O => ret finished
  | S n' =>
      let c := layout channel in
      let slot := cs_off c + slot_i * 64 in
      let! hdr := ld64 slot in
      let! len := ld64 (slot + 8) in
      if negb (Z.land hdr 1 =? 0) then ret finished
      else
        emit Fence;;
        let! fin := (if (channel =? 6) && (len >=? ANE_T2H_CALL_STATE_OFF + 4) then t2h_finished hdr else ret false) in
        st64 slot (Z.lor hdr 1);; emit Fence;; emit (Bell (cs_bit c));;
        let next := (slot_i + 1) mod cs_size c in
        modify (set_cmd_cursor channel next);;
        drain_slots n' channel next (finished || fin)
  end.

(** The caller has the firmware view and its surface. *)
Definition ane_rtclient_drain_t2h (channel : Z) : M bool :=
  let! cur := get (fun g => default 0 (g_cmd_cursor g !! Z.to_nat channel)) in
  drain_slots (Z.to_nat (cs_size (layout channel))) channel cur false.

(** The [do ... while] body runs at least once. *)
Fixpoint call_polls (n : nat) : M bool :=
  let! fin := ane_rtclient_drain_t2h 6 in
  if fin : bool then ret true else match n with O => ret false | S n' => call_polls n' end.

Definition ane_rtclient_call_wait : M (option errno) :=
  let! n := get (fun g => fw_polls (g_log g)) in
  let! fin := call_polls n in
  if fin : bool then ret None
  else
    let! fin := ane_rtclient_drain_t2h 6 in
    ret (if fin : bool then None else Some ETIMEDOUT).

(** [stats] is the module parameter. *)
Definition ane_rtclient_command (stats : bool) (i : nat) (length opcode channel : Z) : M (option errno) :=
  let call := opcode =? CSNE_CMD_PROCEDURE_CALL in
  let stats_call := stats && call in
  let complete rc := if stats_call then emit (StatsComplete rc) else ret tt in
  (if stats_call then emit StatsBegin else ret tt);;
  let! r := ane_rtclient_legacy_exchange i length opcode channel in
  match r with
  | Some e => complete (Some e);; modify quarantine;; ret (Some e)
  | None =>
      let! w := (if call then ane_rtclient_call_wait else ret None) in
      match w with
      | Some e => complete (Some e);; modify quarantine;; ret (Some e)
      | None =>
          complete None;;
          let! _ := ane_rtclient_drain_t2h 4 in
          let! _ := ane_rtclient_drain_t2h 6 in
          ret None
      end
  end.
End ops.

(** ** Triples

    [triple P m Q]: from a state with [P] the program returns, in a state and
    with a value related by [Q]. *)

Section triples.
Context `{HI : Iommu}.

Definition triple {A} (P : rtclient -> Prop) (m : M A) (Q : A -> rtclient -> Prop) : Prop :=
  forall g, P g -> twp (m g) (fun r => Q r.2 r.1).

Lemma triple_ret {A} (P : rtclient -> Prop) (a : A) (Q : A -> rtclient -> Prop) :
  (forall g, P g -> Q a g) -> triple P (ret a) Q.
Proof using. intros H g Hg. by apply H. Qed.

Lemma triple_bind {A B} P (m : M A) (k : A -> M B) R Q :
  triple P m R -> (forall a, triple (R a) (k a) Q) -> triple P (bind m k) Q.
Proof using.
  intros Hm Hk g Hg. specialize (Hm g Hg). unfold bind. destruct (m g) as [[g' a]| |]; [|done..]. exact (Hk a g' Hm).
Qed.

Lemma triple_get {A} P (f : rtclient -> A) : triple P (get f) (fun a g => P g /\ a = f g).
Proof using. by intros g Hg. Qed.

Lemma triple_modify (P : rtclient -> Prop) f (Q : unit -> rtclient -> Prop) :
  (forall g, P g -> Q tt (f g)) -> triple P (modify f) Q.
Proof using. intros H g Hg. by apply H. Qed.

Lemma triple_lift {A} P (r : rtclient -> res A) (Q : A -> Prop) :
  (forall g, P g -> twp (r g) Q) -> triple P (lift r) (fun a g => P g /\ r g = Ret a /\ Q a).
Proof using.
  intros H g Hg. specialize (H g Hg). unfold lift. destruct (r g) as [a| |] eqn:E; [|done..]. cbn in *. by rewrite E.
Qed.

Lemma triple_conseq {A} (P P' : rtclient -> Prop) (m : M A) (Q Q' : A -> rtclient -> Prop) :
  triple P' m Q' -> (forall g, P g -> P' g) -> (forall a g, Q' a g -> Q a g) -> triple P m Q.
Proof using. intros Hm HP HQ g Hg. eapply twp_mono; [by apply Hm, HP|]. intros [g' a]. apply HQ. Qed.

Lemma triple_pure {A} (φ : Prop) P (m : M A) Q : (φ -> triple P m Q) -> triple (fun g => P g /\ φ) m Q.
Proof using. intros H g [Hg Hφ]. by apply H. Qed.

Lemma triple_frame {A} (φ : Prop) P (m : M A) Q : triple P m Q -> triple (fun g => P g /\ φ) m (fun a g => Q a g /\ φ).
Proof using. intros H g [Hg Hφ]. eapply twp_mono; [by apply H|]. by intros r. Qed.

Lemma triple_load {A} P (r : rtclient -> res A) (Q : A -> Prop) :
  (forall g, P g -> twp (r g) Q) -> triple P (lift r) (fun a g => P g /\ Q a).
Proof using. intros H. eapply triple_conseq; [by apply triple_lift|done|naive_solver]. Qed.

Lemma bind_get {A B} (f : rtclient -> A) (k : A -> M B) g : bind (get f) k g = k (f g) g.
Proof using. done. Qed.

Lemma bind_lift {A B} (r : rtclient -> res A) (k : A -> M B) g a : r g = Ret a -> bind (lift r) k g = k a g.
Proof using. intros E. unfold bind, lift. by rewrite E. Qed.
End triples.

(** ** The invariant *)

Section invariant.
Context `{HI : Iommu} {HC : DmaCoherent} `{HD : !DmaLaws}.
(** The domain without the buffers of the table. *)
Context (d0 : domain).

Definition occupied (g : rtclient) (i : nat) (b : ane_legacy_buffer) : Prop := g_bufs g !! i = Some b /\ lb_cpu b <> None.

Definition buf_page (b : ane_legacy_buffer) (j : Z) : Prop := page_of (lb_dma b) (lb_size b / P) j.

Definition buf_ok (b : ane_legacy_buffer) : Prop :=
  forall m, lb_cpu b = Some m ->
    zlen m = lb_size b /\ bytes_ok m /\ 0 < lb_size b <= SZ_2M /\ lb_size b mod P = 0 /\
    P <= lb_dma b /\ lb_dma b + lb_size b <= 2 ^ 32 /\ lb_dma b mod P = 0.

Definition buf_bytes (b : ane_legacy_buffer) : Z := if lb_cpu b then lb_size b else 0.

Definition table_bytes (t : list ane_legacy_buffer) : Z := foldr (fun b acc => buf_bytes b + acc) 0 t.

Record table_ok (g : rtclient) : Prop := TableOk {
  tb_len : zlen (g_bufs g) = ANE_LEGACY_ALLOCS;
  tb_used : 0 <= g_allocated g <= ANE_LEGACY_ALLOCS;
  tb_free : forall i b, g_bufs g !! i = Some b -> g_allocated g <= Z.of_nat i -> lb_cpu b = None;
  tb_bufs : Forall buf_ok (g_bufs g);
  tb_bytes : g_bytes g = table_bytes (g_bufs g) /\ g_bytes g <= ANE_LEGACY_BYTES;
  tb_disjoint : forall i i' b b' j, occupied g i b -> occupied g i' b' -> buf_page b j -> buf_page b' j -> i = i';
  tb_mapped : forall i b j, occupied g i b -> buf_page b j ->
    iova_to_phys d0 j = None /\ is_Some (iova_to_phys (l_dom (g_fw g)) j);
  tb_else : forall j, (forall i b, occupied g i b -> ~ buf_page b j) ->
    iova_to_phys (l_dom (g_fw g)) j = iova_to_phys d0 j;
  tb_alias : alias_sane (g_fw g);
}.

Record surface_ok (g : rtclient) : Prop := SurfaceOk {
  sf_len : zlen (g_ipc g) = g_ipc_size g;
  sf_bytes : bytes_ok (g_ipc g);
  sf_total : ANE_T6021_CHMAN_TOTAL <= g_ipc_size g < 2 ^ 32;
  sf_iova : P <= g_ipc_iova g < 2 ^ 32;
}.

Record cursors_ok (g : rtclient) : Prop := CursorsOk {
  cu_malloc : 0 <= g_malloc_cursor g < cs_size (layout 5);
  cu_len : length (g_cmd_cursor g) = 8%nat;
  cu_cmd : forall ch c, g_cmd_cursor g !! ch = Some c -> 0 <= c < cs_size (layout (Z.of_nat ch));
  cu_last : forall i, g_last g = Some i -> Z.of_nat i < ANE_LEGACY_ALLOCS;
}.

(** The command buffer stays in the table. *)
Definition cmd_ok (g : rtclient) : Prop :=
  forall i, g_cmd_buf g = Some i -> exists b, occupied g i b /\ lb_size b = SZ_16K.

Record chan_inv (g : rtclient) : Prop := Inv {
  inv_table : table_ok g;
  inv_surface : surface_ok g;
  inv_cursors : cursors_ok g;
  inv_cmd : cmd_ok g;
}.

(** Sums over the table. *)
Lemma table_bytes_insert t i b b' :
  t !! i = Some b -> table_bytes (<[i := b']> t) = table_bytes t - buf_bytes b + buf_bytes b'.
Proof using.
  revert i. induction t as [|x t IH]; intros [|i] H; [done..| |].
  - injection H as ->. unfold table_bytes. cbn. lia.
  - change (<[S i := b']> (x :: t)) with (x :: <[i := b']> t). unfold table_bytes in *. cbn [foldr].
    rewrite (IH i H). lia.
Qed.

Lemma table_bytes_nonneg t : Forall buf_ok t -> 0 <= table_bytes t.
Proof using.
  induction 1 as [|b t Hb Ht IH]; [done|]. change (table_bytes (b :: t)) with (buf_bytes b + table_bytes t).
  unfold buf_bytes. destruct (lb_cpu b) as [m|] eqn:E; [|lia].
  destruct (Hb m E) as (_ & _ & H & _). lia.
Qed.

Lemma table_bytes_ge t i b : Forall buf_ok t -> t !! i = Some b -> lb_cpu b <> None -> lb_size b <= table_bytes t.
Proof using.
  intros Ht. revert i. induction Ht as [|x t Hx Ht IH]; intros [|i]; [done..| |];
    change (table_bytes (x :: t)) with (buf_bytes x + table_bytes t).
  - intros [= ->] Hc. pose proof (table_bytes_nonneg t Ht). unfold buf_bytes. destruct (lb_cpu b); [lia|done].
  - intros H Hc. change (t !! i = Some b) in H. specialize (IH i H Hc). enough (0 <= buf_bytes x) by lia. unfold buf_bytes.
    destruct (lb_cpu x) as [m|] eqn:E; [|lia]. destruct (Hx m E) as (_ & _ & ? & _). lia.
Qed.

(** A buffer whose bytes changed. *)
Definition same_shape (b b' : ane_legacy_buffer) : Prop :=
  lb_dma b' = lb_dma b /\ lb_size b' = lb_size b /\
  match lb_cpu b, lb_cpu b' with
  | Some m, Some m' => zlen m' = zlen m /\ (bytes_ok m -> bytes_ok m')
  | None, None => True
  | _, _ => False
  end.

Lemma same_shape_refl b : same_shape b b.
Proof using. unfold same_shape. destruct (lb_cpu b); auto. Qed.

Lemma shape_occupied g ipc t i b' :
  Forall2 same_shape (g_bufs g) t -> occupied (set_mem ipc t g) i b' -> exists b, occupied g i b /\ same_shape b b'.
Proof using.
  intros Ht [H Hc]. destruct (Forall2_lookup_r _ _ _ _ _ Ht H) as (b & Hb & Hs). exists b. split; [|done]. split; [done|].
  destruct Hs as (_ & _ & Hm). by destruct (lb_cpu b), (lb_cpu b').
Qed.

Lemma shape_occupied' g ipc t i b :
  Forall2 same_shape (g_bufs g) t -> occupied g i b -> exists b', occupied (set_mem ipc t g) i b' /\ same_shape b b'.
Proof using.
  intros Ht [H Hc]. destruct (Forall2_lookup_l _ _ _ _ _ Ht H) as (b' & Hb & Hs). exists b'. split; [|done]. split; [done|].
  destruct Hs as (_ & _ & Hm). by destruct (lb_cpu b), (lb_cpu b').
Qed.

Lemma shape_page b b' j : same_shape b b' -> buf_page b' j <-> buf_page b j.
Proof using. intros (Hd & Hs & _). unfold buf_page. by rewrite Hd Hs. Qed.

Lemma table_ok_mem g ipc t : Forall2 same_shape (g_bufs g) t -> table_ok g -> table_ok (set_mem ipc t g).
Proof using.
  intros Ht [T1 T2 T3 T4 T5 T6 T7 T8 T9]. split; cbn [g_bufs g_allocated g_bytes g_fw set_mem].
  - unfold zlen in *. by rewrite -(Forall2_length _ _ _ Ht).
  - done.
  - intros i b' Hb' Hi. destruct (Forall2_lookup_r _ _ _ _ _ Ht Hb') as (b & Hb & (_ & _ & Hm)).
    rewrite (T3 i b Hb Hi) in Hm. by destruct (lb_cpu b').
  - apply Forall_forall. intros b' (i & Hb')%list_elem_of_lookup m Hm.
    destruct (Forall2_lookup_r _ _ _ _ _ Ht Hb') as (b & Hb & (-> & -> & Hs)). rewrite Hm in Hs.
    pose proof (Forall_lookup_1 _ _ _ _ T4 Hb) as Hok. destruct (lb_cpu b) as [m0|] eqn:E; [|done].
    destruct Hs as [-> Hs]. destruct (Hok m0 E) as (? & ? & ?). auto.
  - destruct T5 as [-> T5]. split; [|done]. clear -Ht. induction Ht as [|b b' t t' Hb Ht IH]; [done|].
    change (table_bytes (b :: t)) with (buf_bytes b + table_bytes t).
    change (table_bytes (b' :: t')) with (buf_bytes b' + table_bytes t'). rewrite IH. f_equal.
    destruct Hb as (_ & Hs & Hm). unfold buf_bytes. by destruct (lb_cpu b), (lb_cpu b').
  - intros i i' b b' j Hb Hb' Hj Hj'.
    destruct (shape_occupied _ _ _ _ _ Ht Hb) as (b1 & H1 & S1). destruct (shape_occupied _ _ _ _ _ Ht Hb') as (b2 & H2 & S2).
    apply (T6 i i' b1 b2 j); [done..| |]; by [apply (shape_page _ _ _ S1)|apply (shape_page _ _ _ S2)].
  - intros i b j Hb Hj. destruct (shape_occupied _ _ _ _ _ Ht Hb) as (b1 & H1 & S1).
    apply (T7 i b1); [done|]. by apply (shape_page _ _ _ S1).
  - intros j Hj. apply T8. intros i b Hb Hp. destruct (shape_occupied' _ ipc _ _ _ Ht Hb) as (b1 & H1 & S1).
    apply (Hj i b1 H1). by apply (shape_page _ _ _ S1).
  - done.
Qed.

Lemma inv_mem g ipc t :
  zlen ipc = zlen (g_ipc g) -> bytes_ok ipc -> Forall2 same_shape (g_bufs g) t -> chan_inv g -> chan_inv (set_mem ipc t g).
Proof using.
  intros Hz Hb Ht [I1 [S1 S2 S3 S4] [C1 C2 C3 C4] I4]. split.
  - by apply table_ok_mem.
  - split; cbn; [by rewrite Hz|done..].
  - by split.
  - intros i Hi. destruct (I4 i Hi) as (b & Ho & Hs). destruct (shape_occupied' _ ipc _ _ _ Ht Ho) as (b' & Ho' & Sh).
    exists b'. split; [done|]. destruct Sh as (_ & -> & _). done.
Qed.

(** Fields the invariant does not mention together. *)
Lemma inv_log e g : chan_inv g -> chan_inv (add_log e g).
Proof using. intros [[] [] [] I4]. by split; [split..|]. Qed.

Lemma inv_malloc_cursor c g : 0 <= c < cs_size (layout 5) -> chan_inv g -> chan_inv (set_malloc_cursor c g).
Proof using. intros Hc [[] [] [] I4]. by split; [split..|]. Qed.

Lemma inv_quarantine g : chan_inv g -> chan_inv (quarantine g).
Proof using. intros [[] [] [] I4]. by split; [split..|]. Qed.

Lemma inv_chman_ok b g : chan_inv g -> chan_inv (set_chman_ok b g).
Proof using. intros [[] [] [] I4]. by split; [split..|]. Qed.

Lemma inv_cmd_cursor ch c g : 0 <= ch < 8 -> 0 <= c < cs_size (layout ch) -> chan_inv g -> chan_inv (set_cmd_cursor ch c g).
Proof using.
  intros Hch Hc [[] [] [C1 C2 C3 C4] I4]. split; [by split..| |done]. split; cbn; [done|by rewrite length_insert| |done].
  intros ch' c' H. apply list_lookup_insert_Some in H as [(<- & -> & _)|[_ H]]; [|by apply C3].
  rewrite Z2Nat.id; [done|lia].
Qed.
End invariant.

(** ** Changes of the table *)

Lemma legtab_scan_spec p t n i :
  (i + n <= length t)%nat ->
  exists r, legtab_scan p t n i = Ret r /\
    match r with
    | Some k => (i <= k < i + n)%nat /\ exists b, t !! k = Some b /\ p k b = true
    | None => forall k b, (i <= k < i + n)%nat -> t !! k = Some b -> p k b = false
    end.
Proof.
  revert i. induction n as [|n IH]; intros i Hn; cbn [legtab_scan].
  { exists None. split; [done|]. lia. }
  destruct (t !! i) as [b|] eqn:E; [|apply lookup_ge_None in E; lia].
  destruct (p i b) eqn:Ep.
  { exists (Some i). split; [done|]. split; [lia|]. by exists b. }
  destruct (IH (S i) ltac:(lia)) as (r & -> & Hr). exists r. split; [done|]. destruct r as [k|].
  - destruct Hr as [Hk Hb]. split; [lia|done].
  - intros k b' Hk Hb. destruct (decide (k = i)) as [->|]; [congruence|]. apply (Hr k b'); [lia|done].
Qed.

Section table.
Context `{HI : Iommu} {HC : DmaCoherent} `{HD : !DmaLaws}.
Context (d0 : domain).

#[local] Instance buf_page_dec b j : Decision (buf_page b j) := page_of_dec _ _ _.

Lemma occupied_insert g i b' f last al bts k x :
  occupied (set_table f (<[i := b']> (g_bufs g)) last al bts g) k x ->
  (k = i /\ x = b' /\ lb_cpu b' <> None) \/ (k <> i /\ occupied g k x).
Proof using.
  intros [H Hc]. cbn in H. apply list_lookup_insert_Some in H as [(-> & -> & _)|[Hne H]]; [by left|].
  right. split; [done|]. by split.
Qed.

Lemma occupied_keep g i b' f last al bts k x :
  k <> i -> occupied g k x -> occupied (set_table f (<[i := b']> (g_bufs g)) last al bts g) k x.
Proof using. intros Hne [H Hc]. split; [|done]. cbn. by rewrite list_lookup_insert_ne. Qed.

(** An entry emptied. *)
Lemma table_clear g i b b' d' last :
  table_ok d0 g -> g_bufs g !! i = Some b -> lb_cpu b' = None ->
  (forall j, iova_to_phys d' j =
    if decide (lb_cpu b <> None /\ buf_page b j) then None else iova_to_phys (l_dom (g_fw g)) j) ->
  table_ok d0 (set_table (set_dom d' (g_fw g)) (<[i := b']> (g_bufs g)) last (g_allocated g) (g_bytes g - buf_bytes b) g).
Proof using.
  intros [T1 T2 T3 T4 T5 T6 T7 T8 T9] Hb Hb' Hd. split; cbn [g_bufs g_allocated g_bytes g_fw set_table l_dom set_dom].
  - by rewrite zlen_insert.
  - done.
  - intros k x H Hk. apply list_lookup_insert_Some in H as [(-> & -> & _)|[_ H]]; [done|by apply (T3 k)].
  - apply Forall_insert; [done|]. intros m Hm. congruence.
  - rewrite (table_bytes_insert _ _ _ _ Hb). unfold buf_bytes at 3. rewrite Hb'. destruct T5 as [-> T5]. split; [lia|].
    enough (0 <= buf_bytes b) by lia. unfold buf_bytes. destruct (lb_cpu b) as [m|] eqn:E; [|done].
    destruct (Forall_lookup_1 _ _ _ _ T4 Hb m E) as (_ & _ & ? & _). lia.
  - intros k k' x x' j [(_ & _ & ?)|[_ H1]]%occupied_insert [(_ & _ & ?)|[_ H2]]%occupied_insert Hj Hj'; [done..|].
    by apply (T6 k k' x x' j).
  - intros k x j [(_ & _ & ?)|[Hne H1]]%occupied_insert Hj; [done|]. rewrite Hd decide_False; [by apply (T7 k x)|].
    intros [Hc Hp]. apply Hne. apply (T6 k i x b j); [done|by split|done|done].
  - intros j Hj. rewrite Hd. destruct (decide (lb_cpu b <> None /\ buf_page b j)) as [[Hc Hp]|Hn].
    + symmetry. apply (T7 i b j); [by split|done].
    + apply T8. intros k x Ho Hp. destruct (decide (k = i)) as [->|Hne].
      * destruct Ho as [Hx Hc]. rewrite Hb in Hx. injection Hx as <-. by apply Hn.
      * apply (Hj k x); [by apply occupied_keep|done].
  - done.
Qed.

(** A free entry filled. *)
Lemma table_fill g i b dma size d' :
  table_ok d0 g -> g_bufs g !! i = Some b -> lb_cpu b = None -> Z.of_nat i <= g_allocated g ->
  dma_alloc (l_dom (g_fw g)) size = Some (dma, d') -> Z.land dma (SZ_16K - 1) = 0 ->
  0 < size <= SZ_2M -> size mod P = 0 -> g_bytes g + size <= ANE_LEGACY_BYTES ->
  table_ok d0 (set_table (set_dom d' (g_fw g))
    (<[i := LegacyBuffer (Some (replicate (Z.to_nat size) 0)) dma size]> (g_bufs g)) (Some i)
    (if Z.of_nat i =? g_allocated g then u32 (g_allocated g + 1) else g_allocated g) (u64 (g_bytes g + size)) g).
Proof using HD.
  intros [T1 T2 T3 T4 T5 T6 T7 T8 T9] Hb Hfree Hi Ha Hal Hsz Hmod Hbud.
  set (b' := LegacyBuffer _ dma size).
  assert ((i < length (g_bufs g))%nat) as Hil by (apply lookup_lt_Some in Hb; lia).
  unfold zlen, ANE_LEGACY_ALLOCS in *.
  assert (0 <= g_bytes g) as H0 by (destruct T5 as [-> _]; by apply table_bytes_nonneg).
  destruct (dma_alloc_pages _ _ _ _ Ha) as [Hin Hout]. destruct (dma_alloc_addr _ _ _ _ Ha) as [Hp Htop].
  rewrite dma_pages_exact in Hin, Hout, Htop; [|done..].
  assert (size = size / P * P) as Esz by (rewrite Z.mul_comm; by apply Z.div_exact).
  assert (dma mod P = 0) as Hdm.
  { change (SZ_16K - 1) with (2 ^ 14 - 1) in Hal. rewrite land_mask_mod in Hal; done. }
  assert (P <= dma) as Hdp.
  { apply Z.div_exact in Hdm; [|done]. change P with 16384 in *. lia. }
  assert (forall k x j, occupied g k x -> buf_page x j -> ~ buf_page b' j) as Hnew.
  { intros k x j Ho Hj Hj'. destruct (T7 k x j Ho Hj) as [_ [p Hpp]]. destruct (Hin j Hj') as [Hnone _]. congruence. }
  split; cbn [g_bufs g_allocated g_bytes g_fw set_table l_dom set_dom].
  - unfold zlen. by rewrite length_insert.
  - unfold wrap, ANE_LEGACY_ALLOCS. destruct (Z.eqb_spec (Z.of_nat i) (g_allocated g)); [rewrite Z.mod_small; lia|lia].
  - intros k x H Hk. apply list_lookup_insert_Some in H as [(-> & -> & _)|[Hne H]].
    + unfold wrap in Hk. destruct (Z.eqb_spec (Z.of_nat k) (g_allocated g)); [rewrite Z.mod_small in Hk; lia|lia].
    + apply (T3 k); [done|]. unfold wrap in Hk.
      destruct (Z.eqb_spec (Z.of_nat i) (g_allocated g)); [rewrite Z.mod_small in Hk; lia|lia].
  - apply Forall_insert; [done|]. intros m [= <-]. cbn [lb_size lb_dma b'].
    rewrite zlen_replicate Z2Nat.id; [|lia]. split; [done|]. split; [apply Forall_replicate; unfold byte_ok; lia|].
    split; [done|]. split; [done|]. split; [done|]. split; [lia|done].
  - rewrite (table_bytes_insert _ _ _ _ Hb). unfold buf_bytes. rewrite Hfree. cbn [lb_cpu lb_size b'].
    destruct T5 as [T5 _]. unfold wrap, ANE_LEGACY_BYTES in *. rewrite Z.mod_small; lia.
  - intros k k' x x' j [(-> & -> & _)|[Hne H1]]%occupied_insert [(-> & -> & _)|[Hne' H2]]%occupied_insert Hj Hj'.
    + done.
    + by destruct (Hnew _ _ _ H2 Hj').
    + by destruct (Hnew _ _ _ H1 Hj).
    + by apply (T6 k k' x x' j).
  - intros k x j [(-> & -> & _)|[Hne H1]]%occupied_insert Hj.
    + destruct (Hin j Hj) as (Hnone & p & -> & _). split; [|done]. rewrite -T8; [done|].
      intros k' x' Ho Hj'. by apply (Hnew k' x' j).
    + rewrite Hout; [by apply (T7 k x)|]. by apply (Hnew k x).
  - intros j Hj. rewrite Hout.
    + apply T8. intros k x Ho Hp'. apply (Hj k x); [|done]. apply occupied_keep; [|done].
      intros ->. destruct Ho as [Hx Hc]. congruence.
    + apply (Hj i b'). split; [|done]. cbn. by rewrite list_lookup_insert_eq.
  - done.
Qed.
End table.

(** ** Every operation keeps the invariant, whatever the firmware does *)

Lemma channel_ok ch :
  0 <= ch < 8 ->
  0 <= cs_off (layout ch) /\ 0 < cs_size (layout ch) < 0x1000 /\
  cs_off (layout ch) + cs_size (layout ch) * 64 <= ANE_T6021_CHMAN_TOTAL.
Proof.
  intros Hch.
  assert (Forall (fun s => 0 <= cs_off s /\ 0 < cs_size s < 0x1000 /\ cs_off s + cs_size s * 64 <= ANE_T6021_CHMAN_TOTAL)
    ane_t6021_chman_layout) as Hall by vm_decide.
  unfold layout. destruct (ane_t6021_chman_layout !! Z.to_nat ch) as [s|] eqn:E.
  - exact (Forall_lookup_1 _ _ _ _ Hall E).
  - apply lookup_ge_None in E. cbn in E. lia.
Qed.

Lemma slot_bound ch c :
  0 <= ch < 8 -> 0 <= c < cs_size (layout ch) ->
  0 <= cs_off (layout ch) + c * 64 /\ cs_off (layout ch) + c * 64 + 64 <= ANE_T6021_CHMAN_TOTAL.
Proof. intros Hch Hc. pose proof (channel_ok ch Hch). lia. Qed.

Lemma next_cursor ch c : 0 <= ch < 8 -> 0 <= (c + 1) mod cs_size (layout ch) < cs_size (layout ch).
Proof. intros Hch. apply Z.mod_pos_bound. pose proof (channel_ok ch Hch). lia. Qed.

Lemma strncmp_total m off s n :
  0 <= off -> off + Z.of_nat n <= zlen m -> (length s <= n)%nat -> last s = Some 0 ->
  exists b, strncmp_eq m off s n = Ret b.
Proof.
  revert off n. induction s as [|x s IH]; intros off n Ho Hl Hs Hlast; [done|]. destruct n as [|n]; [cbn in Hs; lia|].
  cbn [strncmp_eq]. rewrite rd8_eq; [|lia]. cbn [mbind res_bind]. destruct (negb _) eqn:E; [by exists false|].
  destruct (Z.eqb_spec (byte_at m off) 0) as [|Hnz]; [by exists true|]. apply negb_false_iff, Z.eqb_eq in E.
  apply IH; [lia|lia|cbn in Hs; lia|]. destruct s; [|done]. cbn in Hlast. congruence.
Qed.

Lemma names_ok : Forall (fun s => (length (c_string (cs_name s)) <= 64)%nat /\ last (c_string (cs_name s)) = Some 0)
  ane_t6021_chman_layout.
Proof. vm_decide. Qed.

Lemma entry_total m i dva :
  ANE_T6021_CHMAN_TOTAL <= zlen m -> 0 <= i < 8 -> exists b, ane_t6021_chman_entry_ok m i dva = Ret b.
Proof.
  intros Hz Hi. unfold ANE_T6021_CHMAN_TOTAL in Hz. unfold ane_t6021_chman_entry_ok, ANE_T6021_CHMAN_ENTRY_SIZE.
  assert ((length (c_string (cs_name (layout i))) <= 64)%nat /\ last (c_string (cs_name (layout i))) = Some 0) as [Hn Hl].
  { unfold layout. destruct (ane_t6021_chman_layout !! Z.to_nat i) eqn:E; [exact (Forall_lookup_1 _ _ _ _ names_ok E)|].
    apply lookup_ge_None in E; cbn in E; lia. }
  destruct (strncmp_total m (i * 0x100) (c_string (cs_name (layout i))) (Z.to_nat ANE_T6021_CHMAN_NAME_LEN)) as [nm ->];
    [lia|unfold ANE_T6021_CHMAN_NAME_LEN; lia|done|done|].
  cbn [mbind res_bind]. destruct nm; cbn [negb]; [|by exists false].
  rewrite !le32_eq; [|lia..]. rewrite !le64_eq; [|lia..]. cbn. by eexists.
Qed.

Lemma check_total m dva : ANE_T6021_CHMAN_TOTAL <= zlen m -> exists bad, ane_t6021_chman_check m dva = Ret bad.
Proof.
  intros Hz. unfold ane_t6021_chman_check.
  assert (Forall (fun i => 0 <= i < 8) (seqZ 0 ANE_T6021_CHMAN_COUNT)) as Hall by vm_decide.
  revert Hall. generalize (seqZ 0 ANE_T6021_CHMAN_COUNT). intros l.
  match goal with |- _ -> exists _, foldM ?f _ _ = _ => enough (forall acc, Forall (fun i => 0 <= i < 8) l ->
    exists bad, foldM f acc l = Ret bad) as H by apply H end.
  induction l as [|i l IH]; intros acc Hl; [by exists acc|]. apply Forall_cons in Hl as [Hi Hl]. cbn [foldM].
  destruct (entry_total m i dva Hz Hi) as [b ->]. cbn [mbind res_bind]. by apply IH.
Qed.

Section safe.
Context `{HI : Iommu} {HC : DmaCoherent} `{HD : !DmaLaws} {HF : Firmware} `{HFL : !FirmwareLaws}.
Context (d0 : domain) (c : option nat).

Definition I (g : rtclient) : Prop := chan_inv d0 g /\ g_cmd_buf g = c.

Lemma emit_inv e : triple I (emit e) (fun _ => I).
Proof using. apply triple_modify. intros g [Hg Hc]. split; [by apply inv_log|done]. Qed.

Lemma fw_act_inv : triple I fw_act (fun _ => I).
Proof using HFL.
  apply triple_modify. intros g [Hg Hc]. split; [|done]. apply inv_mem; [apply fw_ipc_len| |  |done].
  - apply fw_ipc_bytes, sf_bytes. by apply (inv_surface d0).
  - apply Forall2_same_length_lookup_2; [by rewrite length_imap|]. intros i b b' Hb Hb'.
    rewrite list_lookup_imap Hb in Hb'. injection Hb' as <-. split; [done|]. split; [done|]. cbn.
    destruct (lb_cpu b) as [m|]; cbn; [|done]. split; [apply fw_buf_len|apply fw_buf_bytes].
Qed.

Lemma surface_le64 g off :
  I g -> 0 <= off -> off + 8 <= ANE_T6021_CHMAN_TOTAL -> twp (le64 (g_ipc g) off) (in_range 64).
Proof using. intros [[_ [S1 S2 S3 _] _ _] _] H1 H2. apply wp_le64; [done..|]. rewrite S1. lia. Qed.

Lemma ld64_inv off :
  0 <= off -> off + 8 <= ANE_T6021_CHMAN_TOTAL -> triple I (ld64 off) (fun v g => I g /\ in_range 64 v).
Proof using HFL.
  intros H1 H2. eapply triple_bind; [apply fw_act_inv|]. intros [].
  eapply triple_bind; [apply (triple_load _ _ (in_range 64)); intros g Hg; by apply surface_le64|]. intros v.
  eapply triple_bind; [apply triple_frame, emit_inv|]. intros []. by apply triple_ret.
Qed.

Lemma st64_inv off v : 0 <= off -> off + 8 <= ANE_T6021_CHMAN_TOTAL -> triple I (st64 off v) (fun _ => I).
Proof using.
  intros H1 H2. eapply triple_bind.
  { apply (triple_lift _ _ (fun _ => True)). intros g [[_ [S1 S2 S3 _] _ _] _]. rewrite put_le64_eq; [done|done|lia]. }
  intros m. cbn. apply (triple_bind _ _ _ (fun _ => I)); [|intros []; apply emit_inv]. apply triple_modify.
  intros g ([Hg Hc] & Hm & _). split; [|done]. pose proof Hg as [_ [S1 S2 S3 _] _ _].
  rewrite put_le64_eq in Hm; [|done|lia]. injection Hm as <-.
  apply inv_mem; [apply zlen_patch; [done|]; rewrite zlen_le_bytes; lia| | |done].
  - apply bytes_ok_patch; [done|]. apply bytes_ok_le_bytes.
  - apply Forall_Forall2_diag, Forall_forall. intros b _. apply same_shape_refl.
Qed.

(** The command buffer. *)
Lemma cmd_mem g i : I g -> c = Some i -> exists b m, g_bufs g !! i = Some b /\ lb_cpu b = Some m /\ zlen m = SZ_16K /\
  bytes_ok m /\ lb_size b = SZ_16K.
Proof using.
  intros [[[] _ _ Hcmd] Hc] Hi. destruct (Hcmd i) as (b & [Hb Hn] & Hs); [congruence|].
  destruct (lb_cpu b) as [m|] eqn:E; [|done]. exists b, m.
  destruct (Forall_lookup_1 _ _ _ _ tb_bufs0 Hb m E) as (Hz & Hok & _). rewrite Hz Hs. done.
Qed.

Lemma ldb16_inv i off : c = Some i -> 0 <= off < 0x1000 -> triple I (ldb16 i off) (fun _ => I).
Proof using HFL.
  intros Hi Ho. eapply triple_bind; [apply fw_act_inv|]. intros [].
  eapply triple_bind.
  { apply (triple_load _ _ (fun _ => True)). intros g Hg. destruct (cmd_mem g i Hg Hi) as (b & m & Hb & Hm & Hz & Hok & _).
    unfold buf_mem. rewrite Hb. destruct b as [cpu dma size]. cbn in Hm. rewrite Hm. cbn [mbind res_bind].
    unfold SZ_16K in Hz. rewrite le16_eq; [done|lia|lia]. }
  intros v. cbn. eapply triple_bind; [eapply triple_conseq; [apply emit_inv|by intros g []|done]|]. intros []. by apply triple_ret.
Qed.

Lemma stb16_inv i off v : c = Some i -> 0 <= off < 0x1000 -> triple I (stb16 i off v) (fun _ => I).
Proof using.
  intros Hi Ho. eapply triple_bind.
  { apply (triple_lift _ _ (fun m' => zlen m' = SZ_16K /\ bytes_ok m')). intros g Hg.
    destruct (cmd_mem g i Hg Hi) as (b & m & Hb & Hm & Hz & Hok & _).
    unfold buf_mem. rewrite Hb. destruct b as [cpu dma size]. cbn in Hm. rewrite Hm. cbn [mbind res_bind].
    unfold SZ_16K in *. rewrite wr8_eq; [|lia]. cbn [mbind res_bind]. rewrite wr8_eq; [|rewrite zlen_insert; lia].
    cbn. rewrite !zlen_insert. split; [done|]. by repeat apply bytes_ok_insert; [|apply byte_ok_u8..]. }
  intros m'. cbn. apply (triple_bind _ _ _ (fun _ => I)); [|intros []; apply emit_inv]. apply triple_modify.
  intros g (Hg & _ & Hz & Hok). destruct (cmd_mem g i Hg Hi) as (b & m & Hb & Hm & Hzm & _). destruct Hg as [Hg Hc].
  split; [|done]. apply inv_mem; [done|by apply (sf_bytes g), (inv_surface d0)| |done].
  apply Forall2_same_length_lookup_2; [by rewrite length_alter|]. intros k x y Hx Hy.
  destruct (decide (k = i)) as [->|Hne].
  - rewrite list_lookup_alter_eq Hx in Hy. injection Hy as <-. rewrite Hb in Hx. injection Hx as <-. split; [done|].
    split; [done|]. rewrite Hm. cbn. by rewrite Hzm.
  - rewrite list_lookup_alter_ne // in Hy. rewrite Hx in Hy. injection Hy as <-. apply same_shape_refl.
Qed.

(** The table may change, the rest stays. *)
Lemma inv_set_table g f i b' last al bts :
  chan_inv d0 g -> table_ok d0 (set_table f (<[i := b']> (g_bufs g)) last al bts g) ->
  (forall k, last = Some k -> Z.of_nat k < ANE_LEGACY_ALLOCS) -> g_cmd_buf g <> Some i ->
  chan_inv d0 (set_table f (<[i := b']> (g_bufs g)) last al bts g).
Proof using.
  intros [_ [] [C1 C2 C3 C4] I4] Ht Hl Hc. split; [done|by split|by split|].
  intros k Hk. change (g_cmd_buf g = Some k) in Hk. destruct (I4 k Hk) as (b & Ho & Hs). exists b. split; [|done]. apply occupied_keep; [|done]. congruence.
Qed.

Lemma free_not_cmd g i b : chan_inv d0 g -> g_bufs g !! i = Some b -> lb_cpu b = None -> g_cmd_buf g <> Some i.
Proof using.
  intros [_ _ _ I4] Hb Hn Hc. destruct (I4 i Hc) as (x & [Hx Hxc] & _). congruence.
Qed.

(** The entry the pick names is free. *)
Lemma pick_spec g :
  chan_inv d0 g -> exists r, ane_legtab_pick (g_bufs g) (g_allocated g) ANE_LEGACY_ALLOCS = Ret r /\
    forall i, r = Some i -> exists b, g_bufs g !! i = Some b /\ lb_cpu b = None /\ Z.of_nat i <= g_allocated g.
Proof using.
  intros [[T1 T2 T3 _ _ _ _ _ _] _ _ _]. unfold ane_legtab_pick, zlen, ANE_LEGACY_ALLOCS in *.
  destruct (legtab_scan_spec (fun _ b => bool_decide (lb_cpu b = None)) (g_bufs g) (Z.to_nat (g_allocated g)) 0) as (r & -> & Hr);
    [lia|]. cbn [mbind res_bind]. eexists. split; [reflexivity|]. intros i Hi. destruct r as [k|].
  - injection Hi as ->. destruct Hr as [Hk (b & Hb & Hp)]. exists b. split; [done|].
    apply bool_decide_eq_true in Hp. split; [done|lia].
  - destruct (Z.ltb_spec (g_allocated g) 8192) as [Hlt|]; [|done]. injection Hi as <-.
    destruct (lookup_lt_is_Some_2 (g_bufs g) (Z.to_nat (g_allocated g))) as [b Hb]; [lia|].
    exists b. split; [done|]. split; [|lia]. apply (T3 _ _ Hb). lia.
Qed.

Lemma legacy_alloc_inv size :
  in_range 64 size -> triple I (ane_rtclient_legacy_alloc size) (fun _ => I).
Proof using HD.
  intros Hsize g [Hg Hc]. unfold ane_rtclient_legacy_alloc, bind, get. cbn [mbind res_bind].
  pose proof (inv_table _ _ Hg) as HT. pose proof HT as [T1 T2 T3 T4 [T5 T5'] T6 T7 T8 T9].
  assert (0 <= g_bytes g) as H0 by (rewrite T5; by apply table_bytes_nonneg).
  assert (u64 (ANE_LEGACY_BYTES - g_bytes g) = ANE_LEGACY_BYTES - g_bytes g) as ->.
  { unfold wrap. apply Z.mod_small. unfold ANE_LEGACY_BYTES in *. lia. }
  destruct (_ || _) eqn:Eg; [by split|].
  apply orb_false_iff in Eg as [Eg E4]. apply orb_false_iff in Eg as [Eg E3]. apply orb_false_iff in Eg as [E1 E2].
  apply negb_false_iff, Z.eqb_eq in E2. unfold in_range in Hsize.
  assert (size mod P = 0) as Hmod.
  { change (SZ_16K - 1) with (2 ^ 14 - 1) in E2. rewrite land_mask_mod in E2; done. }
  destruct (pick_spec g Hg) as (r & Er & Hr). unfold lift. rewrite Er. cbn [mbind res_bind].
  destruct r as [i|]; [|by split]. destruct (Hr i eq_refl) as (b & Hb & Hfree & Hi).
  assert (g_cmd_buf g <> Some i) as Hnc by by eapply free_not_cmd.
  destruct (dma_alloc (l_dom (g_fw g)) size) as [[dma d']|] eqn:Ea; [|by split]. rewrite Hb.
  destruct (_ || _) eqn:Ebad.
  - split; [|done]. apply inv_set_table; [done| |apply (cu_last g), (inv_cursors d0); done|done].
    replace (g_bytes g) with (g_bytes g - buf_bytes b) by (unfold buf_bytes; rewrite Hfree; lia).
    apply table_clear; [done..|]. intros j. rewrite decide_False; [|by intros [? _]].
    destruct (dma_alloc_pages _ _ _ _ Ea) as [Hin Hout].
    destruct (decide (page_of dma (dma_pages size) j)) as [Hj|Hj].
    + rewrite dma_free_pages; [|done]. by destruct (Hin j Hj) as [-> _].
    + rewrite dma_free_other; [|done]. by apply Hout.
  - apply orb_false_iff in Ebad as [Eal _]. apply negb_false_iff, Z.eqb_eq in Eal. split; [|done].
    apply inv_set_table; [done| | |done].
    + eapply table_fill; try done; lia.
    + intros k [= <-]. apply lookup_lt_Some in Hb. unfold zlen, ANE_LEGACY_ALLOCS in *. lia.
Qed.

(** The entry a FREE releases is occupied, and not the command buffer. *)
Lemma legtab_find_spec g dma :
  chan_inv d0 g -> exists r, ane_legtab_find (g_bufs g) (g_allocated g) dma (g_cmd_buf g) = Ret r /\
    forall i, r = Some i -> exists b, occupied g i b /\ lb_dma b = dma /\ g_cmd_buf g <> Some i.
Proof using.
  intros [[T1 T2 _ _ _ _ _ _ _] _ _ _]. unfold ane_legtab_find, zlen, ANE_LEGACY_ALLOCS in *.
  edestruct (legtab_scan_spec (fun i b => bool_decide (lb_cpu b <> None) && (lb_dma b =? dma) && bool_decide (g_cmd_buf g <> Some i))
    (g_bufs g) (Z.to_nat (g_allocated g)) 0) as (r & -> & Hr); [lia|]. exists r. split; [done|].
  intros i ->. destruct Hr as (_ & b & Hb & Hp). exists b.
  apply andb_true_iff in Hp as [[H1 H2]%andb_true_iff H3]. apply bool_decide_eq_true in H1, H3. split; [by split|]. split; [lia|done].
Qed.

Lemma release_buf_inv i :
  triple (fun g => I g /\ exists b, occupied g i b /\ g_cmd_buf g <> Some i) (release_buf i) (fun _ => I).
Proof using HD.
  intros g ([Hg Hc] & b & [Hb Hoc] & Hnc). unfold release_buf. rewrite Hb.
  pose proof (inv_table _ _ Hg) as HT. pose proof HT as [T1 T2 T3 T4 [T5 T5'] T6 T7 T8 T9].
  assert (lb_size b mod P = 0 /\ 0 <= g_bytes g - lb_size b) as [Hmod Hge].
  { destruct (lb_cpu b) as [m|] eqn:E; [|done]. destruct (Forall_lookup_1 _ _ _ _ T4 Hb m E) as (_ & _ & _ & ? & _).
    split; [done|]. pose proof (table_bytes_ge _ _ _ T4 Hb ltac:(congruence)). lia. }
  split; [|done]. apply inv_log. apply inv_set_table; [done| |apply (cu_last g), (inv_cursors d0); done|done].
  assert (buf_bytes b = lb_size b) as Eb by (unfold buf_bytes; by destruct (lb_cpu b)).
  replace (u64 (g_bytes g - lb_size b)) with (g_bytes g - buf_bytes b).
  2: { rewrite Eb. unfold wrap. rewrite Z.mod_small; [done|]. unfold ANE_LEGACY_BYTES in T5'.
       destruct (lb_cpu b) as [m|] eqn:E; [|done]. destruct (Forall_lookup_1 _ _ _ _ T4 Hb m E) as (_ & _ & ? & _). lia. }
  apply table_clear; [done..|]. intros j. destruct (decide (lb_cpu b <> None /\ buf_page b j)) as [[_ Hj]|Hn].
  - by apply dma_free_in.
  - apply dma_free_out; [done|]. intros Hj. by apply Hn.
Qed.

(** A value known to satisfy [φ] is carried through. *)
Lemma seq_inv {A B} (m : M A) (k : A -> M B) (φ : A -> Prop) Q :
  triple I m (fun a g => I g /\ φ a) -> (forall a, φ a -> triple I (k a) Q) -> triple I (bind m k) Q.
Proof using. intros Hm Hk. eapply triple_bind; [exact Hm|]. intros a. apply triple_pure, Hk. Qed.

Lemma then_inv {A B} (m : M A) (k : M B) Q : triple I m (fun _ => I) -> triple I k Q -> triple I (bind m (fun _ => k)) Q.
Proof using. intros Hm Hk. eapply triple_bind; [exact Hm|]. done. Qed.

Lemma get_inv {A B} (f : rtclient -> A) (k : A -> M B) Q :
  (forall g, I g -> triple (fun g' => g' = g) (k (f g)) Q) -> triple I (bind (get f) k) Q.
Proof using. intros H g Hg. exact (H g Hg g eq_refl). Qed.

Lemma at_state {A} g (m : M A) Q : I g -> triple I m Q -> triple (fun g' => g' = g) m Q.
Proof using. intros Hg Hm g' ->. by apply Hm. Qed.

(** Reading a field whose value satisfies [φ] in every good state. *)
Lemma get_seq {A B} (f : rtclient -> A) (φ : A -> Prop) (k : A -> M B) Q :
  (forall g, I g -> φ (f g)) -> (forall a, φ a -> triple I (k a) Q) -> triple I (bind (get f) k) Q.
Proof using. intros Hf Hk. apply get_inv. intros g Hg. apply at_state; [done|]. by apply Hk, Hf. Qed.

Lemma lift_seq {A B} (r : rtclient -> res A) (φ : A -> Prop) (k : A -> M B) Q :
  (forall g, I g -> twp (r g) φ) -> (forall a, φ a -> triple I (k a) Q) -> triple I (bind (lift r) k) Q.
Proof using. intros Hr Hk. eapply seq_inv; [by apply triple_load|done]. Qed.

Lemma ret_inv {A} (a : A) (Q : A -> rtclient -> Prop) : (forall g, I g -> Q a g) -> triple I (ret a) Q.
Proof using. apply triple_ret. Qed.

Lemma ld_seq {B} off (k : Z -> M B) Q :
  0 <= off -> off + 8 <= ANE_T6021_CHMAN_TOTAL -> (forall v, in_range 64 v -> triple I (k v) Q) ->
  triple I (bind (ld64 off) k) Q.
Proof using HFL. intros H1 H2. apply seq_inv. by apply ld64_inv. Qed.

Abbreviation served_ok := (fun (r : Z * (bool + errno)) g => I g /\ 0 <= r.1 < cs_size (layout 5)).

Ltac step :=
  first [ apply then_inv; [first [apply emit_inv | apply st64_inv; lia]|]
        | apply ld_seq; [lia|lia|intros ? ?] ].

Lemma service_inv cursor :
  0 <= cursor < cs_size (layout 5) -> triple I (ane_rtclient_malloc_service cursor) served_ok.
Proof using HD HFL.
  intros Hcur. unfold ane_rtclient_malloc_service.
  pose proof (slot_bound 5 cursor ltac:(lia) Hcur) as Hb. pose proof (next_cursor 5 cursor ltac:(lia)) as Hnext.
  assert (mslot cursor = cs_off (layout 5) + cursor * 64) as -> by (unfold mslot; lia).
  set (slot := _ + _) in *. set (next := _ mod _) in *.
  assert (forall r, triple I (ret (cursor, r)) served_ok) as Hret by (intros r; apply ret_inv; intros g Hg; by split).
  assert (forall r, triple I (ret (next, r)) served_ok) as Hret' by (intros r; apply ret_inv; intros g Hg; by split).
  step. destruct (negb _); [apply Hret|]. step. step. step. destruct (ane_t6021_mring_classify _ _ _); [apply Hret| | |apply Hret..].
  - eapply triple_bind; [by apply legacy_alloc_inv|]. intros [e|]; [apply Hret|].
    apply (get_seq _ (fun l => Z.of_nat (default 0%nat l) < ANE_LEGACY_ALLOCS)).
    { intros g [[_ _ [_ _ _ C4] _] _]. destruct (g_last g) as [i|]; [by apply C4|done]. }
    intros l Hl. apply (lift_seq _ (fun _ => True)).
    { intros g [[[T1 _ _ _ _ _ _ _ _] _ _ _] _]. unfold zlen in T1.
      destruct (lookup_lt_is_Some_2 (g_bufs g) (default 0%nat l)) as [b ->]; [lia|done]. }
    intros dma _. repeat step. apply Hret'.
  - repeat step. intros g Hg. unfold bind, lift at 1. destruct (legtab_find_spec g v) as (r & Er & Hr); [by destruct Hg|].
    rewrite Er. cbn [mbind res_bind]. destruct r as [i|].
    + destruct (Hr i eq_refl) as (b & Ho & _ & Hnc).
      apply (triple_bind _ _ _ (fun _ => I) served_ok (release_buf_inv i)); [intros []; apply Hret'|].
      split; [done|]. by exists b.
    + by split.
Qed.

Lemma settle_quiet_inv n cursor :
  0 <= cursor < cs_size (layout 5) -> triple I (settle_quiet n cursor) served_ok.
Proof using HD HFL.
  revert cursor. induction n as [|n IH]; intros cursor Hc; cbn [settle_quiet].
  { apply ret_inv. intros g Hg. by split. }
  apply (seq_inv _ _ (fun r => 0 <= r.1 < cs_size (layout 5))); [by apply service_inv|].
  intros [cu [[]|e]] Hcu; [apply ret_inv; intros g Hg; by split|by apply IH|apply ret_inv; intros g Hg; by split].
Qed.

Abbreviation cursor_ok := (fun (r : Z * option errno) g => I g /\ 0 <= r.1 < cs_size (layout 5)).

Lemma settle_inv left cursor :
  0 <= cursor < cs_size (layout 5) -> triple I (settle left cursor) cursor_ok.
Proof using HD HFL.
  revert cursor. induction left as [|left IH]; intros cursor Hc; cbn [settle];
    (apply (get_seq _ (fun _ => True)); [done|]; intros n _;
     apply (seq_inv _ _ (fun r => 0 <= r.1 < cs_size (layout 5))); [by apply settle_quiet_inv|];
     intros [cu [[]|e]] Hcu); try (apply ret_inv; intros g Hg; by split).
  by apply IH.
Qed.

Lemma set_malloc_cursor_inv cu : 0 <= cu < cs_size (layout 5) -> triple I (modify (set_malloc_cursor cu)) (fun _ => I).
Proof using. intros Hc. apply triple_modify. intros g [Hg Hcc]. split; [by apply inv_malloc_cursor|done]. Qed.

Lemma malloc_cursor_ok g : I g -> 0 <= g_malloc_cursor g < cs_size (layout 5).
Proof using. intros [[_ _ [C1 _ _ _] _] _]. exact C1. Qed.

Lemma malloc_settle_inv : triple I ane_rtclient_malloc_settle (fun _ => I).
Proof using HD HFL.
  apply (get_seq _ (fun cu => 0 <= cu < cs_size (layout 5))); [apply malloc_cursor_ok|]. intros cu Hcu.
  apply (seq_inv _ _ (fun r => 0 <= r.1 < cs_size (layout 5))); [by apply settle_inv|]. intros [cu' e] Hcu'.
  apply then_inv; [by apply set_malloc_cursor_inv|]. by apply ret_inv.
Qed.

Lemma pre_serve_inv n cursor : 0 <= cursor < cs_size (layout 5) -> triple I (pre_serve n cursor) cursor_ok.
Proof using HD HFL.
  revert cursor. induction n as [|n IH]; intros cursor Hc; cbn [pre_serve].
  { apply ret_inv. intros g Hg. by split. }
  apply (seq_inv _ _ (fun r => 0 <= r.1 < cs_size (layout 5))); [by apply service_inv|].
  intros [cu [[]|e]] Hcu; [by apply IH|apply ret_inv; intros g Hg; by split..].
Qed.

Lemma verdict_inv i io header length opcode :
  c = Some i -> 0 <= io -> io + 64 <= ANE_T6021_CHMAN_TOTAL ->
  triple I (exchange_verdict i io header length opcode) (fun _ => I).
Proof using HFL.
  intros Hi H1 H2. unfold exchange_verdict. step. apply (get_seq _ (fun _ => True)); [done|]. intros dma _.
  destruct (negb _); [by apply ret_inv|]. step. destruct (negb _); [by apply ret_inv|]. step.
  destruct (negb _); [by apply ret_inv|]. eapply triple_bind; [by apply ldb16_inv|]. intros op.
  destruct (negb _); [by apply ret_inv|]. eapply triple_bind; [by apply ldb16_inv|]. intros st. by apply ret_inv.
Qed.

Lemma set_cmd_cursor_inv ch f :
  0 <= ch < 8 -> (forall g, I g -> 0 <= f g < cs_size (layout ch)) ->
  triple I (modify (fun g => set_cmd_cursor ch (f g) g)) (fun _ => I).
Proof using. intros Hch Hf. apply triple_modify. intros g Hg. pose proof (Hf g Hg). destruct Hg. split; [by apply inv_cmd_cursor|done]. Qed.

Lemma exchange_poll_inv n i io length opcode ch cursor :
  c = Some i -> 0 <= io -> io + 64 <= ANE_T6021_CHMAN_TOTAL -> 0 <= ch < 8 -> 0 <= cursor < cs_size (layout 5) ->
  triple I (exchange_poll n i io length opcode ch cursor) cursor_ok.
Proof using HD HFL.
  intros Hi H1 H2 Hch. revert cursor. induction n as [|n IH]; intros cursor Hcur; cbn [exchange_poll].
  { step. apply ret_inv. intros g Hg. by split. }
  apply (get_seq _ (fun _ => True)); [done|]. intros pending _. step.
  apply then_inv. { destruct (negb _); [step; apply emit_inv|by apply ret_inv]. }
  step. apply (seq_inv _ _ (fun r => 0 <= r.1 < cs_size (layout 5))).
  { destruct (_ =? 0); [by apply service_inv|]. apply ret_inv. intros g Hg. by split. }
  intros [cu [b|e]] Hcu; [|apply ret_inv; intros g Hg; by split]. step. destruct (negb _); [|by apply IH].
  eapply triple_bind; [by apply verdict_inv|]. intros r.
  apply then_inv; [|apply ret_inv; intros g Hg; by split].
  apply set_cmd_cursor_inv; [done|]. intros g _. by apply next_cursor.
Qed.

Lemma cmd_cursor_ok ch g : 0 <= ch < 8 -> I g -> 0 <= default 0 (g_cmd_cursor g !! Z.to_nat ch) < cs_size (layout ch).
Proof using.
  intros Hch [[_ _ [_ C2 C3 _] _] _].
  destruct (lookup_lt_is_Some_2 (g_cmd_cursor g) (Z.to_nat ch)) as [cu E]; [lia|]. rewrite E.
  pose proof (C3 _ _ E) as H. by rewrite Z2Nat.id in H; [|lia].
Qed.

Lemma check_twp g : I g -> twp (ane_t6021_chman_check (g_ipc g) (g_ipc_iova g)) (fun _ => True).
Proof using.
  intros [[_ [S1 _ S3 _] _ _] _]. destruct (check_total (g_ipc g) (g_ipc_iova g)) as [bad ->]; [rewrite S1; lia|done].
Qed.

Lemma exchange_inv i length opcode ch :
  c = Some i -> 0 <= ch -> triple I (ane_rtclient_legacy_exchange i length opcode ch) (fun _ => I).
Proof using HD HFL.
  intros Hi Hch0. unfold ane_rtclient_legacy_exchange. apply (get_seq _ (fun _ => True)); [done|]. intros ready _.
  destruct (negb ready); [by apply ret_inv|]. apply then_inv; [apply fw_act_inv|].
  apply (lift_seq _ (fun _ => True)); [apply check_twp|]. intros bad _. destruct (negb _); [by apply ret_inv|].
  apply (get_seq _ (fun cu => 0 <= cu < cs_size (layout 5))); [apply malloc_cursor_ok|]. intros cursor Hcur.
  apply (get_seq _ (fun _ => True)); [done|]. intros buf _.
  destruct (_ || (ch >=? ANE_T6021_CHMAN_COUNT)) eqn:Eg; [by apply ret_inv|].
  apply orb_false_iff in Eg as [_ Ech]. assert (0 <= ch < 8) as Hch by (unfold ANE_T6021_CHMAN_COUNT in Ech; lia).
  apply (get_seq _ (fun cu => 0 <= cu < cs_size (layout ch))); [intros g Hg; by apply cmd_cursor_ok|]. intros cur Hcu.
  destruct (slot_bound ch cur Hch Hcu) as [Hio1 Hio2]. set (io := _ + cur * 64) in *. step.
  destruct (_ =? 0); [by apply ret_inv|]. apply (seq_inv _ _ (fun r => 0 <= r.1 < cs_size (layout 5))); [by apply pre_serve_inv|].
  intros [cu [e|]] Hcur'.
  { apply then_inv; [by apply set_malloc_cursor_inv|by apply ret_inv]. }
  apply then_inv; [by apply stb16_inv|]. repeat step. apply (get_seq _ (fun _ => True)); [done|]. intros n _.
  apply (seq_inv _ _ (fun r => 0 <= r.1 < cs_size (layout 5))); [by apply exchange_poll_inv|]. intros [cu' r] Hcu'.
  apply then_inv; [by apply set_malloc_cursor_inv|by apply ret_inv].
Qed.

(** Where a payload may be read. *)
Definition place_ok (p : place) (g : rtclient) : Prop :=
  match p with
  | InBuf i off => exists b, occupied g i b /\ 0 <= off /\ off + 0x20 <= lb_size b
  | InIpc off => 0 <= off /\ off + 0x20 <= g_ipc_size g
  end.

Lemma fw_cpu_spec g iova :
  I g -> in_range 64 iova -> exists r, ane_rtclient_fw_cpu iova (ANE_T2H_CALL_STATE_OFF + 4) g = Ret r /\
    forall p, r = Some p -> place_ok p g.
Proof using.
  intros [[[T1 T2 _ T4 _ _ _ _ _] [S1 _ S3 S4] _ _] _] Hv. unfold ane_rtclient_fw_cpu, zlen, ANE_LEGACY_ALLOCS in *.
  change (ANE_T2H_CALL_STATE_OFF + 4) with 0x20. unfold in_range in Hv.
  assert (forall base size, P <= base -> (iova >=? base) = true -> (u64 (u64 (iova - base) + 0x20) <=? size) = true ->
    0 <= u64 (iova - base) /\ u64 (iova - base) + 0x20 <= size) as Hw.
  { intros base size Hb Hge Hle. change P with 16384 in Hb. unfold wrap in *.
    rewrite (Z.mod_small (iova - base)) in Hle |- *; [|lia]. rewrite Z.mod_small in Hle; lia. }
  edestruct (legtab_scan_spec (fun _ b => bool_decide (lb_cpu b <> None) && (iova >=? lb_dma b) &&
    (u64 (u64 (iova - lb_dma b) + 0x20) <=? lb_size b)) (g_bufs g) (Z.to_nat (g_allocated g)) 0) as (r & -> & Hr); [lia|].
  cbn [mbind res_bind]. eexists. split; [reflexivity|]. intros p Hp. destruct r as [i|].
  - injection Hp as <-. destruct Hr as (_ & b & Hb & Ht). rewrite Hb. cbn [default].
    apply andb_true_iff in Ht as [[H1 H2]%andb_true_iff H3]. apply bool_decide_eq_true in H1.
    destruct (lb_cpu b) as [m|] eqn:E; [|done]. destruct (Forall_lookup_1 _ _ _ _ T4 Hb m E) as (_ & _ & _ & _ & Hd & _).
    exists b. split; [split; [done|congruence]|]. by apply Hw.
  - destruct (_ && _) eqn:Ei; [|done]. injection Hp as <-. apply andb_true_iff in Ei as [H1 H2]. cbn. apply Hw; [lia|done..].
Qed.

Lemma fw_act_place p : triple (fun g => I g /\ place_ok p g) fw_act (fun _ g => I g /\ place_ok p g).
Proof using HFL.
  intros g [Hg Hp]. split; [by apply fw_act_inv|]. destruct p as [i off|off]; [|done].
  destruct Hp as (b & [Hb Hc] & Ho). eexists. split; [split; [cbn; by rewrite list_lookup_imap Hb|]|exact Ho]. cbn.
  by destruct (lb_cpu b).
Qed.

Lemma ld_place_inv (w : bytes -> Z -> res Z) p off :
  (forall m o, bytes_ok m -> 0 <= o -> o + (0x20 - off) <= zlen m -> exists v, w m o = Ret v) -> 0 <= off ->
  triple (fun g => I g /\ place_ok p g) (ld_place w p off) (fun _ g => I g /\ place_ok p g).
Proof using HFL.
  intros Hw Ho. eapply triple_bind; [apply fw_act_place|]. intros []. eapply triple_conseq;
    [apply (triple_load _ _ (fun _ => True))|by intros g Hg; exact Hg|by intros a g []].
  intros g [[[[T1 T2 _ T4 _ _ _ _ _] [S1 S2 S3 S4] _ _] _] Hp]. destruct p as [i o|o]; cbn [place_mem].
  - destruct Hp as (b & [Hb Hc] & H1 & H2). unfold buf_mem. rewrite Hb. destruct b as [[m|] dma size]; [|done].
    destruct (Forall_lookup_1 _ _ _ _ T4 Hb m eq_refl) as (Hz & Hok & _). cbn [mbind res_bind]. cbn in Hz, H2.
    destruct (Hw m (o + off) Hok) as [v ->]; [lia|lia|done].
  - destruct Hp as [H1 H2]. cbn [mbind res_bind]. destruct (Hw (g_ipc g) (o + off) S2) as [v ->]; [lia|lia|done].
Qed.

Lemma t2h_finished_inv hdr : in_range 64 hdr -> triple I (t2h_finished hdr) (fun _ => I).
Proof using HFL.
  intros Hh g Hg. unfold t2h_finished, bind at 1, lift. destruct (fw_cpu_spec g hdr Hg Hh) as (r & -> & Hr).
  cbn [mbind res_bind]. destruct r as [p|]; [|done].
  assert (forall (v : bool), triple (fun g => I g /\ place_ok p g) (ret v) (fun _ => I)) as Hret by (intros v; apply triple_ret; tauto).
  refine (triple_bind (fun g => I g /\ place_ok p g) _ _ (fun _ g => I g /\ place_ok p g) (fun _ => I) _ _ g (conj Hg (Hr p eq_refl))).
  - apply ld_place_inv; [|done]. intros m o Hm H1 H2. unfold ANE_T2H_CALL_COOKIE_OFF in H2. rewrite le64_eq; [by eexists|done|lia].
  - intros cookie. destruct (cookie =? ANE_CALL_COOKIE); [|apply Hret].
    eapply triple_bind; [apply ld_place_inv; [|done]|intros st; apply Hret].
    intros m o Hm H1 H2. unfold ANE_T2H_CALL_STATE_OFF in H2. rewrite le32_eq; [by eexists|done|lia].
Qed.

Lemma drain_slots_inv n ch slot_i finished :
  0 <= ch < 8 -> 0 <= slot_i < cs_size (layout ch) -> triple I (drain_slots n ch slot_i finished) (fun _ => I).
Proof using HFL.
  intros Hch. revert slot_i finished. induction n as [|n IH]; intros slot_i fin Hs; cbn [drain_slots]; [by apply ret_inv|].
  destruct (slot_bound ch slot_i Hch Hs) as [H1 H2]. set (slot := _ + slot_i * 64) in *. step. step.
  destruct (negb _); [by apply ret_inv|]. step. eapply triple_bind.
  { destruct (_ && _); [by apply t2h_finished_inv|by apply ret_inv]. }
  intros f. repeat step. apply then_inv; [|apply IH; by apply next_cursor].
  apply (set_cmd_cursor_inv ch (fun _ => (slot_i + 1) mod cs_size (layout ch))); [done|]. intros g _. by apply next_cursor.
Qed.

Lemma drain_t2h_inv ch : 0 <= ch < 8 -> triple I (ane_rtclient_drain_t2h ch) (fun _ => I).
Proof using HFL.
  intros Hch. apply (get_seq _ (fun cu => 0 <= cu < cs_size (layout ch))); [intros g Hg; by apply cmd_cursor_ok|].
  intros cu Hcu. by apply drain_slots_inv.
Qed.

Lemma call_wait_inv : triple I ane_rtclient_call_wait (fun _ => I).
Proof using HFL.
  assert (forall n, triple I (call_polls n) (fun _ => I)) as Hp.
  { induction n as [|n IH]; cbn [call_polls]; (eapply triple_bind; [by apply drain_t2h_inv|]); intros []; try by apply ret_inv.
    apply IH. }
  apply (get_seq _ (fun _ => True)); [done|]. intros n _. eapply triple_bind; [apply Hp|]. intros []; [by apply ret_inv|].
  eapply triple_bind; [by apply drain_t2h_inv|]. intros fin. by apply ret_inv.
Qed.

Lemma command_inv stats i length opcode ch :
  c = Some i -> 0 <= ch -> triple I (ane_rtclient_command stats i length opcode ch) (fun _ => I).
Proof using HD HFL.
  intros Hi Hch. unfold ane_rtclient_command. set (sc := stats && _).
  assert (forall e, triple I (if sc then emit e else ret tt) (fun _ => I)) as Hst.
  { intros e. destruct sc; [apply emit_inv|by apply ret_inv]. }
  assert (triple I (modify quarantine) (fun _ => I)) as Hq.
  { apply triple_modify. intros g [Hg Hc]. split; [by apply inv_quarantine|done]. }
  apply then_inv; [apply Hst|]. eapply triple_bind; [by apply exchange_inv|]. intros [e|].
  { apply then_inv; [apply Hst|]. apply then_inv; [done|by apply ret_inv]. }
  eapply triple_bind; [destruct (_ =? _); [apply call_wait_inv|by apply ret_inv]|]. intros [e|].
  { apply then_inv; [apply Hst|]. apply then_inv; [done|by apply ret_inv]. }
  apply then_inv; [apply Hst|]. eapply triple_bind; [by apply drain_t2h_inv|]. intros _f.
  eapply triple_bind; [by apply drain_t2h_inv|]. intros _f'. by apply ret_inv.
Qed.

Lemma validate_inv boot : triple I (ane_rtclient_validate_chman boot) (fun _ => I).
Proof using HFL.
  apply (get_seq _ (fun _ => True)); [done|]. intros size _. destruct (negb boot); [by apply ret_inv|].
  destruct (size <? _); [by apply ret_inv|]. step. apply then_inv; [apply fw_act_inv|].
  apply (lift_seq _ (fun _ => True)); [apply check_twp|]. intros bad _.
  apply triple_modify. intros g [Hg Hc]. split; [by apply inv_chman_ok|done].
Qed.
End safe.

(** ** Traces

    [At h l]: a good state, [l] logged since the start, the table holding [h],
    the command cursors and the address of the command buffer as they were. *)

(** The address and size of the buffer in slot [k]. *)
Definition holds `{Iommu} (g : rtclient) (k : nat) : option (Z * Z) :=
  match g_bufs g !! k with
  | Some (LegacyBuffer (Some _) dma size) => Some (dma, size)
  | _ => None
  end.

Definition upd (h : nat -> option (Z * Z)) (k : nat) (v : option (Z * Z)) : nat -> option (Z * Z) :=
  fun k' => if decide (k' = k) then v else h k'.

Section trace.
Context `{HI : Iommu} {HC : DmaCoherent} `{HD : !DmaLaws} {HF : Firmware} `{HFL : !FirmwareLaws}.
Context (d0 : domain) (i : nat) (dma : Z) (L : list ev) (cursors : list Z).

Definition At (h : nat -> option (Z * Z)) (l : list ev) (g : rtclient) : Prop :=
  I d0 (Some i) g /\ g_log g = L ++ l /\ g_cmd_cursor g = cursors /\
  lb_dma (default no_buffer (g_bufs g !! i)) = dma /\ (forall k, holds g k = h k).

(** A program that keeps the invariant, and of which the rest is known. *)
Lemma triple_at {A} (m : M A) h l (Q : A -> rtclient -> Prop) :
  triple (I d0 (Some i)) m (fun _ => I d0 (Some i)) ->
  (forall g g' a, At h l g -> m g = Ret (g', a) -> I d0 (Some i) g' -> Q a g') -> triple (At h l) m Q.
Proof using.
  intros Hm HQ g Hg. pose proof (Hm g (proj1 Hg)) as H. destruct (m g) as [[g' a]| |] eqn:E; [|done..].
  by apply (HQ g g' a).
Qed.

Lemma emit_at e h l : triple (At h l) (emit e) (fun _ => At h (l ++ [e])).
Proof using.
  apply triple_at; [apply emit_inv|]. intros g g' [] (_ & Hl & Hc & Hd) [= <-] HI'. split; [done|]. cbn.
  by rewrite Hl app_assoc.
Qed.

Lemma fw_act_at h l : triple (At h l) fw_act (fun _ => At h l).
Proof using HFL.
  apply triple_at; [apply fw_act_inv|]. intros g g' [] (_ & Hl & Hc & Hd & Hh) [= <-] HI'. split; [done|]. split; [done|].
  split; [done|]. split.
  - cbn. rewrite list_lookup_imap. by destruct (g_bufs g !! i).
  - intros k. rewrite -Hh. unfold holds. cbn. rewrite list_lookup_imap. by destruct (g_bufs g !! k) as [[[|] ? ?]|].
Qed.

Lemma ld_at off h l :
  0 <= off -> off + 8 <= ANE_T6021_CHMAN_TOTAL ->
  triple (At h l) (ld64 off) (fun v g => At h (l ++ [Ld off v]) g /\ in_range 64 v).
Proof using HFL.
  intros H1 H2. eapply triple_bind; [apply fw_act_at|]. intros [].
  eapply triple_bind; [apply (triple_load _ _ (in_range 64)); intros g [Hg _]; by eapply surface_le64|]. intros v.
  eapply triple_bind; [apply triple_frame, emit_at|]. intros []. by apply triple_ret.
Qed.

Lemma st_at off v h l :
  0 <= off -> off + 8 <= ANE_T6021_CHMAN_TOTAL -> triple (At h l) (st64 off v) (fun _ => At h (l ++ [St off v])).
Proof using.
  intros H1 H2. apply triple_at; [by apply st64_inv|]. intros g g' [] (_ & Hl & Hc & Hd) H HI'. split; [done|].
  unfold st64, bind, lift in H. destruct (put_le64 _ _ _); [|done..]. injection H as <-. cbn. by rewrite Hl app_assoc.
Qed.

Lemma ldb_at off h l :
  0 <= off < 0x1000 -> triple (At h l) (ldb16 i off) (fun v => At h (l ++ [LdB i off v])).
Proof using HFL.
  intros Ho. eapply triple_bind; [apply fw_act_at|]. intros [].
  eapply triple_bind; [apply (triple_load _ _ (fun _ => True))|].
  { intros g [Hg _]. destruct (cmd_mem d0 (Some i) g i Hg eq_refl) as (b & m & Hb & Hm & Hz & Hok & _).
    unfold buf_mem. rewrite Hb. destruct b as [cpu x size]. cbn in Hm. rewrite Hm. cbn [mbind res_bind].
    unfold SZ_16K in Hz. rewrite le16_eq; [done|lia|lia]. }
  intros v. eapply triple_bind; [eapply triple_conseq; [apply emit_at|by intros g []|done]|]. intros []. by apply triple_ret.
Qed.

Lemma stb_at off v h l : 0 <= off < 0x1000 -> triple (At h l) (stb16 i off v) (fun _ => At h (l ++ [StB i off v])).
Proof using.
  intros Ho. apply triple_at; [by apply stb16_inv|]. intros g g' [] (_ & Hl & Hc & Hd & Hh) H HI'. split; [done|].
  unfold stb16, bind, lift in H. destruct (buf_mem i g) eqn:Em; [|done..]. cbn [mbind res_bind] in H.
  destruct (wr8 _ off v); [|done..]. cbn [mbind res_bind] in H. destruct (wr8 _ _ _); [|done..]. injection H as <-.
  cbn. rewrite Hl app_assoc. split; [done|]. split; [done|]. split.
  - rewrite list_lookup_alter_eq. by destruct (g_bufs g !! i).
  - intros k. rewrite -Hh. unfold holds. cbn. destruct (decide (k = i)) as [->|]; [|by rewrite list_lookup_alter_ne].
    rewrite list_lookup_alter_eq. unfold buf_mem in Em. by destruct (g_bufs g !! i) as [[[|] ? ?]|].
Qed.

(** The buffer an allocation adds. *)
Lemma alloc_at size h l :
  in_range 64 size ->
  triple (At h l) (ane_rtclient_legacy_alloc size) (fun r g =>
    match r with
    | Some _ => At h l g
    | None => exists k x, h k = None /\ g_last g = Some k /\ At (upd h k (Some (x, size))) l g
    end).
Proof using HD.
  intros Hs. apply triple_at; [by apply legacy_alloc_inv|]. intros g g' a (Hg & Hl & Hc & Hd & Hh) H HI'.
  unfold ane_rtclient_legacy_alloc, bind, get in H. cbn [mbind res_bind] in H. destruct (_ || _); [by injection H as <- <-|].
  destruct (pick_spec d0 g) as (r & Er & Hr); [by destruct Hg|]. unfold lift in H. rewrite Er in H. cbn [mbind res_bind] in H.
  destruct r as [k|]; [|by injection H as <- <-]. destruct (Hr k eq_refl) as (b & Hb & Hfree & _).
  assert (k <> i) as Hne.
  { intros ->. destruct Hg as [Hi Hcm]. by apply (free_not_cmd d0 g i b Hi Hb Hfree). }
  assert (h k = None) as Hk by (rewrite -Hh; unfold holds; rewrite Hb; destruct b as [[|] ? ?]; done).
  destruct (dma_alloc _ _) as [[x d]|]; [|by injection H as <- <-]. rewrite Hb in H.
  assert (k < length (g_bufs g))%nat as Hlt by by eapply lookup_lt_Some.
  destruct (_ || _); injection H as <- <-.
  - split; [done|]. split; [done|]. split; [done|]. split; [cbn; by rewrite list_lookup_insert_ne|].
    intros k'. rewrite -Hh. unfold holds. cbn. destruct (decide (k' = k)) as [->|]; [|by rewrite list_lookup_insert_ne].
    rewrite list_lookup_insert_eq // Hb. destruct b as [[|] ? ?]; done.
  - exists k, x. split; [done|]. split; [done|]. split; [done|]. split; [done|]. split; [done|].
    split; [cbn; by rewrite list_lookup_insert_ne|].
    intros k'. unfold upd. destruct (decide (k' = k)) as [->|].
    + unfold holds. cbn. by rewrite list_lookup_insert_eq.
    + rewrite -Hh. unfold holds. cbn. by rewrite list_lookup_insert_ne.
Qed.

Lemma release_at k x sz h l :
  h k = Some (x, sz) -> k <> i -> triple (At h l) (release_buf k) (fun _ => At (upd h k None) (l ++ [Free x])).
Proof using HD.
  intros Hk Hne g (Hg & Hl & Hc & Hd & Hh).
  assert (exists m, g_bufs g !! k = Some (LegacyBuffer (Some m) x sz)) as [m Hm].
  { rewrite -Hh in Hk. unfold holds in Hk. destruct (g_bufs g !! k) as [[[m|] ? ?]|]; [|done..]. injection Hk as -> ->. by exists m. }
  pose proof (release_buf_inv d0 (Some i) k g) as Hr. unfold release_buf in *. rewrite Hm in Hr |- *. cbn [twp] in Hr |- *.
  assert (k < length (g_bufs g))%nat as Hlt by by eapply lookup_lt_Some.
  split; [|cbn; split_and!].
  - apply Hr. split; [done|]. eexists. split; [by split|]. destruct Hg as [_ ->]. congruence.
  - by rewrite Hl app_assoc.
  - done.
  - by rewrite list_lookup_insert_ne.
  - intros k'. unfold upd. destruct (decide (k' = k)) as [->|].
    + unfold holds. cbn. by rewrite list_lookup_insert_eq.
    + rewrite -Hh. unfold holds. cbn. by rewrite list_lookup_insert_ne.
Qed.

(** ** The allocation ring, exactly *)

(** What one look at slot [s] of the ring does: [h'] is the table after it,
    [l] its accesses, [served] what it reports. *)
Inductive service_log (s : Z) (h : nat -> option (Z * Z)) : (nat -> option (Z * Z)) -> list ev -> bool + errno -> Prop :=
  | SlOdd hdr : Z.land hdr 1 <> 0 -> service_log s h h [Ld s hdr] (inl false)
  | SlIdle mode : service_log s h h [Ld s 0; Fence; Ld (s + 8) 0; Ld (s + 16) mode] (inl false)
  | SlNoMem size mode : size <> 0 -> mode <= 0xffffffff ->
      service_log s h h [Ld s 0; Fence; Ld (s + 8) size; Ld (s + 16) mode] (inr ENOMEM)
  | SlMalloc size mode k x : size <> 0 -> mode <= 0xffffffff -> h k = None ->
      service_log s h (upd h k (Some (x, size)))
        ([Ld s 0; Fence; Ld (s + 8) size; Ld (s + 16) mode] ++
         [St (s + 8) 0; St (s + 16) (Z.of_nat k + 1); Fence; St s (Z.lor x 1); Fence; Bell 5]) (inl true)
  | SlFree hdr k sz : Z.land hdr 1 = 0 -> hdr <> 0 -> h k = Some (hdr, sz) -> k <> i ->
      service_log s h (upd h k None)
        ([Ld s hdr; Fence; Ld (s + 8) 0; Ld (s + 16) 0] ++
         [St (s + 8) 0; St (s + 16) 0; Fence; St s 1; Fence; Bell 5; Free hdr]) (inl true)
  | SlUnknown hdr : Z.land hdr 1 = 0 -> hdr <> 0 -> (forall k sz, h k = Some (hdr, sz) -> k = i) ->
      service_log s h h
        ([Ld s hdr; Fence; Ld (s + 8) 0; Ld (s + 16) 0] ++
         [St (s + 8) 0; St (s + 16) 0; Fence; St s 1; Fence; Bell 5]) (inl true)
  | SlBad hdr size mode : Z.land hdr 1 = 0 -> (hdr = 0 -> size <> 0 /\ 0xffffffff < mode) ->
      (hdr <> 0 -> size <> 0 \/ mode <> 0) ->
      service_log s h h [Ld s hdr; Fence; Ld (s + 8) size; Ld (s + 16) mode] (inr EOPNOTSUPP).

Definition service_post (cursor : Z) (h : nat -> option (Z * Z)) (l : list ev) (r : Z * (bool + errno)) (g : rtclient) : Prop :=
  exists h' l', At h' (l ++ l') g /\ service_log (mslot cursor) h h' l' r.2 /\
    r.1 = match r.2 with inl true => (cursor + 1) mod cs_size (layout 5) | _ => cursor end.

Lemma find_none g dma' :
  chan_inv d0 g -> ane_legtab_find (g_bufs g) (g_allocated g) dma' (g_cmd_buf g) = Ret None ->
  forall k sz, holds g k = Some (dma', sz) -> g_cmd_buf g = Some k.
Proof using.
  intros [[T1 T2 T3 _ _ _ _ _ _] _ _ _] Hf k sz Hk. unfold ane_legtab_find, zlen, ANE_LEGACY_ALLOCS in *.
  edestruct (legtab_scan_spec (fun i b => bool_decide (lb_cpu b <> None) && (lb_dma b =? dma') && bool_decide (g_cmd_buf g <> Some i))
    (g_bufs g) (Z.to_nat (g_allocated g)) 0) as (r & Er & Hr); [lia|]. rewrite Er in Hf. injection Hf as ->.
  unfold holds in Hk. destruct (g_bufs g !! k) as [[[m|] x y]|] eqn:E; [|done..]. injection Hk as -> ->.
  destruct (decide (g_cmd_buf g = Some k)) as [|Hne]; [done|].
  assert (Z.of_nat k < g_allocated g) as Hlt.
  { destruct (Z.le_gt_cases (g_allocated g) (Z.of_nat k)) as [Hle|]; [|done]. by pose proof (T3 k _ E Hle). }
  pose proof (Hr k _ ltac:(lia) E) as Hp. cbn in Hp. rewrite Z.eqb_refl in Hp.
  rewrite !bool_decide_eq_true_2 in Hp; done.
Qed.

Lemma service_exact cursor h l :
  0 <= cursor < cs_size (layout 5) -> triple (At h l) (ane_rtclient_malloc_service cursor) (service_post cursor h l).
Proof using HD HFL.
  intros Hcur. unfold ane_rtclient_malloc_service, service_post.
  pose proof (slot_bound 5 cursor ltac:(lia) Hcur) as Hb.
  assert (mslot cursor = cs_off (layout 5) + cursor * 64) as Es by (unfold mslot; lia).
  rewrite -Es in Hb. set (slot := mslot cursor) in *. set (next := _ mod _) in *.
  assert (forall h' l' r, service_log slot h h' l' r -> triple (At h' (l ++ l'))
    (ret (match r with inl true => next | _ => cursor end, r)) (fun r g => exists h' l', At h' (l ++ l') g /\
      service_log slot h h' l' r.2 /\ r.1 = match r.2 with inl true => next | _ => cursor end)) as Hret.
  { intros h' l' r Hl. apply triple_ret. intros g Hg. by exists h', l'. }
  eapply triple_bind; [apply ld_at; lia|]. intros hdr. apply triple_pure. intros Hhdr. unfold in_range in Hhdr.
  destruct (Z.eqb_spec (Z.land hdr 1) 0) as [Hev|Hodd]; cbn [negb]; [|apply (Hret h [_] (inl false)); by constructor].
  eapply triple_bind; [apply emit_at|]. intros [].
  eapply triple_bind; [apply ld_at; lia|]. intros size. apply triple_pure. intros Hsize.
  eapply triple_bind; [apply ld_at; lia|]. intros mode. apply triple_pure. intros Hmode. rewrite -!app_assoc. cbn [app].
  unfold ane_t6021_mring_classify. rewrite Hev. cbn [negb Z.eqb]. unfold in_range in *.
  destruct (Z.eqb_spec hdr 0) as [->|Hnz].
  - destruct (Z.eqb_spec size 0) as [->|Hsz]; [apply (Hret h _ (inl false)); constructor|].
    destruct (Z.gtb_spec mode 0xffffffff) as [Hbig|Hsmall].
    { apply (Hret h _ (inr EOPNOTSUPP)). constructor; [done| |done]. intros _. by split. }
    eapply triple_bind; [by apply alloc_at|]. intros [e|]; [apply (Hret h _ (inr ENOMEM)); by constructor|].
    intros g (k & x & Hk & Hlast & Hg). unfold bind at 1, get. cbn [mbind res_bind]. rewrite Hlast. cbn [default from_option id].
    assert (exists m, g_bufs g !! k = Some (LegacyBuffer (Some m) x size)) as [m Hm].
    { pose proof (proj2 (proj2 (proj2 (proj2 Hg))) k) as Hh. unfold upd, holds in Hh. rewrite decide_True // in Hh.
      destruct (g_bufs g !! k) as [[[m|] ? ?]|]; [|done..]. injection Hh as -> ->. by exists m. }
    assert (Z.of_nat k < 8192) as Hk8.
    { destruct Hg as [[[[T1 _ _ _ _ _ _ _ _] _ _ _] _] _]. apply lookup_lt_Some in Hm. unfold zlen, ANE_LEGACY_ALLOCS in T1. lia. }
    unfold bind at 1, lift. rewrite Hm. cbn [mbind res_bind lb_dma].
    assert (u32 (Z.of_nat k + 1) = Z.of_nat k + 1) as -> by (unfold wrap; apply Z.mod_small; lia).
    revert g Hg Hlast Hm. enough (triple (At (upd h k (Some (x, size))) (l ++ [Ld slot 0; Fence; Ld (slot + 8) size; Ld (slot + 16) mode]))
      (bind (st64 (slot + 8) 0) (fun _ => bind (st64 (slot + 16) (Z.of_nat k + 1)) (fun _ => bind (emit Fence) (fun _ =>
       bind (st64 slot (Z.lor x 1)) (fun _ => bind (emit Fence) (fun _ => bind (emit (Bell 5)) (fun _ => ret (next, inl true))))))))
      (fun r g => exists h' l', At h' (l ++ l') g /\ service_log slot h h' l' r.2 /\
        r.1 = match r.2 with inl true => next | _ => cursor end)) as H by (intros g Hg _ _; by apply H).
    do 2 (eapply triple_bind; [apply st_at; lia|]; intros []). eapply triple_bind; [apply emit_at|]; intros [].
    eapply triple_bind; [apply st_at; lia|]; intros []. do 2 (eapply triple_bind; [apply emit_at|]; intros []).
    rewrite -!app_assoc. apply (Hret _ _ (inl true)). by constructor.
  - destruct (Z.eqb_spec size 0) as [->|Hsz]; cbn [negb orb].
    2: { apply (Hret h _ (inr EOPNOTSUPP)). constructor; [done|done|]. by left. }
    destruct (Z.eqb_spec mode 0) as [->|Hm]; cbn [negb].
    2: { apply (Hret h _ (inr EOPNOTSUPP)). constructor; [done|done|]. by right. }
    do 2 (eapply triple_bind; [apply st_at; lia|]; intros []). eapply triple_bind; [apply emit_at|]; intros [].
    eapply triple_bind; [apply st_at; lia|]; intros []. do 2 (eapply triple_bind; [apply emit_at|]; intros []).
    rewrite -!app_assoc. cbn [app]. intros g Hg. unfold bind at 1, lift.
    pose proof Hg as ([Hi Hcm] & _ & _ & _ & Hh).
    destruct (legtab_find_spec d0 g hdr Hi) as (r & Er & Hr). rewrite Er. cbn [mbind res_bind]. destruct r as [k|].
    + destruct (Hr k eq_refl) as (b & [Hbk Hoc] & Hdma & Hnc).
      assert (h k = Some (hdr, lb_size b)) as Hk.
      { rewrite -Hh. unfold holds. rewrite Hbk. destruct b as [[m|] ? ?]; [|done]. cbn in *. by rewrite Hdma. }
      assert (k <> i) as Hne by congruence. revert g Hg Hi Hcm Hh Er Hr Hbk Hoc Hdma Hnc.
      enough (triple (At h (l ++ [Ld slot hdr; Fence; Ld (slot + 8) 0; Ld (slot + 16) 0; St (slot + 8) 0; St (slot + 16) 0; Fence;
        St slot 1; Fence; Bell 5])) (bind (release_buf k) (fun _ => ret (next, inl true)))
        (fun r g => exists h' l', At h' (l ++ l') g /\ service_log slot h h' l' r.2 /\
          r.1 = match r.2 with inl true => next | _ => cursor end)) as H by (intros g Hg; intros; by apply H).
      eapply triple_bind; [by apply (release_at k hdr (lb_size b))|]. intros []. rewrite -app_assoc. apply (Hret _ _ (inl true)).
      by eapply (SlFree _ _ hdr).
    + eapply (Hret h _ (inl true)); [|exact Hg]. apply (SlUnknown _ _ hdr); [done|done|]. intros k sz Hk. rewrite -Hh in Hk.
      pose proof (find_none g hdr Hi Er k sz Hk). congruence.
Qed.
End trace.

(** ** The exchange, exactly *)

(** The accesses of the allocation ring and of the waits: nothing else is
    stored, and no other doorbell rung. *)
Definition ring5 (e : ev) : Prop :=
  match e with
  | St off _ => cs_off (layout 5) <= off < cs_off (layout 5) + cs_size (layout 5) * 64
  | Bell b => b = 5
  | StB _ _ _ | StatsBegin | StatsComplete _ => False
  | _ => True
  end.

Lemma service_log_ring5 i cursor h h' l r :
  0 <= cursor < cs_size (layout 5) -> service_log i (mslot cursor) h h' l r -> Forall ring5 l.
Proof.
  intros Hc H. assert (forall k, 0 <= k < 64 -> cs_off (layout 5) <= mslot cursor + k < cs_off (layout 5) + cs_size (layout 5) * 64) as Hin
    by (unfold mslot; lia).
  pose proof (Hin 0 ltac:(lia)) as H0. rewrite Z.add_0_r in H0. pose proof (Hin 8 ltac:(lia)). pose proof (Hin 16 ltac:(lia)).
  destruct H; cbn [app]; repeat (apply Forall_cons_2; [done|]); apply Forall_nil_2.
Qed.

(** Handing a command to the firmware: the body of the slot, the header after
    a barrier, the doorbell after another. *)
Definition publish (io length dma bit : Z) : list ev :=
  [St (io + 8) length; St (io + 16) length; Fence; St io dma; Fence; Bell bit].

(** The loads of an accepted answer after its header. *)
Definition accepted (i : nat) (io length opcode : Z) : list ev :=
  [Ld (io + 8) length; Ld (io + 16) 0; LdB i 4 opcode; LdB i 6 0].

Definition step_cursor (ch : Z) (cursors : list Z) : list Z :=
  <[Z.to_nat ch := (default 0 (cursors !! Z.to_nat ch) + 1) mod cs_size (layout ch)]> cursors.

Section exchange.
Context `{HI : Iommu} {HC : DmaCoherent} `{HD : !DmaLaws} {HF : Firmware} `{HFL : !FirmwareLaws}.
Context (d0 : domain) (i : nat) (dma : Z) (L : list ev) (cursors : list Z).

Abbreviation at_ := (At d0 i dma L).
(** [At] with the table left open. *)
Definition reached (cs : list Z) (l : list ev) (g : rtclient) : Prop := exists h, at_ cs h l g.

Lemma reached_bind {A B} (m : M A) (k : A -> M B) cs l R Q :
  (forall h, triple (at_ cs h l) m R) -> (forall a, triple (R a) (k a) Q) -> triple (reached cs l) (bind m k) Q.
Proof using. intros Hm Hk g (h & Hg). exact (triple_bind _ _ _ _ _ (Hm h) Hk g Hg). Qed.

Lemma reached_ld {B} off (k : Z -> M B) cs l Q :
  0 <= off -> off + 8 <= ANE_T6021_CHMAN_TOTAL ->
  (forall v, in_range 64 v -> triple (reached cs (l ++ [Ld off v])) (k v) Q) -> triple (reached cs l) (bind (ld64 off) k) Q.
Proof using HFL.
  intros H1 H2 Hk. apply (reached_bind _ _ _ _ (fun v g => reached cs (l ++ [Ld off v]) g /\ in_range 64 v)).
  - intros h. eapply triple_conseq; [by apply ld_at|done|]. intros v g [Hg Hv]. split; [by exists h|done].
  - intros v. apply triple_pure, Hk.
Qed.

Lemma reached_emit {B} e (k : M B) cs l Q :
  triple (reached cs (l ++ [e])) k Q -> triple (reached cs l) (bind (emit e) (fun _ => k)) Q.
Proof using.
  intros Hk. apply (reached_bind _ _ _ _ (fun _ => reached cs (l ++ [e]))); [|done].
  intros h. eapply triple_conseq; [apply emit_at|done|]. intros [] g Hg. by exists h.
Qed.

Lemma reached_st {B} off v (k : M B) cs l Q :
  0 <= off -> off + 8 <= ANE_T6021_CHMAN_TOTAL ->
  triple (reached cs (l ++ [St off v])) k Q -> triple (reached cs l) (bind (st64 off v) (fun _ => k)) Q.
Proof using.
  intros H1 H2 Hk. apply (reached_bind _ _ _ _ (fun _ => reached cs (l ++ [St off v]))); [|done].
  intros h. eapply triple_conseq; [by apply st_at|done|]. intros [] g Hg. by exists h.
Qed.

Lemma reached_ldb {B} off (k : Z -> M B) cs l Q :
  0 <= off < 0x1000 -> (forall v, triple (reached cs (l ++ [LdB i off v])) (k v) Q) ->
  triple (reached cs l) (bind (ldb16 i off) k) Q.
Proof using HFL.
  intros Ho Hk. apply (reached_bind _ _ _ _ (fun v => reached cs (l ++ [LdB i off v]))); [|done].
  intros h. eapply triple_conseq; [by apply ldb_at|done|]. intros v g Hg. by exists h.
Qed.

Lemma reached_get {A B} (f : rtclient -> A) (k : A -> M B) (φ : A -> Prop) cs l Q :
  (forall g, reached cs l g -> φ (f g)) -> (forall a, φ a -> triple (reached cs l) (k a) Q) ->
  triple (reached cs l) (bind (get f) k) Q.
Proof using. intros Hf Hk g Hg. exact (Hk (f g) (Hf g Hg) g Hg). Qed.

Lemma reached_serve {B} cursor (k : Z * (bool + errno) -> M B) cs l Q :
  0 <= cursor < cs_size (layout 5) ->
  (forall r l', Forall ring5 l' -> 0 <= r.1 < cs_size (layout 5) -> (forall e, r.2 = inr e -> e = ENOMEM \/ e = EOPNOTSUPP) ->
    triple (reached cs (l ++ l')) (k r) Q) ->
  triple (reached cs l) (bind (ane_rtclient_malloc_service cursor) k) Q.
Proof using HD HFL.
  intros Hc Hk g (h & Hg). pose proof (service_exact d0 i dma L cs cursor h l Hc g Hg) as H.
  unfold bind. destruct (ane_rtclient_malloc_service cursor g) as [[g' r]| |]; [|done..].
  destruct H as (h' & l' & Hg' & Hl & Hr). cbn [fst snd] in *. cbn [mbind res_bind].
  apply (Hk r l'); [|..|by exists h'].
  - by eapply service_log_ring5.
  - rewrite Hr. destruct r.2 as [[]|]; [|done..]. by apply next_cursor.
  - intros e He. rewrite He in Hl. inversion Hl; auto.
Qed.

Lemma reached_dma g cs l : reached cs l g -> lb_dma (default no_buffer (g_bufs g !! i)) = dma.
Proof using. by intros (h & _ & _ & _ & H & _). Qed.

Lemma reached_inv g cs l : reached cs l g -> I d0 (Some i) g.
Proof using. by intros (h & H & _). Qed.

(** The answer's verdict. *)
Lemma verdict_exact io hd length opcode cs l :
  0 <= io -> io + 64 <= ANE_T6021_CHMAN_TOTAL ->
  triple (reached cs l) (exchange_verdict i io hd length opcode) (fun r g =>
    exists tail, reached cs (l ++ Fence :: tail) g /\ (r = None \/ r = Some EPROTO) /\
      (r = None <-> hd = Z.lor dma 1 /\ tail = accepted i io length opcode)).
Proof using HFL.
  intros H1 H2. unfold exchange_verdict, accepted.
  set (Q := fun (r : option errno) g => exists tail, reached cs (l ++ Fence :: tail) g /\ (r = None \/ r = Some EPROTO) /\
    (r = None <-> hd = Z.lor dma 1 /\ tail = [Ld (io + 8) length; Ld (io + 16) 0; LdB i 4 opcode; LdB i 6 0])).
  assert (forall tail, (hd = Z.lor dma 1 -> tail <> [Ld (io + 8) length; Ld (io + 16) 0; LdB i 4 opcode; LdB i 6 0]) ->
    triple (reached cs (l ++ Fence :: tail)) (ret (Some EPROTO)) Q) as Hbad.
  { intros tail Ht. apply triple_ret. intros g Hg. exists tail. split; [done|]. split; [by right|]. naive_solver. }
  apply reached_emit. apply (reached_get _ _ (fun x => x = dma)); [by intros g Hg; eapply reached_dma|]. intros x ->.
  destruct (Z.eqb_spec hd (Z.lor dma 1)) as [Hhd|Hhd]; cbn [negb]; [|by apply (Hbad [])].
  apply reached_ld; [lia|lia|]. intros v _. rewrite -app_assoc. cbn [app].
  destruct (Z.eqb_spec v length) as [->|Hv]; cbn [negb]; [|apply (Hbad [_]); congruence].
  apply reached_ld; [lia|lia|]. intros z _. rewrite -app_assoc. cbn [app].
  destruct (Z.eqb_spec z 0) as [->|Hz]; cbn [negb]; [|apply (Hbad [_; _]); congruence].
  apply reached_ldb; [lia|]. intros op. rewrite -app_assoc. cbn [app].
  destruct (Z.eqb_spec op opcode) as [->|Hop]; cbn [negb]; [|apply (Hbad [_; _; _]); congruence].
  apply reached_ldb; [lia|]. intros st. rewrite -app_assoc. cbn [app].
  destruct (Z.eqb_spec st 0) as [->|Hst]; [|apply (Hbad [_; _; _; _]); congruence].
  apply triple_ret. intros g Hg. eexists. split; [exact Hg|]. split; [by left|done].
Qed.

(** What the wait for the answer ends with. *)
Definition poll_post (io length opcode ch : Z) (l : list ev) (r : Z * option errno) (g : rtclient) : Prop :=
  0 <= r.1 < cs_size (layout 5) /\ exists mid, Forall ring5 mid /\
  (reached cursors (l ++ mid) g /\ (r.2 = Some ETIMEDOUT \/ r.2 = Some ENOMEM \/ r.2 = Some EOPNOTSUPP) \/
   exists hd tail, Z.land hd 1 <> 0 /\ reached (step_cursor ch cursors) (l ++ mid ++ Ld io hd :: Fence :: tail) g /\
     (r.2 = None \/ r.2 = Some EPROTO) /\ (r.2 = None <-> hd = Z.lor dma 1 /\ tail = accepted i io length opcode)).

Lemma poll_post_app io length opcode ch l l1 r g :
  Forall ring5 l1 -> poll_post io length opcode ch (l ++ l1) r g -> poll_post io length opcode ch l r g.
Proof using.
  intros H1 (Hc & mid & Hm & H). split; [done|]. exists (l1 ++ mid). split; [by apply Forall_app|].
  destruct H as [[Hg Hr]|(hd & tail & Ho & Hg & Hr)]; [left|right].
  - by rewrite app_assoc.
  - exists hd, tail. split; [done|]. split; [by rewrite -!app_assoc in Hg |- *|done].
Qed.

Lemma step_cursor_reached ch (r : option errno) cu io hd tail length opcode l :
  0 <= ch < 8 -> 0 <= cu < cs_size (layout 5) -> Z.land hd 1 <> 0 -> (r = None \/ r = Some EPROTO) ->
  (r = None <-> hd = Z.lor dma 1 /\ tail = accepted i io length opcode) ->
  triple (reached cursors (l ++ Ld io hd :: Fence :: tail))
    (bind (modify (fun g => set_cmd_cursor ch ((default 0 (g_cmd_cursor g !! Z.to_nat ch) + 1) mod cs_size (layout ch)) g))
      (fun _ => ret (cu, r))) (poll_post io length opcode ch l).
Proof using.
  intros Hch Hcu Ho Hr1 Hr2 g (h & ([Hi Hcm] & Hl & Hcur & Hd & Hh)). cbn. split; [done|]. exists []. split; [constructor|].
  right. exists hd, tail. split; [done|]. split; [|done]. exists h. cbn [app]. split.
  { split; [apply inv_cmd_cursor; [done|by apply next_cursor|done]|done]. }
  split; [done|]. split; [|done]. cbn. by rewrite Hcur.
Qed.

Lemma poll_exact n io length opcode ch cursor l :
  0 <= io -> io + 64 <= ANE_T6021_CHMAN_TOTAL -> 0 <= ch < 8 -> 0 <= cursor < cs_size (layout 5) ->
  triple (reached cursors l) (exchange_poll n i io length opcode ch cursor) (poll_post io length opcode ch l).
Proof using HD HFL.
  intros H1 H2 Hch. revert cursor l. induction n as [|n IH]; intros cursor l Hcur; cbn [exchange_poll].
  { apply reached_ld; [lia|lia|]. intros v _. apply triple_ret. intros g Hg. split; [done|]. exists [Ld io v].
    split; [by repeat constructor|]. left. by split; [|left]. }
  apply (reached_get _ _ (fun _ => True)); [done|]. intros pending _. apply reached_emit.
  assert (forall l', Forall ring5 l' -> triple (reached cursors (l ++ l')) (ld64 io) (fun v g =>
    exists l', Forall ring5 l' /\ reached cursors (l ++ l') g)) as Hld.
  { intros l' Hl' g (h & Hg). eapply twp_mono; [exact (ld_at d0 i dma L cursors io h (l ++ l') ltac:(lia) ltac:(lia) g Hg)|].
    intros [g' v] [Hg' _]. exists (l' ++ [Ld io v]). split; [apply Forall_app; split; [done|by repeat constructor]|].
    exists h. by rewrite app_assoc. }
  apply (triple_bind _ _ _ (fun _ g => exists l', Forall ring5 l' /\ reached cursors (l ++ l') g)).
  { destruct (negb _).
    - apply reached_emit. intros g Hg. pose proof (emit_at d0 i dma L cursors Fence) as He. destruct Hg as (h & Hg).
      eapply twp_mono; [exact (He h _ g Hg)|]. intros [g' []] Hg'. eexists. split; [|exists h; rewrite -!app_assoc in Hg'; exact Hg'].
      by repeat constructor.
    - apply triple_ret. intros g Hg. eexists. split; [|exact Hg]. by repeat constructor. }
  intros []. intros g (l1 & Hl1 & Hg). revert g Hg.
  enough (triple (reached cursors (l ++ l1)) (bind (ld64 io) (fun header =>
    bind (if Z.land header 1 =? 0 then ane_rtclient_malloc_service cursor else ret (cursor, inl false)) (fun served =>
      match served with
      | (cursor, inr e) => ret (cursor, Some e)
      | (cursor, inl _) =>
          bind (ld64 io) (fun header =>
          if negb (Z.land header 1 =? 0) then
            bind (exchange_verdict i io header length opcode) (fun r =>
            bind (modify (fun g => set_cmd_cursor ch
              ((default 0 (g_cmd_cursor g !! Z.to_nat ch) + 1) mod cs_size (layout ch)) g)) (fun _ =>
            ret (cursor, r)))
          else exchange_poll n i io length opcode ch cursor)
      end))) (poll_post io length opcode ch (l ++ l1))) as H.
  { intros g Hg. eapply twp_mono; [by apply H|]. intros [g' r]. by apply poll_post_app. }
  clear Hld. apply reached_ld; [lia|lia|]. intros hd0 _.
  set (l2 := (l ++ l1) ++ [Ld io hd0]).
  assert (forall l3 cu, Forall ring5 l3 -> 0 <= cu < cs_size (layout 5) -> triple (reached cursors (l2 ++ l3))
    (bind (ld64 io) (fun header =>
          if negb (Z.land header 1 =? 0) then
            bind (exchange_verdict i io header length opcode) (fun r =>
            bind (modify (fun g => set_cmd_cursor ch
              ((default 0 (g_cmd_cursor g !! Z.to_nat ch) + 1) mod cs_size (layout ch)) g)) (fun _ =>
            ret (cu, r)))
          else exchange_poll n i io length opcode ch cu)) (poll_post io length opcode ch (l2 ++ l3))) as Hrest.
  { intros l3 cu Hl3 Hcu. apply reached_ld; [lia|lia|]. intros hd _. destruct (Z.eqb_spec (Z.land hd 1) 0) as [Hev|Hodd]; cbn [negb].
    - eapply triple_conseq; [by apply IH|done|]. intros r g. apply poll_post_app. by repeat constructor.
    - eapply triple_bind; [by apply verdict_exact|]. intros r g (tail & Hg & Hr1 & Hr2). rewrite -app_assoc in Hg.
      exact (step_cursor_reached ch r cu io hd tail length opcode (l2 ++ l3) Hch Hcu Hodd Hr1 Hr2 g Hg). }
  assert (Forall ring5 [Ld io hd0]) as Hh0 by by repeat constructor.
  destruct (Z.land hd0 1 =? 0).
  - apply reached_serve; [done|]. intros [cu res] l3 Hl3 Hcu He. cbn [fst snd] in *. destruct res as [b|e].
    + eapply triple_conseq; [by apply Hrest|done|]. intros r g Hr. apply (poll_post_app _ _ _ _ _ _ _ _ Hh0).
      by apply (poll_post_app _ _ _ _ _ _ _ _ Hl3).
    + apply triple_ret. intros g Hg. apply (poll_post_app _ _ _ _ _ _ _ _ Hh0), (poll_post_app _ _ _ _ _ _ _ _ Hl3).
      split; [done|]. exists []. split; [constructor|]. left. rewrite app_nil_r. split; [done|].
      destruct (He e eq_refl) as [-> | ->]; auto.
  - intros g Hg. pose proof (Hrest [] cursor ltac:(constructor) Hcur g) as H. rewrite app_nil_r in H.
    eapply twp_mono; [by apply H|]. intros [g' r]. by apply poll_post_app.
Qed.

Lemma pre_serve_exact n cursor l :
  0 <= cursor < cs_size (layout 5) ->
  triple (reached cursors l) (pre_serve n cursor) (fun r g =>
    exists pre, Forall ring5 pre /\ reached cursors (l ++ pre) g /\ 0 <= r.1 < cs_size (layout 5)).
Proof using HD HFL.
  revert cursor l. induction n as [|n IH]; intros cursor l Hc; cbn [pre_serve].
  { apply triple_ret. intros g Hg. exists []. rewrite app_nil_r. by split. }
  apply reached_serve; [done|]. intros [cu res] l' Hl' Hcu _. cbn [fst snd] in *. destruct res as [[]|e].
  - eapply triple_conseq; [by apply IH|done|]. intros r g (pre & Hp & Hg & Hr). exists (l' ++ pre).
    split; [by apply Forall_app|]. by rewrite app_assoc.
  - apply triple_ret. intros g Hg. by exists l'.
  - apply triple_ret. intros g Hg. by exists l'.
Qed.

(** The outcomes of an exchange: [l] its accesses, [cs] the cursors after. *)
Definition exchange_outcome (length opcode ch : Z) (r : option errno) (l : list ev) (cs : list Z) : Prop :=
  let io := cs_off (layout ch) + default 0 (cursors !! Z.to_nat ch) * 64 in
  (Forall ring5 l /\ r <> None /\ cs = cursors) \/
  exists pre mid, Forall ring5 pre /\ Forall ring5 mid /\
    let sent := pre ++ StB i 4 opcode :: publish io length dma (cs_bit (layout ch)) ++ mid in
    (l = sent /\ cs = cursors /\ (r = Some ETIMEDOUT \/ r = Some ENOMEM \/ r = Some EOPNOTSUPP)) \/
    exists hd tail, l = sent ++ Ld io hd :: Fence :: tail /\ Z.land hd 1 <> 0 /\ cs = step_cursor ch cursors /\
      (r = None \/ r = Some EPROTO) /\ (r = None <-> hd = Z.lor dma 1 /\ tail = accepted i io length opcode).

Lemma exchange_trace length opcode ch :
  0 <= ch ->
  triple (reached cursors []) (ane_rtclient_legacy_exchange i length opcode ch) (fun r g =>
    I d0 (Some i) g /\ exists l, g_log g = L ++ l /\ exchange_outcome length opcode ch r l (g_cmd_cursor g)).
Proof using HD HFL.
  intros Hch0. unfold ane_rtclient_legacy_exchange.
  set (Q := fun (r : option errno) g => I d0 (Some i) g /\ exists l, g_log g = L ++ l /\
    exchange_outcome length opcode ch r l (g_cmd_cursor g)).
  assert (forall l e, Forall ring5 l -> triple (reached cursors l) (ret (Some e)) Q) as Hno.
  { intros l e Hl. apply triple_ret. intros g (h & Hg & HL & Hc & _). split; [done|]. exists l. split; [done|].
    left. split; [done|]. by split. }
  apply (reached_get _ _ (fun _ => True)); [done|]. intros ready _. destruct (negb ready); [by apply Hno|].
  apply (reached_bind _ _ _ _ (fun _ => reached cursors [])).
  { intros h. eapply triple_conseq; [apply fw_act_at|done|]. intros [] g Hg. by exists h. }
  intros []. apply (reached_bind _ _ _ _ (fun _ g => reached cursors [] g)).
  { intros h. eapply triple_conseq; [apply (triple_load _ _ (fun _ => True))|done|].
    - intros g (Hg & _). by apply (check_twp d0 (Some i)).
    - intros bad g [Hg _]. by exists h. }
  intros bad. destruct (negb _); [by apply Hno|].
  apply (reached_get _ _ (fun cu => 0 <= cu < cs_size (layout 5))); [intros g Hg; eapply malloc_cursor_ok; by eapply reached_inv|].
  intros cursor Hcur. apply (reached_get _ _ (fun b => lb_dma b = dma)); [by intros g Hg; eapply reached_dma|]. intros buf Hbuf.
  destruct (_ || (ch >=? ANE_T6021_CHMAN_COUNT)) eqn:Eg; [by apply Hno|].
  apply orb_false_iff in Eg as [_ Ech]. assert (0 <= ch < 8) as Hch by (unfold ANE_T6021_CHMAN_COUNT in Ech; lia).
  apply (reached_get _ _ (fun cu => cu = default 0 (cursors !! Z.to_nat ch) /\ 0 <= cu < cs_size (layout ch))).
  { intros g Hg. split; [by destruct Hg as (h & _ & _ & -> & _)|]. eapply cmd_cursor_ok; [done|]. by eapply reached_inv. }
  intros cur [Ecur Hcu]. destruct (slot_bound ch cur Hch Hcu) as [Hio1 Hio2].
  set (io := cs_off (layout ch) + cur * 64) in *. apply reached_ld; [lia|lia|]. intros hd0 _. cbn [app].
  destruct (_ =? 0); [apply Hno; by repeat constructor|].
  eapply triple_bind; [by apply pre_serve_exact|]. intros [cu res] g (pre & Hpre & Hg & Hcu'). cbn [fst] in *. revert g Hg.
  assert (Forall ring5 (Ld io hd0 :: pre)) as Hpre' by by constructor.
  destruct res as [e|].
  { intros g Hg. unfold bind, modify, ret. cbn. pose proof (set_malloc_cursor_inv d0 (Some i) cu Hcu' g (reached_inv _ _ _ Hg)) as Hi.
    destruct Hg as (h & _ & HL & Hc & _). split; [exact Hi|]. eexists. split; [exact HL|]. left. split; [done|]. by split. }
  enough (triple (reached cursors (Ld io hd0 :: pre)) (bind (stb16 i 4 opcode) (fun _ => bind (st64 (io + 8) length) (fun _ =>
    bind (st64 (io + 16) length) (fun _ => bind (emit Fence) (fun _ => bind (st64 io (lb_dma buf)) (fun _ => bind (emit Fence) (fun _ =>
    bind (emit (Bell (cs_bit (layout ch)))) (fun _ => bind (get (fun g => fw_polls (g_log g))) (fun n =>
    bind (exchange_poll n i io length opcode ch cu) (fun r => bind (modify (set_malloc_cursor r.1)) (fun _ => ret r.2))))))))))) Q) as H
    by (intros g Hg; by apply H).
  rewrite Hbuf. apply (reached_bind _ _ _ _ (fun _ => reached cursors ((Ld io hd0 :: pre) ++ [StB i 4 opcode]))).
  { intros h. eapply triple_conseq; [by apply stb_at|done|]. intros [] g Hg. by exists h. }
  intros []. apply reached_st; [lia|lia|]. apply reached_st; [lia|lia|]. apply reached_emit. apply reached_st; [lia|lia|].
  apply reached_emit. apply reached_emit. apply (reached_get _ _ (fun _ => True)); [done|]. intros n _.
  eapply triple_bind; [by apply poll_exact|]. intros [cu2 r] g (Hcu2 & mid & Hmid & H). cbn [fst snd] in *.
  unfold bind, modify, ret. cbn [mbind res_bind twp fst snd].
  rewrite -!app_assoc in H. cbn [app] in H.
  assert (forall cs l, reached cs l g -> I d0 (Some i) (set_malloc_cursor cu2 g) /\ g_log g = L ++ l /\ g_cmd_cursor g = cs) as Hfin.
  { intros cs l Hg. split; [exact (set_malloc_cursor_inv d0 (Some i) cu2 Hcu2 g (reached_inv _ _ _ Hg))|].
    by destruct Hg as (h & _ & HL & Hc & _). }
  destruct H as [[Hg Hr]|(hd & tail & Ho & Hg & Hr1 & Hr2)]; destruct (Hfin _ _ Hg) as (Hi & HL & Hc).
  - split; [exact Hi|]. eexists. split; [exact HL|]. unfold exchange_outcome. rewrite -Ecur. right. exists (Ld io hd0 :: pre), mid. split; [done|]. split; [done|].
    left. split; [done|]. by split.
  - split; [exact Hi|]. eexists. split; [exact HL|]. unfold exchange_outcome. rewrite -Ecur. right. exists (Ld io hd0 :: pre), mid. split; [done|]. split; [done|].
    right. exists hd, tail. split; [unfold publish; by rewrite -!app_assoc|]. split; [done|]. by split.
Qed.
End exchange.

(** ** A firmware that answers *)

Definition irq_reads (l : list ev) : nat := List.length (List.filter (fun e => match e with IrqRd _ => true | _ => false end) l).

Lemma irq_reads_app l l' : irq_reads (l ++ l') = (irq_reads l + irq_reads l')%nat.
Proof. unfold irq_reads. by rewrite List.filter_app length_app. Qed.

(** Between exchanges the firmware keeps the table, posts no request and
    leaves the slot to the host; it takes a command and answers it once the
    host polled [k] times. [L] is the log before the exchange. *)
Record prompt `{Firmware} (k i : nat) (L : list ev) (iova size io dma length opcode bit : Z) : Prop := Prompt {
  pr_table l m : zlen m = size -> ane_t6021_chman_check (fw_ipc (L ++ l) m) iova = Ret 0;
  pr_quiet l m c : zlen m = size -> 0 <= c < cs_size (layout 5) ->
    Z.land (word64_at (fw_ipc (L ++ l) m) (mslot c)) 1 <> 0;
  pr_idle l m : zlen m = size -> Bell bit ∉ l -> Z.land (word64_at (fw_ipc (L ++ l) m) io) 1 <> 0;
  pr_busy l m : zlen m = size -> Bell bit ∈ l -> (irq_reads l <= k)%nat ->
    Z.land (word64_at (fw_ipc (L ++ l) m) io) 1 = 0;
  pr_done l m : zlen m = size -> Bell bit ∈ l -> (k < irq_reads l)%nat ->
    word64_at (fw_ipc (L ++ l) m) io = Z.lor dma 1 /\ word64_at (fw_ipc (L ++ l) m) (io + 8) = length /\
    word64_at (fw_ipc (L ++ l) m) (io + 16) = 0;
  pr_reply l m : zlen m = SZ_16K -> Bell bit ∈ l -> (k < irq_reads l)%nat ->
    word16_at (fw_buf (L ++ l) i m) 4 = opcode /\ word16_at (fw_buf (L ++ l) i m) 6 = 0;
  pr_polls l : (k < fw_polls (L ++ l))%nat;
}.

Section live.
Context `{HI : Iommu} {HC : DmaCoherent} `{HD : !DmaLaws} {HF : Firmware} `{HFL : !FirmwareLaws}.
Context (d0 : domain) (i : nat) (dma : Z) (L : list ev) (cursors : list Z) (iova size : Z).

(** [reached], with the surface's address and size. *)
Definition at_surface (l : list ev) (g : rtclient) : Prop :=
  reached d0 i dma L cursors l g /\ g_ipc_iova g = iova /\ g_ipc_size g = size.

Lemma surface_ld off l :
  0 <= off -> off + 8 <= ANE_T6021_CHMAN_TOTAL ->
  triple (at_surface l) (ld64 off) (fun v g => at_surface (l ++ [Ld off v]) g /\
    exists m, zlen m = size /\ v = word64_at (fw_ipc (L ++ l) m) off).
Proof using HFL.
  intros H1 H2 g ((h & Hg) & Hv & Hs). pose proof (ld_at d0 i dma L cursors off h l H1 H2 g Hg) as H.
  pose proof Hg as ([[_ [S1 S2 S3 S4] _ _] _] & HL & _).
  unfold ld64, fw_act, modify, bind, lift, emit, ret in *. cbn [mbind res_bind g_ipc set_mem] in *.
  rewrite le64_eq in H |- *; [|done|rewrite fw_ipc_len; lia]. cbn [mbind res_bind twp fst snd] in *.
  destruct H as [Hat _]. split; [split; [by exists h|done]|]. exists (g_ipc g). split; [by rewrite S1|].
  by rewrite HL.
Qed.

Lemma surface_emit e l : triple (at_surface l) (emit e) (fun _ => at_surface (l ++ [e])).
Proof using.
  intros g ((h & Hg) & Hv & Hs). pose proof (emit_at d0 i dma L cursors e h l g Hg) as H. cbn in H |- *.
  split; [by exists h|done].
Qed.

Lemma surface_st off v l :
  0 <= off -> off + 8 <= ANE_T6021_CHMAN_TOTAL -> triple (at_surface l) (st64 off v) (fun _ => at_surface (l ++ [St off v])).
Proof using.
  intros H1 H2 g ((h & Hg) & Hv & Hs). pose proof (st_at d0 i dma L cursors off v h l H1 H2 g Hg) as H.
  destruct (st64 off v g) as [[g' []]| |] eqn:E; [|done..]. split; [by exists h|].
  unfold st64, bind, lift in E. destruct (put_le64 _ _ _); [|done..]. by injection E as <-.
Qed.

Lemma surface_stb off v l : 0 <= off < 0x1000 -> triple (at_surface l) (stb16 i off v) (fun _ => at_surface (l ++ [StB i off v])).
Proof using.
  intros Ho g ((h & Hg) & Hv & Hs). pose proof (stb_at d0 i dma L cursors off v h l Ho g Hg) as H.
  destruct (stb16 i off v g) as [[g' []]| |] eqn:E; [|done..]. split; [by exists h|].
  unfold stb16, bind, lift in E. destruct (buf_mem i g); [|done..]. cbn [mbind res_bind] in E.
  destruct (wr8 _ off v); [|done..]. cbn [mbind res_bind] in E. destruct (wr8 _ _ _); [|done..]. by injection E as <-.
Qed.

Lemma surface_ldb off l :
  0 <= off < 0x1000 ->
  triple (at_surface l) (ldb16 i off) (fun v g => at_surface (l ++ [LdB i off v]) g /\
    exists m, zlen m = SZ_16K /\ v = word16_at (fw_buf (L ++ l) i m) off).
Proof using HFL.
  intros Ho g ((h & Hg) & Hv & Hs). pose proof (ldb_at d0 i dma L cursors off h l Ho g Hg) as H.
  pose proof Hg as (HIg & HL & _). destruct (cmd_mem d0 (Some i) g i HIg eq_refl) as (b & m & Hb & Hm & Hz & Hok & _).
  unfold SZ_16K in *. unfold ldb16, fw_act, modify, bind, lift, emit, ret in *. cbn [mbind res_bind] in *.
  assert (buf_mem i (set_mem (fw_ipc (g_log g) (g_ipc g))
    (imap (fun k b => LegacyBuffer (fw_buf (g_log g) k <$> lb_cpu b) (lb_dma b) (lb_size b)) (g_bufs g)) g) =
    Ret (fw_buf (g_log g) i m)) as Em.
  { unfold buf_mem. cbn [g_bufs set_mem]. rewrite list_lookup_imap Hb. cbn. by rewrite Hm. }
  rewrite Em in H |- *. cbn [mbind res_bind] in *.
  rewrite le16_eq in H |- *; [|lia|rewrite fw_buf_len; lia]. cbn [mbind res_bind twp fst snd] in *.
  split; [split; [by exists h|done]|]. exists m. split; [done|]. by rewrite HL.
Qed.

Context (k : nat) (io length opcode ch : Z).
Context (Hio : 0 <= io) (Hio' : io + 64 <= ANE_T6021_CHMAN_TOTAL) (Hch : 0 <= ch < 8).
Context (Hpr : prompt k i L iova size io dma length opcode (cs_bit (layout ch))).

Abbreviation sent := (fun l => Bell (cs_bit (layout ch)) ∈ l).

(** No request is waiting. *)
Lemma serve_quiet cursor l :
  0 <= cursor < cs_size (layout 5) ->
  triple (at_surface l) (ane_rtclient_malloc_service cursor) (fun r g => r = (cursor, inl false) /\
    exists v, at_surface (l ++ [Ld (mslot cursor) v]) g).
Proof using HFL Hpr.
  intros Hc. pose proof (slot_bound 5 cursor ltac:(lia) Hc) as Hb.
  assert (mslot cursor = cs_off (layout 5) + cursor * 64) as Es by (unfold mslot; lia).
  unfold ane_rtclient_malloc_service. eapply triple_bind; [apply surface_ld; lia|]. intros v g [Hg (m & Hm & Hv)].
  pose proof (pr_quiet _ _ _ _ _ _ _ _ _ _ Hpr l m cursor Hm Hc) as Hq. rewrite -Hv in Hq.
  rewrite (proj2 (Z.eqb_neq _ _) Hq). cbn [negb]. split; [done|]. by exists v.
Qed.

Lemma answer_accepted l :
  sent l -> (k < irq_reads l)%nat ->
  triple (at_surface l) (exchange_verdict i io (Z.lor dma 1) length opcode) (fun r _ => r = None).
Proof using HFL Hpr Hio Hio'.
  intros Hs Hk. unfold exchange_verdict.
  assert (forall l', sent (l ++ l') /\ (k < irq_reads (l ++ l'))%nat) as Hl.
  { intros l'. split; [apply elem_of_app; by left|]. rewrite irq_reads_app. lia. }
  eapply triple_bind; [apply surface_emit|]. intros [] g Hg. unfold bind at 1, get. cbn [mbind res_bind].
  rewrite (reached_dma _ _ _ _ _ _ _ (proj1 Hg)) Z.eqb_refl. cbn [negb]. revert g Hg.
  match goal with |- forall g, _ -> twp (?m g) _ => enough (triple (at_surface (l ++ [Fence])) m (fun r _ => r = None)) as H
    by (intros g Hg; by apply H) end.
  eapply triple_bind; [apply surface_ld; lia|]. intros v g [Hg (m & Hm & Hv)]. revert g Hg.
  destruct (Hl [Fence]) as [Hs1 Hk1]. destruct (pr_done _ _ _ _ _ _ _ _ _ _ Hpr _ m Hm Hs1 Hk1) as (_ & E1 & _).
  rewrite Hv E1 Z.eqb_refl. cbn [negb].
  match goal with |- forall g, ?P g -> twp (?m g) _ => enough (triple P m (fun r _ => r = None)) as H by (intros g Hg; by apply H) end.
  rewrite -app_assoc. eapply triple_bind; [apply surface_ld; lia|]. intros z g [Hg (m2 & Hm2 & Hz)]. revert g Hg.
  match type of Hz with _ = word64_at (fw_ipc (_ ++ (_ ++ ?l')) _) _ => destruct (Hl l') as [Hs2 Hk2] end.
  destruct (pr_done _ _ _ _ _ _ _ _ _ _ Hpr _ m2 Hm2 Hs2 Hk2) as (_ & _ & E2). rewrite Hz E2. cbn [Z.eqb negb].
  match goal with |- forall g, ?P g -> twp (?m g) _ => enough (triple P m (fun r _ => r = None)) as H by (intros g Hg; by apply H) end.
  rewrite -app_assoc. eapply triple_bind; [apply surface_ldb; lia|]. intros op g [Hg (m3 & Hm3 & Hop)]. revert g Hg.
  match type of Hop with _ = word16_at (fw_buf (_ ++ (_ ++ ?l')) _ _) _ => destruct (Hl l') as [Hs3 Hk3] end.
  destruct (pr_reply _ _ _ _ _ _ _ _ _ _ Hpr _ m3 Hm3 Hs3 Hk3) as (E3 & _). rewrite Hop E3 Z.eqb_refl. cbn [negb].
  match goal with |- forall g, ?P g -> twp (?m g) _ => enough (triple P m (fun r _ => r = None)) as H by (intros g Hg; by apply H) end.
  rewrite -app_assoc. eapply triple_bind; [apply surface_ldb; lia|]. intros st g [Hg (m4 & Hm4 & Hst)].
  match type of Hst with _ = word16_at (fw_buf (_ ++ (_ ++ ?l')) _ _) _ => destruct (Hl l') as [Hs4 Hk4] end.
  destruct (pr_reply _ _ _ _ _ _ _ _ _ _ Hpr _ m4 Hm4 Hs4 Hk4) as (_ & E4). rewrite Hst E4. done.
Qed.

(** The wait ends with the answer, when enough polls are left. *)
Lemma poll_completes n cursor l :
  0 <= cursor < cs_size (layout 5) -> sent l -> (irq_reads l <= k)%nat -> (k < irq_reads l + n)%nat ->
  triple (at_surface l) (exchange_poll n i io length opcode ch cursor) (fun r _ => r.2 = None).
Proof using HFL Hpr Hio Hio' Hch.
  intros Hc. revert l. induction n as [|n IH]; intros l Hs Hle Hk; [lia|]. cbn [exchange_poll].
  intros g Hg. unfold bind at 1, get. cbn [mbind res_bind]. generalize (u32 (fw_irq (g_log g))). intros pending. revert g Hg.
  match goal with |- forall g, ?P g -> twp (?m g) _ => enough (triple P m (fun r _ => r.2 = None)) as H by (intros g Hg; by apply H) end.
  eapply triple_bind; [apply surface_emit|]. intros [].
  apply (triple_bind _ _ _ (fun _ g => exists l', at_surface (l ++ [IrqRd pending] ++ l') g /\ irq_reads l' = 0%nat)).
  { destruct (negb _).
    - eapply triple_bind; [apply surface_emit|]. intros []. eapply triple_conseq; [apply surface_emit|done|].
      intros [] g Hg. exists [IrqAck pending; Fence]. rewrite -!app_assoc in Hg. by split.
    - apply triple_ret. intros g Hg. exists []. by split. }
  intros [] g (l' & Hg & Hl'). revert g Hg. set (l1 := l ++ [IrqRd pending] ++ l').
  assert (sent l1) as Hs1 by (apply elem_of_app; by left).
  assert (irq_reads l1 = S (irq_reads l)) as Hk1.
  { unfold l1. rewrite !irq_reads_app Hl'. change (irq_reads [IrqRd pending]) with 1%nat. lia. }
  match goal with |- forall g, ?P g -> twp (?m g) _ => enough (triple P m (fun r _ => r.2 = None)) as H by (intros g Hg; by apply H) end.
  assert (forall l2, irq_reads (l1 ++ l2) = (S (irq_reads l) + irq_reads l2)%nat /\ sent (l1 ++ l2)) as Hl2.
  { intros l2. rewrite irq_reads_app Hk1. split; [done|]. apply elem_of_app. by left. }
  eapply triple_bind; [apply surface_ld; lia|]. intros hd g [Hg (m & Hm & Hhd)]. revert g Hg.
  destruct (decide (S (irq_reads l) <= k)%nat) as [Hbusy|Hdone].
  - rewrite Hhd (pr_busy _ _ _ _ _ _ _ _ _ _ Hpr l1 m Hm Hs1 ltac:(lia)). cbn [Z.eqb].
    match goal with |- forall g, ?P g -> twp (?m g) _ => enough (triple P m (fun r _ => r.2 = None)) as H by (intros g Hg; by apply H) end.
    eapply triple_bind; [by apply serve_quiet|]. intros r g (-> & v & Hg). revert g Hg. rewrite -app_assoc.
    match goal with |- forall g, ?P g -> twp (?m g) _ => enough (triple P m (fun r _ => r.2 = None)) as H by (intros g Hg; by apply H) end.
    eapply triple_bind; [apply surface_ld; lia|]. intros hd2 g [Hg (m2 & Hm2 & Hhd2)].
    match type of Hhd2 with _ = word64_at (fw_ipc (_ ++ (_ ++ ?l2)) _) _ => destruct (Hl2 l2) as [Hk2 Hs2] end.
    rewrite Hhd2 (pr_busy _ _ _ _ _ _ _ _ _ _ Hpr _ m2 Hm2 Hs2 ltac:(rewrite Hk2; cbn; lia)). cbn [Z.eqb negb]. rewrite -app_assoc in Hg.
    match type of Hg with at_surface (_ ++ ?l3) _ => destruct (Hl2 l3) as [Hk3 Hs3] end.
    refine (IH _ Hs3 _ _ g Hg); rewrite Hk3; cbn; lia.
  - assert (forall x, Z.land (Z.lor x 1) 1 <> 0) as Hodd.
    { intros x Hx. assert (Z.testbit (Z.land (Z.lor x 1) 1) 0 = true) as Hb by (rewrite Z.land_spec Z.lor_spec; apply orb_true_r || by destruct (Z.testbit x 0)).
      rewrite Hx in Hb. done. }
    destruct (pr_done _ _ _ _ _ _ _ _ _ _ Hpr l1 m Hm Hs1 ltac:(lia)) as (E1 & _). rewrite Hhd E1 (proj2 (Z.eqb_neq _ _) (Hodd dma)).
    match goal with |- forall g, ?P g -> twp (?m g) _ => enough (triple P m (fun r _ => r.2 = None)) as H by (intros g Hg; by apply H);
      apply (triple_bind _ _ _ (fun r g => r = (cursor, inl false) /\ P g)); [by apply triple_ret|] end.
    intros r g [-> Hg]. revert g Hg.
    match goal with |- forall g, ?P g -> twp (?m g) _ => enough (triple P m (fun r _ => r.2 = None)) as H by (intros g Hg; by apply H) end.
    eapply triple_bind; [apply surface_ld; lia|]. intros hd2 g [Hg (m2 & Hm2 & Hhd2)].
    match type of Hhd2 with _ = word64_at (fw_ipc (_ ++ (_ ++ ?l2)) _) _ => destruct (Hl2 l2) as [Hk2 Hs2] end.
    destruct (pr_done _ _ _ _ _ _ _ _ _ _ Hpr _ m2 Hm2 Hs2 ltac:(rewrite Hk2; cbn; lia)) as (E2 & _).
    rewrite Hhd2 E2 (proj2 (Z.eqb_neq _ _) (Hodd dma)). cbn [negb]. rewrite -app_assoc in Hg.
    match type of Hg with at_surface (_ ++ ?l3) _ => destruct (Hl2 l3) as [Hk3 Hs3] end.
    pose proof (answer_accepted _ Hs3 ltac:(rewrite Hk3; cbn; lia) g Hg) as Ha. unfold bind.
    destruct (exchange_verdict _ _ _ _ _ g) as [[g' r]| |]; [|done..]. cbn in Ha |- *. done.
Qed.

(** The whole exchange. *)
Lemma exchange_completes g :
  reached d0 i dma L cursors [] g -> g_ipc_iova g = iova -> g_ipc_size g = size -> g_held g = true -> g_chman_ok g = true ->
  8 <= length <= SZ_16K -> io = cs_off (layout ch) + default 0 (cursors !! Z.to_nat ch) * 64 -> cs_bit (layout ch) <> 5 ->
  twp (ane_rtclient_legacy_exchange i length opcode ch g) (fun r => r.2 = None).
Proof using HD HFL Hpr Hio Hio' Hch.
  intros Hg Hiova Hsize Hheld Hok Hlen Eio Hbit.
  assert (at_surface [] g) as Hat by done. clear Hg Hiova Hsize.
  unfold ane_rtclient_legacy_exchange. rewrite bind_get. cbv beta. rewrite Hheld Hok. cbn [andb negb].
  revert g Hat Hheld Hok.
  match goal with |- forall g, ?P g -> _ -> _ -> twp (?m g) _ => enough (triple P m (fun r _ => r = None)) as H
    by (intros g Hg _ _; by apply H) end.
  apply (triple_bind _ _ _ (fun _ g => at_surface [] g /\ ane_t6021_chman_check (g_ipc g) (g_ipc_iova g) = Ret 0)).
  { intros g ((h & Hg) & Hv & Hs). pose proof (fw_act_at d0 i dma L cursors h [] g Hg) as H. cbn in H |- *.
    split; [split; [by exists h|done]|]. rewrite Hv. destruct Hg as ([[_ [S1 _ _ _] _ _] _] & -> & _).
    apply (pr_table _ _ _ _ _ _ _ _ _ _ Hpr). by rewrite S1. }
  intros [] g [Hg Hchk]. rewrite (bind_lift _ _ _ 0); [|exact Hchk]. cbn [negb Z.eqb].
  rewrite bind_get. cbv beta.
  pose proof (malloc_cursor_ok d0 (Some i) g (reached_inv _ _ _ _ _ _ _ (proj1 Hg))) as Hcur.
  generalize dependent (g_malloc_cursor g). intros cursor Hcur.
  rewrite bind_get. cbv beta.
  destruct (cmd_mem d0 (Some i) g i (reached_inv _ _ _ _ _ _ _ (proj1 Hg)) eq_refl) as (b & mb & Hb & _ & _ & _ & Hbs).
  pose proof (reached_dma _ _ _ _ _ _ _ (proj1 Hg)) as Hdma. rewrite Hb in Hdma |- *. cbn [default] in Hdma |- *. rewrite Hbs.
  assert ((length <? 8) || (length >? SZ_16K) || (ch >=? ANE_T6021_CHMAN_COUNT) = false) as -> by (unfold ANE_T6021_CHMAN_COUNT; lia).
  rewrite bind_get. cbv beta.
  assert (g_cmd_cursor g = cursors) as -> by by destruct Hg as ((h & _ & _ & -> & _) & _). rewrite -Eio.
  revert g Hg Hchk Hb.
  match goal with |- forall g, ?P g -> _ -> _ -> twp (?m g) _ => enough (triple P m (fun r _ => r = None)) as H
    by (intros g Hg _ _; by apply H) end.
  eapply triple_bind; [apply surface_ld; lia|]. intros hd g [Hg (m & Hm & Hhd)]. revert g Hg.
  pose proof (pr_idle _ _ _ _ _ _ _ _ _ _ Hpr [] m Hm ltac:(set_solver)) as Hidle. rewrite -Hhd in Hidle.
  rewrite (proj2 (Z.eqb_neq _ _) Hidle). cbn [app].
  match goal with |- forall g, ?P g -> twp (?m g) _ => enough (triple P m (fun r _ => r = None)) as H by (intros g Hg; by apply H) end.
  apply (triple_bind _ _ _ (fun r g => r = (cursor, None) /\ exists v, at_surface [Ld io hd; Ld (mslot cursor) v] g)).
  { change (Z.to_nat (cs_size (layout 5))) with 8%nat. cbn [pre_serve]. eapply triple_bind; [by apply serve_quiet|].
    intros r g (-> & v & Hg). split; [done|]. by exists v. }
  intros r g (-> & v & Hg). revert g Hg.
  match goal with |- forall g, ?P g -> twp (?m g) _ => enough (triple P m (fun r _ => r = None)) as H by (intros g Hg; by apply H) end.
  eapply triple_bind; [by apply surface_stb|]. intros []. do 2 (eapply triple_bind; [apply surface_st; lia|]; intros []).
  eapply triple_bind; [apply surface_emit|]. intros []. eapply triple_bind; [apply surface_st; lia|]; intros [].
  do 2 (eapply triple_bind; [apply surface_emit|]; intros []). cbn [app].
  set (l := _ :: _). intros g Hg. rewrite bind_get. cbv beta.
  assert (g_log g = L ++ l) as -> by by destruct Hg as ((h & _ & -> & _) & _).
  pose proof (poll_completes (fw_polls (L ++ l)) cursor l Hcur) as Hpoll. unfold bind.
  assert (sent l) as Hs by (unfold l; set_solver).
  pose proof (pr_polls _ _ _ _ _ _ _ _ _ _ Hpr l) as Hn. specialize (Hpoll Hs ltac:(change (irq_reads l) with 0%nat; lia)
    ltac:(change (irq_reads l) with 0%nat; lia) g Hg).
  destruct (exchange_poll _ _ _ _ _ _ _ g) as [[g' r]| |]; [|done..]. exact Hpoll.
Qed.
End live.

(** ** The channel table handed to the host *)

(** The slots given to the host: those of the host-to-firmware channels. *)
Definition host_slots : list Z :=
  flat_map (fun s => if cs_type s =? 0 then map (fun k => cs_off s + k * 64) (seqZ 0 (cs_size s)) else []) ane_t6021_chman_layout.

Definition slot_init : bytes := 1 :: replicate 23 0.

Lemma host_slot_eq off m k :
  0 <= off + k * 0x40 -> off + k * 0x40 + 24 <= zlen m ->
  host_slot off m k = Ret (patch m (off + k * 0x40) slot_init).
Proof.
  intros H1 H2. unfold host_slot. rewrite memset_eq; [|lia..]. cbn [mbind res_bind].
  set (o := off + k * 0x40) in *. set (zs := replicate _ _).
  assert (zlen zs = 24) as Ez by reflexivity. assert (zlen slot_init = 24) as Ei by reflexivity.
  assert (zlen (patch m o zs) = zlen m) as E1 by (apply zlen_patch; lia).
  assert (zlen (patch m o slot_init) = zlen m) as E2 by (apply zlen_patch; lia).
  rewrite wr8_eq; [|lia]. f_equal. apply bytes_ext; [by rewrite zlen_insert E1 E2|].
  intros j Hj. rewrite zlen_insert E1 in Hj. rewrite byte_at_insert; [|lia..].
  rewrite !byte_at_patch; [|lia..]. rewrite Ez Ei. case_bool_decide as Hoj.
  - subst j. rewrite bool_decide_eq_true_2; [|lia]. by rewrite Z.sub_diag.
  - case_bool_decide as Hin; [|done].
    assert (forall d, 0 < d < 24 -> byte_at zs d = 0 /\ byte_at slot_init d = 0) as Hz.
    { intros d Hd. assert (Forall (fun d => byte_at zs d = 0 /\ byte_at slot_init d = 0) (seqZ 1 23)) as Hall by vm_decide.
      rewrite Forall_forall in Hall. apply Hall, elem_of_seqZ. lia. }
    destruct (Hz (j - o) ltac:(lia)) as [-> ->]. done.
Qed.

(** Any list of slots inside the surface. *)
Definition init_slots (m : bytes) (slots : list Z) : bytes := foldl (fun m o => patch m o slot_init) m slots.

Lemma zlen_init_slots m slots :
  Forall (fun o => 0 <= o /\ o + 24 <= zlen m) slots -> zlen (init_slots m slots) = zlen m.
Proof.
  revert m. induction slots as [|o slots IH]; intros m Hs; [done|]. apply Forall_cons in Hs as [[H1 H2] Hs]. cbn.
  assert (zlen (patch m o slot_init) = zlen m) as E by (apply zlen_patch; [done|by change (zlen slot_init) with 24]).
  unfold init_slots in IH. rewrite IH; [done|]. by rewrite E.
Qed.

Lemma init_slots_app m a b : init_slots m (a ++ b) = init_slots (init_slots m a) b.
Proof. apply foldl_app. Qed.

Lemma host_slots_eq m off n :
  0 <= off -> off + n * 64 <= zlen m ->
  foldM (host_slot off) m (seqZ 0 n) = Ret (init_slots m (map (fun k => off + k * 64) (seqZ 0 n))).
Proof.
  intros Ho Hn. assert (Forall (fun k => 0 <= k < n) (seqZ 0 n)) as Hall.
  { apply Forall_forall. intros k Hk%elem_of_seqZ. lia. }
  revert m Hn Hall. generalize (seqZ 0 n) as ks. intros ks. induction ks as [|k ks IH]; intros m Hn Hall; [done|].
  apply Forall_cons in Hall as [Hk Hall]. cbn [foldM map]. rewrite host_slot_eq; [|lia..]. cbn [mbind res_bind].
  rewrite IH; [done| |done]. rewrite zlen_patch; [done|lia|]. change (zlen slot_init) with 24. lia.
Qed.

Lemma host_init_loop m :
  ANE_T6021_CHMAN_TOTAL <= zlen m ->
  foldM (fun m i =>
    if negb (cs_type (layout i) =? 0) then Ret m
    else foldM (host_slot (cs_off (layout i))) m (seqZ 0 (cs_size (layout i)))) m (seqZ 0 ANE_T6021_CHMAN_COUNT) =
  Ret (init_slots m host_slots).
Proof.
  intros Hm.
  assert (forall k, (k <= 8)%nat -> foldM (fun m i =>
    if negb (cs_type (layout i) =? 0) then Ret m
    else foldM (host_slot (cs_off (layout i))) m (seqZ 0 (cs_size (layout i)))) m (seqZ 0 (Z.of_nat k)) =
    Ret (init_slots m (flat_map (fun s => if cs_type s =? 0 then map (fun k => cs_off s + k * 64) (seqZ 0 (cs_size s)) else [])
      (take k ane_t6021_chman_layout)))) as H; [|exact (H 8%nat ltac:(lia))].
  induction k as [|k IH]; intros Hk; [done|].
  assert (seqZ 0 (Z.of_nat (S k)) = seqZ 0 (Z.of_nat k) ++ [Z.of_nat k]) as ->.
  { rewrite seqZ_S. done. }
  rewrite foldM_app IH; [|lia]. cbn [mbind res_bind foldM].
  destruct (ane_t6021_chman_layout !! k) as [s|] eqn:E; [|apply lookup_ge_None in E; cbn in E; lia].
  assert (layout (Z.of_nat k) = s) as Es by (unfold layout; rewrite Nat2Z.id E; done).
  rewrite (take_S_r _ _ _ E) flat_map_app init_slots_app. cbn [flat_map]. rewrite app_nil_r Es.
  destruct (cs_type s =? 0); cbn [negb]; [|done]. set (m' := init_slots m _).
  assert (zlen m' = zlen m) as Ez.
  { apply zlen_init_slots. assert (Forall (fun o => 0 <= o /\ o + 24 <= ANE_T6021_CHMAN_TOTAL)
      (flat_map (fun s => if cs_type s =? 0 then map (fun k => cs_off s + k * 64) (seqZ 0 (cs_size s)) else [])
        (take k ane_t6021_chman_layout))) as Hall.
    { assert (Forall (fun o => 0 <= o /\ o + 24 <= ANE_T6021_CHMAN_TOTAL) host_slots) as Hh by vm_decide.
      unfold host_slots in Hh. rewrite -(take_drop k ane_t6021_chman_layout) flat_map_app in Hh. by apply Forall_app in Hh as [? _]. }
    eapply Forall_impl; [exact Hall|]. cbn. lia. }
  pose proof (channel_ok (Z.of_nat k) ltac:(lia)) as Hl. rewrite Es in Hl.
  rewrite host_slots_eq; [done|lia|]. rewrite Ez. lia.
Qed.

Lemma init_slots_writes m slots : init_slots m slots = apply_writes m (map (fun o => (o, slot_init)) slots).
Proof. revert m. induction slots as [|o slots IH]; intros m; [done|]. exact (IH (patch m o slot_init)). Qed.

Lemma chman_check_zero m dva :
  ANE_T6021_CHMAN_TOTAL <= zlen m ->
  ane_t6021_chman_check m dva = Ret 0 <-> forall i, 0 <= i < 8 -> ane_t6021_chman_entry_ok m i dva = Ret true.
Proof.
  intros Hz. unfold ane_t6021_chman_check.
  pose (f := fun bad i => ok ← ane_t6021_chman_entry_ok m i dva;
    Ret (if ok : bool then bad else Z.lor bad (u32 (Z.shiftl 1 i)))). fold f.
  assert (forall l acc, Forall (fun i => 0 <= i < 8) l -> 0 <= acc ->
    exists b, foldM f acc l = Ret b /\ 0 <= b /\
      (b = 0 <-> acc = 0 /\ Forall (fun i => ane_t6021_chman_entry_ok m i dva = Ret true) l)) as H.
  { induction l as [|i l IH]; intros acc Hl Ha; [exists acc; by repeat split; try tauto|].
    apply Forall_cons in Hl as [Hi Hl]. cbn [foldM].
    destruct (entry_total m i dva Hz Hi) as [b Eb].
    assert (f acc i = Ret (if b then acc else Z.lor acc (u32 (Z.shiftl 1 i)))) as -> by (unfold f; by rewrite Eb).
    cbn [mbind res_bind].
    assert (0 <= u32 (Z.shiftl 1 i) /\ u32 (Z.shiftl 1 i) <> 0) as [Hp Hnz].
    { assert (Forall (fun i => 0 <= u32 (Z.shiftl 1 i) /\ u32 (Z.shiftl 1 i) <> 0) (seqZ 0 8)) as Hall by vm_decide.
      rewrite Forall_forall in Hall. apply Hall, elem_of_seqZ. lia. }
    destruct b.
    - destruct (IH acc Hl Ha) as (b & Ef & Hb & Hiff). exists b. split; [done|]. split; [done|]. rewrite Hiff Forall_cons. tauto.
    - destruct (IH (Z.lor acc (u32 (Z.shiftl 1 i))) Hl) as (b & Ef & Hb & Hiff); [by apply Z.lor_nonneg|].
      exists b. split; [done|]. split; [done|]. rewrite Hiff Z.lor_eq_0_iff Forall_cons Eb. split; [naive_solver|].
      by intros (_ & [=] & _). }
  destruct (H (seqZ 0 ANE_T6021_CHMAN_COUNT) 0) as (b & -> & _ & Hiff); [vm_decide|done|].
  assert (Ret b = Ret 0 <-> b = 0) as -> by (split; [by intros [=]|by intros ->]).
  rewrite Hiff Forall_forall. setoid_rewrite elem_of_seqZ. unfold ANE_T6021_CHMAN_COUNT. split.
  - intros [_ Hall] i Hi. apply Hall. lia.
  - intros Hall. split; [done|]. intros i Hi. apply Hall. lia.
Qed.

(** The hand-over of the rings is exact: it succeeds iff the surface is
    large enough and all eight entries of the table the firmware wrote have
    the pinned name, type, bit, size and address; then every slot of the four
    host-to-firmware channels is host-owned with an empty body, and no other
    byte of the surface changed. Otherwise nothing is written. *)
Theorem chman_host_init_exact m dva :
  exists m' ok, ane_t6021_chman_host_init (Some m) (zlen m) dva = Ret (Some m', ok) /\
    (ok = true <-> ANE_T6021_CHMAN_TOTAL <= zlen m /\ dva <= U64_MAX - ANE_T6021_CHMAN_TOTAL /\
      forall i, 0 <= i < 8 -> ane_t6021_chman_entry_ok m i dva = Ret true) /\
    (ok = false -> m' = m) /\
    (ok = true -> Forall (fun o => slice m' o 24 = slot_init) host_slots /\ length host_slots = 104%nat /\
      forall j, 0 <= j -> Forall (fun o => ~ o <= j < o + 24) host_slots -> byte_at m' j = byte_at m j).
Proof.
  unfold ane_t6021_chman_host_init.
  destruct (Z.ltb_spec (zlen m) ANE_T6021_CHMAN_TOTAL) as [Hlt|Hge]; cbn [orb].
  { exists m, false. split; [done|]. split; [split; [done|]; lia|]. done. }
  destruct (Z.gtb_spec dva (U64_MAX - ANE_T6021_CHMAN_TOTAL)) as [Hgt|Hle].
  { exists m, false. split; [done|]. split; [split; [done|]; lia|]. done. }
  destruct (check_total m dva Hge) as [bad Ebad]. rewrite Ebad. cbn [mbind res_bind].
  destruct (Z.eqb_spec bad 0) as [->|Hnz]; cbn [negb].
  - rewrite host_init_loop; [|done]. cbn [mbind res_bind]. eexists _, true. split; [reflexivity|].
    split; [by rewrite -(chman_check_zero m dva Hge)|]. split; [done|]. intros _.
    assert (ascending 0 (zlen m) (map (fun o => (o, slot_init)) host_slots) = true) as Hasc.
    { apply (ascending_mono 0 ANE_T6021_CHMAN_TOTAL); [done|]. vm_compute. reflexivity. }
    rewrite init_slots_writes. destruct (apply_writes_in m _ 0 ltac:(done) Hasc) as [Hin Hout].
    split; [by apply Forall_fmap in Hin|]. split; [vm_compute; reflexivity|]. intros j Hj Hall. apply Hout; [done|].
    by apply Forall_fmap.
  - exists m, false. split; [done|]. split; [|done]. split; [done|]. intros (_ & _ & Hall).
    rewrite -(chman_check_zero m dva Hge) Ebad in Hall. by injection Hall.
Qed.

(** ** The transport from the probe on *)

Section transport.
Context `{HI : Iommu} {HC : DmaCoherent} {HF : Firmware}.

(** The command buffer, allocated by the probe once the table is valid. *)
Definition set_cmd_buf (b : option nat) (g : rtclient) : rtclient :=
  RtClient (g_ipc g) (g_ipc_iova g) (g_ipc_size g) (g_fw g) (g_held g) (g_chman_ok g) (g_bufs g) (g_last g)
    (g_allocated g) (g_bytes g) (g_malloc_cursor g) (g_cmd_cursor g) b (g_quarantined g) (g_log g).

Definition probe_cmd_buf : M (option errno) :=
  let! ok := get g_chman_ok in
  if ok : bool then
    let! r := ane_rtclient_legacy_alloc SZ_16K in
    match r with
    | None => modify (fun g => set_cmd_buf (g_last g) g);; ret None
    | Some _ => ret (Some ENOMEM)
    end
  else ret None.

(** The calls of the driver after that. *)
Inductive chan_op :=
  | OpCommand (stats : bool) (length opcode channel : Z)
  | OpSettle
  | OpDrain (channel : Z)
  | OpValidate (boot : bool).

Definition op_ok (o : chan_op) : Prop :=
  match o with
  | OpCommand _ _ _ ch => 0 <= ch
  | OpDrain ch => 0 <= ch < 8
  | _ => True
  end.

Definition run_op (i : nat) (o : chan_op) : M unit :=
  match o with
  | OpCommand stats len opc ch => let! _ := ane_rtclient_command stats i len opc ch in ret tt
  | OpSettle => let! _ := ane_rtclient_malloc_settle in ret tt
  | OpDrain ch => let! _ := ane_rtclient_drain_t2h ch in ret tt
  | OpValidate boot => ane_rtclient_validate_chman boot
  end.

Fixpoint run_ops (i : nat) (os : list chan_op) : M unit :=
  match os with
  | [] => ret tt
  | o :: os' => run_op i o;; run_ops i os'
  end.
End transport.

(** The state the probe starts from. *)
Record fresh `{Iommu} (d0 : domain) (g : rtclient) : Prop := Fresh {
  fr_surface : surface_ok g;
  fr_bufs : g_bufs g = replicate (Z.to_nat ANE_LEGACY_ALLOCS) no_buffer;
  fr_counts : g_allocated g = 0 /\ g_bytes g = 0 /\ g_last g = None /\ g_cmd_buf g = None;
  fr_cursors : g_malloc_cursor g = 0 /\ g_cmd_cursor g = replicate 8 0;
  fr_dom : l_dom (g_fw g) = d0 /\ alias_sane (g_fw g);
}.

Section claims.
Context `{HI : Iommu} {HC : DmaCoherent} `{HD : !DmaLaws} {HF : Firmware} `{HFL : !FirmwareLaws}.

Lemma fresh_inv d0 g : fresh d0 g -> I d0 None g.
Proof using.
  intros [HS B (C1 & C2 & C3 & C4) [M1 M2] [D1 D2]]. split; [|done].
  assert (forall i b, ~ occupied g i b) as Hno.
  { intros i b [Hb Hc]. rewrite B in Hb. apply lookup_replicate in Hb as [-> _]. by apply Hc. }
  split; [split| |split|].
  - rewrite B zlen_replicate. done.
  - rewrite C1. done.
  - intros i b Hb _. rewrite B in Hb. by apply lookup_replicate in Hb as [-> _].
  - rewrite B. apply Forall_replicate. by intros m [=].
  - rewrite C2 B. split; [|done]. generalize (Z.to_nat ANE_LEGACY_ALLOCS). intros n. induction n as [|n IH]; [done|].
    change (replicate (S n) no_buffer) with (no_buffer :: replicate n no_buffer).
    change (table_bytes (no_buffer :: replicate n no_buffer)) with (buf_bytes no_buffer + table_bytes (replicate n no_buffer)).
    rewrite -IH. done.
  - intros i i' b b' j Ho. by destruct (Hno i b).
  - intros i b j Ho. by destruct (Hno i b).
  - intros j _. by rewrite D1.
  - done.
  - done.
  - rewrite M1. done.
  - by rewrite M2.
  - intros ch cu Hcu. rewrite M2 in Hcu. pose proof (lookup_lt_Some _ _ _ Hcu) as Hlt. rewrite length_replicate in Hlt.
    apply lookup_replicate in Hcu as [-> _]. pose proof (channel_ok (Z.of_nat ch) ltac:(lia)). lia.
  - intros i. by rewrite C3.
  - intros i. by rewrite C4.
Qed.

Lemma probe_cmd_buf_spec d0 g :
  I d0 None g -> exists g' r, probe_cmd_buf g = Ret (g', r) /\ I d0 (g_cmd_buf g') g' /\
    (g_chman_ok g = true -> r = None -> exists i, g_cmd_buf g' = Some i).
Proof using HD.
  intros Hg. unfold probe_cmd_buf, bind, get. cbn [mbind res_bind]. destruct (g_chman_ok g).
  2: { exists g, None. split; [done|]. destruct Hg as [Hg Hc]. split; [by split|done]. }
  pose proof (legacy_alloc_inv d0 None SZ_16K ltac:(done) g Hg) as Hinv.
  assert (forall g', ane_rtclient_legacy_alloc SZ_16K g = Ret (g', None) ->
    exists k b, g_last g' = Some k /\ occupied g' k b /\ lb_size b = SZ_16K) as Hnew.
  { intros g' H. unfold ane_rtclient_legacy_alloc, bind, get in H. cbn [mbind res_bind] in H.
    destruct (_ || _); [done|]. unfold lift in H. destruct (ane_legtab_pick _ _ _) as [r| |]; [|done..]. cbn [mbind res_bind] in H.
    destruct r as [k|]; [|done]. destruct (dma_alloc _ _) as [[x d]|]; [|done].
    destruct (g_bufs g !! k) as [b|] eqn:Hb; [|done]. destruct (_ || _); [done|]. injection H as <-.
    eexists k, _. split; [done|]. split; [split|].
    - cbn [g_bufs set_table]. apply list_lookup_insert_eq. by eapply lookup_lt_Some.
    - done.
    - done. }
  destruct (ane_rtclient_legacy_alloc SZ_16K g) as [[g' r]| |]; [|done..]. cbn [mbind res_bind].
  destruct Hinv as [Hi Hc]. cbn in Hi, Hc. destruct r as [e|].
  { exists g', (Some ENOMEM). split; [done|]. split; [by split|done]. }
  destruct (Hnew g' eq_refl) as (k & b & Hl & Ho & Hs). eexists _, None. split; [reflexivity|]. cbn [g_cmd_buf set_cmd_buf].
  split; [|intros _ _; by exists k]. split; [|done]. destruct Hi as [[] [] [] _]. split; [by split..|].
  intros k' Hk. change (g_last g' = Some k') in Hk. rewrite Hl in Hk. injection Hk as <-. by exists b.
Qed.

Lemma run_op_inv d0 i o : op_ok o -> triple (I d0 (Some i)) (run_op i o) (fun _ => I d0 (Some i)).
Proof using HD HFL.
  intros Ho. destruct o as [stats len opc ch| |ch|boot]; cbn in Ho |- *.
  - eapply triple_bind; [by apply command_inv|]. intros r. by apply triple_ret.
  - eapply triple_bind; [apply malloc_settle_inv|]. intros r. by apply triple_ret.
  - eapply triple_bind; [by apply drain_t2h_inv|]. intros r. by apply triple_ret.
  - apply validate_inv.
Qed.

(** C12. From the state the probe starts with, whatever the firmware writes
    into the shared memory and whenever: the allocation of the command buffer
    and then every sequence of commands, settles, drains and validations
    returns without an access outside the surface or a buffer, and keeps the
    invariant: the buffer table's byte count is exact and within its budget,
    the device maps exactly the pages of the buffers in the table, which are
    disjoint, all cursors are inside their rings, and the command buffer is
    never given up. *)
Theorem chman_run_safe d0 g :
  fresh d0 g ->
  exists g1 r, probe_cmd_buf g = Ret (g1, r) /\ chan_inv d0 g1 /\
    forall i os, g_cmd_buf g1 = Some i -> Forall op_ok os ->
      exists g2, run_ops i os g1 = Ret (g2, tt) /\ chan_inv d0 g2 /\ g_cmd_buf g2 = Some i.
Proof using HD HFL.
  intros Hf%fresh_inv. destruct (probe_cmd_buf_spec d0 g Hf) as (g1 & r & E & [Hi _] & _).
  exists g1, r. split; [done|]. split; [done|]. intros i os Hc Hos.
  assert (triple (I d0 (Some i)) (run_ops i os) (fun _ => I d0 (Some i))) as H.
  { clear -Hos HD HFL. induction Hos as [|o os Ho Hos IH]; [by apply triple_ret|]. cbn [run_ops].
    eapply triple_bind; [by apply run_op_inv|]. by intros []. }
  specialize (H g1 (conj Hi Hc)). destruct (run_ops i os g1) as [[g2 []]| |]; [|done..]. exists g2. split; [done|exact H].
Qed.

(** One look at the allocation ring, for any firmware: the loads it makes
    decide what it does, exactly one of seven cases. A MALLOC adds one buffer
    of the requested size in a free slot and answers with its address and
    index, a FREE is answered first and then releases the buffer of that
    address unless it is the command buffer; the header is stored last, after
    a barrier, and the doorbell rung after another. In all other cases
    neither the ring nor the table changes, and the cursor stays. *)
Theorem malloc_service_exact d0 i cursor g :
  chan_inv d0 g -> g_cmd_buf g = Some i -> 0 <= cursor < cs_size (layout 5) ->
  exists g' c r h' l, ane_rtclient_malloc_service cursor g = Ret (g', (c, r)) /\ chan_inv d0 g' /\
    g_log g' = g_log g ++ l /\ (forall k, holds g' k = h' k) /\ service_log i (mslot cursor) (holds g) h' l r /\
    c = match r with inl true => (cursor + 1) mod cs_size (layout 5) | _ => cursor end.
Proof using HD HFL.
  intros Hi Hc Hcur.
  assert (At d0 i (lb_dma (default no_buffer (g_bufs g !! i))) (g_log g) (g_cmd_cursor g) (holds g) [] g) as Hg.
  { split; [by split|]. by rewrite app_nil_r. }
  pose proof (service_exact d0 i _ _ _ cursor _ _ Hcur g Hg) as H.
  destruct (ane_rtclient_malloc_service cursor g) as [[g' [c r]]| |]; [|done..].
  destruct H as (h' & l & ([Hi' _] & Hl & _ & _ & Hh) & Hs & Hr). exists g', c, r, h', l.
  split; [done|]. split; [done|]. split; [exact Hl|]. split; [done|]. by split.
Qed.

(** C13. An exchange, for any firmware: either nothing is sent, an error is
    returned and the channel's cursor stays; or the opcode is stored in the
    command buffer, then the slot's body, then its header after a barrier,
    then the doorbell after another, and these are its only stores outside
    the allocation ring. It returns zero exactly when a later load of the
    header is odd and equal to the command's address with bit 0 set, and the
    loads that follow are the length, a zero, the opcode and a zero status;
    the cursor moves exactly when an odd header was loaded, and a wait that
    ends without one leaves it. *)
Theorem exchange_exact d0 i length opcode ch g :
  chan_inv d0 g -> g_cmd_buf g = Some i -> 0 <= ch ->
  exists g' r l, ane_rtclient_legacy_exchange i length opcode ch g = Ret (g', r) /\ chan_inv d0 g' /\
    g_log g' = g_log g ++ l /\
    exchange_outcome i (lb_dma (default no_buffer (g_bufs g !! i))) (g_cmd_cursor g) length opcode ch r l (g_cmd_cursor g').
Proof using HD HFL.
  intros Hi Hc Hch. set (dma := lb_dma (default no_buffer (g_bufs g !! i))).
  assert (reached d0 i dma (g_log g) (g_cmd_cursor g) [] g) as Hg.
  { exists (holds g). split; [by split|]. by rewrite app_nil_r. }
  pose proof (exchange_trace d0 i dma (g_log g) (g_cmd_cursor g) length opcode ch Hch g Hg) as H.
  destruct (ane_rtclient_legacy_exchange i length opcode ch g) as [[g' r]| |]; [|done..].
  destruct H as ([Hi' _] & l & Hl & Ho). exists g', r, l. split; [done|]. split; [done|]. by split.
Qed.

(** C18. A firmware that keeps the table, posts no request and answers the
    command after [k] polls gets it through: the exchange
    returns zero, the doorbell was rung and the cursor moves to the next slot. *)
Theorem exchange_answered d0 k i length opcode ch g :
  chan_inv d0 g -> g_cmd_buf g = Some i -> g_held g = true -> g_chman_ok g = true ->
  0 <= ch < 8 -> cs_bit (layout ch) <> 5 -> 8 <= length <= SZ_16K ->
  prompt k i (g_log g) (g_ipc_iova g) (g_ipc_size g) (cs_off (layout ch) + default 0 (g_cmd_cursor g !! Z.to_nat ch) * 64)
    (lb_dma (default no_buffer (g_bufs g !! i))) length opcode (cs_bit (layout ch)) ->
  exists g', ane_rtclient_legacy_exchange i length opcode ch g = Ret (g', None) /\ chan_inv d0 g' /\
    g_cmd_cursor g' = step_cursor ch (g_cmd_cursor g) /\
    exists l, g_log g' = g_log g ++ l /\ Bell (cs_bit (layout ch)) ∈ l.
Proof using HD HFL.
  intros Hi Hc Hheld Hok Hch Hbit Hlen Hpr. set (dma := lb_dma (default no_buffer (g_bufs g !! i))) in *.
  assert (reached d0 i dma (g_log g) (g_cmd_cursor g) [] g) as Hg.
  { exists (holds g). split; [by split|]. by rewrite app_nil_r. }
  pose proof (cmd_cursor_ok d0 (Some i) ch g Hch (conj Hi Hc)) as Hcu.
  pose proof (slot_bound ch _ Hch Hcu) as [Hlo Hhi].
  pose proof (exchange_completes d0 i dma (g_log g) (g_cmd_cursor g) (g_ipc_iova g) (g_ipc_size g) k _ length opcode ch
    Hlo Hhi Hch Hpr g Hg eq_refl eq_refl Hheld Hok Hlen eq_refl Hbit) as Hdone.
  pose proof (exchange_trace d0 i dma (g_log g) (g_cmd_cursor g) length opcode ch ltac:(lia) g Hg) as Htr.
  destruct (ane_rtclient_legacy_exchange i length opcode ch g) as [[g' r]| |]; [|done..]. cbn in Hdone. subst r.
  exists g'. split; [done|]. destruct Htr as ([Hi' _] & l & Hl & Ho). 
  destruct Ho as [(_ & [] & _)|(pre & mid & _ & _ & [(_ & _ & [?|[?|?]])|(hd & tail & -> & _ & Hcs & _)])]; [done..|].
  split; [exact Hi'|]. split; [exact Hcs|]. eexists. split; [exact Hl|]. unfold publish. clear. set_solver.
Qed.
End claims.

(** ** A client and a firmware to run *)

(** Reads of the table depend on its bytes only. *)
Lemma strncmp_ext m w off s n :
  0 <= off -> off + Z.of_nat n <= 0x800 -> 0x800 <= zlen m -> 0x800 <= zlen w ->
  (forall j, 0 <= j < 0x800 -> byte_at m j = byte_at w j) -> strncmp_eq m off s n = strncmp_eq w off s n.
Proof.
  intros Ho Hn Hm Hw Hb. revert off s Ho Hn. induction n as [|n IH]; intros off s Ho Hn; [by destruct s|].
  destruct s as [|x s]; [done|]. cbn [strncmp_eq]. rewrite !rd8_eq; [|lia..]. rewrite Hb; [|lia]. cbn [mbind res_bind].
  destruct (negb _); [done|]. destruct (_ =? 0); [done|]. apply IH; lia.
Qed.

Lemma entry_ext m w i dva :
  0x800 <= zlen m -> 0x800 <= zlen w -> 0 <= i < 8 -> (forall j, 0 <= j < 0x800 -> byte_at m j = byte_at w j) ->
  ane_t6021_chman_entry_ok m i dva = ane_t6021_chman_entry_ok w i dva.
Proof.
  intros Hm Hw Hi Hb. unfold ane_t6021_chman_entry_ok, ANE_T6021_CHMAN_ENTRY_SIZE.
  rewrite (strncmp_ext m w); [|unfold ANE_T6021_CHMAN_NAME_LEN; lia..|done].
  rewrite !le32_eq; [|lia..]. rewrite !le64_eq; [|lia..].
  assert (forall p, 0 <= p -> p + 4 <= 0x800 -> word32_at m p = word32_at w p) as H32.
  { intros p Hp Hp'. apply word32_at_ext. intros j Hj. apply Hb. lia. }
  unfold word64_at. rewrite !H32; [done|lia..].
Qed.

(** Words inside a stored range. *)
Lemma word64_inside m o w p :
  slice m o (zlen w) = w -> 0 <= o -> 0 <= p -> p + 8 <= zlen w -> word64_at m (o + p) = word64_at w p.
Proof.
  intros Hs Ho Hp Hw. assert (forall j, 0 <= j < zlen w -> byte_at m (o + j) = byte_at w j) as Hb.
  { intros j Hj. by rewrite -(byte_at_slice m o (zlen w) j) // Hs. }
  unfold word64_at. rewrite (word32_at_ext m w (o + p) p); [|intros j Hj; rewrite -Hb; [f_equal|]; lia].
  rewrite (word32_at_ext m w (o + p + 4) (p + 4)); [done|]. intros j Hj. rewrite -Hb; [f_equal|]; lia.
Qed.

(** The client as the probe finds it: a surface of zeroes, an empty table. *)
Definition sample_ipc_iova : Z := 0x80000000.

Definition sample_client : @rtclient (sample_iommu 14) :=
  @RtClient (sample_iommu 14) (replicate (Z.to_nat ANE_T6021_CHMAN_TOTAL) 0) sample_ipc_iova ANE_T6021_CHMAN_TOTAL small_state
    true true (replicate (Z.to_nat ANE_LEGACY_ALLOCS) no_buffer) None 0 0 0 (replicate 8 0) None false [].

Lemma sample_fresh : @fresh (sample_iommu 14) ∅ sample_client.
Proof.
  split; [split| | | |].
  - cbn [g_ipc g_ipc_size sample_client]. rewrite zlen_replicate. done.
  - apply Forall_replicate. unfold byte_ok. lia.
  - cbn [g_ipc_size sample_client]. unfold ANE_T6021_CHMAN_TOTAL. lia.
  - cbn [g_ipc_iova sample_client]. unfold sample_ipc_iova. change P with 16384. lia.
  - done.
  - done.
  - done.
  - split; [done|]. exact small_sane.
Qed.

(** The firmware: it writes the pinned table, leaves the allocation ring to
    the host, takes the command of slot 0 of the IO channel when its doorbell
    is rung and answers it at the third poll. *)
Definition sample_table : bytes :=
  flat_map (fun s => let nm := c_string (cs_name s) in
    nm ++ replicate (64 - length nm) 0 ++ le_bytes 4 (cs_type s) ++ le_bytes 4 (cs_bit s) ++ le_bytes 8 (cs_size s) ++
    le_bytes 8 (sample_ipc_iova + cs_off s) ++ replicate 168 0) ane_t6021_chman_layout.

Definition sample_ring : bytes := flat_map (fun _ => 1 :: replicate 63 0) (seq 0 8).

Definition sample_phase (l : list ev) : nat :=
  if decide (Bell 1 ∈ l) then if (irq_reads l <=? 2)%nat then 1%nat else 2%nat else 0%nat.

Definition sample_slot (phase : nat) : bytes :=
  match phase with
  | 0%nat => le_bytes 8 1 ++ replicate 16 0
  | 1%nat => replicate 24 0
  | _ => le_bytes 8 0x40000001 ++ le_bytes 8 64 ++ replicate 8 0
  end.

Definition sample_writes (phase : nat) : writes := [(0, sample_table); (0xc800, sample_slot phase); (0xee00, sample_ring)].

Definition sample_firmware : Firmware := {|
  fw_ipc := fun l m => if zlen m =? ANE_T6021_CHMAN_TOTAL then apply_writes m (sample_writes (sample_phase l)) else m;
  fw_buf := fun l i m => if zlen m =? SZ_16K then patch m 4 [7; 0; 0; 0] else m;
  fw_irq := fun l => 0;
  fw_polls := fun l => 3%nat;
|}.

Lemma sample_ascending phase : (phase <= 2)%nat -> ascending 0 ANE_T6021_CHMAN_TOTAL (sample_writes phase) = true.
Proof. intros H. do 3 (destruct phase as [|phase]; [vm_compute; reflexivity|]). lia. Qed.

Lemma sample_phase_le l : (sample_phase l <= 2)%nat.
Proof. unfold sample_phase. destruct (decide _); [|lia]. destruct (_ <=? _)%nat; lia. Qed.

Lemma sample_firmware_laws : @FirmwareLaws sample_firmware.
Proof.
  split; intros l; cbn [fw_ipc fw_buf sample_firmware].
  - intros m. destruct (Z.eqb_spec (zlen m) ANE_T6021_CHMAN_TOTAL) as [E|]; [|done].
    apply (zlen_apply_writes _ _ 0); [done|]. rewrite E. apply sample_ascending, sample_phase_le.
  - intros m Hm. destruct (zlen m =? _); [|done].
    assert (Forall (fun w => bytes_ok w.2) (sample_writes (sample_phase l))) as Hw.
    { assert (Forall (fun p => Forall (fun w => bytes_ok w.2) (sample_writes p)) [0%nat; 1%nat; 2%nat]) as Hall by vm_decide.
      rewrite Forall_forall in Hall. apply Hall. pose proof (sample_phase_le l).
      destruct (sample_phase l) as [|[|[|]]]; [set_solver..|lia]. }
    revert m Hm. induction Hw as [|w ws Hw _ IH]; intros m Hm; [done|]. apply IH. by apply bytes_ok_patch.
  - intros i m. destruct (Z.eqb_spec (zlen m) SZ_16K) as [E|]; [|done]. apply zlen_patch; [done|]. rewrite E. done.
  - intros i m Hm. destruct (zlen m =? _); [|done]. apply bytes_ok_patch; [done|]. vm_decide.
Qed.

(** What it shows of the surface. *)
Lemma sample_surface l m :
  zlen m = ANE_T6021_CHMAN_TOTAL -> let m' := @fw_ipc sample_firmware l m in
  zlen m' = ANE_T6021_CHMAN_TOTAL /\ slice m' 0 (zlen sample_table) = sample_table /\
  slice m' 0xc800 (zlen (sample_slot (sample_phase l))) = sample_slot (sample_phase l) /\
  slice m' 0xee00 (zlen sample_ring) = sample_ring.
Proof.
  intros E. pose proof (@fw_ipc_len sample_firmware sample_firmware_laws l m) as El.
  cbn [fw_ipc sample_firmware] in El |- *. rewrite E Z.eqb_refl in El |- *. split; [done|].
  pose proof (sample_ascending (sample_phase l) (sample_phase_le l)) as Ha. rewrite -E in Ha.
  destruct (apply_writes_in m _ 0 ltac:(done) Ha) as [Hin _].
  unfold sample_writes in Hin at 2. apply Forall_cons in Hin as [H1 Hin]. apply Forall_cons in Hin as [H2 Hin].
  apply Forall_inv in Hin. split; [exact H1|]. split; [exact H2|exact Hin].
Qed.

Lemma sample_prompt :
  @prompt sample_firmware 2 0 [] sample_ipc_iova ANE_T6021_CHMAN_TOTAL 0xc800 0x40000000 64 7 1.
Proof.
  assert (forall l m p, zlen m = ANE_T6021_CHMAN_TOTAL -> 0 <= p <= 16 ->
    word64_at (@fw_ipc sample_firmware l m) (0xc800 + p) = word64_at (sample_slot (sample_phase l)) p) as Hslot.
  { intros l m p Hm Hp. destruct (sample_surface l m Hm) as (_ & _ & H & _). apply word64_inside; [exact H|lia..|].
    pose proof (sample_phase_le l). destruct (sample_phase l) as [|[|[|]]]; [..|lia];
      match goal with |- _ <= zlen ?w => change (zlen w) with 24 end; lia. }
  assert (forall l, Bell 1 ∈ l -> (irq_reads l <= 2)%nat -> sample_phase l = 1%nat) as P1.
  { intros l Hl Hk. unfold sample_phase. rewrite decide_True //. by rewrite (proj2 (Nat.leb_le _ _) Hk). }
  assert (forall l, Bell 1 ∈ l -> (2 < irq_reads l)%nat -> sample_phase l = 2%nat) as P2.
  { intros l Hl Hk. unfold sample_phase. rewrite decide_True //. by rewrite (proj2 (Nat.leb_gt _ _) Hk). }
  split; cbn [app].
  - intros l m Hm. destruct (sample_surface l m Hm) as (Hz & Ht & _). apply chman_check_zero; [by rewrite Hz|]. intros i Hi.
    rewrite (entry_ext _ sample_table); [|rewrite Hz; done|vm_compute; done|done|].
    + assert (Forall (fun i => ane_t6021_chman_entry_ok sample_table i sample_ipc_iova = Ret true) (seqZ 0 8)) as Hall.
      { repeat (apply Forall_cons_2; [vm_compute; reflexivity|]). apply Forall_nil_2. }
      rewrite Forall_forall in Hall. apply Hall, elem_of_seqZ. lia.
    + intros j Hj. rewrite -{1}(Z.add_0_l j) -(byte_at_slice _ 0 (zlen sample_table) j); [by rewrite Ht|done|].
      by change (zlen sample_table) with 0x800.
  - intros l m c Hm Hc. destruct (sample_surface l m Hm) as (_ & _ & _ & H).
    change (mslot c) with (0xee00 + c * 8 * 8). change (cs_size (layout 5)) with 8 in Hc.
    rewrite (word64_inside _ _ _ _ H); [|done|lia|change (zlen sample_ring) with 512; lia].
    assert (Forall (fun c => Z.land (word64_at sample_ring (c * 8 * 8)) 1 <> 0) (seqZ 0 8)) as Hall by vm_decide.
    rewrite Forall_forall in Hall. apply Hall, elem_of_seqZ. lia.
  - intros l m Hm Hb. change 0xc800 with (0xc800 + 0). rewrite Hslot; [|done|lia].
    unfold sample_phase. by rewrite decide_False.
  - intros l m Hm Hb Hk. change 0xc800 with (0xc800 + 0). rewrite Hslot; [|done|lia]. by rewrite P1.
  - intros l m Hm Hb Hk. split; [change 0xc800 with (0xc800 + 0) at 1|split]; (rewrite Hslot; [|done|lia]); by rewrite P2.
  - intros l m Hm _ _. cbn [fw_buf sample_firmware]. rewrite Hm Z.eqb_refl. unfold word16_at.
    rewrite !byte_at_patch; [|first [done|by rewrite Hm]..]. done.
  - intros l. cbn. lia.
Qed.

(** The client after the probe allocated its command buffer. *)
Abbreviation sample_probe := (@probe_cmd_buf (sample_iommu 14) sample_dma sample_client).

Definition sample_ready (x : res (@rtclient (sample_iommu 14) * option errno)) : bool :=
  match x with
  | Ret (g, None) =>
      bool_decide (g_cmd_buf g = Some 0%nat) && bool_decide (g_log g = []) && g_held g && g_chman_ok g &&
      (g_ipc_iova g =? sample_ipc_iova) && (g_ipc_size g =? ANE_T6021_CHMAN_TOTAL) &&
      bool_decide (g_cmd_cursor g = replicate 8 0) && (lb_dma (default no_buffer (g_bufs g !! 0%nat)) =? 0x40000000)
  | _ => false
  end.

Lemma sample_probed :
  exists g, sample_probe = Ret (g, None) /\ chan_inv ∅ g /\ g_cmd_buf g = Some 0%nat /\ g_log g = [] /\ g_held g = true /\
    g_chman_ok g = true /\ g_ipc_iova g = sample_ipc_iova /\ g_ipc_size g = ANE_T6021_CHMAN_TOTAL /\
    g_cmd_cursor g = replicate 8 0 /\ lb_dma (default no_buffer (g_bufs g !! 0%nat)) = 0x40000000.
Proof.
  assert (sample_ready sample_probe = true) as Hr by (vm_compute; reflexivity).
  destruct (@probe_cmd_buf_spec (sample_iommu 14) sample_dma sample_dma_laws ∅ sample_client) as (g & r & E & [Hi _] & _).
  { apply fresh_inv, sample_fresh. }
  rewrite E in Hr |- *. destruct r as [|]; [done|]. cbn [sample_ready] in Hr.
  repeat (apply andb_true_iff in Hr as [Hr ?]). repeat match goal with H : bool_decide _ = true |- _ => apply bool_decide_eq_true in H end.
  repeat match goal with H : (_ =? _) = true |- _ => apply Z.eqb_eq in H end. exists g. done.
Qed.

Lemma chman_run_safe_witness :
  exists g1 r g2, sample_probe = Ret (g1, r) /\
    @run_ops (sample_iommu 14) sample_dma sample_firmware 0 [OpValidate true; OpCommand true 64 7 1; OpSettle; OpDrain 6] g1 = Ret (g2, tt) /\
    chan_inv ∅ g2.
Proof.
  destruct (@chman_run_safe (sample_iommu 14) sample_dma sample_dma_laws sample_firmware sample_firmware_laws ∅ sample_client
    sample_fresh) as (g1 & r & E & _ & H).
  destruct sample_probed as (g & E' & _ & Hc & _). rewrite E' in E. injection E as <- <-.
  destruct (H 0%nat [OpValidate true; OpCommand true 64 7 1; OpSettle; OpDrain 6] Hc) as (g2 & E2 & Hi & _).
  { repeat (apply Forall_cons_2; [cbn; lia|]). apply Forall_nil_2. }
  exists g, None, g2. done.
Defined.

Lemma malloc_service_exact_witness :
  exists g g' c r, sample_probe = Ret (g, None) /\
    @ane_rtclient_malloc_service (sample_iommu 14) sample_dma sample_firmware 3 g = Ret (g', (c, r)) /\ chan_inv ∅ g'.
Proof.
  destruct sample_probed as (g & E & Hi & Hc & _).
  destruct (@malloc_service_exact (sample_iommu 14) sample_dma sample_dma_laws sample_firmware sample_firmware_laws ∅ 0 3 g Hi Hc
    ltac:(done)) as (g' & c & r & h & l & Es & Hi' & _).
  by exists g, g', c, r.
Defined.

Lemma exchange_exact_witness :
  exists g g' r, sample_probe = Ret (g, None) /\
    @ane_rtclient_legacy_exchange (sample_iommu 14) sample_dma sample_firmware 0 64 7 1 g = Ret (g', r) /\ chan_inv ∅ g'.
Proof.
  destruct sample_probed as (g & E & Hi & Hc & _).
  destruct (@exchange_exact (sample_iommu 14) sample_dma sample_dma_laws sample_firmware sample_firmware_laws ∅ 0 64 7 1 g Hi Hc
    ltac:(done)) as (g' & r & l & Es & Hi' & _).
  by exists g, g', r.
Defined.

Lemma exchange_answered_witness :
  exists g g', sample_probe = Ret (g, None) /\
    @ane_rtclient_legacy_exchange (sample_iommu 14) sample_dma sample_firmware 0 64 7 1 g = Ret (g', None).
Proof.
  destruct sample_probed as (g & E & Hi & Hc & Hl & Hh & Hok & Hv & Hz & Hcu & Hd).
  destruct (@exchange_answered (sample_iommu 14) sample_dma sample_dma_laws sample_firmware sample_firmware_laws ∅ 2 0 64 7 1 g Hi Hc
    Hh Hok ltac:(done) ltac:(done) ltac:(done)) as (g' & Es & _).
  { rewrite Hl Hv Hz Hcu Hd. exact sample_prompt. }
  by exists g, g'.
Defined.
