(* ===== verification/Adt.v ===== *)
(** * The boot device trees of the H15 and H16 drivers

    Two walkers of Apple's flattened device tree. [src/ane/h16/ane_h16_main.c]
    walks the mapped region without recursion, with a stack of 32 counters,
    and decodes the segments of the preloaded firmware; [src/ane/h15/ane_h15_adt.h]
    walks a blob recursively and refuses malformed ones. Both are compared with
    one specification: the tree a blob encodes.

    Log lines are not modelled. The device-tree nodes the region is found
    through, and its mapping, are parameters. *)

From Stdlib Require Import String.
From S2P Require Import Prelude.

#[local] Open Scope Z_scope.

(** ** Counted loops

    [for (i = 0; i < n; i++) body;] where [n] comes from the data: binary
    recursion on [n], so that a large count costs nothing when the body leaves
    the loop early. *)

Fixpoint upto {S A} (p : positive) (body : S -> res (S + A)) (s : S) : res (S + A) :=
  match p with
  | xH => body s
  | xO p =>
      r ← upto p body s;
      match r with inl s => upto p body s | inr a => Ret (inr a) end
  | xI p =>
      r ← body s;
      match r with
      | inl s =>
          r ← upto p body s;
          match r with inl s => upto p body s | inr a => Ret (inr a) end
      | inr a => Ret (inr a)
      end
  end.

Definition times {S A} (n : Z) (body : S -> res (S + A)) (s : S) : res (S + A) :=
  match n with Zpos p => upto p body s | _ => Ret (inl s) end.

(** ** The H16 walker *)

Definition ADT_MAX_LEN : Z := Z.shiftl 1 30.
Definition ADT_MAX_DEPTH : nat := 32.

Record adt_node := AdtNode {
  n_off : Z;
  n_nprops : Z;
  n_nchildren : Z;
}.

(** [ALIGN(n, 4)] on 32 bits. *)
Definition align4 (n : Z) : Z := Z.land (u32 (n + 3)) 0xfffffffc.

(** The kernel's [tolower]. *)
Definition isupper (c : Z) : bool :=
  (65 <=? c) && (c <=? 90) || (192 <=? c) && (c <=? 222) && negb (c =? 215).
Definition tolower (c : Z) : Z := if isupper c then c + 32 else c.

(** [!strncasecmp(m + off, s, n)]; [s] ends in a zero byte. *)
Fixpoint strncasecmp_eq (m : bytes) (off : Z) (s : bytes) (n : nat) : res bool :=
  match n, s with
  | O, _ => Ret true
  | S n', b :: s' =>
      a ← rd8 m off;
      if (a =? 0) || (b =? 0) then Ret (a =? b)
      else if tolower a =? tolower b then strncasecmp_eq m (off + 1) s' n'
      else Ret false
  | S _, [] => Fault OutOfBounds
  end.

Definition c_bytes (s : string) : bytes :=
  map (fun c => Z.of_N (Ascii.N_of_ascii c)) (list_ascii_of_string s) ++ [0].

Section h16.
(** The mapped region. *)
Context (adt : bytes).

Definition adt_len : Z := zlen adt.

Definition adt_node_at (off : Z) : res adt_node :=
  if off + 8 >? adt_len then Ret (AdtNode off 0 0)
  else
    nprops ← le32 adt off;
    nchildren ← le32 adt (off + 4);
    Ret (AdtNode off nprops nchildren).

Definition adt_end_sentinel : Z := u32 adt_len.

(** The length field of the property at [off], and the end of its body. *)
Definition prop_len (off : Z) : res Z := v ← le32 adt (off + 32); Ret (Z.land v 0x7fffffff).
Definition prop_extent (off len : Z) : Z := off + 36 + align4 len.

(** One property; [inr] when the region ends before it. *)
Definition skip_prop (off : Z) : res (Z + unit) :=
  if off + 36 >? adt_len then Ret (inr tt)
  else
    len ← prop_len off;
    let extent := prop_extent off len in
    if extent >? adt_len then Ret (inr tt) else Ret (inl (u32 extent)).

Record walk := Walk {
  w_off : Z;
  w_depth : nat;
  w_todo : list Z;       (* u32 todo[ADT_MAX_DEPTH] *)
}.

(** [while (!todo[depth]) { if (!depth) return off; depth--; }]. *)
Fixpoint adt_pop (depth : nat) (todo : list Z) : res (option nat) :=
  match todo !! depth with
  | None => Fault OutOfBounds
  | Some n =>
      if n =? 0 then match depth with O => Ret None | S d => adt_pop d todo end
      else Ret (Some depth)
  end.

Definition walk_round (w : walk) : res (walk + Z) :=
  d ← adt_pop (w_depth w) (w_todo w);
  match d with
  | None => Ret (inr (w_off w))
  | Some d =>
      let todo := alter (fun n => u32 (n - 1)) d (w_todo w) in
      let off := w_off w in
      if off + 8 >? adt_len then Ret (inr adt_end_sentinel)
      else
        nprops ← le32 adt off;
        nchildren ← le32 adt (off + 4);
        r ← times nprops skip_prop (u32 (off + 8));
        match r with
        | inr _ => Ret (inr adt_end_sentinel)
        | inl off =>
            if nchildren =? 0 then Ret (inl (Walk off d todo))
            else if (ADT_MAX_DEPTH <=? S d)%nat then Ret (inr adt_end_sentinel)
            else Ret (inl (Walk off (S d) (<[S d := nchildren]> todo)))
        end
  end.

(** Every round but the last consumes the 8 bytes of a node header. *)
Definition walk_fuel : nat := Z.to_nat (adt_len / 8) + 2.

Definition adt_subtree_end (off : Z) : res Z :=
  loop walk_fuel walk_round (Walk off 0 (1 :: replicate (ADT_MAX_DEPTH - 1) 0)).

(** One property of [adt_child]: [Some off] leaves the loop, [None] returns
    the empty node at the end. *)
Definition child_prop (off : Z) : res (Z + option Z) :=
  if off + 36 >? adt_len then Ret (inr (Some off))
  else
    size ← prop_len off;
    let extent := prop_extent off size in
    if extent >? adt_len then Ret (inr None) else Ret (inl (u32 extent)).

Definition child_step (off : Z) : res (Z + Z) :=
  if off + 8 >? adt_len then Ret (inr off) else e ← adt_subtree_end off; Ret (inl e).

Definition adt_child (n : adt_node) (idx : Z) : res adt_node :=
  r ← times (n_nprops n) child_prop (u32 (n_off n + 8));
  match r with
  | inr None => adt_node_at adt_end_sentinel
  | inl off | inr (Some off) =>
      r ← times idx child_step off;
      adt_node_at (match r with inl off | inr off => off end)
  end.

(** The offset and the size of the property's data. *)
Definition prop_step (name : bytes) (off : Z) : res (Z + (errno + Z * Z)) :=
  if off + 36 >? adt_len then Ret (inr (inl ENOENT))
  else
    len ← prop_len off;
    let extent := prop_extent off len in
    if extent >? adt_len then Ret (inr (inl EOVERFLOW))
    else
      eq ← strncasecmp_eq adt off name 32;
      if eq : bool then Ret (inr (inr (off + 36, len)))
      else if extent >? U32_MAX then Ret (inr (inl EOVERFLOW))
      else Ret (inl (u32 extent)).

Definition adt_prop (n : adt_node) (name : string) : res (errno + Z * Z) :=
  r ← times (n_nprops n) (prop_step (c_bytes name)) (u32 (n_off n + 8));
  Ret (match r with inl _ => inl ENOENT | inr r => r end).

Definition arm_io_step (root : adt_node) (i : Z) : res (Z + adt_node) :=
  c ← adt_child root i;
  r ← adt_prop c "name";
  match r with
  | inr (data, size) =>
      if size >=? 7 then
        eq ← strncasecmp_eq adt data (c_bytes "arm-io") 7;
        Ret (if eq : bool then inr c else inl (u32 (i + 1)))
      else Ret (inl (u32 (i + 1)))
  | inl _ => Ret (inl (u32 (i + 1)))
  end.

Definition ane_step (ane_type : Z) (arm_io : adt_node) (i : Z) : res (Z + adt_node) :=
  c ← adt_child arm_io i;
  r ← adt_prop c "ane-type";
  match r with
  | inr (data, size) =>
      if size >=? 4 then
        v ← le32 adt data;
        Ret (if v =? ane_type then inr c else inl (u32 (i + 1)))
      else Ret (inl (u32 (i + 1)))
  | inl _ => Ret (inl (u32 (i + 1)))
  end.

Definition adt_find_ane (ane_type : Z) : res (errno + adt_node) :=
  root ← adt_node_at 0;
  r ← times (n_nchildren root) (arm_io_step root) 0;
  match r with
  | inl _ => Ret (inl ENOENT)
  | inr arm_io =>
      r ← times (n_nchildren arm_io) (ane_step ane_type arm_io) 0;
      Ret (match r with inl _ => inl ENOENT | inr c => inr c end)
  end.

Record ane_h16_seg := H16Seg {
  hs_phys : Z;
  hs_iova : Z;
  hs_size : Z;
}.

Definition decode_entry (data stride : Z) : res ane_h16_seg :=
  v0 ← le64 adt data;
  v1 ← le64 adt (data + 8);
  v2 ← le64 adt (data + 16);
  v3 ← (if stride =? 32 then le64 adt (data + 24) else Ret 0);
  Ret (H16Seg v0 (if stride =? 32 then v2 else v1)
         (if stride =? 32 then Z.land v3 0xffffffff else v2)).

Definition ane_h16_seg_decode (data size : Z) : res (errno + ane_h16_seg * ane_h16_seg) :=
  let stride := size / 2 in
  if negb (size mod 2 =? 0) || negb (stride =? 24) && negb (stride =? 32) then Ret (inl EINVAL)
  else
    s0 ← decode_entry data stride;
    s1 ← decode_entry (data + stride) stride;
    Ret (inr (s0, s1)).

(** [ane_h16_segments] once the region is mapped. *)
Definition h16_segments_mapped (ane_type text_vmsize data_filesize : Z) : res (errno + ane_h16_seg * ane_h16_seg) :=
  root ← adt_node_at 0;
  if n_nchildren root =? 0 then Ret (inl EINVAL)
  else
    r ← adt_find_ane ane_type;
    match r with
    | inl _ => Ret (inl ENOENT)
    | inr ane_node =>
        r ← adt_prop ane_node "segment-ranges";
        match r with
        | inl _ => Ret (inl ENOENT)
        | inr (data, size) =>
            r ← ane_h16_seg_decode data size;
            Ret (match r with
                 | inl e => inl e
                 | inr (s0, s1) =>
                     if negb (hs_size s0 =? text_vmsize) || (hs_size s1 <? data_filesize) then inl EINVAL
                     else inr (s0, s1)
                 end)
        end
    end.
End h16.

(** A child of the reserved-memory node: its label, the size of its resource,
    and what mapping it gives. *)
Record reserved_child := ReservedChild {
  rc_label : option string;
  rc_size : option Z;
  rc_map : errno + bytes;
}.

Fixpoint adt_open_in (nodes : list reserved_child) : errno + bytes :=
  match nodes with
  | [] => inl ENODEV
  | c :: nodes' =>
      if bool_decide (rc_label c = Some "adt"%string) then
        match rc_size c with
        | None => adt_open_in nodes'
        | Some size => if size >? ADT_MAX_LEN then inl EFBIG else rc_map c
        end
      else adt_open_in nodes'
  end.

(** [nodes]: the children of the reserved-memory node, if there is one. *)
Definition ane_h16_adt_open (nodes : option (list reserved_child)) : errno + bytes :=
  match nodes with None => inl ENODEV | Some l => adt_open_in l end.

Definition ane_h16_segments (nodes : option (list reserved_child)) (ane_type text_vmsize data_filesize : Z) :
    res (errno + ane_h16_seg * ane_h16_seg) :=
  match ane_h16_adt_open nodes with
  | inl _ => Ret (inl ENODEV)
  | inr adt => h16_segments_mapped adt ane_type text_vmsize data_filesize
  end.

(** ** The H15 walker *)

Inductive ane_h15_err := ANE_H15_ENOENT | ANE_H15_EFORMAT.

(** [b] is the memory behind the pointer, [len] the length the caller gives. *)
Record ane_h15_adt := H15Adt {
  a_b : bytes;
  a_len : Z;
}.

Definition ANE_H15_ADT_NAME_LEN : Z := 32.
Definition ANE_H15_ADT_PROP_HDR : Z := 36.
Definition ANE_H15_ADT_PROP_ALIGN : Z := 4.

Section h15.
Context (a : ane_h15_adt).

Definition ane_h15_adt_node_at (off : Z) : res (ane_h15_err + adt_node) :=
  if u32 (off + 8) >? a_len a then Ret (inl ANE_H15_EFORMAT)
  else
    nprops ← le32 (a_b a) off;
    nchildren ← le32 (a_b a) (u32 (off + 4));
    Ret (if (nprops >? 4096) || (nchildren >? 4096) then inl ANE_H15_EFORMAT
         else inr (AdtNode off nprops nchildren)).

(** The length field of the property at [off], and the next offset. *)
Definition h15_prop_len (off : Z) : res Z :=
  v ← le32 (a_b a) (u32 (off + ANE_H15_ADT_NAME_LEN)); Ret (Z.land v 0x7fffffff).

Definition h15_skip_prop (off : Z) : res (Z + ane_h15_err) :=
  if u32 (off + ANE_H15_ADT_PROP_HDR) >? a_len a then Ret (inr ANE_H15_EFORMAT)
  else len ← h15_prop_len off; Ret (inl (u32 (off + u32 (ANE_H15_ADT_PROP_HDR + align4 len)))).

(** One child of [ane_h15_adt_subtree_end]; [end_of] is the recursive call. *)
Definition h15_skip_child (end_of : adt_node -> res (ane_h15_err + Z)) (off : Z) : res (Z + ane_h15_err) :=
  c ← ane_h15_adt_node_at off;
  match c with
  | inl e => Ret (inr e)
  | inr c => r ← end_of c; Ret (match r with inl e => inr e | inr off => inl off end)
  end.

Fixpoint h15_subtree_end (fuel : nat) (n : adt_node) : res (ane_h15_err + Z) :=
  match fuel with
  | O => Fault OutOfFuel
  | S fuel' =>
      r ← times (n_nprops n) h15_skip_prop (u32 (n_off n + 8));
      match r with
      | inr e => Ret (inl e)
      | inl off =>
          r ← times (n_nchildren n) (h15_skip_child (h15_subtree_end fuel')) off;
          Ret (match r with
               | inr e => inl e
               | inl off => if off >? a_len a then inl ANE_H15_EFORMAT else inr off
               end)
      end
  end.

(** A level of nesting consumes the 8 bytes of a node header. *)
Definition h15_fuel : nat := Z.to_nat (a_len a / 8) + 1.

Definition ane_h15_adt_subtree_end (n : adt_node) : res (ane_h15_err + Z) := h15_subtree_end h15_fuel n.

Definition ane_h15_adt_nth_child_off (parent : adt_node) (i : Z) : res (ane_h15_err + Z) :=
  if i >=? n_nchildren parent then Ret (inl ANE_H15_ENOENT)
  else
    r ← times (n_nprops parent) h15_skip_prop (u32 (n_off parent + 8));
    match r with
    | inr e => Ret (inl e)
    | inl off =>
        r ← times i (h15_skip_child ane_h15_adt_subtree_end) off;
        Ret (match r with inr e => inl e | inl off => inr off end)
    end.

Definition h15_prop_step (name : bytes) (off : Z) : res (Z + (ane_h15_err + Z * Z)) :=
  if u32 (off + ANE_H15_ADT_PROP_HDR) >? a_len a then Ret (inr (inl ANE_H15_EFORMAT))
  else
    len ← h15_prop_len off;
    let next := u32 (off + u32 (ANE_H15_ADT_PROP_HDR + align4 len)) in
    if next >? a_len a then Ret (inr (inl ANE_H15_EFORMAT))
    else
      eq ← strncmp_eq (a_b a) off name (Z.to_nat ANE_H15_ADT_NAME_LEN);
      Ret (if eq : bool then inr (inr (off + ANE_H15_ADT_PROP_HDR, len)) else inl next).

Definition ane_h15_adt_prop (n : adt_node) (name : string) : res (ane_h15_err + Z * Z) :=
  r ← times (n_nprops n) (h15_prop_step (c_bytes name)) (u32 (n_off n + 8));
  Ret (match r with inl _ => inl ANE_H15_ENOENT | inr r => r end).

(** [size > 0 && !strncmp(nm, name, strlen(name)) && nm[strlen(name)] == 0]. *)
Definition h15_name_is (name : string) (nm size : Z) : res bool :=
  if size >? 0 then
    let n := (length (c_bytes name) - 1)%nat in
    eq ← strncmp_eq (a_b a) nm (c_bytes name) n;
    if eq : bool then v ← rd8 (a_b a) (nm + Z.of_nat n); Ret (v =? 0) else Ret false
  else Ret false.

Definition h15_named_step (parent : adt_node) (name : string) (i : Z) : res (Z + (ane_h15_err + adt_node)) :=
  r ← ane_h15_adt_nth_child_off parent i;
  match r with
  | inl e => Ret (inr (inl e))
  | inr off =>
      c ← ane_h15_adt_node_at off;
      match c with
      | inl e => Ret (inr (inl e))
      | inr c =>
          r ← ane_h15_adt_prop c "name";
          match r with
          | inl _ => Ret (inl (u32 (i + 1)))
          | inr (nm, size) =>
              eq ← h15_name_is name nm size;
              Ret (if eq : bool then inr (inr c) else inl (u32 (i + 1)))
          end
      end
  end.

Definition ane_h15_adt_child_named (parent : adt_node) (name : string) : res (ane_h15_err + adt_node) :=
  r ← times (n_nchildren parent) (h15_named_step parent name) 0;
  Ret (match r with inl _ => inl ANE_H15_ENOENT | inr r => r end).

Definition h15_ane_step (ane_type : Z) (arm_io : adt_node) (i : Z) : res (Z + (ane_h15_err + adt_node)) :=
  r ← ane_h15_adt_nth_child_off arm_io i;
  match r with
  | inl e => Ret (inr (inl e))     (* [ENOENT] leaves the loop and returns [ENOENT] *)
  | inr off =>
      c ← ane_h15_adt_node_at off;
      match c with
      | inl e => Ret (inr (inl e))
      | inr c =>
          r ← ane_h15_adt_prop c "ane-type";
          match r with
          | inl ANE_H15_ENOENT => Ret (inl (u32 (i + 1)))
          | inl e => Ret (inr (inl e))
          | inr (data, size) =>
              if size >=? 4 then
                v ← le32 (a_b a) data;
                Ret (if v =? ane_type then inr (inr c) else inl (u32 (i + 1)))
              else Ret (inl (u32 (i + 1)))
          end
      end
  end.

Definition ane_h15_adt_find_ane (ane_type : Z) : res (ane_h15_err + adt_node) :=
  if a_len a <? 8 then Ret (inl ANE_H15_EFORMAT)
  else
    root ← ane_h15_adt_node_at 0;
    match root with
    | inl e => Ret (inl e)
    | inr root =>
        r ← ane_h15_adt_subtree_end root;
        match r with
        | inl e => Ret (inl e)
        | inr _ =>
            r ← ane_h15_adt_child_named root "arm-io";
            match r with
            | inl e => Ret (inl e)
            | inr arm_io =>
                r ← times (n_nchildren arm_io) (h15_ane_step ane_type arm_io) 0;
                Ret (match r with inl _ => inl ANE_H15_ENOENT | inr r => r end)
            end
        end
    end.

Record ane_h15_seg := H15Seg { s15_phys : Z; s15_iova : Z; s15_size : Z }.

Definition h15_decode_entry (row stride : Z) : res (ane_h15_err + ane_h15_seg) :=
  if row + stride >? a_len a then Ret (inl ANE_H15_EFORMAT)
  else
    v0 ← le64 (a_b a) row;
    v1 ← le64 (a_b a) (row + 8);
    v2 ← le64 (a_b a) (row + 16);
    v3 ← (if stride =? 32 then le64 (a_b a) (row + 24) else Ret 0);
    let iova := if stride =? 32 then v2 else v1 in
    let size := if stride =? 32 then v3 else v2 in
    Ret (if (v0 =? 0) || (iova =? 0) || (size =? 0) then inl ANE_H15_EFORMAT
         else if negb (Z.land size (ANE_H15_ADT_PROP_ALIGN - 1) =? 0) then inl ANE_H15_EFORMAT
         else inr (H15Seg v0 iova size)).

Definition ane_h15_adt_segments (ane : adt_node) (text_expect data_min : Z) :
    res (ane_h15_err + ane_h15_seg * ane_h15_seg) :=
  r ← ane_h15_adt_prop ane "segment-ranges";
  match r with
  | inl e => Ret (inl e)
  | inr (data, size) =>
      let stride := size / 2 in
      if negb (size mod 2 =? 0) then Ret (inl ANE_H15_EFORMAT)
      else if negb (stride =? 24) && negb (stride =? 32) then Ret (inl ANE_H15_EFORMAT)
      else
        s0 ← h15_decode_entry data stride;
        match s0 with
        | inl e => Ret (inl e)
        | inr s0 =>
            s1 ← h15_decode_entry (data + stride) stride;
            Ret (match s1 with
                 | inl e => inl e
                 | inr s1 =>
                     if negb (text_expect =? 0) && negb (s15_size s0 =? text_expect) then inl ANE_H15_EFORMAT
                     else if negb (data_min =? 0) && (s15_size s1 <? data_min) then inl ANE_H15_EFORMAT
                     else inr (s0, s1)
                 end)
        end
  end.
End h15.

(** ** Lemmas on counted loops *)

(** Decides the first condition of the goal by arithmetic. *)
Ltac if_lia :=
  match goal with
  | |- context [if ?c then _ else _] => first [replace c with false by lia | replace c with true by lia]
  end.

Fixpoint iterM {T A} (n : nat) (body : T -> res (T + A)) (s : T) : res (T + A) :=
  match n with
  | O => Ret (inl s)
  | S n' => r ← body s; match r with inl s' => iterM n' body s' | inr a => Ret (inr a) end
  end.

Section iter.
Context {T A : Type} (body : T -> res (T + A)).

Lemma iterM_add n k s :
  iterM (n + k) body s =
  r ← iterM n body s; match r with inl s' => iterM k body s' | inr a => Ret (inr a) end.
Proof.
  revert s. induction n as [|n IH]; intros s; [done|]. cbn [Nat.add iterM].
  destruct (body s) as [[s'|a]| |]; cbn [mbind res_bind]; [apply IH|done..].
Qed.

Lemma times_iterM n s : times n body s = iterM (Z.to_nat n) body s.
Proof.
  destruct n as [|p|p]; cbn [times]; [done| |done]. change (Z.to_nat (Z.pos p)) with (Pos.to_nat p).
  revert s. induction p as [p IH|p IH|]; intros s; cbn [upto].
  - rewrite Pos2Nat.inj_xI. cbn [iterM]. destruct (body s) as [[s'|a]| |]; try done. cbn [mbind res_bind].
    replace (2 * Pos.to_nat p)%nat with (Pos.to_nat p + Pos.to_nat p)%nat by lia.
    rewrite iterM_add -IH. destruct (upto p body s') as [[s''|a]| |]; try done. apply IH.
  - rewrite Pos2Nat.inj_xO. replace (2 * Pos.to_nat p)%nat with (Pos.to_nat p + Pos.to_nat p)%nat by lia.
    rewrite iterM_add -IH. destruct (upto p body s) as [[s''|a]| |]; try done. apply IH.
  - change (Pos.to_nat 1) with 1%nat. cbn [iterM]. by destruct (body s) as [[s'|a]| |].
Qed.

(** An invariant of the loop. *)
Lemma twp_times (I : T -> Prop) (Q : A -> Prop) n s :
  (forall s', I s' -> twp (body s') (fun r => match r with inl s'' => I s'' | inr a => Q a end)) ->
  I s -> twp (times n body s) (fun r => match r with inl s' => I s' | inr a => Q a end).
Proof.
  intros Hb. rewrite times_iterM. generalize (Z.to_nat n) as k. intros k. revert s.
  induction k as [|k IH]; intros s HI; [done|]. cbn [iterM]. apply twp_bind.
  eapply twp_mono; [by apply Hb|]. intros [s'|a]; [apply IH|done].
Qed.

(** The same with the number of rounds done. *)
Lemma twp_times_count (I : Z -> T -> Prop) (Q : A -> Prop) n s :
  0 <= n ->
  (forall k s', 0 <= k < n -> I k s' ->
    twp (body s') (fun r => match r with inl s'' => I (k + 1) s'' | inr a => Q a end)) ->
  I 0 s -> twp (times n body s) (fun r => match r with inl s' => I n s' | inr a => Q a end).
Proof.
  intros Hn Hb HI. rewrite times_iterM.
  enough (forall m k s', 0 <= k -> k + Z.of_nat m = n -> I k s' ->
    twp (iterM m body s') (fun r => match r with inl s' => I n s' | inr a => Q a end)) as H by (apply (H _ 0); [lia|lia|done]).
  intros m. induction m as [|m IH]; intros k s' Hk Hkn HI'; cbn [iterM].
  - cbn [twp]. by replace n with k by lia.
  - apply twp_bind. eapply twp_mono; [apply (Hb k); [lia|done]|]. intros [s''|a] Hs; [apply (IH (k + 1)); [lia|lia|done]|done].
Qed.

(** A loop over the elements of a list that leaves it at the first one with
    [P]; [R l s]: in state [s] the elements of [l] are left. *)
Lemma twp_times_find {B} (P : B -> bool) (R : list B -> T -> Prop) (Hit : B -> A -> Prop) (l : list B) n s :
  (forall x l s, R (x :: l) s ->
    twp (body s) (fun r => match r with
                           | inl s' => P x = false /\ R l s'
                           | inr a => P x = true /\ Hit x a
                           end)) ->
  n = zlen l -> R l s ->
  twp (times n body s) (fun r => match List.find P l, r with
                                 | None, inl s' => R [] s'
                                 | Some x, inr a => Hit x a
                                 | _, _ => False
                                 end).
Proof.
  intros Hb -> HR. rewrite times_iterM. unfold zlen. rewrite Nat2Z.id. revert s HR.
  induction l as [|x l IH]; intros s HR; [done|]. cbn [iterM List.find length]. apply twp_bind.
  eapply twp_mono; [by apply Hb|]. intros [s'|a] [HP H]; rewrite HP; [by apply IH|done].
Qed.
End iter.

Lemma find_false {B} (P : B -> bool) l : (forall x, P x = false) -> List.find P l = None.
Proof. intros HP. induction l as [|x l IH]; cbn; [done|]. by rewrite HP. Qed.

(** The same without an exit. *)
Lemma twp_times_all {T A B} (body : T -> res (T + A)) (R : list B -> T -> Prop) (l : list B) n s :
  (forall x l s, R (x :: l) s -> twp (body s) (fun r => match r with inl s' => R l s' | inr _ => False end)) ->
  n = zlen l -> R l s ->
  twp (times n body s) (fun r => match r with inl s' => R [] s' | inr _ => False end).
Proof.
  intros Hb Hn HR. eapply twp_mono; [apply (twp_times_find body (fun _ => false) R (fun _ _ => False) l)|];
    [|done|done|].
  - intros x l' s' HR'. eapply twp_mono; [by eapply Hb|]. by intros [s''|a].
  - intros [s'|a]; by rewrite find_false.
Qed.

(** ** Bytes at an offset *)

Definition at_off (b : bytes) (off : Z) (bs : bytes) : Prop :=
  0 <= off /\ off + zlen bs <= zlen b /\ forall i, 0 <= i < zlen bs -> byte_at b (off + i) = byte_at bs i.

Lemma byte_at_app_l l1 l2 i : 0 <= i < zlen l1 -> byte_at (l1 ++ l2) i = byte_at l1 i.
Proof. unfold zlen, byte_at. intros. rewrite lookup_app_l; [done|lia]. Qed.

Lemma byte_at_app_r l1 l2 i : 0 <= i -> byte_at (l1 ++ l2) (zlen l1 + i) = byte_at l2 i.
Proof. unfold zlen, byte_at. intros. rewrite lookup_app_r; [|lia]. do 2 f_equal. lia. Qed.

Lemma at_app b off x y : at_off b off (x ++ y) <-> at_off b off x /\ at_off b (off + zlen x) y.
Proof.
  unfold at_off. rewrite zlen_app. pose proof (zlen_nonneg x). pose proof (zlen_nonneg y). split.
  - intros (H1 & H2 & H3). split; (split; [lia|split; [lia|]]); intros i Hi.
    + rewrite H3; [|lia]. by apply byte_at_app_l.
    + rewrite -Z.add_assoc H3; [|lia]. apply byte_at_app_r. lia.
  - intros [(H1 & H2 & H3) (H4 & H5 & H6)]. split; [lia|]. split; [lia|]. intros i Hi.
    destruct (Z.lt_ge_cases i (zlen x)).
    + rewrite H3; [|lia]. symmetry. apply byte_at_app_l; lia.
    + replace i with (zlen x + (i - zlen x)) by lia. rewrite byte_at_app_r; [|lia].
      rewrite -H6; [|lia]. f_equal. lia.
Qed.

Lemma at_nil b off : 0 <= off <= zlen b -> at_off b off [].
Proof. intros. split; [lia|]. change (zlen (A:=Z) []) with 0. split; [lia|]. intros; lia. Qed.

Lemma at_whole b : at_off b 0 b.
Proof. split; [lia|]. split; [lia|]. intros i Hi. by rewrite Z.add_0_l. Qed.

Lemma at_range b off bs : at_off b off bs -> 0 <= off /\ off + zlen bs <= zlen b.
Proof. intros (H1 & H2 & H3). by split. Qed.

Lemma at_slice b off n : 0 <= off -> 0 <= n -> off + n <= zlen b -> at_off b off (slice b off n).
Proof.
  intros. unfold at_off. rewrite zlen_slice; [|done..]. split; [done|]. split; [done|].
  intros i Hi. by rewrite byte_at_slice.
Qed.

Lemma at_rd8 b off bs i : at_off b off bs -> 0 <= i < zlen bs -> rd8 b (off + i) = Ret (byte_at bs i).
Proof. intros (H1 & H2 & H3) Hi. rewrite rd8_eq; [|lia]. by rewrite H3. Qed.

Lemma at_cons b off x bs : at_off b off (x :: bs) -> rd8 b off = Ret x /\ at_off b (off + 1) bs.
Proof.
  intros H. split.
  - pose proof (at_rd8 _ _ _ 0 H) as Hr. rewrite Z.add_0_r in Hr. apply Hr. unfold zlen. cbn [length]. lia.
  - by apply (at_app b off [x] bs) in H as [_ H].
Qed.

Lemma at_word32 b off bs i : at_off b off bs -> 0 <= i -> i + 4 <= zlen bs -> le32 b (off + i) = Ret (word32_at bs i).
Proof.
  intros (H1 & H2 & H3) Hi Hl. rewrite le32_eq; [|lia..]. f_equal. apply word32_at_ext.
  intros j Hj. rewrite -Z.add_assoc. apply H3. lia.
Qed.

Lemma at_word64 b off bs i : at_off b off bs -> 0 <= i -> i + 8 <= zlen bs -> le64 b (off + i) = Ret (word64_at bs i).
Proof.
  intros H Hi Hl. unfold le64. rewrite (at_word32 _ _ _ i H); [|lia..]. cbn [mbind res_bind].
  rewrite -Z.add_assoc. rewrite (at_word32 _ _ _ (i + 4) H); [|lia..]. done.
Qed.

Lemma at_le32 b off v : at_off b off (le_bytes 4 v) -> in_range 32 v -> le32 b off = Ret v.
Proof.
  intros H Hv. pose proof (at_word32 _ _ _ 0 H) as E. rewrite Z.add_0_r in E. rewrite E; [|lia|by rewrite zlen_le_bytes].
  by rewrite word32_at_le_bytes wrap_small.
Qed.

(** Conversely the word at an offset is encoded there. *)
Lemma le_bytes_lor4 b0 b1 b2 b3 :
  byte_ok b0 -> byte_ok b1 -> byte_ok b2 -> byte_ok b3 -> le_bytes 4 (lor4 b0 b1 b2 b3) = [b0; b1; b2; b3].
Proof.
  unfold byte_ok. intros. rewrite lor4_sum //. unfold le_bytes, wrap.
  rewrite !Z.shiftr_div_pow2; [|lia..]. change (2 ^ 8) with 256.
  repeat f_equal; dlia.
Qed.

Lemma at_word32_bytes b off :
  bytes_ok b -> 0 <= off -> off + 4 <= zlen b -> at_off b off (le_bytes 4 (word32_at b off)).
Proof.
  intros Hb H0 Hl. unfold word32_at. rewrite le_bytes_lor4; [|by apply byte_at_ok..].
  split; [done|]. split; [done|]. change (zlen _) with 4. intros i Hi.
  assert (i = 0 \/ i = 1 \/ i = 2 \/ i = 3) as [-> | [-> | [-> | ->]]] by lia; rewrite ?Z.add_0_r; done.
Qed.

(** ** Strings *)

(** The bytes of a literal, and the C string at the start of a buffer. *)
Definition chars (s : string) : bytes :=
  map (fun c => Z.of_N (Ascii.N_of_ascii c)) (list_ascii_of_string s).

Fixpoint cstr (bs : bytes) : bytes :=
  match bs with
  | [] => []
  | b :: bs' => if b =? 0 then [] else b :: cstr bs'
  end.

Definition str_eq (bs l : bytes) : bool := bool_decide (cstr bs = l).
Definition str_ieq (bs l : bytes) : bool := bool_decide (map tolower (cstr bs) = map tolower l).

Definition nonzero (l : bytes) : Prop := Forall (fun c => c <> 0) l.

Lemma nonzero_chars s : forallb (fun c => negb (c =? 0)) (chars s) = true -> nonzero (chars s).
Proof. intros H. apply Forall_forall. intros c Hc%list_elem_of_In. rewrite forallb_forall in H. specialize (H c Hc). lia. Qed.

Lemma strncasecmp_cstr b off bs l n :
  nonzero l -> (length l < n <= length bs)%nat -> at_off b off bs ->
  strncasecmp_eq b off (l ++ [0]) n = Ret (str_ieq bs l).
Proof.
  intros Hl. revert off bs n. induction Hl as [|c l Hc Hl IH]; intros off bs n Hn Hat;
    destruct n as [|n], bs as [|a bs]; cbn [length] in Hn; try lia; apply at_cons in Hat as [Ha Hat];
    cbn [strncasecmp_eq app]; rewrite Ha; cbn [mbind res_bind]; unfold str_ieq; cbn [cstr map].
  - rewrite orb_true_r. destruct (Z.eqb_spec a 0); done.
  - rewrite (proj2 (Z.eqb_neq c 0) Hc) orb_false_r. destruct (Z.eqb_spec a 0) as [->|Ha0].
    + by rewrite (proj2 (Z.eqb_neq 0 c) (not_eq_sym Hc)).
    + cbn [map]. destruct (Z.eqb_spec (tolower a) (tolower c)) as [E|E].
      * rewrite (IH _ bs); [|lia|done]. rewrite E. unfold str_ieq. f_equal. apply bool_decide_ext.
        split; [by intros ->|by intros [= H]].
      * rewrite bool_decide_eq_false_2; [done|]. by intros [= H].
Qed.

Lemma strncmp_cstr b off bs l n :
  nonzero l -> (length l < n <= length bs)%nat -> at_off b off bs ->
  strncmp_eq b off (l ++ [0]) n = Ret (str_eq bs l).
Proof.
  intros Hl. revert off bs n. induction Hl as [|c l Hc Hl IH]; intros off bs n Hn Hat;
    destruct n as [|n], bs as [|a bs]; cbn [length] in Hn; try lia; apply at_cons in Hat as [Ha Hat];
    cbn [strncmp_eq app]; rewrite Ha; cbn [mbind res_bind]; unfold str_eq; cbn [cstr].
  - by destruct (Z.eqb_spec a 0).
  - destruct (Z.eqb_spec a c) as [->|Hac]; cbn [negb].
    + rewrite (proj2 (Z.eqb_neq c 0) Hc) (IH _ bs); [|lia|done]. unfold str_eq. f_equal.
      apply bool_decide_ext. split; [by intros ->|by intros [= H]].
    + destruct (Z.eqb_spec a 0) as [->|Ha0]; [done|]. rewrite bool_decide_eq_false_2; [done|].
      by intros [= H].
Qed.

(** A comparison up to the length of [l] and the byte behind it, on a string
    that ends inside [bs]. *)
Lemma strncmp_exact b off bs l :
  nonzero l -> 0 ∈ bs -> at_off b off bs ->
  (eq ← strncmp_eq b off (l ++ [0]) (length l);
   if eq : bool then v ← rd8 b (off + Z.of_nat (length l)); Ret (v =? 0) else Ret false)
  = Ret (str_eq bs l).
Proof.
  intros Hl. revert off bs. induction Hl as [|c l Hc Hl IH]; intros off bs H0 Hat;
    (destruct bs as [|a bs]; [by apply elem_of_nil in H0|]); apply at_cons in Hat as [Ha Hat];
    cbn [strncmp_eq app length]; unfold str_eq; cbn [cstr].
  - cbn [mbind res_bind]. rewrite Z.add_0_r Ha. cbn [mbind res_bind]. by destruct (Z.eqb_spec a 0).
  - rewrite Ha. cbn [mbind res_bind]. destruct (Z.eqb_spec a c) as [->|Hac]; cbn [negb].
    + rewrite (proj2 (Z.eqb_neq c 0) Hc). assert (0 ∈ bs) as H0' by set_solver.
      specialize (IH (off + 1) bs H0' Hat). replace (off + Z.of_nat (S (length l))) with (off + 1 + Z.of_nat (length l)) by lia.
      rewrite IH. unfold str_eq. f_equal. apply bool_decide_ext. split; [by intros ->|by intros [= H]].
    + cbn [mbind res_bind]. destruct (Z.eqb_spec a 0) as [->|Ha0]; [done|]. rewrite bool_decide_eq_false_2; [done|].
      by intros [= H].
Qed.

Lemma c_bytes_chars s : c_bytes s = chars s ++ [0].
Proof. done. Qed.

(** ** The tree a blob encodes *)

Record aprop := AProp {
  ap_name : bytes;       (* 32 bytes *)
  ap_flag : bool;        (* bit 31 of the length word *)
  ap_data : bytes;
  ap_pad : bytes;
}.

Inductive atree := ANode (ps : list aprop) (cs : list atree).

Definition a_props (t : atree) : list aprop := let 'ANode ps _ := t in ps.
Definition a_children (t : atree) : list atree := let 'ANode _ cs := t in cs.

Definition enc_prop (p : aprop) : bytes :=
  ap_name p ++ le_bytes 4 (zlen (ap_data p) + (if ap_flag p then 2 ^ 31 else 0)) ++ ap_data p ++ ap_pad p.

Fixpoint enc (t : atree) : bytes :=
  match t with
  | ANode ps cs => le_bytes 4 (zlen ps) ++ le_bytes 4 (zlen cs) ++ flat_map enc_prop ps ++ flat_map enc cs
  end.

Definition prop_wf (p : aprop) : Prop :=
  zlen (ap_name p) = 32 /\ zlen (ap_data p) < 2 ^ 31 /\ zlen (ap_pad p) = (- zlen (ap_data p)) mod 4.

(** [K] bounds the number of properties and of children of a node. *)
Inductive wf (K : Z) : atree -> Prop :=
  | Wf ps cs :
      Forall prop_wf ps -> zlen ps <= K -> zlen cs <= K -> Forall (wf K) cs -> wf K (ANode ps cs).

Fixpoint height (t : atree) : nat :=
  match t with ANode _ cs => S (foldr (fun c h => Nat.max (height c) h) O cs) end.

Fixpoint nodes (t : atree) : nat :=
  match t with ANode _ cs => S (foldr (fun c n => nodes c + n)%nat O cs) end.

Definition atree_ind' (P : atree -> Prop) (H : forall ps cs, Forall P cs -> P (ANode ps cs)) : forall t, P t :=
  fix go t := match t with
              | ANode ps cs => H ps cs ((fix all cs := match cs return Forall P cs with
                                                      | [] => Forall_nil_2 P
                                                      | c :: cs' => Forall_cons_2 P c cs' (go c) (all cs')
                                                      end) cs)
              end.

Lemma Forall_foldr_max cs h : (foldr (fun c h => Nat.max (height c) h) O cs <= h)%nat <-> Forall (fun c => (height c <= h)%nat) cs.
Proof.
  induction cs as [|c cs IH]; cbn [foldr]; [split; [constructor|lia]|]. rewrite Forall_cons -IH. lia.
Qed.

Lemma wf_inv K t : wf K t ->
  Forall prop_wf (a_props t) /\ zlen (a_props t) <= K /\ zlen (a_children t) <= K /\ Forall (wf K) (a_children t).
Proof. by inversion 1. Qed.

Lemma enc_unfold t :
  enc t = le_bytes 4 (zlen (a_props t)) ++ le_bytes 4 (zlen (a_children t)) ++
          flat_map enc_prop (a_props t) ++ flat_map enc (a_children t).
Proof. by destruct t. Qed.

Lemma align4_eq n : 0 <= n < 2 ^ 31 -> align4 n = n + (- n) mod 4.
Proof.
  intros Hn. unfold align4. rewrite wrap_small; [|lia].
  pose proof (land_align 2 (n + 3)) as H.
  assert (Z.land (n + 3) 0xfffffffc = Z.land (n + 3) (u64 (- 2 ^ 2))) as ->.
  { change (u64 (- 2 ^ 2)) with (Z.lor 0xfffffffc (Z.shiftl 0xffffffff 32)).
    rewrite Z.land_lor_distr_r (land_shiftl_disjoint _ _ 32); [|lia..]. by rewrite Z.lor_0_r. }
  rewrite H; [|lia..]. dlia.
Qed.

Lemma zlen_enc_prop p : prop_wf p -> zlen (enc_prop p) = 36 + align4 (zlen (ap_data p)).
Proof.
  intros (Hn & Hd & Hp). pose proof (zlen_nonneg (ap_data p)). unfold enc_prop.
  rewrite !zlen_app zlen_le_bytes Hn Hp align4_eq; lia.
Qed.

Lemma at_enc b off t :
  at_off b off (enc t) <->
  at_off b off (le_bytes 4 (zlen (a_props t))) /\ at_off b (off + 4) (le_bytes 4 (zlen (a_children t))) /\
  at_off b (off + 8) (flat_map enc_prop (a_props t)) /\
  at_off b (off + 8 + zlen (flat_map enc_prop (a_props t))) (flat_map enc (a_children t)).
Proof.
  rewrite enc_unfold !at_app !zlen_le_bytes. replace (off + Z.of_nat 4 + Z.of_nat 4) with (off + 8) by lia.
  by replace (off + Z.of_nat 4) with (off + 4) by lia.
Qed.

Lemma at_enc_prop b off p :
  zlen (ap_name p) = 32 ->
  at_off b off (enc_prop p) <->
  at_off b off (ap_name p) /\
  at_off b (off + 32) (le_bytes 4 (zlen (ap_data p) + (if ap_flag p then 2 ^ 31 else 0))) /\
  at_off b (off + 36) (ap_data p) /\ at_off b (off + 36 + zlen (ap_data p)) (ap_pad p).
Proof.
  intros Hn. unfold enc_prop. rewrite !at_app zlen_le_bytes Hn.
  by replace (off + 32 + Z.of_nat 4) with (off + 36) by lia.
Qed.

(** *** What is looked up

    The first property with a name, the first child named [arm-io], its first
    child of the engine's type, and the decoded segments. [eq] compares names:
    the H16 walker ignores case, the H15 walker does not. *)

Definition a_prop (eq : bytes -> bytes -> bool) (t : atree) (name : string) : option aprop :=
  List.find (fun p => eq (ap_name p) (chars name)) (a_props t).

Definition is_arm_io (eq : bytes -> bytes -> bool) (t : atree) : bool :=
  match a_prop eq t "name" with
  | Some p => (7 <=? zlen (ap_data p)) && eq (ap_data p) (chars "arm-io")
  | None => false
  end.

Definition is_ane (eq : bytes -> bytes -> bool) (ane_type : Z) (t : atree) : bool :=
  match a_prop eq t "ane-type" with
  | Some p => (4 <=? zlen (ap_data p)) && (word32_at (ap_data p) 0 =? ane_type)
  | None => false
  end.

Definition a_find_ane (eq : bytes -> bytes -> bool) (ane_type : Z) (t : atree) : option atree :=
  match List.find (is_arm_io eq) (a_children t) with
  | Some arm_io => List.find (is_ane eq ane_type) (a_children arm_io)
  | None => None
  end.

(** Entry [i] of a [segment-ranges] property: [{phys, iova, size}] or
    [{phys, x, iova, size}]; [trunc] is what is taken of the last word of the second form. *)
Definition a_seg (data : bytes) (stride i : Z) (trunc : Z -> Z) : Z * Z * Z :=
  let o := i * stride in
  if stride =? 32 then (word64_at data o, word64_at data (o + 16), trunc (word64_at data (o + 24)))
  else (word64_at data o, word64_at data (o + 8), word64_at data (o + 16)).

Definition a_segments16 (ane_type text_vmsize data_filesize : Z) (t : atree) : errno + ane_h16_seg * ane_h16_seg :=
  match a_children t with
  | [] => inl EINVAL
  | _ =>
      match a_find_ane str_ieq ane_type t with
      | None => inl ENOENT
      | Some ane =>
          match a_prop str_ieq ane "segment-ranges" with
          | None => inl ENOENT
          | Some p =>
              let size := zlen (ap_data p) in
              if bool_decide (size = 48 \/ size = 64) then
                let seg i := let '(phys, iova, n) := a_seg (ap_data p) (size / 2) i (fun v => Z.land v 0xffffffff) in H16Seg phys iova n in
                if (hs_size (seg 0) =? text_vmsize) && (data_filesize <=? hs_size (seg 1)) then inr (seg 0, seg 1)
                else inl EINVAL
              else inl EINVAL
          end
      end
  end.

(** The H15 driver takes all 64 bits of the size, and refuses zero words and
    unaligned sizes. *)
Definition seg15_ok (s : ane_h15_seg) : bool :=
  negb (s15_phys s =? 0) && negb (s15_iova s =? 0) && negb (s15_size s =? 0) && (Z.land (s15_size s) 3 =? 0).

Definition a_segments15 (text_expect data_min : Z) (ane : atree) : ane_h15_err + ane_h15_seg * ane_h15_seg :=
  match a_prop str_eq ane "segment-ranges" with
  | None => inl ANE_H15_ENOENT
  | Some p =>
      let size := zlen (ap_data p) in
      if bool_decide (size = 48 \/ size = 64) then
        let seg i := let '(phys, iova, n) := a_seg (ap_data p) (size / 2) i id in H15Seg phys iova n in
        if seg15_ok (seg 0) && seg15_ok (seg 1) &&
           ((text_expect =? 0) || (s15_size (seg 0) =? text_expect)) && ((data_min =? 0) || (data_min <=? s15_size (seg 1)))
        then inr (seg 0, seg 1) else inl ANE_H15_EFORMAT
      else inl ANE_H15_EFORMAT
  end.

(** The names of the nodes below the root hold their terminator. *)
Definition names_terminated (t : atree) : Prop :=
  Forall (fun c => forall p, a_prop str_eq c "name" = Some p -> 0 ∈ ap_data p) (a_children t).

(** Loops over consecutive encodings. *)
Section times_enc.
Context {A B : Type} (b : bytes) (e : B -> bytes) (W : B -> Prop).

Lemma times_enc_find (P : B -> bool) (g : B -> Z -> A) (body : Z -> res (Z + A)) l off :
  (forall x off, W x -> at_off b off (e x) ->
    body off = Ret (if P x then inr (g x off) else inl (off + zlen (e x)))) ->
  Forall W l -> at_off b off (flat_map e l) ->
  match List.find P l with
  | Some x => exists off', at_off b off' (e x) /\ times (zlen l) body off = Ret (inr (g x off'))
  | None => times (zlen l) body off = Ret (inl (off + zlen (flat_map e l)))
  end.
Proof.
  intros Hb HW Hat.
  pose proof (twp_times_find body P
    (fun l' off' => Forall W l' /\ at_off b off' (flat_map e l') /\
                    off' + zlen (flat_map e l') = off + zlen (flat_map e l))
    (fun x a => exists off', at_off b off' (e x) /\ a = g x off') l (zlen l) off) as H.
  assert (twp (times (zlen l) body off) (fun r => match List.find P l, r with
     | None, inl s' => s' = off + zlen (flat_map e l)
     | Some x, inr a => exists off', at_off b off' (e x) /\ a = g x off' | _, _ => False end)) as H'.
  { eapply twp_mono; [apply H; [|done|done]|].
    - intros x l' s (Hw & Hs & He). cbn [flat_map] in Hs, He. apply at_app in Hs as [Hs Hs'].
      apply Forall_cons in Hw as [Hx Hw]. rewrite zlen_app in He.
      rewrite (Hb x s Hx Hs). destruct (P x); cbn [twp]; [by eauto|]. split; [done|]. split; [done|]. split; [done|lia].
    - intros [s'|a]; destruct (List.find P l); try done. intros (_ & _ & E). cbn [flat_map] in E. change (zlen (A:=Z) []) with 0 in E. lia. }
  apply twp_ex in H' as (r & Hr & H'). rewrite Hr. destruct (List.find P l), r as [s'|a]; try done.
  - destruct H' as (off' & ? & ->). eauto.
  - by rewrite H'.
Qed.

Lemma times_enc_all (body : Z -> res (Z + A)) l off :
  (forall x off, W x -> at_off b off (e x) -> body off = Ret (inl (off + zlen (e x)))) ->
  Forall W l -> at_off b off (flat_map e l) ->
  times (zlen l) body off = Ret (inl (off + zlen (flat_map e l))).
Proof.
  intros Hb HW Hat.
  pose proof (twp_times_all body
    (fun l' off' => Forall W l' /\ at_off b off' (flat_map e l') /\
                    off' + zlen (flat_map e l') = off + zlen (flat_map e l)) l (zlen l) off) as H.
  apply twp_ex in H as ([s'|a] & Hr & H'); [|done| |done|done].
  - destruct H' as (_ & _ & E). rewrite Hr. do 2 f_equal. cbn [flat_map] in E. change (zlen (A:=Z) []) with 0 in E. lia.
  - intros x l' s (Hw & Hs & He). cbn [flat_map] in Hs, He. apply at_app in Hs as [Hs Hs'].
    apply Forall_cons in Hw as [Hx Hw]. rewrite zlen_app in He. rewrite (Hb x s Hx Hs). cbn [twp].
    split; [done|]. split; [done|lia].
Qed.
End times_enc.

(** A loop over the indices of a list. *)
Lemma times_index {A B} (P : B -> bool) (Hit : B -> A -> Prop) (body : Z -> res (Z + A)) (l : list B) :
  zlen l <= U32_MAX ->
  (forall pre x post, l = pre ++ x :: post ->
    twp (body (zlen pre)) (fun r => match r with
                                    | inl i => P x = false /\ i = u32 (zlen pre + 1)
                                    | inr a => P x = true /\ Hit x a
                                    end)) ->
  match List.find P l with
  | Some x => exists a, times (zlen l) body 0 = Ret (inr a) /\ Hit x a
  | None => exists i, times (zlen l) body 0 = Ret (inl i)
  end.
Proof.
  intros Hl Hb.
  pose proof (twp_times_find body P (fun l' i => exists pre, l = pre ++ l' /\ i = zlen pre) Hit l (zlen l) 0) as H.
  apply twp_ex in H as (r & Hr & H); [| |done|by exists []].
  - rewrite Hr. destruct (List.find P l), r; try done; eauto.
  - intros x l' i (pre & E & ->). eapply twp_mono; [apply (Hb pre x l' E)|]. intros [i|a]; [|done]. intros [HP ->].
    split; [done|]. exists (pre ++ [x]). rewrite -app_assoc. split; [done|].
    rewrite zlen_app. change (zlen [x]) with 1. apply wrap_small.
    rewrite E zlen_app in Hl. unfold U32_MAX, zlen in *. cbn [length] in Hl. lia.
Qed.

(** ** The H16 walker on an encoded tree *)

Section h16_tree.
Context (b : bytes) (Hlen : zlen b <= 2 ^ 30).

Abbreviation K16 := U32_MAX.

(** What every reader of a property computes first. *)
Lemma prop_enc off p :
  prop_wf p -> at_off b off (enc_prop p) ->
  0 <= off /\ off + zlen (enc_prop p) <= zlen b /\ 36 <= zlen (enc_prop p) /\
  prop_len b off = Ret (zlen (ap_data p)) /\ prop_extent off (zlen (ap_data p)) = off + zlen (enc_prop p).
Proof using Type.
  intros Hw Hat. pose proof (at_range _ _ _ Hat) as [H0 H1]. pose proof (zlen_enc_prop p Hw) as Hz.
  destruct Hw as (Hn & Hd & Hp). pose proof (zlen_nonneg (ap_data p)).
  rewrite align4_eq in Hz; [|done]. pose proof (Z.mod_pos_bound (- zlen (ap_data p)) 4).
  split; [done|]. split; [done|]. split; [lia|]. split.
  - apply at_enc_prop in Hat as (_ & Hv & _); [|done]. unfold prop_len.
    rewrite (at_le32 _ _ _ Hv); [|unfold in_range; destruct (ap_flag p); lia]. cbn [mbind res_bind]. f_equal.
    change 0x7fffffff with (2 ^ 31 - 1). rewrite land_mask_mod; [|lia].
    destruct (ap_flag p); [|rewrite Z.add_0_r; by apply Z.mod_small].
    replace (zlen (ap_data p) + 2 ^ 31) with (zlen (ap_data p) + 1 * 2 ^ 31) by lia.
    rewrite Z.mod_add; [by apply Z.mod_small|lia].
  - unfold prop_extent. rewrite align4_eq; [lia|done].
Qed.

Lemma skip_prop_enc off p :
  prop_wf p -> at_off b off (enc_prop p) -> skip_prop b off = Ret (inl (off + zlen (enc_prop p))).
Proof using Hlen.
  intros Hw Hat. destruct (prop_enc off p Hw Hat) as (H0 & H1 & H2 & Hl & He).
  unfold skip_prop, adt_len. if_lia. rewrite Hl. cbn [mbind res_bind]. rewrite He. if_lia.
  by rewrite wrap_small; [|lia].
Qed.

Lemma child_prop_enc off p :
  prop_wf p -> at_off b off (enc_prop p) -> child_prop b off = Ret (inl (off + zlen (enc_prop p))).
Proof using Hlen.
  intros Hw Hat. destruct (prop_enc off p Hw Hat) as (H0 & H1 & H2 & Hl & He).
  unfold child_prop, adt_len. if_lia. rewrite Hl. cbn [mbind res_bind]. rewrite He. if_lia.
  by rewrite wrap_small; [|lia].
Qed.

Lemma prop_step_enc name off p :
  nonzero name -> (length name < 32)%nat -> prop_wf p -> at_off b off (enc_prop p) ->
  prop_step b (name ++ [0]) off =
  Ret (if str_ieq (ap_name p) name then inr (inr (off + 36, zlen (ap_data p))) else inl (off + zlen (enc_prop p))).
Proof using Hlen.
  intros Hnz Hn Hw Hat. destruct (prop_enc off p Hw Hat) as (H0 & H1 & H2 & Hl & He).
  unfold prop_step, adt_len. if_lia. rewrite Hl. cbn [mbind res_bind]. rewrite He. if_lia.
  destruct Hw as (Hn32 & _). apply at_enc_prop in Hat as (Hat & _); [|done].
  rewrite (strncasecmp_cstr _ _ (ap_name p)); [|done|unfold zlen in Hn32; lia|done]. cbn [mbind res_bind].
  destruct (str_ieq _ _); [done|]. unfold U32_MAX. if_lia. by rewrite wrap_small; [|lia].
Qed.

Definition node_of (off : Z) (t : atree) : adt_node := AdtNode off (zlen (a_props t)) (zlen (a_children t)).

Lemma node_at_enc off t : wf K16 t -> at_off b off (enc t) -> adt_node_at b off = Ret (node_of off t).
Proof using Type.
  intros Hw Hat. apply wf_inv in Hw as (_ & Hp & Hc & _). apply at_enc in Hat as (H1 & H2 & H3 & _).
  pose proof (at_range _ _ _ H1) as [? ?]. pose proof (at_range _ _ _ H2) as [? H4]. rewrite zlen_le_bytes in H4.
  unfold U32_MAX in *. pose proof (zlen_nonneg (a_props t)). pose proof (zlen_nonneg (a_children t)).
  unfold adt_node_at, adt_len. if_lia. rewrite (at_le32 _ _ _ H1); [|unfold in_range; lia]. cbn [mbind res_bind].
  rewrite (at_le32 _ _ _ H2); [|unfold in_range; lia]. done.
Qed.

Lemma adt_prop_enc off t name :
  nonzero (chars name) -> (length (chars name) < 32)%nat -> wf K16 t -> at_off b off (enc t) ->
  match a_prop str_ieq t name with
  | Some p => exists d, at_off b d (ap_data p) /\ prop_wf p /\ adt_prop b (node_of off t) name = Ret (inr (d, zlen (ap_data p)))
  | None => adt_prop b (node_of off t) name = Ret (inl ENOENT)
  end.
Proof using Hlen.
  intros Hnz Hn Hw Hat. apply wf_inv in Hw as (Hps & _). apply at_enc in Hat as (H1 & _ & H3 & _).
  pose proof (at_range _ _ _ H1) as [? ?]. pose proof (at_range _ _ _ H3) as [? H4]. pose proof (zlen_nonneg (flat_map enc_prop (a_props t))).
  unfold adt_prop, a_prop. cbn [n_nprops n_off node_of]. rewrite wrap_small; [|lia].
  rewrite c_bytes_chars.
  pose proof (times_enc_find b enc_prop prop_wf (fun p => str_ieq (ap_name p) (chars name))
    (fun p off => inr (off + 36, zlen (ap_data p)) : errno + Z * Z) (prop_step b (chars name ++ [0]))
    (a_props t) (off + 8) (fun p off => prop_step_enc (chars name) off p Hnz Hn) Hps H3) as HT.
  destruct (List.find _ _) as [p|] eqn:E; [|by rewrite HT].
  destruct HT as (off' & Ha & ->). exists (off' + 36). apply List.find_some in E as [Hin _].
  assert (prop_wf p) as Hp by (rewrite Forall_forall in Hps; apply Hps, list_elem_of_In, Hin).
  apply at_enc_prop in Ha as (_ & _ & Ha & _); [done|apply Hp].
Qed.

(** The iterative walk. Between two subtrees at depth [d] the counters above
    [d] up to the current depth are zero, and those up to [d] are [todo]. *)
Definition level (d : nat) (todo : list Z) (w : walk) : Prop :=
  (d <= w_depth w < ADT_MAX_DEPTH)%nat /\ length (w_todo w) = ADT_MAX_DEPTH /\
  (forall i, (d < i <= w_depth w)%nat -> w_todo w !! i = Some 0) /\
  (forall i, (i <= d)%nat -> w_todo w !! i = todo !! i).

Lemma adt_pop_level d todo w k :
  level d todo w -> todo !! d = Some k -> k <> 0 -> adt_pop (w_depth w) (w_todo w) = Ret (Some d).
Proof using Type.
  intros (Hd & Hl & Hz & He) Hk Hk0. assert (w_todo w !! d = Some k) as Hk' by (rewrite He; [done|lia]).
  destruct w as [off depth td]; cbn [w_depth w_todo] in *. revert Hz. destruct Hd as [Hd _].
  induction Hd as [|m Hm IH]; intros Hz; cbn [adt_pop].
  - destruct d; cbn [adt_pop]; rewrite Hk' (proj2 (Z.eqb_neq k 0) Hk0); done.
  - rewrite (Hz (S m)); [|lia]. apply IH. intros i Hi. apply Hz. lia.
Qed.

(** One round: a node header and its properties. *)
Lemma walk_round_enc d todo w k t :
  level d todo w -> todo !! d = Some k -> 0 < k < 2 ^ 32 -> wf K16 t -> at_off b (w_off w) (enc t) ->
  let off := w_off w + 8 + zlen (flat_map enc_prop (a_props t)) in
  let td := <[d := k - 1]> (w_todo w) in
  walk_round b w =
  Ret (if bool_decide (a_children t = []) then inl (Walk off d td)
       else if (ADT_MAX_DEPTH <=? S d)%nat then inr (adt_end_sentinel b)
       else inl (Walk off (S d) (<[S d := zlen (a_children t)]> td))).
Proof using Hlen.
  intros HL Hk Hk0 Hw Hat. cbv zeta. unfold walk_round.
  rewrite (adt_pop_level d todo w k); [|done|done|lia]. cbn [mbind res_bind].
  apply wf_inv in Hw as (Hps & Hp & Hc & _). apply at_enc in Hat as (H1 & H2 & H3 & _).
  pose proof (at_range _ _ _ H1) as [? ?]. pose proof (at_range _ _ _ H3) as [? H4].
  pose proof (zlen_nonneg (flat_map enc_prop (a_props t))). unfold U32_MAX in *.
  pose proof (zlen_nonneg (a_props t)). pose proof (zlen_nonneg (a_children t)).
  unfold adt_len. if_lia. rewrite (at_le32 _ _ _ H1); [|unfold in_range; lia]. cbn [mbind res_bind].
  rewrite (at_le32 _ _ _ H2); [|unfold in_range; lia]. cbn [mbind res_bind]. rewrite (wrap_small 32 (w_off w + 8)); [|lia].
  rewrite (times_enc_all b enc_prop prop_wf (skip_prop b) (a_props t) (w_off w + 8)
    (fun p off => skip_prop_enc off p) Hps H3). cbn [mbind res_bind].
  assert (alter (fun n => u32 (n - 1)) d (w_todo w) = <[d := k - 1]> (w_todo w)) as ->.
  { destruct HL as (_ & _ & _ & He). rewrite list_insert_alter. apply list_alter_ext; [|done]. intros x.
    rewrite He; [|lia]. rewrite Hk. intros [= <-]. apply wrap_small. lia. }
  destruct (a_children t) as [|c cs]; [done|].
  rewrite bool_decide_eq_false_2; [|done]. assert (0 < zlen (c :: cs)) by (unfold zlen; cbn [length]; lia).
  if_lia. by destruct (_ <=? _)%nat.
Qed.

(** A whole subtree. *)
Definition walked (d : nat) (todo : list Z) (off : Z) (n : nat) (w : walk) : Prop :=
  exists w', level d todo w' /\ w_off w' = off /\
             forall f, loop (n + f) (walk_round b) w = loop f (walk_round b) w'.

Definition tree_walk (t : atree) : Prop := forall d todo w k,
  wf K16 t -> level d todo w -> todo !! d = Some k -> 0 < k < 2 ^ 32 -> at_off b (w_off w) (enc t) ->
  if bool_decide (d + height t <= ADT_MAX_DEPTH)%nat then walked d (<[d := k - 1]> todo) (w_off w + zlen (enc t)) (nodes t) w
  else forall f, loop (nodes t + f) (walk_round b) w = Ret (adt_end_sentinel b).

Definition forest_walk (cs : list atree) : Prop := forall d todo w k,
  Forall (wf K16) cs -> level d todo w -> todo !! d = Some (zlen cs + k) -> 0 <= k -> zlen cs + k < 2 ^ 32 ->
  at_off b (w_off w) (flat_map enc cs) ->
  if bool_decide (d + foldr (fun c h => Nat.max (height c) h) O cs <= ADT_MAX_DEPTH)%nat
  then walked d (<[d := k]> todo) (w_off w + zlen (flat_map enc cs)) (foldr (fun c n => nodes c + n)%nat O cs) w
  else forall f, loop (foldr (fun c n => nodes c + n)%nat O cs + f) (walk_round b) w = Ret (adt_end_sentinel b).

Lemma forest_walk_of cs : Forall tree_walk cs -> forest_walk cs.
Proof using Type.
  induction 1 as [|c cs Hc _ IH]; intros d todo w k Hw HL Hk Hk0 Hk1 Hat; cbn [foldr flat_map].
  - rewrite bool_decide_eq_true_2; [|destruct HL; lia]. exists w. cbn [zlen length] in *.
    change (zlen []) with 0 in Hk. rewrite Z.add_0_l in Hk.
    split; [by rewrite list_insert_id|]. split; [change (zlen (A:=Z) []) with 0; lia|done].
  - apply Forall_cons in Hw as [Hwc Hw]. cbn [flat_map] in Hat. apply at_app in Hat as [Hac Hat].
    assert (zlen (c :: cs) = 1 + zlen cs) as Hz by (unfold zlen; cbn [length]; lia). pose proof (zlen_nonneg cs).
    rewrite Hz in Hk, Hk1. specialize (Hc d todo w _ Hwc HL Hk ltac:(lia) Hac).
    destruct (decide (d + height c <= ADT_MAX_DEPTH)%nat) as [Hdc|Hdc].
    + rewrite (bool_decide_eq_true_2 _ Hdc) in Hc. destruct Hc as (w' & HL' & Ho & Hf).
      assert ((d < length todo)%nat) by (by eapply lookup_lt_Some).
      specialize (IH d _ w' k Hw HL'). rewrite list_lookup_insert_eq in IH; [|done]. rewrite Ho in IH.
      specialize (IH ltac:(f_equal; lia) ltac:(lia) ltac:(lia) Hat). set (h := foldr _ O cs) in *.
      destruct (decide (d + h <= ADT_MAX_DEPTH)%nat) as [Hd|Hd].
      * rewrite (bool_decide_eq_true_2 _ Hd) in IH. destruct IH as (w'' & HL'' & Ho' & Hf').
        rewrite bool_decide_eq_true_2; [|lia]. exists w''. rewrite list_insert_insert_eq in HL''.
        split; [done|]. split; [rewrite zlen_app; lia|]. intros f. by rewrite -Nat.add_assoc Hf Hf'.
      * rewrite (bool_decide_eq_false_2 _ Hd) in IH. rewrite bool_decide_eq_false_2; [|lia].
        intros f. rewrite -Nat.add_assoc Hf. apply IH.
    + rewrite (bool_decide_eq_false_2 _ Hdc) in Hc. rewrite bool_decide_eq_false_2; [|lia].
      intros f. by rewrite -Nat.add_assoc Hc.
Qed.

Lemma tree_walk_all t : tree_walk t.
Proof using Hlen.
  induction t as [ps cs IH] using atree_ind'. apply forest_walk_of in IH.
  intros d todo w k Hw HL Hk Hk0 Hat. pose proof (walk_round_enc d todo w k _ HL Hk Hk0 Hw Hat) as Hb. cbv zeta in Hb.
  cbn [a_props a_children] in Hb. pose proof Hw as (_ & _ & Hc & Hwc)%wf_inv. cbn [a_children] in Hc, Hwc.
  assert (zlen (enc (ANode ps cs)) = 8 + zlen (flat_map enc_prop ps) + zlen (flat_map enc cs)) as Hz
    by (cbn [enc]; rewrite !zlen_app !zlen_le_bytes; lia).
  apply at_enc in Hat as (_ & _ & _ & Hat). cbn [a_props a_children] in Hat.
  pose proof HL as ((Hd1 & Hd2) & Hl & Hz0 & He).
  assert (level d (<[d:=k - 1]> todo) (Walk (w_off w + 8 + zlen (flat_map enc_prop ps)) d (<[d:=k - 1]> (w_todo w)))) as HL1.
  { split; [cbn; lia|]. split; [by cbn; rewrite length_insert|]. cbn [w_depth w_todo]. split; [intros; lia|].
    intros i Hi. assert ((d < length todo)%nat) by (by eapply lookup_lt_Some).
    destruct (decide (i = d)) as [->|Hne]; [rewrite !list_lookup_insert_eq //; lia|].
    rewrite !list_lookup_insert_ne //. by apply He. }
  cbn [nodes height]. set (h := foldr (fun c h => Nat.max (height c) h) O cs).
  set (n := foldr (fun c n => nodes c + n)%nat O cs).
  destruct (decide (cs = [])) as [->|Hne].
  - rewrite (bool_decide_eq_true_2 _ (eq_refl [])) in Hb. rewrite bool_decide_eq_true_2; [|cbn in h; lia].
    eexists. split; [apply HL1|]. split; [rewrite Hz; cbn [w_off flat_map]; change (zlen (A:=Z) []) with 0; lia|].
    intros f. cbn [Nat.add]. rewrite loop_S Hb. done.
  - rewrite (bool_decide_eq_false_2 _ Hne) in Hb.
    assert (1 <= h)%nat as Hh by (destruct cs as [|[? ?] ?]; [done|]; subst h; cbn [foldr height]; lia).
    destruct (Nat.leb_spec ADT_MAX_DEPTH (S d)) as [Hdd|Hdd].
    { rewrite bool_decide_eq_false_2; [|lia]. intros f. cbn [Nat.add]. by rewrite loop_S Hb. }
    set (w1 := Walk _ (S d) _) in Hb.
    assert (w_todo w1 !! S d = Some (zlen cs + 0)) as Hk1.
    { cbn [w1 w_todo]. rewrite list_lookup_insert_eq; [f_equal; lia|rewrite length_insert; lia]. }
    assert (level (S d) (w_todo w1) w1) as HL2.
    { split; [cbn; lia|]. split; [by cbn [w1 w_todo]; rewrite !length_insert|]. split; [cbn; intros; lia|done]. }
    unfold U32_MAX in Hc. specialize (IH (S d) (w_todo w1) w1 0 Hwc HL2 Hk1 ltac:(lia) ltac:(lia) Hat).
    change (w_off w1) with (w_off w + 8 + zlen (flat_map enc_prop ps)) in IH. fold h n in IH.
    destruct (decide (S d + h <= ADT_MAX_DEPTH)%nat) as [Hdh|Hdh].
    + rewrite (bool_decide_eq_true_2 _ Hdh) in IH. rewrite bool_decide_eq_true_2; [|lia].
      destruct IH as (w' & (Hd' & Hl' & Hz' & He') & Ho & Hf). exists w'. split; [|split; [lia|]].
      * assert ((S d < length (w_todo w1))%nat) by (by eapply lookup_lt_Some).
        split; [lia|]. split; [done|]. split.
        -- intros i Hi. destruct (decide (i = S d)) as [->|Hi']; [|apply Hz'; lia].
           rewrite He'; [|lia]. by rewrite list_lookup_insert_eq.
        -- intros i Hi. rewrite He'; [|lia]. rewrite list_lookup_insert_ne; [|lia]. cbn [w1 w_todo].
           rewrite list_lookup_insert_ne; [|lia]. apply (proj2 (proj2 (proj2 HL1))). lia.
      * intros f. cbn [Nat.add]. rewrite loop_S Hb. apply Hf.
    + rewrite (bool_decide_eq_false_2 _ Hdh) in IH. rewrite bool_decide_eq_false_2; [|lia].
      intros f. cbn [Nat.add]. rewrite loop_S Hb. apply IH.
Qed.

Lemma nodes_enc t : 8 * Z.of_nat (nodes t) <= zlen (enc t).
Proof using Type.
  clear Hlen. induction t as [ps cs IH] using atree_ind'. cbn [nodes enc]. rewrite !zlen_app !zlen_le_bytes.
  pose proof (zlen_nonneg (flat_map enc_prop ps)).
  enough (8 * Z.of_nat (foldr (fun c n => nodes c + n)%nat O cs) <= zlen (flat_map enc cs)) by lia.
  induction IH as [|c cs Hc _ IH]; [done|]. cbn [foldr flat_map]. rewrite zlen_app. lia.
Qed.

Lemma subtree_end_enc off t :
  wf K16 t -> at_off b off (enc t) ->
  adt_subtree_end b off =
  Ret (if (height t <=? ADT_MAX_DEPTH)%nat then off + zlen (enc t) else adt_end_sentinel b).
Proof using Hlen.
  intros Hw Hat. pose proof (at_range _ _ _ Hat) as [H0 H1]. pose proof (nodes_enc t) as Hn.
  set (w := Walk off 0 (1 :: replicate (ADT_MAX_DEPTH - 1) 0)).
  assert (level 0 (w_todo w) w) as HL.
  { split; [cbn; unfold ADT_MAX_DEPTH; lia|]. split; [done|]. split; [cbn; intros; lia|done]. }
  pose proof (tree_walk_all t 0%nat (w_todo w) w 1 Hw HL eq_refl ltac:(lia) Hat) as HT. cbn [Nat.add] in HT.
  unfold adt_subtree_end. fold w.
  assert (walk_fuel b = (nodes t + S (walk_fuel b - nodes t - 1))%nat) as ->.
  { unfold walk_fuel, adt_len. assert (Z.of_nat (nodes t) <= zlen b / 8) by (apply Z.div_le_lower_bound; lia). lia. }
  destruct (Nat.leb_spec (height t) ADT_MAX_DEPTH) as [Hh|Hh].
  - rewrite bool_decide_eq_true_2 in HT; [|lia]. destruct HT as (w' & (Hd & Hl & Hz & He) & Ho & ->).
    rewrite loop_S. unfold walk_round. assert (adt_pop (w_depth w') (w_todo w') = Ret None) as ->; [|by cbn; rewrite Ho].
    assert (w_todo w' !! 0%nat = Some 0) as H00 by (rewrite He; [done|lia]). clear He Hd.
    induction (w_depth w') as [|m IH]; cbn [adt_pop]; [by rewrite H00|].
    rewrite Hz; [|lia]. apply IH. intros i Hi. apply Hz. lia.
  - rewrite bool_decide_eq_false_2 in HT; [|lia]. apply HT.
Qed.

Lemma child_step_enc off t :
  wf K16 t -> (height t <= ADT_MAX_DEPTH)%nat -> at_off b off (enc t) ->
  child_step b off = Ret (inl (off + zlen (enc t))).
Proof using Hlen.
  intros Hw Hh Hat. pose proof (at_range _ _ _ Hat) as [H0 H1]. pose proof (nodes_enc t) as Hn.
  assert (1 <= nodes t)%nat by (destruct t; cbn [nodes]; lia).
  unfold child_step, adt_len. if_lia. rewrite (subtree_end_enc off t Hw Hat).
  by rewrite (proj2 (Nat.leb_le _ _) Hh).
Qed.

Lemma adt_child_enc off t pre c post :
  wf K16 t -> (height t <= S ADT_MAX_DEPTH)%nat -> at_off b off (enc t) -> a_children t = pre ++ c :: post ->
  exists off', at_off b off' (enc c) /\ wf K16 c /\ (height c <= ADT_MAX_DEPTH)%nat /\
               adt_child b (node_of off t) (zlen pre) = Ret (node_of off' c).
Proof using Hlen.
  intros Hw Hh Hat Hc. apply wf_inv in Hw as (Hps & _ & _ & Hcs). rewrite Hc in Hcs.
  assert (Forall (fun c => (height c <= ADT_MAX_DEPTH)%nat) (pre ++ c :: post)) as Hhs.
  { rewrite -Hc. apply Forall_foldr_max. destruct t. cbn [height a_children] in *. lia. }
  apply Forall_app in Hcs as [Hwp [Hwc _]%Forall_cons]. apply Forall_app in Hhs as [Hhp [Hhc _]%Forall_cons].
  apply at_enc in Hat as (H1 & _ & H3 & H4). rewrite Hc flat_map_app in H4. apply at_app in H4 as [H4 H5].
  cbn [flat_map] in H5. apply at_app in H5 as [H5 _].
  pose proof (at_range _ _ _ H1) as [? _]. pose proof (at_range _ _ _ H3) as [_ ?]. 
  pose proof (zlen_nonneg (flat_map enc_prop (a_props t))).
  eexists. split; [exact H5|]. split; [done|]. split; [done|]. unfold adt_child. cbn [n_nprops n_off node_of].
  rewrite wrap_small; [|lia].
  rewrite (times_enc_all b enc_prop prop_wf (child_prop b) (a_props t) _ (fun p off => child_prop_enc off p) Hps H3).
  cbn [mbind res_bind].
  rewrite (times_enc_all b enc (fun c => wf K16 c /\ (height c <= ADT_MAX_DEPTH)%nat) (child_step b) pre _); last first.
  - done.
  - by apply Forall_and.
  - intros x o [Hx1 Hx2] Hx3. by apply child_step_enc.
  - cbn [mbind res_bind]. by apply node_at_enc.
Qed.

Lemma arm_io_step_enc off t pre c post :
  wf K16 t -> (height t <= S ADT_MAX_DEPTH)%nat -> at_off b off (enc t) -> a_children t = pre ++ c :: post ->
  twp (arm_io_step b (node_of off t) (zlen pre)) (fun r => match r with
    | inl i => is_arm_io str_ieq c = false /\ i = u32 (zlen pre + 1)
    | inr n => is_arm_io str_ieq c = true /\
               exists off', at_off b off' (enc c) /\ wf K16 c /\ (height c <= ADT_MAX_DEPTH)%nat /\ n = node_of off' c
    end).
Proof using Hlen.
  intros Hw Hh Hat Hc. destruct (adt_child_enc off t pre c post Hw Hh Hat Hc) as (off' & Ha & Hwc & Hhc & Hch).
  unfold arm_io_step. rewrite Hch. cbn [mbind res_bind].
  pose proof (adt_prop_enc off' c "name" (nonzero_chars "name" eq_refl) ltac:(cbn; lia) Hwc Ha) as Hp.
  unfold is_arm_io. destruct (a_prop str_ieq c "name") as [p|]; [|by rewrite Hp].
  destruct Hp as (d & Hd & _ & ->). cbn [mbind res_bind]. rewrite Z.geb_leb.
  destruct (Z.leb_spec 7 (zlen (ap_data p))) as [H7|H7]; [|done].
  rewrite c_bytes_chars (strncasecmp_cstr _ _ (ap_data p)); [|by apply nonzero_chars|unfold zlen in H7; cbn; lia|done].
  cbn [mbind res_bind andb]. destruct (str_ieq _ _); cbn [twp]; [|done]. split; [done|]. by exists off'.
Qed.

Lemma ane_step_enc ty off t pre c post :
  wf K16 t -> (height t <= S ADT_MAX_DEPTH)%nat -> at_off b off (enc t) -> a_children t = pre ++ c :: post ->
  twp (ane_step b ty (node_of off t) (zlen pre)) (fun r => match r with
    | inl i => is_ane str_ieq ty c = false /\ i = u32 (zlen pre + 1)
    | inr n => is_ane str_ieq ty c = true /\ exists off', at_off b off' (enc c) /\ wf K16 c /\ n = node_of off' c
    end).
Proof using Hlen.
  intros Hw Hh Hat Hc. destruct (adt_child_enc off t pre c post Hw Hh Hat Hc) as (off' & Ha & Hwc & Hhc & Hch).
  unfold ane_step. rewrite Hch. cbn [mbind res_bind].
  pose proof (adt_prop_enc off' c "ane-type" (nonzero_chars "ane-type" eq_refl) ltac:(cbn; lia) Hwc Ha) as Hp.
  unfold is_ane. destruct (a_prop str_ieq c "ane-type") as [p|]; [|by rewrite Hp].
  destruct Hp as (d & Hd & _ & ->). cbn [mbind res_bind]. rewrite Z.geb_leb.
  destruct (Z.leb_spec 4 (zlen (ap_data p))) as [H4|H4]; [|done].
  pose proof (at_word32 b d _ 0 Hd ltac:(lia) ltac:(lia)) as E. rewrite Z.add_0_r in E. rewrite E.
  cbn [mbind res_bind andb]. destruct (_ =? _); cbn [twp]; [|done]. split; [done|]. by exists off'.
Qed.

Lemma find_ane_enc ty t :
  wf K16 t -> (height t <= S ADT_MAX_DEPTH)%nat -> at_off b 0 (enc t) ->
  match a_find_ane str_ieq ty t with
  | Some c => exists off, at_off b off (enc c) /\ wf K16 c /\ adt_find_ane b ty = Ret (inr (node_of off c))
  | None => adt_find_ane b ty = Ret (inl ENOENT)
  end.
Proof using Hlen.
  intros Hw Hh Hat. unfold adt_find_ane, a_find_ane. rewrite (node_at_enc 0 t Hw Hat). cbn [mbind res_bind n_nchildren node_of].
  pose proof (wf_inv _ _ Hw) as (_ & _ & Hc & _).
  pose proof (times_index (is_arm_io str_ieq) _ _ (a_children t) Hc
    (fun pre c post E => arm_io_step_enc 0 t pre c post Hw Hh Hat E)) as H.
  destruct (List.find _ _) as [arm|]; [|destruct H as [i E]; by rewrite E].
  destruct H as (n & -> & off & Ha & Hwa & Hha & ->). cbn [mbind res_bind n_nchildren node_of].
  pose proof (wf_inv _ _ Hwa) as (_ & _ & Hca & _).
  pose proof (times_index (is_ane str_ieq ty) _ _ (a_children arm) Hca
    (fun pre c post E => ane_step_enc ty off arm pre c post Hwa (le_S _ _ Hha) Ha E)) as H.
  destruct (List.find _ _) as [c|]; [|destruct H as [i E]; by rewrite E].
  destruct H as (n & -> & off' & Hc' & Hwc & ->). by exists off'.
Qed.

Lemma decode_entry_enc d data o stride :
  at_off b d data -> 0 <= o -> (stride = 24 \/ stride = 32) -> o + stride <= zlen data ->
  decode_entry b (d + o) stride =
  Ret (if stride =? 32 then H16Seg (word64_at data o) (word64_at data (o + 16)) (Z.land (word64_at data (o + 24)) 0xffffffff)
       else H16Seg (word64_at data o) (word64_at data (o + 8)) (word64_at data (o + 16))).
Proof using Type.
  intros Hd Ho Hs Hl. unfold decode_entry. rewrite -!Z.add_assoc.
  rewrite (at_word64 b d data o Hd); [|lia..]. cbn [mbind res_bind].
  rewrite (at_word64 b d data (o + 8) Hd); [|lia..]. cbn [mbind res_bind].
  rewrite (at_word64 b d data (o + 16) Hd); [|lia..]. cbn [mbind res_bind].
  destruct Hs as [-> | ->]; cbn [Z.eqb Pos.eqb]; [done|]. by rewrite (at_word64 b d data (o + 24) Hd); [|lia..].
Qed.

Lemma seg_decode_enc d data :
  at_off b d data ->
  ane_h16_seg_decode b d (zlen data) =
  Ret (if bool_decide (zlen data = 48 \/ zlen data = 64) then
         let seg i := let '(phys, iova, n) := a_seg data (zlen data / 2) i (fun v => Z.land v 0xffffffff) in H16Seg phys iova n in
         inr (seg 0, seg 1)
       else inl EINVAL).
Proof using Type.
  intros Hd. unfold ane_h16_seg_decode. pose proof (zlen_nonneg data). case_bool_decide as Hs.
  - assert (zlen data / 2 = 24 \/ zlen data / 2 = 32) as Hst by (destruct Hs as [-> | ->]; auto).
    assert (2 * (zlen data / 2) = zlen data) as H2 by (destruct Hs as [-> | ->]; done).
    replace (negb _ || _) with false by (destruct Hs as [-> | ->]; done). cbv zeta. set (st := zlen data / 2) in *.
    pose proof (decode_entry_enc d data 0 st Hd ltac:(lia) Hst ltac:(lia)) as E0. rewrite Z.add_0_r in E0. rewrite E0.
    cbn [mbind res_bind]. rewrite (decode_entry_enc d data st st Hd ltac:(lia) Hst ltac:(lia)). cbn [mbind res_bind].
    unfold a_seg. rewrite Z.mul_0_l Z.mul_1_l. by destruct (st =? 32).
  - replace (negb _ || _) with true; [done|]. symmetry. destruct (Z.eqb_spec (zlen data mod 2) 0) as [E|E]; [|done].
    cbn [negb orb]. destruct (Z.eqb_spec (zlen data / 2) 24), (Z.eqb_spec (zlen data / 2) 32); try done; exfalso; apply Hs; dlia.
Qed.

Lemma h16_segments_enc ty text data t :
  wf K16 t -> (height t <= S ADT_MAX_DEPTH)%nat -> at_off b 0 (enc t) ->
  h16_segments_mapped b ty text data = Ret (a_segments16 ty text data t).
Proof using Hlen.
  intros Hw Hh Hat. unfold h16_segments_mapped, a_segments16. rewrite (node_at_enc 0 t Hw Hat).
  cbn [mbind res_bind n_nchildren node_of]. destruct (a_children t) as [|c0 cs0] eqn:Ec; [done|].
  assert (0 < zlen (c0 :: cs0)) by (unfold zlen; cbn [length]; lia). if_lia.
  pose proof (find_ane_enc ty t Hw Hh Hat) as Hf.
  destruct (a_find_ane str_ieq ty t) as [c|]; [|by rewrite Hf]. destruct Hf as (off & Hc & Hwc & ->). cbn [mbind res_bind].
  pose proof (adt_prop_enc off c "segment-ranges" (nonzero_chars "segment-ranges" eq_refl) ltac:(cbn; lia) Hwc Hc) as Hp.
  destruct (a_prop str_ieq c "segment-ranges") as [p|]; [|by rewrite Hp]. destruct Hp as (d & Hd & _ & ->).
  cbn [mbind res_bind]. rewrite (seg_decode_enc d (ap_data p) Hd). cbn [mbind res_bind].
  case_bool_decide; [|done]. cbv zeta. f_equal. set (s0 := let '(_, _, _) := a_seg _ _ 0 _ in _).
  set (s1 := let '(_, _, _) := a_seg _ _ 1 _ in _). clearbody s0 s1.
  destruct (Z.eqb_spec (hs_size s0) text); cbn [negb orb andb]; [|done].
  destruct (Z.ltb_spec (hs_size s1) data), (Z.leb_spec data (hs_size s1)); try done; lia.
Qed.
End h16_tree.

(** Mapping a region gives as many bytes as its resource has. *)
Definition map_law (c : reserved_child) : Prop :=
  match rc_size c, rc_map c with Some size, inr m => zlen m = size | _, _ => True end.

Lemma adt_open_len nodes b :
  (forall l c, nodes = Some l -> c ∈ l -> map_law c) -> ane_h16_adt_open nodes = inr b -> zlen b <= 2 ^ 30.
Proof.
  intros HL. destruct nodes as [l|]; [|done]. specialize (HL l). cbn [ane_h16_adt_open].
  assert (forall c, c ∈ l -> map_law c) as HL' by (intros c; by apply HL). clear HL.
  induction l as [|c l IH]; cbn [adt_open_in]; [done|]. case_bool_decide; [|by intros; apply IH; set_solver].
  destruct (rc_size c) as [size|] eqn:Es; [|by intros; apply IH; set_solver].
  destruct (Z.gtb_spec size ADT_MAX_LEN) as [Hs|Hs]; [done|]. intros Hm.
  specialize (HL' c ltac:(set_solver)). unfold map_law in HL'. rewrite Es Hm in HL'. rewrite HL'. exact Hs.
Qed.

(** C20. On a region that starts with the encoding of any tree of at most 33
    levels, whatever follows it, the segments the H16 driver reads are those of
    the tree: of the first child of [arm-io] whose [ane-type] is the engine's,
    checked against the pinned image. *)
Theorem h16_segments_exact nodes b t ty text data :
  (forall l c, nodes = Some l -> c ∈ l -> map_law c) -> ane_h16_adt_open nodes = inr b ->
  enc t `prefix_of` b -> wf U32_MAX t -> (height t <= 33)%nat ->
  ane_h16_segments nodes ty text data = Ret (a_segments16 ty text data t).
Proof.
  intros HL Ho [suf ->] Hw Hh. pose proof (adt_open_len nodes _ HL Ho) as Hlen. unfold ane_h16_segments. rewrite Ho.
  apply h16_segments_enc; [done|done|done|]. apply (at_app _ 0 (enc t) suf). apply at_whole.
Qed.

(** ** The H16 walker on arbitrary bytes *)

Lemma strncasecmp_safe b off l n :
  0 <= off -> off + Z.of_nat n <= zlen b -> twp (strncasecmp_eq b off (l ++ [0]) n) (fun _ => True).
Proof.
  revert off n. induction l as [|c l IH]; intros off n H0 Hl; (destruct n as [|n]; [done|]);
    cbn [strncasecmp_eq app]; rewrite rd8_eq; try lia; cbn [mbind res_bind].
  - by rewrite orb_true_r.
  - destruct (_ || _); [done|]. destruct (_ =? _); [|done]. apply IH; lia.
Qed.

Section h16_safe.
Context (b : bytes) (Hlen : zlen b <= 2 ^ 30).

Lemma prop_safe off :
  0 <= off -> off + 36 <= zlen b ->
  exists l, prop_len b off = Ret l /\ 0 <= l < 2 ^ 31 /\ off + 36 + l <= prop_extent off l < off + 2 ^ 32.
Proof using Type.
  intros H0 Hl. unfold prop_len. rewrite le32_eq; [|lia..]. cbn [mbind res_bind]. eexists. split; [done|].
  change 0x7fffffff with (2 ^ 31 - 1). pose proof (land_le_r (word32_at b (off + 32)) (2 ^ 31 - 1)) as Hr.
  set (v := Z.land _ _) in *. split; [lia|]. unfold prop_extent. rewrite align4_eq; [|lia].
  pose proof (Z.mod_pos_bound (- v) 4). lia.
Qed.

Lemma skip_prop_safe off :
  0 <= off -> twp (skip_prop b off) (fun r => match r with inl off' => off < off' <= zlen b | inr _ => True end).
Proof using Hlen.
  intros H0. unfold skip_prop, adt_len. destruct (Z.gtb_spec (off + 36) (zlen b)) as [Hg|Hg]; [done|].
  destruct (prop_safe off H0 Hg) as (l & -> & Hl & He). cbn [mbind res_bind]. destruct (Z.gtb_spec (prop_extent off l) (zlen b)); [done|].
  cbn [twp]. rewrite wrap_small; lia.
Qed.

Lemma child_prop_safe B off :
  zlen b <= B -> 0 <= off <= B ->
  twp (child_prop b off) (fun r => match r with inl off' | inr (Some off') => 0 <= off' <= B | inr None => True end).
Proof using Hlen.
  intros HB H0. unfold child_prop, adt_len. destruct (Z.gtb_spec (off + 36) (zlen b)) as [Hg|Hg]; [done|].
  destruct (prop_safe off (proj1 H0) Hg) as (l & -> & Hl & He). cbn [mbind res_bind].
  destruct (Z.gtb_spec (prop_extent off l) (zlen b)); [done|]. cbn [twp]. rewrite wrap_small; lia.
Qed.

Lemma adt_pop_safe depth todo :
  (depth < length todo)%nat ->
  twp (adt_pop depth todo) (fun d => match d with Some d => (d <= depth)%nat | None => True end).
Proof using Type.
  induction depth as [|m IH]; intros Hd; cbn [adt_pop]; destruct (lookup_lt_is_Some_2 _ _ Hd) as [x ->];
    destruct (x =? 0); try done; cbn [twp]; try lia.
  eapply twp_mono; [apply IH; lia|]. intros [d|]; [lia|done].
Qed.

(** Every round consumes a node header, so the walk ends inside the region. *)
Lemma subtree_end_safe off : 0 <= off <= zlen b -> twp (adt_subtree_end b off) (fun e => 0 <= e <= zlen b).
Proof using Hlen.
  intros H0. unfold adt_subtree_end.
  apply (twp_loop _ (fun w => 0 <= w_off w <= zlen b /\ (w_depth w < ADT_MAX_DEPTH)%nat /\ length (w_todo w) = ADT_MAX_DEPTH)
                    (fun w => Z.to_nat ((zlen b - w_off w) / 8) + 1)%nat).
  - intros w (Ho & Hd & Hl). unfold walk_round, adt_end_sentinel, adt_len. apply twp_bind.
    eapply twp_mono; [apply adt_pop_safe; lia|]. intros [d|] Hd'; [|done].
    destruct (Z.gtb_spec (w_off w + 8) (zlen b)) as [Hg|Hg]; [cbn [twp]; rewrite wrap_small; lia|].
    rewrite !le32_eq; [|lia..]. cbn [mbind res_bind]. rewrite (wrap_small 32 (w_off w + 8)); [|lia]. apply twp_bind.
    eapply twp_mono.
    { apply (twp_times _ (fun o => w_off w + 8 <= o <= zlen b) (fun _ => True)); [|lia].
      intros o Ho'. eapply twp_mono; [apply skip_prop_safe; lia|]. intros [o'|?]; [lia|done]. }
    intros [o|?] Ho'; [|cbn [twp]; rewrite wrap_small; lia].
    assert (Z.to_nat ((zlen b - o) / 8) < Z.to_nat ((zlen b - w_off w) / 8))%nat.
    { apply Z2Nat.inj_lt; [apply Z.div_pos; lia..|].
      assert ((zlen b - o) / 8 + 1 <= (zlen b - w_off w) / 8); [|lia].
      rewrite -(Z.div_add _ 1 8); [|lia]. apply Z.div_le_mono; lia. }
    destruct (_ =? 0); [cbn; rewrite length_alter; lia|].
    destruct (Nat.leb_spec ADT_MAX_DEPTH (S d)); cbn [twp]; [rewrite wrap_small; lia|].
    cbn [w_off w_depth w_todo]. rewrite length_insert length_alter. lia.
  - cbn. unfold ADT_MAX_DEPTH. lia.
  - unfold walk_fuel, adt_len. cbn [w_off]. assert ((zlen b - off) / 8 <= zlen b / 8) by (apply Z.div_le_mono; lia).
    assert (0 <= (zlen b - off) / 8) by (apply Z.div_pos; lia). lia.
Qed.

Lemma node_at_safe off : 0 <= off -> twp (adt_node_at b off) (fun n => n_off n = off).
Proof using Type.
  intros H0. unfold adt_node_at, adt_len. destruct (Z.gtb_spec (off + 8) (zlen b)); [done|]. by rewrite !le32_eq; [|lia..].
Qed.

Lemma adt_child_safe B n i :
  zlen b <= B <= 2 ^ 31 -> 0 <= n_off n <= B -> twp (adt_child b n i) (fun c => 0 <= n_off c <= B + 8).
Proof using Hlen.
  intros HB Hn. unfold adt_child. rewrite wrap_small; [|lia]. apply twp_bind. eapply twp_mono.
  { apply (twp_times _ (fun o => 0 <= o <= B + 8) (fun o => match o with Some o => 0 <= o <= B + 8 | None => True end)); [|lia].
    intros o Ho. eapply twp_mono; [apply (child_prop_safe (B + 8)); lia|]. by intros [?|[?|]]. }
  assert (forall off, 0 <= off <= B + 8 -> twp (r ← times i (child_step b) off; adt_node_at b (match r with inl o | inr o => o end))
    (fun c => 0 <= n_off c <= B + 8)) as Hrest.
  { intros off Ho. apply twp_bind. eapply twp_mono.
    { apply (twp_times _ (fun o => 0 <= o <= B + 8) (fun o => 0 <= o <= B + 8)); [|done]. intros o Ho'. unfold child_step, adt_len.
      destruct (Z.gtb_spec (o + 8) (zlen b)); [done|]. apply twp_bind. eapply twp_mono; [apply subtree_end_safe; lia|].
      intros e He. cbv beta in He. cbn [twp]. lia. }
    intros [o|o] Ho'; cbv beta in Ho'; (eapply twp_mono; [apply node_at_safe; lia|]; intros c Hc'; cbv beta in Hc'; lia). }
  intros [o|[o|]] Ho; [by apply Hrest..|]. unfold adt_end_sentinel, adt_len. rewrite wrap_small; [|pose proof (zlen_nonneg b); lia].
  eapply twp_mono; [apply node_at_safe, zlen_nonneg|]. intros c ->. pose proof (zlen_nonneg b). lia.
Qed.

Lemma adt_prop_safe n name :
  0 <= n_off n <= 2 ^ 31 + 64 ->
  twp (adt_prop b n name) (fun r => match r with inr (d, size) => 0 <= d /\ 0 <= size /\ d + size <= zlen b | inl _ => True end).
Proof using Hlen.
  intros Hn. unfold adt_prop. rewrite wrap_small; [|lia]. apply twp_bind. eapply twp_mono.
  { apply (twp_times _ (fun o => 0 <= o)
      (fun r => match r with inr (d, size) => 0 <= d /\ 0 <= size /\ d + size <= zlen b | inl _ => True end)); [|lia].
    intros o Ho. unfold prop_step, adt_len. destruct (Z.gtb_spec (o + 36) (zlen b)) as [Hg|Hg]; [done|].
    destruct (prop_safe o Ho Hg) as (l & -> & Hl & He). cbn [mbind res_bind].
    destruct (Z.gtb_spec (prop_extent o l) (zlen b)); [done|]. rewrite c_bytes_chars. apply twp_bind.
    eapply twp_mono; [apply strncasecmp_safe; lia|]. intros [|] _; [cbn [twp]; lia|].
    destruct (_ >? U32_MAX); [done|]. cbn [twp]. rewrite wrap_small; lia. }
  by intros [o|[e|[d size]]].
Qed.

Lemma find_ane_safe ty :
  twp (adt_find_ane b ty) (fun r => match r with inr n => 0 <= n_off n <= 2 ^ 31 | inl e => e = ENOENT end).
Proof using Hlen.
  pose proof (zlen_nonneg b). unfold adt_find_ane. apply twp_bind. eapply twp_mono; [by apply node_at_safe|]. intros root Hr. cbv beta in Hr.
  apply twp_bind. eapply twp_mono.
  { apply (twp_times _ (fun _ => True) (fun n => 0 <= n_off n <= zlen b + 8)); [|done]. intros i _.
    unfold arm_io_step. apply twp_bind. eapply twp_mono; [apply (adt_child_safe (zlen b)); lia|]. intros c Hc. cbv beta in Hc. apply twp_bind.
    eapply twp_mono; [apply adt_prop_safe; lia|]. intros [e|[d size]] Hp; [done|].
    rewrite Z.geb_leb. destruct (Z.leb_spec 7 size); [|done]. apply twp_bind.
    eapply twp_mono; [rewrite c_bytes_chars; apply strncasecmp_safe; lia|]. intros [|] _; [cbn [twp]; lia|done]. }
  intros [i|arm] Ha; [done|]. cbv beta in Ha. apply twp_bind. eapply twp_mono.
  { apply (twp_times _ (fun _ => True) (fun n => 0 <= n_off n <= zlen b + 16)); [|done]. intros i _.
    unfold ane_step. apply twp_bind. eapply twp_mono; [apply (adt_child_safe (zlen b + 8)); lia|]. intros c Hc. cbv beta in Hc. apply twp_bind.
    eapply twp_mono; [apply adt_prop_safe; lia|]. intros [e|[d size]] Hp; [done|].
    rewrite Z.geb_leb. destruct (Z.leb_spec 4 size); [|done]. rewrite le32_eq; [|lia..]. cbn [mbind res_bind].
    destruct (_ =? _); cbn [twp]; [lia|done]. }
  intros [i|c] Hc; cbn [twp]; [done|lia].
Qed.
End h16_safe.

(** Any content: the region is not left, and the answer is one of these. *)
Lemma segments_safe nodes ty text data :
  (forall l c, nodes = Some l -> c ∈ l -> map_law c) ->
  exists r, ane_h16_segments nodes ty text data = Ret r /\
    match r with
    | inl e => e = ENODEV \/ e = EINVAL \/ e = ENOENT
    | inr (s0, s1) => hs_size s0 = text /\ data <= hs_size s1
    end.
Proof.
  intros HL. apply twp_ex. unfold ane_h16_segments. destruct (ane_h16_adt_open nodes) as [e|b] eqn:Ho; [by left|].
  pose proof (adt_open_len nodes b HL Ho) as Hlen. unfold h16_segments_mapped. apply twp_bind.
  eapply twp_mono; [by apply node_at_safe|]. intros root _. destruct (_ =? 0); [cbn; auto|]. apply twp_bind.
  eapply twp_mono; [by apply find_ane_safe|]. intros [e|n] Hn; [cbn; auto|]. apply twp_bind.
  eapply twp_mono; [apply adt_prop_safe; [done|lia]|]. intros [e|[d size]] Hp; [cbn; auto|]. apply twp_bind.
  destruct Hp as (H0 & H1 & H2). pose proof (seg_decode_enc b d (slice b d size)) as Hd.
  rewrite zlen_slice in Hd; [|lia..]. rewrite Hd; [|by apply at_slice].
  case_bool_decide; cbn [twp mbind res_bind]; [|auto]. cbv zeta.
  set (s0 := let '(_, _, _) := a_seg _ _ 0 _ in _). set (s1 := let '(_, _, _) := a_seg _ _ 1 _ in _). clearbody s0 s1.
  destruct (Z.eqb_spec (hs_size s0) text), (Z.ltb_spec (hs_size s1) data); cbn; auto.
Qed.

(** C21. On a region with any content (a truncated, hostile or random one
    included) the H16 driver reads nothing outside it, the walks end, and what
    it returns is a documented error or a pair of segments with the sizes of
    the pinned image. *)
Theorem h16_segments_safe nodes ty text data :
  (forall l c, nodes = Some l -> c ∈ l -> map_law c) ->
  exists r, ane_h16_segments nodes ty text data = Ret r /\
    match r with
    | inl e => e = ENODEV \/ e = EINVAL \/ e = ENOENT
    | inr (s0, s1) => hs_size s0 = text /\ data <= hs_size s1
    end.
Proof. apply segments_safe. Qed.

(** ** The H15 walker *)

Lemma prop_of_bytes b off l flag pad :
  bytes_ok b -> 0 <= off -> 0 <= l < 2 ^ 31 -> pad = (- l) mod 4 -> off + 36 + l + pad <= zlen b ->
  word32_at b (off + 32) = l + (if flag : bool then 2 ^ 31 else 0) ->
  let p := AProp (slice b off 32) flag (slice b (off + 36) l) (slice b (off + 36 + l) pad) in
  prop_wf p /\ at_off b off (enc_prop p).
Proof.
  intros Hb H0 Hl -> He Hw p. pose proof (Z.mod_pos_bound (- l) 4).
  assert (zlen (ap_name p) = 32 /\ zlen (ap_data p) = l /\ zlen (ap_pad p) = (- l) mod 4) as (E1 & E2 & E3)
    by (cbn; rewrite !zlen_slice; lia).
  split; [unfold prop_wf; rewrite E1 E2 E3; lia|]. apply at_enc_prop; [done|]. rewrite E2. cbn [ap_flag p]. rewrite -Hw.
  split; [apply at_slice; lia|]. split; [apply at_word32_bytes; [done|lia..]|].
  split; [apply at_slice; lia|]. apply at_slice; lia.
Qed.

Section h15_tree.
Context (a : ane_h15_adt).
Let b := a_b a.
Context (Hb : bytes_ok (a_b a)) (Ha : a_len a = zlen (a_b a)) (Hlen : a_len a <= 2 ^ 31 - 64).

Abbreviation K15 := 4096.

Lemma h15_prop_enc off p :
  prop_wf p -> at_off b off (enc_prop p) ->
  u32 (off + 36) = off + 36 /\ off + 36 <= a_len a /\ h15_prop_len a off = Ret (zlen (ap_data p)) /\
  u32 (off + u32 (36 + align4 (zlen (ap_data p)))) = off + zlen (enc_prop p) /\ off + zlen (enc_prop p) <= a_len a.
Proof using Ha Hlen.
  intros Hw Hat. destruct (prop_enc b off p Hw Hat) as (H0 & H1 & H2 & Hl & He).
  pose proof (zlen_enc_prop p Hw) as Hz. pose proof Ha as Ha'. fold b in Ha'.
  split; [apply wrap_small; lia|]. split; [lia|]. split.
  - unfold h15_prop_len, ANE_H15_ADT_NAME_LEN. rewrite wrap_small; [|lia]. exact Hl.
  - rewrite -Hz (wrap_small 32 (zlen _)); [|lia]. rewrite wrap_small; lia.
Qed.

Lemma h15_skip_prop_enc off p :
  prop_wf p -> at_off b off (enc_prop p) -> h15_skip_prop a off = Ret (inl (off + zlen (enc_prop p))).
Proof using Ha Hlen.
  intros Hw Hat. destruct (h15_prop_enc off p Hw Hat) as (E1 & E2 & E3 & E4 & E5).
  unfold h15_skip_prop. change ANE_H15_ADT_PROP_HDR with 36. rewrite E1. if_lia. rewrite E3. cbn [mbind res_bind]. by rewrite E4.
Qed.

Lemma h15_prop_step_enc name off p :
  nonzero name -> (length name < 32)%nat -> prop_wf p -> at_off b off (enc_prop p) ->
  h15_prop_step a (name ++ [0]) off =
  Ret (if str_eq (ap_name p) name then inr (inr (off + 36, zlen (ap_data p))) else inl (off + zlen (enc_prop p))).
Proof using Ha Hlen.
  intros Hnz Hn Hw Hat. destruct (h15_prop_enc off p Hw Hat) as (E1 & E2 & E3 & E4 & E5).
  unfold h15_prop_step. change ANE_H15_ADT_PROP_HDR with 36. rewrite E1. if_lia. rewrite E3. cbn [mbind res_bind]. rewrite E4. if_lia.
  destruct Hw as (Hn32 & _). apply at_enc_prop in Hat as (Hat & _); [|done].
  rewrite (strncmp_cstr _ _ (ap_name p)); [|done|change (Z.to_nat ANE_H15_ADT_NAME_LEN) with 32%nat; unfold zlen in Hn32; lia|done].
  cbn [mbind res_bind]. by destruct (str_eq _ _).
Qed.

Lemma h15_node_at_enc off t : wf K15 t -> at_off b off (enc t) -> ane_h15_adt_node_at a off = Ret (inr (node_of off t)).
Proof using Ha Hlen.
  intros Hw Hat. apply wf_inv in Hw as (_ & Hp & Hc & _). apply at_enc in Hat as (H1 & H2 & H3 & _).
  pose proof (at_range _ _ _ H1) as [? ?]. pose proof (at_range _ _ _ H2) as [? H4]. rewrite zlen_le_bytes in H4.
  pose proof (zlen_nonneg (a_props t)). pose proof (zlen_nonneg (a_children t)). pose proof Ha as Ha'. fold b in Ha'.
  unfold ane_h15_adt_node_at. rewrite (wrap_small 32 (off + 8)); [|lia]. if_lia. fold b.
  rewrite (at_le32 _ _ _ H1); [|unfold in_range; lia]. cbn [mbind res_bind]. rewrite (wrap_small 32 (off + 4)); [|lia].
  rewrite (at_le32 _ _ _ H2); [|unfold in_range; lia]. cbn [mbind res_bind]. by if_lia.
Qed.

Lemma h15_subtree_end_enc t : forall fuel off,
  (height t <= fuel)%nat -> wf K15 t -> at_off b off (enc t) ->
  h15_subtree_end a fuel (node_of off t) = Ret (inr (off + zlen (enc t))).
Proof using Ha Hlen.
  induction t as [ps cs IH] using atree_ind'. intros fuel off Hf Hw Hat.
  destruct fuel as [|fuel]; [cbn [height] in Hf; lia|]. cbn [h15_subtree_end].
  pose proof (at_range _ _ _ Hat) as [H0 Hl].
  assert (zlen (enc (ANode ps cs)) = 8 + zlen (flat_map enc_prop ps) + zlen (flat_map enc cs)) as Hz
    by (cbn [enc]; rewrite !zlen_app !zlen_le_bytes; lia).
  apply wf_inv in Hw as (Hps & _ & _ & Hcs). apply at_enc in Hat as (_ & _ & H3 & H4).
  cbn [n_nprops n_nchildren n_off node_of a_props a_children] in *. pose proof Ha as Ha'. fold b in Ha'.
  pose proof (zlen_nonneg (flat_map enc_prop ps)). pose proof (zlen_nonneg (flat_map enc cs)).
  rewrite wrap_small; [|lia].
  rewrite (times_enc_all b enc_prop prop_wf (h15_skip_prop a) ps _ (fun p off => h15_skip_prop_enc off p) Hps H3).
  cbn [mbind res_bind].
  rewrite (times_enc_all b enc (fun c => wf K15 c /\ forall off, at_off b off (enc c) ->
      h15_subtree_end a fuel (node_of off c) = Ret (inr (off + zlen (enc c)))) _ cs); [| | |done].
  - cbn [mbind res_bind]. if_lia. do 2 f_equal. lia.
  - intros c o [Hwc Hc] Hat. unfold h15_skip_child. rewrite (h15_node_at_enc o c Hwc Hat). cbn [mbind res_bind].
    by rewrite (Hc o Hat).
  - cbn [height] in Hf. assert (Forall (fun c => (height c <= fuel)%nat) cs) as Hh by (apply Forall_foldr_max; lia).
    rewrite !Forall_forall in IH Hcs Hh |- *. intros c Hc. split; [by apply Hcs|]. intros o Ho. apply IH; auto.
Qed.

(** On arbitrary bytes. *)
Lemma h15_skip_prop_safe off :
  0 <= off < 2 ^ 32 - 36 ->
  twp (h15_skip_prop a off) (fun r => match r with
    | inl off' => off + 36 <= off' < 2 ^ 32 - 36 /\
                  (off' <= a_len a -> exists p, prop_wf p /\ at_off b off (enc_prop p) /\ off' = off + zlen (enc_prop p))
    | inr e => e = ANE_H15_EFORMAT
    end).
Proof using Hb Ha Hlen.
  intros H0. unfold h15_skip_prop, ANE_H15_ADT_PROP_HDR. rewrite (wrap_small 32 (off + 36)); [|lia].
  destruct (Z.gtb_spec (off + 36) (a_len a)) as [Hg|Hg]; [done|].
  unfold h15_prop_len, ANE_H15_ADT_NAME_LEN. rewrite (wrap_small 32 (off + 32)); [|lia].
  rewrite le32_eq; [|lia..]. cbn [mbind res_bind]. change 0x7fffffff with (2 ^ 31 - 1). rewrite land_mask_mod; [|lia].
  pose proof (word32_at_range b (off + 32) Hb) as Hr. fold b. set (v := word32_at b (off + 32)) in *. unfold in_range in Hr.
  assert (0 <= v mod 2 ^ 31 < 2 ^ 31) as Hl by (apply Z.mod_pos_bound; lia).
  rewrite align4_eq; [|done]. pose proof (Z.mod_pos_bound (- (v mod 2 ^ 31)) 4).
  rewrite (wrap_small 32 (36 + _)); [|lia]. rewrite wrap_small; [|lia]. cbn [twp]. split; [lia|]. intros Hend.
  pose proof Ha as Ha'. fold b in Ha'.
  destruct (prop_of_bytes b off (v mod 2 ^ 31) (2 ^ 31 <=? v) _ Hb (proj1 H0) Hl eq_refl) as [Hp Hat]; [lia| |].
  - fold v. destruct (Z.leb_spec (2 ^ 31) v); dlia.
  - eexists. split; [exact Hp|]. split; [exact Hat|]. rewrite zlen_enc_prop; [|done]. cbn [ap_data].
    rewrite zlen_slice; [|lia..]. rewrite align4_eq; lia.
Qed.

Lemma h15_props_safe n off :
  0 <= off < 2 ^ 32 - 36 ->
  twp (iterM n (h15_skip_prop a) off) (fun r => match r with
    | inl off' => off <= off' < 2 ^ 32 - 36 /\
        (off' <= a_len a -> exists ps, Forall prop_wf ps /\ zlen ps = Z.of_nat n /\ at_off b off (flat_map enc_prop ps) /\
                                       off' = off + zlen (flat_map enc_prop ps))
    | inr e => e = ANE_H15_EFORMAT
    end).
Proof using Hb Ha Hlen.
  revert off. induction n as [|n IH]; intros off H0; cbn [iterM].
  - cbn [twp]. split; [lia|]. intros Hl. exists []. split; [constructor|]. split; [done|].
    split; [apply at_nil; fold b in Ha; lia|]. cbn [flat_map]. change (zlen (A:=Z) []) with 0. lia.
  - apply twp_bind. eapply twp_mono; [by apply h15_skip_prop_safe|]. intros [o|e]; [|done]. intros [Ho Hp].
    eapply twp_mono; [apply IH; lia|]. intros [o'|e]; [|done]. intros [Ho' Hps]. split; [lia|]. intros Hend.
    destruct Hp as (p & Hwp & Hat & ->); [lia|]. destruct Hps as (ps & Hwps & Hn & Hats & ->); [lia|].
    exists (p :: ps). split; [by constructor|]. split; [unfold zlen in *; cbn [length]; lia|]. cbn [flat_map].
    rewrite at_app zlen_app. split; [done|lia].
Qed.

Lemma h15_node_at_safe off :
  0 <= off < 2 ^ 32 - 36 ->
  twp (ane_h15_adt_node_at a off) (fun r => match r with
    | inr n => off + 8 <= a_len a /\ n_off n = off /\ 0 <= n_nprops n <= K15 /\ 0 <= n_nchildren n <= K15 /\
               at_off b off (le_bytes 4 (n_nprops n)) /\ at_off b (off + 4) (le_bytes 4 (n_nchildren n))
    | inl e => e = ANE_H15_EFORMAT
    end).
Proof using Hb Ha Hlen.
  intros H0. unfold ane_h15_adt_node_at. rewrite (wrap_small 32 (off + 8)); [|lia].
  destruct (Z.gtb_spec (off + 8) (a_len a)) as [Hg|Hg]; [done|]. rewrite (wrap_small 32 (off + 4)); [|lia].
  rewrite !le32_eq; [|lia..]. cbn [mbind res_bind]. destruct (_ || _) eqn:E; [done|]. cbn [twp n_off n_nprops n_nchildren].
  pose proof (word32_at_range b off Hb) as H1. pose proof (word32_at_range b (off + 4) Hb) as H2. unfold in_range in *. fold b in E |- *.
  pose proof Ha as Ha'. fold b in Ha'.
  split; [done|]. split; [done|]. split; [lia|]. split; [lia|]. split; apply at_word32_bytes; (done || lia).
Qed.

(** What the walk of a subtree establishes. *)
Definition h15_accepts (off : Z) (r : ane_h15_err + Z) : Prop :=
  match r with
  | inr e => exists t, wf K15 t /\ at_off b off (enc t) /\ e = off + zlen (enc t)
  | inl e => e = ANE_H15_EFORMAT
  end.

Lemma h15_skip_child_safe end_of off :
  0 <= off < 2 ^ 32 - 36 ->
  (forall n, n_off n = off -> ane_h15_adt_node_at a off = Ret (inr n) -> twp (end_of n) (h15_accepts off)) ->
  twp (h15_skip_child a end_of off) (fun r => match r with inl e => h15_accepts off (inr e) | inr e => e = ANE_H15_EFORMAT end).
Proof using Hb Ha Hlen.
  intros H0 He. unfold h15_skip_child. pose proof (h15_node_at_safe off H0) as Hn. apply twp_ex in Hn as (r & Hr & Hn).
  rewrite Hr. cbn [mbind res_bind]. destruct r as [e|n]; [done|]. apply twp_bind.
  eapply twp_mono; [apply He; [apply Hn|done]|]. by intros [e|e].
Qed.

Lemma h15_children_safe end_of k off :
  0 <= off < 2 ^ 32 - 36 ->
  (forall o n, off <= o < 2 ^ 32 - 36 -> n_off n = o -> ane_h15_adt_node_at a o = Ret (inr n) ->
    twp (end_of n) (h15_accepts o)) ->
  twp (iterM k (h15_skip_child a end_of) off) (fun r => match r with
    | inl off' => off <= off' < 2 ^ 32 - 36 /\
        (off' <= a_len a -> exists cs, Forall (wf K15) cs /\ zlen cs = Z.of_nat k /\ at_off b off (flat_map enc cs) /\
                                       off' = off + zlen (flat_map enc cs))
    | inr e => e = ANE_H15_EFORMAT
    end).
Proof using Hb Ha Hlen.
  revert off. induction k as [|k IH]; intros off H0 He; cbn [iterM].
  - cbn [twp]. split; [lia|]. intros Hl. exists []. split; [constructor|]. split; [done|].
    split; [apply at_nil; fold b in Ha; lia|]. cbn [flat_map]. change (zlen (A:=Z) []) with 0. lia.
  - apply twp_bind. eapply twp_mono.
    { apply h15_skip_child_safe; [done|]. intros n Hn. apply He; [lia|done]. }
    intros [o|e]; [|done]. intros (t & Hwt & Hat & ->). pose proof (zlen_nonneg (enc t)). pose proof (at_range _ _ _ Hat).
    pose proof Ha as Ha'. fold b in Ha'.
    eapply twp_mono; [apply IH; [lia|]; intros o n Ho; apply He; lia|]. intros [o'|e]; [|done]. intros [Ho' Hcs].
    split; [lia|]. intros Hend. destruct Hcs as (cs & Hwcs & Hn & Hats & ->); [lia|].
    exists (t :: cs). split; [by constructor|]. split; [unfold zlen in *; cbn [length]; lia|]. cbn [flat_map].
    rewrite at_app zlen_app. split; [done|lia].
Qed.

Lemma h15_subtree_end_safe fuel : forall n,
  0 <= n_off n < 2 ^ 32 - 36 -> ane_h15_adt_node_at a (n_off n) = Ret (inr n) ->
  (Z.to_nat ((a_len a - n_off n) / 8) <= fuel)%nat ->
  twp (h15_subtree_end a fuel n) (h15_accepts (n_off n)).
Proof using Hb Ha Hlen.
  induction fuel as [|fuel IH]; intros n H0 Hn Hf.
  all: pose proof (h15_node_at_safe _ H0) as Hs; rewrite Hn in Hs; cbn [twp] in Hs.
  all: destruct Hs as (Hl & _ & Hp & Hc & Hap & Hac).
  - assert (1 <= (a_len a - n_off n) / 8) by (apply Z.div_le_lower_bound; lia). lia.
  - cbn [h15_subtree_end]. rewrite (wrap_small 32 (n_off n + 8)); [|lia]. rewrite times_iterM. apply twp_bind.
    eapply twp_mono; [apply h15_props_safe; lia|]. intros [o|e]; [|by intros ->]. intros [Ho Hps]. rewrite times_iterM.
    apply twp_bind. eapply twp_mono.
    { apply h15_children_safe; [lia|]. intros o' c Ho' <- Hc'. apply IH; [lia|done|].
      assert ((a_len a - n_off c) / 8 + 1 <= (a_len a - n_off n) / 8); [|lia].
      rewrite -(Z.div_add _ 1 8); [|lia]. apply Z.div_le_mono; lia. }
    intros [o'|e] Hcs; [|by cbn]. destruct Hcs as [Ho' Hcs].
    cbn [twp]. destruct (Z.gtb_spec o' (a_len a)); [done|].
    destruct Hcs as (cs & Hwcs & Hnc & Hats & ->); [lia|]. pose proof (zlen_nonneg (flat_map enc cs)).
    destruct Hps as (ps & Hwps & Hnp & Hatp & ->); [lia|]. exists (ANode ps cs).
    rewrite Z2Nat.id in Hnp; [|lia]. rewrite Z2Nat.id in Hnc; [|lia].
    split; [constructor; (done || lia)|]. split.
    + apply at_enc. cbn [a_props a_children]. by rewrite Hnp Hnc.
    + cbn [enc]. rewrite !zlen_app !zlen_le_bytes. lia.
Qed.

Lemma h15_end_safe n :
  0 <= n_off n < 2 ^ 32 - 36 -> ane_h15_adt_node_at a (n_off n) = Ret (inr n) ->
  twp (ane_h15_adt_subtree_end a n) (h15_accepts (n_off n)).
Proof using Hb Ha Hlen.
  intros H0 Hn. apply h15_subtree_end_safe; [done|done|]. unfold h15_fuel.
  assert ((a_len a - n_off n) / 8 <= a_len a / 8) by (apply Z.div_le_mono; lia). lia.
Qed.

Lemma height_enc t : 8 * Z.of_nat (height t) <= zlen (enc t).
Proof using Type.
  clear. induction t as [ps cs IH] using atree_ind'. cbn [height enc]. rewrite !zlen_app !zlen_le_bytes.
  pose proof (zlen_nonneg (flat_map enc_prop ps)).
  enough (8 * Z.of_nat (foldr (fun c h => Nat.max (height c) h) O cs) <= zlen (flat_map enc cs)) by lia.
  induction IH as [|c cs Hc _ IH]; [done|]. cbn [foldr flat_map]. rewrite zlen_app.
  pose proof (zlen_nonneg (enc c)). pose proof (zlen_nonneg (flat_map enc cs)). lia.
Qed.

Lemma h15_end_enc off t :
  wf K15 t -> at_off b off (enc t) -> ane_h15_adt_subtree_end a (node_of off t) = Ret (inr (off + zlen (enc t))).
Proof using Ha Hlen.
  intros Hw Hat. pose proof (at_range _ _ _ Hat). pose proof (height_enc t). pose proof Ha as Ha'. fold b in Ha'.
  apply h15_subtree_end_enc; [|done|done]. unfold h15_fuel.
  assert (Z.of_nat (height t) <= a_len a / 8) by (apply Z.div_le_lower_bound; lia). lia.
Qed.

Lemma h15_skip_child_enc off t :
  wf K15 t -> at_off b off (enc t) -> h15_skip_child a (ane_h15_adt_subtree_end a) off = Ret (inl (off + zlen (enc t))).
Proof using Ha Hlen.
  intros Hw Hat. unfold h15_skip_child. rewrite (h15_node_at_enc off t Hw Hat). cbn [mbind res_bind].
  by rewrite (h15_end_enc off t Hw Hat).
Qed.

Lemma h15_nth_child_enc off t pre c post :
  wf K15 t -> at_off b off (enc t) -> a_children t = pre ++ c :: post ->
  exists off', at_off b off' (enc c) /\ wf K15 c /\
               ane_h15_adt_nth_child_off a (node_of off t) (zlen pre) = Ret (inr off').
Proof using Ha Hlen.
  intros Hw Hat Hc. apply wf_inv in Hw as (Hps & _ & _ & Hcs). rewrite Hc in Hcs.
  apply Forall_app in Hcs as [Hwp [Hwc _]%Forall_cons].
  apply at_enc in Hat as (H1 & _ & H3 & H4). rewrite Hc flat_map_app in H4. apply at_app in H4 as [H4 H5].
  cbn [flat_map] in H5. apply at_app in H5 as [H5 _].
  pose proof (at_range _ _ _ H1) as [? _]. pose proof (at_range _ _ _ H3) as [_ ?].
  pose proof (zlen_nonneg (flat_map enc_prop (a_props t))). pose proof Ha as Ha'. fold b in Ha'.
  eexists. split; [exact H5|]. split; [done|]. unfold ane_h15_adt_nth_child_off. cbn [n_nprops n_nchildren n_off node_of].
  rewrite Hc zlen_app. pose proof (zlen_nonneg pre). assert (0 < zlen (c :: post)) by (unfold zlen; cbn [length]; lia). if_lia.
  rewrite wrap_small; [|lia].
  rewrite (times_enc_all b enc_prop prop_wf (h15_skip_prop a) (a_props t) _ (fun p off => h15_skip_prop_enc off p) Hps H3).
  cbn [mbind res_bind].
  by rewrite (times_enc_all b enc (wf K15) _ pre _ (fun c off => h15_skip_child_enc off c) Hwp H4).
Qed.

Lemma h15_adt_prop_enc off t name :
  nonzero (chars name) -> (length (chars name) < 32)%nat -> wf K15 t -> at_off b off (enc t) ->
  match a_prop str_eq t name with
  | Some p => exists d, at_off b d (ap_data p) /\ ane_h15_adt_prop a (node_of off t) name = Ret (inr (d, zlen (ap_data p)))
  | None => ane_h15_adt_prop a (node_of off t) name = Ret (inl ANE_H15_ENOENT)
  end.
Proof using Ha Hlen.
  intros Hnz Hn Hw Hat. apply wf_inv in Hw as (Hps & _). apply at_enc in Hat as (H1 & _ & H3 & _).
  pose proof (at_range _ _ _ H1) as [? ?]. pose proof (at_range _ _ _ H3) as [? H4].
  pose proof (zlen_nonneg (flat_map enc_prop (a_props t))). pose proof Ha as Ha'. fold b in Ha'.
  unfold ane_h15_adt_prop, a_prop. cbn [n_nprops n_off node_of]. rewrite wrap_small; [|lia]. rewrite c_bytes_chars.
  pose proof (times_enc_find b enc_prop prop_wf (fun p => str_eq (ap_name p) (chars name))
    (fun p off => inr (off + 36, zlen (ap_data p)) : ane_h15_err + Z * Z) (h15_prop_step a (chars name ++ [0]))
    (a_props t) (off + 8) (fun p off => h15_prop_step_enc (chars name) off p Hnz Hn) Hps H3) as HT.
  destruct (List.find _ _) as [p|] eqn:E; [|by rewrite HT].
  destruct HT as (off' & Hat & ->). exists (off' + 36). apply List.find_some in E as [Hin _].
  assert (prop_wf p) as Hp by (rewrite Forall_forall in Hps; apply Hps, list_elem_of_In, Hin).
  apply at_enc_prop in Hat as (_ & _ & Hat & _); [done|apply Hp].
Qed.

Lemma cstr_shorter bs : 0 ∈ bs -> (length (cstr bs) < length bs)%nat.
Proof using Type.
  clear. induction bs as [|x bs IH]; intros H0; [by apply elem_of_nil in H0|]. cbn [cstr].
  destruct (Z.eqb_spec x 0); cbn [length]; [lia|]. apply le_n_S, IH. set_solver.
Qed.

Lemma h15_named_step_enc off t pre c post :
  wf K15 t -> names_terminated t -> at_off b off (enc t) -> a_children t = pre ++ c :: post ->
  twp (h15_named_step a (node_of off t) "arm-io" (zlen pre)) (fun r => match r with
    | inl i => is_arm_io str_eq c = false /\ i = u32 (zlen pre + 1)
    | inr n => is_arm_io str_eq c = true /\ exists off', at_off b off' (enc c) /\ wf K15 c /\ n = inr (node_of off' c)
    end).
Proof using Ha Hlen.
  intros Hw Ht Hat Hc. destruct (h15_nth_child_enc off t pre c post Hw Hat Hc) as (off' & Hac & Hwc & Hch).
  unfold h15_named_step. rewrite Hch. cbn [mbind res_bind]. rewrite (h15_node_at_enc off' c Hwc Hac). cbn [mbind res_bind].
  pose proof (h15_adt_prop_enc off' c "name" (nonzero_chars "name" eq_refl) ltac:(cbn; lia) Hwc Hac) as Hp.
  unfold names_terminated in Ht. rewrite Hc in Ht. apply Forall_app in Ht as [_ [Ht _]%Forall_cons].
  unfold is_arm_io. destruct (a_prop str_eq c "name") as [p|]; [|by rewrite Hp].
  specialize (Ht p eq_refl). destruct Hp as (d & Hd & ->). cbn [mbind res_bind]. unfold h15_name_is.
  pose proof (cstr_shorter _ Ht) as Hs. assert (0 < zlen (ap_data p)) by (unfold zlen; lia). if_lia.
  rewrite c_bytes_chars. replace (length (chars "arm-io" ++ [0%Z]) - 1)%nat with (length (chars "arm-io")) by done.
  cbv zeta. rewrite (strncmp_exact b d (ap_data p)); [|by apply nonzero_chars|done|done]. cbn [mbind res_bind].
  destruct (str_eq (ap_data p) (chars "arm-io")) eqn:E; [|by rewrite andb_false_r].
  unfold str_eq in E. apply bool_decide_eq_true in E. rewrite E in Hs. cbn [chars length map list_ascii_of_string] in Hs.
  cbn [twp]. split; [unfold zlen; lia|]. by exists off'.
Qed.

Lemma h15_ane_step_enc ty off t pre c post :
  wf K15 t -> at_off b off (enc t) -> a_children t = pre ++ c :: post ->
  twp (h15_ane_step a ty (node_of off t) (zlen pre)) (fun r => match r with
    | inl i => is_ane str_eq ty c = false /\ i = u32 (zlen pre + 1)
    | inr n => is_ane str_eq ty c = true /\ exists off', at_off b off' (enc c) /\ wf K15 c /\ n = inr (node_of off' c)
    end).
Proof using Ha Hlen.
  intros Hw Hat Hc. destruct (h15_nth_child_enc off t pre c post Hw Hat Hc) as (off' & Hac & Hwc & Hch).
  unfold h15_ane_step. rewrite Hch. cbn [mbind res_bind]. rewrite (h15_node_at_enc off' c Hwc Hac). cbn [mbind res_bind].
  pose proof (h15_adt_prop_enc off' c "ane-type" (nonzero_chars "ane-type" eq_refl) ltac:(cbn; lia) Hwc Hac) as Hp.
  unfold is_ane. destruct (a_prop str_eq c "ane-type") as [p|]; [|by rewrite Hp].
  destruct Hp as (d & Hd & ->). cbn [mbind res_bind]. rewrite Z.geb_leb.
  destruct (Z.leb_spec 4 (zlen (ap_data p))) as [H4|H4]; [|done].
  pose proof (at_word32 b d _ 0 Hd ltac:(lia) ltac:(lia)) as E. rewrite Z.add_0_r in E. fold b. rewrite E.
  cbn [mbind res_bind andb]. destruct (_ =? _); cbn [twp]; [|done]. split; [done|]. by exists off'.
Qed.

Lemma h15_find_enc ty t :
  wf K15 t -> names_terminated t -> at_off b 0 (enc t) ->
  match a_find_ane str_eq ty t with
  | Some c => exists off, at_off b off (enc c) /\ wf K15 c /\ ane_h15_adt_find_ane a ty = Ret (inr (node_of off c))
  | None => ane_h15_adt_find_ane a ty = Ret (inl ANE_H15_ENOENT)
  end.
Proof using Ha Hlen.
  intros Hw Ht Hat. unfold ane_h15_adt_find_ane, a_find_ane. pose proof (height_enc t) as Hh. pose proof (at_range _ _ _ Hat).
  assert (1 <= height t)%nat by (destruct t; cbn [height]; lia). pose proof Ha as Ha'. fold b in Ha'. if_lia.
  rewrite (h15_node_at_enc 0 t Hw Hat). cbn [mbind res_bind]. rewrite (h15_end_enc 0 t Hw Hat). cbn [mbind res_bind].
  unfold ane_h15_adt_child_named. cbn [n_nchildren node_of]. pose proof (wf_inv _ _ Hw) as (_ & _ & Hc & _).
  pose proof (times_index (is_arm_io str_eq) _ _ (a_children t) ltac:(unfold U32_MAX; lia)
    (fun pre c post E => h15_named_step_enc 0 t pre c post Hw Ht Hat E)) as HT.
  destruct (List.find _ _) as [arm|]; [|destruct HT as [i E]; by rewrite E].
  destruct HT as (n & -> & off & Haa & Hwa & ->). cbn [mbind res_bind n_nchildren node_of].
  pose proof (wf_inv _ _ Hwa) as (_ & _ & Hca & _).
  pose proof (times_index (is_ane str_eq ty) _ _ (a_children arm) ltac:(unfold U32_MAX; lia)
    (fun pre c post E => h15_ane_step_enc ty off arm pre c post Hwa Haa E)) as HT.
  destruct (List.find _ _) as [c|]; [|destruct HT as [i E]; by rewrite E].
  destruct HT as (n & -> & off' & Hc' & Hwc & ->). by exists off'.
Qed.

Lemma h15_decode_entry_enc d data stride i :
  at_off b d data -> (stride = 24 \/ stride = 32) -> (i = 0 \/ i = 1) -> 2 * stride <= zlen data ->
  h15_decode_entry a (d + i * stride) stride =
  Ret (let '(phys, iova, n) := a_seg data stride i id in
       let s := H15Seg phys iova n in if seg15_ok s then inr s else inl ANE_H15_EFORMAT).
Proof using Ha.
  intros Hd Hs Hi Hl. pose proof (at_range _ _ _ Hd) as [H0 H1]. pose proof Ha as Ha'. fold b in Ha'.
  unfold h15_decode_entry. rewrite -!Z.add_assoc. if_lia. fold b.
  rewrite (at_word64 b d data (i * stride) Hd); [|lia..]. cbn [mbind res_bind].
  rewrite (at_word64 b d data (i * stride + 8) Hd); [|lia..]. cbn [mbind res_bind].
  rewrite (at_word64 b d data (i * stride + 16) Hd); [|lia..]. cbn [mbind res_bind].
  change (ANE_H15_ADT_PROP_ALIGN - 1) with 3. unfold a_seg, seg15_ok.
  destruct Hs as [-> | ->]; cbn [Z.eqb Pos.eqb].
  - cbn [mbind res_bind s15_phys s15_iova s15_size]. repeat (destruct (_ =? _); cbn [negb andb orb]; try done).
  - rewrite (at_word64 b d data (i * 32 + 24) Hd); [|lia..]. cbn [mbind res_bind s15_phys s15_iova s15_size].
    unfold id. repeat (destruct (_ =? _); cbn [negb andb orb]; try done).
Qed.

Lemma h15_segments_enc text data off t :
  wf K15 t -> at_off b off (enc t) -> ane_h15_adt_segments a (node_of off t) text data = Ret (a_segments15 text data t).
Proof using Ha Hlen.
  intros Hw Hat. unfold ane_h15_adt_segments, a_segments15.
  pose proof (h15_adt_prop_enc off t "segment-ranges" (nonzero_chars "segment-ranges" eq_refl) ltac:(cbn; lia) Hw Hat) as Hp.
  destruct (a_prop str_eq t "segment-ranges") as [p|]; [|by rewrite Hp]. destruct Hp as (d & Hd & ->).
  cbn [mbind res_bind]. set (n := zlen (ap_data p)) in *. assert (0 <= n) by apply zlen_nonneg. cbv zeta.
  case_bool_decide as Hs.
  - assert (n / 2 = 24 \/ n / 2 = 32) as Hst by (destruct Hs as [-> | ->]; auto).
    assert (2 * (n / 2) = n) as H2 by (destruct Hs as [-> | ->]; done).
    replace (n mod 2 =? 0) with true by (destruct Hs as [-> | ->]; done). cbn [negb].
    replace (negb (n / 2 =? 24) && negb (n / 2 =? 32)) with false by (destruct Hst as [-> | ->]; done).
    pose proof (h15_decode_entry_enc d (ap_data p) (n / 2) 0 Hd Hst (or_introl eq_refl) ltac:(lia)) as E0.
    pose proof (h15_decode_entry_enc d (ap_data p) (n / 2) 1 Hd Hst (or_intror eq_refl) ltac:(lia)) as E1.
    rewrite Z.mul_0_l Z.add_0_r in E0. rewrite Z.mul_1_l in E1. rewrite E0. cbn [mbind res_bind].
    destruct (a_seg _ _ 0 _) as [[p0 i0] n0], (a_seg _ _ 1 _) as [[p1 i1] n1]. cbv zeta in E1 |- *.
    destruct (seg15_ok (H15Seg p0 i0 n0)); [|done]. rewrite E1. cbn [mbind res_bind andb].
    destruct (seg15_ok (H15Seg p1 i1 n1)); [|done]. cbn [andb s15_size].
    destruct (text =? 0), (n0 =? text); cbn [negb andb orb]; try done;
      (destruct (data =? 0); cbn [negb andb orb]; [done|]);
      destruct (Z.ltb_spec n1 data), (Z.leb_spec data n1); try done; lia.
  - destruct (Z.eqb_spec (n mod 2) 0) as [E|E]; [|done]. cbn [negb].
    destruct (Z.eqb_spec (n / 2) 24), (Z.eqb_spec (n / 2) 32); try done; exfalso; apply Hs; dlia.
Qed.
End h15_tree.

(** A length the H15 walker's 32-bit offsets can index. *)
Definition h15_blob (a : ane_h15_adt) : Prop :=
  bytes_ok (a_b a) /\ a_len a = zlen (a_b a) /\ a_len a <= 2 ^ 31 - 64.

(** C22. On any bytes the recursive walk returns, and it accepts the node at an
    offset exactly when a well-formed tree is encoded there; the offset it
    returns is the end of that encoding. *)
Theorem h15_subtree_exact a off :
  h15_blob a -> 0 <= off < 2 ^ 32 - 36 ->
  exists r, h15_skip_child a (ane_h15_adt_subtree_end a) off = Ret r /\
    forall e, r = inl e <-> exists t, wf 4096 t /\ at_off (a_b a) off (enc t) /\ e = off + zlen (enc t).
Proof.
  intros (Hb & Ha & Hl) Ho.
  pose proof (h15_skip_child_safe a Hb Ha Hl (ane_h15_adt_subtree_end a) off Ho) as Hs.
  apply twp_ex in Hs as (r & Hr & Hs); [|intros n <- Hn; by apply h15_end_safe].
  exists r. split; [done|]. intros e. split.
  - intros ->. exact Hs.
  - intros (t & Hw & Hat & ->). rewrite (h15_skip_child_enc a Ha Hl off t Hw Hat) in Hr. by injection Hr as <-.
Qed.

Lemma wf_mono K K' t : K <= K' -> wf K t -> wf K' t.
Proof.
  intros HK. induction t as [ps cs IH] using atree_ind'. intros (Hp & H1 & H2 & Hc)%wf_inv. cbn [a_props a_children] in *.
  constructor; [done|lia|lia|]. rewrite !Forall_forall in IH Hc |- *. auto.
Qed.

(** C23. The two walkers agree: where the recursive H15 walk accepts, the
    iterative H16 walk over the same bytes returns the same end, unless the
    subtree has more than 32 levels, when it returns the end of the region. *)
Theorem walkers_agree a off e :
  h15_blob a -> a_len a <= 2 ^ 30 -> 0 <= off < 2 ^ 32 - 36 ->
  h15_skip_child a (ane_h15_adt_subtree_end a) off = Ret (inl e) ->
  exists t, wf 4096 t /\ at_off (a_b a) off (enc t) /\
    adt_subtree_end (a_b a) off = Ret (if (height t <=? 32)%nat then e else a_len a).
Proof.
  intros (Hb & Ha & Hl) Hl' Ho Hr.
  pose proof (h15_skip_child_safe a Hb Ha Hl (ane_h15_adt_subtree_end a) off Ho) as Hs. rewrite Hr in Hs.
  destruct Hs as (t & Hw & Hat & ->); [intros n <- Hn; by apply h15_end_safe|].
  exists t. split; [done|]. split; [done|]. rewrite Ha in Hl'.
  rewrite (subtree_end_enc _ Hl' off t); [|by eapply wf_mono; [|done]|done].
  unfold adt_end_sentinel, adt_len. rewrite wrap_small; [by rewrite Ha|]. pose proof (zlen_nonneg (a_b a)). lia.
Qed.

(** On any bytes whose names are terminated, the H15 lookup is exact: it
    reports a malformed blob exactly when no well-formed tree is encoded, and
    otherwise finds the node of the tree's first engine of the type, or that
    there is none; the segments then read are that node's. *)
Theorem h15_find_exact a ty text data :
  h15_blob a -> (forall t, wf 4096 t -> at_off (a_b a) 0 (enc t) -> names_terminated t) ->
  exists r, ane_h15_adt_find_ane a ty = Ret r /\
    match r with
    | inl ANE_H15_EFORMAT => ~ exists t, wf 4096 t /\ at_off (a_b a) 0 (enc t)
    | inl ANE_H15_ENOENT => exists t, wf 4096 t /\ at_off (a_b a) 0 (enc t) /\ a_find_ane str_eq ty t = None
    | inr n => exists t c, wf 4096 t /\ at_off (a_b a) 0 (enc t) /\ a_find_ane str_eq ty t = Some c /\
                 at_off (a_b a) (n_off n) (enc c) /\
                 ane_h15_adt_segments a n text data = Ret (a_segments15 text data c)
    end.
Proof.
  intros (Hb & Ha & Hl) Ht.
  pose proof (h15_node_at_safe a Hb Ha Hl 0 ltac:(lia)) as Hn. apply twp_ex in Hn as (rn & Hn & _).
  destruct (decide (a_len a < 8)) as [Hs|Hs].
  { exists (inl ANE_H15_EFORMAT). split; [unfold ane_h15_adt_find_ane; by if_lia|]. intros (t & _ & Hat).
    pose proof (at_range _ _ _ Hat). pose proof (height_enc t).
    assert (1 <= height t)%nat by (destruct t; cbn [height]; lia). lia. }
  pose proof (h15_skip_child_safe a Hb Ha Hl (ane_h15_adt_subtree_end a) 0 ltac:(lia)) as Hc.
  apply twp_ex in Hc as (rc & Hc & Hacc);
    [|intros n E Hn'; pose proof (h15_end_safe a Hb Ha Hl n) as Hen; rewrite E in Hen; apply Hen; [lia|done]].
  destruct rc as [e|e].
  - destruct Hacc as (t & Hw & Hat & _). pose proof (h15_find_enc a Ha Hl ty t Hw (Ht t Hw Hat) Hat) as Hf.
    destruct (a_find_ane str_eq ty t) as [c|] eqn:E; [|exists (inl ANE_H15_ENOENT); split; [done|by exists t]].
    destruct Hf as (off & Hac & Hwc & ->). eexists. split; [done|]. exists t, c. cbn [n_off node_of].
    rewrite (h15_segments_enc a Ha Hl text data off c Hwc Hac). done.
  - exists (inl ANE_H15_EFORMAT). split.
    + unfold ane_h15_adt_find_ane. if_lia. unfold h15_skip_child in Hc. rewrite Hn in Hc |- *. cbn [mbind res_bind] in Hc |- *.
      subst e. destruct rn as [e'|n]; [by injection Hc as ->|].
      destruct (ane_h15_adt_subtree_end a n) as [[e'|o]| |]; try done.
      cbn [mbind res_bind] in Hc |- *. by injection Hc as ->.
    + intros (t & Hw & Hat). rewrite (h15_skip_child_enc a Ha Hl 0 t Hw Hat) in Hc. done.
Qed.

(** *** A sample tree: the root, [arm-io], and an engine of type 176. *)

Definition mk_prop (name : string) (data : bytes) : aprop :=
  AProp (chars name ++ replicate (32 - length (chars name)) 0) false data
    (replicate (Z.to_nat ((- zlen data) mod 4)) 0).

Definition sample_segs : bytes :=
  le_bytes 8 0x800000000 ++ le_bytes 8 0 ++ le_bytes 8 0x10000 ++ le_bytes 8 0xc0000 ++
  le_bytes 8 0x900000000 ++ le_bytes 8 0 ++ le_bytes 8 0x100000 ++ le_bytes 8 0x300000.

Definition sample_ane_node : atree :=
  ANode [mk_prop "name" (chars "ane0" ++ [0]); mk_prop "ane-type" (le_bytes 4 176); mk_prop "segment-ranges" sample_segs] [].

Definition sample_tree : atree :=
  ANode [mk_prop "compatible" [1; 2; 3]] [ANode [] []; ANode [mk_prop "name" (chars "arm-io" ++ [0])] [sample_ane_node]].

Definition sample_blob : ane_h15_adt := H15Adt (enc sample_tree) (zlen (enc sample_tree)).
Definition sample_nodes : list reserved_child :=
  [ReservedChild None (Some 5) (inl ENOMEM);
   ReservedChild (Some "adt"%string) (Some (zlen (enc sample_tree))) (inr (enc sample_tree))].

Lemma sample_wf : wf 4096 sample_tree.
Proof.
  repeat first [apply Wf | apply Forall_cons_2 | apply Forall_nil_2]; try (vm_compute; done);
    (split; [done|split; [vm_compute; done|done]]).
Qed.

Lemma sample_blob_ok : h15_blob sample_blob.
Proof. split; [|split; [done|vm_compute; done]]. vm_decide. Qed.

Lemma sample_law : forall l c, Some sample_nodes = Some l -> c ∈ l -> map_law c.
Proof. intros l c [= <-] Hc. repeat (apply elem_of_cons in Hc as [->|Hc]; [done|]). by apply elem_of_nil in Hc. Qed.

Lemma h16_segments_exact_witness :
  ane_h16_segments (Some sample_nodes) 176 0xc0000 0x2ac000 =
  Ret (inr (H16Seg 0x800000000 0x10000 0xc0000, H16Seg 0x900000000 0x100000 0x300000)).
Proof.
  rewrite (h16_segments_exact (Some sample_nodes) (enc sample_tree) sample_tree 176 0xc0000 0x2ac000 sample_law).
  - vm_compute. reflexivity.
  - reflexivity.
  - exists []. by rewrite app_nil_r.
  - apply (wf_mono 4096); [done|apply sample_wf].
  - vm_compute. lia.
Defined.

(** *** The format is unambiguous *)

Lemma at_inj b off x y : at_off b off x -> at_off b off y -> zlen x = zlen y -> x = y.
Proof. intros (_ & _ & Hx) (_ & _ & Hy) Hl. apply bytes_ext; [done|]. intros i Hi. rewrite -Hx; [|done]. apply Hy. lia. Qed.

Lemma at_le32_inj b off v v' :
  at_off b off (le_bytes 4 v) -> at_off b off (le_bytes 4 v') -> in_range 32 v -> in_range 32 v' -> v = v'.
Proof. intros H H' Hv Hv'. pose proof (at_le32 _ _ _ H Hv) as E. rewrite (at_le32 _ _ _ H' Hv') in E. by injection E. Qed.

Lemma enc_prop_inj b off p p' :
  prop_wf p -> prop_wf p' -> at_off b off (enc_prop p) -> at_off b off (enc_prop p') -> p = p'.
Proof.
  intros (Hn & Hd & Hp) (Hn' & Hd' & Hp') (H1 & H2 & H3 & H4)%at_enc_prop (H1' & H2' & H3' & H4')%at_enc_prop; try done.
  pose proof (zlen_nonneg (ap_data p)). pose proof (zlen_nonneg (ap_data p')).
  pose proof (at_le32_inj _ _ _ _ H2 H2' ltac:(unfold in_range; destruct (ap_flag p); lia)
    ltac:(unfold in_range; destruct (ap_flag p'); lia)) as Hw.
  destruct p as [n f d pd], p' as [n' f' d' pd']; cbn [ap_name ap_flag ap_data ap_pad] in *.
  assert (f = f' /\ zlen d = zlen d') as [-> Hz] by (destruct f, f'; split; (done || lia)).
  rewrite Hz in Hp, H4. f_equal; [apply (at_inj b off)|apply (at_inj b (off + 36))|apply (at_inj b (off + 36 + zlen d'))];
    (done || congruence).
Qed.

Lemma enc_list_inj {B} b (e : B -> bytes) (W : B -> Prop) l l' off :
  (forall off x y, x ∈ l -> W x -> W y -> at_off b off (e x) -> at_off b off (e y) -> x = y) ->
  zlen l = zlen l' -> Forall W l -> Forall W l' -> at_off b off (flat_map e l) -> at_off b off (flat_map e l') -> l = l'.
Proof.
  revert l' off. induction l as [|x l IH]; intros l' off Hinj Hz HW HW' Hat Hat'; destruct l' as [|y l']; try done.
  apply Forall_cons in HW as [Hx HW]. apply Forall_cons in HW' as [Hy HW']. cbn [flat_map] in Hat, Hat'.
  apply at_app in Hat as [Hax Hat]. apply at_app in Hat' as [Hay Hat'].
  assert (x = y) as <- by (apply (Hinj off); (done || left)). f_equal. apply (IH l' (off + zlen (e x))); try done.
  - intros o x' y' Hx'. apply Hinj. by right.
  - unfold zlen in *. cbn [length] in Hz. lia.
Qed.

Lemma enc_inj b K t t' off :
  K <= U32_MAX -> wf K t -> wf K t' -> at_off b off (enc t) -> at_off b off (enc t') -> t = t'.
Proof.
  intros HK. revert t' off. induction t as [ps cs IH] using atree_ind'. intros [ps' cs'] off Hw Hw' Hat Hat'.
  apply wf_inv in Hw as (Hp & Hn & Hc & Hcs). apply wf_inv in Hw' as (Hp' & Hn' & Hc' & Hcs').
  apply at_enc in Hat as (H1 & H2 & H3 & H4). apply at_enc in Hat' as (H1' & H2' & H3' & H4').
  cbn [a_props a_children] in *. unfold U32_MAX in HK.
  assert (forall A (l : list A), zlen l <= K -> in_range 32 (zlen l)) as Hr
    by (intros A l Hl; pose proof (zlen_nonneg l); unfold in_range; lia).
  assert (ps = ps') as <-.
  { apply (enc_list_inj b enc_prop prop_wf _ _ (off + 8)); try done; [intros; by eapply enc_prop_inj|].
    apply (at_le32_inj b off); auto. }
  f_equal. apply (enc_list_inj b enc (wf K) _ _ (off + 8 + zlen (flat_map enc_prop ps))); try done.
  - intros o x y Hx Hwx Hwy Hax Hay. rewrite Forall_forall in IH. by eapply IH.
  - apply (at_le32_inj b (off + 4)); auto.
Qed.

(** *** Witnesses *)

Lemma sample_names : names_terminated sample_tree.
Proof.
  repeat first [apply Forall_cons_2 | apply Forall_nil_2]; intros p Hp; vm_compute in Hp; [done|].
  injection Hp as <-. cbn [ap_data]. set_solver.
Qed.

Lemma h16_segments_safe_witness :
  exists r, ane_h16_segments (Some sample_nodes) 176 0xc0000 0x400000 = Ret r /\ r = inl EINVAL.
Proof.
  destruct (h16_segments_safe (Some sample_nodes) 176 0xc0000 0x400000 sample_law) as (r & Hr & Hcase).
  exists r. split; [done|]. vm_compute in Hr. by injection Hr as <-.
Defined.

Lemma h15_subtree_exact_witness :
  h15_skip_child sample_blob (ane_h15_adt_subtree_end sample_blob) 0 = Ret (inl (zlen (enc sample_tree))).
Proof.
  destruct (h15_subtree_exact sample_blob 0 sample_blob_ok ltac:(lia)) as (r & Hr & Hiff). rewrite Hr. f_equal.
  apply Hiff. exists sample_tree. split; [apply sample_wf|]. split; [apply at_whole|done].
Defined.

Lemma walkers_agree_witness :
  exists t, wf 4096 t /\ at_off (enc sample_tree) 0 (enc t) /\
    adt_subtree_end (enc sample_tree) 0 = Ret (if (height t <=? 32)%nat then zlen (enc sample_tree) else zlen (enc sample_tree)).
Proof.
  apply (walkers_agree sample_blob 0 (zlen (enc sample_tree)) sample_blob_ok); [vm_compute; done|lia|vm_compute; reflexivity].
Defined.

Lemma h15_find_exact_witness :
  exists n, ane_h15_adt_find_ane sample_blob 176 = Ret (inr n) /\ at_off (enc sample_tree) (n_off n) (enc sample_ane_node) /\
    ane_h15_adt_segments sample_blob n 0xc0000 0x2ac000 =
    Ret (inr (H15Seg 0x800000000 0x10000 0xc0000, H15Seg 0x900000000 0x100000 0x300000)).
Proof.
  destruct (h15_find_exact sample_blob 176 0xc0000 0x2ac000 sample_blob_ok) as (r & Hr & H).
  - intros t Hw Hat. rewrite (enc_inj (enc sample_tree) 4096 t sample_tree 0); [apply sample_names|done|done|apply sample_wf|done|apply at_whole].
  - destruct r as [[|]|n].
    + vm_compute in Hr. discriminate Hr.
    + vm_compute in Hr. discriminate Hr.
    + exists n. split; [done|]. destruct H as (t & c & Hw & Hat & Hf & Hn & Hs).
      assert (t = sample_tree) as ->
        by (apply (enc_inj (enc sample_tree) 4096 t sample_tree 0); [done|done|apply sample_wf|done|apply at_whole]).
      assert (a_find_ane str_eq 176 sample_tree = Some sample_ane_node) as E by (vm_compute; reflexivity).
      rewrite E in Hf. injection Hf as <-. split; [done|]. rewrite Hs. vm_compute. reflexivity.
Defined.

(** A name property of four bytes, [arm-], at the end of the blob: the
    comparison of the names reads behind it. *)
Lemma h15_name_overread :
  let b := enc (ANode [] [ANode [mk_prop "name" (chars "arm-")] []]) in
  h15_blob (H15Adt b (zlen b)) /\ ane_h15_adt_find_ane (H15Adt b (zlen b)) 176 = Fault OutOfBounds.
Proof.
  cbv zeta. split; [|vm_compute; reflexivity]. split; [vm_decide|]. split; [done|vm_compute; done].
Qed.
