(* ===== verification/H16.v ===== *)
(** * The H16 bring-up module

    [src/ane/h16/ane_h16_main.c] with its SoC rows: the opt-in checks, the
    power domains and register windows, the wait for the power words, the
    status reads, the staging of the preloaded firmware, its mapping, the
    release of the CPU and the RTKit handshake, and removal. The device tree
    walk is [Adt].

    A run is its list of register accesses and result lines. The machine is a
    parameter: any function from the accesses so far to the word read, and the
    number of polls a wait gets before its deadline. Other log lines are not
    modelled; the temporary mappings of the preload are unmapped by the
    function that makes them and are not tracked. *)

From Stdlib Require Import String.
From S2P Require Import Prelude M1Map FwLoad Adt.

#[local] Open Scope Z_scope.

(** ** Constants and SoC rows *)

Definition ANE_H16_WAKE_ACK : Z := 0x08042006.
Definition ANE_H16_CPU_RUN_RELEASE : Z := 0x10.
Definition ANE_H16_RVBAR_ENTRY_BASE : Z := 0x0081000000000001.
Definition ANE_H16_RVBAR_ADDR_MASK : Z := 0xff7efffffffff800.

Definition ANE_H16_MBOX_A2I_CTRL : Z := 0x110.
Definition ANE_H16_MBOX_I2A_CTRL : Z := 0x114.
Definition ANE_H16_MBOX_A2I_SEND0 : Z := 0x800.
Definition ANE_H16_MBOX_A2I_SEND1 : Z := 0x808.
Definition ANE_H16_MBOX_I2A_RECV0 : Z := 0x830.
Definition ANE_H16_MBOX_I2A_RECV1 : Z := 0x838.
Definition ANE_H16_MBOX_CTRL_FULL : Z := Z.shiftl 1 16.
Definition ANE_H16_MBOX_CTRL_EMPTY : Z := Z.shiftl 1 17.

Definition ANE_H16_EP_MGMT : Z := 0x00.
Definition ANE_H16_EP_CRASHLOG : Z := 0x01.
Definition ANE_H16_EP_SYSLOG : Z := 0x02.
Definition ANE_H16_EP_DEBUG : Z := 0x03.
Definition ANE_H16_EP_IOREPORT : Z := 0x04.
Definition ANE_H16_EP_OSLOG : Z := 0x08.
Definition ANE_H16_EP_TRACEKIT : Z := 0x0a.
Definition ANE_H16_MGMT_HELLO : Z := 1.
Definition ANE_H16_MGMT_HELLO_REPLY : Z := 2.
Definition ANE_H16_MGMT_STARTEP : Z := 5.
Definition ANE_H16_MGMT_SET_IOP_PWR_STATE : Z := 6.
Definition ANE_H16_MGMT_SET_IOP_PWR_STATE_ACK : Z := 7.
Definition ANE_H16_MGMT_EPMAP : Z := 8.
Definition ANE_H16_MGMT_EPMAP_REPLY : Z := 8.
Definition ANE_H16_MGMT_EPMAP_LAST : Z := Z.shiftl 1 51.
Definition ANE_H16_MGMT_EPMAP_REPLY_MORE : Z := Z.shiftl 1 0.
Definition ANE_H16_MGMT_STARTEP_FLAG : Z := Z.shiftl 1 1.
Definition ANE_H16_RTKIT_MAX_VERSION : Z := 2.

(** A bit field: its lowest bit and its width ([GENMASK]). *)
Definition fld : Type := Z * Z.
Definition fld_mask (f : fld) : Z := Z.shiftl (Z.ones f.2) f.1.
Definition FIELD_GET (f : fld) (v : Z) : Z := Z.shiftr (Z.land v (fld_mask f)) f.1.
Definition FIELD_PREP (f : fld) (v : Z) : Z := Z.land (Z.shiftl v f.1) (fld_mask f).

Definition ANE_H16_PS_ACTUAL : fld := (4, 4).
Definition ANE_H16_PS_ON : Z := 0xf.
Definition ANE_H16_MGMT_TYPE : fld := (52, 8).
Definition ANE_H16_MGMT_HELLO_MINVER : fld := (0, 16).
Definition ANE_H16_MGMT_HELLO_MAXVER : fld := (16, 16).
Definition ANE_H16_MGMT_EPMAP_BASE : fld := (32, 3).
Definition ANE_H16_MGMT_EPMAP_BITMAP : fld := (0, 32).
Definition ANE_H16_MGMT_STARTEP_EP : fld := (32, 8).
Definition ANE_H16_MGMT_PWR_STATE : fld := (0, 16).

Record ane_h16_fw := H16Fw {
  fw_name : string;
  fw_sha256 : bytes;
  fw_size : Z;
  fw_text_vmsize : Z;
  fw_data_vm : Z;
  fw_data_vmsize : Z;
  fw_data_fileoff : Z;
  fw_data_filesize : Z;
  fw_patchbay_vm : Z;
  fw_tunables_vm : Z;
}.

Record ane_h16_soc := H16Soc {
  so_name : string;
  so_ane_type : Z;
  so_cpu_control : Z;
  so_cpu_status : Z;
  so_rvbar : Z;
  so_scratch0 : Z;
  so_irq_status : Z;
  so_irq_ack : Z;
  so_mbox : Z;
  so_wrapper_pa : Z;
  so_cpu_pa : Z;
  so_ps_off : list Z;
  so_fw : ane_h16_fw;
}.

Definition ane_fw_leto : ane_h16_fw :=
  H16Fw "apple/ane/h16_ane_fw_leto_j7x.macho"
    [0x4b; 0x33; 0x0c; 0x5f; 0xd3; 0x54; 0x8f; 0xb5; 0x34; 0xde; 0xd5; 0xe7; 0x03; 0x0c; 0x64; 0xb2;
     0xee; 0x3c; 0x3f; 0xeb; 0x8a; 0xd8; 0x59; 0xc2; 0x3d; 0x87; 0xdc; 0xb8; 0x29; 0x47; 0xab; 0xd2]
    0x17c000 0xc0000 0xc0000 0x2ac000 0xc4000 0xb8000 0xc5a08 0xd7c70.

Definition ane_fw_aether : ane_h16_fw :=
  H16Fw "apple/ane/t604x_ane_fw_aether_brvx.macho"
    [0x86; 0x59; 0x27; 0x1a; 0x31; 0x73; 0xca; 0x1c; 0x81; 0x68; 0x41; 0xb2; 0x12; 0xac; 0x40; 0x6a;
     0x65; 0x16; 0xf7; 0x4f; 0x51; 0xd0; 0x8f; 0x19; 0x63; 0x27; 0x56; 0x0c; 0xb1; 0xf6; 0xb9; 0x25]
    0x17c000 0xc0000 0xc0000 0x2ac000 0xc4000 0xb8000 0xc5a18 0xd7c80.

Definition ane_t8132_soc : ane_h16_soc :=
  H16Soc "t8132" 0x100 0x1600044 0x1600048 0x1050000 0x1880020 0x188c000 0x1890000 0x1608000
    0x501600000 0x501000000 [0x570; 0xc000; 0xc008; 0xc010; 0xc018] ane_fw_leto.

Definition ane_t6040_soc : ane_h16_soc :=
  H16Soc "t6040" 0x110 0x1600044 0x1600048 0x1050000 0x1880020 0x188c000 0x1890000 0x1608000
    0x485600000 0x485000000 [0x3c0; 0xc000; 0xc008; 0xc010; 0xc018] ane_fw_aether.

Definition ane_t6041_soc : ane_h16_soc :=
  H16Soc "t6041" 0x110 0x1600044 0x1600048 0x1050000 0x1880020 0x188c000 0x1890000 0x1608000
    0x485600000 0x485000000 [0x3c0; 0xc000; 0xc008; 0xc010; 0xc018] ane_fw_aether.

(** ** Register accesses *)

Inductive ev :=
  | Ps (off v : Z)                              (* a power word *)
  | Rd32 (off v : Z) | Rd64 (off v : Z)         (* the engine window *)
  | Wr32 (off v : Z) | Wr64 (off v : Z)
  | Wmb
  | Nap
  | Result (stage : Z) (verdict reason : string).

(** The power words and the engine after the accesses so far; the polls a wait
    that starts there gets before its deadline. *)
Class Machine := {
  m_pmgr : list ev -> Z -> Z;
  m_engine : list ev -> Z -> Z;
  m_polls : list ev -> nat;
}.

Section mmio.
Context `{Machine} (s : ane_h16_soc).
Implicit Types h : list ev.

Definition ane_h16_rd32 h (off : Z) : list ev * Z :=
  let v := u32 (m_engine h off) in (h ++ [Rd32 off v], v).
Definition ane_h16_rd64 h (off : Z) : list ev * Z :=
  let v := u64 (m_engine h off) in (h ++ [Rd64 off v], v).
Definition ane_h16_wr32 h (off v : Z) : list ev := h ++ [Wr32 off v].
Definition ane_h16_wr64 h (off v : Z) : list ev := h ++ [Wr64 off v].

Definition ane_h16_result h (stage : Z) (verdict reason : string) : list ev := h ++ [Result stage verdict reason].

(** *** Power words *)

Definition ps_actual_on (v : Z) : bool := FIELD_GET ANE_H16_PS_ACTUAL v =? ANE_H16_PS_ON.

Definition ane_h16_ps_on h (off : Z) : list ev * bool :=
  let v := u32 (m_pmgr h off) in (h ++ [Ps off v], ps_actual_on v).

(** The polls left, or [None] at the deadline. *)
Fixpoint ps_poll (n : nat) h (off : Z) : list ev * option nat :=
  let '(h, on) := ane_h16_ps_on h off in
  if on : bool then (h, Some n)
  else match n with O => (h, None) | S n' => ps_poll n' (h ++ [Nap]) off end.

Fixpoint ps_poll_all (n : nat) h (offs : list Z) : list ev * bool :=
  match offs with
  | [] => (h, true)
  | off :: offs' =>
      match ps_poll n h off with
      | (h, Some n) => ps_poll_all n h offs'
      | (h, None) => (h, false)
      end
  end.

Fixpoint ps_recheck h (offs : list Z) : list ev * bool :=
  match offs with
  | [] => (h, true)
  | off :: offs' =>
      let '(h, on) := ane_h16_ps_on h off in
      if on : bool then ps_recheck h offs' else (h, false)
  end.

Definition ane_h16_ps_wait h : list ev * option errno :=
  match ps_poll_all (m_polls h) h (so_ps_off s) with
  | (h, false) => (h, Some ETIMEDOUT)
  | (h, true) =>
      match ps_recheck h (so_ps_off s) with
      | (h, false) => (h, Some EIO)
      | (h, true) => (h, None)
      end
  end.

(** *** Status *)

Definition ane_h16_status (read_scratch : bool) h : list ev :=
  let h := (ane_h16_rd64 h (so_rvbar s)).1 in
  let h := (ane_h16_rd32 h (so_cpu_status s)).1 in
  let h := (ane_h16_rd32 h (so_mbox s + ANE_H16_MBOX_A2I_CTRL)).1 in
  let h := (ane_h16_rd32 h (so_mbox s + ANE_H16_MBOX_I2A_CTRL)).1 in
  if read_scratch then
    foldl (fun h i => (ane_h16_rd32 h (so_scratch0 s + 4 * i)).1) h (seqZ 0 8)
  else h.

(** *** The mailbox *)

(** [readl_poll_timeout] on the FULL bit: whether it cleared. *)
Fixpoint mbox_wait (n : nat) h : list ev * bool :=
  let '(h, ctrl) := ane_h16_rd32 h (so_mbox s + ANE_H16_MBOX_A2I_CTRL) in
  if Z.land ctrl ANE_H16_MBOX_CTRL_FULL =? 0 then (h, true)
  else
    match n with
    | O =>
        let '(h, ctrl) := ane_h16_rd32 h (so_mbox s + ANE_H16_MBOX_A2I_CTRL) in
        (h, Z.land ctrl ANE_H16_MBOX_CTRL_FULL =? 0)
    | S n' => mbox_wait n' (h ++ [Nap])
    end.

Definition ane_h16_mbox_send h (ep msg : Z) : list ev * option errno :=
  match mbox_wait (m_polls h) h with
  | (h, false) => (h, Some ETIMEDOUT)
  | (h, true) =>
      let h := ane_h16_wr64 h (so_mbox s + ANE_H16_MBOX_A2I_SEND0) msg in
      (ane_h16_wr64 h (so_mbox s + ANE_H16_MBOX_A2I_SEND1) ep, None)
  end.

Definition mgmt_word (type msg : Z) : Z :=
  Z.lor (Z.land msg (Z.lxor U64_MAX (fld_mask ANE_H16_MGMT_TYPE))) (FIELD_PREP ANE_H16_MGMT_TYPE type).

Definition ane_h16_mbox_mgmt_send h (type msg : Z) : list ev * option errno :=
  ane_h16_mbox_send h ANE_H16_EP_MGMT (mgmt_word type msg).

Definition hello_reply (v : Z) : Z :=
  Z.lor (FIELD_PREP ANE_H16_MGMT_HELLO_MINVER v) (FIELD_PREP ANE_H16_MGMT_HELLO_MAXVER v).

Definition system_ep (e : Z) : bool :=
  existsb (Z.eqb e) [ANE_H16_EP_CRASHLOG; ANE_H16_EP_SYSLOG; ANE_H16_EP_IOREPORT; ANE_H16_EP_DEBUG;
                     ANE_H16_EP_OSLOG; ANE_H16_EP_TRACEKIT].

Definition startep_word (e : Z) : Z := Z.lor (FIELD_PREP ANE_H16_MGMT_STARTEP_EP e) ANE_H16_MGMT_STARTEP_FLAG.

(** [for_each_set_bit] over the bitmap. *)
Definition start_eps h (bitmap base : Z) : list ev :=
  foldl (fun h ep =>
    if Z.testbit bitmap ep then
      let e := u8 (32 * base + ep) in
      if system_ep e then (ane_h16_mbox_mgmt_send h ANE_H16_MGMT_STARTEP (startep_word e)).1 else h
    else h) h (seqZ 0 32).

(** The new value of [hello_done] comes with the accesses. *)
Definition ane_h16_rtkit_rx_mgmt h (hello : bool) (msg : Z) : list ev * bool :=
  let type := u8 (FIELD_GET ANE_H16_MGMT_TYPE msg) in
  if type =? ANE_H16_MGMT_HELLO then
    let minv := FIELD_GET ANE_H16_MGMT_HELLO_MINVER msg in
    let maxv := FIELD_GET ANE_H16_MGMT_HELLO_MAXVER msg in
    let v := Z.min maxv ANE_H16_RTKIT_MAX_VERSION in
    (if minv >? ANE_H16_RTKIT_MAX_VERSION then h
     else (ane_h16_mbox_mgmt_send h ANE_H16_MGMT_HELLO_REPLY (hello_reply v)).1, true)
  else if type =? ANE_H16_MGMT_EPMAP then
    let bitmap := FIELD_GET ANE_H16_MGMT_EPMAP_BITMAP msg in
    let base := FIELD_GET ANE_H16_MGMT_EPMAP_BASE msg in
    let last := negb (Z.land msg ANE_H16_MGMT_EPMAP_LAST =? 0) in
    let reply := Z.lor (FIELD_PREP ANE_H16_MGMT_EPMAP_BASE base)
                   (if last then ANE_H16_MGMT_EPMAP_LAST else ANE_H16_MGMT_EPMAP_REPLY_MORE) in
    let h := (ane_h16_mbox_mgmt_send h ANE_H16_MGMT_EPMAP_REPLY reply).1 in
    (if last then start_eps h bitmap base else h, hello)
  else if type =? ANE_H16_MGMT_SET_IOP_PWR_STATE then
    ((ane_h16_mbox_mgmt_send h ANE_H16_MGMT_SET_IOP_PWR_STATE_ACK
        (FIELD_PREP ANE_H16_MGMT_PWR_STATE (FIELD_GET ANE_H16_MGMT_PWR_STATE msg))).1, hello)
  else (h, hello).

(** One round of the poll; [inr] leaves it: [true] at an empty mailbox,
    [false] at a message that is not serviced. The state carries the polls
    left. *)
Definition rtkit_round (x : list ev * nat * bool) : res (list ev * nat * bool + list ev * bool * bool) :=
  let '(h, n, hello) := x in
  let '(h, ctrl) := ane_h16_rd32 h (so_mbox s + ANE_H16_MBOX_I2A_CTRL) in
  if negb (Z.land ctrl ANE_H16_MBOX_CTRL_EMPTY =? 0) then
    if hello then Ret (inr (h, hello, true))
    else match n with
         | O => Ret (inr (h, hello, true))
         | S n' => Ret (inl (h ++ [Nap], n', hello))
         end
  else
    let '(h, msg) := ane_h16_rd64 h (so_mbox s + ANE_H16_MBOX_I2A_RECV0) in
    let '(h, w) := ane_h16_rd64 h (so_mbox s + ANE_H16_MBOX_I2A_RECV1) in
    let ep := u8 w in
    if ep =? ANE_H16_EP_MGMT then
      let '(h, hello) := ane_h16_rtkit_rx_mgmt h hello msg in Ret (inl (h, n, hello))
    else if (ep =? ANE_H16_EP_CRASHLOG) || (ep =? ANE_H16_EP_IOREPORT) then
      Ret (inl ((ane_h16_mbox_send h ep msg).1, n, hello))
    else Ret (inr (h, hello, false)).

(** [fuel] bounds the rounds. *)
Definition ane_h16_rtkit_poll (fuel : nat) h : res (list ev * bool * option errno) :=
  let '(h, ctrl) := ane_h16_rd32 h (so_mbox s + ANE_H16_MBOX_I2A_CTRL) in
  let h := ane_h16_wr32 h (so_mbox s + ANE_H16_MBOX_I2A_CTRL) (Z.lor ctrl 1) in
  '(h, hello, empty) ← loop fuel rtkit_round (h, m_polls h, false);
  Ret (h, hello, if empty : bool then (if hello : bool then None else Some ETIMEDOUT) else None).
End mmio.

(** ** Power domains and register windows *)

(** The driver's arrays ([pd_dev] and [pd_link] up to [pd_count]) and
    pointers, beside what the kernel holds for the device: the attached
    domains, the links, the mapped windows, whether runtime PM is enabled and
    its usage count. *)
Record power := Power {
  p_pds : list (Z * bool);
  p_engine : bool;
  p_pmgr : bool;
  p_attached : list Z;
  p_links : list Z;
  p_windows : Z;
  p_rpm : bool;
  p_usage : Z;
}.

Definition power0 : power := Power [] false false [] [] 0 false 0.

Definition ANE_H16_MAX_PD : Z := 5.

(** What the kernel and the device tree answer during one probe. *)
Record h16_env := H16Env {
  e_optin : option string;
  e_stage : string;
  e_confirm_read : bool;
  e_read_scratch : bool;
  e_hello_wait : bool;                   (* hello_wait_ms is not zero *)
  e_ane_type : option Z;                 (* apple,ane-type *)
  e_kzalloc : bool;
  e_pd_count : Z;                        (* of_count_phandle_with_args *)
  e_pd_attach : Z -> option errno;       (* dev_pm_domain_attach_by_id; a NULL is ENODEV *)
  e_pd_link : Z -> bool;                 (* device_link_add *)
  e_reg_names : bool;                    (* both names are there *)
  e_iomap_engine : bool;
  e_iomap_pmgr : bool;
  e_get_sync : option errno;
  e_nodes : option (list reserved_child);
  e_request : errno + bytes;             (* request_firmware *)
  e_remap : Z -> Z -> errno + bytes;     (* devm_memremap of the preload *)
  e_has_domain : bool;                   (* iommu_get_domain_for_dev *)
  e_stage_pa : Z;                        (* virt_to_phys of the staged buffer *)
  e_mail : nat;                          (* rounds of the RTKit poll *)
}.

(** The last entry first. *)
Fixpoint detach_from (pds : list (Z * bool)) (p : power) : power :=
  match pds with
  | [] => p
  | (i, link) :: pds' =>
      detach_from pds'
        (Power (p_pds p) (p_engine p) (p_pmgr p) (List.remove Z.eq_dec i (p_attached p))
           (if link : bool then List.remove Z.eq_dec i (p_links p) else p_links p) (p_windows p) (p_rpm p) (p_usage p))
  end.

Definition ane_h16_detach_pds (p : power) : power :=
  let p := detach_from (rev (p_pds p)) p in
  Power [] (p_engine p) (p_pmgr p) (p_attached p) (p_links p) (p_windows p) (p_rpm p) (p_usage p).

Definition attach_pd (e : h16_env) (i : Z) (p : power) : power * option errno :=
  match e_pd_attach e i with
  | Some err => (ane_h16_detach_pds p, Some err)
  | None =>
      let link := e_pd_link e i in
      let p := Power (p_pds p ++ [(i, link)]) (p_engine p) (p_pmgr p) (i :: p_attached p)
                 (if link then i :: p_links p else p_links p) (p_windows p) (p_rpm p) (p_usage p) in
      if link then (p, None) else (ane_h16_detach_pds p, Some EINVAL)
  end.

Fixpoint attach_from (e : h16_env) (ids : list Z) (p : power) : power * option errno :=
  match ids with
  | [] => (p, None)
  | i :: ids' =>
      match attach_pd e i p with
      | (p, None) => attach_from e ids' p
      | r => r
      end
  end.

Definition ane_h16_attach_pds (e : h16_env) (p : power) : power * option errno :=
  if e_pd_count e <=? 1 then (p, None)
  else if e_pd_count e >? ANE_H16_MAX_PD then (p, Some EINVAL)
  else attach_from e (seqZ 0 (e_pd_count e)) p.

Definition b2z (b : bool) : Z := if b then 1 else 0.

Definition ane_h16_unmap (p : power) : power :=
  Power (p_pds p) false false (p_attached p) (p_links p)
    (p_windows p - b2z (p_engine p) - b2z (p_pmgr p)) (p_rpm p) (p_usage p).

Definition ane_h16_map (e : h16_env) (p : power) : power * option errno :=
  if negb (e_reg_names e) then (p, Some EINVAL)
  else
    let p := Power (p_pds p) (e_iomap_engine e) (e_iomap_pmgr e) (p_attached p) (p_links p)
               (p_windows p + b2z (e_iomap_engine e) + b2z (e_iomap_pmgr e)) (p_rpm p) (p_usage p) in
    if negb (e_iomap_engine e) || negb (e_iomap_pmgr e) then (ane_h16_unmap p, Some ENXIO) else (p, None).

Definition set_rpm (on : bool) (p : power) : power :=
  Power (p_pds p) (p_engine p) (p_pmgr p) (p_attached p) (p_links p) (p_windows p) on (p_usage p).
Definition add_usage (n : Z) (p : power) : power :=
  Power (p_pds p) (p_engine p) (p_pmgr p) (p_attached p) (p_links p) (p_windows p) (p_rpm p) (p_usage p + n).

Definition ane_h16_stage_idx (name : string) : option Z :=
  if (name =? "dt")%string || (name =? "0")%string then Some 0
  else if (name =? "status")%string || (name =? "1")%string then Some 1
  else if (name =? "boot")%string || (name =? "3")%string then Some 3
  else None.

(** ** The firmware image *)

(** [iommu_map] and [iommu_unmap] of a number of bytes: the core refuses an
    address or a size that is not a whole number of pages. *)
Class IommuCore `{Iommu} := {
  map_bytes : domain -> Z -> Z -> Z -> domain * option errno;
  unmap_bytes : domain -> Z -> Z -> domain * Z;
}.

Definition whole_pages (l : list Z) : Prop := Forall (fun n => n mod P = 0) l.

#[global] Instance whole_pages_dec l : Decision (whole_pages l).
Proof. unfold whole_pages. apply _. Defined.

Class IommuCoreLaws `{IommuCore} := {
  map_bytes_page d i p : whole_pages [i; p] -> map_bytes d i p P = iommu_map d i p;
  map_bytes_refused d i p n : ~ whole_pages [i; p; n] -> map_bytes d i p n = (d, Some EINVAL);
  unmap_bytes_pages d i n : whole_pages [i; n] -> unmap_bytes d i n = iommu_unmap d i n;
  unmap_bytes_refused d i n : ~ whole_pages [i; n] -> unmap_bytes d i n = (d, 0);
}.

Section image.
Context `{HI : Iommu} {HC : DmaCoherent} {HM : IommuCore}.
(** The kernel's [sha256]. *)
Context (sha256 : bytes -> bytes).

(** The staged image: [i_cpu] is [stage_cpu], [i_fw] whether the file's image
    is held. *)
Record stage_state := Image {
  i_dom : domain;
  i_has_dom : bool;
  i_cpu : option bytes;
  i_dma : Z;
  i_size : Z;
  i_fw : bool;
}.

Definition set_idom (d : domain) (x : stage_state) : stage_state :=
  Image d (i_has_dom x) (i_cpu x) (i_dma x) (i_size x) (i_fw x).

Definition ane_h16_fw_pin (e : h16_env) (img : ane_h16_fw) : errno + bytes :=
  match e_request e with
  | inl err => inl err
  | inr fw =>
      if negb (zlen fw =? fw_size img) then inl EINVAL
      else if bool_decide (sha256 fw = fw_sha256 img) then inr fw else inl EINVAL
  end.

Definition ane_h16_preload_patched_u64 (iova0 iova1 file live : Z) : bool :=
  if (live =? iova0) || (live =? iova1) then true
  else if Z.land live ANE_H16_RVBAR_ADDR_MASK =? Z.land iova0 ANE_H16_RVBAR_ADDR_MASK then true
  else negb (live =? 0) && (file =? 0).

Definition SZ_16K : Z := 0x4000.

(** [ALIGN(data_vm + data_vmsize, SZ_16K)], on 32 bits. *)
Definition stage_bytes (img : ane_h16_fw) : Z :=
  Z.land (u32 (u32 (fw_data_vm img + fw_data_vmsize img) + (SZ_16K - 1))) (u32 (- SZ_16K)).

Definition in_allowed (img : ane_h16_fw) (vm : Z) : bool :=
  existsb (fun w => (w.1 <=? vm) && (vm <? w.1 + w.2)) [(fw_patchbay_vm img, 0x261); (fw_tunables_vm img, 0x6a0)].

(** One word of segment [vm]: the file holds [expect] bytes of it at [foff]. *)
Definition stage_word (img : ane_h16_fw) (iova0 iova1 : Z) (fw pre : bytes) (vm foff expect size stage_size : Z)
    (x : Z * bytes) : res (Z * bytes + (bytes * option errno)) :=
  let '(i, buf) := x in
  if i <? size then
    a ← (if u32 (i + 8) <=? expect then le64 fw (foff + i) else Ret 0);
    b ← le64 pre i;
    if a =? b then Ret (inl (u32 (i + 8), buf))
    else if negb (in_allowed img (vm + i)) && negb (ane_h16_preload_patched_u64 iova0 iova1 a b) then
      Ret (inr (buf, Some EINVAL))
    else if vm + i + 8 >? stage_size then Ret (inr (buf, Some EINVAL))
    else buf ← put_le64 buf (vm + i) b; Ret (inl (u32 (i + 8), buf))
  else Ret (inr (buf, None)).

Definition stage_seg (img : ane_h16_fw) (iova0 iova1 : Z) (fw pre : bytes) (vm foff expect size stage_size : Z)
    (buf : bytes) : res (bytes * option errno) :=
  loop (Z.to_nat (size / 8) + 2) (stage_word img iova0 iova1 fw pre vm foff expect size stage_size) (0, buf).

Definition ane_h16_stage (e : h16_env) (img : ane_h16_fw) (segs : ane_h16_seg * ane_h16_seg) (fw : bytes) (x : stage_state) :
    res (stage_state * option errno) :=
  let stage_size := stage_bytes img in
  match dma_alloc (i_dom x) stage_size with
  | None => Ret (Image (i_dom x) (i_has_dom x) None (i_dma x) stage_size (i_fw x), Some ENOMEM)
  | Some (dma, d) =>
      let done buf r : stage_state * option errno := (Image d (i_has_dom x) (Some buf) dma stage_size (i_fw x), r) in
      buf ← memcpy (replicate (Z.to_nat stage_size) 0) 0 fw 0x4000 (fw_text_vmsize img);
      buf ← memcpy buf (fw_data_vm img) fw (fw_data_fileoff img) (fw_data_filesize img);
      match e_remap e (hs_phys segs.1) (hs_size segs.1) with
      | inl err => Ret (done buf (Some err))
      | inr pre0 =>
          match e_remap e (hs_phys segs.2) (hs_size segs.2) with
          | inl err => Ret (done buf (Some err))
          | inr pre1 =>
              '(buf, r) ← stage_seg img (hs_iova segs.1) (hs_iova segs.2) fw pre0 0 0x4000 (fw_text_vmsize img)
                            (hs_size segs.1) stage_size buf;
              match r with
              | Some err => Ret (done buf (Some err))
              | None =>
                  '(buf, r) ← stage_seg img (hs_iova segs.1) (hs_iova segs.2) fw pre1 (fw_data_vm img)
                                (fw_data_fileoff img) (fw_data_filesize img) (hs_size segs.2) stage_size buf;
                  Ret (done buf r)
              end
          end
      end
  end.

(** ** Mapping it where the device tree says *)

(** [iommu_iova_to_phys] of any address; zero without a translation. *)
Definition phys_of (d : domain) (iova : Z) : Z :=
  match iova_to_phys d (iova - iova mod P) with Some p => p + iova mod P | None => 0 end.

Definition map_step (pa vm iova size stage_size : Z) (x : Z * domain) : res (Z * domain + (domain * errno)) :=
  let '(off, d) := x in
  let len := Z.min SZ_16K (size - off) in
  if vm + off + len >? stage_size then Ret (inr (d, EINVAL))
  else if negb (phys_of d (u64 (iova + off)) =? 0) then Ret (inr (d, EBUSY))
  else
    match map_bytes d (u64 (iova + off)) (pa + vm + off) len with
    | (d, Some err) => Ret (inr (d, err))
    | (d, None) => Ret (inl (off + SZ_16K, d))
    end.

Definition map_seg (pa vm iova size stage_size : Z) (d : domain) : res (domain * option errno) :=
  r ← times ((size + (SZ_16K - 1)) / SZ_16K) (map_step pa vm iova size stage_size) (0, d);
  Ret (match r with inl (_, d) => (d, None) | inr (d, err) => (d, Some err) end).

Definition ane_h16_map_stage (e : h16_env) (img : ane_h16_fw) (segs : ane_h16_seg * ane_h16_seg) (x : stage_state) :
    res (stage_state * option errno) :=
  if negb (e_has_domain e) then Ret (Image (i_dom x) false (i_cpu x) (i_dma x) (i_size x) (i_fw x), Some ENODEV)
  else
    let x := Image (i_dom x) true (i_cpu x) (i_dma x) (i_size x) (i_fw x) in
    if negb (e_stage_pa e mod SZ_16K =? 0) then Ret (x, Some EINVAL)
    else
      '(d, r) ← map_seg (e_stage_pa e) 0 (hs_iova segs.1) (hs_size segs.1) (i_size x) (i_dom x);
      match r with
      | Some err => Ret (set_idom d x, Some err)
      | None =>
          '(d, r) ← map_seg (e_stage_pa e) (fw_data_vm img) (hs_iova segs.2) (hs_size segs.2) (i_size x) d;
          Ret (set_idom d x, r)
      end.

Definition ane_h16_unmap_stage (segs : ane_h16_seg * ane_h16_seg) (x : stage_state) : stage_state :=
  if i_has_dom x then
    let d := (unmap_bytes (i_dom x) (hs_iova segs.1) (hs_size segs.1)).1 in
    set_idom (unmap_bytes d (hs_iova segs.2) (hs_size segs.2)).1 x
  else x.

(** [free_stage]. *)
Definition free_stage (x : stage_state) : stage_state :=
  match i_cpu x with
  | Some _ => Image (dma_free (i_dom x) (i_dma x) (i_size x)) (i_has_dom x) None (i_dma x) (i_size x) (i_fw x)
  | None => x
  end.

(** ** Boot *)

Context {HW : Machine}.

Record h16 := H16 {
  x_log : list ev;
  x_pm : power;
  x_img : stage_state;
  x_touched : bool;
  x_started : bool;
  x_hello : bool;
}.

Definition set_log (h : list ev) (x : h16) : h16 := H16 h (x_pm x) (x_img x) (x_touched x) (x_started x) (x_hello x).
Definition set_pm (p : power) (x : h16) : h16 := H16 (x_log x) p (x_img x) (x_touched x) (x_started x) (x_hello x).
Definition set_img (i : stage_state) (x : h16) : h16 := H16 (x_log x) (x_pm x) i (x_touched x) (x_started x) (x_hello x).
Definition add_result (stage : Z) (verdict reason : string) (x : h16) : h16 :=
  set_log (ane_h16_result (x_log x) stage verdict reason) x.
Definition hold_fw (b : bool) (x : h16) : h16 :=
  let i := x_img x in set_img (Image (i_dom i) (i_has_dom i) (i_cpu i) (i_dma i) (i_size i) b) x.

(** The poll for the wake word: whether it came. *)
Fixpoint wake_poll (n : nat) (off : Z) (h : list ev) : list ev * bool :=
  let '(h, ack) := ane_h16_rd32 h off in
  if ack =? ANE_H16_WAKE_ACK then (h, true)
  else match n with O => (h, false) | S n' => wake_poll n' off (h ++ [Nap]) end.

Definition rvbar_value (iova : Z) : Z :=
  Z.lor ANE_H16_RVBAR_ENTRY_BASE (Z.land iova ANE_H16_RVBAR_ADDR_MASK).

(** From [fw_touched = true] on. *)
Definition boot_release (e : h16_env) (s : ane_h16_soc) (x : h16) : res (h16 * option errno) :=
  let x := H16 (x_log x) (x_pm x) (x_img x) true (x_started x) (x_hello x) in
  let s7 := so_scratch0 s + 7 * 4 in
  let h := ane_h16_wr32 (x_log x) s7 0 in
  let h := ane_h16_wr32 h (so_cpu_control s) 0 in
  let h := h ++ [Wmb] in
  let h := ane_h16_wr32 h (so_cpu_control s) ANE_H16_CPU_RUN_RELEASE in
  match wake_poll (m_polls h) s7 h with
  | (h, false) => Ret (hold_fw false (add_result 3 "FAIL" "boot-timeout" (set_log h x)), Some ETIMEDOUT)
  | (h, true) =>
      let h := (ane_h16_rd32 h (so_cpu_status s)).1 in
      '(h, hello) ← (if e_hello_wait e then '(h, hello, _) ← ane_h16_rtkit_poll s (e_mail e) h; Ret (h, hello)
                     else Ret (h, false));
      let x := H16 h (x_pm x) (x_img x) true true hello in
      Ret (hold_fw false (add_result 3 "PASS"
             (if hello : bool then "boot-hello" else if e_hello_wait e then "boot-nortkit" else "boot-wake")%string x), None)
  end.

(** The exits of [ane_h16_boot] behind the pinned image. *)
Definition boot_unmap (segs : ane_h16_seg * ane_h16_seg) (err : errno) (x : h16) : h16 * option errno :=
  (hold_fw false (set_img (free_stage (ane_h16_unmap_stage segs (x_img x))) x), Some err).

Definition ane_h16_boot (e : h16_env) (s : ane_h16_soc) (x : h16) : res (h16 * option errno) :=
  r ← ane_h16_segments (e_nodes e) (so_ane_type s) (fw_text_vmsize (so_fw s)) (fw_data_filesize (so_fw s));
  match r with
  | inl err => Ret (add_result 3 "REFUSED" "segment-ranges" x, Some err)
  | inr segs =>
      match ane_h16_fw_pin e (so_fw s) with
      | inl err => Ret (add_result 3 "REFUSED" "fw-pin" x, Some err)
      | inr fw =>
          let x := hold_fw true x in
          '(i, r) ← ane_h16_stage e (so_fw s) segs fw (x_img x);
          let x := set_img i x in
          match r with
          | Some err =>
              let x := add_result 3 "REFUSED" "preload-diff" x in
              Ret (hold_fw false (set_img (free_stage (x_img x)) x), Some err)
          | None =>
              '(i, r) ← ane_h16_map_stage e (so_fw s) segs (x_img x);
              let x := set_img i x in
              match r with
              | Some err => Ret (boot_unmap segs err (add_result 3 "REFUSED" "dart-map" x))
              | None =>
                  let '(h, rvbar) := ane_h16_rd64 (x_log x) (so_rvbar s) in
                  let x := set_log h x in
                  if negb (Z.land rvbar 1 =? 0) then
                    if negb (Z.land rvbar ANE_H16_RVBAR_ADDR_MASK =?
                             Z.land (hs_iova segs.1) ANE_H16_RVBAR_ADDR_MASK) then
                      Ret (boot_unmap segs EBUSY (add_result 3 "REFUSED" "rvbar-latched" x))
                    else boot_release e s x
                  else
                    boot_release e s (set_log (ane_h16_wr64 (x_log x) (so_rvbar s) (rvbar_value (hs_iova segs.1))) x)
              end
          end
      end
  end.

(** ** Probe and remove *)

(** The lookups of stage 0 are only logged. *)
Definition ane_h16_stage_dt (e : h16_env) (s : ane_h16_soc) (x : h16) : res h16 :=
  _ ← match ane_h16_adt_open (e_nodes e) with
      | inl _ => Ret tt
      | inr adt =>
          r ← adt_find_ane adt (so_ane_type s);
          match r with
          | inl _ => Ret tt
          | inr n =>
              r ← adt_prop adt n "segment-ranges";
              match r with
              | inl _ => Ret tt
              | inr (data, size) => _ ← ane_h16_seg_decode adt data size; Ret tt
              end
          end
      end;
  Ret (add_result 0 "PASS" "dt-parse-only" x).

(** [rpm_off]. *)
Definition rpm_off (r : option errno) (x : h16) : h16 * option errno :=
  let x := set_pm (add_usage (-1) (x_pm x)) x in
  match r with
  | Some _ => if x_touched x then (x, r) else (set_pm (ane_h16_detach_pds (ane_h16_unmap (set_rpm false (x_pm x)))) x, r)
  | None => (x, r)
  end.

(** The part behind the power-up. *)
Definition probe_powered (e : h16_env) (s : ane_h16_soc) (stage_idx : Z) (x : h16) : res (h16 * option errno) :=
  match ane_h16_ps_wait s (x_log x) with
  | (h, Some err) => Ret (rpm_off (Some err) (add_result 1 "FAIL" "pmgr-actual-stuck" (set_log h x)))
  | (h, None) =>
      let x := set_log (ane_h16_status s (e_read_scratch e) h) x in
      if stage_idx =? 1 then Ret (rpm_off None (add_result 1 "PASS" "ps-guard+reads" x))
      else '(x, r) ← ane_h16_boot e s x; Ret (rpm_off r x)
  end.

Definition ane_h16_probe (e : h16_env) (s : ane_h16_soc) (x : h16) : res (h16 * option errno) :=
  if negb (bool_decide (e_optin e = Some (so_name s))) then Ret (x, Some EPERM)
  else if negb (bool_decide (e_ane_type e = Some (so_ane_type s))) then Ret (x, Some EINVAL)
  else
    match ane_h16_stage_idx (e_stage e) with
    | None => Ret (x, Some EINVAL)
    | Some stage_idx =>
        if negb (e_kzalloc e) then Ret (x, Some ENOMEM)
        else if stage_idx =? 0 then x ← ane_h16_stage_dt e s x; Ret (x, None)
        else if negb (e_confirm_read e) then
          Ret (add_result stage_idx "REFUSED" "confirm_read-required" x, Some EPERM)
        else
          match ane_h16_attach_pds e (x_pm x) with
          | (p, Some err) => Ret (set_pm p x, Some err)
          | (p, None) =>
              match ane_h16_map e p with
              | (p, Some err) => Ret (set_pm (ane_h16_detach_pds p) x, Some err)
              | (p, None) =>
                  let p := add_usage 1 (set_rpm true p) in
                  match e_get_sync e with
                  | Some err =>
                      if (0 <? zlen (p_pds p)) && bool_decide (err = EACCES) then
                        probe_powered e s stage_idx (set_pm p x)
                      else
                        Ret (set_pm (ane_h16_detach_pds (ane_h16_unmap (set_rpm false (add_usage (-1) p)))) x, Some err)
                  | None => probe_powered e s stage_idx (set_pm p x)
                  end
              end
          end
    end.

Definition ane_h16_remove (x : h16) : h16 :=
  if x_touched x then set_pm (add_usage 1 (x_pm x)) x
  else set_pm (ane_h16_detach_pds (ane_h16_unmap (set_rpm false (x_pm x)))) x.
End image.

(** ** Accesses a step makes *)

Definition is_ps (e : ev) : bool := match e with Ps _ _ => true | _ => false end.
Definition is_engine (e : ev) : bool :=
  match e with Rd32 _ _ | Rd64 _ _ | Wr32 _ _ | Wr64 _ _ => true | _ => false end.
Definition is_write (e : ev) : bool := match e with Wr32 _ _ | Wr64 _ _ => true | _ => false end.
Definition is_result (e : ev) : bool := match e with Result _ _ _ => true | _ => false end.

(** [h'] is [h] and accesses with [Q]. *)
Definition ext (Q : ev -> bool) (h h' : list ev) : Prop := exists d, h' = h ++ d /\ Forall (fun e => Q e = true) d.

(** Reads of the engine and delays; these and writes. *)
Definition quiet (e : ev) : bool := negb (is_ps e) && negb (is_write e) && negb (is_result e).
Definition engine_io (e : ev) : bool := negb (is_ps e) && negb (is_result e).

Lemma ext_refl Q h : ext Q h h.
Proof. exists []. by rewrite app_nil_r. Qed.

Lemma ext_trans Q h1 h2 h3 : ext Q h1 h2 -> ext Q h2 h3 -> ext Q h1 h3.
Proof. intros (d1 & -> & H1) (d2 & -> & H2). exists (d1 ++ d2). rewrite app_assoc. split; [done|by apply Forall_app]. Qed.

Lemma ext_snoc Q h h' e : ext Q h h' -> Q e = true -> ext Q h (h' ++ [e]).
Proof. intros H HQ. eapply ext_trans; [done|]. exists [e]. split; [done|by constructor]. Qed.

Lemma ext_mono (Q Q' : ev -> bool) h h' : (forall e, Q e = true -> Q' e = true) -> ext Q h h' -> ext Q' h h'.
Proof. intros HQ (d & -> & Hd). exists d. split; [done|]. eapply Forall_impl; [done|]. auto. Qed.

Lemma quiet_io e : quiet e = true -> engine_io e = true.
Proof. unfold quiet, engine_io. destruct e; done. Qed.

Create HintDb ext.
#[export] Hint Resolve ext_refl ext_snoc quiet_io : ext.

Section accesses.
Context `{HW : Machine} (s : ane_h16_soc).
Implicit Types h : list ev.

Lemma foldl_ext {A} Q (f : list ev -> A -> list ev) (l : list A) h :
  (forall h x, ext Q h (f h x)) -> ext Q h (foldl f h l).
Proof using Type.
  intros Hf. revert h. induction l as [|x l IH]; intros h; cbn [foldl]; [apply ext_refl|].
  eapply ext_trans; [apply Hf|apply IH].
Qed.

Lemma status_quiet b h : ext quiet h (ane_h16_status s b h).
Proof using Type.
  unfold ane_h16_status, ane_h16_rd32, ane_h16_rd64. cbn [fst].
  assert (forall h4, ext quiet h h4 -> ext quiet h (if b then foldl (fun h i => h ++ [Rd32 (so_scratch0 s + 4 * i)
    (u32 (m_engine h (so_scratch0 s + 4 * i)))]) h4 (seqZ 0 8) else h4)) as Hs.
  { intros h4 H4. destruct b; [|done]. eapply ext_trans; [done|]. apply foldl_ext. intros h' i. auto with ext. }
  apply Hs. auto 6 with ext.
Qed.

Lemma mbox_wait_quiet n h : ext quiet h (mbox_wait s n h).1.
Proof using Type.
  revert h. induction n as [|n IH]; intros h; cbn [mbox_wait]; unfold ane_h16_rd32; destruct (_ =? 0); cbn [fst];
    auto with ext.
  eapply ext_trans; [|apply IH]. auto with ext.
Qed.

Lemma mbox_send_io h ep msg : ext engine_io h (ane_h16_mbox_send s h ep msg).1.
Proof using Type.
  unfold ane_h16_mbox_send. pose proof (mbox_wait_quiet (m_polls h) h) as Hw.
  destruct (mbox_wait s (m_polls h) h) as [h' [|]]; cbn [fst] in *; apply (ext_mono _ _ _ _ quiet_io) in Hw;
    unfold ane_h16_wr64; auto with ext.
Qed.

Lemma rx_mgmt_io h hello msg : ext engine_io h (ane_h16_rtkit_rx_mgmt s h hello msg).1.
Proof using Type.
  unfold ane_h16_rtkit_rx_mgmt, ane_h16_mbox_mgmt_send. destruct (_ =? _); cbn [fst].
  { destruct (_ >? _); [apply ext_refl|apply mbox_send_io]. }
  destruct (_ =? _); cbn [fst].
  { destruct (negb _); [|apply mbox_send_io]. eapply ext_trans; [apply mbox_send_io|].
    unfold start_eps. apply foldl_ext. intros h' ep. destruct (Z.testbit _ _); [|apply ext_refl].
    destruct (system_ep _); [apply mbox_send_io|apply ext_refl]. }
  destruct (_ =? _); [apply mbox_send_io|apply ext_refl].
Qed.

Lemma rtkit_round_io x :
  twp (rtkit_round s x) (fun r => ext engine_io x.1.1 (match r with inl y => y.1.1 | inr y => y.1.1 end)).
Proof using Type.
  destruct x as [[h n] hello]. unfold rtkit_round, ane_h16_rd32, ane_h16_rd64. destruct (negb _); cbn [fst].
  { destruct hello; [cbn; auto with ext|]. destruct n; cbn; auto with ext. }
  set (h1 := h ++ _). set (h2 := h1 ++ _). set (h3 := h2 ++ _).
  assert (ext engine_io h h3) as H3 by (subst h3 h2 h1; auto with ext).
  destruct (_ =? _); [|destruct (_ || _)].
  - pose proof (rx_mgmt_io h3 hello (u64 (m_engine h1 (so_mbox s + ANE_H16_MBOX_I2A_RECV0)))) as Hr.
    destruct (ane_h16_rtkit_rx_mgmt _ _ _ _) as [h4 b]. cbn [twp fst] in *. by eapply ext_trans.
  - cbn [twp fst]. eapply ext_trans; [done|apply mbox_send_io].
  - done.
Qed.

Lemma wake_poll_quiet n off h : ext quiet h (wake_poll n off h).1.
Proof using Type.
  revert h. induction n as [|n IH]; intros h; cbn [wake_poll]; unfold ane_h16_rd32; destruct (_ =? _); cbn [fst];
    auto with ext.
  eapply ext_trans; [|apply IH]. auto with ext.
Qed.

(** The power words. *)
Definition ps_io (e : ev) : bool := negb (is_engine e) && negb (is_result e).

Lemma ps_poll_io n h off : ext ps_io h (ps_poll n h off).1.
Proof using Type.
  revert h. induction n as [|n IH]; intros h; cbn [ps_poll]; unfold ane_h16_ps_on; destruct (ps_actual_on _); cbn [fst];
    auto with ext.
  eapply ext_trans; [|apply IH]. auto with ext.
Qed.

Lemma ps_poll_all_io n h offs : ext ps_io h (ps_poll_all n h offs).1.
Proof using Type.
  revert n h. induction offs as [|off offs IH]; intros n h; cbn [ps_poll_all]; [apply ext_refl|].
  pose proof (ps_poll_io n h off) as Hp. destruct (ps_poll n h off) as [h' [n'|]]; [|done].
  eapply ext_trans; [done|apply IH].
Qed.

(** The last power words read, in order, are those at [offs], and all are on. *)
Definition gate (offs : list Z) h : Prop :=
  exists pre vs, List.filter is_ps h = pre ++ zip_with Ps offs vs /\ length vs = length offs /\
                 Forall (fun v => ps_actual_on v = true) vs.

Lemma ps_recheck_spec offs h :
  ext ps_io h (ps_recheck h offs).1 /\
  ((ps_recheck h offs).2 = true ->
   exists vs, (ps_recheck h offs).1 = h ++ zip_with Ps offs vs /\ length vs = length offs /\
              Forall (fun v => ps_actual_on v = true) vs).
Proof using Type.
  revert h. induction offs as [|off offs IH]; intros h; cbn [ps_recheck].
  { split; [apply ext_refl|]. intros _. exists []. by rewrite app_nil_r. }
  unfold ane_h16_ps_on. destruct (ps_actual_on _) eqn:E; cbn [fst snd]; [|split; [auto with ext|done]].
  destruct (IH (h ++ [Ps off (u32 (m_pmgr h off))])) as [H1 H2]. split.
  { eapply ext_trans; [|exact H1]. auto with ext. }
  intros Hr. destruct (H2 Hr) as (vs & -> & Hl & Hv). exists (u32 (m_pmgr h off) :: vs). cbn [zip_with length].
  rewrite -app_assoc. split; [done|]. split; [lia|]. by constructor.
Qed.

Lemma filter_zip_ps offs vs : List.filter is_ps (zip_with Ps offs vs) = zip_with Ps offs vs.
Proof using Type.
  revert vs. induction offs as [|o offs IH]; intros [|v vs]; cbn; [done..|]. by rewrite IH.
Qed.

Lemma ps_wait_spec h :
  ext ps_io h (ane_h16_ps_wait s h).1 /\
  match (ane_h16_ps_wait s h).2 with
  | None => gate (so_ps_off s) (ane_h16_ps_wait s h).1
  | Some e => e = ETIMEDOUT \/ e = EIO
  end.
Proof using Type.
  unfold ane_h16_ps_wait. pose proof (ps_poll_all_io (m_polls h) h (so_ps_off s)) as Hp.
  destruct (ps_poll_all (m_polls h) h (so_ps_off s)) as [h1 [|]]; cbn [fst snd] in *; [|split; [done|by left]].
  destruct (ps_recheck_spec (so_ps_off s) h1) as [Hr Hg].
  destruct (ps_recheck h1 (so_ps_off s)) as [h2 [|]]; cbn [fst snd] in *.
  - split; [by eapply ext_trans|]. destruct Hg as (vs & -> & Hl & Hv); [done|].
    exists (List.filter is_ps h1), vs. by rewrite List.filter_app filter_zip_ps.
  - split; [by eapply ext_trans|by right].
Qed.

Lemma gate_app offs h d : gate offs h -> Forall (fun e => is_ps e = false) d -> gate offs (h ++ d).
Proof using Type.
  intros (pre & vs & Hf & Hl) Hd. exists pre, vs. rewrite List.filter_app Hf.
  assert (List.filter is_ps d = []) as ->; [|by rewrite app_nil_r].
  induction Hd as [|e d He _ IH]; cbn; [done|]. by rewrite He.
Qed.
End accesses.

(** Every engine access happens behind the gate. *)
Definition gated (offs : list Z) (h : list ev) : Prop :=
  forall pre e post, h = pre ++ e :: post -> is_engine e = true -> gate offs pre.

Lemma gated_off offs h : Forall (fun e => is_engine e = false) h -> gated offs h.
Proof.
  intros Hh pre e post -> He. apply Forall_app in Hh as [_ [Hh _]%Forall_cons]. by rewrite He in Hh.
Qed.

Lemma gated_app offs h d :
  gated offs h -> gate offs h -> Forall (fun e => is_ps e = false) d -> gated offs (h ++ d).
Proof.
  intros Hh Hg Hd pre e post E He. apply app_eq_inv in E as [(k & -> & E)|(k & -> & ->)].
  - destruct k as [|e' k]; cbn in E.
    + rewrite app_nil_r in Hg. done.
    + injection E as <- _. by apply (Hh pre e k).
  - apply Forall_app in Hd as [Hd _]. by apply gate_app.
Qed.

Lemma ext_gated Q offs h h' :
  (forall e, Q e = true -> is_ps e = false) -> gated offs h -> gate offs h -> ext Q h h' -> gated offs h' /\ gate offs h'.
Proof.
  intros HQ Hh Hg (d & -> & Hd). assert (Forall (fun e => is_ps e = false) d) as Hd' by (eapply Forall_impl; [done|auto]).
  split; [by apply gated_app|by apply gate_app].
Qed.

Section logs.
Context `{HI : Iommu} {HC : DmaCoherent} {HM : IommuCore} {HW : Machine} (sha256 : bytes -> bytes).

(** No power word is read. *)
Definition behind (e : ev) : bool := negb (is_ps e).

Lemma io_behind e : engine_io e = true -> behind e = true.
Proof using Type. unfold engine_io, behind. by destruct e. Qed.

Lemma quiet_behind e : quiet e = true -> behind e = true.
Proof using Type. intros H. by apply io_behind, quiet_io. Qed.

Lemma rtkit_poll_io s fuel h h' b r : ane_h16_rtkit_poll s fuel h = Ret (h', b, r) -> ext engine_io h h'.
Proof using Type.
  unfold ane_h16_rtkit_poll, ane_h16_rd32, ane_h16_wr32. set (h1 := (h ++ _) ++ _).
  assert (ext engine_io h h1) as H1 by (subst h1; auto with ext). intros H. apply bind_Ret_inv in H as ([[h2 b2] em] & Hl & H).
  injection H as <- _ _. eapply ext_trans; [exact H1|].
  refine (loop_inv (rtkit_round s) (fun x => ext engine_io h1 x.1.1) (fun y => ext engine_io h1 y.1.1) fuel
    (h1, m_polls h1, false) (h2, b2, em) _ (ext_refl _ _) Hl).
  intros x Hx. pose proof (rtkit_round_io s x) as Hr. destruct (rtkit_round s x) as [[y|y]| |]; try done;
    by eapply ext_trans.
Qed.

(** The writes that release the CPU. *)
Definition release_writes (s : ane_h16_soc) : list ev :=
  [Wr32 (so_scratch0 s + 7 * 4) 0; Wr32 (so_cpu_control s) 0; Wmb; Wr32 (so_cpu_control s) ANE_H16_CPU_RUN_RELEASE].

Lemma boot_release_log e s x x' r :
  boot_release e s x = Ret (x', r) ->
  exists d verdict reason, x_log x' = x_log x ++ release_writes s ++ d ++ [Result 3 verdict reason] /\
    Forall (fun e => engine_io e = true) d /\ (e_hello_wait e = false -> Forall (fun e => quiet e = true) d) /\
    x_touched x' = true /\ x_pm x' = x_pm x /\
    i_dom (x_img x') = i_dom (x_img x) /\ i_cpu (x_img x') = i_cpu (x_img x) /\ i_fw (x_img x') = false /\
    (r = None /\ x_started x' = true \/ r = Some ETIMEDOUT /\ x_started x' = x_started x).
Proof using Type.
  unfold boot_release, ane_h16_wr32. set (h0 := (((_ ++ _) ++ _) ++ _) ++ _).
  assert (h0 = x_log x ++ release_writes s) as Hh0 by (subst h0; unfold release_writes; cbn [x_log]; by rewrite -!app_assoc). clearbody h0.
  pose proof (wake_poll_quiet (m_polls h0) (so_scratch0 s + 7 * 4) h0) as Hq.
  destruct (wake_poll (m_polls h0) (so_scratch0 s + 7 * 4) h0) as [h1 [|]]; cbn [fst] in Hq; destruct Hq as (d1 & -> & Hd1); intros H.
  - unfold ane_h16_rd32 in H. cbn [fst] in H. set (e1 := Rd32 (so_cpu_status s) _) in H.
    apply bind_Ret_inv in H as ([h2 hello] & Hk & H). injection H as <- <-.
    assert (exists d2, h2 = (h0 ++ d1) ++ d2 /\ Forall (fun e => engine_io e = true) d2 /\
      (e_hello_wait e = false -> Forall (fun e => quiet e = true) d2)) as (d2 & -> & Hd2 & Hd2').
    { destruct (e_hello_wait e).
      - apply bind_Ret_inv in Hk as ([[h3 b3] r3] & Hk & E). injection E as <- _. apply rtkit_poll_io in Hk as (d & -> & Hd).
        exists (e1 :: d). rewrite -app_assoc. split; [done|]. split; [by constructor|done].
      - injection Hk as <- _. exists [e1]. split; [done|]. split; [by repeat constructor|]. intros _. by repeat constructor. }
    exists (d1 ++ d2), "PASS"%string. eexists. split; [cbn; rewrite Hh0 -!app_assoc; done|].
    assert (Forall (fun e => engine_io e = true) d1) by (eapply Forall_impl; [exact Hd1|apply quiet_io]).
    split; [by apply Forall_app|]. split; [intros Hn; apply Forall_app; auto|]. do 5 (split; [done|]). by left.
  - injection H as <- <-. exists d1, "FAIL"%string, "boot-timeout"%string. split; [cbn; rewrite Hh0 -!app_assoc; done|].
    split; [eapply Forall_impl; [exact Hd1|apply quiet_io]|]. split; [done|]. do 5 (split; [done|]). by right.
Qed.
End logs.

(** ** Staging *)

(** What a row of the table promises. *)
Definition row_ok (img : ane_h16_fw) : Prop :=
  0 <= fw_text_vmsize img /\ 0x4000 + fw_text_vmsize img <= fw_size img /\ fw_text_vmsize img <= fw_data_vm img /\
  0 <= fw_data_fileoff img /\ 0 <= fw_data_filesize img /\ fw_data_fileoff img + fw_data_filesize img <= fw_size img /\
  fw_data_filesize img <= fw_data_vmsize img /\ fw_data_vm img + fw_data_vmsize img + SZ_16K <= 2 ^ 32 /\
  fw_text_vmsize img mod 8 = 0 /\ fw_data_filesize img mod 8 = 0 /\ fw_data_vm img mod P = 0.

#[global] Instance row_ok_dec img : Decision (row_ok img).
Proof. unfold row_ok. apply _. Defined.

Lemma rows_ok : Forall (fun s => row_ok (so_fw s)) [ane_t8132_soc; ane_t6040_soc; ane_t6041_soc].
Proof. vm_decide. Qed.

Lemma stage_bytes_spec img :
  row_ok img ->
  fw_data_vm img + fw_data_vmsize img <= stage_bytes img < fw_data_vm img + fw_data_vmsize img + SZ_16K /\
  stage_bytes img mod P = 0.
Proof.
  intros (H1 & H2 & H3 & H4 & H5 & H6 & H7 & H8 & _). change SZ_16K with 16384 in *. unfold stage_bytes.
  change SZ_16K with 16384. rewrite (wrap_small 32 (_ + fw_data_vmsize img)); [|lia]. rewrite wrap_small; [|lia].
  set (n := fw_data_vm img + fw_data_vmsize img) in *.
  change (u32 (- (16384))) with 0xffffc000.
  assert (Z.land (n + (16384 - 1)) 0xffffc000 = 2 ^ 14 * ((n + (16384 - 1)) / 2 ^ 14)) as ->.
  { rewrite -land_align; [|lia..]. change (u64 (- 2 ^ 14)) with (Z.lor 0xffffc000 (Z.shiftl 0xffffffff 32)).
    rewrite Z.land_lor_distr_r (land_shiftl_disjoint _ _ 32); [|lia..]. by rewrite Z.lor_0_r. }
  change P with (2 ^ 14). split; [|by rewrite Z.mul_comm Z.mod_mul]. change (2 ^ 14) with 16384. dlia.
Qed.

Lemma word64_at_same m m' p p' :
  (forall i, 0 <= i < 8 -> byte_at m (p + i) = byte_at m' (p' + i)) -> word64_at m p = word64_at m' p'.
Proof.
  intros H. unfold word64_at. rewrite (word32_at_ext m m' p p'); [|intros; apply H; lia].
  rewrite (word32_at_ext m m' (p + 4) (p' + 4)); [done|]. intros i Hi. rewrite -!Z.add_assoc. apply H. lia.
Qed.

Lemma word64_at_patched m p v : 0 <= p -> p + 8 <= zlen m -> in_range 64 v -> word64_at (patch m p (le_bytes 8 v)) p = v.
Proof.
  intros Hp Hl Hv. rewrite -{2}(wrap_small 64 v); [|done]. apply FwValidate.word64_at_slice; [|done].
  apply bytes_ext; [rewrite zlen_slice; rewrite ?zlen_patch ?zlen_le_bytes; lia|]. intros i Hi.
  rewrite zlen_slice in Hi; [|lia|lia|rewrite zlen_patch ?zlen_le_bytes; lia].
  rewrite byte_at_slice; [|lia..]. rewrite byte_at_patch ?zlen_le_bytes; [|lia..].
  rewrite bool_decide_eq_true_2; [|lia]. f_equal. lia.
Qed.

Section staging.
Context (img : ane_h16_fw) (iova0 iova1 : Z) (fw pre : bytes) (vm foff expect size stage_size : Z).
Context (Hf : 0 <= foff /\ 0 <= expect /\ foff + expect <= zlen fw).
Context (Hs : 0 <= size <= 2 ^ 32 - 8) (Hp : 8 * ((size + 7) / 8) <= zlen pre) (Hpb : bytes_ok pre) (Hv : 0 <= vm).

(** The word of the file, zero behind it, and what is accepted over it. *)
Definition file_word (i : Z) : Z := if i + 8 <=? expect then word64_at fw (foff + i) else 0.

Definition accepted_word (i : Z) : Prop :=
  file_word i = word64_at pre i \/
  ((in_allowed img (vm + i) = true \/ ane_h16_preload_patched_u64 iova0 iova1 (file_word i) (word64_at pre i) = true) /\
   vm + i + 8 <= stage_size).

(** The words before [n] done on the way from [buf] to [buf']. *)
Definition staged (buf : bytes) (n : Z) (buf' : bytes) : Prop :=
  zlen buf' = zlen buf /\ (bytes_ok buf -> bytes_ok buf') /\
  (forall j, 0 <= j < zlen buf -> j < vm \/ vm + n <= j -> byte_at buf' j = byte_at buf j) /\
  (forall i, 0 <= i < n -> i mod 8 = 0 -> accepted_word i /\
     (vm + i + 8 <= stage_size ->
      word64_at buf' (vm + i) = if file_word i =? word64_at pre i then word64_at buf (vm + i) else word64_at pre i)).

Lemma stage_seg_spec buf :
  zlen buf = stage_size ->
  twp (stage_seg img iova0 iova1 fw pre vm foff expect size stage_size buf) (fun '(buf', r) =>
    match r with
    | None => staged buf (8 * ((size + 7) / 8)) buf'
    | Some e => e = EINVAL /\ zlen buf' = zlen buf /\ exists i, 0 <= i < size /\ i mod 8 = 0 /\ ~ accepted_word i
    end).
Proof using Hf Hp Hpb Hs Hv.
  intros Hb. unfold stage_seg.
  apply (twp_loop _ (fun x => x.1 mod 8 = 0 /\ 0 <= x.1 <= 8 * ((size + 7) / 8) /\ staged buf x.1 x.2)
    (fun x => Z.to_nat ((size + 7 - x.1) / 8))).
  2: { cbn [fst snd]. split; [done|]. split; [dlia|]. split; [done|]. split; [done|]. split; [done|]. intros i Hi. lia. }
  2: { cbn [fst]. assert ((size + 7 - 0) / 8 <= size / 8 + 1) by dlia. assert (0 <= size / 8) by (apply Z.div_pos; lia). lia. }
  intros [i b] (Hm & Hi & (Hz & Hbo & Hout & Hw)). cbn [fst snd] in *. unfold stage_word.
  destruct (Z.ltb_spec i size) as [Hlt|Hge]; cycle 1.
  { cbn [twp]. replace (8 * ((size + 7) / 8)) with i by dlia. done. }
  assert (i + 8 <= 8 * ((size + 7) / 8)) as Hend by dlia.
  rewrite (wrap_small 32 (i + 8)); [|dlia].
  assert ((if i + 8 <=? expect then le64 fw (foff + i) else Ret 0) = Ret (file_word i)) as ->.
  { unfold file_word. destruct (Z.leb_spec (i + 8) expect); [|done]. apply le64_eq; lia. }
  cbn [mbind res_bind]. rewrite le64_eq; [|lia..]. cbn [mbind res_bind].
  assert (Z.to_nat ((size + 7 - (i + 8)) / 8) < Z.to_nat ((size + 7 - i) / 8))%nat as Hmu.
  { assert (0 <= (size + 7 - i) / 8) by (apply Z.div_pos; lia). dlia. }
  assert ((i + 8) mod 8 = 0) as Hm' by dlia.
  destruct (Z.eqb_spec (file_word i) (word64_at pre i)) as [E|E].
  { cbn [twp fst snd]. split; [|done]. split; [done|]. split; [lia|]. split; [done|]. split; [done|]. split.
    - intros j Hj Hj'. apply Hout; [done|lia].
    - intros k Hk Hkm. destruct (decide (k < i)) as [Hki|Hki]; [apply Hw; [lia|done]|].
      assert (k = i) as -> by dlia. split; [by left|]. intros Hin. rewrite E Z.eqb_refl.
      apply word64_at_same. intros y Hy. rewrite Hout; [done|lia|lia]. }
  destruct (negb (in_allowed img (vm + i)) && negb (ane_h16_preload_patched_u64 iova0 iova1 (file_word i) (word64_at pre i))) eqn:Er.
  { cbn [twp]. split; [done|]. split; [done|]. exists i. split; [lia|]. split; [done|]. intros [Ha|[Ha _]]; [done|].
    apply andb_true_iff in Er as [Er1%negb_true_iff Er2%negb_true_iff]. destruct Ha as [Ha|Ha]; congruence. }
  destruct (Z.gtb_spec (vm + i + 8) stage_size) as [Hg|Hg].
  { cbn [twp]. split; [done|]. split; [done|]. exists i. split; [lia|]. split; [done|]. intros [Ha|[_ Ha]]; [done|lia]. }
  rewrite put_le64_eq; [|lia|lia]. cbn [mbind res_bind twp fst snd]. split; [|done]. split; [done|]. split; [lia|].
  assert (zlen (le_bytes 8 (word64_at pre i)) = 8) as H8 by apply zlen_le_bytes. split; [rewrite zlen_patch; lia|].
  split; [intros Hbb; apply bytes_ok_patch; [auto|apply bytes_ok_le_bytes]|]. split.
  - intros j Hj Hj'. rewrite byte_at_patch; [|lia..]. rewrite bool_decide_eq_false_2; [|lia]. apply Hout; [done|lia].
  - intros k Hk Hkm. destruct (decide (k < i)) as [Hki|Hki].
    + destruct (Hw k ltac:(lia) Hkm) as [Ha Hb']. split; [done|]. intros Hin. rewrite -Hb'; [|done].
      apply word64_at_same. intros y Hy. rewrite byte_at_patch; [|lia..]. rewrite bool_decide_eq_false_2; [done|]. dlia.
    + assert (k = i) as -> by dlia. split.
      * right. split; [|lia]. apply andb_false_iff in Er as [Er%negb_false_iff|Er%negb_false_iff]; auto.
      * intros _. rewrite (proj2 (Z.eqb_neq _ _) E). apply word64_at_patched; [lia|lia|by apply word64_at_range].
Qed.
End staging.

(** A mapping of the preload covers the words of the segment. *)
Definition remap_law (e : h16_env) : Prop :=
  forall p n m, e_remap e p n = inr m -> 8 * ((n + 7) / 8) <= zlen m /\ bytes_ok m.

Section stage.
Context `{HI : Iommu} {HC : DmaCoherent} (e : h16_env) (img : ane_h16_fw) (segs : ane_h16_seg * ane_h16_seg) (fw : bytes).
Context (Hrow : row_ok img) (Hfw : zlen fw = fw_size img) (Hremap : remap_law e).
Context (Hs0 : hs_size segs.1 = fw_text_vmsize img) (Hs1 : 0 <= hs_size segs.2 <= 2 ^ 32 - 8).

Abbreviation iova0 := (hs_iova segs.1).
Abbreviation iova1 := (hs_iova segs.2).
Abbreviation N := (stage_bytes img).

(** Word [i] of either segment of the preload, against the file. *)
Definition text_ok (pre : bytes) (i : Z) : Prop :=
  accepted_word img iova0 iova1 fw pre 0 0x4000 (fw_text_vmsize img) N i.
Definition data_ok (pre : bytes) (i : Z) : Prop :=
  accepted_word img iova0 iova1 fw pre (fw_data_vm img) (fw_data_fileoff img) (fw_data_filesize img) N i.

(** The file at its addresses. *)
Definition laid_out : bytes :=
  patch (patch (replicate (Z.to_nat N) 0) 0 (slice fw 0x4000 (fw_text_vmsize img))) (fw_data_vm img)
    (slice fw (fw_data_fileoff img) (fw_data_filesize img)).

Lemma laid_out_spec :
  zlen laid_out = N /\
  (forall i, 0 <= i -> i + 8 <= fw_text_vmsize img -> word64_at laid_out i = word64_at fw (0x4000 + i)) /\
  (forall i, 0 <= i -> i mod 8 = 0 -> fw_data_vm img + i + 8 <= N ->
     word64_at laid_out (fw_data_vm img + i) = file_word fw (fw_data_fileoff img) (fw_data_filesize img) i).
Proof using Hfw Hrow.
  pose proof (stage_bytes_spec img Hrow) as [Hn _]. destruct Hrow as (R1 & R2 & R3 & R4 & R5 & R6 & R7 & R8 & R9 & R10 & R11).
  unfold laid_out. set (z := replicate (Z.to_nat N) 0).
  assert (zlen z = N) as Hz by (subst z; rewrite zlen_replicate; lia).
  set (A := slice fw 0x4000 (fw_text_vmsize img)). assert (zlen A = fw_text_vmsize img) as HA by (apply zlen_slice; lia).
  set (B := slice fw (fw_data_fileoff img) (fw_data_filesize img)).
  assert (zlen B = fw_data_filesize img) as HB by (apply zlen_slice; lia).
  assert (zlen (patch z 0 A) = N) as HzA by (rewrite zlen_patch; lia).
  split; [rewrite zlen_patch; lia|]. split.
  - intros i Hi Hl. apply word64_at_same. intros y Hy. rewrite byte_at_patch; [|lia..].
    rewrite bool_decide_eq_false_2; [|lia]. rewrite byte_at_patch; [|lia..]. rewrite bool_decide_eq_true_2; [|lia].
    rewrite Z.sub_0_r. unfold A. rewrite byte_at_slice; [|lia..]. f_equal. lia.
  - intros i Hi Hm Hl. unfold file_word. destruct (Z.leb_spec (i + 8) (fw_data_filesize img)).
    + apply word64_at_same. intros y Hy. rewrite byte_at_patch; [|lia..]. rewrite bool_decide_eq_true_2; [|lia].
      unfold B. rewrite byte_at_slice; [|lia..]. f_equal. lia.
    + change 0 with (word64_at (replicate 8 0) 0) at 2. apply word64_at_same. intros y Hy.
      assert (byte_at (replicate 8 0) (0 + y) = 0) as -> by (unfold byte_at; apply lookup_replicate_default).
      rewrite byte_at_patch; [|lia..]. rewrite bool_decide_eq_false_2; [|dlia].
      rewrite byte_at_patch; [|lia..]. rewrite bool_decide_eq_false_2; [|lia]. unfold byte_at, z. apply lookup_replicate_default.
Qed.

Lemma stage_spec x :
  twp (ane_h16_stage e img segs fw x) (fun '(x', r) =>
    i_has_dom x' = i_has_dom x /\ i_fw x' = i_fw x /\ i_size x' = N /\
    match dma_alloc (i_dom x) N with
    | None => r = Some ENOMEM /\ i_cpu x' = None /\ i_dom x' = i_dom x
    | Some (dma, d) => i_dom x' = d /\ i_dma x' = dma /\ exists buf, i_cpu x' = Some buf /\ zlen buf = N /\
        match e_remap e (hs_phys segs.1) (hs_size segs.1), e_remap e (hs_phys segs.2) (hs_size segs.2) with
        | inr pre0, inr pre1 =>
            match r with
            | None => (forall i, 0 <= i < hs_size segs.1 -> i mod 8 = 0 -> text_ok pre0 i /\ word64_at buf i = word64_at pre0 i) /\
                      (forall i, 0 <= i < hs_size segs.2 -> i mod 8 = 0 -> data_ok pre1 i /\
                         (fw_data_vm img + i + 8 <= N -> word64_at buf (fw_data_vm img + i) = word64_at pre1 i))
            | Some err => err = EINVAL /\
                ((exists i, 0 <= i < hs_size segs.1 /\ i mod 8 = 0 /\ ~ text_ok pre0 i) \/
                 (exists i, 0 <= i < hs_size segs.2 /\ i mod 8 = 0 /\ ~ data_ok pre1 i))
            end
        | inl err, _ | _, inl err => r = Some err
        end
    end).
Proof using Hfw Hremap Hrow Hs0 Hs1.
  pose proof (stage_bytes_spec img Hrow) as [Hn _]. destruct laid_out_spec as (HL & HLt & HLd).
  pose proof Hrow as (R1 & R2 & R3 & R4 & R5 & R6 & R7 & R8 & R9 & R10 & R11). change SZ_16K with 16384 in R8.
  unfold ane_h16_stage. destruct (dma_alloc (i_dom x) N) as [[dma d]|]; [|by cbn].
  rewrite memcpy_eq; [|lia|lia|rewrite zlen_replicate; lia|lia|lia]. cbn [mbind res_bind].
  assert (zlen (patch (replicate (Z.to_nat N) 0) 0 (slice fw 16384 (fw_text_vmsize img))) = N) as Hz1.
  { rewrite zlen_patch; rewrite ?zlen_slice ?zlen_replicate; lia. }
  rewrite memcpy_eq; [|lia|lia|rewrite Hz1; lia|lia|lia]. cbn [mbind res_bind]. fold laid_out.
  destruct (e_remap e (hs_phys segs.1) (hs_size segs.1)) as [err|pre0] eqn:E0.
  { cbn [twp i_has_dom i_fw i_size i_dom i_dma i_cpu]. do 5 (split; [done|]). by exists laid_out. }
  destruct (e_remap e (hs_phys segs.2) (hs_size segs.2)) as [err|pre1] eqn:E1.
  { cbn [twp i_has_dom i_fw i_size i_dom i_dma i_cpu]. do 5 (split; [done|]). by exists laid_out. }
  destruct (Hremap _ _ _ E0) as [Hl0 Hb0]. destruct (Hremap _ _ _ E1) as [Hl1 Hb1]. rewrite Hs0 in Hl0 |- *.
  apply twp_bind. eapply twp_mono.
  { apply stage_seg_spec; [lia|lia|exact Hl0|exact Hb0|lia|exact HL]. }
  intros [b1 [err|]].
  { intros (-> & Hz & i & Hi & Hm & Ha). cbn [twp i_has_dom i_fw i_size i_dom i_dma i_cpu]. do 5 (split; [done|]). exists b1.
    split; [done|]. split; [lia|]. split; [done|]. left. by exists i. }
  intros (Hz & _ & Hout & Hw). replace (8 * ((fw_text_vmsize img + 7) / 8)) with (fw_text_vmsize img) in * by dlia.
  apply twp_bind. eapply twp_mono.
  { apply stage_seg_spec; [lia|lia|exact Hl1|exact Hb1|lia|lia]. }
  intros [b2 [err|]]; cbn [twp i_has_dom i_fw i_size i_dom i_dma i_cpu].
  { intros (-> & Hz2 & i & Hi & Hm & Ha). do 5 (split; [done|]). exists b2. split; [done|]. split; [lia|].
    split; [done|]. right. by exists i. }
  intros (Hz2 & _ & Hout2 & Hw2). do 5 (split; [done|]). exists b2. split; [done|]. split; [lia|]. split.
  - intros i Hi Hm. destruct (Hw i Hi Hm) as [Ha Hwi]. split; [done|].
    rewrite -(Z.add_0_l i) in Hwi. rewrite !Z.add_0_l in Hwi.
    assert (word64_at b2 i = word64_at b1 i) as -> by (apply word64_at_same; intros y Hy; apply Hout2; [dlia|left; dlia]).
    rewrite Hwi; [|dlia]. destruct (Z.eqb_spec (file_word fw 16384 (fw_text_vmsize img) i) (word64_at pre0 i)) as [E|E]; [|done].
    rewrite -E. unfold file_word. replace (i + 8 <=? fw_text_vmsize img) with true by dlia. apply HLt; dlia.
  - intros i Hi Hm. destruct (Hw2 i ltac:(dlia) Hm) as [Ha Hwi]. split; [done|]. intros Hin. rewrite Hwi; [|done].
    destruct (Z.eqb_spec (file_word fw (fw_data_fileoff img) (fw_data_filesize img) i) (word64_at pre1 i)) as [E|E]; [|done].
    rewrite -E -HLd; [|lia|done|done]. apply word64_at_same. intros y Hy. apply Hout; [lia|lia].
Qed.
End stage.

(** ** The mapping of the staged image *)

(** A segment of whole pages inside the address space. *)
Definition seg_aligned (g : ane_h16_seg) : Prop :=
  0 <= hs_iova g /\ 0 <= hs_size g /\ hs_iova g + hs_size g <= 2 ^ 64 /\ whole_pages [hs_iova g; hs_size g].

Lemma whole_pages2 a b : a mod P = 0 -> b mod P = 0 -> whole_pages [a; b].
Proof. intros. by repeat constructor. Qed.

Section mapping.
Context `{HI : Iommu} `{HL : !IommuLaws 14} {HM : IommuCore} `{HML : !IommuCoreLaws}.

(** Pages [0 .. k) at [iova] were added, translated to [base] on. *)
Definition added (iova base k : Z) (d d' : domain) : Prop :=
  (forall x, 0 <= x < k -> iova_to_phys d (iova + x * P) = None /\ iova_to_phys d' (iova + x * P) = Some (base + x * P)) /\
  (forall j, ~ page_of iova k j -> iova_to_phys d' j = iova_to_phys d j).

Lemma added_0 iova base d : added iova base 0 d d.
Proof using Type. split; [intros; lia|done]. Qed.

Lemma added_S iova base k d d' d'' :
  0 <= k -> added iova base k d d' -> iommu_map d' (iova + k * P) (base + k * P) = (d'', None) ->
  added iova base (k + 1) d d''.
Proof using HL.
  intros Hk [H1 H2] Hm. pose proof (fun j => map_ok 14 _ _ _ _ j Hm) as Hok.
  assert (forall x, iova + x * P = iova + k * P -> x = k) as Hinj by (change P with 16384; intros; lia).
  assert (~ page_of iova k (iova + k * P)) as Hno.
  { intros (x & Hx & E). symmetry in E. apply Hinj in E. lia. }
  split.
  - intros x Hx. destruct (decide (x = k)) as [->|Hne].
    + destruct (Hok (iova + k * P)) as [Hn ->]. rewrite H2 in Hn; [|done]. by rewrite decide_True.
    + destruct (H1 x ltac:(lia)) as [Hn Hs]. split; [done|]. destruct (Hok (iova + x * P)) as [_ ->].
      rewrite decide_False; [done|]. intros E. by apply Hinj in E.
  - intros j Hj. destruct (Hok j) as [_ ->]. destruct (decide (j = iova + k * P)) as [->|Hne].
    + destruct Hj. exists k. split; [lia|done].
    + apply H2. intros (x & Hx & ->). apply Hj. exists x. split; [lia|done].
Qed.

Lemma map_seg_spec pa vm g N d :
  0 <= vm -> whole_pages [pa; vm] -> seg_aligned g ->
  twp (map_seg pa vm (hs_iova g) (hs_size g) N d) (fun '(d', r) =>
    exists k, 0 <= k <= hs_size g / P /\ added (hs_iova g) (pa + vm) k d d' /\
      (r = None -> k = hs_size g / P /\ (0 < hs_size g -> vm + hs_size g <= N))).
Proof using HL HML.
  intros Hvm Hpv (H0 & H1 & H2 & Hw). apply Forall_cons in Hw as [Hwi [Hws _]%Forall_cons].
  apply Forall_cons in Hpv as [Hpa [Hvp _]%Forall_cons]. unfold map_seg, SZ_16K. apply twp_bind.
  change P with 16384 in *. set (n := hs_size g / 16384).
  assert (hs_size g = n * 16384) as Hn by (subst n; dlia).
  replace ((hs_size g + (16384 - 1)) / 16384) with n by dlia.
  eapply twp_mono.
  { apply (twp_times_count _ (fun k x => x.1 = k * 16384 /\ added (hs_iova g) (pa + vm) k d x.2 /\ (0 < k -> vm + k * 16384 <= N))
      (fun x => exists k, 0 <= k <= n /\ added (hs_iova g) (pa + vm) k d x.1)); [lia| |].
    - intros k [off d1] Hk (Ho & Ha & HN). cbn [fst snd] in *. subst off. unfold map_step, SZ_16K.
      rewrite Z.min_l; [|lia]. destruct (Z.gtb_spec (vm + k * 16384 + 16384) N) as [Hg|Hg]; [exists k; split; [lia|done]|].
      rewrite wrap_small; [|lia]. destruct (negb _); [exists k; split; [lia|done]|].
      assert (forall q, q mod 16384 = 0 -> (q + k * 16384) mod 16384 = 0) as Hmod by (intros q Hq; dlia).
      rewrite (map_bytes_page d1 (hs_iova g + k * 16384) (pa + vm + k * 16384)); cycle 1.
      { repeat constructor; change P with 16384; apply Hmod; [done|dlia]. }
      destruct (iommu_map _ _ _) as [d2 [err|]] eqn:Em; cbn [twp fst snd].
      + exists k. split; [lia|]. destruct Ha as [Ha1 Ha2]. pose proof (fun j => map_err 14 _ _ _ _ _ j Em) as He.
        split; [intros x Hx; rewrite He; by apply Ha1|intros j Hj; rewrite He; by apply Ha2].
      + split; [lia|]. split; [|lia]. eapply added_S; [lia|exact Ha|exact Em].
    - split; [done|]. split; [apply added_0|lia]. }
  intros [[off d1]|[d1 err]].
  - intros (_ & Ha & HN). cbn [snd] in Ha. exists n. split; [lia|]. split; [done|]. intros _. split; [done|]. lia.
  - intros (k & Hk & Ha). exists k. split; [done|]. split; [done|]. done.
Qed.

(** Unmapping a segment stops at the first hole. *)
Lemma unmap_seg_spec g d :
  seg_aligned g ->
  exists k, 0 <= k <= hs_size g / P /\
    (forall j, page_of (hs_iova g) k j -> iova_to_phys (unmap_bytes d (hs_iova g) (hs_size g)).1 j = None) /\
    (forall j, ~ page_of (hs_iova g) k j -> iova_to_phys (unmap_bytes d (hs_iova g) (hs_size g)).1 j = iova_to_phys d j) /\
    (k < hs_size g / P -> iova_to_phys d (hs_iova g + k * P) = None).
Proof using HL HML.
  intros (H0 & H1 & H2 & Hw). rewrite unmap_bytes_pages; [|done].
  apply Forall_cons in Hw as [_ [Hws _]%Forall_cons].
  assert (hs_size g = hs_size g / P * P) as Hn by (change P with 16384 in *; dlia).
  destruct (iommu_unmap d (hs_iova g) (hs_size g)) as [d2 u] eqn:E. cbn [fst]. rewrite Hn in E.
  destruct (unmap_range 14 d (hs_iova g) (hs_size g / P) d2 u) as (k & _ & Hk & Hin & Hout & Hhole); [|done|].
  { apply Z.div_pos; [lia|done]. }
  by exists k.
Qed.

(** Pages of either segment. *)
Definition seg_page (segs : ane_h16_seg * ane_h16_seg) (j : Z) : Prop :=
  page_of (hs_iova segs.1) (hs_size segs.1 / P) j \/ page_of (hs_iova segs.2) (hs_size segs.2 / P) j.

(** Translations of the segments may be gone, the others are the same. *)
Definition cleared (segs : ane_h16_seg * ane_h16_seg) (d d' : domain) : Prop :=
  forall j, iova_to_phys d' j = iova_to_phys d j \/ iova_to_phys d' j = None /\ seg_page segs j.

Lemma page_of_le i k k' j : k <= k' -> page_of i k j -> page_of i k' j.
Proof using Type. intros Hk (x & Hx & ->). exists x. split; [lia|done]. Qed.

(** It removes all of a mapped prefix. *)
Lemma unmap_prefix g d k m :
  (forall x, 0 <= x < m -> iova_to_phys d (hs_iova g + x * P) <> None) ->
  (k < hs_size g / P -> iova_to_phys d (hs_iova g + k * P) = None) -> 0 <= k -> m <= hs_size g / P -> m <= k.
Proof using Type.
  intros Hs Hh Hk Hm. destruct (decide (m <= k)) as [|Hlt]; [done|]. destruct (Hs k); [lia|apply Hh; lia].
Qed.

Lemma unmap_stage_partial segs base k d d' :
  seg_aligned segs.1 -> seg_aligned segs.2 -> 0 <= k <= hs_size segs.1 / P -> added (hs_iova segs.1) base k d d' ->
  cleared segs d (unmap_bytes (unmap_bytes d' (hs_iova segs.1) (hs_size segs.1)).1 (hs_iova segs.2) (hs_size segs.2)).1.
Proof using HL HML.
  intros A1 A2 Hk [Ha1 Ha2]. destruct (unmap_seg_spec segs.1 d' A1) as (k1 & Hk1 & Hin1 & Hout1 & Hh1).
  set (d1 := (unmap_bytes d' _ _).1) in *. destruct (unmap_seg_spec segs.2 d1 A2) as (k2 & Hk2 & Hin2 & Hout2 & _).
  assert (k <= k1) as Hle.
  { apply (unmap_prefix segs.1 d'); [|done|lia|lia]. intros x Hx. destruct (Ha1 x Hx) as [_ Hs]. by rewrite Hs. }
  intros j. destruct (decide (page_of (hs_iova segs.2) k2 j)) as [Hj|Hj].
  { right. split; [by apply Hin2|]. right. eapply page_of_le; [|exact Hj]. lia. }
  rewrite (Hout2 j Hj). destruct (decide (page_of (hs_iova segs.1) k1 j)) as [Hj1|Hj1].
  - right. split; [by apply Hin1|]. left. eapply page_of_le; [|exact Hj1]. lia.
  - left. rewrite (Hout1 j Hj1). apply Ha2. intros Hj'. apply Hj1. eapply page_of_le; [|exact Hj']. done.
Qed.

Lemma unmap_stage_full segs base base' k d d1 d' :
  seg_aligned segs.1 -> seg_aligned segs.2 -> 0 <= k <= hs_size segs.2 / P ->
  added (hs_iova segs.1) base (hs_size segs.1 / P) d d1 -> added (hs_iova segs.2) base' k d1 d' ->
  cleared segs d (unmap_bytes (unmap_bytes d' (hs_iova segs.1) (hs_size segs.1)).1 (hs_iova segs.2) (hs_size segs.2)).1.
Proof using HL HML.
  intros A1 A2 Hk [Ha1 Ha2] [Hb1 Hb2]. set (n1 := hs_size segs.1 / P) in *.
  assert (forall x, 0 <= x < k -> ~ page_of (hs_iova segs.1) n1 (hs_iova segs.2 + x * P)) as Hdisj.
  { intros x Hx (y & Hy & E). destruct (Hb1 x Hx) as [Hn _]. rewrite E in Hn. destruct (Ha1 y Hy) as [_ Hs]. congruence. }
  destruct (unmap_seg_spec segs.1 d' A1) as (k1 & Hk1 & Hin1 & Hout1 & Hh1). fold n1 in Hk1, Hh1.
  set (d4 := (unmap_bytes d' _ _).1) in *. destruct (unmap_seg_spec segs.2 d4 A2) as (k2 & Hk2 & Hin2 & Hout2 & Hh2).
  assert (k1 = n1) as ->.
  { apply Z.le_antisymm; [lia|]. apply (unmap_prefix segs.1 d'); [|done|lia|done]. intros x Hx. rewrite Hb2.
    - destruct (Ha1 x Hx) as [_ Hs]. by rewrite Hs.
    - intros (y & Hy & E). apply (Hdisj y Hy). exists x. by split. }
  assert (k <= k2) as Hle.
  { apply (unmap_prefix segs.2 d4); [|done|lia|lia]. intros x Hx. rewrite Hout1; [|by apply Hdisj].
    destruct (Hb1 x Hx) as [_ Hs]. by rewrite Hs. }
  intros j. destruct (decide (page_of (hs_iova segs.2) k2 j)) as [Hj|Hj].
  { right. split; [by apply Hin2|]. right. eapply page_of_le; [|exact Hj]. lia. }
  rewrite (Hout2 j Hj). destruct (decide (page_of (hs_iova segs.1) n1 j)) as [Hj1|Hj1].
  - right. split; [by apply Hin1|]. by left.
  - left. rewrite (Hout1 j Hj1) Hb2; [by apply Ha2|]. intros Hj'. apply Hj. eapply page_of_le; [|exact Hj']. done.
Qed.

(** The two segments mapped. *)
Definition mapped (e : h16_env) (img : ane_h16_fw) (segs : ane_h16_seg * ane_h16_seg) (d : domain) : Prop :=
  (forall x, 0 <= x < hs_size segs.1 / P -> iova_to_phys d (hs_iova segs.1 + x * P) = Some (e_stage_pa e + x * P)) /\
  (forall x, 0 <= x < hs_size segs.2 / P ->
     iova_to_phys d (hs_iova segs.2 + x * P) = Some (e_stage_pa e + fw_data_vm img + x * P)).

Lemma map_stage_spec e img segs x :
  row_ok img -> seg_aligned segs.1 -> seg_aligned segs.2 ->
  twp (ane_h16_map_stage e img segs x) (fun '(x', r) =>
    i_cpu x' = i_cpu x /\ i_dma x' = i_dma x /\ i_size x' = i_size x /\ i_fw x' = i_fw x /\
    cleared segs (i_dom x) (i_dom (ane_h16_unmap_stage segs x')) /\
    i_has_dom (ane_h16_unmap_stage segs x') = i_has_dom x' /\
    (r = None -> mapped e img segs (i_dom x') /\ (forall j, ~ seg_page segs j -> iova_to_phys (i_dom x') j = iova_to_phys (i_dom x) j))).
Proof using HL HML.
  intros Hrow A1 A2. unfold ane_h16_map_stage, ane_h16_unmap_stage.
  destruct (e_has_domain e); cbn [negb].
  2: { cbn [twp i_cpu i_dma i_size i_fw i_dom i_has_dom]. do 4 (split; [done|]). split; [intros j; by left|done]. }
  assert (cleared segs (i_dom x) (unmap_bytes (unmap_bytes (i_dom x) (hs_iova segs.1) (hs_size segs.1)).1
    (hs_iova segs.2) (hs_size segs.2)).1) as H00.
  { apply (unmap_stage_partial segs 0 0); [done|done| |apply added_0]. split; [lia|]. apply Z.div_pos; [apply A1|done]. }
  destruct (Z.eqb_spec (e_stage_pa e mod SZ_16K) 0) as [Hpa|Hpa]; cbn [negb].
  2: { cbn [twp i_cpu i_dma i_size i_fw i_dom i_has_dom set_idom]. do 4 (split; [done|]). split; [exact H00|done]. }
  destruct Hrow as (R1 & R2 & R3 & R4 & R5 & R6 & R7 & R8 & R9 & R10 & R11). change SZ_16K with 16384 in Hpa.
  apply twp_bind. cbn [i_dom i_size]. eapply twp_mono.
  { apply map_seg_spec; [lia|by apply whole_pages2|exact A1]. }
  intros [d1 r1] (k1 & Hk1 & Ha1 & Hr1). rewrite Z.add_0_r in Ha1. destruct r1 as [err|].
  { cbn [twp i_cpu i_dma i_size i_fw i_dom i_has_dom set_idom]. do 4 (split; [done|]).
    split; [|done]. by apply (unmap_stage_partial segs (e_stage_pa e) k1). }
  destruct (Hr1 eq_refl) as [-> _]. apply twp_bind. eapply twp_mono.
  { apply map_seg_spec; [lia|by apply whole_pages2|exact A2]. }
  intros [d2 r2] (k2 & Hk2 & Ha2 & Hr2). cbn [twp i_cpu i_dma i_size i_fw i_dom i_has_dom set_idom]. do 4 (split; [done|]).
  split; [by apply (unmap_stage_full segs (e_stage_pa e) (e_stage_pa e + fw_data_vm img) k2 _ d1)|]. split; [done|].
  intros ->. destruct (Hr2 eq_refl) as [-> _]. destruct Ha1 as [Ha1 Ho1], Ha2 as [Ha2 Ho2]. split; [split|].
  - intros y Hy. rewrite Ho2; [by apply Ha1|]. intros (z & Hz & E). destruct (Ha2 z Hz) as [Hn _]. rewrite -E in Hn.
    destruct (Ha1 y Hy) as [_ Hs]. congruence.
  - intros y Hy. by apply Ha2.
  - intros j Hj. rewrite Ho2; [apply Ho1|]; intros Hp; apply Hj; [by left|by right].
Qed.
(** A segment another user has mapped is refused, and the refusal's clean-up
    then takes that user's translation away. *)
Lemma alias_refusal_unmaps e img segs x p :
  e_has_domain e = true -> e_stage_pa e mod SZ_16K = 0 -> seg_aligned segs.1 -> seg_aligned segs.2 ->
  0 < hs_size segs.1 -> SZ_16K <= i_size x -> iova_to_phys (i_dom x) (hs_iova segs.1) = Some p -> p <> 0 ->
  exists x', ane_h16_map_stage e img segs x = Ret (x', Some EBUSY) /\ i_dom x' = i_dom x /\
    iova_to_phys (i_dom (ane_h16_unmap_stage segs x')) (hs_iova segs.1) = None.
Proof using HL HML.
  intros Hd Hpa A1 A2 Hs Hi Hp Hne. unfold ane_h16_map_stage. rewrite Hd Hpa. cbn [negb Z.eqb i_dom i_size].
  pose proof A1 as (H0 & H1 & H2 & Hw). apply Forall_cons in Hw as [Hwi [Hws _]%Forall_cons].
  assert (exists n, 0 <= n /\ (hs_size segs.1 + (SZ_16K - 1)) / SZ_16K = n + 1 /\ SZ_16K <= hs_size segs.1) as (n & Hn & En & Hge).
  { exists (hs_size segs.1 / 16384 - 1). change P with 16384 in *. change SZ_16K with 16384. split; [dlia|]. split; dlia. }
  assert (map_step (e_stage_pa e) 0 (hs_iova segs.1) (hs_size segs.1) (i_size x) (0, i_dom x) = Ret (inr (i_dom x, EBUSY))) as Hst.
  { unfold map_step. cbv zeta. rewrite Z.min_l; [|lia].
    replace (0 + 0 + SZ_16K >? i_size x) with false by lia.
    unfold phys_of. rewrite Z.add_0_r (wrap_small 64); [|change SZ_16K with 16384 in *; lia].
    rewrite Hwi Z.sub_0_r Hp Z.add_0_r (proj2 (Z.eqb_neq p 0) Hne). done. }
  unfold map_seg. rewrite En times_iterM Z2Nat.inj_add; [|done|done]. rewrite Nat.add_1_r. cbn [iterM]. rewrite Hst.
  cbn [mbind res_bind]. eexists. split; [done|]. split; [done|].
  unfold ane_h16_unmap_stage. cbn [i_has_dom set_idom i_dom].
  destruct (unmap_seg_spec segs.1 (i_dom x) A1) as (k & Hk & Kin & _ & Khole).
  set (d1 := (unmap_bytes (i_dom x) (hs_iova segs.1) (hs_size segs.1)).1) in *.
  assert (iova_to_phys d1 (hs_iova segs.1) = None) as Hnone.
  { destruct (decide (k = 0)) as [->|Hk0].
    - rewrite Z.mul_0_l Z.add_0_r Hp in Khole. discriminate Khole. change P with 16384 in *. change SZ_16K with 16384 in *. dlia.
    - apply Kin. exists 0. split; [lia|]. lia. }
  destruct (unmap_seg_spec segs.2 d1 A2) as (k2 & _ & Lin & Lout & _).
  destruct (decide (page_of (hs_iova segs.2) k2 (hs_iova segs.1))) as [Hj|Hj]; [by apply Lin|by rewrite Lout].
Qed.
End mapping.

(** ** The whole boot *)

Definition is_recv (s : ane_h16_soc) (e : ev) : bool :=
  match e with Rd64 off _ => off =? so_mbox s + ANE_H16_MBOX_I2A_RECV0 | _ => false end.

(** The firmware posts at most [k] messages, and the poll is followed that
    long. *)
Definition mail_law `{Machine} (e : h16_env) (s : ane_h16_soc) : Prop := exists k,
  (forall h, (k <= length (List.filter (is_recv s) h))%nat ->
     Z.land (u32 (m_engine h (so_mbox s + ANE_H16_MBOX_I2A_CTRL))) ANE_H16_MBOX_CTRL_EMPTY <> 0) /\
  (forall h, (k + m_polls h + 2 <= e_mail e)%nat).

Lemma count_ext Q f h h' : ext Q h h' -> (length (List.filter f h) <= length (List.filter f h'))%nat.
Proof. intros (d & -> & _). rewrite List.filter_app length_app. lia. Qed.

Section poll.
Context `{HW : Machine} (e : h16_env) (s : ane_h16_soc).

Lemma rtkit_poll_total h : mail_law e s -> twp (ane_h16_rtkit_poll s (e_mail e) h) (fun _ => True).
Proof using Type.
  intros (k & Hk & Hf). unfold ane_h16_rtkit_poll, ane_h16_rd32, ane_h16_wr32. set (h1 := (h ++ _) ++ _).
  apply twp_bind. eapply twp_mono with (Q := fun _ => True); [|by intros [[h2 b] em]].
  apply (twp_loop _ (fun _ => True) (fun x => (k - length (List.filter (is_recv s) x.1.1)) + x.1.2)%nat);
    [|done|cbn [fst snd]; specialize (Hf h1); lia].
  intros [[h2 n] hello] _. unfold rtkit_round, ane_h16_rd32, ane_h16_rd64.
  destruct (Z.eqb_spec (Z.land (u32 (m_engine h2 (so_mbox s + ANE_H16_MBOX_I2A_CTRL))) ANE_H16_MBOX_CTRL_EMPTY) 0) as [E|E]; cbn [negb].
  2: { destruct hello; [done|]. destruct n as [|n]; [done|]. cbn [twp fst snd]. split; [done|].
    rewrite !List.filter_app !length_app. cbn [List.filter is_recv length]. lia. }
  assert (length (List.filter (is_recv s) h2) < k)%nat as Hlt.
  { destruct (decide (k <= length (List.filter (is_recv s) h2))%nat) as [Hge|]; [|lia]. by destruct (Hk h2 Hge). }
  set (h3 := h2 ++ _). set (h4 := h3 ++ _). set (h5 := h4 ++ _).
  assert (length (List.filter (is_recv s) h2) < length (List.filter (is_recv s) h5))%nat as Hc.
  { subst h5 h4 h3. rewrite !List.filter_app !length_app. cbn [List.filter is_recv]. rewrite Z.eqb_refl. cbn [length]. lia. }
  assert (forall h6, ext engine_io h5 h6 -> (k - length (List.filter (is_recv s) h6) + n < k - length (List.filter (is_recv s) h2) + n)%nat) as Hd.
  { intros h6 H6. pose proof (count_ext _ (is_recv s) _ _ H6). lia. }
  destruct (_ =? _); [|destruct (_ || _); [|done]].
  - pose proof (rx_mgmt_io s h5 hello (u64 (m_engine h3 (so_mbox s + ANE_H16_MBOX_I2A_RECV0)))) as Hr.
    destruct (ane_h16_rtkit_rx_mgmt _ _ _ _) as [h6 b]. cbn [twp fst snd] in *. split; [done|]. by apply Hd.
  - cbn [twp fst snd]. split; [done|]. apply Hd, mbox_send_io.
Qed.
End poll.

Section boot.
Context `{HI : Iommu} `{HL : !IommuLaws 14} {HC : DmaCoherent} `{HD : !DmaLaws}.
Context {HM : IommuCore} `{HML : !IommuCoreLaws} {HW : Machine} (sha256 : bytes -> bytes).

Lemma boot_release_total e s x : mail_law e s -> twp (boot_release e s x) (fun _ => True).
Proof using Type.
  intros Hm. unfold boot_release, ane_h16_wr32. set (h0 := (((_ ++ _) ++ _) ++ _) ++ _). clearbody h0.
  destruct (wake_poll _ _ h0) as [h1 [|]]; [|done]. apply twp_bind.
  assert (twp (if e_hello_wait e then '(h, hello, _) ← ane_h16_rtkit_poll s (e_mail e) (ane_h16_rd32 h1 (so_cpu_status s)).1; Ret (h, hello)
    else Ret ((ane_h16_rd32 h1 (so_cpu_status s)).1, false)) (fun _ => True)) as Ht.
  { destruct (e_hello_wait e); [|done]. apply twp_bind. eapply twp_mono; [by apply rtkit_poll_total|]. by intros [[h2 b] r]. }
  eapply twp_mono; [exact Ht|]. by intros [h b].
Qed.

(** What the device tree, the tables and the firmware are assumed to be: a
    mapping has the bytes that were asked for, the segments are whole pages
    with a data segment of at most 4 GiB less one word (the copy counts in 32
    bits), and the firmware posts finitely many messages. *)
Record h16_world (e : h16_env) (s : ane_h16_soc) : Prop := {
  w_nodes l c : e_nodes e = Some l -> c ∈ l -> map_law c;
  w_row : row_ok (so_fw s);
  w_remap : remap_law e;
  w_segs segs :
    ane_h16_segments (e_nodes e) (so_ane_type s) (fw_text_vmsize (so_fw s)) (fw_data_filesize (so_fw s)) = Ret (inr segs) ->
    seg_aligned segs.1 /\ seg_aligned segs.2 /\ hs_size segs.2 <= 2 ^ 32 - 8;
  w_mail : mail_law e s;
}.

Definition same_dom (d d' : domain) : Prop := forall j, iova_to_phys d' j = iova_to_phys d j.

(** The segments of the device tree. *)
Definition segments_of (e : h16_env) (s : ane_h16_soc) (segs : ane_h16_seg * ane_h16_seg) : Prop :=
  ane_h16_segments (e_nodes e) (so_ane_type s) (fw_text_vmsize (so_fw s)) (fw_data_filesize (so_fw s)) = Ret (inr segs).

(** Nothing is mapped where the segments go. *)
Definition segs_free (e : h16_env) (s : ane_h16_soc) (d0 : domain) : Prop :=
  forall segs j, segments_of e s segs -> seg_page segs j -> iova_to_phys d0 j = None.

(** [d'] is [d0] but for pages of the segments that may have been cleared. *)
Definition left_as (e : h16_env) (s : ane_h16_soc) (d0 d' : domain) : Prop :=
  forall j, iova_to_phys d' j = iova_to_phys d0 j \/
    iova_to_phys d' j = None /\ exists segs, segments_of e s segs /\ seg_page segs j.

Lemma left_as_same e s d0 d' : segs_free e s d0 -> left_as e s d0 d' -> same_dom d0 d'.
Proof using Type.
  intros Hf Hl j. destruct (Hl j) as [->|[-> (segs & Hs & Hj)]]; [done|]. symmetry. by apply (Hf segs).
Qed.

(** A failed boot gives the buffer back over a cleared domain. *)
Lemma free_restores e s d0 d1 d2 dma n segs :
  n mod P = 0 -> dma_alloc d0 n = Some (dma, d1) -> cleared segs d1 d2 -> segments_of e s segs ->
  left_as e s d0 (dma_free d2 dma n).
Proof using HD.
  intros Hn Ha Hc Hs j. destruct (dma_alloc_ok _ _ _ _ Ha Hn) as [Hin Hout].
  destruct (decide (page_of dma (n / P) j)) as [Hj|Hj].
  - left. rewrite dma_free_in; [|done|done]. symmetry. by apply Hin.
  - rewrite dma_free_out; [|done|done]. rewrite -(Hout j Hj). destruct (Hc j) as [->|[-> Hp]]; [by left|].
    right. split; [done|]. by exists segs.
Qed.

(** The image the CPU is started on. *)
Definition image_is_preload (e : h16_env) (img : ane_h16_fw) (segs : ane_h16_seg * ane_h16_seg) (fw buf : bytes) : Prop :=
  exists pre0 pre1, e_remap e (hs_phys segs.1) (hs_size segs.1) = inr pre0 /\
    e_remap e (hs_phys segs.2) (hs_size segs.2) = inr pre1 /\
    (forall i, 0 <= i < hs_size segs.1 -> i mod 8 = 0 -> text_ok img segs fw pre0 i /\ word64_at buf i = word64_at pre0 i) /\
    (forall i, 0 <= i < hs_size segs.2 -> i mod 8 = 0 -> data_ok img segs fw pre1 i /\
       (fw_data_vm img + i + 8 <= stage_bytes img -> word64_at buf (fw_data_vm img + i) = word64_at pre1 i)).

(** The RVBAR accesses: a latched register must name the entry, another one is
    written. *)
Definition rvbar_accesses (s : ane_h16_soc) (iova : Z) (l : list ev) : Prop := exists v,
  (l = [Rd64 (so_rvbar s) v] /\ Z.land v 1 <> 0 /\ Z.land v ANE_H16_RVBAR_ADDR_MASK = Z.land iova ANE_H16_RVBAR_ADDR_MASK) \/
  (l = [Rd64 (so_rvbar s) v; Wr64 (so_rvbar s) (rvbar_value iova)] /\ Z.land v 1 = 0).

Definition booted (e : h16_env) (s : ane_h16_soc) (x x' : h16) (r : option errno) : Prop :=
  exists segs fw buf l d verdict reason,
    ane_h16_segments (e_nodes e) (so_ane_type s) (fw_text_vmsize (so_fw s)) (fw_data_filesize (so_fw s)) = Ret (inr segs) /\
    ane_h16_fw_pin sha256 e (so_fw s) = inr fw /\ image_is_preload e (so_fw s) segs fw buf /\
    i_cpu (x_img x') = Some buf /\ mapped e (so_fw s) segs (i_dom (x_img x')) /\
    x_log x' = x_log x ++ l ++ release_writes s ++ d ++ [Result 3 verdict reason] /\
    rvbar_accesses s (hs_iova segs.1) l /\ Forall (fun e => engine_io e = true) d /\
    (e_hello_wait e = false -> Forall (fun e => quiet e = true) d) /\
    (r = None /\ x_started x' = true \/ r = Some ETIMEDOUT /\ x_started x' = x_started x).

Definition refused (e : h16_env) (s : ane_h16_soc) (d0 : domain) (x x' : h16) (r : option errno) : Prop :=
  r <> None /\ i_cpu (x_img x') = None /\ left_as e s d0 (i_dom (x_img x')) /\ x_started x' = x_started x /\
  exists d v, x_log x' = x_log x ++ d ++ [Result 3 "REFUSED" v] /\ Forall (fun e => quiet e = true) d.

Lemma boot_spec e s x :
  h16_world e s -> i_cpu (x_img x) = None -> i_fw (x_img x) = false -> x_touched x = false ->
  twp (ane_h16_boot sha256 e s x) (fun '(x', r) =>
    x_pm x' = x_pm x /\ i_fw (x_img x') = false /\
    (x_touched x' = false /\ refused e s (i_dom (x_img x)) x x' r \/ x_touched x' = true /\ booted e s x x' r)).
Proof using HD HL HML.
  intros W Hcpu Hfw0 Ht. destruct W as [Wn Wr Wm Ws Wl]. unfold ane_h16_boot.
  destruct (segments_safe (e_nodes e) (so_ane_type s) (fw_text_vmsize (so_fw s)) (fw_data_filesize (so_fw s)) Wn)
    as (rs & Hrs & Hsz). rewrite Hrs. cbn [mbind res_bind].
  assert (forall v err, refused e s (i_dom (x_img x)) x (add_result 3 "REFUSED" v x) (Some err)) as Href0.
  { intros v err. split; [done|]. split; [done|]. split; [intros j; by left|]. split; [done|]. exists [], v. by split. }
  destruct rs as [err|segs]; [cbn [twp]; split; [done|]; split; [done|]; left; by split|].
  destruct (Ws segs Hrs) as (A1 & A2 & Hmax).
  assert (hs_size segs.1 = fw_text_vmsize (so_fw s) /\ fw_data_filesize (so_fw s) <= hs_size segs.2) as [Hs0 Hs1]
    by (destruct segs; exact Hsz).
  destruct (ane_h16_fw_pin sha256 e (so_fw s)) as [err|fw] eqn:Epin; [cbn [twp]; split; [done|]; split; [done|]; left; by split|].
  assert (zlen fw = fw_size (so_fw s)) as Hfwz.
  { unfold ane_h16_fw_pin in Epin. destruct (e_request e) as [|b]; [done|]. destruct (Z.eqb_spec (zlen b) (fw_size (so_fw s))); [|done].
    cbn [negb] in Epin. case_bool_decide; [|done]. by injection Epin as <-. }
  pose proof (stage_bytes_spec _ Wr) as [_ HNP].
  cbv zeta. apply twp_bind. eapply twp_mono.
  { apply (stage_spec e (so_fw s) segs fw); [done|done|done|done|split; [apply A2|lia]]. }
  intros [i1 r1] (S1 & S2 & S3 & S4). cbn [x_img hold_fw set_img i_has_dom i_fw i_dom] in S1, S2, S4.
  destruct (dma_alloc (i_dom (x_img x)) (stage_bytes (so_fw s))) as [[dma d1]|] eqn:Ed.
  2: { destruct S4 as (-> & Hc & Hd). cbn [twp]. split; [done|]. split; [done|]. left. split; [done|]. split; [done|].
    unfold free_stage. cbn [x_img set_img add_result set_log hold_fw i_cpu i_dom x_log x_started].
    rewrite Hc. split; [done|]. split; [intros j; left; by rewrite Hd|]. split; [done|]. by exists [], "preload-diff"%string. }
  destruct S4 as (Hd1 & Hdma & buf & Hbuf & Hbz & Hstage).
  assert (forall i2 h err v, i_cpu i2 = Some buf -> i_dma i2 = dma -> i_size i2 = stage_bytes (so_fw s) ->
    cleared segs d1 (i_dom i2) -> (exists d, h = x_log x ++ d ++ [Result 3 "REFUSED" v] /\ Forall (fun e => quiet e = true) d) ->
    let x2 := hold_fw false (H16 h (x_pm x) (free_stage i2) false (x_started x) (x_hello x)) in
    refused e s (i_dom (x_img x)) x x2 (Some err)) as Href.
  { intros i2 h err v C1 C2 C3 C4 (d & -> & Hd). cbv zeta. split; [done|]. unfold free_stage. rewrite C1.
    cbn [x_img set_img hold_fw i_cpu i_dom x_started x_log]. split; [done|]. split; [|split; [done|by exists d, v]].
    rewrite C2 C3. by eapply free_restores. }
  cbv zeta. destruct r1 as [err|].
  { cbn [twp]. split; [done|]. split; [done|]. left. split; [done|].
    eapply (Href i1 _ err "preload-diff"%string); [done|done|done|intros j; left; by rewrite Hd1|]. by exists []. }
  apply twp_bind. eapply twp_mono; [by apply (map_stage_spec e (so_fw s) segs i1 Wr)|].
  intros [i2 r2] (M1 & M2 & M3 & M4 & M5 & M6 & M7). rewrite Hd1 in M5, M7.
  assert (i_cpu (ane_h16_unmap_stage segs i2) = Some buf /\ i_dma (ane_h16_unmap_stage segs i2) = dma /\
    i_size (ane_h16_unmap_stage segs i2) = stage_bytes (so_fw s)) as (U1 & U2 & U3).
  { unfold ane_h16_unmap_stage. destruct (i_has_dom i2); cbn [i_cpu i_dma i_size set_idom]; rewrite ?M1 ?M2 ?M3 -?Hdma; done. }
  destruct r2 as [err|].
  { cbn [twp boot_unmap]. split; [done|]. split; [done|]. left. split; [done|].
    eapply (Href (ane_h16_unmap_stage segs i2) _ err "dart-map"%string); [done|done|done|done|]. by exists []. }
  destruct (M7 eq_refl) as [Hmap _]. unfold ane_h16_rd64. cbv zeta. set (rv := u64 _).
  assert (exists pre0 pre1, e_remap e (hs_phys segs.1) (hs_size segs.1) = inr pre0 /\
    e_remap e (hs_phys segs.2) (hs_size segs.2) = inr pre1) as (pre0 & pre1 & E0 & E1).
  { destruct (e_remap e (hs_phys segs.1) _) as [|p0]; [done|]. destruct (e_remap e (hs_phys segs.2) _) as [|p1]; [done|]. by exists p0, p1. }
  rewrite E0 E1 in Hstage.
  assert (forall x1, x_pm x1 = x_pm x -> x_img x1 = i2 -> x_started x1 = x_started x ->
    (exists l, x_log x1 = x_log x ++ l /\ rvbar_accesses s (hs_iova segs.1) l) ->
    twp (boot_release e s x1) (fun '(x', r) => x_pm x' = x_pm x /\ i_fw (x_img x') = false /\
    (x_touched x' = false /\ refused e s (i_dom (x_img x)) x x' r \/ x_touched x' = true /\ booted e s x x' r))) as Hrel.
  { intros x1 P1 P2 P3 (l & P4 & P5). pose proof (boot_release_total e s x1 Wl) as Hb. apply twp_ex in Hb as ([x' r] & Hb & _).
    rewrite Hb. apply boot_release_log in Hb as (d & vd & rs & B1 & B2 & B3 & B4 & B5 & B6 & B7 & B8 & B9). cbn [twp].
    split; [congruence|]. split; [done|]. right. split; [done|]. exists segs, fw, buf, l, d, vd, rs.
    split; [done|]. split; [done|]. split; [by exists pre0, pre1|]. split; [by rewrite B7 P2 M1|].
    split; [by rewrite B6 P2|].
    split; [rewrite B1 P4 -app_assoc; done|]. split; [done|]. split; [done|]. split; [done|]. by rewrite -P3. }
  destruct (Z.eqb_spec (Z.land rv 1) 0) as [Hl|Hl]; cbn [negb].
  - apply Hrel; [done|done|done|]. exists [Rd64 (so_rvbar s) rv; Wr64 (so_rvbar s) (rvbar_value (hs_iova segs.1))].
    split; [cbn; by rewrite -app_assoc|]. exists rv. right. by split.
  - destruct (Z.eqb_spec (Z.land rv ANE_H16_RVBAR_ADDR_MASK) (Z.land (hs_iova segs.1) ANE_H16_RVBAR_ADDR_MASK)) as [Hm|Hm]; cbn [negb].
    + apply Hrel; [done|done|done|]. exists [Rd64 (so_rvbar s) rv]. split; [done|]. exists rv. left. by split.
    + cbn [twp boot_unmap]. split; [done|]. split; [done|]. left. split; [done|].
      eapply (Href (ane_h16_unmap_stage segs i2) _ EBUSY "rvbar-latched"%string); [done|done|done|done|].
      exists [Rd64 (so_rvbar s) rv]. split; [rewrite app_assoc; done|by repeat constructor].
Qed.
End boot.

(** ** Power *)

(** What the kernel holds is what the driver recorded. *)
Definition pm_inv (p : power) : Prop :=
  (forall i, i ∈ p_attached p -> exists b, (i, b) ∈ p_pds p) /\ (forall i, i ∈ p_links p -> (i, true) ∈ p_pds p) /\
  p_windows p = b2z (p_engine p) + b2z (p_pmgr p).

Lemma elem_of_remove (i j : Z) l : j ∈ List.remove Z.eq_dec i l <-> j ∈ l /\ j <> i.
Proof.
  rewrite !list_elem_of_In. split; [apply List.in_remove|]. intros [H1 H2]. by apply List.in_in_remove.
Qed.

Lemma detach_from_spec pds p :
  p_pds (detach_from pds p) = p_pds p /\ p_engine (detach_from pds p) = p_engine p /\ p_pmgr (detach_from pds p) = p_pmgr p /\
  p_windows (detach_from pds p) = p_windows p /\ p_rpm (detach_from pds p) = p_rpm p /\ p_usage (detach_from pds p) = p_usage p /\
  (forall j, j ∈ p_attached (detach_from pds p) -> j ∈ p_attached p /\ forall b, (j, b) ∉ pds) /\
  (forall j, j ∈ p_links (detach_from pds p) -> j ∈ p_links p /\ (j, true) ∉ pds).
Proof.
  revert p. induction pds as [|[i link] pds IH]; intros p; cbn [detach_from].
  { do 6 (split; [done|]). split; intros j Hj; (split; [done|]); intros; apply not_elem_of_nil. }
  set (q := Power _ _ _ _ _ _ _ _). destruct (IH q) as (H1 & H2 & H3 & H4 & H5 & H6 & H7 & H8).
  do 6 (split; [done|]). split.
  - intros j Hj. destruct (H7 j Hj) as [Hq Hn]. cbn [q p_attached] in Hq. apply elem_of_remove in Hq as [Hq Hne].
    split; [done|]. intros b [[= -> ->]|Hin]%elem_of_cons; [done|]. by apply (Hn b).
  - intros j Hj. destruct (H8 j Hj) as [Hq Hn]. cbn [q p_links] in Hq. split.
    + destruct link; [|done]. by apply elem_of_remove in Hq as [Hq _].
    + intros [[= -> <-]|Hin]%elem_of_cons; [|done]. by apply elem_of_remove in Hq as [_ Hq].
Qed.

Lemma no_elements {A} (l : list A) : (forall x, x ∉ l) -> l = [].
Proof. destruct l as [|x l]; [done|]. intros H. destruct (H x). left. Qed.

Lemma detach_pds_spec p :
  pm_inv p -> ane_h16_detach_pds p = Power [] (p_engine p) (p_pmgr p) [] [] (p_windows p) (p_rpm p) (p_usage p).
Proof.
  intros (H1 & H2 & _). unfold ane_h16_detach_pds.
  destruct (detach_from_spec (rev (p_pds p)) p) as (_ & -> & -> & -> & -> & -> & H7 & H8). f_equal; apply no_elements; intros j Hj.
  - destruct (H7 j Hj) as [Ha Hn]. destruct (H1 j Ha) as [b Hb]. apply (Hn b). rewrite list_elem_of_In -List.in_rev -list_elem_of_In; done.
  - destruct (H8 j Hj) as [Ha Hn]. apply Hn. rewrite list_elem_of_In -List.in_rev -list_elem_of_In. by apply H2.
Qed.

(** Everything given back. *)
Definition power_down (p : power) : power := ane_h16_detach_pds (ane_h16_unmap (set_rpm false p)).

Lemma power_down_spec p : pm_inv p -> p_usage p = 0 -> power_down p = power0.
Proof.
  intros (H1 & H2 & H3) Hu. unfold power_down. rewrite detach_pds_spec; [|split; [done|]; split; [done|]; cbn; lia].
  unfold power0. cbn. rewrite Hu. f_equal. lia.
Qed.

Lemma attach_from_spec e ids p :
  pm_inv p -> p_engine p = false -> p_pmgr p = false -> p_usage p = 0 -> p_rpm p = false ->
  let '(p', r) := attach_from e ids p in
  match r with
  | None => pm_inv p' /\ p_engine p' = false /\ p_pmgr p' = false /\ p_usage p' = 0 /\ p_rpm p' = false
  | Some _ => p' = power0
  end.
Proof.
  revert p. induction ids as [|i ids IH]; intros p Hp He Hg Hu Hr; cbn [attach_from]; [done|].
  assert (forall q, pm_inv q -> p_engine q = false -> p_pmgr q = false -> p_usage q = 0 -> p_rpm q = false -> ane_h16_detach_pds q = power0) as Hd.
  { intros q Hq E1 E2 E3 E4. rewrite detach_pds_spec; [|done]. destruct Hq as (_ & _ & Hw). rewrite E1 E2 in Hw. rewrite E1 E2 E3 E4 Hw. done. }
  unfold attach_pd. destruct (e_pd_attach e i) as [err|]; [by apply Hd|].
  set (q := Power _ _ _ _ _ _ _ _).
  assert (pm_inv q) as Hq.
  { destruct Hp as (H1 & H2 & H3). split; [|split; [|done]]; intros j Hj; cbn [q p_attached p_links p_pds] in *.
    - apply elem_of_cons in Hj as [->|Hj]; [exists (e_pd_link e i); set_solver|]. destruct (H1 j Hj) as [b Hb]. exists b. set_solver.
    - destruct (e_pd_link e i); [apply elem_of_cons in Hj as [->|Hj]; [set_solver|]|]; specialize (H2 j Hj); set_solver. }
  destruct (e_pd_link e i); [by apply IH|by apply Hd].
Qed.

Lemma attach_pds_spec e :
  let '(p', r) := ane_h16_attach_pds e power0 in
  match r with
  | None => pm_inv p' /\ p_engine p' = false /\ p_pmgr p' = false /\ p_usage p' = 0 /\ p_rpm p' = false
  | Some _ => p' = power0
  end.
Proof.
  assert (pm_inv power0) as H0 by (split; [|split; [|done]]; intros i Hi; by apply elem_of_nil in Hi).
  unfold ane_h16_attach_pds. destruct (_ <=? 1); [done|]. destruct (_ >? _); [done|]. by apply attach_from_spec.
Qed.

Lemma map_windows_spec e p :
  pm_inv p -> p_engine p = false -> p_pmgr p = false -> p_usage p = 0 -> p_rpm p = false ->
  let '(p', r) := ane_h16_map e p in
  match r with
  | None => pm_inv p' /\ p_engine p' = true /\ p_pmgr p' = true /\ p_usage p' = 0 /\ p_rpm p' = false
  | Some _ => ane_h16_detach_pds p' = power0
  end.
Proof.
  intros (H1 & H2 & H3) He Hg Hu Hr. rewrite He Hg in H3. unfold ane_h16_map. destruct (e_reg_names e); cbn [negb].
  - destruct (e_iomap_engine e), (e_iomap_pmgr e); cbn [negb orb];
      [split; [split; [done|split; [done|cbn; rewrite H3; done]]|done]|..];
      (rewrite detach_pds_spec; [|split; [done|split; [done|cbn; rewrite H3; done]]]); cbn; by rewrite Hu Hr H3.
  - rewrite detach_pds_spec; [|split; [done|split; [done|by rewrite He Hg]]]. by rewrite He Hg Hu Hr H3.
Qed.

(** ** Probe *)

Section probe.
Context `{HI : Iommu} `{HL : !IommuLaws 14} {HC : DmaCoherent} `{HD : !DmaLaws}.
Context {HM : IommuCore} `{HML : !IommuCoreLaws} {HW : Machine} (sha256 : bytes -> bytes).

(** A fresh device over a domain. *)
Definition h16_fresh (d0 : domain) : h16 := H16 [] power0 (Image d0 false None 0 0 false) false false false.

(** After a probe. *)
Definition after_probe (e : h16_env) (s : ane_h16_soc) (d0 : domain) (x' : h16) (r : option errno) : Prop :=
  i_fw (x_img x') = false /\ gated (so_ps_off s) (x_log x') /\
  (if x_touched x' then
     pm_inv (x_pm x') /\ p_engine (x_pm x') = true /\ p_pmgr (x_pm x') = true /\ p_rpm (x_pm x') = true /\ p_usage (x_pm x') = 0 /\
     exists x, x_started x = false /\ gate (so_ps_off s) (x_log x) /\ booted sha256 e s x x' r /\
       ext behind (x_log x) (x_log x')
   else
     Forall (fun e => is_write e = false) (x_log x') /\ i_cpu (x_img x') = None /\ left_as e s d0 (i_dom (x_img x')) /\
     x_started x' = false /\ (r <> None -> x_pm x' = power0) /\ power_down (x_pm x') = power0).

Lemma probe_powered_spec e s d0 idx x :
  h16_world e s -> x_img x = Image d0 false None 0 0 false -> x_log x = [] -> x_touched x = false -> x_started x = false ->
  pm_inv (x_pm x) -> p_engine (x_pm x) = true -> p_pmgr (x_pm x) = true -> p_rpm (x_pm x) = true -> p_usage (x_pm x) = 1 ->
  twp (probe_powered sha256 e s idx x) (fun '(x', r) => after_probe e s d0 x' r).
Proof using HD HL HML.
  intros W Hi Hlog Ht Hst Hp P1 P2 P3 P4. unfold probe_powered. destruct (ps_wait_spec s (x_log x)) as [Hps Hgate].
  assert (pm_inv (add_usage (-1) (x_pm x))) as Hp'.
  { destruct Hp as (H1 & H2 & H3). split; [done|]. by split. }
  assert (power_down (add_usage (-1) (x_pm x)) = power0) as Hdown by (apply power_down_spec; [done|cbn; lia]).
  destruct (ane_h16_ps_wait s (x_log x)) as [h [err|]]; cbn [fst snd] in *; destruct Hps as (d & -> & Hd); rewrite Hlog app_nil_l in Hgate |- *.
  - cbn [twp]. unfold rpm_off. cbn [x_touched add_result set_log set_pm]. rewrite Ht. cbn [twp].
    split; [cbn; by rewrite Hi|]. split.
    + apply gated_off. cbn. apply Forall_app. split; [|by constructor]. eapply Forall_impl; [exact Hd|]. by intros [].
    + cbn. rewrite Ht. split; [apply Forall_app; split; [|by constructor]; eapply Forall_impl; [exact Hd|]; by intros []|].
      rewrite Hi. split; [done|]. split; [intros j; by left|]. split; [done|]. split; [done|].
      change (ane_h16_detach_pds (ane_h16_unmap (set_rpm false (add_usage (-1) (x_pm x))))) with (power_down (add_usage (-1) (x_pm x))).
      by rewrite Hdown.
  - assert (Forall (fun e => is_engine e = false) d) as Hd' by (eapply Forall_impl; [exact Hd|]; by intros []).
    assert (gated (so_ps_off s) d) as Hg0 by (by apply gated_off).
    pose proof (status_quiet s (e_read_scratch e) d) as Hq. set (h1 := ane_h16_status s (e_read_scratch e) d) in *.
    destruct (ext_gated quiet (so_ps_off s) d h1 ltac:(by intros []) Hg0 Hgate Hq) as [Hg1 Hgate1].
    assert (Forall (fun e => is_write e = false) h1) as Hw1.
    { destruct Hq as (d1 & -> & Hd1). apply Forall_app. split; [eapply Forall_impl; [exact Hd|]; by intros []|].
      eapply Forall_impl; [exact Hd1|]. by intros []. }
    destruct (idx =? 1).
    { cbn [twp]. split; [cbn; by rewrite Hi|]. cbn. rewrite Ht. split.
      - apply (ext_gated behind (so_ps_off s) h1); [by intros []|done|done|]. exists [Result 1 "PASS" "ps-guard+reads"]. split; [done|by constructor].
      - split; [apply Forall_app; split; [done|by constructor]|]. rewrite Hi. split; [done|]. split; [intros j; by left|]. by split_and!. }
    apply twp_bind. set (x1 := set_log h1 x). assert (x_img x1 = x_img x) as Ei by done.
    eapply twp_mono; [apply (boot_spec sha256 e s x1); rewrite ?Ei ?Hi; done|].
    intros [x2 r] (Epm & Efw & Hcase). cbn [twp]. unfold rpm_off.
    assert (x_touched (set_pm (add_usage (-1) (x_pm x2)) x2) = x_touched x2) as -> by done. rewrite Epm.
    destruct Hcase as [[Ht2 (Hr & Hc & Hs & Hst2 & dl & v & Hl & Hdl)]|[Ht2 Hb]]; rewrite Ht2.
    + destruct r as [err|]; [|done]. cbn [twp]. split; [done|].
      assert (x_log x2 = h1 ++ dl ++ [Result 3 "REFUSED" v]) as Hl2 by done.
      split.
      * cbn. rewrite Hl2. apply (ext_gated behind (so_ps_off s) h1); [by intros []|done|done|].
        eexists. split; [done|]. apply Forall_app. split; [|by constructor]. eapply Forall_impl; [exact Hdl|]. apply quiet_behind.
      * cbn [x_touched x_log x_img x_pm x_started set_pm]. rewrite Ht2 Hl2. split.
        { apply Forall_app. split; [done|]. apply Forall_app. split; [|by constructor]. eapply Forall_impl; [exact Hdl|]. by intros []. }
        split; [done|]. split; [intros j; specialize (Hs j); by rewrite Ei Hi in Hs|]. split; [by rewrite Hst2|]. split; [done|].
        fold (power_down (add_usage (-1) (x_pm x1))). change (x_pm x1) with (x_pm x). by rewrite Hdown.
    + assert (exists dl, x_log x2 = h1 ++ dl /\ Forall (fun e => behind e = true) dl) as (dl & Hl2 & Hdl).
      { destruct Hb as (segs & fw & buf & l & d2 & vd & rs & _ & _ & _ & _ & _ & Hl & Hrv & Hd2 & _).
        eexists. split; [exact Hl|]. apply Forall_app. split.
        - destruct Hrv as (v & [[-> _]|[-> _]]); by repeat constructor.
        - apply Forall_app. split; [by repeat constructor|]. apply Forall_app. split; [|by constructor].
          eapply Forall_impl; [exact Hd2|]. apply io_behind. }
      assert (after_probe e s d0 (set_pm (add_usage (-1) (x_pm x1)) x2) r) as Hfin.
      { split; [done|]. split.
        - cbn. rewrite Hl2. apply (ext_gated behind (so_ps_off s) h1); [by intros []|done|done|by exists dl].
        - cbn [x_touched set_pm]. rewrite Ht2. split; [done|]. cbn. split; [done|]. split; [done|]. split; [done|]. split; [lia|].
          exists x1. split; [done|]. split; [done|]. split; [exact Hb|]. by exists dl. }
      by destruct r.
Qed.

Lemma stage_dt_total e s x : h16_world e s -> ane_h16_stage_dt e s x = Ret (add_result 0 "PASS" "dt-parse-only" x).
Proof using Type.
  intros W. unfold ane_h16_stage_dt. set (m := match ane_h16_adt_open _ with inl _ => _ | inr _ => _ end).
  assert (twp m (fun _ => True)) as Hm; [|destruct m; done]. subst m.
  destruct (ane_h16_adt_open (e_nodes e)) as [|b] eqn:Eo; [done|]. pose proof (adt_open_len _ _ (w_nodes _ _ W) Eo) as Hlen.
  apply twp_bind. eapply twp_mono; [by apply find_ane_safe|]. intros [err|n] Hn; [done|]. apply twp_bind.
  eapply twp_mono; [apply adt_prop_safe; [done|lia]|]. intros [err|[d size]] Hp; [done|]. apply twp_bind.
  destruct Hp as (H0 & H1 & H2). pose proof (seg_decode_enc b d (slice b d size)) as Hd.
  rewrite zlen_slice in Hd; [|lia..]. rewrite Hd; [done|by apply at_slice].
Qed.

(** Stages and keys that leave the hardware alone. *)
Definition silent_run (e : h16_env) (s : ane_h16_soc) : Prop :=
  e_optin e <> Some (so_name s) \/ e_ane_type e <> Some (so_ane_type s) \/ e_confirm_read e = false \/
  ane_h16_stage_idx (e_stage e) = Some 0 \/ ane_h16_stage_idx (e_stage e) = None.

Lemma probe_spec e s d0 :
  h16_world e s ->
  twp (ane_h16_probe sha256 e s (h16_fresh d0)) (fun '(x', r) => after_probe e s d0 x' r /\
    (silent_run e s -> x_pm x' = power0 /\ Forall (fun e => is_result e = true) (x_log x')) /\
    (ane_h16_stage_idx (e_stage e) <> Some 3 -> x_touched x' = false)).
Proof using HD HL HML.
  intros W. assert (power_down power0 = power0) as H00 by (vm_compute; done).
  assert (forall l r, Forall (fun e => is_result e = true) l ->
    let x' := set_log l (h16_fresh d0) in
    after_probe e s d0 x' r /\ (silent_run e s -> x_pm x' = power0 /\ Forall (fun e => is_result e = true) (x_log x')) /\
    (ane_h16_stage_idx (e_stage e) <> Some 3 -> x_touched x' = false)) as Hid.
  { intros l r Hl. cbv zeta. split; [|by split]. split; [done|]. split.
    - apply gated_off. eapply Forall_impl; [exact Hl|]. by intros [].
    - cbn. split; [eapply Forall_impl; [exact Hl|]; by intros []|]. split; [done|]. split; [intros j; by left|]. by split_and!. }
  unfold ane_h16_probe. destruct (bool_decide (e_optin e = Some (so_name s))) eqn:Eo; cbn [negb]; [|by apply (Hid [] _ (Forall_nil_2 _))].
  destruct (bool_decide (e_ane_type e = Some (so_ane_type s))) eqn:Et; cbn [negb]; [|by apply (Hid [] _ (Forall_nil_2 _))].
  apply bool_decide_eq_true in Eo, Et.
  destruct (ane_h16_stage_idx (e_stage e)) as [idx|] eqn:Ei; [|by apply (Hid [] _ (Forall_nil_2 _))].
  destruct (e_kzalloc e); cbn [negb]; [|by apply (Hid [] _ (Forall_nil_2 _))].
  destruct (Z.eqb_spec idx 0) as [->|Hidx].
  { rewrite (stage_dt_total e s _ W). cbn [mbind res_bind]. apply (Hid [_]). by constructor. }
  destruct (e_confirm_read e) eqn:Ec; cbn [negb]; [|apply (Hid [_]); by constructor].
  assert (~ silent_run e s) as Hns by (intros [?|[?|[?|[?|?]]]]; congruence).
  assert (forall p r, p = power0 -> after_probe e s d0 (set_pm p (h16_fresh d0)) r) as Hback.
  { intros p r ->. destruct (Hid [] r (Forall_nil_2 _)) as [H _]. exact H. }
  pose proof (attach_pds_spec e) as Ha. cbn [x_pm h16_fresh]. destruct (ane_h16_attach_pds e power0) as [p1 [err|]].
  { cbn [twp]. split; [by apply Hback|]. by split. }
  destruct Ha as (A1 & A2 & A3 & A4 & A5). pose proof (map_windows_spec e p1 A1 A2 A3 A4 A5) as Hm.
  destruct (ane_h16_map e p1) as [p2 [err|]].
  { cbn [twp]. split; [by apply Hback|]. by split. }
  destruct Hm as (B1 & B2 & B3 & B4 & B5). cbv zeta. set (p3 := add_usage 1 (set_rpm true p2)).
  assert (pm_inv p3) as Hp3 by (destruct B1 as (? & ? & ?); split; [done|by split]).
  assert (twp (probe_powered sha256 e s idx (set_pm p3 (h16_fresh d0))) (fun '(x', r) => after_probe e s d0 x' r /\
    (silent_run e s -> x_pm x' = power0 /\ Forall (fun e => is_result e = true) (x_log x')) /\
    (Some idx <> Some 3 -> x_touched x' = false))) as Hpow.
  { pose proof (probe_powered_spec e s d0 idx (set_pm p3 (h16_fresh d0)) W) as Hpp.
    assert (idx = 1 \/ idx = 3) as Hi13.
    { unfold ane_h16_stage_idx in Ei. repeat (destruct (_ || _) in Ei; [by injection Ei; auto|]). done. }
    assert (twp (probe_powered sha256 e s idx (set_pm p3 (h16_fresh d0))) (fun '(x', r) => after_probe e s d0 x' r)) as Hpp'.
    { apply Hpp; try done. change (p_usage p2 + 1 = 1). by rewrite B4. }
    assert (idx = 1 -> twp (probe_powered sha256 e s idx (set_pm p3 (h16_fresh d0))) (fun '(x', r) => x_touched x' = false)) as Hst.
    { intros ->. unfold probe_powered. destruct (ane_h16_ps_wait _ _) as [h [err|]]; done. }
    destruct Hi13 as [-> | ->].
    - specialize (Hst eq_refl). destruct (probe_powered sha256 e s 1 _) as [[x' r]| |]; by split_and?.
    - destruct (probe_powered sha256 e s 3 _) as [[x' r]| |]; by split_and?. }
  destruct (e_get_sync e) as [err|]; [|exact Hpow]. destruct (_ && _); [exact Hpow|]. cbn [twp].
  split; [|by split]. apply Hback. fold (power_down (add_usage (-1) p3)). apply power_down_spec.
  - destruct Hp3 as (? & ? & ?). split; [done|by split].
  - change (p_usage p2 + 1 + -1 = 0). by rewrite B4.
Qed.

(** The accesses of a boot that returns, whatever it was given. *)
Lemma boot_log e s x x' r : ane_h16_boot sha256 e s x = Ret (x', r) -> ext behind (x_log x) (x_log x').
Proof using Type.
  assert (forall h h' st v w, ext behind h h' -> ext behind h (ane_h16_result h' st v w)) as Hres.
  { intros. by apply ext_snoc. }
  assert (forall x1, ext behind (x_log x) (x_log x1) -> boot_release e s x1 = Ret (x', r) ->
    ext behind (x_log x) (x_log x')) as Hrel.
  { intros x1 H1 (d & v & w & -> & Hd & _)%boot_release_log. eapply ext_trans; [exact H1|]. eexists. split; [done|].
    apply Forall_app. split; [by repeat constructor|]. apply Forall_app. split; [|by repeat constructor].
    eapply Forall_impl; [exact Hd|]. apply io_behind. }
  unfold ane_h16_boot. intros H. apply bind_Ret_inv in H as (rs & _ & H). destruct rs as [err|segs].
  { injection H as <- _. apply Hres, ext_refl. }
  destruct (ane_h16_fw_pin sha256 e (so_fw s)) as [err|fw]; [injection H as <- _; apply Hres, ext_refl|].
  apply bind_Ret_inv in H as ([i1 r1] & _ & H). cbv beta iota zeta in H.
  destruct r1 as [err|]; [injection H as <- _; apply Hres, ext_refl|].
  apply bind_Ret_inv in H as ([i2 r2] & _ & H). cbv beta iota zeta in H.
  destruct r2 as [err|]; [injection H as <- _; apply Hres, ext_refl|].
  unfold ane_h16_rd64 in H. cbv beta iota zeta in H. set (rv := u64 _) in H.
  destruct (negb (Z.land rv 1 =? 0)).
  - destruct (negb _).
    + injection H as <- _. apply Hres. by apply ext_snoc; [apply ext_refl|].
    + eapply Hrel; [|exact H]. by apply ext_snoc; [apply ext_refl|].
  - eapply Hrel; [|exact H]. apply ext_snoc; [|done]. by apply ext_snoc; [apply ext_refl|].
Qed.

Lemma Ret_inj {A} (a b : A) : Ret a = Ret b -> a = b.
Proof using Type. by intros [= ->]. Qed.

Lemma rpm_off_log r x : x_log (rpm_off r x).1 = x_log x.
Proof using Type. unfold rpm_off. destruct r; [|done]. cbn. by destruct (x_touched x). Qed.

Lemma probe_powered_log e s idx x x' r :
  x_log x = [] -> probe_powered sha256 e s idx x = Ret (x', r) ->
  gated (so_ps_off s) (x_log x') /\ (idx = 1 -> Forall (fun e => is_write e = false) (x_log x')).
Proof using Type.
  intros Hlog. unfold probe_powered. destruct (ps_wait_spec s (x_log x)) as [Hps Hgate].
  destruct (ane_h16_ps_wait s (x_log x)) as [h [err|]]; cbn [fst snd] in *; destruct Hps as (d & -> & Hd);
    rewrite Hlog app_nil_l in Hgate |- *.
  - intros H. assert (x_log x' = d ++ [Result 1 "FAIL" "pmgr-actual-stuck"]) as ->.
    { apply Ret_inj in H. pose proof (rpm_off_log (Some err) (add_result 1 "FAIL" "pmgr-actual-stuck" (set_log d x))) as E.
      by rewrite H in E. }
    split; [apply gated_off|intros _]; (apply Forall_app; split; [|by constructor]); (eapply Forall_impl; [exact Hd|]); by intros [].
  - assert (gated (so_ps_off s) d) as Hg0.
    { apply gated_off. eapply Forall_impl; [exact Hd|]. by intros []. }
    pose proof (status_quiet s (e_read_scratch e) d) as Hq. set (h1 := ane_h16_status s (e_read_scratch e) d) in *.
    destruct (ext_gated quiet (so_ps_off s) d h1 ltac:(by intros []) Hg0 Hgate Hq) as [Hg1 Hgate1].
    destruct (Z.eqb_spec idx 1) as [->|Hne].
    + intros H. apply Ret_inj in H. pose proof (rpm_off_log None (add_result 1 "PASS" "ps-guard+reads" (set_log h1 x))) as E.
      rewrite H in E. cbn in E. rewrite E. split.
      * apply (ext_gated behind (so_ps_off s) h1); [by intros []|done|done|]. by apply ext_snoc; [apply ext_refl|].
      * intros _. apply Forall_app. split; [|by constructor]. destruct Hq as (d1 & -> & Hd1).
        apply Forall_app. split; [eapply Forall_impl; [exact Hd|]; by intros []|eapply Forall_impl; [exact Hd1|]; by intros []].
    + intros H. apply bind_Ret_inv in H as ([x2 r2] & Hb & H). apply boot_log in Hb.
      assert (x_log x' = x_log x2) as ->.
      { apply Ret_inj in H. rewrite -(rpm_off_log r2 x2) H. done. }
      split; [|done]. apply (ext_gated behind (so_ps_off s) h1); [by intros []|done|done|exact Hb].
Qed.

(** The log of any probe that returns. *)
Lemma probe_log e s d0 x' r :
  ane_h16_probe sha256 e s (h16_fresh d0) = Ret (x', r) ->
  gated (so_ps_off s) (x_log x') /\
  (silent_run e s -> Forall (fun e => is_result e = true) (x_log x')) /\
  (ane_h16_stage_idx (e_stage e) <> Some 3 -> Forall (fun e => is_write e = false) (x_log x')).
Proof using Type.
  assert (forall l, Forall (fun e => is_result e = true) l ->
    gated (so_ps_off s) l /\ (silent_run e s -> Forall (fun e => is_result e = true) l) /\
    (ane_h16_stage_idx (e_stage e) <> Some 3 -> Forall (fun e => is_write e = false) l)) as Hl.
  { intros l Hl. split; [apply gated_off; eapply Forall_impl; [exact Hl|]; by intros []|]. split; [done|].
    intros _. eapply Forall_impl; [exact Hl|]. by intros []. }
  assert (Forall (fun e => is_result e = true) []) as Hnil by constructor.
  unfold ane_h16_probe. destruct (bool_decide (e_optin e = Some (so_name s))) eqn:Eo; cbn [negb]; [|intros [= <- _]; by apply Hl].
  destruct (bool_decide (e_ane_type e = Some (so_ane_type s))) eqn:Et; cbn [negb]; [|intros [= <- _]; by apply Hl].
  apply bool_decide_eq_true in Eo, Et.
  destruct (ane_h16_stage_idx (e_stage e)) as [idx|] eqn:Ei; [|intros [= <- _]; by apply Hl].
  destruct (e_kzalloc e); cbn [negb]; [|intros [= <- _]; by apply Hl].
  destruct (Z.eqb_spec idx 0) as [->|Hidx].
  { intros H. apply bind_Ret_inv in H as (x1 & H1 & [= <- _]). unfold ane_h16_stage_dt in H1.
    apply bind_Ret_inv in H1 as (u & _ & [= <-]). apply Hl. by repeat constructor. }
  destruct (e_confirm_read e) eqn:Ec; cbn [negb]; [|intros [= <- _]; apply Hl; by repeat constructor].
  assert (~ silent_run e s) as Hns by (intros [?|[?|[?|[?|?]]]]; congruence).
  assert (idx = 1 \/ idx = 3) as Hi13.
  { unfold ane_h16_stage_idx in Ei. repeat (destruct (_ || _) in Ei; [by injection Ei; auto|]). done. }
  assert (forall x, x_log x = [] -> probe_powered sha256 e s idx x = Ret (x', r) ->
    gated (so_ps_off s) (x_log x') /\ (silent_run e s -> Forall (fun e => is_result e = true) (x_log x')) /\
    (Some idx <> Some 3 -> Forall (fun e => is_write e = false) (x_log x'))) as Hpow.
  { intros x Hx [Hg Hw]%probe_powered_log; [|done]. split; [done|]. split; [done|]. intros Hne. apply Hw.
    destruct Hi13 as [->| ->]; [done|congruence]. }
  destruct (ane_h16_attach_pds _ _) as [p1 [err|]]; [intros [= <- _]; by apply Hl|].
  destruct (ane_h16_map e p1) as [p2 [err|]]; [intros [= <- _]; by apply Hl|]. cbv zeta.
  destruct (e_get_sync e) as [err|]; [|by apply Hpow]. destruct (_ && _); [by apply Hpow|].
  intros [= <- _]. by apply Hl.
Qed.

(** C24. In every probe that returns, whatever the machine, the device tree
    and the files answer, every access to the engine window comes after a pass
    in which all five power words read fully on, with no power word read since;
    without the opt-in key, the read confirmation or a stage that needs it no
    register is touched at all, and below the boot stage none is written. The
    probe returns when mappings have the bytes asked for, the segments of the
    tree are whole pages with a data segment of at most 4 GiB less one word,
    and the firmware posts finitely many messages ([h16_world]); a firmware
    that never stops posting, or a larger data segment, can keep it in a
    loop. *)
Theorem h16_probe_gated e s d0 :
  (forall x' r, ane_h16_probe sha256 e s (h16_fresh d0) = Ret (x', r) ->
    gated (so_ps_off s) (x_log x') /\
    (silent_run e s -> Forall (fun e => is_result e = true) (x_log x')) /\
    (ane_h16_stage_idx (e_stage e) <> Some 3 -> Forall (fun e => is_write e = false) (x_log x'))) /\
  (h16_world e s -> exists x' r, ane_h16_probe sha256 e s (h16_fresh d0) = Ret (x', r)).
Proof using HD HL HML.
  split; [intros x' r; apply probe_log|].
  intros W. pose proof (probe_spec e s d0 W) as H. apply twp_ex in H as ([x' r] & Hr & _). by exists x', r.
Qed.


End probe.

(** ** The RTKit handshake *)

(** The fields of a management message, and what it is answered with: the
    type in bits 52 to 59 over the payload. *)
Definition msg_field (lo w msg : Z) : Z := msg / 2 ^ lo mod 2 ^ w.

Definition mgmt_message (type payload : Z) : Z := type * 2 ^ 52 + payload.

Definition mgmt_replies (msg : Z) : list Z :=
  let base := msg_field 32 3 msg in
  match msg_field 52 8 msg with
  | 1 =>                                                (* HELLO, with the lowest and highest version *)
      let v := Z.min (msg_field 16 16 msg) 2 in
      if 2 <? msg_field 0 16 msg then [] else [mgmt_message 2 (v * 2 ^ 16 + v)]
  | 8 =>                                                (* a part of the endpoint map *)
      if Z.testbit msg 51 then
        mgmt_message 8 (2 ^ 51 + base * 2 ^ 32) ::
        map (fun ep => mgmt_message 5 ((32 * base + ep) * 2 ^ 32 + 2))
          (List.filter (fun ep => Z.testbit msg ep && bool_decide (32 * base + ep ∈ [1; 2; 3; 4; 8; 10])) (seqZ 0 32))
      else [mgmt_message 8 (base * 2 ^ 32 + 1)]
  | 6 => [mgmt_message 7 (msg_field 0 16 msg)]          (* a power state *)
  | _ => []
  end.

Definition is_hello (m : Z * Z) : bool := (m.2 =? 0) && (msg_field 52 8 m.1 =? 1).

(** The endpoints that are serviced, and the messages sent for one. *)
Definition serviced (ep : Z) : bool := (ep =? 0) || (ep =? 1) || (ep =? 4).

Definition answers (m : Z * Z) : list (Z * Z) :=
  if m.2 =? 0 then map (fun w => (w, 0)) (mgmt_replies m.1) else if serviced m.2 then [m] else [].

Lemma field_get_eq lo w v : 0 <= lo -> 0 <= w -> FIELD_GET (lo, w) v = msg_field lo w v.
Proof.
  intros Hlo Hw. unfold FIELD_GET, fld_mask, msg_field. cbn [fst snd]. rewrite Z.shiftr_land Z.shiftr_shiftl_l; [|done].
  rewrite Z.sub_diag Z.shiftl_0_r Z.land_ones; [|done]. by rewrite Z.shiftr_div_pow2.
Qed.

Lemma field_prep_eq lo w v : 0 <= lo -> 0 <= v < 2 ^ w -> FIELD_PREP (lo, w) v = Z.shiftl v lo.
Proof.
  intros Hlo Hv. assert (0 <= w) as Hw by (destruct (Z.lt_ge_cases w 0); [rewrite Z.pow_neg_r in Hv; lia|done]).
  unfold FIELD_PREP, fld_mask. cbn [fst snd]. rewrite -Z.shiftl_land Z.land_ones; [|done]. by rewrite Z.mod_small.
Qed.

Lemma msg_field_range lo w v : 0 <= w -> 0 <= msg_field lo w v < 2 ^ w.
Proof. intros Hw. apply Z.mod_pos_bound. by apply Z.pow_pos_nonneg. Qed.

Lemma mgmt_word_eq type msg : 0 <= type < 2 ^ 8 -> 0 <= msg < 2 ^ 52 -> mgmt_word type msg = mgmt_message type msg.
Proof.
  intros Ht Hm. unfold mgmt_word, mgmt_message. rewrite (field_prep_eq 52 8); [|done..].
  assert (Z.land msg (Z.lxor U64_MAX (fld_mask ANE_H16_MGMT_TYPE)) = msg) as ->.
  { change (Z.lxor U64_MAX (fld_mask ANE_H16_MGMT_TYPE)) with (Z.lor (2 ^ 52 - 1) (Z.shiftl 0xf 60)).
    rewrite Z.land_lor_distr_r land_mask_mod; [|done]. rewrite Z.mod_small; [|done].
    rewrite (land_shiftl_disjoint _ _ 60); [|done|lia]. apply Z.lor_0_r. }
  rewrite lor_shiftl_add; [lia|done..].
Qed.

Lemma hello_reply_eq v : 0 <= v <= 2 -> hello_reply v = v * 2 ^ 16 + v.
Proof.
  intros Hv. unfold hello_reply. rewrite (field_prep_eq 0 16) ?(field_prep_eq 16 16); [|lia..].
  rewrite Z.shiftl_0_r lor_shiftl_add; lia.
Qed.

Lemma startep_word_eq e : 0 <= e < 2 ^ 8 -> startep_word e = e * 2 ^ 32 + 2.
Proof.
  intros He. unfold startep_word. rewrite (field_prep_eq 32 8); [|done..]. rewrite Z.lor_comm.
  change ANE_H16_MGMT_STARTEP_FLAG with 2. rewrite lor_shiftl_add; lia.
Qed.

Lemma land_bit v n : 0 <= n -> negb (Z.land v (Z.shiftl 1 n) =? 0) = Z.testbit v n.
Proof.
  intros Hn. rewrite Z.shiftl_1_l. destruct (Z.testbit v n) eqn:E.
  - destruct (Z.eqb_spec (Z.land v (2 ^ n)) 0) as [H|]; [|done]. apply (f_equal (fun x => Z.testbit x n)) in H.
    by rewrite Z.land_spec E Z.pow2_bits_true ?Z.testbit_0_l in H.
  - apply negb_false_iff, Z.eqb_eq, Z.bits_inj'. intros i Hi. rewrite Z.land_spec Z.testbit_0_l.
    rewrite Z.pow2_bits_eqb; [|done]. destruct (Z.eqb_spec n i) as [<-|]; [by rewrite E|by rewrite andb_false_r].
Qed.

(** The words as the code builds them. *)
Definition built_replies (msg : Z) : list Z :=
  let type := u8 (FIELD_GET ANE_H16_MGMT_TYPE msg) in
  let base := FIELD_GET ANE_H16_MGMT_EPMAP_BASE msg in
  if type =? ANE_H16_MGMT_HELLO then
    if FIELD_GET ANE_H16_MGMT_HELLO_MINVER msg >? ANE_H16_RTKIT_MAX_VERSION then []
    else [mgmt_word ANE_H16_MGMT_HELLO_REPLY
            (hello_reply (Z.min (FIELD_GET ANE_H16_MGMT_HELLO_MAXVER msg) ANE_H16_RTKIT_MAX_VERSION))]
  else if type =? ANE_H16_MGMT_EPMAP then
    if negb (Z.land msg ANE_H16_MGMT_EPMAP_LAST =? 0) then
      mgmt_word ANE_H16_MGMT_EPMAP_REPLY (Z.lor (FIELD_PREP ANE_H16_MGMT_EPMAP_BASE base) ANE_H16_MGMT_EPMAP_LAST) ::
      map (fun ep => mgmt_word ANE_H16_MGMT_STARTEP (startep_word (u8 (32 * base + ep))))
        (List.filter (fun ep => Z.testbit (FIELD_GET ANE_H16_MGMT_EPMAP_BITMAP msg) ep && system_ep (u8 (32 * base + ep)))
           (seqZ 0 32))
    else
      [mgmt_word ANE_H16_MGMT_EPMAP_REPLY (Z.lor (FIELD_PREP ANE_H16_MGMT_EPMAP_BASE base) ANE_H16_MGMT_EPMAP_REPLY_MORE)]
  else if type =? ANE_H16_MGMT_SET_IOP_PWR_STATE then
    [mgmt_word ANE_H16_MGMT_SET_IOP_PWR_STATE_ACK
       (FIELD_PREP ANE_H16_MGMT_PWR_STATE (FIELD_GET ANE_H16_MGMT_PWR_STATE msg))]
  else [].

Lemma mgmt_type_eq msg : u8 (FIELD_GET ANE_H16_MGMT_TYPE msg) = msg_field 52 8 msg.
Proof. rewrite (field_get_eq 52 8); [|done..]. apply wrap_small. by apply (msg_field_range 52 8). Qed.

Lemma match_types {A} ty (a b c d : A) :
  match ty with 1 => a | 8 => b | 6 => c | _ => d end = if ty =? 1 then a else if ty =? 8 then b else if ty =? 6 then c else d.
Proof. destruct ty as [|p|p]; try done. do 4 (destruct p as [p|p|]; try reflexivity). Qed.

Lemma system_ep_eq e : 0 <= e < 2 ^ 8 -> system_ep e = bool_decide (e ∈ [1; 2; 3; 4; 8; 10]).
Proof.
  intros He. assert (Forall (fun e => system_ep e = bool_decide (e ∈ [1; 2; 3; 4; 8; 10])) (seqZ 0 (2 ^ 8))) as Hall by vm_decide.
  rewrite Forall_forall in Hall. apply Hall, elem_of_seqZ. lia.
Qed.

Lemma epmap_reply_eq base :
  0 <= base < 2 ^ 3 ->
  Z.lor (FIELD_PREP ANE_H16_MGMT_EPMAP_BASE base) ANE_H16_MGMT_EPMAP_LAST = 2 ^ 51 + base * 2 ^ 32 /\
  Z.lor (FIELD_PREP ANE_H16_MGMT_EPMAP_BASE base) ANE_H16_MGMT_EPMAP_REPLY_MORE = base * 2 ^ 32 + 1.
Proof.
  intros Hb. rewrite (field_prep_eq 32 3); [|done..]. split.
  - rewrite Z.shiftl_mul_pow2; [|done]. rewrite (lor_shiftl_add _ _ 51); lia.
  - rewrite Z.lor_comm lor_shiftl_add; [|done|done]. change ANE_H16_MGMT_EPMAP_REPLY_MORE with 1. lia.
Qed.

Lemma built_replies_eq msg : built_replies msg = mgmt_replies msg.
Proof.
  unfold built_replies, mgmt_replies. rewrite mgmt_type_eq match_types. cbv zeta.
  rewrite (field_get_eq 32 3 msg) ?(field_get_eq 0 16 msg) ?(field_get_eq 16 16 msg); [|done..].
  pose proof (msg_field_range 32 3 msg ltac:(done)) as Hbase. pose proof (msg_field_range 0 16 msg ltac:(done)) as Hlo.
  pose proof (msg_field_range 16 16 msg ltac:(done)) as Hhi.
  destruct (epmap_reply_eq _ Hbase) as [HL HM].
  destruct (_ =? ANE_H16_MGMT_HELLO) eqn:E1.
  { change ANE_H16_RTKIT_MAX_VERSION with 2. change ANE_H16_MGMT_HELLO with 1 in E1. rewrite E1 Z.gtb_ltb.
    destruct (2 <? _); [done|]. rewrite hello_reply_eq; [|lia]. rewrite mgmt_word_eq; [done|done|lia]. }
  change ANE_H16_MGMT_HELLO with 1 in E1. rewrite E1. change ANE_H16_MGMT_EPMAP with 8.
  change ANE_H16_MGMT_SET_IOP_PWR_STATE with 6. destruct (_ =? 8).
  { rewrite HL HM (land_bit msg 51); [|done]. rewrite !mgmt_word_eq; [|done|lia|done|lia]. destruct (Z.testbit msg 51); [|done].
    f_equal. assert (forall ep, ep ∈ seqZ 0 32 -> 0 <= 32 * msg_field 32 3 msg + ep < 2 ^ 8 /\
      Z.testbit (FIELD_GET ANE_H16_MGMT_EPMAP_BITMAP msg) ep = Z.testbit msg ep) as Hep.
    { intros ep Hep%elem_of_seqZ. split; [lia|]. rewrite (field_get_eq 0 32); [|done..]. unfold msg_field.
      rewrite Z.pow_0_r Z.div_1_r. apply Z.mod_pow2_bits_low. lia. }
    rewrite (List.filter_ext_in _ (fun ep => Z.testbit msg ep && bool_decide (32 * msg_field 32 3 msg + ep ∈ [1; 2; 3; 4; 8; 10]))).
    - apply map_ext_in. intros ep [Hin _]%filter_In. apply list_elem_of_In in Hin. destruct (Hep ep Hin) as [Hr _].
      rewrite wrap_small; [|exact Hr]. rewrite startep_word_eq; [|exact Hr]. apply mgmt_word_eq; [done|lia].
    - intros ep Hin%list_elem_of_In. destruct (Hep ep Hin) as [Hr ->]. rewrite wrap_small; [|exact Hr]. by rewrite system_ep_eq. }
  destruct (_ =? 6); [|done]. f_equal. rewrite (field_prep_eq 0 16); [|done|exact Hlo]. rewrite Z.shiftl_0_r.
  apply mgmt_word_eq; [done|lia].
Qed.

Section rtkit.
Context `{HW : Machine} (s : ane_h16_soc).
Implicit Types h d : list ev.

Definition send_events (m : Z * Z) : list ev :=
  [Wr64 (so_mbox s + ANE_H16_MBOX_A2I_SEND0) m.1; Wr64 (so_mbox s + ANE_H16_MBOX_A2I_SEND1) m.2].

(** Reads of the send control word and delays. *)
Definition waiting (e : ev) : bool :=
  match e with Rd32 off _ => off =? so_mbox s + ANE_H16_MBOX_A2I_CTRL | Nap => true | _ => false end.

(** Messages [l] sent one after the other, each behind a wait. *)
Inductive sends : list (Z * Z) -> list ev -> Prop :=
  | sends_nil : sends [] []
  | sends_cons m l w d : Forall (fun e => waiting e = true) w -> sends l d -> sends (m :: l) (w ++ send_events m ++ d).

(** The runs of the poll: received messages and accesses. *)
Inductive handshake : list (Z * Z) -> list ev -> Prop :=
  | hs_start : handshake [] []
  | hs_idle ms d v :
      handshake ms d -> Z.land v ANE_H16_MBOX_CTRL_EMPTY <> 0 -> existsb is_hello ms = false ->
      handshake ms (d ++ [Rd32 (so_mbox s + ANE_H16_MBOX_I2A_CTRL) v; Nap])
  | hs_message ms d v msg w d' :
      handshake ms d -> Z.land v ANE_H16_MBOX_CTRL_EMPTY = 0 -> serviced (u8 w) = true -> sends (answers (msg, u8 w)) d' ->
      handshake (ms ++ [(msg, u8 w)])
        (d ++ [Rd32 (so_mbox s + ANE_H16_MBOX_I2A_CTRL) v; Rd64 (so_mbox s + ANE_H16_MBOX_I2A_RECV0) msg;
               Rd64 (so_mbox s + ANE_H16_MBOX_I2A_RECV1) w] ++ d').

(** The mailbox always takes a message before a wait ends. *)
Definition mbox_ready : Prop := forall h, (mbox_wait s (m_polls h) h).2 = true.

Lemma mbox_wait_waits n h : ext waiting h (mbox_wait s n h).1.
Proof using Type.
  assert (forall v, waiting (Rd32 (so_mbox s + ANE_H16_MBOX_A2I_CTRL) v) = true) as Hw by (intros v; apply Z.eqb_refl).
  revert h. induction n as [|n IH]; intros h; cbn [mbox_wait]; unfold ane_h16_rd32; destruct (_ =? 0); cbn [fst];
    auto with ext.
  eapply ext_trans; [|apply IH]. auto with ext.
Qed.

Definition sent (l : list (Z * Z)) h h' : Prop := exists d, h' = h ++ d /\ sends l d.

Lemma sent_nil h : sent [] h h.
Proof using Type. exists []. rewrite app_nil_r. split; [done|constructor]. Qed.

Lemma sends_app l1 l2 d1 d2 : sends l1 d1 -> sends l2 d2 -> sends (l1 ++ l2) (d1 ++ d2).
Proof using Type.
  induction 1 as [|m l w d Hw _ IH]; intros H2; [done|]. rewrite -!app_assoc. cbn [app]. constructor; auto.
Qed.

Lemma sent_trans l1 l2 h1 h2 h3 : sent l1 h1 h2 -> sent l2 h2 h3 -> sent (l1 ++ l2) h1 h3.
Proof using Type.
  intros (d1 & -> & H1) (d2 & -> & H2). exists (d1 ++ d2). rewrite app_assoc. split; [done|by apply sends_app].
Qed.

Lemma mbox_send_sent h ep msg : mbox_ready -> sent [(msg, ep)] h (ane_h16_mbox_send s h ep msg).1.
Proof using Type.
  intros Hr. unfold ane_h16_mbox_send. specialize (Hr h). pose proof (mbox_wait_waits (m_polls h) h) as (w & Hw & Hf).
  destruct (mbox_wait s (m_polls h) h) as [h' b]. cbn [fst snd] in *. subst b h'. cbn [fst].
  exists (w ++ send_events (msg, ep) ++ []). split; [unfold ane_h16_wr64; by rewrite -!app_assoc|]. constructor; [done|constructor].
Qed.

Lemma start_eps_sent h bitmap base :
  mbox_ready ->
  sent (map (fun w => (w, ANE_H16_EP_MGMT))
          (map (fun ep => mgmt_word ANE_H16_MGMT_STARTEP (startep_word (u8 (32 * base + ep))))
             (List.filter (fun ep => Z.testbit bitmap ep && system_ep (u8 (32 * base + ep))) (seqZ 0 32))))
    h (start_eps s h bitmap base).
Proof using Type.
  intros Hr. unfold start_eps. generalize (seqZ 0 32) as l. intros l. revert h.
  induction l as [|ep l IH]; intros h; cbn [foldl List.filter map]; [apply sent_nil|].
  destruct (Z.testbit bitmap ep); cbn [andb]; [|apply IH]. destruct (system_ep _); [|apply IH].
  cbn [map]. eapply (sent_trans [_]); [by apply mbox_send_sent|apply IH].
Qed.

Lemma rx_mgmt_sent h hello msg :
  mbox_ready ->
  sent (answers (msg, ANE_H16_EP_MGMT)) h (ane_h16_rtkit_rx_mgmt s h hello msg).1 /\
  (ane_h16_rtkit_rx_mgmt s h hello msg).2 = hello || is_hello (msg, ANE_H16_EP_MGMT).
Proof using Type.
  intros Hr. unfold ane_h16_rtkit_rx_mgmt, answers, is_hello, ane_h16_mbox_mgmt_send. cbn [fst snd].
  rewrite -built_replies_eq -mgmt_type_eq. unfold built_replies. change (ANE_H16_EP_MGMT =? 0) with true. cbn [andb].
  change 1 with ANE_H16_MGMT_HELLO at 1.
  destruct (_ =? ANE_H16_MGMT_HELLO); cbn [fst snd]; [rewrite orb_true_r|rewrite orb_false_r].
  { destruct (_ >? _); [split; [apply sent_nil|done]|]. split; [exact (mbox_send_sent _ _ _ Hr)|done]. }
  destruct (_ =? ANE_H16_MGMT_EPMAP); cbn [fst snd].
  { split; [|done]. destruct (negb _); cbv iota; rewrite List.map_cons; [|exact (mbox_send_sent _ _ _ Hr)].
    exact (sent_trans [_] _ _ _ _ (mbox_send_sent _ _ _ Hr) (start_eps_sent _ _ _ Hr)). }
  destruct (_ =? ANE_H16_MGMT_SET_IOP_PWR_STATE); cbn [fst snd]; (split; [|done]); [exact (mbox_send_sent _ _ _ Hr)|apply sent_nil].
Qed.

(** What a poll ends with: an empty mailbox, or a message that is not
    serviced. *)
Definition poll_end (empty : bool) (d : list ev) : Prop := exists v,
  if empty then d = [Rd32 (so_mbox s + ANE_H16_MBOX_I2A_CTRL) v] /\ Z.land v ANE_H16_MBOX_CTRL_EMPTY <> 0
  else exists msg w, d = [Rd32 (so_mbox s + ANE_H16_MBOX_I2A_CTRL) v; Rd64 (so_mbox s + ANE_H16_MBOX_I2A_RECV0) msg;
                          Rd64 (so_mbox s + ANE_H16_MBOX_I2A_RECV1) w] /\ serviced (u8 w) = false.

(** One round keeps the run a handshake. *)
Lemma rtkit_round_handshake h0 ms d n hello :
  mbox_ready -> handshake ms d -> hello = existsb is_hello ms ->
  twp (rtkit_round s (h0 ++ d, n, hello)) (fun r => match r with
    | inl (h', _, hello') => exists ms' d', h' = h0 ++ d' /\ handshake ms' d' /\ hello' = existsb is_hello ms'
    | inr (h', hello', empty) => hello' = hello /\ exists d', h' = h0 ++ d ++ d' /\ poll_end empty d'
    end).
Proof using Type.
  intros Hr Hd Hh. unfold rtkit_round, ane_h16_rd32, ane_h16_rd64.
  set (v := u32 (m_engine (h0 ++ d) (so_mbox s + ANE_H16_MBOX_I2A_CTRL))).
  destruct (Z.eqb_spec (Z.land v ANE_H16_MBOX_CTRL_EMPTY) 0) as [E|E]; cbn [negb].
  2: { assert (poll_end true [Rd32 (so_mbox s + ANE_H16_MBOX_I2A_CTRL) v]) as Hend by (by exists v).
    destruct hello; [cbn [twp]; split; [done|]; eexists; rewrite -app_assoc; by split|].
    destruct n as [|n]; [cbn [twp]; split; [done|]; eexists; rewrite -app_assoc; by split|]. cbn [twp].
    exists ms. eexists. split; [rewrite -!app_assoc; done|]. split; [|done]. by apply hs_idle. }
  set (h1 := (h0 ++ d) ++ _). set (msg := u64 (m_engine h1 _)). set (h2 := h1 ++ _). set (w := u64 (m_engine h2 _)). set (h3 := h2 ++ _).
  assert (h3 = h0 ++ d ++ [Rd32 (so_mbox s + ANE_H16_MBOX_I2A_CTRL) v; Rd64 (so_mbox s + ANE_H16_MBOX_I2A_RECV0) msg;
    Rd64 (so_mbox s + ANE_H16_MBOX_I2A_RECV1) w]) as H3 by (subst h3 h2 h1; by rewrite -!app_assoc).
  clearbody h3.
  assert (forall h4 m', sent (answers (msg, u8 w)) h3 h4 -> serviced (u8 w) = true -> m' = existsb is_hello (ms ++ [(msg, u8 w)]) ->
    exists ms' d', h4 = h0 ++ d' /\ handshake ms' d' /\ m' = existsb is_hello ms') as Hgo.
  { intros h4 m' (d4 & -> & H4) Hs ->. exists (ms ++ [(msg, u8 w)]). eexists.
    split; [rewrite H3 -!app_assoc; done|]. split; [by apply hs_message|done]. }
  destruct (Z.eqb_spec (u8 w) ANE_H16_EP_MGMT) as [E0|E0].
  - destruct (rx_mgmt_sent h3 hello msg Hr) as [Hs Hb]. destruct (ane_h16_rtkit_rx_mgmt s h3 hello msg) as [h4 b]. cbn [fst snd] in *.
    cbn [twp]. apply Hgo; [by rewrite E0|by rewrite E0|]. rewrite existsb_app E0 Hb Hh. cbn [existsb]. by rewrite orb_false_r.
  - destruct ((u8 w =? ANE_H16_EP_CRASHLOG) || (u8 w =? ANE_H16_EP_IOREPORT)) eqn:E1; cbn [twp].
    + assert (serviced (u8 w) = true) as Hs.
      { unfold serviced. change ANE_H16_EP_CRASHLOG with 1 in E1. change ANE_H16_EP_IOREPORT with 4 in E1. apply orb_true_iff in E1 as [-> | ->]; by rewrite ?orb_true_r. }
      apply Hgo; [|done|].
      * unfold answers. cbn [fst snd]. rewrite (proj2 (Z.eqb_neq _ _) E0) Hs. exact (mbox_send_sent _ _ _ Hr).
      * rewrite existsb_app. cbn [existsb is_hello fst snd]. unfold is_hello. cbn [fst snd]. rewrite (proj2 (Z.eqb_neq _ _) E0).
        by rewrite Hh !orb_false_r.
    + split; [done|]. eexists. split; [rewrite H3; done|]. exists v, msg, w. split; [done|].
      unfold serviced. change ANE_H16_EP_CRASHLOG with 1 in E1. change ANE_H16_EP_IOREPORT with 4 in E1.
      change ANE_H16_EP_MGMT with 0 in E0. apply orb_false_iff in E1 as [-> ->]. by rewrite (proj2 (Z.eqb_neq _ _) E0).
Qed.

(** The words written in a handshake are exactly the answers, in order. *)
Lemma handshake_writes ms d :
  handshake ms d -> List.filter is_write d = flat_map send_events (flat_map answers ms).
Proof using Type.
  assert (forall l d, sends l d -> List.filter is_write d = flat_map send_events l) as Hs.
  { induction 1 as [|m l w d' Hw _ IH]; [done|]. rewrite !List.filter_app IH. cbn [flat_map].
    assert (List.filter is_write w = []) as ->; [|done].
    induction Hw as [|e w He _ IHw]; [done|]. cbn [List.filter]. destruct e; done. }
  induction 1 as [|ms d v _ IH Hv He|ms d v msg w d' _ IH Hv Hsv Hd']; [done|..]; rewrite !List.filter_app IH.
  - cbn [List.filter is_write]. by rewrite app_nil_r.
  - rewrite flat_map_app flat_map_app. cbn [flat_map]. rewrite app_nil_r. f_equal. cbn [List.filter is_write app]. by apply Hs.
Qed.
End rtkit.

(** C27. With a mailbox that takes messages and a firmware that posts finitely
    many, the poll returns, and its accesses are those of [handshake]: every
    message is answered before the next one is read, HELLO with the lower of
    its highest version and 2 (nothing when its lowest version is above 2), the
    last part of the endpoint map with a reply and a start of each system
    endpoint it names, an earlier part with a reply only (so its endpoints are
    never started), a power state with its acknowledgement, a crash-log or
    report message with itself. HELLO is recorded exactly when one came, and a
    zero return means HELLO or a message the driver does not service. *)
Theorem h16_rtkit_exact `{Machine} e s h :
  mail_law e s -> mbox_ready s ->
  exists ms d d' v hello r empty,
    ane_h16_rtkit_poll s (e_mail e) h =
      Ret (h ++ [Rd32 (so_mbox s + ANE_H16_MBOX_I2A_CTRL) v; Wr32 (so_mbox s + ANE_H16_MBOX_I2A_CTRL) (Z.lor v 1)] ++ d ++ d', hello, r) /\
    handshake s ms d /\ List.filter is_write d = flat_map (send_events s) (flat_map answers ms) /\
    hello = existsb is_hello ms /\ poll_end s empty d' /\
    r = (if empty && negb hello then Some ETIMEDOUT else None).
Proof.
  intros Hm Hr. pose proof (rtkit_poll_total e s h Hm) as Ht. apply twp_ex in Ht as ([[h' hello] r] & Ht & _). rewrite Ht.
  unfold ane_h16_rtkit_poll, ane_h16_rd32, ane_h16_wr32 in Ht. set (v := u32 (m_engine h _)) in Ht. set (h1 := (h ++ _) ++ _) in Ht.
  apply bind_Ret_inv in Ht as ([[h2 b] em] & Hl & E). injection E as <- <- <-.
  assert (exists ms d d', h2 = h1 ++ d ++ d' /\ handshake s ms d /\ b = existsb is_hello ms /\ poll_end s em d') as (ms & d & d' & -> & Hd & Hb & Hend).
  { refine (loop_inv (rtkit_round s)
      (fun x => exists ms d, x.1.1 = h1 ++ d /\ handshake s ms d /\ x.2 = existsb is_hello ms)
      (fun y => exists ms d d', y.1.1 = h1 ++ d ++ d' /\ handshake s ms d /\ y.1.2 = existsb is_hello ms /\ poll_end s y.2 d')
      (e_mail e) (h1, m_polls h1, false) (h2, b, em) _ _ Hl).
    - intros [[hx n] hl] (ms & d & Ex & Hd & Eh). cbn [fst snd] in *. subst hx.
      pose proof (rtkit_round_handshake s h1 ms d n hl Hr Hd Eh) as Hs.
      destruct (rtkit_round s (h1 ++ d, n, hl)) as [[[[h' n'] hl']|[[h' hl'] em']]| |]; try done.
      + destruct Hs as [-> (d' & -> & Hend)]. by exists ms, d, d'.
    - exists [], []. split; [by rewrite app_nil_r|]. split; [constructor|done]. }
  exists ms, d, d', v, b, (if em then (if b then None else Some ETIMEDOUT) else None), em. split.
  { do 3 f_equal. subst h1. by rewrite -!app_assoc. }
  split; [done|]. split; [by apply handshake_writes|]. split; [done|]. split; [done|]. by destruct em, b.
Qed.

(** ** A small machine

    Two pages of firmware, all zero, preloaded as they are in the file; a
    machine whose power words are on, whose firmware wakes at once and posts
    one HELLO. *)

Definition small_img : ane_h16_fw := H16Fw "small" [7] 0x8008 0x4000 0x4000 0x4000 0x8000 8 0x5000 0x6000.

Definition small_row : ane_h16_soc :=
  H16Soc "t8132" 0x100 0x1600044 0x1600048 0x1050000 0x1880020 0x188c000 0x1890000 0x1608000
    0x501600000 0x501000000 [0x570; 0xc000; 0xc008; 0xc010; 0xc018] small_img.

Definition small_segs : ane_h16_seg * ane_h16_seg :=
  (H16Seg 0x800000000 0x10000 0x4000, H16Seg 0x900000000 0x100000 0x4000).

Definition small_tree : atree :=
  ANode [mk_prop "compatible" [1; 2; 3]]
    [ANode [mk_prop "name" (chars "arm-io" ++ [0])]
       [ANode [mk_prop "name" (chars "ane0" ++ [0]); mk_prop "ane-type" (le_bytes 4 0x100);
               mk_prop "segment-ranges"
                 (le_bytes 8 0x800000000 ++ le_bytes 8 0 ++ le_bytes 8 0x10000 ++ le_bytes 8 0x4000 ++
                  le_bytes 8 0x900000000 ++ le_bytes 8 0 ++ le_bytes 8 0x100000 ++ le_bytes 8 0x4000)] []]].

Definition small_nodes : list reserved_child :=
  [ReservedChild (Some "adt"%string) (Some (zlen (enc small_tree))) (inr (enc small_tree))].

Definition zeros (n : Z) : bytes := replicate (Z.to_nat n) 0.

(** Everything is granted; the boot stage is asked for. *)
Definition wake_env : h16_env :=
  H16Env (Some "t8132"%string) "boot" true true true (Some 0x100) true 5 (fun _ => None) (fun _ => true) true true true None
    (Some small_nodes) (inr (zeros 0x8008)) (fun _ n => inr (zeros (8 * ((n + 7) / 8)))) true 0x800000000 8.

Definition hello_msg : Z := Z.lor (Z.shiftl ANE_H16_MGMT_HELLO 52) (Z.lor (Z.shiftl 11 16) 1).

#[local] Instance small_machine : Machine := {
  m_pmgr := fun _ _ => 0xff;
  m_engine := fun h off =>
    if off =? so_scratch0 small_row + 28 then ANE_H16_WAKE_ACK
    else if off =? so_mbox small_row + ANE_H16_MBOX_I2A_CTRL then
      (if existsb (is_recv small_row) h then ANE_H16_MBOX_CTRL_EMPTY else 0)
    else if off =? so_mbox small_row + ANE_H16_MBOX_I2A_RECV0 then hello_msg
    else 0;
  m_polls := fun _ => 3%nat;
}.

#[local] Instance small_core : @IommuCore (sample_iommu 14) := {
  map_bytes := fun d i p n =>
    if decide (whole_pages [i; p] /\ n = P) then @iommu_map (sample_iommu 14) d i p else (d, Some EINVAL);
  unmap_bytes := fun d i n => if decide (whole_pages [i; n]) then @iommu_unmap (sample_iommu 14) d i n else (d, 0);
}.

Lemma small_core_laws : @IommuCoreLaws (sample_iommu 14) small_core.
Proof.
  split; unfold small_core; cbn [map_bytes unmap_bytes].
  - intros d i p H. by rewrite decide_True.
  - intros d i p n H. rewrite decide_False; [done|]. intros [Hw ->]. apply H.
    apply Forall_cons in Hw as [H1 Hw]. apply Forall_cons in Hw as [H2 _]. by repeat constructor.
  - intros d i n H. by rewrite decide_True.
  - intros d i n H. by rewrite decide_False.
Qed.

Definition small_dom : @domain (sample_iommu 14) := (∅ : gmap Z Z).

Lemma small_mail : mail_law wake_env small_row.
Proof.
  exists 1%nat. split; [|intros h; cbn; lia]. intros h Hh. cbn [m_engine small_machine].
  assert (existsb (is_recv small_row) h = true) as ->; [|by vm_compute].
  destruct (List.filter (is_recv small_row) h) as [|e l] eqn:Ef; [cbn in Hh; lia|].
  apply existsb_exists. exists e. apply filter_In. rewrite Ef. by left.
Qed.

Lemma small_segments :
  ane_h16_segments (Some small_nodes) 0x100 0x4000 8 = Ret (inr small_segs).
Proof. vm_compute. reflexivity. Qed.

Lemma zlen_zeros n : 0 <= n -> zlen (zeros n) = n.
Proof. intros Hn. unfold zeros. rewrite zlen_replicate. lia. Qed.

Lemma small_remap : remap_law wake_env.
Proof.
  intros p n m [= <-]. split.
  - unfold zeros. rewrite zlen_replicate. lia.
  - apply Forall_replicate. done.
Qed.

Lemma small_world : @h16_world small_machine wake_env small_row.
Proof.
  split.
  - intros l c [= <-] Hc. apply elem_of_cons in Hc as [->|Hc]; [done|]. by apply elem_of_nil in Hc.
  - vm_decide.
  - apply small_remap.
  - intros segs H. change (ane_h16_segments (Some small_nodes) 0x100 0x4000 8 = Ret (inr segs)) in H.
    rewrite small_segments in H. injection H as <-.
    assert (seg_aligned small_segs.1 /\ seg_aligned small_segs.2) as [A1 A2].
    { split; (split; [done|]; split; [done|]; split; [done|vm_decide]). }
    split; [done|]. by split.
  - apply small_mail.
Qed.

Abbreviation small_run :=
  (@ane_h16_probe (sample_iommu 14) sample_dma small_core (fun _ => [7]) small_machine wake_env small_row
     (@h16_fresh (sample_iommu 14) small_dom)).

(** The zeros of the preload are the zeros of the file. *)
Lemma byte_at_zeros n i : byte_at (zeros n) i = 0.
Proof. unfold byte_at, zeros. apply lookup_replicate_default. Qed.

Lemma word64_zeros n i : word64_at (zeros n) i = 0.
Proof.
  transitivity (word64_at (zeros 8) 0); [|done]. apply word64_at_same. intros y _. by rewrite !byte_at_zeros.
Qed.

Lemma small_stage dma d :
  dma_alloc (DmaCoherent := sample_dma) small_dom 0x8000 = Some (dma, d) ->
  exists buf, @ane_h16_stage (sample_iommu 14) sample_dma wake_env small_img small_segs (zeros 0x8008)
                (Image small_dom false None 0 0 true) =
    Ret (Image d false (Some buf) dma 0x8000 true, None).
Proof.
  intros Ha.
  pose proof (@stage_spec (sample_iommu 14) sample_dma wake_env small_img small_segs (zeros 0x8008) ltac:(vm_decide)
    (zlen_zeros 0x8008 ltac:(done)) small_remap eq_refl ltac:(cbn; lia) (Image small_dom false None 0 0 true)) as Hs.
  apply twp_ex in Hs as ([[d' hd cpu dma' n fw'] r] & -> & H1 & H2 & H3 & H4). cbn [i_dom i_has_dom i_cpu i_dma i_size i_fw] in *.
  change (stage_bytes small_img) with 0x8000 in *. rewrite Ha in H4. destruct H4 as (-> & -> & buf & -> & _ & Hr). subst.
  exists buf. destruct r as [err|]; [|done]. exfalso. cbn [e_remap wake_env] in Hr.
  assert (forall pn vm fo ex i, accepted_word small_img 0x10000 0x100000 (zeros 0x8008) (zeros pn) vm fo ex 0x8000 i) as Hok.
  { intros pn vm fo ex i. left. unfold file_word. rewrite !word64_zeros. by destruct (_ <=? _). }
  destruct Hr as [_ [(i & _ & _ & Hi)|(i & _ & _ & Hi)]]; apply Hi, Hok.
Qed.

Definition woken (r : res (@h16 (sample_iommu 14) * option errno)) : bool :=
  match r with Ret (x, None) => x_started x && existsb is_write (x_log x) | _ => false end.

Lemma small_run_woken : woken small_run = true.
Proof.
  unfold ane_h16_probe.
  change (negb (bool_decide (e_optin wake_env = Some (so_name small_row)))) with false. cbn match.
  change (negb (bool_decide (e_ane_type wake_env = Some (so_ane_type small_row)))) with false. cbn match.
  change (ane_h16_stage_idx (e_stage wake_env)) with (Some 3). cbn match.
  change (negb (e_kzalloc wake_env)) with false. change (3 =? 0) with false. change (negb (e_confirm_read wake_env)) with false. cbn match.
  replace (ane_h16_attach_pds wake_env (x_pm (@h16_fresh (sample_iommu 14) small_dom)))
    with (ane_h16_attach_pds wake_env power0) by reflexivity.
  destruct (ane_h16_attach_pds wake_env power0) as [p [err|]] eqn:E1; [vm_compute in E1; discriminate E1|].
  vm_compute in E1. injection E1 as <-.
  destruct (ane_h16_map wake_env _) as [p [err|]] eqn:E1; [vm_compute in E1; discriminate E1|].
  vm_compute in E1. injection E1 as <-. change (e_get_sync wake_env) with (None : option errno). cbn match.
  unfold probe_powered. 
  destruct (ane_h16_ps_wait small_row _) as [h [err|]] eqn:E1; [vm_compute in E1; discriminate E1|].
  vm_compute in E1. injection E1 as <-. change (3 =? 1) with false. cbn match.
  unfold ane_h16_boot.
  change (ane_h16_segments (e_nodes wake_env) (so_ane_type small_row) (fw_text_vmsize (so_fw small_row)) (fw_data_filesize (so_fw small_row)))
    with (ane_h16_segments (Some small_nodes) 0x100 0x4000 8). rewrite small_segments. cbn [mbind res_bind].
  replace (ane_h16_fw_pin (fun _ => [7]) wake_env (so_fw small_row)) with (inr (zeros 0x8008) : errno + bytes).
  2: { unfold ane_h16_fw_pin. change (e_request wake_env) with (inr (zeros 0x8008) : errno + bytes). cbn match.
       rewrite zlen_zeros; [|done]. done. }
  cbn match. cbv zeta.
  match goal with |- context [ane_h16_stage wake_env (so_fw small_row) small_segs (zeros 0x8008) ?i] =>
    change i with (@Image (sample_iommu 14) small_dom false None 0 0 true) end.
  change (so_fw small_row) with small_img.
  destruct (dma_alloc (DmaCoherent := sample_dma) small_dom 0x8000) as [[dma d]|] eqn:Ed; [|vm_compute in Ed; discriminate Ed].
  destruct (small_stage dma d Ed) as [buf ->]. vm_compute in Ed. injection Ed as <- <-.
  vm_compute. reflexivity.
Qed.

Lemma small_run_result : exists x', small_run = Ret (x', None) /\ x_started x' = true /\ exists ev, ev ∈ x_log x' /\ is_write ev = true.
Proof.
  pose proof small_run_woken as H. destruct small_run as [[x' [err|]]| |]; try discriminate H. cbn [woken] in H.
  apply andb_true_iff in H as [H1 (ev & Hev & Hw)%existsb_exists]. exists x'. split; [reflexivity|]. split; [done|].
  exists ev. split; [by apply list_elem_of_In|done].
Qed.

Lemma small_segments_row segs :
  ane_h16_segments (e_nodes wake_env) (so_ane_type small_row) (fw_text_vmsize (so_fw small_row)) (fw_data_filesize (so_fw small_row)) =
    Ret (inr segs) -> segs = small_segs.
Proof.
  cbn [e_nodes wake_env so_ane_type so_fw small_row fw_text_vmsize fw_data_filesize small_img]. rewrite small_segments.
  by injection 1.
Qed.

Lemma small_pin fw : ane_h16_fw_pin (fun _ => [7]) wake_env (so_fw small_row) = inr fw -> fw = zeros 0x8008.
Proof.
  unfold ane_h16_fw_pin. cbn [e_request wake_env]. generalize (zeros 0x8008). intros z.
  destruct (negb _); [discriminate|]. destruct (bool_decide _); [|discriminate]. by injection 1.
Qed.

(** *** Witnesses *)

Lemma h16_probe_gated_witness :
  exists x', small_run = Ret (x', None) /\ gated (so_ps_off small_row) (x_log x').
Proof.
  destruct (@h16_probe_gated (sample_iommu 14) (sample_iommu_laws 14 ltac:(lia)) sample_dma sample_dma_laws small_core
    small_core_laws small_machine (fun _ => [7]) wake_env small_row small_dom) as [Hlog Hret].
  destruct (Hret small_world) as (x' & r & Hr). destruct (Hlog x' r Hr) as [Hg _].
  destruct small_run_result as (y & Hy & _). rewrite Hy in Hr. injection Hr as <- <-. exists y. split; [exact Hy|exact Hg].
Defined.



Lemma h16_rtkit_exact_witness :
  exists h, ane_h16_rtkit_poll small_row 8 [] = Ret (h, true, None) /\
    exists ms d, handshake small_row ms d /\ existsb is_hello ms = true.
Proof.
  destruct (@h16_rtkit_exact small_machine wake_env small_row [] small_mail) as (ms & d & d' & v & hello & r & em & Hp & Hd & _ & Hh & _).
  - intros h. vm_compute. reflexivity.
  - change (e_mail wake_env) with 8%nat in Hp. exists (([] : list ev) ++ [Rd32 (so_mbox small_row + ANE_H16_MBOX_I2A_CTRL) v; Wr32 (so_mbox small_row + ANE_H16_MBOX_I2A_CTRL) (Z.lor v 1)] ++ d ++ d').
    assert (match ane_h16_rtkit_poll small_row 8 [] with Ret (_, b, r) => b && bool_decide (r = None) | _ => false end = true) as E
      by (vm_compute; reflexivity).
    rewrite Hp in E |- *. apply andb_true_iff in E as [E1 E2]. apply bool_decide_eq_true in E2. rewrite E1 E2. split; [done|].
    exists ms, d. split; [done|]. congruence.
Defined.
